(* ===== verification/_CoqProject ===== *)
-Q . S2P
Prelude.v
Numeric.v
Structs.v
CPUContext.v
MinidumpContext.v
Strings.v
FileIO.v
Uuid.v
MemoryRanges.v
RangeSet.v
RingBuffer.v
AnnotationList.v
ClientContainers.v
ProcessMemory.v
Streams.v
MemoryMap.v
ElfImage.v
ElfNotes.v
ElfSymbols.v
LinuxProcess.v
CaptureMemory.v
FileSystem.v
Settings.v
CrashReportDatabase.v
DatabaseLogic.v
DatabaseConcurrency.v
DatabaseRefinement.v
PruneReports.v
MinidumpWritable.v
MinidumpObjects.v
CrashpadTypes.v
ModuleElf.v
HttpMultipart.v
MinidumpStreams.v
MinidumpModules.v
MinidumpSystem.v
MinidumpFile.v
Sanitized.v
MinidumpReaders.v
IntermediateDump.v
ProcessSnapshot.v
UploadParameters.v
UploadThread.v
RoundTrip.v
StreamReadBack.v
ProcessRoundTrip.v
