(* ===== verification/Prelude.v ===== *)
(** * Verification of Crashpad's minidumps, crash reports and client containers

    Crashpad captures the state of a crashed process in a snapshot, writes the
    snapshot to a minidump file in a database of crash reports, and can read such a
    file back.  This development models the path of the data: the annotations a client
    keeps for the handler to find (client/), how they are found in the memory of the
    client (snapshot/crashpad_types) from its ELF image (snapshot/elf), what is left of
    a snapshot that is sanitized (snapshot/sanitized), the dumps that a crashed iOS
    program writes for its next run (util/ios), the objects a minidump consists of and how
    they are laid out and written (minidump/), the snapshot that is read back from a
    file (snapshot/minidump/), the database and its settings, which several processes
    use at the same time (client/), the thread that uploads the reports (handler/) as
    multipart messages (util/net), and the utilities all of them are built on
    (util/file, util/numeric, util/misc, util/string, util/stdlib).

    ** Files, and what they correspond to

    - Prelude: machine integers with their wrap-around, bytes and little-endian
      encoding, array slices, tactics and the hint database [cp].
    - Numeric: [AssignIfInRange], [InRangeCast], [CheckedRange],
      [CheckedAddressRange] (util/numeric).  An integer type is a value of
      [int_type], so that the templates are functions of it.
    - Structs: the object representation of structures, as a record of operations
      [Repr] with its laws as a class, built from the fields.
    - CPUContext: the CPU contexts of snapshot/cpu_context.h and the conversions of
      x87 state of snapshot/cpu_context.cc.
    - MinidumpContext: the context structures of minidump/minidump_context.h, their
      writers (minidump_context_writer.cc) and the converter that reads them
      (snapshot/minidump/minidump_context_converter.cc).
    - Strings: [StringToNumber] over a model of the C library's [strtol] family
      (util/stdlib/string_number_conversion.cc), [SplitString]
      (util/string/split_string.cc).
    - FileIO: the interfaces of file readers and writers as type classes with
      their laws, [StringFile] as an instance, and the loops built on them:
      [ReadExactly], [WriteAll], [LoggingReadToEOF], the POSIX [WriteIoVec],
      [DelimitedFileReader] (util/file).
    - Uuid: [UUID] (util/misc/uuid.cc).
    - MemoryRanges: [DetermineMergedRange] (snapshot/memory_snapshot.cc) and the
      coalescing of memory ranges (minidump/minidump_memory_writer.cc).
    - RangeSet: [RangeSet] (util/misc/range_set.cc).
    - RingBuffer: the length-delimited ring buffer and its annotation (client/),
      with every array access checked against the array.
    - AnnotationList: [AnnotationList::Add] (client/annotation_list.cc) as the atomic
      steps of any number of threads, and a reader of the list meanwhile.
    - ClientContainers: [TSimpleStringDictionary], [TSimpleAddressRangeBag],
      [Annotation] (client/).
    - ProcessMemory: [ProcessMemory] as a class whose [ReadUpTo] a system implements,
      with its laws, the reads that are built on it, [ProcessMemoryRange] and
      [ProcessMemorySanitized] (util/process), and a concrete memory as an instance.
    - Streams: [Base94OutputStream] and [LogOutputStream] (util/stream), over any output
      stream and any log.
    - MemoryMap: [MemoryMap] (util/linux/memory_map.cc), which reads /proc/pid/maps.
    - ElfImage, ElfNotes, ElfSymbols: [ElfImageReader] (snapshot/elf): its headers and
      program headers, its notes, and its dynamic array and symbol table, which are read
      when they are asked for first.
    - LinuxProcess: [AuxiliaryVector] (util/linux), and [DebugRendezvous]
      (snapshot/linux), the list of the objects that the dynamic linker has loaded.
    - CaptureMemory: [CaptureMemory] (snapshot/capture_memory.cc) for any delegate, and
      the delegate of Linux, with MemoryMap and ProcessMemory.
    - CrashpadTypes: [CrashpadInfo] (client/) and the lists it points to, as they are in
      memory, and their readers (snapshot/crashpad_types and the part of
      snapshot/elf/module_snapshot_elf.cc that uses them).
    - ModuleElf: [ModuleSnapshotElf::Initialize], which finds the [CrashpadInfo] by a
      note of the ELF image, and the identifiers that come from its build ID.
    - IntermediateDump: the buffered writer of intermediate dumps, with a call for each
      command, their reader and the objects that it makes (util/ios).
    - FileSystem: names, inodes and handles, system calls that may fail, programs of
      system calls ([Prog]) that run alone or interleaved with those of other
      processes ([pool_step]), and the functions of util/file on them; a weakest
      precondition [wp] for programs that run alone.  [base::FilePath] is the class
      [FilePath] with its laws, and [Clock] the times that the clock may show while a
      program runs.
    - Settings: [Settings] (client/settings.cc).
    - CrashReportDatabase: [CrashReportDatabaseGeneric] and the classes of
      crash_report_database.cc (client/), call by call.
    - DatabaseLogic: which files a process may use while other processes run, as a
      discipline on programs ([cwp]) that is sound for [pool_step].
    - DatabaseConcurrency: the operations that follow the discipline, and executions
      of those that do not.
    - DatabaseRefinement: the database of a single process, with its settings, as a map
      of reports and a record; [Attached] says what attachments there are, for what
      depends on their sizes or on whether they can be read.
    - PruneReports: [PruneCrashReportDatabase] (client/prune_crash_reports.cc), over the
      operations of a database it calls and what they promise.
    - HttpMultipart: [HTTPMultipartBuilder], the streams of request bodies and the
      functions on URLs (util/net), with a parser of multipart messages.
    - UploadParameters: [BreakpadHTTPFormParametersFromMinidump]
      (handler/minidump_to_upload_parameters.cc).
    - UploadThread: [CrashReportUploadThread] (handler/crash_report_upload_thread.cc),
      with the requests that it gives to the transport.
    - MinidumpWritable: [MinidumpWritable::WriteEverything], the two-phase layout
      of a tree of objects that fill in each other's fields.
    - MinidumpObjects, MinidumpStreams, MinidumpModules, MinidumpSystem: the classes
      derived from [MinidumpWritable].  Each class is a Module (or a group of
      definitions) with its mutable state as a record, its setters and
      [InitializeFromSnapshot], and [Freeze], which builds the frozen tree of objects:
      virtual functions have become the fields of [Writable].
    - MinidumpFile: [MinidumpFileWriter], with [InitializeFromSnapshot] and
      [WriteMinidump].
    - Sanitized: [ProcessSnapshotSanitized] with the sanitized snapshots of threads,
      modules and memory, and the lists of what is allowed (snapshot/sanitized).
    - MinidumpReaders, ProcessSnapshot: [ReadMinidumpString] and its relatives,
      and [ProcessSnapshotMinidump::Initialize] with the snapshots it creates.
    - RoundTrip, StreamReadBack, ProcessRoundTrip: the writer and the reader together:
      the directory and the modules, the other streams one by one, the whole process.

    ** Conventions of the model

    A byte is an integer, [is_byte] says it is in range, and a sequence of bytes a
    list.  Integers are kept at their width where the code can overflow ([u32],
    [u64], [wrap], [cast]); the data model is LP64.  An object of a minidump is known
    by its address, which is its path in the tree of objects, and a field another
    object fills in is a slot: an address and a field number.  [state_] and
    [leading_pad_bytes_] of the objects and the slots form a [Heap] that the
    layout threads through.  A failing function returns [None], or an error of
    [result], [outcome] or [run], which tell a reported failure from a failed
    CHECK or DCHECK and from undefined behaviour (an access outside an array); a
    program on the file system that fails a DCHECK is [Stop].  A destructor is called
    where the scope of its object ends.  Logging has no effect on the model.

    Code that is not part of the repository is a parameter: the conversions
    between UTF-8 and UTF-16 of base, [base::FilePath], [base::CheckLsh], [base::RandInt],
    the [write] and [writev] system calls, the memory of the process.  What is assumed of them is a named
    hypothesis or a class of laws ([CheckLsh_exact], [reads_exactly], [write_law],
    [FilePathLaws], [ProcessMemoryLaws]), and the witnesses give concrete instances.  The loops of util/file
    are structurally recursive on fuel: the definitions choose it from the size asked
    for, and the theorems show that it never runs out, because each step makes
    progress.  Varints take at most ten bytes, hence fuel 10 in RingBuffer; directories
    are nested less deep than a path has characters, hence fuel 2048 in
    [GetDirectorySize].  The lists in the memory of a client have no limit of their own:
    [ReadAllowedAnnotations] and [CustomMinidumpStreams] take their fuel as an argument,
    as [NextNote] does for the notes of an image and the reader of an intermediate dump
    for its commands, and the theorems say which fuel is enough.

    ** What is proved

    - The file as a whole: a process written by [WriteMinidump] is read back by
      [Initialize] ([minidump_round_trip]): times, IDs and annotations, the parts of the
      system that survive (all that is read of it is in [system_initialized]),
      threads with their names, stacks and registers, the exception, modules, the
      memory map, the coalesced memory and the user streams.  The directory lists each
      stream where it was written ([directory_recovered]).
    - The layout: the imperative two-phase [WriteEverything] refines a declarative
      [layout] ([write_everything_writes_layout]), each registered field points to its
      object ([layout_objects_found]), offsets that do not fit are refused before
      a byte is written ([write_everything_out_of_range]), and [WriteMinidump]
      gives the same file with and without seeking
      ([write_minidump_correct]).  Each class is shown to freeze to a tree that
      meets the hypotheses ([freezes_owned]): it writes as many bytes as it says,
      registers only fields of its own, and owns its addresses.
    - The streams: [initialize_from_snapshot_streams], [add_stream_keeps_first],
      [thread_id_map_injective], [coalesce_owned_memory_spec],
      [merge_memory_bytes], [amd64_features_table].
    - CPU contexts: [context_round_trip], [amd64_extended_context], [x87_tag_word_classifies], [x87_state_round_trip].
    - The database: whatever the interleaving of the calls of several processes, no
      report is lost ([no_report_lost]); [RequestUpload] and an upload that is given up
      are not covered, and can lose one ([request_upload_race],
      [abandoned_upload_race]).  The settings are a record ([settings_refine_record]).
      For one process the database is a map of reports ([database_refines_map]), and
      pruning keeps the newest reports that fit, with the sizes their files have and by
      the time the clock shows ([prune_keeps_newest]).
    - Uploads: a pass of the upload thread ends, sends every pending report that may and
      can be sent and leaves none pending ([upload_pass_correct]), sends only what the
      settings and, by the times of the clock, the rate limit allow
      ([uploads_respect_settings]), with the parameters the minidump has
      ([parameters_spec], and [parameters_any] where its documentation says otherwise), in
      a message that a server reads as it was built ([multipart_round_trip]); [crack_url_iff], [url_encode_correct].
    - The handler and the client: a read of the memory of another process gives all of
      the bytes or fails ([memory_range_correct]); the [CrashpadInfo] of a client of any
      version is read ([crashpad_info_any_version]), and the annotations that threads of
      the client have added to it, while others are being added, are found from the
      client's ELF image ([client_found_in_image]), as are its streams
      ([custom_streams_found]).
    - ELF images: which images are accepted, and that the reader stays in their memory
      ([elf_image_initialized]); each note is found ([notes_found]), and each symbol with
      its address in memory, by hash tables of both kinds ([dynamic_symbol_found]).
    - Memory maps: the maps file is read as the kernel writes it ([memory_map_read]), and
      the readable ranges are exactly the readable addresses ([readable_ranges_exact]);
      [find_mapping_spec], [possible_starts_spec].
    - The link map of a process is read if and only if it ends ([link_map_found]); its
      auxiliary vector is read ([auxiliary_vector_read]); and the readable memory around
      pointers is captured, within a budget ([memory_captured]).
    - Output streams: decoding undoes encoding ([base94_round_trip]), and a log holds the
      data ([log_written]).
    - Intermediate dumps: a tree, with the keys of its maps written in any order, is read
      back ([intermediate_dump_round_trip]), and of a
      file that ends anywhere what is read is part of the tree
      ([intermediate_dump_interrupted]); strings are read across pages
      ([property_string_found]), and the reader ends on any file ([parse_always_ends]).
    - Sanitized snapshots: only what is allowed is left of a process
      ([sanitized_process_redacted], [memory_redacted], [sanitized_reads_allowed]), what
      is allowed is read as the client wrote it ([sanitization_information_read]), a
      crash that is not related to the target module is refused
      ([target_module_checked]), and the set of addresses this depends on is a set
      ([range_set_refines_set]).
    - The client: [annotation_list_concurrent], [add_obstruction_free],
      [dictionary_refines_map]; the ring buffer is a bounded queue
      ([ring_buffer_fifo]) that survives serialization ([ring_buffer_serialization]).
    - The utilities: [get_delim_next_field], [write_io_vec_writes_all],
      [read_exactly_reads_prefix], [uuid_string_roundtrip],
      [string_to_number_decimal], [split_string_join],
      [checked_range_denotation], [address_range_pointer_width].
    - Where the code does not do what it means to, a theorem says what it does:
      [modules_without_info_rejected], [push_over_half_not_stored],
      [deserialize_range_unchecked], [coalesce_all_empty_undefined],
      [exception_parameters_unchecked], [processor_frequencies_exchanged],
      [component_flags_ignored], [x86_system_accepted_unless_hygon] and the two
      executions of the database above, [cyclic_streams_never_end],
      [retry_does_not_recover], [begin_message_repeated], [vdso_alone_undefined],
      [abutting_dropped], [attachment_keeps_field], [read_property_too_long],
      [oldest_rounded], [small_word_max_kept], [process_annotations_unrestricted],
      [target_module_any].

    ** What is not modelled

    The snapshots of running processes (but for what is said of them above), what an iOS
    program puts into its intermediate dump, the handler's main program and the HTTP
    transport work on operating-system state and are left out, as are the databases of
    macOS (extended attributes) and Windows (one file behind a lock), symbolic links,
    permissions, and the settings' lock files of systems without [flock].  The upload
    thread is that of systems other than iOS; compression, the transport and the random
    numbers of a boundary are parameters, and the [WorkerThread] that calls
    [ProcessPendingReports] is left out.  Memory is sequentially consistent in
    AnnotationList. *)

From stdpp Require Export base list option strings numbers gmap sorting.
From Stdlib Require Export ZArith Lia.

#[global] Open Scope Z_scope.
#[global] Arguments Z.pow : simpl never.
#[global] Arguments Z.modulo : simpl never.
#[global] Arguments Z.div : simpl never.
#[global] Arguments Z.mul : simpl never.
#[global] Arguments Z.add : simpl never.
#[global] Arguments Z.sub : simpl never.
#[global] Arguments Z.leb : simpl never.
#[global] Arguments Z.ltb : simpl never.
#[global] Arguments Z.eqb : simpl never.
#[global] Arguments Z.of_nat : simpl never.
#[global] Arguments Z.to_nat : simpl never.

(** ** Notation and automation *)

Declare Scope crashpad_scope.
Delimit Scope crashpad_scope with cp.

(** Bytes are integers; [is_byte] says that one is in range. *)
Abbreviation byte_t := Z (only parsing).
Abbreviation bytes := (list Z) (only parsing).

Create HintDb cp discriminated.

(** Length computations on lists, pushed to [Z] or [nat] goals for [lia]. *)
Ltac len_simpl :=
  repeat (rewrite ?length_app, ?length_take, ?length_drop, ?length_replicate,
            ?length_insert, ?length_fmap, ?length_map, ?length_nil, ?length_cons in * ).
Ltac len_lia := len_simpl; simpl length in *; lia.

(** Split the boolean tests of the goal or of a hypothesis. *)
Ltac break_if :=
  match goal with
  | |- context [if ?c then _ else _] => let E := fresh "E" in destruct c eqn:E
  | H : context [if ?c then _ else _] |- _ => let E := fresh "E" in destruct c eqn:E
  end.
Ltac break_match :=
  match goal with
  | |- context [match ?c with _ => _ end] => let E := fresh "E" in destruct c eqn:E
  | H : context [match ?c with _ => _ end] |- _ => let E := fresh "E" in destruct c eqn:E
  end.
(** Turn every boolean comparison hypothesis on [Z] into its proposition. *)
Ltac bool_to_prop :=
  repeat match goal with
  | H : _ && _ = true |- _ => apply andb_true_iff in H as [? ?]
  | H : _ || _ = false |- _ => apply orb_false_iff in H as [? ?]
  | H : negb _ = true |- _ => apply negb_true_iff in H
  | H : negb _ = false |- _ => apply negb_false_iff in H
  | H : (_ <=? _) = true |- _ => apply Z.leb_le in H
  | H : (_ <=? _) = false |- _ => apply Z.leb_gt in H
  | H : (_ <? _) = true |- _ => apply Z.ltb_lt in H
  | H : (_ <? _) = false |- _ => apply Z.ltb_ge in H
  | H : (_ =? _) = true |- _ => apply Z.eqb_eq in H
  | H : (_ =? _) = false |- _ => apply Z.eqb_neq in H
  end.

(** Discharge the hypotheses of a theorem at a concrete input, by evaluation. *)
Ltac concrete :=
  repeat match goal with |- _ /\ _ => split end;
  first [ reflexivity | vm_compute; reflexivity | vm_compute; congruence | done | lia
        | vm_compute; repeat split; congruence ].

(** ** Outcomes *)

(** The outcome of a step: [false], a result, or undefined behaviour. *)
Inductive outcome (A : Type) :=
  | Failed
  | Done (x : A)
  | Undefined.
Arguments Failed {A}.
Arguments Done {A} x.
Arguments Undefined {A}.

Definition lift {A} (o : option A) : outcome A :=
  match o with Some x => Done x | None => Failed end.
Definition outcome_bind {A B} (x : outcome A) (k : A -> outcome B) : outcome B :=
  match x with Failed => Failed | Done a => k a | Undefined => Undefined end.
Notation "'step!' x := e 'in' k" := (outcome_bind e (fun x => k))
  (at level 10, x strict pattern, e at level 100, k at level 200).

(** ** Machine integers *)

(** The reduction of an integer to an unsigned type of [w] bits. *)
Definition wrap (w z : Z) : Z := z mod 2 ^ w.
Abbreviation u8 := (wrap 8) (only parsing).
Abbreviation u16 := (wrap 16) (only parsing).
Abbreviation u32 := (wrap 32) (only parsing).
Abbreviation u64 := (wrap 64) (only parsing).

(** The values an unsigned type of [w] bits holds. *)
Definition fits (w z : Z) : bool := (0 <=? z) && (z <? 2 ^ w).

(** The values a signed (two's complement) type of [w] bits holds. *)
Definition fits_signed (w z : Z) : bool := (- 2 ^ (w - 1) <=? z) && (z <? 2 ^ (w - 1)).

(** The reduction of an integer to a signed type of [w] bits. *)
Definition wrap_signed (w z : Z) : Z :=
  (z + 2 ^ (w - 1)) mod 2 ^ w - 2 ^ (w - 1).

Lemma fits_spec w z : fits w z = true <-> 0 <= z < 2 ^ w.
Proof. unfold fits. rewrite andb_true_iff, Z.leb_le, Z.ltb_lt. lia. Qed.

Lemma fits_signed_spec w z :
  fits_signed w z = true <-> - 2 ^ (w - 1) <= z < 2 ^ (w - 1).
Proof. unfold fits_signed. rewrite andb_true_iff, Z.leb_le, Z.ltb_lt. lia. Qed.

Lemma wrap_small w z : 0 <= z < 2 ^ w -> wrap w z = z.
Proof. apply Z.mod_small. Qed.

Lemma wrap_bound w z : 0 <= w -> 0 <= wrap w z < 2 ^ w.
Proof. intros. apply Z.mod_pos_bound. lia. Qed.

Lemma wrap_signed_wrap w z :
  0 < w -> - 2 ^ (w - 1) <= z < 2 ^ (w - 1) -> wrap_signed w (wrap w z) = z.
Proof.
  intros Hw Hz. unfold wrap_signed, wrap.
  assert (2 ^ w = 2 * 2 ^ (w - 1)) as E by (rewrite <-Z.pow_succ_r by lia; f_equal; lia).
  rewrite Zplus_mod_idemp_l, Z.mod_small; lia.
Qed.
Lemma wrap_wrap w z : 0 <= w -> wrap w (wrap w z) = wrap w z.
Proof. intros. apply wrap_small, wrap_bound. done. Qed.

(** [x & ~(2^k - 1)], of 64 bits. *)
Lemma land_aligned x k : 0 <= x < 2 ^ 64 -> 0 <= k <= 64 -> Z.land x (u64 (Z.lnot (2 ^ k - 1))) = 2 ^ k * (x / 2 ^ k).
Proof.
  intros Hx Hk. transitivity (Z.ldiff x (Z.ones k)).
  - apply Z.bits_inj'. intros i Hi. rewrite Z.land_spec, Z.ldiff_spec. unfold wrap. destruct (Z.ltb_spec i 64) as [H64|H64].
    + rewrite Z.mod_pow2_bits_low by done. rewrite Z.lnot_spec by done. by rewrite Z.ones_equiv, Z.sub_1_r.
    + assert (Z.testbit x i = false) as ->; [|done].
      rewrite <-(Z.mod_small x (2 ^ 64)) by done. by rewrite Z.mod_pow2_bits_high by lia.
  - rewrite Z.ldiff_ones_r, Z.shiftr_div_pow2, Z.shiftl_mul_pow2 by lia. lia.
Qed.

(** *** Bits *)

Lemma bits_below n x :
  0 <= n -> (forall b, n <= b -> Z.testbit x b = false) -> 0 <= x < 2 ^ n.
Proof.
  intros Hn Hb. assert (x = x mod 2 ^ n) as ->; [|apply Z.mod_pos_bound; lia].
  apply Z.bits_inj'. intros b Hle. destruct (Z.ltb_spec b n).
  - by rewrite Z.mod_pow2_bits_low.
  - rewrite Z.mod_pow2_bits_high by lia. by apply Hb.
Qed.

Lemma lor_shiftl_add a b n :
  0 <= n -> 0 <= a < 2 ^ n -> Z.lor a (Z.shiftl b n) = a + b * 2 ^ n.
Proof.
  intros Hn Ha. assert (Z.land a (Z.shiftl b n) = 0) as Hl.
  { apply Z.bits_inj'. intros i Hi. rewrite Z.land_spec, Z.bits_0.
    destruct (Z.ltb_spec i n).
    - rewrite Z.shiftl_spec_low by lia. apply andb_false_r.
    - rewrite <-(Z.mod_small a (2 ^ n)) by done.
      rewrite Z.mod_pow2_bits_high by lia. done. }
  rewrite <-Z.lxor_lor, <-Z.add_nocarry_lxor by done.
  by rewrite Z.shiftl_mul_pow2 by lia.
Qed.

Lemma land_ones_mod a n : 0 <= n -> Z.land a (2 ^ n - 1) = a mod 2 ^ n.
Proof. intros. rewrite <-Z.land_ones by done. f_equal. rewrite Z.ones_equiv. lia. Qed.

(** ** Bytes and strings *)

Definition is_byte (b : byte_t) : Prop := 0 <= b < 256.
#[export] Instance is_byte_dec b : Decision (is_byte b).
Proof. unfold is_byte. apply _. Defined.

(** A string literal as the bytes a [std::string] holds. *)
Fixpoint str (s : string) : bytes :=
  match s with
  | EmptyString => []
  | String c s' => Z.of_N (Ascii.N_of_ascii c) :: str s'
  end.

(** The code of a character literal. *)
Definition chr (c : Ascii.ascii) : byte_t := Z.of_N (Ascii.N_of_ascii c).

Lemma is_byte_chr c : is_byte (chr c).
Proof. unfold is_byte, chr. pose proof (Ascii.N_ascii_bounded c). lia. Qed.

Lemma str_bytes s : Forall is_byte (str s).
Proof. induction s; simpl; constructor; [apply is_byte_chr | done]. Qed.

(** ** Little-endian encodings *)

(** The [n] low bytes of [z], least significant first. *)
Fixpoint le_bytes (n : nat) (z : Z) : bytes :=
  match n with
  | O => []
  | S n' => z mod 256 :: le_bytes n' (z / 256)
  end.

(** The integer a little-endian byte sequence denotes. *)
Fixpoint le_value (l : bytes) : Z :=
  match l with
  | [] => 0
  | b :: l' => b + 256 * le_value l'
  end.

Lemma length_le_bytes n z : length (le_bytes n z) = n.
Proof. revert z; induction n; intros; simpl; auto. Qed.

Lemma le_bytes_bytes n z : Forall is_byte (le_bytes n z).
Proof.
  revert z; induction n; intros; simpl; constructor; auto.
  apply Z.mod_pos_bound; lia.
Qed.

Lemma le_value_bytes n z : le_value (le_bytes n z) = z mod 256 ^ Z.of_nat n.
Proof.
  revert z; induction n as [|n IH]; intros z; simpl le_value; [by rewrite Z.mod_1_r|].
  rewrite IH, Nat2Z.inj_succ, Z.pow_succ_r by lia.
  rewrite Z.rem_mul_r by lia. lia.
Qed.

Lemma le_bytes_value n l : Forall is_byte l -> length l = n -> le_bytes n (le_value l) = l.
Proof.
  intros Hb. revert n; induction Hb as [|b l Hb _ IH]; intros n <-; [done|].
  unfold is_byte in Hb. simpl. f_equal.
  - rewrite Z.mul_comm, Z_mod_plus_full. by apply Z.mod_small.
  - rewrite Z.mul_comm, Z.div_add, Z.div_small by lia. by apply IH.
Qed.

Lemma le_value_bytes_small n z :
  0 <= z < 256 ^ Z.of_nat n -> le_value (le_bytes n z) = z.
Proof. intros. rewrite le_value_bytes. by apply Z.mod_small. Qed.

Lemma le_value_bound l : Forall is_byte l -> 0 <= le_value l < 256 ^ Z.of_nat (length l).
Proof.
  induction 1 as [|b l Hb _ IH]; simpl le_value; [lia|].
  rewrite length_cons, Nat2Z.inj_succ, Z.pow_succ_r by lia. unfold is_byte in Hb. lia.
Qed.

(** ** Lists *)

Lemma NoDup_map_inj {A B} (f : A -> B) (l : list A) x y :
  NoDup (map f l) -> x ∈ l -> y ∈ l -> f x = f y -> x = y.
Proof.
  induction l as [|a l IH]; simpl; [by intros _ ?%not_elem_of_nil|].
  intros [Hn Hd]%NoDup_cons. rewrite !elem_of_cons.
  assert (forall z, z ∈ l -> f z <> f a) as Hne.
  { intros z Hz e. apply Hn. rewrite <-e. by apply list_elem_of_fmap_2. }
  intros [->|Hx] [->|Hy] E; [done| | |auto].
  - by destruct (Hne y Hy).
  - by destruct (Hne x Hx).
Qed.

Lemma elem_of_concat {A} (x : A) (ls : list (list A)) :
  x ∈ concat ls <-> exists l, x ∈ l /\ l ∈ ls.
Proof.
  induction ls as [|l ls IH]; simpl.
  - split; [by intros ?%not_elem_of_nil|by intros (? & _ & ?%not_elem_of_nil)].
  - rewrite elem_of_app, IH. set_solver.
Qed.

(** ** C strings *)

(** The characters of a NUL-terminated string. *)
Fixpoint c_str (s : list Z) : list Z :=
  match s with
  | [] => []
  | c :: s' => if c =? 0 then [] else c :: c_str s'
  end.

Lemma length_c_str s : (length (c_str s) <= length s)%nat.
Proof. induction s as [|c s IH]; simpl; [lia|]. destruct (c =? 0); simpl; lia. Qed.

Lemma c_str_app s l : Forall (fun c => c <> 0) s -> c_str (s ++ 0 :: l) = s.
Proof.
  induction 1 as [|c s Hc _ IH]; simpl; [done|]. destruct (Z.eqb_spec c 0); [done|]. by rewrite IH.
Qed.

Lemma c_str_no_nul s : Forall (fun c => c <> 0) (c_str s).
Proof.
  induction s as [|c s IH]; simpl; [constructor|]. destruct (Z.eqb_spec c 0); by constructor.
Qed.

Lemma c_str_pad s n : c_str (s ++ replicate n 0) = c_str s.
Proof.
  induction s as [|c s IH]; simpl; [|by rewrite IH]. by destruct n.
Qed.

Lemma c_str_whole l : Forall (fun u => u <> 0) l -> c_str l = l.
Proof. induction 1 as [|c l Hc _ IH]; simpl; [done|]. destruct (Z.eqb_spec c 0); [done|]. by rewrite IH. Qed.

(** ** Arrays of bytes *)

(** [memcpy] of [d] over [l] from index [off]; in range, the length is kept. *)
Definition overwrite {A} (off : nat) (d l : list A) : list A :=
  take off l ++ d ++ drop (off + length d) l.

(** The [n] elements of [l] from index [off]. *)
Definition slice {A} (off n : nat) (l : list A) : list A := take n (drop off l).

Section Arrays.
  Context {A : Type}.
  Implicit Types (l d : list A).

Lemma length_overwrite off d l :
  (off + length d <= length l)%nat -> length (overwrite off d l) = length l.
Proof. unfold overwrite. intros. len_lia. Qed.

Lemma length_slice off n l :
  (off + n <= length l)%nat -> length (slice off n l) = n.
Proof. unfold slice. intros. len_lia. Qed.

Lemma slice_all l : slice 0 (length l) l = l.
Proof. unfold slice. by rewrite drop_0, firstn_all. Qed.

Lemma slice_split off n m l :
  slice off (n + m) l = slice off n l ++ slice (off + n) m l.
Proof. unfold slice. rewrite <-drop_drop. symmetry. apply take_take_drop. Qed.

Lemma slice_overwrite_eq off d l :
  (off + length d <= length l)%nat -> slice off (length d) (overwrite off d l) = d.
Proof.
  intros. unfold slice, overwrite.
  rewrite drop_app_length' by len_lia. by rewrite take_app_length.
Qed.

Lemma slice_overwrite_before off d l o n :
  (o + n <= off)%nat -> (off <= length l)%nat -> slice o n (overwrite off d l) = slice o n l.
Proof.
  intros. unfold slice, overwrite.
  rewrite drop_app_le by len_lia. rewrite take_app_le by len_lia.
  rewrite skipn_firstn_comm, take_take. f_equal. lia.
Qed.

Lemma slice_overwrite_after off d l o n :
  (off + length d <= o)%nat -> (off <= length l)%nat ->
  slice o n (overwrite off d l) = slice o n l.
Proof.
  intros. unfold slice, overwrite.
  rewrite app_assoc, drop_app_ge by len_lia.
  rewrite drop_drop. do 2 f_equal. len_lia.
Qed.

End Arrays.
