(* ===== verification/Numeric.v ===== *)
(** * Checked ranges (util/numeric)

    Models [CheckedRange] (checked_range.h), [CheckedAddressRangeGeneric]
    (checked_address_range.{h,cc}), [AssignIfInRange] (safe_assignment.h) and
    [InRangeCast] (in_range_cast.h).  Integer types are values of [int_type];
    every operation reduces its result to the width of its type.  The theorems
    relate the boolean operations to the set of addresses a range denotes. *)

From S2P Require Import Prelude.

(** ** Integer types *)

(** What [std::numeric_limits] says of a C++ integer type. *)
Record int_type := IntType { it_signed : bool; it_width : Z }.

Definition uint32_t := IntType false 32.
Definition uint64_t := IntType false 64.
Definition int32_t := IntType true 32.
Definition int64_t := IntType true 64.

(** [base::IsValueInRangeForNumericType<T>]. *)
Definition in_range (t : int_type) (z : Z) : bool :=
  if it_signed t then fits_signed (it_width t) z else fits (it_width t) z.

(** [static_cast<T>]: the value modulo two to the width. *)
Definition cast (t : int_type) (z : Z) : Z :=
  if it_signed t then wrap_signed (it_width t) z else wrap (it_width t) z.

Lemma cast_in_range t z : 0 < it_width t -> in_range t z = true -> cast t z = z.
Proof.
  intros Hw. unfold in_range, cast. destruct (it_signed t).
  - rewrite fits_signed_spec. intros Hz. unfold wrap_signed.
    assert (2 ^ it_width t = 2 * 2 ^ (it_width t - 1)) as Hp.
    { rewrite <-Z.pow_succ_r by lia. f_equal; lia. }
    rewrite Z.mod_small; lia.
  - rewrite fits_spec. apply wrap_small.
Qed.

(** [AssignIfInRange]: the new value of the destination, or no assignment. *)
Definition AssignIfInRange (t : int_type) (source : Z) : option Z :=
  if negb (in_range t source) then None else Some (cast t source).

(** [InRangeCast]. *)
Definition InRangeCast (t : int_type) (source default_value : Z) : Z :=
  if in_range t source then cast t source else cast t default_value.

Lemma AssignIfInRange_Some t z v :
  0 < it_width t -> AssignIfInRange t z = Some v <-> in_range t z = true /\ v = z.
Proof.
  intros Hw. unfold AssignIfInRange. destruct (in_range t z) eqn:E; simpl.
  - rewrite cast_in_range by done. split; [intros [= <-]; done | intros [_ ->]; done].
  - split; [done | intros [? _]; done].
Qed.

Lemma AssignIfInRange_u32 z :
  0 <= z < 2 ^ 32 -> AssignIfInRange uint32_t z = Some z.
Proof.
  intros. apply AssignIfInRange_Some; [done|]. split; [|done]. by apply fits_spec.
Qed.

Lemma AssignIfInRange_u32_Some z v :
  AssignIfInRange uint32_t z = Some v -> v = z /\ 0 <= z < 2 ^ 32.
Proof.
  intros [H ->]%AssignIfInRange_Some; [|done]. by apply fits_spec in H.
Qed.

(** With the largest value as its default, [InRangeCast] clamps. *)
Lemma in_range_cast_clamps w z :
  0 <= w -> 0 <= z -> InRangeCast (IntType false w) z (2 ^ w - 1) = Z.min z (2 ^ w - 1).
Proof.
  intros Hw Hz. unfold InRangeCast, in_range, cast. simpl.
  destruct (fits w z) eqn:E; [apply fits_spec in E | apply not_true_iff_false in E; rewrite fits_spec in E];
    rewrite wrap_small; lia.
Qed.

(** ** CheckedRange *)

Module CheckedRange.

(** A range: its base and its size. *)
Record t := Make { base : Z; size : Z }.

#[global] Instance eq_dec : EqDecision t.
Proof. solve_decision. Defined.

Section Range.
  (** The template's [ValueType] and [SizeType]. *)
  Variables (ValueType SizeType : int_type).

(** [SetRange] replaces both fields. *)
Definition SetRange (r : t) (b s : Z) : t := Make b s.

(** [end() const]: computed in [ValueType]. *)
Definition end_ (r : t) : Z := cast ValueType (base r + size r).

(** [IsValid]. *)
Definition IsValid (r : t) : bool :=
  if negb (in_range ValueType (size r)) then false
  else in_range ValueType (base r + cast ValueType (size r)).

(** [ContainsValue]. *)
Definition ContainsValue (r : t) (value : Z) : bool :=
  (base r <=? value) && (value <? end_ r).

(** [ContainsRange]. *)
Definition ContainsRange (this that : t) : bool :=
  (base this <=? base that) && (end_ that <=? end_ this).

(** [OverlapsRange]. *)
Definition OverlapsRange (this that : t) : bool :=
  if (size this =? 0) || (size that =? 0) then false
  else (base this <? end_ that) && (base that <? end_ this).

(** [operator<]: lexicographic on base and size. *)
Definition ltb (this other : t) : bool :=
  (base this <? base other) ||
  ((base this =? base other) && (size this <? size other)).

(** The values a range's fields hold by their C++ types. *)
Definition typed (r : t) : Prop :=
  in_range ValueType (base r) = true /\ in_range SizeType (size r) = true.

(** The addresses a range stands for. *)
Definition denotes (r : t) (v : Z) : Prop := base r <= v < base r + size r.

  Hypothesis SizeType_unsigned : it_signed SizeType = false.
  Hypothesis ValueType_width : 0 < it_width ValueType.

Lemma size_nonneg r : typed r -> 0 <= size r.
Proof.
  intros [_ H]. unfold in_range in H. rewrite SizeType_unsigned in H.
  apply fits_spec in H. lia.
Qed.

Lemma valid_spec r :
  IsValid r = true <->
  in_range ValueType (size r) = true /\ in_range ValueType (base r + size r) = true.
Proof.
  unfold IsValid. destruct (in_range ValueType (size r)) eqn:E; simpl.
  - rewrite cast_in_range by done. tauto.
  - split; [done | intros [? _]; done].
Qed.

Lemma end_valid r : IsValid r = true -> end_ r = base r + size r.
Proof. intros [_ H]%valid_spec. unfold end_. by apply cast_in_range. Qed.

Lemma contains_value_spec r v :
  IsValid r = true -> ContainsValue r v = true <-> denotes r v.
Proof.
  intros H. unfold ContainsValue, denotes.
  rewrite (end_valid _ H), andb_true_iff, Z.leb_le, Z.ltb_lt. lia.
Qed.

Lemma contains_range_spec r1 r2 :
  typed r1 -> typed r2 -> IsValid r1 = true -> IsValid r2 = true -> 0 < size r2 ->
  ContainsRange r1 r2 = true <-> (forall v, denotes r2 v -> denotes r1 v).
Proof.
  intros H1%size_nonneg H2%size_nonneg V1 V2 Hpos. unfold ContainsRange, denotes.
  rewrite (end_valid _ V1), (end_valid _ V2), andb_true_iff, !Z.leb_le.
  split; [lia|]. intros H. pose proof (H (base r2)). pose proof (H (base r2 + size r2 - 1)).
  lia.
Qed.

Lemma overlaps_range_spec r1 r2 :
  typed r1 -> typed r2 -> IsValid r1 = true -> IsValid r2 = true ->
  OverlapsRange r1 r2 = true <-> exists v, denotes r1 v /\ denotes r2 v.
Proof.
  intros H1%size_nonneg H2%size_nonneg V1 V2. unfold OverlapsRange, denotes.
  rewrite (end_valid _ V1), (end_valid _ V2).
  destruct (Z.eqb_spec (size r1) 0) as [E1|E1]; simpl.
  { split; [done|]. intros (v & ? & ?). lia. }
  destruct (Z.eqb_spec (size r2) 0) as [E2|E2]; simpl.
  { split; [done|]. intros (v & ? & ?). lia. }
  rewrite andb_true_iff, !Z.ltb_lt. split; [|intros (v & ? & ?); lia].
  intros []. exists (Z.max (base r1) (base r2)). lia.
Qed.

Lemma ltb_irrefl r : ltb r r = false.
Proof. unfold ltb. by rewrite !Z.ltb_irrefl, andb_false_r. Qed.

Lemma ltb_trans r1 r2 r3 : ltb r1 r2 = true -> ltb r2 r3 = true -> ltb r1 r3 = true.
Proof. unfold ltb. rewrite !orb_true_iff, !andb_true_iff, !Z.ltb_lt, !Z.eqb_eq. lia. Qed.

Lemma ltb_total r1 r2 : ltb r1 r2 = false -> ltb r2 r1 = false -> r1 = r2.
Proof.
  unfold ltb. rewrite !orb_false_iff, !andb_false_iff, !Z.ltb_ge, !Z.eqb_neq.
  destruct r1, r2; simpl. intros ??. f_equal; lia.
Qed.

End Range.

(** For two valid ranges of the template's types, the boolean operations
    are exactly the set operations on the addresses the ranges stand for:
    [ContainsValue] is membership, [OverlapsRange] is a common address (so an
    empty range overlaps nothing), and for a non-empty contained range
    [ContainsRange] is inclusion; no end wraps around. *)
Theorem checked_range_denotation (VT ST : int_type) (r1 r2 : t) (v : Z) :
  it_signed ST = false -> 0 < it_width VT ->
  typed VT ST r1 -> typed VT ST r2 ->
  IsValid VT r1 = true -> IsValid VT r2 = true ->
  end_ VT r1 = base r1 + size r1 /\
  (ContainsValue VT r1 v = true <-> denotes r1 v) /\
  (OverlapsRange VT r1 r2 = true <-> exists a, denotes r1 a /\ denotes r2 a) /\
  (0 < size r2 -> ContainsRange VT r1 r2 = true <-> forall a, denotes r2 a -> denotes r1 a).
Proof.
  intros. split_and!.
  - by apply end_valid.
  - by apply contains_value_spec.
  - by eapply overlaps_range_spec.
  - intros. by eapply contains_range_spec.
Qed.

Lemma checked_range_denotation_witness :
  OverlapsRange uint32_t (Make 16 16) (Make 24 100) = true /\
  (ContainsValue uint32_t (Make 16 16) 31 = true <-> denotes (Make 16 16) 31).
Proof.
  split; [reflexivity|].
  apply (checked_range_denotation uint32_t uint32_t (Make 16 16) (Make 24 100) 31);
    concrete.
Defined.

End CheckedRange.

(** ** CheckedAddressRangeGeneric *)

Module CheckedAddressRange.

(** The union of a 32-bit and a 64-bit range is the one [is_64_bit_] selects. *)
Record t := Make { range : CheckedRange.t; is_64_bit : bool; range_ok : bool }.

#[global] Instance eq_dec : EqDecision t.
Proof. solve_decision. Defined.

(** The type of the union's selected member. *)
Definition value_type (r : t) : int_type := if is_64_bit r then uint64_t else uint32_t.

(** The default constructor. *)
Definition default : t := Make (CheckedRange.Make 0 0) false true.

(** [SetRange], and the constructor with arguments, which calls it. *)
Definition SetRange (is_64 : bool) (base size : Z) : t :=
  if is_64 then Make (CheckedRange.Make base size) true true
  else Make (CheckedRange.Make (cast uint32_t base) (cast uint32_t size)) false
            (in_range uint32_t base && in_range uint32_t size).

Definition Base (r : t) : Z := CheckedRange.base (range r).
Definition Size (r : t) : Z := CheckedRange.size (range r).
Definition End_ (r : t) : Z := CheckedRange.end_ (value_type r) (range r).

(** [IsValid]. *)
Definition IsValid (r : t) : bool :=
  range_ok r && CheckedRange.IsValid (value_type r) (range r).

(** [ContainsValue]. *)
Definition ContainsValue (r : t) (value : Z) : bool :=
  if is_64_bit r then CheckedRange.ContainsValue uint64_t (range r) value
  else if negb (in_range uint32_t value) then false
  else CheckedRange.ContainsValue uint32_t (range r) (cast uint32_t value).

(** [ContainsRange]. *)
Definition ContainsRange (this that : t) : bool :=
  if is_64_bit this then CheckedRange.ContainsRange uint64_t (range this) (range that)
  else CheckedRange.ContainsRange uint32_t (range this) (range that).

Lemma set_range_base is_64 b s :
  fits 64 b = true -> fits 64 s = true -> IsValid (SetRange is_64 b s) = true ->
  Base (SetRange is_64 b s) = b /\ Size (SetRange is_64 b s) = s.
Proof.
  intros Hb Hs. unfold SetRange, IsValid, Base, Size. destruct is_64; simpl; [done|].
  rewrite !andb_true_iff. intros [[H1 H2] _]. by rewrite !cast_in_range.
Qed.

Lemma set_range_valid is_64 b s :
  fits 64 b = true -> fits 64 s = true ->
  IsValid (SetRange is_64 b s) = true <->
  fits (if is_64 then 64 else 32) b = true /\ b + s < 2 ^ (if is_64 then 64 else 32).
Proof.
  intros Hb Hs. apply fits_spec in Hb, Hs.
  unfold SetRange, IsValid, value_type. destruct is_64; simpl.
  - rewrite CheckedRange.valid_spec by done. simpl.
    change (in_range uint64_t) with (fits 64). rewrite !fits_spec. lia.
  - rewrite !andb_true_iff, CheckedRange.valid_spec by done. simpl.
    change (in_range uint32_t) with (fits 32). change (cast uint32_t) with (wrap 32).
    rewrite !fits_spec. split.
    + intros [[? ?] [? Hend]]. rewrite !wrap_small in Hend by lia. lia.
    + intros. rewrite !wrap_small by lia. lia.
Qed.

Lemma set_range_contains is_64 b s v :
  fits 64 b = true -> fits 64 s = true -> fits 64 v = true ->
  IsValid (SetRange is_64 b s) = true ->
  ContainsValue (SetRange is_64 b s) v = true <-> b <= v < b + s.
Proof.
  intros Hb Hs Hv V.
  pose proof (proj1 (set_range_valid is_64 b s Hb Hs) V) as [Hb' Hend].
  destruct (set_range_base is_64 b s Hb Hs V) as [EB ES].
  unfold IsValid in V. apply andb_true_iff in V as [_ V].
  apply fits_spec in Hb, Hs, Hv, Hb'.
  unfold ContainsValue, Base, Size, value_type, SetRange in *.
  destruct is_64; cbn [is_64_bit range] in *; cbn iota in Hb', Hend.
  - rewrite CheckedRange.contains_value_spec by done. unfold CheckedRange.denotes.
    rewrite EB, ES. lia.
  - destruct (in_range uint32_t v) eqn:E; simpl.
    + rewrite (cast_in_range uint32_t v) by done. rewrite CheckedRange.contains_value_spec by done.
      unfold CheckedRange.denotes. rewrite EB, ES. lia.
    + split; [done|]. intros. cut (in_range uint32_t v = true); [congruence|].
      change (fits 32 v = true); apply fits_spec. lia.
Qed.

(** A range set from 64-bit operands for a 32- or 64-bit process is valid
    exactly when its end fits the process' pointer width, and a valid range
    contains exactly the addresses from its base up to its end: in particular
    an operand too wide for a 32-bit process can never be truncated into a
    valid range. *)
Theorem address_range_pointer_width (is_64 : bool) (b s v : Z) :
  fits 64 b = true -> fits 64 s = true -> fits 64 v = true ->
  (IsValid (SetRange is_64 b s) = true <-> b + s < 2 ^ (if is_64 then 64 else 32)) /\
  (IsValid (SetRange is_64 b s) = true ->
   Base (SetRange is_64 b s) = b /\ Size (SetRange is_64 b s) = s /\
   (ContainsValue (SetRange is_64 b s) v = true <-> b <= v < b + s)).
Proof.
  intros Hb Hs Hv. split.
  - rewrite set_range_valid by done. rewrite fits_spec in *. lia.
  - intros V. destruct (set_range_base is_64 b s Hb Hs V). split_and!; [done..|].
    by apply set_range_contains.
Qed.

Lemma address_range_pointer_width_witness :
  IsValid (SetRange false (2 ^ 32) 1) = false /\
  (IsValid (SetRange true (2 ^ 32) 1) = true <-> 2 ^ 32 + 1 < 2 ^ 64).
Proof.
  split; [reflexivity|].
  apply (address_range_pointer_width true (2 ^ 32) 1 7); reflexivity.
Defined.

End CheckedAddressRange.
