(* ===== verification/Structs.v ===== *)
(** * The object representation of structures

    The minidump code copies structures to and from files as they are in memory
    ([file_writer->Write(&context_, sizeof(context_))], a [reinterpret_cast] of a
    buffer).  A [Repr] is what that needs of a type: its size, its bytes, the value
    that bytes stand for, and which values the type has.  Representations of
    structures are built from those of their fields, little-endian words, arrays,
    and padding, and the laws ([ReprLaws]) are derived from those of the parts. *)

From S2P Require Import Prelude.

Record Repr (A : Type) := MkRepr {
  sizeof : nat;
  to_bytes : A -> bytes;
  of_bytes : bytes -> A;
  valid : A -> bool
}.
Arguments MkRepr {A}.
Arguments sizeof {A}.
Arguments to_bytes {A}.
Arguments of_bytes {A}.
Arguments valid {A}.

(** A value of the type takes [sizeof] bytes, which give the value back whatever
    follows them; and any bytes stand for a value of the type. *)
Class ReprLaws {A : Type} (R : Repr A) : Prop := {
  length_to_bytes : forall a, valid R a = true -> length (to_bytes R a) = sizeof R;
  of_bytes_to_bytes : forall a rest, valid R a = true -> of_bytes R (to_bytes R a ++ rest) = a;
  of_bytes_valid : forall l, Forall is_byte l -> (sizeof R <= length l)%nat ->
    valid R (of_bytes R l) = true
}.

(** An unsigned integer of [n] bytes. *)
Definition uint (n : nat) : Repr Z :=
  MkRepr n (le_bytes n) (fun l => le_value (take n l)) (fits (8 * Z.of_nat n)).

(** A signed integer of [n] bytes. *)
Definition sint (n : nat) : Repr Z :=
  MkRepr n (fun z => le_bytes n (wrap (8 * Z.of_nat n) z))
    (fun l => wrap_signed (8 * Z.of_nat n) (le_value (take n l))) (fits_signed (8 * Z.of_nat n)).

(** The fields [a] and [b] of a structure, one after the other. *)
Definition pair_repr {A B} (R : Repr A) (S : Repr B) : Repr (A * B) :=
  MkRepr (sizeof R + sizeof S)
    (fun ab => to_bytes R ab.1 ++ to_bytes S ab.2)
    (fun l => (of_bytes R l, of_bytes S (drop (sizeof R) l)))
    (fun ab => valid R ab.1 && valid S ab.2).
Infix "⊗" := pair_repr (at level 45, left associativity) : crashpad_scope.

(** The array [A x[n]]. *)
Fixpoint array_of_bytes {A} (R : Repr A) (n : nat) (l : bytes) : list A :=
  match n with
  | O => []
  | S n' => of_bytes R l :: array_of_bytes R n' (drop (sizeof R) l)
  end.
Definition array {A} (n : nat) (R : Repr A) : Repr (list A) :=
  MkRepr (n * sizeof R) (fun x => concat (map (to_bytes R) x)) (array_of_bytes R n)
    (fun x => (length x =? n)%nat && forallb (valid R) x).

(** A field followed by [n] bytes of padding, which are zero in a zero-initialized
    structure. *)
Definition padded {A} (R : Repr A) (n : nat) : Repr A :=
  MkRepr (sizeof R + n) (fun a => to_bytes R a ++ replicate n 0) (of_bytes R) (valid R).

(** A structure with the fields of a tuple. *)
Definition struct {A T} (R : Repr T) (fields : A -> T) (make : T -> A) : Repr A :=
  MkRepr (sizeof R) (fun a => to_bytes R (fields a)) (fun l => make (of_bytes R l))
    (fun a => valid R (fields a)).

#[export] Instance uint_laws n : ReprLaws (uint n).
Proof.
  assert (256 ^ Z.of_nat n = 2 ^ (8 * Z.of_nat n)) as E.
  { change 256 with (2 ^ 8). rewrite <-Z.pow_mul_r by lia. done. }
  split; simpl.
  - intros a _. apply length_le_bytes.
  - intros a rest Ha%fits_spec. rewrite take_app_length' by (by rewrite length_le_bytes).
    apply le_value_bytes_small. lia.
  - intros l Hl Hn. apply fits_spec. rewrite <-E.
    assert (length (take n l) = n) as Ht by len_lia. rewrite <-Ht at 3.
    apply le_value_bound. by apply Forall_take.
Qed.

#[export] Instance sint_laws n : ReprLaws (sint (S n)).
Proof.
  destruct (uint_laws (S n)) as [_ Hinv _]. cbn [of_bytes to_bytes valid uint] in Hinv. split.
  - intros a _. apply length_le_bytes.
  - intros a rest Ha%fits_signed_spec. cbn [of_bytes sint to_bytes].
    rewrite Hinv by (apply fits_spec, wrap_bound; lia). apply wrap_signed_wrap; [lia|done].
  - intros l Hl Hn. apply fits_signed_spec. cbn [of_bytes sint]. unfold wrap_signed.
    assert (2 ^ (8 * Z.of_nat (S n)) = 2 * 2 ^ (8 * Z.of_nat (S n) - 1)) as E
      by (rewrite <-Z.pow_succ_r by lia; f_equal; lia).
    match goal with |- context [?x mod ?m] => pose proof (Z.mod_pos_bound x m) end. lia.
Qed.

#[export] Instance pair_laws {A B} (R : Repr A) (S : Repr B) :
  ReprLaws R -> ReprLaws S -> ReprLaws (pair_repr R S).
Proof.
  intros HR HS. split; simpl.
  - intros [a b] [Ha Hb]%andb_true_iff. simpl in *. rewrite length_app.
    by rewrite (length_to_bytes a Ha), (length_to_bytes b Hb).
  - intros [a b] rest [Ha Hb]%andb_true_iff. simpl in *. rewrite <-app_assoc.
    rewrite of_bytes_to_bytes by done. f_equal.
    rewrite drop_app_length' by (symmetry; by apply length_to_bytes). by apply of_bytes_to_bytes.
  - intros l Hl Hn. apply andb_true_iff. split; apply of_bytes_valid; [done|lia| |len_lia].
    by apply Forall_drop.
Qed.

#[export] Instance array_laws {A} n (R : Repr A) : ReprLaws R -> ReprLaws (array n R).
Proof.
  intros HR. split; simpl.
  - intros x [<-%Nat.eqb_eq Hx]%andb_true_iff. induction x as [|a x IH]; simpl in *; [done|].
    apply andb_true_iff in Hx as [Ha Hx]. by rewrite length_app, IH, (length_to_bytes a Ha).
  - intros x rest [<-%Nat.eqb_eq Hx]%andb_true_iff.
    induction x as [|a x IH]; simpl in *; [done|]. apply andb_true_iff in Hx as [Ha Hx].
    rewrite <-app_assoc, of_bytes_to_bytes by done. f_equal.
    rewrite drop_app_length' by (symmetry; by apply length_to_bytes). by apply IH.
  - induction n as [|n IH]; intros l Hl Hn; simpl in *; [done|].
    rewrite (of_bytes_valid l) by (done || lia). apply IH; [by apply Forall_drop|len_lia].
Qed.

#[export] Instance padded_laws {A} (R : Repr A) n : ReprLaws R -> ReprLaws (padded R n).
Proof.
  intros HR. split; simpl.
  - intros a Ha. rewrite length_app, length_replicate. by rewrite (length_to_bytes a Ha).
  - intros a rest Ha. rewrite <-app_assoc. by apply of_bytes_to_bytes.
  - intros l Hl Hn. apply of_bytes_valid; [done|lia].
Qed.

(** A structure and the tuple of its fields determine each other. *)
Lemma struct_laws {A T} (R : Repr T) (fields : A -> T) (make : T -> A) :
  (forall a, make (fields a) = a) -> (forall t, fields (make t) = t) ->
  ReprLaws R -> ReprLaws (struct R fields make).
Proof.
  intros Hmf Hfm HR. split; simpl.
  - intros a Ha. by apply length_to_bytes.
  - intros a rest Ha. by rewrite of_bytes_to_bytes.
  - intros l Hl Hn. rewrite Hfm. by apply of_bytes_valid.
Qed.

(** The laws of a structure given by its fields. *)
Ltac struct_laws := apply struct_laws; [by intros [] | by intros; repeat case_match | apply _].

Lemma of_bytes_exact {A} (R : Repr A) `{!ReprLaws R} a :
  valid R a = true -> of_bytes R (to_bytes R a) = a.
Proof. intros Ha. rewrite <-(app_nil_r (to_bytes R a)). by apply of_bytes_to_bytes. Qed.

(** The value of a type all of whose bytes are zero. *)
Definition zero_of {A} (R : Repr A) : A := of_bytes R (replicate (sizeof R) 0).

Lemma zero_of_valid {A} (R : Repr A) `{!ReprLaws R} : valid R (zero_of R) = true.
Proof.
  apply of_bytes_valid; [|by rewrite length_replicate].
  apply Forall_replicate. split; done.
Qed.
