(* ===== verification/CPUContext.v ===== *)
(** * CPU contexts (snapshot/cpu_context.h, snapshot/cpu_context.cc)

    The registers of a thread, one structure for each CPU architecture, and the
    conversion between the two forms in which x87 state is saved.  A [union] of
    which the code uses one member is that member; a [CPUContext], whose
    [architecture] says which pointer of its union is meant, is an inductive type.
    Each structure has its [repr], whose [valid] says that every field is in the
    range of its type. *)

From S2P Require Import Prelude.
From S2P Require Import Structs.

(** [CPUArchitecture] (snapshot/cpu_architecture.h). *)
Inductive CPUArchitecture :=
  | kCPUArchitectureUnknown | kCPUArchitectureX86 | kCPUArchitectureX86_64
  | kCPUArchitectureARM | kCPUArchitectureARM64 | kCPUArchitectureMIPSEL
  | kCPUArchitectureMIPS64EL.
#[export] Instance CPUArchitecture_eq_dec : EqDecision CPUArchitecture.
Proof. solve_decision. Defined.

(** [uint128_struct] (util/numeric/int128.h). *)
Module Uint128.
Record t := Make {
  lo : Z; hi : Z
}.
Definition repr : Repr t :=
  struct (uint 8 ⊗ uint 8)%cp
    (fun x => (lo x, hi x))
    (fun '(x0, x1) => Make x0 x1).
#[global] Instance repr_laws : ReprLaws repr.
Proof. struct_laws. Qed.
End Uint128.

Module CPUContextX86.

(** [X87Register], [XMMRegister]: arrays of bytes. *)
Definition X87Register : Repr bytes := array 10 (uint 1).
Definition XMMRegister : Repr bytes := array 16 (uint 1).
#[global] Instance x87_laws : ReprLaws X87Register := array_laws _ _ _.
#[global] Instance xmm_laws : ReprLaws XMMRegister := array_laws _ _ _.

Module Fsave.
Record t := Make {
  fcw : Z; reserved_1 : Z; fsw : Z; reserved_2 : Z; ftw : Z; reserved_3 : Z; fpu_ip : Z;
  fpu_cs : Z; fop : Z; fpu_dp : Z; fpu_ds : Z; reserved_4 : Z; st : list (list Z)
}.
Definition repr : Repr t :=
  struct (uint 2 ⊗ uint 2 ⊗ uint 2 ⊗ uint 2 ⊗ uint 2 ⊗ uint 2 ⊗ uint 4 ⊗ uint 2 ⊗ uint 2 ⊗ uint 4 ⊗
    uint 2 ⊗ uint 2 ⊗ (array 8 X87Register))%cp
    (fun x => (fcw x, reserved_1 x, fsw x, reserved_2 x, ftw x, reserved_3 x, fpu_ip x, fpu_cs x,
      fop x, fpu_dp x, fpu_ds x, reserved_4 x, st x))
    (fun '(x0, x1, x2, x3, x4, x5, x6, x7, x8, x9, x10, x11, x12) => Make x0 x1 x2 x3 x4 x5 x6 x7 x8
      x9 x10 x11 x12).
#[global] Instance repr_laws : ReprLaws repr.
Proof. struct_laws. Qed.
End Fsave.

(** The x87 view of the union. *)
Module X87OrMMXRegister.
Record t := Make {
  st : list Z; st_reserved : list Z
}.
Definition repr : Repr t :=
  struct (X87Register ⊗ (array 6 (uint 1)))%cp
    (fun x => (st x, st_reserved x))
    (fun '(x0, x1) => Make x0 x1).
#[global] Instance repr_laws : ReprLaws repr.
Proof. struct_laws. Qed.
End X87OrMMXRegister.

Module Fxsave.
Record t := Make {
  fcw : Z; fsw : Z; ftw : Z; reserved_1 : Z; fop : Z; fpu_ip : Z; fpu_cs : Z; reserved_2 : Z;
  fpu_dp : Z; fpu_ds : Z; reserved_3 : Z; mxcsr : Z; mxcsr_mask : Z;
  st_mm : list X87OrMMXRegister.t; xmm : list (list Z); reserved_4 : list Z; available : list Z
}.
Definition repr : Repr t :=
  struct (uint 2 ⊗ uint 2 ⊗ uint 1 ⊗ uint 1 ⊗ uint 2 ⊗ uint 4 ⊗ uint 2 ⊗ uint 2 ⊗ uint 4 ⊗ uint 2 ⊗
    uint 2 ⊗ uint 4 ⊗ uint 4 ⊗ (array 8 X87OrMMXRegister.repr) ⊗ (array 8 XMMRegister) ⊗ (array 176
    (uint 1)) ⊗ (array 48 (uint 1)))%cp
    (fun x => (fcw x, fsw x, ftw x, reserved_1 x, fop x, fpu_ip x, fpu_cs x, reserved_2 x, fpu_dp x,
      fpu_ds x, reserved_3 x, mxcsr x, mxcsr_mask x, st_mm x, xmm x, reserved_4 x, available x))
    (fun '(x0, x1, x2, x3, x4, x5, x6, x7, x8, x9, x10, x11, x12, x13, x14, x15, x16) => Make x0 x1
      x2 x3 x4 x5 x6 x7 x8 x9 x10 x11 x12 x13 x14 x15 x16).
#[global] Instance repr_laws : ReprLaws repr.
Proof. struct_laws. Qed.
End Fxsave.

(** [CPUContextX86]. *)
Record t := Make {
  eax : Z; ebx : Z; ecx : Z; edx : Z; edi : Z; esi : Z; ebp : Z; esp : Z; eip : Z; eflags : Z;
  cs : Z; ds : Z; es : Z; fs : Z; gs : Z; ss : Z; fxsave : Fxsave.t; dr0 : Z; dr1 : Z; dr2 : Z;
  dr3 : Z; dr4 : Z; dr5 : Z; dr6 : Z; dr7 : Z
}.
Definition repr : Repr t :=
  struct (uint 4 ⊗ uint 4 ⊗ uint 4 ⊗ uint 4 ⊗ uint 4 ⊗ uint 4 ⊗ uint 4 ⊗ uint 4 ⊗ uint 4 ⊗ uint 4 ⊗
    uint 2 ⊗ uint 2 ⊗ uint 2 ⊗ uint 2 ⊗ uint 2 ⊗ uint 2 ⊗ Fxsave.repr ⊗ uint 4 ⊗ uint 4 ⊗ uint 4 ⊗
    uint 4 ⊗ uint 4 ⊗ uint 4 ⊗ uint 4 ⊗ uint 4)%cp
    (fun x => (eax x, ebx x, ecx x, edx x, edi x, esi x, ebp x, esp x, eip x, eflags x, cs x, ds x,
      es x, fs x, gs x, ss x, fxsave x, dr0 x, dr1 x, dr2 x, dr3 x, dr4 x, dr5 x, dr6 x, dr7 x))
    (fun '(x0, x1, x2, x3, x4, x5, x6, x7, x8, x9, x10, x11, x12, x13, x14, x15, x16, x17, x18, x19,
      x20, x21, x22, x23, x24) => Make x0 x1 x2 x3 x4 x5 x6 x7 x8 x9 x10 x11 x12 x13 x14 x15 x16 x17
      x18 x19 x20 x21 x22 x23 x24).
#[global] Instance repr_laws : ReprLaws repr.
Proof. struct_laws. Qed.

(** The tags of the full x87 tag word. *)
Definition kX87TagValid : Z := 0.
Definition kX87TagZero : Z := 1.
Definition kX87TagSpecial : Z := 2.
Definition kX87TagEmpty : Z := 3.

(** The tag of a register that is not empty. *)
Definition register_tag (st : bytes) : Z :=
  let b i := nth i st 0 in
  let exponent := Z.lor (Z.shiftl (Z.land (b 9%nat) 0x7f) 8) (b 8%nat) in
  if exponent =? 0x7fff then kX87TagSpecial
  else
    let integer_bit := negb (Z.land (b 7%nat) 0x80 =? 0) in
    if exponent =? 0 then
      let fraction :=
        Z.lor (Z.lor (Z.lor (Z.lor (Z.lor (Z.lor (Z.lor
          (Z.shiftl (Z.land (b 7%nat) 0x7f) 56) (Z.shiftl (b 6%nat) 48)) (Z.shiftl (b 5%nat) 40))
          (Z.shiftl (b 4%nat) 32)) (Z.shiftl (b 3%nat) 24)) (Z.shiftl (b 2%nat) 16))
          (Z.shiftl (b 1%nat) 8)) (b 0%nat) in
      if negb integer_bit && (fraction =? 0) then kX87TagZero else kX87TagSpecial
    else if integer_bit then kX87TagValid
    else kX87TagSpecial.

(** [FxsaveToFsaveTagWord]: the tag word names physical registers, [st_mm] is in
    stack order. *)
Definition FxsaveToFsaveTagWord (fsw fxsave_tag : Z) (st_mm : list X87OrMMXRegister.t) : Z :=
  let stack_top := Z.land (Z.shiftr fsw 11) 0x7 in
  fold_left (fun fsave_tag physical_index =>
    let fxsave_bit := negb (Z.land fxsave_tag (Z.shiftl 1 physical_index) =? 0) in
    let fsave_bits :=
      if fxsave_bit then
        let st_index := (physical_index + 8 - stack_top) mod 8 in
        register_tag (X87OrMMXRegister.st
          (nth (Z.to_nat st_index) st_mm (zero_of X87OrMMXRegister.repr)))
      else kX87TagEmpty in
    Z.lor fsave_tag (Z.shiftl fsave_bits (physical_index * 2))) (seqZ 0 8) 0.

(** [FsaveToFxsaveTagWord]. *)
Definition FsaveToFxsaveTagWord (fsave_tag : Z) : Z :=
  fold_left (fun fxsave_tag physical_index =>
    let fsave_bits := Z.land (Z.shiftr fsave_tag (physical_index * 2)) 0x3 in
    let fxsave_bit := negb (fsave_bits =? kX87TagEmpty) in
    Z.lor fxsave_tag (Z.shiftl (Z.b2z fxsave_bit) physical_index)) (seqZ 0 8) 0.

Definition FxsaveToFsave (fxsave : Fxsave.t) : Fsave.t :=
  Fsave.Make (Fxsave.fcw fxsave) 0 (Fxsave.fsw fxsave) 0
    (FxsaveToFsaveTagWord (Fxsave.fsw fxsave) (Fxsave.ftw fxsave) (Fxsave.st_mm fxsave)) 0
    (Fxsave.fpu_ip fxsave) (Fxsave.fpu_cs fxsave) (Fxsave.fop fxsave) (Fxsave.fpu_dp fxsave)
    (Fxsave.fpu_ds fxsave) 0 (map X87OrMMXRegister.st (Fxsave.st_mm fxsave)).

Definition FsaveToFxsave (fsave : Fsave.t) : Fxsave.t :=
  Fxsave.Make (Fsave.fcw fsave) (Fsave.fsw fsave) (FsaveToFxsaveTagWord (Fsave.ftw fsave)) 0
    (Fsave.fop fsave) (Fsave.fpu_ip fsave) (Fsave.fpu_cs fsave) 0 (Fsave.fpu_dp fsave)
    (Fsave.fpu_ds fsave) 0 0 0
    (map (fun st => X87OrMMXRegister.Make st (replicate 6 0)) (Fsave.st fsave))
    (replicate 8 (replicate 16 0)) (replicate 176 0) (replicate 48 0).

End CPUContextX86.

Module CPUContextX86_64.
Import CPUContextX86.

(** The [fxsave] view of the union of pointers. *)
Module Fxsave.
Record t := Make {
  fcw : Z; fsw : Z; ftw : Z; reserved_1 : Z; fop : Z; fpu_ip : Z; fpu_cs : Z; reserved_2 : Z;
  fpu_dp : Z; fpu_ds : Z; reserved_3 : Z; mxcsr : Z; mxcsr_mask : Z;
  st_mm : list X87OrMMXRegister.t; xmm : list (list Z); reserved_4 : list Z; available : list Z
}.
Definition repr : Repr t :=
  struct (uint 2 ⊗ uint 2 ⊗ uint 1 ⊗ uint 1 ⊗ uint 2 ⊗ uint 4 ⊗ uint 2 ⊗ uint 2 ⊗ uint 4 ⊗ uint 2 ⊗
    uint 2 ⊗ uint 4 ⊗ uint 4 ⊗ (array 8 X87OrMMXRegister.repr) ⊗ (array 16 XMMRegister) ⊗ (array 48
    (uint 1)) ⊗ (array 48 (uint 1)))%cp
    (fun x => (fcw x, fsw x, ftw x, reserved_1 x, fop x, fpu_ip x, fpu_cs x, reserved_2 x, fpu_dp x,
      fpu_ds x, reserved_3 x, mxcsr x, mxcsr_mask x, st_mm x, xmm x, reserved_4 x, available x))
    (fun '(x0, x1, x2, x3, x4, x5, x6, x7, x8, x9, x10, x11, x12, x13, x14, x15, x16) => Make x0 x1
      x2 x3 x4 x5 x6 x7 x8 x9 x10 x11 x12 x13 x14 x15 x16).
#[global] Instance repr_laws : ReprLaws repr.
Proof. struct_laws. Qed.
End Fxsave.

(** [CPUContextX86_64]; the members of [xstate] are the last three. *)
Record t := Make {
  rax : Z; rbx : Z; rcx : Z; rdx : Z; rdi : Z; rsi : Z; rbp : Z; rsp : Z; r8 : Z; r9 : Z;
  r10 : Z; r11 : Z; r12 : Z; r13 : Z; r14 : Z; r15 : Z; rip : Z; rflags : Z; cs : Z; fs : Z;
  gs : Z; fxsave : Fxsave.t; dr0 : Z; dr1 : Z; dr2 : Z; dr3 : Z; dr4 : Z; dr5 : Z; dr6 : Z;
  dr7 : Z; enabled_features : Z; cetmsr : Z; ssp : Z
}.
Definition repr : Repr t :=
  struct (uint 8 ⊗ uint 8 ⊗ uint 8 ⊗ uint 8 ⊗ uint 8 ⊗ uint 8 ⊗ uint 8 ⊗ uint 8 ⊗ uint 8 ⊗ uint 8 ⊗
    uint 8 ⊗ uint 8 ⊗ uint 8 ⊗ uint 8 ⊗ uint 8 ⊗ uint 8 ⊗ uint 8 ⊗ uint 8 ⊗ uint 2 ⊗ uint 2 ⊗
    (padded (uint 2) 2) ⊗ Fxsave.repr ⊗ uint 8 ⊗ uint 8 ⊗ uint 8 ⊗ uint 8 ⊗ uint 8 ⊗ uint 8 ⊗ uint 8
    ⊗ uint 8 ⊗ uint 8 ⊗ uint 8 ⊗ uint 8)%cp
    (fun x => (rax x, rbx x, rcx x, rdx x, rdi x, rsi x, rbp x, rsp x, r8 x, r9 x, r10 x, r11 x,
      r12 x, r13 x, r14 x, r15 x, rip x, rflags x, cs x, fs x, gs x, fxsave x, dr0 x, dr1 x, dr2 x,
      dr3 x, dr4 x, dr5 x, dr6 x, dr7 x, enabled_features x, cetmsr x, ssp x))
    (fun '(x0, x1, x2, x3, x4, x5, x6, x7, x8, x9, x10, x11, x12, x13, x14, x15, x16, x17, x18, x19,
      x20, x21, x22, x23, x24, x25, x26, x27, x28, x29, x30, x31, x32) => Make x0 x1 x2 x3 x4 x5 x6
      x7 x8 x9 x10 x11 x12 x13 x14 x15 x16 x17 x18 x19 x20 x21 x22 x23 x24 x25 x26 x27 x28 x29 x30
      x31 x32).
#[global] Instance repr_laws : ReprLaws repr.
Proof. struct_laws. Qed.

End CPUContextX86_64.

Module CPUContextARM.

(** A register of the FPA, a structure of bit-fields. *)
Record fp_reg := MakeFPReg {
  sign1 : Z; unused : Z; sign2 : Z; exponent : Z; j : Z; mantissa1 : Z; mantisss0 : Z
}.
Record fpa_regs_t := MakeFPA {
  fpregs : list fp_reg; fpsr : Z; fpcr : Z; type : list Z; init_flag : Z
}.
Record vfp_regs_t := MakeVFP { vfp : list Z; fpscr : Z }.

Record t := Make {
  regs : list Z; fp : Z; ip : Z; sp : Z; lr : Z; pc : Z; cpsr : Z;
  fpa_regs : fpa_regs_t; vfp_regs : vfp_regs_t; have_fpa_regs : bool; have_vfp_regs : bool
}.

Definition zero_fpa : fpa_regs_t :=
  MakeFPA (replicate 8 (MakeFPReg 0 0 0 0 0 0 0)) 0 0 (replicate 8 0) 0.

(** Every field is in the range of its type. *)
Definition fp_reg_valid (r : fp_reg) : bool :=
  fits 1 (sign1 r) && fits 15 (unused r) && fits 1 (sign2 r) && fits 14 (exponent r) &&
  fits 1 (j r) && fits 31 (mantissa1 r) && fits 32 (mantisss0 r).
Definition fpa_valid (r : fpa_regs_t) : bool :=
  (length (fpregs r) =? 8)%nat && forallb fp_reg_valid (fpregs r) && fits 32 (fpsr r) &&
  fits 32 (fpcr r) && valid (array 8 (uint 1)) (type r) && fits 32 (init_flag r).
Definition registers : Repr (list Z * Z * Z * Z * Z * Z * Z) :=
  (array 11 (uint 4) ⊗ uint 4 ⊗ uint 4 ⊗ uint 4 ⊗ uint 4 ⊗ uint 4 ⊗ uint 4)%cp.
Definition is_valid (x : t) : bool :=
  valid registers (regs x, fp x, ip x, sp x, lr x, pc x, cpsr x) && fpa_valid (fpa_regs x) &&
  valid (array 32 (uint 8)) (vfp (vfp_regs x)) && fits 32 (fpscr (vfp_regs x)).

End CPUContextARM.

Module CPUContextARM64.
Record t := Make {
  regs : list Z; sp : Z; pc : Z; spsr : Z; fpsimd : list Uint128.t; fpsr : Z; fpcr : Z
}.
Definition repr : Repr t :=
  struct ((array 31 (uint 8)) ⊗ uint 8 ⊗ uint 8 ⊗ (padded (uint 4) 4) ⊗ (array 32 Uint128.repr) ⊗
    uint 4 ⊗ uint 4)%cp
    (fun x => (regs x, sp x, pc x, spsr x, fpsimd x, fpsr x, fpcr x))
    (fun '(x0, x1, x2, x3, x4, x5, x6) => Make x0 x1 x2 x3 x4 x5 x6).
#[global] Instance repr_laws : ReprLaws repr.
Proof. struct_laws. Qed.
End CPUContextARM64.

(** The floating-point registers of the MIPS contexts are kept as their bits. *)
Module CPUContextMIPS.
Record t := Make {
  regs : list Z; mdlo : Z; mdhi : Z; cp0_epc : Z; cp0_badvaddr : Z; cp0_status : Z;
  cp0_cause : Z; hi : list Z; lo : list Z; dsp_control : Z; fpregs : list Z; fpcsr : Z; fir : Z
}.
Definition repr : Repr t :=
  struct ((array 32 (uint 8)) ⊗ uint 4 ⊗ uint 4 ⊗ uint 4 ⊗ uint 4 ⊗ uint 4 ⊗ uint 4 ⊗ (array 3
    (uint 4)) ⊗ (array 3 (uint 4)) ⊗ (padded (uint 4) 4) ⊗ (array 32 (uint 8)) ⊗ uint 4 ⊗ uint 4)%cp
    (fun x => (regs x, mdlo x, mdhi x, cp0_epc x, cp0_badvaddr x, cp0_status x, cp0_cause x, hi x,
      lo x, dsp_control x, fpregs x, fpcsr x, fir x))
    (fun '(x0, x1, x2, x3, x4, x5, x6, x7, x8, x9, x10, x11, x12) => Make x0 x1 x2 x3 x4 x5 x6 x7 x8
      x9 x10 x11 x12).
#[global] Instance repr_laws : ReprLaws repr.
Proof. struct_laws. Qed.
End CPUContextMIPS.

Module CPUContextMIPS64.
Record t := Make {
  regs : list Z; mdlo : Z; mdhi : Z; cp0_epc : Z; cp0_badvaddr : Z; cp0_status : Z;
  cp0_cause : Z; hi : list Z; lo : list Z; dsp_control : Z; fpregs : list Z; fpcsr : Z; fir : Z
}.
Definition repr : Repr t :=
  struct ((array 32 (uint 8)) ⊗ uint 8 ⊗ uint 8 ⊗ uint 8 ⊗ uint 8 ⊗ uint 8 ⊗ uint 8 ⊗ (array 3
    (uint 8)) ⊗ (array 3 (uint 8)) ⊗ uint 8 ⊗ (array 32 (uint 8)) ⊗ uint 8 ⊗ uint 8)%cp
    (fun x => (regs x, mdlo x, mdhi x, cp0_epc x, cp0_badvaddr x, cp0_status x, cp0_cause x, hi x,
      lo x, dsp_control x, fpregs x, fpcsr x, fir x))
    (fun '(x0, x1, x2, x3, x4, x5, x6, x7, x8, x9, x10, x11, x12) => Make x0 x1 x2 x3 x4 x5 x6 x7 x8
      x9 x10 x11 x12).
#[global] Instance repr_laws : ReprLaws repr.
Proof. struct_laws. Qed.
End CPUContextMIPS64.

(** ** A context of any architecture *)

(** [CPUContext]: its [architecture] is the constructor, with the structure the
    pointer of the union refers to. *)
Inductive CPUContext :=
  | context_unknown
  | x86 (c : CPUContextX86.t)
  | x86_64 (c : CPUContextX86_64.t)
  | arm (c : CPUContextARM.t)
  | arm64 (c : CPUContextARM64.t)
  | mipsel (c : CPUContextMIPS.t)
  | mips64 (c : CPUContextMIPS64.t).

Module CPUContext_.

Definition architecture (c : CPUContext) : CPUArchitecture :=
  match c with
  | context_unknown => kCPUArchitectureUnknown
  | x86 _ => kCPUArchitectureX86
  | x86_64 _ => kCPUArchitectureX86_64
  | arm _ => kCPUArchitectureARM
  | arm64 _ => kCPUArchitectureARM64
  | mipsel _ => kCPUArchitectureMIPSEL
  | mips64 _ => kCPUArchitectureMIPS64EL
  end.

(** The accessors; [None] is NOTREACHED. *)
Definition InstructionPointer (c : CPUContext) : option Z :=
  match c with
  | x86 c => Some (CPUContextX86.eip c)
  | x86_64 c => Some (CPUContextX86_64.rip c)
  | arm c => Some (CPUContextARM.pc c)
  | arm64 c => Some (CPUContextARM64.pc c)
  | _ => None
  end.
Definition StackPointer (c : CPUContext) : option Z :=
  match c with
  | x86 c => Some (CPUContextX86.esp c)
  | x86_64 c => Some (CPUContextX86_64.rsp c)
  | arm c => Some (CPUContextARM.sp c)
  | arm64 c => Some (CPUContextARM64.sp c)
  | _ => None
  end.
Definition ShadowStackPointer (c : CPUContext) : option Z :=
  match c with
  | x86_64 c => Some (CPUContextX86_64.ssp c)
  | _ => None
  end.
Definition HasShadowStack (c : CPUContext) : option bool :=
  match c with
  | x86 _ | arm _ | arm64 _ => Some false
  | x86_64 c => Some (negb (CPUContextX86_64.cetmsr c =? 0))
  | _ => None
  end.
Definition Is64Bit (c : CPUContext) : option bool :=
  match c with
  | x86_64 _ | arm64 _ | mips64 _ => Some true
  | x86 _ | arm _ | mipsel _ => Some false
  | context_unknown => None
  end.

(** Every field of the context is in the range of its type. *)
Definition is_valid (c : CPUContext) : bool :=
  match c with
  | context_unknown => true
  | x86 c => valid CPUContextX86.repr c
  | x86_64 c => valid CPUContextX86_64.repr c
  | arm c => CPUContextARM.is_valid c
  | arm64 c => valid CPUContextARM64.repr c
  | mipsel c => valid CPUContextMIPS.repr c
  | mips64 c => valid CPUContextMIPS64.repr c
  end.

End CPUContext_.

(** ** x87 state *)

(** [n] fields of [w] bits, packed into a word. *)
Definition pack (w : Z) (f : Z -> Z) (n : nat) : Z :=
  fold_left (fun acc i => Z.lor acc (Z.shiftl (f i) (i * w))) (seqZ 0 (Z.of_nat n)) 0.

Section Pack.
  Context (w : Z) (f : Z -> Z).
  Hypothesis (Hw : 0 < w) (Hf : forall i, 0 <= f i < 2 ^ w).

Lemma field_bit i j :
  0 <= i -> 0 <= j -> Z.testbit (Z.shiftl (f i) (i * w)) j = (j / w =? i) && Z.testbit (f i) (j mod w).
Proof using Hw Hf.
  intros Hi Hj. pose proof (Z.div_mod j w) as E. pose proof (Z.mod_pos_bound j w) as B.
  rewrite Z.shiftl_spec by done. destruct (Z.eqb_spec (j / w) i) as [<-|Hne]; simpl.
  - f_equal. lia.
  - destruct (decide (j < i * w)) as [Hlt|Hge]; [by rewrite Z.testbit_neg_r by lia|].
    destruct (decide (f i = 0)) as [->|Hnz]; [apply Z.testbit_0_l|].
    apply Z.bits_above_log2; [apply Hf|]. pose proof (Hf i). apply Z.log2_lt_pow2; [lia|].
    apply Z.lt_le_trans with (2 ^ w); [lia|]. apply Z.pow_le_mono_r; nia.
Qed.

Lemma pack_bit n j :
  0 <= j -> Z.testbit (pack w f n) j = (j / w <? Z.of_nat n) && Z.testbit (f (j / w)) (j mod w).
Proof using Hw Hf.
  intros Hj. assert (0 <= j / w) as Hq by (apply Z.div_pos; lia).
  unfold pack. induction n as [|n IH].
  - cbn. rewrite Z.bits_0. destruct (Z.ltb_spec (j / w) (Z.of_nat 0)); [lia|done].
  - rewrite Nat2Z.inj_succ, <-Z.add_1_r, seqZ_app, fold_left_app by lia.
    change (seqZ (0 + Z.of_nat n) 1) with [0 + Z.of_nat n]. cbn [fold_left].
    rewrite Z.lor_spec, IH, field_bit by lia. rewrite Z.add_0_l.
    destruct (Z.ltb_spec (j / w) (Z.of_nat n)), (Z.eqb_spec (j / w) (Z.of_nat n)) as [E|],
      (Z.ltb_spec (j / w) (Z.of_nat n + 1)); rewrite ?orb_false_r; try done; try lia. by rewrite E.
Qed.

Lemma pack_field n i :
  0 <= i < Z.of_nat n -> Z.land (Z.shiftr (pack w f n) (i * w)) (Z.ones w) = f i.
Proof using Hw Hf.
  intros Hi. apply Z.bits_inj'. intros j Hj. rewrite Z.land_spec, Z.shiftr_spec by done.
  destruct (Z.ltb_spec j w) as [Hlt|Hge].
  - rewrite Z.ones_spec_low, andb_true_r, pack_bit by nia.
    rewrite Z.add_comm, (Z.add_comm (i * w)), Z.div_add, Z.mod_add, Z.div_small, Z.mod_small by lia.
    rewrite Z.add_0_l. by destruct (Z.ltb_spec i (Z.of_nat n)); [|lia].
  - rewrite Z.ones_spec_high, andb_false_r by lia. symmetry. pose proof (Hf i).
    destruct (decide (f i = 0)) as [->|]; [apply Z.testbit_0_l|].
    apply Z.bits_above_log2; [lia|]. apply Z.log2_lt_pow2; [lia|].
    apply Z.lt_le_trans with (2 ^ w); [lia|]. by apply Z.pow_le_mono_r.
Qed.

End Pack.

Module X87.
Import CPUContextX86.

(** The class of the number in a register, which is a 64-bit significand with an
    explicit integer bit, a 15-bit exponent and a sign. *)
Definition number_tag (st : bytes) : Z :=
  let significand := le_value (take 8 st) in
  let exponent := le_value (drop 8 st) mod 2 ^ 15 in
  if exponent =? 2 ^ 15 - 1 then kX87TagSpecial
  else if exponent =? 0 then if significand =? 0 then kX87TagZero else kX87TagSpecial
  else if 2 ^ 63 <=? significand then kX87TagValid
  else kX87TagSpecial.

Lemma exponent_bytes b8 b9 :
  is_byte b8 -> is_byte b9 ->
  Z.lor (Z.shiftl (Z.land b9 0x7f) 8) b8 = le_value [b8; b9] mod 2 ^ 15.
Proof.
  unfold is_byte. intros H8 H9. change 0x7f with (Z.ones 7). rewrite Z.land_ones by done.
  rewrite Z.lor_comm, lor_shiftl_add by (done || lia). simpl le_value.
  pose proof (Z.div_mod b9 (2 ^ 7)). pose proof (Z.mod_pos_bound b9 (2 ^ 7)).
  apply Z.mod_unique with (b9 / 2 ^ 7); lia.
Qed.

Lemma integer_bit b7 : is_byte b7 -> negb (Z.land b7 0x80 =? 0) = (128 <=? b7).
Proof.
  unfold is_byte. intros H. assert (Z.land b7 0x80 = 128 * (b7 / 128)) as ->.
  { apply Z.bits_inj'. intros i Hi. change 128 with (2 ^ 7) at 2 3.
    rewrite Z.land_spec, Z.mul_comm, <-Z.shiftl_mul_pow2, <-Z.shiftr_div_pow2 by done.
    destruct (Z.ltb_spec i 7).
    - rewrite Z.shiftl_spec_low by lia. change 0x80 with (2 ^ 7).
      by rewrite Z.pow2_bits_false, andb_false_r by lia.
    - rewrite Z.shiftl_spec, Z.shiftr_spec by lia. rewrite Z.sub_add. change 0x80 with (2 ^ 7).
      destruct (decide (i = 7)) as [->|]; [by rewrite andb_true_r|].
      rewrite Z.pow2_bits_false, andb_false_r by lia. symmetry.
      destruct (decide (b7 = 0)) as [->|]; [apply Z.testbit_0_l|].
      apply Z.bits_above_log2; [lia|]. apply Z.log2_lt_pow2; [lia|].
      apply Z.lt_le_trans with (2 ^ 8); [lia|]. apply Z.pow_le_mono_r; lia. }
  destruct (Z.leb_spec 128 b7), (Z.eqb_spec (128 * (b7 / 128)) 0); try done.
  - assert (1 <= b7 / 128) by (apply Z.div_le_lower_bound; lia). lia.
  - assert (b7 / 128 = 0) by (apply Z.div_small; lia). lia.
Qed.

(** The bytes of a list of ten. *)
Lemma ten_bytes (st : bytes) :
  valid X87Register st = true -> exists b0 b1 b2 b3 b4 b5 b6 b7 b8 b9,
    st = [b0; b1; b2; b3; b4; b5; b6; b7; b8; b9] /\ Forall is_byte st.
Proof.
  intros [Hl%Nat.eqb_eq Hb]%andb_true_iff.
  destruct st as [|b0 [|b1 [|b2 [|b3 [|b4 [|b5 [|b6 [|b7 [|b8 [|b9 [|]]]]]]]]]]]; try done.
  eexists _, _, _, _, _, _, _, _, _, _. split; [reflexivity|].
  apply Forall_forall. intros b Hin%list_elem_of_In. rewrite forallb_forall in Hb.
  by apply Hb, fits_spec in Hin.
Qed.

(** The code's test of exponent, integer bit and fraction classifies the number. *)
Lemma register_tag_number st :
  valid X87Register st = true -> register_tag st = number_tag st.
Proof.
  intros (b0 & b1 & b2 & b3 & b4 & b5 & b6 & b7 & b8 & b9 & -> & Hb)%ten_bytes.
  rewrite !Forall_cons in Hb. destruct Hb as (H0 & H1 & H2 & H3 & H4 & H5 & H6 & H7 & H8 & H9 & _).
  unfold register_tag, number_tag. cbn [nth take drop].
  rewrite exponent_bytes, integer_bit by done. set (e := le_value [b8; b9] mod 2 ^ 15).
  change 0x7fff with (2 ^ 15 - 1). destruct (e =? 2 ^ 15 - 1); [done|].
  assert (le_value [b0; b1; b2; b3; b4; b5; b6; b7] = b0 + 2 ^ 8 * b1 + 2 ^ 16 * b2 + 2 ^ 24 * b3 +
    2 ^ 32 * b4 + 2 ^ 40 * b5 + 2 ^ 48 * b6 + 2 ^ 56 * b7) as -> by (simpl le_value; lia).
  unfold is_byte in *. destruct (e =? 0).
  - set (f := Z.lor _ b0). destruct (Z.eqb_spec f 0) as [Ef|Ef].
    + unfold f in Ef. rewrite !Z.lor_eq_0_iff, !Z.shiftl_eq_0_iff in Ef by done.
      change 0x7f with (Z.ones 7) in Ef. rewrite Z.land_ones in Ef by done.
      destruct Ef as [[[[[[[E7 ->] ->] ->] ->] ->] ->] ->].
      pose proof (Z.div_mod b7 (2 ^ 7)). destruct (Z.leb_spec 128 b7); simpl;
        match goal with |- context [?x =? 0] => destruct (Z.eqb_spec x 0) end; done || lia.
    + rewrite andb_false_r. match goal with |- context [?x =? 0] => destruct (Z.eqb_spec x 0) end;
        [|done]. destruct Ef. assert (b0 = 0 /\ b1 = 0 /\ b2 = 0 /\ b3 = 0 /\ b4 = 0 /\ b5 = 0 /\
        b6 = 0 /\ b7 = 0) as (-> & -> & -> & -> & -> & -> & -> & ->) by lia. done.
  - destruct (Z.leb_spec 128 b7);
      match goal with |- context [?x <=? ?y] => destruct (Z.leb_spec x y) end; done || lia.
Qed.

Lemma register_tag_range st : 0 <= register_tag st < 3.
Proof. unfold register_tag. repeat case_match; unfold kX87TagSpecial, kX87TagZero, kX87TagValid; lia. Qed.

(** The register in the stack position of a physical register. *)
Definition physical_register (fsw : Z) (st_mm : list X87OrMMXRegister.t) (i : Z) : bytes :=
  X87OrMMXRegister.st (nth (Z.to_nat ((i + 8 - Z.land (Z.shiftr fsw 11) 0x7) mod 8)) st_mm
    (zero_of X87OrMMXRegister.repr)).
Definition physical_tag (fsw fxsave_tag : Z) (st_mm : list X87OrMMXRegister.t) (i : Z) : Z :=
  if Z.testbit fxsave_tag i then register_tag (physical_register fsw st_mm i) else kX87TagEmpty.

Lemma land_bit x i : 0 <= i -> negb (Z.land x (Z.shiftl 1 i) =? 0) = Z.testbit x i.
Proof.
  intros Hi. rewrite Z.shiftl_1_l. destruct (Z.testbit x i) eqn:E, (Z.eqb_spec (Z.land x (2 ^ i)) 0)
    as [E'|E']; try done.
  - apply (f_equal (fun z => Z.testbit z i)) in E'.
    by rewrite Z.land_spec, Z.pow2_bits_true, E, Z.bits_0 in E' by done.
  - destruct E'. apply Z.bits_inj'. intros j Hj. rewrite Z.land_spec, Z.bits_0, Z.pow2_bits_eqb by done.
    destruct (Z.eqb_spec i j) as [<-|]; [by rewrite E|apply andb_false_r].
Qed.

Lemma tag_word_packed fsw fxsave_tag st_mm :
  FxsaveToFsaveTagWord fsw fxsave_tag st_mm = pack 2 (physical_tag fsw fxsave_tag st_mm) 8.
Proof.
  unfold FxsaveToFsaveTagWord, pack. change (seqZ 0 (Z.of_nat 8)) with [0; 1; 2; 3; 4; 5; 6; 7].
  change (seqZ 0 8) with [0; 1; 2; 3; 4; 5; 6; 7]. cbn [fold_left]. by rewrite !land_bit.
Qed.

Lemma physical_tag_range fsw fxsave_tag st_mm i : 0 <= physical_tag fsw fxsave_tag st_mm i < 2 ^ 2.
Proof.
  unfold physical_tag. destruct (Z.testbit fxsave_tag i).
  - pose proof (register_tag_range (physical_register fsw st_mm i)). lia.
  - unfold kX87TagEmpty. lia.
Qed.

Lemma tag_word_field fsw fxsave_tag st_mm i :
  0 <= i < 8 ->
  Z.land (Z.shiftr (FxsaveToFsaveTagWord fsw fxsave_tag st_mm) (i * 2)) 0x3 =
  physical_tag fsw fxsave_tag st_mm i.
Proof.
  intros Hi. rewrite tag_word_packed. change 0x3 with (Z.ones 2).
  apply pack_field; [done|apply physical_tag_range|done].
Qed.

Lemma physical_register_valid fsw st_mm i :
  valid (array 8 X87OrMMXRegister.repr) st_mm = true ->
  valid X87Register (physical_register fsw st_mm i) = true.
Proof.
  intros [Hl%Nat.eqb_eq Hv]%andb_true_iff. unfold physical_register. set (n := Z.to_nat _).
  assert (n < 8)%nat as Hn.
  { unfold n. pose proof (Z.mod_pos_bound (i + 8 - Z.land (Z.shiftr fsw 11) 7) 8). lia. }
  rewrite forallb_forall in Hv. specialize (Hv (nth n st_mm (zero_of X87OrMMXRegister.repr))).
  apply andb_true_iff in Hv as [Hv _]; [done|]. apply nth_In. by rewrite Hl.
Qed.

(** C40. Register by register, the full tag word that [FxsaveToFsaveTagWord] builds
    bit by bit classifies the number in the stack register that is the physical
    one at this stack top: empty where the abridged tag says so, and otherwise
    zero, a normal number, or special, by its exponent and significand. *)
Theorem x87_tag_word_classifies fsw fxsave_tag st_mm i :
  valid (array 8 X87OrMMXRegister.repr) st_mm = true -> 0 <= i < 8 ->
  Z.land (Z.shiftr (FxsaveToFsaveTagWord fsw fxsave_tag st_mm) (i * 2)) 0x3 =
  if Z.testbit fxsave_tag i then number_tag (physical_register fsw st_mm i) else kX87TagEmpty.
Proof.
  intros Hv Hi. rewrite tag_word_field by done. unfold physical_tag.
  rewrite (register_tag_number _ (physical_register_valid fsw st_mm i Hv)). reflexivity.
Qed.

(** The abridged tag word is recovered from the full one. *)
Lemma abridged_packed T :
  FsaveToFxsaveTagWord T =
  pack 1 (fun i => Z.b2z (negb (Z.land (Z.shiftr T (i * 2)) 0x3 =? kX87TagEmpty))) 8.
Proof. reflexivity. Qed.

Lemma tag_word_round_trip fsw fxsave_tag st_mm :
  fits 8 fxsave_tag = true ->
  FsaveToFxsaveTagWord (FxsaveToFsaveTagWord fsw fxsave_tag st_mm) = fxsave_tag.
Proof.
  intros Ht%fits_spec. set (T := FxsaveToFsaveTagWord fsw fxsave_tag st_mm).
  set (f := fun i => Z.b2z (negb (Z.land (Z.shiftr T (i * 2)) 0x3 =? kX87TagEmpty))).
  rewrite (abridged_packed T : _ = pack 1 f 8).
  apply Z.bits_inj'. intros j Hj.
  rewrite pack_bit by (done || (intros i; unfold f; destruct (negb _); simpl; lia)).
  rewrite Z.div_1_r, Z.mod_1_r. destruct (Z.ltb_spec j (Z.of_nat 8)).
  - unfold f, T. rewrite tag_word_field by lia. unfold physical_tag.
    destruct (Z.testbit fxsave_tag j); [|done].
    pose proof (register_tag_range (physical_register fsw st_mm j)).
    destruct (Z.eqb_spec (register_tag (physical_register fsw st_mm j)) kX87TagEmpty) as [E|]; [|done].
    unfold kX87TagEmpty in E. lia.
  - symmetry. destruct (decide (fxsave_tag = 0)) as [->|]; [apply Z.testbit_0_l|].
    apply Z.bits_above_log2; [lia|]. apply Z.log2_lt_pow2; [lia|].
    apply Z.lt_le_trans with (2 ^ 8); [lia|]. apply Z.pow_le_mono_r; lia.
Qed.

(** The x87 part of an [fxsave] area: without the reserved fields and SSE state. *)
Definition x87_part (f : Fxsave.t) : Fxsave.t :=
  Fxsave.Make (Fxsave.fcw f) (Fxsave.fsw f) (Fxsave.ftw f) 0 (Fxsave.fop f) (Fxsave.fpu_ip f)
    (Fxsave.fpu_cs f) 0 (Fxsave.fpu_dp f) (Fxsave.fpu_ds f) 0 0 0
    (map (fun r => X87OrMMXRegister.Make (X87OrMMXRegister.st r) (replicate 6 0)) (Fxsave.st_mm f))
    (replicate 8 (replicate 16 0)) (replicate 176 0) (replicate 48 0).

(** [FsaveToFxsave] undoes [FxsaveToFsave], the tag word included, up to the
    fields that [fsave] has no room for, which are zero. *)
Theorem x87_state_round_trip f :
  valid Fxsave.repr f = true -> FsaveToFxsave (FxsaveToFsave f) = x87_part f.
Proof.
  intros Hv. unfold FsaveToFxsave, FxsaveToFsave, x87_part. simpl. rewrite tag_word_round_trip.
  - by rewrite map_map.
  - cbn -[fits Z.mul] in Hv. repeat (apply andb_true_iff in Hv as [Hv ?]). done.
Qed.

(** A saved state: three registers on the stack, one of them zero and one
    infinite. *)
Definition example_st_mm : list X87OrMMXRegister.t :=
  map (fun st => X87OrMMXRegister.Make st (replicate 6 0))
    ([0; 0; 0; 0; 0; 0; 0; 128; 255; 63] :: replicate 10 0 ::
     [0; 0; 0; 0; 0; 0; 0; 128; 255; 127] :: replicate 5 (replicate 10 1)).
Definition example_fxsave : Fxsave.t :=
  Fxsave.Make 0x37f 0x2800 0xe0 7 0 0x1234 0x23 0 0x5678 0x2b 0 0x1f80 0xffff example_st_mm
    (replicate 8 (replicate 16 9)) (replicate 176 0) (replicate 48 0).

Lemma x87_tag_word_classifies_witness :
  Z.land (Z.shiftr (FxsaveToFsaveTagWord 0x2800 0xe0 example_st_mm) (6 * 2)) 0x3 = kX87TagZero.
Proof.
  refine (eq_trans (x87_tag_word_classifies 0x2800 0xe0 example_st_mm 6 _ _) _);
    [vm_compute; reflexivity|lia|vm_compute; reflexivity].
Defined.

Lemma x87_state_round_trip_witness :
  FsaveToFxsave (FxsaveToFsave example_fxsave) = x87_part example_fxsave.
Proof. apply x87_state_round_trip. vm_compute. reflexivity. Defined.

End X87.
