(* ===== verification/MinidumpContext.v ===== *)
(** * CPU contexts in a minidump (minidump/minidump_context.h,
      minidump/minidump_context_writer.cc, snapshot/minidump/minidump_context_converter.cc)

    The structures in which a minidump carries a CPU context, the writers that fill
    them in from a [CPUContext], and the converter that reads one back.  The
    structures are copied to and from the file as they are in memory, which is
    their [repr]. *)

From S2P Require Import Prelude.
From S2P Require Import Structs.
From S2P Require Import CPUContext.

(** ** The structures *)

Module MinidumpContextX86.
Record t := Make {
  context_flags : Z; dr0 : Z; dr1 : Z; dr2 : Z; dr3 : Z; dr6 : Z; dr7 : Z;
  fsave : CPUContextX86.Fsave.t; float_save : Z; gs : Z; fs : Z; es : Z; ds : Z; edi : Z;
  esi : Z; ebx : Z; edx : Z; ecx : Z; eax : Z; ebp : Z; eip : Z; cs : Z; eflags : Z; esp : Z;
  ss : Z; fxsave : CPUContextX86.Fxsave.t
}.
Definition repr : Repr t :=
  struct (uint 4 ⊗ uint 4 ⊗ uint 4 ⊗ uint 4 ⊗ uint 4 ⊗ uint 4 ⊗ uint 4 ⊗ CPUContextX86.Fsave.repr ⊗
    uint 4 ⊗ uint 4 ⊗ uint 4 ⊗ uint 4 ⊗ uint 4 ⊗ uint 4 ⊗ uint 4 ⊗ uint 4 ⊗ uint 4 ⊗ uint 4 ⊗ uint 4
    ⊗ uint 4 ⊗ uint 4 ⊗ uint 4 ⊗ uint 4 ⊗ uint 4 ⊗ uint 4 ⊗ CPUContextX86.Fxsave.repr)%cp
    (fun x => (context_flags x, dr0 x, dr1 x, dr2 x, dr3 x, dr6 x, dr7 x, fsave x, float_save x,
      gs x, fs x, es x, ds x, edi x, esi x, ebx x, edx x, ecx x, eax x, ebp x, eip x, cs x,
      eflags x, esp x, ss x, fxsave x))
    (fun '(x0, x1, x2, x3, x4, x5, x6, x7, x8, x9, x10, x11, x12, x13, x14, x15, x16, x17, x18, x19,
      x20, x21, x22, x23, x24, x25) => Make x0 x1 x2 x3 x4 x5 x6 x7 x8 x9 x10 x11 x12 x13 x14 x15
      x16 x17 x18 x19 x20 x21 x22 x23 x24 x25).
#[global] Instance repr_laws : ReprLaws repr.
Proof. struct_laws. Qed.
End MinidumpContextX86.

Module MinidumpContextAMD64.
Record t := Make {
  p1_home : Z; p2_home : Z; p3_home : Z; p4_home : Z; p5_home : Z; p6_home : Z;
  context_flags : Z; mx_csr : Z; cs : Z; ds : Z; es : Z; fs : Z; gs : Z; ss : Z; eflags : Z;
  dr0 : Z; dr1 : Z; dr2 : Z; dr3 : Z; dr6 : Z; dr7 : Z; rax : Z; rcx : Z; rdx : Z; rbx : Z;
  rsp : Z; rbp : Z; rsi : Z; rdi : Z; r8 : Z; r9 : Z; r10 : Z; r11 : Z; r12 : Z; r13 : Z;
  r14 : Z; r15 : Z; rip : Z; fxsave : CPUContextX86_64.Fxsave.t;
  vector_register : list Uint128.t; vector_control : Z; debug_control : Z;
  last_branch_to_rip : Z; last_branch_from_rip : Z; last_exception_to_rip : Z;
  last_exception_from_rip : Z
}.
Definition repr : Repr t :=
  struct (uint 8 ⊗ uint 8 ⊗ uint 8 ⊗ uint 8 ⊗ uint 8 ⊗ uint 8 ⊗ uint 4 ⊗ uint 4 ⊗ uint 2 ⊗ uint 2 ⊗
    uint 2 ⊗ uint 2 ⊗ uint 2 ⊗ uint 2 ⊗ uint 4 ⊗ uint 8 ⊗ uint 8 ⊗ uint 8 ⊗ uint 8 ⊗ uint 8 ⊗ uint 8
    ⊗ uint 8 ⊗ uint 8 ⊗ uint 8 ⊗ uint 8 ⊗ uint 8 ⊗ uint 8 ⊗ uint 8 ⊗ uint 8 ⊗ uint 8 ⊗ uint 8 ⊗
    uint 8 ⊗ uint 8 ⊗ uint 8 ⊗ uint 8 ⊗ uint 8 ⊗ uint 8 ⊗ uint 8 ⊗ CPUContextX86_64.Fxsave.repr ⊗
    (array 26 Uint128.repr) ⊗ uint 8 ⊗ uint 8 ⊗ uint 8 ⊗ uint 8 ⊗ uint 8 ⊗ uint 8)%cp
    (fun x => (p1_home x, p2_home x, p3_home x, p4_home x, p5_home x, p6_home x, context_flags x,
      mx_csr x, cs x, ds x, es x, fs x, gs x, ss x, eflags x, dr0 x, dr1 x, dr2 x, dr3 x, dr6 x,
      dr7 x, rax x, rcx x, rdx x, rbx x, rsp x, rbp x, rsi x, rdi x, r8 x, r9 x, r10 x, r11 x,
      r12 x, r13 x, r14 x, r15 x, rip x, fxsave x, vector_register x, vector_control x,
      debug_control x, last_branch_to_rip x, last_branch_from_rip x, last_exception_to_rip x,
      last_exception_from_rip x))
    (fun '(x0, x1, x2, x3, x4, x5, x6, x7, x8, x9, x10, x11, x12, x13, x14, x15, x16, x17, x18, x19,
      x20, x21, x22, x23, x24, x25, x26, x27, x28, x29, x30, x31, x32, x33, x34, x35, x36, x37, x38,
      x39, x40, x41, x42, x43, x44, x45) => Make x0 x1 x2 x3 x4 x5 x6 x7 x8 x9 x10 x11 x12 x13 x14
      x15 x16 x17 x18 x19 x20 x21 x22 x23 x24 x25 x26 x27 x28 x29 x30 x31 x32 x33 x34 x35 x36 x37
      x38 x39 x40 x41 x42 x43 x44 x45).
#[global] Instance repr_laws : ReprLaws repr.
Proof. struct_laws. Qed.
End MinidumpContextAMD64.

Module MinidumpContextARM.
Record t := Make {
  context_flags : Z; regs : list Z; fp : Z; ip : Z; sp : Z; lr : Z; pc : Z; cpsr : Z; fpscr : Z;
  vfp : list Z; extra : list Z
}.
Definition repr : Repr t :=
  struct (uint 4 ⊗ (array 11 (uint 4)) ⊗ uint 4 ⊗ uint 4 ⊗ uint 4 ⊗ uint 4 ⊗ uint 4 ⊗ uint 4 ⊗
    (padded (uint 4) 4) ⊗ (array 32 (uint 8)) ⊗ (array 8 (uint 4)))%cp
    (fun x => (context_flags x, regs x, fp x, ip x, sp x, lr x, pc x, cpsr x, fpscr x, vfp x,
      extra x))
    (fun '(x0, x1, x2, x3, x4, x5, x6, x7, x8, x9, x10) => Make x0 x1 x2 x3 x4 x5 x6 x7 x8 x9 x10).
#[global] Instance repr_laws : ReprLaws repr.
Proof. struct_laws. Qed.
End MinidumpContextARM.

(** The extended context of AMD64: [MinidumpContextChunk], whose [offset] is signed and
    kept in two's complement, [MinidumpContextExHeader], [MinidumpXSaveAreaHeader] and
    [MinidumpAMD64XSaveFormatCetU]. *)
Module MinidumpContextChunk.
Record t := Make {
  offset : Z; size : Z
}.
Definition repr : Repr t :=
  struct (uint 4 ⊗ uint 4)%cp
    (fun x => (offset x, size x))
    (fun '(x0, x1) => Make x0 x1).
#[global] Instance repr_laws : ReprLaws repr.
Proof. struct_laws. Qed.
End MinidumpContextChunk.
Module MinidumpContextExHeader.
Record t := Make {
  all : MinidumpContextChunk.t; legacy : MinidumpContextChunk.t; xstate : MinidumpContextChunk.t
}.
Definition repr : Repr t :=
  struct (MinidumpContextChunk.repr ⊗ MinidumpContextChunk.repr ⊗ MinidumpContextChunk.repr)%cp
    (fun x => (all x, legacy x, xstate x))
    (fun '(x0, x1, x2) => Make x0 x1 x2).
#[global] Instance repr_laws : ReprLaws repr.
Proof. struct_laws. Qed.
End MinidumpContextExHeader.
Module MinidumpXSaveAreaHeader.
Record t := Make {
  mask : Z; compaction_mask : Z; xsave_header_reserved : list Z
}.
Definition repr : Repr t :=
  struct (uint 8 ⊗ uint 8 ⊗ (array 6 (uint 8)))%cp
    (fun x => (mask x, compaction_mask x, xsave_header_reserved x))
    (fun '(x0, x1, x2) => Make x0 x1 x2).
#[global] Instance repr_laws : ReprLaws repr.
Proof. struct_laws. Qed.
End MinidumpXSaveAreaHeader.
Module MinidumpAMD64XSaveFormatCetU.
Record t := Make {
  cetmsr : Z; ssp : Z
}.
Definition repr : Repr t :=
  struct (uint 8 ⊗ uint 8)%cp
    (fun x => (cetmsr x, ssp x))
    (fun '(x0, x1) => Make x0 x1).
#[global] Instance repr_laws : ReprLaws repr.
Proof. struct_laws. Qed.
End MinidumpAMD64XSaveFormatCetU.

Module MinidumpContextARM64.
Record t := Make {
  context_flags : Z; cpsr : Z; regs : list Z; fp : Z; lr : Z; sp : Z; pc : Z;
  fpsimd : list Uint128.t; fpcr : Z; fpsr : Z; bcr : list Z; bvr : list Z; wcr : list Z;
  wvr : list Z
}.
Definition repr : Repr t :=
  struct (uint 4 ⊗ uint 4 ⊗ (array 29 (uint 8)) ⊗ uint 8 ⊗ uint 8 ⊗ uint 8 ⊗ uint 8 ⊗ (array 32
    Uint128.repr) ⊗ uint 4 ⊗ uint 4 ⊗ (array 8 (uint 4)) ⊗ (array 8 (uint 8)) ⊗ (array 2 (uint 4)) ⊗
    (array 2 (uint 8)))%cp
    (fun x => (context_flags x, cpsr x, regs x, fp x, lr x, sp x, pc x, fpsimd x, fpcr x, fpsr x,
      bcr x, bvr x, wcr x, wvr x))
    (fun '(x0, x1, x2, x3, x4, x5, x6, x7, x8, x9, x10, x11, x12, x13) => Make x0 x1 x2 x3 x4 x5 x6
      x7 x8 x9 x10 x11 x12 x13).
#[global] Instance repr_laws : ReprLaws repr.
Proof. struct_laws. Qed.
End MinidumpContextARM64.

Module MinidumpContextMIPS.
Record t := Make {
  context_flags : Z; _pad0 : Z; regs : list Z; mdhi : Z; mdlo : Z; hi : list Z; lo : list Z;
  dsp_control : Z; _pad1 : Z; epc : Z; badvaddr : Z; status : Z; cause : Z; fpregs : list Z;
  fpcsr : Z; fir : Z
}.
Definition repr : Repr t :=
  struct (uint 4 ⊗ uint 4 ⊗ (array 32 (uint 8)) ⊗ uint 8 ⊗ uint 8 ⊗ (array 3 (uint 4)) ⊗ (array 3
    (uint 4)) ⊗ uint 4 ⊗ uint 4 ⊗ uint 8 ⊗ uint 8 ⊗ uint 4 ⊗ uint 4 ⊗ (array 32 (uint 8)) ⊗ uint 4 ⊗
    uint 4)%cp
    (fun x => (context_flags x, _pad0 x, regs x, mdhi x, mdlo x, hi x, lo x, dsp_control x, _pad1 x,
      epc x, badvaddr x, status x, cause x, fpregs x, fpcsr x, fir x))
    (fun '(x0, x1, x2, x3, x4, x5, x6, x7, x8, x9, x10, x11, x12, x13, x14, x15) => Make x0 x1 x2 x3
      x4 x5 x6 x7 x8 x9 x10 x11 x12 x13 x14 x15).
#[global] Instance repr_laws : ReprLaws repr.
Proof. struct_laws. Qed.
End MinidumpContextMIPS.

Module MinidumpContextMIPS64.
Record t := Make {
  context_flags : Z; regs : list Z; mdhi : Z; mdlo : Z; hi : list Z; lo : list Z;
  dsp_control : Z; epc : Z; badvaddr : Z; status : Z; cause : Z; fpregs : list Z; fpcsr : Z;
  fir : Z
}.
Definition repr : Repr t :=
  struct (uint 8 ⊗ (array 32 (uint 8)) ⊗ uint 8 ⊗ uint 8 ⊗ (array 3 (uint 8)) ⊗ (array 3 (uint 8)) ⊗
    uint 8 ⊗ uint 8 ⊗ uint 8 ⊗ uint 8 ⊗ uint 8 ⊗ (array 32 (uint 8)) ⊗ uint 8 ⊗ uint 8)%cp
    (fun x => (context_flags x, regs x, mdhi x, mdlo x, hi x, lo x, dsp_control x, epc x,
      badvaddr x, status x, cause x, fpregs x, fpcsr x, fir x))
    (fun '(x0, x1, x2, x3, x4, x5, x6, x7, x8, x9, x10, x11, x12, x13) => Make x0 x1 x2 x3 x4 x5 x6
      x7 x8 x9 x10 x11 x12 x13).
#[global] Instance repr_laws : ReprLaws repr.
Proof. struct_laws. Qed.
End MinidumpContextMIPS64.

(** ** The flags of [context_flags] *)

Definition kMinidumpContextX86 : Z := 0x00010000.
Definition kMinidumpContextX86Control : Z := Z.lor kMinidumpContextX86 0x1.
Definition kMinidumpContextX86Integer : Z := Z.lor kMinidumpContextX86 0x2.
Definition kMinidumpContextX86Segment : Z := Z.lor kMinidumpContextX86 0x4.
Definition kMinidumpContextX86FloatingPoint : Z := Z.lor kMinidumpContextX86 0x8.
Definition kMinidumpContextX86Debug : Z := Z.lor kMinidumpContextX86 0x10.
Definition kMinidumpContextX86Extended : Z := Z.lor kMinidumpContextX86 0x20.
Definition kMinidumpContextX86Full : Z := Z.lor (Z.lor kMinidumpContextX86Control
  kMinidumpContextX86Integer) kMinidumpContextX86Segment.
Definition kMinidumpContextX86All : Z := Z.lor (Z.lor (Z.lor kMinidumpContextX86Full
  kMinidumpContextX86FloatingPoint) kMinidumpContextX86Debug) kMinidumpContextX86Extended.
Definition kMinidumpContextAMD64 : Z := 0x00100000.
Definition kMinidumpContextAMD64Control : Z := Z.lor kMinidumpContextAMD64 0x1.
Definition kMinidumpContextAMD64Integer : Z := Z.lor kMinidumpContextAMD64 0x2.
Definition kMinidumpContextAMD64Segment : Z := Z.lor kMinidumpContextAMD64 0x4.
Definition kMinidumpContextAMD64FloatingPoint : Z := Z.lor kMinidumpContextAMD64 0x8.
Definition kMinidumpContextAMD64Debug : Z := Z.lor kMinidumpContextAMD64 0x10.
Definition kMinidumpContextAMD64Xstate : Z := Z.lor kMinidumpContextAMD64 0x40.
Definition kMinidumpContextAMD64Full : Z := Z.lor (Z.lor kMinidumpContextAMD64Control
  kMinidumpContextAMD64Integer) kMinidumpContextAMD64FloatingPoint.
Definition kMinidumpContextAMD64All : Z := Z.lor (Z.lor kMinidumpContextAMD64Full
  kMinidumpContextAMD64Segment) kMinidumpContextAMD64Debug.
Definition kMinidumpContextARM : Z := 0x40000000.
Definition kMinidumpContextARMInteger : Z := Z.lor kMinidumpContextARM 0x2.
Definition kMinidumpContextARMVFP : Z := Z.lor kMinidumpContextARM 0x4.
Definition kMinidumpContextARMAll : Z := Z.lor kMinidumpContextARMInteger kMinidumpContextARMVFP.
Definition kMinidumpContextARM64 : Z := 0x00400000.
Definition kMinidumpContextARM64Control : Z := Z.lor kMinidumpContextARM64 0x1.
Definition kMinidumpContextARM64Integer : Z := Z.lor kMinidumpContextARM64 0x2.
Definition kMinidumpContextARM64Fpsimd : Z := Z.lor kMinidumpContextARM64 0x4.
Definition kMinidumpContextARM64Full : Z := Z.lor (Z.lor kMinidumpContextARM64Control
  kMinidumpContextARM64Integer) kMinidumpContextARM64Fpsimd.
Definition kMinidumpContextMIPS : Z := 0x00040000.
Definition kMinidumpContextMIPSInteger : Z := Z.lor kMinidumpContextMIPS 0x2.
Definition kMinidumpContextMIPSFloatingPoint : Z := Z.lor kMinidumpContextMIPS 0x4.
Definition kMinidumpContextMIPSDSP : Z := Z.lor kMinidumpContextMIPS 0x8.
Definition kMinidumpContextMIPSAll : Z := Z.lor (Z.lor kMinidumpContextMIPSInteger
  kMinidumpContextMIPSFloatingPoint) kMinidumpContextMIPSDSP.
Definition kMinidumpContextMIPS64 : Z := 0x00080000.
Definition kMinidumpContextMIPS64Integer : Z := Z.lor kMinidumpContextMIPS64 0x2.
Definition kMinidumpContextMIPS64FloatingPoint : Z := Z.lor kMinidumpContextMIPS64 0x4.
Definition kMinidumpContextMIPS64DSP : Z := Z.lor kMinidumpContextMIPS64 0x8.
Definition kMinidumpContextMIPS64All : Z := Z.lor (Z.lor kMinidumpContextMIPS64Integer
  kMinidumpContextMIPS64FloatingPoint) kMinidumpContextMIPS64DSP.

Definition kMinidumpAMD64XSaveOffset : Z := 0x550.
(** [XSTATE_*] (compat/non_win/winnt.h). *)
Definition XSTATE_COMPACTION_ENABLE_MASK : Z := 2 ^ 63.
Definition XSTATE_CET_U : nat := 11.
Definition XSTATE_MASK_CET_U : Z := Z.shiftl 1 (Z.of_nat XSTATE_CET_U).

(** ** The writers *)

Module MinidumpContextX86Writer.

Definition InitializeFromSnapshot (c : CPUContextX86.t) : MinidumpContextX86.t :=
  MinidumpContextX86.Make kMinidumpContextX86All
    (CPUContextX86.dr0 c) (CPUContextX86.dr1 c) (CPUContextX86.dr2 c) (CPUContextX86.dr3 c)
    (CPUContextX86.dr6 c) (CPUContextX86.dr7 c)
    (CPUContextX86.FxsaveToFsave (CPUContextX86.fxsave c)) 0
    (CPUContextX86.gs c) (CPUContextX86.fs c) (CPUContextX86.es c) (CPUContextX86.ds c)
    (CPUContextX86.edi c) (CPUContextX86.esi c) (CPUContextX86.ebx c) (CPUContextX86.edx c)
    (CPUContextX86.ecx c) (CPUContextX86.eax c) (CPUContextX86.ebp c) (CPUContextX86.eip c)
    (CPUContextX86.cs c) (CPUContextX86.eflags c) (CPUContextX86.esp c) (CPUContextX86.ss c)
    (CPUContextX86.fxsave c).

End MinidumpContextX86Writer.

(** [MinidumpXSaveAMD64CetU], the only [MinidumpXSaveFeatureAMD64]: its [cet_u_]. *)
Module MinidumpXSaveAMD64CetU.

Definition Size : Z := Z.of_nat (sizeof MinidumpAMD64XSaveFormatCetU.repr).
Definition XCompBVBit : Z := Z.of_nat XSTATE_CET_U.

(** [None] is the failed DCHECK. *)
Definition InitializeFromSnapshot (c : CPUContextX86_64.t) : option MinidumpAMD64XSaveFormatCetU.t :=
  if CPUContextX86_64.cetmsr c =? 1 then
    Some (MinidumpAMD64XSaveFormatCetU.Make (CPUContextX86_64.cetmsr c) (CPUContextX86_64.ssp c))
  else None.

(** [Copy]: the bytes it stores. *)
Definition Copy (cet_u : MinidumpAMD64XSaveFormatCetU.t) : bytes :=
  to_bytes MinidumpAMD64XSaveFormatCetU.repr cet_u.

End MinidumpXSaveAMD64CetU.

Module MinidumpContextAMD64Writer.

(** [context_] and [xsave_entries_]. *)
Record t := Make {
  context_ : MinidumpContextAMD64.t;
  xsave_entries_ : list MinidumpAMD64XSaveFormatCetU.t
}.

(** The assignments to [context_]. *)
Definition context_from_snapshot (c : CPUContextX86_64.t) : MinidumpContextAMD64.t :=
  MinidumpContextAMD64.Make 0 0 0 0 0 0
    (if negb (CPUContextX86_64.enabled_features c =? 0)
     then Z.lor kMinidumpContextAMD64All kMinidumpContextAMD64Xstate
     else kMinidumpContextAMD64All)
    (CPUContextX86_64.Fxsave.mxcsr (CPUContextX86_64.fxsave c))
    (CPUContextX86_64.cs c) 0 0 (CPUContextX86_64.fs c) (CPUContextX86_64.gs c) 0
    (u32 (CPUContextX86_64.rflags c))
    (CPUContextX86_64.dr0 c) (CPUContextX86_64.dr1 c) (CPUContextX86_64.dr2 c)
    (CPUContextX86_64.dr3 c) (CPUContextX86_64.dr6 c) (CPUContextX86_64.dr7 c)
    (CPUContextX86_64.rax c) (CPUContextX86_64.rcx c) (CPUContextX86_64.rdx c)
    (CPUContextX86_64.rbx c) (CPUContextX86_64.rsp c) (CPUContextX86_64.rbp c)
    (CPUContextX86_64.rsi c) (CPUContextX86_64.rdi c) (CPUContextX86_64.r8 c)
    (CPUContextX86_64.r9 c) (CPUContextX86_64.r10 c) (CPUContextX86_64.r11 c)
    (CPUContextX86_64.r12 c) (CPUContextX86_64.r13 c) (CPUContextX86_64.r14 c)
    (CPUContextX86_64.r15 c) (CPUContextX86_64.rip c) (CPUContextX86_64.fxsave c)
    (replicate 26 (Uint128.Make 0 0)) 0 0 0 0 0 0.

Definition InitializeFromSnapshot (c : CPUContextX86_64.t) : option t :=
  let context := context_from_snapshot c in
  if negb (Z.land (CPUContextX86_64.enabled_features c) XSTATE_MASK_CET_U =? 0) then
    cet_u ← MinidumpXSaveAMD64CetU.InitializeFromSnapshot c;
    Some (Make context [cet_u])
  else Some (Make context []).

(** [ContextSize], with its DCHECK. *)
Definition ContextSize (x : t) : option Z :=
  match xsave_entries_ x with
  | [] => Some (Z.of_nat (sizeof MinidumpContextAMD64.repr))
  | entries =>
      if MinidumpContextAMD64.context_flags (context_ x) =?
         Z.lor kMinidumpContextAMD64All kMinidumpContextAMD64Xstate
      then Some (fold_left (fun size _ => size + MinidumpXSaveAMD64CetU.Size) entries
                   kMinidumpAMD64XSaveOffset)
      else None
  end.

(** [memcpy] into the buffer, under the DCHECK that it has room. *)
Definition copy_to (buf : bytes) (off : Z) (d : bytes) : option bytes :=
  if off + Z.of_nat (length d) <=? Z.of_nat (length buf)
  then Some (overwrite (Z.to_nat off) d buf) else None.

(** The loop that stores the entries after each other and collects their bits. *)
Fixpoint copy_entries (buf : bytes) (cursor mask : Z) (entries : list MinidumpAMD64XSaveFormatCetU.t)
    : option (bytes * Z) :=
  match entries with
  | [] => Some (buf, mask)
  | entry :: entries' =>
      let mask := Z.lor mask (Z.shiftl 1 MinidumpXSaveAMD64CetU.XCompBVBit) in
      buf ← copy_to buf cursor (MinidumpXSaveAMD64CetU.Copy entry);
      copy_entries buf (cursor + MinidumpXSaveAMD64CetU.Size) mask entries'
  end.

(** The CONTEXT_EX of an extended context. *)
Definition context_ex (context_size : Z) : MinidumpContextExHeader.t :=
  let sizeof_context := Z.of_nat (sizeof MinidumpContextAMD64.repr) in
  let sizeof_header := Z.of_nat (sizeof MinidumpXSaveAreaHeader.repr) in
  let all := MinidumpContextChunk.Make (u32 (- sizeof_context)) (u32 context_size) in
  let legacy := MinidumpContextChunk.Make (u32 (- sizeof_context)) sizeof_context in
  let xstate := MinidumpContextChunk.Make
    (u32 (kMinidumpAMD64XSaveOffset - sizeof_header - sizeof_context))
    (u32 (sizeof_header + context_size - kMinidumpAMD64XSaveOffset)) in
  MinidumpContextExHeader.Make all legacy xstate.

(** [WriteObject]: the bytes it writes.  [context_ex.xstate.offset] is relative to
    the CONTEXT_EX, which follows the context. *)
Definition WriteObject (x : t) : option bytes :=
  let sizeof_context := Z.of_nat (sizeof MinidumpContextAMD64.repr) in
  context_size ← ContextSize x;
  buf ← copy_to (replicate (Z.to_nat context_size) 0) 0 (to_bytes MinidumpContextAMD64.repr (context_ x));
  match xsave_entries_ x with
  | [] => Some buf
  | entries =>
      let ex := context_ex context_size in
      buf ← copy_to buf sizeof_context (to_bytes MinidumpContextExHeader.repr ex);
      '(buf, mask) ← copy_entries buf kMinidumpAMD64XSaveOffset 0 entries;
      let xsave_header := MinidumpXSaveAreaHeader.Make mask
        (Z.lor mask XSTATE_COMPACTION_ENABLE_MASK) (replicate 6 0) in
      copy_to buf
        (wrap_signed 32 (MinidumpContextChunk.offset (MinidumpContextExHeader.xstate ex)) + sizeof_context)
        (to_bytes MinidumpXSaveAreaHeader.repr xsave_header)
  end.

End MinidumpContextAMD64Writer.

Module MinidumpContextARMWriter.

Definition InitializeFromSnapshot (c : CPUContextARM.t) : MinidumpContextARM.t :=
  MinidumpContextARM.Make kMinidumpContextARMAll (CPUContextARM.regs c) (CPUContextARM.fp c)
    (CPUContextARM.ip c) (CPUContextARM.sp c) (CPUContextARM.lr c) (CPUContextARM.pc c)
    (CPUContextARM.cpsr c) (CPUContextARM.fpscr (CPUContextARM.vfp_regs c))
    (CPUContextARM.vfp (CPUContextARM.vfp_regs c)) (replicate 8 0).

End MinidumpContextARMWriter.

Module MinidumpContextARM64Writer.

(** [memcpy] of the first 29 of the 31 registers. *)
Definition InitializeFromSnapshot (c : CPUContextARM64.t) : MinidumpContextARM64.t :=
  MinidumpContextARM64.Make kMinidumpContextARM64Full (CPUContextARM64.spsr c)
    (take 29 (CPUContextARM64.regs c)) (nth 29 (CPUContextARM64.regs c) 0)
    (nth 30 (CPUContextARM64.regs c) 0) (CPUContextARM64.sp c) (CPUContextARM64.pc c)
    (CPUContextARM64.fpsimd c) (CPUContextARM64.fpcr c) (CPUContextARM64.fpsr c)
    (replicate 8 0) (replicate 8 0) (replicate 2 0) (replicate 2 0).

End MinidumpContextARM64Writer.

Module MinidumpContextMIPSWriter.

Definition InitializeFromSnapshot (c : CPUContextMIPS.t) : MinidumpContextMIPS.t :=
  MinidumpContextMIPS.Make kMinidumpContextMIPSAll 0 (CPUContextMIPS.regs c)
    (CPUContextMIPS.mdhi c) (CPUContextMIPS.mdlo c) (CPUContextMIPS.hi c) (CPUContextMIPS.lo c)
    (CPUContextMIPS.dsp_control c) 0 (CPUContextMIPS.cp0_epc c) (CPUContextMIPS.cp0_badvaddr c)
    (CPUContextMIPS.cp0_status c) (CPUContextMIPS.cp0_cause c) (CPUContextMIPS.fpregs c)
    (CPUContextMIPS.fpcsr c) (CPUContextMIPS.fir c).

End MinidumpContextMIPSWriter.

Module MinidumpContextMIPS64Writer.

Definition InitializeFromSnapshot (c : CPUContextMIPS64.t) : MinidumpContextMIPS64.t :=
  MinidumpContextMIPS64.Make kMinidumpContextMIPS64All (CPUContextMIPS64.regs c)
    (CPUContextMIPS64.mdhi c) (CPUContextMIPS64.mdlo c) (CPUContextMIPS64.hi c)
    (CPUContextMIPS64.lo c) (CPUContextMIPS64.dsp_control c) (CPUContextMIPS64.cp0_epc c)
    (CPUContextMIPS64.cp0_badvaddr c) (CPUContextMIPS64.cp0_status c) (CPUContextMIPS64.cp0_cause c)
    (CPUContextMIPS64.fpregs c) (CPUContextMIPS64.fpcsr c) (CPUContextMIPS64.fir c).

End MinidumpContextMIPS64Writer.

(** A [MinidumpContextWriter] that has been initialized: its [Alignment] and what
    its [WriteObject] writes, which is as long as its [ContextSize]. *)
Record MinidumpContextWriter := MkContext {
  context_alignment : Z;
  context_bytes : bytes
}.

(** [MinidumpContextWriter::CreateFromSnapshot]: [None] when a DCHECK fails, and
    [Some None] the null pointer for an unknown architecture. *)
Definition CreateFromSnapshot (c : CPUContext) : option (option MinidumpContextWriter) :=
  match c with
  | x86 c => Some (Some (MkContext 4
      (to_bytes MinidumpContextX86.repr (MinidumpContextX86Writer.InitializeFromSnapshot c))))
  | x86_64 c =>
      x ← MinidumpContextAMD64Writer.InitializeFromSnapshot c;
      b ← MinidumpContextAMD64Writer.WriteObject x;
      Some (Some (MkContext 16 b))
  | arm c => Some (Some (MkContext 4
      (to_bytes MinidumpContextARM.repr (MinidumpContextARMWriter.InitializeFromSnapshot c))))
  | arm64 c => Some (Some (MkContext 4
      (to_bytes MinidumpContextARM64.repr (MinidumpContextARM64Writer.InitializeFromSnapshot c))))
  | mipsel c => Some (Some (MkContext 4
      (to_bytes MinidumpContextMIPS.repr (MinidumpContextMIPSWriter.InitializeFromSnapshot c))))
  | mips64 c => Some (Some (MkContext 4
      (to_bytes MinidumpContextMIPS64.repr (MinidumpContextMIPS64Writer.InitializeFromSnapshot c))))
  | context_unknown => Some None
  end.

(** ** The converter *)

Module MinidumpContextConverter.

(** The structure is read from a buffer that is long enough, and has the flag of
    its architecture. *)
Definition read_context {A} (R : Repr A) (context_flags : A -> Z) (flag : Z) (minidump_context : bytes)
    : option A :=
  if (length minidump_context <? sizeof R)%nat then None
  else
    let src := of_bytes R minidump_context in
    if Z.land (context_flags src) flag =? 0 then None else Some src.

(** The context is in memory that was zero. *)
Definition convert_x86 (src : MinidumpContextX86.t) : CPUContextX86.t :=
  let flags := MinidumpContextX86.context_flags src in
  let fxsave :=
    if negb (Z.land flags kMinidumpContextX86Extended =? 0) then MinidumpContextX86.fxsave src
    else if negb (Z.land flags kMinidumpContextX86FloatingPoint =? 0)
    then CPUContextX86.FsaveToFxsave (MinidumpContextX86.fsave src)
    else zero_of CPUContextX86.Fxsave.repr in
  CPUContextX86.Make (MinidumpContextX86.eax src) (MinidumpContextX86.ebx src)
    (MinidumpContextX86.ecx src) (MinidumpContextX86.edx src) (MinidumpContextX86.edi src)
    (MinidumpContextX86.esi src) (MinidumpContextX86.ebp src) (MinidumpContextX86.esp src)
    (MinidumpContextX86.eip src) (MinidumpContextX86.eflags src) (u16 (MinidumpContextX86.cs src))
    (u16 (MinidumpContextX86.ds src)) (u16 (MinidumpContextX86.es src))
    (u16 (MinidumpContextX86.fs src)) (u16 (MinidumpContextX86.gs src))
    (u16 (MinidumpContextX86.ss src)) fxsave
    (MinidumpContextX86.dr0 src) (MinidumpContextX86.dr1 src) (MinidumpContextX86.dr2 src)
    (MinidumpContextX86.dr3 src) (MinidumpContextX86.dr6 src) (MinidumpContextX86.dr7 src)
    (MinidumpContextX86.dr6 src) (MinidumpContextX86.dr7 src).

Definition convert_x86_64 (src : MinidumpContextAMD64.t) : CPUContextX86_64.t :=
  CPUContextX86_64.Make (MinidumpContextAMD64.rax src) (MinidumpContextAMD64.rbx src)
    (MinidumpContextAMD64.rcx src) (MinidumpContextAMD64.rdx src) (MinidumpContextAMD64.rdi src)
    (MinidumpContextAMD64.rsi src) (MinidumpContextAMD64.rbp src) (MinidumpContextAMD64.rsp src)
    (MinidumpContextAMD64.r8 src) (MinidumpContextAMD64.r9 src) (MinidumpContextAMD64.r10 src)
    (MinidumpContextAMD64.r11 src) (MinidumpContextAMD64.r12 src) (MinidumpContextAMD64.r13 src)
    (MinidumpContextAMD64.r14 src) (MinidumpContextAMD64.r15 src) (MinidumpContextAMD64.rip src)
    (MinidumpContextAMD64.eflags src) (MinidumpContextAMD64.cs src) (MinidumpContextAMD64.fs src)
    (MinidumpContextAMD64.gs src) (MinidumpContextAMD64.fxsave src) (MinidumpContextAMD64.dr0 src)
    (MinidumpContextAMD64.dr1 src) (MinidumpContextAMD64.dr2 src) (MinidumpContextAMD64.dr3 src)
    (MinidumpContextAMD64.dr6 src) (MinidumpContextAMD64.dr7 src) (MinidumpContextAMD64.dr6 src)
    (MinidumpContextAMD64.dr7 src) 0 0 0.

Definition convert_arm (src : MinidumpContextARM.t) : CPUContextARM.t :=
  CPUContextARM.Make (MinidumpContextARM.regs src) (MinidumpContextARM.fp src)
    (MinidumpContextARM.ip src) (MinidumpContextARM.sp src) (MinidumpContextARM.lr src)
    (MinidumpContextARM.pc src) (MinidumpContextARM.cpsr src) CPUContextARM.zero_fpa
    (CPUContextARM.MakeVFP (MinidumpContextARM.vfp src) (MinidumpContextARM.fpscr src)) false
    (negb (Z.land (MinidumpContextARM.context_flags src) kMinidumpContextARMVFP =? 0)).

Definition convert_arm64 (src : MinidumpContextARM64.t) : CPUContextARM64.t :=
  CPUContextARM64.Make
    (MinidumpContextARM64.regs src ++ [MinidumpContextARM64.fp src; MinidumpContextARM64.lr src])
    (MinidumpContextARM64.sp src) (MinidumpContextARM64.pc src) (MinidumpContextARM64.cpsr src)
    (MinidumpContextARM64.fpsimd src) (MinidumpContextARM64.fpsr src) (MinidumpContextARM64.fpcr src).

Definition convert_mips (src : MinidumpContextMIPS.t) : CPUContextMIPS.t :=
  CPUContextMIPS.Make (MinidumpContextMIPS.regs src) (u32 (MinidumpContextMIPS.mdlo src))
    (u32 (MinidumpContextMIPS.mdhi src)) (u32 (MinidumpContextMIPS.epc src))
    (u32 (MinidumpContextMIPS.badvaddr src)) (MinidumpContextMIPS.status src)
    (MinidumpContextMIPS.cause src) (MinidumpContextMIPS.hi src) (MinidumpContextMIPS.lo src)
    (MinidumpContextMIPS.dsp_control src) (MinidumpContextMIPS.fpregs src)
    (MinidumpContextMIPS.fpcsr src) (MinidumpContextMIPS.fir src).

Definition convert_mips64 (src : MinidumpContextMIPS64.t) : CPUContextMIPS64.t :=
  CPUContextMIPS64.Make (MinidumpContextMIPS64.regs src) (MinidumpContextMIPS64.mdlo src)
    (MinidumpContextMIPS64.mdhi src) (MinidumpContextMIPS64.epc src)
    (MinidumpContextMIPS64.badvaddr src) (MinidumpContextMIPS64.status src)
    (MinidumpContextMIPS64.cause src) (MinidumpContextMIPS64.hi src) (MinidumpContextMIPS64.lo src)
    (MinidumpContextMIPS64.dsp_control src) (MinidumpContextMIPS64.fpregs src)
    (MinidumpContextMIPS64.fpcsr src) (MinidumpContextMIPS64.fir src).

(** [Initialize], and the context that [Get] returns. *)
Definition Initialize (arch : CPUArchitecture) (minidump_context : bytes) : option CPUContext :=
  if (length minidump_context =? 0)%nat then Some context_unknown
  else
    match arch with
    | kCPUArchitectureX86 =>
        src ← read_context MinidumpContextX86.repr MinidumpContextX86.context_flags
                kMinidumpContextX86 minidump_context;
        Some (x86 (convert_x86 src))
    | kCPUArchitectureX86_64 =>
        src ← read_context MinidumpContextAMD64.repr MinidumpContextAMD64.context_flags
                kMinidumpContextAMD64 minidump_context;
        Some (x86_64 (convert_x86_64 src))
    | kCPUArchitectureARM =>
        src ← read_context MinidumpContextARM.repr MinidumpContextARM.context_flags
                kMinidumpContextARM minidump_context;
        Some (arm (convert_arm src))
    | kCPUArchitectureARM64 =>
        src ← read_context MinidumpContextARM64.repr MinidumpContextARM64.context_flags
                kMinidumpContextARM64 minidump_context;
        Some (arm64 (convert_arm64 src))
    | kCPUArchitectureMIPSEL =>
        src ← read_context MinidumpContextMIPS.repr MinidumpContextMIPS.context_flags
                kMinidumpContextMIPS minidump_context;
        Some (mipsel (convert_mips src))
    | kCPUArchitectureMIPS64EL =>
        src ← read_context MinidumpContextMIPS64.repr MinidumpContextMIPS64.context_flags
                kMinidumpContextMIPS64 minidump_context;
        Some (mips64 (convert_mips64 src))
    | kCPUArchitectureUnknown => Some context_unknown
    end.

End MinidumpContextConverter.

(** ** What a minidump keeps of a context *)

(** The sizes the code asserts. *)
Example structure_sizes :
  sizeof CPUContextX86.Fsave.repr = 108%nat /\ sizeof CPUContextX86.Fxsave.repr = 512%nat /\
  sizeof CPUContextX86_64.Fxsave.repr = 512%nat /\ sizeof MinidumpContextX86.repr = 716%nat /\
  sizeof MinidumpContextAMD64.repr = 1232%nat.
Proof. repeat split. Qed.

Lemma fits_weaken v w z : v <= w -> fits v z = true -> fits w z = true.
Proof.
  rewrite !fits_spec. intros Hv Hz. split; [lia|].
  apply Z.lt_le_trans with (2 ^ v); [lia|]. destruct (Z.ltb_spec v 0).
  - rewrite Z.pow_neg_r in Hz by done. lia.
  - apply Z.pow_le_mono_r; lia.
Qed.

Lemma fits_wrap w z : 0 <= w -> fits w (wrap w z) = true.
Proof. intros Hw. apply fits_spec. by apply wrap_bound. Qed.

(** Split the validity of a structure into that of its fields. *)
Ltac split_valid :=
  repeat match goal with H : _ && _ = true |- _ => apply andb_true_iff in H as [? ?] end.
Ltac by_fields :=
  repeat match goal with |- _ && _ = true => apply andb_true_iff; split end;
  first [ assumption | reflexivity | apply fits_wrap; lia
        | eapply (fits_weaken 16 32); [lia|eassumption]
        | eapply (fits_weaken 32 64); [lia|eassumption] | idtac ].

Lemma tag_word_fits fsw fxsave_tag st_mm :
  fits 16 (CPUContextX86.FxsaveToFsaveTagWord fsw fxsave_tag st_mm) = true.
Proof.
  apply fits_spec. rewrite X87.tag_word_packed. apply bits_below; [done|]. intros b Hb.
  rewrite pack_bit; [|done|apply X87.physical_tag_range|lia].
  assert (8 <= b / 2) by (apply Z.div_le_lower_bound; lia).
  destruct (Z.ltb_spec (b / 2) (Z.of_nat 8)); [lia|done].
Qed.

Lemma array_map_valid {A B} n (R : Repr A) (S : Repr B) f x :
  (forall a, valid R a = true -> valid S (f a) = true) ->
  valid (array n R) x = true -> valid (array n S) (map f x) = true.
Proof.
  intros Hf [Hl Hx]%andb_true_iff. apply andb_true_iff. rewrite length_map. split; [done|].
  rewrite forallb_forall in *. intros b Hb. apply in_map_iff in Hb as (a & <- & Ha). auto.
Qed.

Lemma fsave_valid f :
  valid CPUContextX86.Fxsave.repr f = true ->
  valid CPUContextX86.Fsave.repr (CPUContextX86.FxsaveToFsave f) = true.
Proof.
  intros Hf. destruct f. cbn -[array fits CPUContextX86.FxsaveToFsaveTagWord] in *.
  split_valid. by_fields; [apply tag_word_fits|].
  eapply array_map_valid; [|eassumption]. intros a Ha. by apply andb_true_iff in Ha as [].
Qed.

Lemma abridged_fits T : fits 8 (CPUContextX86.FsaveToFxsaveTagWord T) = true.
Proof.
  apply fits_spec. rewrite X87.abridged_packed. apply bits_below; [done|]. intros b Hb.
  rewrite pack_bit; [|done|intros i; destruct (negb _); simpl; lia|lia].
  rewrite Z.div_1_r. destruct (Z.ltb_spec b (Z.of_nat 8)); [lia|done].
Qed.

Lemma fxsave_valid f :
  valid CPUContextX86.Fsave.repr f = true ->
  valid CPUContextX86.Fxsave.repr (CPUContextX86.FsaveToFxsave f) = true.
Proof.
  intros Hf. destruct f. cbn -[array fits CPUContextX86.FsaveToFxsaveTagWord replicate] in *.
  split_valid. by_fields; [apply abridged_fits|].
  eapply array_map_valid; [|eassumption]. intros a Ha. simpl. apply andb_true_iff. by split.
Qed.

(** *** The writers fill in values of the structures *)

Lemma x86_writer_valid c :
  valid CPUContextX86.repr c = true ->
  valid MinidumpContextX86.repr (MinidumpContextX86Writer.InitializeFromSnapshot c) = true.
Proof.
  intros Hc. destruct c.
  cbn -[array fits CPUContextX86.Fxsave.repr CPUContextX86.Fsave.repr CPUContextX86.FxsaveToFsave] in *.
  split_valid. by_fields. by apply fsave_valid.
Qed.

Lemma mxcsr_fits f :
  valid CPUContextX86_64.Fxsave.repr f = true -> fits 32 (CPUContextX86_64.Fxsave.mxcsr f) = true.
Proof. intros Hf. destruct f. cbn -[array fits] in *. split_valid. assumption. Qed.

Lemma amd64_writer_valid c :
  valid CPUContextX86_64.repr c = true ->
  valid MinidumpContextAMD64.repr (MinidumpContextAMD64Writer.context_from_snapshot c) = true.
Proof.
  intros Hc. destruct c.
  cbn -[array fits CPUContextX86_64.Fxsave.repr wrap replicate CPUContextX86_64.Fxsave.mxcsr] in *.
  split_valid. by_fields; [by case_match|by apply mxcsr_fits].
Qed.

Lemma arm_writer_valid c :
  CPUContextARM.is_valid c = true ->
  valid MinidumpContextARM.repr (MinidumpContextARMWriter.InitializeFromSnapshot c) = true.
Proof.
  unfold CPUContextARM.is_valid. destruct c as [????????[]]. intros Hc.
  cbn -[array fits replicate CPUContextARM.fpa_valid] in *. split_valid. by_fields.
Qed.

Lemma array_nth_fits n w l i :
  (i < n)%nat -> valid (array n (uint w)) l = true -> fits (8 * Z.of_nat w) (nth i l 0) = true.
Proof.
  intros Hi [<-%Nat.eqb_eq Hl]%andb_true_iff. rewrite forallb_forall in Hl. by apply (Hl (nth i l 0)), nth_In.
Qed.

Lemma array_take_valid {A} n k (R : Repr A) l :
  (k <= n)%nat -> valid (array n R) l = true -> valid (array k R) (take k l) = true.
Proof.
  intros Hk [Hn%Nat.eqb_eq Hl]%andb_true_iff. apply andb_true_iff. split.
  - apply Nat.eqb_eq. len_lia.
  - rewrite forallb_forall in *. intros a Ha. apply Hl. rewrite <-(take_drop k l). apply in_or_app. by left.
Qed.

Lemma arm64_writer_valid c :
  valid CPUContextARM64.repr c = true ->
  valid MinidumpContextARM64.repr (MinidumpContextARM64Writer.InitializeFromSnapshot c) = true.
Proof.
  intros Hc. destruct c. cbn -[array fits replicate nth take] in *. split_valid.
  by_fields; [eapply (array_take_valid 31); [lia|eassumption] | | ];
    eapply (array_nth_fits 31 8); eassumption || lia.
Qed.

Lemma mips_writer_valid c :
  valid CPUContextMIPS.repr c = true ->
  valid MinidumpContextMIPS.repr (MinidumpContextMIPSWriter.InitializeFromSnapshot c) = true.
Proof. intros Hc. destruct c. cbn -[array fits] in *. split_valid. by_fields. Qed.

Lemma mips64_writer_valid c :
  valid CPUContextMIPS64.repr c = true ->
  valid MinidumpContextMIPS64.repr (MinidumpContextMIPS64Writer.InitializeFromSnapshot c) = true.
Proof. intros Hc. destruct c. cbn -[array fits] in *. split_valid. by_fields. Qed.

(** *** The extended context of AMD64 *)

Lemma overwrite_middle {A} off (a m d z : list A) :
  off = length a -> length d = length m -> overwrite off d (a ++ m ++ z) = a ++ d ++ z.
Proof.
  intros -> Hd. unfold overwrite. rewrite take_app_length, <-drop_drop, drop_app_length, Hd.
  by rewrite drop_app_length.
Qed.

Lemma copy_to_middle (a m d z : bytes) off :
  off = Z.of_nat (length a) -> length d = length m ->
  MinidumpContextAMD64Writer.copy_to (a ++ m ++ z) off d = Some (a ++ d ++ z).
Proof.
  intros -> Hd. unfold MinidumpContextAMD64Writer.copy_to. rewrite Nat2Z.id.
  destruct (Z.leb_spec (Z.of_nat (length a) + Z.of_nat (length d))
              (Z.of_nat (length (a ++ m ++ z)))) as [_|H]; [|len_lia].
  by rewrite overwrite_middle.
Qed.

(** The header of the area in which the CET state is the only component. *)
Definition cet_area_header : MinidumpXSaveAreaHeader.t :=
  MinidumpXSaveAreaHeader.Make (2 ^ 11) (2 ^ 11 + 2 ^ 63) (replicate 6 0).

(** What is written of a context, with and without CET state. *)
Definition amd64_context_bytes (c : CPUContextX86_64.t) : bytes :=
  to_bytes MinidumpContextAMD64.repr (MinidumpContextAMD64Writer.context_from_snapshot c) ++
  (if Z.testbit (CPUContextX86_64.enabled_features c) (Z.of_nat XSTATE_CET_U) then
     to_bytes MinidumpContextExHeader.repr (MinidumpContextAMD64Writer.context_ex 1376) ++
     replicate 40 0 ++ to_bytes MinidumpXSaveAreaHeader.repr cet_area_header ++
     to_bytes MinidumpAMD64XSaveFormatCetU.repr
       (MinidumpAMD64XSaveFormatCetU.Make (CPUContextX86_64.cetmsr c) (CPUContextX86_64.ssp c))
   else []).

(** The features the writer supports: CET state that is enabled. *)
Definition cet_ok (c : CPUContextX86_64.t) : bool :=
  negb (Z.testbit (CPUContextX86_64.enabled_features c) (Z.of_nat XSTATE_CET_U)) ||
  (CPUContextX86_64.cetmsr c =? 1).

Lemma cet_mask c :
  negb (Z.land (CPUContextX86_64.enabled_features c) XSTATE_MASK_CET_U =? 0) =
  Z.testbit (CPUContextX86_64.enabled_features c) (Z.of_nat XSTATE_CET_U).
Proof. by apply X87.land_bit. Qed.

Lemma amd64_initialize c :
  cet_ok c = true ->
  MinidumpContextAMD64Writer.InitializeFromSnapshot c =
  Some (MinidumpContextAMD64Writer.Make (MinidumpContextAMD64Writer.context_from_snapshot c)
    (if Z.testbit (CPUContextX86_64.enabled_features c) (Z.of_nat XSTATE_CET_U) then
       [MinidumpAMD64XSaveFormatCetU.Make (CPUContextX86_64.cetmsr c) (CPUContextX86_64.ssp c)]
     else [])).
Proof.
  unfold cet_ok, MinidumpContextAMD64Writer.InitializeFromSnapshot,
    MinidumpXSaveAMD64CetU.InitializeFromSnapshot. rewrite cet_mask.
  destruct (Z.testbit _ _); simpl; [|done]. by intros ->.
Qed.

Lemma amd64_plain_written (x : MinidumpContextAMD64.t) :
  valid MinidumpContextAMD64.repr x = true ->
  MinidumpContextAMD64Writer.WriteObject (MinidumpContextAMD64Writer.Make x []) =
  Some (to_bytes MinidumpContextAMD64.repr x).
Proof.
  intros Hx. pose proof (length_to_bytes x Hx) as Hl.
  unfold MinidumpContextAMD64Writer.WriteObject. cbn -[sizeof to_bytes replicate Z.to_nat].
  pose proof (copy_to_middle [] (replicate (sizeof MinidumpContextAMD64.repr) 0)
    (to_bytes MinidumpContextAMD64.repr x) [] 0 eq_refl) as E.
  rewrite !app_nil_l, !app_nil_r, length_replicate, Nat2Z.id in *. by rewrite E.
Qed.

Lemma amd64_extended_written (x : MinidumpContextAMD64.t) cet :
  valid MinidumpContextAMD64.repr x = true ->
  MinidumpContextAMD64.context_flags x = Z.lor kMinidumpContextAMD64All kMinidumpContextAMD64Xstate ->
  MinidumpContextAMD64Writer.WriteObject (MinidumpContextAMD64Writer.Make x [cet]) =
  Some (to_bytes MinidumpContextAMD64.repr x ++
    to_bytes MinidumpContextExHeader.repr (MinidumpContextAMD64Writer.context_ex 1376) ++
    replicate 40 0 ++ to_bytes MinidumpXSaveAreaHeader.repr cet_area_header ++
    to_bytes MinidumpAMD64XSaveFormatCetU.repr cet).
Proof.
  intros Hx Hf. pose proof (length_to_bytes x Hx) as Hl.
  set (ctx := to_bytes MinidumpContextAMD64.repr x) in *.
  change (sizeof MinidumpContextAMD64.repr) with 1232%nat in Hl.
  unfold MinidumpContextAMD64Writer.WriteObject, MinidumpContextAMD64Writer.ContextSize.
  cbn [MinidumpContextAMD64Writer.xsave_entries_ MinidumpContextAMD64Writer.context_].
  rewrite Hf, Z.eqb_refl. cbn [mbind option_bind fold_left].
  change (kMinidumpAMD64XSaveOffset + MinidumpXSaveAMD64CetU.Size) with 1376.
  change (Z.of_nat (sizeof MinidumpContextAMD64.repr)) with 1232. fold ctx.
  assert (replicate (Z.to_nat 1376) 0 = [] ++ replicate 1232 0 ++ replicate 144 0) as -> by reflexivity.
  rewrite (copy_to_middle []) by (done || by rewrite length_replicate). cbn [mbind option_bind app].
  assert (replicate 144 0 = replicate 24 0 ++ replicate 40 0 ++ replicate 64 0 ++ replicate 16 0)
    as -> by reflexivity.
  set (ex := to_bytes MinidumpContextExHeader.repr _).
  rewrite copy_to_middle by (reflexivity || by rewrite Hl). cbn [mbind option_bind].
  unfold MinidumpContextAMD64Writer.copy_entries.
  assert (forall z, ctx ++ ex ++ replicate 40 0 ++ replicate 64 0 ++ z =
    (ctx ++ ex ++ replicate 40 0 ++ replicate 64 0) ++ z) as E by (intros; by rewrite <-!app_assoc).
  rewrite E, <-(app_nil_r (replicate 16 0)).
  rewrite copy_to_middle; [|rewrite !length_app, Hl; reflexivity|reflexivity].
  cbn [mbind option_bind]. rewrite <-!app_assoc.
  rewrite (app_assoc ctx), (app_assoc (ctx ++ ex)), copy_to_middle;
    [|rewrite !length_app, Hl; reflexivity|reflexivity].
  rewrite <-!app_assoc, app_nil_r. reflexivity.
Qed.

(** *** The round trip *)

(** What is left of a context that was written and read: dr4 and dr5 are aliases,
    the upper half of rflags, CET state and FPA registers are not kept. *)
Definition recorded (c : CPUContext) : CPUContext :=
  match c with
  | x86 c => x86 (CPUContextX86.Make (CPUContextX86.eax c) (CPUContextX86.ebx c)
      (CPUContextX86.ecx c) (CPUContextX86.edx c) (CPUContextX86.edi c) (CPUContextX86.esi c)
      (CPUContextX86.ebp c) (CPUContextX86.esp c) (CPUContextX86.eip c) (CPUContextX86.eflags c)
      (CPUContextX86.cs c) (CPUContextX86.ds c) (CPUContextX86.es c) (CPUContextX86.fs c)
      (CPUContextX86.gs c) (CPUContextX86.ss c) (CPUContextX86.fxsave c) (CPUContextX86.dr0 c)
      (CPUContextX86.dr1 c) (CPUContextX86.dr2 c) (CPUContextX86.dr3 c) (CPUContextX86.dr6 c)
      (CPUContextX86.dr7 c) (CPUContextX86.dr6 c) (CPUContextX86.dr7 c))
  | x86_64 c => x86_64 (CPUContextX86_64.Make (CPUContextX86_64.rax c) (CPUContextX86_64.rbx c)
      (CPUContextX86_64.rcx c) (CPUContextX86_64.rdx c) (CPUContextX86_64.rdi c)
      (CPUContextX86_64.rsi c) (CPUContextX86_64.rbp c) (CPUContextX86_64.rsp c)
      (CPUContextX86_64.r8 c) (CPUContextX86_64.r9 c) (CPUContextX86_64.r10 c)
      (CPUContextX86_64.r11 c) (CPUContextX86_64.r12 c) (CPUContextX86_64.r13 c)
      (CPUContextX86_64.r14 c) (CPUContextX86_64.r15 c) (CPUContextX86_64.rip c)
      (u32 (CPUContextX86_64.rflags c)) (CPUContextX86_64.cs c) (CPUContextX86_64.fs c)
      (CPUContextX86_64.gs c) (CPUContextX86_64.fxsave c) (CPUContextX86_64.dr0 c)
      (CPUContextX86_64.dr1 c) (CPUContextX86_64.dr2 c) (CPUContextX86_64.dr3 c)
      (CPUContextX86_64.dr6 c) (CPUContextX86_64.dr7 c) (CPUContextX86_64.dr6 c)
      (CPUContextX86_64.dr7 c) 0 0 0)
  | arm c => arm (CPUContextARM.Make (CPUContextARM.regs c) (CPUContextARM.fp c)
      (CPUContextARM.ip c) (CPUContextARM.sp c) (CPUContextARM.lr c) (CPUContextARM.pc c)
      (CPUContextARM.cpsr c) CPUContextARM.zero_fpa (CPUContextARM.vfp_regs c) false true)
  | _ => c
  end.

(** A context that the writers accept: of a known architecture, with fields in
    their ranges, and with CET state only where it is enabled. *)
Definition context_ok (c : CPUContext) : bool :=
  CPUContext_.is_valid c &&
  match c with
  | context_unknown => false
  | x86_64 c => cet_ok c
  | _ => true
  end.

Lemma read_context_written {A} (R : Repr A) `{!ReprLaws R} flags flag a rest :
  valid R a = true -> Z.land (flags a) flag <> 0 ->
  MinidumpContextConverter.read_context R flags flag (to_bytes R a ++ rest) = Some a.
Proof.
  intros Ha Hf. unfold MinidumpContextConverter.read_context.
  pose proof (length_to_bytes a Ha) as Hl.
  destruct (Nat.ltb_spec (length (to_bytes R a ++ rest)) (sizeof R)); [len_lia|].
  rewrite of_bytes_to_bytes by done. by destruct (Z.eqb_spec (Z.land (flags a) flag) 0).
Qed.

Lemma amd64_written c :
  valid CPUContextX86_64.repr c = true -> cet_ok c = true ->
  CreateFromSnapshot (x86_64 c) = Some (Some (MkContext 16 (amd64_context_bytes c))).
Proof.
  intros Hv Hc. pose proof (amd64_writer_valid c Hv) as Hw.
  unfold CreateFromSnapshot. rewrite amd64_initialize by done. cbn [mbind option_bind].
  unfold amd64_context_bytes. destruct (Z.testbit _ _) eqn:E.
  - rewrite amd64_extended_written; [done|done|]. cbn -[Z.lor kMinidumpContextAMD64All].
    destruct (Z.eqb_spec (CPUContextX86_64.enabled_features c) 0) as [E0|]; [|done].
    by rewrite E0, Z.bits_0 in E.
  - by rewrite amd64_plain_written, app_nil_r.
Qed.

Lemma written_nonempty {A} (R : Repr A) `{!ReprLaws R} a rest :
  valid R a = true -> sizeof R <> 0%nat -> (length (to_bytes R a ++ rest) =? 0)%nat = false.
Proof. intros Ha%length_to_bytes Hn. apply Nat.eqb_neq. len_lia. Qed.

Lemma wrap_fits w z : fits w z = true -> wrap w z = z.
Proof. intros Hz%fits_spec. by apply wrap_small. Qed.

(** Reading what a writer has written, for each architecture. *)
Ltac side Hw :=
  match goal with
  | |- ReprLaws _ => apply _
  | |- valid _ _ = true => exact Hw
  | |- _ <> _ => lazy; discriminate
  end.
Ltac read_back Hw :=
  unfold MinidumpContextConverter.Initialize; rewrite <-(app_nil_r (to_bytes _ _));
  rewrite written_nonempty, read_context_written by side Hw;
  cbn [mbind option_bind recorded].

Lemma x86_round_trip c :
  valid CPUContextX86.repr c = true ->
  MinidumpContextConverter.Initialize kCPUArchitectureX86
    (to_bytes MinidumpContextX86.repr (MinidumpContextX86Writer.InitializeFromSnapshot c)) =
  Some (recorded (x86 c)).
Proof.
  intros Hv. pose proof (x86_writer_valid c Hv) as Hw. read_back Hw.
  destruct c. cbn -[array fits CPUContextX86.Fxsave.repr] in Hv. split_valid.
  unfold MinidumpContextConverter.convert_x86. cbn -[wrap]. rewrite !(wrap_fits 16) by assumption. reflexivity.
Qed.

Lemma amd64_round_trip c :
  valid CPUContextX86_64.repr c = true ->
  MinidumpContextConverter.Initialize kCPUArchitectureX86_64 (amd64_context_bytes c) =
  Some (recorded (x86_64 c)).
Proof.
  intros Hv. pose proof (amd64_writer_valid c Hv) as Hw. unfold amd64_context_bytes.
  unfold MinidumpContextConverter.Initialize.
  rewrite written_nonempty by side Hw.
  rewrite read_context_written; [done|apply _|exact Hw|]. cbn -[Z.lor Z.land]. by case_match.
Qed.

Lemma arm_round_trip c :
  CPUContextARM.is_valid c = true ->
  MinidumpContextConverter.Initialize kCPUArchitectureARM
    (to_bytes MinidumpContextARM.repr (MinidumpContextARMWriter.InitializeFromSnapshot c)) =
  Some (recorded (arm c)).
Proof.
  intros Hv. pose proof (arm_writer_valid c Hv) as Hw. read_back Hw. by destruct c as [????????[]].
Qed.

Lemma arm64_round_trip c :
  valid CPUContextARM64.repr c = true ->
  MinidumpContextConverter.Initialize kCPUArchitectureARM64
    (to_bytes MinidumpContextARM64.repr (MinidumpContextARM64Writer.InitializeFromSnapshot c)) =
  Some (recorded (arm64 c)).
Proof.
  intros Hv. pose proof (arm64_writer_valid c Hv) as Hw. read_back Hw.
  destruct c as [regs sp pc spsr fpsimd fpsr fpcr].
  cbn -[array fits] in Hv. split_valid.
  unfold MinidumpContextConverter.convert_arm64. cbn -[take nth]. do 2 f_equal.
  assert (length regs = 31%nat) as Hl.
  { apply Nat.eqb_eq. match goal with H : valid (array 31 _) regs = true |- _ =>
      by apply andb_true_iff in H as [] end. }
  do 31 (destruct regs as [|? regs]; [done|]). by destruct regs.
Qed.

Lemma mips_round_trip c :
  valid CPUContextMIPS.repr c = true ->
  MinidumpContextConverter.Initialize kCPUArchitectureMIPSEL
    (to_bytes MinidumpContextMIPS.repr (MinidumpContextMIPSWriter.InitializeFromSnapshot c)) =
  Some (recorded (mipsel c)).
Proof.
  intros Hv. pose proof (mips_writer_valid c Hv) as Hw. read_back Hw.
  destruct c. cbn -[array fits] in Hv. split_valid.
  unfold MinidumpContextConverter.convert_mips. cbn -[wrap]. rewrite !(wrap_fits 32) by assumption. reflexivity.
Qed.

Lemma mips64_round_trip c :
  valid CPUContextMIPS64.repr c = true ->
  MinidumpContextConverter.Initialize kCPUArchitectureMIPS64EL
    (to_bytes MinidumpContextMIPS64.repr (MinidumpContextMIPS64Writer.InitializeFromSnapshot c)) =
  Some (recorded (mips64 c)).
Proof. intros Hv. pose proof (mips64_writer_valid c Hv) as Hw. read_back Hw. by destruct c. Qed.

(** A context that is [context_ok] is written and read back. *)
Lemma context_written c :
  context_ok c = true -> exists w, CreateFromSnapshot c = Some (Some w) /\
    MinidumpContextConverter.Initialize (CPUContext_.architecture c) (context_bytes w) =
      Some (recorded c) /\
    (context_alignment w = 4 \/ context_alignment w = 16).
Proof.
  intros [Hv Hc]%andb_true_iff. destruct c as [|c|c|c|c|c|c]; [done|..]; cbn [CPUContext_.is_valid] in Hv.
  - eexists. split; [reflexivity|]. split; [by apply x86_round_trip|by left].
  - eexists. split; [by apply amd64_written|]. split; [by apply amd64_round_trip|by right].
  - eexists. split; [reflexivity|]. split; [by apply arm_round_trip|by left].
  - eexists. split; [reflexivity|]. split; [by apply arm64_round_trip|by left].
  - eexists. split; [reflexivity|]. split; [by apply mips_round_trip|by left].
  - eexists. split; [reflexivity|]. split; [by apply mips64_round_trip|by left].
Qed.

(** C11. A context of any of the six architectures that fits its types is written
    by [MinidumpContextWriter] and read back by [MinidumpContextConverter] with
    every register, except for what the minidump does not keep: dr4 and dr5 come
    back as dr6 and dr7, rflags as its low half, and CET and FPA state are lost. *)
Theorem context_round_trip c :
  context_ok c = true -> exists w, CreateFromSnapshot c = Some (Some w) /\
    MinidumpContextConverter.Initialize (CPUContext_.architecture c) (context_bytes w) =
    Some (recorded c).
Proof. intros (w & Hw & Hr & _)%context_written. eauto. Qed.

(** The extended context of AMD64: with CET state, [WriteObject] lays out the
    context, the CONTEXT_EX, the header of the XSAVE area and the state as
    [amd64_context_bytes], without it the context alone, and [ContextSize] is the
    size of it. *)
Theorem amd64_extended_context c :
  valid CPUContextX86_64.repr c = true -> cet_ok c = true ->
  exists x, MinidumpContextAMD64Writer.InitializeFromSnapshot c = Some x /\
    MinidumpContextAMD64Writer.ContextSize x = Some (Z.of_nat (length (amd64_context_bytes c))) /\
    MinidumpContextAMD64Writer.WriteObject x = Some (amd64_context_bytes c).
Proof.
  intros Hv Hc. pose proof (amd64_writer_valid c Hv) as Hw. pose proof (length_to_bytes _ Hw) as Hl.
  eexists. split; [by apply amd64_initialize|]. unfold amd64_context_bytes. rewrite length_app, Hl.
  destruct (Z.testbit _ _) eqn:E.
  - assert (MinidumpContextAMD64.context_flags (MinidumpContextAMD64Writer.context_from_snapshot c) =
      Z.lor kMinidumpContextAMD64All kMinidumpContextAMD64Xstate) as Hf.
    { cbn -[Z.lor kMinidumpContextAMD64All].
      destruct (Z.eqb_spec (CPUContextX86_64.enabled_features c) 0) as [E0|]; [|done].
      by rewrite E0, Z.bits_0 in E. }
    split; [|by apply amd64_extended_written].
    unfold MinidumpContextAMD64Writer.ContextSize.
    cbn [MinidumpContextAMD64Writer.xsave_entries_ MinidumpContextAMD64Writer.context_].
    by rewrite Hf, Z.eqb_refl.
  - split; [done|]. by rewrite amd64_plain_written, app_nil_r.
Qed.

(** *** Flags of components *)

Lemma read_context_valid {A} (R : Repr A) `{!ReprLaws R} flags flag l a :
  Forall is_byte l -> MinidumpContextConverter.read_context R flags flag l = Some a ->
  a = of_bytes R l /\ valid R a = true /\ Z.land (flags a) flag <> 0.
Proof.
  intros Hl. unfold MinidumpContextConverter.read_context.
  destruct (Nat.ltb_spec (length l) (sizeof R)); [done|].
  destruct (Z.eqb_spec (Z.land (flags (of_bytes R l)) flag) 0); [done|]. intros <-%(inj Some).
  split_and!; [done|by apply of_bytes_valid|done].
Qed.

(** A flag that includes the architecture's is found in every context of the
    architecture. *)
Lemma component_flag_always flags arch_flag bit :
  Z.land flags arch_flag <> 0 -> Z.land flags (Z.lor arch_flag bit) <> 0.
Proof. rewrite Z.land_lor_distr_r, Z.lor_eq_0_iff. tauto. Qed.

(** The tests of the component flags in the converter always succeed, since
    each of these flags includes the flag of the architecture, which has been
    tested: the [fxsave] area of an x86 context is taken even where the flags say
    that only the [fsave] area is valid, and an ARM context always claims VFP
    registers. *)
Theorem component_flags_ignored minidump_context :
  Forall is_byte minidump_context -> minidump_context <> [] ->
  (forall c, MinidumpContextConverter.Initialize kCPUArchitectureX86 minidump_context = Some (x86 c) ->
     CPUContextX86.fxsave c =
     MinidumpContextX86.fxsave (of_bytes MinidumpContextX86.repr minidump_context)) /\
  (forall c, MinidumpContextConverter.Initialize kCPUArchitectureARM minidump_context = Some (arm c) ->
     CPUContextARM.have_vfp_regs c = true).
Proof.
  intros Hb Hne. unfold MinidumpContextConverter.Initialize.
  destruct (Nat.eqb_spec (length minidump_context) 0) as [E|_]; [by apply nil_length_inv in E|].
  split; intros c;
    (destruct (MinidumpContextConverter.read_context _ _ _ _) as [src|] eqn:E; [|done]);
    cbn [mbind option_bind]; intros [= <-];
    apply read_context_valid in E as (-> & _ & Hf); try (apply _ || done).
  - unfold MinidumpContextConverter.convert_x86. cbn [CPUContextX86.fxsave].
    apply (component_flag_always _ _ 0x20) in Hf. fold kMinidumpContextX86Extended in Hf.
    by apply Z.eqb_neq in Hf as ->.
  - unfold MinidumpContextConverter.convert_arm. cbn [CPUContextARM.have_vfp_regs].
    apply (component_flag_always _ _ 0x4) in Hf. fold kMinidumpContextARMVFP in Hf.
    by apply Z.eqb_neq in Hf as ->.
Qed.

(** *** Examples *)

Definition example_x86 : CPUContextX86.t :=
  CPUContextX86.Make 1 2 3 4 5 6 7 0x1000 0x2000 0x202 0x23 0x2b 0x2b 0x53 0x2b 0x2b
    X87.example_fxsave 0 1 2 3 4 5 6 7.
Definition example_fxsave_64 : CPUContextX86_64.Fxsave.t :=
  CPUContextX86_64.Fxsave.Make 0x37f 0x2800 0xe0 0 0 0x1234 0x23 0 0x5678 0x2b 0 0x1f80 0xffff
    X87.example_st_mm (replicate 16 (replicate 16 9)) (replicate 48 0) (replicate 48 0).
Definition example_amd64_with (enabled_features : Z) : CPUContextX86_64.t :=
  CPUContextX86_64.Make 1 2 3 4 5 6 7 0x1000 8 9 10 11 12 13 14 15 0x2000 0x100000202 0x33 0x53 0x2b
    example_fxsave_64 0 1 2 3 4 5 6 7 enabled_features 1 0x3000.
Definition example_amd64 : CPUContextX86_64.t := example_amd64_with (2 ^ 11).

(** An x86 context whose flags say that its [fsave] area is valid, not its
    [fxsave] area. *)
Definition example_fsave_only : MinidumpContextX86.t :=
  MinidumpContextX86.Make kMinidumpContextX86FloatingPoint 0 0 0 0 0 0
    (CPUContextX86.FxsaveToFsave X87.example_fxsave) 0 0 0 0 0 0 0 0 0 0 0 0 0 0 0 0 0
    (zero_of CPUContextX86.Fxsave.repr).

Lemma context_round_trip_witness :
  exists w, CreateFromSnapshot (x86_64 example_amd64) = Some (Some w) /\
    MinidumpContextConverter.Initialize kCPUArchitectureX86_64 (context_bytes w) =
    Some (recorded (x86_64 example_amd64)).
Proof. apply (context_round_trip (x86_64 example_amd64)). vm_compute. reflexivity. Defined.

Lemma amd64_extended_context_witness :
  length (amd64_context_bytes example_amd64) = 1376%nat /\
  exists x, MinidumpContextAMD64Writer.InitializeFromSnapshot example_amd64 = Some x /\
    MinidumpContextAMD64Writer.ContextSize x =
      Some (Z.of_nat (length (amd64_context_bytes example_amd64))) /\
    MinidumpContextAMD64Writer.WriteObject x = Some (amd64_context_bytes example_amd64).
Proof.
  split; [vm_compute; reflexivity|].
  apply (amd64_extended_context example_amd64); vm_compute; reflexivity.
Defined.

Lemma component_flags_ignored_witness :
  exists c, MinidumpContextConverter.Initialize kCPUArchitectureX86
      (to_bytes MinidumpContextX86.repr example_fsave_only) = Some (x86 c) /\
    CPUContextX86.fxsave c = zero_of CPUContextX86.Fxsave.repr.
Proof.
  eexists. split; [vm_compute; reflexivity|].
  refine (eq_trans (proj1 (component_flags_ignored
    (to_bytes MinidumpContextX86.repr example_fsave_only) _ _) _ _) _).
  - apply (bool_decide_unpack _). vm_compute. reflexivity.
  - vm_compute. discriminate.
  - vm_compute. reflexivity.
  - vm_compute. reflexivity.
Defined.
