(* ===== verification/Strings.v ===== *)
(** * Strings (util/stdlib, util/string)

    Models [StringToNumber] (string_number_conversion.cc) over the C library's
    [strtol] family, and [SplitStringFirst] and [SplitString] (split_string.cc).
    A [std::string] is its list of bytes. *)

From S2P Require Import Prelude.
From S2P Require Import Numeric.

(** ** The C library's conversions *)

Definition isspace (c : Z) : bool := (c =? 32) || ((9 <=? c) && (c <=? 13)).
Definition isdigit (c : Z) : bool := (48 <=? c) && (c <=? 57).

(** The value of a digit in bases up to 36. *)
Definition digit_value (c : Z) : option Z :=
  if isdigit c then Some (c - 48)
  else if (97 <=? c) && (c <=? 122) then Some (c - 87)
  else if (65 <=? c) && (c <=? 90) then Some (c - 55)
  else None.

Definition is_digit_in (base c : Z) : bool :=
  match digit_value c with Some d => d <? base | None => false end.

(** The longest prefix of digits: its value after [acc] and its length after [n]. *)
Fixpoint scan_digits (base acc : Z) (n : nat) (s : bytes) : Z * nat :=
  match s with
  | [] => (acc, n)
  | c :: s' =>
      match digit_value c with
      | Some d => if d <? base then scan_digits base (acc * base + d) (S n) s' else (acc, n)
      | None => (acc, n)
      end
  end.

Fixpoint leading_spaces (s : bytes) : nat :=
  match s with
  | c :: s' => if isspace c then S (leading_spaces s') else O
  | [] => O
  end.

(** What [strtol] and its relatives leave: the value, the index [*end] points
    at, and whether [errno] was set to [ERANGE]. *)
Record strto_result := StrtoResult { st_value : Z; st_end : nat; st_erange : bool }.

Definition type_max (t : int_type) : Z :=
  if it_signed t then 2 ^ (it_width t - 1) - 1 else 2 ^ it_width t - 1.
Definition type_min (t : int_type) : Z :=
  if it_signed t then - 2 ^ (it_width t - 1) else 0.

(** [strtol], [strtoul], [strtoll] and [strtoull] with base 0, for the result
    type [t]: white space, a sign, a prefix that selects the base, digits. *)
Definition strto (t : int_type) (s : bytes) : strto_result :=
  let ws := leading_spaces s in
  let s1 := drop ws s in
  let '(neg, sg) := match s1 with
                    | c :: _ => if c =? 45 then (true, 1%nat)
                                else if c =? 43 then (false, 1%nat) else (false, 0%nat)
                    | [] => (false, 0%nat)
                    end in
  let s2 := drop sg s1 in
  let '(base, pfx) := match s2 with
                      | z :: rest =>
                          if z =? 48 then
                            match rest with
                            | x :: h :: _ =>
                                if ((x =? 120) || (x =? 88)) && is_digit_in 16 h
                                then (16, 2%nat) else (8, 0%nat)
                            | _ => (8, 0%nat)
                            end
                          else (10, 0%nat)
                      | [] => (10, 0%nat)
                      end in
  let '(mag, nd) := scan_digits base 0 0 (drop pfx s2) in
  if (nd =? 0)%nat then StrtoResult 0 0 false
  else
    let fin := (ws + sg + pfx + nd)%nat in
    if it_signed t then
      let v := if neg then - mag else mag in
      if in_range t v then StrtoResult v fin false
      else StrtoResult (if neg then type_min t else type_max t) fin true
    else
      if mag <=? type_max t then StrtoResult (cast t (if neg then - mag else mag)) fin false
      else StrtoResult (type_max t) fin true.

(** ** StringToNumber *)

Module StringToNumber.

(** A traits class: [IntType] and [LongType].  [Convert] of the unsigned traits
    refuses a leading minus sign, and only the signed traits test for a
    negative overflow. *)
Record traits := Traits { IntType : int_type; LongType : int_type }.

Definition StringToIntTraits := Traits int32_t int64_t.
Definition StringToUnsignedIntTraits := Traits uint32_t uint64_t.
Definition StringToLongTraits := Traits int64_t int64_t.
Definition StringToUnsignedLongTraits := Traits uint64_t uint64_t.
Definition StringToLongLongTraits := Traits int64_t int64_t.
Definition StringToUnsignedLongLongTraits := Traits uint64_t uint64_t.

(** [Traits::Convert(str, &end, 0)]. *)
Definition Convert (T : traits) (s : bytes) : strto_result :=
  if negb (it_signed (IntType T)) && (default 0 (head s) =? 45)
  then StrtoResult 0 0 false
  else strto (LongType T) s.

(** [Traits::IsNegativeOverflow]. *)
Definition IsNegativeOverflow (T : traits) (value : Z) : bool :=
  it_signed (IntType T) && (value <? type_min (IntType T)).

(** [StringToIntegerInternal]: the number, or [None] for [false]. *)
Definition StringToIntegerInternal (T : traits) (s : bytes) : option Z :=
  match s with
  | [] => None
  | c :: _ =>
      if isspace c then None
      else
        let r := Convert T s in
        if IsNegativeOverflow T (st_value r) || (type_max (IntType T) <? st_value r)
           || st_erange r || negb (st_end r =? length s)%nat
        then None
        else Some (cast (IntType T) (st_value r))
  end.

End StringToNumber.

(** The overloads of [StringToNumber] (LP64: [long] has 64 bits). *)
Definition StringToNumber_int := StringToNumber.StringToIntegerInternal StringToNumber.StringToIntTraits.
Definition StringToNumber_uint := StringToNumber.StringToIntegerInternal StringToNumber.StringToUnsignedIntTraits.
Definition StringToNumber_long := StringToNumber.StringToIntegerInternal StringToNumber.StringToLongTraits.
Definition StringToNumber_ulong := StringToNumber.StringToIntegerInternal StringToNumber.StringToUnsignedLongTraits.

Example string_to_number_examples :
  StringToNumber_int (str "-42") = Some (-42) /\
  StringToNumber_uint (str "4294967296") = None /\
  StringToNumber_uint (str "-1") = None /\
  StringToNumber_ulong (str "0x1F") = Some 31 /\
  StringToNumber_ulong (str "017") = Some 15 /\
  StringToNumber_ulong (str "0x") = None /\
  StringToNumber_long (str " 1") = None.
Proof. vm_compute. done. Qed.

(** *** Digits *)

(** The value of a digit sequence after [acc]. *)
Definition digits_value (base acc : Z) (s : bytes) : Z :=
  fold_left (fun a c => a * base + default 0 (digit_value c)) s acc.

Lemma scan_digits_spec base acc n s :
  exists k, (k <= length s)%nat /\
    scan_digits base acc n s = (digits_value base acc (take k s), (n + k)%nat) /\
    Forall (fun c => is_digit_in base c = true) (take k s) /\
    (k < length s -> exists c, s !! k = Some c /\ is_digit_in base c = false)%nat.
Proof.
  revert acc n; induction s as [|c s IH]; intros acc n.
  { exists 0%nat. simpl. rewrite Nat.add_0_r. split_and!; auto. lia. }
  simpl scan_digits. destruct (is_digit_in base c) eqn:E; unfold is_digit_in in E.
  - destruct (digit_value c) as [d|] eqn:Ed; [|done]. rewrite E.
    destruct (IH (acc * base + d) (S n)) as (k & Hk & Hs & Hf & Hn).
    exists (S k). rewrite Hs. simpl. unfold digits_value. simpl. rewrite Ed. simpl.
    split_and!.
    + lia.
    + f_equal. lia.
    + constructor; [|done]. unfold is_digit_in. by rewrite Ed.
    + intros. apply Hn. lia.
  - exists 0%nat. rewrite Nat.add_0_r. split_and!; simpl; [lia| |constructor|].
    + destruct (digit_value c); [rewrite E|]; done.
    + intros _. exists c. split; [done|]. unfold is_digit_in. done.
Qed.

Lemma scan_digits_all base acc n s :
  Forall (fun c => is_digit_in base c = true) s ->
  scan_digits base acc n s = (digits_value base acc s, (n + length s)%nat).
Proof.
  intros Hf. destruct (scan_digits_spec base acc n s) as (k & Hk & -> & _ & Hn).
  destruct (decide (k = length s)) as [->|Hne]; [by rewrite firstn_all|].
  destruct Hn as (c & Hc & Hd); [lia|].
  rewrite Forall_lookup in Hf. specialize (Hf _ _ Hc). simpl in Hf. congruence.
Qed.

Lemma digit_value_bound base c :
  is_digit_in base c = true -> 0 <= default 0 (digit_value c) < base.
Proof.
  unfold is_digit_in, digit_value, isdigit. repeat break_if; bool_to_prop; simpl; try done;
    intros; bool_to_prop; lia.
Qed.

Lemma digits_value_nonneg base acc s :
  0 <= base -> 0 <= acc -> Forall (fun c => is_digit_in base c = true) s ->
  0 <= digits_value base acc s.
Proof.
  intros Hb Ha Hf. revert acc Ha.
  induction Hf as [|c s Hc _ IH]; intros acc Ha; unfold digits_value in *; simpl; [done|].
  apply IH. pose proof (digit_value_bound _ _ Hc). nia.
Qed.

Lemma digits_value_app base acc s1 s2 :
  digits_value base acc (s1 ++ s2) = digits_value base (digits_value base acc s1) s2.
Proof. unfold digits_value. by rewrite fold_left_app. Qed.

(** *** Decimal and hexadecimal renderings *)

Definition digit_char (d : Z) : Z := if d <? 10 then 48 + d else 87 + d.

Lemma digit_char_value d : 0 <= d < 36 -> digit_value (digit_char d) = Some d.
Proof.
  intros. unfold digit_char, digit_value, isdigit.
  repeat break_if; bool_to_prop; try lia; try (f_equal; lia).
  all: apply andb_false_iff in E0; destruct E0; bool_to_prop; lia.
Qed.

(** The digits of [n], most significant first, in front of [acc]. *)
Fixpoint print_aux (fuel : nat) (base n : Z) (acc : bytes) : bytes :=
  match fuel with
  | O => acc
  | S f =>
      let acc' := digit_char (n mod base) :: acc in
      if n / base =? 0 then acc' else print_aux f base (n / base) acc'
  end.

(** [n] in base [base], without leading zeroes ([%u], [%x]). *)
Definition print_base (base n : Z) : bytes :=
  print_aux (S (Z.to_nat (Z.log2 n))) base n [].
(** [n] in decimal with its sign ([%d]). *)
Definition print_dec (n : Z) : bytes :=
  if n <? 0 then 45 :: print_base 10 (- n) else print_base 10 n.

Section Printing.
  Variable base : Z.
  Hypothesis Hbase : 2 <= base <= 36.

Lemma print_aux_value fuel n acc a :
  0 <= n < base ^ Z.of_nat fuel -> fuel <> 0%nat ->
  digits_value base a (print_aux fuel base n acc) =
  digits_value base (digits_value base a (print_aux fuel base n [])) acc /\
  digits_value base 0 (print_aux fuel base n []) = n.
Proof.
  revert n acc a; induction fuel as [|f IH]; intros n acc a Hn Hf; [done|]. clear Hf.
  pose proof (Z.mod_pos_bound n base ltac:(lia)) as Hm.
  pose proof (Z.div_mod n base ltac:(lia)) as Hdm.
  assert (forall x, digits_value base x [digit_char (n mod base)] = x * base + n mod base) as H1.
  { intros x. unfold digits_value. simpl. rewrite digit_char_value by lia. done. }
  simpl print_aux. destruct (Z.eqb_spec (n / base) 0) as [E|E].
  - split; [by rewrite <-digits_value_app|]. rewrite H1. lia.
  - rewrite Nat2Z.inj_succ, Z.pow_succ_r in Hn by lia.
    assert (0 <= n / base < base ^ Z.of_nat f) as Hd.
    { split; [apply Z.div_pos; lia | apply Z.div_lt_upper_bound; lia]. }
    assert (f <> 0%nat) by (intros ->; simpl in Hd; lia).
    destruct (IH (n / base) (digit_char (n mod base) :: acc) a Hd ltac:(done)) as [-> _].
    destruct (IH (n / base) [digit_char (n mod base)] a Hd ltac:(done)) as [-> _].
    destruct (IH (n / base) [digit_char (n mod base)] 0 Hd ltac:(done)) as [-> ->].
    split; [|rewrite H1; lia]. exact (digits_value_app base _ [_] acc).
Qed.

Lemma print_aux_digits fuel n acc :
  0 <= n -> Forall (fun c => is_digit_in base c = true) acc ->
  Forall (fun c => is_digit_in base c = true) (print_aux fuel base n acc).
Proof.
  revert n acc; induction fuel as [|f IH]; intros n acc Hn Ha; simpl; [done|].
  pose proof (Z.mod_pos_bound n base ltac:(lia)).
  assert (Forall (fun c => is_digit_in base c = true) (digit_char (n mod base) :: acc)).
  { constructor; [|done]. unfold is_digit_in. rewrite digit_char_value by lia.
    apply Z.ltb_lt. lia. }
  case_match; [done|]. apply IH; [apply Z.div_pos; lia | done].
Qed.

Lemma print_aux_head fuel n acc :
  0 < n < base ^ Z.of_nat fuel ->
  exists d s, print_aux fuel base n acc = digit_char d :: s /\ 0 < d < base.
Proof.
  revert n acc; induction fuel as [|f IH]; intros n acc Hn; simpl; [simpl in Hn; lia|].
  pose proof (Z.mod_pos_bound n base ltac:(lia)).
  pose proof (Z.div_mod n base ltac:(lia)).
  case_match eqn:E; bool_to_prop; [eexists _, _; split; [done|lia]|].
  apply IH. rewrite Nat2Z.inj_succ, Z.pow_succ_r in Hn by lia.
  assert (0 <= n / base) by (apply Z.div_pos; lia).
  split; [lia | apply Z.div_lt_upper_bound; lia].
Qed.

Lemma print_fuel n : 0 <= n -> n < base ^ Z.of_nat (S (Z.to_nat (Z.log2 n))).
Proof.
  intros Hn. destruct (decide (n = 0)) as [->|]; [simpl; lia|].
  rewrite Nat2Z.inj_succ, Z2Nat.id by apply Z.log2_nonneg.
  pose proof (Z.log2_spec n ltac:(lia)) as [_ H].
  eapply Z.lt_le_trans; [exact H|]. apply Z.pow_le_mono_l. lia.
Qed.

Lemma print_base_value n : 0 <= n -> digits_value base 0 (print_base base n) = n.
Proof.
  intros. unfold print_base.
  destruct (print_aux_value (S (Z.to_nat (Z.log2 n))) n [] 0); auto. 
  split; [done|]. by apply print_fuel.
Qed.

Lemma print_base_digits n :
  0 <= n -> Forall (fun c => is_digit_in base c = true) (print_base base n).
Proof. intros. by apply print_aux_digits. Qed.

Lemma print_base_head n :
  0 < n -> exists d s, print_base base n = digit_char d :: s /\ 0 < d < base.
Proof. intros. apply print_aux_head. split; [done|]. apply print_fuel. lia. Qed.

Lemma print_base_zero : print_base base 0 = [48].
Proof. unfold print_base. cbn [print_aux]. rewrite Z.mod_0_l by lia. by rewrite Zdiv_0_l. Qed.

Lemma print_base_nonempty n : 0 <= n -> print_base base n <> [].
Proof.
  intros Hn. destruct (decide (n = 0)) as [->|]; [by rewrite print_base_zero|].
  destruct (print_base_head n) as (d & s & -> & _); [lia|done].
Qed.

End Printing.

(** *** What StringToNumber accepts *)

(** The static checks of a traits class ([TypeCheck]). *)
Definition TypeCheck (T : StringToNumber.traits) : bool :=
  eqb (it_signed (StringToNumber.IntType T)) (it_signed (StringToNumber.LongType T)) &&
  (0 <? it_width (StringToNumber.IntType T)) &&
  (it_width (StringToNumber.IntType T) <=? it_width (StringToNumber.LongType T)).

Lemma digit_not_space base c : base <= 36 -> is_digit_in base c = true -> isspace c = false.
Proof.
  intros Hb. unfold is_digit_in, digit_value, isdigit, isspace. intros H.
  repeat break_if; try done; bool_to_prop;
    rewrite orb_false_iff, andb_false_iff; rewrite Z.eqb_neq, !Z.leb_gt; lia.
Qed.

Lemma digit_not_sign base c : base <= 36 -> is_digit_in base c = true -> c <> 45 /\ c <> 43.
Proof.
  intros Hb. unfold is_digit_in, digit_value, isdigit. intros H.
  repeat break_if; try done; bool_to_prop; lia.
Qed.

(** The end of [strto] once the digits are scanned. *)
Definition strto_finish (t : int_type) (neg : bool) (mag : Z) (fin : nat) : strto_result :=
  if it_signed t then
    let v := if neg then - mag else mag in
    if in_range t v then StrtoResult v fin false
    else StrtoResult (if neg then type_min t else type_max t) fin true
  else
    if mag <=? type_max t then StrtoResult (cast t (if neg then - mag else mag)) fin false
    else StrtoResult (type_max t) fin true.

Lemma strto_unsigned_dec t n :
  0 <= n -> strto t (print_base 10 n) = strto_finish t false n (length (print_base 10 n)).
Proof.
  intros Hn. destruct (decide (n = 0)) as [->|Hne].
  { rewrite print_base_zero by lia. reflexivity. }
  pose proof (print_base_digits 10 ltac:(lia) n Hn) as Hd.
  pose proof (print_base_value 10 ltac:(lia) n Hn) as Hv.
  destruct (print_base_head 10 ltac:(lia) n ltac:(lia)) as (d & s & E & Hdd).
  rewrite E in *. pose proof (Forall_inv Hd) as Hc.
  destruct (digit_not_sign 10 _ ltac:(lia) Hc) as [H1 H2].
  assert (digit_char d <> 48) as H3 by (unfold digit_char; case_match; lia).
  unfold strto. simpl leading_spaces.
  rewrite (digit_not_space 10 _ ltac:(lia) Hc). rewrite drop_0.
  apply Z.eqb_neq in H1 as ->, H2 as ->, H3 as H3'. rewrite !drop_0, H3', drop_0.
  rewrite scan_digits_all by done. rewrite Hv. done.
Qed.

Lemma strto_negative_dec t n :
  0 <= n -> strto t (45 :: print_base 10 n) =
            strto_finish t true n (S (length (print_base 10 n))).
Proof.
  intros Hn. destruct (decide (n = 0)) as [->|Hne].
  { rewrite print_base_zero by lia. reflexivity. }
  pose proof (print_base_digits 10 ltac:(lia) n Hn) as Hd.
  pose proof (print_base_value 10 ltac:(lia) n Hn) as Hv.
  destruct (print_base_head 10 ltac:(lia) n ltac:(lia)) as (d & s & E & Hdd).
  rewrite E in *.
  assert (digit_char d <> 48) as H3 by (unfold digit_char; case_match; lia).
  apply Z.eqb_neq in H3.
  unfold strto. simpl. rewrite H3, drop_0, scan_digits_all by done. rewrite Hv. done.
Qed.

Lemma type_max_range t n :
  0 < it_width t -> in_range t n = true <-> type_min t <= n <= type_max t.
Proof.
  intros. unfold in_range, type_max, type_min.
  destruct (it_signed t); [rewrite fits_signed_spec|rewrite fits_spec]; lia.
Qed.

Lemma type_max_mono t1 t2 :
  it_signed t1 = it_signed t2 -> 0 < it_width t1 <= it_width t2 ->
  type_max t1 <= type_max t2 /\ type_min t2 <= type_min t1 /\
  type_min t1 <= 0 <= type_max t1.
Proof.
  intros E Hw. unfold type_max, type_min. rewrite E. destruct (it_signed t2).
  - pose proof (Z.pow_le_mono_r 2 (it_width t1 - 1) (it_width t2 - 1)). lia.
  - pose proof (Z.pow_le_mono_r 2 (it_width t1) (it_width t2)). lia.
Qed.

Lemma print_dec_first n :
  exists c s, print_dec n = c :: s /\ isspace c = false /\ (c = 45 <-> n < 0).
Proof.
  unfold print_dec. destruct (Z.ltb_spec n 0); [by exists 45, (print_base 10 (- n))|].
  destruct (print_base 10 n) as [|c s] eqn:E.
  { by apply (print_base_nonempty 10) in E. }
  pose proof (print_base_digits 10 ltac:(lia) n ltac:(lia)) as Hd. rewrite E in Hd.
  apply Forall_inv in Hd. exists c, s. split_and!; [done| |].
  - by apply (digit_not_space 10).
  - destruct (digit_not_sign 10 c) as [? _]; [lia|done|]. lia.
Qed.

(** The conversion of a decimal rendering, before the destination's checks. *)
Lemma convert_print_dec T n :
  it_signed (StringToNumber.IntType T) = it_signed (StringToNumber.LongType T) ->
  StringToNumber.Convert T (print_dec n) =
  if (n <? 0) && negb (it_signed (StringToNumber.IntType T)) then StrtoResult 0 0 false
  else strto_finish (StringToNumber.LongType T) (n <? 0) (Z.abs n) (length (print_dec n)).
Proof.
  intros Hs. unfold StringToNumber.Convert.
  destruct (print_dec_first n) as (c & s & E & _ & Hc). rewrite E. simpl head. simpl default.
  destruct (Z.ltb_spec n 0) as [Hn|Hn].
  - rewrite (proj2 Hc Hn). rewrite Z.eqb_refl, andb_true_r.
    destruct (it_signed (StringToNumber.IntType T)); simpl; [|done].
    revert E. unfold print_dec. destruct (Z.ltb_spec n 0); [|lia]. intros [= _ <-].
    replace c with 45 by (symmetry; by apply Hc).
    rewrite strto_negative_dec by lia. f_equal. lia.
  - destruct (Z.eqb_spec c 45); [lia|]. rewrite andb_false_r. cbn iota. rewrite <-E.
    cbn [andb].
    unfold print_dec. destruct (Z.ltb_spec n 0); [lia|].
    rewrite strto_unsigned_dec by lia. f_equal. lia.
Qed.

Lemma strto_finish_range t n fin :
  0 < it_width t -> (it_signed t = false -> 0 <= n) ->
  let r := strto_finish t (n <? 0) (Z.abs n) fin in
  st_end r = fin /\ st_erange r = negb (in_range t n) /\
  (in_range t n = true -> st_value r = n).
Proof.
  intros Hw Hu. unfold strto_finish. pose proof (type_max_range t n Hw) as Hr.
  pose proof (cast_in_range t n Hw) as Hc.
  assert ((if n <? 0 then - Z.abs n else Z.abs n) = n) as -> by (case_match eqn:E; bool_to_prop; lia).
  destruct (in_range t n) eqn:E; destruct (it_signed t) eqn:Es; simpl; try done.
  - destruct (Z.leb_spec (Z.abs n) (type_max t)); simpl; [split_and!; auto|lia].
  - destruct (Z.leb_spec (Z.abs n) (type_max t)); simpl; [|done].
    cut (false = true); [done|]. apply Hr. unfold type_min. rewrite Es. lia.
Qed.

Lemma string_to_number_print (T : StringToNumber.traits) (n : Z) :
  TypeCheck T = true ->
  StringToNumber.StringToIntegerInternal T (print_dec n) =
  if in_range (StringToNumber.IntType T) n then Some n else None.
Proof.
  unfold TypeCheck. intros H. bool_to_prop.
  match goal with H : eqb _ _ = true |- _ => apply eqb_prop in H as Hsgn end.
  destruct (type_max_mono (StringToNumber.IntType T) (StringToNumber.LongType T))
    as (M1 & M2 & M3); [done|lia|].
  pose proof (type_max_range (StringToNumber.IntType T) n ltac:(lia)) as HI.
  pose proof (type_max_range (StringToNumber.LongType T) n ltac:(lia)) as HL.
  pose proof (cast_in_range (StringToNumber.IntType T) n ltac:(lia)) as HC.
  unfold StringToNumber.StringToIntegerInternal.
  destruct (print_dec_first n) as (c & s & E & Hsp & Hc). rewrite E at 1. rewrite Hsp.
  rewrite convert_print_dec by done.
  destruct ((n <? 0) && negb (it_signed (StringToNumber.IntType T))) eqn:Eneg; cbn zeta.
  { bool_to_prop. simpl. rewrite E. simpl. rewrite orb_true_r.
    destruct (in_range _ n) eqn:Ein; [|done]. unfold type_min in HI.
    rewrite H3 in HI. lia. }
  destruct (strto_finish_range (StringToNumber.LongType T) n (length (print_dec n)))
    as (F1 & F2 & F3); [lia| |].
  { rewrite <-Hsgn. intros Hu. rewrite Hu in Eneg. simpl in Eneg.
    rewrite andb_true_r in Eneg. bool_to_prop. lia. }
  set (r := strto_finish _ _ _ _) in *.
  rewrite F1, F2, Nat.eqb_refl, orb_false_r.
  destruct (in_range (StringToNumber.LongType T) n) eqn:EL; simpl.
  2:{ rewrite orb_true_r. destruct (in_range _ n) eqn:Ein; [|done].
      cut (false = true); [done|]. apply HL. assert (true = true) as Ht by done.
      apply HI in Ht. lia. }
  rewrite F3, orb_false_r by done. unfold StringToNumber.IsNegativeOverflow.
  destruct (in_range (StringToNumber.IntType T) n) eqn:EI.
  - destruct (proj1 HI eq_refl). rewrite HC by done.
    destruct (Z.ltb_spec n (type_min (StringToNumber.IntType T))); [lia|].
    destruct (Z.ltb_spec (type_max (StringToNumber.IntType T)) n); [lia|].
    by rewrite andb_false_r.
  - destruct (Z.ltb_spec (type_max (StringToNumber.IntType T)) n); [by rewrite orb_true_r|].
    destruct (Z.ltb_spec n (type_min (StringToNumber.IntType T))).
    + rewrite andb_true_r. destruct (it_signed (StringToNumber.IntType T)) eqn:Es; [done|].
      destruct (proj1 HL eq_refl) as [HLm _]. unfold type_min in *.
      rewrite <-Hsgn in HLm. rewrite Es in *. lia.
    + cut (false = true); [done|]. apply HI. lia.
Qed.

(** C38.  On the decimal rendering of any integer, however large, each overload
    of [StringToNumber] returns that integer when it is in the range of the
    destination type and fails otherwise; in particular an unsigned conversion
    refuses every negative number. *)
Theorem string_to_number_decimal (T : StringToNumber.traits) (n : Z) :
  TypeCheck T = true ->
  StringToNumber.StringToIntegerInternal T (print_dec n) =
  if in_range (StringToNumber.IntType T) n then Some n else None.
Proof. apply string_to_number_print. Qed.

Lemma string_to_number_decimal_witness :
  StringToNumber_uint (print_dec (2 ^ 32 - 1)) = Some (2 ^ 32 - 1) /\
  StringToNumber_uint (print_dec (-7)) = None.
Proof.
  split.
  - apply (string_to_number_decimal StringToNumber.StringToUnsignedIntTraits (2 ^ 32 - 1)).
    reflexivity.
  - apply (string_to_number_decimal StringToNumber.StringToUnsignedIntTraits (-7)).
    reflexivity.
Defined.

Lemma scan_digits_stop base s acc n :
  snd (scan_digits base acc n s) = (n + length s)%nat ->
  Forall (fun c => is_digit_in base c = true) s.
Proof.
  destruct (scan_digits_spec base acc n s) as (k & Hk & -> & Hf & _). simpl. intros.
  replace k with (length s) in Hf by lia. by rewrite firstn_all in Hf.
Qed.

(** The conversion of ["0x"] followed by [s]: all of [s] is hexadecimal digits,
    at least one, or the end is not the end of the string. *)
Lemma strto_hex t s :
  (s <> [] /\ Forall (fun c => is_digit_in 16 c = true) s /\
   strto t (48 :: 120 :: s) =
     strto_finish t false (digits_value 16 0 s) (length (48 :: 120 :: s))) \/
  ((s = [] \/ ~ Forall (fun c => is_digit_in 16 c = true) s) /\
   st_end (strto t (48 :: 120 :: s)) <> length (48 :: 120 :: s)).
Proof.
  destruct s as [|h s].
  { right. split; [by left|]. unfold strto. simpl.
    destruct (it_signed t); simpl; repeat case_match; simpl; lia. }
  destruct (is_digit_in 16 h) eqn:Eh.
  - destruct (decide (Forall (fun c => is_digit_in 16 c = true) (h :: s))) as [Hf|Hf].
    + left. split_and!; [done..|]. unfold strto. simpl leading_spaces. cbn iota.
      rewrite drop_0. change (48 =? 45) with false. change (48 =? 43) with false. cbn iota.
      rewrite drop_0. change (48 =? 48) with true. change (120 =? 120) with true.
      rewrite Eh. cbn [orb andb]. cbn iota. simpl drop.
      rewrite scan_digits_all by done. reflexivity.
    + right. split; [by right|]. intros Hend. apply Hf.
      apply (scan_digits_stop 16 (h :: s) 0 0). revert Hend.
      unfold strto. simpl leading_spaces. cbn iota.
      rewrite drop_0. change (48 =? 45) with false. change (48 =? 43) with false. cbn iota.
      rewrite drop_0. change (48 =? 48) with true. change (120 =? 120) with true.
      rewrite Eh. cbn [orb andb]. cbn iota. simpl drop.
      destruct (scan_digits 16 0 0 (h :: s)) as [mag nd]. simpl snd.
      destruct nd; simpl; [done|]. destruct (it_signed t); repeat case_match; simpl; lia.
  - right. split; [right; intros Hf; apply Forall_inv in Hf; congruence|].
    unfold strto. simpl leading_spaces. cbn iota. rewrite drop_0.
    change (48 =? 45) with false. change (48 =? 43) with false. cbn iota.
    rewrite drop_0. change (48 =? 48) with true. change (120 =? 120) with true.
    rewrite Eh. cbn [orb andb]. simpl.
    destruct (it_signed t); repeat case_match; simpl; lia.
Qed.

(** A string of hexadecimal digits. *)
Definition hex_string (s : bytes) : bool :=
  negb (length s =? 0)%nat && forallb (is_digit_in 16) s.

Lemma hex_string_spec s :
  hex_string s = true <-> s <> [] /\ Forall (fun c => is_digit_in 16 c = true) s.
Proof.
  unfold hex_string. rewrite andb_true_iff, negb_true_iff, Nat.eqb_neq, forallb_forall, Forall_forall.
  setoid_rewrite list_elem_of_In. destruct s; simpl; intuition (try done; lia).
Qed.

Lemma string_to_number_hex T s :
  TypeCheck T = true ->
  StringToNumber.StringToIntegerInternal T (48 :: 120 :: s) =
  if hex_string s && (digits_value 16 0 s <=? type_max (StringToNumber.IntType T))
  then Some (digits_value 16 0 s) else None.
Proof.
  unfold TypeCheck. intros HT. bool_to_prop.
  match goal with H : eqb _ _ = true |- _ => apply eqb_prop in H as Hsgn end.
  destruct (type_max_mono (StringToNumber.IntType T) (StringToNumber.LongType T))
    as (M1 & M2 & M3); [done|lia|].
  unfold StringToNumber.StringToIntegerInternal, StringToNumber.Convert.
  change (isspace 48) with false. cbn iota zeta. simpl head. simpl default.
  change (48 =? 45) with false. rewrite andb_false_r. cbn iota.
  destruct (strto_hex (StringToNumber.LongType T) s) as [(Hne & Hall & ->)|(Hbad & Hend)].
  - rewrite (proj2 (hex_string_spec s)) by done. cbn [andb].
    pose proof (digits_value_nonneg 16 0 s ltac:(lia) ltac:(lia) Hall) as Hnn.
    set (v := digits_value 16 0 s) in *. 
    pose proof (type_max_range (StringToNumber.IntType T) v ltac:(lia)) as HI.
    pose proof (type_max_range (StringToNumber.LongType T) v ltac:(lia)) as HL.
    destruct (strto_finish_range (StringToNumber.LongType T) v (length (48 :: 120 :: s)))
      as (F1 & F2 & F3); [lia..|].
    replace (v <? 0) with false in * by (symmetry; apply Z.ltb_ge; lia).
    replace (Z.abs v) with v in * by lia.
    rewrite F1, F2, Nat.eqb_refl, orb_false_r.
    destruct (Z.leb_spec v (type_max (StringToNumber.IntType T))).
    + rewrite (proj2 HL) by lia. rewrite (proj2 HL) in F3 by lia. rewrite F3 by done.
      unfold StringToNumber.IsNegativeOverflow.
      destruct (Z.ltb_spec v (type_min (StringToNumber.IntType T))); [lia|].
      destruct (Z.ltb_spec (type_max (StringToNumber.IntType T)) v); [lia|].
      rewrite andb_false_r. simpl. rewrite cast_in_range; [done|lia|]. apply HI. lia.
    + destruct (in_range (StringToNumber.LongType T) v) eqn:EL; cbn [negb].
      * rewrite F3 by done.
        destruct (Z.ltb_spec (type_max (StringToNumber.IntType T)) v); [|lia].
        by rewrite orb_true_r, ?orb_true_l.
      * by rewrite orb_true_r.
  - apply Nat.eqb_neq in Hend. rewrite Hend. simpl. rewrite orb_true_r.
    destruct (hex_string s) eqn:E; [|done]. apply hex_string_spec in E as [? ?].
    by destruct Hbad.
Qed.

(** ** Splitting *)

(** [string.find(delimiter, start)]. *)
Fixpoint find_char (c : Z) (s : bytes) : option nat :=
  match s with
  | [] => None
  | x :: s' => if x =? c then Some O else S <$> find_char c s'
  end.

Definition find_from (c : Z) (start : nat) (s : bytes) : option nat :=
  (fun i => (start + i)%nat) <$> find_char c (drop start s).

(** [SplitStringFirst]: the left and right parts, or [None] for [false]. *)
Definition SplitStringFirst (s : bytes) (delimiter : Z) : option (bytes * bytes) :=
  match find_char delimiter s with
  | None | Some O => None
  | Some pos => Some (take pos s, drop (pos + 1) s)
  end.

(** The loop of [SplitString] from [start]; [None] is out of fuel. *)
Fixpoint SplitString_loop (fuel : nat) (s : bytes) (delimiter : Z) (start : nat)
    (result : list bytes) : option (list bytes) :=
  match fuel with
  | O => None
  | S f =>
      match find_from delimiter start s with
      | None => Some (result ++ [drop start s])
      | Some end_ =>
          SplitString_loop f s delimiter (end_ + 1)
            (result ++ [slice start (end_ - start) s])
      end
  end.

Definition SplitString (s : bytes) (delimiter : Z) : option (list bytes) :=
  match s with
  | [] => Some []
  | _ => SplitString_loop (S (length s)) s delimiter 0 []
  end.

(** The parts joined by the delimiter. *)
Fixpoint join (d : Z) (parts : list bytes) : bytes :=
  match parts with
  | [] => []
  | [p] => p
  | p :: ps => p ++ d :: join d ps
  end.

Lemma find_char_spec c s :
  match find_char c s with
  | Some i => exists r, s = take i s ++ (c :: r) /\ (c ∉ take i s) /\ (i < length s)%nat /\ r = drop (S i) s
  | None => c ∉ s
  end.
Proof.
  induction s as [|x s IH]; simpl; [set_solver|].
  destruct (Z.eqb_spec x c) as [->|Hne].
  { eexists. simpl. split_and!; [reflexivity|set_solver|lia|done]. }
  destruct (find_char c s) as [i|]; simpl.
  - destruct IH as (r & E & Hn & Hl & Hr). exists r. rewrite E at 1.
    split_and!; [done|set_solver|lia|done].
  - set_solver.
Qed.

Lemma split_string_loop_spec d s fuel start acc :
  (start <= length s)%nat -> (length s - start < fuel)%nat ->
  exists parts, SplitString_loop fuel s d start acc = Some (acc ++ parts) /\
    parts <> [] /\ join d parts = drop start s /\ Forall (fun p => d ∉ p) parts.
Proof.
  revert start acc; induction fuel as [|f IH]; intros start acc Hs Hf; [lia|].
  simpl. unfold find_from. pose proof (find_char_spec d (drop start s)) as Hfind.
  destruct (find_char d (drop start s)) as [i|]; simpl.
  - destruct Hfind as (r & E & Hn & Hl & Hr). rewrite length_drop in Hl.
    destruct (IH (start + i + 1)%nat (acc ++ [slice start (start + i - start) s]))
      as (parts & Hp & Hne & Hj & Hall); [lia..|].
    exists (slice start i s :: parts). rewrite Hp. replace (start + i - start)%nat with i by lia.
    rewrite <-app_assoc. split_and!; [done|done| |].
    + destruct parts as [|p ps]; [done|]. 
      change (join d (slice start i s :: p :: ps)) with (slice start i s ++ d :: join d (p :: ps)).
      rewrite Hj, E at 1. unfold slice. do 2 f_equal. rewrite Hr, drop_drop. f_equal. lia.
    + constructor; [|done]. done.
  - exists [drop start s]. split_and!; [done|done|done|]. constructor; [done|constructor].
Qed.

(** [SplitString] always returns (the loop ends), and on a non-empty
    string its result is the one decomposition of the string at every
    delimiter: no part contains the delimiter, and joining the parts with it
    gives the string back, so no character is lost or invented. *)
Theorem split_string_join (s : bytes) (d : Z) :
  exists parts, SplitString s d = Some parts /\
    join d parts = s /\ Forall (fun p => d ∉ p) parts /\ (s <> [] -> parts <> []).
Proof.
  destruct s as [|c s]; [by exists []|].
  destruct (split_string_loop_spec d (c :: s) (S (length (c :: s))) 0 [])
    as (parts & H1 & H2 & H3 & H4); [simpl; lia..|].
  exists parts. split_and!; auto.
Qed.

Lemma split_string_first_spec s d l r :
  SplitStringFirst s d = Some (l, r) <-> l <> [] /\ (d ∉ l) /\ s = l ++ (d :: r).
Proof.
  unfold SplitStringFirst. pose proof (find_char_spec d s) as H.
  destruct (find_char d s) as [[|i]|]; simpl.
  - destruct H as (r' & E & _ & _). simpl in E. subst s. split; [done|].
    intros (Hne & Hni & E). destruct l; [done|]. simpl in E. set_solver.
  - destruct H as (r' & E & Hn & Hl & Hr). split.
    + intros [= <- <-]. replace (i + 1)%nat with (S i) by lia. rewrite <-Hr.
      split_and!; [|done|done]. destruct s; simpl in *; [lia|done].
    + intros (Hne & Hni & ->). 
      assert (length l = S i) as Hlen.
      { destruct (decide (length l = S i)) as [|Hd]; [done|exfalso].
        assert (length l < S i \/ S i < length l)%nat as [Hlt|Hlt] by lia.
        - apply Hn. rewrite take_app_ge by lia. 
          destruct (S i - length l)%nat eqn:Es; [lia|]. simpl. set_solver.
        - apply Hni.
          assert ((take (S i) (l ++ d :: r) ++ (d :: r')) !! S i = Some d) as Hlk.
          { rewrite lookup_app_r; rewrite length_take; [|lia].
            rewrite Nat.min_l by lia. by rewrite Nat.sub_diag. }
          rewrite <-E in Hlk. rewrite lookup_app_l in Hlk by lia.
          by apply list_elem_of_lookup_2 in Hlk. }
      rewrite take_app_length' by done. rewrite drop_app_ge by lia.
      replace (_ - length l)%nat with 1%nat by lia. done.
  - split; [done|]. intros (_ & _ & ->). set_solver.
Qed.
