(* ===== verification/FileIO.v ===== *)
(** * Files (util/file)

    Interfaces of file readers and writers with the laws their clients rely on;
    [StringFile] (string_file.cc) as an instance of both; the loops
    [ReadExactlyInternal::ReadExactly], [WriteAllInternal::WriteAll] and
    [LoggingReadToEOF] (file_io.cc) and the POSIX [WriteIoVec] (file_writer.cc)
    over system calls that may transfer less than asked; and
    [DelimitedFileReader] (delimited_file_reader.cc). *)

From S2P Require Import Prelude.
From S2P Require Import Numeric.
From S2P Require Import Strings.

(** ** Interfaces *)

(** The values of [whence]. *)
Definition SEEK_SET : Z := 0.
Definition SEEK_CUR : Z := 1.
Definition SEEK_END : Z := 2.

(** [FileReaderInterface::Read(data, size)]: [None] is a negative result,
    otherwise the bytes stored in [data] and the reader after the call. *)
Class FileReaderInterface (R : Type) := {
  Read : R -> nat -> option (bytes * R)
}.

(** What a reader promises: the bytes not read yet, which a read consumes from
    the front; nothing is returned only at the end of the file. *)
Class FileReaderLaws (R : Type) `{FileReaderInterface R} := {
  reader_valid : R -> Prop;
  remaining : R -> bytes;
  read_succeeds r n : reader_valid r -> exists d r', Read r n = Some (d, r');
  read_prefix r n d r' :
    reader_valid r -> Read r n = Some (d, r') ->
    reader_valid r' /\ remaining r = d ++ remaining r' /\ (length d <= n)%nat;
  read_empty r n r' :
    reader_valid r -> Read r n = Some ([], r') -> (0 < n)%nat -> remaining r = []
}.

(** The contents of a file after [d] is written at [off]: a gap is zero bytes. *)
Definition write_at (off : nat) (d l : bytes) : bytes :=
  take off (l ++ replicate (off - length l) 0) ++ d ++ drop (off + length d) l.

(** [FileWriterInterface] and [FileSeekerInterface]. *)
Class FileWriterInterface (F : Type) := {
  Write : F -> bytes -> bool * F;
  WriteIoVec : F -> list bytes -> bool * F;
  Seek : F -> Z -> Z -> Z * F
}.

(** What a writer promises of its operations when they succeed. *)
Class FileWriterLaws (F : Type) `{FileWriterInterface F} := {
  writer_valid : F -> Prop;
  contents : F -> bytes;
  position : F -> nat;
  write_ok f d f' :
    writer_valid f -> Write f d = (true, f') ->
    writer_valid f' /\ contents f' = write_at (position f) d (contents f) /\
    position f' = (position f + length d)%nat;
  write_io_vec_ok f iovecs f' :
    writer_valid f -> WriteIoVec f iovecs = (true, f') ->
    writer_valid f' /\ contents f' = write_at (position f) (concat iovecs) (contents f) /\
    position f' = (position f + length (concat iovecs))%nat;
  seek_cur_ok f r f' :
    writer_valid f -> Seek f 0 SEEK_CUR = (r, f') -> 0 <= r ->
    writer_valid f' /\ r = Z.of_nat (position f) /\ contents f' = contents f /\
    position f' = position f;
  seek_set_ok f o r f' :
    writer_valid f -> Seek f o SEEK_SET = (r, f') -> 0 <= r ->
    writer_valid f' /\ r = o /\ contents f' = contents f /\ position f' = Z.to_nat o
}.

Lemma write_at_end l d : write_at (length l) d l = l ++ d.
Proof.
  unfold write_at. rewrite Nat.sub_diag. simpl. rewrite app_nil_r, firstn_all.
  rewrite (drop_ge l) by lia. by rewrite app_nil_r.
Qed.

Lemma write_at_inside off d l :
  (off <= length l)%nat -> write_at off d l = take off l ++ d ++ drop (off + length d) l.
Proof.
  intros. unfold write_at. replace (off - length l)%nat with 0%nat by lia.
  simpl. by rewrite app_nil_r.
Qed.

Lemma write_at_nil off l : (off <= length l)%nat -> write_at off [] l = l.
Proof.
  intros. rewrite write_at_inside by done. simpl. rewrite Nat.add_0_r. apply take_drop.
Qed.

Lemma write_at_app off d1 d2 l :
  write_at (off + length d1) d2 (write_at off d1 l) = write_at off (d1 ++ d2) l.
Proof.
  assert (length (take off (l ++ replicate (off - length l) 0)) = off) as Hpre by len_lia.
  unfold write_at at 2 3. set (pre := take off _) in *. 
  rewrite write_at_inside by (rewrite !length_app; lia).
  rewrite take_app, Hpre. replace (off + length d1 - off)%nat with (length d1) by lia.
  rewrite (take_ge pre) by lia. rewrite take_app_length.
  rewrite <-!app_assoc. f_equal. f_equal. f_equal.
  rewrite drop_app_ge by lia. rewrite drop_app_ge by lia. rewrite drop_drop.
  rewrite length_app. f_equal. lia.
Qed.

Lemma length_write_at off d l :
  (off <= length l)%nat -> length (write_at off d l) = Nat.max (length l) (off + length d).
Proof. intros. rewrite write_at_inside by done. len_lia. Qed.

Lemma write_at_overwrite off d1 d2 l :
  (off <= length l)%nat -> (length d1 <= length d2)%nat ->
  write_at off d1 (write_at off d2 l) = write_at off (d1 ++ drop (length d1) d2) l.
Proof.
  intros Ho Hd. rewrite (write_at_inside off d1) by (rewrite length_write_at; lia).
  rewrite !(write_at_inside off _ l) by done.
  rewrite (take_app_length' (take off l)) by len_lia.
  rewrite drop_app_ge by len_lia. rewrite length_take_le by done.
  replace (off + length d1 - off)%nat with (length d1) by lia.
  rewrite drop_app_le by done. rewrite <-!app_assoc. do 4 f_equal.
  rewrite length_app, length_drop. lia.
Qed.

Lemma slice_write_at off d l o n :
  (off <= length l)%nat -> (o + n <= length d)%nat ->
  slice (off + o) n (write_at off d l) = slice o n d.
Proof.
  intros Ho Hd. rewrite write_at_inside by done. unfold slice.
  rewrite drop_app_ge by len_lia. rewrite length_take_le by done.
  replace (off + o - off)%nat with o by lia.
  rewrite drop_app_le by lia. rewrite take_app_le; [done|len_lia].
Qed.

(** ** StringFile *)

Module StringFile.

(** [string_] and [offset_]. *)
Record t := Make { string_ : bytes; offset_ : Z }.

Definition empty : t := Make [] 0.

(** [SetString]; its argument is at most as long as a [FileOperationResult] counts. *)
Definition SetString (s : bytes) : t := Make s 0.

(** [Reset]. *)
Definition Reset (f : t) : t := Make [] 0.

(** [std::string::resize] to a larger size. *)
Definition resize (n : nat) (s : bytes) : bytes := take n (s ++ replicate (n - length s) 0).

(** [std::string::replace(pos, len, data, len)]. *)
Definition replace (pos : nat) (d s : bytes) : bytes :=
  take pos s ++ d ++ drop (pos + length d) s.

(** [Read]. *)
Definition Read (f : t) (size : nat) : option (bytes * t) :=
  let offset := Z.to_nat (offset_ f) in
  if (length (string_ f) <=? offset)%nat then Some ([], f)
  else
    let nread := Nat.min size (length (string_ f) - offset) in
    let new_offset := offset_ f + Z.of_nat nread in
    if negb (in_range int64_t new_offset) then None
    else Some (slice offset nread (string_ f), Make (string_ f) new_offset).

(** [Write]: the string is grown before the new offset is checked. *)
Definition Write (f : t) (data : bytes) : bool * t :=
  let offset := Z.to_nat (offset_ f) in
  let s := if (length (string_ f) <? offset)%nat then resize offset (string_ f)
           else string_ f in
  let new_offset := offset_ f + Z.of_nat (length data) in
  if negb (in_range int64_t new_offset) then (false, Make s (offset_ f))
  else (true, Make (replace offset data s) new_offset).

(** The overflow check of [WriteIoVec]. *)
Fixpoint iovecs_fit (new_offset : Z) (iovecs : list bytes) : bool :=
  match iovecs with
  | [] => true
  | iov :: rest =>
      let o := new_offset + Z.of_nat (length iov) in
      if negb (in_range int64_t o) then false else iovecs_fit o rest
  end.

(** The writing loop of [WriteIoVec]. *)
Fixpoint write_each (f : t) (iovecs : list bytes) : bool * t :=
  match iovecs with
  | [] => (true, f)
  | iov :: rest =>
      match Write f iov with
      | (true, f') => write_each f' rest
      | (false, f') => (false, f')
      end
  end.

(** [WriteIoVec]. *)
Definition WriteIoVec (f : t) (iovecs : list bytes) : bool * t :=
  match iovecs with
  | [] => (false, f)
  | _ => if negb (iovecs_fit (offset_ f) iovecs) then (false, f) else write_each f iovecs
  end.

(** [Seek]. *)
Definition Seek (f : t) (offset whence : Z) : Z * t :=
  let base_offset :=
    if whence =? SEEK_SET then Some 0
    else if whence =? SEEK_CUR then Some (offset_ f)
    else if whence =? SEEK_END then Some (Z.of_nat (length (string_ f)))
    else None in
  match base_offset with
  | None => (-1, f)
  | Some base_offset =>
      match AssignIfInRange int64_t base_offset with
      | None => (-1, f)
      | Some base_offset_fileoffset =>
          let new_offset := base_offset_fileoffset + offset in
          if negb (in_range int64_t new_offset) then (-1, f)
          else match AssignIfInRange uint64_t new_offset with
               | None => (-1, f)
               | Some new_offset_sizet => (new_offset_sizet, Make (string_ f) new_offset_sizet)
               end
      end
  end.

(** The offset is never negative. *)
Definition wf (f : t) : Prop := 0 <= offset_ f.

Lemma write_spec f d f' :
  wf f -> Write f d = (true, f') ->
  wf f' /\ string_ f' = write_at (Z.to_nat (offset_ f)) d (string_ f) /\
  offset_ f' = offset_ f + Z.of_nat (length d).
Proof.
  unfold wf, Write. intros Hw. case_match; [done|]. intros [= <-]. simpl.
  split_and!; [lia| |done]. unfold replace, write_at, resize.
  destruct (Nat.ltb_spec (length (string_ f)) (Z.to_nat (offset_ f))).
  - rewrite take_take, Nat.min_id. do 2 f_equal. rewrite !drop_ge; [done|lia|len_lia].
  - replace (Z.to_nat (offset_ f) - length (string_ f))%nat with 0%nat by lia.
    simpl. by rewrite app_nil_r.
Qed.

Lemma write_each_spec f iovecs f' :
  wf f -> write_each f iovecs = (true, f') ->
  (Z.to_nat (offset_ f) <= length (string_ f))%nat \/ iovecs <> [] ->
  wf f' /\ string_ f' = write_at (Z.to_nat (offset_ f)) (concat iovecs) (string_ f) /\
  offset_ f' = offset_ f + Z.of_nat (length (concat iovecs)).
Proof.
  revert f; induction iovecs as [|iov rest IH]; intros f Hw; simpl.
  - intros [= ->] [Hle|]; [|done]. split_and!; [done| |lia]. by rewrite write_at_nil.
  - destruct (Write f iov) as [[] f1] eqn:E; [|done]. intros Hr _.
    apply write_spec in E as (W1 & S1 & O1); [|done]. unfold wf in *.
    assert (Z.to_nat (offset_ f1) = Z.to_nat (offset_ f) + length iov)%nat as Ho by lia.
    destruct (IH f1) as (W & S & O); [done..| |].
    { left. rewrite S1, Ho. unfold write_at. rewrite !length_app, length_take, length_app.
      rewrite length_replicate. lia. }
    split_and!; [done| |rewrite O, O1; len_lia].
    rewrite S, Ho, S1. apply write_at_app.
Qed.

(** The writes are never refused once the total has been checked. *)
Lemma write_each_total f iovecs :
  wf f -> iovecs_fit (offset_ f) iovecs = true -> (write_each f iovecs).1 = true.
Proof.
  revert f; induction iovecs as [|iov rest IH]; intros f Hw; simpl; [done|].
  case_match eqn:E; [done|]. intros Hf. unfold Write at 1. rewrite E. simpl.
  apply IH; simpl; [unfold wf in *; simpl; lia | done].
Qed.

End StringFile.

#[global] Instance StringFile_writer : FileWriterInterface StringFile.t := {
  Write := StringFile.Write;
  WriteIoVec := StringFile.WriteIoVec;
  Seek := StringFile.Seek
}.
#[global] Instance StringFile_reader : FileReaderInterface StringFile.t := {
  Read := StringFile.Read
}.

#[global] Program Instance StringFile_writer_laws : FileWriterLaws StringFile.t := {
  writer_valid := StringFile.wf;
  contents := StringFile.string_;
  position f := Z.to_nat (StringFile.offset_ f)
}.
Next Obligation.
  intros f d f' Hw E. apply StringFile.write_spec in E as (? & ? & ?); [|done].
  unfold StringFile.wf in *. split_and!; [done..|lia].
Qed.
Next Obligation.
  intros f iovecs f' Hw E. simpl in E. unfold StringFile.WriteIoVec in E.
  destruct iovecs as [|iov rest]; [done|]. case_match; [done|].
  apply StringFile.write_each_spec in E as (? & ? & ?); [|done|by right].
  unfold StringFile.wf in *. split_and!; [done..|lia].
Qed.
Next Obligation.
  intros f r f' Hw E Hr. simpl in E. unfold StringFile.Seek in E. simpl in E.
  unfold StringFile.wf in *.
  repeat case_match; simplify_eq; try lia. simpl.
  match goal with H : AssignIfInRange _ _ = _, H' : AssignIfInRange _ _ = _ |- _ =>
    apply AssignIfInRange_Some in H as [_ ->]; [|done];
    apply AssignIfInRange_Some in H' as [_ ->]; [|done] end.
  split_and!; [lia|lia|done|f_equal; lia].
Qed.
Next Obligation.
  intros f o r f' Hw E Hr. simpl in E. unfold StringFile.Seek in E. simpl in E.
  unfold StringFile.wf in *.
  repeat case_match; simplify_eq; try lia. simpl.
  match goal with H : AssignIfInRange _ _ = _ |- _ =>
    apply AssignIfInRange_Some in H as [_ ->]; [|done] end.
  change (cast int64_t 0) with 0 in *. split_and!; [lia|lia|done|f_equal; lia].
Qed.

(** A writer that accepts everything up to an offset: writes, and seeks to a
    position that writing can have reached, succeed. *)
Class FileWriterCapacity (F : Type) `{FileWriterLaws F} := {
  capacity : Z;
  write_accepts f d :
    writer_valid f -> Z.of_nat (position f + length d) <= capacity -> (Write f d).1 = true;
  write_io_vec_accepts f iovecs :
    writer_valid f -> iovecs <> [] ->
    Z.of_nat (position f + length (concat iovecs)) <= capacity -> (WriteIoVec f iovecs).1 = true;
  seek_cur_accepts f :
    writer_valid f -> Z.of_nat (position f) <= capacity -> 0 <= (Seek f 0 SEEK_CUR).1;
  seek_set_accepts f o :
    writer_valid f -> 0 <= o <= capacity -> 0 <= (Seek f o SEEK_SET).1
}.

Lemma in_range_int64 z : - 2 ^ 63 <= z < 2 ^ 63 -> in_range int64_t z = true.
Proof. intros. apply fits_signed_spec. simpl. lia. Qed.

Lemma iovecs_fit_total o iovecs :
  0 <= o -> o + Z.of_nat (length (concat iovecs)) < 2 ^ 63 ->
  StringFile.iovecs_fit o iovecs = true.
Proof.
  revert o; induction iovecs as [|v l IH]; intros o Ho; simpl; [done|].
  rewrite length_app. intros. rewrite in_range_int64 by lia. simpl. apply IH; lia.
Qed.

Lemma AssignIfInRange_uint64 z : 0 <= z < 2 ^ 63 -> AssignIfInRange uint64_t z = Some z.
Proof.
  intros. unfold AssignIfInRange.
  assert (in_range uint64_t z = true) as -> by (apply fits_spec; simpl; lia).
  f_equal. apply wrap_small. simpl. lia.
Qed.

Lemma string_file_seek_to f o w base :
  (w = SEEK_SET /\ base = 0) \/ (w = SEEK_CUR /\ base = StringFile.offset_ f) ->
  0 <= base < 2 ^ 63 -> 0 <= base + o < 2 ^ 63 ->
  StringFile.Seek f o w = (base + o, StringFile.Make (StringFile.string_ f) (base + o)).
Proof.
  unfold StringFile.Seek. intros Hc Hb Ho.
  assert (AssignIfInRange int64_t base = Some base) as Eb.
  { unfold AssignIfInRange. rewrite in_range_int64 by lia. f_equal.
    unfold cast. simpl. unfold wrap_signed. rewrite Z.mod_small; lia. }
  destruct Hc as [[-> ->]|[-> ->]]; 
    change (SEEK_CUR =? SEEK_SET) with false; rewrite ?Z.eqb_refl; cbn iota; rewrite Eb, in_range_int64 by lia;
    cbn [negb]; by rewrite AssignIfInRange_uint64 by lia.
Qed.

#[global] Program Instance StringFile_capacity : FileWriterCapacity StringFile.t := {
  capacity := 2 ^ 63 - 1
}.
Next Obligation.
  intros f d Hw Hc. simpl in *. unfold StringFile.Write, StringFile.wf in *.
  by rewrite in_range_int64 by lia.
Qed.
Next Obligation.
  intros f iovecs Hw Hn Hc. simpl in *. unfold StringFile.WriteIoVec.
  pose proof (StringFile.write_each_total f iovecs Hw) as Ht. unfold StringFile.wf in *.
  rewrite iovecs_fit_total in * by lia. destruct iovecs; [done|]. by apply Ht.
Qed.
Next Obligation.
  intros f Hw Hc. simpl in *. unfold StringFile.wf in *.
  rewrite (string_file_seek_to _ _ _ (StringFile.offset_ f)); [simpl; lia|by right|lia|lia].
Qed.
Next Obligation.
  intros f o Hw Hc. simpl in *.
  rewrite (string_file_seek_to _ _ _ 0); [simpl; lia|by left|lia|lia].
Qed.

#[global] Program Instance StringFile_reader_laws : FileReaderLaws StringFile.t := {
  reader_valid f := StringFile.wf f /\ Z.of_nat (length (StringFile.string_ f)) < 2 ^ 63;
  remaining f := drop (Z.to_nat (StringFile.offset_ f)) (StringFile.string_ f)
}.
Next Obligation.
  intros f n [Hw Hl]. simpl. unfold StringFile.Read, StringFile.wf in *.
  case_match eqn:E; [by eauto|]. apply Nat.leb_gt in E.
  assert (in_range int64_t (StringFile.offset_ f +
    Z.of_nat (Nat.min n (length (StringFile.string_ f) - Z.to_nat (StringFile.offset_ f)))) = true)
    as ->; [|by eauto].
  apply fits_signed_spec. simpl. lia.
Qed.
Next Obligation.
  intros f n d f' [Hw Hl] E. simpl in E. unfold StringFile.Read, StringFile.wf in *.
  repeat case_match; simplify_eq; simpl.
  { split_and!; [done..|]. simpl. lia. }
  match goal with H : (_ <=? _)%nat = false |- _ => apply Nat.leb_gt in H as Hlt end.
  split_and!; [lia|done| |].
  - rewrite Z2Nat.inj_add, Nat2Z.id by lia. unfold slice.
    rewrite <-drop_drop. symmetry. apply take_drop.
  - unfold slice. len_lia.
Qed.
Next Obligation.
  intros f n f' [Hw Hl] E Hn. simpl in E. unfold StringFile.Read, StringFile.wf in *.
  case_match eqn:Eb; [apply Nat.leb_le in Eb; by rewrite drop_ge by lia|].
  apply Nat.leb_gt in Eb. case_match; [done|]. injection E as E _.
  apply (f_equal length) in E. rewrite length_slice in E by lia. simpl in E. lia.
Qed.

(** ** Loops over partial transfers *)

Section ReadExactly.
  Context {R : Type} `{FileReaderInterface R}.

(** The loop of [ReadExactlyInternal::ReadExactly]: [remaining] bytes are still
    wanted, [buffer] is what is stored so far.  The outer [None] is out of fuel,
    the inner one the result [false]. *)
Fixpoint ReadExactly_loop (fuel : nat) (r : R) (want : nat) (buffer : bytes)
    : option (option (bytes * R)) :=
  match fuel with
  | O => None
  | S f =>
      if (want =? 0)%nat then Some (Some (buffer, r))
      else match Read r want with
           | None => Some None
           | Some ([], r') => Some (Some (buffer, r'))
           | Some (d, r') => ReadExactly_loop f r' (want - length d) (buffer ++ d)
           end
  end.

(** [ReadExactly], and [FileReaderInterface::ReadExactly], which calls it. *)
Definition ReadExactly (r : R) (size : nat) : option (option (bytes * R)) :=
  match ReadExactly_loop (S size) r size [] with
  | Some (Some (buffer, r')) =>
      if (length buffer =? size)%nat then Some (Some (buffer, r')) else Some None
  | x => x
  end.

(** [LoggingReadToEOF], with its buffer of 4096 bytes. *)
Fixpoint LoggingReadToEOF (fuel : nat) (r : R) (local_contents : bytes)
    : option (option (bytes * R)) :=
  match fuel with
  | O => None
  | S f =>
      match Read r 4096 with
      | None => Some None
      | Some ([], r') => Some (Some (local_contents, r'))
      | Some (d, r') => LoggingReadToEOF f r' (local_contents ++ d)
      end
  end.

  Context `{!FileReaderLaws R}.

Lemma read_exactly_loop_spec fuel r want buffer :
  reader_valid r -> (want < fuel)%nat ->
  exists r', ReadExactly_loop fuel r want buffer =
    Some (Some (buffer ++ take want (remaining r), r')) /\
    reader_valid r' /\ remaining r' = drop want (remaining r).
Proof.
  revert r want buffer; induction fuel as [|f IH]; intros r want buffer Hv Hf; [lia|].
  simpl. destruct (Nat.eqb_spec want 0) as [->|Hw].
  { exists r. by rewrite app_nil_r. }
  destruct (read_succeeds r want Hv) as (d & r' & E). rewrite E.
  destruct (read_prefix _ _ _ _ Hv E) as (Hv' & Hrem & Hlen).
  destruct d as [|b d].
  - pose proof (read_empty _ _ _ Hv E ltac:(lia)) as He. exists r'.
    rewrite He in *. rewrite take_nil, drop_nil, app_nil_r. by destruct (remaining r').
  - destruct (IH r' (want - length (b :: d))%nat (buffer ++ b :: d)) as (r2 & -> & Hv2 & Hr2);
      [done|simpl in *; lia|].
    exists r2. split_and!; [|done|].
    + do 3 f_equal. rewrite Hrem, <-app_assoc. f_equal. rewrite take_app_ge by lia. done.
    + rewrite Hr2, Hrem, drop_app_ge by lia. done.
Qed.

Lemma read_exactly_spec r size :
  reader_valid r ->
  (size <= length (remaining r) ->
   exists r', ReadExactly r size = Some (Some (take size (remaining r), r')) /\
     reader_valid r' /\ remaining r' = drop size (remaining r))%nat /\
  (length (remaining r) < size -> ReadExactly r size = Some None)%nat.
Proof.
  intros Hv. unfold ReadExactly.
  destruct (read_exactly_loop_spec (S size) r size [] Hv ltac:(lia)) as (r' & -> & Hv' & Hr').
  simpl. rewrite length_take. split; intros Hs.
  - rewrite Nat.min_l, Nat.eqb_refl by lia. by exists r'.
  - destruct (Nat.eqb_spec (Nat.min size (length (remaining r))) size); [lia|done].
Qed.

Lemma read_to_eof_spec fuel r acc :
  reader_valid r -> (length (remaining r) < fuel)%nat ->
  exists r', LoggingReadToEOF fuel r acc = Some (Some (acc ++ remaining r, r')) /\
    remaining r' = [].
Proof.
  revert r acc; induction fuel as [|f IH]; intros r acc Hv Hf; [lia|]. cbn [LoggingReadToEOF].
  destruct (read_succeeds r 4096 Hv) as (d & r' & E). rewrite E.
  destruct (read_prefix _ _ _ _ Hv E) as (Hv' & Hrem & Hlen).
  destruct d as [|b d].
  - pose proof (read_empty _ _ _ Hv E ltac:(lia)) as He. exists r'. rewrite He in *.
    rewrite app_nil_r. by destruct (remaining r').
  - destruct (IH r' (acc ++ b :: d)) as (r2 & -> & Hr2); [done| |].
    { apply (f_equal length) in Hrem. rewrite length_app in Hrem. simpl in Hrem. lia. }
    exists r2. split; [|done]. by rewrite Hrem, <-app_assoc.
Qed.

End ReadExactly.

(** For any reader that keeps the interface's promise, however short the
    reads it returns, [ReadExactly] ends and delivers exactly the next [size]
    bytes, leaving the reader after them, when there are that many, and fails
    when there are fewer. *)
Theorem read_exactly_reads_prefix `{FileReaderLaws R} (r : R) (size : nat) :
  reader_valid r ->
  (size <= length (remaining r) ->
   exists r', ReadExactly r size = Some (Some (take size (remaining r), r')) /\
     reader_valid r' /\ remaining r' = drop size (remaining r))%nat /\
  (length (remaining r) < size -> ReadExactly r size = Some None)%nat.
Proof. apply read_exactly_spec. Qed.

Lemma read_exactly_reads_prefix_witness :
  ReadExactly (StringFile.SetString (str "abc")) 4 = Some None.
Proof.
  apply (read_exactly_reads_prefix (StringFile.SetString (str "abc")) 4);
    [split; [unfold StringFile.wf; simpl; lia | reflexivity] | simpl; lia].
Defined.

(** The system's [writev], and the POSIX branch of
    [WeakFileHandleFileWriter::WriteIoVec] over it. *)
Section WriteIoVecPosix.
  Context {F : Type}.
  (** [writev(file_handle_, iov, n)]: [None] is an error, otherwise the number of
      bytes taken; the file is its state after the call. *)
  Variable writev : F -> list bytes -> option (nat * F).
  (** [IOV_MAX]. *)
  Variable kIovMax : nat.

(** The inner loop: skip [written] bytes of the vectors. *)
Fixpoint advance_iovecs (written : nat) (iov : list bytes) : list bytes :=
  match iov with
  | [] => []
  | v :: rest =>
      if (written =? 0)%nat then iov
      else
        let wrote_this_iovec := Nat.min written (length v) in
        if (wrote_this_iovec <? length v)%nat then drop wrote_this_iovec v :: rest
        else advance_iovecs (written - wrote_this_iovec) rest
  end.

(** The outer loop; [None] is out of fuel. *)
Fixpoint WriteIoVec_loop (fuel : nat) (f : F) (iov : list bytes) (size : nat)
    : option (bool * F) :=
  match fuel with
  | O => None
  | S fu =>
      if (size =? 0)%nat then Some (true, f)
      else
        match writev f (take (Nat.min (length iov) kIovMax) iov) with
        | None => Some (false, f)
        | Some (O, f') => Some (false, f')
        | Some (written, f') =>
            if (size - written =? 0)%nat then Some (true, f')
            else WriteIoVec_loop fu f' (advance_iovecs written iov) (size - written)
        end
  end.

(** [WriteIoVec], the POSIX branch. *)
Definition WriteIoVec_posix (f : F) (iovecs : list bytes) : option (bool * F) :=
  match iovecs with
  | [] => Some (false, f)
  | _ => let size := length (concat iovecs) in WriteIoVec_loop (S size) f iovecs size
  end.

  (** What has been written to the file. *)
  Variable output : F -> bytes.
  (** A successful [writev] takes a prefix of the vectors' bytes, in order. *)
  Hypothesis writev_prefix : forall f iov k f',
    writev f iov = Some (k, f') ->
    (k <= length (concat iov))%nat /\ output f' = output f ++ take k (concat iov).

Lemma advance_iovecs_concat k iov :
  (k <= length (concat iov))%nat -> concat (advance_iovecs k iov) = drop k (concat iov).
Proof.
  revert k; induction iov as [|v rest IH]; intros k Hk; simpl in *; [by rewrite drop_nil|].
  rewrite length_app in Hk. destruct (Nat.eqb_spec k 0) as [->|Hk0]; [done|].
  destruct (Nat.ltb_spec (Nat.min k (length v)) (length v)); simpl.
  - rewrite Nat.min_l by lia. by rewrite drop_app_le by lia.
  - rewrite IH by lia. rewrite drop_app_ge by lia. f_equal. lia.
Qed.

Lemma concat_take_prefix n (iov : list bytes) :
  exists r, concat iov = concat (take n iov) ++ r.
Proof.
  exists (concat (drop n iov)). rewrite <-concat_app. by rewrite take_drop.
Qed.

Lemma write_io_vec_loop_spec fuel f iov size :
  size = length (concat iov) -> (size < fuel)%nat ->
  exists ok f', WriteIoVec_loop fuel f iov size = Some (ok, f') /\
    (ok = true -> output f' = output f ++ concat iov).
Proof.
  revert f iov size; induction fuel as [|fu IH]; intros f iov size Hs Hf; [lia|].
  cbn [WriteIoVec_loop]. destruct (Nat.eqb_spec size 0) as [E0|E0].
  { exists true, f. split; [done|]. intros _. rewrite E0 in Hs. symmetry in Hs.
    apply nil_length_inv in Hs. by rewrite Hs, app_nil_r. }
  destruct (writev f _) as [[k f']|] eqn:E; [|by exists false, f].
  apply writev_prefix in E as [Hk Ho].
  destruct (concat_take_prefix (Nat.min (length iov) kIovMax) iov) as [r Hr].
  assert (take k (concat iov) = take k (concat (take (Nat.min (length iov) kIovMax) iov))) as Ht.
  { rewrite Hr. by rewrite take_app_le. }
  rewrite <-Ht in Ho. pose proof (f_equal length Hr) as Hlen. rewrite length_app in Hlen.
  destruct k as [|k]; [by exists false, f'|].
  destruct (Nat.eqb_spec (size - S k) 0) as [E1|E1].
  - exists true, f'. split; [done|]. intros _. rewrite Ho. f_equal. apply take_ge. lia.
  - destruct (IH f' (advance_iovecs (S k) iov) (size - S k)%nat) as (ok & f2 & -> & H2).
    { rewrite advance_iovecs_concat by lia. rewrite length_drop. lia. }
    { lia. }
    exists ok, f2. split; [done|]. intros Hok. rewrite (H2 Hok), Ho, <-app_assoc. f_equal.
    rewrite advance_iovecs_concat by lia. apply take_drop.
Qed.

End WriteIoVecPosix.

(** The POSIX [WriteIoVec] always ends, and when it reports success the
    file has received exactly the concatenation of the vectors, whatever short
    writes [writev] made and however many calls [IOV_MAX] forced. *)
Theorem write_io_vec_writes_all {F : Type} (writev : F -> list bytes -> option (nat * F))
    (kIovMax : nat) (output : F -> bytes) (f : F) (iovecs : list bytes) :
  (forall f iov k f', writev f iov = Some (k, f') ->
     (k <= length (concat iov))%nat /\ output f' = output f ++ take k (concat iov)) ->
  exists ok f', WriteIoVec_posix writev kIovMax f iovecs = Some (ok, f') /\
    (ok = true -> output f' = output f ++ concat iovecs).
Proof.
  intros Hw. unfold WriteIoVec_posix. destruct iovecs as [|v rest]; [by exists false, f|].
  apply (write_io_vec_loop_spec writev kIovMax output Hw); [done|lia].
Qed.

(** A [writev] that never takes more than three bytes of the first vectors. *)
Definition stingy_writev (f : bytes) (iov : list bytes) : option (nat * bytes) :=
  let k := Nat.min 3 (length (concat iov)) in Some (k, f ++ take k (concat iov)).

Lemma stingy_writev_prefix f iov k f' :
  stingy_writev f iov = Some (k, f') ->
  (k <= length (concat iov))%nat /\ f' = f ++ take k (concat iov).
Proof.
  unfold stingy_writev. pose proof (Nat.le_min_r 3 (length (concat iov))) as Hle.
  remember (Nat.min 3 (length (concat iov))) as m. by intros [= <- <-].
Qed.

Lemma write_io_vec_writes_all_witness :
  WriteIoVec_posix stingy_writev 2 (str "x") [str "abcd"; []; str "efghi"] =
    Some (true, str "xabcdefghi") /\
  exists ok f', WriteIoVec_posix stingy_writev 2 (str "x") [str "abcd"; []; str "efghi"]
                = Some (ok, f') /\
    (ok = true -> f' = str "x" ++ concat [str "abcd"; []; str "efghi"]).
Proof.
  split; [vm_compute; reflexivity|].
  apply (write_io_vec_writes_all stingy_writev 2 (fun f => f) (str "x")
           [str "abcd"; []; str "efghi"]).
  apply stingy_writev_prefix.
Defined.

(** [WriteAllInternal::WriteAll] over the system's [write]. *)
Section WriteAll.
  Context {F : Type}.
  (** [NativeWriteFile]: [None] is an error, otherwise the bytes taken. *)
  Variable native_write : F -> bytes -> option (nat * F).

(** [WriteAll]; the outer [None] is out of fuel. *)
Fixpoint WriteAll (fuel : nat) (f : F) (buffer : bytes) : option (bool * F) :=
  match fuel with
  | O => None
  | S fu =>
      match buffer with
      | [] => Some (true, f)
      | _ => match native_write f buffer with
             | None => Some (false, f)
             | Some (k, f') => WriteAll fu f' (drop k buffer)
             end
      end
  end.

  Variable output : F -> bytes.
  (** A successful [write] of a non-empty buffer takes a non-empty prefix. *)
  Hypothesis native_write_prefix : forall f d k f',
    native_write f d = Some (k, f') -> d <> [] ->
    (0 < k <= length d)%nat /\ output f' = output f ++ take k d.

Lemma write_all_spec fuel f buffer :
  (length buffer < fuel)%nat ->
  exists ok f', WriteAll fuel f buffer = Some (ok, f') /\
    (ok = true -> output f' = output f ++ buffer).
Proof.
  revert f buffer; induction fuel as [|fu IH]; intros f buffer Hf; [lia|].
  destruct buffer as [|b buffer]; simpl.
  { exists true, f. by rewrite app_nil_r. }
  destruct (native_write f (b :: buffer)) as [[k f']|] eqn:E; [|by exists false, f].
  apply native_write_prefix in E as [Hk Ho]; [|done].
  destruct (IH f' (drop k (b :: buffer))) as (ok & f2 & -> & H2).
  { rewrite length_drop. simpl in *. lia. }
  exists ok, f2. split; [done|]. intros Hok. rewrite (H2 Hok), Ho, <-app_assoc.
  by rewrite take_drop.
Qed.

End WriteAll.

(** ** DelimitedFileReader *)

Module DelimitedFileReader.

Section Reader.
  Context {R : Type} `{FileReaderInterface R}.

(** [buf_] holds its filled part, of [buf_len_] bytes. *)
Record t := Make { file_reader_ : R; buf_ : bytes; buf_pos_ : nat; eof_ : bool }.

(** The constructor. *)
Definition init (r : R) : t := Make r [] 0 false.

(** [Result], with the field of a success; [kFuel] is out of fuel. *)
Inductive result := kError | kSuccess (field : bytes) | kEndOfFile | kFuel.

(** The loop of [GetDelim]; the buffer has 4096 bytes. *)
Fixpoint GetDelim_loop (fuel : nat) (delimiter : Z) (st : t) (local_field : bytes)
    : result * t :=
  match fuel with
  | O => (kFuel, st)
  | S f =>
      let scan (st : t) :=
        let avail := drop (buf_pos_ st) (buf_ st) in
        match find_char delimiter avail with
        | Some i =>
            (kSuccess (local_field ++ take i avail ++ [delimiter]),
             Make (file_reader_ st) (buf_ st) (buf_pos_ st + i + 1) (eof_ st))
        | None =>
            GetDelim_loop f delimiter
              (Make (file_reader_ st) (buf_ st) (length (buf_ st)) (eof_ st))
              (local_field ++ avail)
        end in
      if (buf_pos_ st =? length (buf_ st))%nat then
        match Read (file_reader_ st) 4096 with
        | None => (kError, st)
        | Some ([], r') =>
            match local_field with
            | [] => (kEndOfFile, Make r' (buf_ st) (buf_pos_ st) (eof_ st))
            | _ => (kSuccess local_field, Make r' (buf_ st) (buf_pos_ st) true)
            end
        | Some (d, r') => scan (Make r' d 0 (eof_ st))
        end
      else scan st
  end.

(** [GetDelim]. *)
Definition GetDelim (fuel : nat) (delimiter : Z) (st : t) : result * t :=
  if eof_ st then (kEndOfFile, Make (file_reader_ st) (buf_ st) (buf_pos_ st) false)
  else GetDelim_loop fuel delimiter st [].

(** [GetLine]. *)
Definition GetLine (fuel : nat) (st : t) : result * t := GetDelim fuel 10 st.

  Context `{!FileReaderLaws R}.

(** The bytes not delivered yet: what is left of the buffer, then of the file. *)
Definition rest (st : t) : bytes := drop (buf_pos_ st) (buf_ st) ++ remaining (file_reader_ st).

(** The state's invariant: at a cached end of file, nothing is left. *)
Definition wf (st : t) : Prop :=
  reader_valid (file_reader_ st) /\ (buf_pos_ st <= length (buf_ st))%nat /\
  (eof_ st = true -> rest st = []).

(** The field at the front of [s]: up to and including the first delimiter. *)
Definition first_field (delimiter : Z) (s : bytes) : bytes :=
  match find_char delimiter s with
  | Some i => take (i + 1) s
  | None => s
  end.

Lemma find_char_app_l c s1 s2 i : find_char c s1 = Some i -> find_char c (s1 ++ s2) = Some i.
Proof.
  revert i; induction s1 as [|x s1 IH]; intros i; simpl; [done|].
  destruct (x =? c); [done|]. destruct (find_char c s1) as [j|]; simpl; [|done].
  intros [= <-]. by rewrite (IH j).
Qed.

Lemma find_char_app_r c s1 s2 :
  find_char c s1 = None -> find_char c (s1 ++ s2) = (fun i => length s1 + i)%nat <$> find_char c s2.
Proof.
  induction s1 as [|x s1 IH]; simpl; [by destruct (find_char c s2)|].
  destruct (x =? c); [done|]. destruct (find_char c s1); [done|].
  intros _. rewrite IH by done. by destruct (find_char c s2).
Qed.

Lemma first_field_prefix c s1 s2 :
  find_char c s1 = None -> first_field c (s1 ++ s2) = s1 ++ first_field c s2.
Proof.
  intros Hn. unfold first_field. rewrite find_char_app_r by done.
  destruct (find_char c s2) as [i|]; simpl; [|done].
  rewrite take_app_ge by lia. do 2 f_equal. lia.
Qed.

(** What [GetDelim] should return from unread bytes [s] after [local_field]. *)
Definition field_result (delimiter : Z) (local_field s : bytes) (res : result) (st' : t) : Prop :=
  wf st' /\
  match s, local_field with
  | [], [] => res = kEndOfFile /\ rest st' = [] /\ eof_ st' = false
  | _, _ => res = kSuccess (local_field ++ first_field delimiter s) /\
            rest st' = drop (length (first_field delimiter s)) s /\
            eof_ st' = match find_char delimiter s with Some _ => false | None => true end
  end.

Lemma take_succ_char c s i :
  find_char c s = Some i -> take (i + 1) s = take i s ++ [c].
Proof.
  revert i; induction s as [|x s IH]; intros i; simpl; [done|].
  destruct (Z.eqb_spec x c) as [->|]; [by intros [= <-]|].
  destruct (find_char c s) as [j|]; simpl; [|done]. intros [= <-]. simpl. by rewrite IH.
Qed.

Lemma find_char_lt c s i : find_char c s = Some i -> (i < length s)%nat.
Proof. intros E. pose proof (find_char_spec c s) as H1. rewrite E in H1. naive_solver. Qed.

(** One scan of the buffered bytes, given that the loop is right for less. *)
Lemma scan_spec fuel d st lf avail :
  (forall st lf, wf st -> eof_ st = false -> (length (rest st) < fuel)%nat ->
     exists res st', GetDelim_loop fuel d st lf = (res, st') /\
       field_result d lf (rest st) res st') ->
  wf st -> eof_ st = false -> (length (rest st) < S fuel)%nat ->
  avail = drop (buf_pos_ st) (buf_ st) -> avail <> [] ->
  exists res st',
    match find_char d avail with
    | Some i => (kSuccess (lf ++ take i avail ++ [d]),
                 Make (file_reader_ st) (buf_ st) (buf_pos_ st + i + 1) (eof_ st))
    | None => GetDelim_loop fuel d
                (Make (file_reader_ st) (buf_ st) (length (buf_ st)) (eof_ st)) (lf ++ avail)
    end = (res, st') /\ field_result d lf (rest st) res st'.
Proof.
  intros IH (Hv & Hp & He) Heof Hf Ea Hne.
  assert (rest st = avail ++ remaining (file_reader_ st)) as Hrest by (by subst avail).
  destruct (find_char d avail) as [i|] eqn:E.
  - pose proof (find_char_lt _ _ _ E) as Hi. pose proof (find_char_app_l d avail
      (remaining (file_reader_ st)) i E) as E'. rewrite <-Hrest in E'.
    assert (first_field d (rest st) = take i avail ++ [d]) as Hff.
    { unfold first_field. rewrite E', Hrest, take_app_le by lia. by apply take_succ_char. }
    do 2 eexists. split; [done|]. unfold field_result. rewrite Hff, E'.
    assert (length avail = length (buf_ st) - buf_pos_ st)%nat as Hla by (subst; len_lia).
    split.
    { unfold wf. simpl. split_and!; [done|lia|]. rewrite Heof. done. }
    destruct (rest st) as [|x r] eqn:Er.
    { symmetry in Hrest. by apply app_eq_nil in Hrest as [? _]. }
    split_and!; [done| |done].
    unfold rest. simpl. rewrite Hrest, length_app, length_take, Nat.min_l by lia. simpl.
    rewrite drop_app_le by lia. rewrite Ea, drop_drop. f_equal. f_equal. lia.
  - set (st1 := Make (file_reader_ st) (buf_ st) (length (buf_ st)) (eof_ st)).
    assert (rest st1 = remaining (file_reader_ st)) as Hr1.
    { unfold rest, st1. simpl. by rewrite drop_all. }
    destruct (IH st1 (lf ++ avail)) as (res & st' & -> & Hres).
    { unfold wf, st1. simpl. split_and!; [done|lia|]. by rewrite Heof. }
    { done. }
    { rewrite Hr1. rewrite Hrest, length_app in Hf. destruct avail; [done|]. simpl in Hf. lia. }
    do 2 eexists. split; [done|]. destruct Hres as [Hw Hres]. split; [done|].
    rewrite Hr1 in Hres. destruct (rest st) as [|x r] eqn:Er.
    { symmetry in Hrest. by apply app_eq_nil in Hrest as [? _]. }
    rewrite Hrest. rewrite first_field_prefix, find_char_app_r by done.
    destruct (lf ++ avail) as [|y l] eqn:El; [by apply app_eq_nil in El as [_ ?]|].
    assert (rest st' = drop (length (first_field d (remaining (file_reader_ st))))
              (remaining (file_reader_ st)) /\
            res = kSuccess ((lf ++ avail) ++ first_field d (remaining (file_reader_ st))) /\
            eof_ st' = match find_char d (remaining (file_reader_ st)) with
                       | Some _ => false | None => true end) as (H1 & H2 & H3).
    { rewrite El. destruct (remaining (file_reader_ st)); naive_solver. }
    split_and!.
    + by rewrite H2, <-app_assoc.
    + rewrite H1, length_app, drop_app_ge by lia. f_equal. lia.
    + rewrite H3. by destruct (find_char d (remaining _)).
Qed.

Lemma get_delim_loop_spec fuel d st lf :
  wf st -> eof_ st = false -> (length (rest st) < fuel)%nat ->
  exists res st', GetDelim_loop fuel d st lf = (res, st') /\
    field_result d lf (rest st) res st'.
Proof.
  revert st lf; induction fuel as [|f IH]; intros st lf Hwf Heof Hf; [lia|].
  cbn [GetDelim_loop]. destruct (Nat.eqb_spec (buf_pos_ st) (length (buf_ st))) as [Hb|Hb].
  - pose proof Hwf as (Hv & Hp & He).
    assert (rest st = remaining (file_reader_ st)) as Hrest.
    { unfold rest. by rewrite Hb, drop_all. }
    destruct (read_succeeds (file_reader_ st) 4096 Hv) as (b & r' & E). rewrite E.
    destruct (read_prefix _ _ _ _ Hv E) as (Hv' & Hrem & Hlen).
    destruct b as [|x b].
    + pose proof (read_empty _ _ _ Hv E ltac:(lia)) as Hem. simpl in Hrem.
      rewrite Hem in Hrest. unfold field_result. rewrite Hrest. simpl.
      destruct lf; do 2 eexists; (split; [done|]); unfold wf, rest; simpl;
        rewrite Hb, drop_all, <-Hrem, Hem, ?app_nil_r; naive_solver lia.
    + change (drop 0 (x :: b)) with (x :: b). cbn [buf_pos_ buf_ file_reader_ eof_].
      assert (rest st = rest (Make r' (x :: b) 0 (eof_ st))) as Hrest2.
      { unfold rest at 2. simpl. by rewrite Hrest. }
      rewrite Hrest2.
      apply (scan_spec f d (Make r' (x :: b) 0 (eof_ st)) lf (x :: b));
        [exact IH| |exact Heof|by rewrite <-Hrest2|done|done].
      unfold wf. simpl. split_and!; [done|lia|]. by rewrite Heof.
  - apply scan_spec; try done.
    intros Hd. apply (f_equal length) in Hd. rewrite length_drop in Hd. simpl in Hd.
    destruct Hwf as (_ & Hp & _). lia.
Qed.

End Reader.

End DelimitedFileReader.

(** For any reader that keeps the interface's promise, and however the
    file is cut into buffers, [GetDelim] ends with enough fuel and returns
    exactly the next field: the unread bytes up to and including the first
    delimiter, or all of them when there is none, in which case the following
    call reports the end of the file; nothing is skipped and nothing is
    delivered twice. *)
Theorem get_delim_next_field `{FileReaderLaws R} (fuel : nat) (d : Z)
    (st : DelimitedFileReader.t (R := R)) :
  DelimitedFileReader.wf st -> (length (DelimitedFileReader.rest st) < fuel)%nat ->
  exists res st', DelimitedFileReader.GetDelim fuel d st = (res, st') /\
    DelimitedFileReader.wf st' /\
    if DelimitedFileReader.eof_ st then
      res = DelimitedFileReader.kEndOfFile /\ DelimitedFileReader.rest st' = [] /\
      DelimitedFileReader.eof_ st' = false
    else DelimitedFileReader.field_result d [] (DelimitedFileReader.rest st) res st'.
Proof.
  intros Hwf Hf. unfold DelimitedFileReader.GetDelim.
  destruct (DelimitedFileReader.eof_ st) eqn:E.
  - do 2 eexists. split; [done|]. destruct Hwf as (Hv & Hp & He).
    unfold DelimitedFileReader.wf, DelimitedFileReader.rest in *. simpl. rewrite He by done.
    naive_solver.
  - destruct (DelimitedFileReader.get_delim_loop_spec fuel d st [] Hwf E Hf)
      as (res & st' & H1 & H2).
    exists res, st'. split_and!; [done|apply H2|done].
Qed.

Lemma get_delim_next_field_witness :
  exists res st',
    DelimitedFileReader.GetDelim 8 45
      (DelimitedFileReader.init (StringFile.SetString (str "ab-cd"))) = (res, st') /\
    DelimitedFileReader.wf st' /\
    DelimitedFileReader.field_result 45 []
      (DelimitedFileReader.rest
         (DelimitedFileReader.init (StringFile.SetString (str "ab-cd")))) res st'.
Proof.
  apply (get_delim_next_field 8 45
           (DelimitedFileReader.init (StringFile.SetString (str "ab-cd")))).
  - split_and!; [|simpl; lia|done]. split; [unfold StringFile.wf; simpl; lia|reflexivity].
  - simpl. lia.
Defined.
