(* ===== verification/Uuid.v ===== *)
(** * UUIDs (util/misc/uuid.cc)

    The class [UUID] with its initializations from bytes, from a string (through
    the C library's [sscanf]) and from random bytes, and its rendering. *)

From S2P Require Import Prelude.
From S2P Require Import Strings.

(** ** The class *)

Record UUID := MkUUID {
  data_1 : Z;
  data_2 : Z;
  data_3 : Z;
  data_4 : Z * Z;
  data_5 : Z * Z * Z * Z * Z * Z
}.

#[export] Instance UUID_eq_dec : EqDecision UUID.
Proof. solve_decision. Defined.

(** The fields are in the range of their types. *)
Definition uuid_wf (u : UUID) : Prop :=
  let '(a, b) := data_4 u in
  let '(c, d, e, f, g, h) := data_5 u in
  0 <= data_1 u < 2 ^ 32 /\ 0 <= data_2 u < 2 ^ 16 /\ 0 <= data_3 u < 2 ^ 16 /\
  Forall is_byte [a; b; c; d; e; f; g; h].

(** The object representation, on a little-endian machine. *)
Definition uuid_bytes (u : UUID) : bytes :=
  let '(a, b) := data_4 u in
  let '(c, d, e, f, g, h) := data_5 u in
  le_bytes 4 (data_1 u) ++ le_bytes 2 (data_2 u) ++ le_bytes 2 (data_3 u) ++
  le_bytes 1 a ++ le_bytes 1 b ++ le_bytes 1 c ++ le_bytes 1 d ++ le_bytes 1 e ++
  le_bytes 1 f ++ le_bytes 1 g ++ le_bytes 1 h.

(** The object with a given representation ([memcpy] into the object). *)
Definition uuid_of_bytes (l : bytes) : UUID :=
  let b i := nth i l 0 in
  MkUUID (le_value (slice 0 4 l)) (le_value (slice 4 2 l)) (le_value (slice 6 2 l))
    (b 8%nat, b 9%nat) (b 10%nat, b 11%nat, b 12%nat, b 13%nat, b 14%nat, b 15%nat).

(** [UUID::operator==]: [memcmp] of the representations. *)
Definition uuid_eqb (u v : UUID) : bool := bool_decide (uuid_bytes u = uuid_bytes v).

(** [InitializeToZero]. *)
Definition InitializeToZero : UUID := uuid_of_bytes (replicate 16 0).

(** [base::NetToHost32] and [base::NetToHost16]. *)
Definition NetToHost (n : nat) (z : Z) : Z := le_value (rev (le_bytes n z)).

(** [InitializeFromBytes], for a buffer of 16 bytes. *)
Definition InitializeFromBytes (b : bytes) : UUID :=
  let u := uuid_of_bytes b in
  MkUUID (NetToHost 4 (data_1 u)) (NetToHost 2 (data_2 u)) (NetToHost 2 (data_3 u))
    (data_4 u) (data_5 u).

(** The pseudo-random branch of [InitializeWithNew], for the bytes that
    [base::RandBytes] has stored. *)
Definition InitializeWithNew (random : bytes) : UUID :=
  let u := uuid_of_bytes random in
  MkUUID (data_1 u) (data_2 u)
    (Z.lor (Z.shiftl 4 12) (Z.land (data_3 u) 4095))
    (Z.lor 128 (Z.land (fst (data_4 u)) 63), snd (data_4 u)) (data_5 u).

(** ** Scanning and printing hexadecimal fields *)

(** The conversion [%0Nx] of [sscanf] into an unsigned object of [bits] bits:
    white space, then at most [width] characters of a sign, a [0x] prefix and
    digits.  [None] is a matching failure. *)
Definition scan_hex (width : nat) (bits : Z) (s : bytes) : option (Z * bytes) :=
  let s1 := drop (leading_spaces s) s in
  let item := take width s1 in
  let '(neg, sg) := match item with
                    | c :: _ => if c =? 45 then (true, 1%nat)
                                else if c =? 43 then (false, 1%nat) else (false, 0%nat)
                    | [] => (false, 0%nat)
                    end in
  let pfx := match drop sg item with
             | z :: x :: _ => if (z =? 48) && ((x =? 120) || (x =? 88)) then 2%nat else 0%nat
             | _ => 0%nat
             end in
  let '(v, n) := scan_digits 16 0 0 (drop (sg + pfx) item) in
  if (n =? 0)%nat then None
  else Some (wrap bits (if (neg : bool) then - v else v), drop (sg + pfx + n) s1).

(** The literal [-] of the format. *)
Definition scan_dash (s : bytes) : option bytes :=
  match s with c :: s' => if c =? 45 then Some s' else None | [] => None end.

(** [kScanFormat]: each conversion is preceded by the literal in front of it. *)
Definition scan_format : list (bool * nat * Z) :=
  [(false, 8%nat, 32); (true, 4%nat, 16); (true, 4%nat, 16); (true, 2%nat, 8); (false, 2%nat, 8);
   (true, 2%nat, 8); (false, 2%nat, 8); (false, 2%nat, 8); (false, 2%nat, 8); (false, 2%nat, 8);
   (false, 2%nat, 8)].

(** [sscanf]: the values converted before the first failure. *)
Fixpoint scan (format : list (bool * nat * Z)) (s : bytes) : list Z :=
  match format with
  | [] => []
  | (dash, width, bits) :: format' =>
      match (if dash : bool then scan_dash s else Some s) with
      | None => []
      | Some s1 =>
          match scan_hex width bits s1 with
          | None => []
          | Some (v, s2) => v :: scan format' s2
          end
      end
  end.

(** [InitializeFromString]: [None] leaves the object untouched. *)
Definition InitializeFromString (s : bytes) : option UUID :=
  if negb (length s =? 36)%nat then None
  else match scan scan_format s with
       | [d1; d2; d3; a; b; c; d; e; f; g; h] => Some (MkUUID d1 d2 d3 (a, b) (c, d, e, f, g, h))
       | _ => None
       end.

(** [%0Nx] of [printf], for a value of at most [n] digits. *)
Fixpoint hex_digits (n : nat) (z : Z) : bytes :=
  match n with
  | O => []
  | S n' => hex_digits n' (z / 16) ++ [digit_char (z mod 16)]
  end.

(** [ToString]. *)
Definition ToString (u : UUID) : bytes :=
  let '(a, b) := data_4 u in
  let '(c, d, e, f, g, h) := data_5 u in
  hex_digits 8 (data_1 u) ++ 45 :: hex_digits 4 (data_2 u) ++ 45 :: hex_digits 4 (data_3 u) ++
  45 :: hex_digits 2 a ++ hex_digits 2 b ++ 45 :: hex_digits 2 c ++ hex_digits 2 d ++
  hex_digits 2 e ++ hex_digits 2 f ++ hex_digits 2 g ++ hex_digits 2 h.

(** ** The round trip *)

Lemma length_hex_digits n z : length (hex_digits n z) = n.
Proof. revert z; induction n; intros; simpl; [done|]. rewrite length_app, IHn. simpl. lia. Qed.

Lemma hex_digits_digits n z : Forall (fun c => is_digit_in 16 c = true) (hex_digits n z).
Proof.
  revert z; induction n as [|n IH]; intros z; simpl; [done|]. apply Forall_app_2; [apply IH|].
  pose proof (Z.mod_pos_bound z 16). constructor; [|done]. unfold is_digit_in.
  rewrite digit_char_value by lia. apply Z.ltb_lt. lia.
Qed.

Lemma hex_digits_value n z a :
  0 <= z < 16 ^ Z.of_nat n -> digits_value 16 a (hex_digits n z) = a * 16 ^ Z.of_nat n + z.
Proof.
  revert z a; induction n as [|n IH]; intros z a Hz; cbn [hex_digits].
  { unfold digits_value. simpl. change (16 ^ Z.of_nat 0) with 1 in *. lia. }
  rewrite Nat2Z.inj_succ, Z.pow_succ_r in * by lia. rewrite digits_value_app, IH.
  - unfold digits_value. simpl. pose proof (Z.mod_pos_bound z 16).
    rewrite digit_char_value by lia. simpl. pose proof (Z.div_mod z 16). lia.
  - split; [apply Z.div_pos; lia|apply Z.div_lt_upper_bound; lia].
Qed.

Lemma is_digit_16_chars c :
  is_digit_in 16 c = true ->
  isspace c = false /\ (c =? 45) = false /\ (c =? 43) = false /\ (c =? 120) = false /\
  (c =? 88) = false.
Proof.
  unfold is_digit_in, digit_value, isspace, isdigit.
  repeat break_if; intros; bool_to_prop; try done; split_and!;
    try (apply Z.eqb_neq; lia); apply orb_false_iff; (split; [apply Z.eqb_neq; lia|]);
    apply andb_false_iff; right; apply Z.leb_gt; lia.
Qed.

Lemma scan_hex_digits n bits z rest :
  (0 < n)%nat -> 0 <= z < 16 ^ Z.of_nat n -> 16 ^ Z.of_nat n <= 2 ^ bits ->
  scan_hex n bits (hex_digits n z ++ rest) = Some (z, rest).
Proof.
  intros Hn Hz Hb. pose proof (length_hex_digits n z) as Hl.
  pose proof (hex_digits_digits n z) as Hd. pose proof (hex_digits_value n z 0 Hz) as Hv.
  unfold scan_hex. set (h := hex_digits n z) in *. destruct h as [|c h]; [simpl in Hl; lia|].
  assert (leading_spaces ((c :: h) ++ rest) = 0%nat) as ->.
  { apply Forall_cons in Hd as [(E & _)%is_digit_16_chars _]. simpl. by rewrite E. }
  rewrite drop_0, take_app_length' by done.
  assert ((match (c :: h) with
           | c :: _ => if c =? 45 then (true, 1%nat)
                       else if c =? 43 then (false, 1%nat) else (false, 0%nat)
           | [] => (false, 0%nat) end) = (false, 0%nat)) as ->.
  { apply Forall_cons in Hd as [(_ & -> & -> & _)%is_digit_16_chars _]. done. }
  rewrite drop_0.
  assert ((match (c :: h) with
             | z :: x :: _ => if (z =? 48) && ((x =? 120) || (x =? 88)) then 2%nat else 0%nat
             | _ => 0%nat
             end) = 0%nat) as ->.
  { destruct h as [|x h]; [done|].
    apply Forall_cons in Hd as [_ [(_ & _ & _ & -> & ->)%is_digit_16_chars _]%Forall_cons].
    by rewrite andb_false_r. }
  change (0 + 0)%nat with 0%nat. rewrite drop_0, scan_digits_all by done. rewrite Hv.
  rewrite Hl. destruct (Nat.eqb_spec (0 + n) 0); [lia|].
  rewrite Z.mul_0_l, Z.add_0_l, wrap_small by lia.
  by rewrite drop_app_length' by (rewrite Hl; done).
Qed.

Lemma length_to_string u : length (ToString u) = 36%nat.
Proof.
  unfold ToString. destruct (data_4 u) as [a b], (data_5 u) as [[[[[c d] e] f] g] h].
  rewrite !length_app, !length_cons, !length_app, !length_cons, !length_app, !length_cons, !length_app,
    !length_cons, !length_app, !length_hex_digits. done.
Qed.

(** The characters of a UUID. *)
Definition uuid_char (c : Z) : bool := is_digit_in 16 c || (c =? 45).

Lemma to_string_chars u : Forall (fun c => uuid_char c = true) (ToString u).
Proof.
  assert (forall n z, Forall (fun c => uuid_char c = true) (hex_digits n z)) as Hd.
  { intros n z. eapply Forall_impl; [apply hex_digits_digits|]. intros c Hc. cbn beta in Hc.
    unfold uuid_char. by rewrite Hc. }
  unfold ToString. destruct (data_4 u) as [a b], (data_5 u) as [[[[[c d] e] f] g] h].
  repeat first [apply Hd | reflexivity | apply Forall_app_2 | apply Forall_cons_2].
Qed.

Lemma initialize_from_to_string u : uuid_wf u -> InitializeFromString (ToString u) = Some u.
Proof.
  destruct u as [d1 d2 d3 [a b] [[[[[c d] e] f] g] h]]. unfold uuid_wf. simpl data_1.
  simpl data_2. simpl data_3. simpl data_4. simpl data_5. cbv beta iota.
  intros (H1 & H2 & H3 & Hb). rewrite !Forall_cons in Hb. unfold is_byte in Hb.
  unfold InitializeFromString. rewrite length_to_string.
  cbn [negb Nat.eqb]. unfold ToString, scan_format. simpl data_1. simpl data_2. simpl data_3.
  simpl data_4. simpl data_5. cbv beta iota.
  rewrite <-(app_nil_r (hex_digits 2 h)). cbn [scan].
  repeat (rewrite scan_hex_digits by (try done; try lia); cbn [scan_dash]; rewrite ?Z.eqb_refl).
  done.
Qed.

(** A UUID printed with [ToString] has 36 characters, which are hexadecimal digits
    and dashes (so that it may be a file name), and [InitializeFromString] reads every
    field of it back. *)
Theorem uuid_string_roundtrip (u : UUID) :
  uuid_wf u ->
  length (ToString u) = 36%nat /\ Forall (fun c => uuid_char c = true) (ToString u) /\
  InitializeFromString (ToString u) = Some u.
Proof. intros Hu. split_and!; [apply length_to_string|apply to_string_chars|by apply initialize_from_to_string]. Qed.

Lemma uuid_string_roundtrip_witness :
  InitializeFromString (str "00112233-4455-6677-8899-aabbccddeeff") =
  Some (MkUUID 1122867 17493 26231 (136, 153) (170, 187, 204, 221, 238, 255)).
Proof.
  apply (uuid_string_roundtrip
    (MkUUID 1122867 17493 26231 (136, 153) (170, 187, 204, 221, 238, 255))).
  vm_compute. repeat split; try congruence. repeat constructor; vm_compute; congruence.
Defined.

Lemma length_uuid_bytes u : length (uuid_bytes u) = 16%nat.
Proof.
  unfold uuid_bytes. destruct (data_4 u) as [a b], (data_5 u) as [[[[[c d] e] f] g] h].
  by rewrite !length_app, !length_le_bytes.
Qed.

Lemma uuid_representation u : uuid_wf u -> uuid_of_bytes (uuid_bytes u) = u.
Proof.
  destruct u as [d1 d2 d3 [a b] [[[[[c d] e] f] g] h]]. intros (H1 & H2 & H3 & H4).
  cbn [data_1 data_2 data_3] in H1, H2, H3.
  repeat match goal with H : Forall is_byte (_ :: _) |- _ => apply Forall_cons in H as [? H] end.
  unfold is_byte in *.
  change (uuid_of_bytes _) with (MkUUID (le_value (le_bytes 4 d1)) (le_value (le_bytes 2 d2))
    (le_value (le_bytes 2 d3)) (a mod 256, b mod 256)
    (c mod 256, d mod 256, e mod 256, f mod 256, g mod 256, h mod 256)).
  rewrite !le_value_bytes_small by done. by rewrite !Z.mod_small by lia.
Qed.
