(* ===== verification/MemoryRanges.v ===== *)
(** * Memory snapshots and their coalescing

    [DetermineMergedRange] (snapshot/memory_snapshot.cc), the merge of
    [MemorySnapshotGeneric] (snapshot/memory_snapshot_generic.h), and the
    selection of the memory a minidump holds: the methods
    [DropRangesThatOverlapNonOwned] and [CoalesceOwnedMemory] of
    [MinidumpMemoryListWriter] (minidump/minidump_memory_writer.cc). *)

From S2P Require Import Prelude.
From S2P Require Import Numeric.

(** [MemorySnapshotGeneric]: [address_] and [size_]; all the snapshots are of one
    process. *)
Record MemorySnapshot := MkMemorySnapshot { mem_address : Z; mem_size : Z }.

#[export] Instance MemorySnapshot_eq_dec : EqDecision MemorySnapshot.
Proof. solve_decision. Defined.

(** [CheckedRange<uint64_t, size_t>(a->Address(), a->Size())]. *)
Definition range_of (a : MemorySnapshot) : CheckedRange.t :=
  CheckedRange.Make (mem_address a) (mem_size a).

(** [DetermineMergedRangeImpl]: the merged range, or [None] for [false]. *)
Definition DetermineMergedRange (a b : MemorySnapshot) : option CheckedRange.t :=
  if mem_size a =? 0 then None
  else if mem_size b =? 0 then None
  else
    let range_a := range_of a in
    let range_b := range_of b in
    if negb (CheckedRange.IsValid uint64_t range_a) then None
    else if negb (CheckedRange.IsValid uint64_t range_b) then None
    else
      let end_a := CheckedRange.end_ uint64_t range_a in
      let end_b := CheckedRange.end_ uint64_t range_b in
      if negb (CheckedRange.OverlapsRange uint64_t range_a range_b) &&
         negb (end_a =? CheckedRange.base range_b) && negb (end_b =? CheckedRange.base range_a)
      then None
      else
        let base := Z.min (CheckedRange.base range_a) (CheckedRange.base range_b) in
        let end_ := Z.max end_a end_b in
        Some (CheckedRange.Make base (u64 (end_ - base))).

(** [MemorySnapshotGeneric::MergeWithOtherSnapshot]: [None] is a null pointer. *)
Definition MergeWithOtherSnapshot (this other : MemorySnapshot) : option MemorySnapshot :=
  match DetermineMergedRange this other with
  | None => None
  | Some merged => Some (MkMemorySnapshot (CheckedRange.base merged) (CheckedRange.size merged))
  end.

(** [DropRangesThatOverlapNonOwned]: the children that are kept. *)
Definition DropRangesThatOverlapNonOwned (non_owned children : list MemorySnapshot)
    : list MemorySnapshot :=
  List.filter (fun child =>
    negb (existsb (fun n => match DetermineMergedRange child n with Some _ => true | None => false end)
            non_owned)) children.

(** The order of the [std::sort] in [CoalesceOwnedMemory], as [<=]. *)
Definition snapshot_le (a b : MemorySnapshot) : Prop :=
  mem_address a < mem_address b \/ (mem_address a = mem_address b /\ mem_size a <= mem_size b).
#[export] Instance snapshot_le_dec a b : Decision (snapshot_le a b).
Proof. unfold snapshot_le. apply _. Defined.
#[export] Instance snapshot_le_total : Total snapshot_le.
Proof. intros a b. unfold snapshot_le. lia. Qed.
#[export] Instance snapshot_le_trans : Transitive snapshot_le.
Proof. intros a b c. unfold snapshot_le. lia. Qed.

(** The merging loop of [CoalesceOwnedMemory]; [top] is the last element of
    [all_merged].  [None]: a null snapshot was stored. *)
Fixpoint coalesce (top : MemorySnapshot) (children : list MemorySnapshot)
    : option (list MemorySnapshot) :=
  match children with
  | [] => Some [top]
  | child :: rest =>
      match DetermineMergedRange child top with
      | None =>
          match coalesce child rest with Some l => Some (top :: l) | None => None end
      | Some _ =>
          match MergeWithOtherSnapshot top child with
          | None => None
          | Some merged => coalesce merged rest
          end
      end
  end.

(** [CoalesceOwnedMemory]: the new [children_]; [None] is undefined behaviour
    ([front()] of an empty vector, or a null snapshot). *)
Definition CoalesceOwnedMemory (non_owned children : list MemorySnapshot)
    : option (list MemorySnapshot) :=
  let children_ := DropRangesThatOverlapNonOwned non_owned children in
  match children_ with
  | [] => Some []
  | _ =>
      let sorted := merge_sort snapshot_le children_ in
      match List.filter (fun s => negb (mem_size s =? 0)) sorted with
      | [] => None
      | first :: rest => coalesce first rest
      end
  end.

(** ** Properties *)

(** A snapshot whose range does not wrap around. *)
Definition snapshot_ok (a : MemorySnapshot) : Prop :=
  0 <= mem_address a /\ 0 <= mem_size a /\ mem_address a + mem_size a < 2 ^ 64.

(** The addresses of a snapshot, and of a list of them. *)
Definition covers (a : MemorySnapshot) (v : Z) : Prop :=
  mem_address a <= v < mem_address a + mem_size a.
Definition covered (l : list MemorySnapshot) (v : Z) : Prop := exists a, a ∈ l /\ covers a v.

(** Two non-empty ranges that overlap or abut. *)
Definition touching (a b : MemorySnapshot) : Prop :=
  0 < mem_size a /\ 0 < mem_size b /\
  mem_address a <= mem_address b + mem_size b /\ mem_address b <= mem_address a + mem_size a.

Lemma range_valid a : snapshot_ok a -> CheckedRange.IsValid uint64_t (range_of a) = true.
Proof.
  intros (? & ? & ?). apply CheckedRange.valid_spec; [done|].
  split; apply fits_spec; simpl; lia.
Qed.

Lemma merged_spec a b :
  snapshot_ok a -> snapshot_ok b ->
  (touching a b /\ exists m, DetermineMergedRange a b = Some m /\
     CheckedRange.base m = Z.min (mem_address a) (mem_address b) /\
     CheckedRange.size m =
       Z.max (mem_address a + mem_size a) (mem_address b + mem_size b) - CheckedRange.base m) \/
  (~ touching a b /\ DetermineMergedRange a b = None).
Proof.
  intros Ha Hb. pose proof (range_valid a Ha) as Va. pose proof (range_valid b Hb) as Vb.
  destruct Ha as (A1 & A2 & A3), Hb as (B1 & B2 & B3).
  unfold DetermineMergedRange, touching.
  destruct (Z.eqb_spec (mem_size a) 0); [right; split; [lia|done]|].
  destruct (Z.eqb_spec (mem_size b) 0); [right; split; [lia|done]|].
  rewrite Va, Vb. cbn [negb].
  rewrite (CheckedRange.end_valid uint64_t ltac:(done) _ Va), (CheckedRange.end_valid uint64_t ltac:(done) _ Vb).
  unfold CheckedRange.OverlapsRange.
  rewrite (CheckedRange.end_valid uint64_t ltac:(done) _ Va), (CheckedRange.end_valid uint64_t ltac:(done) _ Vb).
  simpl. destruct (Z.eqb_spec (mem_size a) 0); [lia|]. destruct (Z.eqb_spec (mem_size b) 0); [lia|].
  cbn [orb].
  destruct (Z.ltb_spec (mem_address a) (mem_address b + mem_size b)),
    (Z.ltb_spec (mem_address b) (mem_address a + mem_size a)),
    (Z.eqb_spec (mem_address a + mem_size a) (mem_address b)),
    (Z.eqb_spec (mem_address b + mem_size b) (mem_address a)); cbn [andb negb];
    try lia; try (right; split; [lia|done]);
    left; (split; [lia|]); (eexists; split; [done|]); simpl; rewrite wrap_small; lia.
Qed.

Lemma determine_sym_None a b :
  snapshot_ok a -> snapshot_ok b -> DetermineMergedRange a b = None -> ~ touching b a.
Proof.
  intros Ha Hb E. destruct (merged_spec a b Ha Hb) as [(_ & m & E' & _)|[Hn _]]; [congruence|].
  unfold touching in *. lia.
Qed.

Lemma merge_spec a b :
  snapshot_ok a -> snapshot_ok b -> touching a b ->
  exists m, MergeWithOtherSnapshot a b = Some m /\ snapshot_ok m /\ 0 < mem_size m /\
    (forall v, covers m v <-> covers a v \/ covers b v) /\
    mem_address m = Z.min (mem_address a) (mem_address b).
Proof.
  intros Ha Hb Ht. destruct (merged_spec a b Ha Hb) as [(_ & m & E & Eb & Es)|[Hn _]]; [|done].
  unfold MergeWithOtherSnapshot. rewrite E. eexists. split; [done|].
  unfold snapshot_ok, covers, touching in *. simpl. rewrite Es, Eb.
  split_and!; lia.
Qed.

(** Ranges in increasing order with a gap between each and the next. *)
Fixpoint separated (l : list MemorySnapshot) : Prop :=
  match l with
  | [] => True
  | a :: l' =>
      match l' with
      | [] => True
      | b :: _ => mem_address a + mem_size a < mem_address b
      end /\ separated l'
  end.

Lemma coalesce_spec top children :
  snapshot_ok top -> 0 < mem_size top ->
  Forall (fun c => snapshot_ok c /\ 0 < mem_size c /\ mem_address top <= mem_address c) children ->
  StronglySorted snapshot_le children ->
  exists l, coalesce top children = Some l /\ separated l /\
    Forall (fun c => snapshot_ok c /\ 0 < mem_size c /\ mem_address top <= mem_address c) l /\
    (exists a l', l = a :: l' /\ mem_address a = mem_address top) /\
    (forall v, covered l v <-> covers top v \/ covered children v).
Proof.
  intros Ht Hs. revert top Ht Hs. induction children as [|c rest IH]; intros top Ht Hs Hc Hso.
  { exists [top]. split_and!; [done|done|by apply Forall_singleton; split_and!|eauto|].
    intros v. unfold covered. set_solver. }
  apply Forall_cons in Hc as [(Hco & Hcs & Hca) Hrest].
  apply StronglySorted_inv in Hso as [Hso Hle]. cbn [coalesce].
  assert (Forall (fun c' => mem_address c <= mem_address c') rest) as Hle'.
  { eapply Forall_impl; [exact Hle|]. unfold snapshot_le. simpl. lia. }
  destruct (DetermineMergedRange c top) eqn:E.
  - assert (touching top c) as Htc.
    { destruct (merged_spec c top Hco Ht) as [[H _]|[_ E']]; [|congruence].
      unfold touching in *. lia. }
    destruct (merge_spec top c Ht Hco Htc) as (m & -> & Hm & Hms & Hcov & Hma).
    destruct (IH m Hm Hms) as (l & El & Hsep & Hall & (a & l' & -> & Ea) & Hcv).
    { rewrite Forall_forall in *. intros x Hx. destruct (Hrest x Hx) as (? & ? & ?).
      split_and!; [done..|lia]. }
    { done. }
    exists (a :: l'). split_and!; [done..| | |].
    + eapply Forall_impl; [exact Hall|]. simpl. intros x (? & ? & ?). split_and!; [done..|lia].
    + exists a, l'. split; [done|lia].
    + intros v. rewrite Hcv, Hcov. unfold covered. set_solver.
  - pose proof (determine_sym_None c top Hco Ht E) as Hn. unfold touching in Hn.
    destruct (IH c Hco Hcs) as (l & El & Hsep & Hall & (a & l' & -> & Ea) & Hcv).
    { rewrite Forall_forall in *. intros x Hx. destruct (Hrest x Hx) as (? & ? & ?).
      specialize (Hle' x Hx). simpl in *. split_and!; [done..|lia]. }
    { done. }
    rewrite El. exists (top :: a :: l'). split_and!; [done| | | |].
    + simpl. split; [lia|done].
    + constructor; [split_and!; try done; lia|]. eapply Forall_impl; [exact Hall|].
      simpl. intros x (? & ? & ?). split_and!; [done..|lia].
    + eauto.
    + intros v. transitivity (covers top v \/ covered (a :: l') v); [unfold covered; set_solver|].
      rewrite Hcv. unfold covered. set_solver.
Qed.

Lemma coalesce_ok top children l :
  snapshot_ok top -> Forall snapshot_ok children -> coalesce top children = Some l ->
  Forall snapshot_ok l.
Proof.
  intros Ht Hc. revert top l Ht. induction Hc as [|c rest Hc _ IH]; intros top l Ht; simpl.
  { intros [= <-]. by apply Forall_singleton. }
  destruct (DetermineMergedRange c top).
  - unfold MergeWithOtherSnapshot. destruct (merged_spec top c Ht Hc) as [(Htc & m & E & _)|[_ E]].
    + destruct (merge_spec top c Ht Hc Htc) as (m' & E' & Hm & _).
      unfold MergeWithOtherSnapshot in E'. rewrite E'. by apply IH.
    + by rewrite E.
  - destruct (coalesce c rest) as [l'|] eqn:E; [|done]. intros [= <-]. constructor; [done|].
    by apply (IH c).
Qed.

Lemma coalesce_owned_ok non_owned children l :
  Forall snapshot_ok children -> CoalesceOwnedMemory non_owned children = Some l ->
  Forall snapshot_ok l.
Proof.
  intros Hc. unfold CoalesceOwnedMemory.
  assert (Forall snapshot_ok (DropRangesThatOverlapNonOwned non_owned children)) as Hk.
  { rewrite Forall_forall in *. intros c Hin. apply Hc.
    unfold DropRangesThatOverlapNonOwned in Hin. rewrite list_elem_of_In, filter_In in Hin.
    apply list_elem_of_In, Hin. }
  destruct (DropRangesThatOverlapNonOwned non_owned children) as [|k ks]; [by intros [= <-]|].
  assert (Forall snapshot_ok (List.filter (fun s => negb (mem_size s =? 0))
    (merge_sort snapshot_le (k :: ks)))) as Hf.
  { rewrite Forall_forall in *. intros c Hin. apply Hk.
    rewrite list_elem_of_In, filter_In, <-list_elem_of_In in Hin. destruct Hin as [Hin _].
    by rewrite merge_sort_Permutation in Hin. }
  destruct (List.filter _ _) as [|f r]; [done|]. apply Forall_cons in Hf as [Hf Hr].
  by apply coalesce_ok.
Qed.

Lemma drop_spec non_owned children c :
  Forall snapshot_ok non_owned -> snapshot_ok c -> 
  c ∈ DropRangesThatOverlapNonOwned non_owned children <->
  c ∈ children /\ Forall (fun n => ~ touching c n) non_owned.
Proof.
  intros Hn Hc. unfold DropRangesThatOverlapNonOwned. rewrite !list_elem_of_In, filter_In.
  assert (negb (existsb (fun n => match DetermineMergedRange c n with Some _ => true | None => false end)
            non_owned) = true <-> Forall (fun n => ~ touching c n) non_owned) as ->; [|done].
  rewrite negb_true_iff. induction Hn as [|n l Hn' _ IH]; simpl; [by split|].
  rewrite orb_false_iff, IH, Forall_cons.
  destruct (merged_spec c n Hc Hn') as [(Ht & m & -> & _)|[Ht ->]]; naive_solver.
Qed.

Lemma kept_spec non_owned children :
  Forall snapshot_ok non_owned -> Forall snapshot_ok children ->
  let kept := DropRangesThatOverlapNonOwned non_owned children in
  (forall c, c ∈ kept <-> c ∈ children /\ Forall (fun n => ~ touching c n) non_owned) /\ Forall snapshot_ok kept.
Proof.
  intros Hn Hc kept.
  assert (forall c, c ∈ kept <-> c ∈ children /\ Forall (fun n => ~ touching c n) non_owned) as Hkept.
  { intros c. rewrite Forall_forall in Hc. split; [|by intros [Hin Ht]; apply drop_spec; auto].
    intros Hin. assert (c ∈ children).
    { unfold kept, DropRangesThatOverlapNonOwned in Hin. rewrite list_elem_of_In, filter_In in Hin.
      apply list_elem_of_In, Hin. }
    by apply (drop_spec non_owned children c Hn (Hc c ltac:(done))). }
  split; [done|]. rewrite Forall_forall in *. intros c [Hin _]%Hkept. auto.
Qed.

(** The ranges that are merged: those kept that are not empty, in order. *)
Definition nonempty_sorted (kept : list MemorySnapshot) : list MemorySnapshot :=
  List.filter (fun s => negb (mem_size s =? 0)) (merge_sort snapshot_le kept).

Lemma nonempty_sorted_elem kept c : c ∈ nonempty_sorted kept <-> c ∈ kept /\ mem_size c <> 0.
Proof.
  unfold nonempty_sorted. rewrite list_elem_of_In, filter_In, negb_true_iff, Z.eqb_neq, <-list_elem_of_In.
  by rewrite merge_sort_Permutation.
Qed.
Lemma nonempty_sorted_sorted kept : StronglySorted snapshot_le (nonempty_sorted kept).
Proof.
  unfold nonempty_sorted. pose proof (StronglySorted_merge_sort snapshot_le kept) as Hss.
  induction Hss as [|x l _ IH Hx]; simpl; [constructor|].
  destruct (negb _); [|done]. constructor; [done|]. rewrite Forall_forall in *.
  intros y Hy. apply Hx. rewrite list_elem_of_In, filter_In in Hy. apply list_elem_of_In, Hy.
Qed.

(** What [CoalesceOwnedMemory] does with any ranges that do not wrap around: the children
    that overlap or abut a range owned elsewhere are dropped, and the rest is merged. *)
Lemma coalesce_owned_memory_any (non_owned children : list MemorySnapshot) :
  Forall snapshot_ok non_owned -> Forall snapshot_ok children ->
  let kept := DropRangesThatOverlapNonOwned non_owned children in
  kept = [] \/ (exists c, c ∈ kept /\ 0 < mem_size c) ->
  exists l, CoalesceOwnedMemory non_owned children = Some l /\ separated l /\
    Forall (fun c => 0 < mem_size c) l /\
    (forall v, covered l v <->
       exists c, c ∈ children /\ Forall (fun n => ~ touching c n) non_owned /\ covers c v).
Proof.
  intros Hn Hc kept Hk. destruct (kept_spec non_owned children Hn Hc) as [Hkept Hko]. fold kept in Hkept, Hko.
  assert (forall v, covered kept v <->
    exists c, c ∈ children /\ Forall (fun n => ~ touching c n) non_owned /\ covers c v) as Hcov.
  { intros v. unfold covered. split.
    - intros (c & [? ?]%Hkept & ?). eauto.
    - intros (c & ? & ? & ?). exists c. split; [by apply Hkept|done]. }
  unfold CoalesceOwnedMemory. fold kept. destruct kept as [|k0 ks] eqn:Ek.
  { exists []. split_and!; try done. }
  rewrite <-Ek in *. fold (nonempty_sorted kept).
  pose proof (nonempty_sorted_elem kept) as Hf. pose proof (nonempty_sorted_sorted kept) as Hsf.
  destruct (nonempty_sorted kept) as [|first rest].
  { exfalso. destruct Hk as [Hk|(c & Hin & Hpos)]; [congruence|].
    assert (c ∈ @nil MemorySnapshot) as []%not_elem_of_nil. apply Hf. split; [done|lia]. }
  assert (forall c, c ∈ first :: rest -> snapshot_ok c /\ 0 < mem_size c) as Hfr.
  { intros c [Hin Hz]%Hf. rewrite Forall_forall in Hko. pose proof (Hko c Hin) as Ho.
    split; [done|]. destruct Ho as (? & ? & ?). lia. }
  apply StronglySorted_inv in Hsf as [Hsr Hle].
  destruct (Hfr first) as [Hfo Hfs]; [left|].
  destruct (coalesce_spec first rest Hfo Hfs) as (l & -> & Hsep & Hall & _ & Hcv); [|done|].
  { rewrite Forall_forall in *. intros c Hin. destruct (Hfr c) as [? ?]; [by right|].
    split_and!; [done..|]. specialize (Hle c Hin). unfold snapshot_le in Hle. lia. }
  exists l. split_and!; [done|done|eapply Forall_impl; [exact Hall|]; by intros ? (_ & ? & _)|].
  intros v. rewrite Hcv, <-Hcov. unfold covered. split.
  - intros [H1|(c & H1 & H2)].
    + exists first. split; [|done]. apply Hf. left.
    + exists c. split; [|done]. apply Hf. by right.
  - intros (c & H1 & H2). assert (c ∈ first :: rest) as Hin.
    { apply Hf. split; [done|]. unfold covers in H2. lia. }
    apply elem_of_cons in Hin as [->|Hin]; [by left|]. right. eauto.
Qed.

(** Two ranges with an address in common. *)
Definition overlapping (a b : MemorySnapshot) : Prop :=
  0 < mem_size a /\ 0 < mem_size b /\
  mem_address a < mem_address b + mem_size b /\ mem_address b < mem_address a + mem_size a.

Lemma overlapping_covers a b : overlapping a b <-> exists v, covers a v /\ covers b v.
Proof.
  unfold overlapping, covers. split; [|by intros (v & ? & ?); lia]. intros (? & ? & ? & ?).
  exists (Z.max (mem_address a) (mem_address b)). lia.
Qed.
Lemma overlapping_touching a b : overlapping a b -> touching a b.
Proof. unfold overlapping, touching. lia. Qed.

(** None of the children merely abuts a range owned elsewhere. *)
Definition none_abuts (non_owned children : list MemorySnapshot) : Prop :=
  Forall (fun c => Forall (fun n => touching c n -> overlapping c n) non_owned) children.

(** C13.  The memory regions a minidump keeps.  With ranges that do not wrap around, and
    of which none merely abuts a range owned by another object, and with a non-empty one
    that overlaps none of these (or nothing left at all), [CoalesceOwnedMemory] succeeds;
    the result is in increasing order with a gap between any two consecutive ranges, none
    is empty, and it covers exactly the addresses of the children that do not overlap a
    range owned elsewhere. *)
Theorem coalesce_owned_memory_spec (non_owned children : list MemorySnapshot) :
  Forall snapshot_ok non_owned -> Forall snapshot_ok children -> none_abuts non_owned children ->
  (forall c, c ∈ children -> exists n, n ∈ non_owned /\ overlapping c n) \/
  (exists c, c ∈ children /\ Forall (fun n => ~ overlapping c n) non_owned /\ 0 < mem_size c) ->
  exists l, CoalesceOwnedMemory non_owned children = Some l /\ separated l /\
    Forall (fun c => 0 < mem_size c) l /\
    (forall v, covered l v <->
       exists c, c ∈ children /\ Forall (fun n => ~ overlapping c n) non_owned /\ covers c v).
Proof.
  intros Hn Hc Habut Hk. unfold none_abuts in Habut. rewrite Forall_forall in Habut.
  assert (forall c, c ∈ children ->
    Forall (fun n => ~ touching c n) non_owned <-> Forall (fun n => ~ overlapping c n) non_owned) as Hsame.
  { intros c Hin. specialize (Habut c Hin). rewrite !Forall_forall in *.
    split; intros Hno n Hin' Ht; apply (Hno n Hin'); auto using overlapping_touching. }
  destruct (kept_spec non_owned children Hn Hc) as [Hkept _].
  destruct (coalesce_owned_memory_any non_owned children Hn Hc) as (l & E & Hs & Hp & Hcov).
  { destruct Hk as [Hall|(c & Hin & Hno & Hpos)].
    - left. destruct (DropRangesThatOverlapNonOwned non_owned children) as [|c l]; [done|].
      destruct (proj1 (Hkept c) ltac:(left)) as [Hin Hno]. destruct (Hall c Hin) as (n & Hn' & Ho).
      rewrite Forall_forall in Hno. by destruct (Hno n Hn'); apply overlapping_touching.
    - right. exists c. split; [apply Hkept; by rewrite Hsame|done]. }
  exists l. split_and!; [done|done|done|]. intros v. rewrite Hcov.
  by split; intros (c & Hin & Hno & Hv); exists c; split_and!; [| |done| | |done]; try done; apply Hsame.
Qed.

Lemma coalesce_owned_memory_spec_witness :
  exists l, CoalesceOwnedMemory [MkMemorySnapshot 4096 16]
    [MkMemorySnapshot 100 20; MkMemorySnapshot 4100 1; MkMemorySnapshot 50 50;
     MkMemorySnapshot 300 0; MkMemorySnapshot 200 8] = Some l /\ separated l.
Proof.
  destruct (coalesce_owned_memory_spec [MkMemorySnapshot 4096 16]
    [MkMemorySnapshot 100 20; MkMemorySnapshot 4100 1; MkMemorySnapshot 50 50;
     MkMemorySnapshot 300 0; MkMemorySnapshot 200 8]) as (l & E & Hs & _).
  - repeat constructor; simpl; lia.
  - repeat constructor; simpl; lia.
  - unfold none_abuts, touching, overlapping. repeat constructor; simpl in *; lia.
  - right. exists (MkMemorySnapshot 100 20). split; [left|]. split; [|simpl; lia].
    apply Forall_singleton. unfold overlapping. simpl. lia.
  - exists l. split; [exact E|exact Hs].
Defined.

(** A child that only abuts a range owned elsewhere is dropped too, although none of its
    addresses is in that range: all it has is lost. *)
Lemma abutting_dropped non_owned children n c :
  Forall snapshot_ok non_owned -> Forall snapshot_ok children -> n ∈ non_owned ->
  0 < mem_size c -> 0 < mem_size n -> mem_address n + mem_size n = mem_address c ->
  c ∉ DropRangesThatOverlapNonOwned non_owned children.
Proof.
  intros Hn Hc Hin Hcs Hns Ha Hd. apply (kept_spec non_owned children Hn Hc) in Hd as [_ Hd].
  rewrite Forall_forall in Hd. apply (Hd n Hin). unfold touching. lia.
Qed.

(** When every kept range is empty, [CoalesceOwnedMemory] removes them all
    and then takes the front of an empty vector: the emptiness test is made
    before the empty ranges are removed. *)
Theorem coalesce_all_empty_undefined (non_owned children : list MemorySnapshot) :
  Forall (fun c => mem_size c = 0) children -> children <> [] ->
  CoalesceOwnedMemory non_owned children = None.
Proof.
  intros Hz Hne. assert (DropRangesThatOverlapNonOwned non_owned children = children) as Ed.
  { unfold DropRangesThatOverlapNonOwned. clear Hne. induction Hz as [|c l Hc _ IH]; simpl; [done|].
    assert (existsb (fun n => match DetermineMergedRange c n with Some _ => true | None => false end)
      non_owned = false) as ->; [|simpl; by rewrite IH].
    clear IH. induction non_owned as [|n ns IHn]; simpl; [done|]. rewrite IHn, orb_false_r.
    unfold DetermineMergedRange. by rewrite Hc, Z.eqb_refl. }
  unfold CoalesceOwnedMemory. rewrite Ed. destruct children as [|c cs] eqn:E; [done|].
  rewrite <-E in *. assert (List.filter (fun s => negb (mem_size s =? 0))
    (merge_sort snapshot_le children) = []) as ->; [|done].
  assert (Forall (fun c => mem_size c = 0) (merge_sort snapshot_le children)) as Hs.
  { by rewrite merge_sort_Permutation. }
  induction Hs as [|x l Hx _ IH]; simpl; [done|]. by rewrite Hx, Z.eqb_refl.
Qed.

Lemma coalesce_all_empty_undefined_witness :
  CoalesceOwnedMemory [] [MkMemorySnapshot 4096 0] = None.
Proof. apply coalesce_all_empty_undefined; [repeat constructor|congruence]. Defined.
