(* ===== verification/RangeSet.v ===== *)
(** * Sets of addresses as ranges (util/misc/range_set.cc)

    [RangeSet] keeps ranges in a [std::map] from the last address of a range to its
    first, and merges ranges that overlap when one is inserted.  The map is a list that is
    sorted by its keys; a range set is shown to be the set of the addresses that were
    inserted. *)

From S2P Require Import Prelude.

(** The last and the first address of each range, in increasing order. *)
Abbreviation RangeSet := (list (Z * Z)) (only parsing).

(** [std::map::lower_bound]: the elements before, and from the first key that is not less. *)
Fixpoint lower_bound (key : Z) (ranges : RangeSet) : RangeSet * RangeSet :=
  match ranges with
  | [] => ([], [])
  | (last, base) :: rest =>
      if last <? key then let '(before, from) := lower_bound key rest in ((last, base) :: before, from)
      else ([], ranges)
  end.

(** [ranges_[last] = base]. *)
Fixpoint assign (last base : Z) (ranges : RangeSet) : RangeSet :=
  match ranges with
  | [] => [(last, base)]
  | (last', base') :: rest =>
      if last <? last' then (last, base) :: ranges
      else if last =? last' then (last, base) :: rest
      else (last', base') :: assign last base rest
  end.

(** The loop of [Insert], from the [lower_bound] on: the merged range, and what is left. *)
Fixpoint merge_overlapping (base last : Z) (from : RangeSet) : Z * Z * RangeSet :=
  match from with
  | [] => (base, last, [])
  | (range_last, range_base) :: rest =>
      if range_base <=? last then merge_overlapping (Z.min base range_base) (Z.max last range_last) rest
      else (base, last, from)
  end.

Definition Insert (ranges : RangeSet) (base size : Z) : RangeSet :=
  if size =? 0 then ranges
  else
    let last := u64 (base + size - 1) in
    let '(before, from) := lower_bound base ranges in
    let '(base, last, rest) := merge_overlapping base last from in
    assign last base (before ++ rest).

Definition Contains (ranges : RangeSet) (address : Z) : bool :=
  match (lower_bound address ranges).2 with
  | [] => false
  | (_, base) :: _ => base <=? address
  end.

(** ** The invariant *)

(** The ranges are not empty, in order, and do not overlap; they start after [above]. *)
Fixpoint ordered (above : Z) (ranges : RangeSet) : Prop :=
  match ranges with
  | [] => True
  | (last, base) :: rest => above < base /\ base <= last /\ ordered last rest
  end.
Definition range_set_ok (ranges : RangeSet) : Prop := ordered (-1) ranges.

Definition member (ranges : RangeSet) (a : Z) : Prop := exists last base, (last, base) ∈ ranges /\ base <= a <= last.

Lemma member_cons last base rest a : member ((last, base) :: rest) a <-> base <= a <= last \/ member rest a.
Proof.
  unfold member. split.
  - intros (l & b & [[= -> ->]|Hin]%elem_of_cons & Ha); [by left|right; eauto].
  - intros [Ha|(l & b & Hin & Ha)]; [exists last, base; split; [left|done]|exists l, b; split; [by right|done]].
Qed.
Lemma member_nil a : ~ member [] a.
Proof. by intros (l & b & ?%elem_of_nil & _). Qed.
Lemma member_app l1 l2 a : member (l1 ++ l2) a <-> member l1 a \/ member l2 a.
Proof.
  unfold member. split.
  - intros (l & b & [?|?]%elem_of_app & ?); [left|right]; eauto.
  - intros [(l & b & ? & ?)|(l & b & ? & ?)]; exists l, b; rewrite elem_of_app; auto.
Qed.

Lemma ordered_weaken x y ranges : x <= y -> ordered y ranges -> ordered x ranges.
Proof. destruct ranges as [|[last base] rest]; [done|]. cbn. intros ? (? & ? & ?). split; [lia|done]. Qed.
Lemma ordered_member above ranges a : ordered above ranges -> member ranges a -> above < a.
Proof.
  revert above. induction ranges as [|[last base] rest IH]; intros above; [by intros _ ?%member_nil|].
  intros (H1 & H2 & H3) [Ha|Hm]%member_cons; [lia|]. specialize (IH last H3 Hm). lia.
Qed.

(** [Contains] decides whether an address is in the set. *)
Lemma contains_member ranges a above : ordered above ranges -> Contains ranges a = true <-> member ranges a.
Proof.
  unfold Contains. revert above. induction ranges as [|[last base] rest IH]; intros above; cbn [lower_bound].
  - intros _. split; [done|by intros ?%member_nil].
  - intros (H1 & H2 & H3). rewrite member_cons. destruct (Z.ltb_spec last a) as [Hlt|Hge].
    + specialize (IH last H3). destruct (lower_bound a rest) as [before from]. cbn [snd] in *. rewrite IH. split; [by right|].
      intros [?|?]; [lia|done].
    + cbn [snd]. rewrite Z.leb_le. split; [lia|]. intros [?|Hm]; [lia|]. pose proof (ordered_member _ _ _ H3 Hm). lia.
Qed.

Lemma lower_bound_split key ranges above :
  ordered above ranges ->
  let '(before, from) := lower_bound key ranges in
  ranges = before ++ from /\ Forall (fun r => r.1 < key) before /\
  match from with [] => True | (last, _) :: _ => key <= last end.
Proof.
  revert above. induction ranges as [|[last base] rest IH]; intros above; cbn [lower_bound]; [by intros _|].
  intros (H1 & H2 & H3). destruct (Z.ltb_spec last key) as [Hlt|Hge]; [|done].
  specialize (IH last H3). destruct (lower_bound key rest) as [before from]. destruct IH as (-> & Hb & Hf).
  split; [done|]. split; [by constructor|done].
Qed.

(** The last address of the last range. *)
Fixpoint final (above : Z) (ranges : RangeSet) : Z :=
  match ranges with [] => above | (last, _) :: rest => final last rest end.
Lemma ordered_app above l1 l2 : ordered above (l1 ++ l2) <-> ordered above l1 /\ ordered (final above l1) l2.
Proof. revert above. induction l1 as [|[last base] l1 IH]; intros above; cbn; [tauto|]. rewrite IH. tauto. Qed.
Lemma final_below above key ranges : above < key -> Forall (fun r => r.1 < key) ranges -> final above ranges < key.
Proof. intros Ha Hf. revert above Ha. induction Hf as [|[last base] rest H1 _ IH]; intros above Ha; cbn; [done|by apply IH]. Qed.

(** What is merged, and what is left after it. *)
Lemma merge_overlapping_spec base last from above :
  base <= last -> ordered above from -> match from with [] => True | (l, _) :: _ => base <= l end ->
  let '(base', last', rest) := merge_overlapping base last from in
  base' <= last' /\ last <= last' /\ (base' = base \/ above < base' <= base) /\ ordered last' rest /\
  (forall a, base' <= a <= last' \/ member rest a <-> base <= a <= last \/ member from a).
Proof.
  revert base last above. induction from as [|[rl rb] from IH]; intros base last above Hbl Ho Hf; cbn [merge_overlapping].
  { split_and!; [done|done|by left|done|done]. }
  destruct Ho as (H1 & H2 & H3). destruct (Z.leb_spec rb last) as [Hle|Hgt].
  - specialize (IH (Z.min base rb) (Z.max last rl) rl). destruct (merge_overlapping _ _ from) as [[base' last'] rest].
    destruct IH as (Hb & Hll & Hd & Ho & Hm); [lia|done|destruct from as [|[l b] from]; [done|cbn in H3; lia]|].
    split_and!; [done|lia|lia|done|]. intros a. rewrite Hm, member_cons. split; [|intros [?|[?|?]]; (left; lia) || by right].
    intros [?|?]; [|by auto]. destruct (decide (base <= a <= last)); [by left|]. right. left. lia.
  - split_and!; [done|done|by left|cbn; split_and!; [lia|done|done]|done].
Qed.

Lemma assign_between before last base rest :
  Forall (fun r => r.1 < last) before -> ordered last rest -> assign last base (before ++ rest) = before ++ (last, base) :: rest.
Proof.
  intros Hb Ho. induction Hb as [|[l b] before Hl _ IH]; cbn [app assign].
  - destruct rest as [|[l b] rest]; [done|]. cbn in Ho |- *. destruct (Z.ltb_spec last l); [done|lia].
  - cbn in Hl. destruct (Z.ltb_spec last l); [lia|]. destruct (Z.eqb_spec last l); [lia|]. by rewrite IH.
Qed.

(** Inserting a range that does not wrap around adds its addresses. *)
Lemma insert_member ranges base size :
  range_set_ok ranges -> 0 <= base -> 0 <= size -> base + size <= 2 ^ 64 ->
  range_set_ok (Insert ranges base size) /\
  forall a, member (Insert ranges base size) a <-> member ranges a \/ base <= a < base + size.
Proof.
  intros Hok Hb Hs He. unfold Insert. destruct (Z.eqb_spec size 0) as [->|Hs0].
  { split; [done|]. intros a. split; [by left|]. intros [?|?]; [done|lia]. }
  rewrite wrap_small by lia. pose proof (lower_bound_split base ranges (-1) Hok) as Hl.
  destruct (lower_bound base ranges) as [before from]. destruct Hl as (-> & Hbefore & Hfrom).
  apply ordered_app in Hok as [Ho1 Ho2].
  pose proof (merge_overlapping_spec base (base + size - 1) from (final (-1) before) ltac:(lia) Ho2 Hfrom) as Hm.
  destruct (merge_overlapping base (base + size - 1) from) as [[base' last'] rest]. destruct Hm as (Hbl & Hlast & Hd & Ho & Hm).
  pose proof (final_below (-1) base before ltac:(lia) Hbefore) as Hfin.
  rewrite assign_between; [|eapply Forall_impl; [exact Hbefore|]; cbn; intros [l b]; cbn; lia|done]. split.
  - apply ordered_app. split; [done|]. cbn. split_and!; [lia|done|done].
  - intros a. rewrite !member_app, member_cons, Hm. assert (base <= a <= base + size - 1 <-> base <= a < base + size) by lia. tauto.
Qed.
Lemma empty_range_set_ok : range_set_ok [].
Proof. done. Qed.

(** C33.  A [RangeSet] is a set of addresses: after any ranges have been inserted, in any
    order and however they overlap, [Contains] is true of exactly the addresses in one of
    them; the ranges it keeps are in order and do not overlap. *)
Theorem range_set_refines_set (l : list (Z * Z)) (a : Z) :
  Forall (fun r => 0 <= r.1 /\ 0 <= r.2 /\ r.1 + r.2 <= 2 ^ 64) l ->
  let ranges := fold_left (fun s r => Insert s r.1 r.2) l [] in
  range_set_ok ranges /\ (Contains ranges a = true <-> exists base size, (base, size) ∈ l /\ base <= a < base + size).
Proof.
  intros Hl. cbv zeta. assert (forall s, range_set_ok s -> range_set_ok (fold_left (fun s r => Insert s r.1 r.2) l s) /\
    (member (fold_left (fun s r => Insert s r.1 r.2) l s) a <->
     member s a \/ exists base size, (base, size) ∈ l /\ base <= a < base + size)) as Hf.
  { induction Hl as [|[b z] l (H1 & H2 & H3) _ IH]; intros s Hs; cbn [fold_left fst snd] in *.
    - split; [done|]. split; [by left|]. by intros [?|(b & z & ?%elem_of_nil & _)].
    - destruct (insert_member s b z Hs H1 H2 H3) as [Hs' Hm]. destruct (IH _ Hs') as [Hok E]. split; [done|]. rewrite E, Hm.
      setoid_rewrite elem_of_cons. split; [intros [[?|?]|(b' & z' & ? & ?)]; eauto 10|].
      intros [?|(b' & z' & [[= -> ->]|?] & ?)]; eauto 10. }
  destruct (Hf [] empty_range_set_ok) as [Hok Hm]. split; [done|]. rewrite (contains_member _ a _ Hok), Hm.
  split; [intros [?%member_nil|?]; done|by right].
Qed.

Lemma range_set_refines_set_witness :
  let ranges := fold_left (fun s r => Insert s r.1 r.2) [(10, 5); (30, 5); (12, 20)] [] in
  ranges = [(34, 10)] /\ (Contains ranges 20 = true <-> exists base size, (base, size) ∈ [(10, 5); (30, 5); (12, 20)] /\ base <= 20 < base + size).
Proof.
  split; [reflexivity|]. apply (range_set_refines_set [(10, 5); (30, 5); (12, 20)] 20). repeat constructor; cbn; lia.
Defined.
