(* ===== verification/RingBuffer.v ===== *)
(** * The length-delimited ring buffer (client/length_delimited_ring_buffer.h)

    A fixed array of bytes holds a circular region of items, each preceded by
    its length as a base-128 varint.  The functions below are the header's
    templates at [IntegerType = uint32_t]; every memory access is checked, so an
    access outside the array is the outcome [OutOfBounds].  The specification is
    a queue of items; the theorems are its refinement, the round trip of the
    varint, and what happens where the refinement does not hold. *)

From S2P Require Import Prelude.
From S2P Require Import Numeric.

(** ** Outcomes *)

(** A run ends with a value, with an access outside an array, or out of fuel. *)
Inductive run (A : Type) := Run (a : A) | OutOfBounds | OutOfFuel.
Arguments Run {A} _.
Arguments OutOfBounds {A}.
Arguments OutOfFuel {A}.

Definition run_bind {A B} (m : run A) (k : A -> run B) : run B :=
  match m with Run a => k a | OutOfBounds => OutOfBounds | OutOfFuel => OutOfFuel end.
Notation "'let!' x ':=' m 'in' k" := (run_bind m (fun x => k))
  (at level 10, x pattern, m at level 100, k at level 200) : crashpad_scope.
#[local] Open Scope crashpad_scope.

(** [memcpy] out of, and into, the array [data]. *)
Definition load (data : bytes) (off n : Z) : run bytes :=
  if (0 <=? off) && (off + n <=? Z.of_nat (length data))
  then Run (slice (Z.to_nat off) (Z.to_nat n) data) else OutOfBounds.
Definition store (data : bytes) (off : Z) (src : bytes) : run bytes :=
  if (0 <=? off) && (off + Z.of_nat (length src) <=? Z.of_nat (length data))
  then Run (overwrite (Z.to_nat off) src data) else OutOfBounds.

(** ** Ranges and varints *)

(** [internal::Range]. *)
Record Range := MkRange { offset : Z; length_ : Z }.

Definition kBase128ByteValueBits : Z := 7.
Definition kValueMask : Z := 127.
Definition kContinuationMask : Z := 128.

(** [Base128VarintEncodedLength]: at most ten groups of seven bits. *)
Fixpoint encoded_length_loop (fuel : nat) (value size : Z) : Z :=
  match fuel with
  | O => size
  | S f => if 128 <=? value
           then encoded_length_loop f (Z.shiftr value kBase128ByteValueBits) (size + 1)
           else size
  end.
Definition Base128VarintEncodedLength (value : Z) : Z := encoded_length_loop 10 value 1.

(** [RingBufferArraySize]. *)
Definition RingBufferArraySize (data : bytes) : Z := Z.of_nat (length data).

(** [ReadBytesFromRingBuffer]: whether it succeeded, the bytes stored in the
    target buffer, and the range after the call. *)
Definition ReadBytesFromRingBuffer (data : bytes) (r : Range) (n : Z)
    : run (bool * bytes * Range) :=
  if length_ r <? n then Run (false, [], r)
  else if n =? 0 then Run (true, [], r)
  else
    let initial := Z.min n (u32 (RingBufferArraySize data - offset r)) in
    let! first := load data (offset r) initial in
    let! second := (if initial <? n then load data 0 (n - initial) else Run []) in
    Run (true, first ++ second,
         MkRange (u32 (offset r + n) mod RingBufferArraySize data) (u32 (length_ r - n))).

(** [WriteBytesToRingBuffer]: whether it succeeded, the array and the range. *)
Definition WriteBytesToRingBuffer (src data : bytes) (r : Range)
    : run (bool * bytes * Range) :=
  let n := Z.of_nat (length src) in
  let remaining := u32 (RingBufferArraySize data - length_ r) in
  if remaining <? n then Run (false, data, r)
  else
    let initial := Z.min n (u32 (RingBufferArraySize data - offset r)) in
    let! data1 := store data (offset r) (take (Z.to_nat initial) src) in
    let! data2 := (if initial <? n then store data1 0 (drop (Z.to_nat initial) src)
                   else Run data1) in
    Run (true, data2,
         MkRange (u32 (offset r + n) mod RingBufferArraySize data) (u32 (length_ r - n))).

(** [WriteBase128VarintToRingBuffer]: the length written or [None] for
    [std::nullopt], the array and the range, which a failed call has changed too. *)
Fixpoint WriteBase128Varint_loop (fuel : nat) (value len : Z) (data : bytes) (r : Range)
    : run (option Z * bytes * Range) :=
  match fuel with
  | O => OutOfFuel
  | S f =>
      if kValueMask <? value then
        let cur := Z.lor (Z.land (u8 value) kValueMask) kContinuationMask in
        let! (ok, data1, r1) := WriteBytesToRingBuffer [cur] data r in
        if negb ok then Run (None, data1, r1)
        else WriteBase128Varint_loop f (Z.shiftr value kBase128ByteValueBits) (len + 1) data1 r1
      else
        let! (ok, data1, r1) := WriteBytesToRingBuffer [u8 value] data r in
        if negb ok then Run (None, data1, r1) else Run (Some len, data1, r1)
  end.
Definition WriteBase128VarintToRingBuffer (value : Z) (data : bytes) (r : Range) :=
  WriteBase128Varint_loop 10 value 1 data r.

(** ** The ring buffer, its reader and its writer *)

(** [RingBufferData]: the fixed magic and version are constants of the header. *)
Record RingBufferData := MkRingBufferData { data_range : Range; data : bytes }.
Definition kMagic : Z := 0xcab00d1e.
Definition kVersion : Z := 1.
Definition sizeof_Header : Z := 16.

(** A new [RingBufferData] of a given capacity over the array's initial bytes. *)
Definition new_ring_buffer (initial : bytes) : RingBufferData :=
  MkRingBufferData (MkRange 0 0) initial.

(** [DeserializeFromBuffer]: whether the buffer was accepted, and the object. *)
Definition DeserializeFromBuffer (rb : RingBufferData) (buffer : bytes)
    : bool * RingBufferData :=
  let len := Z.of_nat (length buffer) in
  if (len <? sizeof_Header) || (sizeof_Header + Z.of_nat (length (data rb)) <? len)
  then (false, rb)
  else
    let word i := le_value (slice (4 * i) 4 buffer) in
    if negb (word 0%nat =? kMagic) || negb (word 1%nat =? kVersion) then (false, rb)
    else (true, MkRingBufferData (MkRange (word 2%nat) (word 3%nat))
                                 (overwrite 0 (drop 16 buffer) (data rb))).

(** [GetRingBufferLength]. *)
Definition GetRingBufferLength (rb : RingBufferData) : Z :=
  u32 (sizeof_Header + Z.min (RingBufferArraySize (data rb))
                             (u32 (offset (data_range rb) + length_ (data_range rb)))).

(** [ResetForTesting] of the ring buffer. *)
Definition ResetForTesting (rb : RingBufferData) : RingBufferData :=
  MkRingBufferData (MkRange 0 0) (data rb).

Section Varint.
  (** [base::CheckLsh(value, shift).AssignIfValid] at [uint32_t]: the shifted
      value, or [None] when it is not valid. *)
  Variable CheckLsh : Z -> Z -> option Z.

(** The loop of [ReadBase128VarintFromRingBuffer]: the number of bytes read or
    [None] for [std::nullopt], [result], and the range after the call. *)
Fixpoint ReadBase128Varint_loop (fuel : nat) (dat : bytes) (r : Range) (result len : Z)
    : run (option Z * Z * Range) :=
  match fuel with
  | O => OutOfFuel
  | S f =>
      let! (ok, byte, r1) := ReadBytesFromRingBuffer dat r 1 in
      if negb ok then Run (None, result, r1)
      else
        let cur := default 0 (head byte) in
        match CheckLsh (Z.land cur kValueMask) (len * kBase128ByteValueBits) with
        | None => Run (None, result, r1)
        | Some next_result_bits =>
            let result' := Z.lor result next_result_bits in
            let len' := len + 1 in
            if Z.land cur kContinuationMask =? kContinuationMask
            then ReadBase128Varint_loop f dat r1 result' len'
            else Run (Some len', result', r1)
        end
  end.
Definition ReadBase128VarintFromRingBuffer (dat : bytes) (r : Range) :=
  ReadBase128Varint_loop 11 dat r 0 0.

(** [PopWithRange], and [Pop], which passes the reader's own range: whether it
    succeeded, the target buffer, and the reader's range. *)
Definition Pop (dat : bytes) (r : Range) (target : bytes) : run (bool * bytes * Range) :=
  let! (vl, buffer_length, r1) := ReadBase128VarintFromRingBuffer dat r in
  match vl with
  | None => Run (false, target, r1)
  | Some _ =>
      if buffer_length =? 0 then Run (false, target, r1)
      else
        let! (ok, d, r2) := ReadBytesFromRingBuffer dat r1 buffer_length in
        if negb ok then Run (false, target ++ replicate (Z.to_nat buffer_length) 0, r2)
        else Run (true, target ++ d, r2)
  end.

(** [LengthDelimitedRingBufferWriter]. *)
Record Writer := MkWriter { ring_buffer_ : RingBufferData; ring_buffer_write_offset_ : Z }.

(** The constructor. *)
Definition new_writer (rb : RingBufferData) : Writer := MkWriter rb 0.

(** The loop of [Push] that drops old items; [None] is the [return false]. *)
Fixpoint make_room (fuel : nat) (dat : bytes) (readable : Range) (available needed : Z)
    : run (option Range) :=
  match fuel with
  | O => OutOfFuel
  | S f =>
      if available <? needed then
        let! (vl, bytes_to_skip, r1) := ReadBase128VarintFromRingBuffer dat readable in
        match vl with
        | None => Run None
        | Some varint_length =>
            let r2 := MkRange (u32 (offset r1 + bytes_to_skip) mod RingBufferArraySize dat)
                              (u32 (length_ r1 - bytes_to_skip)) in
            make_room f dat r2 (u32 (available + (varint_length + bytes_to_skip))) needed
        end
      else Run (Some readable)
  end.

(** [Push]. *)
Definition Push (w : Writer) (buffer : bytes) : run (bool * Writer) :=
  let buffer_length := Z.of_nat (length buffer) in
  let rb := ring_buffer_ w in
  if buffer_length =? 0 then Run (false, w)
  else
    let bytes_needed := u32 (Base128VarintEncodedLength buffer_length + buffer_length) in
    if Z.of_nat (length (data rb)) <? bytes_needed then Run (false, w)
    else
      let bytes_available := u32 (RingBufferArraySize (data rb) - length_ (data_range rb)) in
      let! room := make_room (S (length (data rb))) (data rb) (data_range rb)
                     bytes_available bytes_needed in
      match room with
      | None => Run (false, w)
      | Some readable =>
          let! (_, data1, wr1) :=
            WriteBase128VarintToRingBuffer buffer_length (data rb)
              (MkRange (ring_buffer_write_offset_ w) bytes_needed) in
          let! (_, data2, wr2) := WriteBytesToRingBuffer buffer data1 wr1 in
          Run (true,
               MkWriter (MkRingBufferData
                           (MkRange (offset readable) (u32 (length_ readable + bytes_needed)))
                           data2)
                        (offset wr2))
      end.

(** [ResetForTesting] of the writer. *)
Definition Writer_ResetForTesting (w : Writer) : Writer :=
  MkWriter (ResetForTesting (ring_buffer_ w)) 0.

End Varint.

(** The behaviour [CheckLsh] documents: the exact product, valid when the shift
    is less than the width and the product fits it. *)
Definition CheckLsh_exact (CheckLsh : Z -> Z -> option Z) : Prop :=
  forall x s v, 0 <= x -> 0 <= s ->
    CheckLsh x s = Some v <-> s < 32 /\ v = Z.shiftl x s /\ v < 2 ^ 32.

(** A function with that behaviour. *)
Definition CheckLsh_u32 (x s : Z) : option Z :=
  if (s <? 32) && (Z.shiftl x s <? 2 ^ 32) then Some (Z.shiftl x s) else None.

Lemma CheckLsh_u32_exact : CheckLsh_exact CheckLsh_u32.
Proof.
  intros x s v _ _. unfold CheckLsh_u32. case_match eqn:E.
  - bool_to_prop. naive_solver.
  - apply andb_false_iff in E. split; [done|]. intros (? & -> & ?).
    destruct E; bool_to_prop; lia.
Qed.

Example ring_buffer_examples :
  (let! (_, w) := Push CheckLsh_u32 (new_writer (new_ring_buffer (replicate 4 0))) [65] in
   let! (_, w) := Push CheckLsh_u32 w [66] in
   let! (_, w) := Push CheckLsh_u32 w [67; 68] in
   Pop CheckLsh_u32 (data (ring_buffer_ w)) (data_range (ring_buffer_ w)) []) =
  Run (true, [67; 68], MkRange 3 0) /\
  (let! (ok, w) := Push CheckLsh_u32 (new_writer (new_ring_buffer (replicate 8 0)))
                      [1; 2; 3; 4; 5] in
   Pop CheckLsh_u32 (data (ring_buffer_ w)) (data_range (ring_buffer_ w)) []) =
  Run (true, [0; 0; 0; 0; 0], MkRange 6 0).
Proof. vm_compute. done. Qed.

(** ** The circular view of the array *)

(** Index [i] after [off] in an array of [n] bytes, for [off < n] and [i <= n]. *)
Definition wrap_add (n off i : nat) : nat :=
  if (off + i <? n)%nat then (off + i)%nat else (off + i - n)%nat.

(** The [n] bytes from [off] on, continuing at the front. *)
Definition ring (dat : bytes) (off n : nat) : bytes := slice off n (dat ++ dat).

(** [src] stored from [off] on, continuing at the front. *)
Definition ring_write (off : nat) (src dat : bytes) : bytes :=
  let first := (length dat - off)%nat in
  overwrite 0 (drop first src) (overwrite off (take first src) dat).

Ltac wrap_cases :=
  unfold wrap_add in *;
  repeat match goal with
  | |- context [(?a <? ?b)%nat] => destruct (Nat.ltb_spec a b)
  | H : context [(?a <? ?b)%nat] |- _ => destruct (Nat.ltb_spec a b)
  end.

Lemma lookup_overwrite (off : nat) (d l : bytes) j :
  (off + length d <= length l)%nat ->
  overwrite off d l !! j =
  if (j <? off)%nat then l !! j else if (j <? off + length d)%nat then d !! (j - off)%nat
  else l !! j.
Proof.
  intros Hl. unfold overwrite. destruct (Nat.ltb_spec j off).
  { rewrite lookup_app_l by len_lia. by rewrite lookup_take_lt. }
  rewrite lookup_app_r by len_lia. rewrite length_take, Nat.min_l by lia.
  destruct (Nat.ltb_spec j (off + length d)).
  - by rewrite lookup_app_l by lia.
  - rewrite lookup_app_r by lia. rewrite lookup_drop. f_equal. lia.
Qed.

Lemma length_ring dat off n :
  (off <= length dat -> n <= length dat -> length (ring dat off n) = n)%nat.
Proof. intros. unfold ring. apply length_slice. len_lia. Qed.

Lemma lookup_ring dat off n i :
  (off < length dat -> n <= length dat -> i < n ->
   ring dat off n !! i = dat !! wrap_add (length dat) off i)%nat.
Proof.
  intros. unfold ring, slice. rewrite lookup_take_lt, lookup_drop by lia. wrap_cases.
  - by rewrite lookup_app_l by lia.
  - by rewrite lookup_app_r by lia.
Qed.

Lemma length_ring_write off src dat :
  (off < length dat -> length src <= length dat ->
   length (ring_write off src dat) = length dat)%nat.
Proof.
  intros. unfold ring_write. rewrite !length_overwrite; [done|len_lia|].
  rewrite length_overwrite by len_lia. len_lia.
Qed.

Lemma lookup_ring_write off src dat i :
  (off < length dat -> length src <= length dat -> i < length dat ->
   ring_write off src dat !! wrap_add (length dat) off i =
   if i <? length src then src !! i else dat !! wrap_add (length dat) off i)%nat.
Proof.
  intros Ho Hs Hi. unfold ring_write.
  assert (length (overwrite off (take (length dat - off) src) dat) = length dat) as Hl.
  { rewrite length_overwrite; [done|len_lia]. }
  rewrite lookup_overwrite by (rewrite Hl; len_lia).
  rewrite lookup_overwrite by len_lia.
  rewrite length_drop, length_take. rewrite lookup_drop, Nat.add_0_l, Nat.sub_0_r.
  wrap_cases; try lia; try done; try (rewrite lookup_take_lt by lia; f_equal; lia);
    try (f_equal; lia).
Qed.

Lemma wrap_add_lt n off i : (off < n -> i <= n -> wrap_add n off i < n)%nat.
Proof. intros. wrap_cases; lia. Qed.

Lemma wrap_add_add n off i j :
  (off < n -> i + j <= n -> wrap_add n (wrap_add n off i) j = wrap_add n off (i + j))%nat.
Proof. intros. wrap_cases; lia. Qed.

(** Every index of the array is [wrap_add off i] for one [i]. *)
Lemma wrap_add_surj n off j : (off < n -> j < n -> exists i, i < n /\ wrap_add n off i = j)%nat.
Proof.
  intros. destruct (Nat.ltb_spec j off); [exists (n - off + j)%nat|exists (j - off)%nat];
    wrap_cases; lia.
Qed.

Lemma ring_ext n off (d1 d2 : bytes) :
  (length d1 = n -> length d2 = n -> off < n ->
   (forall i, i < n -> d1 !! wrap_add n off i = d2 !! wrap_add n off i) -> d1 = d2)%nat.
Proof.
  intros H1 H2 Ho H. apply list_eq. intros j.
  destruct (decide (j < n)%nat).
  - destruct (wrap_add_surj n off j) as (i & Hi & <-); auto.
  - rewrite !lookup_ge_None_2 by lia. done.
Qed.

Lemma ring_write_same off src dat :
  (off < length dat -> length src <= length dat ->
   ring (ring_write off src dat) off (length src) = src)%nat.
Proof.
  intros Ho Hs. pose proof (length_ring_write off src dat Ho Hs) as Hl.
  apply list_eq. intros i. destruct (decide (i < length src)%nat).
  - rewrite lookup_ring by lia. rewrite Hl, lookup_ring_write by lia.
    destruct (Nat.ltb_spec i (length src)); [done|lia].
  - rewrite !lookup_ge_None_2; [done|lia|]. rewrite length_ring by lia. lia.
Qed.

(** A region that ends where the write begins is not changed by it. *)
Lemma ring_write_before o m src dat :
  (o < length dat -> m + length src <= length dat ->
   ring (ring_write (wrap_add (length dat) o m) src dat) o m = ring dat o m)%nat.
Proof.
  intros Ho Hm. set (off := wrap_add (length dat) o m).
  assert (off < length dat)%nat as Hoff by (apply wrap_add_lt; lia).
  pose proof (length_ring_write off src dat Hoff ltac:(lia)) as Hl.
  apply list_eq. intros i. destruct (decide (i < m)%nat).
  - rewrite !lookup_ring by lia. rewrite Hl.
    assert (wrap_add (length dat) o i =
            wrap_add (length dat) off (length dat - m + i))%nat as ->.
    { unfold off. wrap_cases; lia. }
    rewrite lookup_ring_write by lia.
    destruct (Nat.ltb_spec (length dat - m + i) (length src)); [lia|done].
  - rewrite !lookup_ge_None_2; [done|rewrite length_ring by lia; lia..].
Qed.

Lemma ring_write_app off s1 s2 dat :
  (off < length dat -> length s1 + length s2 <= length dat ->
   ring_write (wrap_add (length dat) off (length s1)) s2 (ring_write off s1 dat) =
   ring_write off (s1 ++ s2) dat)%nat.
Proof.
  intros Ho Hs. assert (wrap_add (length dat) off (length s1) < length dat)%nat as Hw.
  { apply wrap_add_lt; lia. }
  pose proof (length_ring_write off s1 dat Ho ltac:(lia)) as Hl1.
  apply (ring_ext (length dat) off).
  - rewrite length_ring_write; rewrite Hl1; lia.
  - rewrite length_ring_write; len_lia.
  - done.
  - intros i Hi. rewrite lookup_ring_write by len_lia.
    rewrite length_app.
    assert (wrap_add (length dat) off i =
            wrap_add (length dat) (wrap_add (length dat) off (length s1))
              (if i <? length s1 then length dat - length s1 + i else i - length s1))%nat as Ei.
    { destruct (Nat.ltb_spec i (length s1)); wrap_cases; lia. }
    pose proof (lookup_ring_write (wrap_add (length dat) off (length s1)) s2
      (ring_write off s1 dat)
      (if i <? length s1 then length dat - length s1 + i else i - length s1)%nat) as Hlk.
    rewrite Hl1 in Hlk. rewrite Ei at 1. rewrite Hlk; [|lia..|].
    2:{ destruct (Nat.ltb_spec i (length s1)); lia. }
    clear Hlk.
    rewrite <-Ei, lookup_ring_write by lia.
    destruct (Nat.ltb_spec i (length s1)).
    + destruct (Nat.ltb_spec (length dat - length s1 + i) (length s2)); [lia|].
      destruct (Nat.ltb_spec i (length s1 + length s2)); [|lia].
      by rewrite lookup_app_l by lia.
    + destruct (Nat.ltb_spec (i - length s1) (length s2));
        destruct (Nat.ltb_spec i (length s1 + length s2)); try lia; [|done].
      by rewrite lookup_app_r by lia.
Qed.

Lemma ring_split dat off n m :
  (off < length dat -> n + m <= length dat ->
   ring dat off (n + m) = ring dat off n ++ ring dat (wrap_add (length dat) off n) m)%nat.
Proof.
  intros Ho Hn. assert (wrap_add (length dat) off n < length dat)%nat by (apply wrap_add_lt; lia).
  apply list_eq. intros i. destruct (decide (i < n + m)%nat).
  - rewrite lookup_ring by lia. destruct (decide (i < n)%nat).
    + rewrite lookup_app_l by (rewrite length_ring; lia). by rewrite lookup_ring by lia.
    + rewrite lookup_app_r by (rewrite length_ring; lia). rewrite length_ring by lia.
      rewrite lookup_ring by lia. rewrite wrap_add_add by lia. do 2 f_equal. lia.
  - rewrite !lookup_ge_None_2; [done| |]; rewrite ?length_app, ?length_ring; lia.
Qed.

(** ** Reading and writing through ranges *)

(** A range inside an array of [n] bytes. *)
Abbreviation nrange off len := (MkRange (Z.of_nat off) (Z.of_nat len)).

Lemma u32_add_mod (n off i : nat) :
  (off < n)%nat -> (i <= n)%nat -> 2 * Z.of_nat n <= 2 ^ 32 ->
  u32 (Z.of_nat off + Z.of_nat i) mod Z.of_nat n = Z.of_nat (wrap_add n off i).
Proof.
  intros Ho Hi Hn. rewrite wrap_small by lia. wrap_cases.
  - rewrite Z.mod_small by lia. lia.
  - symmetry. apply (Z.mod_unique _ _ 1); lia.
Qed.

Lemma load_in_range dat off n :
  (off + n <= length dat)%nat -> load dat (Z.of_nat off) (Z.of_nat n) = Run (slice off n dat).
Proof.
  intros. unfold load. rewrite !Nat2Z.id.
  destruct (Z.leb_spec 0 (Z.of_nat off)); [|lia].
  destruct (Z.leb_spec (Z.of_nat off + Z.of_nat n) (Z.of_nat (length dat))); [done|lia].
Qed.

Lemma store_in_range dat off src :
  (off + length src <= length dat)%nat ->
  store dat (Z.of_nat off) src = Run (overwrite off src dat).
Proof.
  intros. unfold store. rewrite !Nat2Z.id.
  destruct (Z.leb_spec 0 (Z.of_nat off)); [|lia].
  destruct (Z.leb_spec (Z.of_nat off + Z.of_nat (length src)) (Z.of_nat (length dat))); [done|lia].
Qed.

Section Capacity.
  Context (N : nat) (HN : 2 * Z.of_nat N <= 2 ^ 32).

Lemma read_bytes_ok dat off len n :
  length dat = N -> (off < N)%nat -> (n <= len <= N)%nat ->
  ReadBytesFromRingBuffer dat (nrange off len) (Z.of_nat n) =
  Run (true, ring dat off n, nrange (wrap_add N off n) (len - n)).
Proof.
  intros Hd Ho Hn. unfold ReadBytesFromRingBuffer, RingBufferArraySize. simpl. rewrite Hd.
  destruct (Z.ltb_spec (Z.of_nat len) (Z.of_nat n)); [lia|].
  destruct (Z.eqb_spec (Z.of_nat n) 0) as [E|E].
  { replace n with 0%nat by lia. unfold ring, slice. simpl. do 3 f_equal.
    - f_equal. wrap_cases; lia.
    - f_equal. lia. }
  rewrite (wrap_small 32 (Z.of_nat N - Z.of_nat off)) by lia.
  assert (Z.min (Z.of_nat n) (Z.of_nat N - Z.of_nat off) = Z.of_nat (Nat.min n (N - off))) as ->
    by lia.
  rewrite load_in_range by lia. cbn [run_bind].
  assert ((if Z.of_nat (Nat.min n (N - off)) <? Z.of_nat n
           then load dat 0 (Z.of_nat n - Z.of_nat (Nat.min n (N - off))) else Run []) =
          Run (slice 0 (n - (N - off)) dat)) as ->.
  { destruct (Z.ltb_spec (Z.of_nat (Nat.min n (N - off))) (Z.of_nat n)).
    - replace (Z.of_nat n - Z.of_nat (Nat.min n (N - off))) with (Z.of_nat (n - (N - off))) by lia.
      change 0 with (Z.of_nat 0). by rewrite load_in_range by lia.
    - by replace (n - (N - off))%nat with 0%nat by lia. }
  cbn [run_bind]. do 3 f_equal.
  - unfold ring, slice. rewrite drop_app_le by lia. rewrite take_app, length_drop, Hd, drop_0.
    f_equal. destruct (decide (n <= N - off)%nat); [by rewrite Nat.min_l by lia|].
    rewrite Nat.min_r by lia. rewrite !take_ge; [done|len_lia..].
  - by apply u32_add_mod; lia.
  - rewrite wrap_small; lia.
Qed.

Lemma write_bytes_ok dat off rl src :
  length dat = N -> (off < N)%nat -> (length src <= rl <= N)%nat -> (length src <= N - rl)%nat ->
  WriteBytesToRingBuffer src dat (nrange off rl) =
  Run (true, ring_write off src dat, nrange (wrap_add N off (length src)) (rl - length src)).
Proof.
  intros Hd Ho Hn Hr. unfold WriteBytesToRingBuffer, RingBufferArraySize. simpl. rewrite Hd.
  rewrite (wrap_small 32 (Z.of_nat N - Z.of_nat rl)) by lia.
  destruct (Z.ltb_spec (Z.of_nat N - Z.of_nat rl) (Z.of_nat (length src))); [lia|].
  rewrite (wrap_small 32 (Z.of_nat N - Z.of_nat off)) by lia.
  assert (Z.min (Z.of_nat (length src)) (Z.of_nat N - Z.of_nat off) =
          Z.of_nat (Nat.min (length src) (N - off))) as -> by lia.
  rewrite Nat2Z.id.
  assert (take (Nat.min (length src) (N - off)) src = take (N - off) src) as ->.
  { destruct (decide (length src <= N - off)%nat); [|by rewrite Nat.min_r by lia].
    rewrite !take_ge; [done|lia..]. }
  rewrite store_in_range by len_lia. cbn [run_bind].
  assert (length (overwrite off (take (N - off) src) dat) = N) as Hl.
  { rewrite length_overwrite; len_lia. }
  assert ((if Z.of_nat (Nat.min (length src) (N - off)) <? Z.of_nat (length src)
           then store (overwrite off (take (N - off) src) dat) 0
                  (drop (Nat.min (length src) (N - off)) src)
           else Run (overwrite off (take (N - off) src) dat)) =
          Run (ring_write off src dat)) as ->.
  { unfold ring_write. rewrite Hd.
    destruct (Z.ltb_spec (Z.of_nat (Nat.min (length src) (N - off))) (Z.of_nat (length src))).
    - rewrite Nat.min_r by lia. change 0 with (Z.of_nat 0).
      by rewrite store_in_range by len_lia.
    - rewrite (drop_ge src) by lia. unfold overwrite at 2. simpl. by rewrite drop_0. }
  cbn [run_bind]. do 3 f_equal; [by apply u32_add_mod; lia | rewrite wrap_small; lia].
Qed.

Lemma write_bytes_refused dat off rl src :
  length dat = N -> (rl <= N)%nat -> (N - rl < length src)%nat ->
  WriteBytesToRingBuffer src dat (nrange off rl) = Run (false, dat, nrange off rl).
Proof.
  intros Hd Hr Hs. unfold WriteBytesToRingBuffer, RingBufferArraySize. simpl. rewrite Hd.
  rewrite wrap_small by lia.
  destruct (Z.ltb_spec (Z.of_nat N - Z.of_nat rl) (Z.of_nat (length src))); [done|lia].
Qed.

End Capacity.

(** ** The varint *)

(** The base-128 encoding of a value. *)
Fixpoint varint_aux (fuel : nat) (v : Z) : bytes :=
  match fuel with
  | O => []
  | S f => if kValueMask <? v
           then Z.lor (Z.land (u8 v) kValueMask) kContinuationMask
                :: varint_aux f (Z.shiftr v kBase128ByteValueBits)
           else [u8 v]
  end.
Definition varint (v : Z) : bytes := varint_aux 10 v.

Lemma shiftr_7 v : Z.shiftr v kBase128ByteValueBits = v / 128.
Proof. unfold kBase128ByteValueBits. by rewrite Z.shiftr_div_pow2. Qed.

Lemma varint_byte v :
  0 <= v -> Z.lor (Z.land (u8 v) kValueMask) kContinuationMask = v mod 128 + 128.
Proof.
  intros. unfold kValueMask, kContinuationMask, wrap. change 127 with (2 ^ 7 - 1).
  rewrite land_ones_mod by lia. change 128 with (Z.shiftl 1 7) at 1.
  rewrite lor_shiftl_add by (try apply Z.mod_pos_bound; lia).
  change (2 ^ 8) with (2 ^ 7 * 2). change (2 ^ 7) with 128.
  rewrite Z.rem_mul_r by lia. rewrite Z.mul_comm, Z.mod_add, Z.mod_mod by lia. lia.
Qed.

Lemma varint_aux_length f v s :
  0 <= v < 128 ^ Z.of_nat f -> f <> 0%nat ->
  encoded_length_loop f v s = s + Z.of_nat (length (varint_aux f v)) - 1.
Proof.
  revert v s; induction f as [|f IH]; intros v s Hv Hf; [done|]. simpl.
  unfold kValueMask. destruct (Z.leb_spec 128 v); destruct (Z.ltb_spec 127 v); try lia.
  - rewrite Nat2Z.inj_succ, Z.pow_succ_r in Hv by lia.
    rewrite shiftr_7. rewrite IH; [simpl length; lia| |].
    + split; [apply Z.div_pos; lia | apply Z.div_lt_upper_bound; lia].
    + intros ->. simpl in Hv. lia.
  - simpl. lia.
Qed.

Lemma varint_length v :
  0 <= v < 2 ^ 32 -> Base128VarintEncodedLength v = Z.of_nat (length (varint v)).
Proof.
  intros. unfold Base128VarintEncodedLength, varint.
  rewrite varint_aux_length; [lia| |done]. change (128 ^ Z.of_nat 10) with (2 ^ 70). lia.
Qed.

Lemma varint_aux_pos f v : f <> 0%nat -> (0 < length (varint_aux f v))%nat.
Proof. destruct f; [done|]. simpl. case_match; simpl; lia. Qed.

Lemma varint_aux_bound f v k :
  0 <= v < 128 ^ Z.of_nat k -> (0 < k <= f)%nat -> (length (varint_aux f v) <= k)%nat.
Proof.
  revert v k; induction f as [|f IH]; intros v k Hv Hk; [lia|]. simpl.
  unfold kValueMask. destruct (Z.ltb_spec 127 v); simpl; [|lia].
  rewrite shiftr_7. destruct k as [|[|k]]; [lia|simpl in Hv; lia|].
  apply le_n_S. apply IH; [|lia].
  rewrite Nat2Z.inj_succ, Z.pow_succ_r in Hv by lia.
  split; [apply Z.div_pos; lia | apply Z.div_lt_upper_bound; lia].
Qed.

Section CapacityVarint.
  Context (N : nat) (HN : 2 * Z.of_nat N <= 2 ^ 32).

Lemma write_varint_ok f v len dat off rl :
  0 <= v < 128 ^ Z.of_nat f -> f <> 0%nat -> length dat = N -> (off < N)%nat ->
  (length (varint_aux f v) <= rl < N)%nat ->
  WriteBase128Varint_loop f v len dat (nrange off rl) =
  Run (Some (len + Z.of_nat (length (varint_aux f v)) - 1),
       ring_write off (varint_aux f v) dat,
       nrange (wrap_add N off (length (varint_aux f v))) (rl - length (varint_aux f v))).
Proof.
  revert v len dat off rl; induction f as [|f IH]; intros v len dat off rl Hv Hf Hd Ho Hr; [done|].
  cbn [WriteBase128Varint_loop varint_aux] in *.
  destruct (Z.ltb_spec kValueMask v) as [Hlt|Hge].
  - set (b := Z.lor _ _) in *. simpl length in *. unfold kValueMask in Hlt.
    rewrite Nat2Z.inj_succ, Z.pow_succ_r in Hv by lia.
    assert (0 <= Z.shiftr v kBase128ByteValueBits < 128 ^ Z.of_nat f) as Hv'.
    { rewrite shiftr_7. split; [apply Z.div_pos; lia | apply Z.div_lt_upper_bound; lia]. }
    assert (f <> 0%nat) as Hf' by (intros ->; simpl in Hv; lia).
    pose proof (varint_aux_pos f (Z.shiftr v kBase128ByteValueBits) Hf') as Hpos.
    pose proof (write_bytes_ok N HN dat off rl [b]) as Hw. simpl length in Hw.
    rewrite Hw by lia. cbn [run_bind negb]. rewrite IH; [|done|done| | |].
    + set (vs := varint_aux f _) in *. f_equal. f_equal; [f_equal|].
      * f_equal. lia.
      * pose proof (ring_write_app off [b] vs dat) as Ha. rewrite Hd in Ha. simpl length in Ha.
        apply Ha; lia.
      * f_equal; f_equal; [|lia]. rewrite wrap_add_add by lia. done.
    + rewrite length_ring_write; rewrite Hd; simpl; lia.
    + apply wrap_add_lt; lia.
    + lia.
  - pose proof (write_bytes_ok N HN dat off rl [u8 v]) as Hw. simpl length in *.
    rewrite Hw by lia. cbn [run_bind negb]. do 4 f_equal. lia.
Qed.

End CapacityVarint.

(** ** The queue specification *)

(** An item as it is stored: its length, then its bytes. *)
Definition enc (item : bytes) : bytes := varint (Z.of_nat (length item)) ++ item.
Definition enc_all (items : list bytes) : bytes := concat (map enc items).

(** The items left once the oldest are dropped until [needed] bytes are free
    of the [n] bytes of storage. *)
Fixpoint evict (n needed : nat) (items : list bytes) : list bytes :=
  match items with
  | [] => []
  | _ :: rest =>
      if (n - length (enc_all items) <? needed)%nat then evict n needed rest else items
  end.

(** A push onto the queue. *)
Definition spec_push (n : nat) (items : list bytes) (item : bytes) : list bytes :=
  evict n (length (enc item)) items ++ [item].

(** The items a ring buffer of [n] bytes can take: not empty, not more than half
    of it, and not all of it with their length. *)
Definition admissible (n : nat) (item : bytes) : Prop :=
  (0 < length item)%nat /\ (2 * length item <= n)%nat /\ (length (enc item) < n)%nat.

(** The stored region holds the items, oldest first. *)
Definition holds (n : nat) (dat : bytes) (off len : nat) (items : list bytes) : Prop :=
  length dat = n /\ (off < n)%nat /\ (len <= n)%nat /\ len = length (enc_all items) /\
  ring dat off len = enc_all items /\ Forall (fun x => 0 < length x)%nat items.

(** The writer's state represents the queue [items]. *)
Definition represents (n : nat) (w : Writer) (items : list bytes) : Prop :=
  exists off len,
    data_range (ring_buffer_ w) = nrange off len /\
    ring_buffer_write_offset_ w = Z.of_nat (wrap_add n off len) /\
    holds n (data (ring_buffer_ w)) off len items.

Lemma enc_all_cons x items : enc_all (x :: items) = enc x ++ enc_all items.
Proof. done. Qed.
Lemma enc_all_app l1 l2 : enc_all (l1 ++ l2) = enc_all l1 ++ enc_all l2.
Proof. unfold enc_all. by rewrite map_app, concat_app. Qed.

(** Dropping the front of a circular region. *)
Lemma ring_drop_front n dat off p s :
  length dat = n -> (off < n)%nat -> (length (p ++ s) <= n)%nat ->
  ring dat off (length (p ++ s)) = p ++ s ->
  ring dat off (length p) = p /\ ring dat (wrap_add n off (length p)) (length s) = s.
Proof.
  intros Hd Ho Hl Hr. rewrite length_app in *.
  rewrite ring_split, Hd in Hr by lia.
  apply app_inj_1 in Hr; [done|]. rewrite length_ring; lia.
Qed.

(** The two masks on the bytes of a varint. *)
Lemma varint_masks a :
  0 <= a < 128 ->
  Z.land (a + 128) kValueMask = a /\ Z.land a kValueMask = a /\
  Z.land (a + 128) kContinuationMask = kContinuationMask /\ Z.land a kContinuationMask = 0.
Proof.
  intros Ha. assert (forallb (fun a => (Z.land (a + 128) kValueMask =? a) &&
    (Z.land a kValueMask =? a) && (Z.land (a + 128) kContinuationMask =? kContinuationMask) &&
    (Z.land a kContinuationMask =? 0)) (seqZ 0 128) = true) as H by reflexivity.
  rewrite forallb_forall in H. specialize (H a). cbn beta in H.
  rewrite <-list_elem_of_In, elem_of_seqZ in H. specialize (H ltac:(lia)).
  bool_to_prop. done.
Qed.

Section Queue.
  Context (N : nat) (HN : 2 * Z.of_nat N <= 2 ^ 32).
  Context (CheckLsh : Z -> Z -> option Z) (Hlsh : CheckLsh_exact CheckLsh).

(** The bits of a decoded value are put back one group at a time. *)
Lemma varint_step acc v k :
  0 <= k -> 0 <= acc < 2 ^ (7 * k) -> 0 <= v -> acc + v * 2 ^ (7 * k) < 2 ^ 32 ->
  (0 < k -> 0 < v) ->
  CheckLsh (v mod 128) (k * 7) = Some (Z.shiftl (v mod 128) (7 * k)) /\
  Z.lor acc (Z.shiftl (v mod 128) (7 * k)) = acc + v mod 128 * 2 ^ (7 * k).
Proof.
  intros Hk Hacc Hv Hlt Hpos. split; [|apply lor_shiftl_add; lia].
  pose proof (Z.mod_pos_bound v 128 ltac:(lia)).
  pose proof (Z.mod_le v 128 ltac:(lia) ltac:(lia)).
  apply Hlsh; [lia..|]. rewrite (Z.mul_comm k 7). rewrite Z.shiftl_mul_pow2 by lia.
  split_and!; [|done|nia].
  destruct (decide (k = 0)) as [->|]; [lia|].
  destruct (Z.lt_ge_cases (7 * k) 32) as [|Hge]; [done|exfalso].
  pose proof (Z.pow_le_mono_r 2 32 (7 * k) ltac:(lia) Hge). nia.
Qed.

(** One byte of a varint, at the front of what is in the ring. *)
Lemma read_varint_byte f dat off b tl acc k bits :
  length dat = N -> (off < N)%nat -> (S (length tl) <= N)%nat -> ring dat off (S (length tl)) = b :: tl ->
  CheckLsh (Z.land b kValueMask) (k * kBase128ByteValueBits) = Some bits ->
  let r := nrange (wrap_add N off 1) (length tl) in
  ring dat (wrap_add N off 1) (length tl) = tl /\
  ReadBase128Varint_loop CheckLsh (S f) dat (nrange off (S (length tl))) acc k =
    (if Z.land b kContinuationMask =? kContinuationMask
     then ReadBase128Varint_loop CheckLsh f dat r (Z.lor acc bits) (k + 1)
     else Run (Some (k + 1), Z.lor acc bits, r)).
Proof.
  intros Hd Ho Hl Hr Hb. destruct (ring_drop_front N dat off [b] tl) as [R1 R2]; [done..|]. split; [done|].
  cbn [ReadBase128Varint_loop]. pose proof (read_bytes_ok N HN dat off (S (length tl)) 1) as Hrd. change (Z.of_nat 1) with 1 in Hrd.
  cbn [length] in R1. rewrite Hrd, R1 by lia. cbn [run_bind negb]. change (default 0 (head [b])) with b. rewrite Hb.
  by replace (S (length tl) - 1)%nat with (length tl) by lia.
Qed.

Lemma read_varint_loop f f' v acc k dat off len rest :
  0 <= v < 128 ^ Z.of_nat f -> f <> 0%nat -> (f < f')%nat ->
  0 <= k -> 0 <= acc < 2 ^ (7 * k) -> acc + v * 2 ^ (7 * k) < 2 ^ 32 -> (0 < k -> 0 < v) ->
  length dat = N -> (off < N)%nat -> (len <= N)%nat ->
  len = length (varint_aux f v ++ rest) -> ring dat off len = varint_aux f v ++ rest ->
  ReadBase128Varint_loop CheckLsh f' dat (nrange off len) acc k =
  Run (Some (k + Z.of_nat (length (varint_aux f v))), acc + v * 2 ^ (7 * k),
       nrange (wrap_add N off (length (varint_aux f v))) (len - length (varint_aux f v))).
Proof.
  revert f' v acc k off len.
  induction f as [|f IH]; intros f' v acc k off len Hv Hf Hff Hk Hacc Hlt Hpos Hd Ho Hl Hlen Hr; [done|].
  destruct f' as [|f']; [lia|]. cbn [varint_aux] in *.
  destruct (varint_step acc v k) as [Hc Hlor]; [done..|lia|done|done|].
  pose proof (Z.mod_pos_bound v 128 ltac:(lia)) as Hmod.
  destruct (Z.ltb_spec kValueMask v) as [Hgt|Hle]; unfold kValueMask in Hgt || unfold kValueMask in Hle.
  - rewrite (varint_byte v), shiftr_7 in Hlen, Hr |- * by lia. set (vs := varint_aux f _) in *.
    destruct (varint_masks (v mod 128) Hmod) as (M1 & _ & M3 & _). cbn [app length] in Hlen, Hr. subst len.
    destruct (read_varint_byte f' dat off _ _ acc k (Z.shiftl (v mod 128) (7 * k)) Hd Ho Hl Hr) as [R2 ->]; [by rewrite M1|].
    rewrite M3, Z.eqb_refl, Hlor, Nat2Z.inj_succ, Z.pow_succ_r in * by lia.
    pose proof (Z.div_mod v 128 ltac:(lia)) as Hdm. rewrite length_app in *.
    assert (2 ^ (7 * (k + 1)) = 2 ^ (7 * k) * 128) as Hpow.
    { replace (7 * (k + 1)) with (7 * k + 7) by lia. by rewrite Z.pow_add_r by lia. }
    assert (0 < v / 128) by (apply Z.div_str_pos; lia).
    unfold vs in *. rewrite (IH f' (v / 128)); rewrite ?length_app; try done; try lia; try (rewrite Hpow; nia).
    + rewrite Hpow. cbn [length]. f_equal. f_equal; [f_equal; [f_equal; lia|nia]|].
      f_equal; try lia. rewrite wrap_add_add by lia. done.
    + intros ->. simpl in Hv. lia.
    + apply wrap_add_lt; lia.
  - rewrite (wrap_small 8) in Hlen, Hr |- * by lia. cbn [app length] in Hlen, Hr. subst len.
    rewrite (Z.mod_small v 128) in Hc, Hlor by lia. destruct (varint_masks v ltac:(lia)) as (_ & M2 & _ & M4).
    destruct (read_varint_byte f' dat off _ _ acc k (Z.shiftl v (7 * k)) Hd Ho Hl Hr) as [_ ->]; [by rewrite M2|].
    rewrite M4, Hlor. cbn [length]. by replace (S (length rest) - 1)%nat with (length rest) by lia.
Qed.

Lemma read_varint_ok v dat off len rest :
  0 <= v < 2 ^ 32 -> length dat = N -> (off < N)%nat -> (len <= N)%nat ->
  len = length (varint v ++ rest) -> ring dat off len = varint v ++ rest ->
  ReadBase128VarintFromRingBuffer CheckLsh dat (nrange off len) =
  Run (Some (Z.of_nat (length (varint v))), v,
       nrange (wrap_add N off (length (varint v))) (len - length (varint v))).
Proof.
  intros Hv Hd Ho Hl Hlen Hr. unfold ReadBase128VarintFromRingBuffer.
  rewrite (read_varint_loop 10 11 v 0 0 dat off len rest); try done; try lia.
  - unfold varint. f_equal. f_equal. f_equal. change (2 ^ (7 * 0)) with 1. lia.
Qed.

Lemma varint_pos v : (0 < length (varint v))%nat.
Proof. by apply varint_aux_pos. Qed.

Lemma holds_tail dat off x items :
  holds N dat off (length (enc_all (x :: items))) (x :: items) ->
  holds N dat (wrap_add N off (length (enc x))) (length (enc_all items)) items.
Proof.
  intros (Hd & Ho & Hl & _ & Hr & Hf). rewrite enc_all_cons in *.
  destruct (ring_drop_front N dat off (enc x) (enc_all items)) as [_ R2]; [done..|].
  rewrite length_app in Hl. split_and!; try done; [apply wrap_add_lt; lia|lia|].
  by apply Forall_inv_tail in Hf.
Qed.

(** The front item's length is read from the stored region. *)
Lemma read_front dat off x items :
  holds N dat off (length (enc_all (x :: items))) (x :: items) ->
  ReadBase128VarintFromRingBuffer CheckLsh dat (nrange off (length (enc_all (x :: items)))) =
  Run (Some (Z.of_nat (length (varint (Z.of_nat (length x))))), Z.of_nat (length x),
       nrange (wrap_add N off (length (varint (Z.of_nat (length x)))))
              (length x + length (enc_all items))).
Proof.
  intros (Hd & Ho & Hl & _ & Hr & Hf). rewrite enc_all_cons in *. unfold enc in *.
  rewrite <-app_assoc in *.
  rewrite (read_varint_ok (Z.of_nat (length x)) dat off _ (x ++ enc_all items)); try done.
  - do 2 f_equal. f_equal. rewrite !length_app. lia.
  - rewrite !length_app in Hl. lia.
Qed.

Lemma make_room_ok fuel dat off items needed :
  holds N dat off (length (enc_all items)) items -> (needed <= N)%nat ->
  (length items < fuel)%nat ->
  exists off', 
    make_room CheckLsh fuel dat (nrange off (length (enc_all items)))
      (Z.of_nat N - Z.of_nat (length (enc_all items))) (Z.of_nat needed) =
    Run (Some (nrange off' (length (enc_all (evict N needed items))))) /\
    holds N dat off' (length (enc_all (evict N needed items))) (evict N needed items) /\
    (length (enc_all (evict N needed items)) + needed <= N)%nat /\
    wrap_add N off' (length (enc_all (evict N needed items))) =
    wrap_add N off (length (enc_all items)).
Proof.
  revert off items; induction fuel as [|f IH]; intros off items Hh Hn Hf; [lia|].
  pose proof Hh as (Hd & Ho & Hl & _ & Hr & Hall).
  cbn [make_room]. destruct items as [|x items].
  { simpl evict. change (enc_all []) with ([] : bytes) in *. simpl length in *.
    destruct (Z.ltb_spec (Z.of_nat N - Z.of_nat 0) (Z.of_nat needed)); [lia|].
    exists off. split_and!; try done; lia. }
  cbn [evict].
  destruct (Z.ltb_spec (Z.of_nat N - Z.of_nat (length (enc_all (x :: items)))) (Z.of_nat needed)).
  2:{ destruct (Nat.ltb_spec (N - length (enc_all (x :: items))) needed); [lia|].
      exists off. split_and!; try done; lia. }
  destruct (Nat.ltb_spec (N - length (enc_all (x :: items))) needed); [|lia].
  rewrite read_front by done. cbn [run_bind offset length_].
  unfold RingBufferArraySize. rewrite Hd.
  rewrite enc_all_cons in *. unfold enc in *. rewrite !length_app in *.
  pose proof (varint_pos (Z.of_nat (length x))) as Hvp.
  set (vl := length (varint (Z.of_nat (length x)))) in *.
  rewrite u32_add_mod by (try apply wrap_add_lt; lia).
  rewrite wrap_add_add by lia. rewrite !wrap_small by lia.
  pose proof (holds_tail dat off x items) as Ht.
  rewrite enc_all_cons in Ht. unfold enc in Ht. rewrite !length_app in Ht. fold vl in Ht.
  specialize (Ht Hh).
  destruct (IH (wrap_add N off (vl + length x)) items Ht Hn) as (off' & E & H1 & H2 & H3);
    [simpl in Hf; lia|].
  exists off'. split_and!; try done.
  - rewrite <-E. f_equal; [f_equal; lia | lia].
  - rewrite H3. rewrite wrap_add_add by lia. f_equal; lia.
Qed.

Lemma items_le_bytes items : (length items <= length (enc_all items))%nat.
Proof.
  induction items as [|x items IH]; [done|]. rewrite enc_all_cons, length_app. simpl length.
  pose proof (varint_pos (Z.of_nat (length x))). unfold enc. rewrite length_app. lia.
Qed.

Lemma evict_nonempty needed items :
  Forall (fun x => 0 < length x)%nat items ->
  Forall (fun x => 0 < length x)%nat (evict N needed items).
Proof.
  induction 1 as [|x items Hx Hall IH]; cbn [evict]; [done|]. case_match; [done|by constructor].
Qed.

(** An item is added at the end of what the ring holds. *)
Lemma holds_add dat off items item :
  holds N dat off (length (enc_all items)) items -> (0 < length item)%nat ->
  (length (enc_all items) + length (enc item) <= N)%nat ->
  holds N (ring_write (wrap_add N off (length (enc_all items))) (enc item) dat) off
    (length (enc_all items) + length (enc item)) (items ++ [item]).
Proof.
  intros (Hd & Ho & Hl & _ & Hr & Hall) Hi Hfit. set (len := length (enc_all items)) in *. set (wo := wrap_add N off len).
  assert (wo < N)%nat as Hwo by (apply wrap_add_lt; lia).
  assert (length (ring_write wo (enc item) dat) = N) as Hd2 by (rewrite length_ring_write; lia).
  split_and!; try done.
  - rewrite enc_all_app, length_app. unfold enc_all at 2. simpl. by rewrite app_nil_r.
  - rewrite ring_split, Hd2, enc_all_app by lia. f_equal.
    + unfold wo. rewrite <-Hd. rewrite ring_write_before; rewrite ?Hd; [done|lia..].
    + fold wo. rewrite ring_write_same by lia. unfold enc_all. simpl. by rewrite app_nil_r.
  - apply Forall_app. split; [done|]. by repeat constructor.
Qed.

(** The length and the bytes of an item are written one after the other. *)
Lemma push_writes dat wo item :
  length dat = N -> (wo < N)%nat -> admissible N item ->
  (let! (_, data1, wr1) := WriteBase128VarintToRingBuffer (Z.of_nat (length item)) dat (nrange wo (length (enc item))) in
   WriteBytesToRingBuffer item data1 wr1) =
  Run (true, ring_write wo (enc item) dat, nrange (wrap_add N wo (length (enc item))) 0).
Proof.
  intros Hd Hwo (Hi1 & Hi2 & Hi3). unfold WriteBase128VarintToRingBuffer.
  assert (length (enc item) = length (varint (Z.of_nat (length item))) + length item)%nat as Henc
    by (unfold enc; by rewrite length_app).
  set (v := varint (Z.of_nat (length item))) in *.
  pose proof (write_varint_ok N HN 10 (Z.of_nat (length item)) 1 dat wo (length (enc item))) as Hwv.
  change (varint_aux 10 _) with v in Hwv.
  rewrite Hwv by (try done; try lia; change (128 ^ Z.of_nat 10) with (2 ^ 70); lia). cbn [run_bind].
  assert (length (ring_write wo v dat) = N) as Hd1 by (rewrite length_ring_write; lia).
  rewrite (write_bytes_ok N HN) by (try done; try (apply wrap_add_lt); lia).
  pose proof (ring_write_app wo v item dat) as Ha. rewrite Hd in Ha. rewrite Ha by lia. change (v ++ item) with (enc item).
  rewrite wrap_add_add, <-Henc by lia. by replace (length (enc item) - length v - length item)%nat with 0%nat by lia.
Qed.

Lemma push_refines w items item :
  represents N w items -> admissible N item ->
  exists w', Push CheckLsh w item = Run (true, w') /\ represents N w' (spec_push N items item).
Proof.
  intros (off & len & Er & Eo & Hh) Hadm. pose proof Hadm as (Hi1 & Hi2 & Hi3).
  pose proof Hh as (Hd & Ho & Hl & Elen & Hr & Hall). subst len.
  unfold Push. rewrite Er, Eo, Hd. cbn [length_ offset].
  destruct (Z.eqb_spec (Z.of_nat (length item)) 0); [lia|].
  rewrite varint_length by lia.
  assert (length (enc item) = length (varint (Z.of_nat (length item))) + length item)%nat as Henc
    by (unfold enc; by rewrite length_app).
  rewrite <-Nat2Z.inj_add, <-Henc, wrap_small by lia.
  destruct (Z.ltb_spec (Z.of_nat N) (Z.of_nat (length (enc item)))); [lia|].
  unfold RingBufferArraySize. rewrite Hd, wrap_small by lia.
  destruct (make_room_ok (S N) (data (ring_buffer_ w)) off items (length (enc item)) Hh)
    as (off' & E & Hh' & Hfit & Hw'); [lia| |].
  { pose proof (items_le_bytes items). lia. }
  rewrite E. cbn [run_bind]. clear E. set (items' := evict N (length (enc item)) items) in *.
  rewrite <-Hw'. set (wo := wrap_add N off' (length (enc_all items'))) in *.
  pose proof Hh' as (_ & Ho' & Hl' & _). assert (wo < N)%nat as Hwo by (apply wrap_add_lt; lia).
  pose proof (push_writes (data (ring_buffer_ w)) wo item Hd Hwo Hadm) as Hpw.
  destruct (WriteBase128VarintToRingBuffer _ _ _) as [[[? data1] wr1]| |]; cbn [run_bind] in Hpw |- *; [|done|done].
  rewrite Hpw. cbn [run_bind]. eexists. split; [done|].
  exists off', (length (enc_all items') + length (enc item))%nat.
  cbn [ring_buffer_ data_range data ring_buffer_write_offset_ offset]. split_and!.
  - f_equal. cbn [length_]. rewrite wrap_small; lia.
  - f_equal. unfold wo. rewrite !wrap_add_add by lia. done.
  - by apply holds_add.
Qed.

Lemma pop_refines dat off x items target :
  holds N dat off (length (enc_all (x :: items))) (x :: items) ->
  Pop CheckLsh dat (nrange off (length (enc_all (x :: items)))) target =
  Run (true, target ++ x, nrange (wrap_add N off (length (enc x))) (length (enc_all items))).
Proof.
  intros Hh. unfold Pop. rewrite read_front by done. cbn [run_bind].
  destruct Hh as (Hd & Ho & Hl & _ & Hr & Hall). apply Forall_inv in Hall.
  destruct (Z.eqb_spec (Z.of_nat (length x)) 0); [lia|].
  rewrite enc_all_cons in *. unfold enc in *. rewrite !length_app in *.
  set (v := varint (Z.of_nat (length x))) in *.
  rewrite (read_bytes_ok N HN) by (try done; try apply wrap_add_lt; lia).
  cbn [run_bind negb].
  destruct (ring_drop_front N dat off v (x ++ enc_all items)) as [_ R2];
    [done..|rewrite !length_app; lia| |].
  { rewrite !length_app, Nat.add_assoc, Hr. by rewrite app_assoc. }
  destruct (ring_drop_front N dat (wrap_add N off (length v)) x (enc_all items)) as [R3 _];
    [done|apply wrap_add_lt; lia|rewrite length_app; lia|done|].
  rewrite R3. rewrite wrap_add_add by lia. do 3 f_equal. lia.
Qed.

Lemma pop_empty dat off target :
  length dat = N -> (off < N)%nat ->
  Pop CheckLsh dat (nrange off 0) target = Run (false, target, nrange off 0).
Proof. intros Hd Ho. reflexivity. Qed.

End Queue.

(** ** Sequences of operations *)

Section Sequences.
  Variable CheckLsh : Z -> Z -> option Z.

(** Push every item in turn: the results and the writer. *)
Fixpoint push_all (w : Writer) (items : list bytes) : run (list bool * Writer) :=
  match items with
  | [] => Run ([], w)
  | x :: rest =>
      let! (ok, w1) := Push CheckLsh w x in
      let! (oks, w2) := push_all w1 rest in Run (ok :: oks, w2)
  end.

(** Pop into an empty vector until [Pop] fails. *)
Fixpoint pop_all (fuel : nat) (dat : bytes) (r : Range) : run (list bytes) :=
  match fuel with
  | O => OutOfFuel
  | S f =>
      let! (ok, item, r1) := Pop CheckLsh dat r [] in
      if ok then let! items := pop_all f dat r1 in Run (item :: items) else Run []
  end.
End Sequences.

(** The longest run of the newest items whose stored form fits [n] bytes. *)
Fixpoint newest (n : nat) (items : list bytes) : list bytes :=
  if (length (enc_all items) <=? n)%nat then items
  else match items with [] => [] | _ :: rest => newest n rest end.

Lemma newest_cons n x items :
  newest n (x :: items) =
  if (length (enc_all (x :: items)) <=? n)%nat then x :: items else newest n items.
Proof. done. Qed.

Lemma newest_fits n items : (length (enc_all (newest n items)) <= n)%nat.
Proof.
  induction items as [|x items IH]; [simpl; lia|].
  rewrite newest_cons. destruct (Nat.leb_spec (length (enc_all (x :: items))) n); done.
Qed.

Lemma newest_newest n k items : newest (n - k) (newest n items) = newest (n - k) items.
Proof.
  induction items as [|x items IH]; [done|]. rewrite (newest_cons n).
  destruct (Nat.leb_spec (length (enc_all (x :: items))) n); [done|].
  rewrite IH, newest_cons.
  destruct (Nat.leb_spec (length (enc_all (x :: items))) (n - k)); [lia|done].
Qed.

Lemma newest_snoc n items x :
  (length (enc x) <= n)%nat -> newest n (items ++ [x]) = newest (n - length (enc x)) items ++ [x].
Proof.
  intros Hx. assert (length (enc_all [x]) = length (enc x)) as H1.
  { unfold enc_all. simpl. by rewrite app_nil_r. }
  induction items as [|y items IH].
  { simpl app. rewrite newest_cons, H1. by destruct (Nat.leb_spec (length (enc x)) n); [|lia]. }
  rewrite <-app_comm_cons, !newest_cons, IH, app_comm_cons, enc_all_app, length_app, H1.
  destruct (Nat.leb_spec (length (enc_all (y :: items)) + length (enc x)) n);
    destruct (Nat.leb_spec (length (enc_all (y :: items))) (n - length (enc x))); done || lia.
Qed.

Lemma evict_newest n needed items :
  (needed <= n)%nat -> (length (enc_all items) <= n)%nat ->
  evict n needed items = newest (n - needed) items.
Proof.
  intros Hn. induction items as [|x items IH]; intros Hl; [done|]. rewrite newest_cons.
  cbn [evict]. destruct (Nat.ltb_spec (n - length (enc_all (x :: items))) needed);
    destruct (Nat.leb_spec (length (enc_all (x :: items))) (n - needed)); try lia; [|done].
  apply IH. rewrite enc_all_cons, length_app in Hl. lia.
Qed.

Lemma spec_push_newest n items x :
  (length (enc x) <= n)%nat -> spec_push n (newest n items) x = newest n (items ++ [x]).
Proof.
  intros Hx. unfold spec_push. rewrite evict_newest by (done || apply newest_fits).
  by rewrite newest_newest, newest_snoc.
Qed.

Section Refinement.
  Context (N : nat) (HN : 2 * Z.of_nat N <= 2 ^ 32).
  Context (CheckLsh : Z -> Z -> option Z) (Hlsh : CheckLsh_exact CheckLsh).

Lemma push_all_refines w before items :
  represents N w (newest N before) -> Forall (admissible N) items ->
  exists w', push_all CheckLsh w items = Run (replicate (length items) true, w') /\
    represents N w' (newest N (before ++ items)).
Proof.
  revert w before; induction items as [|x items IH]; intros w before Hr Hadm.
  { exists w. by rewrite app_nil_r. }
  apply Forall_cons in Hadm as [Hx Hadm].
  destruct (push_refines N HN CheckLsh Hlsh w _ x Hr Hx) as (w1 & E1 & Hr1).
  rewrite spec_push_newest in Hr1 by (destruct Hx as (_ & _ & ?); lia).
  destruct (IH w1 _ Hr1 Hadm) as (w2 & E2 & Hr2).
  exists w2. cbn [push_all]. rewrite E1. cbn [run_bind]. rewrite E2. cbn [run_bind].
  split; [done|]. by rewrite <-app_assoc in Hr2.
Qed.

Lemma pop_all_refines fuel dat off items :
  holds N dat off (length (enc_all items)) items -> (length items < fuel)%nat ->
  pop_all CheckLsh fuel dat (nrange off (length (enc_all items))) = Run items.
Proof.
  revert fuel off; induction items as [|x items IH]; intros fuel off Hh Hf;
    (destruct fuel as [|fuel]; [simpl in Hf; lia|]).
  - reflexivity.
  - cbn [pop_all]. rewrite (pop_refines N HN CheckLsh Hlsh) by done. cbn [run_bind].
    rewrite IH; [done| |simpl in Hf; lia]. by apply holds_tail.
Qed.

Lemma new_writer_represents initial :
  length initial = N -> (0 < N)%nat ->
  represents N (new_writer (new_ring_buffer initial)) [].
Proof.
  intros Hi Hp. exists 0%nat, 0%nat. split_and!; [done| |].
  - simpl. f_equal. wrap_cases; lia.
  - split_and!; try done; simpl; lia.
Qed.

End Refinement.

(** C12.  The ring buffer is a bounded queue: if every item takes at most half of
    the capacity (and not all of it with its length), pushing any sequence onto
    an empty buffer always succeeds without touching memory outside the array,
    and popping until failure returns exactly the longest run of the newest
    items that fits the capacity, oldest first and byte for byte. *)
Theorem ring_buffer_fifo (CheckLsh : Z -> Z -> option Z) (initial : bytes)
    (items : list bytes) :
  let N := length initial in
  CheckLsh_exact CheckLsh -> 2 * Z.of_nat N <= 2 ^ 32 -> (0 < N)%nat ->
  Forall (admissible N) items ->
  exists w,
    push_all CheckLsh (new_writer (new_ring_buffer initial)) items =
      Run (replicate (length items) true, w) /\
    pop_all CheckLsh (S (length items)) (data (ring_buffer_ w)) (data_range (ring_buffer_ w)) =
      Run (newest N items).
Proof.
  intros N Hlsh HN Hpos Hadm.
  destruct (push_all_refines N HN CheckLsh Hlsh (new_writer (new_ring_buffer initial)) [] items)
    as (w & E & Hr); [by apply new_writer_represents|done|].
  exists w. split; [done|]. destruct Hr as (off & len & -> & _ & Hh).
  pose proof Hh as (_ & _ & _ & -> & _ & _). apply (pop_all_refines N); try done.
  clear. induction items as [|x items IH]; [simpl; lia|].
  simpl app in *. rewrite newest_cons. case_match; simpl in *; lia.
Qed.

Lemma ring_buffer_fifo_witness :
  exists w,
    push_all CheckLsh_u32 (new_writer (new_ring_buffer (replicate 9 7)))
      [[1; 2]; [3]; [4; 5; 6]; [8]] = Run (replicate 4 true, w) /\
    pop_all CheckLsh_u32 5 (data (ring_buffer_ w)) (data_range (ring_buffer_ w)) =
      Run [[3]; [4; 5; 6]; [8]].
Proof.
  apply (ring_buffer_fifo CheckLsh_u32 (replicate 9 7) [[1; 2]; [3]; [4; 5; 6]; [8]]).
  - exact CheckLsh_u32_exact.
  - simpl. lia.
  - simpl. lia.
  - repeat constructor; simpl; lia.
Defined.

(** Outside that condition [Push] loses data: an item longer than half of
    the capacity (whose stored form is still less than the capacity) is reported
    as pushed, but only its length is stored, and none of its bytes. *)
Theorem push_over_half_not_stored (CheckLsh : Z -> Z -> option Z) (initial item : bytes) :
  let N := length initial in
  2 * Z.of_nat N <= 2 ^ 32 -> (0 < length item)%nat ->
  (length (enc item) < N < 2 * length item)%nat ->
  exists w, Push CheckLsh (new_writer (new_ring_buffer initial)) item = Run (true, w) /\
    data (ring_buffer_ w) = ring_write 0 (varint (Z.of_nat (length item))) initial /\
    data_range (ring_buffer_ w) = nrange 0 (length (enc item)).
Proof.
  intros N HN Hpos Hlen.
  assert (length (enc item) = length (varint (Z.of_nat (length item))) + length item)%nat as Henc.
  { unfold enc. by rewrite length_app. }
  unfold Push. cbn [new_writer ring_buffer_ data new_ring_buffer data_range length_ offset
    ring_buffer_write_offset_]. fold N.
  destruct (Z.eqb_spec (Z.of_nat (length item)) 0); [lia|].
  rewrite varint_length by lia. rewrite <-Nat2Z.inj_add, <-Henc, wrap_small by lia.
  destruct (Z.ltb_spec (Z.of_nat N) (Z.of_nat (length (enc item)))); [lia|].
  unfold RingBufferArraySize. fold N. cbn [make_room]. rewrite Z.sub_0_r, wrap_small by lia.
  destruct (Z.ltb_spec (Z.of_nat N) (Z.of_nat (length (enc item)))); [lia|]. cbn [run_bind].
  set (v := varint (Z.of_nat (length item))) in *.
  pose proof (write_varint_ok N HN 10 (Z.of_nat (length item)) 1 initial 0 (length (enc item))) as Hwv.
  change (varint_aux 10 _) with v in Hwv. unfold WriteBase128VarintToRingBuffer.
  change (Z.of_nat 0) with 0 in Hwv.
  rewrite Hwv by (try done; try lia; change (128 ^ Z.of_nat 10) with (2 ^ 70); lia).
  cbn [run_bind].
  rewrite (write_bytes_refused N HN) by (rewrite ?length_ring_write; fold N; lia).
  cbn [run_bind]. eexists. split; [done|].
  cbn [ring_buffer_ data data_range offset length_]. split; [done|]. f_equal.
  rewrite wrap_small; lia.
Qed.

Lemma push_over_half_not_stored_witness :
  exists w, Push CheckLsh_u32 (new_writer (new_ring_buffer (replicate 8 0))) [1; 2; 3; 4; 5] =
    Run (true, w) /\
    data (ring_buffer_ w) = [5; 0; 0; 0; 0; 0; 0; 0] /\
    data_range (ring_buffer_ w) = MkRange 0 6.
Proof.
  apply (push_over_half_not_stored CheckLsh_u32 (replicate 8 0) [1; 2; 3; 4; 5]); simpl; lia.
Defined.

(** ** The serialized form *)

(** The bytes of a [RingBufferData] in memory: magic, version, range, data. *)
Definition ring_buffer_bytes (rb : RingBufferData) : bytes :=
  le_bytes 4 kMagic ++ le_bytes 4 kVersion ++
  le_bytes 4 (offset (data_range rb)) ++ le_bytes 4 (length_ (data_range rb)) ++ data rb.

(** The part of them a [RingBufferAnnotation] reports ([SetSize] is called with
    [GetRingBufferLength]). *)
Definition annotation_value (rb : RingBufferData) : bytes :=
  take (Z.to_nat (GetRingBufferLength rb)) (ring_buffer_bytes rb).

(** [RingBufferAnnotation::Push], when the spin guard is obtained: the result,
    the writer, and the size passed to [SetSize] on success. *)
Definition RingBufferAnnotation_Push (CheckLsh : Z -> Z -> option Z) (guard_obtained : bool)
    (w : Writer) (size_ : Z) (buffer : bytes) : run (bool * Writer * Z) :=
  if negb guard_obtained then Run (false, w, size_)
  else
    let! (success, w1) := Push CheckLsh w buffer in
    Run (success, w1, if success then GetRingBufferLength (ring_buffer_ w1) else size_).

Lemma slice_app_at {A} (p q s : list A) :
  slice (length p) (length q) (p ++ q ++ s) = q.
Proof. unfold slice. rewrite drop_app_length. by rewrite take_app_length. Qed.

Lemma header_words m v o l (d : bytes) :
  0 <= m < 2 ^ 32 -> 0 <= v < 2 ^ 32 -> 0 <= o < 2 ^ 32 -> 0 <= l < 2 ^ 32 ->
  let b := le_bytes 4 m ++ le_bytes 4 v ++ le_bytes 4 o ++ le_bytes 4 l ++ d in
  le_value (slice (4 * 0) 4 b) = m /\ le_value (slice (4 * 1) 4 b) = v /\
  le_value (slice (4 * 2) 4 b) = o /\ le_value (slice (4 * 3) 4 b) = l /\ drop 16 b = d.
Proof.
  intros Hm Hv Ho Hl b. change (2 ^ 32) with (256 ^ Z.of_nat 4) in *.
  subst b. unfold slice. cbn [le_bytes app Nat.mul Nat.add drop take].
  split_and!; [| | | |done].
  all: match goal with |- le_value _ = ?x => rewrite <-(le_value_bytes_small 4 x) at 5 by done end.
  all: reflexivity.
Qed.

Lemma ring_prefix_enough n (d1 d2 : bytes) off len :
  length d1 = n -> length d2 = n -> (off < n)%nat -> (len <= n)%nat ->
  ring (overwrite 0 (take (Nat.min n (off + len)) d1) d2) off len = ring d1 off len.
Proof.
  intros H1 H2 Ho Hl.
  assert (length (overwrite 0 (take (Nat.min n (off + len)) d1) d2) = n) as Hd.
  { rewrite length_overwrite; len_lia. }
  apply list_eq. intros i. destruct (decide (i < len)%nat).
  - rewrite !lookup_ring by lia. rewrite Hd, H1. rewrite lookup_overwrite by len_lia.
    rewrite length_take. 
    assert (wrap_add n off i < Nat.min n (off + len))%nat by (wrap_cases; lia).
    destruct (Nat.ltb_spec (wrap_add n off i) 0); [lia|].
    destruct (Nat.ltb_spec (wrap_add n off i) (0 + Nat.min (Nat.min n (off + len)) (length d1)));
      [|lia].
    rewrite Nat.sub_0_r. by rewrite lookup_take_lt by lia.
  - rewrite !lookup_ge_None_2; [done|rewrite length_ring; lia..].
Qed.

(** C39.  The value a ring buffer annotation reports is enough to get the items back:
    for a ring buffer that holds items, of a capacity below 2{^31} less its header,
    deserializing the value into another ring buffer of the same capacity succeeds,
    whatever that one held, and popping from it returns the items of the original, in
    order, even when they wrap around the end of the array. *)
Theorem ring_buffer_serialization (CheckLsh : Z -> Z -> option Z) (w : Writer)
    (items : list bytes) (rb2 : RingBufferData) :
  let N := length (data (ring_buffer_ w)) in
  CheckLsh_exact CheckLsh -> 2 * Z.of_nat N + 16 <= 2 ^ 32 ->
  represents N w items -> length (data rb2) = N ->
  exists rb3,
    DeserializeFromBuffer rb2 (annotation_value (ring_buffer_ w)) = (true, rb3) /\
    pop_all CheckLsh (S (length items)) (data rb3) (data_range rb3) = Run items.
Proof.
  intros N Hlsh HN (off & len & Er & _ & Hh) H2.
  pose proof Hh as (Hd & Ho & Hl & Elen & Hr & Hall).
  set (rb := ring_buffer_ w) in *.
  assert (GetRingBufferLength rb = Z.of_nat (16 + Nat.min N (off + len))) as HG.
  { unfold GetRingBufferLength, RingBufferArraySize, sizeof_Header. rewrite Er. simpl.
    fold N. rewrite (wrap_small 32 (Z.of_nat off + Z.of_nat len)) by lia.
    rewrite wrap_small; lia. }
  set (k := Nat.min N (off + len)) in *.
  assert (annotation_value rb =
    le_bytes 4 kMagic ++ le_bytes 4 kVersion ++ le_bytes 4 (Z.of_nat off) ++
    le_bytes 4 (Z.of_nat len) ++ take k (data rb)) as Hav.
  { unfold annotation_value, ring_buffer_bytes. rewrite HG, Nat2Z.id, Er. reflexivity. }
  rewrite Hav. unfold DeserializeFromBuffer.
  destruct (header_words kMagic kVersion (Z.of_nat off) (Z.of_nat len) (take k (data rb)))
    as (W0 & W1 & W2 & W3 & W4); [unfold kMagic, kVersion; lia..|].
  set (b := le_bytes 4 kMagic ++ _) in *.
  assert (length b = 16 + k)%nat as Hb.
  { unfold b. rewrite !length_app, !length_le_bytes, length_take. fold N. lia. }
  rewrite Hb, W0, W1, W2, W3, W4, !Z.eqb_refl, H2. unfold sizeof_Header. cbn [negb orb].
  destruct (Z.ltb_spec (Z.of_nat (16 + k)) 16); [lia|].
  destruct (Z.ltb_spec (16 + Z.of_nat N) (Z.of_nat (16 + k))); [lia|].
  cbn [orb]. eexists. split; [done|]. cbn [data data_range]. subst len.
  apply (pop_all_refines N); try done; [lia| |lia].
  split_and!; try done.
  - rewrite length_overwrite; [done|]. rewrite length_take. lia.
  - unfold k. rewrite (ring_prefix_enough N); done.
Qed.

Lemma ring_buffer_serialization_witness :
  exists rb3,
    DeserializeFromBuffer (new_ring_buffer [9; 9; 9])
      (annotation_value (MkRingBufferData (MkRange 2 2) [66; 7; 1])) = (true, rb3) /\
    pop_all CheckLsh_u32 2 (data rb3) (data_range rb3) = Run [[66]].
Proof.
  apply (ring_buffer_serialization CheckLsh_u32
           (MkWriter (MkRingBufferData (MkRange 2 2) [66; 7; 1]) 1) [[66]]
           (new_ring_buffer [9; 9; 9])); [exact CheckLsh_u32_exact|simpl; lia| |reflexivity].
  exists 2%nat, 2%nat. split_and!; try reflexivity; simpl; try lia.
  repeat constructor; simpl; lia.
Defined.

(** The range of a deserialized header is not checked: a buffer of the
    right size whose header has an offset beyond the capacity is accepted, and
    the first [Pop] then reads outside the array. *)
Theorem deserialize_range_unchecked (CheckLsh : Z -> Z -> option Z) (rb : RingBufferData)
    (o l : Z) (target : bytes) :
  let N := Z.of_nat (length (data rb)) in
  N < o < 2 ^ 32 -> 0 < l < 2 ^ 32 ->
  let buffer := ring_buffer_bytes (MkRingBufferData (MkRange o l) (data rb)) in
  exists rb2, DeserializeFromBuffer rb buffer = (true, rb2) /\
    Pop CheckLsh (data rb2) (data_range rb2) target = OutOfBounds.
Proof.
  intros N Ho Hl buffer. unfold buffer, ring_buffer_bytes, DeserializeFromBuffer.
  cbn [data data_range offset length_].
  destruct (header_words kMagic kVersion o l (data rb)) as (W0 & W1 & W2 & W3 & W4);
    [unfold kMagic, kVersion; lia..|].
  set (b := le_bytes 4 kMagic ++ _) in *.
  assert (Z.of_nat (length b) = 16 + N) as Hb.
  { unfold b. rewrite !length_app, !length_le_bytes. lia. }
  rewrite Hb, W0, W1, W2, W3, W4, !Z.eqb_refl. unfold sizeof_Header. fold N.
  destruct (Z.ltb_spec (16 + N) 16); [lia|]. destruct (Z.ltb_spec (16 + N) (16 + N)); [lia|].
  cbn [negb orb]. eexists. split; [done|]. cbn [data data_range].
  unfold Pop, ReadBase128VarintFromRingBuffer. cbn [ReadBase128Varint_loop].
  unfold ReadBytesFromRingBuffer. cbn [offset length_].
  destruct (Z.ltb_spec l 1); [lia|]. change (1 =? 0) with false. cbn iota.
  unfold RingBufferArraySize. rewrite length_overwrite by lia. fold N.
  assert (u32 (N - o) = N - o + 2 ^ 32) as ->.
  { symmetry. apply (Z.mod_unique _ _ (-1)); lia. }
  rewrite Z.min_l by lia. unfold load. rewrite length_overwrite by lia. fold N.
  destruct (Z.leb_spec (o + 1) N); [lia|]. by rewrite andb_false_r.
Qed.

Lemma deserialize_range_unchecked_witness :
  exists rb2, DeserializeFromBuffer (new_ring_buffer [0; 0; 0])
      (ring_buffer_bytes (MkRingBufferData (MkRange 1000 2) [0; 0; 0])) = (true, rb2) /\
    Pop CheckLsh_u32 (data rb2) (data_range rb2) [] = OutOfBounds.
Proof.
  apply (deserialize_range_unchecked CheckLsh_u32 (new_ring_buffer [0; 0; 0]) 1000 2 []);
    simpl; lia.
Defined.
