(* ===== verification/AnnotationList.v ===== *)
(** * The list of annotations (client/annotation_list.cc, client/annotation.cc)

    Annotations are linked into a list that starts at [head_] and ends at [tail_].
    [AnnotationList::Add] is called by any number of threads at once, without a
    lock, and the list is read by another process at any time.  A state holds the
    atomic link nodes, which all threads share, and where each thread is in its
    calls of [Add]; [exec] is one atomic step of a thread, and an execution is any
    interleaving of such steps.  [published_] is a ghost: the annotations in the
    order in which [head_] has been made to point to them, the latest first. *)

From S2P Require Import Prelude.

(** A link node that is not null: the address of [tail_] or of an annotation. *)
Inductive Pointer := to_tail | to_annotation (a : nat).
#[export] Instance Pointer_eq_dec : EqDecision Pointer.
Proof. solve_decision. Defined.

(** Where a thread is in [Add]: not in it; before its [compare_exchange_strong];
    before its [compare_exchange_weak]; before the [store] in the body of the
    loop.  Each has the [annotation] and the local [head_next]. *)
Inductive Location :=
  | outside
  | at_exchange (a : nat) (head_next : Pointer)
  | at_publish (a : nat) (head_next : Pointer)
  | at_relink (a : nat) (head_next : Pointer).

(** A thread: the calls of [Add] it has yet to make, and where it is. *)
Record Thread := MkThread { calls : list nat; location_ : Location }.

Record State := MkState {
  head_link : Pointer;
  link_nodes : gmap nat Pointer;
  threads_ : list Thread;
  published_ : list nat
}.

Definition kNameMaxLength : nat := 256.

(** The constructor of [AnnotationList], and threads that have not started. *)
Definition init (programs : list (list nat)) : State :=
  MkState to_tail ∅ (map (fun p => MkThread p outside) programs) [].

Definition set_thread (s : State) (i : nat) (t : Thread) : State :=
  MkState (head_link s) (link_nodes s) (<[i := t]> (threads_ s)) (published_ s).
Definition set_link (s : State) (a : nat) (p : Pointer) : State :=
  MkState (head_link s) (<[a := p]> (link_nodes s)) (threads_ s) (published_ s).
Definition set_head (s : State) (a : nat) : State :=
  MkState (to_annotation a) (link_nodes s) (threads_ s) (a :: published_ s).

(** [begin] to [end]: the annotations that iterating over the list gives, or
    [None] when a link node on the way is null or the fuel is used up. *)
Fixpoint iterate (link_nodes : gmap nat Pointer) (p : Pointer) (fuel : nat) : option (list nat) :=
  match p, fuel with
  | to_tail, _ => Some []
  | to_annotation _, O => None
  | to_annotation a, S n =>
      q ← link_nodes !! a;
      l ← iterate link_nodes q n;
      Some (a :: l)
  end.

Section Add.
  (** The name of an annotation; [Annotation::name_] is constant. *)
  Variable name_ : nat -> bytes.

(** One step of [Add] in thread [i].  A [compare_exchange_weak] may fail although
    the value is the one expected, which [spurious] says.  There is no step for a
    thread with nothing to do, nor past a DCHECK that fails. *)
Definition exec (i : nat) (spurious : bool) (s : State) : option State :=
  match threads_ s !! i with
  | None => None
  | Some t =>
      match location_ t with
      | outside =>
          match calls t with
          | [] => None
          | a :: l => Some (set_thread s i (MkThread l (at_exchange a (head_link s))))
          end
      | at_exchange a head_next =>
          match link_nodes s !! a with
          | Some _ => Some (set_thread s i (MkThread (calls t) outside))
          | None =>
              if (length (name_ a) <? kNameMaxLength)%nat
              then Some (set_thread (set_link s a head_next) i
                           (MkThread (calls t) (at_publish a head_next)))
              else None
          end
      | at_publish a head_next =>
          if bool_decide (head_link s = head_next) && negb spurious
          then Some (set_thread (set_head s a) i (MkThread (calls t) outside))
          else Some (set_thread s i (MkThread (calls t) (at_relink a (head_link s))))
      | at_relink a head_next =>
          Some (set_thread (set_link s a head_next) i (MkThread (calls t) (at_publish a head_next)))
      end
  end.

(** A step of any thread. *)
Inductive step : State -> State -> Prop :=
  | thread_step i spurious s s' : exec i spurious s = Some s' -> step s s'.

(** Reading the list while it is being added to: between reading one link node and
    the next, any number of steps may be taken. *)
Inductive traverse : State -> Pointer -> list nat -> Prop :=
  | traverse_end s : traverse s to_tail []
  | traverse_next s s' a q l :
      rtc step s s' -> link_nodes s' !! a = Some q -> traverse s' q l ->
      traverse s (to_annotation a) (a :: l).

End Add.

(** ** The invariant *)

(** The link nodes lead from [p] through [l] to [tail_]. *)
Fixpoint chain (links : gmap nat Pointer) (p : Pointer) (l : list nat) : Prop :=
  match l with
  | [] => p = to_tail
  | a :: l' => p = to_annotation a /\ exists q, links !! a = Some q /\ chain links q l'
  end.

(** Thread [i] has linked [a] to the list and has not yet published it. *)
Definition holds_annotation (loc : Location) (a : nat) : Prop :=
  match loc with
  | at_publish b _ | at_relink b _ => a = b
  | _ => False
  end.
Definition pending (s : State) (i a : nat) : Prop :=
  exists t, threads_ s !! i = Some t /\ holds_annotation (location_ t) a.

(** The annotations that have been or will be added. *)
Definition calls_for (t : Thread) (a : nat) : Prop :=
  a ∈ calls t \/ match location_ t with at_exchange b _ => a = b | _ => False end.
Definition wanted (s : State) (a : nat) : Prop :=
  (exists i t, threads_ s !! i = Some t /\ calls_for t a) \/ is_Some (link_nodes s !! a).

Record invariant (programs : list (list nat)) (s : State) : Prop := {
  inv_chain : chain (link_nodes s) (head_link s) (published_ s);
  inv_distinct : NoDup (published_ s);
  inv_owner : forall i j a, pending s i a -> pending s j a -> i = j;
  inv_pending : forall i a, pending s i a -> a ∉ published_ s;
  inv_linked : forall a, is_Some (link_nodes s !! a) <->
    a ∈ published_ s \/ exists i, pending s i a;
  inv_expected : forall i t a h, threads_ s !! i = Some t -> location_ t = at_publish a h ->
    link_nodes s !! a = Some h;
  inv_wanted : forall a, wanted s a <-> exists p, p ∈ programs /\ a ∈ p;
  inv_threads : length (threads_ s) = length programs
}.

Lemma chain_insert links p l a q : a ∉ l -> chain links p l -> chain (<[a := q]> links) p l.
Proof.
  revert p. induction l as [|b l IH]; intros p Ha; [done|]. apply not_elem_of_cons in Ha as [Hb Ha].
  intros (-> & r & E & Hc). split; [done|]. exists r. rewrite lookup_insert_ne by done. auto.
Qed.

Lemma chain_iterate links p l : chain links p l -> iterate links p (length l) = Some l.
Proof.
  revert p. induction l as [|a l IH]; intros p; simpl; [by intros ->|].
  intros (-> & q & -> & Hc). simpl. by rewrite (IH q Hc).
Qed.

(** The threads after one of them has moved. *)
Lemma thread_moved {s i t t'} j u :
  threads_ s !! i = Some t -> <[i := t']> (threads_ s) !! j = Some u <->
  (j = i /\ u = t') \/ (j <> i /\ threads_ s !! j = Some u).
Proof.
  intros Hi. apply lookup_lt_Some in Hi. destruct (decide (j = i)) as [->|Hne].
  - rewrite list_lookup_insert_eq by done. naive_solver.
  - rewrite list_lookup_insert_ne by done. naive_solver.
Qed.

Section Move.
  Context (s s' : State) (i : nat) (t t' : Thread).
  Hypothesis (Hi : threads_ s !! i = Some t) (Hs : threads_ s' = <[i := t']> (threads_ s)).

Lemma pending_moved j a :
  pending s' j a <-> (j = i /\ holds_annotation (location_ t') a) \/ (j <> i /\ pending s j a).
Proof using Hi Hs.
  unfold pending. rewrite Hs. setoid_rewrite (thread_moved j _ Hi). naive_solver.
Qed.

Lemma wanted_moved a :
  wanted s' a <-> calls_for t' a \/ (exists j u, j <> i /\ threads_ s !! j = Some u /\ calls_for u a) \/
    is_Some (link_nodes s' !! a).
Proof using Hi Hs.
  unfold wanted. rewrite Hs. setoid_rewrite (thread_moved _ _ Hi). naive_solver.
Qed.

Lemma wanted_before a :
  wanted s a <-> calls_for t a \/ (exists j u, j <> i /\ threads_ s !! j = Some u /\ calls_for u a) \/
    is_Some (link_nodes s !! a).
Proof using Hi.
  clear Hs t' s'. unfold wanted. split.
  - intros [(j & u & Hu & Hc)|Hl]; [|by auto].
    destruct (decide (j = i)) as [->|]; [|by eauto 10]. left. by simplify_eq.
  - intros [?|[(j & u & _ & ?)|?]]; eauto 10.
Qed.

End Move.

(** ** Every step keeps the invariant *)

Lemma init_invariant programs : invariant programs (init programs).
Proof.
  assert (forall i t, threads_ (init programs) !! i = Some t -> location_ t = outside /\ calls t ∈ programs)
    as Ht.
  { intros i t. cbn. rewrite list_lookup_fmap. destruct (programs !! i) as [p|] eqn:E; [|done].
    intros [= <-]. split; [done|]. by eapply list_elem_of_lookup_2. }
  assert (forall i a, ~ pending (init programs) i a) as Hp.
  { intros i a (t & Hi & Hh). by destruct (Ht i t Hi) as [E _]; rewrite E in Hh. }
  split; try (cbn; done || by intros; destruct (Hp _ _ ltac:(eassumption))).
  - constructor.
  - intros a. cbn. rewrite lookup_empty. split; [by intros [? ?]|].
    intros [?%elem_of_nil|(i & Hi)]; [done|by destruct (Hp i a)].
  - intros i t a h Hi Hl. destruct (Ht i t Hi) as [E _]. by rewrite E in Hl.
  - intros a. split.
    + intros [(i & t & Hi & Hc)|[? ?]]; [|done]. destruct (Ht i t Hi) as [E Hin].
      destruct Hc as [Hc|Hc]; [eauto|by rewrite E in Hc].
    + intros (p & [i Hp']%list_elem_of_lookup_1 & Ha). left. exists i, (MkThread p outside).
      split; [|by left]. cbn. by rewrite list_lookup_fmap, Hp'.
  - cbn. apply length_map.
Qed.

Section Steps.
  Context (programs : list (list nat)) (s : State) (Hinv : invariant programs s) (i : nat) (t : Thread).
  Hypothesis (Hi : threads_ s !! i = Some t).

(** A step that changes nothing but where thread [i] is: it holds what it held. *)
Lemma local_step t' :
  (forall a, holds_annotation (location_ t') a <-> holds_annotation (location_ t) a) ->
  (forall a h, location_ t' = at_publish a h -> False) ->
  (forall a, calls_for t' a \/ is_Some (link_nodes s !! a) <-> calls_for t a \/ is_Some (link_nodes s !! a)) ->
  invariant programs (set_thread s i t').
Proof using Hinv Hi.
  intros Hh Hp Hc. set (s' := set_thread s i t').
  assert (forall j a, pending s' j a <-> pending s j a) as Hpend.
  { intros j a. rewrite (pending_moved s s' i t t' Hi eq_refl), Hh. unfold pending.
    destruct (decide (j = i)) as [->|]; naive_solver. }
  destruct Hinv as [I1 I2 I3 I4 I5 I6 I7 I8]. split; try done.
  - intros j k a. rewrite !Hpend. apply I3.
  - intros j a. rewrite Hpend. apply I4.
  - intros a. setoid_rewrite Hpend. apply I5.
  - intros j u a h Hj Hl. apply (thread_moved j u Hi) in Hj as [[-> ->]|[_ Hj]]; [by apply Hp in Hl|].
    by eapply I6.
  - intros a. rewrite <-I7, (wanted_moved s s' i t t' Hi eq_refl), (wanted_before s i t Hi).
    cbn [link_nodes set_thread s']. specialize (Hc a). tauto.
  - cbn. by rewrite length_insert.
Qed.

(** A store to the link node of the annotation the thread works on. *)
Lemma linking_step a h :
  (location_ t = at_exchange a h /\ link_nodes s !! a = None) \/ location_ t = at_relink a h ->
  invariant programs (set_thread (set_link s a h) i (MkThread (calls t) (at_publish a h))).
Proof using Hinv Hi.
  intros Hloc. set (t' := MkThread (calls t) (at_publish a h)). set (s' := set_thread (set_link s a h) i t').
  destruct Hinv as [I1 I2 I3 I4 I5 I6 I7 I8].
  assert (forall j b, pending s' j b <-> (j = i /\ b = a) \/ (j <> i /\ pending s j b)) as Hpend.
  { intros j b. by rewrite (pending_moved s s' i t t' Hi eq_refl). }
  assert (forall b, pending s i b -> b = a) as Hown.
  { intros b (u & Hu & Hb). simplify_eq. by destruct Hloc as [[E _]|E]; rewrite E in Hb. }
  assert (a ∉ published_ s /\ forall j, pending s j a -> j = i) as [Ha Hj].
  { destruct Hloc as [[E En]|E].
    - split; [intros Hin|intros j Hj]; (assert (is_Some (link_nodes s !! a)) as [? ?];
        [apply I5; eauto|congruence]).
    - assert (pending s i a) as Hp by (exists t; rewrite E; done). eauto. }
  split; try done; cbn [s' set_thread set_link link_nodes head_link published_ threads_].
  - by apply chain_insert.
  - intros j k b. rewrite !Hpend. intros [[-> ->]|[Hj1 H1]] [[-> Hb]|[Hk1 H2]]; subst; try done.
    + by rewrite (Hj k).
    + by rewrite (Hj j).
    + by apply (I3 j k b).
  - intros j b. rewrite Hpend. intros [[-> ->]|[_ ?]]; [done|by eapply I4].
  - intros b. setoid_rewrite Hpend. destruct (decide (b = a)) as [->|Hb].
    + rewrite lookup_insert_eq. split; [eauto|by eexists].
    + rewrite lookup_insert_ne, I5 by done. split; [|naive_solver].
      intros [?|(j & Hpj)]; [by auto|]. right. exists j. right. split; [|done].
      intros ->. by apply Hb, Hown.
  - intros j u b k Hu Hl. apply (thread_moved j u Hi) in Hu as [[-> ->]|[Hne Hu]].
    + injection Hl as <- <-. apply lookup_insert_eq.
    + rewrite lookup_insert_ne; [by eapply I6|]. intros <-. apply Hne, Hj. exists u. by rewrite Hl.
  - intros b. rewrite <-I7, (wanted_moved s s' i t t' Hi eq_refl), (wanted_before s i t Hi).
    cbn [s' set_thread set_link link_nodes]. unfold calls_for, t'. cbn [calls location_].
    destruct (decide (b = a)) as [->|Hb].
    + rewrite lookup_insert_eq. split; [intros _|by eauto].
      destruct Hloc as [[-> _]|E]; [by auto|]. right. right. apply I5. right. exists i, t. by rewrite E.
    + rewrite lookup_insert_ne by done. destruct Hloc as [[-> _]| ->]; tauto.
  - by rewrite length_insert.
Qed.

(** The annotation is published: the list now starts with it. *)
Lemma publishing_step a :
  location_ t = at_publish a (head_link s) ->
  invariant programs (set_thread (set_head s a) i (MkThread (calls t) outside)).
Proof using Hinv Hi.
  intros Hloc. set (t' := MkThread (calls t) outside). set (s' := set_thread (set_head s a) i t').
  destruct Hinv as [I1 I2 I3 I4 I5 I6 I7 I8].
  assert (pending s i a) as Ha by (exists t; rewrite Hloc; done).
  assert (forall j b, pending s' j b <-> j <> i /\ pending s j b) as Hpend.
  { intros j b. rewrite (pending_moved s s' i t t' Hi eq_refl). naive_solver. }
  assert (forall b, pending s i b -> b = a) as Hown.
  { intros b (u & Hu & Hb). simplify_eq. by rewrite Hloc in Hb. }
  split; try done; cbn [s' set_thread set_head link_nodes head_link published_ threads_].
  - split; [done|]. exists (head_link s). split; [by eapply I6|done].
  - apply NoDup_cons. split; [by eapply I4|done].
  - intros j k b. rewrite !Hpend. intros [_ ?] [_ ?]. by eapply I3.
  - intros j b. rewrite Hpend, not_elem_of_cons. intros [Hne Hb]. split; [|by eapply I4].
    intros ->. by apply Hne, (I3 j i a).
  - intros b. setoid_rewrite Hpend. rewrite elem_of_cons, I5. split; [|naive_solver].
    intros [?|(j & Hj)]; [by auto|]. destruct (decide (j = i)) as [->|]; [|by eauto].
    left. left. by apply Hown.
  - intros j u b k Hu Hl. apply (thread_moved j u Hi) in Hu as [[-> ->]|[_ Hu]]; [done|by eapply I6].
  - intros b. rewrite <-I7, (wanted_moved s s' i t t' Hi eq_refl), (wanted_before s i t Hi).
    cbn [s' set_thread set_head link_nodes]. unfold calls_for, t'. cbn [calls location_]. rewrite Hloc. tauto.
  - by rewrite length_insert.
Qed.

End Steps.

Section Concurrent.
  Context (name_ : nat -> bytes) (programs : list (list nat)).

Lemma step_invariant s s' : step name_ s s' -> invariant programs s -> invariant programs s'.
Proof.
  intros [i spurious s1 s1' E] Hinv. unfold exec in E.
  destruct (threads_ s1 !! i) as [t|] eqn:Hi; [|done]. destruct (location_ t) as [|a h|a h|a h] eqn:Hl.
  - destruct (calls t) as [|a l] eqn:Hc; [done|]. apply (inj Some) in E as <-.
    apply (local_step programs s1 Hinv i t Hi); cbn; rewrite ?Hl; try done.
    intros b. unfold calls_for. cbn. rewrite Hc, Hl, elem_of_cons. tauto.
  - destruct (link_nodes s1 !! a) as [p|] eqn:Ea.
    + apply (inj Some) in E as <-. apply (local_step programs s1 Hinv i t Hi); cbn; rewrite ?Hl; try done.
      intros b. unfold calls_for. cbn. rewrite Hl. split; [tauto|].
      intros [[?| ->]|?]; rewrite ?Ea; eauto.
    + destruct (length (name_ a) <? kNameMaxLength)%nat; [|done]. apply (inj Some) in E as <-.
      apply (linking_step programs s1 Hinv i t Hi). auto.
  - destruct (bool_decide_reflect (head_link s1 = h)) as [<-|_]; [destruct spurious|]; cbn in E;
      apply (inj Some) in E as <-; [| |].
    + apply (local_step programs s1 Hinv i t Hi); cbn; rewrite ?Hl; try done.
      intros b. unfold calls_for. cbn. rewrite Hl. tauto.
    + by apply (publishing_step programs s1 Hinv i t Hi).
    + apply (local_step programs s1 Hinv i t Hi); cbn; rewrite ?Hl; try done.
      intros b. unfold calls_for. cbn. rewrite Hl. tauto.
  - apply (inj Some) in E as <-. apply (linking_step programs s1 Hinv i t Hi). auto.
Qed.

Definition reachable (s : State) : Prop := rtc (step name_) (init programs) s.

Lemma reachable_invariant s : reachable s -> invariant programs s.
Proof.
  unfold reachable. generalize (init_invariant programs). induction 2; [done|].
  eauto using step_invariant.
Qed.

(** ** Readers *)

(** The link node of a published annotation never changes. *)
Lemma published_stable s s' :
  invariant programs s -> step name_ s s' ->
  (exists l, published_ s' = l ++ published_ s) /\
  forall a, a ∈ published_ s -> link_nodes s' !! a = link_nodes s !! a.
Proof.
  intros Hinv Hs. revert Hinv. destruct Hs as [i spurious s1 s1' E]. intros Hinv. unfold exec in E.
  assert (forall (x : list nat), exists l, x = l ++ x) as Hnil by (intros; by exists []).
  destruct (threads_ s1 !! i) as [t|] eqn:Hi; [|done]. destruct (location_ t) as [|a h|a h|a h] eqn:Hl.
  - destruct (calls t) as [|a l]; [done|]. apply (inj Some) in E as <-. by split.
  - destruct (link_nodes s1 !! a) as [p|] eqn:Ea; [apply (inj Some) in E as <-; by split|].
    destruct (length (name_ a) <? kNameMaxLength)%nat; [|done]. apply (inj Some) in E as <-.
    split; [apply Hnil|]. intros b Hb. cbn. apply lookup_insert_ne. intros <-.
    assert (is_Some (link_nodes s1 !! a)) as [? ?] by (apply (inv_linked _ _ Hinv); auto). congruence.
  - destruct (bool_decide (head_link s1 = h) && negb spurious); apply (inj Some) in E as <-;
      [split; [by exists [a]|done]|by split].
  - apply (inj Some) in E as <-. split; [apply Hnil|]. intros b Hb. cbn. apply lookup_insert_ne. intros <-.
    apply (inv_pending _ _ Hinv i a); [|done]. exists t. by rewrite Hl.
Qed.

Lemma chain_stable s s' p l :
  reachable s -> rtc (step name_) s s' -> chain (link_nodes s) p l ->
  (forall a, a ∈ l -> a ∈ published_ s) -> chain (link_nodes s') p l /\ forall a, a ∈ l -> a ∈ published_ s'.
Proof.
  intros Hr Hs. revert Hr. induction Hs as [s|s s1 s2 H1 _ IH]; intros Hr Hc Hl; [done|].
  destruct (published_stable s s1 (reachable_invariant s Hr) H1) as [[l' E] Hst].
  assert (forall a, a ∈ l -> a ∈ published_ s1) as Hl1.
  { intros a Ha. rewrite E. apply elem_of_app. auto. }
  apply IH; [by eapply rtc_r| |done]. clear -Hc Hl Hst. revert p Hc.
  induction l as [|a l IH]; intros p; [done|]. intros (-> & q & Ea & Hc). split; [done|].
  exists q. rewrite Hst by (apply Hl; left). split; [done|]. apply IH; [|done].
  intros b Hb. apply Hl. by right.
Qed.

Lemma traverse_chain s p l l' :
  reachable s -> chain (link_nodes s) p l -> (forall a, a ∈ l -> a ∈ published_ s) ->
  traverse name_ s p l' -> l' = l.
Proof.
  intros Hr Hc Hl Ht. revert l Hr Hc Hl. induction Ht as [s|s s' a q l' Hs Ea _ IH]; intros l Hr Hc Hl.
  - destruct l as [|b l]; [done|]. by destruct Hc.
  - destruct (chain_stable s s' _ l Hr Hs Hc Hl) as [Hc' Hl'].
    destruct l as [|b l]; [done|]. destruct Hc' as (E & r & Er & Hc'). injection E as <-.
    replace r with q in * by congruence. f_equal. apply IH; [unfold reachable; by transitivity s|done|].
    intros b Hb. apply Hl'. by right.
Qed.

(** All calls have returned. *)
Definition finished (s : State) : Prop :=
  Forall (fun t => calls t = [] /\ location_ t = outside) (threads_ s).

(** C34. However the steps of threads that add annotations interleave, the list is
    well formed in every state: iterating over it ends and gives the annotations
    that have been published, each once, the latest first, all of them ones that a
    thread was to add; a reader that reads the links while further steps are taken
    gets the list as it was when it read the first; and once all calls have
    returned every annotation that was to be added is in the list. *)
Theorem annotation_list_concurrent s :
  reachable s ->
  iterate (link_nodes s) (head_link s) (length (published_ s)) = Some (published_ s) /\
  NoDup (published_ s) /\
  (forall a, a ∈ published_ s -> exists p, p ∈ programs /\ a ∈ p) /\
  (forall l, traverse name_ s (head_link s) l -> l = published_ s) /\
  (finished s -> forall p a, p ∈ programs -> a ∈ p -> a ∈ published_ s).
Proof.
  intros Hr. pose proof (reachable_invariant s Hr) as Hinv. split_and!.
  - apply chain_iterate, (inv_chain _ _ Hinv).
  - apply (inv_distinct _ _ Hinv).
  - intros a Ha. apply (inv_wanted _ _ Hinv). right. apply (inv_linked _ _ Hinv). auto.
  - intros l. apply traverse_chain; [done|apply (inv_chain _ _ Hinv)|done].
  - intros Hf p a Hp Ha. unfold finished in Hf. rewrite Forall_forall in Hf.
    destruct (proj2 (inv_wanted _ _ Hinv a)) as [(i & t & Ht & Hc)|Hl]; [by eauto| |].
    + destruct (Hf t) as [E1 E2]; [by eapply list_elem_of_lookup_2|].
      unfold calls_for in Hc. rewrite E1, E2 in Hc. destruct Hc as [?%elem_of_nil|]; done.
    + apply (inv_linked _ _ Hinv) in Hl as [?|(i & t & Ht & Hh)]; [done|].
      destruct (Hf t) as [_ E2]; [by eapply list_elem_of_lookup_2|]. by rewrite E2 in Hh.
Qed.

(** ** Progress *)

(** A thread that takes [n] steps by itself, with no spurious failure. *)
Fixpoint run_alone (i n : nat) (s : State) : option State :=
  match n with
  | O => Some s
  | S n' => s' ← exec name_ i false s; run_alone i n' s'
  end.

(** The thread is in, or about to make, its call for [a], with [l] to follow. *)
Definition adding (t : Thread) (a : nat) (l : list nat) : Prop :=
  match location_ t with
  | outside => calls t = a :: l
  | at_exchange b _ | at_publish b _ | at_relink b _ => b = a /\ calls t = l
  end.

(** Thread [i] has returned from its call for [a], which is in the list or will be
    put there by the thread that got to it first. *)
Definition added (s : State) (i a : nat) (l : list nat) : Prop :=
  threads_ s !! i = Some (MkThread l outside) /\
  (a ∈ published_ s \/ exists j, j <> i /\ pending s j a).

Lemma insert_same_thread s i t (u : Thread) :
  threads_ s !! i = Some t -> <[i := u]> (threads_ s) !! i = Some u.
Proof. intros Hi. apply list_lookup_insert_eq. by eapply lookup_lt_Some. Qed.

Lemma run_publish s i t a h :
  threads_ s !! i = Some t -> location_ t = at_publish a h ->
  exists n s', (n <= 3)%nat /\ run_alone i n s = Some s' /\ added s' i a (calls t).
Proof.
  intros Hi Hl. destruct (decide (head_link s = h)) as [<-|Hne].
  - exists 1%nat. eexists. split; [lia|]. cbn [run_alone]. unfold exec. rewrite Hi, Hl.
    rewrite bool_decide_eq_true_2 by done. cbn. split; [done|]. split; cbn.
    + by eapply insert_same_thread.
    + left. left.
  - set (t1 := MkThread (calls t) (at_relink a (head_link s))). set (s1 := set_thread s i t1).
    set (t2 := MkThread (calls t) (at_publish a (head_link s))).
    set (s2 := set_thread (set_link s1 a (head_link s)) i t2).
    assert (threads_ s1 !! i = Some t1) as Hi1 by (by eapply insert_same_thread).
    assert (threads_ s2 !! i = Some t2) as Hi2 by (by eapply (insert_same_thread s1)).
    assert (exec name_ i false s = Some s1) as E1.
    { unfold exec. rewrite Hi, Hl. by rewrite bool_decide_eq_false_2. }
    assert (exec name_ i false s1 = Some s2) as E2 by (unfold exec; by rewrite Hi1).
    exists 3%nat. eexists. split; [lia|]. cbn [run_alone]. rewrite E1. cbn [mbind option_bind].
    rewrite E2. cbn [mbind option_bind]. unfold exec. rewrite Hi2. cbn [location_ t2].
    rewrite bool_decide_eq_true_2 by done. cbn [andb negb mbind option_bind].
    split; [reflexivity|]. split; [by eapply (insert_same_thread s2)|left; left].
Qed.

Lemma run_relink s i t a h :
  threads_ s !! i = Some t -> location_ t = at_relink a h ->
  exists n s', (n <= 4)%nat /\ run_alone i n s = Some s' /\ added s' i a (calls t).
Proof.
  intros Hi Hl. set (s1 := set_thread (set_link s a h) i (MkThread (calls t) (at_publish a h))).
  destruct (run_publish s1 i (MkThread (calls t) (at_publish a h)) a h) as (n & s' & Hn & Hrun & Hadd);
    [by eapply insert_same_thread|done|].
  exists (S n), s'. split; [lia|]. split; [|done]. cbn [run_alone]. unfold exec. by rewrite Hi, Hl.
Qed.

Lemma run_exchange s i t a h (Hinv : invariant programs s) :
  (length (name_ a) < kNameMaxLength)%nat ->
  threads_ s !! i = Some t -> location_ t = at_exchange a h ->
  exists n s', (n <= (if decide (h = head_link s) then 2 else 4))%nat /\ run_alone i n s = Some s' /\
    added s' i a (calls t).
Proof.
  intros Hname%Nat.ltb_lt Hi Hl. destruct (link_nodes s !! a) as [p|] eqn:Ea.
  - exists 1%nat. eexists. split; [case_decide; lia|]. cbn [run_alone]. unfold exec. rewrite Hi, Hl, Ea.
    split; [done|]. split; cbn; [by eapply insert_same_thread|].
    destruct (proj1 (inv_linked _ _ Hinv a)) as [?|(j & Hj)]; [by eexists|by left|]. right. exists j.
    assert (j <> i) as Hne. { intros ->. destruct Hj as (u & Hu & Hh). simplify_eq. by rewrite Hl in Hh. }
    split; [done|]. apply (pending_moved s (set_thread s i (MkThread (calls t) outside)) i t (MkThread (calls t) outside)
      Hi eq_refl). auto.
  - set (t1 := MkThread (calls t) (at_publish a h)). set (s1 := set_thread (set_link s a h) i t1).
    assert (exec name_ i false s = Some s1) as E1 by (unfold exec; by rewrite Hi, Hl, Ea, Hname).
    assert (threads_ s1 !! i = Some t1) as Hi1 by (by eapply insert_same_thread).
    case_decide as Hh.
    + exists 2%nat. eexists. split; [lia|]. cbn [run_alone]. rewrite E1. cbn [mbind option_bind].
      unfold exec. rewrite Hi1. cbn [location_ t1 s1 set_thread set_link head_link].
      rewrite bool_decide_eq_true_2 by done. cbn. split; [done|]. split; cbn; [|left; left].
      rewrite list_insert_insert_eq. by eapply insert_same_thread.
    + destruct (run_publish s1 i t1 a h Hi1 eq_refl) as (n & s' & Hn & Hrun & Hadd).
      exists (S n), s'. split; [lia|]. cbn [run_alone]. by rewrite E1.
Qed.

(** [Add] is obstruction-free: in every state that can be reached, whatever the
    other threads are in the middle of, a thread that runs by itself and is not
    interrupted by spurious failures returns from [Add] after at most four atomic
    steps, with its annotation in the list, unless another thread has begun to add
    the same one. *)
Theorem add_obstruction_free s i t a l :
  reachable s -> threads_ s !! i = Some t -> adding t a l -> (length (name_ a) < kNameMaxLength)%nat ->
  exists n s', (n <= 4)%nat /\ run_alone i n s = Some s' /\ added s' i a l.
Proof.
  intros Hr Hi Ha Hname. pose proof (reachable_invariant s Hr) as Hinv. unfold adding in Ha.
  destruct (location_ t) as [|b h|b h|b h] eqn:Hl.
  - set (t1 := MkThread l (at_exchange a (head_link s))). set (s1 := set_thread s i t1).
    assert (exec name_ i false s = Some s1) as E1 by (unfold exec; by rewrite Hi, Hl, Ha).
    assert (invariant programs s1) as Hinv1.
    { eapply step_invariant; [|done]. by econstructor. }
    destruct (run_exchange s1 i t1 a (head_link s) Hinv1) as (n & s' & Hn & Hrun & Hadd);
      [done|by eapply insert_same_thread|done|].
    exists (S n), s'. split; [by destruct (decide (head_link s = head_link s1)); [lia|]|].
    cbn [run_alone]. by rewrite E1.
  - destruct Ha as [-> <-]. destruct (run_exchange s i t a h Hinv Hname Hi Hl) as (n & s' & Hn & H).
    exists n, s'. split; [|done]. revert Hn. case_decide; lia.
  - destruct Ha as [-> <-]. destruct (run_publish s i t a h Hi Hl) as (n & s' & Hn & H).
    exists n, s'. split; [lia|done].
  - destruct Ha as [-> <-]. by apply (run_relink s i t a h).
Qed.

End Concurrent.

(** ** Examples *)

(** Two threads that add annotations at the same time, one of them the same. *)
Definition example_programs : list (list nat) := [[1; 2]; [2; 3]]%nat.
Definition example_name (a : nat) : bytes := str "name".

(** A schedule: the threads that take the steps. *)
Fixpoint schedule (l : list (nat * bool)) (s : State) : option State :=
  match l with
  | [] => Some s
  | (i, spurious) :: l' => s' ← exec example_name i spurious s; schedule l' s'
  end.

Lemma schedule_steps l s s' : schedule l s = Some s' -> rtc (step example_name) s s'.
Proof.
  revert s. induction l as [|[i b] l IH]; intros s; cbn; [intros [= ->]; constructor|].
  destruct (exec example_name i b s) as [s1|] eqn:E; [|done]. cbn. intros H.
  eapply rtc_l; [by econstructor|by apply IH].
Qed.

Definition example_schedule : list (nat * bool) :=
  [(0, false); (1, false); (0, false); (1, false); (1, false); (0, false); (0, false); (0, true);
   (0, false); (0, false); (0, false); (0, false); (1, false); (1, false); (1, false)]%nat.
Definition example_final : State := default (init []) (schedule example_schedule (init example_programs)).

Lemma annotation_list_concurrent_witness :
  published_ example_final = [3; 1; 2]%nat /\ finished example_final /\
  iterate (link_nodes example_final) (head_link example_final) 3 = Some [3; 1; 2]%nat.
Proof.
  assert (reachable example_name example_programs example_final) as Hr.
  { apply (schedule_steps example_schedule). vm_compute. reflexivity. }
  split; [vm_compute; reflexivity|]. split; [repeat constructor|].
  exact (proj1 (annotation_list_concurrent example_name example_programs example_final Hr)).
Defined.

Lemma add_obstruction_free_witness :
  exists n s', (n <= 4)%nat /\
    run_alone example_name 1 n (init example_programs) = Some s' /\ added s' 1 2 [3%nat].
Proof.
  apply (add_obstruction_free example_name example_programs (init example_programs) 1
    (MkThread [2; 3]%nat outside) 2 [3%nat]).
  - apply rtc_refl.
  - reflexivity.
  - reflexivity.
  - vm_compute. repeat constructor.
Defined.
