(* ===== verification/ClientContainers.v ===== *)
(** * Fixed-size containers of the client (client/simple_string_dictionary.h,
      client/simple_address_range_bag.h, client/annotation.h)

    The containers a client keeps for the handler to find have no dynamic memory:
    a dictionary is an array of entries with character arrays for key and value, a
    bag an array of ranges.  The operations are those of the templates, on these
    arrays, and are shown to implement a finite map and a multiset.  A failed DCHECK
    is [None]; a [base::StringPiece] is its characters, and [None] where its
    pointer is null. *)

From S2P Require Import Prelude.
From S2P Require Import Numeric.

(** The index of the first element with a property: the loops over the entries. *)
Fixpoint find_index {A} (f : A -> bool) (l : list A) : option nat :=
  match l with
  | [] => None
  | x :: l' => if f x then Some O else S <$> find_index f l'
  end.

Lemma find_index_Some {A} (f : A -> bool) l i :
  find_index f l = Some i -> exists l1 x l2, l = l1 ++ x :: l2 /\ length l1 = i /\ f x = true /\
    Forall (fun y => f y = false) l1.
Proof.
  revert i. induction l as [|x l IH]; intros i; simpl; [done|]. destruct (f x) eqn:E.
  - intros [= <-]. by exists [], x, l.
  - destruct (find_index f l) as [j|]; [|done]. intros [= <-].
    destruct (IH j eq_refl) as (l1 & y & l2 & -> & <- & Hy & H1). exists (x :: l1), y, l2.
    split_and!; [done..|by constructor].
Qed.

Lemma find_index_None {A} (f : A -> bool) l :
  find_index f l = None <-> Forall (fun y => f y = false) l.
Proof.
  induction l as [|x l IH]; simpl; [done|]. rewrite Forall_cons. destruct (f x) eqn:E; [naive_solver|].
  rewrite <-IH. destruct (find_index f l); naive_solver.
Qed.

(** [strncmp] of at most [n] characters is zero. *)
Fixpoint strncmp_equal (n : nat) (a b : bytes) : bool :=
  match n, a, b with
  | O, _, _ => true
  | S n', x :: a', y :: b' =>
      if x =? y then if x =? 0 then true else strncmp_equal n' a' b' else false
  | S _, _, _ => false
  end.

(** A string that a NUL terminates somewhere in the array. *)
Definition terminated (s : bytes) : Prop := 0 ∈ s.
Definition no_nul (s : bytes) : Prop := Forall (fun c => c <> 0) s.
#[export] Instance no_nul_dec s : Decision (no_nul s).
Proof. unfold no_nul. apply _. Defined.

Module SimpleStringDictionary.

Record Entry := MkEntry { key : bytes; value : bytes }.
Definition is_active (e : Entry) : bool := negb (nth 0 (key e) 0 =? 0).

Section Dictionary.
  (** The template's parameters; the arrays have room for a NUL. *)
  Variables (KeySize ValueSize NumEntries : nat).

(** A dictionary is its array [entries_]. *)
Abbreviation t := (list Entry) (only parsing).

(** The constructor: [entries_] is zero-initialized. *)
Definition init : t := replicate NumEntries (MkEntry (replicate KeySize 0) (replicate ValueSize 0)).

Definition GetCount (d : t) : nat := length (filter (fun e => is_active e = true) d).

(** [Iterator::Next], until it returns null. *)
Fixpoint iterate (d : t) : list Entry :=
  match d with
  | [] => []
  | e :: d' => if is_active e then e :: iterate d' else iterate d'
  end.

Definition SetFromStringPiece (src dst : bytes) (dst_size : nat) : bytes :=
  let copy_len := Nat.min (dst_size - 1) (length src) in
  overwrite 0 (take copy_len src ++ [0]) dst.

Definition EntryKeyEquals (k : bytes) (e : Entry) : bool :=
  if (KeySize <=? length k)%nat then false
  else if negb (nth (length k) (key e) 0 =? 0) then false
  else strncmp_equal (length k) k (key e).

Definition GetConstEntryForKey (d : t) (k : bytes) : option nat := find_index (EntryKeyEquals k) d.

(** The DCHECKs of the key. *)
Definition key_checked (k : bytes) : bool :=
  negb (length k =? 0)%nat && bool_decide (no_nul k).

Definition GetValueForKey (d : t) (k : bytes) : option (option bytes) :=
  if negb (key_checked k) then None
  else
    match GetConstEntryForKey d k with
    | None => Some None
    | Some i => Some (value <$> d !! i)
    end.

Definition RemoveKey (d : t) (k : bytes) : option t :=
  if negb (key_checked k) then None
  else
    let d' :=
      match GetConstEntryForKey d k with
      | Some i => alter (fun e => MkEntry (overwrite 0 [0] (key e)) (overwrite 0 [0] (value e))) i d
      | None => d
      end in
    match GetConstEntryForKey d' k with
    | None => Some d'
    | Some _ => None
    end.

Definition SetKeyValue (d : t) (k : bytes) (v : option bytes) : option t :=
  match v with
  | None => RemoveKey d k
  | Some v =>
      if negb (key_checked k && bool_decide (no_nul v)) then None
      else
        let '(d', entry) :=
          match GetConstEntryForKey d k with
          | Some i => (d, Some i)
          | None =>
              match find_index (fun e => negb (is_active e)) d with
              | Some i =>
                  (alter (fun e => MkEntry (SetFromStringPiece k (key e) KeySize) (value e)) i d, Some i)
              | None => (d, None)
              end
          end in
        match entry with
        | None => Some d'
        | Some i =>
            let count := length (filter (fun e => EntryKeyEquals k e = true) d') in
            if negb (count =? 1)%nat then None
            else Some (alter (fun e => MkEntry (key e) (SetFromStringPiece v (value e) ValueSize)) i d')
        end
  end.

(** ** The map a dictionary stands for *)

Definition entry_ok (e : Entry) : Prop :=
  length (key e) = KeySize /\ terminated (key e) /\ length (value e) = ValueSize /\ terminated (value e).
Definition entry_contents (e : Entry) : list (bytes * bytes) :=
  if is_active e then [(c_str (key e), c_str (value e))] else [].
Definition contents (d : t) : list (bytes * bytes) := concat (map entry_contents d).
Definition to_map (d : t) : gmap bytes bytes := list_to_map (contents d).

(** The type invariant: the arrays have their sizes, the strings are terminated, and
    no key is there twice. *)
Record dictionary_ok (d : t) : Prop := {
  dok_size : length d = NumEntries;
  dok_entries : Forall entry_ok d;
  dok_keys : NoDup (contents d).*1
}.

Lemma contents_app d1 d2 : contents (d1 ++ d2) = contents d1 ++ contents d2.
Proof. unfold contents. by rewrite map_app, concat_app. Qed.
Lemma contents_cons e d : contents (e :: d) = entry_contents e ++ contents d.
Proof. done. Qed.

Lemma terminated_c_str s : terminated s -> exists l, s = c_str s ++ 0 :: l.
Proof.
  unfold terminated. induction s as [|c s IH]; [by intros ?%elem_of_nil|].
  simpl. destruct (Z.eqb_spec c 0) as [->|Hc]; [by exists s|].
  intros [?|Hin]%elem_of_cons; [done|]. destruct (IH Hin) as [l E]. exists l. by rewrite E at 1.
Qed.

Lemma strncmp_prefix n k s :
  length k = n -> no_nul k -> strncmp_equal n k s = true <-> exists l, s = k ++ l.
Proof.
  intros <- Hk. revert s. induction Hk as [|c k Hc _ IH]; intros s; simpl; [naive_solver|].
  destruct s as [|y s]; [split; [done|by intros [? ?]]|]. destruct (Z.eqb_spec c y) as [<-|Hne].
  - destruct (Z.eqb_spec c 0); [done|]. rewrite IH. split; intros [l E]; exists l; congruence.
  - split; [done|]. intros [l E]. congruence.
Qed.

(** The comparison finds the entry whose key is the string. *)
Lemma entry_key_equals k e :
  entry_ok e -> no_nul k -> EntryKeyEquals k e = true <-> c_str (key e) = k.
Proof.
  intros (Hl & Ht & _) Hk. unfold EntryKeyEquals. destruct (terminated_c_str _ Ht) as [l E].
  destruct (Nat.leb_spec KeySize (length k)) as [Hle|Hlt].
  { split; [done|]. intros <-. rewrite E in Hl. rewrite length_app in Hl. simpl in Hl. lia. }
  assert (forall r, nth (length k) (k ++ r) 0 = nth 0 r 0) as Hnth.
  { intros r. by rewrite app_nth2, Nat.sub_diag by lia. }
  destruct (Z.eqb_spec (nth (length k) (key e) 0) 0) as [E0|E0]; simpl.
  - rewrite strncmp_prefix by done. split; [|intros <-; by eexists].
    intros [r Er]. rewrite Er in E0, Hl |- *. rewrite Hnth in E0. rewrite length_app in Hl.
    destruct r as [|c r]; simpl in *; [lia|]. subst c. by apply c_str_app.
  - split; [done|]. intros Ek. rewrite Ek in E. by rewrite E, Hnth in E0.
Qed.

Lemma active_c_str e : entry_ok e -> is_active e = true <-> c_str (key e) <> [].
Proof.
  intros (_ & Ht & _). unfold is_active. destruct (key e) as [|c s]; [by apply elem_of_nil in Ht|].
  simpl. by destruct (Z.eqb_spec c 0).
Qed.

(** Copying a string to an array truncates it to the room there is. *)
Lemma set_from_string_piece s dst n :
  no_nul s -> length dst = n -> (0 < n)%nat ->
  length (SetFromStringPiece s dst n) = n /\ terminated (SetFromStringPiece s dst n) /\
  c_str (SetFromStringPiece s dst n) = take (n - 1) s.
Proof.
  intros Hs Hl Hn. unfold SetFromStringPiece, overwrite. rewrite take_0, app_nil_l.
  assert (take (Nat.min (n - 1) (length s)) s = take (n - 1) s) as E.
  { destruct (decide (n - 1 <= length s)%nat); [by rewrite Nat.min_l|].
    rewrite Nat.min_r by lia. rewrite !take_ge by lia. done. }
  rewrite E, <-app_assoc. split_and!.
  - len_lia.
  - unfold terminated. rewrite !elem_of_app. right. left. left.
  - simpl. apply c_str_app. by apply Forall_take.
Qed.

Lemma key_checked_true k : key_checked k = true <-> k <> [] /\ no_nul k.
Proof.
  unfold key_checked. rewrite andb_true_iff, bool_decide_eq_true, negb_true_iff, Nat.eqb_neq.
  by rewrite length_zero_iff_nil.
Qed.

(** *** Looking up a key *)

Lemma contents_key k e :
  entry_ok e -> k <> [] -> (k ∈ (entry_contents e).*1) <-> c_str (key e) = k.
Proof.
  intros He Hk. unfold entry_contents. destruct (is_active e) eqn:Ea; simpl.
  - rewrite list_elem_of_singleton. naive_solver.
  - split; [by intros ?%elem_of_nil|]. intros E. apply not_true_iff_false in Ea.
    rewrite active_c_str in Ea by done. destruct Ea. by rewrite E.
Qed.

Lemma absent_keys k d :
  Forall entry_ok d -> k <> [] -> no_nul k ->
  Forall (fun e => EntryKeyEquals k e = false) d <-> k ∉ (contents d).*1.
Proof.
  intros Hd Hk Hn. induction Hd as [|e d He _ IH].
  - split; [intros _; apply not_elem_of_nil|constructor].
  - rewrite Forall_cons, contents_cons, fmap_app, not_elem_of_app, IH, contents_key by done.
    rewrite <-(entry_key_equals k e He Hn), not_true_iff_false. done.
Qed.

(** An entry that is found, and the rest of the contents. *)
Lemma found_entry k d i :
  dictionary_ok d -> k <> [] -> no_nul k -> GetConstEntryForKey d k = Some i ->
  exists d1 e d2, d = d1 ++ e :: d2 /\ length d1 = i /\ c_str (key e) = k /\
    entry_contents e = [(k, c_str (value e))] /\ entry_ok e /\ Forall entry_ok d1 /\ Forall entry_ok d2 /\
    contents d ≡ₚ (k, c_str (value e)) :: contents (d1 ++ d2) /\ k ∉ (contents (d1 ++ d2)).*1.
Proof.
  intros [Hl Hd Hnd] Hk Hn Hf. apply find_index_Some in Hf as (d1 & e & d2 & -> & <- & Hx & _).
  apply Forall_app in Hd as [H1 Hd]. apply Forall_cons in Hd as [He H2].
  apply entry_key_equals in Hx; [|done|done].
  assert (entry_contents e = [(k, c_str (value e))]) as Ec.
  { unfold entry_contents. rewrite (proj2 (active_c_str e He)); by rewrite Hx. }
  assert (contents (d1 ++ e :: d2) ≡ₚ (k, c_str (value e)) :: contents (d1 ++ d2)) as Hp.
  { rewrite !contents_app, contents_cons, Ec. simpl. by rewrite Permutation_middle. }
  exists d1, e, d2. split_and!; try done. rewrite Hp in Hnd. by apply NoDup_cons in Hnd as [? _].
Qed.

(** *** The operations *)

Section Operations.
  Hypothesis (HK : (0 < KeySize)%nat) (HV : (0 < ValueSize)%nat).

Lemma init_ok : dictionary_ok init /\ to_map init = ∅.
Proof using HK HV.
  assert (contents init = []) as E.
  { unfold init, contents. clear -HK. induction NumEntries as [|n IH]; [done|]. simpl. rewrite IH.
    unfold entry_contents, is_active. simpl. by destruct KeySize. }
  split; [split|].
  - apply length_replicate.
  - apply Forall_replicate. split_and!; simpl; try apply length_replicate; unfold terminated.
    + by destruct KeySize; [lia|left].
    + by destruct ValueSize; [lia|left].
  - rewrite E. constructor.
  - unfold to_map. by rewrite E.
Qed.

Lemma get_refines d k :
  dictionary_ok d -> k <> [] -> no_nul k ->
  exists r, GetValueForKey d k = Some r /\ c_str <$> r = to_map d !! k.
Proof using Type.
  clear HK HV. intros Hd Hk Hn. unfold GetValueForKey. rewrite (proj2 (key_checked_true k)) by done. simpl.
  destruct (GetConstEntryForKey d k) as [i|] eqn:E.
  - destruct (found_entry k d i Hd Hk Hn E) as (d1 & e & d2 & -> & <- & _ & _ & _ & _ & _ & Hp & _).
    eexists. split; [reflexivity|]. rewrite list_lookup_middle by done. simpl. symmetry.
    apply elem_of_list_to_map; [apply Hd|]. rewrite Hp. left.
  - eexists. split; [reflexivity|]. symmetry. apply not_elem_of_list_to_map.
    apply find_index_None, absent_keys in E; [|apply Hd|done|done].
    exact E.
Qed.

Lemma to_map_perm d l : NoDup (contents d).*1 -> contents d ≡ₚ l -> to_map d = list_to_map l.
Proof using Type. intros Hn Hp. by apply list_to_map_proper. Qed.

(** An entry replaced by one with other contents. *)
Lemma entry_replaced d1 e e' d2 :
  dictionary_ok (d1 ++ e :: d2) -> entry_ok e' ->
  NoDup (entry_contents e' ++ contents (d1 ++ d2)).*1 ->
  dictionary_ok (d1 ++ e' :: d2) /\
  to_map (d1 ++ e' :: d2) = list_to_map (entry_contents e' ++ contents (d1 ++ d2)).
Proof using Type.
  clear HK HV. intros [Hl Hd Hnd] He' Hnd'.
  assert (contents (d1 ++ e' :: d2) ≡ₚ entry_contents e' ++ contents (d1 ++ d2)) as Hp.
  { rewrite !contents_app, contents_cons. by rewrite Permutation_app_swap_app. }
  split; [split|].
  - rewrite length_app in *. simpl in *. lia.
  - apply Forall_app in Hd as [H1 Hd]. apply Forall_cons in Hd as [_ H2].
    apply Forall_app_2; [done|by constructor].
  - by rewrite Hp.
  - apply to_map_perm; [by rewrite Hp|done].
Qed.

Lemma alter_middle {A} (f : A -> A) l1 x l2 i :
  length l1 = i -> alter f i (l1 ++ x :: l2) = l1 ++ f x :: l2.
Proof using Type. intros <-. induction l1 as [|y l1 IH]; [done|]. cbn. by f_equal. Qed.

Lemma overwrite_terminated s : terminated s -> exists l, overwrite 0 [0] s = 0 :: l /\
  length (overwrite 0 [0] s) = length s.
Proof using Type.
  unfold terminated. destruct s as [|c s]; [by intros ?%elem_of_nil|]. intros _.
  exists s. unfold overwrite. simpl. by rewrite drop_0.
Qed.

Lemma remove_refines d k :
  dictionary_ok d -> k <> [] -> no_nul k ->
  exists d', RemoveKey d k = Some d' /\ dictionary_ok d' /\ to_map d' = delete k (to_map d).
Proof using Type.
  clear HK HV. intros Hd Hk Hn. unfold RemoveKey. rewrite (proj2 (key_checked_true k)) by done. simpl.
  destruct (GetConstEntryForKey d k) as [i|] eqn:E.
  - destruct (found_entry k d i Hd Hk Hn E)
      as (d1 & e & d2 & -> & Hi & _ & _ & He & H1 & H2 & Hp & Hnin).
    rewrite alter_middle by done. set (e' := MkEntry _ _).
    destruct He as (L1 & T1 & L2 & T2).
    destruct (overwrite_terminated _ T1) as (l1 & E1 & N1). destruct (overwrite_terminated _ T2) as (l2 & E2 & N2).
    assert (entry_ok e') as He'.
    { split_and!; cbn; [congruence| |congruence|]; unfold terminated; rewrite ?E1, ?E2; left. }
    assert (entry_contents e' = []) as Ec by (unfold entry_contents, is_active; cbn; by rewrite E1).
    pose proof (dok_keys _ Hd) as Hnd. rewrite Hp in Hnd. apply NoDup_cons in Hnd as [_ Hnd].
    destruct (entry_replaced d1 e e' d2 Hd He') as [Hd' Em]; [by rewrite Ec|]. rewrite Ec in Em.
    assert (GetConstEntryForKey (d1 ++ e' :: d2) k = None) as ->.
    { apply find_index_None, absent_keys; [apply Hd'|done|done|].
      by rewrite contents_app, contents_cons, Ec, app_nil_l, <-contents_app. }
    eexists. split; [done|]. split; [done|]. rewrite Em, (to_map_perm _ _ (dok_keys _ Hd) Hp).
    simpl. rewrite delete_insert_eq, delete_id; [done|]. by apply not_elem_of_list_to_map.
  - rewrite E. exists d. split_and!; [done|done|]. symmetry. apply delete_id.
    apply find_index_None, absent_keys in E; [|apply Hd|done|done]. by apply not_elem_of_list_to_map.
Qed.

(** One entry of the array has the key. *)
Lemma one_key d1 e d2 k :
  Forall entry_ok (d1 ++ d2) -> k <> [] -> no_nul k -> k ∉ (contents (d1 ++ d2)).*1 ->
  EntryKeyEquals k e = true ->
  length (filter (fun e => EntryKeyEquals k e = true) (d1 ++ e :: d2)) = 1%nat.
Proof using Type.
  clear HK HV. intros Hd Hk Hn Hnin He. apply absent_keys in Hnin; [|done|done|done].
  assert (forall d, Forall (fun e => EntryKeyEquals k e = false) d ->
    filter (fun e => EntryKeyEquals k e = true) d = []) as Hf.
  { induction 1 as [|x d Hx _ IH]; [done|]. rewrite filter_cons_False; [done|]. by rewrite Hx. }
  apply Forall_app in Hnin as [H1 H2].
  by rewrite filter_app, (Hf d1 H1), filter_cons_True, (Hf d2 H2).
Qed.

(** What setting a key does to the map: a key that is new is not added to a map
    that is full, and a value is cut off at the room there is for it. *)
Definition spec_set (m : gmap bytes bytes) (k v : bytes) : gmap bytes bytes :=
  if decide (is_Some (m !! k) \/ (size m < NumEntries)%nat)
  then <[k := take (ValueSize - 1) v]> m else m.

Lemma size_to_map d : dictionary_ok d -> size (to_map d) = length (contents d).
Proof using Type.
  intros Hd. apply map_size_list_to_map, Hd.
Qed.

Lemma full_contents d :
  Forall (fun e => negb (is_active e) = false) d -> length (contents d) = length d.
Proof using Type.
  induction 1 as [|e d He _ IH]; [done|]. rewrite contents_cons, length_app, IH.
  unfold entry_contents. by apply negb_false_iff in He as ->.
Qed.

Lemma contents_le d : (length (contents d) <= length d)%nat.
Proof using Type.
  clear HK HV KeySize ValueSize NumEntries.
  induction d as [|e d IH]; [done|]. rewrite contents_cons, length_app. simpl.
  unfold entry_contents. destruct (is_active e); simpl; lia.
Qed.

Lemma set_existing d k v i :
  dictionary_ok d -> k <> [] -> no_nul k -> no_nul v -> GetConstEntryForKey d k = Some i ->
  exists d', SetKeyValue d k (Some v) = Some d' /\ dictionary_ok d' /\
    is_Some (to_map d !! k) /\ to_map d' = <[k := take (ValueSize - 1) v]> (to_map d).
Proof using HV.
  clear HK. intros Hd Hk Hn Hv E. unfold SetKeyValue.
  rewrite (proj2 (key_checked_true k)), (bool_decide_eq_true_2 _ Hv) by done. simpl. rewrite E.
  destruct (found_entry k d i Hd Hk Hn E)
    as (d1 & e & d2 & -> & Hi & Hkey & Hc & He & H1 & H2 & Hp & Hnin).
  rewrite one_key; [|by apply Forall_app_2|done|done|done|by apply entry_key_equals]. simpl.
  rewrite alter_middle by done. set (e' := MkEntry _ _). pose proof He as (L1 & T1 & L2 & T2).
  destruct (set_from_string_piece v (value e) ValueSize) as (L3 & T3 & E3); [done..|].
  assert (entry_ok e') as He' by (split_and!; done).
  assert (entry_contents e' = [(k, take (ValueSize - 1) v)]) as Ec.
  { unfold entry_contents in *. unfold is_active in *. cbn in *. destruct (negb _); [|done]. by rewrite E3, Hkey. }
  destruct (entry_replaced d1 e e' d2 Hd He') as [Hd' Em].
  { rewrite Ec. pose proof (dok_keys _ Hd) as Hnd. by rewrite Hp in Hnd. }
  eexists. split; [done|]. split; [done|]. rewrite Em, Ec, (to_map_perm _ _ (dok_keys _ Hd) Hp). simpl.
  rewrite insert_insert_eq, lookup_insert_eq. split; [by eexists|done].
Qed.

Lemma set_new d k v :
  dictionary_ok d -> k <> [] -> no_nul k -> (length k < KeySize)%nat -> no_nul v ->
  GetConstEntryForKey d k = None ->
  exists d', SetKeyValue d k (Some v) = Some d' /\ dictionary_ok d' /\ to_map d !! k = None /\
    to_map d' = if decide (size (to_map d) < NumEntries)%nat
                then <[k := take (ValueSize - 1) v]> (to_map d) else to_map d.
Proof using HK HV.
  intros Hd Hk Hn Hlen Hv E. pose proof E as Habs.
  apply find_index_None, absent_keys in Habs; [|apply Hd|done|done].
  assert (to_map d !! k = None) as Hnone by (by apply not_elem_of_list_to_map).
  unfold SetKeyValue. rewrite (proj2 (key_checked_true k)), (bool_decide_eq_true_2 _ Hv) by done.
  simpl. rewrite E, size_to_map by done. destruct (find_index _ d) as [i|] eqn:Ef.
  - apply find_index_Some in Ef as (d1 & e & d2 & -> & Hi & Hina & _). apply negb_true_iff in Hina.
    pose proof (dok_entries _ Hd) as Hes. apply Forall_app in Hes as [H1 Hes].
    apply Forall_cons in Hes as [(L1 & T1 & L2 & T2) H2]. rewrite alter_middle by done.
    destruct (set_from_string_piece k (key e) KeySize) as (L3 & T3 & E3); [done..|].
    destruct (set_from_string_piece v (value e) ValueSize) as (L4 & T4 & E4); [done..|].
    rewrite take_ge in E3 by lia. set (e1 := MkEntry _ (value e)).
    assert (contents (d1 ++ e :: d2) = contents (d1 ++ d2)) as Ed.
    { rewrite !contents_app, contents_cons. unfold entry_contents. by rewrite Hina. }
    rewrite one_key; [|by apply Forall_app_2|done|done|by rewrite <-Ed|by apply entry_key_equals].
    simpl. rewrite alter_middle by done. set (e2 := MkEntry _ _).
    assert (entry_ok e2) as He2 by (split_and!; done).
    assert (entry_contents e2 = [(k, take (ValueSize - 1) v)]) as Ec.
    { unfold entry_contents. rewrite (proj2 (active_c_str e2 He2)); unfold e2, e1; cbn [key value];
      rewrite E3; [by rewrite E4|done]. }
    destruct (entry_replaced d1 e e2 d2 Hd He2) as [Hd' Em].
    { rewrite Ec. apply NoDup_cons. rewrite <-Ed. split; [done|apply Hd]. }
    eexists. split; [done|]. split; [done|]. split; [done|]. rewrite Em, Ec. simpl.
    rewrite decide_True; [by unfold to_map; rewrite Ed|]. rewrite <-(dok_size _ Hd), Ed.
    pose proof (contents_le (d1 ++ d2)). rewrite !length_app in *. simpl. lia.
  - eexists. split; [done|]. split; [done|]. split; [done|].
    apply find_index_None, full_contents in Ef. rewrite decide_False; [done|].
    rewrite Ef, (dok_size _ Hd). lia.
Qed.

Lemma set_refines d k v :
  dictionary_ok d -> k <> [] -> no_nul k -> (length k < KeySize)%nat -> no_nul v ->
  exists d', SetKeyValue d k (Some v) = Some d' /\ dictionary_ok d' /\
    to_map d' = spec_set (to_map d) k v.
Proof using HK HV.
  intros Hd Hk Hn Hlen Hv. unfold spec_set. destruct (GetConstEntryForKey d k) as [i|] eqn:E.
  - destruct (set_existing d k v i) as (d' & Es & Hd' & Hin & Em); [done..|].
    exists d'. split_and!; [done|done|]. by rewrite decide_True by auto.
  - destruct (set_new d k v) as (d' & Es & Hd' & Hnone & Em); [done..|].
    exists d'. split_and!; [done|done|]. rewrite Em. apply decide_ext. rewrite Hnone.
    split; [by auto|]. intros [[? ?]|?]; done.
Qed.

Lemma count_contents d : GetCount d = length (contents d).
Proof using Type.
  clear HK HV. unfold GetCount. induction d as [|e d IH]; [done|]. rewrite contents_cons, length_app, <-IH.
  unfold entry_contents. destruct (is_active e) eqn:E.
  - by rewrite filter_cons_True.
  - by rewrite filter_cons_False by (by rewrite E).
Qed.

(** A key there is no room for is stored cut off, and then the DCHECK that it is
    there once fails, although the comment of [SetKeyValue] allows such a key. *)
Lemma set_long_key_fails d k v :
  (KeySize <= length k)%nat -> (GetCount d < length d)%nat -> SetKeyValue d k (Some v) = None.
Proof using Type.
  clear HK HV. intros Hk Hc. unfold SetKeyValue. destruct (negb _); [done|].
  assert (forall e, EntryKeyEquals k e = false) as Hne.
  { intros e. unfold EntryKeyEquals. by rewrite (proj2 (Nat.leb_le _ _) Hk). }
  unfold GetConstEntryForKey. rewrite (proj2 (find_index_None (EntryKeyEquals k) d)) by (by apply Forall_true).
  destruct (find_index _ d) as [i|] eqn:E.
  - match goal with |- context [filter ?P ?l] => destruct (filter P l) as [|x l'] eqn:Ef end; [done|].
    assert (x ∈ x :: l') as Hx by left. rewrite <-Ef in Hx. apply list_elem_of_filter in Hx as [Hx _].
    by rewrite Hne in Hx.
  - apply find_index_None, full_contents in E. rewrite count_contents in Hc. lia.
Qed.

Lemma iterate_contents d : map (fun e => (c_str (key e), c_str (value e))) (iterate d) = contents d.
Proof using Type.
  induction d as [|e d IH]; [done|]. rewrite contents_cons. unfold entry_contents. simpl.
  destruct (is_active e); simpl; by rewrite IH.
Qed.

End Operations.

(** ** Sequences of operations *)

Inductive operation :=
  | op_set (k v : bytes)
  | op_remove (k : bytes)
  | op_get (k : bytes)
  | op_count.
(** What an operation returns: nothing, a value or a count. *)
Inductive answer := done_ | value_ (v : option bytes) | count_ (n : nat).

Definition perform (d : t) (op : operation) : option (t * answer) :=
  match op with
  | op_set k v => d' ← SetKeyValue d k (Some v); Some (d', done_)
  | op_remove k => d' ← RemoveKey d k; Some (d', done_)
  | op_get k => r ← GetValueForKey d k; Some (d, value_ (c_str <$> r))
  | op_count => Some (d, count_ (GetCount d))
  end.
Fixpoint perform_all (d : t) (ops : list operation) : option (t * list answer) :=
  match ops with
  | [] => Some (d, [])
  | op :: ops' => '(d', a) ← perform d op; '(d'', l) ← perform_all d' ops'; Some (d'', a :: l)
  end.

Definition spec_perform (m : gmap bytes bytes) (op : operation) : gmap bytes bytes * answer :=
  match op with
  | op_set k v => (spec_set m k v, done_)
  | op_remove k => (delete k m, done_)
  | op_get k => (m, value_ (m !! k))
  | op_count => (m, count_ (size m))
  end.
Fixpoint spec_all (m : gmap bytes bytes) (ops : list operation) : gmap bytes bytes * list answer :=
  match ops with
  | [] => (m, [])
  | op :: ops' =>
      let '(m', a) := spec_perform m op in let '(m'', l) := spec_all m' ops' in (m'', a :: l)
  end.

(** What the interface asks of its arguments; a key must fit with its NUL. *)
Definition operation_ok (op : operation) : Prop :=
  match op with
  | op_set k v => k <> [] /\ no_nul k /\ (length k < KeySize)%nat /\ no_nul v
  | op_remove k | op_get k => k <> [] /\ no_nul k
  | op_count => True
  end.

Lemma perform_refines d op :
  (0 < KeySize)%nat -> (0 < ValueSize)%nat -> dictionary_ok d -> operation_ok op ->
  exists d' a, perform d op = Some (d', a) /\ dictionary_ok d' /\
    spec_perform (to_map d) op = (to_map d', a).
Proof.
  intros HK HV Hd. destruct op as [k v|k|k|];
    cbn [perform spec_perform operation_ok].
  - intros (Hk & Hn & Hl & Hv). destruct (set_refines HK HV d k v) as (d' & -> & Hd' & Em); [done..|].
    exists d', done_. by rewrite Em.
  - intros (Hk & Hn). destruct (remove_refines d k) as (d' & -> & Hd' & Em); [done..|].
    exists d', done_. by rewrite Em.
  - intros (Hk & Hn). destruct (get_refines d k) as (r & -> & Er); [done..|].
    eexists d, _. split; [reflexivity|]. by rewrite Er.
  - intros _. eexists d, _. split; [reflexivity|]. by rewrite count_contents, size_to_map.
Qed.

(** C36. [TSimpleStringDictionary] implements a bounded map: any sequence of
    operations on a new dictionary, with keys that are not empty, have no NUL and are
    shorter than [KeySize], passes the DCHECKs and returns what a finite map
    returns in which a new key is dropped when there are [NumEntries] keys already,
    and a value is cut off at [ValueSize - 1] characters; what is left in the array
    is that map, with each key once. *)
Theorem dictionary_refines_map ops :
  (0 < KeySize)%nat -> (0 < ValueSize)%nat -> Forall operation_ok ops ->
  exists d answers, perform_all init ops = Some (d, answers) /\ dictionary_ok d /\
    spec_all ∅ ops = (to_map d, answers).
Proof.
  intros HK HV Hops. destruct (init_ok HK HV) as [Hi <-]. revert Hi. generalize init as d.
  induction Hops as [|op ops Hop _ IH]; intros d Hd; [by exists d, []|].
  destruct (perform_refines d op HK HV Hd Hop) as (d' & a & E & Hd' & Es).
  destruct (IH d' Hd') as (d'' & l & E' & Hd'' & Es').
  exists d'', (a :: l). cbn [perform_all spec_all]. rewrite E. cbn [mbind option_bind]. rewrite E'. cbn [mbind option_bind].
  rewrite Es, Es'. done.
Qed.

End Dictionary.

Definition example_operations : list operation :=
  [op_set (str "ab") (str "value"); op_set (str "c") (str "d"); op_set (str "e") (str "f");
   op_get (str "ab"); op_get (str "e"); op_remove (str "c"); op_set (str "e") (str "g");
   op_count; op_get (str "e"); op_get (str "c")].

Lemma dictionary_refines_map_witness :
  exists d answers, perform_all 4 4 (init 4 4 2) example_operations = Some (d, answers) /\
    dictionary_ok 4 4 2 d /\ spec_all 4 2 ∅ example_operations = (to_map d, answers) /\
    answers = [done_; done_; done_; value_ (Some (str "val")); value_ None; done_; done_; count_ 2;
               value_ (Some (str "g")); value_ None].
Proof.
  destruct (dictionary_refines_map 4 4 2 example_operations) as (d & answers & E & Hd & Es);
    [lia|lia|vm_compute; repeat constructor; congruence|].
  exists d, answers. split_and!; [exact E|exact Hd|exact Es|].
  vm_compute in E. injection E as _ <-. vm_compute. reflexivity.
Defined.

End SimpleStringDictionary.

(** ** SimpleAddressRangeBag *)

Module SimpleAddressRangeBag.

(** An entry: [base] and [size]. *)
Record Entry := MkEntry { base : Z; size : Z }.
#[export] Instance Entry_eq_dec : EqDecision Entry.
Proof. solve_decision. Defined.
Definition is_active (e : Entry) : bool := negb (base e =? 0) || negb (size e =? 0).

(** A bag is its array [entries_]. *)
Abbreviation t := (list Entry) (only parsing).

Definition init (NumEntries : nat) : t := replicate NumEntries (MkEntry 0 0).

Definition GetCount (b : t) : nat := length (filter (fun e => is_active e = true) b).

(** [Insert] and [Remove] of a range: whether it was done, and the bag. *)
Definition Insert (b : t) (range : CheckedRange.t) : option (bool * t) :=
  let e := MkEntry (CheckedRange.base range) (CheckedRange.size range) in
  if negb (is_active e) then None
  else
    match find_index (fun e => negb (is_active e)) b with
    | Some i => Some (true, <[i := e]> b)
    | None => Some (false, b)
    end.

Definition Remove (b : t) (range : CheckedRange.t) : option (bool * t) :=
  let e := MkEntry (CheckedRange.base range) (CheckedRange.size range) in
  if negb (is_active e) then None
  else
    match find_index (fun x => (base x =? base e) && (size x =? size e)) b with
    | Some i => Some (true, <[i := MkEntry 0 0]> b)
    | None => Some (false, b)
    end.

(** The overloads for a pointer and a size. *)
Definition InsertPointer (b : t) (base size : Z) : option (bool * t) :=
  if (base =? 0) || (size =? 0) then None else Insert b (CheckedRange.Make base size).
Definition RemovePointer (b : t) (base size : Z) : option (bool * t) :=
  if (base =? 0) || (size =? 0) then None else Remove b (CheckedRange.Make base size).

(** [Iterator::Next], until it returns null: the ranges in the bag. *)
Fixpoint iterate (b : t) : list Entry :=
  match b with
  | [] => []
  | e :: b' => if is_active e then e :: iterate b' else iterate b'
  end.

Lemma iterate_app b1 b2 : iterate (b1 ++ b2) = iterate b1 ++ iterate b2.
Proof. induction b1 as [|e b IH]; simpl; [done|]. rewrite IH. by destruct (is_active e). Qed.

Lemma count_iterate b : GetCount b = length (iterate b).
Proof.
  unfold GetCount. induction b as [|e b IH]; [done|]. simpl. destruct (is_active e) eqn:E; simpl.
  - rewrite filter_cons_True by done. simpl. by rewrite IH.
  - by rewrite filter_cons_False by (by rewrite E).
Qed.

Lemma insert_at {A} (l1 : list A) x y l2 : <[length l1 := y]> (l1 ++ x :: l2) = l1 ++ y :: l2.
Proof. by rewrite insert_app_r_alt, Nat.sub_diag by lia. Qed.

(** The bag is a multiset of at most as many ranges as it has entries: a range is
    added if there is room, and one occurrence of a range is removed. *)
Lemma bag_insert_refines b range :
  let e := MkEntry (CheckedRange.base range) (CheckedRange.size range) in
  is_active e = true -> exists b', Insert b range = Some (bool_decide (GetCount b < length b)%nat, b') /\
    length b' = length b /\
    iterate b' ≡ₚ if decide (GetCount b < length b)%nat then e :: iterate b else iterate b.
Proof.
  intros e He. unfold Insert. fold e. rewrite He. simpl. rewrite count_iterate.
  destruct (find_index _ b) as [i|] eqn:E.
  - apply find_index_Some in E as (b1 & x & b2 & -> & <- & Hx & _). apply negb_true_iff in Hx.
    assert (length (iterate (b1 ++ x :: b2)) < length (b1 ++ x :: b2))%nat as Hlt.
    { rewrite iterate_app. simpl. rewrite Hx, !length_app. simpl.
      assert (forall l, (length (iterate l) <= length l)%nat) as Hle.
      { induction l as [|y l IH]; simpl; [lia|]. destruct (is_active y); simpl; lia. }
      pose proof (Hle b1). pose proof (Hle b2). lia. }
    exists (<[length b1 := e]> (b1 ++ x :: b2)).
    rewrite bool_decide_eq_true_2, decide_True, length_insert by done. split_and!; [done..|].
    rewrite insert_at, !iterate_app. simpl. rewrite He, Hx. symmetry. apply Permutation_middle.
  - exists b. assert (length (iterate b) = length b) as Hl.
    { apply find_index_None in E. induction E as [|y l Hy _ IH]; [done|]. simpl.
      apply negb_false_iff in Hy as ->. simpl. by rewrite IH. }
    rewrite Hl, bool_decide_eq_false_2, decide_False by lia. done.
Qed.

Lemma bag_remove_refines b range :
  let e := MkEntry (CheckedRange.base range) (CheckedRange.size range) in
  is_active e = true -> exists b', Remove b range = Some (bool_decide (e ∈ iterate b), b') /\
    length b' = length b /\
    if decide (e ∈ iterate b) then iterate b ≡ₚ e :: iterate b' else b' = b.
Proof.
  intros e He. unfold Remove. fold e. rewrite He. simpl.
  assert (forall x, (base x =? base e) && (size x =? size e) = true <-> x = e) as Heq.
  { intros [xb xs]. rewrite andb_true_iff, !Z.eqb_eq. destruct e. simpl. naive_solver. }
  destruct (find_index _ b) as [i|] eqn:E.
  - apply find_index_Some in E as (b1 & x & b2 & -> & <- & Hx%Heq & _). subst x.
    assert (e ∈ iterate (b1 ++ e :: b2)) as Hin.
    { rewrite iterate_app. simpl. rewrite He, elem_of_app. right. left. }
    exists (<[length b1 := MkEntry 0 0]> (b1 ++ e :: b2)).
    rewrite bool_decide_eq_true_2, decide_True, length_insert by done. split_and!; [done..|].
    rewrite insert_at, !iterate_app. simpl. rewrite He. symmetry. apply Permutation_middle.
  - exists b. assert (e ∉ iterate b) as Hnin.
    { apply find_index_None in E. induction E as [|y l Hy _ IH]; [apply not_elem_of_nil|]. simpl.
      destruct (is_active y); [|done]. apply not_elem_of_cons. split; [|done]. intros Ey.
      apply not_true_iff_false in Hy. apply Hy. by apply Heq. }
    by rewrite bool_decide_eq_false_2, decide_False.
Qed.

End SimpleAddressRangeBag.

(** ** Annotation, StringAnnotation *)

Module Annotation.

Definition kValueMaxSize : Z := 5 * 4096.

(** What [SetSize] of the annotation [self] and [Clear] leave in [size_]; with
    [SetSize], the calls of [AnnotationList::Add] it makes, which are the [calls] of
    a thread in AnnotationList.v. *)
Definition SetSize (self : nat) (size : Z) : option (Z * list nat) :=
  if size <? kValueMaxSize then Some (size, [self]) else None.
Definition Clear : Z := 0.
Definition is_set (size_ : Z) : bool := 0 <? size_.

(** [UserDefinedType]. *)
Definition kUserDefinedStart : Z := 0x8000.
Definition UserDefinedType (value : Z) : option Z :=
  let user_type := u16 (kUserDefinedStart + value) in
  if kUserDefinedStart <? user_type then Some user_type else None.

Lemma user_defined_type value :
  0 <= value < 2 ^ 16 ->
  UserDefinedType value = if (0 <? value) && (value <? 0x8000) then Some (0x8000 + value) else None.
Proof.
  intros Hv. unfold UserDefinedType, kUserDefinedStart, wrap.
  destruct (Z.ltb_spec value 0x8000).
  - rewrite Z.mod_small by lia. destruct (Z.ltb_spec 0 value), (Z.ltb_spec 0x8000 (0x8000 + value)); done || lia.
  - rewrite <-(Z.mod_unique (0x8000 + value) (2 ^ 16) 1 (value - 0x8000)) by lia.
    rewrite andb_false_r. destruct (Z.ltb_spec 0x8000 (value - 0x8000)); done || lia.
Qed.

End Annotation.

Module StringAnnotation.

Record t := Make { size_ : Z; value_ : bytes }.

Section StringAnnotation.
  Variables (self MaxSize : nat).

  (** [base::saturated_cast<uint32_t>]: the value itself if it fits, the greatest
      [uint32_t] otherwise. *)
  Variable saturated_cast : Z -> Z.
  Hypothesis saturated_cast_spec : forall n, 0 <= n -> saturated_cast n = Z.min n (2 ^ 32 - 1).

Definition init : t := Make 0 (replicate MaxSize 0).

(** [Set] of a C string, whose characters are [value]: [strncpy] pads with NULs. *)
Definition SetCString (x : t) (value : bytes) : option (t * list nat) :=
  let value' := take MaxSize value ++ replicate (MaxSize - length value) 0 in
  '(size, added) ← Annotation.SetSize self
    (Z.min (Z.of_nat MaxSize) (saturated_cast (Z.of_nat (length value))));
  Some (Make size value', added).

(** [Set] of a [base::StringPiece]. *)
Definition SetStringPiece (x : t) (string : bytes) : option (t * list nat) :=
  let size := Z.min (Z.of_nat MaxSize) (saturated_cast (Z.of_nat (length string))) in
  let value' := overwrite 0 (take (Z.to_nat size) string) (value_ x) in
  if bool_decide (no_nul (take (Z.to_nat size) value'))
  then '(size', added) ← Annotation.SetSize self size; Some (Make size' value', added) else None.

Definition value (x : t) : bytes := take (Z.to_nat (size_ x)) (value_ x).

(** Either way the annotation has the characters there is room for, and is added to
    the list. *)
Lemma string_annotation_set x s :
  Z.of_nat MaxSize < Annotation.kValueMaxSize -> length (value_ x) = MaxSize -> no_nul s ->
  (exists x', SetCString x s = Some (x', [self]) /\ length (value_ x') = MaxSize /\ value x' = take MaxSize s) /\
  (exists x', SetStringPiece x s = Some (x', [self]) /\ length (value_ x') = MaxSize /\ value x' = take MaxSize s).
Proof using saturated_cast_spec.
  unfold Annotation.kValueMaxSize. intros HM Hx Hs.
  set (n := Nat.min MaxSize (length s)).
  assert (Z.min (Z.of_nat MaxSize) (saturated_cast (Z.of_nat (length s))) = Z.of_nat n) as E
    by (rewrite saturated_cast_spec; lia).
  assert (take n s = take MaxSize s) as Et.
  { subst n. destruct (decide (MaxSize <= length s)%nat); [by rewrite Nat.min_l|].
    rewrite Nat.min_r by lia. rewrite !take_ge by lia. done. }
  assert (Annotation.SetSize self (Z.of_nat n) = Some (Z.of_nat n, [self])) as Es.
  { unfold Annotation.SetSize, Annotation.kValueMaxSize.
    destruct (Z.ltb_spec (Z.of_nat n) (5 * 4096)); [done|lia]. }
  assert (forall l, take n (take n s ++ l) = take MaxSize s) as Ev.
  { intros l. rewrite take_app_length', Et by (rewrite length_take; lia). done. }
  assert (length (take n s) = n) as Ln by (rewrite length_take; lia).
  unfold SetCString, SetStringPiece, value, overwrite. rewrite E, Nat2Z.id, Es, take_0, app_nil_l, Ev.
  split.
  - eexists. split; [reflexivity|]. cbn [size_ value_]. rewrite Nat2Z.id, <-Et. split; [|by rewrite Ev, Et].
    rewrite length_app, length_replicate, Ln. lia.
  - rewrite bool_decide_eq_true_2 by by apply Forall_take.
    eexists. split; [reflexivity|]. cbn [size_ value_]. rewrite Nat2Z.id, Ev. split; [|done].
    rewrite length_app, length_drop, Ln. lia.
Qed.

End StringAnnotation.

End StringAnnotation.
