(* ===== verification/ProcessMemory.v ===== *)
(** * Reading the memory of another process (util/process)

    [ProcessMemory::Read] and [ReadCString] (process_memory.cc) are loops over the
    virtual function [ReadUpTo], which reads what it can; [ProcessMemoryRange]
    (process_memory_range.cc) restricts reads to a range of addresses, and
    [ProcessMemorySanitized] (process_memory_sanitized.cc) to a list of ranges.

    [ReadUpTo] is the operation of the class [ProcessMemory].  Its laws speak of the
    memory of the process, the byte at each address that can be read: what is read is
    what is there ([ProcessMemoryLaws]), and something is read if the first byte can be
    ([ProcessMemoryProgress]).  Addresses are 64-bit integers that wrap around; the laws
    are those of reads that do not. *)

From S2P Require Import Prelude.
From S2P Require Import Numeric.
#[local] Open Scope crashpad_scope.

(** [None] is -1: a failure. *)
Class ProcessMemory (M : Type) := {
  ReadUpTo : M -> Z -> Z -> option bytes;
  byte_at : M -> Z -> option Z
}.
Definition span (a n : Z) : Prop := 0 <= a /\ 0 <= n /\ a + n < 2 ^ 64.
Class ProcessMemoryLaws M `{ProcessMemory M} : Prop := {
  read_up_to_size m a n d : span a n -> ReadUpTo m a n = Some d -> Z.of_nat (length d) <= n;
  read_up_to_bytes m a n d i b : span a n -> ReadUpTo m a n = Some d -> d !! i = Some b -> byte_at m (a + Z.of_nat i) = Some b;
  byte_at_byte m a b : byte_at m a = Some b -> 0 <= a < 2 ^ 64 /\ is_byte b
}.
Class ProcessMemoryProgress M `{ProcessMemory M} : Prop :=
  read_up_to_progress m a n b : span a n -> 0 < n -> byte_at m a = Some b -> exists d, ReadUpTo m a n = Some d /\ d <> [].

Section Reading.
  Context {M : Type} `{ProcessMemory M}.

(** ** ProcessMemory *)

(** The loop of [Read]: each round reads a byte at least. *)
Fixpoint read_loop (fuel : nat) (m : M) (address local_size : Z) (buffer : bytes) : outcome bytes :=
  match fuel with
  | O => Failed
  | S f =>
      if local_size =? 0 then Done buffer
      else
        match ReadUpTo m address local_size with
        | None | Some [] => Failed
        | Some d =>
            let bytes_read := Z.of_nat (length d) in
            if local_size <? bytes_read then Undefined
            else read_loop f m (u64 (address + bytes_read)) (local_size - bytes_read) (buffer ++ d)
        end
  end.
Definition Read (m : M) (address size : Z) : outcome bytes :=
  match AssignIfInRange uint64_t size with
  | None => Failed
  | Some local_size => read_loop (S (Z.to_nat local_size)) m address local_size []
  end.

(** [memchr] for NUL: what is before the first one. *)
Fixpoint before_nul (s : bytes) : option bytes :=
  match s with
  | [] => None
  | c :: s' => if c =? 0 then Some [] else (fun r => c :: r) <$> before_nul s'
  end.

Definition kBufferSize : Z := 4096.
(** The loop of [ReadCStringInternal]; [limit] is [local_size] if [has_size]. *)
Fixpoint c_string_loop (fuel : nat) (m : M) (address : Z) (limit : option Z) (string : bytes) : outcome bytes :=
  match fuel with
  | O => Failed
  | S f =>
      let read_size := match limit with Some local_size => Z.min kBufferSize local_size | None => kBufferSize end in
      match ReadUpTo m address read_size with
      | None | Some [] => Failed
      | Some d =>
          match before_nul d with
          | Some s => Done (string ++ s)
          | None =>
              let bytes_read := Z.of_nat (length d) in
              let limit := match limit with Some local_size => Some (u64 (local_size - bytes_read)) | None => None end in
              if match limit with None => true | Some local_size => 0 <? local_size end
              then c_string_loop f m (u64 (address + bytes_read)) limit (string ++ d)
              else Failed
          end
      end
  end.
(** The number of bytes read at most is the fuel of [ReadCString], which has no limit. *)
Definition ReadCString (fuel : nat) (m : M) (address : Z) : outcome bytes := c_string_loop fuel m address None [].
Definition ReadCStringSizeLimited (m : M) (address size : Z) : outcome bytes :=
  match AssignIfInRange uint64_t size with
  | None => Failed
  | Some local_size => c_string_loop (S (Z.to_nat local_size)) m address (Some local_size) []
  end.

(** ** ProcessMemoryRange *)

(** [memory_] and [range_]. *)
Record ProcessMemoryRange := MkMemoryRange { memory_ : M; range_ : CheckedAddressRange.t }.

Definition InitializeRange (memory : M) (is_64_bit : bool) (base size : Z) : option ProcessMemoryRange :=
  let range := CheckedAddressRange.SetRange is_64_bit base size in
  if CheckedAddressRange.IsValid range then Some (MkMemoryRange memory range) else None.
Definition InitializeAll (memory : M) (is_64_bit : bool) : option ProcessMemoryRange :=
  InitializeRange memory is_64_bit 0 (if is_64_bit then 2 ^ 64 - 1 else 2 ^ 32 - 1).
Definition InitializeCopy (other : ProcessMemoryRange) : option ProcessMemoryRange :=
  InitializeRange (memory_ other) (CheckedAddressRange.is_64_bit (range_ other))
    (CheckedAddressRange.Base (range_ other)) (CheckedAddressRange.Size (range_ other)).
Definition Is64Bit (r : ProcessMemoryRange) : bool := CheckedAddressRange.is_64_bit (range_ r).
Definition RestrictRange (r : ProcessMemoryRange) (base size : Z) : option ProcessMemoryRange :=
  let new_range := CheckedAddressRange.SetRange (Is64Bit r) base size in
  if negb (CheckedAddressRange.IsValid new_range) || negb (CheckedAddressRange.ContainsRange (range_ r) new_range)
  then None else Some (MkMemoryRange (memory_ r) new_range).

(** [Read] and [ReadCStringSizeLimited] of a range. *)
Definition RangeRead (r : ProcessMemoryRange) (address size : Z) : outcome bytes :=
  let read_range := CheckedAddressRange.SetRange (Is64Bit r) address size in
  if negb (CheckedAddressRange.IsValid read_range) || negb (CheckedAddressRange.ContainsRange (range_ r) read_range)
  then Failed else Read (memory_ r) address size.
Definition RangeReadCStringSizeLimited (r : ProcessMemoryRange) (address size : Z) : outcome bytes :=
  if negb (CheckedAddressRange.ContainsValue (range_ r) address) then Failed
  else ReadCStringSizeLimited (memory_ r) address
         (Z.min size (u64 (CheckedAddressRange.End_ (range_ r) - address))).

(** ** ProcessMemorySanitized *)

Record ProcessMemorySanitized := MkSanitized { sanitized_memory_ : M; allowed_ranges_ : list (Z * Z) }.

(** [Initialize]: without a list no range is allowed. *)
Definition InitializeSanitized (memory : M) (allowed_ranges : option (list (Z * Z))) : ProcessMemorySanitized :=
  MkSanitized memory (default [] allowed_ranges).
Definition entry_allows (address end_ : Z) (entry : Z * Z) : bool :=
  (entry.1 <=? address) && (address <? entry.2) && (entry.1 <=? end_) && (end_ <=? entry.2).
Definition SanitizedReadUpTo (m : ProcessMemorySanitized) (address size : Z) : option bytes :=
  if existsb (entry_allows address (u64 (address + size))) (allowed_ranges_ m)
  then ReadUpTo (sanitized_memory_ m) address size else Some [].
End Reading.
Arguments ProcessMemoryRange : clear implicits.
Arguments ProcessMemorySanitized : clear implicits.

(** ** What is read *)

Section Correctness.
  Context {M : Type} `{ProcessMemoryLaws M}.

(** The [n] bytes at an address, if all of them can be read. *)
Definition load (m : M) (a n : Z) : option bytes := mapM (byte_at m) (seqZ a n).

Lemma load_spec m a n d :
  load m a n = Some d <->
  length d = Z.to_nat n /\ forall i b, d !! i = Some b -> byte_at m (a + Z.of_nat i) = Some b.
Proof.
  unfold load. rewrite mapM_Some. split.
  - intros Hd. pose proof (Forall2_length _ _ _ Hd) as Hl. rewrite length_seqZ in Hl. split; [done|].
    intros i b Hi. pose proof (lookup_lt_Some _ _ _ Hi). eapply Forall2_lookup_r in Hd as (x & Hx & E); [|exact Hi].
    rewrite lookup_seqZ in Hx. by destruct Hx as [-> _].
  - intros [Hl Hd]. apply Forall2_same_length_lookup. split; [by rewrite length_seqZ|].
    intros i x b Hx Hb. rewrite lookup_seqZ in Hx. destruct Hx as [-> _]. by apply Hd.
Qed.
Lemma load_length m a n d : load m a n = Some d -> length d = Z.to_nat n.
Proof. by intros [Hl _]%load_spec. Qed.

Lemma load_app m a d1 d2 n :
  Z.to_nat n = (length d1 + length d2)%nat ->
  load m a n = Some (d1 ++ d2) <->
  load m a (Z.of_nat (length d1)) = Some d1 /\ load m (a + Z.of_nat (length d1)) (Z.of_nat (length d2)) = Some d2.
Proof.
  intros Hn. rewrite !load_spec, length_app, !Nat2Z.id. split.
  - intros [_ Hd]. split; (split; [done|]); intros i b Hi.
    + apply Hd. by apply lookup_app_l_Some.
    + rewrite <-Z.add_assoc, <-Nat2Z.inj_add. apply Hd. apply lookup_app_Some. right. split; [lia|].
      by replace (length d1 + i - length d1)%nat with i by lia.
  - intros [[_ H1] [_ H2]]. split; [lia|]. intros i b Hi. apply lookup_app_Some in Hi as [Hi|[Hge Hi]]; [by apply H1|].
    replace (a + Z.of_nat i) with (a + Z.of_nat (length d1) + Z.of_nat (i - length d1)) by lia. by apply H2.
Qed.
Lemma load_some m a n d n1 :
  0 <= n1 <= n -> load m a n = Some d ->
  exists d1 d2, d = d1 ++ d2 /\ length d1 = Z.to_nat n1 /\ load m a n1 = Some d1 /\ load m (a + n1) (n - n1) = Some d2.
Proof.
  intros Hn Hd. pose proof (load_length _ _ _ _ Hd) as Hl. exists (take (Z.to_nat n1) d), (drop (Z.to_nat n1) d).
  rewrite <-(take_drop (Z.to_nat n1) d) in Hd. apply load_app in Hd as [H1 H2]; [|len_lia].
  assert (length (take (Z.to_nat n1) d) = Z.to_nat n1) as E1 by len_lia.
  rewrite E1, Z2Nat.id in H1, H2 by lia.
  replace (Z.of_nat (length (drop (Z.to_nat n1) d))) with (n - n1) in H2 by len_lia.
  split_and!; [by rewrite take_drop|done|done|done].
Qed.
Lemma load_byte m a n d : 0 < n -> load m a n = Some d -> exists b, byte_at m a = Some b.
Proof.
  intros Hn [Hl Hd]%load_spec. destruct d as [|b d]; [cbn in Hl; lia|]. exists b.
  rewrite <-(Z.add_0_r a). by apply (Hd 0%nat).
Qed.
Lemma load_bytes m a n d : load m a n = Some d -> Forall is_byte d.
Proof.
  intros [_ Hd]%load_spec. apply Forall_lookup. intros i b Hi. by eapply byte_at_byte, Hd.
Qed.

(** What [ReadUpTo] returns is what is there. *)
Lemma read_up_to_load m a n d : span a n -> ReadUpTo m a n = Some d -> load m a (Z.of_nat (length d)) = Some d.
Proof. intros Hn E. apply load_spec. split; [by rewrite Nat2Z.id|]. intros i b. by eapply read_up_to_bytes. Qed.

(** *** Read *)

(** What is read is what is there. *)
Lemma read_loop_sound fuel m a n buf r :
  span a n -> read_loop fuel m a n buf = Done r -> exists d, r = buf ++ d /\ load m a n = Some d.
Proof.
  revert a n buf. induction fuel as [|f IH]; intros a n buf Hn; cbn [read_loop]; [done|].
  destruct (Z.eqb_spec n 0) as [->|Hn0]; [intros [= <-]; exists []; by rewrite app_nil_r|].
  destruct (ReadUpTo m a n) as [[|b d]|] eqn:E; [done| |done]. pose proof (read_up_to_load m a n _ Hn E) as Hd.
  pose proof (read_up_to_size m a n _ Hn E) as Hs. set (d0 := b :: d) in *.
  destruct (Z.ltb_spec n (Z.of_nat (length d0))) as [?|_]; [done|]. intros Hr.
  unfold span in *. rewrite wrap_small in Hr by lia. apply IH in Hr as (d1 & -> & Hd1); [|unfold span; lia].
  exists (d0 ++ d1). rewrite <-app_assoc. split; [done|]. pose proof (load_length _ _ _ _ Hd1).
  apply load_app; [lia|]. split; [done|]. by replace (Z.of_nat (length d1)) with (n - Z.of_nat (length d0)) by lia.
Qed.

Lemma read_loop_defined fuel m a n buf : span a n -> read_loop fuel m a n buf <> Undefined.
Proof.
  revert a n buf. induction fuel as [|f IH]; intros a n buf Hn; cbn [read_loop]; [done|].
  destruct (n =? 0); [done|]. destruct (ReadUpTo m a n) as [[|b d]|] eqn:E; [done| |done].
  pose proof (read_up_to_size m a n _ Hn E). unfold span in *.
  destruct (Z.ltb_spec n (Z.of_nat (length (b :: d)))); [lia|]. rewrite wrap_small by lia. apply IH. unfold span. lia.
Qed.

Lemma read_loop_complete `{!ProcessMemoryProgress M} fuel m a n buf d :
  span a n -> load m a n = Some d -> (Z.to_nat n < fuel)%nat -> read_loop fuel m a n buf = Done (buf ++ d).
Proof.
  revert a n buf d. induction fuel as [|f IH]; intros a n buf d Hn Hd Hf; [lia|]. cbn [read_loop].
  destruct (Z.eqb_spec n 0) as [->|Hn0]; [injection Hd as <-; by rewrite app_nil_r|].
  destruct (load_byte m a n d) as [b0 Hb]; [unfold span in Hn; lia|done|]. destruct (read_up_to_progress m a n b0) as (d1 & E & Hd1); [done|unfold span in Hn; lia|done|].
  rewrite E. pose proof (read_up_to_size m a n _ Hn E) as Hs. pose proof (read_up_to_load m a n _ Hn E) as Hl1.
  destruct d1 as [|b d1]; [done|]. set (d0 := b :: d1) in *. assert (0 < Z.of_nat (length d0)) by (cbn [d0 length]; lia).
  destruct (Z.ltb_spec n (Z.of_nat (length d0))); [lia|].
  destruct (load_some m a n d (Z.of_nat (length d0))) as (d1' & d2 & -> & _ & Hl1' & Hl2); [lia|done|].
  assert (d1' = d0) as -> by congruence. rewrite app_assoc.
  unfold span in Hn. rewrite wrap_small by lia. apply IH; [unfold span; lia|done|lia].
Qed.

(** *** C strings *)

Lemma before_nul_Some s r : before_nul s = Some r <-> exists t, s = r ++ 0 :: t /\ 0 ∉ r.
Proof.
  revert r. induction s as [|c s IH]; intros r; cbn [before_nul].
  - split; [done|]. intros (t & E & _). by destruct r.
  - destruct (Z.eqb_spec c 0) as [->|Hc].
    + split; [intros [= <-]; exists s; split; [done|apply not_elem_of_nil]|].
      intros (t & E & Hr). destruct r as [|x r]; [done|]. injection E as <- _. destruct Hr. left.
    + rewrite fmap_Some. split.
      * intros (r' & (t & -> & Hr)%IH & ->). exists t. split; [done|]. by apply not_elem_of_cons.
      * intros (t & E & Hr). destruct r as [|x r]; [by injection E|]. injection E as <- ->.
        exists r. split; [|done]. apply IH. exists t. split; [done|]. by apply not_elem_of_cons in Hr as [_ ?].
Qed.
Lemma before_nul_None s : before_nul s = None <-> 0 ∉ s.
Proof.
  induction s as [|c s IH]; cbn [before_nul]; [split; [intros _; apply not_elem_of_nil|done]|].
  rewrite not_elem_of_cons. destruct (Z.eqb_spec c 0) as [->|Hc]; [split; [done|by intros [? _]]|].
  rewrite fmap_None, IH. split; [by intros ?; split|by intros [_ ?]].
Qed.

(** The string that a NUL ends at an address. *)
Definition c_string_at (m : M) (a : Z) (s : bytes) : Prop :=
  load m a (Z.of_nat (length s) + 1) = Some (s ++ [0]) /\ 0 ∉ s.

(** A part of the string has no NUL. *)
Lemma c_string_prefix m a d s :
  load m a (Z.of_nat (length d)) = Some d -> 0 ∉ d ->
  c_string_at m a s <-> exists s', s = d ++ s' /\ c_string_at m (a + Z.of_nat (length d)) s'.
Proof.
  intros Hd Hn. unfold c_string_at. split.
  - intros [Hs Hs0]. assert (exists s', s = d ++ s') as [s' ->].
    { destruct (decide (length d <= length s)%nat) as [Hle|Hlt].
      - exists (drop (length d) s). rewrite <-(take_drop (length d) s) at 1. f_equal.
        apply load_spec in Hs as [_ Hs]. apply load_spec in Hd as [_ Hd]. apply list_eq_same_length with (n := length d); [done|len_lia|].
        intros i x y Hi Hx Hy. apply lookup_take_Some in Hx as [Hx _].
        assert (Some x = Some y) as E; [|congruence].
        rewrite <-(Hs i x) by (by apply lookup_app_l_Some; rewrite <-Hx). by apply Hd.
      - destruct Hn. apply load_spec in Hs as [_ Hs]. apply load_spec in Hd as [_ Hd].
        destruct (lookup_lt_is_Some_2 d (length s)) as [x Hx]; [lia|]. pose proof (Hd _ _ Hx) as Ex.
        rewrite (Hs (length s) 0) in Ex by (by rewrite lookup_app_r, Nat.sub_diag by lia).
        injection Ex as <-. by eapply list_elem_of_lookup_2. }
    exists s'. split; [done|]. rewrite <-app_assoc in Hs. apply load_app in Hs as [_ Hs]; [|len_lia].
    rewrite length_app in Hs. cbn [length] in Hs. rewrite Nat2Z.inj_add in Hs.
    apply not_elem_of_app in Hs0 as [_ Hs0]. done.
  - intros (s' & -> & Hs' & Hs0). split; [|by apply not_elem_of_app]. rewrite <-app_assoc. apply load_app; [len_lia|].
    split; [done|]. rewrite length_app, Nat2Z.inj_add. done.
Qed.
Lemma c_string_unique m a s s' : c_string_at m a s -> c_string_at m a s' -> s = s'.
Proof.
  intros [Hs Hn] Hs'. assert (load m a (Z.of_nat (length s)) = Some s) as Hl.
  { apply (load_app m a s [0]) in Hs as [? _]; [done|cbn; lia]. }
  apply (c_string_prefix m a s s' Hl Hn) in Hs' as (t & -> & [Ht Htn]).
  destruct t as [|c t]; [by rewrite app_nil_r|]. destruct Htn.
  apply (load_app m a s [0]) in Hs as [_ Hz]; [|cbn; lia]. apply load_spec in Hz as [_ Hz]. apply load_spec in Ht as [_ Ht].
  specialize (Hz 0%nat 0 eq_refl). rewrite (Ht 0%nat c eq_refl) in Hz. injection Hz as ->. left.
Qed.

(** A string that ends before the limit is found. *)
Lemma c_string_found `{!ProcessMemoryProgress M} fuel m a limit acc s :
  0 <= a -> c_string_at m a s ->
  match limit with
  | Some n => Z.of_nat (length s) < n /\ a + n < 2 ^ 64
  | None => a + Z.of_nat (length s) + kBufferSize < 2 ^ 64
  end -> (length s < fuel)%nat ->
  c_string_loop fuel m a limit acc = Done (acc ++ s).
Proof.
  revert a limit acc s. induction fuel as [|f IH]; intros a limit acc s Ha Hs Hlim Hf; [lia|]. cbn [c_string_loop].
  set (rs := match limit with Some n => Z.min kBufferSize n | None => kBufferSize end).
  assert (span a rs /\ 0 < rs /\ match limit with Some n => rs <= n | None => True end) as (Hsp & Hrs & Hrn).
  { unfold span, rs, kBufferSize in *. destruct limit as [n|]; lia. }
  destruct (load_byte m a (Z.of_nat (length s) + 1) (s ++ [0])) as [b0 Hb]; [lia|apply Hs|].
  destruct (read_up_to_progress m a rs b0) as (d & E & Hd); [done|lia|done|]. rewrite E.
  pose proof (read_up_to_size m a rs _ Hsp E) as Hsz. pose proof (read_up_to_load m a rs _ Hsp E) as Hl.
  destruct d as [|b d]; [done|]. set (d0 := b :: d) in *. assert (0 < Z.of_nat (length d0)) by (cbn [d0 length]; lia).
  destruct (before_nul d0) as [r|] eqn:En.
  - apply before_nul_Some in En as (t & Et & Hr). rewrite (c_string_unique m a s r); [done|done|].
    split; [|done]. rewrite Et in Hl. replace (r ++ 0 :: t) with ((r ++ [0]) ++ t) in Hl by (by rewrite <-app_assoc).
    apply load_app in Hl as [Hl _]; [|len_lia]. rewrite length_app, Nat2Z.inj_add in Hl. done.
  - apply before_nul_None in En. apply (c_string_prefix m a d0 s Hl En) in Hs as (s' & -> & Hs').
    rewrite length_app in Hlim, Hf. unfold span in Hsp. rewrite app_assoc. destruct limit as [n|].
    + rewrite !wrap_small by lia. destruct (Z.ltb_spec 0 (n - Z.of_nat (length d0))); [|lia]. apply IH; [lia|done|lia|lia].
    + rewrite wrap_small by lia. apply IH; [lia|done|lia|lia].
Qed.

(** What is found is a string that ends before the limit. *)
Lemma c_string_sound fuel m a n acc r :
  span a n -> c_string_loop fuel m a (Some n) acc = Done r ->
  exists s, r = acc ++ s /\ c_string_at m a s /\ Z.of_nat (length s) < n.
Proof.
  revert a n acc. induction fuel as [|f IH]; intros a n acc Hn; cbn [c_string_loop]; [done|].
  set (rs := Z.min kBufferSize n). assert (0 <= rs <= n /\ span a rs) as [Hrs Hsp] by (unfold span, rs, kBufferSize in *; lia).
  destruct (ReadUpTo m a rs) as [[|b d]|] eqn:E; [done| |done].
  pose proof (read_up_to_size m a rs _ Hsp E) as Hsz. pose proof (read_up_to_load m a rs _ Hsp E) as Hl. unfold span in Hn.
  set (d0 := b :: d) in *. assert (0 < Z.of_nat (length d0)) by (cbn [d0 length]; lia).
  destruct (before_nul d0) as [r0|] eqn:En.
  - intros [= <-]. exists r0. split; [done|]. apply before_nul_Some in En as (t & Et & Hr). rewrite Et in Hl, Hsz.
    rewrite length_app in Hsz. cbn [length] in Hsz. split; [|lia]. split; [|done].
    replace (r0 ++ 0 :: t) with ((r0 ++ [0]) ++ t) in Hl by (by rewrite <-app_assoc).
    apply load_app in Hl as [Hl _]; [|len_lia]. rewrite length_app, Nat2Z.inj_add in Hl. done.
  - rewrite (wrap_small 64 (n - _)) by lia. destruct (Z.ltb_spec 0 (n - Z.of_nat (length d0))); [|done].
    rewrite wrap_small by lia. intros (s' & -> & Hs' & Hls)%IH; [|unfold span; lia]. exists (d0 ++ s'). rewrite app_assoc. split; [done|].
    split; [|rewrite length_app; lia]. apply (c_string_prefix m a d0 _ Hl); [by apply before_nul_None|]. by exists s'.
Qed.
Lemma c_string_defined fuel m a limit acc : c_string_loop fuel m a limit acc <> Undefined.
Proof.
  revert a limit acc. induction fuel as [|f IH]; intros a limit acc; cbn [c_string_loop]; [done|].
  destruct (ReadUpTo m a _) as [[|b d]|]; [done| |done]. destruct (before_nul _); [done|].
  destruct (match match limit with Some _ => _ | None => _ end with None => true | Some _ => _ end); [apply IH|done].
Qed.
End Correctness.

(** ** Restricted reads *)

Section Ranges.
  Context {M : Type} `{ProcessMemoryLaws M}.

(** The addresses of a range that [Initialize] accepts. *)
Definition covers (r : ProcessMemoryRange M) (lo hi : Z) : Prop :=
  range_ r = CheckedAddressRange.SetRange (Is64Bit r) lo (hi - lo) /\ 0 <= lo <= hi /\
  hi < 2 ^ (if Is64Bit r then 64 else 32).

Lemma pointer_width (b : bool) : 2 ^ (if b then 64 else 32) <= 2 ^ 64.
Proof. by destruct b. Qed.
Lemma is_64_set_range (b : bool) lo n : CheckedAddressRange.is_64_bit (CheckedAddressRange.SetRange b lo n) = b.
Proof. by destruct b. Qed.

Lemma set_range_is_valid (b : bool) a n :
  0 <= a < 2 ^ 64 -> 0 <= n < 2 ^ 64 ->
  CheckedAddressRange.IsValid (CheckedAddressRange.SetRange b a n) = true <-> a + n < 2 ^ (if b then 64 else 32).
Proof.
  intros Ha%fits_spec Hn%fits_spec. rewrite CheckedAddressRange.set_range_valid by done. rewrite fits_spec in *. lia.
Qed.
Lemma covers_valid r lo hi : covers r lo hi -> CheckedAddressRange.IsValid (range_ r) = true.
Proof.
  intros (-> & Hlo & Hhi). pose proof (pointer_width (Is64Bit r)). apply set_range_is_valid; lia.
Qed.
Lemma set_range_end (b : bool) lo n :
  0 <= lo -> 0 <= n -> lo + n < 2 ^ (if b then 64 else 32) ->
  CheckedAddressRange.End_ (CheckedAddressRange.SetRange b lo n) = lo + n.
Proof.
  intros. unfold CheckedAddressRange.End_, CheckedAddressRange.SetRange, CheckedAddressRange.value_type, CheckedRange.end_.
  destruct b; cbn [CheckedAddressRange.is_64_bit CheckedAddressRange.range CheckedRange.base CheckedRange.size].
  - apply wrap_small. cbn [it_width uint64_t]. lia.
  - change (cast uint32_t) with (wrap 32). rewrite (wrap_small 32 lo), (wrap_small 32 n), wrap_small by lia. lia.
Qed.
Lemma set_range_contains_range (b : bool) lo n a k :
  0 <= lo -> 0 <= n -> lo + n < 2 ^ (if b then 64 else 32) -> 0 <= a -> 0 <= k -> a + k < 2 ^ (if b then 64 else 32) ->
  CheckedAddressRange.ContainsRange (CheckedAddressRange.SetRange b lo n) (CheckedAddressRange.SetRange b a k) = true <->
  lo <= a /\ a + k <= lo + n.
Proof.
  intros Hlo Hn Hln Ha Hk Hak. pose proof (set_range_end b lo n Hlo Hn Hln) as E1. pose proof (set_range_end b a k Ha Hk Hak) as E2.
  unfold CheckedAddressRange.ContainsRange, CheckedRange.ContainsRange. rewrite is_64_set_range.
  unfold CheckedAddressRange.End_ in E1, E2. unfold CheckedAddressRange.value_type in E1, E2. rewrite is_64_set_range in E1, E2.
  assert (forall x y, 0 <= x -> 0 <= y -> x + y < 2 ^ (if b then 64 else 32) ->
    CheckedRange.base (CheckedAddressRange.range (CheckedAddressRange.SetRange b x y)) = x) as Eb.
  { intros x y ???. destruct b; [done|]. cbn. apply wrap_small. lia. }
  destruct b; rewrite !E1, !E2, !Eb, andb_true_iff, !Z.leb_le by lia; done.
Qed.

(** [Initialize] accepts the ranges that end in the address space of the process. *)
Lemma initialize_covers (m : M) (is_64 : bool) base size :
  0 <= base < 2 ^ 64 -> 0 <= size < 2 ^ 64 ->
  match InitializeRange m is_64 base size with
  | Some r => memory_ r = m /\ Is64Bit r = is_64 /\ covers r base (base + size)
  | None => 2 ^ (if is_64 then 64 else 32) <= base + size
  end.
Proof.
  intros Hb Hs. unfold InitializeRange. pose proof (set_range_is_valid is_64 base size Hb Hs) as Hv.
  destruct (CheckedAddressRange.IsValid _); [|by apply Z.nlt_ge; rewrite <-Hv].
  assert (base + size < 2 ^ (if is_64 then 64 else 32)) as Hlt by (by apply Hv).
  unfold Is64Bit, covers, Is64Bit. cbn [memory_ range_]. rewrite is_64_set_range. split_and!; [done|done| |lia|lia|done].
  f_equal. lia.
Qed.

(** [RestrictRange] accepts the parts of the range. *)
Lemma restrict_covers r lo hi base size :
  covers r lo hi -> 0 <= base < 2 ^ 64 -> 0 <= size < 2 ^ 64 ->
  match RestrictRange r base size with
  | Some r' => memory_ r' = memory_ r /\ Is64Bit r' = Is64Bit r /\ covers r' base (base + size) /\ lo <= base /\ base + size <= hi
  | None => ~ (lo <= base /\ base + size <= hi)
  end.
Proof.
  intros (Er & Hlo & Hhi) Hb Hs. unfold RestrictRange. pose proof (set_range_is_valid (Is64Bit r) base size Hb Hs) as Hv.
  destruct (CheckedAddressRange.IsValid _); cbn [negb orb]; [|intros [? ?]; assert (false = true) by (apply Hv; lia); done].
  assert (base + size < 2 ^ (if Is64Bit r then 64 else 32)) as Hlt by (by apply Hv).
  pose proof (set_range_contains_range (Is64Bit r) lo (hi - lo) base size) as Hc. rewrite <-Er in Hc.
  specialize (Hc ltac:(lia) ltac:(lia) ltac:(lia) ltac:(lia) ltac:(lia) Hlt).
  destruct (CheckedAddressRange.ContainsRange _ _); cbn [negb].
  - destruct (proj1 Hc eq_refl). set (r' := MkMemoryRange _ _). assert (Is64Bit r' = Is64Bit r) as E by apply is_64_set_range.
    unfold covers. rewrite E. split_and!; [done|done| |lia|lia|done|lia|lia]. cbn [r' range_]. f_equal. lia.
  - intros Hin. assert (false = true) by (apply Hc; lia). done.
Qed.

Lemma range_read_checked r lo hi a n :
  covers r lo hi -> 0 <= a < 2 ^ 64 -> 0 <= n < 2 ^ 64 ->
  RangeRead r a n = if decide (lo <= a /\ a + n <= hi) then Read (memory_ r) a n else Failed.
Proof.
  intros (Er & Hlo & Hhi) Ha Hn. unfold RangeRead. pose proof (set_range_is_valid (Is64Bit r) a n Ha Hn) as Hv.
  destruct (CheckedAddressRange.IsValid _); cbn [negb orb].
  - assert (a + n < 2 ^ (if Is64Bit r then 64 else 32)) as Hlt by (by apply Hv).
    pose proof (set_range_contains_range (Is64Bit r) lo (hi - lo) a n) as Hc. rewrite <-Er in Hc.
    specialize (Hc ltac:(lia) ltac:(lia) ltac:(lia) ltac:(lia) ltac:(lia) Hlt).
    destruct (CheckedAddressRange.ContainsRange _ _); cbn [negb].
    + destruct (proj1 Hc eq_refl). rewrite decide_True by lia. done.
    + rewrite decide_False; [done|]. intros Hin. assert (false = true) by (apply Hc; lia). done.
  - rewrite decide_False; [done|]. intros Hin. assert (false = true) by (apply Hv; lia). done.
Qed.
Lemma range_read_c_string_checked r lo hi a n :
  covers r lo hi -> 0 <= a < 2 ^ 64 -> 0 <= n < 2 ^ 64 ->
  RangeReadCStringSizeLimited r a n =
  if decide (lo <= a < hi) then ReadCStringSizeLimited (memory_ r) a (Z.min n (hi - a)) else Failed.
Proof.
  intros Hr Ha Hn. pose proof (covers_valid r lo hi Hr) as Hv. destruct Hr as (Er & Hlo & Hhi). unfold RangeReadCStringSizeLimited.
  pose proof (pointer_width (Is64Bit r)) as Hw. rewrite Er in Hv |- *.
  pose proof (CheckedAddressRange.set_range_contains (Is64Bit r) lo (hi - lo) a) as Hc. rewrite !fits_spec in Hc.
  specialize (Hc ltac:(lia) ltac:(lia) ltac:(lia) Hv).
  destruct (CheckedAddressRange.ContainsValue _ _); cbn [negb].
  - destruct (proj1 Hc eq_refl). rewrite decide_True, set_range_end, wrap_small by lia. do 2 f_equal. lia.
  - rewrite decide_False; [done|]. intros Hin. assert (false = true) by (apply Hc; lia). done.
Qed.

(** Only what the range covers is read, as it is there. *)
Lemma range_read_sound r lo hi a n d :
  covers r lo hi -> 0 <= a < 2 ^ 64 -> 0 <= n < 2 ^ 64 -> RangeRead r a n = Done d ->
  lo <= a /\ a + n <= hi /\ load (memory_ r) a n = Some d.
Proof.
  intros Hr Ha Hn. rewrite (range_read_checked r lo hi a n Hr Ha Hn). case_decide as Hin; [|done]. destruct Hr as (_ & Hlo & Hhi).
  pose proof (pointer_width (Is64Bit r)). unfold Read, AssignIfInRange. change (in_range uint64_t) with (fits 64).
  rewrite (proj2 (fits_spec 64 n)) by lia. cbn [negb]. change (cast uint64_t) with (wrap 64). rewrite wrap_small by lia.
  intros (d' & -> & Hd)%read_loop_sound; [|unfold span; lia]. by split_and!; [lia|lia|].
Qed.
Lemma range_read_loads `{!ProcessMemoryProgress M} r lo hi a n :
  covers r lo hi -> lo <= a -> 0 <= n -> a + n <= hi -> RangeRead r a n = lift (load (memory_ r) a n).
Proof.
  intros Hr Ha Hn Hin. pose proof Hr as (_ & Hlo & Hhi). pose proof (pointer_width (Is64Bit r)).
  assert (span a n) as Hsp by (unfold span; lia).
  rewrite (range_read_checked r lo hi a n Hr) by lia. rewrite decide_True by lia. unfold Read, AssignIfInRange.
  change (in_range uint64_t) with (fits 64). rewrite (proj2 (fits_spec 64 n)) by lia. cbn [negb].
  change (cast uint64_t) with (wrap 64). rewrite wrap_small by lia.
  destruct (load (memory_ r) a n) as [d|] eqn:E; [by rewrite (read_loop_complete _ _ _ _ _ d) by (done || lia)|].
  destruct (read_loop _ _ _ _ _) as [|d|] eqn:Er; [done| |by destruct (read_loop_defined (S (Z.to_nat n)) (memory_ r) a n [])].
  apply read_loop_sound in Er as (d' & _ & Hd'); [congruence|done].
Qed.
Lemma range_c_string_spec `{!ProcessMemoryProgress M} r lo hi a n s :
  covers r lo hi -> 0 <= a < 2 ^ 64 -> 0 <= n < 2 ^ 64 ->
  RangeReadCStringSizeLimited r a n = Done s <->
  lo <= a /\ c_string_at (memory_ r) a s /\ Z.of_nat (length s) < n /\ a + Z.of_nat (length s) < hi.
Proof.
  intros Hr Ha Hn. rewrite (range_read_c_string_checked r lo hi a n Hr Ha Hn). destruct Hr as (_ & Hlo & Hhi).
  pose proof (pointer_width (Is64Bit r)). destruct (decide (lo <= a < hi)) as [Hin|Hout]; [|split; [done|lia]].
  set (k := Z.min n (hi - a)). unfold ReadCStringSizeLimited, AssignIfInRange. change (in_range uint64_t) with (fits 64).
  rewrite (proj2 (fits_spec 64 k)) by lia. cbn [negb]. change (cast uint64_t) with (wrap 64). rewrite wrap_small by lia. split.
  - intros (s' & -> & Hs' & Hl)%c_string_sound; [|unfold span; lia]. cbn [app]. split_and!; [lia|done|lia|lia].
  - intros (_ & Hs & Hln & Hlh). apply (c_string_found _ _ _ (Some k) []); [lia|done|lia|lia].
Qed.
Lemma range_c_string_defined r a n : RangeReadCStringSizeLimited r a n <> Undefined.
Proof.
  unfold RangeReadCStringSizeLimited. destruct (negb _); [done|]. unfold ReadCStringSizeLimited.
  destruct (AssignIfInRange _ _); [apply c_string_defined|done].
Qed.

(** These bytes are at the address, and in the range. *)
Definition located (r : ProcessMemoryRange M) (a : Z) (d : bytes) : Prop :=
  exists lo hi, covers r lo hi /\ lo <= a /\ a + Z.of_nat (length d) <= hi /\ load (memory_ r) a (Z.of_nat (length d)) = Some d.

Lemma located_read `{!ProcessMemoryProgress M} r a d n : located r a d -> n = Z.of_nat (length d) -> RangeRead r a n = Done d.
Proof.
  intros (lo & hi & Hr & Ha & Hd & Hl) ->. rewrite (range_read_loads r lo hi) by (done || lia). by rewrite Hl.
Qed.
Lemma located_app r a d1 d2 : located r a (d1 ++ d2) -> located r a d1 /\ located r (a + Z.of_nat (length d1)) d2.
Proof.
  intros (lo & hi & Hr & Ha & Hd & Hl). apply load_app in Hl as [H1 H2]; [|len_lia]. rewrite length_app in Hd.
  split; exists lo, hi; (split_and!; [done|lia|lia|done]).
Qed.
Lemma located_take r a d n : located r a d -> located r a (take n d).
Proof. rewrite <-(take_drop n d) at 1. by intros [? _]%located_app. Qed.
End Ranges.

(** ** Sanitized memory *)

Section Sanitized.
  Context {M : Type} `{ProcessMemoryLaws M}.

(** An address in a range that is allowed. *)
Definition allowed (m : ProcessMemorySanitized M) (a : Z) : bool :=
  existsb (fun entry => (entry.1 <=? a) && (a <? entry.2)) (allowed_ranges_ m).
#[export] Instance sanitized_memory : ProcessMemory (ProcessMemorySanitized M) := {
  ReadUpTo := SanitizedReadUpTo;
  byte_at m a := if allowed m a then byte_at (sanitized_memory_ m) a else None
}.
#[export] Instance sanitized_memory_laws : ProcessMemoryLaws (ProcessMemorySanitized M).
Proof.
  split; cbn [ReadUpTo byte_at sanitized_memory].
  - intros m a n d Hsp. unfold SanitizedReadUpTo. destruct (existsb _ _); [by apply read_up_to_size|].
    intros [= <-]. unfold span in Hsp. cbn. lia.
  - intros m a n d i b Hsp. unfold SanitizedReadUpTo. destruct (existsb _ _) eqn:E; [|by intros [= <-]].
    intros Hr Hi. apply existsb_exists in E as (entry & Hin & He). unfold entry_allows in He. unfold span in Hsp.
    rewrite wrap_small in He by lia. bool_to_prop. pose proof (read_up_to_size _ _ _ _ Hsp Hr) as Hs.
    apply lookup_lt_Some in Hi as Hl.
    assert (allowed m (a + Z.of_nat i) = true) as ->; [|by eapply read_up_to_bytes].
    apply existsb_exists. exists entry. split; [done|]. apply andb_true_iff. rewrite Z.leb_le, Z.ltb_lt. lia.
  - intros m a b. destruct (allowed m a); [apply byte_at_byte|done].
Qed.

(** Whether or not it succeeds, a read of the sanitized memory tells only of allowed
    addresses. *)
Lemma sanitized_load m a n d :
  load m a n = Some d -> load (sanitized_memory_ m) a n = Some d /\ forall i, 0 <= i < n -> allowed m (a + i) = true.
Proof.
  intros [Hl Hd]%load_spec. cbn [byte_at sanitized_memory] in Hd.
  assert (forall i b, d !! i = Some b -> allowed m (a + Z.of_nat i) = true /\ byte_at (sanitized_memory_ m) (a + Z.of_nat i) = Some b) as Hb.
  { intros i b Hi. specialize (Hd i b Hi). by destruct (allowed m _). }
  split; [apply load_spec; split; [done|]; intros i b Hi; by apply Hb|].
  intros i Hi. destruct (lookup_lt_is_Some_2 d (Z.to_nat i)) as [b Eb]; [lia|]. rewrite <-(Z2Nat.id i) by lia. by eapply Hb.
Qed.

(** Inside of an allowed range the memory is read as it is. *)
Lemma sanitized_read_loop fuel m entry a n buf :
  entry ∈ allowed_ranges_ m -> span a n -> entry.1 <= a -> a + n <= entry.2 ->
  read_loop fuel m a n buf = read_loop fuel (sanitized_memory_ m) a n buf.
Proof.
  intros Hin. revert a n buf. induction fuel as [|f IH]; intros a n buf Hsp Ha Hn; cbn [read_loop]; [done|].
  destruct (Z.eqb_spec n 0) as [|Hn0]; [done|].
  assert (ReadUpTo m a n = ReadUpTo (sanitized_memory_ m) a n) as E.
  { cbn [ReadUpTo sanitized_memory]. unfold SanitizedReadUpTo. rewrite (proj2 (existsb_exists _ _)); [done|].
    exists entry. split; [by apply list_elem_of_In|]. unfold entry_allows, span in *. rewrite wrap_small by lia.
    rewrite !andb_true_iff, !Z.leb_le, Z.ltb_lt. lia. }
  rewrite E. destruct (ReadUpTo (sanitized_memory_ m) a n) as [[|b d]|] eqn:Er; [done| |done].
  destruct (Z.ltb_spec n (Z.of_nat (length (b :: d)))); [done|]. unfold span in *. rewrite wrap_small by lia.
  apply IH; [unfold span|..]; lia.
Qed.
End Sanitized.

(** C31.  [ProcessMemoryRange] reads the bytes of the process that are asked for, however
    little each [ReadUpTo] reads, if all of them are in the range and can be read, and
    fails otherwise; a string is read if a NUL ends it in the range and in as many bytes
    as are asked for, and is then the characters before the NUL. *)
Theorem memory_range_correct {M} `{ProcessMemoryLaws M} `{!ProcessMemoryProgress M} (r : ProcessMemoryRange M) lo hi a n :
  covers r lo hi -> 0 <= a < 2 ^ 64 -> 0 <= n < 2 ^ 64 ->
  RangeRead r a n = (if decide (lo <= a /\ a + n <= hi) then lift (load (memory_ r) a n) else Failed) /\
  (forall s, RangeReadCStringSizeLimited r a n = Done s <->
    lo <= a /\ c_string_at (memory_ r) a s /\ Z.of_nat (length s) < n /\ a + Z.of_nat (length s) < hi) /\
  RangeReadCStringSizeLimited r a n <> Undefined.
Proof.
  intros Hr Ha Hn. split_and!; [|intros s; by apply range_c_string_spec|apply range_c_string_defined].
  case_decide as Hin; [by apply (range_read_loads r lo hi); [done|lia..]|].
  rewrite (range_read_checked r lo hi) by done. by rewrite decide_False.
Qed.

(** Through [ProcessMemorySanitized] only bytes at allowed addresses are read, and
    they are those of the process; a read inside of an allowed range gives what the
    process has there. *)
Theorem sanitized_reads_allowed {M} `{ProcessMemoryLaws M} (m : ProcessMemorySanitized M) a n :
  span a n ->
  (forall d, Read m a n = Done d ->
    load (sanitized_memory_ m) a n = Some d /\ forall i, 0 <= i < n -> allowed m (a + i) = true) /\
  (forall s, ReadCStringSizeLimited m a n = Done s ->
    c_string_at (sanitized_memory_ m) a s /\ forall i, 0 <= i <= Z.of_nat (length s) -> allowed m (a + i) = true) /\
  (forall entry, entry ∈ allowed_ranges_ m -> entry.1 <= a -> a + n <= entry.2 -> Read m a n = Read (sanitized_memory_ m) a n).
Proof.
  intros Hsp. assert (AssignIfInRange uint64_t n = Some n) as En.
  { apply AssignIfInRange_Some; [done|]. split; [|done]. apply fits_spec. cbn. unfold span in Hsp. lia. }
  unfold Read, ReadCStringSizeLimited. rewrite En. split_and!.
  - intros d (d' & -> & Hd)%read_loop_sound; [|done]. by apply sanitized_load.
  - intros s (s' & -> & [Hs Hn] & _)%c_string_sound; [|done]. apply sanitized_load in Hs as [Hs Ha].
    split; [by split|]. cbn [app]. intros i Hi. apply Ha. lia.
  - intros entry Hin Ha Hend. by apply (sanitized_read_loop _ _ entry).
Qed.

(** ** A concrete memory *)

(** Regions: the address and the bytes of each; a read ends where there is no byte. *)
Definition Memory : Type := list (Z * bytes).
Fixpoint memory_byte (m : Memory) (a : Z) : option Z :=
  match m with
  | [] => None
  | (base, d) :: m' =>
      if (base <=? a) && (a <? base + Z.of_nat (length d)) then
        b ← d !! Z.to_nat (a - base);
        if (0 <=? a) && (a <? 2 ^ 64) && (0 <=? b) && (b <? 256) then Some b else None
      else memory_byte m' a
  end.
Fixpoint read_bytes (m : Memory) (a : Z) (n : nat) : bytes :=
  match n with
  | O => []
  | S n' => match memory_byte m a with Some b => b :: read_bytes m (a + 1) n' | None => [] end
  end.
Lemma length_read_bytes m a n : (length (read_bytes m a n) <= n)%nat.
Proof.
  revert a. induction n as [|n IH]; intros a; cbn [read_bytes]; [done|].
  destruct (memory_byte m a); cbn [length]; [|lia]. specialize (IH (a + 1)). lia.
Qed.
#[export] Instance concrete_memory : ProcessMemory Memory := {
  ReadUpTo m a n := Some (read_bytes m a (Z.to_nat n));
  byte_at := memory_byte
}.
#[export] Instance concrete_memory_laws : ProcessMemoryLaws Memory.
Proof.
  split; cbn [ReadUpTo byte_at concrete_memory].
  - intros m a n d Hsp [= <-]. pose proof (length_read_bytes m a (Z.to_nat n)). unfold span in Hsp. lia.
  - intros m a n d i b _ [= <-]. generalize (Z.to_nat n) as k. intros k. revert a i. induction k as [|k IH]; intros a i; cbn [read_bytes]; [done|].
    destruct (memory_byte m a) as [b'|] eqn:E; [|done]. destruct i as [|i]; cbn.
    + intros [= <-]. by rewrite Z.add_0_r.
    + intros Hi. apply IH in Hi. by replace (a + Z.of_nat (S i)) with (a + 1 + Z.of_nat i) by lia.
  - intros m a b. induction m as [|[base d] m IH]; cbn [memory_byte]; [done|].
    destruct ((base <=? a) && _); [|done]. destruct (d !! _) as [c|]; [|done]. cbn. destruct (_ && _) eqn:E; [|done].
    intros [= <-]. bool_to_prop. split; [lia|]. unfold is_byte. lia.
Qed.
#[export] Instance concrete_memory_progress : ProcessMemoryProgress Memory.
Proof.
  intros m a n b _ Hn E. cbn [ReadUpTo concrete_memory]. eexists. split; [done|].
  destruct (Z.to_nat n) as [|k] eqn:Ek; [lia|]. cbn [read_bytes]. cbn [byte_at concrete_memory] in E. by rewrite E.
Qed.

(** A region that no region before it overlaps is read as a whole. *)
Definition region_ok (m : Memory) (i : nat) (base : Z) (d : bytes) : bool :=
  (0 <=? base) && (base + Z.of_nat (length d) <=? 2 ^ 64) && forallb (fun b => (0 <=? b) && (b <? 256)) d &&
  forallb (fun x => (x.1 + Z.of_nat (length x.2) <=? base) || (base + Z.of_nat (length d) <=? x.1)) (take i m).
Lemma region_load m i base d :
  m !! i = Some (base, d) -> region_ok m i base d = true -> load m base (Z.of_nat (length d)) = Some d.
Proof.
  intros Hi Hok. unfold region_ok in Hok. rewrite !andb_true_iff, !Z.leb_le, !forallb_forall in Hok. destruct Hok as [[[H0 H1] Hb] Hd].
  apply load_spec. split; [by rewrite Nat2Z.id|]. intros j b Hj. cbn [byte_at concrete_memory].
  pose proof (lookup_lt_Some _ _ _ Hj) as Hlt. specialize (Hb b ltac:(apply list_elem_of_In; by eapply list_elem_of_lookup_2)).
  revert m Hi Hd. induction i as [|i IH]; intros [|[base' d'] m] Hi Hd; try done; cbn [memory_byte].
  - injection Hi as -> ->. rewrite (proj2 (Z.leb_le base _)), (proj2 (Z.ltb_lt _ (base + _))) by lia. cbn [andb].
    replace (Z.to_nat (base + Z.of_nat j - base)) with j by lia. rewrite Hj. cbn [mbind option_bind].
    rewrite (proj2 (Z.leb_le 0 _)), (proj2 (Z.ltb_lt _ (2 ^ 64))) by lia. cbn [andb]. by rewrite Hb.
  - assert (In (base', d') (take (S i) ((base', d') :: m))) as Hin by (by left). apply Hd in Hin as Hx. cbn [fst snd] in Hx.
    apply orb_true_iff in Hx. rewrite !Z.leb_le in Hx.
    assert ((base' <=? base + Z.of_nat j) && (base + Z.of_nat j <? base' + Z.of_nat (length d')) = false) as ->.
    { apply andb_false_iff. rewrite Z.leb_gt, Z.ltb_ge. lia. }
    apply IH; [done|]. intros x Hx'. apply Hd. by right.
Qed.
Definition example_process : Memory := [(4096, str "name" ++ [0; 7; 8])].
Definition example_range : ProcessMemoryRange Memory :=
  MkMemoryRange example_process (CheckedAddressRange.SetRange true 4096 7).

Lemma memory_range_correct_witness :
  covers example_range 4096 4103 /\ RangeRead example_range 4101 2 = Done [7; 8] /\ RangeRead example_range 4101 3 = Failed /\
  RangeReadCStringSizeLimited example_range 4096 64 = Done (str "name").
Proof.
  assert (covers example_range 4096 4103) as Hc by (split; [done|]; cbn; lia).
  destruct (memory_range_correct example_range 4096 4103 4101 2 Hc) as (E1 & _ & _); [lia|lia|].
  destruct (memory_range_correct example_range 4096 4103 4101 3 Hc) as (E2 & _ & _); [lia|lia|].
  destruct (memory_range_correct example_range 4096 4103 4096 64 Hc) as (_ & E3 & _); [lia|lia|].
  split; [exact Hc|]. split; [rewrite E1; by vm_compute|]. split; [rewrite E2; by vm_compute|].
  apply E3. split; [lia|]. split; [split; [by vm_compute|]|cbn; lia].
  apply (bool_decide_unpack _). by vm_compute.
Defined.

Definition example_sanitized : ProcessMemorySanitized Memory := MkSanitized example_process [(4096, 4101)].
Lemma sanitized_reads_allowed_witness :
  Read example_sanitized 4096 5 = Done (str "name" ++ [0]) /\ Read example_sanitized 4096 6 = Failed /\
  load example_process 4096 5 = Some (str "name" ++ [0]).
Proof.
  destruct (sanitized_reads_allowed example_sanitized 4096 5) as (H1 & _ & H3); [unfold span; lia|].
  assert (Read example_sanitized 4096 5 = Done (str "name" ++ [0])) as E.
  { rewrite (H3 (4096, 4101)); [by vm_compute|by left|cbn; lia|cbn; lia]. }
  split; [exact E|]. split; [by vm_compute|]. apply (H1 _ E).
Defined.
