(* ===== verification/Streams.v ===== *)
(** * Output streams (util/stream)

    [Base94OutputStream] (base94_output_stream.cc) encodes what is written to it with the
    printable characters, thirteen or fourteen bits to two of them, or decodes it, and
    writes the result to another stream; [LogOutputStream] (log_output_stream.cc) cuts what
    is written to it into the lines of a log.  Decoding is shown to undo encoding, however
    the data is cut into calls, and the lines of a log to be the data. *)

From S2P Require Import Prelude.
#[local] Open Scope crashpad_scope.

(** [OutputStreamInterface]. *)
Class OutputStreamInterface (O : Type) := {
  StreamWrite : O -> bytes -> bool * O;
  StreamFlush : O -> bool * O
}.

Module Base94OutputStream.

Definition kMaxValueOf14BitEncoding : Z := Z.land (94 * 94 - 1) 0x1FFF.
Definition kMaxBuffer : nat := 4096.

(** [None] is a failed DCHECK. *)
Definition EncodeByte (byte : Z) : option Z := if byte <? 94 then Some (byte + 33) else None.
Definition DecodeByte (byte : Z) : option Z := if (33 <=? byte) && (byte <=? 126) then Some (Z.min (wrap 8 (byte - 33)) 94) else None.

Inductive Mode := kEncode | kDecode.

Section Stream.
  Context {O : Type} `{OutputStreamInterface O}.

Record t := Make {
  mode_ : Mode;
  output_stream_ : O;
  buffer_ : bytes;
  bit_buf_ : Z;
  bit_count_ : Z;
  symbol_buffer_ : Z;
  flush_needed_ : bool;
  flushed_ : bool
}.
(** The constructor. *)
Definition new (mode : Mode) (s : O) : t := Make mode s [] 0 0 0 false false.

Definition set_buffer (x : t) (b : bytes) : t :=
  Make (mode_ x) (output_stream_ x) b (bit_buf_ x) (bit_count_ x) (symbol_buffer_ x) (flush_needed_ x) (flushed_ x).
Definition set_bits (x : t) (buf count : Z) : t :=
  Make (mode_ x) (output_stream_ x) (buffer_ x) buf count (symbol_buffer_ x) (flush_needed_ x) (flushed_ x).
Definition set_symbol (x : t) (c : Z) : t :=
  Make (mode_ x) (output_stream_ x) (buffer_ x) (bit_buf_ x) (bit_count_ x) c (flush_needed_ x) (flushed_ x).

Definition WriteOutputStream (x : t) : bool * t :=
  match buffer_ x with
  | [] => (true, x)
  | b =>
      let '(result, s) := StreamWrite (output_stream_ x) b in
      (result, Make (mode_ x) s [] (bit_buf_ x) (bit_count_ x) (symbol_buffer_ x) (flush_needed_ x) (flushed_ x))
  end.

(** The block that is taken from the bits, if they suffice, with its width. *)
Definition take_block (buf : Z) : Z * Z :=
  if kMaxValueOf14BitEncoding <? Z.land buf 0x1FFF then (Z.land buf 0x1FFF, 13) else (Z.land buf 0x3FFF, 14).
Fixpoint Encode (x : t) (data : bytes) : option (bool * t) :=
  match data with
  | [] => Some (WriteOutputStream x)
  | b :: data' =>
      let buf := u32 (Z.lor (bit_buf_ x) (Z.shiftl b (bit_count_ x))) in
      let count := bit_count_ x + 8 in
      if count <? 14 then Encode (set_bits x buf count) data'
      else
        let '(block, width) := take_block buf in
        match EncodeByte (block mod 94), EncodeByte (Z.min 255 (block / 94)) with
        | Some c1, Some c2 =>
            let x := set_buffer (set_bits x (Z.shiftr buf width) (count - width)) (buffer_ x ++ [c1; c2]) in
            if (kMaxBuffer - 2 <? length (buffer_ x))%nat then
              match WriteOutputStream x with
              | (true, x) => Encode x data'
              | (false, x) => Some (false, x)
              end
            else Encode x data'
        | _, _ => None
        end
  end.

(** The bytes that are whole; the fuel is the number of bits. *)
Fixpoint whole_bytes (fuel : nat) (buffer : bytes) (buf count : Z) : bytes * Z * Z :=
  match fuel with
  | 0%nat => (buffer, buf, count)
  | S f => if 7 <? count then whole_bytes f (buffer ++ [Z.land buf 0xff]) (Z.shiftr buf 8) (count - 8) else (buffer, buf, count)
  end.
Fixpoint Decode (x : t) (data : bytes) : option (bool * t) :=
  match data with
  | [] => Some (WriteOutputStream x)
  | c :: data' =>
      match DecodeByte c with
      | None => None
      | Some d =>
          if d =? 94 then Some (false, x)
          else if symbol_buffer_ x =? 0 then Decode (set_symbol x c) data'
          else
            match DecodeByte (symbol_buffer_ x) with
            | None => None
            | Some d0 =>
                let v := wrap 16 (d0 + d * 94) in
                let buf := u32 (Z.lor (bit_buf_ x) (Z.shiftl v (bit_count_ x))) in
                let count := bit_count_ x + (if kMaxValueOf14BitEncoding <? Z.land v 0x1FFF then 13 else 14) in
                let '(b, buf, count) := whole_bytes (Z.to_nat count) (buffer_ x) buf count in
                let x := set_buffer (set_bits (set_symbol x 0) buf count) b in
                if (kMaxBuffer - 2 <? length (buffer_ x))%nat then
                  match WriteOutputStream x with
                  | (true, x) => Decode x data'
                  | (false, x) => Some (false, x)
                  end
                else Decode x data'
            end
      end
  end.

Definition FinishEncoding (x : t) : option (bool * t) :=
  if bit_count_ x =? 0 then Some (true, x)
  else
    let second := if (93 <? bit_buf_ x) || (8 <? bit_count_ x) then c ← EncodeByte (Z.min 255 (bit_buf_ x / 94)); Some [c] else Some [] in
    match EncodeByte (bit_buf_ x mod 94), second with
    | Some c1, Some l => Some (WriteOutputStream (set_buffer (set_bits x 0 0) (buffer_ x ++ c1 :: l)))
    | _, _ => None
    end.
Definition FinishDecoding (x : t) : option (bool * t) :=
  if symbol_buffer_ x =? 0 then if negb (bit_buf_ x =? 0) then None else Some (true, x)
  else
    match DecodeByte (symbol_buffer_ x) with
    | None => None
    | Some d =>
        let buf := u32 (Z.lor (bit_buf_ x) (Z.shiftl d (bit_count_ x))) in
        let x := set_buffer (set_bits x (Z.shiftr buf 8) (bit_count_ x)) (buffer_ x ++ [Z.land buf 0xff]) in
        if negb (bit_buf_ x =? 0) then None else Some (WriteOutputStream x)
    end.

Definition set_flags (x : t) (flush_needed flushed : bool) : t :=
  Make (mode_ x) (output_stream_ x) (buffer_ x) (bit_buf_ x) (bit_count_ x) (symbol_buffer_ x) flush_needed flushed.
Definition Write (x : t) (data : bytes) : option (bool * t) :=
  if flushed_ x then None
  else
    let x := set_flags x true (flushed_ x) in
    match mode_ x with kEncode => Encode x data | kDecode => Decode x data end.
Definition flush_output (x : t) : bool * t :=
  let '(result, s) := StreamFlush (output_stream_ x) in
  (result, Make (mode_ x) s (buffer_ x) (bit_buf_ x) (bit_count_ x) (symbol_buffer_ x) (flush_needed_ x) (flushed_ x)).
Definition Flush (x : t) : option (bool * t) :=
  let needed := flush_needed_ x in
  let x := set_flags x false true in
  if needed then
    match (match mode_ x with kEncode => FinishEncoding x | kDecode => FinishDecoding x end) with
    | None => None
    | Some (false, x) => Some (false, x)
    | Some (true, x) => Some (flush_output x)
    end
  else Some (flush_output x).
End Stream.
Arguments t : clear implicits.

(** ** Blocks *)

(** The bits of a block, the number that blocks make up, and the characters of a block. *)
Definition width (v : Z) : Z := if kMaxValueOf14BitEncoding <? Z.land v 0x1FFF then 13 else 14.
Definition block_ok (v : Z) : Prop := 0 <= v < 94 * 94 /\ v < 2 ^ width v.
Fixpoint bits (l : list Z) : Z := match l with [] => 0 | v :: l' => width v + bits l' end.
Fixpoint number (l : list Z) : Z := match l with [] => 0 | v :: l' => v + 2 ^ width v * number l' end.
Definition symbols (v : Z) : bytes := [v mod 94 + 33; v / 94 + 33].

Lemma width_cases v : width v = 13 \/ width v = 14.
Proof. unfold width. destruct (_ <? _); auto. Qed.
Lemma bits_nonneg l : 0 <= bits l.
Proof. induction l as [|v l IH]; cbn [bits]; [lia|]. pose proof (width_cases v). lia. Qed.
Lemma bits_snoc l v : bits (l ++ [v]) = bits l + width v.
Proof. induction l as [|w l IH]; cbn [app bits]; lia. Qed.
Lemma number_snoc l v : number (l ++ [v]) = number l + 2 ^ bits l * v.
Proof.
  induction l as [|w l IH]; cbn [app bits number]; [rewrite Z.pow_0_r; lia|]. rewrite IH, Z.pow_add_r; [lia| |apply bits_nonneg].
  destruct (width_cases w); lia.
Qed.
Lemma le_value_app l1 l2 : le_value (l1 ++ l2) = le_value l1 + 256 ^ Z.of_nat (length l1) * le_value l2.
Proof.
  induction l1 as [|c l IH]; cbn [app le_value length]; [rewrite Z.pow_0_r; lia|]. rewrite IH, Nat2Z.inj_succ, Z.pow_succ_r by lia. lia.
Qed.

(** A block that is taken: the rest of the bits is what is above it. *)
Lemma take_block_spec buf :
  0 <= buf < 2 ^ 32 -> let '(v, w) := take_block buf in w = width v /\ block_ok v /\ buf = v + 2 ^ w * Z.shiftr buf w.
Proof.
  intros Hb. unfold take_block, block_ok, width. change 0x1FFF with (2 ^ 13 - 1). change 0x3FFF with (2 ^ 14 - 1).
  rewrite land_ones_mod by lia. change kMaxValueOf14BitEncoding with 643. destruct (Z.ltb_spec 643 (buf mod 2 ^ 13)) as [Hl|Hl].
  - rewrite land_ones_mod, Z.mod_mod by lia. rewrite (proj2 (Z.ltb_lt _ _) Hl), Z.shiftr_div_pow2 by lia.
    change (2 ^ 13) with 8192 in *. Z.to_euclidean_division_equations. lia.
  - rewrite (land_ones_mod buf 14), land_ones_mod, Z.shiftr_div_pow2 by lia. change (2 ^ 14) with 16384. change (2 ^ 13) with 8192 in *.
    assert (buf mod 16384 mod 8192 = buf mod 8192) as E by (Z.to_euclidean_division_equations; lia).
    rewrite E, (proj2 (Z.ltb_ge _ _) Hl). change (2 ^ 14) with 16384. Z.to_euclidean_division_equations. lia.
Qed.
Lemma encode_block v : block_ok v -> EncodeByte (v mod 94) = Some (v mod 94 + 33) /\ EncodeByte (Z.min 255 (v / 94)) = Some (v / 94 + 33).
Proof.
  intros [Hv _]. unfold EncodeByte. assert (0 <= v mod 94 < 94 /\ 0 <= v / 94 < 94) as [? ?] by (Z.to_euclidean_division_equations; lia).
  rewrite Z.min_r by lia. destruct (Z.ltb_spec (v mod 94) 94), (Z.ltb_spec (v / 94) 94); [done|lia..].
Qed.

Lemma decode_symbol d : 0 <= d < 94 -> DecodeByte (d + 33) = Some d.
Proof.
  intros Hd. unfold DecodeByte. rewrite (proj2 (Z.leb_le 33 (d + 33))), (proj2 (Z.leb_le (d + 33) 126)) by lia. cbn [andb].
  rewrite (wrap_small 8) by lia. f_equal. lia.
Qed.

(** ** Encoding *)

(** The characters of data after bits, and the bits that are left. *)
Fixpoint blocks_of (buf count : Z) (data : bytes) : list Z * (Z * Z) :=
  match data with
  | [] => ([], (buf, count))
  | b :: data' =>
      let buf := buf + b * 2 ^ count in
      let count := count + 8 in
      if count <? 14 then blocks_of buf count data'
      else
        let '(v, w) := take_block buf in
        let '(l, r) := blocks_of (Z.shiftr buf w) (count - w) data' in (v :: l, r)
  end.
Definition state_ok (buf count : Z) : Prop := 0 <= count <= 13 /\ 0 <= buf < 2 ^ count.

Lemma add_byte buf count b :
  state_ok buf count -> is_byte b ->
  u32 (Z.lor buf (Z.shiftl b count)) = buf + b * 2 ^ count /\ 0 <= buf + b * 2 ^ count < 2 ^ (count + 8).
Proof.
  intros [Hc Hb] Hbyte. unfold is_byte in Hbyte. rewrite lor_shiftl_add by lia.
  assert (0 <= buf + b * 2 ^ count < 2 ^ (count + 8)) as Hr by (rewrite Z.pow_add_r by lia; change (2 ^ 8) with 256; nia).
  split; [|done]. apply (wrap_small 32). pose proof (Z.pow_le_mono_r 2 (count + 8) 32 ltac:(lia) ltac:(lia)). lia.
Qed.
Lemma block_step buf count :
  14 <= count <= 21 -> 0 <= buf < 2 ^ count -> let '(v, w) := take_block buf in block_ok v /\ state_ok (Z.shiftr buf w) (count - w).
Proof.
  intros Hc Hb. pose proof (take_block_spec buf) as Ht. destruct (take_block buf) as [v w].
  destruct Ht as (-> & Hv & Eb). { pose proof (Z.pow_le_mono_r 2 count 32 ltac:(lia) ltac:(lia)). lia. }
  split; [done|]. pose proof (width_cases v) as Hw. split; [lia|]. rewrite Z.shiftr_div_pow2 by lia.
  split; [apply Z.div_pos; lia|]. apply Z.div_lt_upper_bound; [lia|]. rewrite <-Z.pow_add_r by lia. replace (width v + (count - width v)) with count by lia. lia.
Qed.

(** The blocks hold the data, with the bits that are left. *)
Lemma blocks_of_spec buf count data :
  state_ok buf count -> Forall is_byte data ->
  let '(l, (buf', count')) := blocks_of buf count data in
  Forall block_ok l /\ state_ok buf' count' /\ bits l + count' = count + 8 * Z.of_nat (length data) /\
  buf + 2 ^ count * le_value data = number l + 2 ^ bits l * buf'.
Proof.
  intros Hs Hd. revert buf count Hs. induction Hd as [|b data Hb Hd IH]; intros buf count Hs; cbn [blocks_of length le_value].
  { cbn [number bits]. split_and!; [constructor|done|lia|]. rewrite Z.pow_0_r. lia. }
  destruct (add_byte buf count b Hs Hb) as [_ Hr]. pose proof Hs as [Hc _]. set (buf1 := buf + b * 2 ^ count) in *.
  assert (forall z, buf + 2 ^ count * (b + 256 * z) = buf1 + 2 ^ (count + 8) * z) as Ev.
  { intros z. subst buf1. rewrite Z.pow_add_r by lia. change (2 ^ 8) with 256. lia. }
  destruct (Z.ltb_spec (count + 8) 14).
  - specialize (IH buf1 (count + 8) ltac:(split; [lia|done])). destruct (blocks_of _ _ data) as [l [buf' count']].
    destruct IH as (Hl & Hs' & Hbits & Hn). split_and!; [done|done|lia|]. by rewrite Ev.
  - pose proof (block_step buf1 (count + 8) ltac:(lia) Hr) as Hbs. pose proof (take_block_spec buf1) as Ht.
    destruct (take_block buf1) as [v w]. destruct Hbs as [Hv Hs2]. destruct Ht as (-> & _ & Eb).
    { pose proof (Z.pow_le_mono_r 2 (count + 8) 32 ltac:(lia) ltac:(lia)). lia. }
    specialize (IH _ _ Hs2). destruct (blocks_of _ _ data) as [l [buf' count']]. destruct IH as (Hl & Hs' & Hbits & Hn).
    pose proof (width_cases v) as Hw. cbn [bits number]. split_and!; [by constructor|done|lia|].
    rewrite Ev, Eb at 1. rewrite (Z.pow_add_r 2 (width v) (bits l)) by (try apply bits_nonneg; lia).
    replace (2 ^ (count + 8)) with (2 ^ width v * 2 ^ (count + 8 - width v)) by (rewrite <-Z.pow_add_r by lia; f_equal; lia).
    transitivity (v + 2 ^ width v * (Z.shiftr buf1 (width v) + 2 ^ (count + 8 - width v) * le_value data)); [lia|]. rewrite Hn. lia.
Qed.

Lemma blocks_of_app buf count d1 d2 :
  blocks_of buf count (d1 ++ d2) =
  let '(l1, (buf1, count1)) := blocks_of buf count d1 in let '(l2, r) := blocks_of buf1 count1 d2 in (l1 ++ l2, r).
Proof.
  revert buf count. induction d1 as [|b d1 IH]; intros buf count; cbn [app blocks_of]; [by destruct (blocks_of buf count d2)|].
  destruct (_ <? _); [apply IH|]. destruct (take_block _) as [v w]. rewrite IH. destruct (blocks_of _ _ d1) as [l1 [buf1 count1]].
  by destruct (blocks_of buf1 count1 d2).
Qed.

(** The characters of the bits that are left. *)
Definition tail_symbols (buf count : Z) : bytes :=
  if count =? 0 then [] else if (93 <? buf) || (8 <? count) then symbols buf else [buf mod 94 + 33].
Definition encoded (data : bytes) : bytes :=
  let '(l, (buf, count)) := blocks_of 0 0 data in concat (map symbols l) ++ tail_symbols buf count.

Section Streams.
  Context {O : Type} `{OutputStreamInterface O} (contents : O -> bytes).
  (** Streams that take all that is written. *)
  Context (Hwrite : forall s d, exists s', StreamWrite s d = (true, s') /\ contents s' = contents s ++ d).
  Context (Hflush : forall s, exists s', StreamFlush s = (true, s') /\ contents s' = contents s).

Definition written (x : t O) : bytes := contents (output_stream_ x) ++ buffer_ x.

Lemma write_output_spec x :
  exists s', WriteOutputStream x = (true, Make (mode_ x) s' [] (bit_buf_ x) (bit_count_ x) (symbol_buffer_ x) (flush_needed_ x) (flushed_ x)) /\
    contents s' = written x.
Proof.
  unfold WriteOutputStream, written. destruct x as [m o [|c b] ? ? ? ? ?]; cbn.
  - exists o. by rewrite app_nil_r.
  - destruct (Hwrite o (c :: b)) as (s' & -> & Hc). by exists s'.
Qed.
(** The buffer is written when it is full. *)
Lemma write_when_full {A} (x : t O) (k : t O -> option (bool * A)) (f : bool * t O -> option (bool * A)) :
  exists x', (if (kMaxBuffer - 2 <? length (buffer_ x))%nat
              then match WriteOutputStream x with (true, x) => k x | (false, x) => f (false, x) end else k x) = k x' /\
    written x' = written x /\ mode_ x' = mode_ x /\ bit_buf_ x' = bit_buf_ x /\ bit_count_ x' = bit_count_ x /\
    symbol_buffer_ x' = symbol_buffer_ x /\ flush_needed_ x' = flush_needed_ x /\ flushed_ x' = flushed_ x.
Proof.
  destruct (_ <? _)%nat; [|by exists x]. destruct (write_output_spec x) as (s' & -> & Hc). eexists. split; [done|].
  unfold written at 1. cbn. by rewrite app_nil_r.
Qed.

Lemma encode_spec x data :
  state_ok (bit_buf_ x) (bit_count_ x) -> Forall is_byte data ->
  let '(l, (buf, count)) := blocks_of (bit_buf_ x) (bit_count_ x) data in
  exists s', Encode x data = Some (true, Make (mode_ x) s' [] buf count (symbol_buffer_ x) (flush_needed_ x) (flushed_ x)) /\
    contents s' = written x ++ concat (map symbols l).
Proof.
  intros Hs Hd. revert x Hs. induction Hd as [|b data Hb Hd IH]; intros x Hs; cbn [blocks_of Encode].
  { destruct (write_output_spec x) as (s' & -> & Hc). exists s'. cbn. by rewrite app_nil_r. }
  destruct (add_byte _ _ b Hs Hb) as [E Hr]. rewrite E. cbn zeta. set (buf1 := bit_buf_ x + b * 2 ^ bit_count_ x) in *. pose proof Hs as [Hc _].
  destruct (Z.ltb_spec (bit_count_ x + 8) 14).
  - specialize (IH (set_bits x buf1 (bit_count_ x + 8)) ltac:(split; cbn; [lia|done])). cbn [set_bits bit_buf_ bit_count_] in IH. exact IH.
  - pose proof (block_step buf1 (bit_count_ x + 8) ltac:(lia) Hr) as Hbs. destruct (take_block buf1) as [v w]. destruct Hbs as [Hv Hs2].
    destruct (encode_block v Hv) as [-> ->].
    set (x1 := set_buffer _ _).
    destruct (write_when_full x1 (fun x => Encode x data) Some) as (x2 & -> & Hw2 & Hm & Hb2 & Hc2 & Hy & Hn & Hf).
    specialize (IH x2). rewrite Hb2, Hc2, Hm, Hy, Hn, Hf in IH. cbn in IH. specialize (IH Hs2).
    destruct (blocks_of _ _ data) as [l [buf' count']]. destruct IH as (s' & E' & Hcont). exists s'. split; [done|].
    rewrite Hcont, Hw2. unfold written, x1. cbn. by rewrite <-!app_assoc.
Qed.

(** Calls of [Write] in turn. *)
Fixpoint write_all (x : t O) (chunks : list bytes) : option (bool * t O) :=
  match chunks with
  | [] => Some (true, x)
  | d :: chunks' =>
      match Write x d with
      | Some (true, x') => write_all x' chunks'
      | r => r
      end
  end.

Lemma encode_all x chunks :
  mode_ x = kEncode -> flushed_ x = false -> buffer_ x = [] -> state_ok (bit_buf_ x) (bit_count_ x) -> Forall (Forall is_byte) chunks ->
  let '(l, (buf, count)) := blocks_of (bit_buf_ x) (bit_count_ x) (concat chunks) in
  exists x', write_all x chunks = Some (true, x') /\ contents (output_stream_ x') = contents (output_stream_ x) ++ concat (map symbols l) /\
    mode_ x' = kEncode /\ buffer_ x' = [] /\ bit_buf_ x' = buf /\ bit_count_ x' = count /\
    flush_needed_ x' = flush_needed_ x || negb (bool_decide (chunks = [])).
Proof.
  intros Hm Hf Hb Hs Hd. revert x Hm Hf Hb Hs. induction Hd as [|d chunks Hd _ IH]; intros x Hm Hf Hb Hs; cbn [concat write_all].
  { cbn [blocks_of]. exists x. cbn. rewrite app_nil_r, orb_false_r. done. }
  rewrite blocks_of_app. unfold Write. rewrite Hf. cbn zeta. change (mode_ (set_flags x true false)) with (mode_ x). rewrite Hm.
  pose proof (encode_spec (set_flags x true false) d Hs Hd) as He. cbn [bit_buf_ bit_count_ mode_ symbol_buffer_ flush_needed_ flushed_ set_flags] in He.
  change (Make (mode_ x) (output_stream_ x) (buffer_ x) (bit_buf_ x) (bit_count_ x) (symbol_buffer_ x) true false) with (set_flags x true false) in He.
  pose proof (blocks_of_spec (bit_buf_ x) (bit_count_ x) d Hs Hd) as Hbs.
  destruct (blocks_of (bit_buf_ x) (bit_count_ x) d) as [l1 [buf1 count1]]. destruct He as (s' & -> & Hc). destruct Hbs as (_ & Hs1 & _).
  specialize (IH (Make (mode_ x) s' [] buf1 count1 (symbol_buffer_ x) true false) Hm eq_refl eq_refl Hs1). cbn [bit_buf_ bit_count_] in IH.
  destruct (blocks_of buf1 count1 (concat chunks)) as [l2 [buf2 count2]]. destruct IH as (x' & E & Hc' & ? & ? & ? & ? & Hn). exists x'.
  split_and!; try done.
  - rewrite Hc'. cbn [output_stream_]. rewrite Hc. unfold written. cbn. by rewrite Hb, app_nil_r, map_app, concat_app, app_assoc.
  - rewrite Hn. cbn. by rewrite orb_true_r.
Qed.

Lemma flush_output_spec x : exists x', flush_output x = (true, x') /\ contents (output_stream_ x') = contents (output_stream_ x).
Proof. unfold flush_output. destruct (Hflush (output_stream_ x)) as (s' & -> & Hc). by eexists. Qed.

Lemma finish_encoding_spec x :
  state_ok (bit_buf_ x) (bit_count_ x) -> buffer_ x = [] ->
  exists x', FinishEncoding x = Some (true, x') /\
    contents (output_stream_ x') = contents (output_stream_ x) ++ tail_symbols (bit_buf_ x) (bit_count_ x).
Proof.
  intros [Hc Hb] He. unfold FinishEncoding, tail_symbols. destruct (Z.eqb_spec (bit_count_ x) 0) as [E0|E0]; [exists x; by rewrite app_nil_r|].
  assert (bit_buf_ x < 2 ^ 13) as Hlt by (pose proof (Z.pow_le_mono_r 2 (bit_count_ x) 13 ltac:(lia) ltac:(lia)); lia).
  destruct (encode_block (bit_buf_ x)) as [-> ->]. { split; [lia|]. pose proof (Z.pow_le_mono_r 2 13 (width (bit_buf_ x)) ltac:(lia)). destruct (width_cases (bit_buf_ x)); lia. }
  cbn zeta. cbn [mbind option_bind]. rewrite He. destruct (_ || _); cbn [app];
    match goal with |- context [WriteOutputStream ?y] => destruct (write_output_spec y) as (s' & -> & Hs) end; eexists; (split; [done|]); exact Hs.
Qed.

Lemma encoder_writes s chunks :
  Forall (Forall is_byte) chunks ->
  exists x x', write_all (new kEncode s) chunks = Some (true, x) /\ Flush x = Some (true, x') /\
    contents (output_stream_ x') = contents s ++ encoded (concat chunks).
Proof.
  intros Hd. assert (state_ok 0 0) as H0 by (split; [lia|cbn; lia]).
  pose proof (encode_all (new kEncode s) chunks eq_refl eq_refl eq_refl H0 Hd) as He. cbn [new bit_buf_ bit_count_ output_stream_ flush_needed_] in He.
  pose proof (blocks_of_spec 0 0 (concat chunks) H0) as Hbs. unfold encoded.
  destruct (blocks_of 0 0 (concat chunks)) as [l [buf count]] eqn:Eb. destruct He as (x & E & Hc & Hm & Hbuf & Ebuf & Ecount & Hn).
  destruct Hbs as (_ & Hs & _). { by apply Forall_concat. }
  exists x. unfold Flush. cbn zeta. rewrite Hn. cbn [orb]. destruct (bool_decide_reflect (chunks = [])) as [->|_]; cbn [negb].
  - destruct (flush_output_spec (set_flags x false true)) as (x' & -> & Hf). exists x'. split_and!; [done|done|]. rewrite Hf. cbn [set_flags output_stream_].
    cbn in Eb. injection Eb as <- <- <-. by rewrite Hc.
  - change (mode_ (set_flags x false true)) with (mode_ x). rewrite Hm.
    destruct (finish_encoding_spec (set_flags x false true)) as (x1 & -> & H1); [cbn; by rewrite Ebuf, Ecount|done|].
    destruct (flush_output_spec x1) as (x' & -> & Hf). exists x'. split_and!; [done|done|].
    rewrite Hf, H1. cbn [set_flags output_stream_ bit_buf_ bit_count_]. by rewrite Hc, Ebuf, Ecount, <-app_assoc.
Qed.

(** ** Decoding *)

(** The decoder without its buffer: what it has given, the bits, and the character that
    waits for another. *)
Fixpoint decode_symbols (st : bytes * Z * Z * Z) (data : bytes) : option (bytes * Z * Z * Z) :=
  match data with
  | [] => Some st
  | c :: data' =>
      let '(out, buf, count, symbol) := st in
      match DecodeByte c with
      | None => None
      | Some d =>
          if d =? 94 then None
          else if symbol =? 0 then decode_symbols (out, buf, count, c) data'
          else
            match DecodeByte symbol with
            | None => None
            | Some d0 =>
                let v := wrap 16 (d0 + d * 94) in
                let buf := u32 (Z.lor buf (Z.shiftl v count)) in
                let count := count + width v in
                decode_symbols (whole_bytes (Z.to_nat count) out buf count, 0) data'
            end
      end
  end.
Lemma decode_symbols_app st d1 d2 : decode_symbols st (d1 ++ d2) = st' ← decode_symbols st d1; decode_symbols st' d2.
Proof.
  revert st. induction d1 as [|c d1 IH]; intros [[[out buf] count] symbol]; cbn [app decode_symbols]; [done|].
  destruct (DecodeByte c); [|done]. destruct (_ =? 94); [done|]. destruct (symbol =? 0); [apply IH|]. destruct (DecodeByte symbol); [apply IH|done].
Qed.
Lemma whole_bytes_prefix fuel pre out buf count :
  whole_bytes fuel (pre ++ out) buf count = (let '(o, b, c) := whole_bytes fuel out buf count in (pre ++ o, b, c)).
Proof.
  revert out buf count. induction fuel as [|f IH]; intros out buf count; cbn [whole_bytes]; [done|]. destruct (7 <? count); [|done].
  by rewrite <-app_assoc, IH.
Qed.
Lemma decode_spec x data out buf count symbol :
  decode_symbols (written x, bit_buf_ x, bit_count_ x, symbol_buffer_ x) data = Some (out, buf, count, symbol) ->
  exists s', Decode x data = Some (true, Make (mode_ x) s' [] buf count symbol (flush_needed_ x) (flushed_ x)) /\ contents s' = out.
Proof.
  revert x. induction data as [|c data IH]; intros x; cbn [decode_symbols Decode].
  { intros [= <- <- <- <-]. destruct (write_output_spec x) as (s' & -> & Hc). by exists s'. }
  destruct (DecodeByte c) as [d|]; [|done]. destruct (d =? 94); [done|]. destruct (symbol_buffer_ x =? 0).
  { intros Hd. apply (IH (set_symbol x c)). exact Hd. }
  destruct (DecodeByte (symbol_buffer_ x)) as [d0|]; [|done]. cbn zeta. unfold written. rewrite whole_bytes_prefix. fold (width (wrap 16 (d0 + d * 94))).
  destruct (whole_bytes _ (buffer_ x) _ _) as [[b buf1] count1]. set (x1 := set_buffer _ b).
  destruct (write_when_full x1 (fun x => Decode x data) Some) as (x2 & -> & Hw & Hm & Hb & Hc & Hy & Hn & Hf).
  intros Hd. specialize (IH x2). rewrite Hw, Hb, Hc, Hy, Hm, Hn, Hf in IH. apply IH. exact Hd.
Qed.
Lemma decode_all x chunks out buf count symbol :
  mode_ x = kDecode -> flushed_ x = false -> buffer_ x = [] ->
  decode_symbols (contents (output_stream_ x), bit_buf_ x, bit_count_ x, symbol_buffer_ x) (concat chunks) = Some (out, buf, count, symbol) ->
  exists x', write_all x chunks = Some (true, x') /\ contents (output_stream_ x') = out /\ mode_ x' = kDecode /\ buffer_ x' = [] /\
    bit_buf_ x' = buf /\ bit_count_ x' = count /\ symbol_buffer_ x' = symbol /\ flush_needed_ x' = flush_needed_ x || negb (bool_decide (chunks = [])).
Proof.
  revert x. induction chunks as [|d chunks IH]; intros x Hm Hf Hb; cbn [concat write_all].
  { intros [= <- <- <- <-]. exists x. cbn. by rewrite orb_false_r. }
  rewrite decode_symbols_app. intros Hd. destruct (decode_symbols _ d) as [[[[o1 b1] c1] y1]|] eqn:E1; [|done]. cbn [mbind option_bind] in Hd.
  unfold Write. rewrite Hf. cbn zeta. change (mode_ (set_flags x true false)) with (mode_ x). rewrite Hm.
  destruct (decode_spec (set_flags x true false) d o1 b1 c1 y1) as (s' & -> & Hc).
  { unfold written. cbn [set_flags output_stream_ buffer_ bit_buf_ bit_count_ symbol_buffer_]. by rewrite Hb, app_nil_r. }
  cbn [set_flags mode_ flush_needed_ flushed_]. destruct (IH (Make (mode_ x) s' [] b1 c1 y1 true false) Hm eq_refl eq_refl) as (x' & ? & ? & ? & ? & ? & ? & ? & Hn).
  { cbn. by rewrite Hc. }
  exists x'. split_and!; try done. rewrite Hn. cbn. by rewrite orb_true_r.
Qed.

(** *** Blocks come back *)

Definition bytes_state_ok (buf count : Z) : Prop := 0 <= count <= 7 /\ 0 <= buf < 2 ^ count.

Lemma whole_bytes_spec fuel out buf count :
  0 <= count <= Z.of_nat fuel -> 0 <= buf < 2 ^ count ->
  exists e buf' count', whole_bytes fuel out buf count = (out ++ e, buf', count') /\ Forall is_byte e /\ bytes_state_ok buf' count' /\
    8 * Z.of_nat (length e) + count' = count /\ buf = le_value e + 256 ^ Z.of_nat (length e) * buf'.
Proof.
  revert out buf count. induction fuel as [|f IH]; intros out buf count Hc Hb; cbn [whole_bytes].
  { exists [], buf, count. rewrite app_nil_r. assert (count = 0) as -> by lia. cbn. split_and!; [done|constructor|by split|lia|rewrite Z.pow_0_r; lia]. }
  destruct (Z.ltb_spec 7 count) as [H7|H7].
  - change 0xff with (2 ^ 8 - 1). rewrite land_ones_mod, Z.shiftr_div_pow2 by lia.
    assert (0 <= buf / 2 ^ 8 < 2 ^ (count - 8)) as Hq.
    { split; [apply Z.div_pos; lia|]. apply Z.div_lt_upper_bound; [lia|]. rewrite <-Z.pow_add_r by lia. replace (8 + (count - 8)) with count by lia. lia. }
    destruct (IH (out ++ [buf mod 2 ^ 8]) (buf / 2 ^ 8) (count - 8) ltac:(lia) Hq) as (e & buf' & count' & E & He & Hs & Hl & Hv).
    exists (buf mod 2 ^ 8 :: e), buf', count'. split_and!.
    + by rewrite E, <-app_assoc.
    + constructor; [|done]. unfold is_byte. change 256 with (2 ^ 8). apply Z.mod_pos_bound. lia.
    + done.
    + cbn [length]. lia.
    + cbn [length le_value]. rewrite Nat2Z.inj_succ, Z.pow_succ_r by lia. rewrite (Z.div_mod buf (2 ^ 8)) at 1 by lia. rewrite Hv at 1. change (2 ^ 8) with 256. lia.
  - exists [], buf, count. rewrite app_nil_r. cbn [length le_value]. change (Z.of_nat 0) with 0. rewrite Z.pow_0_r. split_and!; [done|constructor|split; [lia|done]|lia|lia].
Qed.

Lemma decode_block out buf count v :
  bytes_state_ok buf count -> block_ok v ->
  decode_symbols (out, buf, count, 0) (symbols v) =
    Some (whole_bytes (Z.to_nat (count + width v)) out (buf + v * 2 ^ count) (count + width v), 0) /\ 0 <= buf + v * 2 ^ count < 2 ^ (count + width v).
Proof.
  intros [Hc Hb] [Hv Hw]. assert (0 <= v mod 94 < 94 /\ 0 <= v / 94 < 94) as [H1 H2] by (Z.to_euclidean_division_equations; lia).
  pose proof (width_cases v) as Hwc.
  assert (0 <= buf + v * 2 ^ count < 2 ^ (count + width v)) as Hr by (rewrite Z.pow_add_r by lia; nia). split; [|done].
  unfold symbols. cbn [decode_symbols]. rewrite !decode_symbol by done. rewrite (proj2 (Z.eqb_neq (v mod 94) 94)), (proj2 (Z.eqb_neq (v / 94) 94)) by lia.
  rewrite Z.eqb_refl. rewrite (proj2 (Z.eqb_neq (v mod 94 + 33) 0)) by lia.
  assert (wrap 16 (v mod 94 + v / 94 * 94) = v) as ->.
  { rewrite (wrap_small 16); [|Z.to_euclidean_division_equations; lia]. rewrite (Z.div_mod v 94) at 3 by lia. lia. }
  cbn zeta. rewrite lor_shiftl_add by lia. rewrite (wrap_small 32); [done|].
  pose proof (Z.pow_le_mono_r 2 (count + width v) 32 ltac:(lia) ltac:(lia)). lia.
Qed.

Lemma decode_blocks l out buf count :
  Forall block_ok l -> bytes_state_ok buf count ->
  exists e buf' count', decode_symbols (out, buf, count, 0) (concat (map symbols l)) = Some (out ++ e, buf', count', 0) /\ Forall is_byte e /\
    bytes_state_ok buf' count' /\ 8 * Z.of_nat (length e) + count' = count + bits l /\
    buf + 2 ^ count * number l = le_value e + 256 ^ Z.of_nat (length e) * buf'.
Proof.
  intros Hl. revert out buf count. induction Hl as [|v l Hv Hl IH]; intros out buf count Hs.
  { exists [], buf, count. cbn [map concat decode_symbols number bits length le_value]. rewrite app_nil_r. change (Z.of_nat 0) with 0. rewrite Z.pow_0_r.
    split_and!; [done|constructor|done|lia|lia]. }
  cbn [map concat]. rewrite decode_symbols_app. destruct (decode_block out buf count v Hs Hv) as [-> Hr]. cbn [mbind option_bind].
  pose proof Hs as [Hc _]. pose proof (width_cases v) as Hw.
  destruct (whole_bytes_spec (Z.to_nat (count + width v)) out _ (count + width v) ltac:(lia) Hr) as (e1 & b1 & c1 & -> & He1 & Hs1 & Hl1 & Hv1).
  destruct (IH (out ++ e1) b1 c1 Hs1) as (e2 & b2 & c2 & -> & He2 & Hs2 & Hl2 & Hv2).
  exists (e1 ++ e2), b2, c2. rewrite <-app_assoc, length_app, Nat2Z.inj_add. cbn [bits number].
  split_and!; [done|by apply Forall_app|done|lia|]. rewrite le_value_app, Z.pow_add_r by lia.
  transitivity (buf + v * 2 ^ count + 2 ^ (count + width v) * number l); [rewrite Z.pow_add_r by lia; lia|].
  rewrite Hv1. replace (2 ^ (count + width v)) with (256 ^ Z.of_nat (length e1) * 2 ^ c1).
  - transitivity (le_value e1 + 256 ^ Z.of_nat (length e1) * (b1 + 2 ^ c1 * number l)); [lia|]. rewrite Hv2. lia.
  - change 256 with (2 ^ 8). rewrite <-Z.pow_mul_r, <-Z.pow_add_r; [f_equal; lia|lia|destruct Hs1; lia|lia|lia].
Qed.

Lemma le_value_inj l1 l2 : Forall is_byte l1 -> Forall is_byte l2 -> length l1 = length l2 -> le_value l1 = le_value l2 -> l1 = l2.
Proof. intros H1 H2 Hl E. rewrite <-(le_bytes_value (length l1) l1), <-(le_bytes_value (length l1) l2) by done. by rewrite E. Qed.

(** What the decoder is left with after all of the characters: nothing, or one that stands
    for the last byte. *)
Definition decoded (data e : bytes) (buf count symbol : Z) : Prop :=
  symbol = 0 /\ e = data /\ buf = 0 \/
  exists d, symbol = d + 33 /\ 0 <= d < 94 /\ 0 <= count <= 7 /\ 0 <= buf < 2 ^ count /\ buf + d * 2 ^ count < 256 /\ e ++ [buf + d * 2 ^ count] = data.

(** The bits that are left after the blocks. *)
Lemma decode_tail data e buf count rbuf rcount out :
  Forall is_byte data -> Forall is_byte e -> bytes_state_ok buf count -> state_ok rbuf rcount ->
  8 * Z.of_nat (length e) + count + rcount = 8 * Z.of_nat (length data) ->
  le_value data = le_value e + 256 ^ Z.of_nat (length e) * (buf + rbuf * 2 ^ count) ->
  exists e' buf' count' symbol, decode_symbols (out ++ e, buf, count, 0) (tail_symbols rbuf rcount) = Some (out ++ e', buf', count', symbol) /\
    decoded data e' buf' count' symbol.
Proof.
  intros Hd He Hs Hr Hl Hv. pose proof Hs as [Hc Hb]. pose proof Hr as [Hrc Hrb]. unfold tail_symbols. destruct (Z.eqb_spec rcount 0) as [E0|E0].
  { assert (count = 0) as -> by lia. rewrite E0 in Hrb. change (2 ^ 0) with 1 in *. assert (buf = 0 /\ rbuf = 0) as [-> ->] by lia.
    exists e, 0, 0, 0. split; [done|]. left. split_and!; [done|apply le_value_inj; [done|done|lia|lia]|done]. }
  assert (0 <= buf + rbuf * 2 ^ count < 2 ^ (count + rcount)) as Hx by (rewrite Z.pow_add_r by lia; nia).
  destruct ((93 <? rbuf) || (8 <? rcount)) eqn:Et.
  - assert (rbuf < 2 ^ 13) as Hlt by (pose proof (Z.pow_le_mono_r 2 rcount 13 ltac:(lia) ltac:(lia)); lia).
    pose proof (width_cases rbuf) as Hw.
    assert (block_ok rbuf) as Hok. { split; [lia|]. pose proof (Z.pow_le_mono_r 2 13 (width rbuf) ltac:(lia)). lia. }
    destruct (decode_block (out ++ e) buf count rbuf Hs Hok) as [-> Hr2].
    destruct (whole_bytes_spec (Z.to_nat (count + width rbuf)) (out ++ e) _ (count + width rbuf) ltac:(lia) Hr2) as (e2 & b2 & c2 & -> & He2 & [Hc2 Hb2] & Hl2 & Hv2).
    assert (Z.of_nat (length e2) = Z.of_nat (length data) - Z.of_nat (length e)) as Hk.
    { apply orb_true_iff in Et. rewrite !Z.ltb_lt in Et. destruct (decide (rcount <= 8)) as [H8|H8].
      - destruct Et as [Et|Et]; [|lia]. assert (7 <= rcount) by (destruct (decide (rcount <= 6)); [|lia]; pose proof (Z.pow_le_mono_r 2 rcount 6 ltac:(lia) ltac:(lia)); change (2 ^ 6) with 64 in *; lia). lia.
      - lia. }
    assert (b2 = 0) as ->.
    { replace (count + rcount) with (8 * Z.of_nat (length e2)) in Hx by lia. rewrite Z.pow_mul_r in Hx by lia. change (2 ^ 8) with 256 in Hx.
      pose proof (le_value_bound e2 He2) as Hbd. rewrite Hv2 in Hx. nia. }
    exists (e ++ e2), 0, c2, 0. rewrite <-app_assoc. split; [done|]. left. split_and!; [done| |done].
    apply le_value_inj; [by apply Forall_app|done|rewrite length_app; lia|]. rewrite le_value_app, Hv, Hv2. lia.
  - apply orb_false_iff in Et. rewrite !Z.ltb_ge in Et. destruct Et as [H93 H8]. rewrite Z.mod_small by lia.
    assert (count + rcount = 8) as H88 by lia. rewrite H88 in Hx. change (2 ^ 8) with 256 in Hx.
    exists e, buf, count, (rbuf + 33). cbn [decode_symbols]. rewrite decode_symbol by lia. rewrite (proj2 (Z.eqb_neq rbuf 94)) by lia. split; [done|].
    right. exists rbuf. split_and!; try lia. apply le_value_inj; [apply Forall_app; split; [done|by repeat constructor; lia]|done|rewrite length_app; cbn; lia|].
    rewrite le_value_app, Hv. cbn [le_value]. lia.
Qed.
Lemma decode_encoded data out :
  Forall is_byte data -> exists e buf count symbol, decode_symbols (out, 0, 0, 0) (encoded data) = Some (out ++ e, buf, count, symbol) /\ decoded data e buf count symbol.
Proof.
  intros Hd. unfold encoded. pose proof (blocks_of_spec 0 0 data ltac:(split; cbn; lia) Hd) as Hbs. destruct (blocks_of 0 0 data) as [l [rbuf rcount]].
  destruct Hbs as (Hl & Hr & Hbits & Hv). rewrite decode_symbols_app.
  destruct (decode_blocks l out 0 0 Hl ltac:(split; cbn; lia)) as (e & buf & count & -> & He & Hs & Hlen & Hn). cbn [mbind option_bind].
  apply (decode_tail data e buf count rbuf rcount out); [done..|lia|].
  rewrite Z.pow_0_r in *. replace (le_value data) with (number l + 2 ^ bits l * rbuf) by lia.
  replace (number l) with (le_value e + 256 ^ Z.of_nat (length e) * buf) by lia.
  replace (bits l) with (8 * Z.of_nat (length e) + count) by lia. rewrite Z.pow_add_r, Z.pow_mul_r by (destruct Hs; lia). change (2 ^ 8) with 256. lia.
Qed.

Lemma decoder_writes s chunks data :
  Forall is_byte data -> concat chunks = encoded data ->
  exists x x', write_all (new kDecode s) chunks = Some (true, x) /\ Flush x = Some (true, x') /\ contents (output_stream_ x') = contents s ++ data.
Proof.
  intros Hd Ec. destruct (decode_encoded data (contents s) Hd) as (e & buf & count & symbol & E & Hdec). rewrite <-Ec in E.
  destruct (decode_all (new kDecode s) chunks (contents s ++ e) buf count symbol eq_refl eq_refl eq_refl E) as (x & Ew & Hc & Hm & Hb & Ebuf & Ecount & Esym & Hn).
  exists x. unfold Flush. cbn zeta. rewrite Hn. cbn [orb flush_needed_ new]. destruct (bool_decide_reflect (chunks = [])) as [->|_]; cbn [negb].
  - destruct (flush_output_spec (set_flags x false true)) as (x' & -> & Hf). exists x'. split_and!; [done|done|]. rewrite Hf. cbn [set_flags output_stream_].
    cbn in E. injection E as He <- <- <-. rewrite Hc, <-He. rewrite <-(app_nil_r (contents s)) in He at 1. apply app_inv_head in He as <-.
    destruct Hdec as [(_ & <- & _)|(d & ? & ? & _)]; [by rewrite app_nil_r|lia].
  - change (mode_ (set_flags x false true)) with (mode_ x). rewrite Hm. unfold FinishDecoding.
    cbn [set_flags symbol_buffer_ bit_buf_ bit_count_ buffer_ output_stream_ mode_ flush_needed_ flushed_]. rewrite Esym, Ebuf, Ecount, Hb.
    destruct Hdec as [(-> & -> & ->)|(d & -> & Hdr & Hcr & Hbr & Hlt & <-)].
    + rewrite Z.eqb_refl. cbn [negb]. match goal with |- context [flush_output ?y] => destruct (flush_output_spec y) as (x' & -> & Hf) end.
      exists x'. split_and!; [done|done|]. by rewrite Hf.
    + rewrite (proj2 (Z.eqb_neq (d + 33) 0)) by lia. rewrite decode_symbol, lor_shiftl_add by lia.
      assert (0 <= buf + d * 2 ^ count) by nia. rewrite (wrap_small 32) by lia.
      change 0xff with (2 ^ 8 - 1). rewrite land_ones_mod, Z.mod_small, Z.shiftr_div_pow2, Z.div_small by (change (2 ^ 8) with 256; lia).
      cbn [set_bits set_buffer bit_buf_]. rewrite Z.eqb_refl. cbn [negb].
      match goal with |- context [WriteOutputStream ?y] => destruct (write_output_spec y) as (s' & -> & Hs) end.
      match goal with |- context [flush_output ?y] => destruct (flush_output_spec y) as (x' & -> & Hf) end.
      exists x'. split_and!; [done|done|]. rewrite Hf. cbn [output_stream_]. rewrite Hs. unfold written. cbn [set_buffer output_stream_ buffer_ app].
      cbn. by rewrite Hc, <-app_assoc.
Qed.

(** ** The characters *)

Lemma symbols_printable v : block_ok v -> Forall (fun c => 33 <= c <= 126) (symbols v).
Proof. intros [Hv _]. repeat constructor; Z.to_euclidean_division_equations; lia. Qed.
Lemma encoded_printable data : Forall is_byte data -> Forall (fun c => 33 <= c <= 126) (encoded data).
Proof.
  intros Hd. unfold encoded. pose proof (blocks_of_spec 0 0 data ltac:(split; cbn; lia) Hd) as Hbs. destruct (blocks_of 0 0 data) as [l [rbuf rcount]].
  destruct Hbs as (Hl & [Hc Hb] & _). apply Forall_app. split.
  - apply Forall_concat, Forall_map. eapply Forall_impl; [exact Hl|]. exact symbols_printable.
  - assert (rbuf < 2 ^ 13) as Hlt by (pose proof (Z.pow_le_mono_r 2 rcount 13 ltac:(lia) ltac:(lia)); lia). unfold tail_symbols, symbols.
    destruct (_ =? 0); [constructor|]. change (2 ^ 13) with 8192 in Hlt. destruct (_ || _); repeat constructor; Z.to_euclidean_division_equations; lia.
Qed.
Lemma encoded_length data : Forall is_byte data -> 13 * Z.of_nat (length (encoded data)) <= 2 * (8 * Z.of_nat (length data)) + 26.
Proof.
  intros Hd. unfold encoded. pose proof (blocks_of_spec 0 0 data ltac:(split; cbn; lia) Hd) as Hbs. destruct (blocks_of 0 0 data) as [l [rbuf rcount]].
  destruct Hbs as (_ & [Hc _] & Hbits & _). rewrite length_app.
  assert (length (concat (map symbols l)) = 2 * length l)%nat as -> by (clear; induction l as [|v l IH]; cbn [map concat length]; [done|]; rewrite length_app, IH; cbn; lia).
  assert (13 * Z.of_nat (length l) <= bits l). { clear. induction l as [|v l IH]; cbn [bits length]; [lia|]. destruct (width_cases v); lia. }
  assert (length (tail_symbols rbuf rcount) <= 2)%nat by (unfold tail_symbols, symbols; destruct (_ =? 0); [|destruct (_ || _)]; cbn; lia). lia.
Qed.
End Streams.

(** C35.  Encoding and decoding are inverse: the data that is written to an encoding
    stream, in calls of any sizes, comes out as printable characters, at most two for
    each thirteen bits and two more, which depend on the data only; and these, written to
    a decoding stream in calls of any sizes, come out as the data.  No DCHECK fails. *)
Theorem base94_round_trip {O} `{OutputStreamInterface O} (contents : O -> bytes) data :
  (forall s d, exists s', StreamWrite s d = (true, s') /\ contents s' = contents s ++ d) ->
  (forall s, exists s', StreamFlush s = (true, s') /\ contents s' = contents s) ->
  Forall is_byte data ->
  Forall (fun c => 33 <= c <= 126) (encoded data) /\ 13 * Z.of_nat (length (encoded data)) <= 2 * (8 * Z.of_nat (length data)) + 26 /\
  (forall s chunks, concat chunks = data ->
   exists x x', write_all (new kEncode s) chunks = Some (true, x) /\ Flush x = Some (true, x') /\ contents (output_stream_ x') = contents s ++ encoded data) /\
  (forall s chunks, concat chunks = encoded data ->
   exists x x', write_all (new kDecode s) chunks = Some (true, x) /\ Flush x = Some (true, x') /\ contents (output_stream_ x') = contents s ++ data).
Proof.
  intros Hwrite Hflush Hd. split_and!; [by apply encoded_printable|by apply encoded_length| |].
  - intros s chunks <-. apply encoder_writes; [done|done|]. by apply Forall_concat.
  - intros s chunks Ec. by apply (decoder_writes contents).
Qed.

(** A stream to memory. *)
#[global] Instance memory_stream : OutputStreamInterface bytes := { StreamWrite s d := (true, s ++ d); StreamFlush s := (true, s) }.
Lemma base94_round_trip_witness :
  encoded (str "Hello, world") = str "E/6*rly!Plvn)9'" /\
  exists x x', write_all (new kDecode []) [[69]; str "/6*rly!P"; []; str "lvn)9'"] = Some (true, x) /\ Flush x = Some (true, x') /\ output_stream_ x' = str "Hello, world".
Proof.
  destruct (base94_round_trip id (str "Hello, world")) as (_ & _ & _ & Hdec).
  - intros s d. by eexists.
  - intros s. by eexists.
  - apply str_bytes.
  - split; [by vm_compute|]. apply (Hdec [] [[69]; str "/6*rly!P"; []; str "lvn)9'"]). by vm_compute.
Defined.
End Base94OutputStream.

(** ** LogOutputStream *)

Module LogOutputStream.

Definition kBeginMessage : bytes := str "-----BEGIN CRASHPAD MINIDUMP-----".
Definition kAbortMessage : bytes := str "-----ABORT CRASHPAD MINIDUMP-----".
Definition kEndMessage : bytes := str "-----END CRASHPAD MINIDUMP-----".
Definition EAGAIN : Z := 11.

Section Log.
  (** The delegate: a message is logged, up to a NUL if there is one, with a negative
      result for an error. *)
  Context {D : Type} (Log : D -> bytes -> Z * D) (OutputCap : Z) (LineWidth : nat).

Record t := Make { delegate_ : D; buffer_ : bytes; output_count_ : Z; flush_needed_ : bool; flushed_ : bool }.
Definition new (d : D) : t := Make d [] 0 false false.

Definition WriteToLog (x : t) (message : bytes) : Z * t :=
  let '(r, d) := Log (delegate_ x) message in (r, Make d (buffer_ x) (output_count_ x) (flush_needed_ x) (flushed_ x)).
Definition no_flush (x : t) : t := Make (delegate_ x) (buffer_ x) (output_count_ x) false (flushed_ x).
Definition WriteBuffer (x : t) : bool * t :=
  match buffer_ x with
  | [] => (true, x)
  | b =>
      let x := Make (delegate_ x) b (output_count_ x + Z.of_nat (length b)) (flush_needed_ x) (flushed_ x) in
      if OutputCap <? output_count_ x then (false, no_flush (snd (WriteToLog x kAbortMessage)))
      else
        let '(result, x) := WriteToLog x b in
        if result <? 0 then (false, no_flush (if result =? - EAGAIN then snd (WriteToLog x kAbortMessage) else x))
        else (true, Make (delegate_ x) [] (output_count_ x) (flush_needed_ x) (flushed_ x))
  end.
(** The loop of [Write]; the fuel suffices as each turn takes a byte, if lines have a width. *)
Fixpoint write_loop (fuel : nat) (x : t) (data : bytes) : bool * t :=
  match fuel, data with
  | 0%nat, _ | _, [] => (true, x)
  | S f, _ =>
      let m := Nat.min (LineWidth - length (buffer_ x)) (length data) in
      let x := Make (delegate_ x) (buffer_ x ++ take m data) (output_count_ x) (flush_needed_ x) (flushed_ x) in
      if (length (buffer_ x) =? LineWidth)%nat then
        match WriteBuffer x with
        | (true, x) => write_loop f x (drop m data)
        | (false, x) => (false, x)
        end
      else write_loop f x (drop m data)
  end.
(** [None] is a failed DCHECK. *)
Definition Write (x : t) (data : bytes) : option (bool * t) :=
  if flushed_ x then None
  else
    let '(result, x) := if output_count_ x =? 0 then WriteToLog x kBeginMessage else (0, x) in
    if result <? 0 then Some (false, x)
    else Some (write_loop (S (length data)) (Make (delegate_ x) (buffer_ x) (output_count_ x) true (flushed_ x)) data).
Definition Flush (x : t) : bool * t :=
  if flush_needed_ x then
    let '(ok, x) := WriteBuffer (Make (delegate_ x) (buffer_ x) (output_count_ x) false true) in
    if negb ok then (false, x) else let '(result, x) := WriteToLog x kEndMessage in (negb (result <? 0), x)
  else (true, x).

(** *** Lines *)

(** Data in lines of a width, but for the last. *)
Fixpoint lines (fuel : nat) (data : bytes) : list bytes :=
  match fuel, data with
  | 0%nat, _ | _, [] => []
  | S f, _ => take LineWidth data :: lines f (drop LineWidth data)
  end.
End Log.
Arguments t : clear implicits.

Section LogProofs.
  Context {D : Type} (Log : D -> bytes -> Z * D) (OutputCap : Z) (LineWidth : nat) (logged : D -> list bytes).
  Context (Hlog : forall d m, exists r d', Log d m = (r, d') /\ 0 <= r /\ logged d' = logged d ++ [m]).
  Context (Hwidth : (0 < LineWidth)%nat).

Lemma lines_concat fuel data : (length data <= fuel)%nat -> concat (lines LineWidth fuel data) = data.
Proof.
  revert data. induction fuel as [|f IH]; intros data Hf; [by destruct data; [|cbn in Hf; lia]|]. destruct data as [|c data]; [done|].
  cbn [lines concat]. rewrite IH; [apply take_drop|]. rewrite length_drop. cbn [length] in *. lia.
Qed.

Lemma write_to_log x m :
  exists r d', WriteToLog Log x m = (r, Make d' (buffer_ x) (output_count_ x) (flush_needed_ x) (flushed_ x)) /\ 0 <= r /\ logged d' = logged (delegate_ x) ++ [m].
Proof. unfold WriteToLog. destruct (Hlog (delegate_ x) m) as (r & d' & -> & ? & ?). by exists r, d'. Qed.
Lemma write_buffer_line x :
  buffer_ x <> [] -> output_count_ x + Z.of_nat (length (buffer_ x)) <= OutputCap ->
  exists d', WriteBuffer Log OutputCap x = (true, Make d' [] (output_count_ x + Z.of_nat (length (buffer_ x))) (flush_needed_ x) (flushed_ x)) /\
    logged d' = logged (delegate_ x) ++ [buffer_ x].
Proof.
  intros Hne Hc. unfold WriteBuffer. destruct (buffer_ x) as [|b buf] eqn:Eb; [done|]. cbn zeta. cbn [output_count_].
  destruct (Z.ltb_spec OutputCap (output_count_ x + Z.of_nat (length (b :: buf)))); [lia|].
  set (x1 := Make _ _ _ _ _). destruct (write_to_log x1 (b :: buf)) as (r & d' & -> & Hr & Hl). destruct (Z.ltb_spec r 0); [lia|]. by exists d'.
Qed.

(** Whole lines are logged, and less than a line is kept. *)
Lemma write_loop_spec fuel x data :
  (length data < fuel)%nat -> buffer_ x = [] -> output_count_ x + Z.of_nat (length data) <= OutputCap ->
  exists d' whole rest, write_loop Log OutputCap LineWidth fuel x data =
      (true, Make d' rest (output_count_ x + Z.of_nat (length data) - Z.of_nat (length rest)) (flush_needed_ x) (flushed_ x)) /\
    logged d' = logged (delegate_ x) ++ whole /\ (length rest < LineWidth)%nat /\
    whole ++ (if decide (rest = []) then [] else [rest]) = lines LineWidth fuel data /\ (length rest <= length data)%nat.
Proof.
  revert x data. induction fuel as [|f IH]; intros x data Hf Hb Hc; [lia|]. destruct data as [|c data].
  { exists (delegate_ x), [], []. cbn [write_loop lines]. rewrite decide_True by done. cbn. rewrite app_nil_r.
    split_and!; [|done|lia|done|lia]. destruct x; cbn in *. subst. do 2 f_equal. lia. }
  set (s := c :: data) in *. assert (s <> []) as Hne by done. change (write_loop Log OutputCap LineWidth (S f) x s) with
    (let m := Nat.min (LineWidth - length (buffer_ x)) (length s) in
     let x := Make (delegate_ x) (buffer_ x ++ take m s) (output_count_ x) (flush_needed_ x) (flushed_ x) in
     if (length (buffer_ x) =? LineWidth)%nat then
       match WriteBuffer Log OutputCap x with (true, x) => write_loop Log OutputCap LineWidth f x (drop m s) | (false, x) => (false, x) end
     else write_loop Log OutputCap LineWidth f x (drop m s)).
  change (lines LineWidth (S f) s) with (take LineWidth s :: lines LineWidth f (drop LineWidth s)).
  cbn zeta. cbn [buffer_]. rewrite Hb. cbn [app length]. rewrite Nat.sub_0_r. clearbody s. destruct (decide (LineWidth <= length s)%nat) as [Hl|Hl].
  - rewrite Nat.min_l, length_take, Nat.min_l, Nat.eqb_refl by done.
    destruct (write_buffer_line (Make (delegate_ x) (take LineWidth s) (output_count_ x) (flush_needed_ x) (flushed_ x))) as (d1 & E1 & Hd1).
    { cbn. intros E. apply (f_equal length) in E. rewrite length_take in E. cbn in E. lia. }
    { cbn. rewrite length_take. lia. }
    cbn [buffer_ output_count_ flush_needed_ flushed_ delegate_] in *. rewrite E1, length_take, Nat.min_l by done.
    destruct (IH (Make d1 [] (output_count_ x + Z.of_nat LineWidth) (flush_needed_ x) (flushed_ x)) (drop LineWidth s)) as (d' & whole & rest & E & Hd & Hr & Hw & Hlr);
      [rewrite length_drop; lia|done|cbn; rewrite length_drop; lia|]. cbn [output_count_ flush_needed_ flushed_ delegate_] in *. rewrite length_drop in *.
    exists d', (take LineWidth s :: whole), rest. rewrite E. split_and!; [do 2 f_equal; lia|by rewrite Hd, Hd1, <-app_assoc|done|by rewrite <-app_comm_cons, Hw|lia].
  - rewrite Nat.min_r by lia. rewrite firstn_all, (proj2 (Nat.eqb_neq (length s) LineWidth)) by lia. rewrite drop_all, (take_ge s LineWidth), (drop_ge s LineWidth) by lia.
    exists (delegate_ x), [], s. destruct f as [|f]; [destruct s; [done|cbn in Hf; lia]|]. cbn [write_loop lines]. rewrite decide_False, app_nil_r by done.
    split_and!; [do 2 f_equal; lia|done|lia|done|lia].
Qed.

(** Data that is written in one call is logged whole, in lines, between the messages. *)
Lemma log_written d data :
  data <> [] -> Z.of_nat (length data) <= OutputCap ->
  exists x x', Write Log OutputCap LineWidth (new d) data = Some (true, x) /\ Flush Log OutputCap x = (true, x') /\
    logged (delegate_ x') = logged d ++ kBeginMessage :: lines LineWidth (S (length data)) data ++ [kEndMessage].
Proof.
  intros Hne Hc. unfold Write. cbn [new flushed_ output_count_]. rewrite Z.eqb_refl.
  destruct (write_to_log (new d) kBeginMessage) as (r & d1 & -> & Hr & Hd1). destruct (Z.ltb_spec r 0); [lia|]. cbn [new buffer_ output_count_ flush_needed_ flushed_ delegate_] in *.
  destruct (write_loop_spec (S (length data)) (Make d1 [] 0 true false) data) as (d2 & whole & rest & -> & Hd2 & Hrest & Hlines & _); [lia|done|cbn; lia|].
  cbn [flush_needed_ flushed_ output_count_ delegate_] in *. exists (Make d2 rest (0 + Z.of_nat (length data) - Z.of_nat (length rest)) true false).
  unfold Flush. cbn [flush_needed_ delegate_ buffer_ output_count_].
  destruct (decide (rest = [])) as [->|Hr2].
  - unfold WriteBuffer. cbn [buffer_]. cbn [negb]. match goal with |- context [WriteToLog Log ?y _] => destruct (write_to_log y kEndMessage) as (r2 & d3 & -> & Hr3 & Hd3) end.
    destruct (Z.ltb_spec r2 0); [lia|]. eexists. split_and!; [done|done|]. cbn [delegate_] in *. by rewrite Hd3, Hd2, Hd1, <-Hlines, app_nil_r, <-!app_assoc.
  - destruct (write_buffer_line (Make d2 rest (0 + Z.of_nat (length data) - Z.of_nat (length rest)) false true)) as (d3 & -> & Hd3); [done|cbn; lia|]. cbn [negb].
    match goal with |- context [WriteToLog Log ?y _] => destruct (write_to_log y kEndMessage) as (r2 & d4 & -> & Hr4 & Hd4) end.
    destruct (Z.ltb_spec r2 0); [lia|]. eexists. split_and!; [done|done|]. cbn [delegate_ buffer_] in *. by rewrite Hd4, Hd3, Hd2, Hd1, <-Hlines, <-!app_assoc.
Qed.
End LogProofs.

(** The first message is written again by each call before the first line is full. *)
Lemma begin_message_repeated :
  let log (d : list bytes) (m : bytes) := (0, d ++ [m]) in
  exists x1 x2, Write log 1000 10 (new []) (str "abc") = Some (true, x1) /\ Write log 1000 10 x1 (str "def") = Some (true, x2) /\
    delegate_ (snd (Flush log 1000 x2)) = [kBeginMessage; kBeginMessage; str "abcdef"; kEndMessage].
Proof. do 2 eexists. split; [by vm_compute|]. split; [by vm_compute|]. by vm_compute. Qed.
End LogOutputStream.
