(* ===== verification/MemoryMap.v ===== *)
(** * Memory maps (util/linux/memory_map.cc)

    The handler reads the mappings of a process from /proc/pid/maps, with
    [DelimitedFileReader] and [StringToNumber], and answers questions about them: the
    mapping of an address, the ranges that can be read, and where the file of a mapping
    may have been mapped first.

    The file is shown to be read as the kernel writes it, and the readable ranges to be
    exactly the readable addresses of the range asked for. *)

From S2P Require Import Prelude.
From S2P Require Import Numeric.
From S2P Require Import Strings.
From S2P Require Import FileIO.
From S2P Require Import ProcessMemory.
#[local] Open Scope crashpad_scope.

Module MemoryMap.

(** [MemoryMap::Mapping]. *)
Record Mapping := MkMapping {
  name : bytes;
  range : CheckedAddressRange.t;
  offset : Z;
  device : Z;
  inode : Z;
  readable : bool;
  writable : bool;
  executable : bool;
  shareable : bool
}.
#[global] Instance Mapping_eq_dec : EqDecision Mapping.
Proof. solve_decision. Defined.

(** [Mapping::Equals], with its DCHECK. *)
Definition Equals (x y : Mapping) : outcome bool :=
  if negb (eqb (CheckedAddressRange.is_64_bit (range x)) (CheckedAddressRange.is_64_bit (range y))) then Undefined
  else Done ((CheckedAddressRange.Base (range x) =? CheckedAddressRange.Base (range y)) &&
    (CheckedAddressRange.Size (range x) =? CheckedAddressRange.Size (range y)) && bool_decide (name x = name y) &&
    (offset x =? offset y) && (device x =? device y) && (inode x =? inode y) && eqb (readable x) (readable y) &&
    eqb (writable x) (writable y) && eqb (executable x) (executable y) && eqb (shareable x) (shareable y)).

(** ** ParseMapsLine *)

Inductive ParseResult := kSuccess | kEndOfFile | kRetry | kError.

(** [HexStringToNumber]. *)
Definition HexStringToNumber (T : StringToNumber.traits) (s : bytes) : option Z := StringToNumber.StringToIntegerInternal T (str "0x" ++ s).

(** SET_FIELD; [strchr] also finds the NUL that ends a string. *)
Definition SET_FIELD (actual_c : Z) (true_chars false_chars : bytes) : option bool :=
  if bool_decide (actual_c ∈ true_chars ++ [0]) then Some true
  else if bool_decide (actual_c ∈ false_chars ++ [0]) then Some false
  else None.

(** [field.find_first_not_of(' ')] and [substr]: the name. *)
Fixpoint skip_spaces (s : bytes) : bytes :=
  match s with
  | [] => []
  | c :: s' => if c =? 32 then skip_spaces s' else s
  end.

Section Parse.
  Context {R : Type} `{FileReaderInterface R}.
  (** The macro of <sys/sysmacros.h>. *)
  Context (makedev : Z -> Z -> Z).

(** A part of [ParseMapsLine]: it returns early with a result, or goes on; [None] is for
    fuel that does not suffice. *)
Inductive parsed (A : Type) := Return (r : ParseResult) | Continue (x : A).
Arguments Return {A} r.
Arguments Continue {A} x.
Definition Parser (A : Type) : Type := DelimitedFileReader.t (R := R) -> option (parsed A * DelimitedFileReader.t (R := R)).
Definition parser_bind {A B} (m : Parser A) (k : A -> Parser B) : Parser B :=
  fun st =>
    match m st with
    | None => None
    | Some (Return r, st') => Some (Return r, st')
    | Some (Continue x, st') => k x st'
    end.
Definition proceed {A} (x : A) : Parser A := fun st => Some (Continue x, st).
Definition finish {A} (r : ParseResult) : Parser A := fun st => Some (Return r, st).
Definition expect {A} (o : option A) : Parser A := match o with Some x => proceed x | None => finish kError end.

(** A field, without its last character. *)
Definition field (fuel : nat) (delimiter : Z) : Parser bytes :=
  fun st =>
    match DelimitedFileReader.GetDelim fuel delimiter st with
    | (DelimitedFileReader.kSuccess f, st') => Some (Continue (removelast f), st')
    | (DelimitedFileReader.kFuel, _) => None
    | (_, st') => Some (Return kError, st')
    end.
(** The first field of a line: at the end of the file there is none. *)
Definition first_field (fuel : nat) : Parser bytes :=
  fun st =>
    match DelimitedFileReader.GetDelim fuel 45 st with
    | (DelimitedFileReader.kSuccess f, st') => Some (Continue (removelast f), st')
    | (DelimitedFileReader.kEndOfFile, st') => Some (Return kEndOfFile, st')
    | (DelimitedFileReader.kError, st') => Some (Return kError, st')
    | (DelimitedFileReader.kFuel, _) => None
    end.
(** The rest of the line, with its end. *)
Definition last_field (fuel : nat) : Parser bytes :=
  fun st =>
    match DelimitedFileReader.GetLine fuel st with
    | (DelimitedFileReader.kSuccess f, st') => Some (Continue f, st')
    | (DelimitedFileReader.kFuel, _) => None
    | (_, st') => Some (Return kError, st')
    end.
Notation "'parse!' x := m 'in' k" := (parser_bind m (fun x => k)) (at level 10, x strict pattern, m at level 100, k at level 200).

(** The four permissions. *)
Definition permissions (f : bytes) : option (bool * bool * bool * bool) :=
  match f with
  | [r; w; x; s] =>
      readable ← SET_FIELD r (str "r") (str "-");
      writable ← SET_FIELD w (str "w") (str "-");
      executable ← SET_FIELD x (str "x") (str "-");
      shareable ← SET_FIELD s (str "sS") (str "p");
      Some (readable, writable, executable, shareable)
  | _ => None
  end.
(** The numbers of a device, of two characters at least. *)
Definition device_number (f : bytes) : option Z :=
  if (length f <? 2)%nat then None else HexStringToNumber StringToNumber.StringToUnsignedIntTraits f.

(** After the addresses of a mapping that is not empty. *)
Definition parse_mapping (fuel : nat) (start_address end_address : Z) : Parser Mapping :=
  parse! f := field fuel 32 in
  parse! (r, w, x, s) := expect (permissions f) in
  parse! f := field fuel 32 in
  parse! offset := expect (HexStringToNumber StringToNumber.StringToLongTraits f) in
  parse! f := field fuel 58 in
  parse! major := expect (device_number f) in
  parse! f := field fuel 32 in
  parse! minor := expect (device_number f) in
  parse! f := field fuel 32 in
  parse! inode := expect (StringToNumber.StringToIntegerInternal StringToNumber.StringToUnsignedLongTraits f) in
  parse! f := last_field fuel in
  if negb (bool_decide (last f = Some 10)) then finish kError
  else proceed (MkMapping (skip_spaces (removelast f)) (CheckedAddressRange.SetRange true start_address (end_address - start_address))
         offset (makedev major minor) inode r w x s).

(** [ParseMapsLine]: the mappings with that of the line, for [kSuccess]. *)
Definition ParseMapsLine (fuel : nat) (mappings : list Mapping) : Parser (list Mapping) :=
  parse! f := first_field fuel in
  parse! start_address := expect (HexStringToNumber StringToNumber.StringToUnsignedLongTraits f) in
  if match last mappings with Some m => start_address <? CheckedAddressRange.End_ (range m) | None => false end then finish kRetry
  else
    parse! f := field fuel 32 in
    parse! end_address := expect (HexStringToNumber StringToNumber.StringToUnsignedLongTraits f) in
    if end_address <? start_address then finish kError
    else if end_address =? start_address then parse! _ := last_field fuel in proceed mappings
    else parse! m := parse_mapping fuel start_address end_address in proceed (mappings ++ [m]).
End Parse.
Arguments Return {A} r.
Arguments Continue {A} x.

(** The loop over the lines: how it ends, and the mappings. *)
Fixpoint parse_lines {R} `{FileReaderInterface R} (makedev : Z -> Z -> Z) (lines fuel : nat) (mappings : list Mapping)
    (st : DelimitedFileReader.t (R := R)) : option (ParseResult * list Mapping) :=
  match lines with
  | O => None
  | S n =>
      match ParseMapsLine makedev fuel mappings st with
      | None => None
      | Some (Return r, _) => Some (r, mappings)
      | Some (Continue mappings', st') => parse_lines makedev n fuel mappings' st'
      end
  end.

(** [Initialize]: the contents of the file, which may be read anew, are those of each
    attempt; [mappings_] is as the attempt before has left it. *)
Fixpoint initialize_loop (makedev : Z -> Z -> Z) (fuel attempts : nat) (ReadFileContents : nat -> option bytes) (mappings : list Mapping)
    : option (bool * list Mapping) :=
  match attempts with
  | O => Some (false, mappings)
  | S n =>
      match ReadFileContents attempts with
      | None => Some (false, mappings)
      | Some contents =>
          match parse_lines makedev fuel fuel mappings (DelimitedFileReader.init (StringFile.SetString contents)) with
          | None => None
          | Some (kEndOfFile, mappings') => Some (true, mappings')
          | Some (kRetry, mappings') => initialize_loop makedev fuel n ReadFileContents mappings'
          | Some (_, mappings') => Some (false, mappings')
          end
      end
  end.
Definition Initialize (makedev : Z -> Z -> Z) (fuel : nat) (ReadFileContents : nat -> option bytes) : option (bool * list Mapping) :=
  initialize_loop makedev fuel 3 ReadFileContents [].

(** ** Questions *)

(** [FindMapping]; [PointerToAddress] is that of the memory. *)
Definition FindMapping (PointerToAddress : Z -> Z) (mappings : list Mapping) (address : Z) : option Mapping :=
  let address := PointerToAddress address in
  List.find (fun m => (CheckedAddressRange.Base (range m) <=? address) && (address <? CheckedAddressRange.End_ (range m))) mappings.
Definition FindMappingWithName (mappings : list Mapping) (n : bytes) : option Mapping :=
  List.find (fun m => bool_decide (name m = n)) mappings.

(** *** GetReadableRanges *)

(** [FastRange], as its base and size. *)
Definition overlapping_range (range_base range_end : Z) (m : Mapping) : option (Z * Z) :=
  if negb (readable m) then None
  else if CheckedAddressRange.End_ (range m) <? range_base then None
  else if range_end <=? CheckedAddressRange.Base (range m) then None
  else if (inode m =? 0) && bool_decide (name m = str "[vvar]") then None
  else Some (CheckedAddressRange.Base (range m), CheckedAddressRange.Size (range m)).
Definition trim_front (range_base : Z) (l : list (Z * Z)) : list (Z * Z) :=
  match l with
  | [] => []
  | (base, size) :: l' => let base' := Z.max base range_base in (base', u64 (u64 (base + size) - base')) :: l'
  end.
Fixpoint trim_back (range_end : Z) (l : list (Z * Z)) : list (Z * Z) :=
  match l with
  | [] => []
  | [(base, size)] => [(base, u64 (Z.min range_end (u64 (base + size)) - base))]
  | x :: l' => x :: trim_back range_end l'
  end.
(** The loop that coalesces, with [result] before its last range; [None] is a failed DCHECK. *)
Fixpoint coalesce (result : list CheckedRange.t) (back : CheckedRange.t) (l : list (Z * Z)) : option (list CheckedRange.t) :=
  if negb (CheckedRange.IsValid uint64_t back) then None
  else
    match l with
    | [] => Some (result ++ [back])
    | (base, size) :: l' =>
        if CheckedRange.end_ uint64_t back =? base
        then coalesce result (CheckedRange.Make (CheckedRange.base back) (u64 (CheckedRange.size back + size))) l'
        else coalesce (result ++ [back]) (CheckedRange.Make base size) l'
    end.
Definition GetReadableRanges (mappings : list Mapping) (r : CheckedRange.t) : option (list CheckedRange.t) :=
  let range_base := CheckedRange.base r in
  let range_end := CheckedRange.end_ uint64_t r in
  match trim_back range_end (trim_front range_base (omap (overlapping_range range_base range_end) mappings)) with
  | [] => Some []
  | (base, size) :: l => coalesce [] (CheckedRange.Make base size) l
  end.

(** *** Iterators *)

(** [SparseReverseIterator] and [FullReverseIterator]: the mappings still to come. *)
Definition Iterator : Type := list Mapping.
Definition Next (it : Iterator) : option Mapping * Iterator :=
  match it with
  | [] => (None, [])
  | m :: it' => (Some m, it')
  end.
Definition Count (it : Iterator) : nat := length it.

(** The loop for a mapping of a file: the candidates up to the mapping itself. *)
Fixpoint possible_starts (m : Mapping) (possible : list Mapping) (candidates : list Mapping) : outcome Iterator :=
  match candidates with
  | [] => Done []
  | c :: l =>
      let possible := if (device c =? device m) && (inode c =? inode m) && (offset c =? 0) then possible ++ [c] else possible in
      step! e := Equals m c in if e then Done (reverse possible) else possible_starts m possible l
  end.
Fixpoint find_equal (m : Mapping) (candidates : list Mapping) : outcome Iterator :=
  match candidates with
  | [] => Done []
  | c :: l => step! e := Equals m c in if e then Done [c] else find_equal m l
  end.
(** [FindFilePossibleMmapStarts], other than on Android. *)
Definition FindFilePossibleMmapStarts (mappings : list Mapping) (m : Mapping) : outcome Iterator :=
  if (device m =? 0) && (inode m =? 0) then find_equal m mappings else possible_starts m [] mappings.

(** [ReverseIteratorFrom]. *)
Fixpoint reverse_from (target : Mapping) (reversed : list Mapping) : outcome Iterator :=
  match reversed with
  | [] => Done []
  | m :: l => step! e := Equals m target in if e then Done (m :: l) else reverse_from target l
  end.
Definition ReverseIteratorFrom (mappings : list Mapping) (target : Mapping) : outcome Iterator := reverse_from target (reverse mappings).

(** ** The file that the kernel writes *)

(** An entry of the file; the name is after a number of spaces. *)
Record Entry := MkEntry {
  e_start : Z;
  e_end : Z;
  e_readable : bool;
  e_writable : bool;
  e_executable : bool;
  e_shareable : bool;
  e_offset : Z;
  e_major : Z;
  e_minor : Z;
  e_inode : Z;
  e_spaces : nat;
  e_name : bytes
}.
(** [%0wx]. *)
Definition hex (w : nat) (n : Z) : bytes := replicate (w - length (print_base 16 n)) 48 ++ print_base 16 n.
Definition permission_chars (e : Entry) : bytes :=
  [if e_readable e then 114 else 45; if e_writable e then 119 else 45; if e_executable e then 120 else 45; if e_shareable e then 115 else 112].
Definition print_entry (e : Entry) : bytes :=
  hex 8 (e_start e) ++ 45 :: hex 8 (e_end e) ++ 32 :: permission_chars e ++ 32 :: hex 8 (e_offset e) ++ 32 ::
  hex 2 (e_major e) ++ 58 :: hex 2 (e_minor e) ++ 32 :: print_dec (e_inode e) ++ 32 :: (replicate (e_spaces e) 32 ++ e_name e) ++ [10].
Definition maps_file (l : list Entry) : bytes := concat (map print_entry l).
Definition entry_ok (e : Entry) : Prop :=
  0 <= e_start e <= e_end e /\ e_end e < 2 ^ 64 /\ 0 <= e_offset e < 2 ^ 63 /\ 0 <= e_major e < 2 ^ 32 /\ 0 <= e_minor e < 2 ^ 32 /\
  0 <= e_inode e < 2 ^ 64 /\ 10 ∉ e_name e /\ head (e_name e) <> Some 32.
(** The mappings of entries that are not empty. *)
Definition mapping_of (makedev : Z -> Z -> Z) (e : Entry) : Mapping :=
  MkMapping (e_name e) (CheckedAddressRange.SetRange true (e_start e) (e_end e - e_start e)) (e_offset e)
    (makedev (e_major e) (e_minor e)) (e_inode e) (e_readable e) (e_writable e) (e_executable e) (e_shareable e).
Definition empty_entry (e : Entry) : bool := e_end e =? e_start e.
Definition mappings_of (makedev : Z -> Z -> Z) (l : list Entry) : list Mapping :=
  map (mapping_of makedev) (List.filter (fun e => negb (empty_entry e)) l).
(** Entries in order, the next one from an address on. *)
Fixpoint in_order (a : Z) (l : list Entry) : Prop :=
  match l with
  | [] => True
  | e :: l' => a <= e_start e /\ in_order (if empty_entry e then a else e_end e) l'
  end.

(** *** Numbers *)

Lemma hex_digits_ok w n : 0 <= n -> Forall (fun c => is_digit_in 16 c = true) (hex w n).
Proof.
  intros Hn. unfold hex. apply Forall_app. split; [by apply Forall_replicate|]. by apply print_base_digits.
Qed.
Lemma hex_value w n : 0 <= n -> digits_value 16 0 (hex w n) = n.
Proof.
  intros Hn. unfold hex. rewrite digits_value_app.
  assert (forall k, digits_value 16 0 (replicate k 48) = 0) as ->.
  { intros k. unfold digits_value. by induction k as [|k IH]; cbn [replicate fold_left]. }
  by apply print_base_value.
Qed.
Lemma hex_nonempty w n : 0 <= n -> hex w n <> [].
Proof. intros Hn E. apply app_eq_nil in E as [_ E]. by apply (print_base_nonempty 16 ltac:(lia) n Hn). Qed.
Lemma hex_length w n : (w <= length (hex w n))%nat.
Proof. unfold hex. rewrite length_app, length_replicate. lia. Qed.
Lemma hex_read T w n :
  TypeCheck T = true -> 0 <= n <= type_max (StringToNumber.IntType T) -> HexStringToNumber T (hex w n) = Some n.
Proof.
  intros HT Hn. unfold HexStringToNumber. change (str "0x" ++ hex w n) with (48 :: 120 :: hex w n). rewrite string_to_number_hex by done.
  rewrite hex_value by lia. rewrite (proj2 (hex_string_spec _)).
  2: { split; [apply hex_nonempty; lia|apply hex_digits_ok; lia]. }
  cbn [andb]. destruct (Z.leb_spec n (type_max (StringToNumber.IntType T))); [done|lia].
Qed.
Lemma digit_range base c : base <= 36 -> is_digit_in base c = true -> 48 <= c <= 57 \/ 65 <= c <= 90 \/ 97 <= c <= 122.
Proof.
  intros Hb. unfold is_digit_in, digit_value, isdigit. repeat break_if; bool_to_prop; try done; lia.
Qed.
Lemma digits_not_in base d s :
  base <= 36 -> Forall (fun c => is_digit_in base c = true) s -> d = 45 \/ d = 32 \/ d = 58 \/ d = 10 -> d ∉ s.
Proof.
  intros Hb Hs Hd Hin. rewrite Forall_forall in Hs. pose proof (digit_range base d Hb (Hs _ Hin)). lia.
Qed.

(** *** Fields *)

Section Fields.
  Context {R : Type} `{FileReaderLaws R}.
  Context (makedev : Z -> Z -> Z).

(** A reader of the file with these bytes to come. *)
Definition at_rest (st : DelimitedFileReader.t (R := R)) (s : bytes) : Prop :=
  DelimitedFileReader.wf st /\ DelimitedFileReader.eof_ st = false /\ DelimitedFileReader.rest st = s.

Lemma find_char_at d f more : d ∉ f -> find_char d (f ++ d :: more) = Some (length f).
Proof.
  induction f as [|c f IH]; cbn [app find_char length]; intros Hd; [by rewrite Z.eqb_refl|].
  apply not_elem_of_cons in Hd as [Hc Hd]. destruct (Z.eqb_spec c d); [congruence|]. by rewrite IH.
Qed.

Lemma get_delim_at fuel d st f more :
  at_rest st (f ++ d :: more) -> d ∉ f -> (length (f ++ d :: more) < fuel)%nat ->
  exists st', DelimitedFileReader.GetDelim fuel d st = (DelimitedFileReader.kSuccess (f ++ [d]), st') /\ at_rest st' more.
Proof.
  intros (Hw & He & Hr) Hd Hf. rewrite <-Hr in Hf.
  destruct (get_delim_next_field fuel d st Hw Hf) as (res & st' & E & Hw' & Hres). rewrite He, Hr in Hres. destruct Hres as [_ Hres].
  pose proof (find_char_at d f more Hd) as Hfind.
  assert (DelimitedFileReader.first_field d (f ++ d :: more) = f ++ [d]) as Eff.
  { unfold DelimitedFileReader.first_field. rewrite Hfind, take_app_ge by lia. by replace (length f + 1 - length f)%nat with 1%nat by lia. }
  rewrite Eff, Hfind in Hres. exists st'. destruct (f ++ d :: more) eqn:Es; [by destruct f|]. destruct Hres as (-> & Hrest & Heof).
  split; [done|]. split_and!; [done|done|]. rewrite Hrest, <-Es, length_app. rewrite drop_app_ge by (cbn; lia).
  by replace (length f + length [d] - length f)%nat with 1%nat by (cbn; lia).
Qed.
Lemma get_delim_end fuel d st :
  at_rest st [] -> (0 < fuel)%nat -> exists st', DelimitedFileReader.GetDelim fuel d st = (DelimitedFileReader.kEndOfFile, st').
Proof.
  intros (Hw & He & Hr) Hf. destruct (get_delim_next_field fuel d st Hw) as (res & st' & E & Hw' & Hres); [by rewrite Hr|].
  rewrite He, Hr in Hres. destruct Hres as [_ (-> & _)]. by exists st'.
Qed.

(** A parser gives this, and leaves these bytes. *)
Definition yields {A} (p : Parser A) (st : DelimitedFileReader.t (R := R)) (x : A) (more : bytes) : Prop :=
  exists st', p st = Some (Continue x, st') /\ at_rest st' more.

Lemma yields_bind {A B} (p : Parser A) (k : A -> Parser B) st x y mid more :
  yields p st x mid -> (forall st', at_rest st' mid -> yields (k x) st' y more) -> yields (parser_bind p k) st y more.
Proof. intros (st' & E & Hr) Hk. destruct (Hk st' Hr) as (st2 & E2 & ?). exists st2. unfold parser_bind. by rewrite E. Qed.
Lemma yields_proceed {A} (x : A) st more : at_rest st more -> yields (proceed x) st x more.
Proof. intros Hr. by exists st. Qed.
Lemma yields_expect {A} (o : option A) x st more : o = Some x -> at_rest st more -> yields (expect o) st x more.
Proof. intros -> Hr. by exists st. Qed.
Lemma yields_field fuel d f st more :
  at_rest st (f ++ d :: more) -> d ∉ f -> (length (f ++ d :: more) < fuel)%nat -> yields (field fuel d) st f more.
Proof.
  intros Hr Hd Hf. destruct (get_delim_at fuel d st f more Hr Hd Hf) as (st' & E & Hr'). exists st'. unfold field. by rewrite E, removelast_last.
Qed.
Lemma yields_first_field fuel f st more :
  at_rest st (f ++ 45 :: more) -> 45 ∉ f -> (length (f ++ 45%Z :: more) < fuel)%nat -> yields (first_field fuel) st f more.
Proof.
  intros Hr Hd Hf. destruct (get_delim_at fuel 45 st f more Hr Hd Hf) as (st' & E & Hr'). exists st'. unfold first_field. by rewrite E, removelast_last.
Qed.
Lemma yields_last_field fuel f st more :
  at_rest st (f ++ 10 :: more) -> 10 ∉ f -> (length (f ++ 10%Z :: more) < fuel)%nat -> yields (last_field fuel) st (f ++ [10]) more.
Proof.
  intros Hr Hd Hf. destruct (get_delim_at fuel 10 st f more Hr Hd Hf) as (st' & E & Hr'). exists st'. unfold last_field, DelimitedFileReader.GetLine. by rewrite E.
Qed.

(** *** Lines *)

Lemma permissions_read e : permissions (permission_chars e) = Some (e_readable e, e_writable e, e_executable e, e_shareable e).
Proof. unfold permission_chars. by destruct (e_readable e), (e_writable e), (e_executable e), (e_shareable e). Qed.
Lemma permission_not_in d e : d = 10 \/ d = 32 -> d ∉ permission_chars e.
Proof.
  unfold permission_chars. destruct (e_readable e), (e_writable e), (e_executable e), (e_shareable e); rewrite !elem_of_cons, elem_of_nil; lia.
Qed.
Lemma device_read n : 0 <= n < 2 ^ 32 -> device_number (hex 2 n) = Some n.
Proof.
  intros Hn. unfold device_number. pose proof (hex_length 2 n). destruct (Nat.ltb_spec (length (hex 2 n)) 2); [lia|].
  apply hex_read; [done|]. change (type_max _) with (2 ^ 32 - 1). lia.
Qed.
Lemma skip_spaces_name k n : head n <> Some 32 -> skip_spaces (replicate k 32 ++ n) = n.
Proof.
  intros Hn. induction k as [|k IH]; cbn [replicate app skip_spaces]; [|done].
  destruct n as [|c n]; [done|]. cbn [skip_spaces]. destruct (Z.eqb_spec c 32) as [->|]; [done|done].
Qed.
Lemma hex_not_in w n d : 0 <= n -> d = 45 \/ d = 32 \/ d = 58 \/ d = 10 -> d ∉ hex w n.
Proof. intros Hn. apply (digits_not_in 16); [lia|by apply hex_digits_ok]. Qed.
Lemma dec_not_in n d : 0 <= n -> d = 45 \/ d = 32 \/ d = 58 \/ d = 10 -> d ∉ print_dec n.
Proof.
  intros Hn. unfold print_dec. destruct (Z.ltb_spec n 0); [lia|]. apply (digits_not_in 10); [lia|]. by apply print_base_digits; [lia|].
Qed.

(** The rest of a line that is read in fields. *)
Definition mapping_text (e : Entry) : bytes :=
  permission_chars e ++ 32 :: hex 8 (e_offset e) ++ 32 :: hex 2 (e_major e) ++ 58 :: hex 2 (e_minor e) ++ 32 ::
  print_dec (e_inode e) ++ 32 :: (replicate (e_spaces e) 32 ++ e_name e) ++ [10].
Lemma name_not_in e : entry_ok e -> 10 ∉ replicate (e_spaces e) 32 ++ e_name e.
Proof.
  intros (_ & _ & _ & _ & _ & _ & Hn & _) Hin. apply elem_of_app in Hin as [Hin|Hin]; [|done]. by apply elem_of_replicate in Hin as [? _].
Qed.
Lemma mapping_text_line e : entry_ok e -> exists f, mapping_text e = f ++ [10] /\ 10 ∉ f.
Proof.
  intros Hok. pose proof Hok as (Hs & He & Ho & Hma & Hmi & Hi & Hn & Hh).
  exists (permission_chars e ++ 32 :: hex 8 (e_offset e) ++ 32 :: hex 2 (e_major e) ++ 58 :: hex 2 (e_minor e) ++ 32 ::
    print_dec (e_inode e) ++ 32 :: replicate (e_spaces e) 32 ++ e_name e).
  split; [unfold mapping_text; by repeat (rewrite <-!app_assoc; cbn [app])|].
  repeat (rewrite not_elem_of_app || rewrite not_elem_of_cons). split_and!; try done; try (apply hex_not_in; lia); try (apply dec_not_in; lia).
  - apply permission_not_in; lia.
  - intros Hin. by apply elem_of_replicate in Hin as [? _].
Qed.

Ltac field_with lemma :=
  eapply yields_bind; [eapply lemma; [eassumption| |repeat (rewrite !length_app in * || cbn [length] in * ); lia]|].
Ltac number_with lemma :=
  eapply yields_bind; [eapply yields_expect; [eapply lemma|eassumption]|].

Lemma parse_mapping_entry fuel e st more :
  entry_ok e -> at_rest st (mapping_text e ++ more) -> (length (mapping_text e ++ more) < fuel)%nat ->
  yields (parse_mapping makedev fuel (e_start e) (e_end e)) st (mapping_of makedev e) more.
Proof.
  intros Hok Hst Hf. pose proof (name_not_in e Hok) as Hname. pose proof Hok as (Hs & He & Ho & Hma & Hmi & Hi & _ & Hh).
  pose proof (skip_spaces_name (e_spaces e) (e_name e) Hh) as Hskip.
  unfold mapping_text, parse_mapping in *. set (nm := replicate (e_spaces e) 32 ++ e_name e) in *. clearbody nm.
  repeat (rewrite <-!app_assoc in *; cbn [app] in * ).
  field_with yields_field. { apply permission_not_in; lia. }
  intros st1 Hst1. number_with permissions_read. clear dependent st. intros st2 Hst2.
  field_with yields_field. { apply hex_not_in; lia. }
  clear dependent st1. intros st3 Hst3. number_with hex_read; [done|change (type_max _) with (2 ^ 63 - 1); lia|].
  clear dependent st2. intros st4 Hst4. field_with yields_field. { apply hex_not_in; lia. }
  clear dependent st3. intros st5 Hst5. number_with device_read; [done|].
  clear dependent st4. intros st6 Hst6. field_with yields_field. { apply hex_not_in; lia. }
  clear dependent st5. intros st7 Hst7. number_with device_read; [done|].
  clear dependent st6. intros st8 Hst8. field_with yields_field. { apply dec_not_in; lia. }
  clear dependent st7. intros st9 Hst9. eapply yields_bind; [eapply yields_expect; [|eassumption]|].
  { rewrite string_to_number_print by done. change (in_range _ (e_inode e)) with (fits 64 (e_inode e)).
    by rewrite (proj2 (fits_spec 64 (e_inode e)) Hi). }
  clear dependent st8. intros st10 Hst10. field_with yields_last_field. { done. }
  clear dependent st9. intros st11 Hst11. rewrite last_snoc, bool_decide_eq_true_2 by done. cbn [negb].
  rewrite removelast_last, Hskip. by apply yields_proceed.
Qed.

Lemma parse_line_entry fuel e st mappings more :
  entry_ok e -> at_rest st (print_entry e ++ more) -> (length (print_entry e ++ more) < fuel)%nat ->
  match last mappings with Some m => CheckedAddressRange.End_ (range m) <= e_start e | None => True end ->
  yields (ParseMapsLine makedev fuel mappings) st (mappings ++ (if empty_entry e then [] else [mapping_of makedev e])) more.
Proof.
  intros Hok Hst Hf Hl. pose proof Hok as (Hs & He & Ho & Hma & Hmi & Hi & Hn & Hh).
  assert (print_entry e = hex 8 (e_start e) ++ 45 :: hex 8 (e_end e) ++ 32 :: mapping_text e) as Ep by done.
  rewrite Ep in *. clear Ep. unfold ParseMapsLine. repeat (rewrite <-!app_assoc in *; cbn [app] in * ).
  field_with yields_first_field. { apply hex_not_in; lia. }
  intros st1 Hst1. number_with hex_read; [done|change (type_max _) with (2 ^ 64 - 1); lia|].
  clear dependent st. intros st2 Hst2.
  replace (match last mappings with Some m => e_start e <? CheckedAddressRange.End_ (range m) | None => false end) with false.
  2: { destruct (last mappings); [|done]. symmetry. apply Z.ltb_ge. done. }
  field_with yields_field. { apply hex_not_in; lia. }
  clear dependent st1. intros st3 Hst3. number_with hex_read; [done|change (type_max _) with (2 ^ 64 - 1); lia|].
  clear dependent st2. intros st4 Hst4. destruct (Z.ltb_spec (e_end e) (e_start e)); [lia|]. unfold empty_entry.
  assert (length (mapping_text e ++ more) < fuel)%nat as Hf'.
  { repeat (rewrite ?length_app in *; cbn [length] in * ). lia. }
  destruct (e_end e =? e_start e).
  - rewrite app_nil_r. destruct (mapping_text_line e Hok) as (f & Ef & Hnl). rewrite Ef, <-app_assoc in *. cbn [app] in *.
    eapply yields_bind; [by eapply yields_last_field|]. intros st5 Hst5. by apply yields_proceed.
  - eapply yields_bind; [by apply parse_mapping_entry|]. intros st5 Hst5. by apply yields_proceed.
Qed.

Lemma maps_file_length l : (length l <= length (maps_file l))%nat.
Proof.
  unfold maps_file. induction l as [|e l IH]; cbn [map concat length]; [lia|]. rewrite length_app.
  assert (1 <= length (print_entry e))%nat; [|lia]. unfold print_entry. rewrite length_app. cbn [length]. lia.
Qed.
Lemma parse_lines_entries l lines fuel a mappings st :
  Forall entry_ok l -> in_order a l -> at_rest st (maps_file l) -> (length (maps_file l) < fuel)%nat -> (length l < lines)%nat ->
  match last mappings with Some m => CheckedAddressRange.End_ (range m) <= a | None => True end ->
  parse_lines makedev lines fuel mappings st = Some (kEndOfFile, mappings ++ mappings_of makedev l).
Proof.
  intros Hok. revert lines a mappings st. induction Hok as [|e l He Hl IH]; intros lines a mappings st Ho Hst Hf Hn Ha;
    (destruct lines as [|lines]; [cbn in Hn; lia|]); cbn [parse_lines].
  - unfold ParseMapsLine, parser_bind, first_field. destruct (get_delim_end fuel 45 st Hst ltac:(lia)) as (st' & ->).
    unfold mappings_of. cbn. by rewrite app_nil_r.
  - destruct Ho as [Ho1 Ho2]. unfold maps_file in *. cbn [map concat length] in *.
    destruct (parse_line_entry fuel e st mappings _ He Hst Hf) as (st' & -> & Hst').
    { destruct (last mappings); [lia|done]. }
    rewrite (IH lines (if empty_entry e then a else e_end e)); [|done|done|rewrite length_app in Hf; lia|lia|].
    + unfold mappings_of. cbn [List.filter]. destruct (empty_entry e); cbn [negb map]; by rewrite <-app_assoc.
    + destruct (empty_entry e); [by rewrite app_nil_r|]. rewrite last_snoc. cbn [mapping_of range].
      pose proof He as (Hs & Hend & _). rewrite (set_range_end true); lia.
Qed.
End Fields.

(** ** Readable addresses *)

(** Mappings in order, from an address on. *)
Fixpoint ordered (a : Z) (l : list Mapping) : Prop :=
  match l with
  | [] => True
  | m :: l' =>
      CheckedAddressRange.is_64_bit (range m) = true /\ a <= CheckedAddressRange.Base (range m) /\
      0 < CheckedAddressRange.Size (range m) /\ CheckedAddressRange.Base (range m) + CheckedAddressRange.Size (range m) < 2 ^ 64 /\
      ordered (CheckedAddressRange.Base (range m) + CheckedAddressRange.Size (range m)) l'
  end.
Definition contains (m : Mapping) (x : Z) : Prop :=
  CheckedAddressRange.Base (range m) <= x < CheckedAddressRange.Base (range m) + CheckedAddressRange.Size (range m).
(** The mappings that can be read: the kernel does not let [vvar] be read. *)
Definition can_read (m : Mapping) : bool := readable m && negb ((inode m =? 0) && bool_decide (name m = str "[vvar]")).

Lemma mappings_of_ordered makedev l a : Forall entry_ok l -> in_order a l -> ordered a (mappings_of makedev l).
Proof.
  intros Hok. revert a. induction Hok as [|e l He Hl IH]; intros a; [done|]. intros [Ho1 Ho2]. unfold mappings_of in *. cbn [List.filter].
  specialize (IH _ Ho2). pose proof He as (Hs & Hend & _). unfold empty_entry in *. destruct (Z.eqb_spec (e_end e) (e_start e)); cbn [negb map]; [done|].
  cbn [ordered mapping_of range]. change (CheckedAddressRange.Base _) with (e_start e). change (CheckedAddressRange.Size _) with (e_end e - e_start e).
  replace (e_start e + (e_end e - e_start e)) with (e_end e) by lia. split_and!; [done|lia..|done].
Qed.

Lemma ordered_end a m l : 0 <= a -> ordered a (m :: l) ->
  CheckedAddressRange.End_ (range m) = CheckedAddressRange.Base (range m) + CheckedAddressRange.Size (range m).
Proof.
  intros Ha (H64 & Hb & Hs & He & _). unfold CheckedAddressRange.End_, CheckedAddressRange.value_type, CheckedRange.end_. rewrite H64.
  unfold CheckedAddressRange.Base, CheckedAddressRange.Size in *. apply (wrap_small 64). lia.
Qed.

(** Ranges as bases and sizes, in order. *)
Fixpoint chain (a : Z) (l : list (Z * Z)) : Prop :=
  match l with
  | [] => True
  | (b, s) :: l' => a <= b /\ 0 <= s /\ b + s < 2 ^ 64 /\ chain (b + s) l'
  end.
Definition covered (l : list (Z * Z)) (x : Z) : Prop := exists b s, (b, s) ∈ l /\ b <= x < b + s.

Lemma covered_cons b s l x : covered ((b, s) :: l) x <-> b <= x < b + s \/ covered l x.
Proof.
  unfold covered. split.
  - intros (b' & s' & [[= -> ->]|Hin]%elem_of_cons & Hx); [by left|right; eauto].
  - intros [Hx|(b' & s' & Hin & Hx)]; [exists b, s; split; [left|done]|exists b', s'; split; [by right|done]].
Qed.
Lemma covered_nil x : covered [] x <-> False.
Proof. split; [|done]. intros (? & ? & Hin & _). by apply elem_of_nil in Hin. Qed.
Lemma chain_weaken a a' l : a' <= a -> chain a l -> chain a' l.
Proof. destruct l as [|[b s] l]; cbn [chain]; [done|]. intros ? (? & ? & ? & ?). split_and!; [lia|done..]. Qed.
Lemma chain_covered a l x : chain a l -> covered l x -> a <= x.
Proof.
  revert a. induction l as [|[b s] l IH]; intros a; [by rewrite covered_nil|]. cbn [chain]. intros (Hb & Hs & _ & Hc). rewrite covered_cons.
  intros [?|Hx]; [lia|]. specialize (IH _ Hc Hx). lia.
Qed.

(** A mapping is left out if it cannot be read, or has no address in the range. *)
Lemma overlapping_range_spec rb re m :
  CheckedAddressRange.End_ (range m) = CheckedAddressRange.Base (range m) + CheckedAddressRange.Size (range m) ->
  match overlapping_range rb re m with
  | Some (b, s) => b = CheckedAddressRange.Base (range m) /\ s = CheckedAddressRange.Size (range m) /\ can_read m = true /\ b < re /\ rb <= b + s
  | None => forall x, rb <= x < re -> can_read m = true -> ~ contains m x
  end.
Proof.
  intros Eend. unfold overlapping_range, can_read, contains. rewrite Eend. destruct (readable m); cbn [negb andb]; [|done].
  destruct (Z.ltb_spec (CheckedAddressRange.Base (range m) + CheckedAddressRange.Size (range m)) rb); [lia|].
  destruct (Z.leb_spec re (CheckedAddressRange.Base (range m))); [lia|]. destruct ((inode m =? 0) && _); cbn [negb]; [done|]. done.
Qed.

(** The ranges that overlap: those of readable mappings that touch the range. *)
Lemma overlapping_spec rb re a l :
  0 <= a -> ordered a l ->
  let o := omap (overlapping_range rb re) l in
  chain a o /\ Forall (fun p => p.1 < re /\ rb <= p.1 + p.2) o /\
  forall x, rb <= x < re -> covered o x <-> exists m, m ∈ l /\ can_read m = true /\ contains m x.
Proof.
  revert a. induction l as [|m l IH]; intros a Ha Ho.
  { cbn. split_and!; [done|done|]. intros x _. rewrite covered_nil. split; [done|]. intros (m & Hin & _). by apply elem_of_nil in Hin. }
  pose proof (overlapping_range_spec rb re m (ordered_end a m l Ha Ho)) as Hm. destruct Ho as (H64 & Hb & Hs & He & Ho').
  destruct (IH (CheckedAddressRange.Base (range m) + CheckedAddressRange.Size (range m)) ltac:(lia) Ho') as (IHc & IHf & IHx).
  cbn zeta in *. change (omap (overlapping_range rb re) (m :: l)) with
    (match overlapping_range rb re m with Some y => y :: omap (overlapping_range rb re) l | None => omap (overlapping_range rb re) l end).
  setoid_rewrite elem_of_cons. destruct (overlapping_range rb re m) as [[b s]|].
  - destruct Hm as (-> & -> & Hr & ? & ?). split_and!; [cbn [chain]; split_and!; [lia|lia|lia|done]|by constructor|].
    intros x Hx. rewrite covered_cons, IHx by done. unfold contains. naive_solver.
  - split_and!; [eapply chain_weaken; [|done]; lia|done|]. intros x Hx. rewrite IHx by done. specialize (Hm x Hx). naive_solver.
Qed.

Lemma trim_front_spec rb a l :
  0 <= a -> 0 <= rb -> chain a l -> Forall (fun p => rb <= p.1 + p.2) l ->
  chain rb (trim_front rb l) /\ forall x, covered (trim_front rb l) x <-> covered l x /\ rb <= x.
Proof.
  intros Ha Hrb Hc Hf. destruct l as [|[b s] l]; cbn [trim_front]; [split; [done|]; intros x; rewrite covered_nil; naive_solver|].
  destruct Hc as (Hb & Hs & He & Hc). apply Forall_cons_1 in Hf as [Hf _]. cbn [fst snd] in Hf.
  rewrite (wrap_small 64 (b + s)) by lia. rewrite wrap_small by lia. cbn [chain]. split.
  - split_and!; [lia|lia|lia|]. by replace (Z.max b rb + (b + s - Z.max b rb)) with (b + s) by lia.
  - intros x. rewrite !covered_cons. split; [|intros [[?|?] ?]; [left; lia|by right]].
    intros [?|Hx]; [split; [left; lia|lia]|]. pose proof (chain_covered _ _ _ Hc Hx). split; [by right|lia].
Qed.
Lemma trim_back_spec re a l :
  0 <= a -> chain a l -> Forall (fun p => p.1 <= re) l ->
  chain a (trim_back re l) /\ forall x, covered (trim_back re l) x <-> covered l x /\ x < re.
Proof.
  intros Ha Hc Hf. revert a Ha Hc. induction Hf as [|[b s] l Hb Hf IH]; intros a Ha Hc.
  { cbn. split; [done|]. intros x. rewrite covered_nil. naive_solver. }
  destruct Hc as (Hab & Hs & He & Hc). cbn [fst] in Hb. destruct l as [|p l].
  - cbn [trim_back chain]. rewrite (wrap_small 64 (b + s)) by lia. rewrite wrap_small by lia. split; [split_and!; [lia..|done]|].
    intros x. rewrite !covered_cons, !covered_nil. lia.
  - change (trim_back re ((b, s) :: p :: l)) with ((b, s) :: trim_back re (p :: l)).
    destruct (IH (b + s) ltac:(lia) Hc) as [IHc IHx]. split; [cbn [chain]; by split_and!|].
    intros x. rewrite !covered_cons, IHx. destruct p as [b2 s2]. apply Forall_cons_1 in Hf as [Hb2 _]. cbn [fst] in Hb2.
    destruct Hc as (Hb3 & _). clear - Hb2 Hb3. split; [intros [?|[? ?]]; (split; [tauto|lia])|tauto].
Qed.

(** *** Coalescing *)

Definition denoted (l : list CheckedRange.t) (x : Z) : Prop := exists q, q ∈ l /\ CheckedRange.denotes q x.
(** Ranges in order, which do not touch. *)
Definition separate (l : list CheckedRange.t) : Prop :=
  StronglySorted (fun q q' => CheckedRange.base q + CheckedRange.size q < CheckedRange.base q') l.

Lemma separate_snoc l q :
  separate l -> Forall (fun p => CheckedRange.base p + CheckedRange.size p < CheckedRange.base q) l -> separate (l ++ [q]).
Proof.
  unfold separate. induction 1 as [|p l Hs IH Hp]; intros Hf; cbn [app]; [by repeat constructor|].
  apply Forall_cons_1 in Hf as [Hq Hf]. constructor; [by apply IH|]. apply Forall_app. split; [done|by constructor].
Qed.
Lemma denoted_snoc l q x : denoted (l ++ [q]) x <-> denoted l x \/ CheckedRange.denotes q x.
Proof.
  unfold denoted. setoid_rewrite elem_of_app. setoid_rewrite list_elem_of_singleton. naive_solver.
Qed.

(** A range of addresses. *)
Definition in_memory (q : CheckedRange.t) : Prop :=
  0 <= CheckedRange.base q /\ 0 <= CheckedRange.size q /\ CheckedRange.base q + CheckedRange.size q < 2 ^ 64.
Lemma in_memory_snoc l b s : Forall in_memory l -> 0 <= b -> 0 <= s -> b + s < 2 ^ 64 -> Forall in_memory (l ++ [CheckedRange.Make b s]).
Proof. intros Hl ???. apply Forall_app. split; [done|]. by repeat constructor. Qed.

Lemma coalesce_ranges_spec result b s l :
  0 <= b -> 0 <= s -> b + s < 2 ^ 64 -> chain (b + s) l -> separate result ->
  Forall (fun p => CheckedRange.base p + CheckedRange.size p < b) result -> Forall in_memory result ->
  exists r, coalesce result (CheckedRange.Make b s) l = Some r /\ separate r /\ Forall in_memory r /\
    forall x, denoted r x <-> denoted result x \/ b <= x < b + s \/ covered l x.
Proof.
  revert result b s. induction l as [|[b' s'] l IH]; intros result b s Hb Hs He Hc Hr Hf Hm; cbn [coalesce];
    (assert (CheckedRange.IsValid uint64_t (CheckedRange.Make b s) = true) as ->
      by (apply CheckedRange.valid_spec; [done|]; split; apply fits_spec; cbn; lia)); cbn [negb].
  - eexists. split; [done|]. split; [by apply separate_snoc|]. split; [by apply in_memory_snoc|]. intros x. rewrite denoted_snoc, covered_nil. unfold CheckedRange.denotes. cbn. tauto.
  - destruct Hc as (Hb' & Hs' & He' & Hc).
    assert (CheckedRange.end_ uint64_t (CheckedRange.Make b s) = b + s) as -> by (apply (wrap_small 64); cbn; lia).
    cbn [CheckedRange.base CheckedRange.size]. setoid_rewrite covered_cons. destruct (Z.eqb_spec (b + s) b') as [<-|Hne].
    + rewrite (wrap_small 64 (s + s')) by lia. destruct (IH result b (s + s')) as (r & -> & Hs2 & Hm2 & Hx); [lia|lia|lia| |done|done|done|].
      { by replace (b + (s + s')) with (b + s + s') by lia. }
      exists r. split_and!; [done|done|done|]. intros x. rewrite Hx. assert (b <= x < b + (s + s') <-> b <= x < b + s \/ b + s <= x < b + s + s') by lia. tauto.
    + destruct (IH (result ++ [CheckedRange.Make b s]) b' s') as (r & -> & Hs2 & Hm2 & Hx); [lia|lia|lia|done|by apply separate_snoc| |by apply in_memory_snoc|].
      { apply Forall_app. split; [|constructor; [cbn; lia|constructor]]. eapply Forall_impl; [exact Hf|]. cbn. intros. lia. }
      exists r. split_and!; [done|done|done|]. intros x. rewrite Hx, denoted_snoc. unfold CheckedRange.denotes. cbn. tauto.
Qed.

Lemma get_readable_ranges_spec l r :
  ordered 0 l -> in_memory r ->
  exists ranges, GetReadableRanges l r = Some ranges /\ separate ranges /\ Forall in_memory ranges /\
    forall x, denoted ranges x <-> CheckedRange.denotes r x /\ exists m, m ∈ l /\ can_read m = true /\ contains m x.
Proof.
  intros Ho (Hb & Hs & He). unfold GetReadableRanges, CheckedRange.denotes.
  assert (CheckedRange.end_ uint64_t r = CheckedRange.base r + CheckedRange.size r) as -> by (apply (wrap_small 64); lia).
  set (rb := CheckedRange.base r) in *. set (re := rb + CheckedRange.size r) in *. cbn zeta.
  destruct (overlapping_spec rb re 0 l ltac:(lia) Ho) as (Hc & Hf & Hx). set (o := omap _ l) in *. clearbody o.
  destruct (trim_front_spec rb 0 o) as [Hc1 Hx1]; [lia|lia|done|eapply Forall_impl; [exact Hf|]; cbn; intros ? []; lia|].
  destruct (trim_back_spec re rb (trim_front rb o)) as [Hc2 Hx2]; [lia|done| |].
  { destruct o as [|[b s] o]; [constructor|]. cbn [trim_front]. apply Forall_cons_1 in Hf as [[? ?] Hf]. cbn [fst snd] in *.
    constructor; [cbn [fst]; lia|]. eapply Forall_impl; [exact Hf|]. cbn. intros ? []. lia. }
  assert (forall x, covered (trim_back re (trim_front rb o)) x <-> rb <= x < re /\ exists m, m ∈ l /\ can_read m = true /\ contains m x) as Hall.
  { intros x. rewrite Hx2, Hx1. split; [intros [[Hcov ?] ?]; split; [lia|]; apply Hx; [lia|done]|].
    intros [Hr Hm]. apply Hx in Hm; [|done]. split; [split; [done|lia]|lia]. }
  destruct (trim_back re (trim_front rb o)) as [|[b s] t].
  - exists []. split_and!; [done|constructor|constructor|]. intros x. rewrite <-Hall, covered_nil. split; [|done]. intros (? & Hin & _). by apply elem_of_nil in Hin.
  - destruct Hc2 as (? & ? & ? & Hc2). destruct (coalesce_ranges_spec [] b s t) as (ranges & E & Hsep & Hm & Hd); [lia|lia|lia|done|constructor|constructor|constructor|].
    exists ranges. split_and!; [done|done|done|]. intros x. rewrite Hd, <-Hall, covered_cons. split; [|tauto]. intros [(? & Hin & _)|?]; [by apply elem_of_nil in Hin|done].
Qed.

(** ** Starts of files *)

(** A mapping as it is read. *)
Definition read_mapping (m : Mapping) : Prop :=
  CheckedAddressRange.is_64_bit (range m) = true /\ CheckedAddressRange.range_ok (range m) = true.
Lemma equals_spec x y : read_mapping x -> read_mapping y -> Equals x y = Done (bool_decide (x = y)).
Proof.
  intros [Hx1 Hx2] [Hy1 Hy2]. unfold Equals. rewrite Hx1, Hy1. cbn [eqb negb]. f_equal. symmetry. destruct (bool_decide_reflect (x = y)) as [<-|Hne].
  - symmetry. rewrite !Z.eqb_refl, !eqb_reflx, bool_decide_eq_true_2 by done. done.
  - symmetry. apply not_true_is_false. intros Ht. apply Hne. rewrite !andb_true_iff in Ht. rewrite !Z.eqb_eq, bool_decide_eq_true in Ht.
    destruct Ht as (((((((((E1 & E2) & E3) & E4) & E5) & E6) & E7%eqb_prop) & E8%eqb_prop) & E9%eqb_prop) & E10%eqb_prop).
    destruct x as [? [[] ? ?]], y as [? [[] ? ?]]. unfold CheckedAddressRange.Base, CheckedAddressRange.Size in *. cbn in *. congruence.
Qed.
(** Mappings of a file from its start. *)
Definition starts_file (m c : Mapping) : bool := (device c =? device m) && (inode c =? inode m) && (offset c =? 0).
Lemma possible_starts_spec m l1 l2 possible :
  read_mapping m -> Forall read_mapping l1 -> m ∉ l1 ->
  possible_starts m possible (l1 ++ m :: l2) = Done (reverse (possible ++ List.filter (starts_file m) (l1 ++ [m]))).
Proof.
  intros Hm Hl. revert possible. induction Hl as [|c l1 Hc Hl IH]; intros possible Hn; cbn [app possible_starts List.filter]; cbn zeta.
  - rewrite equals_spec, bool_decide_eq_true_2 by done. cbn [outcome_bind]. fold (starts_file m m). destruct (starts_file m m); [done|by rewrite app_nil_r].
  - apply not_elem_of_cons in Hn as [Hne Hn]. rewrite equals_spec, bool_decide_eq_false_2 by done. cbn [outcome_bind]. fold (starts_file m c).
    rewrite IH by done. destruct (starts_file m c); [|done]. by rewrite <-app_assoc.
Qed.
(** The mapping of an address. *)
Lemma find_mapping_spec a l x m :
  0 <= a -> ordered a l -> FindMapping id l x = Some m <-> m ∈ l /\ contains m x.
Proof.
  revert a. induction l as [|c l IH]; intros a Ha Ho; unfold FindMapping in *; cbn [List.find].
  { split; [done|]. by intros [?%elem_of_nil _]. }
  pose proof (ordered_end a c l Ha Ho) as ->. destruct Ho as (H64 & Hb & Hs & He & Ho). unfold id in *. cbn zeta in *.
  specialize (IH (CheckedAddressRange.Base (range c) + CheckedAddressRange.Size (range c)) ltac:(lia) Ho). rewrite elem_of_cons.
  assert (forall c', c' ∈ l -> CheckedAddressRange.Base (range c) + CheckedAddressRange.Size (range c) <= CheckedAddressRange.Base (range c')) as Hlater.
  { intros c' Hin. clear - Ho Hin Hs. revert Ho. generalize (CheckedAddressRange.Base (range c) + CheckedAddressRange.Size (range c)).
    induction l as [|d l IH]; intros z Ho; [by apply elem_of_nil in Hin|]. destruct Ho as (_ & Hb & Hs' & _ & Ho).
    apply elem_of_cons in Hin as [->|Hin]; [done|]. pose proof (IH Hin _ Ho). lia. }
  destruct (_ && _) eqn:E; unfold contains in *.
  - bool_to_prop. split; [by intros [= <-]; split; [left|lia]|]. intros [[->|Hin] Hx]; [done|]. specialize (Hlater _ Hin). lia.
  - rewrite IH. split; [naive_solver|]. intros [[->|Hin] Hx]; [|done]. rewrite (proj2 (Z.leb_le _ _)), (proj2 (Z.ltb_lt _ _)) in E by lia. done.
Qed.

(** ** The maps file and the readable ranges *)

(** C27.  The mappings of a process are those that the kernel lists: for every list of
    entries in order, [Initialize] on the file with a line for each, in the format of the
    kernel, succeeds with a mapping for each entry that is not empty, with its addresses,
    permissions, offset, device, inode and name, whatever characters but a newline the
    name has; the mappings are in order and do not overlap. *)
Theorem memory_map_read makedev l fuel ReadFileContents :
  Forall entry_ok l -> in_order 0 l -> ReadFileContents 3%nat = Some (maps_file l) ->
  (length (maps_file l) < fuel)%nat -> Z.of_nat (length (maps_file l)) < 2 ^ 63 ->
  Initialize makedev fuel ReadFileContents = Some (true, mappings_of makedev l) /\ ordered 0 (mappings_of makedev l).
Proof.
  intros Hok Ho Hr Hf Hl. split; [|by apply mappings_of_ordered].
  unfold Initialize. cbn [initialize_loop]. rewrite Hr. pose proof (maps_file_length l).
  rewrite (parse_lines_entries makedev l fuel fuel 0); [done|done|done| |done|lia|done].
  split_and!; [|done|done]. split_and!; [by split|done|done].
Qed.

(** C28.  [GetReadableRanges], on mappings in order and any range of addresses, passes its
    DCHECKs and gives ranges in order that do not touch each other and in which exactly
    those addresses of the range are that some readable mapping contains, [vvar] left
    out; no arithmetic wraps around. *)
Theorem readable_ranges_exact l r :
  ordered 0 l -> 0 <= CheckedRange.base r -> 0 <= CheckedRange.size r -> CheckedRange.base r + CheckedRange.size r < 2 ^ 64 ->
  exists ranges, GetReadableRanges l r = Some ranges /\ separate ranges /\
    forall x, denoted ranges x <-> CheckedRange.denotes r x /\ exists m, m ∈ l /\ can_read m = true /\ contains m x.
Proof.
  intros Ho Hb Hs He. destruct (get_readable_ranges_spec l r Ho) as (ranges & E & Hsep & _ & Hx); [done|].
  by exists ranges.
Qed.

(** ** Examples *)

Definition example_makedev (major minor : Z) : Z := Z.lor (Z.shiftl major 8) minor.
Definition example_entries : list Entry :=
  [MkEntry 0x400000 0x401000 true false true false 0 8 1 42 20 (str "/bin/a b");
   MkEntry 0x401000 0x402000 true true false false 0x1000 8 1 42 20 (str "/bin/a b");
   MkEntry 0x402000 0x402000 false false false false 0 0 0 0 0 [];
   MkEntry 0x7fff0000 0x7fff4000 true false false false 0 0 0 0 20 (str "[vvar]");
   MkEntry 0x7fff4000 0x7fff8000 true true false true 0 0 0 0 0 []].
Lemma example_entries_ok : Forall entry_ok example_entries /\ in_order 0 example_entries.
Proof.
  split; [|vm_compute; intuition congruence].
  repeat constructor; cbn; try lia; try done; apply (bool_decide_unpack _); by vm_compute.
Qed.

Lemma memory_map_read_witness :
  Initialize example_makedev 1000 (fun _ => Some (maps_file example_entries)) = Some (true, mappings_of example_makedev example_entries) /\
  length (mappings_of example_makedev example_entries) = 4%nat.
Proof.
  split; [|by vm_compute].
  apply (memory_map_read example_makedev example_entries 1000 (fun _ => Some (maps_file example_entries)));
    [apply example_entries_ok|apply example_entries_ok|done|apply Nat.ltb_lt; by vm_compute|apply Z.ltb_lt; by vm_compute].
Defined.

Lemma readable_ranges_exact_witness :
  GetReadableRanges (mappings_of example_makedev example_entries) (CheckedRange.Make 0x400800 0x80000000) =
    Some [CheckedRange.Make 0x400800 0x1800; CheckedRange.Make 0x7fff4000 0x4000] /\
  (denoted [CheckedRange.Make 0x400800 0x1800; CheckedRange.Make 0x7fff4000 0x4000] 0x401fff <->
   CheckedRange.denotes (CheckedRange.Make 0x400800 0x80000000) 0x401fff /\
   exists m, m ∈ mappings_of example_makedev example_entries /\ can_read m = true /\ contains m 0x401fff).
Proof.
  destruct (readable_ranges_exact (mappings_of example_makedev example_entries) (CheckedRange.Make 0x400800 0x80000000))
    as (ranges & E & _ & Hx); [apply mappings_of_ordered; apply example_entries_ok|cbn; lia..|].
  assert (ranges = [CheckedRange.Make 0x400800 0x1800; CheckedRange.Make 0x7fff4000 0x4000]) as ->.
  { vm_compute in E. by injection E. }
  split; [exact E|apply Hx].
Defined.

(** A file that was read while it changed is read again, but the mappings that were found
    in it are kept, and the new ones start below their end: the file is then found to be
    out of order again, whatever it holds. *)
Lemma retry_does_not_recover :
  exists torn, Initialize example_makedev 1000 (fun attempts => Some (if (attempts =? 3)%nat then torn else maps_file example_entries)) =
      Some (false, mappings_of example_makedev (take 2 example_entries)).
Proof. exists (maps_file (take 2 example_entries ++ take 1 example_entries)). by vm_compute. Qed.
End MemoryMap.
