(* ===== verification/ElfImage.v ===== *)
(** * ELF images in memory (snapshot/elf)

    [ElfImageReader] reads an ELF image where it is loaded in the memory of another
    process: its header and program headers ([Initialize]), its notes ([NoteReader]), and
    its dynamic array and symbols, which are read when they are first asked for
    (elf_image_reader.cc, elf_dynamic_array_reader.cc, elf_symbol_table_reader.cc).  The
    memory is anything: the theorems say what is read from memory that holds an image,
    and that the reading of notes ends whatever it holds.

    The structures are those of <elf.h> for the two classes of images.  The handler runs
    on a 64-bit little-endian system. *)

From S2P Require Import Prelude.
From S2P Require Import Numeric.
From S2P Require Import Structs.
From S2P Require Import ProcessMemory.
#[local] Open Scope crashpad_scope.

(** ** Structures *)

Definition elf_address (is_64_bit : bool) : Repr Z := uint (if is_64_bit then 8 else 4).

Module Elf_Ehdr.
Record t := Make {
  e_ident : list Z; e_type : Z; e_machine : Z; e_version : Z; e_entry : Z; e_phoff : Z; e_shoff : Z; e_flags : Z;
  e_ehsize : Z; e_phentsize : Z; e_phnum : Z; e_shentsize : Z; e_shnum : Z; e_shstrndx : Z
}.
Definition repr (is_64_bit : bool) : Repr t :=
  let addr := elf_address is_64_bit in
  struct (array 16 (uint 1) ⊗ uint 2 ⊗ uint 2 ⊗ uint 4 ⊗ addr ⊗ addr ⊗ addr ⊗ uint 4 ⊗ uint 2 ⊗ uint 2 ⊗ uint 2 ⊗
          uint 2 ⊗ uint 2 ⊗ uint 2)
    (fun x => (e_ident x, e_type x, e_machine x, e_version x, e_entry x, e_phoff x, e_shoff x, e_flags x,
               e_ehsize x, e_phentsize x, e_phnum x, e_shentsize x, e_shnum x, e_shstrndx x))
    (fun '(x0, x1, x2, x3, x4, x5, x6, x7, x8, x9, x10, x11, x12, x13) =>
       Make x0 x1 x2 x3 x4 x5 x6 x7 x8 x9 x10 x11 x12 x13).
#[global] Instance repr_laws b : ReprLaws (repr b).
Proof. struct_laws. Qed.
End Elf_Ehdr.

Module Elf_Phdr.
Record t := Make {
  p_type : Z; p_flags : Z; p_offset : Z; p_vaddr : Z; p_paddr : Z; p_filesz : Z; p_memsz : Z; p_align : Z
}.
(** [p_flags] is at another place in a 32-bit image. *)
Definition repr (is_64_bit : bool) : Repr t :=
  if is_64_bit then
    struct (uint 4 ⊗ uint 4 ⊗ uint 8 ⊗ uint 8 ⊗ uint 8 ⊗ uint 8 ⊗ uint 8 ⊗ uint 8)
      (fun x => (p_type x, p_flags x, p_offset x, p_vaddr x, p_paddr x, p_filesz x, p_memsz x, p_align x))
      (fun '(x0, x1, x2, x3, x4, x5, x6, x7) => Make x0 x1 x2 x3 x4 x5 x6 x7)
  else
    struct (uint 4 ⊗ uint 4 ⊗ uint 4 ⊗ uint 4 ⊗ uint 4 ⊗ uint 4 ⊗ uint 4 ⊗ uint 4)
      (fun x => (p_type x, p_offset x, p_vaddr x, p_paddr x, p_filesz x, p_memsz x, p_flags x, p_align x))
      (fun '(x0, x2, x3, x4, x5, x6, x1, x7) => Make x0 x1 x2 x3 x4 x5 x6 x7).
#[global] Instance repr_laws b : ReprLaws (repr b).
Proof. destruct b; struct_laws. Qed.
End Elf_Phdr.

Module Elf_Nhdr.
Record t := Make { n_namesz : Z; n_descsz : Z; n_type : Z }.
Definition repr : Repr t :=
  struct (uint 4 ⊗ uint 4 ⊗ uint 4) (fun x => (n_namesz x, n_descsz x, n_type x)) (fun '(x0, x1, x2) => Make x0 x1 x2).
#[global] Instance repr_laws : ReprLaws repr.
Proof. struct_laws. Qed.
End Elf_Nhdr.

(** The constants of <elf.h> that are used. *)
Definition EI_NIDENT : Z := 16.
Definition PT_LOAD : Z := 1.
Definition PT_DYNAMIC : Z := 2.
Definition PT_NOTE : Z := 4.
Definition ET_EXEC : Z := 2.
Definition ET_DYN : Z := 3.
Definition EV_CURRENT : Z := 1.
Definition ELFDATA2LSB : Z := 1.
Definition elf_class (is_64_bit : bool) : Z := if is_64_bit then 2 else 1.

(** ** ProgramHeaderTableSpecific *)

(** [VerifyLoadSegments]; [last_vaddr] is that of the load segment before, if any. *)
Fixpoint VerifyLoadSegments (is_64_bit : bool) (last_vaddr : option Z) (table : list Elf_Phdr.t) : bool :=
  match table with
  | [] => true
  | header :: table' =>
      if Elf_Phdr.p_type header =? PT_LOAD then
        if negb (CheckedAddressRange.IsValid (CheckedAddressRange.SetRange is_64_bit (Elf_Phdr.p_vaddr header) (Elf_Phdr.p_memsz header)))
        then false
        else if match last_vaddr with Some last => Elf_Phdr.p_vaddr header <=? last | None => false end then false
        else VerifyLoadSegments is_64_bit (Some (Elf_Phdr.p_vaddr header)) table'
      else VerifyLoadSegments is_64_bit last_vaddr table'
  end.
Definition GetPreferredElfHeaderAddress (table : list Elf_Phdr.t) : option Z :=
  Elf_Phdr.p_vaddr <$> List.find (fun h => (Elf_Phdr.p_type h =? PT_LOAD) && (Elf_Phdr.p_offset h =? 0)) table.
(** The loop of [GetPreferredLoadedMemoryRange]: [preferred_base] and [preferred_end]. *)
Fixpoint preferred_range (table : list Elf_Phdr.t) (found : option (Z * Z)) : option (Z * Z) :=
  match table with
  | [] => found
  | header :: table' =>
      if Elf_Phdr.p_type header =? PT_LOAD then
        let preferred_base := match found with Some (b, _) => b | None => Elf_Phdr.p_vaddr header end in
        preferred_range table' (Some (preferred_base, u64 (Elf_Phdr.p_vaddr header + Elf_Phdr.p_memsz header)))
      else preferred_range table' found
  end.
Definition GetPreferredLoadedMemoryRange (table : list Elf_Phdr.t) : option (Z * Z) :=
  match preferred_range table None with
  | Some (preferred_base, preferred_end) => Some (preferred_base, u64 (preferred_end - preferred_base))
  | None => None
  end.
Definition GetProgramHeader (type : Z) (table : list Elf_Phdr.t) : option Elf_Phdr.t :=
  List.find (fun h => Elf_Phdr.p_type h =? type) table.
Definition GetDynamicSegment (table : list Elf_Phdr.t) : option (Z * Z) :=
  phdr ← GetProgramHeader PT_DYNAMIC table; Some (Elf_Phdr.p_vaddr phdr, Elf_Phdr.p_memsz phdr).
(** The loop of [GetNoteSegment], at [index]: the index after the segment, its address and size. *)
Fixpoint note_segment_from (index : nat) (table : list Elf_Phdr.t) : option (nat * Z * Z) :=
  match table with
  | [] => None
  | h :: table' =>
      if (Elf_Phdr.p_type h =? PT_NOTE) && negb (Elf_Phdr.p_vaddr h =? 0)
      then Some (S index, Elf_Phdr.p_vaddr h, Elf_Phdr.p_memsz h)
      else note_segment_from (S index) table'
  end.
Definition GetNoteSegment (table : list Elf_Phdr.t) (start_index : nat) : option (nat * Z * Z) :=
  note_segment_from start_index (drop start_index table).

(** ** ElfImageReader *)

(** An [InitializationState] with what it guards: uninitialized, invalid, or valid. *)
Inductive InitializationState (A : Type) :=
  | uninitialized
  | invalid
  | is_valid (x : A).
Arguments uninitialized {A}.
Arguments invalid {A}.
Arguments is_valid {A} x.

Section Reader.
  Context {M : Type} `{ProcessMemory M}.

(** The two headers of the union are one; the dynamic array is a map of its values, and
    the symbol table its address and its number of entries. *)
Record ElfImageReader := MkElfImageReader {
  header_ : Elf_Ehdr.t;
  ehdr_address_ : Z;
  load_bias_ : Z;
  elf_memory_ : ProcessMemoryRange M;
  program_headers_ : list Elf_Phdr.t;
  dynamic_array_ : InitializationState (gmap Z Z);
  symbol_table_ : InitializationState (Z * Z)
}.

(** [ProgramHeaderTableSpecific::Initialize], which [InitializeProgramHeaders] calls. *)
Definition InitializeTable (memory : ProcessMemoryRange M) (address num_segments : Z) : outcome (list Elf_Phdr.t) :=
  let R := array (Z.to_nat num_segments) (Elf_Phdr.repr (Is64Bit memory)) in
  step! d := RangeRead memory address (Z.of_nat (sizeof R)) in
  let table := of_bytes R d in
  if VerifyLoadSegments (Is64Bit memory) None table then Done table else Failed.
Definition InitializeProgramHeaders (memory : ProcessMemoryRange M) (ehdr_address : Z) (header : Elf_Ehdr.t) : outcome (list Elf_Phdr.t) :=
  if negb (Elf_Ehdr.e_phentsize header =? Z.of_nat (sizeof (Elf_Phdr.repr (Is64Bit memory)))) then Failed
  else InitializeTable memory (u64 (ehdr_address + Elf_Ehdr.e_phoff header)) (Elf_Ehdr.e_phnum header).

(** The tests of the identification, and of the header (VERIFY_HEADER). *)
Definition verify_ident (is_64_bit : bool) (e_ident : bytes) : bool :=
  bool_decide (take 4 e_ident = [0x7f; 0x45; 0x4c; 0x46]) && bool_decide (e_ident !! 4%nat = Some (elf_class is_64_bit)) &&
  bool_decide (e_ident !! 5%nat = Some ELFDATA2LSB) && bool_decide (e_ident !! 6%nat = Some EV_CURRENT).
Definition verify_header (is_64_bit : bool) (header : Elf_Ehdr.t) : bool :=
  ((Elf_Ehdr.e_type header =? ET_EXEC) || (Elf_Ehdr.e_type header =? ET_DYN)) && (Elf_Ehdr.e_version header =? EV_CURRENT) &&
  (Elf_Ehdr.e_ehsize header =? Z.of_nat (sizeof (Elf_Ehdr.repr is_64_bit))).

Definition Initialize (memory : ProcessMemoryRange M) (address : Z) : outcome ElfImageReader :=
  step! memory_ := lift (InitializeCopy memory) in
  let is_64_bit := Is64Bit memory_ in
  step! e_ident := RangeRead memory_ address EI_NIDENT in
  if negb (verify_ident is_64_bit e_ident) then Failed
  else
    let R := Elf_Ehdr.repr is_64_bit in
    step! d := RangeRead memory_ address (Z.of_nat (sizeof R)) in
    let header := of_bytes R d in
    if negb (verify_header is_64_bit header) then Failed
    else
      step! program_headers := InitializeProgramHeaders memory_ address header in
      step! preferred_ehdr_address := lift (GetPreferredElfHeaderAddress program_headers) in
      let load_bias := cast int64_t (address - preferred_ehdr_address) in
      step! (base_address, loaded_size) := lift (GetPreferredLoadedMemoryRange program_headers) in
      let base_address := u64 (base_address + load_bias) in
      step! memory_ := lift (RestrictRange memory_ base_address loaded_size) in
      let phdr_address := u64 (address + Elf_Ehdr.e_phoff header) in
      let phdr_size := Z.of_nat (length program_headers * sizeof (Elf_Phdr.repr is_64_bit)) in
      let range := CheckedAddressRange.SetRange is_64_bit base_address loaded_size in
      if negb (CheckedAddressRange.ContainsRange range (CheckedAddressRange.SetRange is_64_bit address (Z.of_nat (sizeof R)))) then Failed
      else if negb (CheckedAddressRange.ContainsRange range (CheckedAddressRange.SetRange is_64_bit phdr_address phdr_size)) then Failed
      else Done (MkElfImageReader header address load_bias memory_ program_headers uninitialized uninitialized).

Definition Address (e : ElfImageReader) : Z := CheckedAddressRange.Base (range_ (elf_memory_ e)).
Definition Size (e : ElfImageReader) : Z := CheckedAddressRange.Size (range_ (elf_memory_ e)).
Definition FileType (e : ElfImageReader) : Z := Elf_Ehdr.e_type (header_ e).
Definition GetDynamicArrayAddress (e : ElfImageReader) : option Z :=
  '(dyn_segment_address, _) ← GetDynamicSegment (program_headers_ e); Some (u64 (dyn_segment_address + load_bias_ e)).
Definition GetProgramHeaderTableAddress (e : ElfImageReader) : Z := u64 (ehdr_address_ e + Elf_Ehdr.e_phoff (header_ e)).
End Reader.
Arguments ElfImageReader : clear implicits.

(** ** The load segments *)

Definition loads (table : list Elf_Phdr.t) : list Elf_Phdr.t := filter (fun h => Elf_Phdr.p_type h = PT_LOAD) table.
Definition segment_end (h : Elf_Phdr.t) : Z := Elf_Phdr.p_vaddr h + Elf_Phdr.p_memsz h.
Definition loads_ordered (is_64_bit : bool) (l : list Elf_Phdr.t) : Prop :=
  StronglySorted (fun x y => Elf_Phdr.p_vaddr x < Elf_Phdr.p_vaddr y) l /\
  Forall (fun h => segment_end h < 2 ^ (if is_64_bit then 64 else 32)) l.
Definition phdr_in_range (h : Elf_Phdr.t) : Prop := 0 <= Elf_Phdr.p_vaddr h < 2 ^ 64 /\ 0 <= Elf_Phdr.p_memsz h < 2 ^ 64.

Lemma loads_cons h table :
  loads (h :: table) = if Elf_Phdr.p_type h =? PT_LOAD then h :: loads table else loads table.
Proof. unfold loads. rewrite filter_cons. by destruct (Z.eqb_spec (Elf_Phdr.p_type h) PT_LOAD); [rewrite decide_True|rewrite decide_False]. Qed.
Lemma loads_in_range table : Forall phdr_in_range table -> Forall phdr_in_range (loads table).
Proof. unfold loads. rewrite !Forall_forall. intros Hf h [_ Hin]%list_elem_of_filter. auto. Qed.

Lemma verify_load_segments_spec b last table :
  Forall phdr_in_range table ->
  VerifyLoadSegments b last table = true <->
  loads_ordered b (loads table) /\ from_option (fun last => Forall (fun h => last < Elf_Phdr.p_vaddr h) (loads table)) True last.
Proof.
  intros Ht. revert last. induction Ht as [|h table [Hv Hm] _ IH]; intros last; cbn [VerifyLoadSegments].
  { split; [|done]. intros _. split; [by split; constructor|]. by destruct last; cbn. }
  rewrite loads_cons. destruct (Elf_Phdr.p_type h =? PT_LOAD); [|apply IH].
  pose proof (set_range_is_valid b _ _ Hv Hm) as Hval. fold (segment_end h) in Hval.
  destruct (CheckedAddressRange.IsValid _); cbn [negb].
  2: { split; [done|]. intros [[_ [Hx _]%Forall_cons] _]. by apply Hval in Hx. }
  assert (segment_end h < 2 ^ (if b then 64 else 32)) as Hlt by (by apply Hval).
  assert ((match last with Some l => Elf_Phdr.p_vaddr h <=? l | None => false end) = true <->
    ~ from_option (fun l => l < Elf_Phdr.p_vaddr h) True last) as Hlast.
  { destruct last as [l|]; cbn; [rewrite Z.leb_le; lia|]. split; [done|tauto]. }
  destruct (match last with Some l => _ | None => false end).
  { split; [done|]. intros [_ Hx]. exfalso. apply Hlast; [done|]. destruct last; cbn in *; [|done]. by apply Forall_cons in Hx as [? _]. }
  assert (from_option (fun l => l < Elf_Phdr.p_vaddr h) True last) as Hl.
  { destruct last as [l|]; [|done]. cbn in *. destruct (Z_lt_ge_dec l (Elf_Phdr.p_vaddr h)); [done|]. by assert (false = true) by (apply Hlast; lia). }
  rewrite IH. cbn [from_option]. unfold loads_ordered. rewrite Forall_cons. split.
  - intros [[Hs Hf] Hx]. split; [split; [by constructor|done]|]. destruct last as [l|]; [|done]. cbn in *. constructor; [done|].
    eapply Forall_impl; [exact Hx|]. cbn. lia.
  - intros [[[Hs Hx]%StronglySorted_inv [_ Hf]] _]. done.
Qed.

Lemma preferred_range_spec table found :
  preferred_range table found =
    match loads table with
    | [] => found
    | first :: _ =>
        Some (from_option fst (Elf_Phdr.p_vaddr first) found, u64 (segment_end (List.last (loads table) first)))
    end.
Proof.
  revert found. induction table as [|h table IH]; intros found; [done|]. cbn [preferred_range]. rewrite loads_cons.
  destruct (Elf_Phdr.p_type h =? PT_LOAD); [|apply IH]. rewrite IH. destruct (loads table) as [|h' l] eqn:El.
  - cbn. by destruct found as [[]|].
  - cbn [from_option fst]. replace (List.last (h :: h' :: l) h) with (List.last (h' :: l) h').
    + by destruct found as [[]|].
    + cbn [List.last]. destruct l as [|h'' l]; [done|]. clear. revert h''. induction l as [|x l IH]; intros h''; [done|]. apply IH.
Qed.

Lemma find_loads f table : List.find (fun h => (Elf_Phdr.p_type h =? PT_LOAD) && f h) table = List.find f (loads table).
Proof.
  induction table as [|h table IH]; [done|]. rewrite loads_cons. cbn [List.find]. destruct (Elf_Phdr.p_type h =? PT_LOAD); cbn [andb List.find]; [|done].
  by rewrite IH.
Qed.

Lemma last_in {A} (l : list A) x : List.last (x :: l) x ∈ x :: l.
Proof.
  revert x. induction l as [|y l IH]; intros x; [left|]. right. cbn [List.last]. destruct l as [|z l]; [left|]. 
  replace (List.last (z :: l) x) with (List.last (y :: z :: l) y); [apply IH|]. cbn. clear. revert z. induction l as [|w l IH]; intros z; [done|]. apply IH.
Qed.
Lemma first_below first rest h :
  StronglySorted (fun x y => Elf_Phdr.p_vaddr x < Elf_Phdr.p_vaddr y) (first :: rest) -> h ∈ first :: rest ->
  Elf_Phdr.p_vaddr first <= Elf_Phdr.p_vaddr h.
Proof.
  intros [_ Hf]%StronglySorted_inv [->|Hin]%elem_of_cons; [lia|]. rewrite Forall_forall in Hf. apply Hf in Hin. lia.
Qed.

(** The operations of structures, a field at a time. *)
Lemma struct_valid {A T} (R : Repr T) (fields : A -> T) make x : valid (struct R fields make) x = valid R (fields x).
Proof. done. Qed.
Lemma struct_bytes {A T} (R : Repr T) (fields : A -> T) make x : to_bytes (struct R fields make) x = to_bytes R (fields x).
Proof. done. Qed.
Lemma pair_valid {A B} (R : Repr A) (S : Repr B) a b : valid (R ⊗ S) (a, b) = valid R a && valid S b.
Proof. done. Qed.
Lemma pair_bytes {A B} (R : Repr A) (S : Repr B) a b : to_bytes (R ⊗ S) (a, b) = to_bytes R a ++ to_bytes S b.
Proof. done. Qed.

(** An offset is added modulo 2^64 whatever its sign. *)
Lemma add_offset x y : u64 (x + cast int64_t y) = u64 (x + y).
Proof.
  change (cast int64_t y) with (wrap_signed 64 y). unfold wrap, wrap_signed.
  replace (x + ((y + 2 ^ (64 - 1)) mod 2 ^ 64 - 2 ^ (64 - 1))) with ((y + 2 ^ (64 - 1)) mod 2 ^ 64 + (x - 2 ^ (64 - 1))) by lia.
  rewrite Zplus_mod_idemp_l. f_equal. lia.
Qed.

Section Initialized.
  Context {M : Type} `{ProcessMemoryLaws M} `{!ProcessMemoryProgress M}.

Lemma copy_of_range (r : ProcessMemoryRange M) lo hi : covers r lo hi -> InitializeCopy r = Some r.
Proof.
  intros Hr. pose proof (covers_valid r lo hi Hr) as Hv. destruct Hr as (Er & Hlo & Hhi). pose proof (pointer_width (Is64Bit r)) as Hw.
  unfold InitializeCopy, InitializeRange. fold (Is64Bit r). rewrite Er in Hv |- *.
  destruct (CheckedAddressRange.set_range_base (Is64Bit r) lo (hi - lo)) as [-> ->]; [by apply fits_spec; lia|by apply fits_spec; lia|done|].
  rewrite Hv, <-Er. by destruct r.
Qed.
Lemma restrict_range (r : ProcessMemoryRange M) lo hi base size :
  covers r lo hi -> 0 <= base < 2 ^ 64 -> 0 <= size < 2 ^ 64 ->
  RestrictRange r base size =
    if decide (lo <= base /\ base + size <= hi)
    then Some (MkMemoryRange (memory_ r) (CheckedAddressRange.SetRange (Is64Bit r) base size)) else None.
Proof.
  intros Hr Hb Hs. pose proof (restrict_covers r lo hi base size Hr Hb Hs) as Hx. unfold RestrictRange in *.
  destruct (_ || _); [by rewrite decide_False|]. rewrite decide_True; [done|]. tauto.
Qed.

(** A header and program headers in the memory of a range. *)
Record image_at (r : ProcessMemoryRange M) (lo hi a : Z) (h : Elf_Ehdr.t) (table : list Elf_Phdr.t) : Prop := {
  image_covers : covers r lo hi;
  image_header_in : lo <= a /\ a + Z.of_nat (sizeof (Elf_Ehdr.repr (Is64Bit r))) <= hi;
  image_header : load (memory_ r) a (Z.of_nat (sizeof (Elf_Ehdr.repr (Is64Bit r)))) = Some (to_bytes (Elf_Ehdr.repr (Is64Bit r)) h);
  image_header_valid : valid (Elf_Ehdr.repr (Is64Bit r)) h = true;
  image_count : Elf_Ehdr.e_phnum h = Z.of_nat (length table);
  image_table_in : a + Elf_Ehdr.e_phoff h + Z.of_nat (length table * sizeof (Elf_Phdr.repr (Is64Bit r))) <= hi;
  image_table : load (memory_ r) (a + Elf_Ehdr.e_phoff h) (Z.of_nat (length table * sizeof (Elf_Phdr.repr (Is64Bit r)))) =
    Some (to_bytes (array (length table) (Elf_Phdr.repr (Is64Bit r))) table);
  image_table_valid : valid (array (length table) (Elf_Phdr.repr (Is64Bit r))) table = true
}.

(** Where the image is: the first segment that has the header says by how much the image
    was moved, and the load segments reach from the first to the end of the last. *)
Definition placed (a : Z) (table : list Elf_Phdr.t) (bias base size : Z) : Prop :=
  exists with_header first rest,
    List.find (fun h => Elf_Phdr.p_offset h =? 0) (loads table) = Some with_header /\ loads table = first :: rest /\
    bias = a - Elf_Phdr.p_vaddr with_header /\ base = Elf_Phdr.p_vaddr first + bias /\
    size = segment_end (List.last (loads table) first) - Elf_Phdr.p_vaddr first.
(** The image is of the kind that is read, and lies in the range with its headers. *)
Definition image_ok (is_64_bit : bool) (lo hi a : Z) (h : Elf_Ehdr.t) (table : list Elf_Phdr.t) (base size : Z) : Prop :=
  let phdr_size := Z.of_nat (sizeof (Elf_Phdr.repr is_64_bit)) in
  verify_ident is_64_bit (Elf_Ehdr.e_ident h) = true /\ verify_header is_64_bit h = true /\ Elf_Ehdr.e_phentsize h = phdr_size /\
  loads_ordered is_64_bit (loads table) /\ lo <= base <= a /\ base + size <= hi /\
  a + Z.of_nat (sizeof (Elf_Ehdr.repr is_64_bit)) <= base + size /\
  a + Elf_Ehdr.e_phoff h + Z.of_nat (length table) * phdr_size <= base + size.

Lemma image_phdrs r lo hi a h table :
  image_at r lo hi a h table -> Forall phdr_in_range table.
Proof.
  intros Hi. pose proof (image_table_valid _ _ _ _ _ _ Hi) as Hv. cbn [valid array] in Hv. apply andb_true_iff in Hv as [_ Hv].
  rewrite forallb_forall in Hv. apply Forall_forall. intros x Hin%list_elem_of_In. apply Hv in Hin. unfold phdr_in_range.
  destruct (Is64Bit r); cbn [Elf_Phdr.repr] in Hin; rewrite struct_valid, !pair_valid, !andb_true_iff in Hin;
    cbn [valid uint] in Hin; rewrite !fits_spec in Hin; lia.
Qed.

Lemma bytes_of_array n l : valid (array n (uint 1)) l = true -> to_bytes (array n (uint 1)) l = l /\ length l = n.
Proof.
  cbn [valid array to_bytes uint]. rewrite andb_true_iff, Nat.eqb_eq. intros [El Hl]. split; [|done]. clear El.
  induction l as [|x l IH]; [done|]. cbn [forallb] in Hl. apply andb_true_iff in Hl as [Hx Hl]. apply fits_spec in Hx.
  cbn [map concat]. rewrite IH by done. change (le_bytes 1 x) with [u8 x]. by rewrite wrap_small.
Qed.
Lemma header_fields b h :
  valid (Elf_Ehdr.repr b) h = true ->
  valid (array 16 (uint 1)) (Elf_Ehdr.e_ident h) = true /\ valid (elf_address b) (Elf_Ehdr.e_phoff h) = true.
Proof. unfold Elf_Ehdr.repr. rewrite struct_valid, !pair_valid, !andb_true_iff. tauto. Qed.
Lemma ident_of_header b h :
  valid (Elf_Ehdr.repr b) h = true -> take 16 (to_bytes (Elf_Ehdr.repr b) h) = Elf_Ehdr.e_ident h.
Proof.
  intros [Hi _]%header_fields. destruct (bytes_of_array _ _ Hi) as [E El].
  unfold Elf_Ehdr.repr. rewrite struct_bytes, !pair_bytes, E, <-!app_assoc. by rewrite take_app_length'.
Qed.
Lemma header_phoff b h : valid (Elf_Ehdr.repr b) h = true -> 0 <= Elf_Ehdr.e_phoff h < 2 ^ 64.
Proof. intros [_ Hp]%header_fields. destruct b; apply fits_spec in Hp; cbn in Hp; lia. Qed.

(** The program headers, if they are as they have to be. *)
Lemma initialize_program_headers r lo hi a h table :
  image_at r lo hi a h table ->
  InitializeProgramHeaders r a h =
    if (Elf_Ehdr.e_phentsize h =? Z.of_nat (sizeof (Elf_Phdr.repr (Is64Bit r)))) && VerifyLoadSegments (Is64Bit r) None table
    then Done table else Failed.
Proof.
  intros Hi. destruct Hi as [Hr [Hla Hah] _ Hv Hc Hth Ht Htv]. pose proof (header_phoff _ _ Hv) as Hp.
  unfold InitializeProgramHeaders. destruct (_ =? _); [|done]. cbn [negb andb]. unfold InitializeTable.
  rewrite Hc, Nat2Z.id. cbn [sizeof array]. pose proof Hr as (_ & Hlo & Hhi). pose proof (pointer_width (Is64Bit r)).
  rewrite wrap_small by lia. rewrite (range_read_loads r lo hi _ _ Hr), Ht by lia. cbn [lift outcome_bind].
  by rewrite of_bytes_exact by (apply _ || done).
Qed.

(** What [Initialize] does when the headers can be read. *)
Lemma initialize_reads r lo hi a h table :
  image_at r lo hi a h table ->
  Initialize r a =
    if negb (verify_ident (Is64Bit r) (Elf_Ehdr.e_ident h)) then Failed
    else if negb (verify_header (Is64Bit r) h) then Failed
    else
      step! program_headers := InitializeProgramHeaders r a h in
      step! preferred_ehdr_address := lift (GetPreferredElfHeaderAddress program_headers) in
      let load_bias := cast int64_t (a - preferred_ehdr_address) in
      step! (base_address, loaded_size) := lift (GetPreferredLoadedMemoryRange program_headers) in
      let base_address := u64 (base_address + load_bias) in
      step! memory_ := lift (RestrictRange r base_address loaded_size) in
      let phdr_address := u64 (a + Elf_Ehdr.e_phoff h) in
      let phdr_size := Z.of_nat (length program_headers * sizeof (Elf_Phdr.repr (Is64Bit r))) in
      let range := CheckedAddressRange.SetRange (Is64Bit r) base_address loaded_size in
      if negb (CheckedAddressRange.ContainsRange range (CheckedAddressRange.SetRange (Is64Bit r) a (Z.of_nat (sizeof (Elf_Ehdr.repr (Is64Bit r)))))) then Failed
      else if negb (CheckedAddressRange.ContainsRange range (CheckedAddressRange.SetRange (Is64Bit r) phdr_address phdr_size)) then Failed
      else Done (MkElfImageReader h a load_bias memory_ program_headers uninitialized uninitialized).
Proof.
  intros Hi. destruct Hi as [Hr [Hla Hah] Hh Hv _ _ _ _]. unfold Initialize. rewrite (copy_of_range r lo hi Hr). cbn [lift outcome_bind].
  assert (16 <= Z.of_nat (sizeof (Elf_Ehdr.repr (Is64Bit r)))) as H16 by (destruct (Is64Bit r); cbn; lia).
  assert (load (memory_ r) a EI_NIDENT = Some (Elf_Ehdr.e_ident h)) as Hid.
  { rewrite <-(ident_of_header (Is64Bit r) h Hv). pose proof (length_to_bytes (R := Elf_Ehdr.repr (Is64Bit r)) h Hv) as El.
    revert Hh El. generalize (to_bytes (Elf_Ehdr.repr (Is64Bit r)) h) as d. revert H16. generalize (sizeof (Elf_Ehdr.repr (Is64Bit r))) as n.
    clear. intros n H16 d Hd El. rewrite <-(take_drop 16 d) in Hd. apply load_app in Hd as [Hd _]; [|len_lia].
    by replace (length (take 16 d)) with 16%nat in Hd by len_lia. }
  rewrite (range_read_loads r lo hi a EI_NIDENT Hr), Hid by (unfold EI_NIDENT; lia). cbn [lift outcome_bind].
  rewrite (range_read_loads r lo hi a _ Hr), Hh by lia. cbn [lift outcome_bind]. by rewrite of_bytes_exact by (apply _ || done).
Qed.

(** The placement that the load segments determine. *)
Lemma placement r lo hi a h table :
  image_at r lo hi a h table -> loads_ordered (Is64Bit r) (loads table) ->
  match GetPreferredElfHeaderAddress table with
  | None => forall bias base size, ~ placed a table bias base size
  | Some preferred =>
      exists base size, 0 <= preferred < 2 ^ 64 /\ 0 <= size < 2 ^ 64 /\ a - preferred <= base <= a /\
        GetPreferredLoadedMemoryRange table = Some (base - (a - preferred), size) /\
        forall bias' base' size', placed a table bias' base' size' <-> bias' = a - preferred /\ base' = base /\ size' = size
  end.
Proof.
  intros Hi [Hs Hf]. pose proof (loads_in_range _ (image_phdrs _ _ _ _ _ _ Hi)) as Hr. pose proof (pointer_width (Is64Bit r)) as Hw.
  unfold GetPreferredElfHeaderAddress, GetPreferredLoadedMemoryRange, placed. rewrite find_loads, preferred_range_spec.
  destruct (List.find _ (loads table)) as [h0|] eqn:E0; cbn [fmap option_fmap option_map].
  2: { by intros bias base size (? & ? & ? & ? & _). }
  apply find_some in E0 as [Hin%list_elem_of_In _]. destruct (loads table) as [|first rest] eqn:El; [by apply not_elem_of_nil in Hin|].
  cbn [from_option]. pose proof (last_in rest first) as Hlast. set (last := List.last _ _) in *.
  pose proof (first_below _ _ _ Hs Hin) as H1. pose proof (first_below _ _ _ Hs Hlast) as H2.
  rewrite Forall_forall in Hf, Hr. pose proof (Hf last Hlast) as H3. pose proof (Hr last Hlast) as [H4 H5]. pose proof (Hr h0 Hin) as [H6 _].
  pose proof (Hr first ltac:(left)) as [H7 _]. unfold segment_end in *. cbn beta in *.
  pose proof (Z.lt_le_trans _ _ _ H3 Hw) as H8. clear H3 Hw.
  exists (Elf_Phdr.p_vaddr first + (a - Elf_Phdr.p_vaddr h0)), (Elf_Phdr.p_vaddr last + Elf_Phdr.p_memsz last - Elf_Phdr.p_vaddr first).
  split; [lia|]. split; [lia|]. split; [lia|]. split.
  - rewrite (wrap_small 64 (_ + _)), wrap_small by lia. f_equal. f_equal; lia.
  - intros bias' base' size'. split; [|intros (-> & -> & ->); by exists h0, first, rest].
    intros (h0' & first' & rest' & [= <-] & [= <- <-] & -> & -> & ->). done.
Qed.

(** The tests of the range, for a placement in the integers. *)
Lemma initialize_placed r lo hi a h table preferred base size :
  image_at r lo hi a h table -> 0 <= preferred < 2 ^ 64 -> 0 <= size < 2 ^ 64 -> a - preferred <= base <= a ->
  let b := Is64Bit r in
  let base_address := u64 (base - (a - preferred) + cast int64_t (a - preferred)) in
  let range := CheckedAddressRange.SetRange b base_address size in
  let phdr_size := Z.of_nat (length table * sizeof (Elf_Phdr.repr b)) in
  (step! memory := lift (RestrictRange r base_address size) in
   if negb (CheckedAddressRange.ContainsRange range (CheckedAddressRange.SetRange b a (Z.of_nat (sizeof (Elf_Ehdr.repr b))))) then Failed
   else if negb (CheckedAddressRange.ContainsRange range (CheckedAddressRange.SetRange b (u64 (a + Elf_Ehdr.e_phoff h)) phdr_size)) then Failed
   else Done memory) =
  if decide (lo <= base /\ base + size <= hi /\ a + Z.of_nat (sizeof (Elf_Ehdr.repr b)) <= base + size /\
             a + Elf_Ehdr.e_phoff h + phdr_size <= base + size)
  then Done (MkMemoryRange (memory_ r) (CheckedAddressRange.SetRange b base size)) else Failed.
Proof.
  intros Hi Hp Hs Hb b base_address range phdr_size. destruct Hi as [Hr [Hla Hah] _ Hv _ Hth _ _].
  pose proof (header_phoff _ _ Hv) as Hph. pose proof Hr as (_ & Hlo & Hhi). pose proof (pointer_width b) as Hw. fold b in Hah, Hth, Hhi.
  assert (base_address = u64 base) as Eb. { unfold base_address. rewrite add_offset. f_equal. lia. }
  assert (0 < Z.of_nat (sizeof (Elf_Ehdr.repr b))) as Heh by (by destruct b).
  assert (hi < 2 ^ 64) as Hhi64 by (eapply Z.lt_le_trans; [exact Hhi|done]).
  unfold range. rewrite Eb. rewrite (restrict_range r lo hi _ _ Hr) by (done || by apply wrap_bound).
  destruct (decide (0 <= base)) as [H0b|H0b].
  - rewrite (wrap_small 64 base) by lia. destruct (decide (lo <= base /\ base + size <= hi)) as [[H1 H2]|Hout].
    2: { cbn [lift outcome_bind]. rewrite decide_False; [done|]. intros (? & ? & _). by apply Hout. }
    cbn [lift outcome_bind]. rewrite (wrap_small 64 (a + _)) by lia.
    pose proof (set_range_contains_range b base size a (Z.of_nat (sizeof (Elf_Ehdr.repr b)))) as C1.
    pose proof (set_range_contains_range b base size (a + Elf_Ehdr.e_phoff h) phdr_size) as C2. fold phdr_size in Hth.
    specialize (C1 ltac:(lia) ltac:(lia) ltac:(lia) ltac:(lia) ltac:(lia) ltac:(lia)).
    specialize (C2 ltac:(lia) ltac:(lia) ltac:(lia) ltac:(lia) ltac:(lia) ltac:(lia)).
    destruct (CheckedAddressRange.ContainsRange _ (CheckedAddressRange.SetRange b a _)); cbn [negb].
    2: { rewrite decide_False; [done|]. intros (_ & _ & Hx & _). assert (false = true) by (apply C1; lia). done. }
    destruct (CheckedAddressRange.ContainsRange _ _); cbn [negb].
    2: { rewrite decide_False; [done|]. intros (_ & _ & _ & Hx). assert (false = true) by (apply C2; lia). done. }
    destruct (proj1 C1 eq_refl). destruct (proj1 C2 eq_refl). rewrite decide_True by (split_and!; lia). done.
  - assert (u64 base = base + 2 ^ 64) as -> by (unfold wrap; symmetry; apply (Z.mod_unique _ _ (-1)); lia).
    rewrite (decide_False (P := lo <= base /\ _)) by lia.
    destruct (decide (lo <= base + 2 ^ 64 /\ base + 2 ^ 64 + size <= hi)) as [[H1 H2]|_]; [|done]. cbn [lift outcome_bind].
    pose proof (set_range_contains_range b (base + 2 ^ 64) size a (Z.of_nat (sizeof (Elf_Ehdr.repr b)))) as C1.
    specialize (C1 ltac:(lia) ltac:(lia) ltac:(lia) ltac:(lia) ltac:(lia) ltac:(lia)).
    destruct (CheckedAddressRange.ContainsRange _ (CheckedAddressRange.SetRange b a _)); [|done]. destruct (proj1 C1 eq_refl). lia.
Qed.

(** C23.  [ElfImageReader::Initialize] on memory that holds an ELF header and program
    headers: it succeeds if and only if the image is one of the process' class, its load
    segments are in order and end in the address space, and the part of memory that they
    take up, moved by as much as the header was, lies in the range that may be read and
    contains the header and the program headers, computed without wrapping around; the
    reader then reads in no other part of memory. *)
Theorem elf_image_initialized (r : ProcessMemoryRange M) lo hi a h table :
  image_at r lo hi a h table ->
  Initialize r a <> Undefined /\
  forall e, Initialize r a = Done e <->
    exists bias base size, placed a table bias base size /\ image_ok (Is64Bit r) lo hi a h table base size /\
      e = MkElfImageReader h a (cast int64_t bias)
            (MkMemoryRange (memory_ r) (CheckedAddressRange.SetRange (Is64Bit r) base size)) table uninitialized uninitialized.
Proof.
  intros Hi. rewrite (initialize_reads r lo hi a h table Hi), (initialize_program_headers r lo hi a h table Hi).
  unfold image_ok. pose proof (image_phdrs _ _ _ _ _ _ Hi) as Hph.
  pose proof (verify_load_segments_spec (Is64Bit r) None table Hph) as Hv. cbn [from_option] in Hv.
  destruct (verify_ident _ _); cbn [negb]; [|split; [done|]; intros e; split; [done|]; by intros (? & ? & ? & _ & (? & _) & _)].
  destruct (verify_header _ _); cbn [negb]; [|split; [done|]; intros e; split; [done|]; by intros (? & ? & ? & _ & (_ & ? & _) & _)].
  destruct (Z.eqb_spec (Elf_Ehdr.e_phentsize h) (Z.of_nat (sizeof (Elf_Phdr.repr (Is64Bit r))))) as [Es|Es]; cbn [andb].
  2: { split; [done|]. intros e. split; [done|]. by intros (? & ? & ? & _ & (_ & _ & ? & _) & _). }
  destruct (VerifyLoadSegments _ _ _); cbn [outcome_bind].
  2: { split; [done|]. intros e. split; [done|]. intros (bias & base & size & _ & (_ & _ & _ & Ho & _) & _). by assert (false = true) by (by apply Hv). }
  destruct (proj1 Hv eq_refl) as [Ho _]. pose proof (placement r lo hi a h table Hi Ho) as Hpl.
  destruct (GetPreferredElfHeaderAddress table) as [preferred|]; cbn [lift outcome_bind].
  2: { split; [done|]. intros e. split; [done|]. intros (bias & base & size & Hx & _). by apply Hpl in Hx. }
  destruct Hpl as (base & size & Hp & Hs & Hb & -> & Hpl). cbn [lift outcome_bind].
  pose proof (initialize_placed r lo hi a h table preferred base size Hi Hp Hs Hb) as Hx. cbn zeta in Hx.
  match type of Hx with ?lhs = _ =>
    match goal with |- ?g <> Undefined /\ _ =>
      assert (g = step! memory := lhs in
        Done (MkElfImageReader h a (cast int64_t (a - preferred)) memory table uninitialized uninitialized)) as ->
    end
  end.
  { destruct (RestrictRange r _ size); cbn [lift outcome_bind]; [|done]. by repeat case_match. }
  rewrite Hx. clear Hx. case_decide as Hc; cbn [outcome_bind].
  - split; [done|]. intros e. split.
    + intros [= <-]. exists (a - preferred), base, size. rewrite Hpl. split_and!; try done; lia.
    + intros (bias & base' & size' & (-> & -> & ->)%Hpl & _ & ->). done.
  - split; [done|]. intros e. split; [done|]. intros (bias & base' & size' & (-> & -> & ->)%Hpl & Hok & _).
    exfalso. apply Hc. split_and!; try apply Hok. destruct Hok as (_ & _ & _ & _ & _ & _ & _ & Hok). lia.
Qed.
End Initialized.

(** ** An example *)

(** An image of one load segment, which has the headers. *)
Definition example_elf_header : Elf_Ehdr.t :=
  Elf_Ehdr.Make [0x7f; 0x45; 0x4c; 0x46; 2; 1; 1; 0; 0; 0; 0; 0; 0; 0; 0; 0] ET_DYN 62 1 0 64 0 0 64 56 1 0 0 0.
Definition example_load : Elf_Phdr.t := Elf_Phdr.Make PT_LOAD 5 0 0 0 120 120 4096.
Definition example_elf_memory : Memory :=
  [(65536, to_bytes (Elf_Ehdr.repr true) example_elf_header); (65600, to_bytes (array 1 (Elf_Phdr.repr true)) [example_load])].
Definition example_elf_range : ProcessMemoryRange Memory := MkMemoryRange example_elf_memory (CheckedAddressRange.SetRange true 65536 4096).

Lemma elf_image_initialized_witness :
  exists e, Initialize example_elf_range 65536 = Done e /\ Address e = 65536 /\ Size e = 120.
Proof.
  destruct (elf_image_initialized example_elf_range 65536 69632 65536 example_elf_header [example_load]) as [_ H].
  - split; by vm_compute.
  - eexists. split.
    + apply H. exists 65536, 65536, 120. split; [by exists example_load, example_load, []|]. split; [|reflexivity].
      split; [by vm_compute|]. split; [by vm_compute|]. split; [by vm_compute|].
      split; [split; repeat constructor|]. split; [lia|]. split; [lia|]. split; [cbn; lia|]. cbn. lia.
    + by vm_compute.
Defined.
