(* ===== verification/ElfNotes.v ===== *)
(** * The notes of an ELF image (snapshot/elf/elf_image_reader.cc)

    [ElfImageReader::NoteReader] goes through the notes of the note segments of an image,
    one at each call of [NextNote], and can be told to pass over notes of another name or
    type.  [NextNote] is shown to end whatever is in memory, and to find the notes that are
    there, in order. *)

From S2P Require Import Prelude.
From S2P Require Import Numeric.
From S2P Require Import Structs.
From S2P Require Import ProcessMemory.
From S2P Require Import ElfImage.
#[local] Open Scope crashpad_scope.

(** [NoteReader::Result], with what a call that succeeds gives. *)
Inductive NoteResult :=
  | kError
  | kSuccess (name : bytes) (type : Z) (desc : bytes) (desc_address : Z)
  | kNoMoreNotes.

(** [base::CheckAdd] of 64 bits, and [CHECKED_PAD]. *)
Definition CheckAdd (x y : Z) : option Z := if x + y <? 2 ^ 64 then Some (x + y) else None.
Definition CHECKED_PAD (x : Z) : option Z := s ← CheckAdd x 3; Some (Z.land s (u64 (Z.lnot 3))).

Definition kMaxMaxNoteSize : Z := 16384.

(** A name without the NUL that has to end it, unless it is empty. *)
Definition pop_nul (name : bytes) : option bytes :=
  match last name with
  | None => Some []
  | Some c => if c =? 0 then Some (take (length name - 1) name) else None
  end.

Section NoteReader.
  Context {M : Type} `{ProcessMemory M}.

Record NoteReader := MkNoteReader {
  current_address_ : Z;
  segment_end_address_ : Z;
  segment_range_ : option (ProcessMemoryRange M);
  phdr_index_ : nat;
  max_note_size_ : Z;
  name_filter_ : bytes;
  type_filter_ : Z;
  use_filter_ : bool;
  is_valid_ : bool
}.
Definition new_note_reader (max_note_size : Z) (name_filter : bytes) (type_filter : Z) (use_filter : bool) : outcome NoteReader :=
  if negb (max_note_size <? kMaxMaxNoteSize) then Undefined
  else Done (MkNoteReader 0 0 None 0 (Z.min kMaxMaxNoteSize max_note_size) name_filter type_filter use_filter true).
Definition Notes (max_note_size : Z) : outcome NoteReader := new_note_reader max_note_size [] 0 false.
Definition NotesWithNameAndType (name : bytes) (type max_note_size : Z) : outcome NoteReader := new_note_reader max_note_size name type true.

Definition set_current (r : NoteReader) (x : Z) : NoteReader :=
  MkNoteReader x (segment_end_address_ r) (segment_range_ r) (phdr_index_ r) (max_note_size_ r) (name_filter_ r) (type_filter_ r)
    (use_filter_ r) (is_valid_ r).
Definition set_segment (r : NoteReader) (index : nat) (current end_ : Z) (range : option (ProcessMemoryRange M)) : NoteReader :=
  MkNoteReader current end_ range index (max_note_size_ r) (name_filter_ r) (type_filter_ r) (use_filter_ r) (is_valid_ r).
Definition set_invalid (r : NoteReader) : NoteReader :=
  MkNoteReader (current_address_ r) (segment_end_address_ r) (segment_range_ r) (phdr_index_ r) (max_note_size_ r) (name_filter_ r)
    (type_filter_ r) (use_filter_ r) false.

(** The sizes [ReadNote] computes: of the name with its padding, of the note after its
    header, and the end of the note. *)
Definition note_sizes (info : Elf_Nhdr.t) (current segment_end : Z) : option (Z * Z * Z) :=
  padded_namesz ← CHECKED_PAD (Elf_Nhdr.n_namesz info);
  padded_descsz ← CHECKED_PAD (Elf_Nhdr.n_descsz info);
  note_size ← CheckAdd padded_namesz padded_descsz;
  end_of_note_candidate ← CheckAdd current note_size;
  end_of_note ← CHECKED_PAD end_of_note_candidate;
  Some (padded_namesz, note_size, Z.min end_of_note segment_end).

(** [ReadNote]: its result, [retry_], and the reader. *)
Definition ReadNote (r : NoteReader) : outcome (NoteResult * bool * NoteReader) :=
  match segment_range_ r with
  | None => Undefined
  | Some range =>
      if negb (current_address_ r <? segment_end_address_ r) then Undefined
      else
        match RangeRead range (current_address_ r) (Z.of_nat (sizeof Elf_Nhdr.repr)) with
        | Undefined => Undefined
        | Failed => Done (kError, false, r)
        | Done d =>
            let info := of_bytes Elf_Nhdr.repr d in
            let current := u64 (current_address_ r + Z.of_nat (sizeof Elf_Nhdr.repr)) in
            match note_sizes info current (segment_end_address_ r) with
            | None => Done (kError, false, set_current r current)
            | Some (padded_namesz, note_size, end_of_note) =>
                if max_note_size_ r <? note_size then Done (kError, true, set_current r end_of_note)
                else if use_filter_ r && negb (Elf_Nhdr.n_type info =? type_filter_ r) then Done (kError, true, set_current r end_of_note)
                else
                  match RangeRead range current (Elf_Nhdr.n_namesz info) with
                  | Undefined => Undefined
                  | Failed => Done (kError, false, set_current r current)
                  | Done name =>
                      match pop_nul name with
                      | None => Done (kError, false, set_current r current)
                      | Some local_name =>
                          if use_filter_ r && negb (bool_decide (local_name = name_filter_ r))
                          then Done (kError, true, set_current r end_of_note)
                          else
                            let current := u64 (current + padded_namesz) in
                            match RangeRead range current (Elf_Nhdr.n_descsz info) with
                            | Undefined => Undefined
                            | Failed => Done (kError, false, set_current r current)
                            | Done local_desc =>
                                Done (kSuccess local_name (Elf_Nhdr.n_type info) local_desc current, false, set_current r end_of_note)
                            end
                      end
                  end
            end
        end
  end.

(** The loops of [NextNote]; [None] is for fuel that does not suffice. *)
Fixpoint next_note (fuel : nat) (e : ElfImageReader M) (r : NoteReader) : option (outcome (NoteResult * NoteReader)) :=
  match fuel with
  | O => None
  | S f =>
      if current_address_ r =? segment_end_address_ r then
        match GetNoteSegment (program_headers_ e) (phdr_index_ r) with
        | None => Some (Done (kNoMoreNotes, r))
        | Some (index, address, segment_size) =>
            let current := u64 (address + load_bias_ e) in
            let end_ := u64 (current + segment_size) in
            match InitializeCopy (elf_memory_ e) with
            | None => Some (Done (kError, set_segment r index current end_ None))
            | Some copy =>
                match RestrictRange copy current segment_size with
                | None => Some (Done (kError, set_segment r index current end_ (Some copy)))
                | Some range => next_note f e (set_segment r index current end_ (Some range))
                end
            end
        end
      else
        match ReadNote r with
        | Undefined => Some Undefined
        | Failed => Some Failed
        | Done (_, true, r') => next_note f e r'
        | Done (kSuccess name type desc address, false, r') => Some (Done (kSuccess name type desc address, r'))
        | Done (_, false, r') => Some (Done (kError, set_invalid r'))
        end
  end.
Definition NextNote (fuel : nat) (e : ElfImageReader M) (r : NoteReader) : option (outcome (NoteResult * NoteReader)) :=
  if negb (is_valid_ r) then Some (Done (kError, r)) else next_note fuel e r.
End NoteReader.
Arguments NoteReader : clear implicits.

(** ** The end of the loops *)

Lemma checked_pad_spec x :
  0 <= x -> CHECKED_PAD x = if x + 3 <? 2 ^ 64 then Some (4 * ((x + 3) / 4)) else None.
Proof.
  intros Hx. unfold CHECKED_PAD, CheckAdd. destruct (Z.ltb_spec (x + 3) (2 ^ 64)) as [Hlt|]; [|done]. cbn [mbind option_bind].
  f_equal. apply (land_aligned (x + 3) 2); lia.
Qed.
Lemma checked_pad_above x y : 0 <= x -> CHECKED_PAD x = Some y -> x <= y.
Proof.
  intros Hx. rewrite checked_pad_spec by done. destruct (_ <? _); [|done]. intros [= <-].
  pose proof (Z.div_mod (x + 3) 4 ltac:(lia)). pose proof (Z.mod_pos_bound (x + 3) 4 ltac:(lia)). lia.
Qed.
Lemma check_add_above x y z : CheckAdd x y = Some z -> z = x + y.
Proof. unfold CheckAdd. destruct (_ <? _); [|done]. by intros [= <-]. Qed.

Section Ends.
  Context {M : Type} `{ProcessMemoryLaws M}.

Lemma note_sizes_end info current segment_end p n x :
  0 <= Elf_Nhdr.n_namesz info -> 0 <= Elf_Nhdr.n_descsz info -> 0 <= current ->
  note_sizes info current segment_end = Some (p, n, x) -> x = segment_end \/ current <= x < segment_end.
Proof.
  intros Hn Hd Hc. unfold note_sizes. destruct (CHECKED_PAD (Elf_Nhdr.n_namesz info)) as [a|] eqn:Ea; [|done].
  destruct (CHECKED_PAD (Elf_Nhdr.n_descsz info)) as [b|] eqn:Eb; [|done]. cbn [mbind option_bind].
  destruct (CheckAdd a b) as [c|] eqn:Ec; [|done]. cbn [mbind option_bind].
  destruct (CheckAdd current c) as [d|] eqn:Ed; [|done]. cbn [mbind option_bind].
  destruct (CHECKED_PAD d) as [e|] eqn:Ee; [|done]. cbn [mbind option_bind]. intros [= <- <- <-].
  apply checked_pad_above in Ea, Eb; [|done..]. apply check_add_above in Ec, Ed. apply checked_pad_above in Ee; lia.
Qed.

(** A reader whose range, if it has one, is a part of the address space. *)
Definition reader_ok (r : NoteReader M) : Prop :=
  0 <= current_address_ r < 2 ^ 64 /\ segment_end_address_ r < 2 ^ 64 /\
  match segment_range_ r with Some range => exists lo hi, covers range lo hi | None => True end.

Lemma nhdr_nonnegative d :
  Forall is_byte d -> (12 <= length d)%nat ->
  0 <= Elf_Nhdr.n_namesz (of_bytes Elf_Nhdr.repr d) /\ 0 <= Elf_Nhdr.n_descsz (of_bytes Elf_Nhdr.repr d).
Proof.
  intros Hd Hl. pose proof (of_bytes_valid (R := Elf_Nhdr.repr) d Hd Hl) as Hv. unfold Elf_Nhdr.repr at 1 in Hv.
  rewrite struct_valid, !pair_valid, !andb_true_iff in Hv. cbn [valid uint] in Hv. rewrite !fits_spec in Hv. lia.
Qed.

(** A note that is passed over is behind the reader. *)
Lemma read_note_progress r res r' :
  reader_ok r -> ReadNote r = Done (res, true, r') ->
  exists x, r' = set_current r x /\ current_address_ r < x <= segment_end_address_ r.
Proof.
  intros (Hc & _ & Hr) E. unfold ReadNote in E. destruct (segment_range_ r) as [range|] eqn:Er; [|done].
  destruct Hr as (lo & hi & Hcov). destruct (Z.ltb_spec (current_address_ r) (segment_end_address_ r)) as [Hlt|]; [|done]. cbn [negb] in E.
  destruct (RangeRead range (current_address_ r) _) as [|d|] eqn:Ed; [done| |done].
  apply (range_read_sound range lo hi) in Ed as (Hl1 & Hl2 & Hl); [|done..]. pose proof Hcov as (_ & _ & Hhi).
  pose proof (pointer_width (Is64Bit range)) as Hw. pose proof (load_bytes _ _ _ _ Hl) as Hb. apply load_length in Hl.
  set (info := of_bytes Elf_Nhdr.repr d) in *. destruct (nhdr_nonnegative d Hb) as [Hn1 Hn2]; [cbn in Hl; lia|]. fold info in Hn1, Hn2.
  change (Z.of_nat (sizeof Elf_Nhdr.repr)) with 12 in *. rewrite (wrap_small 64 (current_address_ r + 12)) in E by lia.
  destruct (note_sizes info _ _) as [[[p n] x]|] eqn:En; [|done].
  apply note_sizes_end in En; [|done|done|lia].
  assert (forall y : NoteResult, Done (kError, true, set_current r x) = Done (y, true, r') ->
    exists x, r' = set_current r x /\ current_address_ r < x <= segment_end_address_ r) as Hx.
  { intros y [= _ <-]. exists x. split; [done|lia]. }
  destruct (_ <? n); [by eapply Hx|]. destruct (_ && _); [by eapply Hx|]. destruct (RangeRead _ _ _); [done| |done].
  destruct (pop_nul _); [|done]. destruct (_ && _); [by eapply Hx|]. by destruct (RangeRead _ _ _).
Qed.

(** How much there is to read: the rest of a segment, and the segments that follow. *)
Definition segments_work (table : list Elf_Phdr.t) : nat := sum_list (map (fun h => S (Z.to_nat (Elf_Phdr.p_memsz h))) table).
Definition work (e : ElfImageReader M) (r : NoteReader M) : nat :=
  Z.to_nat (segment_end_address_ r - current_address_ r) + segments_work (drop (phdr_index_ r) (program_headers_ e)).

Lemma note_segment_work index table i address size :
  note_segment_from index table = Some (i, address, size) ->
  (index < i)%nat /\ (S (Z.to_nat size) + segments_work (drop (i - index) table) <= segments_work table)%nat /\
  exists h, h ∈ table /\ Elf_Phdr.p_vaddr h = address /\ Elf_Phdr.p_memsz h = size.
Proof.
  revert index. induction table as [|h table IH]; intros index; cbn [note_segment_from]; [done|]. destruct (_ && _).
  - intros [= <- <- <-]. replace (S index - index)%nat with 1%nat by lia. cbn [drop segments_work map sum_list]. split_and!; [lia|done|].
    exists h. split_and!; [left|done|done].
  - intros (Hi & Hw & h' & Hin & Hh)%IH. replace (i - index)%nat with (S (i - S index)) by lia. cbn [drop].
    unfold segments_work in *. cbn [map sum_list]. split_and!; [lia|lia|]. exists h'. split; [by right|done].
Qed.

(** [NextNote] ends, whatever is in memory, when there is fuel for the bytes of the notes. *)
Lemma next_note_ends (e : ElfImageReader M) lo hi r fuel :
  covers (elf_memory_ e) lo hi -> Forall phdr_in_range (program_headers_ e) -> reader_ok r -> (work e r < fuel)%nat ->
  exists o, next_note fuel e r = Some o.
Proof.
  intros Hc Ht. revert r. induction fuel as [|f IH]; intros r Hr Hw; [lia|]. cbn [next_note].
  destruct (Z.eqb_spec (current_address_ r) (segment_end_address_ r)) as [Ee|Ee].
  - destruct (GetNoteSegment _ _) as [[[i address] size]|] eqn:Es; [|by eexists]. unfold GetNoteSegment in Es.
    apply note_segment_work in Es as (Hi & Hsw & h & Hin & Hv & Hm). rewrite Forall_forall in Ht.
    destruct (Ht h) as [Hva Hsz]; [rewrite <-(take_drop (phdr_index_ r)); by apply elem_of_app; right|]. rewrite Hm in Hsz.
    rewrite (copy_of_range _ lo hi Hc). pose proof (wrap_bound 64 (address + load_bias_ e) ltac:(lia)) as Hb.
    set (current := u64 (address + load_bias_ e)) in *. pose proof (restrict_covers (elf_memory_ e) lo hi current size Hc Hb Hsz) as Hx.
    destruct (RestrictRange _ _ _) as [range|]; [|by eexists]. destruct Hx as (_ & _ & Hcr & _ & _).
    pose proof Hcr as (_ & _ & Hhi). pose proof (pointer_width (Is64Bit range)) as Hpw. rewrite (wrap_small 64 (current + size)) by lia.
    apply IH; [split; [done|]; cbn; split; [lia|]; by exists current, (current + size)|]. unfold work in *. cbn [set_segment current_address_ segment_end_address_ phdr_index_].
    rewrite drop_drop in Hsw. replace (phdr_index_ r + (i - phdr_index_ r))%nat with i in Hsw by lia. lia.
  - destruct (ReadNote r) as [|[[res [|]] r']|] eqn:En; [by eexists| |by destruct res; eexists|by eexists].
    destruct (read_note_progress r res r' Hr En) as (x & -> & Hp). destruct Hr as (Hcu & Hend & Hr).
    cut (exists o, next_note f e (set_current r x) = Some o); [intros [o Eo]; exists o; by destruct res|]. apply IH.
    + split; [|done]. cbn [set_current current_address_]. lia.
    + unfold work in *. cbn [set_current current_address_ segment_end_address_ phdr_index_]. lia.
Qed.
End Ends.

(** ** Notes in memory *)

Record Note := MkNote { note_name : bytes; note_type : Z; note_desc : bytes }.

(** Up to a multiple of four. *)
Definition padded (n : Z) : Z := 4 * ((n + 3) / 4).
Definition padding (n : Z) : bytes := replicate (Z.to_nat (padded n - n)) 0.
Definition name_size (x : Note) : Z := Z.of_nat (length (note_name x)) + 1.
Definition desc_size (x : Note) : Z := Z.of_nat (length (note_desc x)).
Definition note_header (x : Note) : Elf_Nhdr.t := Elf_Nhdr.Make (name_size x) (desc_size x) (note_type x).
Definition note_ok (x : Note) : bool := valid Elf_Nhdr.repr (note_header x).
Definition body_size (x : Note) : Z := padded (name_size x) + padded (desc_size x).
Definition note_bytes (x : Note) : bytes :=
  to_bytes Elf_Nhdr.repr (note_header x) ++ (note_name x ++ [0]) ++ padding (name_size x) ++ note_desc x ++ padding (desc_size x).
(** The notes that a reader does not pass over. *)
Definition selected {M} (r : NoteReader M) (x : Note) : bool :=
  (body_size x <=? max_note_size_ r) &&
  (negb (use_filter_ r) || (note_type x =? type_filter_ r) && bool_decide (note_name x = name_filter_ r)).

Lemma padded_spec n : n <= padded n < n + 4 /\ padded n mod 4 = 0.
Proof.
  unfold padded. pose proof (Z.div_mod (n + 3) 4 ltac:(lia)). pose proof (Z.mod_pos_bound (n + 3) 4 ltac:(lia)).
  split; [lia|]. rewrite Z.mul_comm. by apply Z.mod_mul.
Qed.
Lemma padded_aligned n : n mod 4 = 0 -> padded n = n.
Proof.
  intros Hn. destruct (padded_spec n) as [Hp Hm]. pose proof (Z.div_mod n 4 ltac:(lia)) as E1. pose proof (Z.div_mod (padded n) 4 ltac:(lia)) as E2.
  rewrite Hn in E1. rewrite Hm in E2. lia.
Qed.
Lemma length_padding n : Z.of_nat (length (padding n)) = padded n - n.
Proof. unfold padding. rewrite length_replicate. pose proof (padded_spec n). lia. Qed.
Lemma length_note_bytes x : note_ok x = true -> Z.of_nat (length (note_bytes x)) = 12 + body_size x.
Proof.
  intros Hx. unfold note_bytes, body_size. rewrite !length_app. pose proof (length_to_bytes (R := Elf_Nhdr.repr) _ Hx) as E.
  pose proof (length_padding (name_size x)). pose proof (length_padding (desc_size x)). unfold name_size, desc_size in *.
  cbn [sizeof Elf_Nhdr.repr struct pair_repr uint] in E. cbn [length]. lia.
Qed.
Lemma pop_nul_app name : pop_nul (name ++ [0]) = Some name.
Proof. unfold pop_nul. rewrite last_snoc. cbn. f_equal. rewrite length_app. apply take_app_length'. cbn. lia. Qed.

Lemma note_ok_bounds x : note_ok x = true -> 0 <= name_size x < 2 ^ 32 /\ 0 <= desc_size x < 2 ^ 32.
Proof.
  unfold note_ok, Elf_Nhdr.repr. rewrite struct_valid, !pair_valid, !andb_true_iff. cbn [valid uint note_header Elf_Nhdr.n_namesz Elf_Nhdr.n_descsz].
  rewrite !fits_spec. lia.
Qed.
Lemma note_sizes_spec x current segment_end :
  note_ok x = true -> 0 <= current -> current mod 4 = 0 -> current + body_size x < 2 ^ 64 -> current + body_size x <= segment_end ->
  note_sizes (note_header x) current segment_end = Some (padded (name_size x), body_size x, current + body_size x).
Proof.
  intros Hx Hc Hm Hlt He. destruct (note_ok_bounds x Hx) as [Hn Hd]. unfold note_sizes. cbn [note_header Elf_Nhdr.n_namesz Elf_Nhdr.n_descsz].
  destruct (padded_spec (name_size x)) as [Hp Hpm]. destruct (padded_spec (desc_size x)) as [Hq Hqm]. unfold body_size in *.
  rewrite !checked_pad_spec by lia. rewrite !(proj2 (Z.ltb_lt _ _)) by lia. cbn [mbind option_bind]. fold (padded (name_size x)) (padded (desc_size x)).
  unfold CheckAdd. rewrite !(proj2 (Z.ltb_lt _ _)) by lia. cbn [mbind option_bind].
  rewrite (proj2 (Z.ltb_lt _ _)) by lia. cbn [mbind option_bind]. set (c := current + _) in *.
  assert (c mod 4 = 0) as Hcm. { apply Z.mod_divide; [lia|]. repeat apply Z.divide_add_r; by apply Z.mod_divide. }
  assert (c + 3 < 2 ^ 64) as Hc3. { pose proof (Z.div_mod c 4 ltac:(lia)) as E. rewrite Hcm in E. change (2 ^ 64) with (4 * 2 ^ 62) in *. lia. }
  rewrite checked_pad_spec, (proj2 (Z.ltb_lt _ _)) by lia. cbn [mbind option_bind]. fold (padded c). rewrite (padded_aligned c) by done.
  do 2 f_equal. lia.
Qed.

Section Found.
  Context {M : Type} `{ProcessMemoryLaws M} `{!ProcessMemoryProgress M}.

(** [ReadNote] at a note. *)
Lemma read_note_spec (r : NoteReader M) range x rest :
  segment_range_ r = Some range -> note_ok x = true -> current_address_ r mod 4 = 0 ->
  located range (current_address_ r) (note_bytes x ++ rest) ->
  segment_end_address_ r = current_address_ r + Z.of_nat (length (note_bytes x ++ rest)) ->
  ReadNote r =
    Done (if selected r x then kSuccess (note_name x) (note_type x) (note_desc x) (current_address_ r + 12 + padded (name_size x)) else kError,
          negb (selected r x), set_current r (current_address_ r + Z.of_nat (length (note_bytes x)))).
Proof.
  intros Er Hx Hm Hl He. unfold ReadNote. rewrite Er. pose proof (length_note_bytes x Hx) as Hlen.
  destruct (note_ok_bounds x Hx) as [Hn Hd]. pose proof (padded_spec (name_size x)) as [Hpn _]. pose proof (padded_spec (desc_size x)) as [Hpd _].
  assert (0 <= current_address_ r /\ segment_end_address_ r < 2 ^ 64) as [Hc0 Hc64].
  { destruct Hl as (lo & hi & (_ & ? & Hhi) & ? & ? & _). pose proof (pointer_width (Is64Bit range)). lia. }
  rewrite length_app, Nat2Z.inj_add in He. set (current := current_address_ r) in *.
  rewrite (proj2 (Z.ltb_lt current _)) by (unfold body_size in *; lia). cbn [negb].
  unfold note_bytes in Hl. rewrite <-!app_assoc in Hl. apply located_app in Hl as [Hh Hl].
  pose proof (length_to_bytes (R := Elf_Nhdr.repr) _ Hx) as Eh. rewrite Eh in Hl. change (Z.of_nat (sizeof Elf_Nhdr.repr)) with 12 in *.
  rewrite (located_read _ _ _ 12 Hh) by (rewrite Eh; done). rewrite of_bytes_exact by (apply _ || done).
  rewrite (wrap_small 64 (current + 12)) by (unfold body_size in *; lia).
  rewrite note_sizes_spec; [|done|lia| |unfold body_size in *; lia|unfold body_size in *; lia].
  2: { rewrite Z.add_mod, Hm by lia. done. }
  replace (current + 12 + body_size x) with (current + Z.of_nat (length (note_bytes x))) by lia.
  unfold selected. rewrite (Z.ltb_antisym (body_size x)). destruct (body_size x <=? max_note_size_ r); cbn [negb andb]; [|done].
  cbn [note_header Elf_Nhdr.n_type Elf_Nhdr.n_namesz Elf_Nhdr.n_descsz].
  rewrite (app_assoc (note_name x) [0]) in Hl. apply located_app in Hl as [Hname Hl].
  rewrite (located_read _ _ _ (name_size x) Hname) by (unfold name_size; len_lia). rewrite pop_nul_app.
  apply located_app in Hl as [_ Hl]. apply located_app in Hl as [Hdesc _].
  rewrite (wrap_small 64 (current + 12 + _)) by (unfold body_size in *; lia).
  assert (current + 12 + Z.of_nat (length (note_name x ++ [0])) + Z.of_nat (length (padding (name_size x))) =
    current + 12 + padded (name_size x)) as Ea by (rewrite length_padding; unfold name_size; len_lia).
  rewrite Ea in Hdesc. rewrite (located_read _ _ _ (desc_size x) Hdesc) by done.
  destruct (use_filter_ r); cbn [negb andb orb]; [|done]. destruct (note_type x =? type_filter_ r); cbn [negb andb]; [|done].
  by destruct (bool_decide _).
Qed.

Definition notes_bytes (l : list Note) : bytes := concat (map note_bytes l).
(** Notes with the addresses of their descriptors, for notes at an address. *)
Fixpoint placed_notes (a : Z) (l : list Note) : list (Z * Note) :=
  match l with
  | [] => []
  | x :: l' => (a + 12 + padded (name_size x), x) :: placed_notes (a + Z.of_nat (length (note_bytes x))) l'
  end.

(** A note segment of an image, loaded at an address that is a multiple of four. *)
Definition segment_at (e : ElfImageReader M) (h : Elf_Phdr.t) (l : list Note) : Prop :=
  let a := u64 (Elf_Phdr.p_vaddr h + load_bias_ e) in
  a mod 4 = 0 /\ Forall (fun x => note_ok x = true) l /\ Elf_Phdr.p_memsz h = Z.of_nat (length (notes_bytes l)) /\
  located (elf_memory_ e) a (notes_bytes l).
Definition is_note_segment (h : Elf_Phdr.t) : bool := (Elf_Phdr.p_type h =? PT_NOTE) && negb (Elf_Phdr.p_vaddr h =? 0).
(** The notes of the note segments among program headers. *)
Fixpoint segments_at (e : ElfImageReader M) (table : list Elf_Phdr.t) (notes : list (Z * Note)) : Prop :=
  match table with
  | [] => notes = []
  | h :: table' =>
      if is_note_segment h then
        exists l notes', segment_at e h l /\ segments_at e table' notes' /\
          notes = placed_notes (u64 (Elf_Phdr.p_vaddr h + load_bias_ e)) l ++ notes'
      else segments_at e table' notes
  end.

(** The notes that a reader has still to go through: those of its segment, and of the
    segments after it. *)
Definition remaining (e : ElfImageReader M) (r : NoteReader M) (notes : list (Z * Note)) : Prop :=
  is_valid_ r = true /\
  exists l notes', notes = placed_notes (current_address_ r) l ++ notes' /\
    segments_at e (drop (phdr_index_ r) (program_headers_ e)) notes' /\ Forall (fun x => note_ok x = true) l /\
    segment_end_address_ r = current_address_ r + Z.of_nat (length (notes_bytes l)) /\
    (l <> [] -> current_address_ r mod 4 = 0 /\
      exists range, segment_range_ r = Some range /\ located range (current_address_ r) (notes_bytes l)).

(** The first note that is not passed over, and the notes after it. *)
Fixpoint next_selected (r : NoteReader M) (notes : list (Z * Note)) : option (Z * Note * list (Z * Note)) :=
  match notes with
  | [] => None
  | (a, x) :: notes' => if selected r x then Some (a, x, notes') else next_selected r notes'
  end.

Lemma get_note_segment e index table notes :
  segments_at e table notes ->
  match note_segment_from index table with
  | None => notes = []
  | Some (i, address, size) =>
      (index < i)%nat /\ (length (drop (i - index) table) < length table)%nat /\
      exists h l notes', Elf_Phdr.p_vaddr h = address /\ Elf_Phdr.p_memsz h = size /\ segment_at e h l /\
        segments_at e (drop (i - index) table) notes' /\ notes = placed_notes (u64 (address + load_bias_ e)) l ++ notes'
  end.
Proof.
  revert index. induction table as [|h table IH]; intros index; cbn [note_segment_from segments_at]; [done|]. fold (is_note_segment h).
  destruct (is_note_segment h).
  - intros (l & notes' & Hl & Hn & ->). replace (S index - index)%nat with 1%nat by lia. change (drop 1 (h :: table)) with table. split_and!; [lia|cbn; lia|].
    exists h, l, notes'. by split_and!.
  - intros Hn. specialize (IH (S index) Hn). destruct (note_segment_from _ _) as [[[i address] size]|]; [|done].
    destruct IH as (Hi & Hlen & Hx). replace (i - index)%nat with (S (i - S index)) by lia. cbn [skipn length]. split_and!; [lia|lia|done].
Qed.

Lemma selected_same (r r' : NoteReader M) x :
  max_note_size_ r' = max_note_size_ r -> name_filter_ r' = name_filter_ r -> type_filter_ r' = type_filter_ r -> use_filter_ r' = use_filter_ r ->
  selected r' x = selected r x.
Proof. unfold selected. by intros -> -> -> ->. Qed.
Lemma next_selected_same (r r' : NoteReader M) notes :
  (forall x, selected r' x = selected r x) -> next_selected r' notes = next_selected r notes.
Proof. intros E. induction notes as [|[a x] notes IH]; cbn [next_selected]; [done|]. by rewrite E, IH. Qed.

(** A note segment becomes the segment of the reader. *)
Lemma enter_segment e h l :
  segment_at e h l ->
  let a := u64 (Elf_Phdr.p_vaddr h + load_bias_ e) in
  exists copy range, InitializeCopy (elf_memory_ e) = Some copy /\ RestrictRange copy a (Elf_Phdr.p_memsz h) = Some range /\
    located range a (notes_bytes l) /\ u64 (a + Elf_Phdr.p_memsz h) = a + Z.of_nat (length (notes_bytes l)).
Proof.
  intros (_ & _ & -> & lo & hi & Hc & Hlo & Hhi & Hl) a. pose proof Hc as (_ & _ & Hw). pose proof (pointer_width (Is64Bit (elf_memory_ e))).
  pose proof (wrap_bound 64 (Elf_Phdr.p_vaddr h + load_bias_ e) ltac:(lia)) as Ha. fold a in Ha, Hlo, Hhi, Hl.
  rewrite (copy_of_range _ lo hi Hc).
  pose proof (restrict_covers (elf_memory_ e) lo hi a (Z.of_nat (length (notes_bytes l))) Hc Ha ltac:(lia)) as Hx.
  destruct (RestrictRange _ _ _) as [range|] eqn:Er; [|by destruct Hx; lia]. destruct Hx as (Em & _ & Hcr & _ & _).
  exists (elf_memory_ e), range. split; [done|]. split; [done|]. split; [|by rewrite wrap_small by lia]. exists a, (a + Z.of_nat (length (notes_bytes l))). rewrite Em. split_and!; [done|lia|lia|done].
Qed.

Lemma next_note_spec e r notes fuel :
  remaining e r notes -> (length notes + length (drop (phdr_index_ r) (program_headers_ e)) < fuel)%nat ->
  match next_selected r notes with
  | None => exists r', next_note fuel e r = Some (Done (kNoMoreNotes, r'))
  | Some (a, x, notes') =>
      exists r', next_note fuel e r = Some (Done (kSuccess (note_name x) (note_type x) (note_desc x) a, r')) /\
        remaining e r' notes' /\ forall x, selected r' x = selected r x
  end.
Proof.
  revert r notes. induction fuel as [|f IH]; intros r notes; [lia|]. intros (Hv & l & notes' & -> & Hs & Hok & He & Hcur) Hf. cbn [next_note].
  destruct l as [|x l].
  - cbn [notes_bytes map concat length] in He. rewrite Z.add_0_r in He. rewrite He, Z.eqb_refl. cbn [placed_notes app] in *.
    pose proof (get_note_segment e (phdr_index_ r) _ _ Hs) as Hseg. unfold GetNoteSegment. destruct (note_segment_from _ _) as [[[i address] size]|].
    2: { subst notes'. cbn [next_selected]. by eexists. }
    destruct Hseg as (Hi & Hlen & h & l & notes2 & <- & <- & Hsa & Hs2 & ->). destruct (enter_segment e h l Hsa) as (copy & range & -> & -> & Hl & ->).
    set (a := u64 _) in *. set (r' := set_segment r i a _ (Some range)).
    rewrite drop_drop in Hs2, Hlen. replace (phdr_index_ r + (i - phdr_index_ r))%nat with i in Hs2, Hlen by lia.
    destruct Hsa as (Ha4 & Hok' & _). assert (remaining e r' (placed_notes a l ++ notes2)) as Hr'.
    { split; [done|]. exists l, notes2. split_and!; [done|done|done|done|]. intros _. split; [done|]. by exists range. }
    specialize (IH r' _ Hr' ltac:(cbn; lia)). rewrite (next_selected_same r r') in IH by done.
    destruct (next_selected r _) as [[[a' x] notes'']|]; [|done]. destruct IH as (r2 & E & Hr2 & Hsel). by exists r2.
  - destruct (Hcur ltac:(done)) as (H4 & range & Er & Hl). apply Forall_cons in Hok as [Hx Hok]. pose proof (length_note_bytes x Hx) as Hlen.
    destruct (note_ok_bounds x Hx) as [Hn Hd]. pose proof (padded_spec (name_size x)) as [Hpn Hpm]. pose proof (padded_spec (desc_size x)) as [Hpd Hqm].
    cbn [notes_bytes map concat] in Hl, He. fold (notes_bytes l) in Hl, He. unfold body_size in Hlen.
    rewrite (proj2 (Z.eqb_neq _ _)) by (rewrite He, length_app; lia). rewrite (read_note_spec r range x (notes_bytes l) Er Hx H4 Hl He).
    set (r' := set_current r _). assert (remaining e r' (placed_notes (current_address_ r') l ++ notes')) as Hr'.
    { split; [done|]. exists l, notes'. split_and!; [done|done|done| |].
      - cbn [r' set_current current_address_ segment_end_address_]. rewrite He, length_app. lia.
      - intros _. split; [|exists range; split; [done|by apply located_app in Hl as [_ Hl]]]. cbn [r' set_current current_address_]. rewrite Hlen.
        apply Z.mod_divide; [lia|]. repeat apply Z.divide_add_r; by apply Z.mod_divide. }
    cbn [placed_notes app next_selected]. destruct (selected r x) eqn:Esel; cbn [negb].
    + exists r'. by split_and!.
    + specialize (IH r' _ Hr'). rewrite (next_selected_same r r') in IH by done. apply IH. cbn in Hf |- *. lia.
Qed.

(** A new reader has all of the notes of the image to go through. *)
Lemma new_reader_remaining e max_note_size name type use_filter r notes :
  new_note_reader max_note_size name type use_filter = Done r -> segments_at e (program_headers_ e) notes -> remaining e r notes.
Proof.
  unfold new_note_reader. destruct (negb _); [done|]. intros [= <-] Hs. split; [done|]. exists [], notes. by split_and!.
Qed.
End Found.

(** C24.  [NextNote] ends whatever is in memory, when there is fuel for the bytes of the
    note segments that are left.  On memory whose note segments hold notes it finds them:
    each call gives the next note that is not too large and, with a filter, has the name
    and type asked for, with its descriptor and the address of the descriptor, and leaves
    the notes after it to later calls; when there is none it says so. *)
Theorem notes_found {M} `{ProcessMemoryLaws M} `{!ProcessMemoryProgress M} (e : ElfImageReader M) (r : NoteReader M) lo hi fuel :
  covers (elf_memory_ e) lo hi -> Forall phdr_in_range (program_headers_ e) -> reader_ok r ->
  ((work e r < fuel)%nat -> exists o, NextNote fuel e r = Some o) /\
  (forall notes, remaining e r notes -> (length notes + length (program_headers_ e) < fuel)%nat ->
   match next_selected r notes with
   | None => exists r', NextNote fuel e r = Some (Done (kNoMoreNotes, r'))
   | Some (a, x, notes') =>
       exists r', NextNote fuel e r = Some (Done (kSuccess (note_name x) (note_type x) (note_desc x) a, r')) /\
         remaining e r' notes' /\ forall x, selected r' x = selected r x
   end).
Proof.
  intros Hc Ht Hr. unfold NextNote. split.
  - intros Hf. destruct (negb _); [by eexists|]. by apply (next_note_ends e lo hi).
  - intros notes Hn Hf. rewrite (proj1 Hn). cbn [negb]. apply (next_note_spec e r notes fuel Hn). rewrite length_drop. lia.
Qed.

(** ** An example *)

(** An image with a note segment of two notes, loaded 4096 bytes from where it was meant
    to be. *)
Definition example_notes : list Note := [MkNote (str "GNU") 3 [1; 2; 3; 4]; MkNote (str "Crashpad") 7 [5; 6; 7]].
Definition example_image_memory : Memory := [(8192, notes_bytes example_notes)].
Definition example_note_segment : Elf_Phdr.t := Elf_Phdr.Make PT_NOTE 4 0 4096 4096 48 48 4.
Definition example_image : ElfImageReader Memory :=
  MkElfImageReader (Elf_Ehdr.Make [] ET_DYN 0 1 0 0 0 0 64 56 1 0 0 0) 8192 4096
    (MkMemoryRange example_image_memory (CheckedAddressRange.SetRange true 8192 48)) [example_note_segment] uninitialized uninitialized.
Definition example_reader : NoteReader Memory := MkNoteReader 0 0 None 0 256 (str "Crashpad") 7 true true.

Lemma notes_found_witness :
  exists r', NextNote 100 example_image example_reader = Some (Done (kSuccess (str "Crashpad") 7 [5; 6; 7] 8236, r')) /\
    remaining example_image r' [].
Proof.
  destruct (notes_found example_image example_reader 8192 8240 100) as [_ H].
  - split; [done|]. cbn. lia.
  - repeat constructor; cbn; lia.
  - split; [cbn; lia|]. split; [cbn; lia|done].
  - specialize (H (placed_notes 8192 example_notes ++ [])).
    assert (remaining example_image example_reader (placed_notes 8192 example_notes ++ [])) as Hr.
    { split; [done|]. exists [], (placed_notes 8192 example_notes ++ []). split; [done|]. split; [|by split_and!].
      exists example_notes, []. split; [|by split]. split; [done|]. split; [by repeat constructor|]. split; [done|].
      exists 8192, 8240. split; [split; [done|cbn; lia]|]. split; [vm_compute; congruence|]. split; [vm_compute; congruence|].
      apply (region_load example_image_memory 0); by vm_compute. }
    specialize (H Hr ltac:(cbn; lia)). destruct H as (r' & E & Hr' & _). exists r'. split; [exact E|exact Hr'].
Defined.
