(* ===== verification/ElfSymbols.v ===== *)
(** * The dynamic array and the symbols of an ELF image (snapshot/elf)

    [ElfDynamicArrayReader], [ElfSymbolTableReader], and the members of [ElfImageReader]
    that use them.  What is read is kept in the reader, which is the state of the
    operations here: an operation gives its outcome and the reader it leaves.  A symbol
    is shown to be found by its name, however often the reader is asked, with the number
    of symbols taken from either of the two kinds of hash tables. *)

From S2P Require Import Prelude.
From S2P Require Import Numeric.
From S2P Require Import Structs.
From S2P Require Import ProcessMemory.
From S2P Require Import ElfImage.
#[local] Open Scope crashpad_scope.

(** ** Structures *)

Module Elf_Dyn.
Record t := Make { d_tag : Z; d_ptr : Z }.
Definition repr (is_64_bit : bool) : Repr t :=
  if is_64_bit then struct (sint 8 ⊗ uint 8) (fun x => (d_tag x, d_ptr x)) (fun '(x0, x1) => Make x0 x1)
  else struct (sint 4 ⊗ uint 4) (fun x => (d_tag x, d_ptr x)) (fun '(x0, x1) => Make x0 x1).
#[global] Instance repr_laws b : ReprLaws (repr b).
Proof. destruct b; struct_laws. Qed.
End Elf_Dyn.

Module Elf_Sym.
Record t := Make { st_name : Z; st_info : Z; st_other : Z; st_shndx : Z; st_value : Z; st_size : Z }.
Definition repr (is_64_bit : bool) : Repr t :=
  if is_64_bit then
    struct (uint 4 ⊗ uint 1 ⊗ uint 1 ⊗ uint 2 ⊗ uint 8 ⊗ uint 8)
      (fun x => (st_name x, st_info x, st_other x, st_shndx x, st_value x, st_size x))
      (fun '(x0, x1, x2, x3, x4, x5) => Make x0 x1 x2 x3 x4 x5)
  else
    struct (uint 4 ⊗ uint 4 ⊗ uint 4 ⊗ uint 1 ⊗ uint 1 ⊗ uint 2)
      (fun x => (st_name x, st_value x, st_size x, st_info x, st_other x, st_shndx x))
      (fun '(x0, x4, x5, x1, x2, x3) => Make x0 x1 x2 x3 x4 x5).
#[global] Instance repr_laws b : ReprLaws (repr b).
Proof. destruct b; struct_laws. Qed.
End Elf_Sym.

(** [nbucket] and [nchain]; [nbuckets], [symoffset], [bloom_size] and [bloom_shift]. *)
Definition hash_header : Repr (Z * Z) := uint 4 ⊗ uint 4.
Definition gnu_hash_header : Repr (Z * Z * Z * Z) := uint 4 ⊗ uint 4 ⊗ uint 4 ⊗ uint 4.

Definition DT_NULL : Z := 0.
Definition DT_NEEDED : Z := 1.
Definition DT_HASH : Z := 4.
Definition DT_STRTAB : Z := 5.
Definition DT_SYMTAB : Z := 6.
Definition DT_STRSZ : Z := 10.
Definition DT_SONAME : Z := 14.
Definition DT_DEBUG : Z := 21.
Definition DT_GNU_HASH : Z := 0x6ffffef5.
Definition SHN_UNDEF : Z := 0.
Definition SHN_ABS : Z := 0xfff1.
Definition SHN_COMMON : Z := 0xfff2.
Definition STB_GLOBAL : Z := 1.
Definition STB_WEAK : Z := 2.
Definition STT_OBJECT : Z := 1.
Definition STT_FUNC : Z := 2.

(** ** ReinterpretBytes (util/misc/reinterpret_bytes.cc) *)

(** The loop over the bytes for which there is no room, eight at a time. *)
Fixpoint extra_bytes_zero (fuel : nat) (extra_bytes : bytes) : bool :=
  match fuel, extra_bytes with
  | _, [] => true
  | O, _ => true
  | S f, _ => bool_decide (take 8 extra_bytes = replicate (length (take 8 extra_bytes)) 0) && extra_bytes_zero f (drop 8 extra_bytes)
  end.
Definition ReinterpretBytesImpl (data : bytes) (dest_size : nat) : option bytes :=
  if extra_bytes_zero (length data) (drop dest_size data)
  then Some (take dest_size data ++ replicate (dest_size - length data) 0) else None.

(** ** ElfDynamicArrayReader *)

Section Symbols.
  Context {M : Type} `{ProcessMemory M}.

(** [Read]; the fuel is enough for the entries in the range, as each of them has been read. *)
Fixpoint read_dynamic (fuel : nat) (memory : ProcessMemoryRange M) (address size : Z) (values : gmap Z Z) : outcome (gmap Z Z) :=
  match fuel with
  | O => Undefined
  | S f =>
      if size =? 0 then Failed
      else
        let R := Elf_Dyn.repr (Is64Bit memory) in
        step! d := RangeRead memory address (Z.of_nat (sizeof R)) in
        let entry := of_bytes R d in
        let size := u64 (size - Z.of_nat (sizeof R)) in
        let address := u64 (address + Z.of_nat (sizeof R)) in
        if Elf_Dyn.d_tag entry =? DT_NULL then Done values
        else if Elf_Dyn.d_tag entry =? DT_NEEDED then read_dynamic f memory address size values
        else
          let tag := cast uint64_t (Elf_Dyn.d_tag entry) in
          match values !! tag with
          | Some _ => Failed
          | None => read_dynamic f memory address size (<[tag := Elf_Dyn.d_ptr entry]> values)
          end
  end.
Definition InitializeArray (memory : ProcessMemoryRange M) (address size : Z) : outcome (gmap Z Z) :=
  read_dynamic (S (Z.to_nat (CheckedAddressRange.Size (range_ memory)))) memory address size ∅.
Definition GetValue (values : gmap Z Z) (tag : Z) : option Z :=
  v ← values !! tag; d ← ReinterpretBytesImpl (le_bytes 8 v) 8; Some (le_value d).

(** ** ElfImageReader *)

(** An operation on the reader. *)
Definition Op (A : Type) : Type := ElfImageReader M -> outcome A * ElfImageReader M.
Definition pure_op {A} (f : ElfImageReader M -> outcome A) : Op A := fun e => (f e, e).
Definition op_bind {A B} (m : Op A) (k : A -> Op B) : Op B :=
  fun e =>
    match m e with
    | (Done x, e') => k x e'
    | (Failed, e') => (Failed, e')
    | (Undefined, e') => (Undefined, e')
    end.
End Symbols.
Notation "'elf!' x := m 'in' k" := (op_bind m (fun x => k)) (at level 10, x strict pattern, m at level 100, k at level 200).

Section Operations.
  Context {M : Type} `{ProcessMemory M}.

(** Whether the loader leaves the addresses of the dynamic array as they are in the file:
    on Android and Fuchsia. *)
  Context (not_relocated : bool).

Definition set_dynamic_array (e : ElfImageReader M) (x : InitializationState (gmap Z Z)) : ElfImageReader M :=
  MkElfImageReader (header_ e) (ehdr_address_ e) (load_bias_ e) (elf_memory_ e) (program_headers_ e) x (symbol_table_ e).
Definition set_symbol_table (e : ElfImageReader M) (x : InitializationState (Z * Z)) : ElfImageReader M :=
  MkElfImageReader (header_ e) (ehdr_address_ e) (load_bias_ e) (elf_memory_ e) (program_headers_ e) (dynamic_array_ e) x.

Definition InitializeDynamicArray : Op (gmap Z Z) :=
  fun e =>
    match dynamic_array_ e with
    | is_valid values => (Done values, e)
    | invalid => (Failed, e)
    | uninitialized =>
        match GetDynamicSegment (program_headers_ e) with
        | None => (Failed, set_dynamic_array e invalid)
        | Some (dyn_segment_address, dyn_segment_size) =>
            match InitializeArray (elf_memory_ e) (u64 (dyn_segment_address + load_bias_ e)) dyn_segment_size with
            | Done values => (Done values, set_dynamic_array e (is_valid values))
            | Failed => (Failed, set_dynamic_array e invalid)
            | Undefined => (Undefined, set_dynamic_array e invalid)
            end
        end
    end.
Definition GetAddressFromDynamicArray (e : ElfImageReader M) (values : gmap Z Z) (tag : Z) : option Z :=
  address ← GetValue values tag;
  Some (if not_relocated && negb (tag =? DT_DEBUG) then u64 (address + load_bias_ e) else address).

Definition string_table (e : ElfImageReader M) (values : gmap Z Z) : option (Z * Z) :=
  string_table_address ← GetAddressFromDynamicArray e values DT_STRTAB;
  string_table_size ← GetValue values DT_STRSZ;
  Some (string_table_address, string_table_size).
Definition ReadDynamicStringTableAtOffset (offset : Z) : Op bytes :=
  elf! values := InitializeDynamicArray in
  pure_op (fun e =>
    step! (string_table_address, string_table_size) := lift (string_table e values) in
    if string_table_size <=? offset then Failed
    else
      let string_table_address :=
        if (string_table_address <? CheckedAddressRange.Base (range_ (elf_memory_ e))) &&
           (string_table_address <? CheckedAddressRange.Size (range_ (elf_memory_ e)))
        then u64 (string_table_address + load_bias_ e) else string_table_address in
      RangeReadCStringSizeLimited (elf_memory_ e) (u64 (string_table_address + offset)) (u64 (string_table_size - offset))).
Definition SoName : Op bytes :=
  elf! values := InitializeDynamicArray in
  elf! offset := pure_op (fun _ => lift (GetValue values DT_SONAME)) in
  ReadDynamicStringTableAtOffset offset.
Definition GetDebugAddress : Op Z :=
  elf! values := InitializeDynamicArray in pure_op (fun e => lift (GetAddressFromDynamicArray e values DT_DEBUG)).

Definition GetNumberOfSymbolEntriesFromDtHash : Op Z :=
  elf! values := InitializeDynamicArray in
  pure_op (fun e =>
    step! dt_hash_address := lift (GetAddressFromDynamicArray e values DT_HASH) in
    step! d := RangeRead (elf_memory_ e) dt_hash_address (Z.of_nat (sizeof hash_header)) in
    let '(_, nchain) := of_bytes hash_header d in Done nchain).
(** The walk along the last chain; the fuel is enough as long as the index does not wrap around. *)
Fixpoint walk_chain (fuel : nat) (memory : ProcessMemoryRange M) (chains_base_address symoffset last_symbol : Z) : outcome Z :=
  match fuel with
  | O => Undefined
  | S f =>
      step! d := RangeRead memory (u64 (chains_base_address + u32 (last_symbol - symoffset) * 4)) 4 in
      let last_symbol := u32 (last_symbol + 1) in
      if Z.testbit (of_bytes (uint 4) d) 0 then Done last_symbol else walk_chain f memory chains_base_address symoffset last_symbol
  end.
Definition count_gnu_hash (memory : ProcessMemoryRange M) (dt_gnu_hash_address : Z) : outcome Z :=
  step! d := RangeRead memory dt_gnu_hash_address (Z.of_nat (sizeof gnu_hash_header)) in
  let '(nbuckets, symoffset, bloom_size, _) := of_bytes gnu_hash_header d in
  let R := array (Z.to_nat nbuckets) (uint 4) in
  let kWordSize := if Is64Bit memory then 8 else 4 in
  let buckets_address := u64 (dt_gnu_hash_address + Z.of_nat (sizeof gnu_hash_header) + kWordSize * bloom_size) in
  step! d := RangeRead memory buckets_address (Z.of_nat (sizeof R)) in
  let last_symbol := fold_left Z.max (of_bytes R d) 0 in
  if last_symbol <? symoffset then Done symoffset
  else
    let chains_base_address := u64 (buckets_address + Z.of_nat (sizeof R)) in
    walk_chain (S (Z.to_nat (CheckedAddressRange.Size (range_ memory)))) memory chains_base_address symoffset last_symbol.
Definition GetNumberOfSymbolEntriesFromDtGnuHash : Op Z :=
  elf! values := InitializeDynamicArray in
  pure_op (fun e =>
    step! dt_gnu_hash_address := lift (GetAddressFromDynamicArray e values DT_GNU_HASH) in
    count_gnu_hash (elf_memory_ e) dt_gnu_hash_address).

(** The number of entries, from the one table or the other. *)
Definition number_of_symbols : Op Z :=
  fun e =>
    match GetNumberOfSymbolEntriesFromDtHash e with
    | (Failed, e') => GetNumberOfSymbolEntriesFromDtGnuHash e'
    | r => r
    end.
Definition InitializeDynamicSymbolTable : Op (Z * Z) :=
  fun e =>
    match symbol_table_ e with
    | is_valid x => (Done x, e)
    | invalid => (Failed, e)
    | uninitialized =>
        (elf! values := InitializeDynamicArray in
         elf! symbol_table_address := pure_op (fun e => lift (GetAddressFromDynamicArray e values DT_SYMTAB)) in
         elf! number_of_symbol_table_entries := number_of_symbols in
         fun e => let x := (symbol_table_address, number_of_symbol_table_entries) in (Done x, set_symbol_table e (is_valid x)))
        (set_symbol_table e invalid)
    end.

(** ** ElfSymbolTableReader *)

Record SymbolInformation := MkSymbolInformation {
  info_address : Z; info_size : Z; info_shndx : Z; info_type : Z; info_binding : Z; info_visibility : Z
}.
Definition symbol_information (entry : Elf_Sym.t) : SymbolInformation :=
  MkSymbolInformation (Elf_Sym.st_value entry) (Elf_Sym.st_size entry) (Elf_Sym.st_shndx entry) (Z.land (Elf_Sym.st_info entry) 15)
    (Z.shiftr (Elf_Sym.st_info entry) 4) (Z.land (Elf_Sym.st_other entry) 3).
(** [ScanSymbolTable], for the entries that are left. *)
Fixpoint ScanSymbolTable (num_entries : nat) (address : Z) (name : bytes) : Op SymbolInformation :=
  match num_entries with
  | O => fun e => (Failed, e)
  | S n =>
      fun e =>
        let R := Elf_Sym.repr (Is64Bit (elf_memory_ e)) in
        match RangeRead (elf_memory_ e) address (Z.of_nat (sizeof R)) with
        | Failed => (Failed, e)
        | Undefined => (Undefined, e)
        | Done d =>
            let entry := of_bytes R d in
            let next := ScanSymbolTable n (u64 (address + Z.of_nat (sizeof R))) name in
            match ReadDynamicStringTableAtOffset (Elf_Sym.st_name entry) e with
            | (Undefined, e') => (Undefined, e')
            | (Failed, e') => next e'
            | (Done string, e') => if bool_decide (string = name) then (Done (symbol_information entry), e') else next e'
            end
        end
  end.

(** [GetDynamicSymbol]: the address and the size of a symbol. *)
Definition exported (info : SymbolInformation) : bool :=
  negb ((info_shndx info =? SHN_UNDEF) || (info_shndx info =? SHN_COMMON)) &&
  ((info_binding info =? STB_GLOBAL) || (info_binding info =? STB_WEAK)) &&
  ((info_type info =? STT_OBJECT) || (info_type info =? STT_FUNC)).
Definition GetDynamicSymbol (name : bytes) : Op (Z * Z) :=
  elf! (address, num_entries) := InitializeDynamicSymbolTable in
  elf! info := ScanSymbolTable (Z.to_nat num_entries) address name in
  pure_op (fun e =>
    if negb (exported info) then Failed
    else Done (if info_shndx info =? SHN_ABS then info_address info else u64 (info_address info + load_bias_ e), info_size info)).
End Operations.

(** ** The dynamic array *)

Lemma extra_bytes_zero_spec fuel d : (length d <= fuel)%nat -> extra_bytes_zero fuel d = true <-> Forall (fun c => c = 0) d.
Proof.
  revert d. induction fuel as [|f IH]; intros d Hf.
  { destruct d; [|cbn in Hf; lia]. by cbn. }
  destruct d as [|c d]; [by cbn|]. cbn [extra_bytes_zero]. set (l := c :: d) in *. rewrite andb_true_iff, bool_decide_eq_true, IH by len_lia.
  rewrite <-(take_drop 8 l) at 4. rewrite Forall_app. split; intros [Ht Hd]; (split; [|done]).
  - rewrite Ht. by apply Forall_replicate.
  - symmetry. apply replicate_as_Forall. split; [done|]. eapply Forall_impl; [exact Ht|]. by intros ? ->.
Qed.
(** The bytes of a value that is as large as what it is copied to. *)
Lemma get_value values tag v : values !! tag = Some v -> 0 <= v < 2 ^ 64 -> GetValue values tag = Some v.
Proof.
  intros E Hv. unfold GetValue. rewrite E. cbn [mbind option_bind]. unfold ReinterpretBytesImpl.
  assert (extra_bytes_zero (length (le_bytes 8 v)) (drop 8 (le_bytes 8 v)) = true) as ->.
  { apply extra_bytes_zero_spec; [rewrite length_drop; lia|by rewrite drop_ge by (by rewrite length_le_bytes)]. }
  cbn [mbind option_bind]. rewrite take_ge, length_le_bytes, app_nil_r by (by rewrite length_le_bytes).
  by rewrite le_value_bytes_small.
Qed.
Lemma get_value_none values tag : values !! tag = None -> GetValue values tag = None.
Proof. intros E. unfold GetValue. by rewrite E. Qed.

(** The values of entries, and their keys. *)
Definition entry_key (x : Elf_Dyn.t) : Z := cast uint64_t (Elf_Dyn.d_tag x).
Fixpoint add_entries (values : gmap Z Z) (l : list Elf_Dyn.t) : gmap Z Z :=
  match l with
  | [] => values
  | x :: l' => add_entries (if Elf_Dyn.d_tag x =? DT_NEEDED then values else <[entry_key x := Elf_Dyn.d_ptr x]> values) l'
  end.
Definition entry_keys (l : list Elf_Dyn.t) : list Z := map entry_key (filter (fun x => Elf_Dyn.d_tag x <> DT_NEEDED) l).

Section Correct.
  Context {M : Type} `{ProcessMemoryLaws M} `{!ProcessMemoryProgress M}.

Definition dyn_bytes (is_64_bit : bool) (l : list Elf_Dyn.t) : bytes := concat (map (to_bytes (Elf_Dyn.repr is_64_bit)) l).
Definition dyn_ok (is_64_bit : bool) (x : Elf_Dyn.t) : Prop := valid (Elf_Dyn.repr is_64_bit) x = true /\ Elf_Dyn.d_tag x <> DT_NULL.

Lemma dyn_size b : 0 < Z.of_nat (sizeof (Elf_Dyn.repr b)) <= 16.
Proof. destruct b; cbn; lia. Qed.
Lemma entry_keys_cons x l :
  entry_keys (x :: l) = if Elf_Dyn.d_tag x =? DT_NEEDED then entry_keys l else entry_key x :: entry_keys l.
Proof.
  unfold entry_keys. rewrite filter_cons. destruct (Z.eqb_spec (Elf_Dyn.d_tag x) DT_NEEDED); [by rewrite decide_False by (by intros ?)|].
  by rewrite decide_True.
Qed.
Lemma located_end (r : ProcessMemoryRange M) a d : located r a d -> 0 <= a /\ a + Z.of_nat (length d) < 2 ^ 64.
Proof. intros (lo & hi & (_ & ? & ?) & ? & ? & _). pose proof (pointer_width (Is64Bit r)). lia. Qed.

Lemma length_dyn_bytes b l : Forall (dyn_ok b) l -> length (dyn_bytes b l) = (length l * sizeof (Elf_Dyn.repr b))%nat.
Proof.
  induction 1 as [|x l [Hx _] _ IH]; [done|]. unfold dyn_bytes in *. cbn [map concat length]. rewrite length_app, IH, length_to_bytes by done. lia.
Qed.
Lemma read_dynamic_spec fuel memory a size values l null rest :
  let R := Elf_Dyn.repr (Is64Bit memory) in
  Forall (dyn_ok (Is64Bit memory)) l -> valid R null = true -> Elf_Dyn.d_tag null = DT_NULL ->
  NoDup (entry_keys l) -> Forall (fun k => values !! k = None) (entry_keys l) ->
  located memory a (dyn_bytes (Is64Bit memory) l ++ to_bytes R null ++ rest) ->
  Z.of_nat (S (length l) * sizeof R) <= size < 2 ^ 64 -> (length l < fuel)%nat ->
  read_dynamic fuel memory a size values = Done (add_entries values l).
Proof.
  intros R. revert a size values fuel. induction l as [|x l IH]; intros a size values fuel Hok Hn0 Hn Hnd Hfr Hl Hs Hf;
    (destruct fuel as [|f]; [cbn in Hf; lia|]); cbn [read_dynamic]; fold R; pose proof (dyn_size (Is64Bit memory)) as Hsz; fold R in Hsz.
  - rewrite (proj2 (Z.eqb_neq _ _)) by (cbn in Hs; lia). cbn [dyn_bytes map concat app] in Hl. apply located_app in Hl as [Hl _].
    rewrite (located_read _ _ _ _ Hl) by (by rewrite length_to_bytes). cbn [outcome_bind]. rewrite of_bytes_exact by (apply _ || done).
    by rewrite Hn.
  - rewrite (proj2 (Z.eqb_neq _ _)) by (cbn in Hs; lia). cbn [dyn_bytes map concat] in Hl. fold (dyn_bytes (Is64Bit memory) l) R in Hl.
    rewrite <-app_assoc in Hl. pose proof (located_end _ _ _ Hl) as He. apply located_app in Hl as [Hx Hl].
    apply Forall_cons in Hok as [[Hv H0'] Hok]. assert (length (to_bytes R x) = sizeof R) as El by (by apply length_to_bytes).
    rewrite (located_read _ _ _ _ Hx) by (by rewrite El). cbn [outcome_bind]. rewrite of_bytes_exact by (apply _ || done).
    rewrite (proj2 (Z.eqb_neq _ _) H0'). rewrite El in Hl. rewrite length_app, El in He.
    rewrite (wrap_small 64 (size - _)), (wrap_small 64 (a + _)) by (cbn [length] in Hs; lia).
    rewrite entry_keys_cons in Hnd, Hfr. cbn [add_entries]. fold (entry_key x).
    destruct (Elf_Dyn.d_tag x =? DT_NEEDED); [by apply IH; [done..|cbn [length] in *; lia|cbn in Hf; lia]|].
    apply NoDup_cons in Hnd as [Hni Hnd]. apply Forall_cons in Hfr as [Hnone Hfr].
    change (cast uint64_t (Elf_Dyn.d_tag x)) with (entry_key x). rewrite Hnone. apply IH; [done..| |done|cbn [length] in *; lia|cbn in Hf; lia].
    rewrite Forall_forall in *. intros k Hin. rewrite lookup_insert_ne; [by apply Hfr|]. intros E. apply Hni. by rewrite E.
Qed.

(** *** The hash tables *)

Definition u32_bytes (l : list Z) : bytes := concat (map (le_bytes 4) l).

Lemma walk_chain_spec fuel memory base symoffset last_symbol cs final :
  0 <= base -> 0 <= symoffset <= last_symbol -> last_symbol + Z.of_nat (length cs) + 1 < 2 ^ 32 ->
  Forall (fun c => fits 32 c = true /\ Z.testbit c 0 = false) cs -> fits 32 final = true -> Z.testbit final 0 = true ->
  located memory (base + (last_symbol - symoffset) * 4) (u32_bytes (cs ++ [final])) -> (length cs < fuel)%nat ->
  walk_chain fuel memory base symoffset last_symbol = Done (last_symbol + Z.of_nat (length cs) + 1).
Proof.
  intros Hb. revert last_symbol fuel. induction cs as [|c cs IH]; intros last_symbol fuel Hs Hn Hcs Hfin Hbit Hl Hf;
    (destruct fuel as [|f]; [cbn in Hf; lia|]); cbn [walk_chain length] in *; pose proof (located_end _ _ _ Hl) as He;
    rewrite (wrap_small 32 (last_symbol - symoffset)), (wrap_small 64 (base + _)), (wrap_small 32 (last_symbol + 1)) by lia;
    unfold u32_bytes in Hl; cbn [app map concat] in Hl; apply located_app in Hl as [Hc Hl];
    rewrite (located_read _ _ _ 4 Hc) by done; cbn [outcome_bind].
  - change (of_bytes (uint 4) (le_bytes 4 final)) with (of_bytes (uint 4) (to_bytes (uint 4) final)). rewrite of_bytes_exact by (apply _ || done).
    rewrite Hbit. f_equal. lia.
  - apply Forall_cons in Hcs as [[Hfc Hbc] Hcs]. change (le_bytes 4 c) with (to_bytes (uint 4) c) at 1.
    rewrite of_bytes_exact by (apply _ || done). rewrite Hbc. rewrite length_le_bytes in Hl.
    rewrite (IH (last_symbol + 1) f); [f_equal; lia|lia|lia|done|done|done| |lia].
    by replace (base + (last_symbol + 1 - symoffset) * 4) with (base + (last_symbol - symoffset) * 4 + 4) by lia.
Qed.

(** A table of kind DT_GNU_HASH for [n] symbols: the last bucket leads to the last chain,
    whose last entry, and no other one, has the low bit. *)
Record gnu_hash_at (memory : ProcessMemoryRange M) (g n symoffset bloom_size bloom_shift : Z) (buckets cs : list Z) (final : Z) : Prop := {
  gnu_header_valid : valid gnu_hash_header (Z.of_nat (length buckets), symoffset, bloom_size, bloom_shift) = true;
  gnu_header : located memory g (to_bytes gnu_hash_header (Z.of_nat (length buckets), symoffset, bloom_size, bloom_shift));
  gnu_buckets_valid : valid (array (length buckets) (uint 4)) buckets = true;
  gnu_buckets : located memory (g + 16 + (if Is64Bit memory then 8 else 4) * bloom_size) (u32_bytes buckets);
  gnu_count :
    let last_symbol := fold_left Z.max buckets 0 in
    (last_symbol < symoffset /\ n = symoffset) \/
    (symoffset <= last_symbol /\ n = last_symbol + Z.of_nat (length cs) + 1 /\ n < 2 ^ 32 /\
     Forall (fun c => fits 32 c = true /\ Z.testbit c 0 = false) cs /\ fits 32 final = true /\ Z.testbit final 0 = true /\
     located memory (g + 16 + (if Is64Bit memory then 8 else 4) * bloom_size + Z.of_nat (length buckets * 4) + (last_symbol - symoffset) * 4)
       (u32_bytes (cs ++ [final])))
}.

Lemma length_u32_bytes l : length (u32_bytes l) = (length l * 4)%nat.
Proof. induction l as [|x l IH]; [done|]. unfold u32_bytes in *. cbn [map concat length]. rewrite length_app, length_le_bytes, IH. lia. Qed.
Lemma range_size (r : ProcessMemoryRange M) lo hi : covers r lo hi -> CheckedAddressRange.Base (range_ r) = lo /\ CheckedAddressRange.Size (range_ r) = hi - lo.
Proof.
  intros Hr. pose proof (covers_valid r lo hi Hr) as Hv. destruct Hr as (Er & Hlo & Hhi). pose proof (pointer_width (Is64Bit r)).
  rewrite Er in Hv |- *. apply CheckedAddressRange.set_range_base; [apply fits_spec; lia..|done].
Qed.
Lemma located_fuel (r : ProcessMemoryRange M) a d : located r a d -> (length d <= Z.to_nat (CheckedAddressRange.Size (range_ r)))%nat.
Proof. intros (lo & hi & Hc & ? & ? & _). destruct (range_size r lo hi Hc) as [_ ->]. destruct Hc as (_ & ? & _). lia. Qed.

Lemma count_gnu_hash_spec memory g n symoffset bloom_size bloom_shift buckets cs final :
  gnu_hash_at memory g n symoffset bloom_size bloom_shift buckets cs final -> count_gnu_hash memory g = Done n.
Proof.
  intros [Hhv Hh Hbv Hb Hn]. unfold count_gnu_hash. change (Z.of_nat (sizeof gnu_hash_header)) with 16.
  rewrite (located_read _ _ _ 16 Hh) by (by rewrite length_to_bytes). cbn [outcome_bind]. rewrite of_bytes_exact by (apply _ || done).
  pose proof (located_end _ _ _ Hb) as He. pose proof (located_end _ _ _ Hh) as Heh. rewrite length_u32_bytes in He. rewrite Nat2Z.id.
  assert (0 <= symoffset /\ 0 <= bloom_size) as [Hs Hbl].
  { unfold gnu_hash_header in Hhv. rewrite !pair_valid, !andb_true_iff in Hhv. cbn [valid uint] in Hhv. rewrite !fits_spec in Hhv. lia. }
  set (w := if Is64Bit memory then 8 else 4) in *. assert (0 < w) by (unfold w; destruct (Is64Bit memory); lia).
  rewrite (wrap_small 64 (g + 16 + _)) by nia. rewrite (located_read _ _ _ _ Hb) by (by rewrite length_u32_bytes). cbn [outcome_bind].
  change (u32_bytes buckets) with (to_bytes (array (length buckets) (uint 4)) buckets). rewrite of_bytes_exact by (apply _ || done).
  set (last_symbol := fold_left Z.max buckets 0) in *. destruct Hn as [[Hlt ->]|(Hle & -> & Hn & Hcs & Hf & Hbit & Hc)].
  - by rewrite (proj2 (Z.ltb_lt _ _)).
  - rewrite (proj2 (Z.ltb_ge _ _)) by done. change (Z.of_nat (sizeof (array (length buckets) (uint 4)))) with (Z.of_nat (length buckets * 4)).
    rewrite (wrap_small 64 (g + 16 + _ + _)) by nia. apply (walk_chain_spec _ _ _ _ _ cs final); [nia|lia|lia|done|done|done|done|].
    pose proof (located_fuel _ _ _ Hc) as Hfu. rewrite length_u32_bytes, length_app in Hfu. cbn in Hfu. lia.
Qed.

(** *** Symbols *)

Section Lookup.
  Context (not_relocated : bool).

(** An address of the dynamic array, as the operations take it. *)
Definition relocate (e : ElfImageReader M) (v : Z) : Z := if not_relocated then u64 (v + load_bias_ e) else v.
(** The address of the string table: that of a vdso may not have been moved. *)
Definition string_base (e : ElfImageReader M) (v : Z) : Z :=
  let v := relocate e v in
  if (v <? CheckedAddressRange.Base (range_ (elf_memory_ e))) && (v <? CheckedAddressRange.Size (range_ (elf_memory_ e)))
  then u64 (v + load_bias_ e) else v.

(** How many symbols there are, according to a hash table. *)
Definition counted (e : ElfImageReader M) (values : gmap Z Z) (n : Z) : Prop :=
  (exists h nbucket, values !! DT_HASH = Some h /\ valid hash_header (nbucket, n) = true /\
     located (elf_memory_ e) (relocate e h) (to_bytes hash_header (nbucket, n))) \/
  (values !! DT_HASH = None /\ exists g symoffset bloom_size bloom_shift buckets cs final, values !! DT_GNU_HASH = Some g /\
     gnu_hash_at (elf_memory_ e) (relocate e g) n symoffset bloom_size bloom_shift buckets cs final).

Definition sym_bytes (is_64_bit : bool) (symbols : list (Elf_Sym.t * bytes)) : bytes :=
  concat (map (fun s => to_bytes (Elf_Sym.repr is_64_bit) s.1) symbols).
(** A symbol with its name in the string table. *)
Definition symbol_ok (e : ElfImageReader M) (lo hi strtab strsz : Z) (s : Elf_Sym.t * bytes) : Prop :=
  let a := strtab + Elf_Sym.st_name s.1 in
  valid (Elf_Sym.repr (Is64Bit (elf_memory_ e))) s.1 = true /\ lo <= a /\ a < 2 ^ 64 /\ a + Z.of_nat (length s.2) < hi /\
  Elf_Sym.st_name s.1 + Z.of_nat (length s.2) < strsz /\ c_string_at (memory_ (elf_memory_ e)) a s.2.

(** An image with a dynamic array, a symbol table and a string table. *)
Record dynamic_image (e : ElfImageReader M) (lo hi : Z) (entries : list Elf_Dyn.t) (null : Elf_Dyn.t) (symtab strtab strsz : Z)
    (symbols : list (Elf_Sym.t * bytes)) : Prop := {
  di_covers : covers (elf_memory_ e) lo hi;
  di_entries : Forall (dyn_ok (Is64Bit (elf_memory_ e))) entries;
  di_null_valid : valid (Elf_Dyn.repr (Is64Bit (elf_memory_ e))) null = true;
  di_null : Elf_Dyn.d_tag null = DT_NULL;
  di_distinct : NoDup (entry_keys entries);
  di_segment : exists vaddr memsz, GetDynamicSegment (program_headers_ e) = Some (vaddr, memsz) /\
    Z.of_nat (S (length entries) * sizeof (Elf_Dyn.repr (Is64Bit (elf_memory_ e)))) <= memsz < 2 ^ 64 /\
    located (elf_memory_ e) (u64 (vaddr + load_bias_ e))
      (dyn_bytes (Is64Bit (elf_memory_ e)) entries ++ to_bytes (Elf_Dyn.repr (Is64Bit (elf_memory_ e))) null ++ []);
  di_symtab : add_entries ∅ entries !! DT_SYMTAB = Some symtab;
  di_strtab : add_entries ∅ entries !! DT_STRTAB = Some strtab;
  di_strsz : add_entries ∅ entries !! DT_STRSZ = Some strsz;
  di_count : counted e (add_entries ∅ entries) (Z.of_nat (length symbols));
  di_symbols : located (elf_memory_ e) (relocate e symtab) (sym_bytes (Is64Bit (elf_memory_ e)) symbols);
  di_names : Forall (symbol_ok e lo hi (string_base e strtab) strsz) symbols
}.

(** A reader of the image, before and after it has read the dynamic array and the symbol table. *)
Definition ready (e : ElfImageReader M) (values : gmap Z Z) (table : Z * Z) (e' : ElfImageReader M) : Prop :=
  exists a s, e' = set_symbol_table (set_dynamic_array e a) s /\ (a = uninitialized \/ a = is_valid values) /\
    (s = uninitialized \/ s = is_valid table).

Lemma values_in_range b l (values : gmap Z Z) k v :
  Forall (dyn_ok b) l -> (forall k v, values !! k = Some v -> 0 <= v < 2 ^ 64) -> add_entries values l !! k = Some v -> 0 <= v < 2 ^ 64.
Proof.
  intros Hl. revert values. induction Hl as [|x l [Hx _] _ IH]; intros values Hv; cbn [add_entries]; [apply Hv|]. apply IH.
  destruct (_ =? _); [done|]. intros k' v'. destruct (decide (entry_key x = k')) as [<-|Hne]; [|by rewrite lookup_insert_ne; [apply Hv|]].
  rewrite lookup_insert_eq. intros [= <-]. destruct b; cbn [Elf_Dyn.repr] in Hx; rewrite struct_valid, pair_valid, andb_true_iff in Hx;
    cbn [valid uint] in Hx; rewrite fits_spec in Hx; lia.
Qed.

Section Image.
  Context (e : ElfImageReader M) (lo hi : Z) (entries : list Elf_Dyn.t) (null : Elf_Dyn.t) (symtab strtab strsz : Z)
    (symbols : list (Elf_Sym.t * bytes)).
  Context (Hd : dynamic_image e lo hi entries null symtab strtab strsz symbols).
Let values : gmap Z Z := add_entries ∅ entries.
Let table : Z * Z := (relocate e symtab, Z.of_nat (length symbols)).
Let at_state (a : InitializationState (gmap Z Z)) (s : InitializationState (Z * Z)) : ElfImageReader M :=
    set_symbol_table (set_dynamic_array e a) s.
Let array_ok (a : InitializationState (gmap Z Z)) : Prop := a = uninitialized \/ a = is_valid values.

Lemma image_value tag v : values !! tag = Some v -> GetValue values tag = Some v.
Proof using Hd.
  intros E. apply get_value; [done|]. eapply (values_in_range _ entries ∅); [apply (di_entries _ _ _ _ _ _ _ _ _ Hd)| |exact E].
  intros k' v'. by rewrite lookup_empty.
Qed.
Lemma image_address a s tag v :
  tag <> DT_DEBUG -> values !! tag = Some v -> GetAddressFromDynamicArray not_relocated (at_state a s) values tag = Some (relocate e v).
Proof using Hd.
  intros Ht E. unfold GetAddressFromDynamicArray. rewrite (image_value tag v E). cbn [mbind option_bind].
  rewrite (proj2 (Z.eqb_neq _ _) Ht). unfold relocate. cbn [negb]. by rewrite andb_true_r.
Qed.
Lemma image_array a s : array_ok a -> InitializeDynamicArray (at_state a s) = (Done values, at_state (is_valid values) s).
Proof using Hd ProcessMemoryProgress0 H0.
  intros [->| ->]; [|done]. unfold InitializeDynamicArray. cbn [at_state set_symbol_table set_dynamic_array dynamic_array_ program_headers_ load_bias_ elf_memory_].
  destruct (di_segment _ _ _ _ _ _ _ _ _ Hd) as (vaddr & memsz & -> & Hs & Hl). unfold InitializeArray.
  rewrite (read_dynamic_spec _ _ _ _ _ entries null []); [done|apply Hd|apply Hd|apply Hd|apply Hd|by apply Forall_true|done|done|].
  pose proof (located_fuel _ _ _ Hl) as Hf. rewrite !length_app in Hf. cbn [length] in Hf.
  rewrite (length_to_bytes (R := Elf_Dyn.repr (Is64Bit (elf_memory_ e)))) in Hf by apply Hd.
  rewrite length_dyn_bytes in Hf by apply Hd. pose proof (dyn_size (Is64Bit (elf_memory_ e))). nia.
Qed.

Lemma image_string a s name sym :
  array_ok a -> (sym, name) ∈ symbols ->
  ReadDynamicStringTableAtOffset not_relocated (Elf_Sym.st_name sym) (at_state a s) = (Done name, at_state (is_valid values) s).
Proof using Hd ProcessMemoryProgress0 H0.
  intros Ha Hin. unfold ReadDynamicStringTableAtOffset, op_bind. rewrite (image_array a s Ha). unfold pure_op. f_equal.
  unfold string_table. rewrite (image_address _ _ DT_STRTAB strtab), (image_value DT_STRSZ strsz) by (done || apply Hd).
  cbn [mbind option_bind lift outcome_bind]. pose proof (di_names _ _ _ _ _ _ _ _ _ Hd) as Hn. rewrite Forall_forall in Hn.
  destruct (Hn _ Hin) as (Hv & Hlo & H64 & Hhi & Hsz & Hs). cbn [fst snd] in *.
  assert (0 <= Elf_Sym.st_name sym) as Hst.
  { destruct (Is64Bit (elf_memory_ e)); cbn [Elf_Sym.repr] in Hv; rewrite struct_valid, !pair_valid, !andb_true_iff in Hv;
      cbn [valid uint] in Hv; rewrite !fits_spec in Hv; lia. }
  pose proof (di_covers _ _ _ _ _ _ _ _ _ Hd) as Hc. pose proof Hc as (_ & Hl0 & _).
  assert (0 <= strsz < 2 ^ 64) as Hsr.
  { eapply (values_in_range _ entries ∅); [apply (di_entries _ _ _ _ _ _ _ _ _ Hd)| |apply (di_strsz _ _ _ _ _ _ _ _ _ Hd)]. by intros k' v'. }
  rewrite (proj2 (Z.leb_gt _ _)) by lia. cbn [at_state set_symbol_table set_dynamic_array elf_memory_ load_bias_]. fold (string_base e strtab).
  rewrite (wrap_small 64 (_ + _)), (wrap_small 64 (strsz - _)) by lia. apply (range_c_string_spec _ lo hi); [done|lia|lia|]. split_and!; [lia|done|lia|lia].
Qed.

Lemma image_count a s :
  array_ok a -> number_of_symbols not_relocated (at_state a s) = (Done (Z.of_nat (length symbols)), at_state (is_valid values) s).
Proof using Hd ProcessMemoryProgress0 H0.
  intros Ha. unfold number_of_symbols, GetNumberOfSymbolEntriesFromDtHash, GetNumberOfSymbolEntriesFromDtGnuHash, op_bind.
  rewrite (image_array a s Ha). unfold pure_op.
  destruct (di_count _ _ _ _ _ _ _ _ _ Hd) as [(h & nbucket & Eh & Hv & Hl)|(Eh & g & so & bs & sh & bu & cs & fi & Eg & Hg)]; fold values in Eh.
  - rewrite (image_address _ _ DT_HASH h) by done. cbn [lift outcome_bind].
    cbn [at_state set_symbol_table set_dynamic_array elf_memory_].
    rewrite (located_read _ _ _ _ Hl) by (by rewrite length_to_bytes). cbn [outcome_bind]. by rewrite of_bytes_exact by (apply _ || done).
  - unfold GetAddressFromDynamicArray at 1. rewrite (get_value_none _ _ Eh). cbn [mbind option_bind lift outcome_bind].
    rewrite (image_array (is_valid values) s) by (by right). rewrite (image_address _ _ DT_GNU_HASH g) by done. cbn [lift outcome_bind].
    cbn [at_state set_symbol_table set_dynamic_array elf_memory_]. by rewrite (count_gnu_hash_spec _ _ _ _ _ _ _ _ _ Hg).
Qed.

Lemma image_table_initialized a s :
  array_ok a -> s = uninitialized \/ s = is_valid table ->
  exists a', InitializeDynamicSymbolTable not_relocated (at_state a s) = (Done table, at_state a' (is_valid table)) /\ array_ok a'.
Proof using Hd ProcessMemoryProgress0 H0.
  intros Ha [->| ->]; [|by exists a]. exists (is_valid values). split; [|by right]. unfold InitializeDynamicSymbolTable.
  change (symbol_table_ (at_state a uninitialized)) with (@uninitialized (Z * Z)). cbv iota.
  change (set_symbol_table (at_state a uninitialized) invalid) with (at_state a invalid). unfold op_bind at 1. rewrite (image_array a invalid Ha).
  unfold op_bind, pure_op. rewrite (image_address _ _ DT_SYMTAB symtab) by (done || apply Hd). cbn [lift].
  by rewrite (image_count (is_valid values) invalid) by (by right).
Qed.

(** The symbols are compared with the name one after the other. *)
Lemma image_scan l a s address name :
  (forall x, x ∈ l -> x ∈ symbols) -> array_ok a ->
  located (elf_memory_ e) address (sym_bytes (Is64Bit (elf_memory_ e)) l) ->
  exists a', array_ok a' /\
    ScanSymbolTable not_relocated (length l) address name (at_state a s) =
      (match List.find (fun x => bool_decide (x.2 = name)) l with Some x => Done (symbol_information x.1) | None => Failed end, at_state a' s).
Proof using Hd ProcessMemoryProgress0 H0.
  revert a address. induction l as [|[sym string] l IH]; intros a address Hin Ha Hl; cbn [length ScanSymbolTable List.find].
  { exists a. by split. }
  cbn [at_state set_symbol_table set_dynamic_array elf_memory_]. set (R := Elf_Sym.repr (Is64Bit (elf_memory_ e))).
  pose proof (di_names _ _ _ _ _ _ _ _ _ Hd) as Hn. rewrite Forall_forall in Hn. destruct (Hn _ (Hin (sym, string) ltac:(left))) as [Hv _]. cbn [fst] in Hv.
  pose proof (located_end _ _ _ Hl) as He. cbn [sym_bytes map concat fst] in Hl, He. fold R (sym_bytes (Is64Bit (elf_memory_ e)) l) in Hl, He.
  assert (length (to_bytes R sym) = sizeof R) as El by (by apply length_to_bytes). rewrite length_app, El in He.
  apply located_app in Hl as [Hx Hl]. rewrite El in Hl. rewrite (located_read _ _ _ _ Hx) by (by rewrite El).
  rewrite of_bytes_exact by (apply _ || done). fold (at_state a s). rewrite (image_string a s string sym Ha) by (apply Hin; left). cbn [snd].
  destruct (bool_decide (string = name)) eqn:E; [exists (is_valid values); split; [by right|done]|].
  rewrite wrap_small by lia. apply IH; [|by right|done]. intros x Hx'. apply Hin. by right.
Qed.
End Image.
End Lookup.
End Correct.

(** C25.  [GetDynamicSymbol] on an image with a dynamic array, a hash table of either kind
    that counts the symbols, a symbol table and a string table: it finds the first symbol
    with the name, and gives its size and its address in memory if it is a defined global
    or weak object or function, and fails if it is another kind of symbol or if there is
    none; and it can be asked again, as the array and the table are read once. *)
Theorem dynamic_symbol_found {M} `{ProcessMemoryLaws M} `{!ProcessMemoryProgress M} (not_relocated : bool) (e : ElfImageReader M)
    lo hi entries null symtab strtab strsz symbols e1 name :
  dynamic_image not_relocated e lo hi entries null symtab strtab strsz symbols ->
  ready e (add_entries ∅ entries) (relocate not_relocated e symtab, Z.of_nat (length symbols)) e1 ->
  exists e2, ready e (add_entries ∅ entries) (relocate not_relocated e symtab, Z.of_nat (length symbols)) e2 /\
    GetDynamicSymbol not_relocated name e1 =
      (match List.find (fun x => bool_decide (x.2 = name)) symbols with
       | Some (sym, _) =>
           let info := symbol_information sym in
           if exported info
           then Done (if info_shndx info =? SHN_ABS then info_address info else u64 (info_address info + load_bias_ e), info_size info)
           else Failed
       | None => Failed
       end, e2).
Proof.
  intros Hd (a & s & -> & Ha & Hs). destruct (image_table_initialized _ _ _ _ _ _ _ _ _ _ Hd a s Ha Hs) as (a' & E & Ha').
  unfold GetDynamicSymbol, op_bind. rewrite E. rewrite Nat2Z.id.
  destruct (image_scan _ _ _ _ _ _ _ _ _ _ Hd symbols a' (is_valid (relocate not_relocated e symtab, Z.of_nat (length symbols)))
    (relocate not_relocated e symtab) name) as (a2 & Ha2 & E2); [done|done|apply Hd|]. rewrite E2.
  exists (set_symbol_table (set_dynamic_array e a2) (is_valid (relocate not_relocated e symtab, Z.of_nat (length symbols)))).
  split; [exists a2, (is_valid (relocate not_relocated e symtab, Z.of_nat (length symbols))); split_and!; [done|done|by right]|].
  destruct (List.find _ symbols) as [[sym str]|]; [|done]. unfold pure_op. cbn [fst]. by destruct (exported _).
Qed.

(** ** An example *)

(** An image loaded at 4096 with one symbol, [abc]. *)
Definition example_entries : list Elf_Dyn.t :=
  [Elf_Dyn.Make DT_NEEDED 7; Elf_Dyn.Make DT_SYMTAB 8192; Elf_Dyn.Make DT_STRTAB 12288; Elf_Dyn.Make DT_STRSZ 5; Elf_Dyn.Make DT_HASH 16384].
Definition example_null : Elf_Dyn.t := Elf_Dyn.Make DT_NULL 0.
Definition example_symbol : Elf_Sym.t := Elf_Sym.Make 1 17 0 5 256 8.
Definition example_symbol_memory : Memory :=
  [(4096, dyn_bytes true example_entries ++ to_bytes (Elf_Dyn.repr true) example_null ++ []);
   (8192, sym_bytes true [(example_symbol, str "abc")]); (12288, [0] ++ str "abc" ++ [0]); (16384, to_bytes hash_header (1, 1))].
Definition example_symbol_image : ElfImageReader Memory :=
  MkElfImageReader (Elf_Ehdr.Make [] ET_DYN 0 1 0 0 0 0 64 56 1 0 0 0) 4096 4096
    (MkMemoryRange example_symbol_memory (CheckedAddressRange.SetRange true 4096 16384)) [Elf_Phdr.Make PT_DYNAMIC 4 0 0 0 96 96 8]
    uninitialized uninitialized.

Lemma example_dynamic_image :
  dynamic_image false example_symbol_image 4096 20480 example_entries example_null 8192 12288 5 [(example_symbol, str "abc")].
Proof.
  assert (covers (elf_memory_ example_symbol_image) 4096 20480) as Hc by (split; [done|cbn; lia]).
  assert (forall i base d, example_symbol_memory !! i = Some (base, d) -> region_ok example_symbol_memory i base d = true ->
    4096 <= base -> base + Z.of_nat (length d) <= 20480 -> located (elf_memory_ example_symbol_image) base d) as Hl.
  { intros i base d Hi Hok Hlo Hhi. exists 4096, 20480. split_and!; [done|done|done|]. by apply (region_load example_symbol_memory i). }
  split.
  - exact Hc.
  - by repeat constructor.
  - done.
  - done.
  - apply (bool_decide_unpack _). by vm_compute.
  - exists 0, 96. split; [done|]. split; [cbn; lia|]. apply (Hl 0%nat); (vm_compute; congruence).
  - by vm_compute.
  - by vm_compute.
  - by vm_compute.
  - left. exists 16384, 1. split; [by vm_compute|]. split; [done|]. apply (Hl 3%nat); (vm_compute; congruence).
  - apply (Hl 1%nat); (vm_compute; congruence).
  - repeat constructor; try (vm_compute; congruence). apply (bool_decide_unpack _). by vm_compute.
Qed.

Lemma dynamic_symbol_found_witness :
  exists e, ready example_symbol_image (add_entries ∅ example_entries) (8192, 1) e /\
    GetDynamicSymbol false (str "abc") example_symbol_image = (Done (4352, 8), e).
Proof.
  destruct (dynamic_symbol_found false example_symbol_image 4096 20480 example_entries example_null 8192 12288 5 [(example_symbol, str "abc")]
    example_symbol_image (str "abc") example_dynamic_image) as (e & Hr & E).
  - exists uninitialized, uninitialized. split; [reflexivity|]. split; by left.
  - exists e. split; [exact Hr|exact E].
Defined.
