(* ===== verification/LinuxProcess.v ===== *)
(** * What the kernel and the dynamic linker tell of a process (util/linux, snapshot/linux)

    - [AuxiliaryVector] (util/linux/auxiliary_vector.cc): the pairs of /proc/<pid>/auxv,
      read with [ReadExactly] from a [StringFile] of [FileIO];
    - [DebugRendezvous] (snapshot/linux/debug_rendezvous.cc): the list of the objects that
      are loaded, which the dynamic linker keeps in the memory of the process, read
      through a [ProcessMemoryRange] of [ProcessMemory].

    The list is that of another process, which may have crashed because it was overwritten:
    what is shown is that reading it ends, and gives the entries of a list that ends. *)

From S2P Require Import Prelude.
From S2P Require Import Numeric.
From S2P Require Import Structs.
From S2P Require Import FileIO.
From S2P Require Import ProcessMemory.
From S2P Require Import ElfImage.
From S2P Require Import ElfSymbols.
#[local] Open Scope crashpad_scope.

(** ** AuxiliaryVector *)

Module AuxiliaryVector.

(** The constants of <linux/auxvec.h> that are used. *)
Definition AT_NULL : Z := 0.
Definition AT_IGNORE : Z := 1.

(** [MapInsertOrReplace], without an [old_value]. *)
Definition MapInsertOrReplace (values : gmap Z Z) (key value : Z) : bool * gmap Z Z :=
  (match values !! key with Some _ => false | None => true end, <[key := value]> values).

(** The loop of [Read]; [w] is the size of [ULong], and [None] is out of fuel. *)
Fixpoint read_entries (fuel w : nat) (aux_file : StringFile.t) (values : gmap Z Z) : option (bool * gmap Z Z) :=
  match fuel with
  | O => None
  | S f =>
      match ReadExactly aux_file w with
      | None => None
      | Some None => Some (false, values)
      | Some (Some (type, aux_file)) =>
          match ReadExactly aux_file w with
          | None => None
          | Some None => Some (false, values)
          | Some (Some (value, aux_file)) =>
              let type := of_bytes (uint w) type in
              let value := of_bytes (uint w) value in
              if (type =? AT_NULL) && (value =? 0) then Some (true, values)
              else if type =? AT_IGNORE then read_entries f w aux_file values
              else
                let '(inserted, values) := MapInsertOrReplace values type value in
                if inserted then read_entries f w aux_file values else Some (false, values)
          end
      end
  end.
(** [contents] is what [ReadFileContents] gives, [None] if it fails; each round reads a
    byte at least. *)
Definition Read (w : nat) (contents : option bytes) (values : gmap Z Z) : option (bool * gmap Z Z) :=
  match contents with
  | None => Some (false, values)
  | Some s => read_entries (S (length s)) w (StringFile.SetString s) values
  end.
Definition Initialize (is_64_bit : bool) (contents : option bytes) : option (bool * gmap Z Z) :=
  Read (if is_64_bit then 8%nat else 4%nat) contents ∅.
(** [GetValue], for a type [V] of [n] bytes. *)
Definition GetValue (values : gmap Z Z) (n : nat) (type : Z) : option bytes :=
  v ← values !! type; ReinterpretBytesImpl (le_bytes 8 v) n.

(** *** What is read *)

Definition entry_repr (w : nat) : Repr (Z * Z) := uint w ⊗ uint w.
Definition entries_bytes (w : nat) (l : list (Z * Z)) : bytes := concat (map (to_bytes (entry_repr w)) l).
(** An entry that does not end the vector. *)
Definition entry_ok (w : nat) (e : Z * Z) : Prop := valid (entry_repr w) e = true /\ ~ (e.1 = AT_NULL /\ e.2 = 0).
(** The entries that are kept. *)
Definition kept (l : list (Z * Z)) : list (Z * Z) := filter (fun e => e.1 <> AT_IGNORE) l.

Lemma read_word w f s :
  reader_valid f -> remaining f = s ->
  match ReadExactly f w with
  | Some (Some (d, f')) => (w <= length s)%nat /\ d = take w s /\ reader_valid f' /\ remaining f' = drop w s
  | Some None => (length s < w)%nat
  | None => False
  end.
Proof.
  intros Hv <-. destruct (read_exactly_spec f w Hv) as [Hle Hlt].
  destruct (decide (w <= length (remaining f))%nat) as [H|H]; [by destruct (Hle H) as (f' & -> & ? & ?)|].
  by rewrite Hlt by lia; lia.
Qed.

Lemma read_entry f w aux_file values e s :
  reader_valid aux_file -> remaining aux_file = to_bytes (entry_repr w) e ++ s -> valid (entry_repr w) e = true ->
  exists aux_file', reader_valid aux_file' /\ remaining aux_file' = s /\
  read_entries (S f) w aux_file values =
    if (e.1 =? AT_NULL) && (e.2 =? 0) then Some (true, values)
    else if e.1 =? AT_IGNORE then read_entries f w aux_file' values
    else match values !! e.1 with
         | Some _ => Some (false, <[e.1 := e.2]> values)
         | None => read_entries f w aux_file' (<[e.1 := e.2]> values)
         end.
Proof.
  intros Hv Hs He. cbn [read_entries]. cbn [entry_repr pair_repr valid to_bytes] in He, Hs. apply andb_true_iff in He as [H1 H2].
  pose proof (length_to_bytes (R := uint w) _ H1) as L1. pose proof (length_to_bytes (R := uint w) _ H2) as L2. cbn [sizeof uint] in L1, L2.
  rewrite <-app_assoc in Hs. pose proof (read_word w aux_file _ Hv Hs) as R1.
  destruct (ReadExactly aux_file w) as [[[d1 f1]|]|]; [|len_lia|done]. destruct R1 as (_ & -> & Hv1 & Hr1).
  rewrite drop_app_length' in Hr1 by done. rewrite take_app_length' by done. pose proof (read_word w f1 _ Hv1 Hr1) as R2.
  destruct (ReadExactly f1 w) as [[[d2 f2]|]|]; [|len_lia|done]. destruct R2 as (_ & -> & Hv2 & Hr2).
  rewrite drop_app_length' in Hr2 by done. rewrite take_app_length' by done. exists f2. split; [done|]. split; [done|].
  rewrite !of_bytes_exact by (apply _ || done). unfold MapInsertOrReplace. by destruct (values !! e.1).
Qed.

(** The entries before [rest] are added, up to one with a type that has been read. *)
Lemma read_entries_app l : forall f w aux_file values rest,
  reader_valid aux_file -> remaining aux_file = entries_bytes w l ++ rest -> Forall (entry_ok w) l ->
  NoDup (kept l).*1 -> Forall (fun k => values !! k = None) (kept l).*1 ->
  exists aux_file', reader_valid aux_file' /\ remaining aux_file' = rest /\
  read_entries (length l + f) w aux_file values =
  read_entries f w aux_file' (foldl (fun m e => <[e.1 := e.2]> m) values (kept l)).
Proof.
  induction l as [|e l IH]; intros f w aux_file values rest Hv Hs Hl Hd Hn; [by exists aux_file|].
  apply Forall_cons in Hl as [[He Hz] Hl]. unfold entries_bytes in Hs. cbn [map concat] in Hs. rewrite <-app_assoc in Hs.
  destruct (read_entry (length l + f) w aux_file values e _ Hv Hs He) as (f1 & Hv1 & Hr1 & E). cbn [length Nat.add]. rewrite E.
  assert ((e.1 =? AT_NULL) && (e.2 =? 0) = false) as -> by (apply not_true_iff_false; rewrite andb_true_iff, !Z.eqb_eq; done).
  unfold kept in *. rewrite filter_cons in Hd, Hn |- *. destruct (Z.eqb_spec (e.1) AT_IGNORE) as [Ei|Ei].
  - rewrite decide_False in Hd, Hn |- * by tauto. by apply IH.
  - rewrite decide_True in Hd, Hn |- * by done. cbn [fmap list_fmap] in Hd, Hn. apply NoDup_cons in Hd as [Hne Hd].
    apply Forall_cons in Hn as [Hn1 Hn]. rewrite Hn1. cbn [foldl]. apply IH; [done..|].
    rewrite Forall_forall in Hn |- *. intros k Hk. rewrite lookup_insert_ne by (intros <-; done). by apply Hn.
Qed.
Lemma length_auxv_bytes w l : Forall (entry_ok w) l -> length (entries_bytes w l) = (length l * (w + w))%nat.
Proof.
  unfold entries_bytes. induction 1 as [|e l [He _] _ IH]; [done|]. cbn [map concat length]. rewrite length_app, IH.
  rewrite (length_to_bytes e He). cbn [sizeof entry_repr pair_repr uint]. lia.
Qed.


Lemma foldl_insert (l : list (Z * Z)) : forall m : gmap Z Z,
  NoDup l.*1 -> foldl (fun m e => <[e.1 := e.2]> m) m l = list_to_map l ∪ m.
Proof.
  induction l as [|[k v] l IH]; intros m Hd; cbn [foldl]; [symmetry; apply map_empty_union|].
  rewrite fmap_cons in Hd. apply NoDup_cons in Hd as [Hne Hd]. rewrite IH by done. cbn [list_to_map foldr fst snd uncurry] in *.
  rewrite <-insert_union_l, insert_union_r; [done|]. by apply not_elem_of_list_to_map_1.
Qed.

(** The fuel is enough for the entries and one round more. *)
Lemma read_prefix w l rest :
  (0 < w)%nat -> Forall (entry_ok w) l -> Z.of_nat (length (entries_bytes w l ++ rest)) < 2 ^ 63 -> NoDup (kept l).*1 ->
  exists f aux_file, reader_valid aux_file /\ remaining aux_file = rest /\
  Read w (Some (entries_bytes w l ++ rest)) ∅ = read_entries (S f) w aux_file (list_to_map (kept l)).
Proof.
  intros Hw Hl Hsz Hd. cbn [Read]. set (s := _ ++ rest). assert (length l <= length s)%nat as Hle.
  { unfold s. rewrite length_app, length_auxv_bytes by done. nia. }
  destruct (read_entries_app l (S (length s - length l)) w (StringFile.SetString s) ∅ rest) as (f1 & Hv1 & Hr1 & E);
    [split; [done|exact Hsz]|done|done|done|apply Forall_forall; intros; apply lookup_empty|].
  exists (length s - length l)%nat, f1. split; [done|]. split; [done|].
  rewrite foldl_insert, map_union_empty in E by done. rewrite <-E. f_equal. lia.
Qed.

(** The vector of a process is read: up to the entry of type AT_NULL each type has its
    value, and those of type AT_IGNORE are left out.  Without that entry, or with two
    values for a type, nothing is read. *)
Theorem auxiliary_vector_read (w : nat) (l : list (Z * Z)) (rest : bytes) :
  (0 < w)%nat -> Forall (entry_ok w) l -> Z.of_nat (length (entries_bytes w l) + (w + w) + length rest) < 2 ^ 63 -> NoDup (kept l).*1 ->
  Read w (Some (entries_bytes w l ++ to_bytes (entry_repr w) (AT_NULL, 0) ++ rest)) ∅ = Some (true, list_to_map (kept l)) /\
  ((length rest < w + w)%nat -> Read w (Some (entries_bytes w l ++ rest)) ∅ = Some (false, list_to_map (kept l))) /\
  (forall e, entry_ok w e -> e.1 <> AT_IGNORE -> e.1 ∈ (kept l).*1 ->
   Read w (Some (entries_bytes w l ++ to_bytes (entry_repr w) e ++ rest)) ∅ = Some (false, <[e.1 := e.2]> (list_to_map (kept l)))).
Proof.
  intros Hw Hl Hsz Hd. assert (forall e, valid (entry_repr w) e = true -> length (to_bytes (entry_repr w) e) = (w + w)%nat) as He by (intros ? Hx; by rewrite (length_to_bytes _ Hx)).
  assert (valid (entry_repr w) (AT_NULL, 0) = true) as Hnull.
  { cbn [entry_repr pair_repr valid uint fst snd]. apply andb_true_iff. unfold AT_NULL. rewrite fits_spec. lia. }
  split_and!.
  - destruct (read_prefix w l (to_bytes (entry_repr w) (AT_NULL, 0) ++ rest) Hw Hl) as (f & f1 & Hv & Hr & ->); [rewrite !length_app, He by done; lia|done|].
    destruct (read_entry f w f1 (list_to_map (kept l)) (AT_NULL, 0) rest Hv Hr) as (f2 & _ & _ & ->); done.
  - intros Hrest. destruct (read_prefix w l rest Hw Hl) as (f & f1 & Hv & Hr & ->); [rewrite length_app; lia|done|]. cbn [read_entries].
    pose proof (read_word w f1 _ Hv Hr) as R1. destruct (ReadExactly f1 w) as [[[d1 f2]|]|]; [|done|done].
    destruct R1 as (_ & -> & Hv1 & Hr1). pose proof (read_word w f2 _ Hv1 Hr1) as R2.
    destruct (ReadExactly f2 w) as [[[d2 f3]|]|]; [|done|done]. rewrite length_drop in R2. lia.
  - intros e [Hev Hz] Hi Hin. destruct (read_prefix w l (to_bytes (entry_repr w) e ++ rest) Hw Hl) as (f & f1 & Hv & Hr & ->); [rewrite !length_app, He by done; lia|done|].
    destruct (read_entry f w f1 (list_to_map (kept l)) e rest Hv Hr Hev) as (f2 & _ & _ & ->).
    assert ((e.1 =? AT_NULL) && (e.2 =? 0) = false) as -> by (apply not_true_iff_false; rewrite andb_true_iff, !Z.eqb_eq; done).
    rewrite (proj2 (Z.eqb_neq _ _)) by done. destruct (list_to_map (kept l) !! e.1) eqn:E; [done|].
    by apply not_elem_of_list_to_map_2 in E.
Qed.

Definition example_vector : bytes := entries_bytes 8 [(3, 0x400040); (AT_IGNORE, 7); (6, 4096); (AT_IGNORE, 8)] ++ replicate 16 0 ++ [1; 2; 3].
Lemma auxiliary_vector_read_example :
  match Initialize true (Some example_vector) with
  | Some (read, values) =>
      (read, GetValue values 8 6, GetValue values 2 6, GetValue values 1 6, GetValue values 8 AT_IGNORE) =
      (true, Some (le_bytes 8 4096), Some [0; 16], None, None)
  | None => False
  end.
Proof. by vm_compute. Qed.
End AuxiliaryVector.

(** ** DebugRendezvous *)

Module DebugRendezvous.

(** [Traits::Integer] and [Traits::Address]. *)
Definition traits_integer (is_64_bit : bool) : Repr Z := sint (S (if is_64_bit then 7 else 3)).
Definition traits_address (is_64_bit : bool) : Repr Z := uint (if is_64_bit then 8 else 4).

Module DebugRendezvousSpecific.
Record t := Make { r_version : Z; r_map : Z; r_brk : Z; r_state : Z; r_ldbase : Z }.
Definition repr (b : bool) : Repr t :=
  struct (traits_integer b ⊗ traits_address b ⊗ traits_address b ⊗ traits_integer b ⊗ traits_address b)
    (fun x => (r_version x, r_map x, r_brk x, r_state x, r_ldbase x)) (fun '(x0, x1, x2, x3, x4) => Make x0 x1 x2 x3 x4).
#[global] Instance repr_laws b : ReprLaws (repr b).
Proof. destruct b; struct_laws. Qed.
End DebugRendezvousSpecific.

Module LinkEntrySpecific.
Record t := Make { l_addr : Z; l_name : Z; l_ld : Z; l_next : Z; l_prev : Z }.
Definition repr (b : bool) : Repr t :=
  struct (traits_address b ⊗ traits_address b ⊗ traits_address b ⊗ traits_address b ⊗ traits_address b)
    (fun x => (l_addr x, l_name x, l_ld x, l_next x, l_prev x)) (fun '(x0, x1, x2, x3, x4) => Make x0 x1 x2 x3 x4).
#[global] Instance repr_laws b : ReprLaws (repr b).
Proof. destruct b; struct_laws. Qed.
End LinkEntrySpecific.

Record LinkEntry := MkLinkEntry { name : bytes; load_bias : Z; dynamic_array : Z }.

Section Rendezvous.
  Context {M : Type} `{ProcessMemory M}.

(** The entry, and the address of the next one; without a name it has an empty one. *)
Definition ReadLinkEntry (memory : ProcessMemoryRange M) (address : Z) : outcome (LinkEntry * Z) :=
  let R := LinkEntrySpecific.repr (Is64Bit memory) in
  step! d := RangeRead memory address (Z.of_nat (sizeof R)) in
  let entry := of_bytes R d in
  step! name := match RangeReadCStringSizeLimited memory (LinkEntrySpecific.l_name entry) 4096 with Failed => Done [] | o => o end in
  Done (MkLinkEntry name (LinkEntrySpecific.l_addr entry) (LinkEntrySpecific.l_ld entry), LinkEntrySpecific.l_next entry).

(** The loop of [InitializeSpecific]. *)
Fixpoint read_modules (fuel : nat) (memory : ProcessMemoryRange M) (link_entry_address : Z) (visited : gset Z) (modules : list LinkEntry)
    : outcome (list LinkEntry) :=
  if link_entry_address =? 0 then Done modules
  else
    match fuel with
    | O => Undefined
    | S f =>
        if bool_decide (link_entry_address ∈ visited) then Failed
        else
          step! (entry, next) := ReadLinkEntry memory link_entry_address in
          read_modules f memory next ({[link_entry_address]} ∪ visited) (modules ++ [entry])
    end.

(** The end of it on Android, where [android_get_device_api_level] is [android_runtime_api]. *)
Definition vdso_first (android_runtime_api : option Z) (executable : LinkEntry) (modules : list LinkEntry) : outcome (LinkEntry * list LinkEntry) :=
  match android_runtime_api with
  | None => Done (executable, modules)
  | Some api =>
      if (api =? 28) && bool_decide (name executable = str "[vdso]") then
        match modules with
        | [] => Undefined
        | m :: modules => Done (m, executable :: modules)
        end
      else Done (executable, modules)
  end.

(** [Initialize], with [executable_] and [modules_].  An entry that is read is in the range,
    so that there is fuel for a visit of each address. *)
Definition Initialize (android_runtime_api : option Z) (memory : ProcessMemoryRange M) (address : Z) : outcome (LinkEntry * list LinkEntry) :=
  let R := DebugRendezvousSpecific.repr (Is64Bit memory) in
  step! d := RangeRead memory address (Z.of_nat (sizeof R)) in
  let debug := of_bytes R d in
  if negb (DebugRendezvousSpecific.r_version debug =? 1) then Failed
  else
    step! (executable, next) := ReadLinkEntry memory (DebugRendezvousSpecific.r_map debug) in
    step! modules := read_modules (S (Z.to_nat (CheckedAddressRange.Size (range_ memory)))) memory next ∅ [] in
    vdso_first android_runtime_api executable modules.
End Rendezvous.

(** *** The link map *)

Section LinkMap.
  Context {M : Type} `{ProcessMemoryLaws M} `{!ProcessMemoryProgress M}.
  Context (memory : ProcessMemoryRange M) (lo hi : Z) (Hmem : covers memory lo hi).

(** A structure of the process. *)
Definition struct_at {A} (R : Repr A) (a : Z) (x : A) : Prop :=
  lo <= a /\ a + Z.of_nat (sizeof R) <= hi /\ exists d, load (memory_ memory) a (Z.of_nat (sizeof R)) = Some d /\ x = of_bytes R d.
(** The name at an address: a string of less than 4096 characters in the range, or else no
    character. *)
Definition names (a : Z) (s : bytes) : Prop :=
  lo <= a /\ c_string_at (memory_ memory) a s /\ Z.of_nat (length s) < 4096 /\ a + Z.of_nat (length s) < hi.
Definition link_entry_at (a : Z) (e : LinkEntry) (next : Z) : Prop :=
  exists x, struct_at (LinkEntrySpecific.repr (Is64Bit memory)) a x /\
    load_bias e = LinkEntrySpecific.l_addr x /\ dynamic_array e = LinkEntrySpecific.l_ld x /\ next = LinkEntrySpecific.l_next x /\
    (names (LinkEntrySpecific.l_name x) (name e) \/ name e = [] /\ forall s, ~ names (LinkEntrySpecific.l_name x) s).
(** A list of entries, which ends. *)
Inductive link_map : Z -> list LinkEntry -> Prop :=
  | link_map_end : link_map 0 []
  | link_map_entry a e next l : a <> 0 -> link_entry_at a e next -> link_map next l -> link_map a (e :: l).

Lemma read_struct {A} (R : Repr A) `{!ReprLaws R} a :
  0 <= a < 2 ^ 64 -> Z.of_nat (sizeof R) < 2 ^ 64 ->
  (exists d, RangeRead memory a (Z.of_nat (sizeof R)) = Done d /\ struct_at R a (of_bytes R d) /\ valid R (of_bytes R d) = true) \/
  RangeRead memory a (Z.of_nat (sizeof R)) = Failed /\ forall x, ~ struct_at R a x.
Proof.
  intros Ha Hs. rewrite (range_read_checked memory lo hi) by (done || lia). case_decide as Hin.
  - assert (RangeRead memory a (Z.of_nat (sizeof R)) = lift (load (memory_ memory) a (Z.of_nat (sizeof R)))) as E
      by (apply (range_read_loads memory lo hi); [done|lia..]).
    rewrite (range_read_checked memory lo hi), decide_True in E by (done || lia). rewrite E.
    destruct (load (memory_ memory) a (Z.of_nat (sizeof R))) as [d|] eqn:El; cbn [lift].
    + left. exists d. split; [done|]. split; [by split_and!; [lia|lia|exists d]|].
      apply of_bytes_valid; [by eapply load_bytes|]. apply load_length in El. lia.
    + right. split; [done|]. intros x (_ & _ & d & Ed & _). congruence.
  - right. split; [done|]. intros x (? & ? & _). lia.
Qed.
Lemma struct_at_unique {A} (R : Repr A) a x y : struct_at R a x -> struct_at R a y -> x = y.
Proof. intros (_ & _ & d & E & ->) (_ & _ & d' & E' & ->). congruence. Qed.

Lemma link_entry_bounds x : valid (LinkEntrySpecific.repr (Is64Bit memory)) x = true ->
  0 <= LinkEntrySpecific.l_name x < 2 ^ 64 /\ 0 <= LinkEntrySpecific.l_next x < 2 ^ 64.
Proof.
  unfold LinkEntrySpecific.repr, traits_address. rewrite struct_valid, !pair_valid, !andb_true_iff.
  destruct (Is64Bit memory); cbn [valid uint]; rewrite !fits_spec; lia.
Qed.

(** [ReadLinkEntry] fails where there is no entry, and reads the one that is there. *)
Lemma read_link_entry_spec a :
  0 <= a < 2 ^ 64 ->
  match ReadLinkEntry memory a with
  | Done (e, next) => link_entry_at a e next /\ 0 <= next < 2 ^ 64 /\ lo <= a < hi
  | Failed => forall e next, ~ link_entry_at a e next
  | Undefined => False
  end.
Proof.
  intros Ha. unfold ReadLinkEntry. set (R := LinkEntrySpecific.repr (Is64Bit memory)).
  assert (0 < Z.of_nat (sizeof R) < 2 ^ 64) as Hs by (unfold R; destruct (Is64Bit memory); cbn; lia).
  destruct (read_struct R a Ha ltac:(lia)) as [(d & -> & Hx & Hv)|[-> Hx]]; cbn [outcome_bind];
    [|intros e next (x & ? & _); by eapply Hx].
  destruct (link_entry_bounds _ Hv) as [Hn Hnext]. set (x := of_bytes R d) in *.
  pose proof (fun s => range_c_string_spec memory lo hi (LinkEntrySpecific.l_name x) 4096 s Hmem Hn ltac:(lia)) as Hname.
  pose proof (range_c_string_defined memory (LinkEntrySpecific.l_name x) 4096) as Hdef.
  assert (lo <= a < hi) as Hin by (destruct Hx as (? & ? & _); lia).
  destruct (RangeReadCStringSizeLimited _ _ _) as [|s|]; [| |done]; cbn [outcome_bind]; (split; [|done]); exists x.
  - split_and!; [done..|]. right. split; [done|]. intros s Hc. by apply Hname in Hc.
  - split_and!; [done..|]. left. by apply Hname.
Qed.
Lemma link_entry_unique a e next e' next' :
  0 <= a < 2 ^ 64 -> ReadLinkEntry memory a = Done (e, next) -> link_entry_at a e' next' -> e' = e /\ next' = next.
Proof.
  intros Ha E He'. pose proof (read_link_entry_spec a Ha) as Hr. rewrite E in Hr. destruct Hr as [He _].
  destruct He as (x & Hx & Hb & Hd & Hn & Hname), He' as (x' & Hx' & Hb' & Hd' & Hn' & Hname').
  rewrite (struct_at_unique _ _ _ _ Hx' Hx) in *. split; [|congruence]. destruct e as [n b da], e' as [n' b' da']. cbn [name load_bias dynamic_array] in *.
  subst. f_equal. destruct Hname as [Hs|[-> Hs]], Hname' as [Hs'|[-> Hs']]; [|by edestruct Hs'|by edestruct Hs|done].
  eapply c_string_unique; [apply Hs'|apply Hs].
Qed.

(** There is a way of one entry or more from an address to another one. *)
Inductive leads_to : Z -> Z -> Prop :=
  | leads_one a e next : a <> 0 -> link_entry_at a e next -> leads_to a next
  | leads_on a b e next : leads_to a b -> b <> 0 -> link_entry_at b e next -> leads_to a next.

Lemma link_map_next a e next l :
  a <> 0 -> link_entry_at a e next -> link_map a l -> exists e' l', l = e' :: l' /\ link_map next l'.
Proof.
  intros Ha (x & Hx & _ & _ & -> & _) Hl. destruct Hl as [|a e' next' l _ (x' & Hx' & _ & _ & -> & _) Hl]; [done|].
  rewrite (struct_at_unique _ _ _ _ Hx Hx'). by exists e', l.
Qed.
Lemma leads_shorter a b l : leads_to a b -> link_map a l -> exists l', link_map b l' /\ (length l' < length l)%nat.
Proof.
  induction 1 as [a e next Ha He|a b e next _ IH Hb He]; intros Hl.
  - destruct (link_map_next a e next l Ha He Hl) as (e' & l' & -> & Hl'). exists l'. split; [done|cbn; lia].
  - destruct (IH Hl) as (l1 & Hl1 & Hlt). destruct (link_map_next b e next l1 Hb He Hl1) as (e' & l' & -> & Hl').
    exists l'. split; [done|cbn in Hlt; lia].
Qed.
(** A list that ends does not come back to where it was. *)
Lemma link_map_acyclic a l : link_map a l -> ~ leads_to a a.
Proof.
  remember (length l) as n eqn:En. revert l En. induction (lt_wf n) as [n _ IH]. intros l -> Hl Ha.
  destruct (leads_shorter a a l Ha Hl) as (l' & Hl' & Hlt). by apply (IH _ Hlt l').
Qed.

Lemma visited_size (X : gset Z) : (forall v, v ∈ X -> lo <= v < hi) -> Z.of_nat (size X) <= hi - lo.
Proof.
  intros HX. assert (X ⊆ list_to_set (seqZ lo (hi - lo))) as Hsub.
  { intros v Hv%HX. apply elem_of_list_to_set, elem_of_seqZ. lia. }
  apply subseteq_size in Hsub. rewrite size_list_to_set in Hsub by apply NoDup_seqZ. rewrite length_seqZ in Hsub.
  destruct Hmem as (_ & ? & _). lia.
Qed.

(** The walk ends, and what it gives is a list that ends; it fails only without one. *)
Lemma read_modules_spec fuel a visited modules :
  0 <= a < 2 ^ 64 -> hi - lo < Z.of_nat (size visited) + Z.of_nat fuel ->
  (forall v, v ∈ visited -> lo <= v < hi /\ leads_to v a) ->
  match read_modules fuel memory a visited modules with
  | Done l => exists l', l = modules ++ l' /\ link_map a l'
  | Failed => forall l', ~ link_map a l'
  | Undefined => False
  end.
Proof.
  revert a visited modules. induction fuel as [|f IH]; intros a visited modules Ha Hf Hv; cbn [read_modules];
    (destruct (Z.eqb_spec a 0) as [->|Hne]; [exists []; rewrite app_nil_r; split; [done|constructor]|]).
  { pose proof (visited_size visited (fun v Hin => proj1 (Hv v Hin))). lia. }
  case_bool_decide as Hin; [intros l' Hl'; by eapply link_map_acyclic, Hv|].
  pose proof (read_link_entry_spec a Ha) as Hr. destruct (ReadLinkEntry memory a) as [|[e next]|]; cbn [outcome_bind]; [| |done].
  - intros l' Hl'. destruct Hl' as [|a e next l' _ He _]; [done|]. by apply Hr in He.
  - destruct Hr as (He & Hn & Hlh). specialize (IH next ({[a]} ∪ visited) (modules ++ [e]) Hn).
    rewrite size_union, size_singleton in IH by set_solver. specialize (IH ltac:(lia)).
    assert (forall v, v ∈ {[a]} ∪ visited -> lo <= v < hi /\ leads_to v next) as Hv'.
    { intros v [->%elem_of_singleton|Hvv]%elem_of_union; [split; [done|by eapply leads_one]|].
      destruct (Hv v Hvv). split; [done|by eapply leads_on]. }
    specialize (IH Hv'). destruct (read_modules _ _ _ _ _) as [|l|]; [| |done].
    + intros l' Hl'. destruct (link_map_next a e next l' Hne He Hl') as (e' & l2 & -> & Hl2). by eapply IH.
    + destruct IH as (l' & -> & Hl'). exists (e :: l'). rewrite <-app_assoc. split; [done|by econstructor].
Qed.
Lemma link_map_unique a l l' : 0 <= a < 2 ^ 64 -> link_map a l -> link_map a l' -> l = l'.
Proof.
  intros Ha Hl. revert Ha l'. induction Hl as [|a e next l Hne He Hl IH]; intros Ha l' Hl'.
  - by inversion Hl'.
  - pose proof (read_link_entry_spec a Ha) as Hr. destruct (ReadLinkEntry memory a) as [|[e0 next0]|] eqn:E; [by apply Hr in He| |done].
    destruct (link_entry_unique a _ _ _ _ Ha E He) as [-> ->]. destruct Hl' as [|a e' next' l' _ He' Hl']; [done|].
    destruct (link_entry_unique a _ _ _ _ Ha E He') as [-> ->]. f_equal. apply IH; [apply Hr|done].
Qed.
End LinkMap.

(** C29.  Reading the link map of a process always ends, whatever the process has made of
    it, and nothing outside of the range is read.  It succeeds if and only if there are, in
    the range, a rendezvous structure of version 1, a first entry, and a list of entries
    after it that ends, and gives the first entry as the executable and the others in
    order: that a list comes back to an address is found, and is never found of one
    that ends. *)
Theorem link_map_found {M} `{ProcessMemoryLaws M} `{!ProcessMemoryProgress M} (memory : ProcessMemoryRange M) lo hi address :
  covers memory lo hi -> 0 <= address < 2 ^ 64 ->
  Initialize None memory address <> Undefined /\
  forall executable modules,
    Initialize None memory address = Done (executable, modules) <->
    exists debug next,
      struct_at memory lo hi (DebugRendezvousSpecific.repr (Is64Bit memory)) address debug /\
      DebugRendezvousSpecific.r_version debug = 1 /\
      link_entry_at memory lo hi (DebugRendezvousSpecific.r_map debug) executable next /\
      link_map memory lo hi next modules.
Proof.
  intros Hm Ha. unfold Initialize. set (R := DebugRendezvousSpecific.repr (Is64Bit memory)).
  assert (0 < Z.of_nat (sizeof R) < 2 ^ 64) as Hs by (unfold R; destruct (Is64Bit memory); cbn; lia).
  destruct (read_struct memory lo hi Hm R address Ha ltac:(lia)) as [(d & -> & Hx & Hv)|[-> Hx]]; cbn [outcome_bind].
  2: { split; [done|]. intros ex mods. split; [done|]. intros (debug & next & Hd & _). by destruct (Hx debug). }
  set (debug := of_bytes R d) in *.
  assert (forall debug', struct_at memory lo hi R address debug' -> debug' = debug) as Hu by (intros ? ?; by eapply struct_at_unique).
  destruct (Z.eqb_spec (DebugRendezvousSpecific.r_version debug) 1) as [Hv1|Hv1]; cbn [negb].
  2: { split; [done|]. intros ex mods. split; [done|]. intros (? & next & ->%Hu & ? & _). done. }
  assert (0 <= DebugRendezvousSpecific.r_map debug < 2 ^ 64) as Hmap.
  { unfold R, DebugRendezvousSpecific.repr, traits_address in Hv. rewrite struct_valid, !pair_valid, !andb_true_iff in Hv.
    destruct (Is64Bit memory); cbn [valid uint] in Hv; rewrite !fits_spec in Hv; lia. }
  pose proof (read_link_entry_spec memory lo hi Hm _ Hmap) as Hr.
  destruct (ReadLinkEntry memory _) as [|[e next]|] eqn:Ee; cbn [outcome_bind]; [| |done].
  { split; [done|]. intros ex mods. split; [done|]. intros (? & next & ->%Hu & _ & He & _). by apply Hr in He. }
  destruct Hr as (He & Hn & _). destruct (range_size memory lo hi Hm) as [_ Hsize].
  assert (hi - lo < Z.of_nat (size (∅ : gset Z)) + Z.of_nat (S (Z.to_nat (CheckedAddressRange.Size (range_ memory))))) as Hf.
  { rewrite size_empty, Hsize. destruct Hm as (_ & ? & _). lia. }
  pose proof (read_modules_spec memory lo hi Hm _ next ∅ [] Hn Hf ltac:(set_solver)) as Hl.
  destruct (read_modules _ _ _ _ _) as [|l|]; cbn [outcome_bind vdso_first]; [| |done]; (split; [done|]); intros ex mods.
  - split; [done|]. intros (? & next' & ->%Hu & _ & He' & Hm').
    destruct (link_entry_unique memory lo hi Hm _ _ _ _ _ Hmap Ee He') as [_ ->]. by apply Hl in Hm'.
  - destruct Hl as (l' & -> & Hl). cbn [app]. split; [intros [= <- <-]; by exists debug, next|].
    intros (? & next' & ->%Hu & _ & He' & Hm'). destruct (link_entry_unique memory lo hi Hm _ _ _ _ _ Hmap Ee He') as [-> ->].
    by rewrite (link_map_unique memory lo hi Hm _ _ _ Hn Hm' Hl).
Qed.

(** *** Examples *)

(** A rendezvous structure at 65536 and entries of 40 bytes after it, each with the next
    one's address; the names are at the end. *)
Definition example_entry (bias name_address next : Z) : bytes :=
  to_bytes (LinkEntrySpecific.repr true) (LinkEntrySpecific.Make bias name_address 0 next 0).
Definition example_link_map (last_next : Z) : ProcessMemoryRange Memory :=
  MkMemoryRange
    [(65536, to_bytes (DebugRendezvousSpecific.repr true) (DebugRendezvousSpecific.Make 1 65576 0 0 0) ++
       example_entry 4096 65696 65616 ++ example_entry 8192 65703 65656 ++ example_entry 12288 0 last_next ++
       str "[vdso]" ++ [0] ++ str "libc.so" ++ [0])]
    (CheckedAddressRange.SetRange true 65536 4096).
Definition example_modules : list LinkEntry := [MkLinkEntry (str "libc.so") 8192 0; MkLinkEntry [] 12288 0].

(** A list that ends is read, one that comes back to its second entry is not; on Android,
    the first entry and the second one may be exchanged, if there is a second one. *)
Lemma link_map_found_witness :
  covers (example_link_map 0) 65536 69632 /\
  (exists debug next, struct_at (example_link_map 0) 65536 69632 (DebugRendezvousSpecific.repr true) 65536 debug /\
    link_map (example_link_map 0) 65536 69632 next example_modules) /\
  Initialize None (example_link_map 65616) 65536 <> Undefined.
Proof.
  assert (forall a, covers (example_link_map a) 65536 69632) as Hc by (intros a; split; [done|]; cbn; lia).
  destruct (link_map_found (example_link_map 0) 65536 69632 65536 (Hc 0)) as [_ H0]; [lia|].
  destruct (link_map_found (example_link_map 65616) 65536 69632 65536 (Hc 65616)) as [H1 _]; [lia|].
  split; [apply Hc|]. split; [|exact H1].
  destruct (proj1 (H0 (MkLinkEntry (str "[vdso]") 4096 0) example_modules)) as (debug & next & Hd & _ & _ & Hl); [by vm_compute|].
  exists debug, next. split; [exact Hd|exact Hl].
Defined.
Lemma link_map_cycle : Initialize None (example_link_map 65616) 65536 = Failed.
Proof. by vm_compute. Qed.
Lemma vdso_exchanged :
  Initialize (Some 28) (example_link_map 0) 65536 =
  Done (MkLinkEntry (str "libc.so") 8192 0, [MkLinkEntry (str "[vdso]") 4096 0; MkLinkEntry [] 12288 0]).
Proof. by vm_compute. Qed.

(** On Android, the first of no modules is used if a process has a list of one entry with
    that name. *)
Definition example_vdso_alone : ProcessMemoryRange Memory :=
  MkMemoryRange
    [(65536, to_bytes (DebugRendezvousSpecific.repr true) (DebugRendezvousSpecific.Make 1 65576 0 0 0) ++
       example_entry 4096 65616 0 ++ str "[vdso]" ++ [0])]
    (CheckedAddressRange.SetRange true 65536 4096).
Lemma vdso_alone_undefined :
  Initialize None example_vdso_alone 65536 = Done (MkLinkEntry (str "[vdso]") 4096 0, []) /\
  Initialize (Some 28) example_vdso_alone 65536 = Undefined.
Proof. by vm_compute. Qed.
End DebugRendezvous.
