(* ===== verification/CaptureMemory.v ===== *)
(** * Memory that is pointed to (snapshot/capture_memory.cc)

    [CaptureMemory] looks for words that may be pointers, in the registers of a thread or
    in a range of memory, and captures the memory around where they point.  What it needs
    of the process is the class [Delegate]; [CaptureMemoryDelegateLinux]
    (snapshot/linux/capture_memory_delegate_linux.cc) is its instance, with the memory of
    [ProcessMemory] and the mappings of [MemoryMap].

    The delegate is changed only by [AddNewMemorySnapshot], and is the state that the
    operations pass on.  What is shown is what is captured, and how much of it: a budget
    bounds it. *)

From S2P Require Import Prelude.
From S2P Require Import Numeric.
From S2P Require Import Structs.
From S2P Require Import CPUContext.
From S2P Require Import MemoryRanges.
From S2P Require Import ProcessMemory.
From S2P Require Import MemoryMap.
#[local] Open Scope crashpad_scope.

(** ** CaptureMemory *)

Module CaptureMemory.

(** [CaptureMemory::Delegate]. *)
Class Delegate (D : Type) := {
  Is64Bit : D -> bool;
  ReadMemory : D -> Z -> Z -> outcome bytes;
  GetReadableRanges : D -> CheckedRange.t -> outcome (list CheckedRange.t);
  AddNewMemorySnapshot : D -> CheckedRange.t -> D
}.

Definition non_address_offset : Z := 0x10000.
Definition kRegisterByteOffset : Z := 128.
Definition around_size : Z := 512.

(** The family of the architecture that the code is compiled for. *)
Inductive ARCH_CPU := ARCH_CPU_X86_FAMILY | ARCH_CPU_ARM_FAMILY | ARCH_CPU_MIPS_FAMILY.

Section Capture.
  Context {D : Type} `{Delegate D}.

Definition max_address (delegate : D) : Z := if Is64Bit delegate then 2 ^ 64 - 1 else 2 ^ 32 - 1.
Definition MaybeCaptureMemoryAround (delegate : D) (address : Z) : outcome D :=
  if address <? non_address_offset then Done delegate
  else if max_address delegate - non_address_offset <? address then Done delegate
  else
    let target := u64 (address - kRegisterByteOffset) in
    step! ranges := GetReadableRanges delegate (CheckedRange.Make target around_size) in
    Done (foldl AddNewMemorySnapshot delegate ranges).

Fixpoint capture_each (delegate : D) (addresses : list Z) : outcome D :=
  match addresses with
  | [] => Done delegate
  | address :: addresses' => step! delegate := MaybeCaptureMemoryAround delegate address in capture_each delegate addresses'
  end.

(** The loop of [CaptureAtPointersInRange] at [address_offset], for a type [T] of [w] bytes. *)
Fixpoint CaptureAtPointersInRange (fuel w : nat) (buffer : bytes) (address_offset : nat) (delegate : D) : outcome D :=
  if (address_offset <? length buffer)%nat then
    match fuel with
    | O => Undefined
    | S f =>
        if (length buffer <? address_offset + w)%nat then Undefined
        else
          let target_address := of_bytes (uint w) (slice address_offset w buffer) in
          step! delegate := MaybeCaptureMemoryAround delegate target_address in
          CaptureAtPointersInRange f w buffer (address_offset + w) delegate
    end
  else Done delegate.

(** The registers that [PointedToByContext] follows, in its order; to use another member of
    the union than that of the architecture is undefined. *)
Definition context_pointers (family : ARCH_CPU) (context : CPUContext) : outcome (list Z) :=
  match family, context with
  | ARCH_CPU_X86_FAMILY, x86_64 c =>
      Done (map (fun r => r c) [CPUContextX86_64.rip; CPUContextX86_64.rax; CPUContextX86_64.rbx; CPUContextX86_64.rcx; CPUContextX86_64.rdx;
        CPUContextX86_64.rdi; CPUContextX86_64.rsi; CPUContextX86_64.rbp; CPUContextX86_64.r8; CPUContextX86_64.r9; CPUContextX86_64.r10;
        CPUContextX86_64.r11; CPUContextX86_64.r12; CPUContextX86_64.r13; CPUContextX86_64.r14; CPUContextX86_64.r15])
  | ARCH_CPU_X86_FAMILY, x86 c =>
      Done (map (fun r => r c) [CPUContextX86.eip; CPUContextX86.eax; CPUContextX86.ebx; CPUContextX86.ecx; CPUContextX86.edx;
        CPUContextX86.edi; CPUContextX86.esi; CPUContextX86.ebp])
  | ARCH_CPU_ARM_FAMILY, arm64 c => Done (CPUContextARM64.pc c :: CPUContextARM64.regs c)
  | ARCH_CPU_ARM_FAMILY, arm c => Done (CPUContextARM.pc c :: CPUContextARM.regs c)
  | ARCH_CPU_MIPS_FAMILY, mipsel c => Done (CPUContextMIPS.regs c)
  | _, _ => Undefined
  end.
Definition PointedToByContext (family : ARCH_CPU) (context : CPUContext) (delegate : D) : outcome D :=
  step! addresses := context_pointers family context in capture_each delegate addresses.

Definition PointedToByMemoryRange (memory : MemorySnapshot) (delegate : D) : outcome D :=
  if mem_size memory =? 0 then Done delegate
  else
    let alignment := if Is64Bit delegate then 8 else 4 in
    if negb (mem_address memory mod alignment =? 0) || negb (mem_size memory mod alignment =? 0) then Done delegate
    else
      match ReadMemory delegate (mem_address memory) (mem_size memory) with
      | Undefined => Undefined
      | Failed => Done delegate
      | Done buffer => CaptureAtPointersInRange (length buffer) (Z.to_nat alignment) buffer 0 delegate
      end.
End Capture.

(** ** CaptureMemoryDelegateLinux *)

(** The fields before [snapshots_] are those of [process_reader_] that are used. *)
Record CaptureMemoryDelegateLinux (M : Type) := MkDelegateLinux {
  stack_ : CheckedRange.t;
  process_is_64_bit : bool;
  process_memory : M;
  memory_map : list MemoryMap.Mapping;
  snapshots_ : list MemorySnapshot;
  budget_remaining_ : option Z
}.
Arguments MkDelegateLinux {M}.
Arguments stack_ {M}.
Arguments process_is_64_bit {M}.
Arguments process_memory {M}.
Arguments memory_map {M}.
Arguments snapshots_ {M}.
Arguments budget_remaining_ {M}.

(** The constructor; [thread_opt] is the region of the stack of a thread. *)
Definition Construct {M} (is_64_bit : bool) (memory : M) (mappings : list MemoryMap.Mapping) (thread_opt : option (Z * Z))
    (snapshots : list MemorySnapshot) (budget_remaining : option Z) : CaptureMemoryDelegateLinux M :=
  let '(address, size) := default (0, 0) thread_opt in
  MkDelegateLinux (CheckedRange.Make address size) is_64_bit memory mappings snapshots budget_remaining.

(** [saturated_cast<uint32_t>]. *)
Definition saturated_u32 (z : Z) : Z := Z.max 0 (Z.min (2 ^ 32 - 1) z).
Definition charge (budget size : Z) : Z :=
  if negb (in_range int64_t size) then 0 else saturated_u32 (wrap_signed 64 (budget - size)).
Definition AddLinux {M} (d : CaptureMemoryDelegateLinux M) (range : CheckedRange.t) : CaptureMemoryDelegateLinux M :=
  if CheckedRange.ContainsRange uint64_t (stack_ d) range then d
  else if CheckedRange.size range =? 0 then d
  else
    match budget_remaining_ d with
    | None => d
    | Some budget =>
        if budget =? 0 then d
        else
          MkDelegateLinux (stack_ d) (process_is_64_bit d) (process_memory d) (memory_map d)
            (snapshots_ d ++ [MkMemorySnapshot (CheckedRange.base range) (CheckedRange.size range)])
            (Some (charge budget (CheckedRange.size range)))
    end.

#[export] Instance delegate_linux {M} `{ProcessMemory M} : Delegate (CaptureMemoryDelegateLinux M) := {
  Is64Bit := process_is_64_bit;
  ReadMemory d at_ num_bytes := Read (process_memory d) at_ num_bytes;
  GetReadableRanges d range := match MemoryMap.GetReadableRanges (memory_map d) range with Some ranges => Done ranges | None => Undefined end;
  AddNewMemorySnapshot := AddLinux
}.

(** ** What is captured *)

Section Linux.
  Context {M : Type} `{ProcessMemory M}.
Implicit Types d : CaptureMemoryDelegateLinux M.
Implicit Types new : list MemorySnapshot.

Definition total (l : list MemorySnapshot) : Z := foldr (fun s n => mem_size s + n) 0 l.
Definition has_budget d : Prop := exists B, budget_remaining_ d = Some B /\ 0 < B.
(** These snapshots have been added.  Each was when the ones before it had left something
    of the budget, which is charged for all of them. *)
Definition extends d d' new : Prop :=
  exists B, budget_remaining_ d = Some B /\ 0 <= B < 2 ^ 32 /\
    d' = MkDelegateLinux (stack_ d) (process_is_64_bit d) (process_memory d) (memory_map d) (snapshots_ d ++ new) (Some (Z.max 0 (B - total new))) /\
    Forall (fun s => 0 < mem_size s) new /\
    forall l s l', new = l ++ s :: l' -> total l < B.
(** What is wanted is in the stack, or has been added; unless the budget has been used up. *)
Definition adds (Q : MemorySnapshot -> Prop) (P : Z -> Prop) d d' new : Prop :=
  extends d d' new /\ Forall Q new /\
  (has_budget d' -> forall x, P x -> CheckedRange.denotes (stack_ d) x \/ exists s, s ∈ new /\ CheckedRange.denotes (range_of s) x).

Lemma total_app l l' : total (l ++ l') = total l + total l'.
Proof. induction l as [|s l IH]; cbn; [done|]. unfold total in *. rewrite IH. lia. Qed.
Lemma total_nonneg l : Forall (fun s => 0 < mem_size s) l -> 0 <= total l.
Proof. unfold total. induction 1; cbn; lia. Qed.

Lemma extends_refl d B : budget_remaining_ d = Some B -> 0 <= B < 2 ^ 32 -> extends d d [].
Proof.
  intros E HB. exists B. split; [done|]. split; [done|]. split; [|split; [done|by intros [] ]].
  destruct d; cbn in *. rewrite E, app_nil_r. do 2 f_equal. lia.
Qed.
Lemma extends_trans d d1 d2 new1 new2 : extends d d1 new1 -> extends d1 d2 new2 -> extends d d2 (new1 ++ new2).
Proof.
  intros (B & EB & HB & -> & Hp1 & Hl1) (B1 & EB1 & HB1 & -> & Hp2 & Hl2). cbn in EB1. injection EB1 as <-. cbn.
  pose proof (total_nonneg _ Hp1). pose proof (total_nonneg _ Hp2).
  exists B. split; [done|]. split; [done|]. split; [rewrite app_assoc, total_app; do 2 f_equal; lia|]. split; [by apply Forall_app|].
  intros l s l' E. apply app_eq_app in E as (k & [[-> E]|[-> E]]).
  - destruct k as [|s' k].
    + rewrite app_nil_r in *. cbn in E. specialize (Hl2 [] s l' (eq_sym E)). cbn in Hl2. lia.
    + injection E as <- _. by eapply Hl1.
  - rewrite total_app. specialize (Hl2 k s l' E).
    assert (0 <= total k) by (apply total_nonneg; rewrite E in Hp2; by apply Forall_app in Hp2 as [? _]). lia.
Qed.
Lemma extends_budget d d' new : extends d d' new -> has_budget d' -> has_budget d.
Proof.
  intros (B & EB & HB & -> & Hp & _) (B' & E & HB'). cbn in E. injection E as <-. pose proof (total_nonneg _ Hp). exists B. split; [done|lia].
Qed.
Lemma extends_stack d d' new : extends d d' new -> stack_ d' = stack_ d.
Proof. by intros (B & _ & _ & -> & _). Qed.
Lemma extends_bounded d d' new : extends d d' new -> exists B, budget_remaining_ d' = Some B /\ 0 <= B < 2 ^ 32.
Proof. intros (B & _ & HB & -> & Hp & _). eexists. split; [done|]. pose proof (total_nonneg _ Hp). lia. Qed.

Lemma adds_nil Q d B : budget_remaining_ d = Some B -> 0 <= B < 2 ^ 32 -> adds Q (fun _ => False) d d [].
Proof. intros. split; [by eapply extends_refl|]. split; [constructor|done]. Qed.
Lemma adds_app Q P1 P2 d d1 d2 new1 new2 :
  adds Q P1 d d1 new1 -> adds Q P2 d1 d2 new2 -> adds Q (fun x => P1 x \/ P2 x) d d2 (new1 ++ new2).
Proof.
  intros (He1 & HQ1 & HP1) (He2 & HQ2 & HP2). split; [by eapply extends_trans|]. split; [by apply Forall_app|].
  intros Hb x HP. setoid_rewrite elem_of_app. rewrite (extends_stack _ _ _ He1) in HP2. destruct HP as [HP|HP].
  - destruct (HP1 (extends_budget _ _ _ He2 Hb) x HP) as [?|(s & ? & ?)]; [by left|right; eauto].
  - destruct (HP2 Hb x HP) as [?|(s & ? & ?)]; [by left|right; eauto].
Qed.
Lemma adds_weaken (Q Q' : MemorySnapshot -> Prop) (P P' : Z -> Prop) d d' new :
  (forall s, Q s -> Q' s) -> (forall x, P' x -> P x) -> adds Q P d d' new -> adds Q' P' d d' new.
Proof. intros HQ HP (He & Hf & Hx). split; [done|]. split; [by eapply Forall_impl|]. intros Hb x Hp. by apply Hx, HP. Qed.

(** [AddNewMemorySnapshot]. *)
Lemma charge_spec B n : 0 <= B < 2 ^ 32 -> 0 <= n < 2 ^ 64 -> charge B n = Z.max 0 (B - n).
Proof.
  intros HB Hn. unfold charge. destruct (in_range int64_t n) eqn:E; cbn [negb].
  - change (fits_signed 64 n = true) in E. apply fits_signed_spec in E. unfold saturated_u32, wrap_signed. rewrite Z.mod_small by lia. lia.
  - assert (~ n < 2 ^ 63) as Hge; [|lia]. intros Hlt. assert (in_range int64_t n = true); [|congruence].
    change (fits_signed 64 n = true). apply fits_signed_spec. lia.
Qed.
Lemma add_linux_spec d B r :
  MemoryMap.in_memory (stack_ d) -> MemoryMap.in_memory r -> budget_remaining_ d = Some B -> 0 <= B < 2 ^ 32 ->
  exists new, adds (fun s => range_of s = r) (CheckedRange.denotes r) d (AddLinux d r) new.
Proof.
  intros (Hs1 & Hs2 & Hs3) (Hr1 & Hr2 & Hr3) EB HB. unfold AddLinux.
  destruct (CheckedRange.ContainsRange uint64_t (stack_ d) r) eqn:Ec.
  { exists []. split; [by eapply extends_refl|]. split; [constructor|]. intros _ x Hx. left.
    unfold CheckedRange.ContainsRange, CheckedRange.end_ in Ec. change (cast uint64_t) with (wrap 64) in Ec. rewrite !wrap_small in Ec by lia.
    bool_to_prop. unfold CheckedRange.denotes in *. lia. }
  destruct (Z.eqb_spec (CheckedRange.size r) 0) as [E0|E0].
  { exists []. split; [by eapply extends_refl|]. split; [constructor|]. unfold CheckedRange.denotes. lia. }
  rewrite EB. destruct (Z.eqb_spec B 0) as [->|HB0].
  { exists []. split; [by eapply extends_refl|]. split; [constructor|]. intros (B & E & ?). rewrite EB in E. injection E as <-. lia. }
  exists [MkMemorySnapshot (CheckedRange.base r) (CheckedRange.size r)]. assert (range_of (MkMemorySnapshot (CheckedRange.base r) (CheckedRange.size r)) = r) as Er by (by destruct r).
  split; [|split; [by repeat constructor|]].
  - exists B. split; [done|]. split; [done|]. rewrite charge_spec by lia. split; [do 2 f_equal; cbn; lia|]. split; [repeat constructor; cbn; lia|].
    intros [|s [|s' l]] s0 l' E; [cbn; lia|by destruct l'..].
  - intros _ x Hx. right. eexists. split; [by left|]. by rewrite Er.
Qed.
Lemma add_ranges_spec rs : forall d B,
  MemoryMap.in_memory (stack_ d) -> Forall MemoryMap.in_memory rs -> budget_remaining_ d = Some B -> 0 <= B < 2 ^ 32 ->
  exists new, adds (fun s => range_of s ∈ rs) (MemoryMap.denoted rs) d (foldl AddLinux d rs) new.
Proof.
  induction rs as [|r rs IH]; intros d B Hs Hrs EB HB; cbn [foldl].
  - exists []. eapply (adds_weaken _ _ (fun _ => False)); [by intros s Hq; exact Hq| |by eapply adds_nil]. intros x (q & Hq & _). by apply elem_of_nil in Hq.
  - apply Forall_cons in Hrs as [Hr Hrs]. destruct (add_linux_spec d B r Hs Hr EB HB) as (new1 & H1).
    destruct (extends_bounded _ _ _ (proj1 H1)) as (B1 & EB1 & HB1). destruct (IH (AddLinux d r) B1) as (new2 & H2);
      [by rewrite (extends_stack _ _ _ (proj1 H1))|done|done|done|].
    exists (new1 ++ new2).
    apply (adds_weaken (fun s => range_of s ∈ r :: rs) _ (fun x => CheckedRange.denotes r x \/ MemoryMap.denoted rs x)); [done| |].
    + intros x (q & [->|Hq]%elem_of_cons & Hx); [by left|right; exists q; by split].
    + eapply adds_app.
      * eapply adds_weaken; [| |exact H1]; [cbn; intros s ->; by left|done].
      * eapply adds_weaken; [| |exact H2]; [cbn; intros s Hin; by right|done].
Qed.

(** *** Pointers *)

Definition pointer_like d (p : Z) : Prop := non_address_offset <= p <= max_address d - non_address_offset.
Definition near (p x : Z) : Prop := p - 128 <= x < p + 384.
Definition readable d (x : Z) : Prop := exists m, m ∈ memory_map d /\ MemoryMap.can_read m = true /\ MemoryMap.contains m x.
(** What is added for these addresses, and what is to be added. *)
Definition wanted d (addresses : list Z) (x : Z) : Prop := exists p, p ∈ addresses /\ pointer_like d p /\ near p x /\ readable d x.
Definition for_pointer d (addresses : list Z) (s : MemorySnapshot) : Prop :=
  exists p, p ∈ addresses /\ pointer_like d p /\ forall x, CheckedRange.denotes (range_of s) x -> near p x /\ readable d x.
Definition captured d (addresses : list Z) d' new : Prop := adds (for_pointer d addresses) (wanted d addresses) d d' new.

(** The delegate that a snapshot is added to is that of the same process. *)
Definition same_process d d' : Prop := process_is_64_bit d' = process_is_64_bit d /\ memory_map d' = memory_map d /\ stack_ d' = stack_ d.
Lemma extends_same d d' new : extends d d' new -> same_process d d'.
Proof. by intros (B & _ & _ & -> & _). Qed.
Lemma pointer_like_same d d' p : same_process d d' -> pointer_like d' p <-> pointer_like d p.
Proof. intros (E & _). unfold pointer_like, max_address. cbn [Is64Bit delegate_linux]. by rewrite E. Qed.
Lemma readable_same d d' x : same_process d d' -> readable d' x <-> readable d x.
Proof. intros (_ & E & _). unfold readable. by rewrite E. Qed.

Lemma capture_around_spec d B p :
  MemoryMap.ordered 0 (memory_map d) -> MemoryMap.in_memory (stack_ d) -> budget_remaining_ d = Some B -> 0 <= B < 2 ^ 32 ->
  exists d' new, MaybeCaptureMemoryAround d p = Done d' /\ captured d [p] d' new.
Proof.
  intros Ho Hs EB HB. unfold MaybeCaptureMemoryAround.
  assert (~ pointer_like d p -> captured d [p] d []) as Hno.
  { intros Hp. eapply adds_weaken; [| |by eapply adds_nil]; [by intros s Hq; exact Hq|].
    intros x (q & ->%list_elem_of_singleton & ? & _). done. }
  destruct (Z.ltb_spec p non_address_offset); [exists d, []; split; [done|]; apply Hno; unfold pointer_like; lia|].
  destruct (Z.ltb_spec (max_address d - non_address_offset) p); [exists d, []; split; [done|]; apply Hno; unfold pointer_like; lia|].
  assert (pointer_like d p) as Hp by (by split).
  assert (p <= 2 ^ 64 - 1 - non_address_offset) by (unfold max_address in *; destruct (Is64Bit d); lia).
  unfold non_address_offset in *. rewrite wrap_small by (unfold kRegisterByteOffset; lia).
  destruct (MemoryMap.get_readable_ranges_spec (memory_map d) (CheckedRange.Make (p - kRegisterByteOffset) around_size) Ho) as (rs & E & _ & Hrs & Hx).
  { unfold MemoryMap.in_memory, kRegisterByteOffset, around_size. cbn. lia. }
  cbn [GetReadableRanges delegate_linux AddNewMemorySnapshot]. rewrite E. cbn [outcome_bind].
  destruct (add_ranges_spec rs d B Hs Hrs EB HB) as (new & Ha). eexists _, new. split; [done|].
  assert (forall x, MemoryMap.denoted rs x <-> near p x /\ readable d x) as Hd.
  { intros x. rewrite Hx. unfold CheckedRange.denotes, near, readable, kRegisterByteOffset, around_size. cbn.
    assert (p - 128 <= x < p - 128 + 512 <-> p - 128 <= x < p + 384) by lia. tauto. }
  eapply adds_weaken; [| |exact Ha].
  - intros s Hin. exists p. split; [by left|]. split; [done|]. intros x Hs'. apply Hd. by exists (range_of s).
  - intros x (q & ->%list_elem_of_singleton & _ & ? & ?). by apply Hd.
Qed.

Lemma capture_each_spec addresses : forall d B,
  MemoryMap.ordered 0 (memory_map d) -> MemoryMap.in_memory (stack_ d) -> budget_remaining_ d = Some B -> 0 <= B < 2 ^ 32 ->
  exists d' new, capture_each d addresses = Done d' /\ captured d addresses d' new.
Proof.
  induction addresses as [|p addresses IH]; intros d B Ho Hs EB HB; cbn [capture_each].
  - exists d, []. split; [done|]. eapply adds_weaken; [| |by eapply adds_nil]; [by intros s Hq; exact Hq|].
    intros x (q & Hq & _). by apply elem_of_nil in Hq.
  - destruct (capture_around_spec d B p Ho Hs EB HB) as (d1 & new1 & -> & H1). cbn [outcome_bind].
    pose proof (extends_same _ _ _ (proj1 H1)) as Hsame. destruct (extends_bounded _ _ _ (proj1 H1)) as (B1 & EB1 & HB1).
    destruct (IH d1 B1) as (d2 & new2 & -> & H2); [by destruct Hsame as (_ & -> & _)|by destruct Hsame as (_ & _ & ->)|done|done|].
    exists d2, (new1 ++ new2). split; [done|].
    apply (adds_weaken (for_pointer d (p :: addresses)) _ (fun x => wanted d [p] x \/ wanted d1 addresses x)); [done| |].
    + intros x (q & [->|Hq]%elem_of_cons & Hp & Hn & Hr); [left; exists p; by split_and!; [left|..]|right].
      exists q. rewrite (pointer_like_same _ _ _ Hsame), (readable_same _ _ _ Hsame). done.
    + eapply adds_app; (eapply adds_weaken; [|by intros x Hx; exact Hx|eassumption]).
      * intros s (q & ->%list_elem_of_singleton & Hq). exists p. split; [by left|done].
      * intros s (q & Hq & Hp & Hx). exists q. split; [by right|]. split; [by apply (pointer_like_same _ _ _ Hsame)|].
        intros x. rewrite <-(readable_same _ _ _ Hsame). apply Hx.
Qed.
End Linux.

(** The loop over a buffer is one over its words. *)
Lemma capture_at_words {D} `{Delegate D} k : forall fuel w buffer offset (d : D),
  (0 < w)%nat -> (k <= fuel)%nat -> length buffer = (offset + k * w)%nat ->
  CaptureAtPointersInRange fuel w buffer offset d = capture_each d (of_bytes (array k (uint w)) (drop offset buffer)).
Proof.
  induction k as [|k IH]; intros fuel w buffer offset d Hw Hf Hl; destruct fuel as [|f]; cbn [CaptureAtPointersInRange]; try lia.
  - by rewrite (proj2 (Nat.ltb_ge _ _)) by lia.
  - by rewrite (proj2 (Nat.ltb_ge _ _)) by lia.
  - rewrite (proj2 (Nat.ltb_lt _ _)), (proj2 (Nat.ltb_ge _ _)) by lia. cbn [of_bytes array array_of_bytes capture_each uint sizeof].
    unfold slice. rewrite take_take, Nat.min_id. destruct (MaybeCaptureMemoryAround d _) as [|d'|]; cbn [outcome_bind]; [done| |done].
    rewrite (IH f w buffer (offset + w)%nat d') by lia. by rewrite drop_drop.
Qed.

Lemma read_loaded {M} `{ProcessMemoryLaws M} `{!ProcessMemoryProgress M} (m : M) a n data :
  span a n -> load m a n = Some data -> Read m a n = Done data.
Proof.
  intros Hs Hl. unfold Read, AssignIfInRange, span in *. change (in_range uint64_t) with (fits 64).
  rewrite (proj2 (fits_spec 64 n)) by lia. cbn [negb]. change (cast uint64_t) with (wrap 64). rewrite wrap_small by lia.
  rewrite (read_loop_complete _ _ _ _ _ data) by (done || lia). done.
Qed.

(** C30.  For the words of a range of memory, or the registers of a thread, the memory
    around those that look like pointers is captured: each snapshot is readable memory
    from 128 bytes before a pointer to 384 bytes after it, all such memory that is not in
    the stack is in a snapshot unless the budget has been used up, and no snapshot is
    added after the sizes of those before it have reached the budget. *)
Theorem memory_captured {M} `{ProcessMemoryLaws M} `{!ProcessMemoryProgress M} (d : CaptureMemoryDelegateLinux M) B :
  MemoryMap.ordered 0 (memory_map d) -> MemoryMap.in_memory (stack_ d) -> budget_remaining_ d = Some B -> 0 <= B < 2 ^ 32 ->
  (forall m n data, let w := if process_is_64_bit d then 8%nat else 4%nat in
     mem_address m mod Z.of_nat w = 0 -> mem_size m = Z.of_nat (n * w) -> span (mem_address m) (mem_size m) ->
     load (process_memory d) (mem_address m) (mem_size m) = Some data ->
     exists d' new, PointedToByMemoryRange m d = Done d' /\ captured d (of_bytes (array n (uint w)) data) d' new) /\
  (forall family context addresses, context_pointers family context = Done addresses ->
     exists d' new, PointedToByContext family context d = Done d' /\ captured d addresses d' new).
Proof.
  intros Ho Hs EB HB. split.
  - intros m n data w Ha Hn Hsp Hl. destruct (capture_each_spec (of_bytes (array n (uint w)) data) d B Ho Hs EB HB) as (d' & new & E & Hc).
    exists d', new. split; [|done]. unfold PointedToByMemoryRange. cbn [Is64Bit ReadMemory delegate_linux].
    assert ((if process_is_64_bit d then 8 else 4) = Z.of_nat w) as Ew by (unfold w; by destruct (process_is_64_bit d)). rewrite Ew.
    assert (0 < w)%nat as Hw by (unfold w; destruct (process_is_64_bit d); lia). clearbody w.
    destruct (Z.eqb_spec (mem_size m) 0) as [E0|E0].
    { assert (n = O) as -> by nia. exact E. }
    rewrite Ha, Hn, Nat2Z.inj_mul, Z.mod_mul by lia. rewrite Z.eqb_refl. cbn [negb orb]. rewrite <-Nat2Z.inj_mul, <-Hn.
    rewrite (read_loaded _ _ _ data) by done. apply load_length in Hl. rewrite Nat2Z.id.
    by rewrite (capture_at_words n), drop_0 by nia.
  - intros family context addresses Ep. unfold PointedToByContext. rewrite Ep. cbn [outcome_bind]. by apply (capture_each_spec addresses d B).
Qed.

(** ** Example *)

(** A range of five words: a number, a pointer into the stack, and three other pointers. *)
Definition example_words : list Z := [5; 0x7fff5000; 0x401000; 0x400010; 0x401100].
Definition example_capture : CaptureMemoryDelegateLinux Memory :=
  Construct true [(0x7fff4000, to_bytes (array 5 (uint 8)) example_words)]
    (MemoryMap.mappings_of MemoryMap.example_makedev MemoryMap.example_entries) (Some (0x7fff4000, 0x4000)) [] (Some 600).
Definition example_stack : MemorySnapshot := MkMemorySnapshot 0x7fff4000 40.

Lemma memory_captured_witness :
  MemoryMap.ordered 0 (memory_map example_capture) /\
  exists d' new, PointedToByMemoryRange example_stack example_capture = Done d' /\ captured example_capture example_words d' new /\
    snapshots_ d' = new /\ new = [MkMemorySnapshot 0x400f80 512; MkMemorySnapshot 0x400000 400] /\ budget_remaining_ d' = Some 0.
Proof.
  assert (MemoryMap.ordered 0 (memory_map example_capture)) as Ho by (apply MemoryMap.mappings_of_ordered; apply MemoryMap.example_entries_ok).
  split; [exact Ho|].
  destruct (memory_captured example_capture 600 Ho) as [Hm _]; [by vm_compute|done|lia|].
  destruct (Hm example_stack 5%nat (to_bytes (array 5 (uint 8)) example_words)) as (d' & new & E & Hc);
    [by vm_compute|by vm_compute|by vm_compute|by vm_compute|].
  exists d', new. assert (snapshots_ d' = new) as En by (destruct Hc as [(B & _ & _ & -> & _) _]; reflexivity).
  vm_compute in E. injection E as <-. cbn [snapshots_ budget_remaining_] in *. subst new.
  split; [by vm_compute|]. split; [exact Hc|]. done.
Defined.
End CaptureMemory.
