(* ===== verification/FileSystem.v ===== *)
(** * Files and directories (util/file)

    The file system and the functions of filesystem_posix.cc, file_io_posix.cc and
    directory_reader_posix.cc on it.  A program is a tree of system calls ([Prog]): it
    can be run by itself ([run]), whatever the calls return, or step by step together
    with other programs on the same file system ([pool_step]).

    A [World] has the names of the file system, the inodes they lead to and the open
    files; there are no symbolic or hard links, and permissions are not modelled.  The
    [Outcome] of a call says whether it works, and what the clock shows.  The loops
    over [read], [write] and [readdir] are one call each ([ReadExactly] and the others
    are in FileIO.v); one that fails may have done a part of its work. *)

From S2P Require Import Prelude.
From S2P Require Import FileIO.

(** ** Paths *)

Definition kSeparator : Z := 47.
Definition kExtensionSeparator : Z := 46.

(** [base::FilePath], which is not part of the repository: the functions that are
    used, on the [value()] of paths. *)
Class FilePath := {
  Append : bytes -> bytes -> bytes;
  BaseName : bytes -> bytes;
  FinalExtension : bytes -> bytes;
  RemoveFinalExtension : bytes -> bytes
}.

Definition is_name (f : bytes) : Prop := f <> [] /\ kSeparator ∉ f.
Definition is_directory_path (d : bytes) : Prop :=
  d <> [] /\ d <> [kExtensionSeparator] /\ last d <> Some kSeparator.
Definition is_extension (e : bytes) : Prop :=
  exists x, e = kExtensionSeparator :: x /\ x <> [] /\ kExtensionSeparator ∉ x /\ kSeparator ∉ x.

(** What the comments of base/files/file_path.h say of them. *)
Class FilePathLaws `{FilePath} : Prop := {
  append_path d f : is_directory_path d -> is_name f -> Append d f = d ++ kSeparator :: f;
  base_name_path d f : is_name f -> BaseName (d ++ kSeparator :: f) = f;
  final_extension_path d f : is_name f -> FinalExtension (d ++ kSeparator :: f) = FinalExtension f;
  final_extension_ends p e : is_extension e -> FinalExtension (p ++ e) = e;
  remove_final_extension_path d f :
    is_name f -> RemoveFinalExtension (d ++ kSeparator :: f) ++ FinalExtension f = d ++ kSeparator :: f;
  remove_final_extension_ends p e : is_extension e -> RemoveFinalExtension (p ++ e) = p
}.

(** What is before and after the last [c] of a string. *)
Fixpoint split_last (c : Z) (s : bytes) : option (bytes * bytes) :=
  match s with
  | [] => None
  | x :: s' =>
      match split_last c s' with
      | Some (l, r) => Some (x :: l, r)
      | None => if x =? c then Some ([], s') else None
      end
  end.

Lemma split_last_None c s : split_last c s = None <-> c ∉ s.
Proof.
  induction s as [|x s IH]; simpl; [split; [intros _; apply not_elem_of_nil|done]|].
  rewrite not_elem_of_cons, <-IH. destruct (split_last c s) as [[l r]|]; [naive_solver|].
  destruct (Z.eqb_spec x c); naive_solver.
Qed.

Lemma split_last_app c l r : c ∉ r -> split_last c (l ++ c :: r) = Some (l, r).
Proof.
  intros Hr. induction l as [|x l IH]; simpl; [|by rewrite IH].
  by rewrite (proj2 (split_last_None c r)), Z.eqb_refl.
Qed.

Lemma split_last_Some c s l r : split_last c s = Some (l, r) -> s = l ++ c :: r /\ c ∉ r.
Proof.
  revert l. induction s as [|x s IH]; intros l; simpl; [done|].
  destruct (split_last c s) as [[l' r']|] eqn:E.
  - intros [= <- <-]. destruct (IH l' eq_refl) as [-> Hr]. done.
  - destruct (Z.eqb_spec x c) as [->|]; [|done]. intros [= <- <-].
    split; [done|]. by apply split_last_None.
Qed.

(** The directory and the name in it that a path leads to. *)
Definition parent_name (p : bytes) : option (bytes * bytes) := split_last kSeparator p.

Lemma parent_name_path d f : kSeparator ∉ f -> parent_name (d ++ kSeparator :: f) = Some (d, f).
Proof. apply split_last_app. Qed.
Lemma parent_name_Some p d f : parent_name p = Some (d, f) -> p = d ++ kSeparator :: f /\ kSeparator ∉ f.
Proof. apply split_last_Some. Qed.

(** An implementation of [FilePath] for which the laws hold. *)
Module PlainPath.
Definition base_name (p : bytes) : bytes :=
  match parent_name p with Some (_, f) => f | None => p end.
Definition final_extension (p : bytes) : bytes :=
  match split_last kExtensionSeparator (base_name p) with
  | Some (_, []) | None => []
  | Some (_, e) => kExtensionSeparator :: e
  end.
#[global] Instance plain_path : FilePath := {
  Append d f := d ++ kSeparator :: f;
  BaseName := base_name;
  FinalExtension := final_extension;
  RemoveFinalExtension p := take (length p - length (final_extension p)) p
}.

Lemma base_name_app d f : is_name f -> base_name (d ++ kSeparator :: f) = f.
Proof. intros [_ Hf]. unfold base_name. by rewrite parent_name_path. Qed.
Lemma base_name_of f : is_name f -> base_name f = f.
Proof. intros [_ Hf]. unfold base_name, parent_name. by rewrite (proj2 (split_last_None _ f)). Qed.

Lemma final_extension_app p e : is_extension e -> final_extension (p ++ e) = e.
Proof.
  intros (x & -> & Hx & Hdot & Hsep). unfold final_extension.
  assert (exists b, base_name (p ++ kExtensionSeparator :: x) = b ++ kExtensionSeparator :: x) as [b ->].
  { unfold base_name. destruct (parent_name _) as [[d f]|] eqn:E; [|by exists p].
    apply split_last_Some in E as [E Hf]. destruct (split_last kSeparator p) as [[d' b]|] eqn:Ep.
    - exists b. apply split_last_Some in Ep as [-> Hb]. rewrite <-app_assoc in E. simpl in E.
      assert (kSeparator ∉ b ++ kExtensionSeparator :: x) as Hbx
        by (rewrite elem_of_app, elem_of_cons; naive_solver).
      apply (f_equal parent_name) in E. rewrite parent_name_path, parent_name_path in E by done. congruence.
    - apply split_last_None in Ep. assert (kSeparator ∈ p ++ kExtensionSeparator :: x) as Hin.
      { rewrite E. rewrite elem_of_app, elem_of_cons. auto. }
      rewrite elem_of_app, elem_of_cons in Hin. naive_solver. }
  rewrite split_last_app by done. by destruct x.
Qed.

Lemma final_extension_suffix f : is_name f -> exists y, f = y ++ final_extension f.
Proof.
  intros Hf. unfold final_extension. rewrite base_name_of by done.
  destruct (split_last _ f) as [[l [|c r]]|] eqn:E; [by exists f; rewrite app_nil_r| |by exists f; rewrite app_nil_r].
  apply split_last_Some in E as [-> _]. by exists l.
Qed.

#[global] Instance plain_path_laws : FilePathLaws.
Proof.
  split; cbn.
  - done.
  - apply base_name_app.
  - intros d f Hf. unfold final_extension. by rewrite base_name_app, base_name_of.
  - apply final_extension_app.
  - intros d f Hf. destruct (final_extension_suffix f Hf) as [y Ey].
    assert (final_extension (d ++ kSeparator :: f) = final_extension f) as ->.
    { unfold final_extension. by rewrite base_name_app, base_name_of. }
    set (e := final_extension f) in *. clearbody e. subst f.
    replace (d ++ kSeparator :: y ++ e) with ((d ++ kSeparator :: y) ++ e) by (by rewrite <-app_assoc).
    rewrite length_app, Nat.add_sub. by rewrite take_app_length.
  - intros p e He. rewrite final_extension_app, length_app, Nat.add_sub by done. apply take_app_length.
Qed.
End PlainPath.

(** ** The state of the file system *)

Inductive Node := Directory | Regular (ino : nat).
#[export] Instance Node_eq_dec : EqDecision Node.
Proof. solve_decision. Defined.
Record Inode := MkInode { data : bytes; mtime : Z }.

(** An open file: its inode, unless it is a directory, and the position in it. *)
Record OpenFile := MkOpenFile { file_inode : option nat; file_position : nat }.

Record World := MkWorld {
  names : gmap bytes Node;
  inodes : gmap nat Inode;
  open_files : gmap nat OpenFile
}.

Definition directory_exists (w : World) (d : bytes) : bool :=
  match d with [] => true | _ => bool_decide (names w !! d = Some Directory) end.
Definition parent_exists (w : World) (p : bytes) : bool :=
  match parent_name p with Some (d, _) => directory_exists w d | None => true end.

(** The names in a directory. *)
Definition child_of {N : Type} (d : bytes) (entry : bytes * N) : option bytes :=
  match parent_name (entry.1) with
  | Some (d', f) => if bool_decide (d' = d /\ f <> []) then Some f else None
  | None => None
  end.
Definition children (w : World) (d : bytes) : list bytes := omap (child_of d) (map_to_list (names w)).

Definition set_names (f : gmap bytes Node -> gmap bytes Node) (w : World) : World :=
  MkWorld (f (names w)) (inodes w) (open_files w).
Definition set_inode (i : nat) (d : bytes) (time : Z) (w : World) : World :=
  MkWorld (names w) (<[i := MkInode d time]> (inodes w)) (open_files w).
Definition set_open_file (fd : nat) (x : OpenFile) (w : World) : World :=
  MkWorld (names w) (inodes w) (<[fd := x]> (open_files w)).

(** The next file descriptor, and a world in which it is open. *)
Definition new_handle (i : option nat) (w : World) : nat * World :=
  let fd := fresh (dom (open_files w)) in (fd, set_open_file fd (MkOpenFile i 0) w).

(** ** System calls *)

Inductive Fate := Works | Fails (n : nat).

(** What a call meets with: whether it works, the time, and random bytes. *)
Record Outcome := MkOutcome { fate : Fate; now : Z; entropy : bytes }.
(** What is known of the times that the clock shows; nothing, if nothing is said of it. *)
Class Clock := clock : Z -> Prop.
#[export] Instance any_clock : Clock | 100 := fun _ => True.
(** A call that works; the clock is in the range of [time_t], and there are random
    bytes for a UUID. *)
Definition works {clk : Clock} (o : Outcome) : Prop :=
  fate o = Works /\ (0 <= now o < 2 ^ 63 /\ clock (now o)) /\ length (entropy o) = 16%nat /\ Forall is_byte (entropy o).

Record OpenFlags := MkFlags { O_WRITE : bool; O_CREAT : bool; O_EXCL : bool; O_TRUNC : bool }.
Inductive mkdir_result := mkdir_done | mkdir_exists | mkdir_error.
Record Stat := MkStat { st_directory : bool; st_size : Z; st_mtime : Z }.

Inductive syscall : Set -> Set :=
  | sys_open (path : bytes) (flags : OpenFlags) : syscall (option nat)
  | sys_close (fd : nat) : syscall unit
  | sys_read (fd : nat) (count : option nat) : syscall (option bytes)
  | sys_write (fd : nat) (buf : bytes) : syscall bool
  | sys_lseek_set (fd : nat) (offset : nat) : syscall bool
  | sys_lseek_cur (fd : nat) : syscall (option Z)
  | sys_lseek_end (fd : nat) : syscall (option Z)
  | sys_ftruncate (fd : nat) : syscall bool
  | sys_flock (fd : nat) : syscall bool
  | sys_lstat (path : bytes) : syscall (option Stat)
  | sys_rename (old new : bytes) : syscall bool
  | sys_unlink (path : bytes) : syscall bool
  | sys_mkdir (path : bytes) : syscall mkdir_result
  | sys_rmdir (path : bytes) : syscall bool
  | sys_opendir (path : bytes) : syscall (option (list bytes))
  | sys_time : syscall Z
  | sys_random : syscall (option bytes).

(** The inode and the position of a file descriptor. *)
Definition handle_file (w : World) (fd : nat) : option (nat * Inode * nat) :=
  x ← open_files w !! fd;
  i ← file_inode x;
  n ← inodes w !! i;
  Some (i, n, file_position x).

Definition open_path (o : Outcome) (p : bytes) (f : OpenFlags) (w : World) : option nat * World :=
  match names w !! p with
  | Some Directory =>
      if O_WRITE f || O_CREAT f then (None, w)
      else let '(fd, w') := new_handle None w in (Some fd, w')
  | Some (Regular i) =>
      if O_CREAT f && O_EXCL f then (None, w)
      else let '(fd, w') := new_handle (Some i) (if O_TRUNC f then set_inode i [] (now o) w else w) in
           (Some fd, w')
  | None =>
      if O_CREAT f && parent_exists w p then
        let i := fresh (dom (inodes w)) in
        let '(fd, w') := new_handle (Some i) (set_inode i [] (now o) (set_names (<[p := Regular i]>) w)) in
        (Some fd, w')
      else (None, w)
  end.

Definition write_handle (o : Outcome) (fd : nat) (buf : bytes) (w : World) : World :=
  match handle_file w fd with
  | Some (i, n, pos) =>
      set_open_file fd (MkOpenFile (Some i) (pos + length buf))
        (set_inode i (write_at pos buf (data n)) (now o) w)
  | None => w
  end.

Definition read_handle (fd : nat) (count : option nat) (w : World) : option bytes * World :=
  match handle_file w fd with
  | Some (i, n, pos) =>
      let d := match count with Some k => slice pos k (data n) | None => drop pos (data n) end in
      (Some d, set_open_file fd (MkOpenFile (Some i) (pos + length d)) w)
  | None => (None, w)
  end.

Definition lstat_path (p : bytes) (w : World) : option Stat :=
  match names w !! p with
  | Some Directory => Some (MkStat true 0 0)
  | Some (Regular i) =>
      n ← inodes w !! i; Some (MkStat false (Z.of_nat (length (data n))) (mtime n))
  | None => None
  end.

(** [rename] of a file; the directories of the program are not renamed. *)
Definition rename_path (old new : bytes) (w : World) : bool * World :=
  match names w !! old, names w !! new with
  | Some (Regular i), Some (Regular _) => (true, set_names (fun m => <[new := Regular i]> (delete old m)) w)
  | Some (Regular i), None =>
      if parent_exists w new
      then (true, set_names (fun m => <[new := Regular i]> (delete old m)) w) else (false, w)
  | _, _ => (false, w)
  end.

(** A call, its result and the file system after it. *)
Definition perform {R} (c : syscall R) (o : Outcome) (w : World) : R * World :=
  match c in syscall R return R * World with
  | sys_open p f => match fate o with Works => open_path o p f w | Fails _ => (None, w) end
  | sys_close fd => (tt, MkWorld (names w) (inodes w) (delete fd (open_files w)))
  | sys_read fd k => match fate o with Works => read_handle fd k w | Fails _ => (None, w) end
  | sys_write fd buf =>
      match fate o, handle_file w fd with
      | Works, Some _ => (true, write_handle o fd buf w)
      | Works, None => (false, w)
      | Fails n, _ => (false, write_handle o fd (take n buf) w)
      end
  | sys_lseek_set fd pos =>
      match fate o, open_files w !! fd with
      | Works, Some x => (true, set_open_file fd (MkOpenFile (file_inode x) pos) w)
      | _, _ => (false, w)
      end
  | sys_lseek_cur fd =>
      match fate o, open_files w !! fd with
      | Works, Some x => (Some (Z.of_nat (file_position x)), w)
      | _, _ => (None, w)
      end
  | sys_lseek_end fd =>
      match fate o, handle_file w fd with
      | Works, Some (i, n, _) =>
          (Some (Z.of_nat (length (data n))), set_open_file fd (MkOpenFile (Some i) (length (data n))) w)
      | _, _ => (None, w)
      end
  | sys_ftruncate fd =>
      match fate o, handle_file w fd with
      | Works, Some (i, _, _) => (true, set_inode i [] (now o) w)
      | _, _ => (false, w)
      end
  | sys_flock fd =>
      match fate o with Works => (bool_decide (is_Some (open_files w !! fd)), w) | Fails _ => (false, w) end
  | sys_lstat p => match fate o with Works => (lstat_path p w, w) | Fails _ => (None, w) end
  | sys_rename old new =>
      match fate o with Works => rename_path old new w | Fails _ => (false, w) end
  | sys_unlink p =>
      match fate o, names w !! p with
      | Works, Some (Regular _) => (true, set_names (delete p) w)
      | _, _ => (false, w)
      end
  | sys_mkdir p =>
      match fate o, names w !! p with
      | Fails _, _ => (mkdir_error, w)
      | Works, Some _ => (mkdir_exists, w)
      | Works, None =>
          if parent_exists w p then (mkdir_done, set_names (<[p := Directory]>) w) else (mkdir_error, w)
      end
  | sys_rmdir p =>
      match fate o, names w !! p, children w p with
      | Works, Some Directory, [] => (true, set_names (delete p) w)
      | _, _, _ => (false, w)
      end
  | sys_opendir p =>
      if bool_decide (names w !! p = Some Directory)
      then match fate o with
           | Works => (Some (children w p), w)
           | Fails O => (None, w)
           | Fails (S n) => (Some (take n (children w p)), w)
           end
      else (None, w)
  | sys_time => (now o, w)
  | sys_random => match fate o with Works => (Some (entropy o), w) | Fails _ => (None, w) end
  end.

(** ** Programs *)

(** A program returns, makes a call and goes on with its result, or ends at a DCHECK
    that fails. *)
Inductive Prog (A : Type) : Type :=
  | Return (a : A)
  | Call {R : Set} (c : syscall R) (k : R -> Prog A)
  | Stop.
Arguments Return {A}.
Arguments Call {A R}.
Arguments Stop {A}.

Fixpoint prog_bind {A B} (p : Prog A) (f : A -> Prog B) : Prog B :=
  match p with
  | Return a => f a
  | Call c k => Call c (fun r => prog_bind (k r) f)
  | Stop => Stop
  end.
Notation "'let*' x := p 'in' q" := (prog_bind p (fun x => q))
  (at level 10, x binder, p at level 200, q at level 200,
   format "'[v' 'let*'  x  :=  p  'in' '/' q ']'") : crashpad_scope.
Notation "'let*' ' x := p 'in' q" := (prog_bind p (fun y => match y with x => q end))
  (at level 10, x strict pattern, p at level 200, q at level 200) : crashpad_scope.
#[local] Open Scope crashpad_scope.

Definition call {R : Set} (c : syscall R) : Prog R := Call c Return.

(** A DCHECK. *)
Definition dcheck (b : bool) : Prog unit := if b then Return tt else Stop.

(** The program by itself: call number [i] and those after it have outcomes [os]. *)
Fixpoint run {A} (p : Prog A) (os : nat -> Outcome) (i : nat) (w : World) : option (A * World * nat) :=
  match p with
  | Return a => Some (a, w, i)
  | Call c k => let '(r, w') := perform c (os i) w in run (k r) os (S i) w'
  | Stop => None
  end.

(** Processes that share a file system, each with its open files and the rest of its
    program, and one call of one of them. *)
Record Pool := MkPool {
  pool_names : gmap bytes Node;
  pool_inodes : gmap nat Inode;
  processes : list (gmap nat OpenFile * Prog unit)
}.
Definition pool_step (n : nat) (o : Outcome) (s : Pool) : option Pool :=
  match processes s !! n with
  | Some (files, Call c k) =>
      let '(r, w) := perform c o (MkWorld (pool_names s) (pool_inodes s) files) in
      Some (MkPool (names w) (inodes w) (<[n := (open_files w, k r)]> (processes s)))
  | _ => None
  end.
(** Which process makes each call, and how it turns out. *)
Fixpoint pool_run (schedule : list (nat * Outcome)) (s : Pool) : option Pool :=
  match schedule with
  | [] => Some s
  | (n, o) :: rest => s' ← pool_step n o s; pool_run rest s'
  end.

(** ** The functions of util/file *)

(** [FileWriteMode], and the flags [OpenFileForOutput] makes of it. *)
Inductive FileWriteMode := kReuseOrFail | kReuseOrCreate | kTruncateOrCreate | kCreateOrFail.
Definition mode_flags (mode : FileWriteMode) : OpenFlags :=
  match mode with
  | kReuseOrFail => MkFlags true false false false
  | kReuseOrCreate => MkFlags true true false false
  | kTruncateOrCreate => MkFlags true true false true
  | kCreateOrFail => MkFlags true true true false
  end.

Definition OpenFileForRead (path : bytes) : Prog (option nat) :=
  call (sys_open path (MkFlags false false false false)).
(** [OpenFileForWrite] and [OpenFileForReadAndWrite]; the Logging functions differ from
    those without it in the messages they log. *)
Definition OpenFileForOutput (path : bytes) (mode : FileWriteMode) : Prog (option nat) :=
  call (sys_open path (mode_flags mode)).

Definition ReadFileExactly (fd : nat) (size : nat) : Prog (option bytes) :=
  let* r := call (sys_read fd (Some size)) in
  Return (d ← r; if (length d =? size)%nat then Some d else None).
Definition LoggingReadToEOF (fd : nat) : Prog (option bytes) := call (sys_read fd None).
Definition LoggingWriteFile (fd : nat) (buf : bytes) : Prog bool := call (sys_write fd buf).
Definition CloseFile (fd : nat) : Prog unit := call (sys_close fd).

Definition FileModificationTime (path : bytes) : Prog (option Z) :=
  let* st := call (sys_lstat path) in Return (st_mtime <$> st).
Definition IsRegularFile (path : bytes) : Prog bool :=
  let* st := call (sys_lstat path) in
  Return match st with Some s => negb (st_directory s) | None => false end.
Definition IsDirectory (path : bytes) : Prog bool :=
  let* st := call (sys_lstat path) in
  Return match st with Some s => st_directory s | None => false end.

Definition LoggingCreateDirectory (path : bytes) (may_reuse : bool) : Prog bool :=
  let* r := call (sys_mkdir path) in
  match r with
  | mkdir_done => Return true
  | mkdir_exists => if may_reuse then IsDirectory path else Return false
  | mkdir_error => Return false
  end.

Definition MoveFileOrDirectory (source dest : bytes) : Prog bool := call (sys_rename source dest).
Definition LoggingRemoveFile (path : bytes) : Prog bool := call (sys_unlink path).
Definition LoggingRemoveDirectory (path : bytes) : Prog bool := call (sys_rmdir path).

(** [DirectoryReader::Open], and the names [NextFile] returns until it does not
    succeed. *)
Definition ReadDirectory (path : bytes) : Prog (option (list bytes)) := call (sys_opendir path).

Definition GetFileSize (filepath : bytes) : Prog Z :=
  let* b := IsRegularFile filepath in
  if negb b then Return 0
  else let* st := call (sys_lstat filepath) in Return (default 0 (st_size <$> st)).

(** A loop over a list that carries a state. *)
Fixpoint foldM {A S} (f : S -> A -> Prog S) (l : list A) (s : S) : Prog S :=
  match l with
  | [] => Return s
  | x :: l' => let* s' := f s x in foldM f l' s'
  end.

(** Directories are nested less than [fuel] deep; a path has at most [PATH_MAX] = 4096
    characters. *)
Fixpoint GetDirectorySize_ `{FilePath} (fuel : nat) (dirpath : bytes) : Prog Z :=
  match fuel with
  | O => Return 0
  | S f =>
      let* b := IsDirectory dirpath in
      if negb b then Return 0
      else
        let* r := ReadDirectory dirpath in
        match r with
        | None => Return 0
        | Some files =>
            foldM (fun size filename =>
              let filepath := Append dirpath filename in
              let* d := IsDirectory filepath in
              let* n := (if (d : bool) then GetDirectorySize_ f filepath else GetFileSize filepath) in
              Return (u64 (size + n))) files 0
        end
  end.
Definition GetDirectorySize `{FilePath} (dirpath : bytes) : Prog Z := GetDirectorySize_ 2048 dirpath.

(** ** Reasoning about programs *)

(** From [w], if the outcomes of all calls are [ok], the program ends and returns a
    value and leaves a world that satisfy [Q]. *)
Fixpoint wp {A} (ok : Outcome -> Prop) (p : Prog A) (Q : A -> World -> Prop) (w : World) : Prop :=
  match p with
  | Return a => Q a w
  | Call c k => forall o, ok o -> wp ok (k (perform c o w).1) Q (perform c o w).2
  | Stop => False
  end.

Lemma wp_run {A} ok (p : Prog A) Q w os i :
  wp ok p Q w -> (forall i, ok (os i)) ->
  exists a w' j, run p os i w = Some (a, w', j) /\ Q a w'.
Proof.
  revert i w. induction p as [a|R c k IH|]; simpl; intros i w Hwp Hos; [by eauto 6| |done].
  specialize (Hwp (os i) (Hos i)). destruct (perform c (os i) w) as [r w']. by apply IH.
Qed.

Lemma wp_mono {A} ok (p : Prog A) (Q Q' : A -> World -> Prop) w :
  wp ok p Q w -> (forall a w', Q a w' -> Q' a w') -> wp ok p Q' w.
Proof. revert w. induction p as [a|R c k IH|]; simpl; intros w; naive_solver. Qed.

Lemma wp_weaken {A} (ok ok' : Outcome -> Prop) (p : Prog A) Q w :
  (forall o, ok o -> ok' o) -> wp ok' p Q w -> wp ok p Q w.
Proof. intros Hok. revert w. induction p as [a|R c k IH|]; simpl; intros w; naive_solver. Qed.

Lemma wp_bind {A B} ok (p : Prog A) (f : A -> Prog B) Q w :
  wp ok p (fun a w' => wp ok (f a) Q w') w -> wp ok (prog_bind p f) Q w.
Proof. revert w. induction p as [a|R c k IH|]; simpl; intros w; [done| |done]. intros Hwp o Ho. by apply IH, Hwp. Qed.

Lemma wp_call {R : Set} ok (c : syscall R) (Q : R -> World -> Prop) w :
  (forall o, ok o -> Q (perform c o w).1 (perform c o w).2) -> wp ok (call c) Q w.
Proof. done. Qed.

(** What is kept, beside what a program does. *)
Lemma wp_frame {A} ok (I : World -> Prop) (p : Prog A) (Q : A -> World -> Prop) w :
  wp ok p (fun _ w' => I w') w -> wp ok p (fun a w' => I w' -> Q a w') w -> wp ok p Q w.
Proof. revert w. induction p as [a|R c k IH|]; simpl; intros w HI HQ; [by apply HQ| |done]. intros o Ho. apply IH; auto. Qed.

Lemma wp_foldM {A S} ok (f : S -> A -> Prog S) (I : list A -> S -> World -> Prop) l s w :
  I l s w ->
  (forall x l' s w, I (x :: l') s w -> wp ok (f s x) (I l') w) ->
  wp ok (foldM f l s) (I []) w.
Proof.
  intros HI Hf. revert s w HI. induction l as [|x l IH]; intros s w HI; [done|].
  cbn [foldM]. apply wp_bind. eapply wp_mono; [by apply Hf|]. intros s' w' HI'. by apply IH.
Qed.

Lemma foldM_nil {A S} (f : S -> A -> Prog S) s : foldM f [] s = Return s.
Proof. done. Qed.

(** *** Files by their names *)

(** A file system without links: each name of a file has its own inode. *)
Record world_ok (w : World) : Prop := {
  wok_inodes : forall p i, names w !! p = Some (Regular i) -> is_Some (inodes w !! i);
  wok_unlinked : forall p q i, names w !! p = Some (Regular i) -> names w !! q = Some (Regular i) -> p = q
}.

(** What is at a name. *)
Inductive Entry := EDirectory | EFile (contents : bytes).
Definition entry_of (m : gmap nat Inode) (n : Node) : Entry :=
  match n with
  | Directory => EDirectory
  | Regular i => EFile (default [] (data <$> m !! i))
  end.
Definition view (w : World) : gmap bytes Entry := entry_of (inodes w) <$> names w.

(** The handle [fd] is at position [pos] of the file [p]. *)
Definition opened (w : World) (fd : nat) (p : bytes) (pos : nat) : Prop :=
  exists i, open_files w !! fd = Some (MkOpenFile (Some i) pos) /\ names w !! p = Some (Regular i).

Lemma view_lookup w p : view w !! p = entry_of (inodes w) <$> names w !! p.
Proof. apply lookup_fmap. Qed.

Lemma view_None w p : view w !! p = None <-> names w !! p = None.
Proof. rewrite view_lookup. destruct (names w !! p); done. Qed.
Lemma view_Directory w p : view w !! p = Some EDirectory <-> names w !! p = Some Directory.
Proof. rewrite view_lookup. destruct (names w !! p) as [[|i]|]; simpl; split; congruence. Qed.
Lemma view_File w p d :
  world_ok w -> view w !! p = Some (EFile d) ->
  exists i n, names w !! p = Some (Regular i) /\ inodes w !! i = Some n /\ data n = d.
Proof.
  intros Hw. rewrite view_lookup. destruct (names w !! p) as [[|i]|] eqn:E; try done. simpl.
  destruct (wok_inodes w Hw p i E) as [n En]. rewrite En. simpl. intros [= <-]. by eauto.
Qed.

(** The file system is [m], which is all a program sees of it besides its handles. *)
Definition fs (m : gmap bytes Entry) (w : World) : Prop := world_ok w /\ view w = m.

Definition parent_in (m : gmap bytes Entry) (p : bytes) : Prop :=
  match parent_name p with Some (d, _) => d = [] \/ m !! d = Some EDirectory | None => True end.

Lemma parent_exists_in w p : parent_exists w p = true <-> parent_in (view w) p.
Proof.
  unfold parent_exists, parent_in. destruct (parent_name p) as [[d f]|]; [|done].
  rewrite view_Directory. unfold directory_exists. destruct d as [|c d]; [naive_solver|].
  rewrite bool_decide_eq_true. naive_solver.
Qed.

Lemma child_of_Some {N} d (e : bytes * N) f : child_of d e = Some f <-> e.1 = d ++ kSeparator :: f /\ is_name f.
Proof.
  unfold child_of, is_name. destruct (parent_name e.1) as [[d' f']|] eqn:E.
  - apply parent_name_Some in E as [E Hf]. case_bool_decide as Hd.
    + destruct Hd as [-> Hne]. rewrite E. split; [naive_solver|]. intros (E' & Hf'). f_equal.
      apply app_inv_head in E'. congruence.
    + split; [done|]. intros (E' & Hne & Hf'). destruct Hd. rewrite E in E'.
      assert (parent_name (d' ++ kSeparator :: f') = parent_name (d ++ kSeparator :: f)) as E2 by congruence.
      rewrite !parent_name_path in E2 by done. by simplify_eq.
  - split; [done|]. intros (E' & _ & Hf). by rewrite E', parent_name_path in E.
Qed.

Lemma NoDup_omap {A B} (f : A -> option B) l :
  (forall x y z, x ∈ l -> y ∈ l -> f x = Some z -> f y = Some z -> x = y) -> NoDup l -> NoDup (omap f l).
Proof.
  intros Hf Hl. induction Hl as [|x l Hx _ IH]; simpl; [constructor|].
  assert (NoDup (omap f l)) as IH' by (apply IH; intros a b z Ha Hb; apply Hf; by right).
  destruct (f x) as [z|] eqn:E; [|done]. constructor; [|done].
  intros (y & Hy & Ey)%list_elem_of_omap. destruct Hx.
  rewrite (Hf x y z); [done|left|by right|done|done].
Qed.

Definition lists_directory (m : gmap bytes Entry) (d : bytes) (l : list bytes) : Prop :=
  NoDup l /\ forall f, f ∈ l <-> is_Some (m !! (d ++ kSeparator :: f)) /\ is_name f.

Lemma children_spec w d : lists_directory (view w) d (children w d).
Proof.
  unfold children. split.
  - apply NoDup_omap; [|apply NoDup_map_to_list]. intros [p1 n1] [p2 n2] f Hp1 Hp2.
    intros [E1 _]%child_of_Some [E2 _]%child_of_Some. simpl in *. subst. apply elem_of_map_to_list in Hp1, Hp2. congruence.
  - intros f. rewrite list_elem_of_omap, view_lookup, fmap_is_Some. split.
    + intros ([p n] & Hp & [E Hf]%child_of_Some). simpl in *. subst. apply elem_of_map_to_list in Hp. eauto.
    + intros [[n Hn] Hf]. exists (d ++ kSeparator :: f, n). rewrite elem_of_map_to_list, child_of_Some. done.
Qed.

(** The names in a directory, and the size of the files below it. *)
Definition names_in (m : gmap bytes Entry) (d : bytes) : list bytes := omap (child_of d) (map_to_list m).
Fixpoint directory_size (fuel : nat) (m : gmap bytes Entry) (d : bytes) : Z :=
  match fuel, m !! d with
  | S f, Some EDirectory =>
      foldr Z.add 0 (map (fun name => match m !! (d ++ kSeparator :: name) with
                                      | Some EDirectory => directory_size f m (d ++ kSeparator :: name)
                                      | Some (EFile contents) => Z.of_nat (length contents)
                                      | None => 0
                                      end) (names_in m d))
  | _, _ => 0
  end.

Lemma names_in_spec m d : lists_directory m d (names_in m d).
Proof.
  unfold names_in. split.
  - apply NoDup_omap; [|apply NoDup_map_to_list]. intros [p1 n1] [p2 n2] f Hp1 Hp2.
    intros [E1 _]%child_of_Some [E2 _]%child_of_Some. simpl in *. subst. apply elem_of_map_to_list in Hp1, Hp2. congruence.
  - intros f. rewrite list_elem_of_omap. split.
    + intros ([p n] & Hp & [E Hf]%child_of_Some). simpl in *. subst. apply elem_of_map_to_list in Hp. eauto.
    + intros [[n Hn] Hf]. exists (d ++ kSeparator :: f, n). rewrite elem_of_map_to_list, child_of_Some. done.
Qed.
Lemma sum_permutation (l l' : list Z) : l ≡ₚ l' -> foldr Z.add 0 l = foldr Z.add 0 l'.
Proof. induction 1; cbn; lia. Qed.

Lemma fresh_inode w i : world_ok w -> i ∉ dom (inodes w) -> forall p, names w !! p <> Some (Regular i).
Proof. intros Hw Hi p Hp. apply Hi, elem_of_dom. by apply (wok_inodes w Hw p). Qed.

(** Writing to an inode changes the one file that has it. *)
Lemma view_set_inode w i p d t :
  world_ok w -> names w !! p = Some (Regular i) ->
  fs (<[p := EFile d]> (view w)) (set_inode i d t w).
Proof.
  intros Hw Hp. split.
  - split; simpl; [|apply Hw]. intros q j Hq. apply lookup_insert_is_Some'. right. by apply (wok_inodes w Hw q).
  - apply map_eq. intros q. rewrite view_lookup. simpl. destruct (decide (q = p)) as [->|Hne].
    + rewrite Hp, lookup_insert_eq. simpl. by rewrite lookup_insert_eq.
    + rewrite lookup_insert_ne, view_lookup by done. destruct (names w !! q) as [[|j]|] eqn:Eq; try done.
      simpl. rewrite lookup_insert_ne; [done|]. intros ->. destruct Hne. by eapply (wok_unlinked w Hw).
Qed.

Lemma fs_same w w' : names w' = names w -> inodes w' = inodes w -> world_ok w -> fs (view w) w'.
Proof. intros En Ei Hw. split; [|unfold view; by rewrite En, Ei]. split; rewrite ?En, ?Ei; apply Hw. Qed.

Lemma view_new_file w p i d t :
  world_ok w -> names w !! p = None -> i ∉ dom (inodes w) ->
  fs (<[p := EFile d]> (view w)) (set_inode i d t (set_names (<[p := Regular i]>) w)).
Proof.
  intros Hw Hp Hi. pose proof (fresh_inode w i Hw Hi) as Hni. split; [split|]; simpl.
  - intros q j. apply not_elem_of_dom in Hi. destruct (decide (q = p)) as [->|]; intros Hq; simplify_map_eq.
    + done.
    +  apply lookup_insert_is_Some'. right. by apply (wok_inodes w Hw q).
  - intros q1 q2 j H1 H2. rewrite lookup_insert in H1, H2.
    destruct (decide (p = q1)), (decide (p = q2)); simplify_eq; try done.
    + by destruct (Hni q2).
    + by destruct (Hni q1).
    + by eapply (wok_unlinked w Hw).
  - apply map_eq. intros q. rewrite view_lookup. simpl. destruct (decide (q = p)) as [->|Hne]; simplify_map_eq; [done|].
    rewrite view_lookup. destruct (names w !! q) as [[|j]|] eqn:Eq; try done.
    simpl. rewrite lookup_insert_ne; [done|]. intros ->. by destruct (Hni q).
Qed.

Lemma view_delete w p : world_ok w -> fs (delete p (view w)) (set_names (delete p) w).
Proof.
  intros Hw. split; [split|]; simpl.
  - intros q i [_ Hq]%lookup_delete_Some. by apply (wok_inodes w Hw q).
  - intros q1 q2 i [_ H1]%lookup_delete_Some [_ H2]%lookup_delete_Some. by eapply (wok_unlinked w Hw).
  - unfold view. simpl. by rewrite fmap_delete.
Qed.

Lemma view_rename w p q d :
  world_ok w -> view w !! p = Some (EFile d) -> forall i, names w !! p = Some (Regular i) ->
  fs (<[q := EFile d]> (delete p (view w))) (set_names (fun m => <[q := Regular i]> (delete p m)) w).
Proof.
  intros Hw Hd i Hi. split; [split|]; simpl.
  - intros r j Hr. destruct (decide (r = q)) as [->|]; simplify_map_eq.
    + by apply (wok_inodes w Hw p).
    + apply lookup_delete_Some in Hr as [_ Hr]. by apply (wok_inodes w Hw r).
  - intros r1 r2 j H1 H2.
    rewrite lookup_insert in H1, H2. destruct (decide (q = r1)) as [<-|], (decide (q = r2)) as [<-|]; [done| | |].
    + injection H1 as ->. apply lookup_delete_Some in H2 as [Hne H2].
      destruct Hne. by eapply (wok_unlinked w Hw).
    + injection H2 as ->. apply lookup_delete_Some in H1 as [Hne H1].
      destruct Hne. by eapply (wok_unlinked w Hw).
    + apply lookup_delete_Some in H1 as [_ H1], H2 as [_ H2]. by eapply (wok_unlinked w Hw).
  - rewrite view_lookup, Hi in Hd. cbn [fmap option_fmap option_map] in Hd. injection Hd as Hd.
    unfold view. simpl. by rewrite fmap_insert, fmap_delete, <-Hd.
Qed.

(** *** What the calls do when they work *)

Section Working.
  Context {clk : Clock}.

(** Open files are not part of what is at the names. *)
Lemma fs_handles m w w' : names w' = names w -> inodes w' = inodes w -> fs m w -> fs m w'.
Proof. intros En Ei [Hw <-]. by apply fs_same. Qed.

Lemma wp_open_create p f (Q : option nat -> World -> Prop) m w :
  fs m w -> m !! p = None -> parent_in m p -> O_CREAT f = true ->
  (forall fd w', fs (<[p := EFile []]> m) w' -> opened w' fd p 0 -> Q (Some fd) w') ->
  wp works (call (sys_open p f)) Q w.
Proof.
  intros [Hw <-] Hp Hpar Hf HQ. apply wp_call. intros o [Ho _]. cbn [perform]. rewrite Ho. unfold open_path.
  apply view_None in Hp. rewrite Hp, Hf, (proj2 (parent_exists_in w p) Hpar). cbn [andb].
  set (i := fresh (dom (inodes w))).
  assert (i ∉ dom (inodes w)) as Hi by apply is_fresh.
  pose proof (view_new_file w p i [] (now o) Hw Hp Hi) as Hfs. unfold new_handle. cbn.
  apply HQ; [by eapply fs_handles, Hfs|]. exists i. cbn. by rewrite !lookup_insert_eq.
Qed.

Lemma wp_open_excl p f (Q : option nat -> World -> Prop) m w :
  fs m w -> is_Some (m !! p) -> O_CREAT f = true -> O_EXCL f = true ->
  Q None w -> wp works (call (sys_open p f)) Q w.
Proof.
  intros [Hw <-] Hp Hc He HQ. apply wp_call. intros o [Ho _]. cbn [perform]. rewrite Ho. unfold open_path.
  rewrite view_lookup in Hp. destruct (names w !! p) as [[|i]|]; [..|by destruct Hp].
  - by rewrite Hc, orb_true_r.
  - by rewrite Hc, He.
Qed.

Lemma wp_open_missing p f (Q : option nat -> World -> Prop) m w :
  fs m w -> m !! p = None -> O_CREAT f = false -> Q None w -> wp works (call (sys_open p f)) Q w.
Proof.
  intros [Hw <-] Hp Hc HQ. apply wp_call. intros o [Ho _]. cbn [perform]. rewrite Ho. unfold open_path.
  apply view_None in Hp. by rewrite Hp, Hc.
Qed.

Lemma wp_open_existing p f d (Q : option nat -> World -> Prop) m w :
  fs m w -> m !! p = Some (EFile d) -> O_EXCL f = false ->
  (forall fd w', fs (if O_TRUNC f then <[p := EFile []]> m else m) w' -> opened w' fd p 0 -> Q (Some fd) w') ->
  wp works (call (sys_open p f)) Q w.
Proof.
  intros [Hw <-] Hp He HQ. apply wp_call. intros o [Ho _]. cbn [perform]. rewrite Ho. unfold open_path.
  destruct (view_File w p d Hw Hp) as (i & n & Hi & _ & _). rewrite Hi, He, andb_false_r.
  unfold new_handle. cbn. apply HQ.
  - destruct (O_TRUNC f); [|by apply fs_same]. by eapply fs_handles, (view_set_inode w i p [] (now o) Hw Hi).
  - exists i. cbn. rewrite lookup_insert_eq. by destruct (O_TRUNC f).
Qed.

(** The handle that is returned was not open before, and the others stay as they are. *)
Lemma wp_open_fresh p f (Q : option nat -> World -> Prop) w :
  wp works (call (sys_open p f))
    (fun r w' => (forall fd, open_files w !! fd <> None -> open_files w' !! fd = open_files w !! fd) ->
       match r with
       | Some fd => open_files w !! fd = None -> is_Some (open_files w' !! fd) -> Q r w'
       | None => Q r w'
       end) w ->
  wp works (call (sys_open p f)) Q w.
Proof.
  intros Hp. apply wp_call. intros o Ho. specialize (Hp o Ho). cbn [wp perform] in Hp. cbn [perform].
  destruct Ho as [Ho _]. rewrite Ho in Hp |- *.
  assert (forall i w0, open_files w0 = open_files w ->
    let fd := (new_handle i w0).1 in let w' := (new_handle i w0).2 in
    (forall fd, open_files w !! fd <> None -> open_files w' !! fd = open_files w !! fd) /\
    open_files w !! fd = None /\ is_Some (open_files w' !! fd)) as Hnew.
  { intros i w0 E. unfold new_handle. cbn [fst snd set_open_file open_files]. rewrite E.
    pose proof (is_fresh (dom (open_files w))) as Hf. apply not_elem_of_dom in Hf. split_and!; [|done|by rewrite lookup_insert_eq].
    intros fd Hfd. apply lookup_insert_ne. congruence. }
  unfold open_path in *. destruct (names w !! p) as [[|i]|].
  - destruct (O_WRITE f || O_CREAT f); [by apply Hp|]. destruct (Hnew None w eq_refl) as (H1 & H2 & H3). by apply Hp.
  - destruct (O_CREAT f && O_EXCL f); [by apply Hp|].
    set (w0 := if O_TRUNC f then _ else w) in *. assert (open_files w0 = open_files w) as E by (unfold w0; by destruct (O_TRUNC f)).
    destruct (Hnew (Some i) w0 E) as (H1 & H2 & H3). by apply Hp.
  - destruct (O_CREAT f && parent_exists w p); [|by apply Hp]. cbn zeta in Hp |- *.
    match goal with |- context [new_handle ?i ?w0] => destruct (Hnew i w0 eq_refl) as (H1 & H2 & H3) end. by apply Hp.
Qed.

Lemma opened_handle w fd p pos d :
  world_ok w -> opened w fd p pos -> view w !! p = Some (EFile d) ->
  exists i n, handle_file w fd = Some (i, n, pos) /\ names w !! p = Some (Regular i) /\ data n = d.
Proof.
  intros Hw (i & Hf & Hp) Hd. destruct (view_File w p d Hw Hd) as (j & n & Hj & Hn & E).
  rewrite Hp in Hj. injection Hj as <-. exists i, n. unfold handle_file. rewrite Hf. cbn. by rewrite Hn.
Qed.

Lemma wp_write fd p pos buf d (Q : bool -> World -> Prop) m w :
  fs m w -> opened w fd p pos -> m !! p = Some (EFile d) ->
  (forall w', fs (<[p := EFile (write_at pos buf d)]> m) w' -> opened w' fd p (pos + length buf) -> Q true w') ->
  wp works (LoggingWriteFile fd buf) Q w.
Proof.
  intros [Hw <-] Ho Hp HQ. apply wp_call. intros o [Hok _]. cbn [perform]. rewrite Hok.
  destruct (opened_handle w fd p pos d Hw Ho Hp) as (i & n & Eh & Hi & Hd).
  unfold write_handle. rewrite Eh. cbn. rewrite Hd. apply HQ.
  - by eapply fs_handles, (view_set_inode w i p _ (now o) Hw Hi).
  - exists i. cbn. by rewrite lookup_insert_eq.
Qed.

Lemma opened_frame w w' fd p pos :
  names w' = names w -> open_files w' !! fd = open_files w !! fd -> opened w fd p pos -> opened w' fd p pos.
Proof. intros En Eo (i & H1 & H2). exists i. by rewrite En, Eo. Qed.

Lemma wp_read fd p pos count d (Q : option bytes -> World -> Prop) m w :
  fs m w -> opened w fd p pos -> m !! p = Some (EFile d) ->
  (let r := match count with Some k => slice pos k d | None => drop pos d end in
   forall w', fs m w' -> opened w' fd p (pos + length r) -> Q (Some r) w') ->
  wp works (call (sys_read fd count)) Q w.
Proof.
  intros [Hw <-] Ho Hp HQ. apply wp_call. intros o [Hok _]. cbn [perform]. rewrite Hok.
  destruct (opened_handle w fd p pos d Hw Ho Hp) as (i & n & Eh & Hi & Hd).
  unfold read_handle. rewrite Eh. cbn. rewrite Hd. apply HQ; [by apply fs_same|].
  exists i. cbn. by rewrite lookup_insert_eq.
Qed.

(** Reading from any handle changes no file, and no other handle. *)
Lemma wp_read_any fd count (Q : option bytes -> World -> Prop) m w :
  fs m w ->
  (forall r w', fs m w' -> names w' = names w -> (forall fd', fd' <> fd -> open_files w' !! fd' = open_files w !! fd') -> Q r w') ->
  wp works (call (sys_read fd count)) Q w.
Proof.
  intros [Hw <-] HQ. apply wp_call. intros o [Hok _]. cbn [perform]. rewrite Hok. unfold read_handle.
  destruct (handle_file w fd) as [[[i n] pos]|]; cbn [fst snd]; apply HQ; [by apply fs_same|done| |done|done|done].
  intros fd' Hne. cbn [set_open_file open_files]. by rewrite lookup_insert_ne.
Qed.

(** Handles that can be read, which other calls leave so. *)
Definition readable (w : World) (fd : nat) : Prop := is_Some (handle_file w fd).
Lemma readable_set_position w fd fd' x pos :
  open_files w !! fd = Some x -> readable w fd' -> readable (set_open_file fd (MkOpenFile (file_inode x) pos) w) fd'.
Proof.
  unfold readable, handle_file. intros E. cbn [set_open_file open_files inodes]. destruct (decide (fd = fd')) as [<-|Hne].
  - rewrite E, lookup_insert_eq. cbn [mbind option_bind file_inode]. destruct (file_inode x) as [i|]; [|done]. cbn. by destruct (inodes w !! i).
  - by rewrite lookup_insert_ne.
Qed.
Lemma wp_read_readable fd count (Q : option bytes -> World -> Prop) m w :
  fs m w -> readable w fd ->
  (forall d w', fs m w' -> names w' = names w -> (forall fd', fd' <> fd -> open_files w' !! fd' = open_files w !! fd') ->
     (forall fd', readable w fd' -> readable w' fd') -> Q (Some d) w') ->
  wp works (call (sys_read fd count)) Q w.
Proof.
  intros [Hw <-] [[[i n] pos] Eh] HQ. apply wp_call. intros o [Hok _]. cbn [perform]. rewrite Hok. unfold read_handle. rewrite Eh. cbn [fst snd].
  apply HQ; [by apply fs_same|done| |].
  - intros fd' Hne. cbn [set_open_file open_files]. by rewrite lookup_insert_ne.
  - intros fd'. unfold handle_file in Eh. destruct (open_files w !! fd) as [x|] eqn:Ex; [|done]. cbn [mbind option_bind] in Eh.
    destruct (file_inode x) as [j|] eqn:Ej; [|done]. cbn in Eh. destruct (inodes w !! j); [|done]. injection Eh as <- _ _. rewrite <-Ej. by apply readable_set_position.
Qed.
Lemma readable_read fd count fds w :
  Forall (readable w) fds -> wp works (call (sys_read fd count)) (fun _ w' => Forall (readable w') fds) w.
Proof.
  intros Hf. apply wp_call. intros o [Hok _]. cbn [perform]. rewrite Hok. unfold read_handle.
  destruct (handle_file w fd) as [[[i n] pos]|] eqn:Eh; [|done]. cbn [fst snd]. eapply Forall_impl; [exact Hf|]. intros fd'.
  unfold handle_file in Eh. destruct (open_files w !! fd) as [x|] eqn:Ex; [|done]. cbn [mbind option_bind] in Eh.
  destruct (file_inode x) as [j|] eqn:Ej; [|done]. cbn in Eh. destruct (inodes w !! j); [|done]. injection Eh as <- _ _. rewrite <-Ej. by apply readable_set_position.
Qed.
Lemma readable_lseek fd offset fds w :
  Forall (readable w) fds -> wp works (call (sys_lseek_set fd offset)) (fun _ w' => Forall (readable w') fds) w.
Proof.
  intros Hf. apply wp_call. intros o [Hok _]. cbn [perform]. rewrite Hok. destruct (open_files w !! fd) as [x|] eqn:Ex; [|done]. cbn [fst snd].
  eapply Forall_impl; [exact Hf|]. intros fd'. by apply readable_set_position.
Qed.
(** A file that is opened to be read, and is not a directory, can be read. *)
Lemma open_to_read p w o :
  world_ok w -> fate o = Works ->
  let w' := (perform (sys_open p (MkFlags false false false false)) o w).2 in
  names w' = names w /\ inodes w' = inodes w /\ (forall fd, open_files w !! fd <> None -> open_files w' !! fd = open_files w !! fd) /\
  (forall fd, readable w fd -> readable w' fd) /\
  match (perform (sys_open p (MkFlags false false false false)) o w).1 with
  | Some fd => open_files w' !! fd <> None /\ (names w !! p <> Some Directory -> readable w' fd)
  | None => True
  end.
Proof.
  intros Hw Ho. cbn [perform]. rewrite Ho. unfold open_path. cbn [O_WRITE O_CREAT O_EXCL O_TRUNC orb andb].
  assert (forall i, let fd := (new_handle i w).1 in let w' := (new_handle i w).2 in
    names w' = names w /\ inodes w' = inodes w /\ (forall fd, open_files w !! fd <> None -> open_files w' !! fd = open_files w !! fd) /\
    (forall fd, readable w fd -> readable w' fd) /\ open_files w' !! fd = Some (MkOpenFile i 0)) as Hnew.
  { intros i. cbn. pose proof (is_fresh (dom (open_files w))) as Hf. apply not_elem_of_dom in Hf.
    assert (forall fd, open_files w !! fd <> None -> <[fresh (dom (open_files w)) := MkOpenFile i 0]> (open_files w) !! fd = open_files w !! fd) as Hkeep
      by (intros fd Hfd; apply lookup_insert_ne; congruence).
    split_and!; [done|done|done| |apply lookup_insert_eq]. intros fd [y Hy]. unfold readable, handle_file in *. cbn [set_open_file open_files inodes].
    rewrite Hkeep; [by rewrite Hy|]. intros E. by rewrite E in Hy. }
  destruct (names w !! p) as [[|i]|] eqn:Ep; [|pose proof (Hnew (Some i)) as Hi|by split_and!].
  - specialize (Hnew None). destruct (new_handle None w) as [fd w']. destruct Hnew as (? & ? & ? & ? & E). cbn in *. split_and!; [done..|by rewrite E|done].
  - destruct (new_handle (Some i) w) as [fd w']. destruct Hi as (? & Ei & ? & ? & E). cbn in *. split_and!; [done..|by rewrite E|]. intros _.
    destruct (wok_inodes w Hw p i Ep) as [n En]. unfold readable, handle_file. rewrite E. cbn. rewrite Ei, En. by eexists.
Qed.
Lemma readable_open p fds w :
  world_ok w -> Forall (readable w) fds -> wp works (OpenFileForRead p) (fun _ w' => Forall (readable w') fds) w.
Proof.
  intros Hw Hf. apply wp_call. intros o [Ho _]. destruct (open_to_read p w o Hw Ho) as (_ & _ & _ & Hr & _).
  eapply Forall_impl; [exact Hf|]. exact Hr.
Qed.

Lemma wp_lseek_set fd p pos offset (Q : bool -> World -> Prop) m w :
  fs m w -> opened w fd p pos ->
  (forall w', fs m w' -> opened w' fd p offset -> Q true w') ->
  wp works (call (sys_lseek_set fd offset)) Q w.
Proof.
  intros [Hw <-] (i & Hf & Hp) HQ. apply wp_call. intros o [Hok _]. cbn [perform]. rewrite Hok, Hf. cbn.
  apply HQ; [by apply fs_same|]. exists i. cbn. by rewrite lookup_insert_eq.
Qed.

Lemma wp_ftruncate fd p pos d (Q : bool -> World -> Prop) m w :
  fs m w -> opened w fd p pos -> m !! p = Some (EFile d) ->
  (forall w', fs (<[p := EFile []]> m) w' -> opened w' fd p pos -> Q true w') ->
  wp works (call (sys_ftruncate fd)) Q w.
Proof.
  intros [Hw <-] Ho Hp HQ. apply wp_call. intros o [Hok _]. cbn [perform]. rewrite Hok.
  destruct (opened_handle w fd p pos d Hw Ho Hp) as (i & n & Eh & Hi & Hd). rewrite Eh. cbn.
  apply HQ; [by apply view_set_inode|]. eapply opened_frame; [..|exact Ho]; done.
Qed.

Lemma wp_flock fd p pos (Q : bool -> World -> Prop) m w :
  fs m w -> opened w fd p pos -> Q true w -> wp works (call (sys_flock fd)) Q w.
Proof.
  intros _ (i & Hf & _) HQ. apply wp_call. intros o [Hok _]. cbn [perform]. rewrite Hok, Hf.
  by rewrite bool_decide_eq_true_2 by done.
Qed.

(** Closing a handle, and other calls that work on any handle. *)
Lemma wp_close fd (Q : unit -> World -> Prop) m w :
  fs m w -> (forall w', fs m w' -> Q tt w') -> wp works (CloseFile fd) Q w.
Proof. intros [Hw <-] HQ. apply wp_call. intros o [Hok _]. cbn. by apply HQ, fs_same. Qed.

Lemma wp_lseek_cur fd p pos (Q : option Z -> World -> Prop) m w :
  fs m w -> opened w fd p pos -> Q (Some (Z.of_nat pos)) w -> wp works (call (sys_lseek_cur fd)) Q w.
Proof.
  intros _ (i & Hf & _) HQ. apply wp_call. intros o [Hok _]. cbn [perform]. by rewrite Hok, Hf.
Qed.

Lemma wp_lseek_end fd (Q : option Z -> World -> Prop) m w :
  fs m w -> (forall r w', fs m w' -> Q r w') -> wp works (call (sys_lseek_end fd)) Q w.
Proof.
  intros [Hw <-] HQ. apply wp_call. intros o [Hok _]. cbn [perform]. rewrite Hok.
  destruct (handle_file w fd) as [[[i n] pos]|]; cbn; apply HQ; [by apply fs_same|done].
Qed.

Definition entry_stat (e : Entry) (t : Z) : Stat :=
  match e with
  | EDirectory => MkStat true 0 0
  | EFile d => MkStat false (Z.of_nat (length d)) t
  end.

Lemma wp_lstat p (Q : option Stat -> World -> Prop) m w :
  fs m w -> (forall t, Q ((fun e => entry_stat e t) <$> m !! p) w) -> wp works (call (sys_lstat p)) Q w.
Proof.
  intros [Hw <-] HQ. apply wp_call. intros o [Hok _]. cbn [perform]. rewrite Hok. cbn.
  unfold lstat_path. rewrite view_lookup in HQ. destruct (names w !! p) as [[|i]|] eqn:E; cbn in HQ.
  - apply (HQ 0).
  - destruct (wok_inodes w Hw p i E) as [n En]. rewrite En in HQ |- *. apply (HQ (mtime n)).
  - apply (HQ 0).
Qed.

Lemma wp_is_regular_file p (Q : bool -> World -> Prop) m w :
  fs m w -> Q (match m !! p with Some (EFile _) => true | _ => false end) w ->
  wp works (IsRegularFile p) Q w.
Proof.
  intros Hfs HQ. apply wp_bind. eapply wp_lstat; [done|]. intros t. cbn. by destruct (m !! p) as [[|d]|].
Qed.

Lemma wp_is_directory p (Q : bool -> World -> Prop) m w :
  fs m w -> Q (match m !! p with Some EDirectory => true | _ => false end) w ->
  wp works (IsDirectory p) Q w.
Proof.
  intros Hfs HQ. apply wp_bind. eapply wp_lstat; [done|]. intros t. cbn. by destruct (m !! p) as [[|d]|].
Qed.

Lemma wp_get_file_size p (Q : Z -> World -> Prop) m w :
  fs m w -> Q (match m !! p with Some (EFile d) => Z.of_nat (length d) | _ => 0 end) w -> wp works (GetFileSize p) Q w.
Proof.
  intros Hfs HQ. unfold GetFileSize. apply wp_bind. eapply wp_is_regular_file; [done|].
  destruct (m !! p) as [[|d]|] eqn:E; cbn [negb]; [done| |done].
  apply wp_bind. eapply wp_lstat; [done|]. intros t. by rewrite E.
Qed.

Lemma wp_unlink p d (Q : bool -> World -> Prop) m w :
  fs m w -> m !! p = Some (EFile d) ->
  (forall w', fs (delete p m) w' -> Q true w') -> wp works (LoggingRemoveFile p) Q w.
Proof.
  intros [Hw <-] Hp HQ. apply wp_call. intros o [Hok _]. cbn [perform]. rewrite Hok.
  destruct (view_File w p d Hw Hp) as (i & n & Hi & _ & _). rewrite Hi. cbn. by apply HQ, view_delete.
Qed.

Lemma wp_unlink_missing p (Q : bool -> World -> Prop) m w :
  fs m w -> m !! p = None -> Q false w -> wp works (LoggingRemoveFile p) Q w.
Proof.
  intros [Hw <-] Hp HQ. apply wp_call. intros o [Hok _]. cbn [perform]. rewrite Hok.
  apply view_None in Hp. by rewrite Hp.
Qed.

Lemma wp_rename p q d (Q : bool -> World -> Prop) m w :
  fs m w -> m !! p = Some (EFile d) -> m !! q <> Some EDirectory -> parent_in m q ->
  (forall w', fs (<[q := EFile d]> (delete p m)) w' -> Q true w') ->
  wp works (MoveFileOrDirectory p q) Q w.
Proof.
  intros [Hw <-] Hp Hq Hpar HQ. apply wp_call. intros o [Hok _]. cbn [perform]. rewrite Hok.
  destruct (view_File w p d Hw Hp) as (i & n & Hi & _ & _). unfold rename_path. rewrite Hi.
  rewrite view_Directory in Hq. destruct (names w !! q) as [[|j]|]; [done|..].
  - cbn. apply HQ. by apply view_rename.
  - rewrite (proj2 (parent_exists_in w q) Hpar). cbn. apply HQ. by apply view_rename.
Qed.

Lemma wp_opendir p (Q : option (list bytes) -> World -> Prop) m w :
  fs m w -> m !! p = Some EDirectory ->
  (forall l, lists_directory m p l -> Q (Some l) w) -> wp works (ReadDirectory p) Q w.
Proof.
  intros [Hw <-] Hp HQ. apply wp_call. intros o [Hok _]. cbn [perform]. apply view_Directory in Hp.
  rewrite bool_decide_eq_true_2, Hok by done. apply HQ, children_spec.
Qed.

Lemma wp_clock (Q : Z -> World -> Prop) w :
  (forall t, 0 <= t < 2 ^ 63 -> clock t -> Q t w) -> wp works (call sys_time) Q w.
Proof. intros HQ. apply wp_call. intros o (_ & [Ht Hc] & _). by apply HQ. Qed.
Lemma wp_time (Q : Z -> World -> Prop) w :
  (forall t, 0 <= t < 2 ^ 63 -> Q t w) -> wp works (call sys_time) Q w.
Proof. intros HQ. apply wp_clock. intros t Ht _. by apply HQ. Qed.

Lemma wp_random (Q : option bytes -> World -> Prop) w :
  (forall b, length b = 16%nat -> Forall is_byte b -> Q (Some b) w) -> wp works (call sys_random) Q w.
Proof. intros HQ. apply wp_call. intros o (Ho & _ & Hl & Hb). cbn [perform]. rewrite Ho. by apply HQ. Qed.
End Working.

(** A file system given by its directories and files. *)
Definition build_world (dirs : list bytes) (files : list (bytes * bytes)) : World :=
  MkWorld (list_to_map ((fun d => (d, Directory)) <$> dirs) ∪
           list_to_map (imap (fun i f => (f.1, Regular i)) files))
          (list_to_map (imap (fun i f => (i, MkInode f.2 0)) files)) ∅.
(** Its links, checked by evaluation. *)
Definition check_world (w : World) : bool :=
  let l := omap (fun n => match n with Regular i => Some i | Directory => None end)
             (map_to_list (names w)).*2 in
  forallb (fun i => bool_decide (is_Some (inodes w !! i))) l && bool_decide (NoDup l).

Lemma check_world_ok w : check_world w = true -> world_ok w.
Proof.
  unfold check_world. set (inode_of := fun n => match n with Regular i => Some i | Directory => None end).
  intros [Hin Hnd]%andb_true_iff. apply bool_decide_eq_true in Hnd. rewrite forallb_forall in Hin.
  assert (forall p i, names w !! p = Some (Regular i) -> i ∈ omap inode_of (map_to_list (names w)).*2) as Hl.
  { intros p i Hp. apply list_elem_of_omap. exists (Regular i). split; [|done].
    apply list_elem_of_fmap. exists (p, Regular i). by rewrite elem_of_map_to_list. }
  split.
  - intros p i Hp. apply Hl, list_elem_of_In, Hin, bool_decide_eq_true in Hp. done.
  - intros p q i Hp Hq. apply elem_of_map_to_list in Hp, Hq. clear Hin Hl.
    induction (map_to_list (names w)) as [|[r n] l IH]; [by apply elem_of_nil in Hp|]. simpl in Hnd.
    assert (forall p, (p, Regular i) ∈ l -> i ∈ omap inode_of l.*2) as Hl.
    { intros p' Hp'. apply list_elem_of_omap. exists (Regular i). split; [|done].
      apply list_elem_of_fmap. by exists (p', Regular i). }
    apply elem_of_cons in Hp as [Ep|Hp], Hq as [Eq|Hq]; [congruence|..]; simplify_eq; simpl in Hnd.
    + apply NoDup_cons in Hnd as [[] _]. by apply (Hl q).
    + apply NoDup_cons in Hnd as [[] _]. by apply (Hl p).
    + apply IH; [|done|done]. destruct (inode_of n); [by apply NoDup_cons in Hnd as [_ ?]|done].
Qed.

(** Calls that all work, at the time [t]. *)
Definition steady (t : Z) (i : nat) : Outcome := MkOutcome Works t (str "0123456789abcdef").
Lemma steady_works_at {clk : Clock} t : 0 <= t < 2 ^ 63 -> clock t -> forall i, works (steady t i).
Proof. intros Ht Hc i. split_and!; try done; try apply Ht. apply str_bytes. Qed.
Lemma steady_works t : 0 <= t < 2 ^ 63 -> forall i, works (steady t i).
Proof. intros Ht. by apply steady_works_at. Qed.
