(* ===== verification/Settings.v ===== *)
(** * The settings of a database (client/settings.cc, client/settings.h)

    The class [Settings], whose data is in a file that is locked while it is used.
    The operations are programs on the file system of FileSystem.v, for the systems on
    which [flock] is supported; a handle is returned with the lock, and [Free] unlocks
    and closes it.  Whatever the file holds, once [Initialize] has returned the
    operations are shown to be those of a record with three fields. *)

From S2P Require Import Prelude.
From S2P Require Import Numeric.
From S2P Require Import Structs.
From S2P Require Import FileIO.
From S2P Require Import Uuid.
From S2P Require Import FileSystem.
#[local] Open Scope crashpad_scope.

(** The representation of a [UUID]. *)
Definition UUID_repr : Repr UUID :=
  struct (uint 4 ⊗ uint 2 ⊗ uint 2 ⊗ (uint 1 ⊗ uint 1) ⊗
          (uint 1 ⊗ uint 1 ⊗ uint 1 ⊗ uint 1 ⊗ uint 1 ⊗ uint 1))
    (fun u => (data_1 u, data_2 u, data_3 u, data_4 u, data_5 u))
    (fun '(a, b, c, d, e) => MkUUID a b c d e).
#[export] Instance UUID_repr_laws : ReprLaws UUID_repr.
Proof. struct_laws. Qed.

Module Settings.

(** [Settings::Data]. *)
Record Data := MkData {
  magic : Z;
  version : Z;
  options : Z;
  padding_0 : Z;
  last_upload_attempt_time : Z;
  client_id : UUID
}.
Definition kSettingsMagic : Z := 0x43506473.
Definition kSettingsVersion : Z := 1.
Definition kUploadsEnabled : Z := 1.

Definition Data_repr : Repr Data :=
  struct (uint 4 ⊗ uint 4 ⊗ uint 4 ⊗ uint 4 ⊗ sint 8 ⊗ UUID_repr)
    (fun x => (magic x, version x, options x, padding_0 x, last_upload_attempt_time x, client_id x))
    (fun '(a, b, c, d, e, f) => MkData a b c d e f).
#[global] Instance Data_repr_laws : ReprLaws Data_repr.
Proof. struct_laws. Qed.

(** The constructor of [Data]. *)
Definition new_data : Data := MkData kSettingsMagic kSettingsVersion 0 0 0 InitializeToZero.

Definition set_options (x : Data) (v : Z) : Data :=
  MkData (magic x) (version x) v (padding_0 x) (last_upload_attempt_time x) (client_id x).
Definition set_last_upload_attempt_time (x : Data) (v : Z) : Data :=
  MkData (magic x) (version x) (options x) (padding_0 x) v (client_id x).
Definition set_client_id (x : Data) (v : UUID) : Data :=
  MkData (magic x) (version x) (options x) (padding_0 x) (last_upload_attempt_time x) v.

Inductive InitializationState := kStateUninitialized | kStateInvalid | kStateValid.
Record t := Make { file_path_ : bytes; initialized_ : InitializationState }.
Definition is_valid (x : t) : bool :=
  match initialized_ x with kStateValid => true | _ => false end.
Definition is_uninitialized (x : t) : bool :=
  match initialized_ x with kStateUninitialized => true | _ => false end.

(** [ScopedLockedFileHandleTraits::Free]. *)
Definition Free (handle : option nat) : Prog unit :=
  match handle with
  | Some fd => let* _ := call (sys_flock fd) in CloseFile fd
  | None => Return tt
  end.

(** [MakeScopedLockedFileHandle]; [open] is [GetHandleFromOptions]. *)
Definition MakeScopedLockedFileHandle (open : Prog (option nat)) : Prog (option nat) :=
  let* scoped := open in
  match scoped with
  | None => Return None
  | Some fd =>
      let* locked := call (sys_flock fd) in
      if (locked : bool) then Return (Some fd)
      else let* _ := CloseFile fd in Return None
  end.

Definition OpenForReading (x : t) : Prog (option nat) :=
  MakeScopedLockedFileHandle (OpenFileForRead (file_path_ x)).
Definition OpenForReadingAndWriting (x : t) (mode : FileWriteMode) : Prog (option nat) :=
  let* _ := dcheck (match mode with kTruncateOrCreate => false | _ => true end) in
  MakeScopedLockedFileHandle (OpenFileForOutput (file_path_ x) mode).

(** The tests of [ReadSettings] on the bytes it has read. *)
Definition checked_data (d : bytes) : option Data :=
  let out_data := of_bytes Data_repr d in
  if negb (magic out_data =? kSettingsMagic) then None
  else if negb (version out_data =? kSettingsVersion) then None
  else Some out_data.

Definition ReadSettings (handle : option nat) : Prog (option Data) :=
  match handle with
  | None => Return None
  | Some fd =>
      let* ok := call (sys_lseek_set fd 0) in
      if negb ok then Return None
      else
        let* r := ReadFileExactly fd (sizeof Data_repr) in
        Return (d ← r; checked_data d)
  end.

Definition WriteSettings (fd : nat) (settings : Data) : Prog bool :=
  let* ok := call (sys_lseek_set fd 0) in
  if negb ok then Return false
  else
    let* ok := call (sys_ftruncate fd) in
    if negb ok then Return false
    else LoggingWriteFile fd (to_bytes Data_repr settings).

Definition InitializeSettings (fd : nat) : Prog bool :=
  let* random := call sys_random in
  match random with
  | None => Return false
  | Some b => WriteSettings fd (set_client_id new_data (InitializeWithNew b))
  end.

(** [RecoverSettings] once there is a handle. *)
Definition recover_with (fd : nat) : Prog (option Data) :=
  let* ok := InitializeSettings fd in
  if (ok : bool) then ReadSettings (Some fd) else Return None.
Definition RecoverSettings (x : t) (handle : option nat) : Prog (option Data) :=
  match handle with
  | Some fd => recover_with fd
  | None =>
      let* scoped_handle := OpenForReadingAndWriting x kReuseOrCreate in
      let* r := ReadSettings scoped_handle in
      let* r := match r, scoped_handle with
                | Some d, _ => Return (Some d)
                | None, Some fd => recover_with fd
                | None, None => Return None
                end in
      let* _ := Free scoped_handle in
      Return r
  end.

Definition OpenAndReadSettings (x : t) : Prog (option Data) :=
  let* handle := OpenForReading x in
  match handle with
  | None => Return None
  | Some _ =>
      let* r := ReadSettings handle in
      let* _ := Free handle in
      match r with
      | Some d => Return (Some d)
      | None => RecoverSettings x None
      end
  end.

Definition OpenForWritingAndReadSettings (x : t) : Prog (option (nat * Data)) :=
  let* handle :=
    (if negb (is_valid x) then
       let* handle := OpenForReadingAndWriting x kReuseOrFail in
       match handle with
       | Some _ => Return handle
       | None => OpenForReadingAndWriting x kCreateOrFail
       end
     else Return None) in
  let* handle := match handle with
                 | Some _ => Return handle
                 | None => OpenForReadingAndWriting x kReuseOrCreate
                 end in
  match handle with
  | None => Return None
  | Some fd =>
      let* r := ReadSettings handle in
      match r with
      | Some d => Return (Some (fd, d))
      | None =>
          let* r := RecoverSettings x handle in
          match r with
          | Some d => Return (Some (fd, d))
          | None => let* _ := Free handle in Return None
          end
      end
  end.

(** ** The interface *)

Definition Initialize (x : t) (file_path : bytes) : Prog (bool * t) :=
  let* _ := dcheck (is_uninitialized x) in
  let x := Make file_path kStateInvalid in
  let* r := OpenForWritingAndReadSettings x in
  match r with
  | None => Return (false, x)
  | Some (fd, _) => let* _ := Free (Some fd) in Return (true, Make file_path kStateValid)
  end.

(** Reading one of the settings; [None] is [false]. *)
Definition get {A} (x : t) (f : Data -> A) : Prog (option A) :=
  let* _ := dcheck (is_valid x) in
  let* r := OpenAndReadSettings x in
  Return (f <$> r).
Definition GetClientID (x : t) : Prog (option UUID) := get x client_id.
Definition GetUploadsEnabled (x : t) : Prog (option bool) :=
  get x (fun d => negb (Z.land (options d) kUploadsEnabled =? 0)).
Definition GetLastUploadAttemptTime (x : t) : Prog (option Z) :=
  get x (fun d => InRangeCast int64_t (last_upload_attempt_time d) (2 ^ 63 - 1)).

(** Changing one of them. *)
Definition set (x : t) (f : Data -> Data) : Prog bool :=
  let* _ := dcheck (is_valid x) in
  let* r := OpenForWritingAndReadSettings x in
  match r with
  | None => Return false
  | Some (fd, settings) =>
      let* ok := WriteSettings fd (f settings) in
      let* _ := Free (Some fd) in
      Return ok
  end.
Definition SetUploadsEnabled (x : t) (enabled : bool) : Prog bool :=
  set x (fun d => set_options d (if enabled then Z.lor (options d) kUploadsEnabled
                                 else Z.ldiff (options d) kUploadsEnabled)).
Definition SetLastUploadAttemptTime (x : t) (time : Z) : Prog bool :=
  set x (fun d => set_last_upload_attempt_time d (InRangeCast int64_t time 0)).

(** ** What the programs do *)

(** The settings that the contents of a file stand for. *)
Definition settings_of (d : bytes) : option Data :=
  if (sizeof Data_repr <=? length d)%nat then checked_data (take (sizeof Data_repr) d) else None.
Definition settings_in (m : gmap bytes Entry) (p : bytes) : option Data :=
  match m !! p with Some (EFile d) => settings_of d | _ => None end.

Definition settings_ok (x : Data) : Prop :=
  valid Data_repr x = true /\ magic x = kSettingsMagic /\ version x = kSettingsVersion.

Lemma settings_of_to_bytes x : settings_ok x -> settings_of (to_bytes Data_repr x) = Some x.
Proof.
  intros (Hv & Hm & Hn). unfold settings_of. pose proof (length_to_bytes x Hv) as Hl. rewrite Hl.
  rewrite Nat.leb_refl, take_ge by lia. unfold checked_data. rewrite (of_bytes_exact Data_repr x Hv).
  by rewrite Hm, Hn, !Z.eqb_refl.
Qed.

Lemma settings_of_ok d x : Forall is_byte d -> settings_of d = Some x -> settings_ok x.
Proof.
  unfold settings_of. intros Hd. destruct (Nat.leb_spec (sizeof Data_repr) (length d)); [|done].
  unfold checked_data. set (y := of_bytes Data_repr _).
  destruct (Z.eqb_spec (magic y) kSettingsMagic); [|done]. cbn [negb].
  destruct (Z.eqb_spec (version y) kSettingsVersion); [|done]. cbn [negb]. intros [= <-].
  split_and!; [|done|done]. apply of_bytes_valid; [by apply Forall_take|rewrite length_take; lia].
Qed.

(** The settings of a file that had none. *)
Definition fresh_settings (x : Data) : Prop :=
  exists b, length b = 16%nat /\ Forall is_byte b /\ x = set_client_id new_data (InitializeWithNew b).

Lemma nth_byte l i : Forall is_byte l -> is_byte (nth i l 0).
Proof.
  intros Hl. destruct (nth_in_or_default i l 0) as [Hin| ->]; [|unfold is_byte; lia].
  rewrite Forall_forall in Hl. apply Hl. by apply list_elem_of_In.
Qed.

Lemma tagged_bits k x y n :
  0 <= n -> 0 <= k < 2 ^ n -> 0 <= y < 2 ^ n -> 0 <= Z.lor k (Z.land x y) < 2 ^ n.
Proof.
  assert (forall z i, 0 <= z < 2 ^ n -> n <= i -> 0 <= n -> Z.testbit z i = false) as Hhigh.
  { intros z i Hz Hi Hn. rewrite <-(Z.mod_small z (2 ^ n)) by lia. apply Z.mod_pow2_bits_high. lia. }
  intros Hn Hk Hy. apply bits_below; [done|]. intros i Hi. rewrite Z.lor_spec, Z.land_spec.
  rewrite (Hhigh k), (Hhigh y) by done. by rewrite andb_false_r.
Qed.

Lemma new_uuid_valid b :
  length b = 16%nat -> Forall is_byte b -> valid UUID_repr (InitializeWithNew b) = true.
Proof.
  intros Hl Hb. pose proof (fun i => nth_byte b i Hb) as Hi. unfold is_byte in Hi.
  assert (forall o n, (o + n <= 16)%nat -> 0 <= le_value (slice o n b) < 256 ^ Z.of_nat n) as Hs.
  { intros o n Hn. pose proof (le_value_bound (slice o n b)) as Hx.
    rewrite length_slice in Hx by lia. apply Hx. by apply Forall_take, Forall_drop. }
  change (valid UUID_repr (InitializeWithNew b)) with
    (fits 32 (le_value (slice 0 4 b)) && fits 16 (le_value (slice 4 2 b)) &&
     fits 16 (Z.lor (Z.shiftl 4 12) (Z.land (le_value (slice 6 2 b)) 4095)) &&
     (fits 8 (Z.lor 128 (Z.land (nth 8 b 0) 63)) && fits 8 (nth 9 b 0)) &&
     (fits 8 (nth 10 b 0) && fits 8 (nth 11 b 0) && fits 8 (nth 12 b 0) && fits 8 (nth 13 b 0) &&
      fits 8 (nth 14 b 0) && fits 8 (nth 15 b 0))).
  pose proof (Hs 0%nat 4%nat). pose proof (Hs 4%nat 2%nat).
  repeat match goal with |- _ && _ = true => apply andb_true_iff; split end; apply fits_spec; try apply Hi; try lia;
    apply tagged_bits; vm_compute; intuition congruence.
Qed.

Lemma fresh_settings_ok x : fresh_settings x -> settings_ok x.
Proof.
  intros (b & Hl & Hb & ->). split; [|done].
  change (valid UUID_repr (InitializeWithNew b) = true). by apply new_uuid_valid.
Qed.

Section Programs.
  Context {clk : Clock}.
  Variables (p : bytes).

(** A place for the settings file: it is there, or can be created. *)
Definition settings_place (m : gmap bytes Entry) : Prop :=
  parent_in m p /\
  match m !! p with Some EDirectory => False | Some (EFile d) => Forall is_byte d | None => True end.

Lemma wp_read_settings fd pos d (Q : option Data -> World -> Prop) m w :
  fs m w -> opened w fd p pos -> m !! p = Some (EFile d) ->
  (forall w' pos', fs m w' -> opened w' fd p pos' -> Q (settings_of d) w') ->
  wp works (ReadSettings (Some fd)) Q w.
Proof.
  intros Hfs Ho Hd HQ. cbn [ReadSettings]. apply wp_bind. eapply wp_lseek_set; [done..|].
  intros w1 Hfs1 Ho1. cbn [negb]. apply wp_bind, wp_bind. eapply wp_read; [done..|].
  cbn zeta. intros w2 Hfs2 Ho2. cbn [wp].
  replace (_ ≫= _) with (settings_of d); [by eapply HQ|]. unfold settings_of, slice. rewrite drop_0. cbn [mbind option_bind].
  rewrite length_take. destruct (Nat.leb_spec (sizeof Data_repr) (length d)).
  - by rewrite Nat.min_l, Nat.eqb_refl by done.
  - rewrite Nat.min_r by lia. destruct (Nat.eqb_spec (length d) (sizeof Data_repr)); [lia|done].
Qed.

Lemma wp_write_settings fd pos d x (Q : bool -> World -> Prop) m w :
  fs m w -> opened w fd p pos -> m !! p = Some (EFile d) ->
  (forall w' pos', fs (<[p := EFile (to_bytes Data_repr x)]> m) w' -> opened w' fd p pos' -> Q true w') ->
  wp works (WriteSettings fd x) Q w.
Proof.
  intros Hfs Ho Hd HQ. unfold WriteSettings. apply wp_bind. eapply wp_lseek_set; [done..|].
  intros w1 Hfs1 Ho1. cbn [negb]. apply wp_bind. eapply wp_ftruncate; [done..|]. intros w2 Hfs2 Ho2. cbn [negb].
  eapply wp_write; [done|done|apply lookup_insert_eq|]. intros w3 Hfs3 Ho3. rewrite insert_insert_eq in Hfs3.
  change (write_at 0 _ []) with (to_bytes Data_repr x ++ []) in Hfs3. rewrite app_nil_r in Hfs3.
  by eapply HQ.
Qed.

Lemma wp_recover_with fd pos d (Q : option Data -> World -> Prop) m w :
  fs m w -> opened w fd p pos -> m !! p = Some (EFile d) ->
  (forall x w' pos', fresh_settings x -> fs (<[p := EFile (to_bytes Data_repr x)]> m) w' ->
     opened w' fd p pos' -> Q (Some x) w') ->
  wp works (recover_with fd) Q w.
Proof.
  intros Hfs Ho Hd HQ. unfold recover_with, InitializeSettings. apply wp_bind, wp_bind, wp_random.
  intros b Hl Hb. set (x := set_client_id _ _).
  assert (fresh_settings x) as Hx by (by exists b).
  eapply wp_write_settings; [done..|]. intros w1 pos1 Hfs1 Ho1.
  eapply wp_read_settings; [done|done|apply lookup_insert_eq|]. intros w2 pos2 Hfs2 Ho2.
  rewrite settings_of_to_bytes by (by apply fresh_settings_ok). by eapply HQ.
Qed.

Lemma wp_free fd pos (Q : unit -> World -> Prop) m w :
  fs m w -> opened w fd p pos -> (forall w', fs m w' -> Q tt w') -> wp works (Free (Some fd)) Q w.
Proof.
  intros Hfs Ho HQ. cbn [Free]. apply wp_bind. eapply wp_flock; [done..|]. by eapply wp_close.
Qed.

(** Opening and locking the file. *)
Lemma wp_make_handle open (Q : option nat -> World -> Prop) w :
  wp works open (fun r w' => match r with
                             | None => Q None w'
                             | Some fd => exists m pos, fs m w' /\ opened w' fd p pos /\ Q (Some fd) w'
                             end) w ->
  wp works (MakeScopedLockedFileHandle open) Q w.
Proof.
  intros Hopen. apply wp_bind. eapply wp_mono; [exact Hopen|]. intros [fd|] w'; [|done].
  intros (m & pos & Hfs & Ho & HQ). apply wp_bind. by eapply wp_flock.
Qed.

Lemma wp_open_rw_existing st mode d (Q : option nat -> World -> Prop) m w :
  fs m w -> m !! p = Some (EFile d) -> mode = kReuseOrFail \/ mode = kReuseOrCreate ->
  (forall fd w', fs m w' -> opened w' fd p 0 -> Q (Some fd) w') ->
  wp works (OpenForReadingAndWriting (Make p st) mode) Q w.
Proof.
  intros Hfs Hd Hmode HQ. unfold OpenForReadingAndWriting.
  assert (mode <> kTruncateOrCreate /\ O_EXCL (mode_flags mode) = false /\ O_TRUNC (mode_flags mode) = false)
    as (Ht & He & Htr) by (by destruct Hmode as [-> | ->]).
  apply wp_bind. replace (dcheck _) with (Return tt) by (by destruct mode). cbn [wp].
  apply wp_make_handle. eapply wp_open_existing; [done..|]. rewrite Htr. by eauto 10.
Qed.

Lemma wp_open_rw_create st mode (Q : option nat -> World -> Prop) m w :
  fs m w -> m !! p = None -> parent_in m p -> mode = kCreateOrFail \/ mode = kReuseOrCreate ->
  (forall fd w', fs (<[p := EFile []]> m) w' -> opened w' fd p 0 -> Q (Some fd) w') ->
  wp works (OpenForReadingAndWriting (Make p st) mode) Q w.
Proof.
  intros Hfs Hp Hpar Hmode HQ. unfold OpenForReadingAndWriting.
  assert (mode <> kTruncateOrCreate /\ O_CREAT (mode_flags mode) = true) as [Ht Hc] by (by destruct Hmode as [-> | ->]).
  apply wp_bind. replace (dcheck _) with (Return tt) by (by destruct mode). cbn [wp].
  apply wp_make_handle. eapply wp_open_create; [done..|]. by eauto 10.
Qed.

(** The settings that were in the file, or new ones that are in it then. *)
Definition settled (m m' : gmap bytes Entry) (x : Data) : Prop :=
  match settings_in m p with
  | Some y => x = y /\ m' = m
  | None => fresh_settings x /\ m' = <[p := EFile (to_bytes Data_repr x)]> m
  end.

(** Reading through a handle, and initializing the file where that fails. *)
Lemma wp_read_or_recover st fd pos d (Q : option (nat * Data) -> World -> Prop) m w :
  fs m w -> opened w fd p pos -> m !! p = Some (EFile d) ->
  (forall x m' w' pos', settled m m' x -> fs m' w' -> opened w' fd p pos' -> Q (Some (fd, x)) w') ->
  wp works (let* r := ReadSettings (Some fd) in
            match r with
            | Some d => Return (Some (fd, d))
            | None =>
                let* r := RecoverSettings (Make p st) (Some fd) in
                match r with
                | Some d => Return (Some (fd, d))
                | None => let* _ := Free (Some fd) in Return None
                end
            end) Q w.
Proof.
  intros Hfs Ho Hd HQ. unfold settled, settings_in in HQ. rewrite Hd in HQ. apply wp_bind.
  eapply wp_read_settings; [done..|]. intros w1 pos1 Hfs1 Ho1. destruct (settings_of d) as [x|]; [by eapply HQ|].
  cbn [RecoverSettings]. apply wp_bind. eapply wp_recover_with; [done..|]. intros x w2 pos2 Hx Hfs2 Ho2.
  by eapply HQ.
Qed.

Lemma settled_created m m' x :
  m !! p = None -> settled (<[p := EFile []]> m) m' x -> settled m m' x.
Proof.
  intros Hp. unfold settled, settings_in. rewrite Hp, lookup_insert_eq. cbn. by rewrite insert_insert_eq.
Qed.

Lemma wp_open_for_writing st (Q : option (nat * Data) -> World -> Prop) m w :
  fs m w -> settings_place m ->
  (forall fd x m' w' pos, settled m m' x -> fs m' w' -> opened w' fd p pos -> Q (Some (fd, x)) w') ->
  wp works (OpenForWritingAndReadSettings (Make p st)) Q w.
Proof.
  intros Hfs [Hpar Hp] HQ. unfold OpenForWritingAndReadSettings. apply wp_bind.
  destruct (m !! p) as [[|d]|] eqn:E; [done|..].
  - destruct (negb _).
    + apply wp_bind. eapply wp_open_rw_existing; [done..|by left|]. intros fd w1 Hfs1 Ho1. cbn [wp prog_bind].
      eapply wp_read_or_recover; [done..|]. intros x m' w' pos' Hs. by eapply HQ.
    + cbn [wp prog_bind]. apply wp_bind. eapply wp_open_rw_existing; [done..|by right|].
      intros fd w1 Hfs1 Ho1. cbn [wp prog_bind]. eapply wp_read_or_recover; [done..|]. intros. by eapply HQ.
  - destruct (negb _).
    + apply wp_bind. unfold OpenForReadingAndWriting at 1. cbn [dcheck prog_bind].
      apply wp_make_handle. eapply wp_open_missing; [done..|].
      eapply wp_open_rw_create; [done..|by left|]. intros fd w1 Hfs1 Ho1. cbn [wp prog_bind].
      eapply wp_read_or_recover; [done|done|apply lookup_insert_eq|].
      intros x m' w' pos' Hs. by eapply HQ, settled_created.
    + cbn [wp prog_bind]. apply wp_bind. eapply wp_open_rw_create; [done..|by right|].
      intros fd w1 Hfs1 Ho1. cbn [wp prog_bind]. eapply wp_read_or_recover; [done|done|apply lookup_insert_eq|].
      intros x m' w' pos' Hs. by eapply HQ, settled_created.
Qed.

Lemma wp_open_and_read st d (Q : option Data -> World -> Prop) m w :
  fs m w -> m !! p = Some (EFile d) ->
  (forall x m' w', settled m m' x -> fs m' w' -> Q (Some x) w') ->
  wp works (OpenAndReadSettings (Make p st)) Q w.
Proof.
  intros Hfs Hd HQ. pose proof HQ as HQ'. unfold settled, settings_in in HQ'. rewrite Hd in HQ'.
  unfold OpenAndReadSettings, OpenForReading. apply wp_bind, wp_make_handle.
  eapply wp_open_existing; [done..|]. cbn [O_TRUNC]. intros fd w1 Hfs1 Ho1. exists m, 0%nat. split_and!; [done..|].
  apply wp_bind. eapply wp_read_settings; [done..|]. intros w2 pos2 Hfs2 Ho2. apply wp_bind.
  eapply wp_free; [done..|]. intros w3 Hfs3. destruct (settings_of d) as [x|] eqn:Ex; [by eapply HQ'|].
  cbn [RecoverSettings]. apply wp_bind. eapply wp_open_rw_existing; [done..|by right|].
  intros fd4 w4 Hfs4 Ho4. apply wp_bind. eapply wp_read_settings; [done..|]. intros w5 pos5 Hfs5 Ho5. rewrite Ex.
  apply wp_bind. eapply wp_recover_with; [done..|]. intros x w6 pos6 Hx Hfs6 Ho6.
  apply wp_bind. eapply wp_free; [done..|]. intros w7 Hfs7. by eapply HQ'.
Qed.

(** ** Settings as a record *)

Record settings_record := MkSettings { rec_client_id : UUID; rec_uploads_enabled : bool; rec_last_upload : Z }.
Definition record_of (x : Data) : settings_record :=
  MkSettings (client_id x) (negb (Z.land (options x) kUploadsEnabled =? 0)) (last_upload_attempt_time x).

(** The file has settings that stand for the record. *)
Definition holds (m : gmap bytes Entry) (r : settings_record) : Prop :=
  exists x, settings_in m p = Some x /\ settings_ok x /\ record_of x = r.

Lemma settled_holds m m' x :
  settings_place m -> settled m m' x ->
  settings_in m' p = Some x /\ settings_ok x /\ (forall q, q <> p -> m' !! q = m !! q).
Proof.
  intros [_ Hp] Hs. unfold settled in Hs. destruct (settings_in m p) as [y|] eqn:E.
  - destruct Hs as [-> ->]. split; [done|]. split; [|done]. unfold settings_in in E.
    destruct (m !! p) as [[|d]|]; try done. by eapply settings_of_ok.
  - destruct Hs as [Hx%fresh_settings_ok ->]. split_and!; [|done|].
    + unfold settings_in. rewrite lookup_insert_eq. by apply settings_of_to_bytes.
    + intros q Hq. by apply lookup_insert_ne.
Qed.

Lemma options_bits o b :
  fits 32 o = true ->
  let o' := if b : bool then Z.lor o kUploadsEnabled else Z.ldiff o kUploadsEnabled in
  fits 32 o' = true /\ negb (Z.land o' kUploadsEnabled =? 0) = b.
Proof.
  intros Ho%fits_spec. assert (forall i, 32 <= i -> Z.testbit o i = false) as Hhigh.
  { intros i Hi. rewrite <-(Z.mod_small o (2 ^ 32)) by lia. apply Z.mod_pow2_bits_high. lia. }
  assert (forall i, 0 < i -> Z.testbit kUploadsEnabled i = false) as H1.
  { intros i Hi. apply (Z.bits_above_log2 1 i); [done|]. change (Z.log2 1) with 0. lia. }
  destruct b; cbn zeta; (split; [apply fits_spec, bits_below; [lia|]; intros i Hi|]).
  - by rewrite Z.lor_spec, Hhigh, H1 by lia.
  - destruct (Z.eqb_spec (Z.land (Z.lor o kUploadsEnabled) kUploadsEnabled) 0) as [E|]; [|done].
    apply (f_equal (fun z => Z.testbit z 0)) in E. rewrite Z.land_spec, Z.lor_spec, orb_true_r in E. done.
  - by rewrite Z.ldiff_spec, Hhigh by lia.
  - rewrite Z.land_comm. destruct (Z.eqb_spec (Z.land kUploadsEnabled (Z.ldiff o kUploadsEnabled)) 0) as [|E]; [done|].
    destruct E. apply Z.bits_inj'. intros i Hi. rewrite Z.land_spec, Z.ldiff_spec, Z.bits_0.
    destruct (Z.testbit kUploadsEnabled i); [by rewrite andb_false_r|done].
Qed.

Lemma settings_ok_changed x o t :
  settings_ok x -> fits 32 o = true -> fits_signed 64 t = true ->
  settings_ok (MkData (magic x) (version x) o (padding_0 x) t (client_id x)).
Proof.
  intros (Hv & Hm & Hn) Ho Ht. split; [|done]. destruct x. cbn in Hv |- *.
  rewrite !andb_true_iff in Hv |- *. naive_solver.
Qed.
Lemma settings_ok_fields x :
  settings_ok x -> fits 32 (options x) = true /\ fits_signed 64 (last_upload_attempt_time x) = true.
Proof. intros (Hv & _). destruct x. cbn in Hv |- *. rewrite !andb_true_iff in Hv. naive_solver. Qed.

(** The operations, and what they do to a record. *)
Inductive operation :=
  | op_client_id
  | op_uploads_enabled
  | op_set_uploads_enabled (enabled : bool)
  | op_last_upload
  | op_set_last_upload (time : Z).
Inductive answer := a_id (r : option UUID) | a_enabled (r : option bool) | a_time (r : option Z) | a_done (r : bool).

Definition perform_operation (x : t) (op : operation) : Prog answer :=
  match op with
  | op_client_id => let* r := GetClientID x in Return (a_id r)
  | op_uploads_enabled => let* r := GetUploadsEnabled x in Return (a_enabled r)
  | op_set_uploads_enabled b => let* r := SetUploadsEnabled x b in Return (a_done r)
  | op_last_upload => let* r := GetLastUploadAttemptTime x in Return (a_time r)
  | op_set_last_upload time => let* r := SetLastUploadAttemptTime x time in Return (a_done r)
  end.
Fixpoint perform_operations (x : t) (ops : list operation) : Prog (list answer) :=
  match ops with
  | [] => Return []
  | op :: ops' => let* a := perform_operation x op in
                  let* l := perform_operations x ops' in Return (a :: l)
  end.

Definition spec_operation (r : settings_record) (op : operation) : settings_record * answer :=
  match op with
  | op_client_id => (r, a_id (Some (rec_client_id r)))
  | op_uploads_enabled => (r, a_enabled (Some (rec_uploads_enabled r)))
  | op_set_uploads_enabled b => (MkSettings (rec_client_id r) b (rec_last_upload r), a_done true)
  | op_last_upload => (r, a_time (Some (rec_last_upload r)))
  | op_set_last_upload time => (MkSettings (rec_client_id r) (rec_uploads_enabled r) time, a_done true)
  end.
Fixpoint spec_operations (r : settings_record) (ops : list operation) : settings_record * list answer :=
  match ops with
  | [] => (r, [])
  | op :: ops' => let '(r', a) := spec_operation r op in
                  let '(r'', l) := spec_operations r' ops' in (r'', a :: l)
  end.
Definition operation_ok (op : operation) : Prop :=
  match op with op_set_last_upload time => fits_signed 64 time = true | _ => True end.

Lemma holds_file m r : holds m r -> exists d, m !! p = Some (EFile d).
Proof. intros (x & E & _). unfold settings_in in E. destruct (m !! p) as [[|d]|]; naive_solver. Qed.

Lemma wp_get {A} (f : Data -> A) (Q : option A -> World -> Prop) m x w :
  fs m w -> settings_in m p = Some x ->
  (forall w', fs m w' -> Q (Some (f x)) w') -> wp works (get (Make p kStateValid) f) Q w.
Proof.
  intros Hfs Hx HQ. unfold get. cbn [dcheck is_valid initialized_ prog_bind]. apply wp_bind.
  unfold settings_in in Hx. destruct (m !! p) as [[|d]|] eqn:E; try done.
  eapply wp_open_and_read; [done..|]. intros y m' w' Hs Hfs'. unfold settled, settings_in in Hs.
  rewrite E, Hx in Hs. destruct Hs as [-> ->]. by apply HQ.
Qed.

Lemma wp_set f (Q : bool -> World -> Prop) m x w :
  fs m w -> settings_place m -> settings_in m p = Some x ->
  (forall w', fs (<[p := EFile (to_bytes Data_repr (f x))]> m) w' -> Q true w') ->
  wp works (set (Make p kStateValid) f) Q w.
Proof.
  intros Hfs Hpl Hx HQ. unfold set. cbn [dcheck is_valid initialized_ prog_bind]. apply wp_bind.
  eapply wp_open_for_writing; [done..|]. intros fd y m' w' pos Hs Hfs' Ho. unfold settled in Hs. rewrite Hx in Hs.
  destruct Hs as [-> ->]. unfold settings_in in Hx. destruct (m !! p) as [[|d]|] eqn:E; try done.
  apply wp_bind. eapply wp_write_settings; [done..|]. intros w2 pos2 Hfs2 Ho2. apply wp_bind.
  by eapply wp_free.
Qed.

Lemma place_written m x : settings_place m ->
  settings_place (<[p := EFile (to_bytes Data_repr x)]> m).
Proof.
  intros [Hpar Hp]. split; [|rewrite lookup_insert_eq].
  - unfold parent_in in *. destruct (parent_name p) as [[d f]|] eqn:E; [|done].
    apply parent_name_Some in E as [E Hf]. destruct Hpar as [|Hd]; [by left|]. right.
    rewrite lookup_insert_ne; [done|]. intros <-.
    apply (f_equal length) in E. rewrite length_app in E. simpl in E. lia.
  - cbn [to_bytes Data_repr struct pair_repr uint sint UUID_repr]. repeat apply Forall_app_2; apply le_bytes_bytes.
Qed.

(** Changing a setting succeeds whatever is in the file. *)
Lemma wp_set_any f (Q : bool -> World -> Prop) m w :
  fs m w -> settings_place m ->
  (forall m' w', fs m' w' -> settings_place m' -> (forall q, q <> p -> m' !! q = m !! q) -> Q true w') ->
  wp works (set (Make p kStateValid) f) Q w.
Proof.
  intros Hfs Hpl HQ. unfold set. cbn [dcheck is_valid initialized_ prog_bind]. apply wp_bind.
  eapply wp_open_for_writing; [done..|]. intros fd x m' w' pos Hs Hfs' Ho.
  destruct (settled_holds m m' x Hpl Hs) as (Hin & _ & Hq).
  assert (settings_place m') as Hpl'.
  { unfold settled in Hs. destruct (settings_in m p); [by destruct Hs as [_ ->]|]. destruct Hs as [_ ->]. by apply place_written. }
  unfold settings_in in Hin. destruct (m' !! p) as [[|d]|] eqn:E; try done.
  apply wp_bind. eapply wp_write_settings; [done..|]. intros w2 pos2 Hfs2 Ho2. apply wp_bind.
  eapply wp_free; [done..|]. intros w3 Hfs3. cbn [wp]. eapply HQ; [exact Hfs3|by apply place_written|].
  intros q Hne. rewrite lookup_insert_ne by done. by apply Hq.
Qed.

(** A changed setting is in the file, and nothing else has changed. *)
Lemma holds_written m x :
  settings_place m -> settings_ok x ->
  let m' := <[p := EFile (to_bytes Data_repr x)]> m in
  holds m' (record_of x) /\ settings_place m' /\ forall q, q <> p -> m' !! q = m !! q.
Proof.
  intros Hpl Hx m'. split_and!.
  - exists x. split_and!; [|done|done]. unfold settings_in, m'. rewrite lookup_insert_eq.
    by apply settings_of_to_bytes.
  - by apply place_written.
  - intros q Hq. by apply lookup_insert_ne.
Qed.

Lemma in_range_time z : fits_signed 64 z = true -> forall dflt, InRangeCast int64_t z dflt = z.
Proof.
  intros Hz dflt. unfold InRangeCast. change (in_range int64_t z) with (fits_signed 64 z).
  rewrite Hz. by apply cast_in_range.
Qed.

Lemma wp_set_time time (Q : bool -> World -> Prop) m r w :
  fs m w -> settings_place m -> holds m r -> fits_signed 64 time = true ->
  (forall m' w', fs m' w' -> settings_place m' -> holds m' (MkSettings (rec_client_id r) (rec_uploads_enabled r) time) ->
     (forall q, q <> p -> m' !! q = m !! q) -> Q true w') ->
  wp works (SetLastUploadAttemptTime (Make p kStateValid) time) Q w.
Proof.
  intros Hfs Hpl (x & Hin & Hx & Hrec) Ht HQ. pose proof (settings_ok_fields x Hx) as [Ho _].
  eapply wp_set; [done..|]. intros w' Hfs'. rewrite in_range_time in Hfs' by done.
  destruct (holds_written m (set_last_upload_attempt_time x time) Hpl) as (Hh & Hpl' & Hq);
    [by apply settings_ok_changed|].
  eapply HQ; [exact Hfs'|done| |done]. by subst r.
Qed.

Lemma wp_operation op (Q : answer -> World -> Prop) m r w :
  fs m w -> settings_place m -> holds m r -> operation_ok op ->
  (forall m' w', fs m' w' -> settings_place m' -> holds m' (spec_operation r op).1 ->
     (forall q, q <> p -> m' !! q = m !! q) -> Q (spec_operation r op).2 w') ->
  wp works (perform_operation (Make p kStateValid) op) Q w.
Proof.
  intros Hfs Hpl Hr Hop HQ. pose proof Hr as (x & Hin & Hx & Hrec).
  pose proof (settings_ok_fields x Hx) as [Ho Ht].
  destruct op; cbn [perform_operation spec_operation fst snd operation_ok] in *; apply wp_bind.
  - eapply wp_get; [done..|]. intros w' Hfs'. cbn [wp]. subst r. by eapply HQ.
  - eapply wp_get; [done..|]. intros w' Hfs'. cbn [wp]. subst r. by eapply HQ.
  - eapply wp_set; [done..|]. intros w' Hfs'. cbn [wp].
    destruct (options_bits (options x) enabled Ho) as [Ho' Eb].
    destruct (holds_written m (set_options x (if enabled then Z.lor (options x) kUploadsEnabled
      else Z.ldiff (options x) kUploadsEnabled)) Hpl) as (Hh & Hpl' & Hq); [by apply settings_ok_changed|].
    eapply HQ; [exact Hfs'|done| |done]. unfold record_of, set_options in Hh. cbn in Hh. rewrite Eb in Hh. by subst r.
  - eapply wp_get; [done..|]. intros w' Hfs'. cbn [wp]. subst r.
    rewrite in_range_time by done. by eapply HQ.
  - eapply wp_set_time; [done..|]. intros m' w' Hfs' Hpl' Hh Hq. cbn [wp]. by eapply HQ.
Qed.

(** The record that [Initialize] finds or makes. *)
Definition initial_record (m : gmap bytes Entry) (r : settings_record) : Prop :=
  match settings_in m p with
  | Some x => r = record_of x
  | None => exists b, length b = 16%nat /\ r = MkSettings (InitializeWithNew b) false 0
  end.

Lemma wp_initialize (Q : bool * t -> World -> Prop) m w :
  fs m w -> settings_place m ->
  (forall m' w' r, fs m' w' -> settings_place m' -> initial_record m r -> holds m' r ->
     (forall q, q <> p -> m' !! q = m !! q) -> Q (true, Make p kStateValid) w') ->
  wp works (Initialize (Make [] kStateUninitialized) p) Q w.
Proof.
  intros Hfs Hpl HQ. unfold Initialize. cbn [dcheck is_uninitialized initialized_ prog_bind]. apply wp_bind.
  eapply wp_open_for_writing; [done..|]. intros fd x m' w' pos Hs Hfs' Ho. apply wp_bind.
  eapply wp_free; [done..|]. intros w'' Hfs''. cbn [wp].
  destruct (settled_holds m m' x Hpl Hs) as (Hin & Hx & Hq).
  eapply (HQ m' w'' (record_of x)); [done| | |by exists x|done].
  - unfold settled in Hs. destruct (settings_in m p); [by destruct Hs as [_ ->]|]. destruct Hs as [_ ->].
    by apply place_written.
  - unfold settled in Hs. unfold initial_record. destruct (settings_in m p); [by destruct Hs as [-> _]|].
    destruct Hs as [(b & Hl & _ & ->) _]. by exists b.
Qed.

Lemma wp_operations ops (Q : list answer -> World -> Prop) m r w :
  fs m w -> settings_place m -> holds m r -> Forall operation_ok ops ->
  (forall m' w', fs m' w' -> holds m' (spec_operations r ops).1 ->
     (forall q, q <> p -> m' !! q = m !! q) -> Q (spec_operations r ops).2 w') ->
  wp works (perform_operations (Make p kStateValid) ops) Q w.
Proof.
  intros Hfs Hpl Hr Hops. revert Q m r w Hfs Hpl Hr. induction Hops as [|op ops Hop _ IH]; intros Q m r w Hfs Hpl Hr HQ.
  - by eapply HQ.
  - cbn [perform_operations]. apply wp_bind. eapply wp_operation; [done..|]. intros m1 w1 Hfs1 Hpl1 Hr1 Hq1.
    apply wp_bind. eapply IH; [done..|]. intros m2 w2 Hfs2 Hr2 Hq2. cbn [wp].
    cbn [spec_operations] in HQ. destruct (spec_operation r op) as [r1 a]. cbn [fst snd] in *.
    destruct (spec_operations r1 ops) as [r2 l]. cbn [fst snd] in *.
    eapply HQ; [done..|]. intros q Hq. by rewrite Hq2, Hq1.
Qed.

End Programs.

(** C14. Whatever is in the settings file, or if there is none, [Initialize] succeeds;
    any sequence of [GetClientID], [GetUploadsEnabled], [SetUploadsEnabled],
    [GetLastUploadAttemptTime] and [SetLastUploadAttemptTime] after it then answers as
    a record with these three fields does: the one in the file if its header is right,
    and otherwise one with a new client ID, uploads disabled, and no upload attempted.
    In the end the file holds the record, and no other file has changed. *)
Theorem settings_refine_record p ops os m w :
  fs m w -> settings_place p m -> Forall operation_ok ops -> (forall i, works (os i)) ->
  exists l w' j,
    run (let* r := Initialize (Make [] kStateUninitialized) p in
         let* l := perform_operations r.2 ops in Return (r.1, l)) os 0 w = Some (true, l, w', j) /\
    exists r m', initial_record p m r /\ l = (spec_operations r ops).2 /\
      fs m' w' /\ holds p m' (spec_operations r ops).1 /\ forall q, q <> p -> m' !! q = m !! q.
Proof.
  intros Hfs Hpl Hops Hos. match goal with |- context [run ?prog _ _ _] => set (q := prog) end.
  assert (wp works q (fun a w' => a.1 = true /\ exists r m', initial_record p m r /\
    a.2 = (spec_operations r ops).2 /\ fs m' w' /\ holds p m' (spec_operations r ops).1 /\
    forall q, q <> p -> m' !! q = m !! q) w) as Hwp.
  { apply wp_bind. eapply wp_initialize; [done..|]. intros m1 w1 r Hfs1 Hpl1 Hr Hh Hq1. apply wp_bind.
    cbn [fst snd]. eapply wp_operations; [done..|]. intros m2 w2 Hfs2 Hh2 Hq2. cbn [wp fst snd]. split; [done|].
    exists r, m2. split_and!; [done..|]. intros q' Hq'. by rewrite Hq2, Hq1. }
  destruct (wp_run works q _ w os 0 Hwp Hos) as ([b l] & w' & j & -> & E & Hl). cbn in E. subst b. eauto.
Qed.

Definition example_path : bytes := str "db/settings.dat".
Definition example_operations : list operation :=
  [op_uploads_enabled; op_set_uploads_enabled true; op_set_last_upload 77; op_uploads_enabled; op_last_upload].

Lemma settings_refine_record_witness :
  let w := build_world [str "db"] [(example_path, str "junk")] in
  exists l w' j,
    run (let* r := Initialize (Make [] kStateUninitialized) example_path in
         let* l := perform_operations r.2 example_operations in Return (r.1, l)) (steady 5) 0 w =
      Some (true, l, w', j) /\
    l = [a_enabled (Some false); a_done true; a_done true; a_enabled (Some true); a_time (Some 77)].
Proof.
  intros w. destruct (settings_refine_record example_path example_operations (steady 5) (view w) w)
    as (l & w' & j & E & r & m' & Hr & Hl & _).
  - split; [|done]. by apply check_world_ok.
  - split; [right; vm_compute; reflexivity|]. vm_compute. repeat constructor; congruence.
  - repeat constructor.
  - apply steady_works. lia.
  - exists l, w', j. split; [exact E|]. assert (settings_in (view w) example_path = None) as En by (vm_compute; reflexivity).
    unfold initial_record in Hr. rewrite En in Hr. destruct Hr as (b & _ & ->). rewrite Hl. reflexivity.
Defined.

End Settings.
