(* ===== verification/CrashReportDatabase.v ===== *)
(** * The crash report database (client/crash_report_database.cc,
      client/crash_report_database_generic.cc)

    A database is a directory.  A report is in one of the directories [new], [pending]
    and [completed] as [UUID.dmp]; in the last two a file [UUID.meta] is next to it, and
    a file [UUID.lock] while an operation uses it.  The operations are programs on the
    file system of FileSystem.v, call by call; an object with a destructor
    ([ScopedLockFile], [ScopedRemoveFile], a file handle, [UploadReport]) is destroyed
    where its scope ends.  Metrics and log messages are left out. *)

From S2P Require Import Prelude.
From S2P Require Import Structs.
From S2P Require Import Uuid.
From S2P Require Import FileSystem.
From S2P Require Import Settings.
#[local] Open Scope crashpad_scope.

(** ** Data *)

Inductive OperationStatus :=
  | kNoError | kReportNotFound | kFileSystemError | kDatabaseError | kBusyError | kCannotRequestUpload.
#[export] Instance OperationStatus_eq_dec : EqDecision OperationStatus.
Proof. solve_decision. Defined.

Inductive ReportState := kUninitialized | kNew | kPending | kCompleted | kSearchable.
#[export] Instance ReportState_eq_dec : EqDecision ReportState.
Proof. solve_decision. Defined.

(** [CrashReportDatabase::Report]. *)
Record Report := MkReport {
  uuid : UUID;
  file_path : bytes;
  id : bytes;
  creation_time : Z;
  uploaded : bool;
  last_upload_attempt_time : Z;
  upload_attempts : Z;
  upload_explicitly_requested : bool;
  total_size : Z
}.
Definition new_report : Report := MkReport InitializeToZero [] [] 0 false 0 0 false 0.

Definition kSettings : bytes := str "settings.dat".
Definition kCrashReportExtension : bytes := str ".dmp".
Definition kMetadataExtension : bytes := str ".meta".
Definition kLockExtension : bytes := str ".lock".
Definition kNewDirectory : bytes := str "new".
Definition kPendingDirectory : bytes := str "pending".
Definition kCompletedDirectory : bytes := str "completed".
Definition kAttachmentsDirectory : bytes := str "attachments".

(** [kReportDirectories[state]]. *)
Definition kReportDirectories (state : ReportState) : option bytes :=
  match state with
  | kNew => Some kNewDirectory
  | kPending => Some kPendingDirectory
  | kCompleted => Some kCompletedDirectory
  | _ => None
  end.

Definition kAttributeUploaded : Z := 1.
Definition kAttributeUploadExplicitlyRequested : Z := 2.

(** [ReportMetadata]. *)
Module ReportMetadata.
Record t := Make {
  version : Z;
  upload_attempts : Z;
  last_upload_attempt_time : Z;
  creation_time : Z;
  attributes : Z
}.
Definition kVersion : Z := 1.
Definition repr : Repr t :=
  struct (sint 4 ⊗ sint 4 ⊗ sint 8 ⊗ sint 8 ⊗ padded (uint 1) 7)
    (fun x => (version x, upload_attempts x, last_upload_attempt_time x, creation_time x, attributes x))
    (fun '(a, b, c, d, e) => Make a b c d e).
#[global] Instance repr_laws : ReprLaws repr.
Proof. struct_laws. Qed.
End ReportMetadata.

(** A database object; [settings_init_] says that [SettingsInternal] has been called. *)
Record Database := MkDatabase {
  base_dir_ : bytes;
  settings_ : Settings.t;
  settings_init_ : bool
}.

(** A [ScopedLockFile]: the path of the lock file, if it is held. *)
Abbreviation ScopedLockFile := (option bytes) (only parsing).

(** [NewReport]; an attachment is its writer and the path its remover has. *)
Record NewReport := MkNewReport {
  new_uuid : UUID;
  writer_ : nat;
  file_remover_ : bytes;
  new_attachments : list (nat * bytes)
}.

(** [LockfileUploadReport]: the fields of its base [Report], the reader, the readers of
    the attachments, whether [database_] is set, and the lock. *)
Record UploadReport := MkUploadReport {
  up_report : Report;
  reader_ : option nat;
  attachment_readers_ : list (bytes * nat);
  database_ : bool;
  lock_file : ScopedLockFile
}.

Section Database.
  Context `{FilePath}.

(** ** Paths *)

Definition ReplaceFinalExtension (path extension : bytes) : bytes :=
  RemoveFinalExtension path ++ extension.

Definition UUIDFromReportPath (path : bytes) : UUID :=
  default InitializeToZero (InitializeFromString (BaseName (RemoveFinalExtension path))).

Definition ReportPath (db : Database) (u : UUID) (state : ReportState) : Prog bytes :=
  match kReportDirectories state with
  | Some dir => Return (Append (Append (base_dir_ db) dir) (ToString u ++ kCrashReportExtension))
  | None => Stop
  end.

Definition AttachmentsRootPath (db : Database) : bytes := Append (base_dir_ db) kAttachmentsDirectory.
Definition AttachmentsPath (db : Database) (u : UUID) : bytes :=
  Append (AttachmentsRootPath db) (ToString u).

Definition RemoveAttachmentsByUUID (db : Database) (u : UUID) : Prog unit :=
  let report_attachment_dir := AttachmentsPath db u in
  let* d := IsDirectory report_attachment_dir in
  if negb d then Return tt
  else
    let* r := ReadDirectory report_attachment_dir in
    match r with
    | None => Return tt
    | Some files =>
        let* _ := foldM (fun _ filename =>
                    let* _ := LoggingRemoveFile (Append report_attachment_dir filename) in
                    Return tt) files tt in
        let* _ := LoggingRemoveDirectory report_attachment_dir in
        Return tt
    end.

(** ** Locks *)

(** [ScopedLockFile::ResetAcquire] of a lock that is not held: whether it succeeded,
    and the lock then. *)
Definition ResetAcquire (report_path : bytes) : Prog (bool * ScopedLockFile) :=
  let lock_path := RemoveFinalExtension report_path ++ kLockExtension in
  let* lock_fd := OpenFileForOutput lock_path kCreateOrFail in
  match lock_fd with
  | None => Return (false, None)
  | Some fd =>
      let* timestamp := call sys_time in
      let* ok := LoggingWriteFile fd (to_bytes (sint 8) timestamp) in
      let* _ := CloseFile fd in
      Return (ok, Some lock_path)
  end.

(** The destructor. *)
Definition ReleaseLock (lock : ScopedLockFile) : Prog unit :=
  match lock with
  | Some path => let* _ := LoggingRemoveFile path in Return tt
  | None => Return tt
  end.

Definition IsExpired (lock_path : bytes) (lockfile_ttl : Z) : Prog bool :=
  let* now := call sys_time in
  let* filetime := FileModificationTime lock_path in
  if match filetime with Some t => now + lockfile_ttl <? t | None => false end then Return false
  else
    let* lock_fd := OpenFileForOutput lock_path kReuseOrFail in
    match lock_fd with
    | None => Return false
    | Some fd =>
        let* r := ReadFileExactly fd 8 in
        let* _ := CloseFile fd in
        match r with
        | None => Return false
        | Some d => Return (of_bytes (sint 8) d + lockfile_ttl <=? now)
        end
    end.

(** ** Metadata *)

Definition WriteNewMetadata (path : bytes) : Prog bool :=
  let metadata_path := ReplaceFinalExtension path kMetadataExtension in
  let* handle := OpenFileForOutput metadata_path kCreateOrFail in
  match handle with
  | None => Return false
  | Some fd =>
      let* now := call sys_time in
      let metadata := ReportMetadata.Make ReportMetadata.kVersion 0 0 now 0 in
      let* ok := LoggingWriteFile fd (to_bytes ReportMetadata.repr metadata) in
      let* _ := CloseFile fd in
      Return ok
  end.

Definition metadata_of (report : Report) : ReportMetadata.t :=
  ReportMetadata.Make ReportMetadata.kVersion (upload_attempts report) (last_upload_attempt_time report)
    (creation_time report)
    (Z.lor (if uploaded report then kAttributeUploaded else 0)
           (if upload_explicitly_requested report then kAttributeUploadExplicitlyRequested else 0)).

Definition WriteMetadata (path : bytes) (report : Report) : Prog bool :=
  let metadata_path := ReplaceFinalExtension path kMetadataExtension in
  let* handle := OpenFileForOutput metadata_path kTruncateOrCreate in
  match handle with
  | None => Return false
  | Some fd =>
      let* ok := LoggingWriteFile fd (to_bytes ReportMetadata.repr (metadata_of report)) in
      let* ok := (if (ok : bool) then LoggingWriteFile fd (id report) else Return false) in
      let* _ := CloseFile fd in
      Return ok
  end.

Definition ReadMetadata (db : Database) (path : bytes) : Prog (option Report) :=
  let metadata_path := ReplaceFinalExtension path kMetadataExtension in
  let* handle := OpenFileForRead metadata_path in
  match handle with
  | None => Return None
  | Some fd =>
      let* r :=
        match InitializeFromString (RemoveFinalExtension (BaseName path)) with
        | None => Return None
        | Some u =>
            let* d := ReadFileExactly fd (sizeof ReportMetadata.repr) in
            match d with
            | None => Return None
            | Some d =>
                let metadata := of_bytes ReportMetadata.repr d in
                if negb (ReportMetadata.version metadata =? ReportMetadata.kVersion) then Return None
                else
                  let* id := LoggingReadToEOF fd in
                  match id with
                  | None => Return None
                  | Some id =>
                      let* size := GetFileSize path in
                      let* attachments_size := GetDirectorySize (AttachmentsPath db u) in
                      Return (Some (MkReport u path id (ReportMetadata.creation_time metadata)
                        (negb (Z.land (ReportMetadata.attributes metadata) kAttributeUploaded =? 0))
                        (ReportMetadata.last_upload_attempt_time metadata)
                        (ReportMetadata.upload_attempts metadata)
                        (negb (Z.land (ReportMetadata.attributes metadata)
                                 kAttributeUploadExplicitlyRequested =? 0))
                        (u64 (size + attachments_size))))
                  end
            end
        end in
      let* _ := CloseFile fd in
      Return r
  end.

(** [CleaningReadMetadata]; [report] is the object the metadata is read to. *)
Definition CleaningReadMetadata (db : Database) (path : bytes) (report : Report) : Prog (option Report) :=
  let* r := ReadMetadata db path in
  match r with
  | Some report => Return (Some report)
  | None =>
      let* _ := LoggingRemoveFile path in
      let* _ := LoggingRemoveFile (ReplaceFinalExtension path kMetadataExtension) in
      let* _ := RemoveAttachmentsByUUID db (uuid report) in
      Return None
  end.

(** ** Finding reports *)

(** The loop of [LocateAndLockReport]: the path and the lock, or why there is none. *)
Fixpoint locate_in (db : Database) (u : UUID) (searchable_states : list ReportState)
    : Prog (OperationStatus + bytes * ScopedLockFile) :=
  match searchable_states with
  | [] => Return (inl kReportNotFound)
  | state :: rest =>
      let* local_path := ReportPath db u state in
      let* '(ok, local_lock) := ResetAcquire local_path in
      if negb ok then let* _ := ReleaseLock local_lock in Return (inl kBusyError)
      else
        let* b := IsRegularFile local_path in
        if negb b then let* _ := ReleaseLock local_lock in locate_in db u rest
        else Return (inr (local_path, local_lock))
  end.
Definition LocateAndLockReport (db : Database) (u : UUID) (desired_state : ReportState)
    : Prog (OperationStatus + bytes * ScopedLockFile) :=
  match desired_state with
  | kSearchable => locate_in db u [kPending; kCompleted]
  | _ =>
      let* _ := dcheck (bool_decide (desired_state = kPending \/ desired_state = kCompleted)) in
      locate_in db u [desired_state]
  end.

Definition CheckoutReport (db : Database) (u : UUID) (state : ReportState) (report : Report)
    : Prog (OperationStatus + bytes * ScopedLockFile * Report) :=
  let* r := LocateAndLockReport db u state in
  match r with
  | inl os => Return (inl os)
  | inr (local_path, local_lock) =>
      let* r := CleaningReadMetadata db local_path report in
      match r with
      | None => let* _ := ReleaseLock local_lock in Return (inl kDatabaseError)
      | Some report => Return (inr (local_path, local_lock, report))
      end
  end.

(** ** Opening a database *)

Fixpoint create_directories (base_dir : bytes) (subdirs : list bytes) : Prog bool :=
  match subdirs with
  | [] => Return true
  | subdir :: rest =>
      let* ok := LoggingCreateDirectory (Append base_dir subdir) true in
      if negb ok then Return false else create_directories base_dir rest
  end.

Definition Initialize (path : bytes) (may_create : bool) : Prog (option Database) :=
  let db := MkDatabase path (Settings.Make [] Settings.kStateUninitialized) false in
  let* d := IsDirectory path in
  let* ok := (if negb d then
                if may_create then LoggingCreateDirectory path true else Return false
              else Return true) in
  if negb ok then Return None
  else
    let* ok := create_directories path [kNewDirectory; kPendingDirectory; kCompletedDirectory] in
    if negb ok then Return None
    else
      let* ok := LoggingCreateDirectory (AttachmentsRootPath db) true in
      if negb ok then Return None else Return (Some db).

(** [SettingsInternal], which initializes the settings the first time. *)
Definition SettingsInternal (db : Database) : Prog Database :=
  if settings_init_ db then Return db
  else
    let* r := Settings.Initialize (settings_ db) (Append (base_dir_ db) kSettings) in
    Return (MkDatabase (base_dir_ db) r.2 true).

(** ** New reports *)

Definition PrepareNewCrashReport (db : Database) : Prog (OperationStatus + NewReport) :=
  let* random := call sys_random in
  match random with
  | None => Return (inl kFileSystemError)
  | Some b =>
      let u := InitializeWithNew b in
      let path := Append (Append (base_dir_ db) kNewDirectory) (ToString u ++ kCrashReportExtension) in
      let* fd := OpenFileForOutput path kCreateOrFail in
      match fd with
      | None => Return (inl kFileSystemError)
      | Some fd => Return (inr (MkNewReport u fd path []))
      end
  end.

Definition AttachmentNameIsOK (name : bytes) : bool :=
  forallb (fun c => (c =? 95) || (c =? 45) || (c =? 46) ||
    ((48 <=? c) && (c <=? 57)) || ((65 <=? c) && (c <=? 90)) || ((97 <=? c) && (c <=? 122))) name.

Definition AddAttachment (db : Database) (report : NewReport) (name : bytes) : Prog (option nat * NewReport) :=
  if negb (AttachmentNameIsOK name) then Return (None, report)
  else
    let report_attachments_dir := AttachmentsPath db (new_uuid report) in
    let* ok := LoggingCreateDirectory report_attachments_dir true in
    if negb ok then Return (None, report)
    else
      let attachment_path := Append report_attachments_dir name in
      let* fd := OpenFileForOutput attachment_path kCreateOrFail in
      match fd with
      | None => Return (None, report)
      | Some fd =>
          Return (Some fd, MkNewReport (new_uuid report) (writer_ report) (file_remover_ report)
                             (new_attachments report ++ [(fd, attachment_path)]))
      end.

(** The destructor of a [NewReport] whose removers are armed. *)
Definition DestroyNewReport (report : NewReport) : Prog unit :=
  let* _ := foldM (fun _ a => let* _ := LoggingRemoveFile a.2 in Return tt) (new_attachments report) tt in
  let* _ := foldM (fun _ a => CloseFile a.1) (new_attachments report) tt in
  let* _ := LoggingRemoveFile (file_remover_ report) in
  CloseFile (writer_ report).

Definition FinishedWritingCrashReport (db : Database) (report : NewReport) : Prog (OperationStatus + UUID) :=
  let* path := ReportPath db (new_uuid report) kPending in
  let* '(ok, lock) := ResetAcquire path in
  if negb ok then
    let* _ := ReleaseLock lock in
    let* _ := DestroyNewReport report in
    Return (inl kBusyError)
  else
    let* ok := WriteNewMetadata (ReplaceFinalExtension path kMetadataExtension) in
    if negb ok then
      let* _ := ReleaseLock lock in
      let* _ := DestroyNewReport report in
      Return (inl kDatabaseError)
    else
      let* _ := call (sys_lseek_end (writer_ report)) in
      let* _ := CloseFile (writer_ report) in
      let* ok := MoveFileOrDirectory (file_remover_ report) path in
      if negb ok then
        let* _ := ReleaseLock lock in
        let* _ := DestroyNewReport report in
        Return (inl kFileSystemError)
      else
        let* _ := foldM (fun _ a => CloseFile a.1) (new_attachments report) tt in
        let* _ := ReleaseLock lock in
        Return (inr (new_uuid report)).

(** ** Looking up reports *)

Definition LookUpCrashReport (db : Database) (u : UUID) (report : Report) : Prog (OperationStatus + Report) :=
  let* r := CheckoutReport db u kSearchable report in
  match r with
  | inl os => Return (inl os)
  | inr (_, lock, report) => let* _ := ReleaseLock lock in Return (inr report)
  end.

(** One file name of the loop of [ReportsInState]. *)
Definition report_in_directory (db : Database) (dir_path : bytes) (reports : list Report) (filename : bytes)
    : Prog (list Report) :=
  if negb (bool_decide (FinalExtension filename = kCrashReportExtension)) then Return reports
  else
    let filepath := Append dir_path filename in
    let* '(ok, lock) := ResetAcquire filepath in
    if negb ok then let* _ := ReleaseLock lock in Return reports
    else
      let* r := CleaningReadMetadata db filepath new_report in
      let* _ := ReleaseLock lock in
      match r with
      | None => Return reports
      | Some report =>
          Return (reports ++ [MkReport (uuid report) filepath (id report) (creation_time report)
            (uploaded report) (last_upload_attempt_time report) (upload_attempts report)
            (upload_explicitly_requested report) (total_size report)])
      end.

Definition ReportsInState (db : Database) (state : ReportState) : Prog (OperationStatus + list Report) :=
  let* _ := dcheck (bool_decide (state <> kNew)) in
  match kReportDirectories state with
  | None => Stop
  | Some dir =>
      let dir_path := Append (base_dir_ db) dir in
      let* r := ReadDirectory dir_path in
      match r with
      | None => Return (inl kDatabaseError)
      | Some files =>
          let* reports := foldM (report_in_directory db dir_path) files [] in
          Return (inr reports)
      end
  end.
Definition GetPendingReports (db : Database) : Prog (OperationStatus + list Report) := ReportsInState db kPending.
Definition GetCompletedReports (db : Database) : Prog (OperationStatus + list Report) :=
  ReportsInState db kCompleted.

(** ** Uploads *)

(** [RecordUploadAttempt]: the status, and the report and the database after it. *)
Definition RecordUploadAttempt (db : Database) (upload : UploadReport) (successful : bool) (new_id : bytes)
    : Prog (OperationStatus * UploadReport * Database) :=
  let* now := call sys_time in
  let r := up_report upload in
  let report := MkReport (uuid r) (file_path r) new_id (creation_time r) successful now
    (upload_attempts r + 1) (if successful then false else upload_explicitly_requested r) (total_size r) in
  let with_reader reader :=
    MkUploadReport report reader (attachment_readers_ upload) (database_ upload) (lock_file upload) in
  let finish report_path upload lock :=
    let* ok := WriteMetadata report_path report in
    if negb ok then let* _ := ReleaseLock lock in Return (kDatabaseError, upload, db)
    else
      let* db := SettingsInternal db in
      let* ok := Settings.SetLastUploadAttemptTime (settings_ db) now in
      let* _ := ReleaseLock lock in
      Return (if (ok : bool) then kNoError else kDatabaseError, upload, db) in
  if successful then
    let* completed_report_path := ReportPath db (uuid r) kCompleted in
    let* '(ok, lock) := ResetAcquire completed_report_path in
    if negb ok then let* _ := ReleaseLock lock in Return (kBusyError, with_reader (reader_ upload), db)
    else
      let* _ := match reader_ upload with Some fd => CloseFile fd | None => Return tt end in
      let* ok := MoveFileOrDirectory (file_path r) completed_report_path in
      if negb ok then let* _ := ReleaseLock lock in Return (kFileSystemError, with_reader None, db)
      else
        let* _ := LoggingRemoveFile (ReplaceFinalExtension (file_path r) kMetadataExtension) in
        finish completed_report_path (with_reader None) lock
  else finish (file_path r) (with_reader (reader_ upload)) None.

Definition close_readers (upload : UploadReport) : Prog unit :=
  let* _ := foldM (fun _ a => CloseFile a.2) (attachment_readers_ upload) tt in
  match reader_ upload with Some fd => CloseFile fd | None => Return tt end.

(** The destructor of a [LockfileUploadReport]: its member [lock_file] is destroyed
    before the destructor of its base class [UploadReport] runs. *)
Definition DestroyUploadReport (db : Database) (upload : UploadReport) : Prog Database :=
  let* _ := ReleaseLock (lock_file upload) in
  let* db := (if database_ upload
              then let* r := RecordUploadAttempt db upload false [] in Return r.2
              else Return db) in
  let* _ := close_readers upload in
  Return db.

(** [UploadReport::InitializeAttachments]. *)
Definition InitializeAttachments (db : Database) (u : UUID) : Prog (list (bytes * nat)) :=
  let report_attachments_dir := AttachmentsPath db u in
  let* r := ReadDirectory report_attachments_dir in
  match r with
  | None => Return []
  | Some files =>
      foldM (fun readers filename =>
        let* fd := OpenFileForRead (Append report_attachments_dir filename) in
        match fd with
        | None => Return readers
        | Some fd => Return (readers ++ [(filename, fd)])
        end) files []
  end.

Definition GetReportForUploading (db : Database) (u : UUID)
    : Prog ((OperationStatus + UploadReport) * Database) :=
  let* r := CheckoutReport db u kPending new_report in
  match r with
  | inl os => Return (inl os, db)
  | inr (path, lock, report) =>
      let* attachments := InitializeAttachments db (uuid report) in
      let* reader := OpenFileForRead path in
      let upload := MkUploadReport report reader attachments true lock in
      match reader with
      | None => let* db := DestroyUploadReport db upload in Return (inl kFileSystemError, db)
      | Some _ => Return (inr upload, db)
      end
  end.

Definition RecordUploadComplete (db : Database) (upload : UploadReport) (new_id : bytes)
    : Prog (OperationStatus * Database) :=
  let upload := MkUploadReport (up_report upload) (reader_ upload) (attachment_readers_ upload) false
                  (lock_file upload) in
  let* '(os, upload, db) := RecordUploadAttempt db upload true new_id in
  let* db := DestroyUploadReport db upload in
  Return (os, db).

(** ** Changing the state of reports *)

Definition with_requested (r : Report) (b : bool) : Report :=
  MkReport (uuid r) (file_path r) (id r) (creation_time r) (uploaded r) (last_upload_attempt_time r)
    (upload_attempts r) b (total_size r).

Definition SkipReportUpload (db : Database) (u : UUID) : Prog OperationStatus :=
  let* r := CheckoutReport db u kPending new_report in
  match r with
  | inl os => Return os
  | inr (path, lock, report) =>
      let* completed_path := ReportPath db u kCompleted in
      let* '(ok, completed_lock) := ResetAcquire completed_path in
      let* os :=
        (if negb ok then Return kBusyError
         else
           let* ok := WriteMetadata completed_path (with_requested report false) in
           if negb ok then Return kDatabaseError
           else
             let* ok := MoveFileOrDirectory path completed_path in
             if negb ok then Return kFileSystemError
             else
               let* ok := LoggingRemoveFile (ReplaceFinalExtension path kMetadataExtension) in
               Return (if (ok : bool) then kNoError else kDatabaseError)) in
      let* _ := ReleaseLock completed_lock in
      let* _ := ReleaseLock lock in
      Return os
  end.

Definition DeleteReport (db : Database) (u : UUID) : Prog OperationStatus :=
  let* r := LocateAndLockReport db u kSearchable in
  match r with
  | inl os => Return os
  | inr (path, lock) =>
      let* os :=
        (let* ok := LoggingRemoveFile path in
         if negb ok then Return kFileSystemError
         else
           let* ok := LoggingRemoveFile (ReplaceFinalExtension path kMetadataExtension) in
           if negb ok then Return kDatabaseError
           else let* _ := RemoveAttachmentsByUUID db u in Return kNoError) in
      let* _ := ReleaseLock lock in
      Return os
  end.

Definition RequestUpload (db : Database) (u : UUID) : Prog OperationStatus :=
  let* r := CheckoutReport db u kSearchable new_report in
  match r with
  | inl os => Return os
  | inr (path, lock, report) =>
      let* os :=
        (if uploaded report then Return kCannotRequestUpload
         else
           let* pending_path := ReportPath db u kPending in
           let* ok := MoveFileOrDirectory path pending_path in
           if negb ok then Return kFileSystemError
           else
             let* ok := WriteMetadata pending_path (with_requested report true) in
             if negb ok then Return kDatabaseError
             else if bool_decide (pending_path <> path) then
               let* ok := LoggingRemoveFile (ReplaceFinalExtension path kMetadataExtension) in
               Return (if (ok : bool) then kNoError else kDatabaseError)
             else Return kNoError) in
      let* _ := ReleaseLock lock in
      Return os
  end.

(** ** Cleaning *)

Definition remove_old_file (directory : bytes) (limit : Z) (removed : Z) (filename : bytes) : Prog Z :=
  let filepath := Append directory filename in
  let* filetime := FileModificationTime filepath in
  match filetime with
  | None => Return removed
  | Some t =>
      if t <=? limit then
        let* ok := LoggingRemoveFile filepath in
        Return (if (ok : bool) then removed + 1 else removed)
      else Return removed
  end.

(** A report or a metadata file [filepath] is removed if [other] is not there. *)
Definition remove_lone_file (db : Database) (filepath report_path other : bytes) (removed : Z) : Prog Z :=
  let* '(ok, report_lock) := ResetAcquire report_path in
  let* removed' :=
    (if negb ok then Return removed
     else
       let* b := IsRegularFile other in
       if (b : bool) then Return removed
       else
         let* ok := LoggingRemoveFile filepath in
         if negb ok then Return removed
         else
           let* _ := RemoveAttachmentsByUUID db (UUIDFromReportPath filepath) in
           Return (removed + 1)) in
  let* _ := ReleaseLock report_lock in
  Return removed'.

(** Whether a file is not there, or could be removed. *)
Definition remove_if_there (path : bytes) : Prog bool :=
  let* b := IsRegularFile path in
  if (b : bool) then LoggingRemoveFile path else Return true.

Definition remove_expired_lock (db : Database) (filepath : bytes) (lockfile_ttl removed : Z) : Prog Z :=
  let* expired := IsExpired filepath lockfile_ttl in
  if negb expired then Return removed
  else
    let no_ext := RemoveFinalExtension filepath in
    let* ok := remove_if_there (no_ext ++ kCrashReportExtension) in
    let* ok := (if (ok : bool) then remove_if_there (no_ext ++ kMetadataExtension) else Return false) in
    if negb ok then Return removed
    else
      let* ok := LoggingRemoveFile filepath in
      if negb ok then Return removed
      else
        let* _ := RemoveAttachmentsByUUID db (UUIDFromReportPath filepath) in
        Return (removed + 1).

(** One file name of the loop of [CleanReportsInState]. *)
Definition clean_file (db : Database) (dir_path : bytes) (lockfile_ttl removed : Z) (filename : bytes) : Prog Z :=
  let extension := FinalExtension filename in
  let filepath := Append dir_path filename in
  if bool_decide (extension = kCrashReportExtension) then
    remove_lone_file db filepath filepath (ReplaceFinalExtension filepath kMetadataExtension) removed
  else if bool_decide (extension = kMetadataExtension) then
    let report_path := ReplaceFinalExtension filepath kCrashReportExtension in
    remove_lone_file db filepath report_path report_path removed
  else if bool_decide (extension = kLockExtension) then remove_expired_lock db filepath lockfile_ttl removed
  else Return removed.

Definition CleanReportsInState (db : Database) (state : ReportState) (lockfile_ttl : Z) : Prog Z :=
  match kReportDirectories state with
  | None => Stop
  | Some dir =>
      let dir_path := Append (base_dir_ db) dir in
      let* r := ReadDirectory dir_path in
      match r with
      | None => Return 0
      | Some files => foldM (clean_file db dir_path lockfile_ttl) files 0
      end
  end.

Definition clean_attachments (db : Database) (filename : bytes) : Prog unit :=
  let* d := IsDirectory (Append (AttachmentsRootPath db) filename) in
  if negb d then Return tt
  else
    match InitializeFromString filename with
    | None => Return tt
    | Some u =>
        let new_dir_path :=
          Append (Append (base_dir_ db) kNewDirectory) (ToString u ++ kCrashReportExtension) in
        let* b := IsRegularFile new_dir_path in
        if (b : bool) then Return tt
        else
          let* r := LocateAndLockReport db u kSearchable in
          match r with
          | inl kReportNotFound => RemoveAttachmentsByUUID db u
          | inl _ => Return tt
          | inr (_, lock) => ReleaseLock lock
          end
    end.

Definition CleanOrphanedAttachments (db : Database) : Prog unit :=
  let* r := ReadDirectory (AttachmentsRootPath db) in
  match r with
  | None => Return tt
  | Some files => foldM (fun _ filename => clean_attachments db filename) files tt
  end.

Definition CleanDatabase (db : Database) (lockfile_ttl : Z) : Prog Z :=
  let* now := call sys_time in
  let new_dir := Append (base_dir_ db) kNewDirectory in
  let* r := ReadDirectory new_dir in
  let* removed := match r with
                  | None => Return 0
                  | Some files => foldM (remove_old_file new_dir (now - lockfile_ttl)) files 0
                  end in
  let* n := CleanReportsInState db kPending lockfile_ttl in
  let* k := CleanReportsInState db kCompleted lockfile_ttl in
  let* _ := CleanOrphanedAttachments db in
  Return (removed + n + k).

End Database.
