(* ===== verification/DatabaseLogic.v ===== *)
(** * Ownership of the files of a database

    Any number of processes use one database, and their system calls interleave in any
    order.  Which files of reports a process may use, and what it knows of them, is what
    the lock files it has created say: a process that has the lock of a report owns the
    report and its metadata, and when it gives the lock back the report must be whole.
    This is a discipline on programs ([cwp]), in the manner of a concurrent separation
    logic whose resources are files and whose locks are lock files; here it is shown to
    be sound for the steps of [pool_step], and DatabaseConcurrency.v shows which
    operations of the database follow it. *)

From S2P Require Import Prelude.
From S2P Require Import Structs.
From S2P Require Import FileIO.
From S2P Require Import Uuid.
From S2P Require Import FileSystem.
From S2P Require Import Settings.
From S2P Require Import CrashReportDatabase.
#[local] Open Scope crashpad_scope.

(** ** The files of reports *)

(** A report: whether it is in [completed], or in [pending], and its name. *)
Abbreviation Key := (bool * list Z)%type (only parsing).
Inductive Kind := Dmp | Meta | Lock.
#[export] Instance Kind_eq_dec : EqDecision Kind.
Proof. solve_decision. Defined.

Definition extension_of (kd : Kind) : bytes :=
  match kd with Dmp => kCrashReportExtension | Meta => kMetadataExtension | Lock => kLockExtension end.
Definition directory_of (completed : bool) : bytes :=
  if completed then kCompletedDirectory else kPendingDirectory.

Section Files.
  Variable base : bytes.

Definition dir_path (completed : bool) : bytes := base ++ kSeparator :: directory_of completed.
Definition path_of (kd : Kind) (k : Key) : bytes :=
  dir_path k.1 ++ kSeparator :: (k.2 ++ extension_of kd).
Definition key_ok (k : Key) : Prop := kSeparator ∉ k.2.

(** Which of these files a path leads to. *)
Definition classify (p : bytes) : option (Kind * Key) :=
  '(d, f) ← parent_name p;
  '(s, e) ← split_last kExtensionSeparator f;
  kd ← (if bool_decide (kExtensionSeparator :: e = kCrashReportExtension) then Some Dmp
        else if bool_decide (kExtensionSeparator :: e = kMetadataExtension) then Some Meta
        else if bool_decide (kExtensionSeparator :: e = kLockExtension) then Some Lock
        else None);
  if bool_decide (d = dir_path false) then Some (kd, (false, s))
  else if bool_decide (d = dir_path true) then Some (kd, (true, s))
  else None.

Lemma dir_path_inj a b : dir_path a = dir_path b -> a = b.
Proof. unfold dir_path. intros E%app_inv_head. by destruct a, b. Qed.

Lemma extension_plain kd :
  exists e, extension_of kd = kExtensionSeparator :: e /\ e <> [] /\ kExtensionSeparator ∉ e /\ kSeparator ∉ e.
Proof.
  destruct kd; (eexists; split; [reflexivity|]); split_and!; try done;
    rewrite !not_elem_of_cons; split_and!; (done || apply not_elem_of_nil).
Qed.

Lemma classify_path kd k : key_ok k -> classify (path_of kd k) = Some (kd, k).
Proof.
  intros Hk. unfold classify, path_of. destruct (extension_plain kd) as (e & Ee & _ & Hdot & Hsep).
  rewrite parent_name_path by (rewrite Ee, elem_of_app, elem_of_cons; intros [|[|]]; done).
  cbn [mbind option_bind]. rewrite Ee, split_last_app by done. cbn [mbind option_bind]. rewrite <-Ee.
  destruct k as [b s]. cbn [fst snd] in *.
  assert (dir_path true <> dir_path false) as Hne by (by intros ?%dir_path_inj).
  destruct kd, b; cbn; repeat case_bool_decide; naive_solver.
Qed.

Lemma classify_Some p kd k : classify p = Some (kd, k) -> p = path_of kd k /\ key_ok k.
Proof.
  unfold classify. destruct (parent_name p) as [[d f]|] eqn:E; [|done]. cbn [mbind option_bind].
  apply parent_name_Some in E as [-> Hf].
  destruct (split_last kExtensionSeparator f) as [[s e]|] eqn:Es; [|done]. cbn [mbind option_bind].
  apply split_last_Some in Es as [-> He].
  assert (kSeparator ∉ s) as Hs by (intros ?; apply Hf, elem_of_app; by left).
  intros Hc. unfold path_of, key_ok.
  repeat case_bool_decide; simplify_eq/=; split; try done; congruence.
Qed.

Lemma path_of_inj kd k kd' k' :
  key_ok k -> key_ok k' -> path_of kd k = path_of kd' k' -> kd = kd' /\ k = k'.
Proof. intros Hk Hk' E. apply (f_equal classify) in E. rewrite !classify_path in E by done. by simplify_eq. Qed.

(** Paths in other directories, and files next to them. *)
Lemma classify_other c r : c <> 112 -> c <> 99 -> classify (base ++ kSeparator :: c :: r) = None.
Proof.
  intros Hp Hc. destruct (classify _) as [[kd [b s]]|] eqn:E; [|done]. apply classify_Some in E as [E _].
  unfold path_of, dir_path in E. cbn [fst snd] in E. rewrite <-app_assoc in E. apply app_inv_head in E.
  destruct b; vm_compute in E; congruence.
Qed.

(** ** What a process knows *)

(** What a process knows of a report whose lock it has: whether the report is there, and
    what is in the metadata file. *)
Abbreviation Owned := (bool * option (list Z))%type (only parsing).

(** The reports whose lock the process has, and its handles of metadata files, with the
    position in the file. *)
Record Ghost := MkGhost { g_keys : gmap Key Owned; g_handles : gmap nat (Key * nat) }.
Definition set_key (g : Ghost) (k : Key) (x : Owned) : Ghost := MkGhost (<[k := x]> (g_keys g)) (g_handles g).
Definition drop_key (g : Ghost) (k : Key) : Ghost := MkGhost (delete k (g_keys g)) (g_handles g).
Definition set_handle (g : Ghost) (fd : nat) (x : Key * nat) : Ghost :=
  MkGhost (g_keys g) (<[fd := x]> (g_handles g)).
Definition drop_handle (g : Ghost) (fd : nat) : Ghost := MkGhost (g_keys g) (delete fd (g_handles g)).

(** Metadata that [ReadMetadata] accepts. *)
Definition metadata_valid (d : bytes) : Prop :=
  (sizeof ReportMetadata.repr <= length d)%nat /\
  ReportMetadata.version (of_bytes ReportMetadata.repr (take (sizeof ReportMetadata.repr) d)) =
    ReportMetadata.kVersion.

(** A report that is whole: if it is there, its name is a UUID and it has metadata. *)
Definition whole (k : Key) (x : Owned) : Prop :=
  x.1 = true -> is_Some (InitializeFromString k.2) /\ exists d, x.2 = Some d /\ metadata_valid d.

Definition unhandled (g : Ghost) (k : Key) : Prop :=
  forall fd pos, g_handles g !! fd <> Some (k, pos).

(** ** The discipline *)

(** Making the call [c] is allowed, and whatever it may return goes on with [K]. *)
Definition open_ok (p : bytes) (f : OpenFlags) (g : Ghost) (K : option nat -> Ghost -> Prop) : Prop :=
  match classify p with
  | None => K None g /\ forall fd, g_handles g !! fd = None -> K (Some fd) g
  | Some (Lock, k) =>
      O_CREAT f = true /\ O_EXCL f = true /\ g_keys g !! k = None /\ K None g /\
      forall fd (x : Owned), g_handles g !! fd = None -> whole k x -> K (Some fd) (set_key g k x)
  | Some (Dmp, k) =>
      O_CREAT f = false /\ O_TRUNC f = false /\
      exists x : Owned, g_keys g !! k = Some x /\
        if x.1 then forall fd, g_handles g !! fd = None -> K (Some fd) g else K None g
  | Some (Meta, k) =>
      exists x : Owned, g_keys g !! k = Some x /\ unhandled g k /\
        match x.2 with
        | Some d =>
            if O_CREAT f && O_EXCL f then K None g
            else forall fd, g_handles g !! fd = None ->
              K (Some fd) (set_handle (set_key g k (x.1, Some (if O_TRUNC f then [] else d))) fd (k, O))
        | None =>
            if O_CREAT f then forall fd, g_handles g !! fd = None ->
              K (Some fd) (set_handle (set_key g k (x.1, Some [])) fd (k, O))
            else K None g
        end
  end.

Definition rename_ok (old new : bytes) (g : Ghost) (K : bool -> Ghost -> Prop) : Prop :=
  match classify old, classify new with
  | None, None => forall r, K r g
  | None, Some (Dmp, k) =>
      exists x : Owned, g_keys g !! k = Some x /\ unhandled g k /\ K false g /\ K true (set_key g k (true, x.2))
  | Some (Dmp, k), Some (Dmp, k') =>
      exists (x : option bytes) (y : Owned), g_keys g !! k = Some (true, x) /\ g_keys g !! k' = Some y /\ k.2 = k'.2 /\ k <> k' /\
        unhandled g k /\ unhandled g k' /\ K true (set_key (set_key g k (false, x)) k' (true, y.2))
  | _, _ => False
  end.

Definition unlink_ok (p : bytes) (g : Ghost) (K : bool -> Ghost -> Prop) : Prop :=
  match classify p with
  | None => forall r, K r g
  | Some (Lock, k) =>
      exists x : Owned, g_keys g !! k = Some x /\ whole k x /\ unhandled g k /\ K true (drop_key g k)
  | Some (Meta, k) =>
      exists x : Owned, g_keys g !! k = Some x /\ unhandled g k /\
        match x.2 with Some _ => K true (set_key g k (x.1, None)) | None => K false g end
  | Some (Dmp, k) => exists x : Owned, g_keys g !! k = Some x /\ x.1 = false /\ K false g
  end.

Definition step_ok {R} (c : syscall R) (g : Ghost) : (R -> Ghost -> Prop) -> Prop :=
  match c in syscall R return (R -> Ghost -> Prop) -> Prop with
  | sys_open p f => open_ok p f g
  | sys_close fd => fun K => K tt (drop_handle g fd)
  | sys_read fd count => fun K =>
      match g_handles g !! fd with
      | Some (k, pos) =>
          exists (x : bool) (d : bytes), g_keys g !! k = Some (x, Some d) /\
            let r := match count with Some n => slice pos n d | None => drop pos d end in
            K (Some r) (set_handle g fd (k, (pos + length r)%nat))
      | None => forall r, K r g
      end
  | sys_write fd buf => fun K =>
      match g_handles g !! fd with
      | Some (k, pos) =>
          exists (x : bool) (d : bytes), g_keys g !! k = Some (x, Some d) /\
            K true (set_handle (set_key g k (x, Some (write_at pos buf d))) fd (k, (pos + length buf)%nat))
      | None => forall r, K r g
      end
  | sys_lseek_set fd _ => fun K => g_handles g !! fd = None /\ forall r, K r g
  | sys_lseek_cur fd => fun K => g_handles g !! fd = None /\ forall r, K r g
  | sys_lseek_end fd => fun K => g_handles g !! fd = None /\ forall r, K r g
  | sys_ftruncate fd => fun K => g_handles g !! fd = None /\ forall r, K r g
  | sys_flock fd => fun K => forall r, K r g
  | sys_lstat p => fun K =>
      match classify p with
      | Some (Dmp, k) =>
          exists x : Owned, g_keys g !! k = Some x /\
            if x.1 then forall size time, K (Some (MkStat false size time)) g else K None g
      | _ => forall r, K r g
      end
  | sys_rename old new => rename_ok old new g
  | sys_unlink p => unlink_ok p g
  | sys_mkdir p => fun K => classify p = None /\ forall r, K r g
  | sys_rmdir p => fun K => classify p = None /\ (forall b, p <> dir_path b) /\ forall r, K r g
  | sys_opendir p => fun K => K None g /\ forall l, Forall is_name l -> K (Some l) g
  | sys_time => fun K => forall t, K t g
  | sys_random => fun K => forall b, length b = 16%nat -> Forall is_byte b -> K (Some b) g
  end.

(** Every call of the program is allowed, and it ends with [Q]. *)
Fixpoint cwp {A} (p : Prog A) (g : Ghost) (Q : A -> Ghost -> Prop) : Prop :=
  match p with
  | Return a => Q a g
  | Call c k => step_ok c g (fun r g' => cwp (k r) g' Q)
  | Stop => True
  end.

Lemma step_ok_mono {R} (c : syscall R) g (K K' : R -> Ghost -> Prop) :
  step_ok c g K -> (forall r g', K r g' -> K' r g') -> step_ok c g K'.
Proof.
  intros Hc HK. destruct c; cbn [step_ok] in *; unfold open_ok, rename_ok, unlink_ok in *;
    repeat first
      [ done | assumption | congruence | progress simplify_eq | apply HK | progress intros | case_match
      | match goal with
        | H : _ /\ _ |- _ => destruct H
        | H : exists _, _ |- _ => destruct H
        | |- _ /\ _ => split
        | |- exists _, _ => eexists
        | H : forall _, _ |- K _ _ => apply H
        end ]; naive_solver.
Qed.

Lemma cwp_mono {A} (p : Prog A) g (Q Q' : A -> Ghost -> Prop) :
  cwp p g Q -> (forall a g', Q a g' -> Q' a g') -> cwp p g Q'.
Proof.
  intros Hp HQ. revert g Hp. induction p as [a|R c k IH|]; cbn; intros g Hp; [by apply HQ| |done].
  eapply step_ok_mono; [done|]. cbn. intros r g'. apply IH.
Qed.

Lemma cwp_bind {A B} (p : Prog A) (f : A -> Prog B) g Q :
  cwp p g (fun a g' => cwp (f a) g' Q) -> cwp (prog_bind p f) g Q.
Proof.
  revert g. induction p as [a|R c k IH|]; cbn; intros g Hp; [done| |done].
  eapply step_ok_mono; [done|]. cbn. intros r g'. apply IH.
Qed.

(** ** What is true of all processes *)

Definition present (w : World) (p : bytes) : bool :=
  match names w !! p with Some (Regular _) => true | _ => false end.
Definition file_at (w : World) (p : bytes) : option bytes :=
  match names w !! p with Some (Regular i) => data <$> inodes w !! i | _ => None end.
Definition known (w : World) (k : Key) : Owned := (present w (path_of Dmp k), file_at w (path_of Meta k)).

(** The report with the name [n] is in the database. *)
Definition stored (w : World) (n : bytes) : Prop := exists b, present w (path_of Dmp (b, n)) = true.

(** What a process knows is true, and its handles are where it thinks they are. *)
Record process_inv (w : World) (g : Ghost) : Prop := {
  pi_owned : forall k x, g_keys g !! k = Some x ->
    key_ok k /\ x = known w k /\ is_Some (names w !! path_of Lock k);
  pi_handles : forall fd k pos, g_handles g !! fd = Some (k, pos) ->
    is_Some (g_keys g !! k) /\ opened w fd (path_of Meta k) pos;
  pi_tracked : forall fd i pos k, open_files w !! fd = Some (MkOpenFile (Some i) pos) -> key_ok k ->
    names w !! path_of Meta k = Some (Regular i) -> exists pos', g_handles g !! fd = Some (k, pos');
  pi_open : forall fd i pos, open_files w !! fd = Some (MkOpenFile (Some i) pos) -> i ∈ dom (inodes w)
}.

Record files_inv (w : World) : Prop := {
  fi_world : world_ok w;
  fi_dirs : forall b, names w !! dir_path b = Some Directory;
  fi_files : forall kd k, key_ok k -> names w !! path_of kd k <> Some Directory
}.

Definition with_files (w : World) (files : gmap nat OpenFile) : World := MkWorld (names w) (inodes w) files.

(** Every process is right about what it owns, no two own the same report, and the
    reports that no process owns are whole. *)
Record inv (w : World) (ps : list (gmap nat OpenFile * Ghost)) : Prop := {
  inv_files : files_inv w;
  inv_process : forall i files g, ps !! i = Some (files, g) -> process_inv (with_files w files) g;
  inv_disjoint : forall i j pi pj k, ps !! i = Some pi -> ps !! j = Some pj ->
    is_Some (g_keys pi.2 !! k) -> is_Some (g_keys pj.2 !! k) -> i = j;
  inv_whole : forall k, key_ok k -> (forall i p, ps !! i = Some p -> g_keys p.2 !! k = None) ->
    whole k (known w k)
}.

(** What one call changes: only what the process owns before or after it. *)
Record effect (w : World) (g : Ghost) (w' : World) (g' : Ghost) : Prop := {
  ef_files : files_inv w';
  ef_process : process_inv w' g';
  ef_inodes : dom (inodes w) ⊆ dom (inodes w');
  ef_others : forall k, key_ok k -> g_keys g !! k = None -> g_keys g' !! k = None ->
    known w' k = known w k /\ (is_Some (names w !! path_of Lock k) -> is_Some (names w' !! path_of Lock k)) /\
    names w' !! path_of Meta k = names w !! path_of Meta k;
  ef_new : forall k, is_Some (g_keys g' !! k) -> g_keys g !! k = None -> names w !! path_of Lock k = None;
  ef_released : forall k, is_Some (g_keys g !! k) -> g_keys g' !! k = None -> whole k (known w' k);
  ef_meta : forall k i, key_ok k -> names w' !! path_of Meta k = Some (Regular i) ->
    names w !! path_of Meta k = Some (Regular i) \/ i ∉ dom (inodes w);
  ef_kept : forall n, kSeparator ∉ n -> stored w n -> stored w' n
}.

Lemma known_with_files w files k : known (with_files w files) k = known w k.
Proof. done. Qed.

Lemma inv_step w ps i files g w' g' :
  inv w ps -> ps !! i = Some (files, g) -> effect (with_files w files) g w' g' ->
  inv w' (<[i := (open_files w', g')]> ps).
Proof.
  intros [Hf Hp Hd Hw] Hi He.
  assert (forall j pj k, j <> i -> ps !! j = Some pj -> is_Some (g_keys pj.2 !! k) ->
    key_ok k /\ g_keys g !! k = None /\ g_keys g' !! k = None) as Hother.
  { intros j [fj gj] k Hj Ej [x Hx]. destruct (pi_owned _ _ (Hp j fj gj Ej) k x Hx) as (Hk & _ & Hl).
    assert (g_keys g !! k = None) as Hg.
    { apply eq_None_not_Some. intros Hs. destruct Hj. by eapply (Hd j i). }
    split_and!; [done|done|]. apply eq_None_not_Some. intros Hs.
    pose proof (ef_new _ _ _ _ He k Hs Hg) as Hn. cbn in Hn, Hl. rewrite Hn in Hl. by destruct Hl. }
  assert (forall j pj, <[i := (open_files w', g')]> ps !! j = Some pj ->
    (j = i /\ pj = (open_files w', g')) \/ (j <> i /\ ps !! j = Some pj)) as Hj.
  { intros j pj. destruct (decide (j = i)) as [->|Hne].
    - rewrite list_lookup_insert_eq by (by eapply lookup_lt_Some). intros [= <-]. by left.
    - rewrite list_lookup_insert_ne by done. by right. }
  split; [apply He|..].
  - intros j fj gj [[-> [= -> ->]]|[Hne Ej]]%Hj; [destruct w'; apply He|].
    pose proof (Hp j fj gj Ej) as [Ho Hh Ht Hop]. split.
    + intros k x Hx. destruct (Hother j (fj, gj) k Hne Ej) as (Hk & Hg & Hg'); [by eexists|].
      destruct (ef_others _ _ _ _ He k Hk Hg Hg') as (Ek & El & _). destruct (Ho k x Hx) as (_ & -> & Hl).
      split_and!; [done| |by apply El]. rewrite !known_with_files, Ek. done.
    + intros fd k pos Hfd. destruct (Hh fd k pos Hfd) as [Hs (ino & Hopen & Hn)]. split; [done|].
      destruct (Hother j (fj, gj) k Hne Ej Hs) as (Hk & Hg & Hg').
      destruct (ef_others _ _ _ _ He k Hk Hg Hg') as (_ & _ & Em). exists ino. cbn in *. by rewrite Em.
    + intros fd ino pos k Hopen Hk Hn. destruct (ef_meta _ _ _ _ He k ino Hk Hn) as [Hn'|Hfresh].
      * by eapply Ht.
      * destruct Hfresh. by eapply Hop.
    + intros fd ino pos Hopen. apply (ef_inodes _ _ _ _ He). by eapply Hop.
  - intros j1 j2 p1 p2 k [[-> ->]|[Hne1 E1]]%Hj [[-> ->]|[Hne2 E2]]%Hj H1 H2; [done|..].
    + destruct (Hother j2 p2 k Hne2 E2 H2) as (_ & _ & Hn). cbn in H1. rewrite Hn in H1. by destruct H1.
    + destruct (Hother j1 p1 k Hne1 E1 H1) as (_ & _ & Hn). cbn in H2. rewrite Hn in H2. by destruct H2.
    + by eapply Hd.
  - intros k Hk Hfree.
    assert (g_keys g' !! k = None) as Hg'.
    { apply (Hfree i (open_files w', g')). apply list_lookup_insert_eq. by eapply lookup_lt_Some. }
    destruct (g_keys g !! k) as [x|] eqn:Hg; [by apply (ef_released _ _ _ _ He); [eexists|]|].
    destruct (ef_others _ _ _ _ He k Hk Hg Hg') as (-> & _). rewrite known_with_files. apply Hw; [done|].
    intros j pj Ej. destruct (decide (j = i)) as [->|Hne]; [rewrite Hi in Ej; by injection Ej as <-|].
    apply (Hfree j pj). by rewrite list_lookup_insert_ne.
Qed.

(** *** The effect of a call *)

(** The files of the reports not in [D] are as before. *)
Definition frame (w w' : World) (D : Key -> Prop) : Prop :=
  forall k, key_ok k -> ~ D k ->
    (forall kd, names w' !! path_of kd k = names w !! path_of kd k) /\
    (forall i, names w !! path_of Meta k = Some (Regular i) -> inodes w' !! i = inodes w !! i).

Lemma frame_known w w' D k : frame w w' D -> key_ok k -> ~ D k -> known w' k = known w k.
Proof.
  intros Hf Hk Hd. destruct (Hf k Hk Hd) as [Hn Hi]. unfold known, present, file_at. rewrite !Hn.
  destruct (names w !! path_of Meta k) as [[|i]|] eqn:E; [done| |done]. by rewrite Hi.
Qed.

Lemma effect_intro w g w' g' (D : Key -> Prop) `{forall k, Decision (D k)} :
  files_inv w' -> process_inv w' g' -> dom (inodes w) ⊆ dom (inodes w') -> frame w w' D ->
  (forall k, D k -> is_Some (g_keys g !! k) \/ is_Some (g_keys g' !! k)) ->
  (forall k, ~ D k -> g_keys g' !! k = g_keys g !! k) ->
  (forall k, D k -> g_keys g !! k = None -> names w !! path_of Lock k = None) ->
  (forall k, D k -> g_keys g' !! k = None -> whole k (known w' k)) ->
  (forall k i, D k -> names w' !! path_of Meta k = Some (Regular i) ->
     names w !! path_of Meta k = Some (Regular i) \/ i ∉ dom (inodes w)) ->
  (forall b n, D (b, n) -> kSeparator ∉ n -> present w (path_of Dmp (b, n)) = true -> stored w' n) ->
  effect w g w' g'.
Proof.
  intros Hf Hp Hi Hfr HD Hsame Hnew Hrel Hmeta Hkept. split; [done..| | | | |].
  - intros k Hk Hg Hg'. assert (~ D k) as Hd.
    { intros Hd. destruct (HD k Hd) as [Hs|Hs]; [rewrite Hg in Hs|rewrite Hg' in Hs]; by destruct Hs. }
    split; [by eapply frame_known|]. destruct (Hfr k Hk Hd) as [Hn _]. by rewrite !Hn.
  - intros k Hs Hg. destruct (decide (D k)) as [Hd|Hd]; [by apply Hnew|].
    rewrite (Hsame k Hd), Hg in Hs. by destruct Hs.
  - intros k Hs Hg'. destruct (decide (D k)) as [Hd|Hd]; [by apply Hrel|].
    rewrite <-(Hsame k Hd), Hg' in Hs. by destruct Hs.
  - intros k i Hk Hn. destruct (decide (D k)) as [Hd|Hd]; [by apply Hmeta|].
    left. destruct (Hfr k Hk Hd) as [Hn' _]. by rewrite <-Hn'.
  - intros n Hn [b Hb]. destruct (decide (D (b, n))) as [Hd|Hd]; [by eapply Hkept|].
    exists b. destruct (Hfr (b, n) Hn Hd) as [Hn' _]. unfold present. by rewrite Hn'.
Qed.

(** A call that changes nothing of the reports. *)
Lemma effect_frame w g w' g' :
  files_inv w' -> process_inv w' g' -> dom (inodes w) ⊆ dom (inodes w') ->
  frame w w' (fun _ => False) -> g_keys g' = g_keys g -> effect w g w' g'.
Proof.
  intros Hf Hp Hi Hfr Hg. apply (effect_intro w g w' g' (fun _ => False)); try done. intros k _. by rewrite Hg.
Qed.

(** What a process owns is still so when the files of all reports are as before. *)
Lemma process_frame w g w' :
  process_inv w g -> frame w w' (fun _ => False) ->
  (forall fd k pos, g_handles g !! fd = Some (k, pos) -> open_files w' !! fd = open_files w !! fd) ->
  (forall fd i pos, open_files w' !! fd = Some (MkOpenFile (Some i) pos) ->
     (exists pos', open_files w !! fd = Some (MkOpenFile (Some i) pos')) \/
     forall k, key_ok k -> names w !! path_of Meta k <> Some (Regular i)) ->
  (forall fd i pos, open_files w' !! fd = Some (MkOpenFile (Some i) pos) -> i ∈ dom (inodes w')) ->
  process_inv w' g.
Proof.
  intros [Ho Hh Ht Hop] Hfr Hfd Hopen Hdom. split; [| | |done].
  - intros k x Hx. destruct (Ho k x Hx) as (Hk & -> & Hl). destruct (Hfr k Hk (fun x => x)) as [Hn _].
    split_and!; [done| |by rewrite Hn]. symmetry.
    apply (frame_known w w' (fun _ => False)); [done|done|by intros []].
  - intros fd k pos Hx. destruct (Hh fd k pos Hx) as [[x Hs] (i & Hi & Hn)]. split; [by eexists|].
    destruct (Ho k x Hs) as (Hk & _). destruct (Hfr k Hk (fun x => x)) as [Hn' _].
    exists i. by rewrite (Hfd fd k pos Hx), Hn'.
  - intros fd i pos k Hx Hk Hn. destruct (Hfr k Hk (fun x => x)) as [Hn' _]. rewrite Hn' in Hn.
    destruct (Hopen fd i pos Hx) as [[pos' Hx']|Hnot]; [by eapply Ht|]. by destruct (Hnot k Hk).
Qed.

Lemma effect_refl w g : files_inv w -> process_inv w g -> effect w g w g.
Proof. intros Hf Hp. by apply effect_frame. Qed.

Lemma classify_dir b : classify (dir_path b) = None.
Proof.
  unfold classify, dir_path. rewrite parent_name_path; [by destruct b|].
  apply (bool_decide_eq_true_1 _). by destruct b; vm_compute.
Qed.
Lemma path_of_dir kd k b : key_ok k -> path_of kd k <> dir_path b.
Proof. intros Hk E. pose proof (classify_dir b) as Hc. by rewrite <-E, classify_path in Hc. Qed.
Lemma unclassified p kd k : classify p = None -> key_ok k -> path_of kd k <> p.
Proof. intros Hp Hk <-. by rewrite classify_path in Hp. Qed.

(** Two paths that lead to the same inode are the same. *)
Lemma meta_inode w p i k :
  world_ok w -> names w !! p = Some (Regular i) -> p <> path_of Meta k ->
  names w !! path_of Meta k <> Some (Regular i).
Proof. intros Hw Hp Hne Hk. apply Hne. by eapply (wok_unlinked w Hw). Qed.

Lemma fresh_handle w g :
  process_inv w g -> g_handles g !! fresh (dom (open_files w)) = None.
Proof.
  intros Hp. apply eq_None_not_Some. intros [[k pos] Hx].
  destruct (pi_handles _ _ Hp _ _ _ Hx) as [_ (i & Hi & _)].
  apply (is_fresh (dom (open_files w))), elem_of_dom. by eexists.
Qed.

(** Opening a file that is not metadata, after changes of other files. *)
Lemma effect_open w g w1 i :
  process_inv w g -> files_inv w1 -> dom (inodes w) ⊆ dom (inodes w1) ->
  frame w w1 (fun _ => False) -> open_files w1 = open_files w ->
  (forall j, i = Some j -> j ∈ dom (inodes w1) /\
     forall k, key_ok k -> names w !! path_of Meta k <> Some (Regular j)) ->
  effect w g (new_handle i w1).2 g /\ g_handles g !! (new_handle i w1).1 = None.
Proof.
  intros Hp Hf Hd Hfr Eo Hi. unfold new_handle. rewrite Eo. cbn [fst snd]. pose proof (fresh_handle w g Hp) as Hfresh.
  split; [|done]. set (fd := fresh _) in *.
  assert (frame w (set_open_file fd (MkOpenFile i 0) w1) (fun _ => False)) as Hfr' by exact Hfr.
  apply effect_frame; [destruct Hf as [[] ? ?]; by repeat split| |exact Hd|done|done].
  apply (process_frame w g); [done|done|..]; cbn; rewrite Eo.
  - intros fd' k pos Hx. rewrite lookup_insert_ne; [done|]. intros <-. congruence.
  - intros fd' j pos. rewrite lookup_insert_Some. intros [[<- [= -> <-]]|[_ Hx]]; [|by left; eexists].
    right. by apply Hi.
  - intros fd' j pos. rewrite lookup_insert_Some. intros [[<- [= -> <-]]|[_ Hx]]; [by apply Hi|].
    apply Hd. by eapply (pi_open _ _ Hp).
Qed.

(** Creating a file or a directory, truncating a file. *)
Lemma files_created w p n i d t :
  files_inv w -> names w !! p = None -> i ∉ dom (inodes w) -> n = Regular i ->
  files_inv (set_inode i d t (set_names (<[p := n]>) w)).
Proof.
  intros [Hw Hd Hf] Hp Hi ->. split; cbn.
  - by apply (view_new_file w p i d t).
  - intros b. rewrite lookup_insert_ne; [done|]. intros ->. by rewrite Hd in Hp.
  - intros kd k Hk. destruct (decide (p = path_of kd k)) as [->|]; [by rewrite lookup_insert_eq|].
    rewrite lookup_insert_ne by done. by apply Hf.
Qed.

Lemma set_inode_ok w i d t : world_ok w -> world_ok (set_inode i d t w).
Proof.
  intros Hw. split; cbn; [|apply Hw]. intros p j Hp. apply lookup_insert_is_Some'. right. by eapply (wok_inodes w Hw).
Qed.
Lemma files_set_inode w i d t : files_inv w -> files_inv (set_inode i d t w).
Proof. intros [Hw Hd Hf]. split; [by apply set_inode_ok|done..]. Qed.

Lemma dom_set_inode w i d t : dom (inodes w) ⊆ dom (inodes (set_inode i d t w)).
Proof. cbn. rewrite dom_insert. set_solver. Qed.

(** Changes of an inode that is not metadata. *)
Lemma frame_set_inode w i d t :
  (forall k, key_ok k -> names w !! path_of Meta k <> Some (Regular i)) ->
  frame w (set_inode i d t w) (fun _ => False).
Proof.
  intros Hi k Hk _. split; [done|]. intros j Hj. cbn. apply lookup_insert_ne. intros ->. by destruct (Hi k Hk).
Qed.

Lemma sound_open_foreign o p f w g :
  files_inv w -> process_inv w g -> fate o = Works -> classify p = None ->
  match perform (sys_open p f) o w with
  | (None, w') => w' = w
  | (Some fd, w') => effect w g w' g /\ g_handles g !! fd = None
  end.
Proof.
  intros Hf Hp Ho Hc. cbn [perform]. rewrite Ho. unfold open_path.
  assert (forall i k, names w !! p = Some (Regular i) -> key_ok k -> names w !! path_of Meta k <> Some (Regular i)) as Hni.
  { intros i k Hi Hk. eapply meta_inode; [apply Hf|done|]. intros ->. by rewrite classify_path in Hc. }
  destruct (names w !! p) as [[|i]|] eqn:E.
  - destruct (_ || _); [done|]. destruct (new_handle None w) as [fd w'] eqn:En.
    destruct (effect_open w g w None) as [He Hh]; try done. by rewrite En in *.
  - destruct (_ && _); [done|]. set (w1 := if O_TRUNC f then _ else _). destruct (new_handle (Some i) w1) as [fd w'] eqn:En.
    destruct (effect_open w g w1 (Some i)) as [He Hh]; try done.
    + subst w1. destruct (O_TRUNC f); [by apply files_set_inode|done].
    + subst w1. destruct (O_TRUNC f); [apply dom_set_inode|done].
    + subst w1. destruct (O_TRUNC f); [|done]. apply frame_set_inode. intros k Hk. by apply Hni.
    + by subst w1; destruct (O_TRUNC f).
    + intros j [= <-]. split; [|intros k Hk; by apply Hni]. subst w1.
      apply elem_of_dom. destruct (wok_inodes w (fi_world w Hf) p i E) as [n Hn].
      destruct (O_TRUNC f); cbn; [|by eexists]. rewrite lookup_insert_eq. by eexists.
    + by rewrite En in *.
  - destruct (_ && _); [|done]. set (i := fresh _). assert (i ∉ dom (inodes w)) as Hi by apply is_fresh.
    set (w1 := set_inode i _ _ _). destruct (new_handle (Some i) w1) as [fd w'] eqn:En.
    assert (forall k, key_ok k -> names w !! path_of Meta k <> Some (Regular i)) as Hfresh.
    { intros k Hk. by apply fresh_inode; [apply Hf|]. }
    destruct (effect_open w g w1 (Some i)) as [He Hh]; try done.
    + by apply files_created.
    + subst w1. cbn. rewrite dom_insert. set_solver.
    + intros k Hk _. subst w1. cbn. split.
      * intros kd. apply lookup_insert_ne. intros ->. by rewrite classify_path in Hc.
      * intros j Hj. apply lookup_insert_ne. intros <-. by destruct (Hfresh k Hk).
    + intros j [= <-]. split; [|done]. subst w1. cbn. rewrite dom_insert. set_solver.
    + by rewrite En in *.
Qed.

(** Handles. *)
Lemma files_same w w' : names w' = names w -> inodes w' = inodes w -> files_inv w -> files_inv w'.
Proof. intros En Ei [[] Hd Hf]. repeat split; rewrite ?En, ?Ei; done. Qed.

Lemma frame_same w w' D : names w' = names w -> inodes w' = inodes w -> frame w w' D.
Proof. intros En Ei k _ _. by rewrite En, Ei. Qed.

Lemma sound_close fd w g :
  files_inv w -> process_inv w g ->
  effect w g (MkWorld (names w) (inodes w) (delete fd (open_files w))) (drop_handle g fd).
Proof.
  intros Hf [Ho Hh Ht Hop]. apply effect_frame; [by apply (files_same w)| |done|by apply frame_same|done].
  split; cbn; [done|..].
  - intros fd' k pos [Hne Hx]%lookup_delete_Some. destruct (Hh fd' k pos Hx) as [Hs (i & Hi & Hn)].
    split; [done|]. exists i. cbn. by rewrite lookup_delete_ne.
  - intros fd' i pos k [Hne Hx]%lookup_delete_Some Hk Hn. destruct (Ht fd' i pos k Hx Hk Hn) as [pos' E].
    exists pos'. by rewrite lookup_delete_ne.
  - intros fd' i pos [_ Hx]%lookup_delete_Some. by eapply Hop.
Qed.

(** A handle that is not of metadata is moved. *)
Lemma sound_move fd x pos w g :
  files_inv w -> process_inv w g -> g_handles g !! fd = None -> open_files w !! fd = Some x ->
  effect w g (set_open_file fd (MkOpenFile (file_inode x) pos) w) g.
Proof.
  intros Hf Hp Hg Hx. apply effect_frame; [by apply (files_same w)| |done|by apply frame_same|done].
  apply (process_frame w g); [done|by apply frame_same|..]; cbn.
  - intros fd' k pos' Hk. rewrite lookup_insert_ne; [done|]. intros <-. congruence.
  - intros fd' i pos'. rewrite lookup_insert_Some. intros [[<- [= E <-]]|[_ Hi]]; left; [|by eexists].
    destruct x as [j q]. cbn in E. subst j. by eexists.
  - intros fd' i pos'. rewrite lookup_insert_Some. intros [[<- [= E <-]]|[_ Hi]]; [|by eapply (pi_open _ _ Hp)].
    destruct x as [j q]. cbn in E. subst j. by eapply (pi_open _ _ Hp).
Qed.

Lemma handle_file_Some w fd i n pos :
  handle_file w fd = Some (i, n, pos) ->
  open_files w !! fd = Some (MkOpenFile (Some i) pos) /\ inodes w !! i = Some n.
Proof.
  unfold handle_file. destruct (open_files w !! fd) as [[[j|] q]|]; cbn; [|done|done].
  destruct (inodes w !! j) as [n'|] eqn:E; cbn; [|done]. intros [= -> -> ->]. done.
Qed.

(** The inode of a handle that is not of metadata. *)
Lemma untracked_inode w g fd i n pos :
  process_inv w g -> g_handles g !! fd = None -> handle_file w fd = Some (i, n, pos) ->
  forall k, key_ok k -> names w !! path_of Meta k <> Some (Regular i).
Proof.
  intros Hp Hg [Hx _]%handle_file_Some k Hk Hn. destruct (pi_tracked _ _ Hp fd i pos k Hx Hk Hn). congruence.
Qed.

Lemma sound_set_inode i d t w g :
  files_inv w -> process_inv w g ->
  (forall k, key_ok k -> names w !! path_of Meta k <> Some (Regular i)) ->
  effect w g (set_inode i d t w) g.
Proof.
  intros Hf Hp Hi. assert (frame w (set_inode i d t w) (fun _ => False)) as Hfr by (by apply frame_set_inode).
  apply effect_frame; [by apply files_set_inode| |apply dom_set_inode|done|done].
  apply (process_frame w g); [done..| |].
  - intros fd j pos Hx. left. by eexists.
  - intros fd j pos Hx. apply dom_set_inode. by eapply (pi_open _ _ Hp).
Qed.

Lemma effect_trans w1 g1 w2 w3 g3 :
  effect w1 g1 w2 g1 -> effect w2 g1 w3 g3 ->
  (forall k, names w2 !! path_of Lock k = names w1 !! path_of Lock k) -> effect w1 g1 w3 g3.
Proof.
  intros H1 H2 Hl. split; [apply H2|apply H2|..].
  - etransitivity; [apply H1|apply H2].
  - intros k Hk Hg Hg'. destruct (ef_others _ _ _ _ H1 k Hk Hg Hg) as (E1 & L1 & M1).
    destruct (ef_others _ _ _ _ H2 k Hk Hg Hg') as (E2 & L2 & M2). rewrite E2, E1, M2, M1. auto.
  - intros k Hs Hg. rewrite <-Hl. by apply (ef_new _ _ _ _ H2).
  - intros k Hs Hg. by apply (ef_released _ _ _ _ H2).
  - intros k i Hk Hn. destruct (ef_meta _ _ _ _ H2 k i Hk Hn) as [Hn'|Hi]; [by eapply (ef_meta _ _ _ _ H1)|].
    right. intros Hin. apply Hi. by apply (ef_inodes _ _ _ _ H1).
  - intros n Hn Hs. apply (ef_kept _ _ _ _ H2); [done|]. by apply (ef_kept _ _ _ _ H1).
Qed.

Lemma sound_write_untracked o fd buf w g :
  files_inv w -> process_inv w g -> g_handles g !! fd = None -> effect w g (write_handle o fd buf w) g.
Proof.
  intros Hf Hp Hg. unfold write_handle. destruct (handle_file w fd) as [[[i n] pos]|] eqn:E; [|by apply effect_refl].
  pose proof (untracked_inode w g fd i n pos Hp Hg E) as Hi. apply handle_file_Some in E as [Hx _].
  pose proof (sound_set_inode i (write_at pos buf (data n)) (now o) w g Hf Hp Hi) as He.
  eapply effect_trans; [exact He| |done].
  apply (sound_move fd (MkOpenFile (Some i) pos)); [apply He|apply He|done|done].
Qed.

Lemma sound_read_untracked fd count w g :
  files_inv w -> process_inv w g -> g_handles g !! fd = None -> effect w g (read_handle fd count w).2 g.
Proof.
  intros Hf Hp Hg. unfold read_handle. destruct (handle_file w fd) as [[[i n] pos]|] eqn:E; [|by apply effect_refl].
  apply handle_file_Some in E as [Hx _]. cbn. by apply (sound_move fd (MkOpenFile (Some i) pos)).
Qed.

(** *** Changes of a report that is owned *)

(** Changes of the files of one report, with no handle of its metadata. *)
Lemma process_change w g w' g' k :
  process_inv w g -> frame w w' (eq k) -> unhandled g k ->
  g_handles g' = g_handles g -> open_files w' = open_files w -> dom (inodes w) ⊆ dom (inodes w') ->
  (forall k', k' <> k -> g_keys g' !! k' = g_keys g !! k') ->
  (forall x, g_keys g' !! k = Some x -> key_ok k /\ x = known w' k /\ is_Some (names w' !! path_of Lock k)) ->
  (forall i, key_ok k -> names w' !! path_of Meta k = Some (Regular i) ->
     names w !! path_of Meta k = Some (Regular i) \/ i ∉ dom (inodes w)) ->
  process_inv w' g'.
Proof.
  intros [Ho Hh Ht Hop] Hfr Hun Eh Eo Hd Hother Hk Hm. split.
  - intros k' x Hx. destruct (decide (k' = k)) as [->|Hne]; [by apply Hk|]. rewrite Hother in Hx by done.
    destruct (Ho k' x Hx) as (Hk' & -> & Hl). destruct (Hfr k' Hk') as [Hn _]; [congruence|].
    split_and!; [done| |by rewrite Hn]. symmetry. apply (frame_known w w' (eq k)); [done|done|congruence].
  - rewrite Eh. intros fd k' pos Hx. assert (k' <> k) as Hne by (intros ->; by eapply Hun).
    destruct (Hh fd k' pos Hx) as [[x Hs] (i & Hi & Hn)]. rewrite Hother by done. split; [by eexists|].
    destruct (Ho k' x Hs) as (Hk' & _). destruct (Hfr k' Hk') as [Hn' _]; [congruence|].
    exists i. by rewrite Eo, Hn'.
  - rewrite Eh, Eo. intros fd i pos k' Hx Hk' Hn. destruct (decide (k' = k)) as [->|Hne].
    { destruct (Hm i Hk' Hn) as [Hn'|Hi]; [by eapply Ht|]. destruct Hi. by eapply Hop. }
    destruct (Hfr k' Hk') as [Hn' _]; [congruence|]. rewrite Hn' in Hn. by eapply Ht.
  - rewrite Eo. intros fd i pos Hx. apply Hd. by eapply Hop.
Qed.

(** The same, as the effect of a call. *)
Lemma effect_change w g w' g' k :
  process_inv w g -> files_inv w' -> frame w w' (eq k) -> unhandled g k -> key_ok k ->
  g_handles g' = g_handles g -> open_files w' = open_files w -> dom (inodes w) ⊆ dom (inodes w') ->
  (forall k', k' <> k -> g_keys g' !! k' = g_keys g !! k') ->
  match g_keys g' !! k with
  | Some x => x = known w' k /\ is_Some (names w' !! path_of Lock k)
  | None => whole k (known w' k)
  end ->
  (g_keys g !! k = None -> names w !! path_of Lock k = None /\ is_Some (g_keys g' !! k)) ->
  (forall i, names w' !! path_of Meta k = Some (Regular i) ->
     names w !! path_of Meta k = Some (Regular i) \/ i ∉ dom (inodes w)) ->
  (present w (path_of Dmp k) = true -> present w' (path_of Dmp k) = true) ->
  effect w g w' g'.
Proof.
  intros Hp Hf Hfr Hun Hk Eh Eo Hd Hother Hat Hnew Hm Hkept.
  apply (effect_intro w g w' g' (eq k)); [done| |done|done|..].
  - apply (process_change w g w' g' k); try done; [|intros i _; apply Hm].
    intros x Hx. rewrite Hx in Hat. done.
  - intros ? <-. destruct (g_keys g !! k) as [x|] eqn:E; [left; by eexists|right; by apply Hnew].
  - intros k' Hne. apply Hother. congruence.
  - intros ? <- E. by apply Hnew.
  - intros ? <- E. by rewrite E in Hat.
  - intros ? i <- Hn. by apply Hm.
  - intros b n -> Hn Hpr. exists b. by apply Hkept.
Qed.

(** The names of the files other than [p] are as before. *)
Lemma frame_name w w' kd k :
  key_ok k -> (forall q, q <> path_of kd k -> names w' !! q = names w !! q) ->
  (forall k' i, key_ok k' -> k' <> k -> names w !! path_of Meta k' = Some (Regular i) ->
     inodes w' !! i = inodes w !! i) ->
  frame w w' (eq k).
Proof.
  intros Hk Hn Hi k' Hk' Hne. split.
  - intros kd'. apply Hn. intros E. apply path_of_inj in E as [_ E]; [congruence|done|done].
  - intros i. apply Hi; [done|congruence].
Qed.

Lemma files_delete w p :
  files_inv w -> (forall b, p <> dir_path b) -> files_inv (set_names (delete p) w).
Proof.
  intros [Hw Hd Hf] Hp. split; cbn.
  - by apply (view_delete w p).
  - intros b. rewrite lookup_delete_ne; [done|]. apply Hp.
  - intros kd k Hk. rewrite lookup_delete_Some. intros [_ ?]. by apply (Hf kd k Hk).
Qed.

(** Giving a lock back. *)
Lemma sound_unlink_lock k x w g :
  files_inv w -> process_inv w g -> g_keys g !! k = Some x -> whole k x -> unhandled g k ->
  effect w g (set_names (delete (path_of Lock k)) w) (drop_key g k).
Proof.
  intros Hf Hp Hx Hwh Hun. destruct (pi_owned _ _ Hp k x Hx) as (Hk & -> & _).
  assert (forall kd, kd <> Lock -> path_of kd k <> path_of Lock k) as Hne.
  { intros kd Hkd E. apply path_of_inj in E as [? _]; done. }
  assert (known (set_names (delete (path_of Lock k)) w) k = known w k) as Ek.
  { unfold known, present, file_at. cbn. by rewrite !lookup_delete_ne by (apply not_eq_sym, Hne; done). }
  apply (effect_change w g _ _ k); try done.
  - apply files_delete; [done|]. intros b. by apply path_of_dir.
  - eapply frame_name; [done|..|done]. intros q Hq. cbn. by apply lookup_delete_ne.
  - intros k' Hk'. cbn. by apply lookup_delete_ne.
  - cbn. rewrite lookup_delete_eq. by rewrite Ek.
  - intros E. by rewrite Hx in E.
  - intros i. cbn. rewrite lookup_delete_ne; [by left|]. by apply not_eq_sym, Hne.
  - intros Hpr. unfold present in *. cbn. by rewrite lookup_delete_ne by (by apply not_eq_sym, Hne).
Qed.

(** Removing metadata. *)
Lemma sound_unlink_meta k x w g :
  files_inv w -> process_inv w g -> g_keys g !! k = Some x -> unhandled g k ->
  effect w g (set_names (delete (path_of Meta k)) w) (set_key g k (x.1, None)).
Proof.
  intros Hf Hp Hx Hun. destruct (pi_owned _ _ Hp k x Hx) as (Hk & -> & Hl).
  assert (forall kd, kd <> Meta -> path_of kd k <> path_of Meta k) as Hne.
  { intros kd Hkd E. apply path_of_inj in E as [? _]; done. }
  apply (effect_change w g _ _ k); try done.
  - apply files_delete; [done|]. intros b. by apply path_of_dir.
  - eapply frame_name; [done|..|done]. intros q Hq. cbn. by apply lookup_delete_ne.
  - intros k' Hk'. cbn. by apply lookup_insert_ne.
  - cbn. rewrite lookup_insert_eq. unfold known, present, file_at. cbn.
    rewrite lookup_delete_eq, !lookup_delete_ne by (apply not_eq_sym, Hne; done). done.
  - intros E. by rewrite Hx in E.
  - intros i. cbn. by rewrite lookup_delete_eq.
  - intros Hpr. unfold present in *. cbn. by rewrite lookup_delete_ne by (by apply not_eq_sym, Hne).
Qed.

(** Handles are not files. *)
Lemma effect_handles w g w1 g1 w2 g2 :
  effect w g w1 g1 -> names w2 = names w1 -> inodes w2 = inodes w1 -> g_keys g2 = g_keys g1 ->
  process_inv w2 g2 -> effect w g w2 g2.
Proof.
  intros [E1 E2 E3 E4 E5 E6 E7 E8] En Ei Eg Hp.
  assert (forall k, known w2 k = known w1 k) as Ek by (intros k; unfold known, present, file_at; by rewrite En, Ei).
  assert (forall p, present w2 p = present w1 p) as Epr by (intros p; unfold present; by rewrite En).
  split; rewrite ?En, ?Ei, ?Eg; try done.
  - by apply (files_same w1).
  - intros k. rewrite Ek. apply E4.
  - intros k. rewrite Ek. apply E6.
  - intros n Hn Hs. destruct (E8 n Hn Hs) as [b Hb]. exists b. by rewrite Epr.
Qed.

(** A new file in the directory of the reports. *)
Lemma files_new w kd k i d t :
  files_inv w -> names w !! path_of kd k = None -> i ∉ dom (inodes w) ->
  let w1 := set_inode i d t (set_names (<[path_of kd k := Regular i]>) w) in
  key_ok k -> files_inv w1 /\ dom (inodes w) ⊆ dom (inodes w1) /\ frame w w1 (eq k) /\
  (forall q, q <> path_of kd k -> names w1 !! q = names w !! q) /\
  (forall j, j ∈ dom (inodes w) -> inodes w1 !! j = inodes w !! j).
Proof.
  intros Hf Hn Hi w1 Hk.
  assert (forall q, q <> path_of kd k -> names w1 !! q = names w !! q) as Hq
    by (intros q Hq; cbn; by apply lookup_insert_ne).
  assert (forall j, j ∈ dom (inodes w) -> inodes w1 !! j = inodes w !! j) as Hj.
  { intros j Hj. cbn. apply lookup_insert_ne. intros <-. done. }
  split_and!; [by apply files_created|cbn; rewrite dom_insert; set_solver| |done|done].
  apply (frame_name w w1 kd k); [done|done|]. intros k' j Hk' _ Hj'. apply Hj, elem_of_dom.
  by eapply (wok_inodes w (fi_world w Hf)).
Qed.

(** Getting a lock: the report was nobody's, and is whole. *)
Lemma sound_lock k w g t :
  files_inv w -> process_inv w g -> key_ok k -> names w !! path_of Lock k = None ->
  let i := fresh (dom (inodes w)) in
  let w1 := set_inode i [] t (set_names (<[path_of Lock k := Regular i]>) w) in
  effect w g (new_handle (Some i) w1).2 (set_key g k (known w k)) /\
  g_handles g !! (new_handle (Some i) w1).1 = None.
Proof.
  intros Hf Hp Hk Hn i w1. assert (i ∉ dom (inodes w)) as Hi by apply is_fresh.
  destruct (files_new w Lock k i [] t Hf Hn Hi Hk) as (Hf1 & Hd & Hfr & Hq & Hj).
  assert (forall kd, kd <> Lock -> path_of kd k <> path_of Lock k) as Hne.
  { intros kd Hkd E. apply path_of_inj in E as [? _]; done. }
  assert (known w1 k = known w k) as Ek.
  { unfold known, present, file_at. rewrite !Hq by (by apply Hne).
    destruct (names w !! path_of Meta k) as [[|j]|] eqn:E; [done| |done].
    rewrite Hj; [done|]. apply elem_of_dom. by eapply (wok_inodes w (fi_world w Hf)). }
  assert (unhandled g k) as Hun.
  { intros fd pos Hx. destruct (pi_handles _ _ Hp fd k pos Hx) as [[x Hs] _].
    destruct (pi_owned _ _ Hp k x Hs) as (_ & _ & Hl). rewrite Hn in Hl. by destruct Hl. }
  assert (effect w g w1 (set_key g k (known w k))) as He.
  { apply (effect_change w g w1 _ k); try done.
    - intros k' Hk'. cbn. by apply lookup_insert_ne.
    - cbn [g_keys set_key]. rewrite lookup_insert_eq. split; [done|]. cbn. rewrite lookup_insert_eq. by eexists.
    - intros _. split; [done|]. cbn. rewrite lookup_insert_eq. by eexists.
    - intros j. rewrite Hq by (by apply Hne). by left.
    - unfold present. by rewrite Hq by (by apply Hne). }
  assert (forall k', key_ok k' -> names w1 !! path_of Meta k' <> Some (Regular i)) as Hmeta.
  { intros k' Hk'. rewrite Hq; [by apply fresh_inode; [apply Hf|]|].
    intros E. apply path_of_inj in E as [? _]; done. }
  destruct (effect_open w1 (set_key g k (known w k)) w1 (Some i)) as [He2 Hh]; try done.
  - apply He.
  - intros j [= <-]. split; [cbn; rewrite dom_insert; set_solver|done].
  - split; [|exact Hh]. eapply effect_handles; [exact He|done..|]. apply He2.
Qed.

(** A handle of metadata is opened. *)
Lemma effect_track w g w1 g1 k i :
  effect w g w1 g1 -> unhandled g1 k -> key_ok k -> is_Some (g_keys g1 !! k) ->
  names w1 !! path_of Meta k = Some (Regular i) ->
  let h := new_handle (Some i) w1 in
  effect w g h.2 (set_handle g1 h.1 (k, O)) /\ g_handles g1 !! h.1 = None.
Proof.
  intros He Hun Hk Hs Hi. pose proof (ef_process _ _ _ _ He) as Hp. pose proof (fresh_handle w1 g1 Hp) as Hfresh.
  unfold new_handle. cbn [fst snd]. set (fd := fresh _) in *. split; [|done].
  eapply effect_handles; [exact He|done..|]. destruct Hp as [Ho Hh Ht Hop]. split; cbn.
  - done.
  - intros fd' k' pos. rewrite lookup_insert_Some. intros [[<- [= <- <-]]|[Hne Hx]].
    + split; [done|]. exists i. cbn. by rewrite lookup_insert_eq.
    + destruct (Hh fd' k' pos Hx) as [Hs' (j & Hj & Hn)]. split; [done|]. exists j. cbn. by rewrite lookup_insert_ne.
  - intros fd' j pos k'. rewrite lookup_insert_Some. intros [[<- [= <- <-]]|[Hne Hx]] Hk' Hn.
    + exists O. rewrite lookup_insert_eq. do 2 f_equal.
      assert (path_of Meta k = path_of Meta k') as E.
      { eapply (wok_unlinked w1); [apply (ef_files _ _ _ _ He)|done|done]. }
      by apply path_of_inj in E as [_ ->].
    + destruct (Ht fd' j pos k' Hx Hk' Hn) as [pos' Hx']. exists pos'. rewrite lookup_insert_ne; [done|].
      intros <-. congruence.
  - intros fd' j pos. rewrite lookup_insert_Some. intros [[<- [= <- <-]]|[Hne Hx]]; [|by eapply Hop].
    apply elem_of_dom. eapply (wok_inodes w1); [apply (ef_files _ _ _ _ He)|done].
Qed.

Lemma set_key_same g k x : g_keys g !! k = Some x -> set_key g k x = g.
Proof. intros Hx. unfold set_key. rewrite insert_id by done. by destruct g. Qed.

(** Changing the metadata file of a report that is owned. *)
Lemma sound_set_meta k x i d t w g :
  files_inv w -> process_inv w g -> g_keys g !! k = Some x -> unhandled g k ->
  names w !! path_of Meta k = Some (Regular i) ->
  effect w g (set_inode i d t w) (set_key g k (x.1, Some d)).
Proof.
  intros Hf Hp Hx Hun Hi. destruct (pi_owned _ _ Hp k x Hx) as (Hk & -> & Hl).
  apply (effect_change w g _ _ k); try done.
  - by apply files_set_inode.
  - apply (frame_name w _ Meta k); [done|done|]. intros k' j Hk' Hne Hj. cbn. apply lookup_insert_ne. intros <-.
    assert (path_of Meta k = path_of Meta k') as E by (by eapply (wok_unlinked w (fi_world w Hf))).
    by apply path_of_inj in E as [_ ->].
  - apply dom_set_inode.
  - intros k' Hk'. cbn. by apply lookup_insert_ne.
  - cbn [g_keys set_key]. rewrite lookup_insert_eq. split; [|done]. unfold known, present, file_at. cbn.
    by rewrite Hi, lookup_insert_eq.
  - intros E. by rewrite Hx in E.
  - intros j Hj. by left.
Qed.

Lemma sound_open_meta o k f w g x :
  files_inv w -> process_inv w g -> fate o = Works -> g_keys g !! k = Some x -> unhandled g k ->
  match perform (sys_open (path_of Meta k) f) o w with
  | (None, w') =>
      w' = w /\ match x.2 with Some _ => O_CREAT f && O_EXCL f = true | None => O_CREAT f = false end
  | (Some fd, w') =>
      g_handles g !! fd = None /\
      exists d, effect w g w' (set_handle (set_key g k (x.1, Some d)) fd (k, O)) /\
        match x.2 with
        | Some d0 => O_CREAT f && O_EXCL f = false /\ d = if O_TRUNC f then [] else d0
        | None => O_CREAT f = true /\ d = []
        end
  end.
Proof.
  intros Hf Hp Ho Hx Hun. destruct (pi_owned _ _ Hp k x Hx) as (Hk & -> & Hl).
  cbn [perform]. rewrite Ho. unfold open_path. cbn [known fst snd]. unfold file_at.
  destruct (names w !! path_of Meta k) as [[|i]|] eqn:E; [by destruct (fi_files w Hf Meta k Hk)|..].
  - destruct (wok_inodes w (fi_world w Hf) _ i E) as [n Hn]. rewrite Hn. cbn [fmap option_fmap option_map].
    destruct (O_CREAT f && O_EXCL f); [done|].
    set (w1 := if O_TRUNC f then _ else _). set (d := if O_TRUNC f then [] else data n).
    assert (effect w g w1 (set_key g k (present w (path_of Dmp k), Some d))) as He.
    { subst w1 d. destruct (O_TRUNC f); [by apply (sound_set_meta k (known w k))|].
      rewrite set_key_same; [by apply effect_refl|]. rewrite Hx. unfold known, file_at. by rewrite E, Hn. }
    destruct (effect_track w g w1 _ k i He) as [He' Hh]; try done.
    + cbn. rewrite lookup_insert_eq. by eexists.
    + by subst w1; destruct (O_TRUNC f).
    + destruct (new_handle (Some i) w1) as [fd w']. cbn [fst snd] in *. split; [done|]. by exists d.
  - assert (parent_exists w (path_of Meta k) = true) as ->.
    { unfold parent_exists. unfold path_of. rewrite parent_name_path.
      - unfold directory_exists. destruct (dir_path k.1) eqn:Ed; [done|]. rewrite <-Ed.
        apply bool_decide_eq_true, (fi_dirs w Hf).
      - rewrite elem_of_app. intros [?|Hin]; [done|]. by apply (bool_decide_eq_true_1 (kSeparator ∉ kMetadataExtension)) in Hin. }
    rewrite andb_true_r. destruct (O_CREAT f); [|done].
    set (i := fresh (dom (inodes w))). assert (i ∉ dom (inodes w)) as Hi by apply is_fresh.
    set (w1 := set_inode i _ _ _).
    destruct (files_new w Meta k i [] (now o) Hf E Hi Hk) as (Hf1 & Hd & Hfr & Hq & Hj). fold w1 in Hf1, Hd, Hfr, Hq, Hj.
    assert (effect w g w1 (set_key g k (present w (path_of Dmp k), Some []))) as He.
    { apply (effect_change w g w1 _ k); try done.
      - intros k' Hk'. cbn. by apply lookup_insert_ne.
      - cbn [g_keys set_key]. rewrite lookup_insert_eq. split; [|by rewrite Hq by (by intros [? _]%path_of_inj)].
        unfold known, present, file_at. rewrite Hq by (by intros [? _]%path_of_inj). cbn. by rewrite !lookup_insert_eq.
      - intros En. by rewrite Hx in En.
      - intros j. cbn. rewrite lookup_insert_eq. intros [= <-]. by right.
      - unfold present. by rewrite Hq by (by intros [? _]%path_of_inj). }
    destruct (effect_track w g w1 _ k i He) as [He' Hh]; try done.
    + cbn. rewrite lookup_insert_eq. by eexists.
    + cbn. by rewrite lookup_insert_eq.
    + destruct (new_handle (Some i) w1) as [fd w']. cbn [fst snd] in *. split; [done|]. by exists [].
Qed.

(** A report that is owned, and its metadata. *)
Lemma owned_meta w g k b d :
  files_inv w -> process_inv w g -> g_keys g !! k = Some (b, Some d) ->
  key_ok k /\ exists i n, names w !! path_of Meta k = Some (Regular i) /\ inodes w !! i = Some n /\ data n = d.
Proof.
  intros Hf Hp Hx. destruct (pi_owned _ _ Hp k _ Hx) as (Hk & E & _). split; [done|].
  unfold known, file_at in E. destruct (names w !! path_of Meta k) as [[|i]|]; [done| |done].
  destruct (inodes w !! i) as [n|] eqn:En; [|done]. cbn in E. exists i, n. by simplify_eq.
Qed.

Lemma tracked_handle w g fd k pos b d :
  files_inv w -> process_inv w g -> g_handles g !! fd = Some (k, pos) -> g_keys g !! k = Some (b, Some d) ->
  exists i n, handle_file w fd = Some (i, n, pos) /\ names w !! path_of Meta k = Some (Regular i) /\ data n = d.
Proof.
  intros Hf Hp Hfd Hx. destruct (owned_meta w g k b d Hf Hp Hx) as (Hk & i & n & Hi & Hn & Hd).
  destruct (pi_handles _ _ Hp fd k pos Hfd) as [_ (j & Hj & Hj')]. rewrite Hi in Hj'. injection Hj' as <-.
  exists i, n. unfold handle_file. rewrite Hj. cbn. by rewrite Hn.
Qed.

(** A handle of metadata is moved. *)
Lemma process_track w g fd k i pos pos' :
  process_inv w g -> g_handles g !! fd = Some (k, pos) -> names w !! path_of Meta k = Some (Regular i) ->
  open_files w !! fd = Some (MkOpenFile (Some i) pos) ->
  process_inv (set_open_file fd (MkOpenFile (Some i) pos') w) (set_handle g fd (k, pos')).
Proof.
  intros [Ho Hh Ht Hop] Hfd Hi Hx. split; cbn.
  - done.
  - intros fd' k' q. rewrite lookup_insert_Some. intros [[<- [= <- <-]]|[Hne Hx']].
    + destruct (Hh fd k pos Hfd) as [Hs _]. split; [done|]. exists i. cbn. by rewrite lookup_insert_eq.
    + destruct (Hh fd' k' q Hx') as [Hs (j & Hj & Hn)]. split; [done|]. exists j. cbn. by rewrite lookup_insert_ne.
  - intros fd' j q k'. rewrite lookup_insert_Some. intros [[<- [= <- <-]]|[Hne Hx']] Hk' Hn.
    + destruct (Ht fd i pos k' Hx Hk' Hn) as [q' Eq]. rewrite Hfd in Eq. injection Eq as <- <-.
      exists pos'. by rewrite lookup_insert_eq.
    + destruct (Ht fd' j q k' Hx' Hk' Hn) as [q' Eq]. exists q'. by rewrite lookup_insert_ne.
  - intros fd' j q. rewrite lookup_insert_Some. intros [[<- [= <- <-]]|[Hne Hx']]; by eapply Hop.
Qed.

Lemma sound_read_tracked fd k pos b d count w g :
  files_inv w -> process_inv w g -> g_handles g !! fd = Some (k, pos) -> g_keys g !! k = Some (b, Some d) ->
  let r := match count with Some n => slice pos n d | None => drop pos d end in
  (read_handle fd count w).1 = Some r /\
  effect w g (read_handle fd count w).2 (set_handle g fd (k, (pos + length r)%nat)).
Proof.
  intros Hf Hp Hfd Hx r. destruct (tracked_handle w g fd k pos b d Hf Hp Hfd Hx) as (i & n & Eh & Hi & Hd).
  unfold read_handle. rewrite Eh, Hd. cbn. split; [done|]. apply handle_file_Some in Eh as [Ho _].
  apply (effect_handles w g w g); [by apply effect_refl|done..|]. by eapply process_track.
Qed.

(** Writing to metadata through its handle. *)
Lemma sound_write_tracked o fd k pos b d buf w g :
  files_inv w -> process_inv w g -> g_handles g !! fd = Some (k, pos) -> g_keys g !! k = Some (b, Some d) ->
  effect w g (write_handle o fd buf w)
    (set_handle (set_key g k (b, Some (write_at pos buf d))) fd (k, (pos + length buf)%nat)) /\
  handle_file w fd <> None.
Proof.
  intros Hf Hp Hfd Hx. destruct (tracked_handle w g fd k pos b d Hf Hp Hfd Hx) as (i & n & Eh & Hi & Hd).
  destruct (pi_owned _ _ Hp k _ Hx) as (Hk & Ekn & Hl). split; [|by rewrite Eh].
  unfold write_handle. rewrite Eh, Hd. apply handle_file_Some in Eh as [Ho _].
  set (w1 := set_inode i _ _ w). set (g1 := set_key g k _).
  assert (frame w w1 (eq k)) as Hfr.
  { apply (frame_name w w1 Meta k); [done|done|]. intros k' j Hk' Hne Hj. cbn. apply lookup_insert_ne. intros <-.
    assert (path_of Meta k = path_of Meta k') as E by (by eapply (wok_unlinked w (fi_world w Hf))).
    by apply path_of_inj in E as [_ ->]. }
  assert (known w1 k = (b, Some (write_at pos buf d))) as Ek.
  { unfold known, present, file_at in *. cbn. rewrite Hi, lookup_insert_eq. cbn. by simplify_eq. }
  assert (process_inv w1 g1) as Hp1.
  { destruct Hp as [H1 H2 H3 H4]. split; cbn; [|..|by intros; apply dom_set_inode; eapply H4].
    - intros k' x. rewrite lookup_insert_Some. intros [[<- <-]|[Hne Hx']]; [by rewrite Ek|].
      destruct (H1 k' x Hx') as (Hk' & -> & Hl'). split_and!; [done| |done].
      symmetry. apply (frame_known w w1 (eq k)); [done|done|congruence].
    - intros fd' k' q Hq. destruct (H2 fd' k' q Hq) as [Hs Ho']. split; [|done].
      apply lookup_insert_is_Some'. by right.
    - done. }
  apply (effect_intro w g _ _ (eq k)).
  - apply (files_same w1); [done..|]. by apply files_set_inode.
  - by apply (process_track w1 g1 fd k i pos).
  - cbn. rewrite dom_insert. set_solver.
  - exact Hfr.
  - intros ? <-. left. by eexists.
  - intros k' Hne. cbn. apply lookup_insert_ne. congruence.
  - intros ? <- E. by rewrite Hx in E.
  - intros ? <-. cbn. by rewrite lookup_insert_eq.
  - intros ? j <- Hj. by left.
  - intros b' n' -> _ Hpr. by exists b'.
Qed.

Lemma sound_open_dmp o k f w g x :
  files_inv w -> process_inv w g -> fate o = Works -> g_keys g !! k = Some x ->
  O_CREAT f = false -> O_TRUNC f = false ->
  match perform (sys_open (path_of Dmp k) f) o w with
  | (None, w') => w' = w /\ x.1 = false
  | (Some fd, w') => effect w g w' g /\ g_handles g !! fd = None /\ x.1 = true
  end.
Proof.
  intros Hf Hp Ho Hx Hc Ht. destruct (pi_owned _ _ Hp k x Hx) as (Hk & -> & _).
  cbn [perform]. rewrite Ho. unfold open_path. rewrite Hc, Ht. cbn [andb known fst]. unfold present.
  destruct (names w !! path_of Dmp k) as [[|i]|] eqn:E; [by destruct (fi_files w Hf Dmp k Hk)| |done].
  destruct (new_handle (Some i) w) as [fd w'] eqn:En.
  destruct (effect_open w g w (Some i)) as [He Hh]; try done.
  - intros j [= <-]. split; [apply elem_of_dom; by eapply (wok_inodes w (fi_world w Hf))|].
    intros k' Hk'. eapply meta_inode; [apply Hf|done|]. by intros [? _]%path_of_inj.
  - by rewrite En in *.
Qed.

Definition renamed (old new : bytes) (i : nat) (w : World) : World :=
  set_names (fun m => <[new := Regular i]> (delete old m)) w.

Lemma files_rename w old new i :
  files_inv w -> names w !! old = Some (Regular i) -> names w !! new <> Some Directory ->
  files_inv (renamed old new i w).
Proof.
  intros [Hw Hd Hf] Ho Hn. split; cbn.
  - apply (view_rename w old new (default [] (data <$> inodes w !! i))); [done| |done].
    by rewrite view_lookup, Ho.
  - intros b. rewrite lookup_insert_ne, lookup_delete_ne; [done|..]; intros ->; rewrite Hd in *; done.
  - intros kd k Hk. rewrite lookup_insert_Some, lookup_delete_Some. intros [[_ ?]|[_ [_ ?]]]; [done|].
    by apply (Hf kd k Hk).
Qed.

Lemma rename_path_cases old new w :
  (rename_path old new w = (false, w) /\
   forall i, names w !! old = Some (Regular i) -> names w !! new = None -> parent_exists w new = false) \/
  exists i, names w !! old = Some (Regular i) /\ names w !! new <> Some Directory /\
    rename_path old new w = (true, renamed old new i w).
Proof.
  unfold rename_path. destruct (names w !! old) as [[|i]|]; [by left|..|by left].
  destruct (names w !! new) as [[|j]|]; [left; split; [done|]; by intros|..].
  - right. by exists i.
  - destruct (parent_exists w new); [right; by exists i|by left].
Qed.

Lemma sound_rename_foreign old new i w g :
  files_inv w -> process_inv w g -> classify old = None -> classify new = None ->
  names w !! old = Some (Regular i) -> names w !! new <> Some Directory ->
  effect w g (renamed old new i w) g.
Proof.
  intros Hf Hp Ho Hn Hi Hd.
  assert (frame w (renamed old new i w) (fun _ => False)) as Hfr.
  { intros k Hk _. split; [|done]. intros kd. cbn.
    rewrite lookup_insert_ne, lookup_delete_ne; [done|..]; by apply not_eq_sym, unclassified. }
  apply effect_frame; [by apply files_rename| |done|done|done].
  apply (process_frame w g); [done..| |].
  - intros fd j pos Hx. left. by eexists.
  - intros fd j pos Hx. by eapply (pi_open _ _ Hp).
Qed.

(** The metadata and the lock of a report after a report file was renamed. *)
Lemma renamed_other old new i w kd k :
  path_of kd k <> old -> path_of kd k <> new ->
  names (renamed old new i w) !! path_of kd k = names w !! path_of kd k.
Proof. intros H1 H2. cbn. by rewrite lookup_insert_ne, lookup_delete_ne by done. Qed.

Lemma sound_rename_new old k i x w g :
  files_inv w -> process_inv w g -> classify old = None -> g_keys g !! k = Some x -> unhandled g k ->
  names w !! old = Some (Regular i) -> names w !! path_of Dmp k <> Some Directory ->
  effect w g (renamed old (path_of Dmp k) i w) (set_key g k (true, x.2)).
Proof.
  intros Hf Hp Ho Hx Hun Hi Hd. destruct (pi_owned _ _ Hp k x Hx) as (Hk & -> & Hl).
  assert (forall kd k', key_ok k' -> (kd, k') <> (Dmp, k) ->
    names (renamed old (path_of Dmp k) i w) !! path_of kd k' = names w !! path_of kd k') as Hn.
  { intros kd k' Hk' Hne. apply renamed_other; [by apply unclassified|].
    intros [-> ->]%path_of_inj; done. }
  apply (effect_change w g _ _ k); try done.
  - by apply files_rename.
  - intros k' Hk' Hne. split; [|done]. intros kd. apply Hn; [done|congruence].
  - intros k' Hk'. cbn. by apply lookup_insert_ne.
  - cbn [g_keys set_key]. rewrite lookup_insert_eq, Hn by done. split; [|done]. unfold known, present, file_at.
    rewrite (Hn Meta) by done. cbn. by rewrite lookup_insert_eq.
  - intros E. by rewrite Hx in E.
  - intros j. rewrite Hn by done. by left.
  - intros _. unfold present. cbn. by rewrite lookup_insert_eq.
Qed.

Lemma sound_rename_dmp k k' i x y w g :
  files_inv w -> process_inv w g -> g_keys g !! k = Some x -> g_keys g !! k' = Some y ->
  k.2 = k'.2 -> k <> k' -> unhandled g k -> unhandled g k' ->
  names w !! path_of Dmp k = Some (Regular i) ->
  effect w g (renamed (path_of Dmp k) (path_of Dmp k') i w) (set_key (set_key g k (false, x.2)) k' (true, y.2)).
Proof.
  intros Hf Hp Hx Hy Hs Hne Hun Hun' Hi. destruct (pi_owned _ _ Hp k x Hx) as (Hk & -> & Hl).
  destruct (pi_owned _ _ Hp k' y Hy) as (Hk' & -> & Hl').
  set (w' := renamed _ _ _ _). set (g1 := set_key g k _). set (g' := set_key g1 k' _).
  assert (forall kd q, key_ok q -> kd <> Dmp \/ (q <> k /\ q <> k') -> names w' !! path_of kd q = names w !! path_of kd q) as Hn.
  { intros kd q Hq Hne'. apply renamed_other; intros [-> ->]%path_of_inj; try done; naive_solver. }
  assert (forall q, key_ok q -> known w' q = (present w' (path_of Dmp q), file_at w (path_of Meta q))) as Hkn.
  { intros q Hq. unfold known, file_at. rewrite (Hn Meta) by auto. done. }
  assert (present w' (path_of Dmp k) = false) as Epk.
  { unfold present. cbn. rewrite lookup_insert_ne, lookup_delete_eq; [done|]. by intros [_ ->]%path_of_inj. }
  assert (present w' (path_of Dmp k') = true) as Epk' by (unfold present; cbn; by rewrite lookup_insert_eq).
  set (D := fun q => q = k \/ q = k').
  assert (frame w w' D) as Hfr.
  { intros q Hq Hnd. split; [|done]. intros kd. apply Hn; [done|]. unfold D in Hnd. naive_solver. }
  assert (forall q, ~ D q -> g_keys g' !! q = g_keys g !! q) as Hkeys.
  { intros q Hq. cbn. unfold D in Hq. rewrite !lookup_insert_ne by naive_solver. done. }
  assert (g_keys g' !! k = Some (false, file_at w (path_of Meta k))) as Egk.
  { cbn. by rewrite lookup_insert_ne, lookup_insert_eq. }
  assert (g_keys g' !! k' = Some (true, file_at w (path_of Meta k'))) as Egk' by (cbn; by rewrite lookup_insert_eq).
  apply (effect_intro w g w' g' D); [apply files_rename; [done..|by apply (fi_files w Hf)]| |done|done|..].
  - destruct Hp as [H1 H2 H3 H4]. split; [| |intros fd j pos q Ho Hq; rewrite Hn by auto; by eapply H3|done].
    + intros q z Hz. destruct (decide (D q)) as [[-> | ->]|Hnd].
      * rewrite Egk in Hz. injection Hz as <-. rewrite Hn, Hkn, Epk by auto. done.
      * rewrite Egk' in Hz. injection Hz as <-. rewrite Hn, Hkn, Epk' by auto. done.
      * rewrite Hkeys in Hz by done. destruct (H1 q z Hz) as (Hq & -> & Hlq). rewrite Hn by auto.
        split_and!; [done| |done]. symmetry. by apply (frame_known w w' D).
    + intros fd q pos Hq. destruct (H2 fd q pos Hq) as [[z Hz] (j & Hj & Hnj)].
      destruct (H1 q z Hz) as (Hkq & _). split; [|exists j; by rewrite Hn by auto].
      rewrite Hkeys; [by eexists|]. intros [-> | ->]; [by eapply Hun|by eapply Hun'].
  - intros q [-> | ->]; left; by eexists.
  - done.
  - intros q [-> | ->] E; [by rewrite Hx in E|by rewrite Hy in E].
  - intros q [-> | ->] E; [by rewrite Egk in E|by rewrite Egk' in E].
  - intros q j Hq Hj. left. rewrite Hn in Hj; [done| |by auto]. by destruct Hq as [-> | ->].
  - intros b n Hd Hnn _. exists k'.1. replace n with k'.2; [by destruct k'|].
    unfold D in Hd. destruct Hd as [<-|<-]; [done|done].
Qed.

(** Names that are not of reports. *)
Lemma sound_names f w g :
  files_inv w -> process_inv w g -> files_inv (set_names f w) ->
  (forall kd k, key_ok k -> f (names w) !! path_of kd k = names w !! path_of kd k) ->
  effect w g (set_names f w) g.
Proof.
  intros Hf Hp Hf' Hn.
  assert (frame w (set_names f w) (fun _ => False)) as Hfr by (intros k Hk _; split; [|done]; intros kd; by apply Hn).
  apply effect_frame; [done| |done|done|done]. apply (process_frame w g); [done..| |].
  - intros fd j pos Hx. left. by eexists.
  - intros fd j pos Hx. by eapply (pi_open _ _ Hp).
Qed.

Lemma sound_delete p w g :
  files_inv w -> process_inv w g -> classify p = None -> (forall b, p <> dir_path b) ->
  effect w g (set_names (delete p) w) g.
Proof.
  intros Hf Hp Hc Hd. apply sound_names; [done|done|by apply files_delete|].
  intros kd k Hk. apply lookup_delete_ne. by apply not_eq_sym, unclassified.
Qed.

Lemma sound_mkdir p w g :
  files_inv w -> process_inv w g -> classify p = None -> names w !! p = None ->
  effect w g (set_names (<[p := Directory]>) w) g.
Proof.
  intros Hf Hp Hc Hn.
  assert (forall kd k, key_ok k -> <[p := Directory]> (names w) !! path_of kd k = names w !! path_of kd k) as Hnames.
  { intros kd k Hk. apply lookup_insert_ne. by apply not_eq_sym, unclassified. }
  apply sound_names; [done|done| |done]. destruct Hf as [[Hi Hu] Hd Hfi]. split; [split|..]; cbn.
  - intros q i. rewrite lookup_insert_Some. intros [[_ ?]|[_ Hq]]; [done|by eapply Hi].
  - intros q1 q2 i. rewrite !lookup_insert_Some. intros [[_ ?]|[_ H1]] [[_ ?]|[_ H2]]; try done. by eapply Hu.
  - intros b. rewrite lookup_insert_Some. destruct (decide (p = dir_path b)); [by left|by right].
  - intros kd k Hk. rewrite Hnames by done. by apply Hfi.
Qed.

Ltac unchanged := eexists; split; [|by apply effect_refl]; eauto.

Lemma sound_sys_open o p f w g K :
  files_inv w -> process_inv w g -> fate o = Works ->
  (forall k, key_ok k -> names w !! path_of Lock k = None -> whole k (known w k)) ->
  open_ok p f g K ->
  exists g', K (perform (sys_open p f) o w).1 g' /\ effect w g (perform (sys_open p f) o w).2 g'.
Proof.
  intros Hf Hp Ho Hw Hok. unfold open_ok in Hok. destruct (classify p) as [[kd k]|] eqn:Ec.
  - apply classify_Some in Ec as [-> Hk]. destruct kd.
    + destruct Hok as (Hc & Ht & x & Hx & HK). pose proof (sound_open_dmp o k f w g x Hf Hp Ho Hx Hc Ht) as Hs.
      destruct (perform _ o w) as [[fd|] w']; cbn [fst snd].
      * destruct Hs as (He & Hh & E). rewrite E in HK. eauto.
      * destruct Hs as [-> E]. rewrite E in HK. unchanged.
    + destruct Hok as (x & Hx & Hun & HK). pose proof (sound_open_meta o k f w g x Hf Hp Ho Hx Hun) as Hs.
      destruct (perform _ o w) as [[fd|] w']; cbn [fst snd].
      * destruct Hs as (Hh & d & He & Hd). destruct x.2 as [d0|]; destruct Hd as [E ->]; rewrite E in HK; eauto.
      * destruct Hs as [-> E]. destruct x.2; rewrite E in HK; unchanged.
    + destruct Hok as (Hc & He & Hg & HN & HS). cbn [perform]. rewrite Ho. unfold open_path.
      destruct (names w !! path_of Lock k) as [[|i]|] eqn:En; [by destruct (fi_files w Hf Lock k Hk)|..].
      * rewrite Hc, He. unchanged.
      * rewrite Hc. destruct (parent_exists w _); [|unchanged]. cbn [andb].
        destruct (sound_lock k w g (now o) Hf Hp Hk En) as [Heff Hh]. set (i := fresh _) in *.
        destruct (new_handle (Some i) _) as [fd w']. cbn [fst snd] in *. eauto.
  - destruct Hok as [HN HS]. pose proof (sound_open_foreign o p f w g Hf Hp Ho Ec) as Hs.
    destruct (perform _ o w) as [[fd|] w']; cbn [fst snd].
    + destruct Hs as [He Hh]. eauto.
    + subst w'. unchanged.
Qed.

Lemma parent_of_report w kd k : files_inv w -> key_ok k -> parent_exists w (path_of kd k) = true.
Proof.
  intros Hf Hk. unfold parent_exists, path_of. rewrite parent_name_path.
  - unfold directory_exists. destruct (dir_path k.1) eqn:Ed; [done|]. rewrite <-Ed.
    apply bool_decide_eq_true, (fi_dirs w Hf).
  - destruct (extension_plain kd) as (e & -> & _ & _ & He). rewrite elem_of_app, elem_of_cons. by intros [?|[?|?]].
Qed.

Lemma sound_sys_rename old new w g K :
  files_inv w -> process_inv w g -> rename_ok old new g K ->
  exists g', K (rename_path old new w).1 g' /\ effect w g (rename_path old new w).2 g'.
Proof.
  intros Hf Hp Hok. unfold rename_ok in Hok.
  destruct (classify old) as [[[| |] k]|] eqn:Eo; [|done|done|]; destruct (classify new) as [[[| |] k']|] eqn:En; try done.
  - apply classify_Some in Eo as [-> Hk], En as [-> Hk']. destruct Hok as (x & y & Hx & Hy & Hs & Hne & Hun & Hun' & HK).
    destruct (pi_owned _ _ Hp k _ Hx) as (_ & Ek & _). unfold known, present in Ek. simplify_eq.
    destruct (names w !! path_of Dmp k) as [[|i]|] eqn:Ei; try done.
    destruct (rename_path_cases (path_of Dmp k) (path_of Dmp k') w) as [[E Hno]|(j & Ej & Hd & E)].
    + exfalso. unfold rename_path in E. rewrite Ei in E.
      destruct (names w !! path_of Dmp k') as [[|j]|] eqn:E'; [by destruct (fi_files w Hf Dmp k')|done|].
      by rewrite parent_of_report in E.
    + rewrite E. cbn [fst snd]. rewrite Ei in Ej. injection Ej as <-. eexists. split; [exact HK|].
      by apply (sound_rename_dmp k k' i _ y w g Hf Hp Hx).
  - apply classify_Some in En as [-> Hk']. destruct Hok as (x & Hx & Hun & HF & HT).
    destruct (rename_path_cases old (path_of Dmp k') w) as [[E _]|(i & Ei & Hd & E)]; rewrite E; cbn [fst snd].
    + unchanged.
    + eexists. split; [exact HT|]. by apply sound_rename_new.
  - destruct (rename_path_cases old new w) as [[E _]|(i & Ei & Hd & E)]; rewrite E; cbn [fst snd].
    + unchanged.
    + eexists. split; [apply Hok|]. by apply sound_rename_foreign.
Qed.

Lemma sound_sys_unlink o p w g K :
  files_inv w -> process_inv w g -> fate o = Works -> unlink_ok p g K ->
  exists g', K (perform (sys_unlink p) o w).1 g' /\ effect w g (perform (sys_unlink p) o w).2 g'.
Proof.
  intros Hf Hp Ho Hok. unfold unlink_ok in Hok. cbn [perform]. rewrite Ho.
  destruct (classify p) as [[[| |] k]|] eqn:Ec.
  - apply classify_Some in Ec as [-> Hk]. destruct Hok as (x & Hx & E1 & HK).
    pose proof (pi_owned _ _ Hp k x Hx) as (_ & -> & _). unfold known, present in E1. cbn [fst] in E1.
    destruct (names w !! path_of Dmp k) as [[|i]|] eqn:En; [unchanged|done|unchanged].
  - apply classify_Some in Ec as [-> Hk]. destruct Hok as (x & Hx & Hun & HK).
    pose proof (pi_owned _ _ Hp k x Hx) as (_ & Ek & _).
    destruct (names w !! path_of Meta k) as [[|i]|] eqn:En; [by destruct (fi_files w Hf Meta k Hk)|..].
    + destruct (wok_inodes w (fi_world w Hf) _ i En) as [n Hn].
      rewrite Ek in HK. unfold known, file_at in HK. cbn [snd] in HK. rewrite En, Hn in HK. cbn in HK.
      cbn [fst snd]. eexists. split; [|by apply sound_unlink_meta]. by rewrite Ek.
    + rewrite Ek in HK. unfold known, file_at in HK. cbn [snd] in HK. rewrite En in HK. unchanged.
  - apply classify_Some in Ec as [-> Hk]. destruct Hok as (x & Hx & Hwh & Hun & HK).
    pose proof (pi_owned _ _ Hp k x Hx) as (_ & _ & [n Hn]). rewrite Hn.
    destruct n as [|i]; [by destruct (fi_files w Hf Lock k Hk)|]. cbn [fst snd].
    eexists. split; [exact HK|]. by eapply sound_unlink_lock.
  - destruct (names w !! p) as [[|i]|] eqn:En; cbn [fst snd]; [unchanged| |unchanged].
    eexists. split; [apply Hok|]. apply sound_delete; [done..|]. intros b ->. by rewrite (fi_dirs w Hf) in En.
Qed.

Lemma children_names w p : Forall is_name (children w p).
Proof. apply Forall_forall. intros f Hf. by apply (proj2 (children_spec w p)) in Hf as [_ ?]. Qed.

Lemma sound_sys_lstat p w g (K : option Stat -> Ghost -> Prop) :
  files_inv w -> process_inv w g ->
  match classify p with
  | Some (Dmp, k) =>
      exists x : Owned, g_keys g !! k = Some x /\
        if x.1 then forall size time, K (Some (MkStat false size time)) g else K None g
  | _ => forall r, K r g
  end -> K (lstat_path p w) g.
Proof.
  intros Hf Hp Hok. destruct (classify p) as [[[| |] k]|] eqn:Ec; try apply Hok.
  apply classify_Some in Ec as [-> Hk]. destruct Hok as (x & Hx & HK).
  pose proof (pi_owned _ _ Hp k x Hx) as (_ & -> & _). unfold known, present in HK. cbn [fst] in HK. unfold lstat_path.
  destruct (names w !! path_of Dmp k) as [[|i]|] eqn:En; [by destruct (fi_files w Hf Dmp k Hk)| |done].
  destruct (wok_inodes w (fi_world w Hf) _ i En) as [n Hn]. rewrite Hn. cbn. apply HK.
Qed.

(** A call that is allowed changes only what the process owns, and the process then
    knows what its result says. *)
Lemma perform_sound {R} (c : syscall R) o w g K :
  files_inv w -> process_inv w g -> works o ->
  (forall k, key_ok k -> names w !! path_of Lock k = None -> whole k (known w k)) ->
  step_ok c g K ->
  exists g', K (perform c o w).1 g' /\ effect w g (perform c o w).2 g'.
Proof.
  intros Hf Hp (Ho & _ & Hrl & Hrb) Hw Hok. destruct c; cbn [step_ok] in Hok.
  - by apply sound_sys_open.
  - eexists. split; [exact Hok|]. by apply sound_close.
  - cbn [perform]. rewrite Ho. destruct (g_handles g !! fd) as [[k pos]|] eqn:Eh.
    + destruct Hok as (x & d & Hx & HK). destruct (sound_read_tracked fd k pos x d count w g Hf Hp Eh Hx) as [E He].
      rewrite E. eauto.
    + eexists. split; [apply Hok|]. by apply sound_read_untracked.
  - cbn [perform]. rewrite Ho. destruct (g_handles g !! fd) as [[k pos]|] eqn:Eh.
    + destruct Hok as (x & d & Hx & HK). destruct (sound_write_tracked o fd k pos x d buf w g Hf Hp Eh Hx) as [He Hne].
      destruct (handle_file w fd); [|done]. cbn [fst snd]. eauto.
    + destruct (handle_file w fd); cbn [fst snd]; [|unchanged].
      eexists. split; [apply Hok|]. by apply sound_write_untracked.
  - destruct Hok as [Hg HK]. cbn [perform]. rewrite Ho. destruct (open_files w !! fd) as [x|] eqn:E; cbn [fst snd]; [|unchanged].
    eexists. split; [apply HK|]. by apply sound_move.
  - destruct Hok as [Hg HK]. cbn [perform]. rewrite Ho. destruct (open_files w !! fd); cbn [fst snd]; unchanged.
  - destruct Hok as [Hg HK]. cbn [perform]. rewrite Ho.
    destruct (handle_file w fd) as [[[i n] pos]|] eqn:E; cbn [fst snd]; [|unchanged].
    apply handle_file_Some in E as [Hx _]. eexists. split; [apply HK|].
    by apply (sound_move fd (MkOpenFile (Some i) pos)).
  - destruct Hok as [Hg HK]. cbn [perform]. rewrite Ho.
    destruct (handle_file w fd) as [[[i n] pos]|] eqn:E; cbn [fst snd]; [|unchanged].
    eexists. split; [apply HK|]. apply sound_set_inode; [done|done|]. by eapply untracked_inode.
  - cbn [perform]. rewrite Ho. unchanged.
  - cbn [perform]. rewrite Ho. cbn [fst snd]. eexists. split; [by apply sound_sys_lstat|by apply effect_refl].
  - cbn [perform]. rewrite Ho. by apply sound_sys_rename.
  - by apply sound_sys_unlink.
  - destruct Hok as [Hc HK]. cbn [perform]. rewrite Ho. destruct (names w !! path) eqn:En; [unchanged|].
    destruct (parent_exists w path); cbn [fst snd]; [|unchanged]. eexists. split; [apply HK|]. by apply sound_mkdir.
  - destruct Hok as (Hc & Hd & HK). cbn [perform]. rewrite Ho.
    destruct (names w !! path) as [[|i]|]; [|unchanged..]. destruct (children w path); [|unchanged].
    cbn [fst snd]. eexists. split; [apply HK|]. by apply sound_delete.
  - destruct Hok as [HN HS]. cbn [perform]. rewrite Ho. case_bool_decide; cbn [fst snd]; [|unchanged].
    eexists. split; [|by apply effect_refl]. apply HS, children_names.
  - unchanged.
  - cbn [perform]. rewrite Ho. unchanged.
Qed.

(** ** Processes that follow the discipline *)

(** Each process has the knowledge it needs for the rest of its program, and ends with
    no lock. *)
Definition pool_world (s : Pool) : World := MkWorld (pool_names s) (pool_inodes s) ∅.
Definition done_with (_ : unit) (g : Ghost) : Prop := g_keys g = ∅.
Definition disciplined (s : Pool) (gs : list Ghost) : Prop :=
  length gs = length (processes s) /\
  inv (pool_world s) (zip (processes s).*1 gs) /\
  forall i files p g, processes s !! i = Some (files, p) -> gs !! i = Some g -> cwp p g done_with.

Lemma zip_lookup {A B} (l : list A) (k : list B) i x y :
  l !! i = Some x -> k !! i = Some y -> zip l k !! i = Some (x, y).
Proof. intros H1 H2. by rewrite lookup_zip_with, H1, H2. Qed.

Lemma zip_insert {A B} (l : list A) (k : list B) i x y :
  (i < length l)%nat -> (i < length k)%nat -> <[i := (x, y)]> (zip l k) = zip (<[i := x]> l) (<[i := y]> k).
Proof.
  revert k i. induction l as [|a l IH]; intros [|b k] [|i]; simpl; intros; try lia; [done|].
  f_equal. apply IH; lia.
Qed.

Lemma pool_step_disciplined n o s s' gs :
  disciplined s gs -> works o -> pool_step n o s = Some s' ->
  exists gs', disciplined s' gs' /\
    forall m, kSeparator ∉ m -> stored (pool_world s) m -> stored (pool_world s') m.
Proof.
  intros (Hl & Hinv & Hp) Ho Hs. unfold pool_step in Hs.
  destruct (processes s !! n) as [[files [|R c k|]]|] eqn:En; try done.
  destruct (lookup_lt_is_Some_2 gs n) as [g Eg]; [rewrite Hl; by eapply lookup_lt_Some|].
  set (w := MkWorld (pool_names s) (pool_inodes s) files) in *.
  assert (zip (processes s).*1 gs !! n = Some (files, g)) as Hn.
  { apply zip_lookup; [|done]. by rewrite list_lookup_fmap, En. }
  pose proof (inv_process _ _ Hinv n files g Hn) as Hpi. change (with_files _ files) with w in Hpi.
  assert (files_inv w) as Hf by (apply (files_same (pool_world s)); [done..|apply Hinv]).
  pose proof (Hp n files _ g En Eg) as Hc. cbn [cwp] in Hc.
  assert (forall k, key_ok k -> names w !! path_of Lock k = None -> whole k (known w k)) as Hfree.
  { intros k' Hk' Hnone. apply (inv_whole _ _ Hinv k' Hk'). intros j [fj gj] Ej. apply eq_None_not_Some.
    intros [x Hx]. pose proof (inv_process _ _ Hinv j fj gj Ej) as Hpj.
    destruct (pi_owned _ _ Hpj k' x Hx) as (_ & _ & Hlk). cbn in Hlk, Hnone. rewrite Hnone in Hlk. by destruct Hlk. }
  destruct (perform_sound c o w g _ Hf Hpi Ho Hfree Hc) as (g' & HK & He).
  destruct (perform c o w) as [r w'] eqn:Ew. cbn [fst snd] in *. injection Hs as <-.
  pose proof (inv_step _ _ n files g w' g' Hinv Hn He) as Hinv'.
  exists (<[n := g']> gs). split; [|intros m Hm; apply (ef_kept _ _ _ _ He m Hm)].
  split; [|split]; cbn [processes pool_world pool_names pool_inodes].
  - by rewrite !length_insert.
  - rewrite list_fmap_insert. cbn [fst]. rewrite <-zip_insert.
    + destruct Hinv' as [I1 I2 I3 I4]. split; [|done..]. by apply (files_same w').
    + rewrite length_fmap. by eapply lookup_lt_Some.
    + by eapply lookup_lt_Some.
  - intros j fj pj gj Ej Egj. destruct (decide (j = n)) as [->|Hne].
    + rewrite list_lookup_insert_eq in Ej by (by eapply lookup_lt_Some).
      rewrite list_lookup_insert_eq in Egj by (by eapply lookup_lt_Some). by simplify_eq.
    + rewrite list_lookup_insert_ne in Ej by done. rewrite list_lookup_insert_ne in Egj by done. by eapply Hp.
Qed.

Lemma pool_run_disciplined schedule s s' gs :
  disciplined s gs -> Forall (fun x => works x.2) schedule -> pool_run schedule s = Some s' ->
  (exists gs', disciplined s' gs') /\
  forall m, kSeparator ∉ m -> stored (pool_world s) m -> stored (pool_world s') m.
Proof.
  intros Hd Hw. revert s gs Hd. induction Hw as [|[n o] l Ho _ IH]; intros s gs Hd; cbn.
  - intros [= <-]. eauto.
  - destruct (pool_step n o s) as [s1|] eqn:E; [|done]. cbn. intros Hr.
    destruct (pool_step_disciplined n o s s1 gs Hd Ho E) as (gs1 & Hd1 & Hk1).
    destruct (IH s1 gs1 Hd1 Hr) as [Hex Hk2]. split; [done|]. eauto.
Qed.

End Files.
