(* ===== verification/DatabaseConcurrency.v ===== *)
(** * Operations on a database at the same time

    The operations of CrashReportDatabase.v, in the discipline of DatabaseLogic.v: any
    number of processes may create, list, look up, skip and upload reports at the same
    time and no report is lost.  [RequestUpload] of a completed report, and an upload
    that is given up, do not follow the discipline: executions are given in which they
    and [GetPendingReports], in another process, remove a report. *)

From S2P Require Import Prelude.
From S2P Require Import Structs.
From S2P Require Import FileIO.
From S2P Require Import Uuid.
From S2P Require Import FileSystem.
From S2P Require Import Settings.
From S2P Require Import CrashReportDatabase.
From S2P Require Import DatabaseLogic.
#[local] Open Scope crashpad_scope.

(** A process that owns the reports [m], and has no handle of metadata. *)
Definition held (m : gmap (bool * bytes) (bool * option bytes)) : Ghost := MkGhost m ∅.

Section Programs.
  Context `{FilePathLaws}.
  Variable base : bytes.
  Hypothesis base_ok : is_directory_path base.

(** ** Programs that use no report *)

(** Calls that use no file of a report, and none of the handles [h]. *)
Definition foreign_call (h : gmap nat ((bool * bytes) * nat)) {R} (c : syscall R) : Prop :=
  match c with
  | sys_open p _ | sys_unlink p | sys_mkdir p | sys_lstat p => classify base p = None
  | sys_rename old new => classify base old = None /\ classify base new = None
  | sys_rmdir p => classify base p = None /\ forall b, p <> dir_path base b
  | sys_close fd | sys_read fd _ | sys_write fd _ | sys_lseek_set fd _ | sys_lseek_cur fd | sys_lseek_end fd | sys_ftruncate fd =>
      h !! fd = None
  | _ => True
  end.
Definition answer_ok {R} (c : syscall R) : R -> Prop :=
  match c in syscall R return R -> Prop with
  | sys_opendir _ => fun r => match r with Some l => Forall is_name l | None => True end
  | sys_random => fun r => match r with Some b => length b = 16%nat /\ Forall is_byte b | None => False end
  | _ => fun _ => True
  end.
Fixpoint foreign (h : gmap nat ((bool * bytes) * nat)) {A} (p : Prog A) : Prop :=
  match p with
  | Return _ | Stop => True
  | Call c k => foreign_call h c /\ forall r, answer_ok c r -> foreign h (k r)
  end.

Lemma foreign_step {R} (c : syscall R) g (K : R -> Ghost -> Prop) :
  foreign_call (g_handles g) c -> (forall r, answer_ok c r -> K r g) -> step_ok base c g K.
Proof.
  intros Hc HK. destruct c; cbn [step_ok foreign_call answer_ok] in *;
    unfold open_ok, rename_ok, unlink_ok; try (rewrite Hc); auto.
  - replace (drop_handle g fd) with g; [auto|]. destruct g. unfold drop_handle. cbn in *. by rewrite delete_id.
  - destruct Hc as [-> ->]. auto.
  - destruct Hc. auto.
Qed.

Lemma cwp_foreign {A} (p : Prog A) g (Q : A -> Ghost -> Prop) :
  foreign (g_handles g) p -> (forall a, Q a g) -> cwp base p g Q.
Proof.
  intros Hp HQ. induction p as [a|R c k IH|]; cbn [cwp foreign] in *; [done| |done].
  destruct Hp as [Hc Hk]. apply foreign_step; [done|]. auto.
Qed.

Lemma foreign_bind h {A B} (p : Prog A) (f : A -> Prog B) :
  foreign h p -> (forall a, foreign h (f a)) -> foreign h (prog_bind p f).
Proof.
  intros Hp Hf. induction p as [a|R c k IH|]; cbn [prog_bind foreign] in *; [done| |done].
  destruct Hp as [Hc Hk]. auto.
Qed.

Lemma foreign_foldM h {A S} (f : S -> A -> Prog S) (P : A -> Prop) l s :
  Forall P l -> (forall s x, P x -> foreign h (f s x)) -> foreign h (foldM f l s).
Proof.
  intros Hl Hf. revert s. induction Hl as [|x l Hx _ IH]; intros s; cbn [foldM]; [done|].
  apply foreign_bind; [by apply Hf|done].
Qed.

(** Two programs, one after the other. *)
Lemma cwp_foreign_bind {A B} (p : Prog A) (f : A -> Prog B) g Q :
  foreign (g_handles g) p -> (forall a, cwp base (f a) g Q) -> cwp base (prog_bind p f) g Q.
Proof. intros Hp Hf. apply cwp_bind. by apply cwp_foreign. Qed.

Ltac foreign_auto :=
  repeat first
    [ done | apply foreign_bind | progress intros
    | progress cbn [foreign foreign_call answer_ok call dcheck]
    | match goal with |- foreign _ (match ?x with _ => _ end) => destruct x end
    | split | solve [eauto] ].

Lemma is_directory_foreign h p : classify base p = None -> foreign h (IsDirectory p).
Proof. intros Hp. unfold IsDirectory. foreign_auto. Qed.
Lemma get_file_size_foreign h p : classify base p = None -> foreign h (GetFileSize p).
Proof. intros Hp. unfold GetFileSize, IsRegularFile. foreign_auto. Qed.

(** Paths below another directory than those of the reports. *)
Definition outside (p : bytes) : Prop :=
  exists c r, p = base ++ kSeparator :: c :: r /\ c <> 112 /\ c <> 99 /\ is_directory_path p.
Lemma outside_classify p : outside p -> classify base p = None.
Proof. intros (c & r & -> & Hp & Hc & _). by apply classify_other. Qed.
Lemma is_directory_append d f : is_name f -> is_directory_path (d ++ kSeparator :: f).
Proof.
  intros [Hf Hs]. split_and!.
  - by destruct d.
  - destruct d as [|c [|? ?]]; [done| |done]. intros [= _ ?].
  - rewrite last_app_cons. intros Hl. destruct (exists_last Hf) as (f' & x & ->).
    rewrite last_cons, last_snoc in Hl. injection Hl as ->. apply Hs, elem_of_app. right. left.
Qed.
Lemma outside_append d f : outside d -> is_name f -> outside (Append d f).
Proof.
  intros (c & r & -> & Hp & Hc & Hd) Hf. rewrite append_path by done. exists c, (r ++ kSeparator :: f).
  split_and!; [by rewrite <-app_assoc|done|done|]. by apply is_directory_append.
Qed.
Lemma outside_top c r : is_name (c :: r) -> c <> 112 -> c <> 99 -> outside (Append base (c :: r)).
Proof.
  intros Hn Hp Hc. rewrite append_path by done. exists c, r. split_and!; [done..|]. by apply is_directory_append.
Qed.

Lemma get_directory_size_foreign h fuel d : outside d -> foreign h (GetDirectorySize_ fuel d).
Proof.
  revert d. induction fuel as [|fuel IH]; intros d Hd; cbn [GetDirectorySize_]; [done|].
  apply foreign_bind; [by apply is_directory_foreign, outside_classify|]. intros b. destruct (negb b); [done|].
  cbn [ReadDirectory call prog_bind foreign]. split; [done|]. intros [l|] Hl; [|done]. cbn [answer_ok] in Hl.
  apply (foreign_foldM h _ is_name); [done|]. intros size f Hf. pose proof (outside_append d f Hd Hf) as Ho.
  apply foreign_bind; [by apply is_directory_foreign, outside_classify|]. intros b'.
  apply foreign_bind; [|done]. destruct b'; [by apply IH|by apply get_file_size_foreign, outside_classify].
Qed.

(** ** The paths of reports *)

Lemma directory_name b : is_name (directory_of b).
Proof. destruct b; (split; [done|]); apply (bool_decide_unpack _); vm_compute; exact I. Qed.
Lemma append_directory b : Append base (directory_of b) = dir_path base b.
Proof. apply append_path; [done|apply directory_name]. Qed.
Lemma dir_path_ok b : is_directory_path (dir_path base b).
Proof. apply is_directory_append, directory_name. Qed.

Lemma extension_ok kd : is_extension (extension_of kd).
Proof. destruct (extension_plain kd) as (e & -> & He). by exists e. Qed.
Lemma file_name_ok kd s : kSeparator ∉ s -> is_name (s ++ extension_of kd).
Proof.
  intros Hs. destruct (extension_plain kd) as (e & -> & _ & _ & He). split; [by destruct s|].
  rewrite elem_of_app, elem_of_cons. by intros [?|[?|?]].
Qed.

Lemma to_string_key b u : key_ok (b, ToString u).
Proof.
  intros Hin. pose proof (to_string_chars u) as Hc. rewrite Forall_forall in Hc. by specialize (Hc _ Hin).
Qed.

Lemma remove_extension_path kd k :
  RemoveFinalExtension (path_of base kd k) = dir_path base k.1 ++ kSeparator :: k.2.
Proof.
  unfold path_of. replace (_ ++ _) with ((dir_path base k.1 ++ kSeparator :: k.2) ++ extension_of kd)
    by (by rewrite <-app_assoc).
  apply remove_final_extension_ends, extension_ok.
Qed.
Lemma replace_extension_path kd kd' k :
  ReplaceFinalExtension (path_of base kd k) (extension_of kd') = path_of base kd' k.
Proof. unfold ReplaceFinalExtension. rewrite remove_extension_path. unfold path_of. by rewrite <-app_assoc. Qed.
Lemma base_name_report kd k :
  key_ok k -> RemoveFinalExtension (BaseName (path_of base kd k)) = k.2.
Proof.
  intros Hk. unfold path_of. rewrite base_name_path by (by apply file_name_ok).
  apply remove_final_extension_ends, extension_ok.
Qed.

(** A file of a directory of reports that has the extension of a report. *)
Lemma listed_report b f :
  is_name f -> FinalExtension f = kCrashReportExtension ->
  exists s, (kSeparator ∉ s) /\ Append (dir_path base b) f = path_of base Dmp (b, s).
Proof.
  intros Hf He. rewrite append_path by (done || apply dir_path_ok).
  pose proof (remove_final_extension_path (dir_path base b) f Hf) as E. rewrite He in E.
  set (x := RemoveFinalExtension _) in E. clearbody x. destruct Hf as [_ Hf].
  change kCrashReportExtension with (extension_of Dmp) in E.
  destruct (extension_plain Dmp) as (e & Ee & _ & _ & Hes).
  apply app_eq_inv in E as [(k & -> & E)|(k & E1 & E)]; rewrite Ee in E.
  - destruct k as [|c k]; [by injection E|]. injection E as <- ->. exists k. split.
    + intros Hin. apply Hf, elem_of_app. by left.
    + unfold path_of. by rewrite Ee.
  - exfalso. destruct k as [|c k]; [by injection E|]. injection E as _ ->. apply Hes, elem_of_app. right. left.
Qed.

(** ** Locks and metadata *)

Lemma report_path_at db u (b : bool) :
  base_dir_ db = base ->
  ReportPath db u (if b then kCompleted else kPending) = Return (path_of base Dmp (b, ToString u)).
Proof.
  intros Hb. pose proof (file_name_ok Dmp (ToString u) (to_string_key b u)) as Hn.
  unfold ReportPath. destruct b; cbn [kReportDirectories]; f_equal; rewrite Hb.
  - change kCompletedDirectory with (directory_of true). rewrite append_directory. by rewrite append_path by (done || apply dir_path_ok).
  - change kPendingDirectory with (directory_of false). rewrite append_directory. by rewrite append_path by (done || apply dir_path_ok).
Qed.

(** A call of a program, with what is known of the files of reports. *)
Ltac at_call := unfold call; cbn [prog_bind cwp step_ok].

Lemma cwp_reset_acquire k m (Q : bool * option bytes -> Ghost -> Prop) :
  key_ok k -> m !! k = None -> Q (false, None) (held m) ->
  (forall ok x, whole k x -> Q (ok, Some (path_of base Lock k)) (held (<[k := x]> m))) ->
  cwp base (ResetAcquire (path_of base Dmp k)) (held m) Q.
Proof.
  intros Hk Hm HN HS. unfold ResetAcquire. rewrite remove_extension_path, <-app_assoc.
  change (dir_path base k.1 ++ _) with (path_of base Lock k).
  unfold OpenFileForOutput. at_call. unfold open_ok. rewrite classify_path by done. split_and!; [done..|].
  intros fd x _ Hx. at_call. intros t. unfold LoggingWriteFile, CloseFile. at_call. cbn [set_key g_handles held].
  rewrite lookup_empty. intros ok. at_call. unfold drop_handle. cbn [set_key g_handles g_keys held].
  rewrite delete_empty. by apply HS.
Qed.

Lemma cwp_release k x m (Q : unit -> Ghost -> Prop) :
  key_ok k -> m !! k = Some x -> whole k x -> Q tt (held (delete k m)) ->
  cwp base (ReleaseLock (Some (path_of base Lock k))) (held m) Q.
Proof.
  intros Hk Hm Hx HQ. unfold ReleaseLock, LoggingRemoveFile. at_call. unfold unlink_ok. rewrite classify_path by done.
  exists x. split_and!; [done|done|done|]. by cbn [cwp].
Qed.

(** A release of a lock that has been taken. *)
Lemma cwp_release_new k x m (Q : unit -> Ghost -> Prop) :
  key_ok k -> m !! k = None -> whole k x -> Q tt (held m) ->
  cwp base (ReleaseLock (Some (path_of base Lock k))) (held (<[k := x]> m)) Q.
Proof.
  intros Hk Hm Hx HQ. eapply cwp_release; [done|apply lookup_insert_eq|done|].
  by rewrite delete_insert_id by done.
Qed.

Lemma cwp_is_regular k x m (Q : bool -> Ghost -> Prop) :
  key_ok k -> m !! k = Some x -> Q x.1 (held m) ->
  cwp base (IsRegularFile (path_of base Dmp k)) (held m) Q.
Proof.
  intros Hk Hm HQ. unfold IsRegularFile. at_call. rewrite classify_path by done. exists x. split; [done|].
  by destruct x.1; intros.
Qed.

Lemma kAttachments_outside : outside (Append base kAttachmentsDirectory).
Proof. apply outside_top; [|done|done]. split; [done|]. apply (bool_decide_unpack _). vm_compute. exact I. Qed.
Lemma to_string_name u : is_name (ToString u).
Proof.
  split; [|apply (to_string_key true u)]. intros E. pose proof (length_to_string u) as Hl. by rewrite E in Hl.
Qed.
Lemma attachments_outside db u : base_dir_ db = base -> outside (AttachmentsPath db u).
Proof.
  intros Hb. unfold AttachmentsPath, AttachmentsRootPath. rewrite Hb.
  apply outside_append; [apply kAttachments_outside|apply to_string_name].
Qed.
Lemma outside_not_directory p b : outside p -> p <> dir_path base b.
Proof.
  intros (c & r & -> & Hp & Hc & _) E. unfold dir_path in E. apply app_inv_head in E. by destruct b; injection E.
Qed.

Lemma remove_attachments_foreign h db u : base_dir_ db = base -> foreign h (RemoveAttachmentsByUUID db u).
Proof.
  intros Hb. pose proof (attachments_outside db u Hb) as Ho. unfold RemoveAttachmentsByUUID.
  apply foreign_bind; [by apply is_directory_foreign, outside_classify|]. intros d. destruct (negb d); [done|].
  unfold ReadDirectory, call. cbn [prog_bind foreign]. split; [done|]. intros [l|] Hl; [|done]. cbn [answer_ok] in Hl.
  apply foreign_bind.
  - apply (foreign_foldM _ _ is_name); [done|]. intros _ f Hf. cbn. split; [|done].
    by apply outside_classify, outside_append.
  - intros _. cbn. split; [|done]. split; [by apply outside_classify|]. intros b. by apply outside_not_directory.
Qed.

(** The process has the handle [fd] of the metadata of a report. *)
Definition reading (m : gmap (bool * bytes) (bool * option bytes)) (fd : nat) (k : bool * bytes) (pos : nat) : Ghost :=
  MkGhost m {[fd := (k, pos)]}.
Lemma held_reading m fd k pos : set_handle (held m) fd (k, pos) = reading m fd k pos.
Proof. done. Qed.

Lemma cwp_read fd k pos count x d m (Q : option bytes -> Ghost -> Prop) :
  m !! k = Some (x, Some d) ->
  (let r := match count with Some n => slice pos n d | None => drop pos d end in
   Q (Some r) (reading m fd k (pos + length r))) ->
  cwp base (call (sys_read fd count)) (reading m fd k pos) Q.
Proof.
  intros Hm HQ. at_call. cbn [reading g_handles]. rewrite lookup_singleton_eq. exists x, d. split; [done|].
  cbn zeta in *. unfold set_handle, reading. cbn [g_keys g_handles]. by rewrite insert_singleton_eq.
Qed.

Lemma cwp_write fd k pos x d buf m (Q : bool -> Ghost -> Prop) :
  m !! k = Some (x, Some d) ->
  Q true (reading (<[k := (x, Some (write_at pos buf d))]> m) fd k (pos + length buf)) ->
  cwp base (LoggingWriteFile fd buf) (reading m fd k pos) Q.
Proof.
  intros Hm HQ. unfold LoggingWriteFile. at_call. cbn [reading g_handles]. rewrite lookup_singleton_eq.
  exists x, d. split; [done|]. unfold set_handle, set_key. cbn [reading g_keys g_handles]. by rewrite insert_singleton_eq.
Qed.

Lemma cwp_close_reading fd k pos m (Q : unit -> Ghost -> Prop) :
  Q tt (held m) -> cwp base (CloseFile fd) (reading m fd k pos) Q.
Proof. intros HQ. unfold CloseFile. at_call. unfold drop_handle. cbn [reading g_handles g_keys]. by rewrite delete_singleton_eq. Qed.

Lemma get_file_size_report g k x (Q : Z -> Ghost -> Prop) :
  key_ok k -> g_keys g !! k = Some x -> (forall n, Q n g) -> cwp base (GetFileSize (path_of base Dmp k)) g Q.
Proof.
  intros Hk Hm HQ. unfold GetFileSize, IsRegularFile. at_call. rewrite classify_path by done. exists x. split; [done|].
  destruct x.1 eqn:Ex; [|apply HQ]. intros size time. cbn [negb st_directory]. at_call. rewrite classify_path by done. exists x.
  split; [done|]. rewrite Ex. intros; apply HQ.
Qed.

(** Reading the metadata of a report whose lock is held. *)
Lemma cwp_read_metadata db k x m (Q : option Report -> Ghost -> Prop) :
  base_dir_ db = base -> key_ok k -> m !! k = Some x ->
  (forall r, (x.1 = true -> whole k x ->
     exists report, r = Some report /\ InitializeFromString k.2 = Some (uuid report) /\
       file_path report = path_of base Dmp k) -> Q r (held m)) ->
  cwp base (ReadMetadata db (path_of base Dmp k)) (held m) Q.
Proof.
  intros Hb Hk Hm HQ. unfold ReadMetadata.
  change kMetadataExtension with (extension_of Meta). rewrite replace_extension_path, base_name_report by done.
  unfold OpenFileForRead. at_call. unfold open_ok. rewrite classify_path by done. exists x.
  split; [done|]. split; [done|]. destruct x as [x1 [d|]]; cbn [fst snd] in *.
  2: { cbn. apply HQ. intros -> Hw. by destruct (Hw eq_refl) as (_ & ? & ? & _). }
  cbn [O_CREAT O_EXCL O_TRUNC andb]. intros fd _. unfold set_key. cbn [held g_keys g_handles].
  rewrite insert_id by done. change (set_handle _ fd (k, 0%nat)) with (reading m fd k 0).
  assert (forall pos r, (x1 = true -> whole k (x1, Some d) -> exists report, r = Some report /\
      InitializeFromString k.2 = Some (uuid report) /\ file_path report = path_of base Dmp k) ->
      cwp base (prog_bind (CloseFile fd) (fun _ => Return r)) (reading m fd k pos) Q) as Hend
    by (intros pos r Hr; apply cwp_bind, cwp_close_reading; by apply HQ).
  assert (whole k (x1, Some d) -> x1 = true -> is_Some (InitializeFromString k.2) /\ metadata_valid d) as Hwh
    by (intros Hw ->; destruct (Hw eq_refl) as (? & ? & [= <-] & ?); done).
  apply cwp_bind. destruct (InitializeFromString k.2) as [u|] eqn:Eu.
  2: { apply Hend. intros -> Hw. by destruct (Hwh Hw eq_refl) as [[? ?] _]. }
  apply cwp_bind. unfold ReadFileExactly. apply cwp_bind. eapply cwp_read; [done|]. cbn zeta. cbn [cwp mbind option_bind].
  destruct (Nat.eqb_spec (length (slice 0 (sizeof ReportMetadata.repr) d)) (sizeof ReportMetadata.repr)) as [El|El].
  2: { apply Hend. intros -> Hw. destruct (Hwh Hw eq_refl) as [_ [Hl _]]. rewrite length_slice in El by lia. done. }
  change (slice 0 (sizeof ReportMetadata.repr) d) with (take (sizeof ReportMetadata.repr) d).
  destruct (negb _) eqn:Ev.
  { apply Hend. intros -> Hw. destruct (Hwh Hw eq_refl) as [_ [_ Hv]]. by rewrite Hv in Ev. }
  apply cwp_bind. unfold LoggingReadToEOF. eapply cwp_read; [done|]. cbn zeta. apply cwp_bind.
  apply (get_file_size_report _ _ (x1, Some d)); [done|done|]. intros size.
  apply cwp_bind, cwp_foreign; [by apply get_directory_size_foreign, attachments_outside|]. intros asize.
  apply Hend. intros _ _. by eexists.
Qed.

(** A report is read, or it is not there and its metadata is removed. *)
Lemma cwp_cleaning_read db k x m report0 (Q : option Report -> Ghost -> Prop) :
  base_dir_ db = base -> key_ok k -> m !! k = Some x -> whole k x ->
  (forall r x', (x.1 = true -> x' = x /\ exists report, r = Some report /\
       InitializeFromString k.2 = Some (uuid report) /\ file_path report = path_of base Dmp k) ->
     whole k x' -> Q r (held (<[k := x']> m))) ->
  cwp base (CleaningReadMetadata db (path_of base Dmp k) report0) (held m) Q.
Proof.
  intros Hb Hk Hm Hw HQ. unfold CleaningReadMetadata. apply cwp_bind.
  apply (cwp_read_metadata db k x); [done..|]. intros r Hr. destruct r as [report|].
  { cbn [cwp]. rewrite <-(insert_id m k x Hm). apply HQ; [|done]. intros E. split; [done|]. auto. }
  destruct x as [[|] x2]; cbn [fst snd] in *; [by destruct (Hr eq_refl Hw) as (? & ? & _)|].
  unfold LoggingRemoveFile at 1. at_call. unfold unlink_ok. rewrite classify_path by done.
  exists (false, x2). split_and!; [done|done|]. unfold LoggingRemoveFile. at_call.
  change kMetadataExtension with (extension_of Meta). rewrite replace_extension_path.
  unfold unlink_ok. rewrite classify_path by done. exists (false, x2). split; [done|]. split; [done|].
  assert (whole k (false, None)) as Hn by done. destruct x2 as [d|]; cbn [fst snd]; (apply cwp_foreign_bind;
    [by apply remove_attachments_foreign|intros _; cbn [cwp]]).
  - by apply (HQ None (false, None)).
  - rewrite <-(insert_id m k (false, None) Hm). by apply HQ.
Qed.

Lemma metadata_valid_written x rest :
  ReportMetadata.version x = ReportMetadata.kVersion -> metadata_valid (to_bytes ReportMetadata.repr x ++ rest).
Proof.
  intros Hv. assert (length (to_bytes ReportMetadata.repr x) = sizeof ReportMetadata.repr) as Hl.
  { cbn [ReportMetadata.repr struct to_bytes pair_repr padded sint uint fst snd].
    rewrite !length_app, !length_le_bytes, length_replicate. done. }
  split; [rewrite length_app; lia|]. rewrite take_app_length' by done.
  cbn [ReportMetadata.repr struct of_bytes to_bytes pair_repr padded sint uint fst snd ReportMetadata.version].
  rewrite <-!app_assoc, take_app_length' by (by rewrite length_le_bytes). by rewrite Hv.
Qed.

Lemma cwp_write_metadata k x m report (Q : bool -> Ghost -> Prop) :
  key_ok k -> m !! k = Some x ->
  (forall d, metadata_valid d -> Q true (held (<[k := (x.1, Some d)]> m))) ->
  cwp base (WriteMetadata (path_of base Dmp k) report) (held m) Q.
Proof.
  intros Hk Hm HQ. unfold WriteMetadata. change kMetadataExtension with (extension_of Meta).
  rewrite replace_extension_path. apply cwp_bind. unfold OpenFileForOutput. at_call. unfold open_ok.
  rewrite classify_path by done. exists x. split; [done|]. split; [done|].
  assert (forall fd, cwp base (prog_bind (LoggingWriteFile fd (to_bytes ReportMetadata.repr (metadata_of report)))
    (fun ok => prog_bind (if (ok : bool) then LoggingWriteFile fd (id report) else Return false)
      (fun ok => prog_bind (CloseFile fd) (fun _ => Return ok))))
    (reading (<[k := (x.1, Some [])]> m) fd k 0) Q) as Hrest.
  { intros fd. apply cwp_bind. eapply cwp_write; [apply lookup_insert_eq|]. apply cwp_bind.
    eapply cwp_write; [apply lookup_insert_eq|]. apply cwp_bind, cwp_close_reading. cbn [cwp].
    rewrite !insert_insert_eq. apply HQ. change (write_at 0 ?a []) with (a ++ []). rewrite app_nil_r, Nat.add_0_l, write_at_end.
    by apply metadata_valid_written. }
  destruct x.2 as [d|]; cbn; intros fd _; apply Hrest.
Qed.

Lemma cwp_write_new_metadata k x m (Q : bool -> Ghost -> Prop) :
  key_ok k -> m !! k = Some x ->
  match x.2 with
  | Some _ => Q false (held m)
  | None => forall d, metadata_valid d -> Q true (held (<[k := (x.1, Some d)]> m))
  end ->
  cwp base (WriteNewMetadata (path_of base Meta k)) (held m) Q.
Proof.
  intros Hk Hm HQ. unfold WriteNewMetadata. change kMetadataExtension with (extension_of Meta).
  rewrite replace_extension_path. apply cwp_bind. unfold OpenFileForOutput. at_call. unfold open_ok.
  rewrite classify_path by done. exists x. split; [done|]. split; [done|].
  destruct x.2 as [d|]; cbn [mode_flags O_CREAT O_EXCL andb]; [done|]. intros fd _. at_call. intros t.
  change (set_handle _ fd (k, 0%nat)) with (reading (<[k := (x.1, Some [])]> m) fd k 0).
  apply cwp_bind. eapply cwp_write; [apply lookup_insert_eq|]. apply cwp_bind, cwp_close_reading. cbn [cwp].
  rewrite insert_insert_eq. apply HQ. change (write_at 0 ?a []) with (a ++ []). by apply metadata_valid_written.
Qed.

(** ** Finding reports *)

Definition state_of (b : bool) : ReportState := if b then kCompleted else kPending.

(** The report with the lock of which a process goes on. *)
Definition checked_out (u : UUID) (b : bool) (report : Report) : Prop :=
  InitializeFromString (ToString u) = Some (uuid report) /\ file_path report = path_of base Dmp (b, ToString u).

Lemma cwp_locate db u bs (Q : OperationStatus + bytes * option bytes -> Ghost -> Prop) :
  base_dir_ db = base -> (forall os, Q (inl os) (held ∅)) ->
  (forall b x, b ∈ bs -> x.1 = true -> whole (b, ToString u) x ->
     Q (inr (path_of base Dmp (b, ToString u), Some (path_of base Lock (b, ToString u))))
       (held {[(b, ToString u) := x]})) ->
  cwp base (locate_in db u (map state_of bs)) (held ∅) Q.
Proof.
  intros Hb HN HS. induction bs as [|b bs IH]; cbn [locate_in map]; [apply HN|].
  pose proof (to_string_key b u) as Hk. unfold state_of at 1. rewrite report_path_at by done. cbn [prog_bind].
  apply cwp_bind, cwp_reset_acquire; [done|done|..].
  { cbn. apply HN. }
  intros ok x Hx. destruct ok; cbn [negb].
  2: { apply cwp_bind, cwp_release_new; [done|done|done|]. apply HN. }
  apply cwp_bind. eapply cwp_is_regular; [done|apply lookup_insert_eq|]. destruct x.1 eqn:E1; cbn [negb].
  - cbn [cwp]. apply HS; [left|done|done].
  - apply cwp_bind, cwp_release_new; [done|done|done|]. apply IH. intros; apply HS; [by right|done|done].
Qed.

Lemma cwp_checkout db u state bs report0 (Q : OperationStatus + bytes * option bytes * Report -> Ghost -> Prop) :
  base_dir_ db = base -> (state, bs) = (kSearchable, [false; true]) \/ (state, bs) = (kPending, [false]) ->
  (forall os, Q (inl os) (held ∅)) ->
  (forall b x report, b ∈ bs -> x.1 = true -> whole (b, ToString u) x -> checked_out u b report ->
     Q (inr (path_of base Dmp (b, ToString u), Some (path_of base Lock (b, ToString u)), report))
       (held {[(b, ToString u) := x]})) ->
  cwp base (CheckoutReport db u state report0) (held ∅) Q.
Proof.
  intros Hb Hst HN HS. unfold CheckoutReport. apply cwp_bind.
  assert (LocateAndLockReport db u state = locate_in db u (map state_of bs)) as ->.
  { by destruct Hst as [[= -> ->]|[= -> ->]]. }
  apply cwp_locate; [done|done|]. intros b x Hbs Hx Hw. pose proof (to_string_key b u) as Hk. apply cwp_bind.
  apply (cwp_cleaning_read db _ x); [done|done|apply lookup_singleton_eq|done|].
  intros r x' Hr Hw'. destruct (Hr Hx) as (-> & report & -> & Hu & Hp). cbn [cwp]. rewrite insert_singleton_eq. by apply HS.
Qed.

(** A program that leaves no lock, and returns a value that is [P]. *)
Definition neutral {A} (P : A -> Prop) (p : Prog A) : Prop := cwp base p (held ∅) (fun a g => g = held ∅ /\ P a).

Lemma neutral_bind {A B} (P : A -> Prop) (P' : B -> Prop) p (f : A -> Prog B) :
  neutral P p -> (forall a, P a -> neutral P' (f a)) -> neutral P' (prog_bind p f).
Proof. intros Hp Hf. apply cwp_bind. eapply cwp_mono; [exact Hp|]. intros a g [-> Ha]. by apply Hf. Qed.
Lemma neutral_foldM {A S} (f : S -> A -> Prog S) (I : S -> Prop) (P : A -> Prop) l s :
  I s -> Forall P l -> (forall s x, I s -> P x -> neutral I (f s x)) -> neutral I (foldM f l s).
Proof.
  intros Hs Hl Hf. revert s Hs. induction Hl as [|x l Hx _ IH]; intros s Hs; cbn [foldM]; [done|].
  eapply neutral_bind; [by apply Hf|]. apply IH.
Qed.
Lemma neutral_foreign {A} (p : Prog A) : foreign ∅ p -> neutral (fun _ => True) p.
Proof. intros Hp. by apply cwp_foreign. Qed.

Lemma singleton_release b u x (Q : unit -> Ghost -> Prop) :
  whole (b, ToString u) x -> Q tt (held ∅) ->
  cwp base (ReleaseLock (Some (path_of base Lock (b, ToString u)))) (held {[(b, ToString u) := x]}) Q.
Proof. intros Hw HQ. apply cwp_release_new; [apply to_string_key|done..]. Qed.

Lemma look_up_neutral db u report : base_dir_ db = base -> neutral (fun _ => True) (LookUpCrashReport db u report).
Proof.
  intros Hb. unfold neutral, LookUpCrashReport. apply cwp_bind.
  apply (cwp_checkout db u kSearchable [false; true]); [done|by left|done|].
  intros b x r _ _ Hw _. by apply cwp_bind, singleton_release.
Qed.

Lemma report_in_directory_neutral db b reports f :
  base_dir_ db = base -> is_name f -> neutral (fun _ => True) (report_in_directory db (dir_path base b) reports f).
Proof.
  intros Hb Hf. unfold neutral, report_in_directory. case_bool_decide as He; cbn [negb]; [|done].
  destruct (listed_report b f Hf He) as (s & Hs & ->). assert (key_ok (b, s)) as Hk by done.
  apply cwp_bind, cwp_reset_acquire; [done|done|done|]. intros ok x Hw. destruct ok; cbn [negb].
  2: { by apply cwp_bind, cwp_release_new. }
  apply cwp_bind. apply (cwp_cleaning_read db _ x); [done|done|apply lookup_insert_eq|done|].
  intros r x' _ Hw'. rewrite insert_insert_eq. apply cwp_bind, cwp_release_new; [done..|]. by destruct r.
Qed.

Lemma reports_in_state_neutral db b : base_dir_ db = base -> neutral (fun _ => True) (ReportsInState db (state_of b)).
Proof.
  intros Hb. unfold neutral, ReportsInState. assert (dcheck (bool_decide (state_of b <> kNew)) = Return tt) as -> by (by destruct b).
  cbn [prog_bind]. assert (kReportDirectories (state_of b) = Some (directory_of b)) as -> by (by destruct b).
  rewrite Hb, append_directory. unfold ReadDirectory. at_call. split; [done|]. intros l Hl.
  eapply (neutral_bind (fun _ => True)); [|done]. apply (neutral_foldM _ (fun _ => True) is_name); [done|done|].
  intros rs f _ Hf. by apply report_in_directory_neutral.
Qed.

(** ** Moving reports *)

(** The lock of a report that is being moved. *)
Lemma cwp_acquire_completed u (x : bool * option bytes) (Q : bool * option bytes -> Ghost -> Prop) :
  Q (false, None) (held {[(false, ToString u) := x]}) ->
  (forall ok y, whole (true, ToString u) y ->
     Q (ok, Some (path_of base Lock (true, ToString u)))
       (held (<[(true, ToString u) := y]> {[(false, ToString u) := x]}))) ->
  cwp base (ResetAcquire (path_of base Dmp (true, ToString u))) (held {[(false, ToString u) := x]}) Q.
Proof. intros HN HS. apply cwp_reset_acquire; [apply to_string_key|by rewrite lookup_singleton_ne|done|done]. Qed.

(** Moving a report from [pending] to [completed], with both locks. *)
Lemma cwp_move_completed u (x : option bytes) (y : bool * option bytes) (Q : bool -> Ghost -> Prop) :
  Q true (held (<[(true, ToString u) := (true, y.2)]> {[(false, ToString u) := (false, x)]})) ->
  cwp base (MoveFileOrDirectory (path_of base Dmp (false, ToString u)) (path_of base Dmp (true, ToString u)))
    (held (<[(true, ToString u) := y]> {[(false, ToString u) := (true, x)]})) Q.
Proof.
  intros HQ. unfold MoveFileOrDirectory. at_call. unfold rename_ok. rewrite !classify_path by apply to_string_key.
  exists x, y. cbn [held g_keys]. split_and!; [|apply lookup_insert_eq|done|done|done|done|].
  { rewrite lookup_insert_ne by done. apply lookup_singleton_eq. }
  unfold set_key. cbn [held g_keys g_handles].
  replace (<[_ := _]> _) with (<[(true, ToString u) := (true, y.2)]>
    ({[(false, ToString u) := (false, x)]} : gmap (bool * bytes) (bool * option bytes))); [done|].
  rewrite (insert_insert_ne _ (false, ToString u)) by done. by rewrite insert_insert_eq, insert_singleton_eq.
Qed.

(** Removing the metadata of a report that has been moved. *)
Lemma cwp_remove_old_metadata u (x y : bool * option bytes) (Q : bool -> Ghost -> Prop) :
  (forall ok, Q ok (held (<[(true, ToString u) := y]> {[(false, ToString u) := (x.1, None)]}))) ->
  cwp base (LoggingRemoveFile (ReplaceFinalExtension (path_of base Dmp (false, ToString u)) kMetadataExtension))
    (held (<[(true, ToString u) := y]> {[(false, ToString u) := x]})) Q.
Proof.
  intros HQ. change kMetadataExtension with (extension_of Meta). rewrite replace_extension_path.
  unfold LoggingRemoveFile. at_call. unfold unlink_ok. rewrite classify_path by apply to_string_key. exists x. cbn [held g_keys]. split_and!.
  - rewrite lookup_insert_ne by done. apply lookup_singleton_eq.
  - done.
  - destruct x as [x1 [d|]]; cbn [fst snd] in *; cbn [cwp]; [|apply HQ]. unfold set_key. cbn [held g_keys g_handles].
    rewrite insert_insert_ne by done. rewrite insert_singleton_eq. apply HQ.
Qed.

(** Giving both locks back, the new one first. *)
Lemma cwp_release_completed u (x y : bool * option bytes) (Q : unit -> Ghost -> Prop) :
  whole (true, ToString u) y -> Q tt (held {[(false, ToString u) := x]}) ->
  cwp base (ReleaseLock (Some (path_of base Lock (true, ToString u))))
    (held (<[(true, ToString u) := y]> {[(false, ToString u) := x]})) Q.
Proof. intros Hy HQ. apply cwp_release_new; [apply to_string_key|by rewrite lookup_singleton_ne|done|done]. Qed.

Lemma skip_neutral db u : base_dir_ db = base -> uuid_wf u -> neutral (fun _ => True) (SkipReportUpload db u).
Proof.
  intros Hb Hu. unfold neutral, SkipReportUpload. apply cwp_bind.
  apply (cwp_checkout db u kPending [false]); [done|by right|done|].
  intros b x report ->%list_elem_of_singleton Hx Hw (Hr & _). destruct x as [x1 x2]. cbn [fst snd] in Hx. subst x1.
  rewrite (report_path_at db u true) by done. cbn [prog_bind]. apply cwp_bind, cwp_acquire_completed.
  { cbn [negb prog_bind ReleaseLock]. by apply cwp_bind, singleton_release. }
  assert (forall os (y z : bool * option bytes), whole (true, ToString u) y -> whole (false, ToString u) z ->
    cwp base (prog_bind (ReleaseLock (Some (path_of base Lock (true, ToString u)))) (fun _ =>
      prog_bind (ReleaseLock (Some (path_of base Lock (false, ToString u)))) (fun _ => Return os)))
      (held (<[(true, ToString u) := y]> {[(false, ToString u) := z]})) (fun (_ : OperationStatus) g => g = held ∅ /\ True)) as Hend.
  { intros os y z Hy Hz. apply cwp_bind, cwp_release_completed; [done|]. by apply cwp_bind, singleton_release. }
  intros ok y Hy. destruct ok; cbn [negb prog_bind]; [|by apply Hend].
  apply cwp_bind, cwp_bind. eapply cwp_write_metadata; [apply to_string_key|apply lookup_insert_eq|].
  intros d Hd. cbn [negb]. rewrite insert_insert_eq. apply cwp_bind, cwp_move_completed. cbn [negb snd].
  apply cwp_bind, cwp_remove_old_metadata. intros ok. cbn [cwp]. apply Hend; [|done].
  intros _. cbn [snd]. rewrite initialize_from_to_string by done. split; [done|]. by exists d.
Qed.

(** ** Uploading reports *)

(** What a program may return. *)
Fixpoint returns {A} (P : A -> Prop) (p : Prog A) : Prop :=
  match p with
  | Return a => P a
  | Call c k => forall r, returns P (k r)
  | Stop => True
  end.
Lemma returns_bind {A B} (P : A -> Prop) (p : Prog B) f : (forall b, returns P (f b)) -> returns P (prog_bind p f).
Proof. intros Hf. induction p as [b|R c k IH|]; cbn; auto. Qed.
Lemma cwp_foreign_returns {A} (p : Prog A) g P (Q : A -> Ghost -> Prop) :
  foreign (g_handles g) p -> returns P p -> (forall a, P a -> Q a g) -> cwp base p g Q.
Proof.
  intros Hp Hr HQ. induction p as [a|R c k IH|]; cbn [cwp foreign returns] in *; [auto| |done].
  destruct Hp as [Hc Hk]. apply foreign_step; [done|]. auto.
Qed.

Definition db_ok (db : Database) : Prop :=
  base_dir_ db = base /\
  (settings_init_ db = true -> Settings.file_path_ (settings_ db) = Append base kSettings).

Lemma settings_outside : classify base (Append base kSettings) = None.
Proof.
  apply outside_classify, outside_top; [|done|done]. split; [done|]. apply (bool_decide_unpack _). vm_compute. exact I.
Qed.

Section SettingsForeign.
  Variable x : Settings.t.
  Hypothesis Hx : classify base (Settings.file_path_ x) = None.

Ltac settings_auto :=
  repeat first
    [ done | apply lookup_empty | apply foreign_bind | progress intros
    | progress cbn [foreign foreign_call answer_ok call dcheck prog_bind]
    | match goal with |- foreign _ (match ?y with _ => _ end) => destruct y end
    | split ].

Lemma free_foreign handle : foreign ∅ (Settings.Free handle).
Proof. unfold Settings.Free, CloseFile. settings_auto. Qed.
Lemma read_settings_foreign handle : foreign ∅ (Settings.ReadSettings handle).
Proof. unfold Settings.ReadSettings, ReadFileExactly. settings_auto. Qed.
Lemma write_settings_foreign fd d : foreign ∅ (Settings.WriteSettings fd d).
Proof. unfold Settings.WriteSettings, LoggingWriteFile. settings_auto. Qed.
Lemma open_settings_foreign mode : foreign ∅ (Settings.OpenForReadingAndWriting x mode).
Proof.
  unfold Settings.OpenForReadingAndWriting, Settings.MakeScopedLockedFileHandle, OpenFileForOutput, CloseFile.
  destruct mode; settings_auto.
Qed.
Lemma recover_with_foreign fd : foreign ∅ (Settings.recover_with fd).
Proof.
  unfold Settings.recover_with, Settings.InitializeSettings.
  apply foreign_bind; [|intros []; [apply read_settings_foreign|done]].
  apply foreign_bind; [cbn; split; [done|done]|]. intros [|]; [apply write_settings_foreign|done].
Qed.
Lemma recover_foreign handle : foreign ∅ (Settings.RecoverSettings x handle).
Proof.
  unfold Settings.RecoverSettings. destruct handle; [apply recover_with_foreign|].
  apply foreign_bind; [apply open_settings_foreign|]. intros handle. apply foreign_bind; [apply read_settings_foreign|].
  intros r. apply foreign_bind; [destruct r, handle; try done; apply recover_with_foreign|].
  intros. by apply foreign_bind; [apply free_foreign|].
Qed.
Lemma open_for_writing_foreign : foreign ∅ (Settings.OpenForWritingAndReadSettings x).
Proof.
  unfold Settings.OpenForWritingAndReadSettings. pose proof open_settings_foreign as Ho. apply foreign_bind.
  { destruct (negb _); [|done]. apply foreign_bind; [done|]. by intros [|]. }
  intros h. apply foreign_bind; [by destruct h|]. intros [fd|]; [|done].
  apply foreign_bind; [apply read_settings_foreign|]. intros [d|]; [done|].
  apply foreign_bind; [apply recover_foreign|]. intros [d|]; [done|]. by apply foreign_bind; [apply free_foreign|].
Qed.
Lemma set_foreign f : foreign ∅ (Settings.set x f).
Proof.
  unfold Settings.set. apply foreign_bind; [by destruct (Settings.is_valid x)|]. intros _.
  apply foreign_bind; [apply open_for_writing_foreign|]. intros [[fd d]|]; [|done].
  apply foreign_bind; [apply write_settings_foreign|]. intros. by apply foreign_bind; [apply free_foreign|].
Qed.
End SettingsForeign.

Lemma cwp_settings_internal db m (Q : Database -> Ghost -> Prop) :
  db_ok db -> (forall db', db_ok db' -> settings_init_ db' = true -> Q db' (held m)) ->
  cwp base (SettingsInternal db) (held m) Q.
Proof.
  intros [Hb Hs] HQ. unfold SettingsInternal. destruct (settings_init_ db) eqn:E; [apply HQ; [by split; auto|done]|].
  rewrite Hb. apply cwp_bind. apply (cwp_foreign_returns _ _ (fun r => Settings.file_path_ r.2 = Append base kSettings)).
  - cbn [held g_handles]. unfold Settings.Initialize. apply foreign_bind; [by destruct (Settings.is_uninitialized _)|].
    intros _. apply foreign_bind; [apply open_for_writing_foreign, settings_outside|].
    intros [[fd d]|]; [|done]. by apply foreign_bind; [apply free_foreign|].
  - unfold Settings.Initialize. apply returns_bind. intros _. apply returns_bind. intros [[fd d]|]; [|done].
    by apply returns_bind.
  - intros r Hr. cbn [cwp]. by apply HQ.
Qed.

Lemma read_attachments_foreign db u : base_dir_ db = base -> foreign ∅ (InitializeAttachments db u).
Proof.
  intros Hb. pose proof (attachments_outside db u Hb) as Ho. unfold InitializeAttachments, ReadDirectory, call.
  cbn [prog_bind foreign]. split; [done|]. intros [l|] Hl; [|done]. cbn [answer_ok] in Hl.
  apply (foreign_foldM _ _ is_name); [done|]. intros rs f Hf. unfold OpenFileForRead, call. cbn [prog_bind foreign].
  split; [by apply outside_classify, outside_append|]. by intros [fd|].
Qed.

Lemma close_all_foreign {A} (f : A -> nat) l : foreign ∅ (foldM (fun _ a => CloseFile (f a)) l tt).
Proof. apply (foreign_foldM _ _ (fun _ => True)); [by apply Forall_true|]. intros [] a _. cbn. by split. Qed.
Lemma close_readers_foreign upload : foreign ∅ (close_readers upload).
Proof.
  unfold close_readers. apply foreign_bind; [apply (close_all_foreign snd)|]. intros _. destruct (reader_ upload); [|done].
  cbn. by split.
Qed.

(** An upload of the report [u]: the process has the lock of the report in [pending]. *)
Record uploading (u : UUID) (upload : UploadReport) : Prop := {
  up_uuid : uuid (up_report upload) = u;
  up_path : file_path (up_report upload) = path_of base Dmp (false, ToString u);
  up_lock : lock_file upload = Some (path_of base Lock (false, ToString u))
}.

Lemma cwp_get_report_for_uploading db u (Q : (OperationStatus + UploadReport) * Database -> Ghost -> Prop) :
  db_ok db -> uuid_wf u -> (forall os, Q (inl os, db) (held ∅)) ->
  (forall upload x, uploading u upload -> x.1 = true -> whole (false, ToString u) x ->
     Q (inr upload, db) (held {[(false, ToString u) := x]})) ->
  cwp base (GetReportForUploading db u) (held ∅) Q.
Proof.
  intros [Hb Hs] Hu HN HS. unfold GetReportForUploading. apply cwp_bind.
  apply (cwp_checkout db u kPending [false]); [done|by right|done|].
  intros b x report ->%list_elem_of_singleton Hx Hw (Hr & Hp). rewrite initialize_from_to_string in Hr by done.
  injection Hr as Hr. apply cwp_bind, cwp_foreign; [by apply read_attachments_foreign|]. intros readers.
  unfold OpenFileForRead. at_call. unfold open_ok. rewrite classify_path by apply to_string_key. split_and!; [done|done|].
  exists x. split; [apply lookup_singleton_eq|]. rewrite Hx. intros fd _. cbn [cwp]. by apply HS.
Qed.

(** The second half of [RecordUploadAttempt], once the report has been moved. *)
Lemma cwp_record db u now report (z : bool * option bytes) (y : bool * option bytes) upload
    (Q : OperationStatus * UploadReport * Database -> Ghost -> Prop) :
  db_ok db -> uuid_wf u ->
  (forall os db', db_ok db' -> Q (os, upload, db') (held {[(false, ToString u) := z]})) ->
  cwp base
    (let* ok := WriteMetadata (path_of base Dmp (true, ToString u)) report in
     if negb ok then
       let* _ := ReleaseLock (Some (path_of base Lock (true, ToString u))) in Return (kDatabaseError, upload, db)
     else
       let* db := SettingsInternal db in
       let* ok := Settings.SetLastUploadAttemptTime (settings_ db) now in
       let* _ := ReleaseLock (Some (path_of base Lock (true, ToString u))) in
       Return (if (ok : bool) then kNoError else kDatabaseError, upload, db))
    (held (<[(true, ToString u) := y]> {[(false, ToString u) := z]})) Q.
Proof.
  intros Hdb Hu HQ. apply cwp_bind. eapply cwp_write_metadata; [apply to_string_key|apply lookup_insert_eq|].
  intros d Hd. cbn [negb]. rewrite insert_insert_eq. apply cwp_bind, cwp_settings_internal; [done|].
  intros db' [Hb' Hs'] Hi. apply cwp_bind, cwp_foreign; [apply set_foreign; rewrite Hs' by done; apply settings_outside|].
  intros ok. apply cwp_bind, cwp_release_completed; [|by apply HQ].
  intros _. cbn [snd]. rewrite initialize_from_to_string by done. split; [done|]. by exists d.
Qed.

Lemma cwp_record_upload_complete db u x upload new_id :
  db_ok db -> uuid_wf u -> uploading u upload -> x.1 = true -> whole (false, ToString u) x ->
  cwp base (RecordUploadComplete db upload new_id) (held {[(false, ToString u) := x]})
    (fun r g => g = held ∅ /\ db_ok r.2).
Proof.
  intros Hdb Hu [Eu Ep El] Hx Hw. destruct x as [x1 x2]. cbn [fst] in Hx. subst x1.
  unfold RecordUploadComplete. apply cwp_bind.
  apply (cwp_mono _ _ _ (fun r g => exists z : bool * option bytes, g = held {[(false, ToString u) := z]} /\
    whole (false, ToString u) z /\ db_ok r.2 /\
    database_ r.1.2 = false /\ lock_file r.1.2 = Some (path_of base Lock (false, ToString u)))).
  2: { intros [[os up] db'] g (z & -> & Hz & Hdb' & Ed & El'). cbn [fst snd] in *. unfold DestroyUploadReport.
       rewrite Ed, El'. apply cwp_bind, cwp_bind, singleton_release; [done|]. cbn [prog_bind].
       apply cwp_bind, cwp_foreign; [apply close_readers_foreign|]. by intros _. }
  unfold RecordUploadAttempt. at_call. intros now. cbn [up_report reader_ attachment_readers_ database_ lock_file].
  rewrite Eu, El. rewrite (report_path_at db u true) by apply Hdb. cbn [prog_bind].
  apply cwp_bind, cwp_acquire_completed.
  { cbn. by exists (true, x2). }
  intros ok y Hy. destruct ok; cbn [negb].
  2: { apply cwp_bind, cwp_release_completed; [done|]. cbn. by exists (true, x2). }
  apply cwp_bind, cwp_foreign; [destruct (reader_ upload); cbn; by repeat split|]. intros _.
  rewrite Ep. apply cwp_bind, cwp_move_completed. cbn [negb].
  apply cwp_bind, cwp_remove_old_metadata. intros _. apply cwp_record; [done|done|].
  intros os db' Hdb'. exists (false, None). by split_and!.
Qed.

(** ** New reports *)

Lemma new_uuid_wf b : length b = 16%nat -> Forall is_byte b -> uuid_wf (InitializeWithNew b).
Proof.
  intros Hl Hb. pose proof (Settings.new_uuid_valid b Hl Hb) as Hv. revert Hv. generalize (InitializeWithNew b). clear.
  intros [d1 d2 d3 [a b] [[[[[c d] e] f] g] h]] Hv.
  change (valid UUID_repr _) with (fits 32 d1 && fits 16 d2 && fits 16 d3 && (fits 8 a && fits 8 b) &&
    (fits 8 c && fits 8 d && fits 8 e && fits 8 f && fits 8 g && fits 8 h)) in Hv.
  rewrite !andb_true_iff, !fits_spec in Hv. change (2 ^ 8) with 256 in Hv. unfold uuid_wf. cbn [data_1 data_2 data_3 data_4 data_5].
  unfold is_byte. intuition; repeat constructor; lia.
Qed.

Lemma kNew_outside : outside (Append base kNewDirectory).
Proof. apply outside_top; [|done|done]. split; [done|]. apply (bool_decide_unpack _). vm_compute. exact I. Qed.

(** A report that is being written: its files are not in the directories of the others. *)
Record writing (report : NewReport) : Prop := {
  wr_uuid : uuid_wf (new_uuid report);
  wr_path : outside (file_remover_ report);
  wr_attachments : Forall (fun a => outside a.2) (new_attachments report)
}.

Lemma prepare_neutral db :
  base_dir_ db = base -> neutral (fun r => match r with inr report => writing report | _ => True end) (PrepareNewCrashReport db).
Proof.
  intros Hb. unfold neutral, PrepareNewCrashReport. rewrite Hb. at_call. intros b Hl Hbytes.
  set (p := Append (Append base kNewDirectory) _).
  assert (outside p) as Hp.
  { apply outside_append; [apply kNew_outside|]. apply (file_name_ok Dmp), (to_string_key true). }
  unfold OpenFileForOutput. at_call. unfold open_ok. rewrite outside_classify by done. split; [done|].
  intros fd _. cbn [cwp]. split; [done|]. split; [by apply new_uuid_wf|done|done].
Qed.

Lemma add_attachment_neutral db report name :
  base_dir_ db = base -> writing report -> is_name name -> neutral (fun r => writing r.2) (AddAttachment db report name).
Proof.
  intros Hb Hr Hn. unfold AddAttachment. destruct (negb _); [done|].
  pose proof (attachments_outside db (new_uuid report) Hb) as Ho.
  eapply (neutral_bind (fun _ => True)).
  { apply neutral_foreign. unfold LoggingCreateDirectory, IsDirectory. pose proof (outside_classify _ Ho). foreign_auto. }
  intros ok _. destruct (negb ok); [done|]. pose proof (outside_append _ _ Ho Hn) as Hp.
  unfold neutral, OpenFileForOutput. at_call. unfold open_ok. rewrite outside_classify by done. split; [done|].
  intros fd _. cbn [cwp]. split; [done|]. destruct Hr as [Hu Hpath Ha]. split; [done|done|].
  cbn [snd new_attachments]. by apply Forall_app_2; [|constructor].
Qed.

Lemma destroy_new_foreign report : writing report -> foreign ∅ (DestroyNewReport report).
Proof.
  intros [Hu Hp Ha]. unfold DestroyNewReport. apply foreign_bind.
  { eapply (foreign_foldM _ _ (fun a => outside a.2)); [done|]. intros [] a Ho. cbn. split; [by apply outside_classify|done]. }
  intros _. apply foreign_bind; [apply (close_all_foreign fst)|]. intros _. cbn. split; [by apply outside_classify|]. by split.
Qed.

Lemma finish_neutral db report :
  base_dir_ db = base -> writing report -> neutral (fun _ => True) (FinishedWritingCrashReport db report).
Proof.
  intros Hb Hr. pose proof (destroy_new_foreign report Hr) as Hd. destruct Hr as [Hu Hp Ha].
  assert (forall os : OperationStatus, neutral (fun _ : OperationStatus + UUID => True)
    (prog_bind (DestroyNewReport report) (fun _ => Return (inl os)))) as Hend
    by (intros os; eapply neutral_bind; [by apply neutral_foreign|done]).
  pose proof (to_string_key false (new_uuid report)) as Hk. set (k := (false, ToString (new_uuid report))) in Hk.
  unfold neutral, FinishedWritingCrashReport. rewrite (report_path_at db _ false) by done. cbn [prog_bind].
  apply cwp_bind, cwp_reset_acquire; [done|done|apply Hend|]. intros ok x Hx. destruct ok; cbn [negb].
  2: { apply cwp_bind, cwp_release_new; [done..|]. apply Hend. }
  change kMetadataExtension with (extension_of Meta). rewrite replace_extension_path.
  apply cwp_bind. eapply cwp_write_new_metadata; [done|apply lookup_insert_eq|]. destruct x as [x1 [d|]]; cbn [snd].
  { cbn [negb]. apply cwp_bind, cwp_release_new; [done..|]. apply Hend. }
  assert (x1 = false) as -> by (destruct x1; [destruct (Hx eq_refl) as (_ & ? & ? & _)|]; done).
  intros d Hdv. cbn [negb fst]. rewrite insert_insert_eq. at_call. split; [done|]. intros _. unfold CloseFile at 1. at_call.
  unfold drop_handle. cbn [held g_handles g_keys]. rewrite delete_empty.
  unfold MoveFileOrDirectory. at_call. unfold rename_ok. rewrite classify_path, outside_classify by done.
  eexists. split_and!; [apply lookup_insert_eq|done|..]; cbn [negb].
  - apply cwp_bind. change (MkGhost ?m ∅) with (held m). apply cwp_release_new; [done..|]. apply Hend.
  - unfold set_key. cbn [g_keys g_handles snd]. rewrite insert_insert_eq. change (MkGhost ?m ∅) with (held m).
    apply cwp_bind, cwp_foreign; [apply (close_all_foreign fst)|]. intros _.
    apply cwp_bind, cwp_release_new; [done|done| |done]. intros _. cbn [snd k].
    rewrite initialize_from_to_string by done. split; [done|]. by exists d.
Qed.

(** ** Sessions *)

Lemma create_directories_foreign l :
  Forall (fun f => classify base (Append base f) = None) l -> foreign ∅ (create_directories base l).
Proof.
  induction 1 as [|f l Hf _ IH]; cbn [create_directories]; [done|]. apply foreign_bind.
  - unfold LoggingCreateDirectory, IsDirectory. foreign_auto.
  - intros ok. by destruct (negb ok).
Qed.

Lemma base_foreign : classify base base = None.
Proof.
  destruct (classify base base) as [[kd k]|] eqn:E; [|done]. apply classify_Some in E as [E _].
  apply (f_equal length) in E. unfold path_of, dir_path in E. rewrite !length_app in E. cbn [length] in E. lia.
Qed.

Lemma initialize_neutral may_create :
  neutral (fun r => match r with Some db => db_ok db | None => True end) (CrashReportDatabase.Initialize base may_create).
Proof.
  pose proof base_foreign as Hb. unfold CrashReportDatabase.Initialize. eapply (neutral_bind (fun _ => True)).
  { by apply neutral_foreign, is_directory_foreign. }
  intros d _. eapply (neutral_bind (fun _ => True)).
  { apply neutral_foreign. destruct (negb d), may_create; try done.
    unfold LoggingCreateDirectory, IsDirectory. foreign_auto. }
  intros ok _. destruct (negb ok); [done|]. eapply (neutral_bind (fun _ => True)).
  { apply neutral_foreign, create_directories_foreign. repeat constructor.
    - apply outside_classify, kNew_outside.
    - change kPendingDirectory with (directory_of false). rewrite append_directory. apply classify_dir.
    - change kCompletedDirectory with (directory_of true). rewrite append_directory. apply classify_dir. }
  intros ok' _. destruct (negb ok'); [done|]. eapply (neutral_bind (fun _ => True)).
  { apply neutral_foreign. pose proof (outside_classify _ kAttachments_outside).
    unfold LoggingCreateDirectory, IsDirectory, AttachmentsRootPath. cbn [base_dir_]. foreign_auto. }
  intros ok'' _. by destruct (negb ok'').
Qed.

End Programs.

(** What a process does with a database: it writes a report, with attachments, and
    finishes it or gives it up; it looks up and lists reports; it moves a report that is
    not to be uploaded; it uploads a report and records that. *)
Inductive Operation :=
  | op_create (contents : list bytes) (attachments : list (bytes * bytes)) (finish : bool)
  | op_look_up (u : UUID)
  | op_pending
  | op_completed
  | op_skip (u : UUID)
  | op_upload (u : UUID) (new_id : bytes).

Section Sessions.
  Context `{FilePath}.

Definition create (db : Database) (contents : list bytes) (attachments : list (bytes * bytes)) (finish : bool)
    : Prog unit :=
  let* r := PrepareNewCrashReport db in
  match r with
  | inl _ => Return tt
  | inr report =>
      let* _ := foldM (fun _ d => let* _ := LoggingWriteFile (writer_ report) d in Return tt) contents tt in
      let* report := foldM (fun report a =>
          let* '(fd, report) := AddAttachment db report a.1 in
          let* _ := match fd with Some fd => LoggingWriteFile fd a.2 | None => Return false end in
          Return report) attachments report in
      if finish then let* _ := FinishedWritingCrashReport db report in Return tt
      else DestroyNewReport report
  end.

Definition upload (db : Database) (u : UUID) (new_id : bytes) : Prog Database :=
  let* '(r, db) := GetReportForUploading db u in
  match r with
  | inl _ => Return db
  | inr up =>
      let* _ := match reader_ up with Some fd => LoggingReadToEOF fd | None => Return None end in
      let* r := RecordUploadComplete db up new_id in
      Return r.2
  end.

Definition perform_operation (db : Database) (op : Operation) : Prog Database :=
  match op with
  | op_create contents attachments finish => let* _ := create db contents attachments finish in Return db
  | op_look_up u => let* _ := LookUpCrashReport db u new_report in Return db
  | op_pending => let* _ := GetPendingReports db in Return db
  | op_completed => let* _ := GetCompletedReports db in Return db
  | op_skip u => let* _ := SkipReportUpload db u in Return db
  | op_upload u new_id => upload db u new_id
  end.

(** A process: it opens the database, and does some operations. *)
Definition session (path : bytes) (may_create : bool) (ops : list Operation) : Prog unit :=
  let* r := CrashReportDatabase.Initialize path may_create in
  match r with
  | None => Return tt
  | Some db => let* _ := foldM perform_operation ops db in Return tt
  end.
End Sessions.

(** UUIDs have fields in the range of their types, and attachments have names. *)
Definition attachment_ok (a : bytes * bytes) : Prop := is_name a.1 /\ a.1 <> str "." /\ a.1 <> str "..".
Definition operation_ok (op : Operation) : Prop :=
  match op with
  | op_create _ attachments _ => Forall attachment_ok attachments
  | op_look_up u | op_skip u | op_upload u _ => uuid_wf u
  | op_pending | op_completed => True
  end.

Section NoReportLost.
  Context `{FilePathLaws}.
  Variable base : bytes.
  Hypothesis base_ok : is_directory_path base.

Lemma create_neutral db contents attachments finish :
  base_dir_ db = base -> Forall attachment_ok attachments ->
  neutral base (fun _ => True) (create db contents attachments finish).
Proof.
  intros Hb Ha. unfold create. eapply neutral_bind; [by apply (prepare_neutral base)|]. intros [os|report] Hr; [done|].
  eapply (neutral_bind _ (fun _ => True)).
  { apply neutral_foreign, (foreign_foldM _ _ _ (fun _ => True)); [by apply Forall_true|]. intros [] d _. cbn. by repeat split. }
  intros _ _. eapply (neutral_bind _ (writing base)).
  { apply (neutral_foldM _ _ _ attachment_ok); [done|done|]. intros report' a Hr' [Hn _].
    eapply neutral_bind; [by apply (add_attachment_neutral base)|]. intros [fd report''] Hr''. cbn [snd] in Hr''.
    eapply (neutral_bind _ (fun _ => True)); [|done]. apply neutral_foreign. destruct fd; cbn; by repeat split. }
  intros report' Hr'. destruct finish.
  - eapply neutral_bind; [by apply (finish_neutral base)|done].
  - by apply neutral_foreign, destroy_new_foreign.
Qed.

Lemma upload_neutral db u new_id :
  db_ok base db -> uuid_wf u -> neutral base (db_ok base) (upload db u new_id).
Proof.
  intros Hdb Hu. unfold neutral, upload. apply cwp_bind. apply (cwp_get_report_for_uploading base); [done|done|done|done|].
  intros up x Hup Hx Hw. apply cwp_bind, cwp_foreign; [destruct (reader_ up); cbn; by repeat split|]. intros _.
  apply cwp_bind. eapply cwp_mono; [by apply (cwp_record_upload_complete base base_ok db u x)|]. by intros r g [-> ?].
Qed.

Lemma operation_neutral db op :
  db_ok base db -> operation_ok op -> neutral base (db_ok base) (perform_operation db op).
Proof.
  intros Hdb Hop. assert (forall A (p : Prog A), neutral base (fun _ => True) p ->
    neutral base (db_ok base) (prog_bind p (fun _ => Return db))) as Hk
    by (intros A p Hp; by eapply neutral_bind).
  pose proof (proj1 Hdb) as Hb. destruct op as [c a f|u| | |u|u n]; cbn [perform_operation operation_ok] in *.
  - by apply Hk, create_neutral.
  - by apply Hk, look_up_neutral.
  - by apply Hk, (reports_in_state_neutral base base_ok db false).
  - by apply Hk, (reports_in_state_neutral base base_ok db true).
  - by apply Hk, skip_neutral.
  - by apply upload_neutral.
Qed.

Lemma session_disciplined may_create ops :
  Forall operation_ok ops -> cwp base (session base may_create ops) (held ∅) done_with.
Proof.
  intros Hops. apply (cwp_mono _ _ _ (fun _ g => g = held ∅ /\ True)); [|by intros a g [-> _]].
  eapply (neutral_bind base); [by apply initialize_neutral|]. intros [db|] Hdb; [|done].
  eapply neutral_bind; [|done]. apply (neutral_foldM _ _ _ operation_ok); [done|done|]. intros; by apply operation_neutral.
Qed.

End NoReportLost.

(** ** No report is lost *)

(** A database that no process uses: its directories are there, and every report has a
    UUID for a name and metadata that can be read. *)
Record database_ok (base : bytes) (w : World) : Prop := {
  dok_files : files_inv base w;
  dok_whole : forall k, key_ok k -> whole k (known base w k)
}.

(** The same, by evaluation. *)
Definition check_whole (k : bool * bytes) (x : bool * option bytes) : bool :=
  match InitializeFromString k.2, x.2 with
  | Some _, Some d =>
      (sizeof ReportMetadata.repr <=? length d)%nat &&
      (ReportMetadata.version (of_bytes ReportMetadata.repr (take (sizeof ReportMetadata.repr) d)) =?
         ReportMetadata.kVersion)
  | _, _ => false
  end.
Definition check_entry (base : bytes) (w : World) (e : bytes * Node) : bool :=
  match classify base e.1, e.2 with
  | None, _ => true
  | Some _, Directory => false
  | Some (Dmp, k), Regular _ => check_whole k (known base w k)
  | Some _, Regular _ => true
  end.
Definition check_database (base : bytes) (w : World) : bool :=
  check_world w && forallb (check_entry base w) (map_to_list (names w)) &&
  bool_decide (names w !! dir_path base false = Some Directory) &&
  bool_decide (names w !! dir_path base true = Some Directory).

Lemma check_database_ok base w : check_database base w = true -> database_ok base w.
Proof.
  unfold check_database. rewrite !andb_true_iff, !bool_decide_eq_true, forallb_forall. intros (((Hw & Hc) & H0) & H1).
  assert (forall kd k n, key_ok k -> names w !! path_of base kd k = Some n ->
    check_entry base w (path_of base kd k, n) = true) as He.
  { intros kd k n Hk Hn. apply Hc, list_elem_of_In, elem_of_map_to_list. done. }
  split; [split|].
  - by apply check_world_ok.
  - by intros [].
  - intros kd k Hk Hd. specialize (He kd k _ Hk Hd). unfold check_entry in He. cbn [fst snd] in He.
    rewrite classify_path in He by done. by destruct kd.
  - intros k Hk Hx. cbn [known fst] in Hx. unfold present in Hx.
    destruct (names w !! path_of base Dmp k) as [[|i]|] eqn:En; try done. specialize (He Dmp k _ Hk En).
    unfold check_entry in He. cbn [fst snd] in He. rewrite classify_path in He by done. unfold check_whole in He.
    destruct (InitializeFromString k.2) as [u|]; [|done]. destruct (known base w k).2 as [d|]; [|done].
    apply andb_true_iff in He as [Hl%Nat.leb_le Hv%Z.eqb_eq]. split; [done|]. by exists d.
Qed.

(** The processes at the start. *)
Definition start (base : bytes) `{FilePath} (w : World) (sessions : list (list Operation)) : Pool :=
  MkPool (names w) (inodes w) (map (fun ops => (∅, session base true ops)) sessions).

Lemma start_disciplined `{FilePathLaws} base w sessions :
  is_directory_path base -> Forall (Forall operation_ok) sessions -> database_ok base w ->
  disciplined base (start base w sessions) (replicate (length sessions) (held ∅)).
Proof.
  intros Hb Hops [Hf Hw]. split; [by rewrite length_replicate; cbn; rewrite length_map|].
  assert (forall i (p : gmap nat OpenFile * Ghost),
    zip (processes (start base w sessions)).*1 (replicate (length sessions) (held ∅)) !! i = Some p -> p = (∅, held ∅)) as Hz.
  { intros i [files g]. rewrite lookup_zip_with_Some. intros (f & g' & [= -> ->] & H1 & H2).
    apply lookup_replicate in H2 as [-> _]. rewrite list_lookup_fmap in H1. cbn [start processes] in H1.
    apply fmap_Some in H1 as (p & H1 & ->). rewrite list_lookup_fmap in H1. apply fmap_Some in H1 as (? & _ & ->). done. }
  split; [split|].
  - by apply (files_same base w).
  - intros i files g Hi. apply Hz in Hi as [= -> ->]. split; cbn; intros *; by rewrite lookup_empty.
  - intros i j pi pj k Hi _ Hk. apply Hz in Hi as ->. cbn in Hk. rewrite lookup_empty in Hk. by destruct Hk.
  - intros k Hk _. by apply Hw.
  - intros i files p g Hi Hg. apply lookup_replicate in Hg as [-> _]. cbn [start processes] in Hi.
    rewrite list_lookup_fmap in Hi. apply fmap_Some in Hi as (ops & Hops' & [= -> ->]).
    apply session_disciplined; [done|]. by eapply Forall_lookup_1.
Qed.

(** A report that no process has locked is whole. *)
Lemma disciplined_whole base s gs k :
  disciplined base s gs -> key_ok k -> names (pool_world s) !! path_of base Lock k = None ->
  whole k (known base (pool_world s) k).
Proof.
  intros (_ & Hinv & _) Hk Hn. apply (inv_whole _ _ _ Hinv k Hk). intros j [files g] Ej. apply eq_None_not_Some.
  intros [x Hx]. destruct (pi_owned _ _ _ (inv_process _ _ _ Hinv j files g Ej) k x Hx) as (_ & _ & [n Hl]).
  cbn in Hl, Hn. congruence.
Qed.

(** C2.  Any number of processes open one database and write, list, look up, skip and
    upload reports, and their system calls interleave in any order: a report that was in
    the database is still there after any number of calls, and every report that no
    process has locked can be read, with metadata and a UUID. *)
Theorem no_report_lost `{FilePathLaws} base w sessions schedule s :
  is_directory_path base -> Forall (Forall operation_ok) sessions -> database_ok base w ->
  Forall (fun x => works x.2) schedule -> pool_run schedule (start base w sessions) = Some s ->
  (forall n, kSeparator ∉ n -> stored base w n -> stored base (pool_world s) n) /\
  (forall k, key_ok k -> names (pool_world s) !! path_of base Lock k = None ->
     whole k (known base (pool_world s) k)).
Proof.
  intros Hb Hops Hw Hs Hr. pose proof (start_disciplined base w sessions Hb Hops Hw) as Hd.
  destruct (pool_run_disciplined base schedule _ s _ Hd Hs Hr) as [[gs Hgs] Hkept]. split.
  - intros n Hn Hst. by apply Hkept.
  - intros k Hk Hn. by eapply disciplined_whole.
Qed.

(** ** Executions *)

(** A database in /db with one report, in [completed] or in [pending]. *)
Definition example_base : bytes := str "/db".
Definition example_uuid : UUID := MkUUID 1122867 17493 26231 (136, 153) (170, 187, 204, 221, 238, 255).
Definition example_world (completed : bool) : World :=
  build_world [example_base; example_base ++ str "/new"; example_base ++ str "/pending";
               example_base ++ str "/completed"; example_base ++ str "/attachments"]
    [(path_of example_base Dmp (completed, ToString example_uuid), str "MDMP");
     (path_of example_base Meta (completed, ToString example_uuid),
      to_bytes ReportMetadata.repr (metadata_of new_report))].
Definition example_db : Database := MkDatabase example_base (Settings.Make [] Settings.kStateUninitialized) false.

Lemma example_world_ok completed : database_ok example_base (example_world completed).
Proof. apply check_database_ok. by destruct completed; vm_compute. Qed.
Lemma example_stored completed : stored example_base (example_world completed) (ToString example_uuid).
Proof. exists completed. by destruct completed; vm_compute. Qed.
Lemma example_base_ok : is_directory_path example_base.
Proof. by split_and!. Qed.
Lemma example_uuid_wf : uuid_wf example_uuid.
Proof. by repeat (split || constructor). Qed.

(** [n] calls of the process [i], which all work. *)
Definition calls (i n : nat) : list (nat * Outcome) := replicate n (i, steady 1000 0).
Lemma calls_work l : Forall (fun x => works x.2) (concat (map (fun x => calls x.1 x.2) l)).
Proof.
  apply Forall_concat, Forall_map, Forall_true. intros [i n]. apply Forall_replicate. by apply steady_works.
Qed.

(** Two processes: one lists the reports in [pending] while the other uploads one. *)
Definition example_sessions : list (list Operation) :=
  [[op_pending]; [op_upload example_uuid (str "id")]].
Definition example_schedule : list (nat * Outcome) :=
  concat (map (fun x => calls x.1 x.2) [(1, 20); (0, 11); (1, 40)]%nat).
Definition run_example `{FilePath} : option Pool :=
  pool_run example_schedule (start example_base (example_world false) example_sessions).

Lemma no_report_lost_witness :
  ((fun s => present (pool_world s) (path_of example_base Dmp (true, ToString example_uuid))) <$> run_example)
  = Some true /\
  match run_example with
  | Some s => stored example_base (pool_world s) (ToString example_uuid)
  | None => False
  end.
Proof.
  assert ((fun s => present (pool_world s) (path_of example_base Dmp (true, ToString example_uuid))) <$> run_example
    = Some true) as Hp by (by vm_compute).
  split; [exact Hp|]. destruct run_example as [s|] eqn:E; [|done]. clear Hp.
  eapply (no_report_lost example_base (example_world false) example_sessions example_schedule s).
  - apply example_base_ok.
  - repeat constructor; apply example_uuid_wf.
  - apply example_world_ok.
  - apply calls_work.
  - exact E.
  - apply (to_string_key true).
  - apply example_stored.
Defined.

(** ** Operations that can lose a report *)

(** Two processes, and what is left of a report when they are done. *)
Definition pair_of `{FilePath} {A B} (completed : bool) (p : Prog A) (q : Prog B) : Pool :=
  MkPool (names (example_world completed)) (inodes (example_world completed))
    [(∅, prog_bind p (fun _ => Return tt)); (∅, prog_bind q (fun _ => Return tt))].
Definition finished (s : Pool) : bool :=
  forallb (fun p => match p.2 with Return _ => true | _ => false end) (processes s).
Definition is_stored (s : Pool) : bool :=
  present (pool_world s) (path_of example_base Dmp (false, ToString example_uuid)) ||
  present (pool_world s) (path_of example_base Dmp (true, ToString example_uuid)).

Lemma is_stored_spec s : is_stored s = true <-> stored example_base (pool_world s) (ToString example_uuid).
Proof. unfold is_stored, stored. rewrite orb_true_iff. split; [intros []; eauto|]. intros [[] ?]; auto. Qed.

(** A schedule after which both processes are done and the report is gone. *)
Definition loses (s : Pool) : Prop :=
  exists schedule s', Forall (fun x => works x.2) schedule /\ pool_run schedule s = Some s' /\
    finished s' = true /\ ~ stored example_base (pool_world s') (ToString example_uuid).

Lemma loses_by l s :
  (s' ← pool_run (concat (map (fun x => calls x.1 x.2) l)) s; Some (finished s', is_stored s')) = Some (true, false) ->
  loses s.
Proof.
  destruct (pool_run _ s) as [s'|] eqn:E; [|done]. cbn. intros [= Hf Hs]. eexists _, s'.
  split; [apply calls_work|]. split; [exact E|]. split; [done|]. by rewrite <-is_stored_spec, Hs.
Qed.

(** [RequestUpload] of a report in [completed] moves it to [pending] without the
    lock it would have there, before it has metadata: if another process calls
    [GetPendingReports] just then, no call fails, and the report is removed. *)
Theorem request_upload_race :
  database_ok example_base (example_world true) /\
  stored example_base (example_world true) (ToString example_uuid) /\
  loses (pair_of true (RequestUpload example_db example_uuid) (GetPendingReports example_db)).
Proof.
  split; [apply example_world_ok|]. split; [apply example_stored|].
  apply (loses_by [(0, 20); (1, 12); (0, 5)]%nat). by vm_compute.
Qed.

(** An upload that is given up: the report is destroyed with [database_] set. *)
Definition give_up_upload `{FilePath} (db : Database) (u : UUID) : Prog unit :=
  let* '(r, db) := GetReportForUploading db u in
  match r with
  | inl _ => Return tt
  | inr up => let* _ := DestroyUploadReport db up in Return tt
  end.

(** The lock of an upload that is given up is released before its metadata is
    written ([lock_file] is a member of the derived class, and the metadata is written
    by the destructor of [UploadReport]): if another process calls [GetPendingReports]
    while the metadata file is empty, no call fails, and the report is removed. *)
Theorem abandoned_upload_race :
  database_ok example_base (example_world false) /\
  stored example_base (example_world false) (ToString example_uuid) /\
  loses (pair_of false (give_up_upload example_db example_uuid) (GetPendingReports example_db)).
Proof.
  split; [apply example_world_ok|]. split; [apply example_stored|].
  apply (loses_by [(0, 17); (1, 12); (0, 26)]%nat). by vm_compute.
Qed.
