(* ===== verification/DatabaseRefinement.v ===== *)
(** * The database as a map of reports

    What a single process sees of a database: a finite map from UUIDs to reports, each
    pending or completed, with its contents and its metadata.  Each operation of
    CrashReportDatabase.v, when its system calls work and no other process has a lock,
    is shown to be an operation on the map ([spec_operation]), and to return what that
    says.  Attachments are not part of the map; what is known of them ([Attached]) is kept
    by the operations that do not remove them. *)

From S2P Require Import Prelude.
From S2P Require Import Structs.
From S2P Require Import FileIO.
From S2P Require Import Uuid.
From S2P Require Import FileSystem.
From S2P Require Import Settings.
From S2P Require Import CrashReportDatabase.
From S2P Require Import DatabaseLogic.
From S2P Require Import DatabaseConcurrency.
#[local] Open Scope crashpad_scope.

#[export] Instance Kind_countable : Countable Kind.
Proof.
  apply (inj_countable' (fun kd => match kd with Dmp => inl false | Meta => inl true | Lock => inr tt end)
    (fun x => match x with inl false => Dmp | inl true => Meta | inr tt => Lock end)). by intros [].
Defined.
#[export] Instance UUID_countable : Countable UUID.
Proof.
  apply (inj_countable' (fun u => (data_1 u, data_2 u, data_3 u, data_4 u, data_5 u))
    (fun '(a, b, c, d, e) => MkUUID a b c d e)). by intros [].
Defined.

(** ** Locations *)

(** A file of a report in [pending] or [completed], or of a report in [new]. *)
Inductive Loc := LFile (kd : Kind) (k : bool * bytes) | LNew (s : bytes).
#[export] Instance Loc_eq_dec : EqDecision Loc.
Proof. solve_decision. Defined.
#[export] Instance Loc_countable : Countable Loc.
Proof.
  apply (inj_countable' (fun l => match l with LFile kd k => inl (kd, k) | LNew s => inr s end)
    (fun x => match x with inl (kd, k) => LFile kd k | inr s => LNew s end)). by intros [].
Defined.

Abbreviation Files := (gmap Loc (list Z)) (only parsing).

Definition loc_ok (l : Loc) : Prop := match l with LFile _ k => key_ok k | LNew s => kSeparator ∉ s end.

(** ** Reports *)

(** A report as the clients of the database know it. *)
Record Stored := MkStored {
  s_completed : bool;
  s_contents : bytes;
  s_id : bytes;
  s_creation_time : Z;
  s_uploaded : bool;
  s_last_upload_attempt_time : Z;
  s_upload_attempts : Z;
  s_requested : bool
}.
Abbreviation Reports := (gmap UUID Stored) (only parsing).

Definition meta_of (x : Stored) : ReportMetadata.t :=
  ReportMetadata.Make ReportMetadata.kVersion (s_upload_attempts x) (s_last_upload_attempt_time x) (s_creation_time x)
    (Z.lor (if s_uploaded x then kAttributeUploaded else 0)
           (if s_requested x then kAttributeUploadExplicitlyRequested else 0)).
Definition meta_bytes (x : Stored) : bytes := to_bytes ReportMetadata.repr (meta_of x) ++ s_id x.

(** The numbers are in the range of their types. *)
Definition stored_ok (x : Stored) : Prop :=
  fits_signed 32 (s_upload_attempts x) = true /\ fits_signed 64 (s_last_upload_attempt_time x) = true /\
  fits_signed 64 (s_creation_time x) = true.

Lemma meta_valid x : stored_ok x -> valid ReportMetadata.repr (meta_of x) = true.
Proof.
  intros (H1 & H2 & H3). cbn [ReportMetadata.repr struct valid pair_repr padded sint uint fst snd meta_of
    ReportMetadata.version ReportMetadata.upload_attempts ReportMetadata.last_upload_attempt_time
    ReportMetadata.creation_time ReportMetadata.attributes]. change (8 * Z.of_nat 4) with 32. change (8 * Z.of_nat 8) with 64.
  rewrite H1, H2, H3. by destruct (s_uploaded x), (s_requested x).
Qed.

(** The report with the name [s], if it is in this state. *)
Definition find (R : Reports) (b : bool) (s : bytes) : option Stored :=
  u ← InitializeFromString s;
  if bool_decide (ToString u = s) then
    x ← R !! u;
    if eqb (s_completed x) b then Some x else None
  else None.

(** The files that a database with these reports has. *)
Definition expected (R : Reports) (l : Loc) : option bytes :=
  match l with
  | LFile Dmp (b, s) => s_contents <$> find R b s
  | LFile Meta (b, s) => meta_bytes <$> find R b s
  | LFile Lock _ | LNew _ => None
  end.
Record represents (R : Reports) (F : Files) : Prop := {
  rp_files : forall l, F !! l = expected R l;
  rp_ok : forall u x, R !! u = Some x -> uuid_wf u /\ stored_ok x
}.

Lemma find_uuid R b u :
  uuid_wf u -> find R b (ToString u) = (x ← R !! u; if eqb (s_completed x) b then Some x else None).
Proof. intros Hu. unfold find. rewrite initialize_from_to_string by done. cbn. by rewrite bool_decide_eq_true_2. Qed.
Lemma find_Some R b s x :
  find R b s = Some x -> exists u, s = ToString u /\ R !! u = Some x /\ s_completed x = b.
Proof.
  unfold find. destruct (InitializeFromString s) as [u|]; [|done]. cbn. case_bool_decide as E; [|done].
  destruct (R !! u) as [y|] eqn:Ey; [|done]. cbn. destruct (eqb_spec (s_completed y) b); [|done]. intros [= <-]. eauto.
Qed.
Lemma find_insert_other R b u y s : s <> ToString u -> find (<[u := y]> R) b s = find R b s.
Proof.
  intros Hs. unfold find. destruct (InitializeFromString s) as [v|]; [|done]. cbn. case_bool_decide as E; [|done].
  rewrite lookup_insert_ne; [done|]. intros ->. by destruct Hs.
Qed.
Lemma find_delete_other R b u s : s <> ToString u -> find (delete u R) b s = find R b s.
Proof.
  intros Hs. unfold find. destruct (InitializeFromString s) as [v|]; [|done]. cbn. case_bool_decide as E; [|done].
  rewrite lookup_delete_ne; [done|]. intros ->. by destruct Hs.
Qed.

(** A report that is added, changed or removed: the files of other reports are the same. *)
Definition only_report (u : UUID) (F F' : Files) : Prop :=
  (forall kd b s, s <> ToString u -> F' !! LFile kd (b, s) = F !! LFile kd (b, s)) /\ (forall s, F' !! LNew s = None).

Lemma represents_insert R F F' u y :
  represents R F -> uuid_wf u -> stored_ok y -> only_report u F F' ->
  (forall kd b, F' !! LFile kd (b, ToString u) =
     if eqb (s_completed y) b
     then match kd with Dmp => Some (s_contents y) | Meta => Some (meta_bytes y) | Lock => None end else None) ->
  represents (<[u := y]> R) F'.
Proof.
  intros [HF Hok] Hu Hy [Ho Hn] HF'. split.
  - intros [kd [b s]|s]; [|by rewrite Hn]. destruct (decide (s = ToString u)) as [->|Hs].
    + rewrite HF'. cbn [expected]. rewrite find_uuid, lookup_insert_eq by done. cbn.
      destruct kd, (eqb (s_completed y) b); done.
    + rewrite Ho, HF by done. cbn [expected]. by rewrite find_insert_other.
  - intros v x. rewrite lookup_insert_Some. intros [[<- <-]|[_ Hx]]; [done|by apply Hok].
Qed.

Lemma represents_delete R F F' u :
  represents R F -> uuid_wf u -> only_report u F F' -> (forall kd b, F' !! LFile kd (b, ToString u) = None) ->
  represents (delete u R) F'.
Proof.
  intros [HF Hok] Hu [Ho Hn] HF'. split.
  - intros [kd [b s]|s]; [|by rewrite Hn]. destruct (decide (s = ToString u)) as [->|Hs].
    + rewrite HF'. cbn [expected]. rewrite find_uuid, lookup_delete_eq by done. by destruct kd.
    + rewrite Ho, HF by done. cbn [expected]. by rewrite find_delete_other.
  - intros v x [_ Hx]%lookup_delete_Some. by apply Hok.
Qed.

(** The lock of a report, taken and given back. *)
Lemma delete_lock (F : Files) l d : F !! l = None -> delete l (<[l := d]> F) = F.
Proof. apply delete_insert_id. Qed.

Lemma no_lock R F k : represents R F -> F !! LFile Lock k = None.
Proof. intros HF. by rewrite (rp_files R F HF). Qed.
Lemma found_files R F u x :
  represents R F -> R !! u = Some x ->
  F !! LFile Dmp (s_completed x, ToString u) = Some (s_contents x) /\
  F !! LFile Meta (s_completed x, ToString u) = Some (meta_bytes x) /\
  F !! LFile Dmp (negb (s_completed x), ToString u) = None /\ F !! LFile Meta (negb (s_completed x), ToString u) = None.
Proof.
  intros HF Hx. destruct (rp_ok R F HF u x Hx) as [Hu _]. rewrite !(rp_files R F HF). cbn [expected].
  rewrite !find_uuid by done. rewrite Hx. cbn. rewrite eqb_reflx. by destruct (s_completed x).
Qed.

(** ** Attachments *)

(** The files below the directory of attachments, if they are known. *)
Class Attached := attached_files : option (gmap bytes Entry).
#[export] Instance any_attached : Attached | 100 := None.

Section Refinement.
  Context `{FilePathLaws}.
  Context {clk : Clock} {att : Attached}.
  Variable base : bytes.
  Hypothesis base_ok : is_directory_path base.

Definition new_dir : bytes := base ++ kSeparator :: kNewDirectory.
Definition attachments_dir : bytes := base ++ kSeparator :: kAttachmentsDirectory.
Definition settings_path : bytes := base ++ kSeparator :: kSettings.
Definition path_loc (l : Loc) : bytes :=
  match l with
  | LFile kd k => path_of base kd k
  | LNew s => new_dir ++ kSeparator :: (s ++ kCrashReportExtension)
  end.

Lemma new_classify s : classify base (new_dir ++ kSeparator :: s) = None.
Proof. unfold new_dir. rewrite <-app_assoc. by apply classify_other. Qed.

Lemma path_loc_inj l l' : loc_ok l -> loc_ok l' -> path_loc l = path_loc l' -> l = l'.
Proof.
  intros Hl Hl' E. destruct l as [kd k|s], l' as [kd' k'|s']; cbn [path_loc] in E.
  - by destruct (path_of_inj base kd k kd' k' Hl Hl' E) as [-> ->].
  - apply (f_equal (classify base)) in E. rewrite classify_path, new_classify in E; done.
  - apply (f_equal (classify base)) in E. rewrite classify_path, new_classify in E; done.
  - apply app_inv_head in E. injection E as E. by apply app_inv_tail in E as ->.
Qed.

(** Everything below the directory of attachments. *)
Definition attached (p : bytes) : Prop := exists r, p = attachments_dir ++ kSeparator :: r.

(** What is known of the settings. *)
Definition settings_are (sr : option Settings.settings_record) (m : gmap bytes Entry) : Prop :=
  match sr with Some r => Settings.holds settings_path m r | None => True end.

Definition attached_are (m : gmap bytes Entry) : Prop :=
  match attached_files with Some a => forall p, attached p -> m !! p = a !! p | None => True end.

(** The directories, and the settings or a place for them. *)
Record rest_ok (sr : option Settings.settings_record) (m : gmap bytes Entry) : Prop := {
  ro_base : m !! base = Some EDirectory;
  ro_new : m !! new_dir = Some EDirectory;
  ro_attachments : m !! attachments_dir = Some EDirectory;
  ro_dirs : forall b, m !! dir_path base b = Some EDirectory;
  ro_settings : Settings.settings_place settings_path m;
  ro_record : settings_are sr m;
  ro_attached : attached_are m
}.

(** The file system has the files [F] and the rest of a database; [sr] are its
    settings, if they are known. *)
Definition files_are (sr : option Settings.settings_record) (F : Files) (m : gmap bytes Entry) : Prop :=
  rest_ok sr m /\ forall l, loc_ok l -> m !! path_loc l = EFile <$> F !! l.
Definition holds (sr : option Settings.settings_record) (F : Files) (w : World) : Prop := exists m, fs m w /\ files_are sr F m.

(** Names that are not of files in [F]. *)
Definition special (p : bytes) : Prop :=
  p = base \/ p = new_dir \/ p = attachments_dir \/ p = settings_path \/ exists b, p = dir_path base b.

Lemma child_differs (d : bytes) c r : d <> d ++ c :: r.
Proof. intros E. apply (f_equal length) in E. rewrite length_app in E. cbn [length] in E. lia. Qed.

Lemma no_separator_tail (f r s : bytes) : kSeparator ∉ f -> f <> r ++ kSeparator :: s.
Proof. intros Hf ->. apply Hf, elem_of_app. right. left. Qed.

(** The place of a path below [base]. *)
Lemma below_base l : exists f r, path_loc l = base ++ kSeparator :: f ++ kSeparator :: r /\
  (f = kNewDirectory \/ exists b, f = directory_of b).
Proof.
  destruct l as [kd [b s]|s].
  - exists (directory_of b), (s ++ extension_of kd). cbn [path_loc]. unfold path_of, dir_path. cbn [fst snd].
    rewrite <-app_assoc. split; [done|]. right. by exists b.
  - exists kNewDirectory, (s ++ kCrashReportExtension). cbn [path_loc]. unfold new_dir. rewrite <-app_assoc. split; [done|by left].
Qed.

Lemma loc_not_special l p : special p -> path_loc l <> p.
Proof.
  destruct (below_base l) as (f & r & -> & _).
  assert (forall g, kSeparator ∉ g -> base ++ kSeparator :: f ++ kSeparator :: r <> base ++ kSeparator :: g) as Hg.
  { intros g Hg E. apply app_inv_head in E. injection E as E. by apply (no_separator_tail g f r). }
  assert (forall g : bytes, bool_decide (kSeparator ∉ g) = true -> kSeparator ∉ g) as Hd
    by (intros g; apply bool_decide_eq_true_1).
  intros [->|[->|[->|[->|[b ->]]]]].
  - intros E. by apply (child_differs base kSeparator (f ++ kSeparator :: r)).
  - by apply Hg, Hd.
  - by apply Hg, Hd.
  - by apply Hg, Hd.
  - apply Hg, directory_name.
Qed.

Lemma loc_not_attached l : ~ attached (path_loc l).
Proof.
  intros [r E]. destruct (below_base l) as (f & r' & E' & Hf). rewrite E' in E. unfold attachments_dir in E.
  rewrite <-app_assoc in E. apply app_inv_head in E. injection E as E. destruct Hf as [->|[[] ->]]; discriminate E.
Qed.
Lemma special_not_attached p : special p -> ~ attached p.
Proof.
  intros Hp [r ->]. unfold attachments_dir in Hp. rewrite <-app_assoc in Hp. cbn [app] in Hp.
  destruct Hp as [E|[E|[E|[E|[b E]]]]].
  - symmetry in E. by apply child_differs in E.
  - apply app_inv_head in E. discriminate E.
  - unfold attachments_dir in E. apply app_inv_head in E. discriminate E.
  - apply app_inv_head in E. discriminate E.
  - unfold dir_path in E. apply app_inv_head in E. destruct b; discriminate E.
Qed.

Lemma attached_frame m m' : attached_are m -> (forall p, attached p -> m' !! p = m !! p) -> attached_are m'.
Proof. unfold attached_are. destruct attached_files; [|done]. intros Hm E p Hp. rewrite E by done. by apply Hm. Qed.
Lemma rest_frame {sr} m m' :
  rest_ok sr m -> (forall p, special p -> m' !! p = m !! p) -> attached_are m' -> rest_ok sr m'.
Proof.
  intros [Hb Hn Ha Hd [Hp Hs] Hr Hat] E Hat'. unfold special in E. split; rewrite ?E by eauto 10; try done.
  - intros b. rewrite E by eauto 10. apply Hd.
  - split; [|by rewrite E by eauto 10]. unfold parent_in, settings_path in *.
    rewrite parent_name_path in * by (apply (bool_decide_unpack _); vm_compute; exact I). rewrite E by eauto 10. done.
  - unfold settings_are, Settings.holds, Settings.settings_in in *. by rewrite E by eauto 10.
Qed.

Lemma files_frame {sr} F m m' :
  files_are sr F m -> (forall p, special p -> m' !! p = m !! p) ->
  (forall l, loc_ok l -> m' !! path_loc l = m !! path_loc l) -> attached_are m' -> files_are sr F m'.
Proof. intros [Hr Hf] Hs Hl Ha. split; [by eapply rest_frame|]. intros l Hok. rewrite Hl by done. by apply Hf. Qed.

Lemma files_set {sr} F m l d :
  files_are sr F m -> loc_ok l -> files_are sr (<[l := d]> F) (<[path_loc l := EFile d]> m).
Proof.
  intros [Hr Hf] Hl. split.
  - apply (rest_frame m); [done|intros p Hp; apply lookup_insert_ne; by apply loc_not_special|].
    apply (attached_frame m); [apply Hr|]. intros p Hp. apply lookup_insert_ne. intros <-. by eapply loc_not_attached.
  - intros l' Hl'. rewrite !lookup_insert. repeat case_decide; subst; try done; [|by apply Hf].
    by destruct (path_loc_inj l l' Hl Hl').
Qed.

Lemma files_remove {sr} F m l : files_are sr F m -> loc_ok l -> files_are sr (delete l F) (delete (path_loc l) m).
Proof.
  intros [Hr Hf] Hl. split.
  - apply (rest_frame m); [done|intros p Hp; apply lookup_delete_ne; by apply loc_not_special|].
    apply (attached_frame m); [apply Hr|]. intros p Hp. apply lookup_delete_ne. intros <-. by eapply loc_not_attached.
  - intros l' Hl'. rewrite !lookup_delete. repeat case_decide; subst; try done; [|by apply Hf].
    by destruct (path_loc_inj l l' Hl Hl').
Qed.

Lemma loc_parent {sr} m l : rest_ok sr m -> loc_ok l -> parent_in m (path_loc l).
Proof.
  intros Hr Hl. unfold parent_in. destruct l as [kd k|s]; cbn [path_loc loc_ok] in *.
  - unfold path_of. rewrite parent_name_path by (by apply file_name_ok). right. apply Hr.
  - rewrite parent_name_path by (by apply (file_name_ok Dmp)). right. apply Hr.
Qed.

(** ** What the calls do to the files *)

Section Calls.
  Context {sr : option Settings.settings_record}.
  Variables (F : Files) (w : World) (l : Loc).
  Hypothesis Hw : holds sr F w.
  Hypothesis Hl : loc_ok l.

Lemma wp_loc_create f (Q : option nat -> World -> Prop) :
  F !! l = None -> O_CREAT f = true ->
  (forall fd w', holds sr (<[l := []]> F) w' -> opened w' fd (path_loc l) 0 -> Q (Some fd) w') ->
  wp works (call (sys_open (path_loc l) f)) Q w.
Proof.
  intros HF Hc HQ. destruct Hw as (m & Hfs & Hm). eapply wp_open_create; [done| | |done|].
  - rewrite (proj2 Hm) by done. by rewrite HF.
  - eapply loc_parent; [apply Hm|done].
  - intros fd w' Hfs' Ho. apply HQ; [|done]. exists (<[path_loc l := EFile []]> m). split; [done|]. by apply files_set.
Qed.

Lemma wp_loc_exists f d (Q : option nat -> World -> Prop) :
  F !! l = Some d -> O_CREAT f = true -> O_EXCL f = true -> Q None w -> wp works (call (sys_open (path_loc l) f)) Q w.
Proof.
  intros HF Hc He HQ. destruct Hw as (m & Hfs & Hm). eapply wp_open_excl; [done| |done|done|done].
  rewrite (proj2 Hm) by done. by rewrite HF.
Qed.

Lemma wp_loc_open f d (Q : option nat -> World -> Prop) :
  F !! l = Some d -> O_EXCL f = false ->
  (forall fd w', holds sr (if O_TRUNC f then <[l := []]> F else F) w' -> opened w' fd (path_loc l) 0 -> Q (Some fd) w') ->
  wp works (call (sys_open (path_loc l) f)) Q w.
Proof.
  intros HF He HQ. destruct Hw as (m & Hfs & Hm). eapply (wp_open_existing _ f d); [done| |done|].
  - rewrite (proj2 Hm) by done. by rewrite HF.
  - intros fd w' Hfs' Ho. apply HQ; [|done]. eexists. split; [exact Hfs'|]. destruct (O_TRUNC f); [by apply files_set|done].
Qed.

Lemma wp_loc_write fd pos buf d (Q : bool -> World -> Prop) :
  opened w fd (path_loc l) pos -> F !! l = Some d ->
  (forall w', holds sr (<[l := write_at pos buf d]> F) w' -> opened w' fd (path_loc l) (pos + length buf) -> Q true w') ->
  wp works (LoggingWriteFile fd buf) Q w.
Proof.
  intros Ho HF HQ. destruct Hw as (m & Hfs & Hm). eapply wp_write; [done|done| |].
  - rewrite (proj2 Hm) by done. by rewrite HF.
  - intros w' Hfs' Ho'. apply HQ; [|done]. eexists. split; [exact Hfs'|]. by apply files_set.
Qed.

Lemma wp_loc_read fd pos count d (Q : option bytes -> World -> Prop) :
  opened w fd (path_loc l) pos -> F !! l = Some d ->
  (let r := match count with Some k => slice pos k d | None => drop pos d end in
   forall w', holds sr F w' -> opened w' fd (path_loc l) (pos + length r) -> Q (Some r) w') ->
  wp works (call (sys_read fd count)) Q w.
Proof.
  intros Ho HF HQ. destruct Hw as (m & Hfs & Hm). eapply wp_read; [done|done| |].
  - rewrite (proj2 Hm) by done. by rewrite HF.
  - cbn zeta. intros w' Hfs' Ho'. apply HQ; [|done]. by exists m.
Qed.

Lemma wp_loc_close fd (Q : unit -> World -> Prop) :
  (forall w', holds sr F w' -> Q tt w') -> wp works (CloseFile fd) Q w.
Proof. intros HQ. destruct Hw as (m & Hfs & Hm). eapply wp_close; [done|]. intros w' Hfs'. apply HQ. by exists m. Qed.

Lemma wp_loc_unlink d (Q : bool -> World -> Prop) :
  F !! l = Some d -> (forall w', holds sr (delete l F) w' -> Q true w') -> wp works (LoggingRemoveFile (path_loc l)) Q w.
Proof.
  intros HF HQ. destruct Hw as (m & Hfs & Hm). eapply wp_unlink; [done| |].
  - rewrite (proj2 Hm) by done. by rewrite HF.
  - intros w' Hfs'. apply HQ. eexists. split; [exact Hfs'|]. by apply files_remove.
Qed.

Lemma wp_loc_regular (Q : bool -> World -> Prop) :
  Q (bool_decide (is_Some (F !! l))) w -> wp works (IsRegularFile (path_loc l)) Q w.
Proof.
  intros HQ. destruct Hw as (m & Hfs & Hm). eapply wp_is_regular_file; [done|]. rewrite (proj2 Hm) by done.
  destruct (F !! l); cbn; exact HQ.
Qed.

Lemma wp_loc_rename l' d (Q : bool -> World -> Prop) :
  loc_ok l' -> F !! l = Some d -> (forall w', holds sr (<[l' := d]> (delete l F)) w' -> Q true w') ->
  wp works (MoveFileOrDirectory (path_loc l) (path_loc l')) Q w.
Proof.
  intros Hl' HF HQ. destruct Hw as (m & Hfs & Hm). eapply (wp_rename _ _ d); [done| | | |].
  - rewrite (proj2 Hm) by done. by rewrite HF.
  - rewrite (proj2 Hm) by done. by destruct (F !! l').
  - eapply loc_parent; [apply Hm|done].
  - intros w' Hfs'. apply HQ. eexists. split; [exact Hfs'|]. apply files_set; [|done]. by apply files_remove.
Qed.

End Calls.

(** ** Programs that leave the files as they are *)

(** Programs that only look at the file system. *)
Fixpoint observes {A} (p : Prog A) : Prop :=
  match p with
  | Return _ => True
  | Call c k => match c with sys_lstat _ | sys_opendir _ => True | _ => False end /\ forall r, observes (k r)
  | Stop => False
  end.

Lemma wp_observes {A} (p : Prog A) (Q : A -> World -> Prop) w :
  observes p -> (forall a, Q a w) -> wp works p Q w.
Proof.
  intros Hp HQ. induction p as [a|R c k IH|]; cbn [observes wp] in *; [done| |done].
  destruct Hp as [Hc Hk]. intros o _. assert ((perform c o w).2 = w) as ->; [|by apply IH].
  destruct c; try done; cbn [perform]; destruct (fate o) as [|[|n]]; try case_bool_decide; done.
Qed.

Lemma observes_bind {A B} (p : Prog A) (f : A -> Prog B) :
  observes p -> (forall a, observes (f a)) -> observes (prog_bind p f).
Proof.
  intros Hp Hf. induction p as [a|R c k IH|]; cbn [observes prog_bind] in *; [done| |done]. destruct Hp. auto.
Qed.

Lemma is_directory_observes p : observes (IsDirectory p).
Proof. by repeat split. Qed.
Lemma get_file_size_observes p : observes (GetFileSize p).
Proof. unfold GetFileSize. apply observes_bind; [by repeat split|]. intros b. destruct (negb b); by repeat split. Qed.
Lemma get_directory_size_observes fuel d : observes (GetDirectorySize_ fuel d).
Proof.
  revert d. induction fuel as [|fuel IH]; intros d; cbn [GetDirectorySize_]; [done|].
  apply observes_bind; [apply is_directory_observes|]. intros b. destruct (negb b); [done|].
  apply observes_bind; [by repeat split|]. intros [l|]; [|done]. generalize 0.
  induction l as [|f l IHl]; intros n; cbn [foldM]; [done|]. apply observes_bind; [|done].
  apply observes_bind; [apply is_directory_observes|]. intros b'. apply observes_bind; [|done].
  destruct b'; [apply IH|apply get_file_size_observes].
Qed.

(** Attachments. *)
Lemma files_attached {sr} F m p :
  attached_files = None -> files_are sr F m -> attached p -> files_are sr F (delete p m).
Proof.
  intros Ea Hm Hp. apply (files_frame F m); [done|..].
  - intros q Hq. apply lookup_delete_ne. intros ->. by eapply special_not_attached.
  - intros l _. apply lookup_delete_ne. intros ->. by eapply loc_not_attached.
  - unfold attached_are. by rewrite Ea.
Qed.

Lemma holds_attached {sr} F w p : attached_files = None -> holds sr F w -> attached p -> holds sr F (set_names (delete p) w).
Proof.
  intros Ea (m & [Hw <-] & Hm) Hp. exists (delete p (view w)). split; [by apply view_delete|by apply files_attached].
Qed.

Lemma wp_remove_attached {sr} F w p (Q : bool -> World -> Prop) :
  attached_files = None -> holds sr F w -> attached p -> (forall r w', holds sr F w' -> Q r w') ->
  wp works (LoggingRemoveFile p) Q w /\ wp works (LoggingRemoveDirectory p) Q w.
Proof.
  intros Ea Hw Hp HQ. pose proof (holds_attached F w p Ea Hw Hp) as Hd.
  split; apply wp_call; intros o (Ho & _); cbn [perform]; rewrite Ho.
  - destruct (names w !! p) as [[|i]|]; cbn [fst snd]; auto.
  - destruct (names w !! p) as [[|i]|]; cbn [fst snd]; auto. destruct (children w p); cbn [fst snd]; auto.
Qed.

Lemma attachments_path db u :
  base_dir_ db = base -> AttachmentsPath db u = attachments_dir ++ kSeparator :: ToString u.
Proof.
  intros Hb. unfold AttachmentsPath, AttachmentsRootPath, attachments_dir. rewrite Hb.
  assert (is_name kAttachmentsDirectory) as Hn by (split; [done|]; apply (bool_decide_unpack _); vm_compute; exact I).
  rewrite (append_path base) by done. apply append_path; [by apply is_directory_append|apply to_string_name].
Qed.

Lemma wp_remove_attachments {sr} db u F w (Q : unit -> World -> Prop) :
  attached_files = None -> base_dir_ db = base -> holds sr F w -> (forall w', holds sr F w' -> Q tt w') ->
  wp works (RemoveAttachmentsByUUID db u) Q w.
Proof.
  intros Ea Hb Hw HQ. unfold RemoveAttachmentsByUUID. rewrite attachments_path by done.
  set (d := attachments_dir ++ _). apply wp_bind, wp_observes; [apply is_directory_observes|]. intros b.
  destruct (negb b); [by apply HQ|]. apply wp_bind, wp_call. intros o (Ho & _). cbn [perform]. rewrite Ho.
  case_bool_decide; [|by apply HQ]. cbn [fst snd]. apply wp_bind.
  eapply wp_mono; [apply (wp_foldM works _ (fun l _ w' => Forall is_name l /\ holds sr F w'))|].
  - split; [apply children_names|done].
  - intros f l [] w' [[Hf Hl]%Forall_cons Hw']. apply wp_bind.
    eapply wp_remove_attached; [done|done| |intros; cbn; done]. exists (ToString u ++ kSeparator :: f).
    rewrite append_path; [unfold d; by rewrite <-app_assoc| |done]. by apply is_directory_append, to_string_name.
  - intros [] w' [_ Hw']. cbn beta. apply wp_bind. eapply wp_remove_attached; [done|done|by exists (ToString u)|].
    intros r w'' Hw''. by apply HQ.
Qed.

(** Settings. *)
Definition db_ready (db : Database) : Prop :=
  base_dir_ db = base /\
  settings_ db = if settings_init_ db then Settings.Make settings_path Settings.kStateValid
                 else Settings.Make [] Settings.kStateUninitialized.

Lemma files_settings sr sr' F m m' :
  files_are sr F m -> Settings.settings_place settings_path m' -> settings_are sr' m' ->
  (forall q, q <> settings_path -> m' !! q = m !! q) -> files_are sr' F m'.
Proof.
  intros [[Hb Hn Ha Hd Hs _ Hat] Hf] Hs' Hr' E.
  assert (base <> settings_path) as N1 by apply child_differs.
  assert (forall f, f <> kSettings -> base ++ kSeparator :: f <> settings_path) as N2
    by (intros f Hne E'; apply app_inv_head in E'; by injection E').
  split; [split|].
  - by rewrite E.
  - rewrite E by (by apply N2). done.
  - rewrite E by (by apply N2). done.
  - intros b. rewrite E; [apply Hd|]. unfold dir_path. apply N2. by destruct b.
  - done.
  - done.
  - apply (attached_frame m); [done|]. intros p Hp. apply E. intros ->. eapply special_not_attached; [|exact Hp]. unfold special. eauto 10.
  - intros l Hl. rewrite E; [by apply Hf|]. apply loc_not_special. unfold special. eauto 10.
Qed.

Lemma wp_settings_internal {sr} db F w (Q : Database -> World -> Prop) :
  db_ready db -> holds sr F w ->
  (forall db' w', db_ready db' -> settings_init_ db' = true -> holds sr F w' -> Q db' w') ->
  wp works (SettingsInternal db) Q w.
Proof.
  intros [Hb Hs] Hw HQ. unfold SettingsInternal. destruct (settings_init_ db) eqn:Ei.
  { apply HQ; [split; [done|by rewrite Ei]|done|done]. }
  destruct Hw as (m & Hfs & Hm). apply wp_bind. rewrite Hs, Hb.
  assert (Append base kSettings = settings_path) as ->.
  { apply append_path; [done|]. split; [done|]. apply (bool_decide_unpack _). vm_compute. exact I. }
  eapply Settings.wp_initialize; [done|apply Hm|]. intros m' w' r Hfs' Hpl Hr Hh Hq. cbn [wp snd].
  apply HQ; [by split|done|]. exists m'. split; [done|]. apply (files_settings sr sr F m); [done|done| |done].
  destruct sr as [r0|]; [|done]. cbn [settings_are]. destruct (ro_record _ _ (proj1 Hm)) as (x & Ex & _ & <-).
  unfold Settings.initial_record in Hr. rewrite Ex in Hr. by subst r.
Qed.

(** The settings after an upload attempt. *)
Definition noted (time : Z) (sr : option Settings.settings_record) : option Settings.settings_record :=
  (fun r => Settings.MkSettings (Settings.rec_client_id r) (Settings.rec_uploads_enabled r) time) <$> sr.

Lemma wp_set_last_upload {sr} db time F w (Q : bool -> World -> Prop) :
  db_ready db -> settings_init_ db = true -> holds sr F w -> 0 <= time < 2 ^ 63 ->
  (forall w', holds (noted time sr) F w' -> Q true w') ->
  wp works (Settings.SetLastUploadAttemptTime (settings_ db) time) Q w.
Proof.
  intros [_ Hs] Ei (m & Hfs & Hm) Ht HQ. rewrite Hs, Ei. destruct sr as [r|].
  - eapply Settings.wp_set_time; [done|apply Hm|exact (ro_record _ _ (proj1 Hm))|apply fits_signed_spec; lia|].
    intros m' w' Hfs' Hpl Hr Hq. apply HQ. exists m'. split; [done|]. by apply (files_settings (Some r) _ F m).
  - eapply Settings.wp_set_any; [done|apply Hm|]. intros m' w' Hfs' Hpl Hq. apply HQ. exists m'. split; [done|].
    by apply (files_settings None _ F m).
Qed.

(** Reading the settings. *)
Lemma wp_uploads_enabled r db F w (Q : option bool -> World -> Prop) :
  db_ready db -> settings_init_ db = true -> holds (Some r) F w ->
  (forall w', holds (Some r) F w' -> Q (Some (Settings.rec_uploads_enabled r)) w') ->
  wp works (Settings.GetUploadsEnabled (settings_ db)) Q w.
Proof.
  intros [_ Hs] Ei (m & Hfs & Hm) HQ. rewrite Hs, Ei. destruct (ro_record _ _ (proj1 Hm)) as (x & Ex & _ & <-).
  eapply Settings.wp_get; [done..|]. intros w' Hfs'. apply HQ. by exists m.
Qed.
Lemma wp_last_upload r db F w (Q : option Z -> World -> Prop) :
  db_ready db -> settings_init_ db = true -> holds (Some r) F w ->
  (forall w', holds (Some r) F w' -> Q (Some (Settings.rec_last_upload r)) w') ->
  wp works (Settings.GetLastUploadAttemptTime (settings_ db)) Q w.
Proof.
  intros [_ Hs] Ei (m & Hfs & Hm) HQ. rewrite Hs, Ei. destruct (ro_record _ _ (proj1 Hm)) as (x & Ex & Hx & <-).
  pose proof (Settings.settings_ok_fields x Hx) as [_ Ht].
  eapply Settings.wp_get; [done..|]. intros w' Hfs'. rewrite Settings.in_range_time by done. apply HQ. by exists m.
Qed.

(** ** Locks and metadata *)

Lemma wp_acquire {sr} k F w (Q : bool * option bytes -> World -> Prop) :
  holds sr F w -> key_ok k -> F !! LFile Lock k = None ->
  (forall d w', holds sr (<[LFile Lock k := d]> F) w' -> Q (true, Some (path_of base Lock k)) w') ->
  wp works (ResetAcquire (path_of base Dmp k)) Q w.
Proof.
  intros Hw Hk HF HQ. unfold ResetAcquire. rewrite remove_extension_path, <-app_assoc.
  change (dir_path base k.1 ++ _) with (path_loc (LFile Lock k)). apply wp_bind.
  eapply wp_loc_create; [done|done|done|done|]. intros fd w1 Hw1 Ho1. apply wp_bind, wp_time. intros t _.
  apply wp_bind. eapply (wp_loc_write _ _ (LFile Lock k)); [done|done|done|apply lookup_insert_eq|]. intros w2 Hw2 _. rewrite insert_insert_eq in Hw2.
  apply wp_bind. eapply wp_loc_close; [done|]. intros w3 Hw3. by eapply HQ.
Qed.

Lemma wp_release {sr} k d F w (Q : unit -> World -> Prop) :
  holds sr F w -> key_ok k -> F !! LFile Lock k = Some d -> (forall w', holds sr (delete (LFile Lock k) F) w' -> Q tt w') ->
  wp works (ReleaseLock (Some (path_of base Lock k))) Q w.
Proof.
  intros Hw Hk HF HQ. unfold ReleaseLock. apply wp_bind.
  by eapply (wp_loc_unlink _ _ (LFile Lock k)).
Qed.

Lemma wp_rewrite_metadata {sr} k report F w (Q : bool -> World -> Prop) :
  holds sr F w -> key_ok k ->
  (forall w', holds sr (<[LFile Meta k := to_bytes ReportMetadata.repr (metadata_of report) ++ id report]> F) w' -> Q true w') ->
  wp works (WriteMetadata (path_of base Dmp k) report) Q w.
Proof.
  intros Hw Hk HQ. unfold WriteMetadata. change kMetadataExtension with (extension_of Meta).
  rewrite replace_extension_path. change (path_of base Meta k) with (path_loc (LFile Meta k)). apply wp_bind.
  match goal with |- wp _ _ ?K w => assert (forall fd w', holds sr (<[LFile Meta k := []]> F) w' ->
    opened w' fd (path_loc (LFile Meta k)) 0 -> K (Some fd) w') as Hrest end.
  { intros fd w1 Hw1 Ho1. apply wp_bind. eapply (wp_loc_write _ _ (LFile Meta k)); [done|done|done|apply lookup_insert_eq|].
    intros w2 Hw2 Ho2. rewrite insert_insert_eq in Hw2. apply wp_bind.
    eapply (wp_loc_write _ _ (LFile Meta k)); [done|done|done|apply lookup_insert_eq|]. intros w3 Hw3 _. rewrite insert_insert_eq in Hw3.
    apply wp_bind. eapply wp_loc_close; [done|]. intros w4 Hw4. apply HQ. revert Hw4.
    change (write_at 0 ?a []) with (a ++ []). by rewrite app_nil_r, Nat.add_0_l, write_at_end. }
  destruct (F !! LFile Meta k) as [d|] eqn:E.
  - eapply wp_loc_open; [done|done|done|done|]. intros fd w'. by apply Hrest.
  - eapply wp_loc_create; [done|done|done|done|]. intros fd w'. by apply Hrest.
Qed.

Lemma wp_new_metadata {sr} k F w (Q : bool -> World -> Prop) :
  holds sr F w -> key_ok k -> F !! LFile Meta k = None ->
  (forall now w', 0 <= now < 2 ^ 63 ->
     holds sr (<[LFile Meta k := to_bytes ReportMetadata.repr (ReportMetadata.Make ReportMetadata.kVersion 0 0 now 0)]> F) w' ->
     Q true w') ->
  wp works (WriteNewMetadata (path_of base Meta k)) Q w.
Proof.
  intros Hw Hk HF HQ. unfold WriteNewMetadata. change kMetadataExtension with (extension_of Meta).
  rewrite replace_extension_path. change (path_of base Meta k) with (path_loc (LFile Meta k)). apply wp_bind.
  eapply wp_loc_create; [done|done|done|done|]. intros fd w1 Hw1 Ho1. apply wp_bind, wp_time. intros now Hnow.
  apply wp_bind. eapply (wp_loc_write _ _ (LFile Meta k)); [done|done|done|apply lookup_insert_eq|]. intros w2 Hw2 _. rewrite insert_insert_eq in Hw2.
  apply wp_bind. eapply wp_loc_close; [done|]. intros w3 Hw3. eapply (HQ now); [done|]. revert Hw3.
  change (write_at 0 ?a []) with (a ++ []). by rewrite app_nil_r.
Qed.

(** ** Finding reports *)

(** The size of the attachments of a report, if they are known. *)
Definition attachments_of (u : UUID) : bytes := attachments_dir ++ kSeparator :: ToString u.
Definition attachments_take (u : UUID) (size : Z) : Prop :=
  match attached_files with Some a => size = u64 (directory_size 2048 a (attachments_of u)) | None => True end.
(** What the operations say of a report; its size is that of its file and its attachments. *)
Definition describes (u : UUID) (x : Stored) (r : Report) : Prop :=
  exists size, attachments_take u size /\
    r = MkReport u (path_of base Dmp (s_completed x, ToString u)) (s_id x) (s_creation_time x)
      (s_uploaded x) (s_last_upload_attempt_time x) (s_upload_attempts x) (s_requested x)
      (u64 (Z.of_nat (length (s_contents x)) + size)).

Lemma describes_meta u x r : describes u x r -> to_bytes ReportMetadata.repr (metadata_of r) ++ id r = meta_bytes x.
Proof. by intros (size & _ & ->). Qed.

(** The size of a directory of which all is known. *)
Lemma wp_directory_size a fuel d m w :
  fs m w -> is_directory_path d -> m !! d = a !! d -> (forall r, m !! (d ++ kSeparator :: r) = a !! (d ++ kSeparator :: r)) ->
  wp works (GetDirectorySize_ fuel d) (fun n w' => n = u64 (directory_size fuel a d) /\ w' = w) w.
Proof.
  revert d. induction fuel as [|fuel IH]; intros d Hfs Hp Ed Er; cbn [GetDirectorySize_ directory_size]; [by cbn|].
  apply wp_bind. eapply wp_is_directory; [done|]. rewrite Ed. destruct (a !! d) as [[|c]|] eqn:Ea; cbn [negb]; [|by cbn|by cbn].
  apply wp_bind. eapply wp_opendir; [done|by rewrite Ed|]. intros l [Hnd Hl].
  set (size := fun name => match a !! (d ++ kSeparator :: name) with
    | Some EDirectory => directory_size fuel a (d ++ kSeparator :: name) | Some (EFile c) => Z.of_nat (length c) | None => 0 end).
  assert (foldr Z.add 0 (map size (names_in a d)) = foldr Z.add 0 (map size l)) as ->.
  { destruct (names_in_spec a d) as [Hnd' Hl']. apply sum_permutation, Permutation_map, NoDup_Permutation; [done|done|].
    intros f. rewrite Hl, Hl', Er. done. }
  eapply wp_mono; [apply (wp_foldM works _ (fun l' n w' => w' = w /\ exists k, l = k ++ l' /\ n = u64 (foldr Z.add 0 (map size k))))|].
  - split; [done|]. by exists [].
  - intros f l' n w' [-> (k & E & ->)]. assert (f ∈ l) as Hf by (rewrite E, elem_of_app, elem_of_cons; auto).
    apply Hl in Hf as [_ Hf]. rewrite append_path by done. apply wp_bind. eapply wp_is_directory; [done|]. apply wp_bind.
    assert (forall n, u64 n = u64 (size f) -> wp works (Return (u64 (u64 (foldr Z.add 0 (map size k)) + n)))
      (fun n w' => w' = w /\ exists k, l = k ++ l' /\ n = u64 (foldr Z.add 0 (map size k))) w) as Hnext.
    { intros n En. cbn [wp]. split; [done|]. exists (k ++ [f]). rewrite <-app_assoc. split; [done|]. rewrite map_app, foldr_app. cbn [map foldr].
      assert (forall z l, foldr Z.add z l = foldr Z.add 0 l + z) as Hz by (clear; induction l as [|x l IHl]; cbn; [lia|]; rewrite IHl; lia).
      rewrite (Hz (size f + 0)), Z.add_0_r. unfold wrap in *. rewrite Zplus_mod_idemp_l, Zplus_mod, En. symmetry. apply Zplus_mod. }
    assert (size f = match a !! (d ++ kSeparator :: f) with
      | Some EDirectory => directory_size fuel a (d ++ kSeparator :: f) | Some (EFile c) => Z.of_nat (length c) | None => 0 end) as Es by done.
    rewrite Er. destruct (a !! (d ++ kSeparator :: f)) as [[|c]|] eqn:Ef.
    + eapply wp_mono; [apply IH; [done|by apply is_directory_append|by rewrite Er|]|].
      * intros r. rewrite <-app_assoc. apply (Er (f ++ kSeparator :: r)).
      * intros n w' [-> ->]. apply Hnext. rewrite Es. apply wrap_wrap. lia.
    + eapply wp_get_file_size; [done|]. rewrite Er, Ef. apply Hnext. by rewrite Es.
    + eapply wp_get_file_size; [done|]. rewrite Er, Ef. apply Hnext. by rewrite Es.
  - intros n w' [-> (k & E & ->)]. rewrite app_nil_r in E. by subst k.
Qed.
Lemma wp_attachments_size {sr} db u F w (Q : Z -> World -> Prop) :
  base_dir_ db = base -> holds sr F w -> (forall size, attachments_take u size -> Q size w) ->
  wp works (GetDirectorySize (AttachmentsPath db u)) Q w.
Proof.
  intros Hb (m & Hfs & Hm) HQ. rewrite attachments_path by done. fold (attachments_of u). unfold attachments_take in HQ.
  pose proof (ro_attached _ _ (proj1 Hm)) as Ha. unfold attached_are in Ha. destruct attached_files as [a|].
  - eapply wp_mono; [apply (wp_directory_size a _ _ m); [done|by apply is_directory_append, to_string_name| |]|].
    + apply Ha. by eexists.
    + intros r. apply Ha. exists (ToString u ++ kSeparator :: r). unfold attachments_of. by rewrite <-app_assoc.
    + intros n w' [-> ->]. by apply HQ.
  - apply wp_observes; [apply get_directory_size_observes|]. intros n. by apply HQ.
Qed.

Lemma wp_read_report {sr} db u x F w (Q : option Report -> World -> Prop) :
  base_dir_ db = base -> holds sr F w -> uuid_wf u -> stored_ok x ->
  F !! LFile Dmp (s_completed x, ToString u) = Some (s_contents x) ->
  F !! LFile Meta (s_completed x, ToString u) = Some (meta_bytes x) ->
  (forall r w', describes u x r -> holds sr F w' -> Q (Some r) w') ->
  wp works (ReadMetadata db (path_of base Dmp (s_completed x, ToString u))) Q w.
Proof.
  intros Hb Hw Hu Hx HD HF HQ. pose proof (to_string_key (s_completed x) u) as Hk. set (k := (s_completed x, ToString u)) in *.
  pose proof (meta_valid x Hx) as Hv. pose proof (length_to_bytes _ Hv) as Hl.
  unfold ReadMetadata. change kMetadataExtension with (extension_of Meta). rewrite replace_extension_path, base_name_report by done.
  change (path_of base Meta k) with (path_loc (LFile Meta k)). apply wp_bind.
  eapply wp_loc_open; [done|done|done|done|]. cbn [O_TRUNC]. intros fd w1 Hw1 Ho1. apply wp_bind.
  cbn [k snd]. rewrite initialize_from_to_string by done. apply wp_bind. unfold ReadFileExactly. apply wp_bind.
  eapply (wp_loc_read _ _ (LFile Meta k)); [done|done|done|done|]. cbn zeta. intros w2 Hw2 Ho2. cbn [wp mbind option_bind].
  assert (slice 0 (sizeof ReportMetadata.repr) (meta_bytes x) = to_bytes ReportMetadata.repr (meta_of x)) as Es.
  { unfold slice, meta_bytes. rewrite drop_0. by rewrite take_app_length'. }
  rewrite Es, Hl, Nat.eqb_refl. rewrite of_bytes_exact by (done || apply _). cbn [negb Z.eqb]. rewrite Es in Ho2.
  change (negb (ReportMetadata.version (meta_of x) =? ReportMetadata.kVersion)) with false. cbn match.
  apply wp_bind. unfold LoggingReadToEOF. eapply (wp_loc_read _ _ (LFile Meta k)); [done|done|done|done|]. cbn zeta.
  intros w3 Hw3 _. rewrite Nat.add_0_l. unfold meta_bytes at 1. rewrite drop_app_length.
  apply wp_bind. pose proof Hw3 as (m & Hfs & Hm). eapply wp_get_file_size; [exact Hfs|].
  assert (m !! path_of base Dmp k = Some (EFile (s_contents x))) as ->
    by (change (path_of base Dmp k) with (path_loc (LFile Dmp k)); rewrite (proj2 Hm) by done; by rewrite HD).
  apply wp_bind. eapply wp_attachments_size; [done|exact Hw3|]. intros size Hsize. cbn [wp]. apply wp_bind.
  eapply wp_loc_close; [done|]. intros w4 Hw4. cbn [wp]. apply HQ; [|done]. exists size. split; [done|].
  f_equal; by destruct x as [? ? ? ? [] ? ? []].
Qed.

Lemma wp_clean_read {sr} db u x F w r0 (Q : option Report -> World -> Prop) :
  base_dir_ db = base -> holds sr F w -> uuid_wf u -> stored_ok x ->
  F !! LFile Dmp (s_completed x, ToString u) = Some (s_contents x) ->
  F !! LFile Meta (s_completed x, ToString u) = Some (meta_bytes x) ->
  (forall r w', describes u x r -> holds sr F w' -> Q (Some r) w') ->
  wp works (CleaningReadMetadata db (path_of base Dmp (s_completed x, ToString u)) r0) Q w.
Proof. intros Hb Hw Hu Hx HD HF HQ. apply wp_bind. by eapply wp_read_report. Qed.

Section Lookup.
  Variables (R : Reports) (F : Files).
  Hypothesis HF : represents R F.

Lemma wp_locate {sr} db u bs w (Q : OperationStatus + bytes * option bytes -> World -> Prop) :
  base_dir_ db = base -> holds sr F w -> uuid_wf u ->
  match R !! u with
  | Some x =>
      if bool_decide (s_completed x ∈ bs) then
        forall d w', holds sr (<[LFile Lock (s_completed x, ToString u) := d]> F) w' ->
          Q (inr (path_of base Dmp (s_completed x, ToString u), Some (path_of base Lock (s_completed x, ToString u)))) w'
      else forall w', holds sr F w' -> Q (inl kReportNotFound) w'
  | None => forall w', holds sr F w' -> Q (inl kReportNotFound) w'
  end ->
  wp works (locate_in db u (map state_of bs)) Q w.
Proof.
  intros Hb Hw Hu HQ. revert w Hw. induction bs as [|b bs IH]; intros w Hw; cbn [locate_in map].
  { destruct (R !! u); [case_bool_decide as E; [by apply elem_of_nil in E|]|]; by apply HQ. }
  pose proof (to_string_key b u) as Hk. unfold state_of at 1. rewrite (report_path_at base base_ok) by done. cbn [prog_bind].
  apply wp_bind. eapply wp_acquire; [done|done|by eapply no_lock|]. intros d w1 Hw1. cbn [negb]. apply wp_bind.
  change (path_of base Dmp (b, ToString u)) with (path_loc (LFile Dmp (b, ToString u))) at 1.
  eapply wp_loc_regular; [done|done|]. rewrite lookup_insert_ne by done. rewrite (rp_files R F HF). cbn [expected].
  rewrite find_uuid by done.
  destruct (R !! u) as [x|] eqn:Ex; cbn [mbind option_bind].
  - destruct (eqb_spec (s_completed x) b) as [<-|Hne].
    + rewrite bool_decide_eq_true_2 in HQ by left. rewrite bool_decide_eq_true_2 by done. cbn [negb wp]. by eapply HQ.
    + rewrite bool_decide_eq_false_2 by (by intros []). cbn [negb]. apply wp_bind.
      eapply wp_release; [done|done|apply lookup_insert_eq|]. rewrite delete_lock by (by eapply no_lock). intros w2 Hw2.
      apply IH; [|done]. assert (bool_decide (s_completed x ∈ b :: bs) = bool_decide (s_completed x ∈ bs)) as <-; [|done].
      apply bool_decide_ext. rewrite elem_of_cons. naive_solver.
  - rewrite bool_decide_eq_false_2 by (by intros []). cbn [negb]. apply wp_bind.
    eapply wp_release; [done|done|apply lookup_insert_eq|]. rewrite delete_lock by (by eapply no_lock). intros w2 Hw2. by apply IH.
Qed.

Lemma wp_checkout {sr} db u state bs r0 w (Q : OperationStatus + bytes * option bytes * Report -> World -> Prop) :
  base_dir_ db = base -> (state, bs) = (kSearchable, [false; true]) \/ (state, bs) = (kPending, [false]) ->
  holds sr F w -> uuid_wf u ->
  match R !! u with
  | Some x =>
      if bool_decide (s_completed x ∈ bs) then
        forall r d w', describes u x r -> holds sr (<[LFile Lock (s_completed x, ToString u) := d]> F) w' ->
          Q (inr (path_of base Dmp (s_completed x, ToString u),
                  Some (path_of base Lock (s_completed x, ToString u)), r)) w'
      else forall w', holds sr F w' -> Q (inl kReportNotFound) w'
  | None => forall w', holds sr F w' -> Q (inl kReportNotFound) w'
  end ->
  wp works (CheckoutReport db u state r0) Q w.
Proof.
  intros Hb Hst Hw Hu HQ. unfold CheckoutReport. apply wp_bind.
  assert (LocateAndLockReport db u state = locate_in db u (map state_of bs)) as ->
    by (by destruct Hst as [[= -> ->]|[= -> ->]]).
  apply (wp_locate (sr:=sr)); [done|done|done|]. destruct (R !! u) as [x|] eqn:Ex; [|done]. destruct (rp_ok R F HF u x Ex) as [_ Hx].
  destruct (bool_decide _); [|done]. intros d w1 Hw1. apply wp_bind. eapply wp_clean_read; [done|done|done|done| | |].
  - rewrite lookup_insert_ne by done. by apply (found_files R).
  - rewrite lookup_insert_ne by done. by apply (found_files R).
  - intros r w2 Hr Hw2. cbn [wp]. by eapply HQ.
Qed.

End Lookup.

(** ** The operations *)

(** The database holds the reports [R], and no lock. *)
Definition state (sr : option Settings.settings_record) (R : Reports) (w : World) : Prop := exists F, holds sr F w /\ represents R F.

(** Lookups in files that have been changed. *)
Ltac at_loc :=
  rewrite ?lookup_insert, ?lookup_delete;
  repeat (case_decide; simplify_eq; rewrite ?lookup_insert, ?lookup_delete); try done.
Ltac only_report_auto HF :=
  split; [intros kd b s Hs; at_loc|intros s; at_loc; by rewrite (rp_files _ _ HF)].

Lemma wp_look_up {sr} db u r0 R w (Q : OperationStatus + Report -> World -> Prop) :
  base_dir_ db = base -> state sr R w -> uuid_wf u ->
  (forall a w', match R !! u with
                | Some x => exists r, a = inr r /\ describes u x r
                | None => a = inl kReportNotFound
                end -> state sr R w' -> Q a w') ->
  wp works (LookUpCrashReport db u r0) Q w.
Proof.
  intros Hb (F & Hw & HF) Hu HQ. unfold LookUpCrashReport. apply wp_bind.
  eapply (wp_checkout R F HF db u kSearchable [false; true]); [done|by left|done|done|].
  destruct (R !! u) as [x|] eqn:Ex.
  - rewrite bool_decide_eq_true_2 by (destruct (s_completed x); set_solver). intros r d w1 Hr Hw1. apply wp_bind.
    eapply wp_release; [done|apply to_string_key|apply lookup_insert_eq|].
    rewrite delete_lock by (by eapply no_lock). intros w2 Hw2. cbn [wp]. apply HQ; [eauto|by exists F].
  - intros w1 Hw1. cbn [wp]. apply HQ; [done|by exists F].
Qed.

(** A report that is to be moved to [completed] with other metadata. *)
Definition completed_as (x : Stored) (requested : bool) : Stored :=
  MkStored true (s_contents x) (s_id x) (s_creation_time x) (s_uploaded x) (s_last_upload_attempt_time x)
    (s_upload_attempts x) requested.

Lemma wp_skip {sr} db u R w (Q : OperationStatus -> World -> Prop) :
  base_dir_ db = base -> state sr R w -> uuid_wf u ->
  match R !! u with
  | Some x =>
      if s_completed x then forall w', state sr R w' -> Q kReportNotFound w'
      else forall w', state sr (<[u := completed_as x false]> R) w' -> Q kNoError w'
  | None => forall w', state sr R w' -> Q kReportNotFound w'
  end ->
  wp works (SkipReportUpload db u) Q w.
Proof.
  intros Hb (F & Hw & HF) Hu HQ. unfold SkipReportUpload. apply wp_bind.
  eapply (wp_checkout R F HF db u kPending [false]); [done|by right|done|done|].
  destruct (R !! u) as [x|] eqn:Ex; [|intros w1 Hw1; cbn [wp]; apply HQ; by exists F].
  destruct (s_completed x) eqn:Ec.
  { rewrite bool_decide_eq_false_2 by set_solver. intros w1 Hw1. cbn [wp]. apply HQ. by exists F. }
  rewrite bool_decide_eq_true_2 by set_solver. intros r d w1 Hr Hw1.
  destruct (rp_ok R F HF u x Ex) as [_ Hx]. destruct (found_files R F u x HF Ex) as (E1 & E2 & E3 & E4). rewrite Ec in E1, E2, E3, E4.
  pose proof (to_string_key true u) as Hkt. pose proof (to_string_key false u) as Hkf.
  rewrite (report_path_at base base_ok db u true) by done. cbn [prog_bind]. apply wp_bind.
  eapply wp_acquire; [done|done|by rewrite lookup_insert_ne, (no_lock R F _ HF)|]. intros d' w2 Hw2. cbn [negb].
  apply wp_bind, wp_bind. eapply wp_rewrite_metadata; [done|done|]. intros w3 Hw3. cbn [negb]. apply wp_bind.
  eapply (wp_loc_rename _ _ (LFile Dmp (false, ToString u)) Hw3 Hkf (LFile Dmp (true, ToString u)));
    [done|by rewrite !lookup_insert_ne by done|]. intros w4 Hw4. cbn [negb]. apply wp_bind.
  change kMetadataExtension with (extension_of Meta). rewrite replace_extension_path.
  eapply (wp_loc_unlink _ _ (LFile Meta (false, ToString u)) Hw4); [done|at_loc; done|]. intros w5 Hw5. cbn [wp]. apply wp_bind.
  eapply wp_release; [exact Hw5|done|at_loc; done|]. intros w6 Hw6. apply wp_bind.
  eapply wp_release; [exact Hw6|done|at_loc; done|]. intros w7 Hw7. cbn [wp]. apply HQ. eexists. split; [exact Hw7|].
  apply (represents_insert R F); [done|done|done|only_report_auto HF|].
  intros kd b. destruct kd, b; cbn [completed_as s_completed eqb s_contents]; at_loc; rewrite ?(no_lock R F _ HF); try done.
  by destruct Hr as (size & _ & ->).
Qed.

Lemma wp_delete {sr} db u R w (Q : OperationStatus -> World -> Prop) :
  attached_files = None -> base_dir_ db = base -> state sr R w -> uuid_wf u ->
  (forall w', state sr (delete u R) w' -> Q (match R !! u with Some _ => kNoError | None => kReportNotFound end) w') ->
  wp works (DeleteReport db u) Q w.
Proof.
  intros Ea Hb (F & Hw & HF) Hu HQ. unfold DeleteReport. apply wp_bind.
  change (LocateAndLockReport db u kSearchable) with (locate_in db u (map state_of [false; true])).
  eapply (wp_locate R F HF); [done|done|done|]. destruct (R !! u) as [x|] eqn:Ex.
  2: { intros w1 Hw1. cbn [wp]. apply HQ. exists F. split; [done|]. by rewrite delete_id. }
  rewrite bool_decide_eq_true_2 by (destruct (s_completed x); set_solver). intros d w1 Hw1.
  destruct (found_files R F u x HF Ex) as (E1 & E2 & E3 & E4). pose proof (to_string_key (s_completed x) u) as Hk.
  apply wp_bind, wp_bind. eapply (wp_loc_unlink _ _ (LFile Dmp (s_completed x, ToString u)) Hw1); [done|at_loc; done|].
  intros w2 Hw2. cbn [negb]. apply wp_bind. change kMetadataExtension with (extension_of Meta). rewrite replace_extension_path.
  eapply (wp_loc_unlink _ _ (LFile Meta (s_completed x, ToString u)) Hw2); [done|at_loc; done|].
  intros w3 Hw3. cbn [negb]. apply wp_bind. eapply wp_remove_attachments; [done|done|exact Hw3|]. intros w4 Hw4. cbn [wp].
  apply wp_bind. eapply wp_release; [exact Hw4|done|at_loc; done|]. intros w5 Hw5. cbn [wp]. apply HQ.
  eexists. split; [exact Hw5|]. apply (represents_delete R F); [done|done|only_report_auto HF|].
  intros kd b. destruct kd, b, (s_completed x); at_loc; by eapply no_lock.
Qed.

Definition requested_as (x : Stored) : Stored :=
  MkStored false (s_contents x) (s_id x) (s_creation_time x) (s_uploaded x) (s_last_upload_attempt_time x)
    (s_upload_attempts x) true.

Lemma wp_request {sr} db u R w (Q : OperationStatus -> World -> Prop) :
  base_dir_ db = base -> state sr R w -> uuid_wf u ->
  match R !! u with
  | Some x =>
      if s_uploaded x then forall w', state sr R w' -> Q kCannotRequestUpload w'
      else forall w', state sr (<[u := requested_as x]> R) w' -> Q kNoError w'
  | None => forall w', state sr R w' -> Q kReportNotFound w'
  end ->
  wp works (RequestUpload db u) Q w.
Proof.
  intros Hb (F & Hw & HF) Hu HQ. unfold RequestUpload. apply wp_bind.
  eapply (wp_checkout R F HF db u kSearchable [false; true]); [done|by left|done|done|].
  destruct (R !! u) as [x|] eqn:Ex; [|intros w1 Hw1; cbn [wp]; apply HQ; by exists F].
  rewrite bool_decide_eq_true_2 by (destruct (s_completed x); set_solver). intros r d w1 Hr Hw1.
  destruct (rp_ok R F HF u x Ex) as [_ Hx]. destruct (found_files R F u x HF Ex) as (E1 & E2 & E3 & E4).
  assert (uploaded r = s_uploaded x) as -> by (by destruct Hr as (size & _ & ->)). apply wp_bind.
  destruct (s_uploaded x) eqn:Eup.
  { cbn [wp]. apply wp_bind. eapply wp_release; [exact Hw1|apply to_string_key|apply lookup_insert_eq|].
    rewrite delete_lock by (by eapply no_lock). intros w2 Hw2. cbn [wp]. apply HQ. by exists F. }
  pose proof (to_string_key (s_completed x) u) as Hk. pose proof (to_string_key false u) as Hkf.
  rewrite (report_path_at base base_ok db u false) by done. cbn [prog_bind]. apply wp_bind.
  eapply (wp_loc_rename _ _ (LFile Dmp (s_completed x, ToString u)) Hw1 Hk (LFile Dmp (false, ToString u)));
    [done|by rewrite !lookup_insert_ne by done|]. intros w2 Hw2. cbn [negb]. apply wp_bind.
  eapply wp_rewrite_metadata; [exact Hw2|done|]. intros w3 Hw3. cbn [negb].
  assert (to_bytes ReportMetadata.repr (metadata_of (with_requested r true)) ++ id (with_requested r true) =
    meta_bytes (requested_as x)) as Em by (by destruct Hr as (size & _ & ->)). rewrite Em in Hw3.
  destruct (s_completed x) eqn:Ec.
  - rewrite bool_decide_eq_true_2
      by (intros E; by destruct (path_of_inj base Dmp (false, ToString u) Dmp (true, ToString u) Hkf Hk E)).
    apply wp_bind. change kMetadataExtension with (extension_of Meta). rewrite replace_extension_path.
    eapply (wp_loc_unlink _ _ (LFile Meta (true, ToString u)) Hw3); [done|at_loc; done|]. intros w4 Hw4. cbn [wp].
    apply wp_bind. eapply wp_release; [exact Hw4|done|at_loc; done|]. intros w5 Hw5. cbn [wp]. apply HQ.
    eexists. split; [exact Hw5|]. apply (represents_insert R F); [done|done|done|only_report_auto HF|].
    intros kd b. destruct kd, b; cbn [requested_as s_completed eqb s_contents]; at_loc; rewrite ?(no_lock R F _ HF); done.
  - rewrite bool_decide_eq_false_2 by (intros Hne; by apply Hne). cbn [wp].
    apply wp_bind. eapply wp_release; [exact Hw3|done|at_loc; done|]. intros w5 Hw5. cbn [wp]. apply HQ.
    eexists. split; [exact Hw5|]. apply (represents_insert R F); [done|done|done|only_report_auto HF|].
    intros kd b. destruct kd, b; cbn [requested_as s_completed eqb s_contents]; at_loc; rewrite ?(no_lock R F _ HF); done.
Qed.

(** ** Uploads *)

(** The attachments of a report are files. *)
Definition plain_attachments (u : UUID) : Prop :=
  match attached_files with Some a => forall f, a !! (attachments_of u ++ kSeparator :: f) <> Some EDirectory | None => False end.

(** The handles of a list of readers are open, and can be read if they are those of files. *)
Definition readers_open (u : UUID) (l : list (bytes * nat)) (w : World) : Prop :=
  Forall (fun a => open_files w !! a.2 <> None) l /\ (plain_attachments u -> Forall (readable w) l.*2).

Lemma wp_open_attachment {sr} u f readers F w (Q : option nat -> World -> Prop) :
  holds sr F w -> readers_open u readers w ->
  (forall r w', holds sr F w' -> readers_open u (readers ++ match r with Some fd => [(f, fd)] | None => [] end) w' -> Q r w') ->
  wp works (OpenFileForRead (attachments_of u ++ kSeparator :: f)) Q w.
Proof.
  intros (m & [Hw Em] & Hm) [Ho Hr] HQ. apply wp_call. intros o (Hok & _).
  destruct (open_to_read (attachments_of u ++ kSeparator :: f) w o Hw Hok) as (En & Ei & Hkeep & Hread & Hnew).
  destruct (perform _ o w) as [r w']. cbn [fst snd] in *. apply HQ; [exists m; split; [by apply (fs_handles m w)|done]|]. split.
  - apply Forall_app. split; [eapply Forall_impl; [exact Ho|]; intros a Ha; cbn beta in *; by rewrite Hkeep|].
    destruct r as [fd|]; [|constructor]. apply Forall_singleton. apply Hnew.
  - intros Hp. rewrite fmap_app. apply Forall_app. split; [eapply Forall_impl; [by apply Hr|exact Hread]|].
    destruct r as [fd|]; [|constructor]. apply Forall_singleton. apply Hnew. intros E. unfold plain_attachments in Hp.
    pose proof (ro_attached _ _ (proj1 Hm)) as Ha. unfold attached_are in Ha. destruct attached_files as [a|]; [|done].
    apply (Hp f). rewrite <-Ha; [|exists (ToString u ++ kSeparator :: f); unfold attachments_of; by rewrite <-app_assoc].
    rewrite <-Em, view_lookup, E. done.
Qed.

Lemma wp_initialize_attachments {sr} db u F w (Q : list (bytes * nat) -> World -> Prop) :
  base_dir_ db = base -> holds sr F w -> (forall l w', holds sr F w' -> readers_open u l w' -> Q l w') -> wp works (InitializeAttachments db u) Q w.
Proof.
  intros Hb Hw HQ. unfold InitializeAttachments. rewrite attachments_path by done. fold (attachments_of u).
  assert (readers_open u [] w) as Hnil by (split; constructor). apply wp_bind, wp_call. intros o (Ho & _). cbn [perform]. rewrite Ho.
  case_bool_decide; [|by apply HQ]. cbn [fst snd].
  eapply wp_mono; [apply (wp_foldM works _ (fun l readers w' => Forall is_name l /\ holds sr F w' /\ readers_open u readers w'))|].
  - split; [apply children_names|done].
  - intros f l readers w' ([Hf Hl]%Forall_cons & Hw' & Hr). rewrite append_path by (done || by apply is_directory_append, to_string_name).
    apply wp_bind. eapply wp_open_attachment; [exact Hw'|exact Hr|]. intros [fd|] w'' Hw'' Hr''; cbn [wp]; [done|].
    by rewrite app_nil_r in Hr''.
  - intros l w' (_ & ? & ?). by apply HQ.
Qed.

Lemma wp_close_all {sr} {A} (f : A -> nat) l F w (Q : unit -> World -> Prop) :
  holds sr F w -> (forall w', holds sr F w' -> Q tt w') -> wp works (foldM (fun _ a => CloseFile (f a)) l tt) Q w.
Proof.
  intros Hw HQ. eapply wp_mono; [apply (wp_foldM works _ (fun _ _ w' => holds sr F w'))|]; [done| |intros [] w'; apply HQ].
  intros a l' [] w' Hw'. eapply wp_loc_close; [done|]. done.
Qed.

Lemma wp_close_readers {sr} upload F w (Q : unit -> World -> Prop) :
  holds sr F w -> (forall w', holds sr F w' -> Q tt w') -> wp works (close_readers upload) Q w.
Proof.
  intros Hw HQ. unfold close_readers. apply wp_bind. apply (wp_close_all (sr:=sr) snd _ F); [done|]. intros w1 Hw1.
  destruct (reader_ upload); [|by apply HQ]. by eapply wp_loc_close.
Qed.

(** An upload of the report [u], which is [x]. *)
Record uploads (u : UUID) (x : Stored) (upload : UploadReport) : Prop := {
  ups_report : describes u x (up_report upload);
  ups_database : database_ upload = true;
  ups_lock : lock_file upload = Some (path_of base Lock (false, ToString u))
}.

(** The reader of an upload is at the start of the report, and is its own handle. *)
Definition reader_ready (u : UUID) (upload : UploadReport) (w : World) : Prop :=
  exists fd, reader_ upload = Some fd /\ opened w fd (path_loc (LFile Dmp (false, ToString u))) 0 /\
    Forall (fun a => a.2 <> fd) (attachment_readers_ upload) /\
    (plain_attachments u -> Forall (readable w) (attachment_readers_ upload).*2).

Lemma wp_get_for_uploading {sr} db u R F w (Q : (OperationStatus + UploadReport) * Database -> World -> Prop) :
  base_dir_ db = base -> represents R F -> holds sr F w -> uuid_wf u ->
  match R !! u with
  | Some x =>
      if s_completed x then forall w', holds sr F w' -> Q (inl kReportNotFound, db) w'
      else forall upload d w', uploads u x upload ->
        reader_ready u upload w' ->
        holds sr (<[LFile Lock (false, ToString u) := d]> F) w' -> Q (inr upload, db) w'
  | None => forall w', holds sr F w' -> Q (inl kReportNotFound, db) w'
  end ->
  wp works (GetReportForUploading db u) Q w.
Proof.
  intros Hb HF Hw Hu HQ. unfold GetReportForUploading. apply wp_bind.
  eapply (wp_checkout R F HF db u kPending [false]); [done|by right|done|done|].
  destruct (R !! u) as [x|] eqn:Ex; [|intros w1 Hw1; cbn [wp]; by apply HQ]. destruct (s_completed x) eqn:Ec.
  { rewrite bool_decide_eq_false_2 by set_solver. intros w1 Hw1. cbn [wp]. by apply HQ. }
  rewrite bool_decide_eq_true_2 by set_solver. intros r d w1 Hr Hw1. apply wp_bind.
  assert (uuid r = u) as -> by (by destruct Hr as (size & _ & ->)).
  eapply wp_initialize_attachments; [done|exact Hw1|]. intros readers w2 Hw2 [Hopen Hread]. apply wp_bind.
  apply (wp_frame works (fun w' => plain_attachments u -> Forall (readable w') readers.*2)).
  { apply wp_call. intros o (Ho & _). pose proof Hw2 as (m & [Hok _] & _).
    destruct (open_to_read (path_of base Dmp (false, ToString u)) w2 o Hok Ho) as (_ & _ & _ & Hk & _). intros Hp.
    eapply Forall_impl; [by apply Hread|exact Hk]. }
  apply wp_open_fresh.
  destruct (found_files R F u x HF Ex) as (E1 & _). rewrite Ec in E1.
  change (path_of base Dmp (false, ToString u)) with (path_loc (LFile Dmp (false, ToString u))).
  eapply (wp_loc_open _ _ (LFile Dmp (false, ToString u)) Hw2 (to_string_key false u)); [rewrite lookup_insert_ne by done; exact E1|done|].
  cbn [O_TRUNC]. intros fd w3 Hw3 Ho _ Hfresh _ Hread'. cbn [wp]. eapply HQ; [by split| |exact Hw3].
  exists fd. split_and!; [done|done| |done]. eapply Forall_impl; [exact Hopen|]. cbn. intros a Ha E. congruence.
Qed.

Definition attempted (x : Stored) (successful : bool) (new_id : bytes) (now : Z) : Stored :=
  MkStored successful (s_contents x) new_id (s_creation_time x) successful now (s_upload_attempts x + 1)
    (if successful then false else s_requested x).

Lemma attempted_ok x b i now :
  stored_ok x -> s_upload_attempts x < 2 ^ 31 - 1 -> 0 <= now < 2 ^ 63 -> stored_ok (attempted x b i now).
Proof.
  intros (H1%fits_signed_spec & H2 & H3) Ha Hn. split_and!; [|apply fits_signed_spec; cbn|done]; [|lia].
  apply fits_signed_spec. cbn [attempted s_upload_attempts]. lia.
Qed.

(** The part of [RecordUploadAttempt] after the report has been moved, if it is. *)
Lemma wp_finish_attempt {sr} db now k report lock upload F w (Q : OperationStatus * UploadReport * Database -> World -> Prop) :
  db_ready db -> holds sr F w -> key_ok k -> 0 <= now < 2 ^ 63 ->
  (forall db' w', db_ready db' ->
     holds (noted now sr) (<[LFile Meta k := to_bytes ReportMetadata.repr (metadata_of report) ++ id report]> F) w' ->
     wp works (ReleaseLock lock) (fun _ w'' => Q (kNoError, upload, db') w'') w') ->
  wp works
    (let* ok := WriteMetadata (path_of base Dmp k) report in
     if negb ok then let* _ := ReleaseLock lock in Return (kDatabaseError, upload, db)
     else
       let* db := SettingsInternal db in
       let* ok := Settings.SetLastUploadAttemptTime (settings_ db) now in
       let* _ := ReleaseLock lock in
       Return (if (ok : bool) then kNoError else kDatabaseError, upload, db)) Q w.
Proof.
  intros Hdb Hw Hk Hnow HQ. apply wp_bind. eapply wp_rewrite_metadata; [done|done|]. intros w1 Hw1. cbn [negb].
  apply wp_bind. eapply wp_settings_internal; [done|exact Hw1|]. intros db' w2 Hdb' Hi Hw2. apply wp_bind.
  eapply wp_set_last_upload; [done|done|exact Hw2|done|]. intros w3 Hw3. apply wp_bind. by apply HQ.
Qed.

Section Attempt.
  Context {sr : option Settings.settings_record}.
  Variables (db : Database) (R : Reports) (F : Files) (u : UUID) (x : Stored) (upload : UploadReport) (d : bytes) (w : World).
  Hypothesis db_ok : db_ready db.
  Hypothesis HF : represents R F.
  Hypothesis Hu : uuid_wf u.
  Hypothesis Ex : R !! u = Some x.
  Hypothesis pending : s_completed x = false.
  Hypothesis attempts : s_upload_attempts x < 2 ^ 31 - 1.
  Hypothesis Hup : uploads u x upload.
  Hypothesis Hw : holds sr (<[LFile Lock (false, ToString u) := d]> F) w.

Lemma wp_record_complete new_id (Q : OperationStatus * Database -> World -> Prop) :
  (forall now db' w', 0 <= now < 2 ^ 63 -> clock now -> db_ready db' ->
     state (noted now sr) (<[u := attempted x true new_id now]> R) w' -> Q (kNoError, db') w') ->
  wp works (RecordUploadComplete db upload new_id) Q w.
Proof.
  intros HQ. pose proof (proj1 db_ok) as Hb. destruct Hup as [(size & _ & Hr) Hd Hl].
  destruct (rp_ok R F HF u x Ex) as [_ Hx]. destruct (found_files R F u x HF Ex) as (E1 & E2 & E3 & E4). rewrite pending in E1, E2, E3, E4, Hr.
  pose proof (to_string_key true u) as Hkt. pose proof (to_string_key false u) as Hkf.
  unfold RecordUploadComplete, RecordUploadAttempt. cbn [up_report reader_ attachment_readers_ database_ lock_file].
  rewrite Hr. cbn [uuid file_path creation_time upload_attempts upload_explicitly_requested total_size].
  apply wp_bind, wp_bind, wp_clock. intros now Hnow Hclock. rewrite (report_path_at base base_ok db u true) by done. cbn [prog_bind].
  apply wp_bind. eapply wp_acquire; [exact Hw|done|by rewrite lookup_insert_ne, (no_lock R F _ HF)|].
  intros d' w2 Hw2. cbn [negb]. apply wp_bind.
  match goal with |- wp _ _ ?K _ => assert (forall w', holds sr (<[LFile Lock (true, ToString u) := d']>
    (<[LFile Lock (false, ToString u) := d]> F)) w' -> K tt w') as Hrest end.
  2: { destruct (reader_ upload); [by eapply wp_loc_close|by apply Hrest]. }
  intros w3 Hw3. apply wp_bind.
  eapply (wp_loc_rename _ _ (LFile Dmp (false, ToString u)) Hw3 Hkf (LFile Dmp (true, ToString u)));
    [done|by rewrite !lookup_insert_ne by done|]. intros w4 Hw4. cbn [negb]. apply wp_bind.
  change kMetadataExtension with (extension_of Meta). rewrite replace_extension_path.
  eapply (wp_loc_unlink _ _ (LFile Meta (false, ToString u)) Hw4); [done|at_loc; done|]. intros w5 Hw5.
  eapply wp_finish_attempt; [done|exact Hw5|done|done|]. intros db' w6 Hdb' Hw6.
  eapply wp_release; [exact Hw6|done|at_loc; done|]. intros w7 Hw7. cbn beta iota. apply wp_bind. unfold DestroyUploadReport.
  cbn [lock_file database_]. rewrite Hl. apply wp_bind. eapply wp_release; [exact Hw7|done|at_loc; done|]. intros w8 Hw8.
  cbn [prog_bind]. apply wp_bind. eapply wp_close_readers; [exact Hw8|]. intros w9 Hw9. cbn [wp].
  eapply HQ; [done|done|done|]. eexists. split; [exact Hw9|].
  apply (represents_insert R F); [done|done|by apply attempted_ok|only_report_auto HF|].
  intros kd b. destruct kd, b; cbn [attempted s_completed eqb s_contents]; at_loc; rewrite ?(no_lock R F _ HF); done.
Qed.

Lemma wp_destroy_upload (Q : Database -> World -> Prop) :
  (forall now db' w', 0 <= now < 2 ^ 63 -> clock now -> db_ready db' ->
     state (noted now sr) (<[u := attempted x false [] now]> R) w' -> Q db' w') ->
  wp works (DestroyUploadReport db upload) Q w.
Proof.
  intros HQ. pose proof (proj1 db_ok) as Hb. destruct Hup as [(size & _ & Hr) Hd Hl].
  destruct (rp_ok R F HF u x Ex) as [_ Hx]. destruct (found_files R F u x HF Ex) as (E1 & E2 & E3 & E4). rewrite pending in E1, E2, E3, E4, Hr.
  pose proof (to_string_key false u) as Hkf. unfold DestroyUploadReport. rewrite Hl, Hd.
  apply wp_bind. eapply wp_release; [exact Hw|done|apply lookup_insert_eq|]. rewrite delete_lock by (by eapply no_lock).
  intros w2 Hw2. apply wp_bind, wp_bind. unfold RecordUploadAttempt. rewrite Hr.
  cbn [uuid file_path creation_time upload_attempts upload_explicitly_requested total_size].
  apply wp_bind, wp_clock. intros now Hnow Hclock. eapply wp_finish_attempt; [done|exact Hw2|done|done|]. intros db' w3 Hdb' Hw3.
  cbn [ReleaseLock wp snd]. apply wp_bind. eapply wp_close_readers; [exact Hw3|]. intros w4 Hw4. cbn [wp].
  eapply HQ; [done|done|done|]. eexists. split; [exact Hw4|].
  apply (represents_insert R F); [done|done|by apply attempted_ok|only_report_auto HF|].
  intros kd b. destruct kd, b; cbn [attempted s_completed eqb s_contents]; at_loc; rewrite ?(no_lock R F _ HF); done.
Qed.
End Attempt.

(** [GetReportForUploading], and what is done with the report. *)
Lemma wp_checked_out {A sr} db u R w (k : Database -> UploadReport -> Prog A) (other : OperationStatus -> Database -> A)
    (Q : A -> World -> Prop) :
  db_ready db -> state sr R w -> uuid_wf u ->
  match R !! u with
  | Some x =>
      if s_completed x then forall w', state sr R w' -> Q (other kReportNotFound db) w'
      else forall F upload d w', represents R F -> uploads u x upload ->
        reader_ready u upload w' ->
        holds sr (<[LFile Lock (false, ToString u) := d]> F) w' -> wp works (k db upload) Q w'
  | None => forall w', state sr R w' -> Q (other kReportNotFound db) w'
  end ->
  wp works (let* '(r, db) := GetReportForUploading db u in
            match r with inl os => Return (other os db) | inr upload => k db upload end) Q w.
Proof.
  intros Hdb (F & Hw & HF) Hu HQ. pose proof (proj1 Hdb) as Hb. apply wp_bind. eapply wp_get_for_uploading; [done|done|done|done|].
  destruct (R !! u) as [x|] eqn:Ex; [|intros w1 Hw1; cbn [wp]; apply HQ; by exists F].
  destruct (s_completed x) eqn:Ec; [intros w1 Hw1; cbn [wp]; apply HQ; by exists F|].
  intros upload d w1 Hup Ho Hw1. by eapply HQ.
Qed.

Lemma wp_upload {sr} db u new_id R w (Q : OperationStatus * Database -> World -> Prop) :
  db_ready db -> state sr R w -> uuid_wf u ->
  match R !! u with
  | Some x =>
      if s_completed x then forall w', state sr R w' -> Q (kReportNotFound, db) w'
      else s_upload_attempts x < 2 ^ 31 - 1 /\
        forall now db' w', 0 <= now < 2 ^ 63 -> clock now -> db_ready db' ->
          state (noted now sr) (<[u := attempted x true new_id now]> R) w' -> Q (kNoError, db') w'
  | None => forall w', state sr R w' -> Q (kReportNotFound, db) w'
  end ->
  wp works (let* '(r, db) := GetReportForUploading db u in
            match r with
            | inl os => Return (os, db)
            | inr upload => RecordUploadComplete db upload new_id
            end) Q w.
Proof.
  intros Hdb Hs Hu HQ. apply (wp_checked_out (sr:=sr) db u R w (fun db upload => RecordUploadComplete db upload new_id) pair); [done|done|done|].
  destruct (R !! u) as [x|] eqn:Ex; [|done]. destruct (s_completed x) eqn:Ec; [done|]. destruct HQ as [Ha HQ].
  intros F upload d w1 HF Hup _ Hw1. by eapply (wp_record_complete db R F u x upload d w1).
Qed.

Lemma wp_give_up {sr} db u R w (Q : OperationStatus * Database -> World -> Prop) :
  db_ready db -> state sr R w -> uuid_wf u ->
  match R !! u with
  | Some x =>
      if s_completed x then forall w', state sr R w' -> Q (kReportNotFound, db) w'
      else s_upload_attempts x < 2 ^ 31 - 1 /\
        forall now db' w', 0 <= now < 2 ^ 63 -> clock now -> db_ready db' ->
          state (noted now sr) (<[u := attempted x false [] now]> R) w' -> Q (kNoError, db') w'
  | None => forall w', state sr R w' -> Q (kReportNotFound, db) w'
  end ->
  wp works (let* '(r, db) := GetReportForUploading db u in
            match r with
            | inl os => Return (os, db)
            | inr upload => let* db := DestroyUploadReport db upload in Return (kNoError, db)
            end) Q w.
Proof.
  intros Hdb Hs Hu HQ.
  apply (wp_checked_out (sr:=sr) db u R w (fun db upload => let* db := DestroyUploadReport db upload in Return (kNoError, db)) pair); [done|done|done|].
  destruct (R !! u) as [x|] eqn:Ex; [|done]. destruct (s_completed x) eqn:Ec; [done|]. destruct HQ as [Ha HQ].
  intros F upload d w1 HF Hup _ Hw1. apply wp_bind. eapply (wp_destroy_upload db R F u x upload d w1); [done..|].
  intros now db' w2 Hn Hc Hdb' Hs2. cbn [wp]. by eapply HQ.
Qed.

(** ** New reports *)

(** A report that has just been written. *)
Definition created (contents : bytes) (now : Z) : Stored := MkStored false contents [] now false 0 0 false.

(** Random bytes that are not those of a report in the database. *)
Definition fresh_works (R : Reports) (o : Outcome) : Prop := works o /\ R !! InitializeWithNew (entropy o) = None.

Lemma wp_write_contents {sr} l fd pos d contents F w (Q : unit -> World -> Prop) :
  holds sr F w -> loc_ok l -> opened w fd (path_loc l) pos -> F !! l = Some d -> pos = length d ->
  (forall w', holds sr (<[l := d ++ concat contents]> F) w' -> Q tt w') ->
  wp works (foldM (fun _ d => let* _ := LoggingWriteFile fd d in Return tt) contents tt) Q w.
Proof.
  intros Hw Hl. revert pos d F w Hw. induction contents as [|c contents IH]; intros pos d F w Hw Ho HF -> HQ; cbn [foldM concat].
  - cbn [wp]. apply HQ. by rewrite app_nil_r, insert_id.
  - apply wp_bind, wp_bind. eapply (wp_loc_write _ _ l); [done|done|done|done|]. intros w1 Hw1 Ho1. rewrite write_at_end in Hw1.
    cbn [wp]. eapply IH; [exact Hw1|exact Ho1|apply lookup_insert_eq|by rewrite length_app|].
    intros w2 Hw2. apply HQ. rewrite insert_insert_eq in Hw2. by rewrite <-app_assoc in Hw2.
Qed.

Lemma wp_create {sr} db contents R w (Q : OperationStatus + UUID -> World -> Prop) :
  base_dir_ db = base -> state sr R w ->
  (forall u now w', 0 <= now < 2 ^ 63 -> uuid_wf u -> R !! u = None ->
     state sr (<[u := created (concat contents) now]> R) w' -> Q (inr u) w') ->
  wp (fresh_works R)
    (let* r := PrepareNewCrashReport db in
     match r with
     | inl os => Return (inl os)
     | inr report =>
         let* _ := foldM (fun _ d => let* _ := LoggingWriteFile (writer_ report) d in Return tt) contents tt in
         FinishedWritingCrashReport db report
     end) Q w.
Proof.
  intros Hb (F & Hw & HF) HQ. unfold PrepareNewCrashReport. cbn [call prog_bind wp]. intros o [(Ho & _ & Hl & Hby) Hfresh].
  cbn [perform]. rewrite Ho. cbn [fst snd]. set (u := InitializeWithNew (entropy o)) in *.
  assert (uuid_wf u) as Hu by (by apply new_uuid_wf). apply (wp_weaken _ works); [by intros ? [? _]|].
  pose proof (to_string_key false u) as Hk. assert (loc_ok (LNew (ToString u))) as Hln by (apply Hk).
  assert (Append (Append (base_dir_ db) kNewDirectory) (ToString u ++ kCrashReportExtension) = path_loc (LNew (ToString u))) as ->.
  { assert (is_name kNewDirectory) as Hn by (split; [done|]; apply (bool_decide_unpack _); vm_compute; exact I).
    rewrite Hb, (append_path base) by done. apply append_path; [by apply is_directory_append|by apply (file_name_ok Dmp)]. }
  assert (forall kd b, F !! LFile kd (b, ToString u) = None) as Hnone.
  { intros kd b. rewrite (rp_files R F HF). cbn [expected]. rewrite find_uuid, Hfresh by done. by destruct kd. }
  apply wp_bind, wp_bind. eapply wp_loc_create; [done|done|by rewrite (rp_files R F HF)|done|].
  intros fd w1 Hw1 Ho1. cbn [wp writer_]. apply wp_bind.
  eapply (wp_write_contents (LNew (ToString u))); [done|done|done|apply lookup_insert_eq|done|]. intros w2 Hw2.
  rewrite insert_insert_eq in Hw2. cbn [app] in Hw2. unfold FinishedWritingCrashReport. cbn [new_uuid writer_ file_remover_ new_attachments].
  rewrite (report_path_at base base_ok db u false) by done. cbn [prog_bind]. apply wp_bind.
  eapply wp_acquire; [exact Hw2|done|by rewrite lookup_insert_ne|]. intros d w3 Hw3. cbn [negb].
  change kMetadataExtension with (extension_of Meta). rewrite replace_extension_path. apply wp_bind.
  eapply wp_new_metadata; [exact Hw3|done|by rewrite !lookup_insert_ne|]. intros now w4 Hnow Hw4. cbn [negb].
  apply wp_bind. destruct Hw4 as (m4 & Hfs4 & Hm4). eapply wp_lseek_end; [exact Hfs4|]. intros r w5 Hfs5.
  apply wp_bind. eapply wp_close; [exact Hfs5|]. intros w6 Hfs6. assert (holds sr _ w6) as Hw6 by (exists m4; split; [exact Hfs6|exact Hm4]).
  apply wp_bind. eapply (wp_loc_rename _ _ (LNew (ToString u)) Hw6 Hln (LFile Dmp (false, ToString u)));
    [done|at_loc; done|]. intros w7 Hw7. cbn [negb foldM prog_bind]. apply wp_bind.
  eapply wp_release; [exact Hw7|done|at_loc; done|]. intros w8 Hw8. cbn [wp]. apply (HQ u now); [done|done|done|].
  eexists. split; [exact Hw8|]. apply (represents_insert R F); [done|done| |only_report_auto HF|].
  - split_and!; [done|done|]. cbn. apply fits_signed_spec. lia.
  - intros kd b. destruct kd, b; cbn [created s_completed eqb s_contents]; at_loc; rewrite ?Hnone; done.
Qed.

(** ** Lists of reports *)

Definition report_name (u : UUID) : bytes := ToString u ++ kCrashReportExtension.

Lemma report_name_inj u v : uuid_wf u -> uuid_wf v -> report_name u = report_name v -> u = v.
Proof.
  intros Hu Hv E. apply app_inv_tail in E. apply (f_equal InitializeFromString) in E.
  rewrite !initialize_from_to_string in E by done. by injection E.
Qed.

(** The reports [l] are those in the state [b] whose file name is in [names]. *)
Record covers (R : Reports) (b : bool) (names : list bytes) (l : list Report) : Prop := {
  cov_sound : forall r, r ∈ l -> exists x, R !! uuid r = Some x /\ s_completed x = b /\
    describes (uuid r) x r /\ report_name (uuid r) ∈ names;
  cov_complete : forall u x, R !! u = Some x -> s_completed x = b -> report_name u ∈ names ->
    exists r, r ∈ l /\ uuid r = u;
  cov_distinct : NoDup (map uuid l)
}.

Lemma covers_skip R b names l f :
  covers R b names l -> (forall u x, R !! u = Some x -> s_completed x = b -> report_name u <> f) ->
  covers R b (names ++ [f]) l.
Proof.
  intros [H1 H2 H3] Hf. split; [|intros u x Hx Hb|done].
  - intros r Hr. destruct (H1 r Hr) as (x & ? & ? & ? & ?). exists x. split_and!; try done. apply elem_of_app. by left.
  - rewrite elem_of_app, list_elem_of_singleton. intros [Hin|E]; [by apply (H2 u x)|]. by destruct (Hf u x).
Qed.

Lemma covers_add R b names l u x r :
  covers R b names l -> R !! u = Some x -> s_completed x = b -> describes u x r ->
  (forall v y, R !! v = Some y -> uuid_wf v) -> report_name u ∉ names -> covers R b (names ++ [report_name u]) (l ++ [r]).
Proof.
  intros [H1 H2 H3] Hx Hb Hr Hwf Hn. assert (uuid r = u) as Eu by (by destruct Hr as (size & _ & ->)). split.
  - intros r'. rewrite elem_of_app, list_elem_of_singleton. intros [Hin| ->].
    + destruct (H1 r' Hin) as (y & ? & ? & ? & ?). exists y. split_and!; try done. apply elem_of_app. by left.
    + exists x. rewrite Eu. split_and!; try done. apply elem_of_app. right. by apply list_elem_of_singleton.
  - intros v y Hy Hyb. rewrite elem_of_app, list_elem_of_singleton. intros [Hin|E].
    + destruct (H2 v y Hy Hyb Hin) as (r' & Hr' & E). exists r'. split; [|done]. apply elem_of_app. by left.
    + apply report_name_inj in E as ->; [|by eapply Hwf|by eapply Hwf]. exists r. split; [|done]. apply elem_of_app. right. by apply list_elem_of_singleton.
  - rewrite map_app. cbn [map]. rewrite Eu. apply NoDup_app. split_and!; [done| |by apply NoDup_singleton].
    intros v (r' & -> & Hr')%list_elem_of_fmap E%list_elem_of_singleton.
    destruct (H1 r' Hr') as (_ & _ & _ & _ & Hin). by rewrite E in Hin.
Qed.

(** The reports in the state [b]. *)
Definition lists (R : Reports) (b : bool) (l : list Report) : Prop :=
  NoDup (map uuid l) /\
  (forall r, r ∈ l -> exists x, R !! uuid r = Some x /\ s_completed x = b /\ describes (uuid r) x r) /\
  (forall u x, R !! u = Some x -> s_completed x = b -> exists r, r ∈ l /\ uuid r = u).

Lemma wp_report_in_directory {sr} R F db b names reports f w (Q : list Report -> World -> Prop) :
  represents R F -> base_dir_ db = base -> holds sr F w -> is_name f -> f ∉ names -> covers R b names reports ->
  (FinalExtension f = kCrashReportExtension ->
     forall s, Append (dir_path base b) f = path_of base Dmp (b, s) -> exists u x, s = ToString u /\ R !! u = Some x /\ s_completed x = b) ->
  (forall l w', covers R b (names ++ [f]) l -> holds sr F w' -> Q l w') ->
  wp works (report_in_directory db (dir_path base b) reports f) Q w.
Proof.
  intros HF Hb Hw Hf Hn Hc Hs HQ. unfold report_in_directory. case_bool_decide as He; cbn [negb].
  2: { apply HQ; [|done]. apply covers_skip; [done|]. intros u x _ _ <-. destruct He.
       exact (final_extension_ends (ToString u) _ (extension_ok Dmp)). }
  destruct (listed_report base b f Hf He) as (s & Hsk & Es).
  destruct (Hs He s Es) as (u & x & -> & Hx & Hxb). destruct (rp_ok R F HF u x Hx) as [Hu Hok].
  rewrite Es. apply wp_bind. eapply wp_acquire; [done|done|by eapply no_lock|]. intros d w1 Hw1. cbn [negb]. apply wp_bind.
  destruct (found_files R F u x HF Hx) as (Ed & Em & _). rewrite <-Hxb.
  eapply wp_clean_read; [done|exact Hw1|done|done|by rewrite lookup_insert_ne|by rewrite lookup_insert_ne|]. intros r w2 Hr Hw2. apply wp_bind.
  eapply wp_release; [exact Hw2|by rewrite Hxb|rewrite Hxb; apply lookup_insert_eq|]. rewrite Hxb, delete_lock by (by eapply no_lock).
  intros w3 Hw3. cbn [wp]. apply HQ; [|done].
  assert (f = report_name u) as ->.
  { rewrite append_path in Es by (done || by apply dir_path_ok). unfold path_of in Es. cbn [fst snd] in Es.
    apply app_inv_head in Es. by injection Es. }
  apply (covers_add R b names reports u x); [done|done|done| |by intros v y Hy; apply (rp_ok R F HF v y Hy)|done].
  destruct Hr as (size & Hsize & ->). exists size. split; [done|]. by rewrite Hxb.
Qed.

Lemma wp_reports_in_state {sr} db b R w (Q : OperationStatus + list Report -> World -> Prop) :
  base_dir_ db = base -> state sr R w -> (forall l w', lists R b l -> state sr R w' -> Q (inr l) w') ->
  wp works (ReportsInState db (state_of b)) Q w.
Proof.
  intros Hb (F & Hw & HF) HQ. unfold ReportsInState.
  assert (dcheck (bool_decide (state_of b <> kNew)) = Return tt) as -> by (by destruct b). cbn [prog_bind].
  assert (kReportDirectories (state_of b) = Some (directory_of b)) as -> by (by destruct b).
  rewrite Hb, (append_directory base base_ok). apply wp_bind. destruct Hw as (m & Hfs & Hm).
  eapply wp_opendir; [exact Hfs|apply Hm|]. intros files [Hnd Hfiles]. apply wp_bind.
  assert (holds sr F w) as Hw by (by exists m). clear Hfs. eapply wp_mono.
  - apply (wp_foldM works _ (fun rest l w' => holds sr F w' /\ exists names, files = names ++ rest /\ covers R b names l)).
    + split; [done|]. exists []. split; [done|]. split; [by intros r ?%elem_of_nil|by intros u x _ _ ?%elem_of_nil|constructor].
    + intros f rest l w' (Hw' & names & E & Hc). assert (f ∈ files) as Hf by (rewrite E, elem_of_app, elem_of_cons; auto).
      apply Hfiles in Hf as [Hsome Hname]. eapply (wp_report_in_directory R F); [done|done|done|done| |done| |].
      * rewrite E in Hnd. apply NoDup_app in Hnd as (_ & Hd & _). intros Hin. apply (Hd f Hin). left.
      * intros He s Es. rewrite append_path in Es by (done || by apply dir_path_ok). rewrite Es in Hsome.
        assert (key_ok (b, s)) as Hk.
        { intros Hin. unfold path_of in Es. cbn [fst snd] in Es. apply app_inv_head in Es. injection Es as ->.
          destruct Hname as [_ Hname]. apply Hname, elem_of_app. by left. }
        change (path_of base Dmp (b, s)) with (path_loc (LFile Dmp (b, s))) in Hsome.
        rewrite (proj2 Hm (LFile Dmp (b, s)) Hk), (rp_files R F HF) in Hsome. cbn [expected] in Hsome.
        destruct (find R b s) as [x|] eqn:Ex; [|by destruct Hsome]. apply find_Some in Ex as (u & -> & ? & ?). eauto.
      * intros l' w'' Hc' Hw''. split; [done|]. exists (names ++ [f]). split; [by rewrite E, <-app_assoc|done].
  - intros l w' (Hw' & names & E & [H1 H2 H3]). rewrite app_nil_r in E. subst names. cbn [wp]. apply HQ; [|by exists F].
    split_and!; [done| |].
    + intros r Hr. destruct (H1 r Hr) as (x & ? & ? & ? & _). eauto.
    + intros u x Hx Hxb. apply (H2 u x Hx Hxb). apply Hfiles. destruct (rp_ok R F HF u x Hx) as [Hu _].
      pose proof (to_string_key b u) as Hk. split; [|by apply (file_name_ok Dmp)].
      change (dir_path base b ++ _) with (path_loc (LFile Dmp (b, ToString u))). rewrite (proj2 Hm) by done.
      rewrite (rp_files R F HF). cbn [expected]. rewrite find_uuid, Hx by done. cbn. by rewrite Hxb, eqb_reflx.
Qed.

End Refinement.

(** What is known of the attachments may be forgotten, and may be what there is. *)
Lemma state_forget {att : Attached} base sr R w : state (att := att) base sr R w -> state (att := None) base sr R w.
Proof. intros (F & (m & Hfs & [[] Hf]) & HF). exists F. split; [|done]. exists m. split; [done|]. by split; [split|]. Qed.
Lemma state_view base sr R w : state (att := None) base sr R w -> state (att := Some (view w)) base sr R w.
Proof.
  intros (F & (m & Hfs & [[] Hf]) & HF). exists F. split; [|done]. exists m. split; [done|]. split; [split|]; try done.
  destruct Hfs as [_ <-]. by intros p _.
Qed.

(** ** The database and its specification *)

Inductive DbOperation :=
  | d_create (contents : list bytes)
  | d_look_up (u : UUID)
  | d_list (completed : bool)
  | d_skip (u : UUID)
  | d_delete (u : UUID)
  | d_request (u : UUID)
  | d_upload (u : UUID) (new_id : bytes)
  | d_give_up (u : UUID).
Inductive DbAnswer :=
  | ans_uuid (r : OperationStatus + UUID)
  | ans_report (r : OperationStatus + Report)
  | ans_list (r : OperationStatus + list Report)
  | ans_status (os : OperationStatus).

(** An operation of a client; an upload is recorded as complete, or given up. *)
Definition perform_db `{FilePath} (db : Database) (op : DbOperation) : Prog (DbAnswer * Database) :=
  match op with
  | d_create contents =>
      let* r := (let* r := PrepareNewCrashReport db in
                 match r with
                 | inl os => Return (inl os)
                 | inr report =>
                     let* _ := foldM (fun _ d => let* _ := LoggingWriteFile (writer_ report) d in Return tt)
                                 contents tt in
                     FinishedWritingCrashReport db report
                 end) in
      Return (ans_uuid r, db)
  | d_look_up u => let* r := LookUpCrashReport db u new_report in Return (ans_report r, db)
  | d_list b => let* r := (if (b : bool) then GetCompletedReports db else GetPendingReports db) in
                Return (ans_list r, db)
  | d_skip u => let* os := SkipReportUpload db u in Return (ans_status os, db)
  | d_delete u => let* os := DeleteReport db u in Return (ans_status os, db)
  | d_request u => let* os := RequestUpload db u in Return (ans_status os, db)
  | d_upload u new_id =>
      let* r := (let* '(r, db) := GetReportForUploading db u in
                 match r with
                 | inl os => Return (os, db)
                 | inr upload => RecordUploadComplete db upload new_id
                 end) in
      Return (ans_status r.1, r.2)
  | d_give_up u =>
      let* r := (let* '(r, db) := GetReportForUploading db u in
                 match r with
                 | inl os => Return (os, db)
                 | inr upload => let* db := DestroyUploadReport db upload in Return (kNoError, db)
                 end) in
      Return (ans_status r.1, r.2)
  end.

(** What an operation at the time [now] does to the reports [R]. *)
Definition spec_db (base : bytes) (now : Z) (R : gmap UUID Stored) (op : DbOperation) (a : DbAnswer)
    (R' : gmap UUID Stored) : Prop :=
  let changes u (f : Stored -> option Stored) (otherwise : OperationStatus) :=
    match x ← R !! u; f x with
    | Some y => a = ans_status kNoError /\ R' = <[u := y]> R
    | None => a = ans_status otherwise /\ R' = R
    end in
  match op with
  | d_create contents =>
      exists u, R !! u = None /\ a = ans_uuid (inr u) /\ R' = <[u := created (concat contents) now]> R
  | d_look_up u =>
      R' = R /\ match R !! u with
                | Some x => exists r, a = ans_report (inr r) /\ describes base u x r
                | None => a = ans_report (inl kReportNotFound)
                end
  | d_list b => R' = R /\ exists l, a = ans_list (inr l) /\ lists base R b l
  | d_skip u => changes u (fun x => if s_completed x then None else Some (completed_as x false)) kReportNotFound
  | d_delete u =>
      R' = delete u R /\ a = ans_status (match R !! u with Some _ => kNoError | None => kReportNotFound end)
  | d_request u =>
      changes u (fun x => if s_uploaded x then None else Some (requested_as x))
        (match R !! u with Some _ => kCannotRequestUpload | None => kReportNotFound end)
  | d_upload u new_id =>
      changes u (fun x => if s_completed x then None else Some (attempted x true new_id now)) kReportNotFound
  | d_give_up u =>
      changes u (fun x => if s_completed x then None else Some (attempted x false [] now)) kReportNotFound
  end.

(** An upload is noted in the settings. *)
Definition spec_settings (now : Z) (sr : option Settings.settings_record) (R : gmap UUID Stored) (op : DbOperation)
    : option Settings.settings_record :=
  match op with
  | d_upload u _ | d_give_up u =>
      match R !! u with Some x => if s_completed x then sr else noted now sr | None => sr end
  | _ => sr
  end.

(** UUIDs have fields in the range of their types; the number of attempts does not
    overflow. *)
Definition db_operation_ok (R : gmap UUID Stored) (op : DbOperation) : Prop :=
  match op with
  | d_create _ | d_list _ => True
  | d_look_up u | d_skip u | d_delete u | d_request u => uuid_wf u
  | d_upload u _ | d_give_up u =>
      uuid_wf u /\ match R !! u with Some x => s_upload_attempts x < 2 ^ 31 - 1 | None => True end
  end.

Section Specification.
  Context `{FilePathLaws}.
  Variable base : bytes.
  Hypothesis base_ok : is_directory_path base.

Definition outcome_ok (sr : option Settings.settings_record) (R : gmap UUID Stored) (op : DbOperation)
    (r : DbAnswer * Database) (w : World) : Prop :=
  exists now R', db_ready base r.2 /\ state base (spec_settings now sr R op) R' w /\ spec_db base now R op r.1 R'.

Lemma wp_perform_db sr db op R w :
  db_ready base db -> state base sr R w -> db_operation_ok R op ->
  wp (fresh_works R) (perform_db db op) (outcome_ok sr R op) w.
Proof.
  intros Hdb Hst Hop. pose proof (proj1 Hdb) as Hb.
  destruct op as [contents|u|b|u|u|u|u new_id|u]; cbn [perform_db db_operation_ok] in *; apply wp_bind.
  - eapply (wp_create base base_ok); [done|exact Hst|]. intros u now w' Hn Hu Hf Hs. cbn [wp].
    exists now. eexists. split_and!; [done|exact Hs|]. by exists u.
  - apply (wp_weaken _ works); [by intros ? [? _]|]. eapply (wp_look_up base base_ok); [done|exact Hst|done|]. intros a w' Ha Hs.
    cbn [wp]. exists 0, R. split_and!; [done|done|]. cbn. split; [done|]. destruct (R !! u); [|by rewrite Ha].
    destruct Ha as (r & -> & Hr). eauto.
  - apply (wp_weaken _ works); [by intros ? [? _]|].
    assert ((if b then GetCompletedReports db else GetPendingReports db) = ReportsInState db (state_of b)) as -> by (by destruct b).
    eapply (wp_reports_in_state base base_ok); [done|exact Hst|]. intros l w' Hl Hs. cbn [wp]. exists 0, R.
    split_and!; [done|done|]. split; [done|]. by exists l.
  - apply (wp_weaken _ works); [by intros ? [? _]|]. eapply (wp_skip base base_ok); [done|exact Hst|done|].
    unfold outcome_ok. cbn [spec_db spec_settings]. destruct (R !! u) as [x|]; cbn [mbind option_bind]; [destruct (s_completed x)|];
      intros w' Hs; exists 0; eexists; by split_and!.
  - apply (wp_weaken _ works); [by intros ? [? _]|]. eapply (wp_delete base base_ok); [done|done|exact Hst|done|].
    intros w' Hs. exists 0. eexists. by split_and!.
  - apply (wp_weaken _ works); [by intros ? [? _]|]. eapply (wp_request base base_ok); [done|exact Hst|done|].
    unfold outcome_ok. cbn [spec_db spec_settings]. destruct (R !! u) as [x|]; cbn [mbind option_bind]; [destruct (s_uploaded x)|];
      intros w' Hs; exists 0; eexists; by split_and!.
  - destruct Hop as [Hu Ha]. apply (wp_weaken _ works); [by intros ? [? _]|]. eapply (wp_upload base base_ok); [done|exact Hst|done|].
    unfold outcome_ok. cbn [spec_db spec_settings]. destruct (R !! u) as [x|]; cbn [mbind option_bind]; [destruct (s_completed x)|];
      [|split; [done|]; intros now|]; [intros w' Hs; exists 0|intros db' w' _ _ Hdb' Hs; exists now|intros w' Hs; exists 0];
      eexists; by split_and!.
  - destruct Hop as [Hu Ha]. apply (wp_weaken _ works); [by intros ? [? _]|]. eapply (wp_give_up base base_ok); [done|exact Hst|done|].
    unfold outcome_ok. cbn [spec_db spec_settings]. destruct (R !! u) as [x|]; cbn [mbind option_bind]; [destruct (s_completed x)|];
      [|split; [done|]; intros now|]; [intros w' Hs; exists 0|intros db' w' _ _ Hdb' Hs; exists now|intros w' Hs; exists 0];
      eexists; by split_and!.
Qed.

End Specification.

(** C3.  The database is a map of reports: whatever reports it holds, and if no other
    process uses it and the system calls work, each operation of a client (writing a
    new report, looking up, listing, skipping, deleting and requesting the upload of
    reports, a complete upload and one that is given up) ends, answers as the operation
    on the map does, and leaves a database that holds the changed map, without locks.
    The settings are left as they are, but the time of an upload is noted in them. *)
Theorem database_refines_map `{FilePathLaws} base db op os sr R w :
  is_directory_path base -> db_ready base db -> state base sr R w -> db_operation_ok R op ->
  (forall i, fresh_works R (os i)) ->
  exists a db' w' j now R',
    run (perform_db db op) os 0 w = Some (a, db', w', j) /\
    db_ready base db' /\ state base (spec_settings now sr R op) R' w' /\ spec_db base now R op a R'.
Proof.
  intros Hb Hdb Hst Hop Hos.
  destruct (wp_run _ _ _ _ os 0 (wp_perform_db base Hb sr db op R w Hdb Hst Hop) Hos) as ([a db'] & w' & j & E & now & R' & Hr).
  by exists a, db', w', j, now, R'.
Qed.

(** *** A concrete database *)

(** The location that a path is, and whether a file system has exactly the files [F],
    by evaluation. *)
Definition loc_of (base p : bytes) : option Loc :=
  match classify base p with
  | Some (kd, k) => Some (LFile kd k)
  | None =>
      '(d, f) ← parent_name p;
      '(s, e) ← split_last kExtensionSeparator f;
      if bool_decide (d = new_dir base /\ kExtensionSeparator :: e = kCrashReportExtension) then Some (LNew s) else None
  end.
Definition check_files (base : bytes) (F : gmap Loc (list Z)) (m : gmap bytes Entry) : bool :=
  forallb (fun '(p, e) => match loc_of base p with
                          | Some l => match e, F !! l with EFile d, Some d' => bool_decide (d = d') | _, _ => false end
                          | None => true
                          end) (map_to_list m) &&
  forallb (fun '(l, d) => match m !! path_loc base l with Some (EFile _) => true | _ => false end) (map_to_list F).

Lemma loc_of_path base l : loc_ok l -> loc_of base (path_loc base l) = Some l.
Proof.
  intros Hl. unfold loc_of. destruct l as [kd k|s]; cbn [path_loc loc_ok] in *; [by rewrite classify_path|].
  rewrite new_classify, parent_name_path by (by apply (file_name_ok Dmp)). cbn [mbind option_bind].
  destruct (extension_plain Dmp) as (e & Ee & _ & Hdot & _). cbn [extension_of] in Ee. rewrite Ee, split_last_app by done.
  cbn [mbind option_bind]. by rewrite bool_decide_eq_true_2.
Qed.

Lemma check_files_ok base F m l :
  check_files base F m = true -> loc_ok l -> m !! path_loc base l = EFile <$> F !! l.
Proof.
  intros [Hm HF]%andb_true_iff Hl. rewrite forallb_forall in Hm, HF.
  destruct (m !! path_loc base l) as [e|] eqn:E.
  - apply elem_of_map_to_list, list_elem_of_In, Hm in E. rewrite loc_of_path in E by done.
    destruct e as [|d]; [done|]. destruct (F !! l) as [d'|]; [|done]. cbn. by apply bool_decide_eq_true in E as ->.
  - destruct (F !! l) as [d|] eqn:El; [|done]. apply elem_of_map_to_list, list_elem_of_In, HF in El. by rewrite E in El.
Qed.

Definition example_stored_report : Stored := MkStored false (str "MDMP") [] 0 false 0 0 false.
Definition example_reports : gmap UUID Stored := {[example_uuid := example_stored_report]}.

Definition example_files : gmap Loc (list Z) :=
  {[LFile Dmp (false, ToString example_uuid) := s_contents example_stored_report;
    LFile Meta (false, ToString example_uuid) := meta_bytes example_stored_report]}.

Lemma example_represents : represents example_reports example_files.
Proof.
  apply (represents_insert ∅ ∅); [|apply example_uuid_wf|done| |].
  - split; [|done]. intros [[] [b s]|s]; cbn; unfold find; destruct (InitializeFromString s) as [u|]; cbn; try done; by case_bool_decide.
  - split; [intros kd b s Hs|intros s; by unfold example_files; rewrite lookup_insert_ne, lookup_singleton_ne].
    unfold example_files. rewrite lookup_insert_ne, lookup_singleton_ne by congruence. done.
  - intros kd b. by destruct kd, b; vm_compute.
Qed.

Lemma example_state : state example_base None example_reports (example_world false).
Proof.
  exists example_files. split; [|apply example_represents].
  exists (view (example_world false)). split; [split; [by apply check_world_ok; vm_compute|done]|]. split.
  - split; try (by vm_compute).
    + by intros [].
    + split; [right; by vm_compute|]. by vm_compute.
  - intros l Hl. apply check_files_ok; [by vm_compute|done].
Qed.

Lemma database_refines_map_witness :
  exists a db' w' j,
    run (perform_db example_db (d_upload example_uuid (str "id"))) (steady 77) 0 (example_world false) = Some (a, db', w', j) /\
    a = ans_status kNoError /\
    exists now, state example_base None {[example_uuid := attempted example_stored_report true (str "id") now]} w'.
Proof.
  destruct (database_refines_map example_base example_db (d_upload example_uuid (str "id")) (steady 77) None example_reports
    (example_world false)) as (a & db' & w' & j & now & R' & E & _ & Hs & Hspec).
  - apply example_base_ok.
  - by split.
  - apply example_state.
  - split; [apply example_uuid_wf|]. by vm_compute.
  - intros i. split; [by apply steady_works|]. by vm_compute.
  - exists a, db', w', j. split; [exact E|]. cbn [spec_db] in Hspec. unfold example_reports in Hspec.
    rewrite lookup_singleton_eq in Hspec. cbn [mbind option_bind example_stored_report s_completed] in Hspec.
    destruct Hspec as [-> ->]. split; [done|]. exists now. by rewrite insert_singleton_eq in Hs.
Defined.
