(* ===== verification/PruneReports.v ===== *)
(** * Pruning a database (client/prune_crash_reports.cc)

    [PruneCrashReportDatabase] is a client of [CrashReportDatabase]: it is modelled over
    the three operations it calls ([DatabaseOperations]) and proved against what they
    promise ([DatabasePromises]), and the operations of CrashReportDatabase.v keep the
    promises by DatabaseRefinement.v.  A [PruneCondition] has state, and
    [ShouldPruneReport] returns what it is afterwards. *)

From S2P Require Import Prelude.
From S2P Require Import Uuid.
From S2P Require Import FileSystem.
From S2P Require Import Settings.
From S2P Require Import CrashReportDatabase.
From S2P Require Import DatabaseConcurrency.
From S2P Require Import DatabaseRefinement.
#[local] Open Scope crashpad_scope.

(** ** Conditions *)

Inductive Operator := AND | OR.
Inductive PruneCondition :=
  | AgePruneCondition (oldest_report_time_ : Z)
  | DatabaseSizePruneCondition (max_size_in_kb_ measured_size_in_kb_ : Z)
  | BinaryPruneCondition (op_ : Operator) (lhs_ rhs_ : PruneCondition).

Definition kSecondsInDay : Z := 60 * 60 * 24.

(** The constructor of [AgePruneCondition] at the time [now]. *)
Definition age_condition (now max_age_in_days : Z) : PruneCondition :=
  AgePruneCondition (Z.quot (now - max_age_in_days * kSecondsInDay) kSecondsInDay * kSecondsInDay).
Definition size_condition (max_size_in_kb : Z) : PruneCondition := DatabaseSizePruneCondition max_size_in_kb 0.

(** The size of a report in KB, rounded up. *)
Definition size_in_kb (report : Report) : Z := u64 (total_size report + 1023) / 1024.

Fixpoint ShouldPruneReport (c : PruneCondition) (report : Report) : bool * PruneCondition :=
  match c with
  | AgePruneCondition oldest => (creation_time report <? oldest, c)
  | DatabaseSizePruneCondition max_size measured =>
      let measured := u64 (measured + size_in_kb report) in
      (max_size <? measured, DatabaseSizePruneCondition max_size measured)
  | BinaryPruneCondition op lhs rhs =>
      let '(l, lhs) := ShouldPruneReport lhs report in
      if match op with AND => l | OR => negb l end then
        let '(r, rhs) := ShouldPruneReport rhs report in (r, BinaryPruneCondition op lhs rhs)
      else (l, BinaryPruneCondition op lhs rhs)
  end.

(** [PruneCondition::GetDefault]. *)
Definition GetDefault : Prog PruneCondition :=
  let* now := call sys_time in
  Return (BinaryPruneCondition OR (size_condition (1024 * 128)) (age_condition now 365)).

(** ** Pruning *)

(** The operations of a [CrashReportDatabase] that are used. *)
Record DatabaseOperations := MkOperations {
  get_pending_reports : Prog (OperationStatus + list Report);
  get_completed_reports : Prog (OperationStatus + list Report);
  delete_report : UUID -> Prog OperationStatus
}.

(** The order of the reports: the newest first. *)
Definition newer (r1 r2 : Report) : Prop := creation_time r2 <= creation_time r1.
#[export] Instance newer_dec : RelDecision newer.
Proof. intros r1 r2. apply Z_le_dec. Defined.

(** The loop over the reports. *)
Definition prune_report (db : DatabaseOperations) (s : Z * PruneCondition) (report : Report)
    : Prog (Z * PruneCondition) :=
  let '(num_pruned, condition) := s in
  let '(prune, condition) := ShouldPruneReport condition report in
  if prune then
    let* status := delete_report db (uuid report) in
    Return (if bool_decide (status = kNoError) then num_pruned + 1 else num_pruned, condition)
  else Return (num_pruned, condition).

Definition PruneCrashReportDatabase (db : DatabaseOperations) (condition : PruneCondition) : Prog Z :=
  let* pending := get_pending_reports db in
  match pending with
  | inl _ => Return 0
  | inr all_reports =>
      let* completed := get_completed_reports db in
      match completed with
      | inl _ => Return 0
      | inr completed_reports =>
          let all_reports := merge_sort newer (all_reports ++ completed_reports) in
          let* s := foldM (prune_report db) all_reports (0, condition) in
          Return s.1
      end
  end.

(** ** What a database promises *)

(** The database holds the reports [R] ([holding]), and the lists it returns have
    [report_of] them; when reports have been deleted, it holds the others ([keeping]). *)
Class DatabasePromises (db : DatabaseOperations) (holding keeping : gmap UUID Stored -> World -> Prop)
    (report_of : UUID -> Stored -> Report -> Prop) : Prop := {
  promise_report u x r : report_of u x r -> uuid r = u /\ creation_time r = s_creation_time x;
  promise_list R w (b : bool) : holding R w ->
    wp works (if b then get_completed_reports db else get_pending_reports db)
      (fun a w' => holding R w' /\ exists l, a = inr l /\ NoDup (map uuid l) /\
         (forall r, r ∈ l -> exists x, R !! uuid r = Some x /\ s_completed x = b /\ report_of (uuid r) x r) /\
         (forall u x, R !! u = Some x -> s_completed x = b -> exists r, r ∈ l /\ uuid r = u)) w;
  promise_keep R w : holding R w -> keeping R w;
  promise_delete R w u x : keeping R w -> R !! u = Some x ->
    wp works (delete_report db u) (fun a w' => a = kNoError /\ keeping (delete u R) w') w
}.

(** ** Which reports are pruned *)

(** The decisions for a list of reports, one after the other. *)
Fixpoint decisions (c : PruneCondition) (l : list Report) : list bool :=
  match l with
  | [] => []
  | r :: l' => let '(b, c') := ShouldPruneReport c r in b :: decisions c' l'
  end.
Definition pruned (c : PruneCondition) (l : list Report) : list UUID :=
  omap (fun '(r, b) => if (b : bool) then Some (uuid r) else None) (zip l (decisions c l)).

(** The sum of the sizes of some reports. *)
Definition total_kb (l : list Report) : Z := foldr Z.add 0 (map size_in_kb l).

Lemma size_in_kb_nonneg r : 0 <= size_in_kb r.
Proof. unfold size_in_kb. apply Z.div_pos; [apply wrap_bound; lia|lia]. Qed.
Lemma total_kb_nonneg l : 0 <= total_kb l.
Proof. induction l as [|r l IH]; cbn; [lia|]. unfold total_kb in IH. pose proof (size_in_kb_nonneg r). lia. Qed.
Lemma total_kb_take l i : 0 <= total_kb (take i l) <= total_kb l.
Proof.
  split; [apply total_kb_nonneg|]. rewrite <-(take_drop i l) at 2. unfold total_kb. rewrite map_app.
  pose proof (total_kb_nonneg (drop i l)) as Hd. unfold total_kb in Hd. induction (take i l) as [|r l' IH]; cbn; lia.
Qed.

(** A size condition and another: a report is pruned if it and those before it are
    larger than the limit, or the other condition says so. *)
Lemma default_decisions max_size measured oldest l i r :
  0 <= measured -> measured + total_kb l < 2 ^ 64 -> l !! i = Some r ->
  decisions (BinaryPruneCondition OR (DatabaseSizePruneCondition max_size measured) (AgePruneCondition oldest)) l !! i =
    Some ((max_size <? measured + total_kb (take (S i) l)) || (creation_time r <? oldest)).
Proof.
  revert measured i. induction l as [|r0 l IH]; intros measured i Hm Ht Hi; [done|].
  pose proof (size_in_kb_nonneg r0) as H0. pose proof (total_kb_nonneg l) as Hl.
  assert (total_kb (r0 :: l) = size_in_kb r0 + total_kb l) as E by done.
  assert (u64 (measured + size_in_kb r0) = measured + size_in_kb r0) as Eu by (apply wrap_small; lia).
  cbn [decisions ShouldPruneReport]. rewrite Eu.
  destruct i as [|i]; cbn [lookup list_lookup] in Hi.
  - injection Hi as ->. change (total_kb (take 1 (r :: l))) with (size_in_kb r + 0). rewrite Z.add_0_r.
    by destruct (max_size <? measured + size_in_kb r).
  - change (total_kb (take (S (S i)) (r0 :: l))) with (size_in_kb r0 + total_kb (take (S i) l)). rewrite Z.add_assoc.
    destruct (max_size <? measured + size_in_kb r0); cbn [negb]; apply IH; (lia || done).
Qed.

(** The reports without some. *)
Definition delete_all (R : gmap UUID Stored) (us : list UUID) : gmap UUID Stored := foldl (fun R u => delete u R) R us.

Lemma lookup_delete_all R us u : delete_all R us !! u = if bool_decide (u ∈ us) then None else R !! u.
Proof.
  revert R. induction us as [|v us IH]; intros R; cbn; [by rewrite bool_decide_eq_false_2 by apply not_elem_of_nil|].
  change (foldl _ _ us) with (delete_all (delete v R) us). rewrite IH.
  rewrite (bool_decide_ext (u ∈ v :: us) (u = v \/ u ∈ us)) by apply elem_of_cons.
  destruct (decide (u = v)) as [->|Hne].
  - rewrite lookup_delete_eq, (bool_decide_eq_true_2 (v = v \/ v ∈ us)) by auto. by case_bool_decide.
  - rewrite lookup_delete_ne by done. rewrite (bool_decide_ext (u = v \/ u ∈ us) (u ∈ us)) by naive_solver. done.
Qed.

Lemma pruned_cons c r l :
  pruned c (r :: l) = (if (ShouldPruneReport c r).1 then [uuid r] else []) ++ pruned (ShouldPruneReport c r).2 l.
Proof. unfold pruned. cbn [decisions]. destruct (ShouldPruneReport c r) as [[] c']; done. Qed.

Lemma pruned_sound c l u : u ∈ pruned c l -> u ∈ map uuid l.
Proof.
  unfold pruned. rewrite list_elem_of_omap. intros ([r b] & Hin & E). destruct b; [|done]. injection E as <-.
  apply list_elem_of_fmap. exists r. split; [done|]. apply elem_of_zip_l in Hin. done.
Qed.

Lemma pruned_spec c l i r :
  NoDup (map uuid l) -> l !! i = Some r -> (uuid r ∈ pruned c l <-> decisions c l !! i = Some true).
Proof.
  revert c i. induction l as [|r0 l IH]; intros c i Hnd Hi; [done|]. apply NoDup_cons in Hnd as [Hr0 Hl]. rewrite pruned_cons. cbn [decisions].
  destruct (ShouldPruneReport c r0) as [b c']. cbn [fst snd]. rewrite elem_of_app. destruct i as [|i]; cbn [lookup list_lookup] in *.
  - injection Hi as ->. assert (uuid r ∉ pruned c' l) as Hn by (by intros ?%pruned_sound).
    destruct b; [split; [done|left; by apply list_elem_of_singleton]|]. split; [intros [?%elem_of_nil|]; done|done].
  - rewrite <-(IH c' i Hl Hi). split; [|by right]. intros [Hin|]; [|done]. exfalso. apply Hr0.
    destruct b; [|by apply elem_of_nil in Hin]. apply list_elem_of_singleton in Hin. rewrite <-Hin.
    apply list_elem_of_fmap. exists r. split; [done|]. by eapply list_elem_of_lookup_2.
Qed.

(** ** The result *)

Section Prune.
  Context `{DatabasePromises db holding keeping report_of}.

Lemma wp_prune_loop l R n c w :
  keeping R w -> NoDup (map uuid l) -> (forall r, r ∈ l -> is_Some (R !! uuid r)) ->
  wp works (foldM (prune_report db) l (n, c))
    (fun s w' => s.1 = n + Z.of_nat (length (pruned c l)) /\ keeping (delete_all R (pruned c l)) w') w.
Proof.
  revert R n c w. induction l as [|r l IH]; intros R n c w Hw Hnd HR; cbn [foldM].
  { cbn. split; [lia|done]. }
  cbn [map] in Hnd. apply NoDup_cons in Hnd as [Hr Hnd]. apply wp_bind. unfold prune_report at 1. rewrite pruned_cons.
  destruct (ShouldPruneReport c r) as [b c']. cbn [fst snd]. destruct b.
  - destruct (HR r) as [x Hx]; [left|]. apply wp_bind. eapply wp_mono; [by eapply promise_delete|]. cbn beta.
    intros os w' [-> Hw']. cbn [wp]. rewrite bool_decide_eq_true_2 by done. eapply wp_mono; [apply (IH (delete (uuid r) R))|].
    + done.
    + done.
    + intros r' Hr'. rewrite lookup_delete_ne; [apply HR; by right|]. intros E. apply Hr. rewrite E.
      apply list_elem_of_fmap. by exists r'.
    + intros s w'' [-> Hw'']. split; [|done]. cbn [app length]. lia.
  - cbn [wp app]. apply IH; [done|done|]. intros r' Hr'. apply HR. by right.
Qed.

(** The reports of the database, with the newest first. *)
Record all_reports_of (R : gmap UUID Stored) (l : list Report) : Prop := {
  ar_sorted : StronglySorted newer l;
  ar_distinct : NoDup (map uuid l);
  ar_sound : forall r, r ∈ l -> exists x, R !! uuid r = Some x /\ report_of (uuid r) x r;
  ar_complete : forall u, is_Some (R !! u) -> exists r, r ∈ l /\ uuid r = u
}.

Lemma wp_prune c R w :
  holding R w ->
  wp works (PruneCrashReportDatabase db c)
    (fun n w' => exists l, all_reports_of R l /\ n = Z.of_nat (length (pruned c l)) /\
       keeping (delete_all R (pruned c l)) w') w.
Proof.
  intros Hw. unfold PruneCrashReportDatabase. apply wp_bind. eapply wp_mono; [apply (promise_list R w false Hw)|]. cbn beta.
  intros a1 w1 (Hw1 & l1 & -> & Hn1 & Hs1 & Hc1). apply wp_bind.
  eapply wp_mono; [apply (promise_list R w1 true Hw1)|]. cbn beta. intros a2 w2 (Hw2 & l2 & -> & Hn2 & Hs2 & Hc2).
  apply wp_bind. set (l := merge_sort newer (l1 ++ l2)).
  pose proof (merge_sort_Permutation newer (l1 ++ l2)) as Hp. fold l in Hp.
  assert (all_reports_of R l) as Hl.
  { split.
    - apply StronglySorted_merge_sort; [intros ???; unfold newer; lia|]. intros r1 r2. unfold newer. destruct (Z.le_ge_cases (creation_time r1) (creation_time r2)); auto.
    - rewrite Hp, map_app. apply NoDup_app. split_and!; [done| |done].
      intros u (r1 & -> & Hr1)%list_elem_of_fmap (r2 & E & Hr2)%list_elem_of_fmap.
      destruct (Hs1 r1 Hr1) as (x1 & Hx1 & B1 & _), (Hs2 r2 Hr2) as (x2 & Hx2 & B2 & _). congruence.
    - intros r. rewrite Hp, elem_of_app. intros [Hr|Hr]; [destruct (Hs1 r Hr) as (x & ? & _ & ?)|destruct (Hs2 r Hr) as (x & ? & _ & ?)]; eauto.
    - intros u [x Hx]. destruct (s_completed x) eqn:Ec; [destruct (Hc2 u x Hx Ec) as (r & Hr & E)|destruct (Hc1 u x Hx Ec) as (r & Hr & E)];
        exists r; rewrite Hp, elem_of_app; auto. }
  eapply wp_mono; [apply (wp_prune_loop l R 0 c w2); [by apply promise_keep|apply Hl|]|].
  - intros r Hr. destruct (ar_sound R l Hl r Hr) as (x & Hx & _). by eexists.
  - intros s w3 [E Hw3]. cbn [wp]. exists l. split_and!; [done|lia|done].
Qed.

End Prune.

(** The reports that are kept fit the limit. *)
Lemma kept_fit max_size measured (kept : Report -> Prop) `{forall r, Decision (kept r)} l :
  measured <= max_size ->
  (forall i r, l !! i = Some r -> kept r -> measured + total_kb (take (S i) l) <= max_size) ->
  measured + total_kb (filter kept l) <= max_size.
Proof.
  revert measured. induction l as [|r l IH]; intros measured Hm Hk; [unfold total_kb; cbn; lia|].
  pose proof (size_in_kb_nonneg r) as Hr.
  assert (forall i r', l !! i = Some r' -> kept r' -> measured + size_in_kb r + total_kb (take (S i) l) <= max_size) as Hk'.
  { intros i r' Hi Hr'. specialize (Hk (S i) r' Hi Hr').
    change (total_kb (take (S (S i)) (r :: l))) with (size_in_kb r + total_kb (take (S i) l)) in Hk. lia. }
  rewrite filter_cons. destruct (decide (kept r)) as [Hkr|_].
  - specialize (Hk 0%nat r eq_refl Hkr). change (total_kb (take 1 (r :: l))) with (size_in_kb r + 0) in Hk.
    specialize (IH (measured + size_in_kb r)). change (total_kb (r :: filter kept l)) with (size_in_kb r + total_kb (filter kept l)).
    rewrite Z.add_assoc. apply IH; [lia|done].
  - destruct (decide (measured + size_in_kb r <= max_size)) as [Hle|Hgt]; [specialize (IH _ Hle Hk'); lia|].
    assert (filter kept l = []) as ->; [|unfold total_kb; cbn; lia]. apply elem_of_nil_inv.
    intros r' [Hr' [i Hi]%list_elem_of_lookup]%list_elem_of_filter. specialize (Hk' i r' Hi Hr'). pose proof (total_kb_nonneg (take (S i) l)). lia.
Qed.

Lemma pruned_sublist c l : pruned c l `sublist_of` map uuid l.
Proof.
  revert c. induction l as [|r l IH]; intros c; [done|]. rewrite pruned_cons.
  destruct (ShouldPruneReport c r) as [[] c']; cbn [fst snd app map].
  - by apply sublist_skip.
  - by apply sublist_cons.
Qed.

Section Generic.
  Context `{FilePathLaws}.
  Variables (base : bytes) (db : Database) (sr : option Settings.settings_record).
  (** The attachments. *)
  Variable a : gmap bytes Entry.
  Hypothesis base_ok : is_directory_path base.
  Hypothesis db_ok : db_ready base db.

(** The operations of [CrashReportDatabaseGeneric] keep the promises. *)
Definition generic_operations : DatabaseOperations :=
  MkOperations (GetPendingReports db) (GetCompletedReports db) (DeleteReport db).

#[local] Instance generic_promises :
  DatabasePromises generic_operations (state (att := Some a) base sr) (state base sr) (describes (att := Some a) base).
Proof.
  split.
  - by intros u x r (size & _ & ->).
  - intros R w b Hw.
    assert ((if b then get_completed_reports generic_operations else get_pending_reports generic_operations) =
      ReportsInState db (state_of b)) as -> by (by destruct b).
    eapply (wp_reports_in_state (att := Some a) base base_ok); [apply db_ok|exact Hw|]. intros l w' (Hn & Hs & Hc) Hw'. eauto 10.
  - intros R w. apply state_forget.
  - intros R w u x Hw Hx. assert (uuid_wf u) as Hu by (destruct Hw as (F & _ & HF); by apply (rp_ok R F HF u x)).
    eapply (wp_delete base base_ok); [done|apply db_ok|exact Hw|done|]. intros w' Hw'. by rewrite Hx.
Qed.

Definition prune_default : Prog Z := let* c := GetDefault in PruneCrashReportDatabase generic_operations c.

(** The time before which the code takes reports to be too old: the start of a day. *)
Definition oldest (now : Z) : Z := Z.quot (now - 365 * kSecondsInDay) kSecondsInDay * kSecondsInDay.
Definition days_ago (now n : Z) : Z := now - n * kSecondsInDay.
Lemma oldest_rounded now : 365 * kSecondsInDay <= now -> days_ago now 366 < oldest now <= days_ago now 365.
Proof.
  intros Hn. unfold oldest, days_ago. rewrite Z.quot_div_nonneg by (unfold kSecondsInDay in *; lia).
  pose proof (Z.div_mod (now - 365 * kSecondsInDay) kSecondsInDay ltac:(done)).
  pose proof (Z.mod_pos_bound (now - 365 * kSecondsInDay) kSecondsInDay ltac:(done)). lia.
Qed.

(** The reports [l], from the newest to the oldest and with the sizes of their files and
    attachments, were considered at the time [now]; [us] are those that were deleted.
    Nothing is said of the age of reports made less than a day before those 365 days. *)
Definition prune_ok (R : gmap UUID Stored) (now n : Z) (w : World) : Prop :=
  exists l R' us,
    all_reports_of (report_of := describes (att := Some a) base) R l /\ state base sr R' w /\
    NoDup us /\ n = Z.of_nat (length us) /\
    (forall u, R' !! u = if bool_decide (u ∈ us) then None else R !! u) /\
    (total_kb l < 2 ^ 64 ->
       (forall i r, l !! i = Some r -> 365 * kSecondsInDay <= now ->
          creation_time r < days_ago now 366 \/ days_ago now 365 <= creation_time r ->
          (uuid r ∈ us <-> 131072 < total_kb (take (S i) l) \/ creation_time r < days_ago now 365)) /\
       (forall i r, l !! i = Some r -> 131072 < total_kb (take (S i) l) -> uuid r ∈ us) /\
       total_kb (filter (fun r => is_Some (R' !! uuid r)) l) <= 131072).

Lemma wp_prune_at R w now :
  state (att := Some a) base sr R w ->
  wp works (PruneCrashReportDatabase generic_operations (BinaryPruneCondition OR (size_condition (1024 * 128)) (age_condition now 365)))
    (prune_ok R now) w.
Proof.
  intros Hw. eapply wp_mono; [by apply wp_prune|]. cbn beta. intros n w' (l & Hl & En & Hw'). set (c := BinaryPruneCondition _ _ _) in *.
  exists l, (delete_all R (pruned c l)), (pruned c l). pose proof (ar_distinct R l Hl) as Hnd.
  split_and!; [done|done|by eapply sublist_NoDup, pruned_sublist|done|apply lookup_delete_all|].
  intros Ht.
  assert (forall i r, l !! i = Some r ->
    (uuid r ∈ pruned c l <-> 131072 < total_kb (take (S i) l) \/ creation_time r < oldest now)) as Hspec.
  { intros i r Hi. rewrite (pruned_spec c l i r Hnd Hi). unfold c, size_condition, age_condition.
    rewrite (default_decisions _ _ _ _ _ r) by (lia || done). change (1024 * 128) with 131072. fold (oldest now).
    rewrite Z.add_0_l. split.
    - intros [= [?%Z.ltb_lt|?%Z.ltb_lt]%orb_true_iff]; auto.
    - intros Hor. f_equal. apply orb_true_iff. rewrite !Z.ltb_lt. done. }
  split_and!.
  { intros i r Hi Hn Hr. rewrite (Hspec i r Hi). pose proof (oldest_rounded now Hn). unfold days_ago in *. lia. }
  { intros i r Hi Hk. apply (Hspec i r Hi). by left. }
  change (total_kb (filter _ l)) with (0 + total_kb (filter (fun r => is_Some (delete_all R (pruned c l) !! uuid r)) l)).
  apply kept_fit; [lia|]. intros i r Hi [x Hx]. rewrite lookup_delete_all in Hx.
  case_bool_decide as Hu; [done|]. rewrite (Hspec i r Hi) in Hu. lia.
Qed.
End Generic.

(** C15.  Pruning a database with the default condition, when no other process uses it
    and the system calls work: the reports are considered from the newest to the oldest,
    with the sizes of their files and their attachments in KB, and exactly those are
    deleted that were made more than 365 days before the time that the clock showed at the
    start, or for which they and all newer ones take more than 128 MB; the rest takes at
    most 128 MB, is unchanged, and the number of deleted reports is returned.  The sizes
    are such that their sum does not overflow, the clock is a year or more after 1970, and
    the reports made more than 365 but at most 366 days ago, of which some are kept, are
    left out of what is said of ages. *)
Theorem prune_keeps_newest `{FilePathLaws} base db os sr R w :
  is_directory_path base -> db_ready base db -> state base sr R w -> (forall i, works (os i)) ->
  exists n w' j, run (prune_default db) os 0 w = Some (n, w', j) /\ prune_ok base sr (view w) R (now (os 0%nat)) n w'.
Proof.
  intros Hb Hdb Hw Hos. unfold prune_default, GetDefault. cbn [call prog_bind run perform].
  apply (wp_run works _ (prune_ok base sr (view w) R (now (os 0%nat)))); [|done]. by apply wp_prune_at, state_view.
Qed.

Lemma prune_keeps_newest_witness :
  exists n w' j, run (prune_default example_db) (steady 1000000000) 0 (example_world false) = Some (n, w', j) /\
    n = 1 /\ prune_ok example_base None (view (example_world false)) example_reports 1000000000 n w'.
Proof.
  destruct (prune_keeps_newest example_base example_db (steady 1000000000) None example_reports (example_world false))
    as (n & w' & j & E & Hok).
  - apply example_base_ok.
  - by split.
  - apply example_state.
  - by apply steady_works.
  - exists n, w', j. split; [exact E|]. split; [|exact Hok].
    assert ((fun r => r.1.1) <$> run (prune_default example_db) (steady 1000000000) 0 (example_world false) = Some 1) as En
      by (by vm_compute).
    rewrite E in En. cbn in En. congruence.
Defined.
