(* ===== verification/MinidumpWritable.v ===== *)
(** * The minidump writing engine (minidump/minidump_writable.cc)

    A minidump file is a tree of [MinidumpWritable] objects.  Every object has an
    address (its path from the root), its virtual methods as the fields of a
    record, and the list of fields of other objects that must be filled in with
    its file offset.  [WillWriteAtOffset] lays the tree out in two phases and
    fills in the registered fields; [WritePaddingAndObject] writes one object;
    [WriteEverything] composes them over any [FileWriterInterface].

    The file defines an abstract layout ([layout]: the objects of the tree in
    preorder, the early ones before the late ones, each at the next aligned
    offset) and proves that the recursion computes it, that every assertion on
    object states holds, that the file holds the bytes of every object at its
    offset and that every registered field holds the offset of its target. *)

From S2P Require Import Prelude.
From S2P Require Import Numeric.
From S2P Require Import FileIO.

(** ** Results *)

(** [Error] is a [false] or [kInvalidSize] result; [CheckFailed] is a failed
    [CHECK] or [DCHECK], which ends the process (the latter in a debug build). *)
Inductive result (A : Type) :=
  | Ok (a : A)
  | Error
  | CheckFailed.
Arguments Ok {A} a.
Arguments Error {A}.
Arguments CheckFailed {A}.

Definition result_bind {A B} (m : result A) (k : A -> result B) : result B :=
  match m with
  | Ok a => k a
  | Error => Error
  | CheckFailed => CheckFailed
  end.
Notation "'do!' x := m 'in' k" := (result_bind m (fun x => k))
  (at level 10, x pattern, m at level 100, k at level 200) : crashpad_scope.
Notation "'check!' b 'in' k" := (if (b : bool) then k else CheckFailed)
  (at level 10, b at level 100, k at level 200) : crashpad_scope.
#[local] Open Scope crashpad_scope.

Definition of_option {A} (o : option A) : result A :=
  match o with Some a => Ok a | None => Error end.

(** ** Objects *)

(** The address of an object: the child indices that lead to it from the root. *)
Abbreviation path := (list nat) (only parsing).

(** The address of a field of 32 or 64 bits: the owning object and the number of
    the field in it.  A location descriptor at field [k] has its [DataSize] at
    [k] and its [Rva] at [k + 1]. *)
Abbreviation slot := (list nat * nat)%type (only parsing).
Definition descriptor_size (s : slot) : slot := s.
Definition descriptor_rva (s : slot) : slot := (s.1, S s.2).

(** [MinidumpWritable::Phase]. *)
Inductive Phase := kPhaseEarly | kPhaseLate.
#[export] Instance Phase_eq_dec : EqDecision Phase.
Proof. solve_decision. Defined.

(** [MinidumpWritable::State]. *)
Inductive State := kStateMutable | kStateFrozen | kStateWritable | kStateWritten.
#[export] Instance State_eq_dec : EqDecision State.
Proof. solve_decision. Defined.

(** The value of the fields that other objects fill in. *)
Abbreviation fields_map := (gmap slot Z) (only parsing).
Definition field (m : fields_map) (s : slot) : Z := default 0 (m !! s).

(** What a [WriteObject] method does with the file: nothing, one [WriteIoVec],
    one [Write], or the delegate call of a memory snapshot: a [Write] of what was
    read, or of [size] filler bytes when reading or writing that failed, with
    the result of the last write ignored; or a [false] result without a write. *)
Inductive WriteAction :=
  | WriteNothing
  | WriteVectors (iovecs : list bytes)
  | WriteBuffer (data : bytes)
  | WriteMemory (read : option bytes) (size : nat)
  | WriteFailure.

(** An object of a class derived from [MinidumpWritable], frozen. *)
Record Writable := MkWritable {
  address : path;
  SizeOfObject : Z;
  Alignment : Z;
  WritePhase : Phase;
  registered_rvas_ : list slot;
  registered_rva64s_ : list slot;
  registered_location_descriptors_ : list slot;
  registered_location_descriptor64s_ : list slot;
  (** the assignments [WillWriteAtOffsetImpl] makes, or [None] when it fails *)
  WillWriteAtOffsetImpl : Z -> option (list (slot * Z));
  WriteObject : fields_map -> WriteAction
}.

(** An object and its [Children()]. *)
Inductive Tree := Node (w : Writable) (children : list Tree).

Definition root (t : Tree) : Writable := match t with Node w _ => w end.
Definition Children (t : Tree) : list Tree := match t with Node _ l => l end.

(** The mutable part of the objects. *)
Record Heap := MkHeap {
  fields : fields_map;
  leading_pad_bytes_ : gmap (list nat) Z;
  state_ : gmap (list nat) State
}.

Definition state (h : Heap) (w : Writable) : State :=
  default kStateMutable (state_ h !! address w).

(** [RegisterRVA] and [RegisterLocationDescriptor], on the object at the root of
    a tree. *)
Definition with_root (f : Writable -> Writable) (t : Tree) : Tree :=
  match t with Node w l => Node (f w) l end.
Definition RegisterRVA (s : slot) (t : Tree) : Tree :=
  with_root (fun w => MkWritable (address w) (SizeOfObject w) (Alignment w) (WritePhase w)
    (registered_rvas_ w ++ [s]) (registered_rva64s_ w) (registered_location_descriptors_ w)
    (registered_location_descriptor64s_ w) (WillWriteAtOffsetImpl w) (WriteObject w)) t.
Definition RegisterRVA64 (s : slot) (t : Tree) : Tree :=
  with_root (fun w => MkWritable (address w) (SizeOfObject w) (Alignment w) (WritePhase w)
    (registered_rvas_ w) (registered_rva64s_ w ++ [s]) (registered_location_descriptors_ w)
    (registered_location_descriptor64s_ w) (WillWriteAtOffsetImpl w) (WriteObject w)) t.
Definition RegisterLocationDescriptor (s : slot) (t : Tree) : Tree :=
  with_root (fun w => MkWritable (address w) (SizeOfObject w) (Alignment w) (WritePhase w)
    (registered_rvas_ w) (registered_rva64s_ w) (registered_location_descriptors_ w ++ [s])
    (registered_location_descriptor64s_ w) (WillWriteAtOffsetImpl w) (WriteObject w)) t.
Definition RegisterLocationDescriptor64 (s : slot) (t : Tree) : Tree :=
  with_root (fun w => MkWritable (address w) (SizeOfObject w) (Alignment w) (WritePhase w)
    (registered_rvas_ w) (registered_rva64s_ w) (registered_location_descriptors_ w)
    (registered_location_descriptor64s_ w ++ [s]) (WillWriteAtOffsetImpl w) (WriteObject w)) t.

(** ** Layout *)

Definition kMaximumAlignment : Z := 16.
Definition kInvalidSize : Z := 2 ^ 64 - 1.

(** Assignments to fields, in order. *)
Fixpoint assign (l : list (slot * Z)) (m : fields_map) : fields_map :=
  match l with
  | [] => m
  | (s, v) :: l' => assign l' (<[s := v]> m)
  end.

Definition assign_each (l : list slot) (v : Z) : list (slot * Z) :=
  map (fun s => (s, v)) l.
Definition assign_descriptors (l : list slot) (size rva : Z) : list (slot * Z) :=
  concat (map (fun s => [(descriptor_size s, size); (descriptor_rva s, rva)]) l).

(** The part of [WillWriteAtOffset] that fills in the fields of one width:
    nothing is computed when nothing is registered, the offset must fit whenever
    something is, the size only when a location descriptor is. *)
Definition populate (ty : int_type) (rvas descriptors : list slot) (local_offset size : Z)
    : option (list (slot * Z)) :=
  match rvas, descriptors with
  | [], [] => Some []
  | _, _ =>
      match AssignIfInRange ty local_offset with
      | None => None
      | Some local_rva =>
          match descriptors with
          | [] => Some (assign_each rvas local_rva)
          | _ =>
              match AssignIfInRange ty size with
              | None => None
              | Some local_size =>
                  Some (assign_each rvas local_rva ++
                        assign_descriptors descriptors local_size local_rva)
              end
          end
      end
  end.

(** What an object placed at an offset assigns: its own fields through
    [WillWriteAtOffsetImpl], then the registered ones. *)
Definition assignments (w : Writable) (local_offset : Z) : option (list (slot * Z)) :=
  match WillWriteAtOffsetImpl w local_offset with
  | None => None
  | Some own =>
      match populate uint32_t (registered_rvas_ w) (registered_location_descriptors_ w)
              local_offset (SizeOfObject w) with
      | None => None
      | Some a32 =>
          match populate uint64_t (registered_rva64s_ w) (registered_location_descriptor64s_ w)
                  local_offset (SizeOfObject w) with
          | None => None
          | Some a64 => Some (own ++ a32 ++ a64)
          end
      end
  end.

(** The part of [WillWriteAtOffset] before the loop over the children: the size,
    the padding of this phase, the local offset, [*offset] and the write
    sequence. *)
Definition enter (phase : Phase) (w : Writable) (offset : Z) (h : Heap)
    (write_sequence : list Writable) : result (Z * Z * Z * Z * Heap * list Writable) :=
  let local_offset := offset in
  check! 0 <=? local_offset in
  if decide (phase = WritePhase w) then
    check! bool_decide (state h w = kStateFrozen) in
    let write_sequence := write_sequence ++ [w] in
    let size := SizeOfObject w in
    let finish (pad local_offset offset : Z) :=
      do! a := of_option (assignments w local_offset) in
      Ok (size, pad, local_offset, offset,
          MkHeap (assign a (fields h)) (<[address w := pad]> (leading_pad_bytes_ h))
                 (<[address w := kStateWritable]> (state_ h)),
          write_sequence) in
    if 0 <? size then
      let alignment := Alignment w in
      check! alignment <=? kMaximumAlignment in
      let pad := (alignment - local_offset mod alignment) mod alignment in
      finish pad (local_offset + pad) (local_offset + pad)
    else finish 0 local_offset offset
  else
    check! bool_decide (state h w =
      match phase with kPhaseEarly => kStateFrozen | kPhaseLate => kStateWritable end) in
    Ok (0, 0, local_offset, offset, h, write_sequence).

(** [MinidumpWritable::WillWriteAtOffset]: the size consumed (never
    [kInvalidSize]), [*offset], the heap and the write sequence. *)
Fixpoint WillWriteAtOffset (phase : Phase) (t : Tree) (offset : Z) (h : Heap)
    (write_sequence : list Writable) {struct t} : result (Z * Z * Heap * list Writable) :=
  match t with
  | Node w children =>
      do! (size, pad, local_offset, offset', h1, seq1) := enter phase w offset h write_sequence in
      do! (size', h2, seq2) :=
        (fix children_loop (l : list Tree) (size : Z) (h : Heap) (seq : list Writable)
            : result (Z * Heap * list Writable) :=
          match l with
          | [] => Ok (size, h, seq)
          | child :: l' =>
              let unaligned_child_offset := u64 (local_offset + size) in
              do! child_offset := of_option (AssignIfInRange int64_t unaligned_child_offset) in
              do! (child_size, _, h', seq') := WillWriteAtOffset phase child child_offset h seq in
              children_loop l' (u64 (size + child_size)) h' seq'
          end) children size h1 seq1 in
      let total := u64 (pad + size') in
      if total =? kInvalidSize then Error else Ok (total, offset', h2, seq2)
  end.

(** ** Writing *)

(** The addresses of a tree, in preorder. *)
Fixpoint flatten (t : Tree) : list Writable :=
  match t with Node w children => w :: concat (map flatten children) end.

(** The heap when [Freeze] has succeeded: every object is frozen. *)
Definition frozen_heap (t : Tree) : Heap :=
  MkHeap ∅ ∅ (list_to_map (map (fun w => (address w, kStateFrozen)) (flatten t))).

Section Write.
  Context {F : Type} `{FileWriterInterface F}.

(** The effect of a [WriteObject] method on the file. *)
Definition perform (a : WriteAction) (f : F) : bool * F :=
  match a with
  | WriteNothing => (true, f)
  | WriteVectors iovecs => WriteIoVec f iovecs
  | WriteBuffer data => Write f data
  | WriteMemory read size =>
      match read with
      | Some data =>
          match Write f data with
          | (true, f') => (true, f')
          | (false, f') => (true, (Write f' (replicate size 254)).2)
          end
      | None => (true, (Write f (replicate size 254)).2)
      end
  | WriteFailure => (false, f)
  end.

(** [WritePaddingAndObject]. *)
Definition WritePaddingAndObject (w : Writable) (h : Heap) (f : F) : result Heap * F :=
  if negb (bool_decide (state h w = kStateWritable)) then (CheckFailed, f) else
  let pad := default 0 (leading_pad_bytes_ h !! address w) in
  let '(padded, f1) :=
    if negb (pad =? 0) then Write f (replicate (Z.to_nat pad) 0) else (true, f) in
  if negb padded then (Error, f1) else
  let '(written, f2) := perform (WriteObject w (fields h)) f1 in
  if negb written then (Error, f2) else
  (Ok (MkHeap (fields h) (leading_pad_bytes_ h) (<[address w := kStateWritten]> (state_ h))), f2).

(** The writing loop of [WriteEverything]. *)
Fixpoint write_loop (write_sequence : list Writable) (h : Heap) (f : F) : result Heap * F :=
  match write_sequence with
  | [] => (Ok h, f)
  | w :: rest =>
      match WritePaddingAndObject w h f with
      | (Ok h', f') => write_loop rest h' f'
      | e => e
      end
  end.

(** [MinidumpWritable::WriteEverything], after [Freeze]. *)
Definition WriteEverything (t : Tree) (f : F) : result Heap * F :=
  match
    do! (size, offset, h1, seq1) := WillWriteAtOffset kPhaseEarly t 0 (frozen_heap t) [] in
    do! (_, _, h2, seq2) :=
      WillWriteAtOffset kPhaseLate t (wrap_signed 64 (offset + size)) h1 seq1 in
    check! bool_decide (state h2 (root t) = kStateWritable) in
    check! bool_decide (address <$> head seq2 = Some (address (root t))) in
    Ok (h2, seq2)
  with
  | Ok (h2, seq2) =>
      match write_loop seq2 h2 f with
      | (Ok h3, f3) =>
          if bool_decide (state h3 (root t) = kStateWritten) then (Ok h3, f3)
          else (CheckFailed, f3)
      | e => e
      end
  | Error => (Error, f)
  | CheckFailed => (CheckFailed, f)
  end.

End Write.

(** ** The abstract layout *)

(** The padding an object needs at an offset: none when it is empty. *)
Definition padding (off : Z) (w : Writable) : Z :=
  if 0 <? SizeOfObject w then (Alignment w - off mod Alignment w) mod Alignment w else 0.

(** Objects placed one after the other, and the offset after the last one. *)
Fixpoint place (off : Z) (ws : list Writable) : list (Writable * Z) :=
  match ws with
  | [] => []
  | w :: ws' => let o := off + padding off w in (w, o) :: place (o + SizeOfObject w) ws'
  end.
Fixpoint place_end (off : Z) (ws : list Writable) : Z :=
  match ws with
  | [] => off
  | w :: ws' => place_end (off + padding off w + SizeOfObject w) ws'
  end.

Definition in_phase (p : Phase) (ws : list Writable) : list Writable :=
  filter (fun w => p = WritePhase w) ws.

(** The objects of a tree in the order of the file. *)
Definition file_order (t : Tree) : list Writable :=
  in_phase kPhaseEarly (flatten t) ++ in_phase kPhaseLate (flatten t).

(** The layout of a tree: every object with its offset. *)
Definition layout (t : Tree) : list (Writable * Z) := place 0 (file_order t).
Definition layout_size (t : Tree) : Z := place_end 0 (file_order t).

(** An object a layout can place. *)
Definition writable_ok (w : Writable) : Prop :=
  0 <= SizeOfObject w /\ 0 < Alignment w <= kMaximumAlignment.

(** The effect on the heap of placing an object. *)
Definition prepare (wo : Writable * Z) (pad : Z) (h : Heap) : option Heap :=
  let '(w, o) := wo in
  match assignments w o with
  | None => None
  | Some a =>
      Some (MkHeap (assign a (fields h)) (<[address w := pad]> (leading_pad_bytes_ h))
              (<[address w := kStateWritable]> (state_ h)))
  end.

Fixpoint prepare_all (off : Z) (ws : list Writable) (h : Heap) : option Heap :=
  match ws with
  | [] => Some h
  | w :: ws' =>
      match prepare (w, off + padding off w) (padding off w) h with
      | None => None
      | Some h' => prepare_all (off + padding off w + SizeOfObject w) ws' h'
      end
  end.

Section TreeInd.
  Variable P : Tree -> Prop.
  Hypothesis node : forall w l, Forall P l -> P (Node w l).

Fixpoint Tree_nested_ind (t : Tree) : P t :=
  match t with
  | Node w l =>
      node w l ((fix go (l : list Tree) : Forall P l :=
        match l with
        | [] => Forall_nil_2 P
        | x :: l' => Forall_cons_2 P x l' (Tree_nested_ind x) (go l')
        end) l)
  end.

End TreeInd.

Lemma padding_nonneg off w : writable_ok w -> 0 <= padding off w < kMaximumAlignment.
Proof.
  intros [_ [Ha1 Ha2]]. unfold padding, kMaximumAlignment in *. break_if; [|lia].
  pose proof (Z.mod_pos_bound (Alignment w - off mod Alignment w) (Alignment w)). lia.
Qed.

Lemma padding_aligned off w :
  writable_ok w -> 0 < SizeOfObject w -> (Alignment w | off + padding off w).
Proof.
  intros [_ [Ha _]] Hs. unfold padding. destruct (Z.ltb_spec 0 (SizeOfObject w)); [|lia].
  apply Z.mod_divide; [lia|]. rewrite Zplus_mod_idemp_r.
  pose proof (Z.div_mod off (Alignment w)).
  replace (off + (Alignment w - off mod Alignment w))
    with ((off / Alignment w + 1) * Alignment w) by lia.
  apply Z_mod_mult.
Qed.

Lemma place_app off a b : place off (a ++ b) = place off a ++ place (place_end off a) b.
Proof. revert off; induction a; intros; simpl; [done|]. by f_equal. Qed.

Lemma place_end_app off a b : place_end off (a ++ b) = place_end (place_end off a) b.
Proof. revert off; induction a; intros; simpl; auto. Qed.

Lemma place_end_ge off ws : Forall writable_ok ws -> off <= place_end off ws.
Proof.
  intros H. revert off. induction H as [|w ws Hw _ IH]; intros off; simpl; [lia|].
  etrans; [|apply IH]. pose proof (padding_nonneg off w Hw). destruct Hw. lia.
Qed.

Lemma place_fst off ws : (place off ws).*1 = ws.
Proof. revert off; induction ws; intros; simpl; [done|]. by f_equal. Qed.

Lemma in_phase_app p a b : in_phase p (a ++ b) = in_phase p a ++ in_phase p b.
Proof. apply filter_app. Qed.

Lemma in_phase_subset p ws w : w ∈ in_phase p ws -> w ∈ ws /\ WritePhase w = p.
Proof. unfold in_phase. rewrite list_elem_of_filter. naive_solver. Qed.

Lemma in_phase_ok p ws : Forall writable_ok ws -> Forall writable_ok (in_phase p ws).
Proof.
  rewrite !Forall_forall. intros H w Hw. apply in_phase_subset in Hw as [? _]. auto.
Qed.

Lemma prepare_all_app off a b h :
  prepare_all off (a ++ b) h =
  match prepare_all off a h with
  | None => None
  | Some h' => prepare_all (place_end off a) b h'
  end.
Proof.
  revert off h; induction a as [|w a IH]; intros; simpl; [done|]. destruct (assignments _ _); auto.
Qed.

(** Placing objects does not change the state of the others. *)
Lemma prepare_all_state off ws h h' w :
  prepare_all off ws h = Some h' ->
  state h' w = if decide (address w ∈ map address ws) then kStateWritable else state h w.
Proof.
  revert off h; induction ws as [|v ws IH]; intros off h; simpl.
  - intros [= ->]. done.
  - destruct (assignments _ _); [|done]. intros E. rewrite (IH _ _ E). unfold state. simpl.
    destruct (decide (address w = address v)) as [e|n].
    + rewrite e, lookup_insert_eq. repeat case_decide; set_solver.
    + rewrite lookup_insert_ne by done. repeat case_decide; set_solver.
Qed.

(** ** The recursion computes the layout *)

(** The state an object is in when a phase starts. *)
Definition expected_state (p : Phase) (w : Writable) : State :=
  match p, WritePhase w with
  | kPhaseLate, kPhaseEarly => kStateWritable
  | _, _ => kStateFrozen
  end.
Definition ready (p : Phase) (ws : list Writable) (h : Heap) : Prop :=
  Forall (fun w => state h w = expected_state p w) ws.

Lemma enter_other p w off h seq :
  0 <= off -> p <> WritePhase w -> state h w = expected_state p w ->
  enter p w off h seq = Ok (0, 0, off, off, h, seq).
Proof.
  intros Ho Hp Hs. unfold enter. rewrite decide_False by done.
  destruct (Z.leb_spec 0 off); [|lia]. unfold expected_state in Hs.
  rewrite bool_decide_eq_true_2; [done|]. rewrite Hs. by destruct p, (WritePhase w).
Qed.

Lemma enter_same p w off h seq :
  0 <= off -> writable_ok w -> p = WritePhase w -> state h w = expected_state p w ->
  exists off', enter p w off h seq =
    match prepare (w, off + padding off w) (padding off w) h with
    | None => Error
    | Some h' => Ok (SizeOfObject w, padding off w, off + padding off w, off', h', seq ++ [w])
    end /\ (off = 0 -> off' = 0).
Proof.
  intros Ho [Hs [Ha1 Ha2]] Hp Hst. unfold enter, prepare, padding. rewrite decide_True by done.
  destruct (Z.leb_spec 0 off); [|lia]. rewrite bool_decide_eq_true_2.
  2: { rewrite Hst. unfold expected_state. subst p. by destruct (WritePhase w). }
  destruct (Z.ltb_spec 0 (SizeOfObject w)).
  - destruct (Z.leb_spec (Alignment w) kMaximumAlignment); [|lia].
    eexists. destruct (assignments _ _); (split; [done|]); intros ->;
      by rewrite Z.mod_0_l, Z.sub_0_r, Z.mod_same by lia.
  - eexists. rewrite !Z.add_0_r. destruct (assignments _ _); (split; [done|]); auto.
Qed.

Lemma ready_after p off ws rest h h' :
  ready p rest h -> prepare_all off ws h = Some h' ->
  (forall w, w ∈ rest -> address w ∉ map address ws) -> ready p rest h'.
Proof.
  unfold ready. rewrite !Forall_forall. intros Hr E Hd w Hw.
  rewrite (prepare_all_state _ _ _ _ w E). rewrite decide_False by auto. auto.
Qed.

(** The loop over the children, as a function of its own. *)
Fixpoint children_loop (phase : Phase) (local_offset : Z) (l : list Tree) (size : Z) (h : Heap)
    (seq : list Writable) : result (Z * Heap * list Writable) :=
  match l with
  | [] => Ok (size, h, seq)
  | child :: l' =>
      do! child_offset := of_option (AssignIfInRange int64_t (u64 (local_offset + size))) in
      do! (child_size, _, h', seq') := WillWriteAtOffset phase child child_offset h seq in
      children_loop phase local_offset l' (u64 (size + child_size)) h' seq'
  end.

Lemma WillWriteAtOffset_unfold phase w children offset h seq :
  WillWriteAtOffset phase (Node w children) offset h seq =
  do! (size, pad, local_offset, offset', h1, seq1) := enter phase w offset h seq in
  do! (size', h2, seq2) := children_loop phase local_offset children size h1 seq1 in
  let total := u64 (pad + size') in
  if total =? kInvalidSize then Error else Ok (total, offset', h2, seq2).
Proof.
  simpl. destruct (enter _ _ _ _ _) as [[[[[[size pad] lo] o'] h1] seq1]| |]; [|done..].
  cbn [result_bind]. f_equal.
  revert size h1 seq1. induction children as [|c l IH]; intros; [done|].
  cbn [children_loop]. destruct (AssignIfInRange _ _); [|done]. cbn [of_option result_bind].
  destruct (WillWriteAtOffset phase c z h1 seq1) as [[[[? ?] ?] ?]| |]; [|done..].
  cbn [result_bind]. apply IH.
Qed.

(** What [WillWriteAtOffset] computes from an offset, in terms of the layout. *)
Definition laid_out (p : Phase) (ws : list Writable) (off off' : Z) (h : Heap)
    (seq : list Writable) : result (Z * Z * Heap * list Writable) :=
  match prepare_all off (in_phase p ws) h with
  | None => Error
  | Some h' => Ok (place_end off (in_phase p ws) - off, off', h', seq ++ in_phase p ws)
  end.

Definition refines_layout (p : Phase) (t : Tree) : Prop :=
  forall off h seq,
    0 <= off -> Forall writable_ok (flatten t) -> NoDup (map address (flatten t)) ->
    place_end off (in_phase p (flatten t)) < 2 ^ 63 -> ready p (flatten t) h ->
    exists off', WillWriteAtOffset p t off h seq = laid_out p (flatten t) off off' h seq /\
      (off = 0 -> off' = 0).

Lemma NoDup_app_disjoint (ws1 ws2 ws3 : list Writable) :
  NoDup (map address (ws1 ++ ws2)) -> (forall w, w ∈ ws3 -> w ∈ ws1) ->
  forall w, w ∈ ws2 -> address w ∉ map address ws3.
Proof.
  rewrite map_app. intros (_ & Hd & _)%NoDup_app Hsub w Hw Hin.
  apply list_elem_of_fmap in Hin as (v & Ev & Hv). apply (Hd (address v)).
  - apply list_elem_of_fmap. eauto.
  - rewrite <-Ev. apply list_elem_of_fmap. eauto.
Qed.

Lemma AssignIfInRange_int64 z :
  0 <= z < 2 ^ 63 -> AssignIfInRange int64_t (u64 z) = Some z.
Proof.
  intros. rewrite wrap_small by lia. unfold AssignIfInRange.
  assert (in_range int64_t z = true) as ->; [|].
  { apply fits_signed_spec. simpl. lia. }
  f_equal. unfold cast. simpl. unfold wrap_signed. rewrite Z.mod_small; lia.
Qed.

Lemma children_loop_refines p lo l size h seq :
  Forall (refines_layout p) l ->
  let ws := concat (map flatten l) in
  0 <= lo -> 0 <= size -> Forall writable_ok ws -> NoDup (map address ws) ->
  place_end (lo + size) (in_phase p ws) < 2 ^ 63 -> ready p ws h ->
  children_loop p lo l size h seq =
  match prepare_all (lo + size) (in_phase p ws) h with
  | None => Error
  | Some h' => Ok (place_end (lo + size) (in_phase p ws) - lo, h', seq ++ in_phase p ws)
  end.
Proof.
  intros Hl ws Hlo. revert size h seq. subst ws.
  induction Hl as [|c l Hc _ IH]; intros size h seq Hsz Hok Hnd Hend Hr.
  { simpl. rewrite app_nil_r. by replace (lo + size - lo) with size by lia. }
  cbn [map concat] in *. rewrite in_phase_app, place_end_app in *.
  apply Forall_app in Hok as [Hok1 Hok2]. apply Forall_app in Hr as [Hr1 Hr2].
  pose proof Hnd as Hnd'. rewrite map_app in Hnd'. apply NoDup_app in Hnd' as (Hnd1 & _ & Hnd2).
  pose proof (place_end_ge (lo + size) _ (in_phase_ok p _ Hok1)).
  set (e1 := place_end (lo + size) (in_phase p (flatten c))) in *.
  pose proof (place_end_ge e1 _ (in_phase_ok p _ Hok2)).
  rewrite prepare_all_app. cbn [children_loop].
  rewrite AssignIfInRange_int64 by lia. cbn [of_option result_bind].
  destruct (Hc (lo + size) h seq) as (off' & -> & _); [lia|done..|fold e1; lia|done|].
  unfold laid_out. destruct (prepare_all (lo + size) _ h) as [h1|] eqn:E1; [|done].
  cbn [result_bind]. fold e1. rewrite wrap_small by lia.
  replace (size + (e1 - (lo + size))) with (e1 - lo) by lia.
  rewrite IH; [|lia|done|done|by replace (lo + (e1 - lo)) with e1 by lia|].
  - replace (lo + (e1 - lo)) with e1 by lia. by rewrite <-app_assoc.
  - eapply ready_after; [exact Hr2|exact E1|]. apply (NoDup_app_disjoint _ _ _ Hnd).
    intros w Hw. by apply in_phase_subset in Hw as [? _].
Qed.

Lemma Ok_size {A B C} (x y : Z) (a : A) (b : B) (c : C) :
  x = y -> Ok (x, a, b, c) = Ok (y, a, b, c).
Proof. by intros ->. Qed.

Lemma will_write_refines p t : refines_layout p t.
Proof.
  induction t as [w l IH] using Tree_nested_ind. intros off h seq Ho Hok Hnd Hend Hr.
  rewrite WillWriteAtOffset_unfold. cbn [flatten] in *.
  set (ws := concat (map flatten l)) in *.
  apply Forall_cons in Hok as [Hw Hok]. apply Forall_cons in Hr as [Hrw Hr].
  pose proof Hnd as Hnd'. cbn [map] in Hnd'. apply NoDup_cons in Hnd' as [Hnw Hnd2].
  unfold laid_out. destruct (decide (p = WritePhase w)) as [Hp|Hp].
  - assert (in_phase p (w :: ws) = w :: in_phase p ws) as Ep.
    { unfold in_phase. by rewrite filter_cons_True. }
    rewrite Ep in *. cbn [place_end prepare_all] in *.
    destruct (enter_same p w off h seq Ho Hw Hp Hrw) as (off' & -> & Ho').
    pose proof (padding_nonneg off w Hw). destruct Hw as [Hsz _].
    pose proof (place_end_ge (off + padding off w + SizeOfObject w) _ (in_phase_ok p _ Hok)).
    destruct (prepare _ _ _) as [h1|] eqn:E1; [|by eexists]. cbn [result_bind].
    exists off'. split; [|done].
    rewrite (children_loop_refines p _ l); try done; [|lia|].
    + fold ws. destruct (prepare_all _ (in_phase p ws) h1); [|done]. cbn [result_bind].
      rewrite wrap_small by lia.
      destruct (Z.eqb_spec (padding off w + (place_end (off + padding off w + SizeOfObject w)
        (in_phase p ws) - (off + padding off w))) kInvalidSize); [unfold kInvalidSize in *; lia|].
      rewrite <-app_assoc. by rewrite (Ok_size _ (place_end (off + padding off w +
        SizeOfObject w) (in_phase p ws) - off)) by lia.
    + apply (ready_after p off [w] _ h); [done|cbn [prepare_all]; by rewrite E1|].
      intros v Hv. simpl. intros Hin%list_elem_of_singleton. apply Hnw. rewrite <-Hin.
      apply list_elem_of_fmap. eauto.
  - assert (in_phase p (w :: ws) = in_phase p ws) as Ep.
    { unfold in_phase. by rewrite filter_cons_False. }
    rewrite Ep in *. rewrite enter_other by done. cbn [result_bind]. exists off. split; [|done].
    pose proof (place_end_ge off _ (in_phase_ok p _ Hok)).
    rewrite (children_loop_refines p _ l); try done; rewrite Z.add_0_r; [|done].
     fold ws. destruct (prepare_all _ _ h); [|done]. cbn [result_bind].
    rewrite wrap_small by lia.
    destruct (Z.eqb_spec (0 + (place_end off (in_phase p ws) - off)) kInvalidSize);
      [unfold kInvalidSize in *; lia|]. by rewrite (Ok_size _ (place_end off (in_phase p ws) - off)).
Qed.

(** ** Fields and padding after the layout *)

Definition all_assignments (wos : list (Writable * Z)) : list (slot * Z) :=
  concat (map (fun '(w, o) => default [] (assignments w o)) wos).

(** No offset or size of the layout is out of range. *)
Definition assignable (wos : list (Writable * Z)) : Prop :=
  Forall (fun '(w, o) => is_Some (assignments w o)) wos.

(** The fields once the layout is done. *)
Definition final_fields (t : Tree) : fields_map := assign (all_assignments (layout t)) ∅.

Lemma assign_app a b m : assign (a ++ b) m = assign b (assign a m).
Proof. revert m; induction a as [|[s v] a IH]; intros; simpl; auto. Qed.

Lemma assign_lookup_notin l m s : s ∉ l.*1 -> assign l m !! s = m !! s.
Proof.
  revert m; induction l as [|[s' v] l IH]; intros m; simpl; [done|].
  rewrite not_elem_of_cons. intros [? ?]. rewrite IH by done. by apply lookup_insert_ne.
Qed.

Lemma assign_lookup l m s v : NoDup l.*1 -> (s, v) ∈ l -> assign l m !! s = Some v.
Proof.
  revert m; induction l as [|[s' v'] l IH]; intros m; simpl; [by intros _ ?%not_elem_of_nil|].
  rewrite NoDup_cons, elem_of_cons. intros [Hn Hd] [[= -> ->]|Hin]; [|auto].
  rewrite assign_lookup_notin by done. apply lookup_insert_eq.
Qed.

Lemma prepare_all_fields off ws h :
  assignable (place off ws) ->
  exists h', prepare_all off ws h = Some h' /\
    fields h' = assign (all_assignments (place off ws)) (fields h).
Proof.
  revert off h; induction ws as [|w ws IH]; intros off h; simpl; [eauto|].
  intros [[a Ea] Hr]%Forall_cons. rewrite Ea.
  edestruct IH as (h' & -> & Hf); [exact Hr|]. eexists. split; [done|]. rewrite Hf.
  unfold all_assignments. simpl. rewrite Ea. simpl. by rewrite assign_app.
Qed.

Lemma prepare_all_out_of_range off ws h :
  ~ assignable (place off ws) -> prepare_all off ws h = None.
Proof.
  revert off h; induction ws as [|w ws IH]; intros off h Hn; simpl.
  - exfalso. apply Hn. constructor.
  - destruct (assignments _ _) as [a|] eqn:Ea; [|done]. apply IH. intros Hr. apply Hn.
    simpl. constructor; [by rewrite Ea|done].
Qed.

Fixpoint pads_ok (off : Z) (ws : list Writable) (pads : gmap (list nat) Z) : Prop :=
  match ws with
  | [] => True
  | w :: ws' =>
      pads !! address w = Some (padding off w) /\
      pads_ok (off + padding off w + SizeOfObject w) ws' pads
  end.

Lemma prepare_all_pad_other off ws h h' a :
  prepare_all off ws h = Some h' -> a ∉ map address ws ->
  leading_pad_bytes_ h' !! a = leading_pad_bytes_ h !! a.
Proof.
  revert off h; induction ws as [|w ws IH]; intros off h; simpl; [by intros [= ->]|].
  destruct (assignments _ _); [|done]. intros E Hn. apply not_elem_of_cons in Hn as [? ?].
  rewrite (IH _ _ E) by done. simpl. by rewrite lookup_insert_ne.
Qed.

Lemma prepare_all_pads off ws h h' :
  NoDup (map address ws) -> prepare_all off ws h = Some h' ->
  pads_ok off ws (leading_pad_bytes_ h').
Proof.
  revert off h; induction ws as [|w ws IH]; intros off h; simpl; [done|].
  intros [Hn Hd]%NoDup_cons. destruct (assignments _ _); [|done]. intros E.
  split; [|by eapply IH]. rewrite (prepare_all_pad_other _ _ _ _ _ E) by done.
  simpl. apply lookup_insert_eq.
Qed.

(** ** The bytes of the file *)

(** The bytes an object contributes when its writes succeed. *)
Definition object_bytes (m : fields_map) (w : Writable) : bytes :=
  match WriteObject w m with
  | WriteNothing => []
  | WriteVectors iovecs => concat iovecs
  | WriteBuffer d => d
  | WriteMemory (Some d) _ => d
  | WriteMemory None n => replicate n 254
  | WriteFailure => []
  end.

(** A write that does not fail for a reason of its own: [WriteIoVec] refuses an
    empty vector. *)
Definition proper_action (a : WriteAction) : Prop := a <> WriteVectors [] /\ a <> WriteFailure.

(** [WriteObject] writes as many bytes as [SizeOfObject] announced. *)
Definition writes_its_size (m : fields_map) (w : Writable) : Prop :=
  Z.of_nat (length (object_bytes m w)) = SizeOfObject w /\ proper_action (WriteObject w m).

(** The bytes of a sequence of objects, each with its padding. *)
Fixpoint image (m : fields_map) (off : Z) (ws : list Writable) : bytes :=
  match ws with
  | [] => []
  | w :: ws' =>
      replicate (Z.to_nat (padding off w)) 0 ++ object_bytes m w ++
      image m (off + padding off w + SizeOfObject w) ws'
  end.

Lemma image_length m off ws :
  Forall writable_ok ws -> Forall (writes_its_size m) ws ->
  Z.of_nat (length (image m off ws)) = place_end off ws - off.
Proof.
  intros Hok. revert off. induction Hok as [|w ws Hw _ IH]; intros off; [simpl; lia|].
  intros [[Hl _] Hr]%Forall_cons. simpl. rewrite !length_app, length_replicate.
  specialize (IH (off + padding off w + SizeOfObject w) Hr).
  pose proof (padding_nonneg off w Hw). lia.
Qed.

Lemma image_slice m off ws w o :
  Forall writable_ok ws -> Forall (writes_its_size m) ws -> (w, o) ∈ place off ws ->
  off <= o /\
  slice (Z.to_nat (o - off)) (length (object_bytes m w)) (image m off ws) = object_bytes m w.
Proof.
  intros Hok. revert off. induction Hok as [|v ws Hv _ IH]; intros off; simpl.
  { by intros _ ?%not_elem_of_nil. }
  intros [[Hl _] Hr]%Forall_cons. pose proof (padding_nonneg off v Hv). destruct Hv as [Hs _].
  rewrite elem_of_cons. intros [[= -> ->]|Hin].
  - split; [lia|]. unfold slice. rewrite drop_app_length' by (rewrite length_replicate; lia).
    by rewrite take_app_length.
  - apply IH in Hin as [Hle Hsl]; [|done]. split; [lia|]. rewrite <-Hsl at 2.
    unfold slice. rewrite app_assoc, drop_app_ge by (rewrite length_app, length_replicate; lia).
    f_equal. f_equal. rewrite length_app, length_replicate. lia.
Qed.

Section WriteProofs.
  Context {F : Type} `{FileWriterCapacity F}.

(** The file [f'] is the file [f] after a write of [d], within its bounds. *)
Definition wrote (f f' : F) (d : bytes) : Prop :=
  writer_valid f' /\ contents f' = write_at (position f) d (contents f) /\
  position f' = (position f + length d)%nat /\ (position f' <= length (contents f'))%nat.

(** A file that can be written from its position without leaving a gap. *)
Definition writable_file (f : F) : Prop :=
  writer_valid f /\ (position f <= length (contents f))%nat.

Lemma write_at_bound off d l :
  (off + length d <= length (write_at off d l))%nat.
Proof. unfold write_at. len_lia. Qed.

Lemma wrote_nil f : writable_file f -> wrote f f [].
Proof.
  intros [? ?]. split_and!; [done| |simpl; lia|done]. by rewrite write_at_nil.
Qed.

Lemma wrote_trans f1 f2 f3 d1 d2 :
  wrote f1 f2 d1 -> wrote f2 f3 d2 -> wrote f1 f3 (d1 ++ d2).
Proof.
  intros (V2 & C2 & P2 & B2) (V3 & C3 & P3 & B3). split_and!; [done| | |done].
  - rewrite C3, C2, P2. apply write_at_app.
  - rewrite P3, P2, length_app. lia.
Qed.

Lemma wrote_file f f' d : wrote f f' d -> writable_file f'.
Proof. intros (? & ? & ? & ?). done. Qed.

Lemma write_total f d :
  writer_valid f -> Z.of_nat (position f + length d) <= capacity ->
  exists f', Write f d = (true, f') /\ wrote f f' d.
Proof.
  intros Hv Hc. pose proof (write_accepts f d Hv Hc) as Ha.
  destruct (Write f d) as [b f'] eqn:E. simpl in Ha. subst b. exists f'. split; [done|].
  destruct (write_ok f d f' Hv E) as (V & C & P). split_and!; [done..|].
  rewrite P, C. apply write_at_bound.
Qed.

Lemma write_io_vec_total f iovecs :
  writer_valid f -> iovecs <> [] ->
  Z.of_nat (position f + length (concat iovecs)) <= capacity ->
  exists f', WriteIoVec f iovecs = (true, f') /\ wrote f f' (concat iovecs).
Proof.
  intros Hv Hn Hc. pose proof (write_io_vec_accepts f iovecs Hv Hn Hc) as Ha.
  destruct (WriteIoVec f iovecs) as [b f'] eqn:E. simpl in Ha. subst b. exists f'.
  split; [done|]. destruct (write_io_vec_ok f iovecs f' Hv E) as (V & C & P).
  split_and!; [done..|]. rewrite P, C. apply write_at_bound.
Qed.

Lemma perform_ok m w f :
  proper_action (WriteObject w m) -> writable_file f ->
  Z.of_nat (position f + length (object_bytes m w)) <= capacity ->
  exists f', perform (WriteObject w m) f = (true, f') /\ wrote f f' (object_bytes m w).
Proof.
  intros [Hn Hnf] Hf. unfold object_bytes, perform. pose proof Hf as [Hv _].
  destruct (WriteObject w m) as [|iovecs|d|[d|] n|]; intros Hc; [..|done].
  - exists f. split; [done|]. by apply wrote_nil.
  - apply write_io_vec_total; [done| |done]. by intros ->.
  - by apply write_total.
  - destruct (write_total f d Hv Hc) as (f' & -> & ?). eauto.
  - destruct (write_total f _ Hv Hc) as (f' & -> & ?). eauto.
Qed.

Lemma write_object_ok w h f pad :
  state h w = kStateWritable -> leading_pad_bytes_ h !! address w = Some pad -> 0 <= pad ->
  proper_action (WriteObject w (fields h)) -> writable_file f ->
  let d := replicate (Z.to_nat pad) 0 ++ object_bytes (fields h) w in
  Z.of_nat (position f + length d) <= capacity ->
  exists f', WritePaddingAndObject w h f =
      (Ok (MkHeap (fields h) (leading_pad_bytes_ h) (<[address w := kStateWritten]> (state_ h))), f')
    /\ wrote f f' d.
Proof.
  intros Hs Hp Hpad Hn Hf d Hc. unfold WritePaddingAndObject. subst d.
  rewrite bool_decide_eq_true_2 by done. cbn [negb]. rewrite Hp. simpl default.
  rewrite length_app, length_replicate in Hc.
  assert (exists f1, (if negb (pad =? 0) then Write f (replicate (Z.to_nat pad) 0) else (true, f))
    = (true, f1) /\ wrote f f1 (replicate (Z.to_nat pad) 0)) as (f1 & -> & Hw1).
  { destruct (Z.eqb_spec pad 0) as [->|]; simpl.
    - exists f. split; [done|]. by apply wrote_nil.
    - apply write_total; [apply Hf|]. rewrite length_replicate. lia. }
  cbn [negb]. pose proof Hw1 as (_ & _ & P1 & _). rewrite length_replicate in P1.
  destruct (perform_ok (fields h) w f1) as (f2 & -> & Hw2);
    [done|by eapply wrote_file|rewrite P1; lia|].
  cbn [negb]. eexists. split; [done|]. by eapply wrote_trans.
Qed.

Lemma write_loop_ok off ws h f :
  Forall writable_ok ws -> Forall (writes_its_size (fields h)) ws ->
  NoDup (map address ws) -> Forall (fun w => state h w = kStateWritable) ws ->
  pads_ok off ws (leading_pad_bytes_ h) -> writable_file f ->
  Z.of_nat (position f) + (place_end off ws - off) <= capacity ->
  exists h' f', write_loop ws h f = (Ok h', f') /\ wrote f f' (image (fields h) off ws) /\
    fields h' = fields h /\
    forall w, state h' w = if decide (address w ∈ map address ws) then kStateWritten
                           else state h w.
Proof.
  intros Hok. revert off h f. induction Hok as [|w ws Hw Hws IH]; intros off h f; simpl.
  { intros. exists h, f. split_and!; [done| |done|done]. by apply wrote_nil. }
  intros [Hsz Hszs]%Forall_cons [Hn Hd]%NoDup_cons [Hst Hsts]%Forall_cons [Hp Hps] Hf Hc.
  pose proof (padding_nonneg off w Hw) as Hpad.
  pose proof (place_end_ge (off + padding off w + SizeOfObject w) ws Hws).
  destruct Hsz as [Hl Hv].
  destruct (write_object_ok w h f (padding off w)) as (f1 & -> & Hw1); [done|done|lia|done|done| |].
  { rewrite length_app, length_replicate. lia. }
  set (h1 := MkHeap _ _ _).
  destruct (IH (off + padding off w + SizeOfObject w) h1 f1) as (h2 & f2 & -> & Hw2 & Hf2 & Hs2);
    try done.
  - rewrite Forall_forall in *. intros v Hv'. unfold state, h1. simpl.
    rewrite lookup_insert_ne; [by apply Hsts|]. intros e. apply Hn. rewrite e.
    apply list_elem_of_fmap. eauto.
  - by eapply wrote_file.
  - destruct Hw1 as (_ & _ & -> & _). rewrite length_app, length_replicate. lia.
  - exists h2, f2. split_and!; [done| |done|].
    + rewrite app_assoc. by eapply wrote_trans.
    + intros v. rewrite Hs2. unfold state, h1. simpl.
      destruct (decide (address v = address w)) as [e|].
      * rewrite e, lookup_insert_eq. repeat case_decide; set_solver.
      * rewrite lookup_insert_ne by done. repeat case_decide; set_solver.
Qed.

End WriteProofs.

(** ** The whole file *)

(** A tree that [WriteEverything] accepts: the objects have sane sizes and
    alignments and distinct addresses, and the root is written early. *)
Definition tree_ok (t : Tree) : Prop :=
  Forall writable_ok (flatten t) /\ NoDup (map address (flatten t)) /\
  WritePhase (root t) = kPhaseEarly.

Lemma flatten_root t : exists ws, flatten t = root t :: ws.
Proof. destruct t as [w l]. simpl. eauto. Qed.

Lemma file_order_elem t w : w ∈ file_order t <-> w ∈ flatten t.
Proof.
  unfold file_order, in_phase. rewrite elem_of_app, !list_elem_of_filter.
  destruct (WritePhase w) eqn:E; naive_solver.
Qed.

Lemma file_order_ok (P : Writable -> Prop) t : Forall P (flatten t) -> Forall P (file_order t).
Proof. rewrite !Forall_forall. intros Hp w Hw. apply Hp. by apply file_order_elem. Qed.

Lemma file_order_perm t : file_order t ≡ₚ flatten t.
Proof.
  unfold file_order, in_phase. induction (flatten t) as [|w ws IH]; [done|].
  rewrite !filter_cons. destruct (WritePhase w) eqn:E.
  - rewrite decide_True, decide_False by done. simpl. by rewrite IH.
  - rewrite decide_False, decide_True by done. by rewrite <-Permutation_middle, IH.
Qed.

Lemma file_order_NoDup t :
  NoDup (map address (flatten t)) -> NoDup (map address (file_order t)).
Proof. intros. by rewrite file_order_perm. Qed.

Lemma frozen_heap_state t w : w ∈ flatten t -> state (frozen_heap t) w = kStateFrozen.
Proof.
  intros Hw. unfold state, frozen_heap. simpl. induction (flatten t) as [|v ws IH].
  - by apply not_elem_of_nil in Hw.
  - simpl. destruct (decide (address w = address v)) as [->|n]; [by rewrite lookup_insert_eq|].
    rewrite lookup_insert_ne by done. apply IH. set_solver.
Qed.

Lemma frozen_heap_ready t : ready kPhaseEarly (flatten t) (frozen_heap t).
Proof. apply Forall_forall. intros w Hw. by apply frozen_heap_state. Qed.

Lemma in_phase_address p t w :
  NoDup (map address (flatten t)) -> w ∈ flatten t ->
  address w ∈ map address (in_phase p (flatten t)) -> WritePhase w = p.
Proof.
  intros Hd Hw Hin. apply list_elem_of_fmap in Hin as (v & Ev & Hv).
  apply in_phase_subset in Hv as [Hv <-]. by rewrite (NoDup_map_inj address (flatten t) v w).
Qed.

Lemma late_phase_ready t h :
  NoDup (map address (flatten t)) ->
  prepare_all 0 (in_phase kPhaseEarly (flatten t)) (frozen_heap t) = Some h ->
  ready kPhaseLate (flatten t) h.
Proof.
  intros Hd E. apply Forall_forall. intros w Hw. rewrite (prepare_all_state _ _ _ _ w E).
  unfold expected_state. case_decide as Hin.
  - by rewrite (in_phase_address _ _ _ Hd Hw Hin).
  - rewrite frozen_heap_state by done. destruct (WritePhase w) eqn:Ew; [|done].
    exfalso. apply Hin. apply list_elem_of_fmap. exists w. split; [done|].
    apply list_elem_of_filter. by rewrite Ew.
Qed.

Lemma wrap_signed_small z : 0 <= z < 2 ^ 63 -> wrap_signed 64 z = z.
Proof. intros. unfold wrap_signed. rewrite Z.mod_small; lia. Qed.

(** Both phases of [WriteEverything]. *)
Lemma layout_runs t :
  tree_ok t -> layout_size t < 2 ^ 63 ->
  exists size offset h1 seq1,
  match prepare_all 0 (file_order t) (frozen_heap t) with
  | None =>
      WillWriteAtOffset kPhaseEarly t 0 (frozen_heap t) [] = Error \/
      WillWriteAtOffset kPhaseEarly t 0 (frozen_heap t) [] = Ok (size, offset, h1, seq1) /\
      WillWriteAtOffset kPhaseLate t (wrap_signed 64 (offset + size)) h1 seq1 = Error
  | Some h =>
      WillWriteAtOffset kPhaseEarly t 0 (frozen_heap t) [] = Ok (size, offset, h1, seq1) /\
      exists size2 offset2,
        WillWriteAtOffset kPhaseLate t (wrap_signed 64 (offset + size)) h1 seq1 =
        Ok (size2, offset2, h, file_order t)
  end.
Proof.
  intros (Hok & Hd & Hroot) Hs. unfold layout_size, file_order in *.
  rewrite place_end_app in Hs. rewrite prepare_all_app.
  set (early := in_phase kPhaseEarly (flatten t)) in *.
  set (late := in_phase kPhaseLate (flatten t)) in *.
  pose proof (place_end_ge 0 early (in_phase_ok _ _ Hok)).
  pose proof (place_end_ge (place_end 0 early) late (in_phase_ok _ _ Hok)).
  destruct (will_write_refines kPhaseEarly t 0 (frozen_heap t) []) as (o1 & E1 & Ho1);
    [done..|fold early; lia|apply frozen_heap_ready|].
  rewrite (Ho1 eq_refl) in E1. rewrite E1. unfold laid_out. fold early.
  destruct (prepare_all 0 early (frozen_heap t)) as [h1|] eqn:Ep.
  2: { exists 0, 0, (frozen_heap t), []. by left. }
  exists (place_end 0 early - 0), 0, h1, ([] ++ early).
  rewrite Z.sub_0_r, Z.add_0_l, wrap_signed_small by lia.
  destruct (will_write_refines kPhaseLate t (place_end 0 early) h1 ([] ++ early))
    as (o2 & E2 & _); [lia|done..| |].
  { by apply late_phase_ready. }
  rewrite E2. unfold laid_out. fold late.
  destruct (prepare_all (place_end 0 early) late h1) as [h2|]; [eauto|by right].
Qed.

Section WriteEverything.
  Context {F : Type} `{FileWriterCapacity F}.

Lemma write_everything_writes (t : Tree) (f : F) :
  tree_ok t -> layout_size t < 2 ^ 63 -> assignable (layout t) ->
  Forall (writes_its_size (final_fields t)) (flatten t) ->
  writable_file f -> Z.of_nat (position f) + layout_size t <= capacity ->
  exists h f',
    WriteEverything t f = (Ok h, f') /\
    fields h = final_fields t /\
    Forall (fun w => state h w = kStateWritten) (flatten t) /\
    wrote f f' (image (final_fields t) 0 (file_order t)).
Proof.
  intros Ht Hs Ha Hsz Hf Hc. pose proof Ht as (Hok & Hd & Hroot).
  destruct (prepare_all_fields 0 (file_order t) (frozen_heap t) Ha) as (h & Ep & Hfields).
  change (assign (all_assignments (place 0 (file_order t))) (fields (frozen_heap t)))
    with (final_fields t) in Hfields.
  destruct (layout_runs t Ht Hs) as (size & offset & h1 & seq1 & Hr). rewrite Ep in Hr.
  destruct Hr as (E1 & size2 & offset2 & E2).
  assert (forall w, w ∈ flatten t -> state h w = kStateWritable) as Hst.
  { intros w Hw. rewrite (prepare_all_state _ _ _ _ w Ep). rewrite decide_True; [done|].
    apply list_elem_of_fmap_2. by apply file_order_elem. }
  destruct (flatten_root t) as (ws & Hft).
  assert (root t ∈ flatten t) as Hrt by (rewrite Hft; left).
  unfold WriteEverything. rewrite E1. cbn [result_bind]. rewrite E2. cbn [result_bind].
  rewrite bool_decide_eq_true_2 by auto. rewrite bool_decide_eq_true_2.
  2: { unfold file_order. rewrite Hft. unfold in_phase at 1. by rewrite filter_cons_True. }
  destruct (write_loop_ok 0 (file_order t) h f) as (h3 & f3 & -> & Hw3 & Hf3 & Hs3).
  { by apply file_order_ok. }
  { rewrite Hfields. by apply file_order_ok. }
  { by apply file_order_NoDup. }
  { apply file_order_ok. by apply Forall_forall. }
  { eapply prepare_all_pads; [by apply file_order_NoDup|done]. }
  { done. }
  { unfold layout_size in Hc. lia. }
  assert (forall w, w ∈ flatten t -> state h3 w = kStateWritten) as Hst3.
  { intros w Hw. rewrite Hs3, decide_True; [done|].
    apply list_elem_of_fmap_2. by apply file_order_elem. }
  rewrite bool_decide_eq_true_2 by auto. exists h3, f3.
  split_and!; [done|by rewrite Hf3|by apply Forall_forall|by rewrite <-Hfields].
Qed.

(** C6.  Writing a tree of minidump objects: on a file with enough room,
    [WriteEverything] succeeds, no assertion on the state of an object fails,
    every object ends up written, and the file receives, from its current
    position, exactly the objects of the tree in preorder, the late ones after
    the early ones, each preceded by its alignment padding and written with the
    fields that the layout has filled in. *)
Theorem write_everything_writes_layout (t : Tree) (f : F) :
  tree_ok t -> layout_size t < 2 ^ 63 -> assignable (layout t) ->
  Forall (writes_its_size (final_fields t)) (flatten t) ->
  writable_file f -> Z.of_nat (position f) + layout_size t <= capacity ->
  exists h f',
    WriteEverything t f = (Ok h, f') /\
    fields h = final_fields t /\
    Forall (fun w => state h w = kStateWritten) (flatten t) /\
    wrote f f' (image (final_fields t) 0 (file_order t)).
Proof. apply write_everything_writes. Qed.

(** C37.  An offset or a size that does not fit the field registered for it makes
    [WriteEverything] fail before anything is written. *)
Theorem write_everything_out_of_range (t : Tree) (f : F) :
  tree_ok t -> layout_size t < 2 ^ 63 -> ~ assignable (layout t) ->
  WriteEverything t f = (Error, f).
Proof.
  intros Ht Hs Ha. unfold WriteEverything.
  destruct (layout_runs t Ht Hs) as (size & offset & h1 & seq1 & Hr).
  rewrite (prepare_all_out_of_range _ _ _ Ha) in Hr.
  destruct Hr as [-> | [-> Hr]]; [done|]. cbn [result_bind]. by rewrite Hr.
Qed.

End WriteEverything.

Lemma place_aligned off ws w o :
  Forall writable_ok ws -> (w, o) ∈ place off ws -> 0 < SizeOfObject w -> (Alignment w | o).
Proof.
  intros Hok. revert off. induction Hok as [|v ws Hv _ IH]; intros off; simpl.
  { by intros ?%not_elem_of_nil. }
  rewrite elem_of_cons. intros [[= -> ->]|Hin] Hs; [by apply padding_aligned|by eapply IH].
Qed.

Lemma populate_elem ty rvas descs o size a :
  0 < it_width ty -> populate ty rvas descs o size = Some a ->
  (forall s, s ∈ rvas -> (s, o) ∈ a) /\
  (forall s, s ∈ descs -> (descriptor_size s, size) ∈ a /\ (descriptor_rva s, o) ∈ a).
Proof.
  intros Ht. unfold populate.
  assert (forall v, v = o -> forall s, s ∈ rvas -> (s, o) ∈ assign_each rvas v) as Hr.
  { intros v -> s Hs. apply list_elem_of_fmap. eauto. }
  destruct (AssignIfInRange ty o) as [rva|] eqn:Eo.
  2: { destruct rvas, descs; intros [= <-]; split; by intros ? ?%not_elem_of_nil. }
  apply AssignIfInRange_Some in Eo as [_ ->]; [|done].
  destruct descs as [|d descs].
  { destruct rvas as [|r rvas]; intros [= <-]; 
      (split; [first [by intros ? ?%not_elem_of_nil|by apply (Hr o)]|
               by intros ? ?%not_elem_of_nil]). }
  destruct (AssignIfInRange ty size) as [sz|] eqn:Es; [|by destruct rvas].
  apply AssignIfInRange_Some in Es as [_ ->]; [|done].
  assert (forall s, s ∈ d :: descs ->
    (descriptor_size s, size) ∈ assign_descriptors (d :: descs) size o /\
    (descriptor_rva s, o) ∈ assign_descriptors (d :: descs) size o) as Hd.
  { unfold assign_descriptors. intros s Hs. split; apply elem_of_concat;
      (exists [(descriptor_size s, size); (descriptor_rva s, o)]; split;
       [set_solver|apply list_elem_of_fmap; eauto]). }
  destruct rvas as [|r rvas]; intros E%(inj Some); subst a; split; intros s Hs.
  - by apply not_elem_of_nil in Hs.
  - by apply Hd.
  - apply elem_of_app. left. by apply Hr.
  - destruct (Hd s Hs). split; apply elem_of_app; by right.
Qed.

(** What an object placed at [o] stores in the fields registered with it. *)
Definition points_to (m : fields_map) (w : Writable) (o : Z) : Prop :=
  (forall s, s ∈ registered_rvas_ w ++ registered_rva64s_ w -> m !! s = Some o) /\
  (forall s, s ∈ registered_location_descriptors_ w ++ registered_location_descriptor64s_ w ->
     m !! descriptor_size s = Some (SizeOfObject w) /\ m !! descriptor_rva s = Some o) /\
  (forall own s v, WillWriteAtOffsetImpl w o = Some own -> (s, v) ∈ own -> m !! s = Some v).

Lemma assignments_point_to (w : Writable) (o : Z) (a : list (slot * Z)) (m : fields_map) :
  assignments w o = Some a -> (forall s v, (s, v) ∈ a -> m !! s = Some v) -> points_to m w o.
Proof.
  unfold assignments, points_to. destruct (WillWriteAtOffsetImpl w o) as [own|]; [|done].
  destruct (populate uint32_t _ _ _ _) as [a32|] eqn:E32; [|done].
  destruct (populate uint64_t _ _ _ _) as [a64|] eqn:E64; [|done].
  apply populate_elem in E32 as [R32 D32]; [|done].
  apply populate_elem in E64 as [R64 D64]; [|done].
  intros [= <-] Hm. split_and!.
  - intros s [Hs|Hs]%elem_of_app; apply Hm; set_solver.
  - intros s [Hs|Hs]%elem_of_app.
    + destruct (D32 s Hs). split; apply Hm; set_solver.
    + destruct (D64 s Hs). split; apply Hm; set_solver.
  - intros own' s v [= <-] Hs. apply Hm. set_solver.
Qed.

Lemma final_fields_lookup t w o :
  NoDup (all_assignments (layout t)).*1 -> assignable (layout t) -> (w, o) ∈ layout t ->
  points_to (final_fields t) w o.
Proof.
  intros Hd Ha Hin. unfold assignable in Ha. rewrite Forall_forall in Ha.
  destruct (Ha _ Hin) as [a Ea]. apply (assignments_point_to w o a); [done|].
  intros s v Hs. apply assign_lookup; [done|]. apply elem_of_concat. exists a.
  split; [done|]. apply list_elem_of_fmap. exists (w, o). by rewrite Ea.
Qed.

Lemma layout_object_at (t : Tree) (w : Writable) (o : Z) :
  tree_ok t -> assignable (layout t) -> Forall (writes_its_size (final_fields t)) (flatten t) ->
  NoDup (all_assignments (layout t)).*1 -> (w, o) ∈ layout t ->
  (0 < SizeOfObject w -> (Alignment w | o)) /\ 0 <= o /\
  slice (Z.to_nat o) (Z.to_nat (SizeOfObject w)) (image (final_fields t) 0 (file_order t)) =
    object_bytes (final_fields t) w /\
  points_to (final_fields t) w o.
Proof.
  intros (Hok & _) Ha Hsz Hd Hin. pose proof (file_order_ok _ _ Hok) as Hok'.
  pose proof (file_order_ok _ _ Hsz) as Hsz'.
  pose proof (image_slice _ _ _ _ _ Hok' Hsz' Hin) as [Hge Hsl].
  assert (w ∈ file_order t) as Hw.
  { rewrite <-(place_fst 0 (file_order t)). apply (list_elem_of_fmap_2 fst _ _ Hin). }
  rewrite Forall_forall in Hsz'. destruct (Hsz' w Hw) as [Hlen _].
  split_and!; [|done| |by apply final_fields_lookup].
  - by apply (place_aligned 0 (file_order t)).
  - rewrite Z.sub_0_r in Hsl. by rewrite <-Hlen, Nat2Z.id.
Qed.

(** C7.  In a laid-out file every object is where the rest of the file says it
    is: a non-empty object is at a multiple of its alignment; the bytes at its
    offset are its bytes; every RVA registered with it holds its offset, and
    every location descriptor its size and its offset. *)
Theorem layout_objects_found (t : Tree) (w : Writable) (o : Z) :
  tree_ok t -> assignable (layout t) -> Forall (writes_its_size (final_fields t)) (flatten t) ->
  NoDup (all_assignments (layout t)).*1 -> (w, o) ∈ layout t ->
  (0 < SizeOfObject w -> (Alignment w | o)) /\ 0 <= o /\
  slice (Z.to_nat o) (Z.to_nat (SizeOfObject w)) (image (final_fields t) 0 (file_order t)) =
    object_bytes (final_fields t) w /\
  points_to (final_fields t) w o.
Proof. apply layout_object_at. Qed.

(** ** An example *)

(** A parent with the RVAs of an early child of three bytes and of a late child
    whose memory cannot be read. *)
Definition example_tree : Tree :=
  Node (MkWritable [] 8 4 kPhaseEarly [] [] [] [] (fun _ => Some [])
          (fun m => WriteVectors [le_bytes 4 (field m ([], 0%nat)); le_bytes 4 (field m ([], 1%nat))]))
    [Node (MkWritable [0%nat] 3 4 kPhaseEarly [([], 0%nat)] [] [] [] (fun _ => Some [])
             (fun _ => WriteBuffer [1; 2; 3])) [];
     Node (MkWritable [1%nat] 2 16 kPhaseLate [([], 1%nat)] [] [] [] (fun _ => Some [])
             (fun _ => WriteMemory None 2)) []].

(** A root too large for the RVA of its child. *)
Definition example_too_large : Tree :=
  Node (MkWritable [] (2 ^ 33) 4 kPhaseEarly [] [] [] [] (fun _ => Some [])
          (fun m => WriteBuffer []))
    [Node (MkWritable [0%nat] 3 4 kPhaseEarly [([], 0%nat)] [] [] [] (fun _ => Some [])
             (fun _ => WriteBuffer [1; 2; 3])) []].

(** Discharge the hypotheses on a concrete tree. *)
Ltac concrete_tree :=
  match goal with
  | |- tree_ok _ =>
      split_and!; [repeat constructor; simpl; unfold kMaximumAlignment; lia
                  |apply (bool_decide_unpack _); vm_compute; exact I|reflexivity]
  | |- layout_size _ < _ => vm_compute; reflexivity
  | |- assignable _ => repeat constructor; vm_compute; eauto
  | |- Forall (writes_its_size _) _ =>
      repeat (apply List.Forall_cons; [split; [vm_compute; reflexivity|split; vm_compute; congruence]|]);
      apply List.Forall_nil
  | |- NoDup _ => apply (bool_decide_unpack _); vm_compute; exact I
  | |- writable_file _ => split; [vm_compute; congruence|vm_compute; lia]
  | |- _ <= capacity => vm_compute; congruence
  end.

Lemma write_everything_writes_layout_witness :
  exists h f', WriteEverything example_tree (StringFile.Make [77] 1) = (Ok h, f') /\
    wrote (StringFile.Make [77] 1) f'
      [8; 0; 0; 0; 16; 0; 0; 0; 1; 2; 3; 0; 0; 0; 0; 0; 254; 254].
Proof.
  destruct (write_everything_writes_layout example_tree (StringFile.Make [77] 1))
    as (h & f' & E & _ & _ & Hw); [concrete_tree..|].
  exists h, f'. split; [exact E|exact Hw].
Defined.

Lemma write_everything_out_of_range_witness :
  WriteEverything example_too_large StringFile.empty = (Error, StringFile.empty).
Proof.
  apply write_everything_out_of_range; [concrete_tree|concrete_tree|].
  intros Ha. inversion_clear Ha as [|? ? _ Hb]. inversion_clear Hb as [|? ? Hc _].
  vm_compute in Hc. destruct Hc as [? Hc]. discriminate Hc.
Defined.

Lemma layout_objects_found_witness :
  exists w, (w, 16) ∈ layout example_tree /\
  slice 16 2 (image (final_fields example_tree) 0 (file_order example_tree)) = [254; 254] /\
  final_fields example_tree !! ([], 1%nat) = Some 16.
Proof.
  exists (root (nth 1 (Children example_tree) example_tree)).
  assert ((root (nth 1 (Children example_tree) example_tree), 16) ∈ layout example_tree) as Hin.
  { vm_compute. right; right; left. }
  split; [exact Hin|].
  destruct (layout_objects_found example_tree _ 16 ltac:(concrete_tree) ltac:(concrete_tree)
    ltac:(concrete_tree) ltac:(concrete_tree) Hin) as (_ & _ & Hs & Hp & _).
  split; [exact Hs|]. apply Hp. vm_compute. left.
Defined.
