(* ===== verification/MinidumpObjects.v ===== *)
(** * Minidump object classes (minidump/)

    The classes derived from [MinidumpWritable] that do not depend on a snapshot
    of a process: strings, lists of RVAs, simple string dictionaries, byte
    arrays, annotations, module information and the base class of streams.  A
    class in its mutable state is a record; its [Freeze] method builds the tree of
    frozen objects, at a given address, of the file MinidumpWritable.  Every
    [Freeze] is proved to give a tree in which the objects write as many bytes as
    they announce and each field is filled in by exactly one object
    ([owned]), which is what [WriteEverything] relies on. *)

From S2P Require Import Prelude.
From S2P Require Import Numeric.
From S2P Require Import FileIO.
From S2P Require Import Uuid.
From S2P Require Import MemoryRanges.
From S2P Require Import MinidumpWritable.

(** ** Trees that own their fields *)

(** The fields an object assigns. *)
Definition impl_slots (w : Writable) : list slot :=
  default [] ((fun a : list (slot * Z) => a.*1) <$> WillWriteAtOffsetImpl w 0).
Definition descriptor_slots (l : list slot) : list slot :=
  concat (map (fun s => [descriptor_size s; descriptor_rva s]) l).
Definition writable_slots (w : Writable) : list slot :=
  impl_slots w ++
  (registered_rvas_ w ++ descriptor_slots (registered_location_descriptors_ w)) ++
  (registered_rva64s_ w ++ descriptor_slots (registered_location_descriptor64s_ w)).
Definition tree_slots (t : Tree) : list slot := concat (map writable_slots (flatten t)).

(** What every class promises of its objects: a sane size and alignment, as many
    bytes written as announced, and a set of own fields that does not depend on
    the offset. *)
Definition lawful (w : Writable) : Prop :=
  writable_ok w /\ (forall m, writes_its_size m w) /\ is_Some (WillWriteAtOffsetImpl w 0) /\
  (forall o a, WillWriteAtOffsetImpl w o = Some a -> a.*1 = impl_slots w).

(** A tree frozen at the address [p]: its objects and the fields it assigns are
    at or below [p], all distinct. *)
Record owned (p : path) (t : Tree) : Prop := {
  owned_address : address (root t) = p;
  owned_below : Forall (fun w => p `prefix_of` address w) (flatten t);
  owned_distinct : NoDup (map address (flatten t));
  owned_lawful : Forall lawful (flatten t);
  owned_slots_below : Forall (fun s : slot => p `prefix_of` s.1) (tree_slots t);
  owned_slots_distinct : NoDup (tree_slots t)
}.

(** [t] is [t0] with the fields [S] registered at its root. *)
Record registered (S : list slot) (t0 t : Tree) : Prop := {
  reg_children : Children t = Children t0;
  reg_address : address (root t) = address (root t0);
  reg_write : WriteObject (root t) = WriteObject (root t0);
  reg_size : SizeOfObject (root t) = SizeOfObject (root t0);
  reg_lawful : lawful (root t0) -> lawful (root t);
  reg_slots : writable_slots (root t) ≡ₚ S ++ writable_slots (root t0)
}.

Lemma registered_refl t : registered [] t t.
Proof. split; auto. Qed.

Lemma registered_rva S s t0 t :
  registered S t0 t -> registered (s :: S) t0 (RegisterRVA s t).
Proof.
  intros [Hc Ha Hw Hz Hl Hs]. destruct t as [w l], t0 as [w0 l0]. simpl in *. split; simpl; [done..| |].
  - intros (H1 & H2 & H3)%Hl. done.
  - rewrite <-Hs. unfold writable_slots. simpl. change (impl_slots _) with (impl_slots w).
    generalize (impl_slots w). intros own. rewrite <-!app_assoc. simpl.
    by rewrite <-!Permutation_middle.
Qed.

Lemma registered_rva64 S s t0 t :
  registered S t0 t -> registered (s :: S) t0 (RegisterRVA64 s t).
Proof.
  intros [Hc Ha Hw Hz Hl Hs]. destruct t as [w l], t0 as [w0 l0]. simpl in *. split; simpl; [done..| |].
  - intros (H1 & H2 & H3)%Hl. done.
  - rewrite <-Hs. unfold writable_slots. simpl. change (impl_slots _) with (impl_slots w).
    generalize (impl_slots w). intros own. rewrite <-!app_assoc. simpl.
    by rewrite <-!Permutation_middle.
Qed.

Lemma descriptor_slots_app a b :
  descriptor_slots (a ++ b) = descriptor_slots a ++ descriptor_slots b.
Proof. unfold descriptor_slots. by rewrite map_app, concat_app. Qed.

Lemma registered_descriptor S s t0 t :
  registered S t0 t ->
  registered (descriptor_size s :: descriptor_rva s :: S) t0 (RegisterLocationDescriptor s t).
Proof.
  intros [Hc Ha Hw Hz Hl Hs]. destruct t as [w l], t0 as [w0 l0]. simpl in *. split; simpl; [done..| |].
  - intros (H1 & H2 & H3)%Hl. done.
  - rewrite <-Hs. unfold writable_slots. simpl. change (impl_slots _) with (impl_slots w).
    generalize (impl_slots w). intros own.
    rewrite descriptor_slots_app, <-!app_assoc. simpl. by rewrite <-!Permutation_middle.
Qed.

#[export] Hint Resolve registered_refl registered_rva registered_rva64 registered_descriptor : cp.

Lemma flatten_Children t : flatten t = root t :: concat (map flatten (Children t)).
Proof. by destruct t. Qed.

Lemma tree_slots_node t :
  tree_slots t = writable_slots (root t) ++ concat (map tree_slots (Children t)).
Proof.
  unfold tree_slots. rewrite flatten_Children. simpl. f_equal.
  induction (Children t) as [|c l IH]; simpl; [done|]. by rewrite map_app, concat_app, IH.
Qed.

Lemma registered_tree_slots S t0 t :
  registered S t0 t -> tree_slots t ≡ₚ S ++ tree_slots t0.
Proof.
  intros [Hc _ _ _ _ Hs]. rewrite !tree_slots_node, Hc, Hs. by rewrite app_assoc.
Qed.

Lemma registered_addresses S t0 t :
  registered S t0 t -> map address (flatten t) = map address (flatten t0).
Proof. intros [Hc Ha _ _ _ _]. rewrite !flatten_Children. simpl. by rewrite Hc, Ha. Qed.

(** Children frozen at the addresses [p ++ [i]], [p ++ [i + 1]], ..., with the
    fields registered by the parent. *)
Inductive adopted (p : path) : nat -> list (list slot) -> list Tree -> Prop :=
  | adopted_nil i : adopted p i [] []
  | adopted_cons i s t0 t ss ts :
      owned (p ++ [i]) t0 -> registered s t0 t -> adopted p (S i) ss ts ->
      adopted p i (s :: ss) (t :: ts).

#[export] Hint Constructors adopted : cp.

(** An address below one of the children from the [i]-th one on. *)
Definition below (p : path) (i : nat) (q : path) : Prop :=
  exists j, (i <= j)%nat /\ (p ++ [j]) `prefix_of` q.

Lemma below_self p i : ~ below p i p.
Proof. intros (j & _ & Hp%prefix_length). rewrite length_app in Hp. simpl in Hp. lia. Qed.

Lemma below_prefix p i q : below p i q -> p `prefix_of` q.
Proof. intros (j & _ & Hp). etrans; [|exact Hp]. by apply prefix_app_r. Qed.

Lemma below_weaken p i j q : below p i q -> (j <= i)%nat -> below p j q.
Proof. intros (k & ? & ?) ?. exists k. split; [lia|done]. Qed.

Lemma below_succ p i q : below p (S i) q -> ~ (p ++ [i]) `prefix_of` q.
Proof.
  intros (j & Hj & [k ->]) [k' E]. rewrite <-!app_assoc in E. simpl in E.
  apply (app_inv_head p) in E. injection E. lia.
Qed.

(** What a list of adopted children contributes to its parent. *)
Record children_ok (p : path) (i : nat) (ss : list (list slot)) (ts : list Tree) : Prop := {
  ch_below : Forall (fun w => below p i (address w)) (concat (map flatten ts));
  ch_distinct : NoDup (map address (concat (map flatten ts)));
  ch_lawful : Forall lawful (concat (map flatten ts));
  ch_slots : exists inner, concat (map tree_slots ts) ≡ₚ concat ss ++ inner /\
    NoDup inner /\ Forall (fun s : slot => below p i s.1) inner
}.

Lemma Forall_below_weaken {A} (f : A -> path) p i l :
  Forall (fun x => below p (S i) (f x)) l -> Forall (fun x => below p i (f x)) l.
Proof. intros H. eapply Forall_impl; [exact H|]. intros x Hx. eapply below_weaken; [exact Hx|lia]. Qed.

Lemma Forall_prefix_below {A} (f : A -> path) p i l :
  Forall (fun x => (p ++ [i]) `prefix_of` f x) l -> Forall (fun x => below p i (f x)) l.
Proof. intros H. eapply Forall_impl; [exact H|]. intros x Hx. by exists i. Qed.

Lemma NoDup_below {A} (f : A -> path) p i (l1 l2 : list A) :
  NoDup l1 -> NoDup l2 -> Forall (fun x => (p ++ [i]) `prefix_of` f x) l1 ->
  Forall (fun x => below p (S i) (f x)) l2 -> NoDup (l1 ++ l2).
Proof.
  rewrite !Forall_forall. intros H1 H2 Hp Hb. apply NoDup_app. split_and!; [done| |done].
  intros x Hx1 Hx2. by apply (below_succ p i (f x)); auto.
Qed.

Lemma adopted_ok p i ss ts : adopted p i ss ts -> children_ok p i ss ts.
Proof.
  induction 1 as [i|i s t0 t ss ts Ho Hr _ [IHb IHd IHl (inner & IHs & IHn & IHi)]].
  { split; try by constructor. exists []. split_and!; by constructor. }
  pose proof (registered_addresses _ _ _ Hr) as Ha.
  pose proof (registered_tree_slots _ _ _ Hr) as Hs. destruct Ho as [O1 O2 O3 O4 O5 O6].
  assert (Forall (fun w => (p ++ [i]) `prefix_of` address w) (flatten t)) as Hb.
  { apply (Forall_fmap address (prefix (p ++ [i]))).
    change (fmap address (flatten t)) with (map address (flatten t)).
    rewrite Ha. by apply Forall_fmap. }
  split; simpl.
  - apply Forall_app_2; [by apply Forall_prefix_below|by apply Forall_below_weaken].
  - rewrite map_app. apply (NoDup_below id p i); [by rewrite Ha|done| |].
    + by apply Forall_fmap.
    + by apply Forall_fmap.
  - apply Forall_app_2; [|done]. rewrite flatten_Children in O4 |- *.
    apply Forall_cons in O4 as [L0 L1]. constructor; [by apply (reg_lawful _ _ _ Hr)|].
    by rewrite (reg_children _ _ _ Hr).
  - exists (tree_slots t0 ++ inner). split_and!.
    + rewrite Hs, IHs. rewrite <-!app_assoc. apply Permutation_app_head.
      rewrite !app_assoc. apply Permutation_app_tail, Permutation_app_comm.
    + by apply (NoDup_below fst p i).
    + apply Forall_app_2; [by apply Forall_prefix_below|by apply Forall_below_weaken].
Qed.

Lemma node_owned p w ss ts :
  address w = p -> lawful w -> adopted p 0 ss ts ->
  NoDup (writable_slots w ++ concat ss) ->
  Forall (fun s : slot => s.1 = p) (writable_slots w ++ concat ss) -> owned p (Node w ts).
Proof.
  intros Ha Hl [Cb Cd Cl (inner & Cs & Cn & Ci)]%adopted_ok Hn Hp.
  assert (tree_slots (Node w ts) ≡ₚ (writable_slots w ++ concat ss) ++ inner) as Hs.
  { rewrite tree_slots_node. simpl. by rewrite Cs, app_assoc. }
  split; simpl; [done| | | | |].
  - constructor; [by rewrite Ha|]. eapply Forall_impl; [exact Cb|]. intros v. apply below_prefix.
  - constructor; [|done]. rewrite Ha. intros Hin. apply list_elem_of_fmap in Hin as (v & Ev & Hv).
    rewrite Forall_forall in Cb. apply (below_self p 0). rewrite Ev at 2. by apply Cb.
  - by constructor.
  - rewrite Hs. apply Forall_app_2.
    + eapply Forall_impl; [exact Hp|]. simpl. by intros s ->.
    + eapply Forall_impl; [exact Ci|]. intros s. apply below_prefix.
  - rewrite Hs. apply NoDup_app. split_and!; [done| |done].
    rewrite Forall_forall in Hp, Ci. intros s H1%Hp H2%Ci. simpl in *. rewrite H1 in H2.
    by apply (below_self p 0).
Qed.

(** ** From an owned tree to the hypotheses of [WriteEverything] *)

Lemma owned_tree_ok t : owned [] t -> WritePhase (root t) = kPhaseEarly -> tree_ok t.
Proof.
  intros [] Hp. split_and!; [|done|done]. eapply Forall_impl; [done|]. by intros w [? _].
Qed.

Lemma owned_writes_its_size p t m : owned p t -> Forall (writes_its_size m) (flatten t).
Proof. intros []. eapply Forall_impl; [done|]. intros w (_ & ? & _). auto. Qed.

Lemma assign_each_fst l v : (assign_each l v).*1 = l.
Proof. induction l as [|s l IH]; [done|]. by rewrite <-IH at 2. Qed.
Lemma assign_descriptors_fst l a b : (assign_descriptors l a b).*1 = descriptor_slots l.
Proof.
  induction l as [|s l IH]; [done|]. change (assign_descriptors (s :: l) a b) with
    ([(descriptor_size s, a); (descriptor_rva s, b)] ++ assign_descriptors l a b).
  rewrite fmap_app, IH. done.
Qed.

Lemma populate_fst ty rvas descs o size a :
  populate ty rvas descs o size = Some a -> a.*1 = rvas ++ descriptor_slots descs.
Proof.
  unfold populate. intros E.
  destruct (AssignIfInRange ty o) as [rva|]; [|destruct rvas, descs; by inversion E].
  destruct descs as [|d descs].
  { rewrite app_nil_r. destruct rvas as [|r rvas]; [by injection E as <-|].
    apply (inj Some) in E as <-. apply assign_each_fst. }
  destruct (AssignIfInRange ty size) as [sz|]; [|by destruct rvas].
  assert (a = assign_each rvas rva ++ assign_descriptors (d :: descs) sz rva) as ->.
  { destruct rvas; by apply (inj Some) in E. }
  rewrite fmap_app. f_equal; [apply assign_each_fst|apply assign_descriptors_fst].
Qed.

Lemma assignments_fst w o a :
  lawful w -> assignments w o = Some a -> a.*1 = writable_slots w.
Proof.
  intros (_ & _ & _ & Hi). unfold assignments, writable_slots.
  destruct (WillWriteAtOffsetImpl w o) as [own|] eqn:Ei; [|done].
  destruct (populate uint32_t _ _ _ _) as [a32|] eqn:E32; [|done].
  destruct (populate uint64_t _ _ _ _) as [a64|] eqn:E64; [|done].
  intros [= <-]. rewrite !fmap_app, (Hi _ _ Ei), (populate_fst _ _ _ _ _ _ E32),
    (populate_fst _ _ _ _ _ _ E64). done.
Qed.

Lemma all_assignments_fst off ws :
  Forall lawful ws -> assignable (place off ws) ->
  (all_assignments (place off ws)).*1 = concat (map writable_slots ws).
Proof.
  intros Hl. revert off. induction Hl as [|w ws Hw _ IH]; intros off Ha; [done|].
  apply Forall_cons in Ha as [[a Ea] Ha]. unfold all_assignments in *. simpl. rewrite Ea. simpl.
  rewrite fmap_app, IH by done. f_equal. by eapply assignments_fst.
Qed.

Lemma owned_assignments_distinct p t :
  owned p t -> assignable (layout t) -> NoDup (all_assignments (layout t)).*1.
Proof.
  intros [] Ha. unfold layout in *. rewrite all_assignments_fst; [|by apply file_order_ok|done].
  by rewrite file_order_perm.
Qed.

(** ** Building blocks of the classes *)

(** A class in its mutable state, seen by a class that contains it: what its
    [Freeze] gives at an address. *)
Abbreviation Freezable := (path -> option Tree) (only parsing).
Definition freezes_owned (c : Freezable) : Prop := forall p t, c p = Some t -> owned p t.

(** [MinidumpWritable::Freeze] of an object: the children in order. *)
Fixpoint freeze_children (p : path) (i : nat) (l : list Freezable) : option (list Tree) :=
  match l with
  | [] => Some []
  | c :: l' =>
      match c (p ++ [i]) with
      | None => None
      | Some t =>
          match freeze_children p (S i) l' with
          | None => None
          | Some ts => Some (t :: ts)
          end
      end
  end.

(** Registration of one field per child. *)
Fixpoint register_each (reg : nat -> Tree -> Tree) (i : nat) (ts : list Tree) : list Tree :=
  match ts with
  | [] => []
  | t :: ts' => reg i t :: register_each reg (S i) ts'
  end.

(** An object with the default alignment, phase and [WillWriteAtOffsetImpl]. *)
Definition object_at (p : path) (size : Z) (write : fields_map -> WriteAction) : Writable :=
  MkWritable p size 4 kPhaseEarly [] [] [] [] (fun _ => Some []) write.

(** [MinidumpStreamWriter]: an object that fills in its own entry of the stream
    directory, [directory_list_entry_], whose [Location] is at field 0. *)
Definition directory_entry (p : path) : slot := (p, 0%nat).
Definition stream_at (p : path) (size : Z) (write : fields_map -> WriteAction) : Writable :=
  MkWritable p size 4 kPhaseEarly [] [] [directory_entry p] [] (fun _ => Some []) write.

Lemma object_lawful p size write :
  (forall m, writes_its_size m (object_at p size write)) -> lawful (object_at p size write).
Proof.
  intros Hw. split_and!; simpl; [|done|eauto|by intros o a [= <-]].
  split; simpl; [destruct (Hw ∅) as [Hs _]; simpl in Hs; lia|unfold kMaximumAlignment; lia].
Qed.

Lemma stream_lawful p size write :
  (forall m, writes_its_size m (stream_at p size write)) -> lawful (stream_at p size write).
Proof.
  intros Hw. split_and!; simpl; [|done|eauto|by intros o a [= <-]].
  split; simpl; [destruct (Hw ∅) as [Hs _]; simpl in Hs; lia|unfold kMaximumAlignment; lia].
Qed.

Lemma freeze_children_adopted p i l ts :
  Forall freezes_owned l -> freeze_children p i l = Some ts ->
  adopted p i (replicate (length l) []) ts /\ length ts = length l.
Proof.
  intros Hl. revert i ts. induction Hl as [|c l Hc _ IH]; intros i ts; simpl.
  { intros [= <-]. split; [constructor|done]. }
  destruct (c (p ++ [i])) as [t|] eqn:Et; [|done].
  destruct (freeze_children p (S i) l) as [ts'|] eqn:Ets; [|done]. intros [= <-].
  destruct (IH _ _ Ets) as [Ha Hn]. split; [|simpl; lia].
  econstructor; [by apply Hc|apply registered_refl|done].
Qed.

Lemma adopted_register p reg regs i n ts :
  (forall i t0 t, registered [] t0 t -> registered (regs i) t0 (reg i t)) ->
  adopted p i (replicate n []) ts ->
  adopted p i (map regs (seq i n)) (register_each reg i ts).
Proof.
  intros Hreg. revert i ts. induction n as [|n IH]; intros i ts Ha; inversion Ha; subst; simpl.
  - constructor.
  - econstructor; [done|by apply Hreg|by apply IH].
Qed.

Lemma length_register_each reg i ts : length (register_each reg i ts) = length ts.
Proof. revert i; induction ts; intros; simpl; auto. Qed.

Lemma concat_replicate_nil {A} n : concat (replicate n ([] : list A)) = [].
Proof. by induction n. Qed.

(** The fields that lists register: one RVA, or one location descriptor, each. *)
Lemma concat_rva_slots (p : path) i n :
  concat (map (fun k => [(p, k)]) (seq i n)) = map (pair p) (seq i n).
Proof. revert i; induction n; intros; simpl; congruence. Qed.

Lemma concat_descriptor_slots (p : path) i n :
  concat (map (fun k => [(p, (2 * k)%nat); (p, S (2 * k)%nat)]) (seq i n)) =
  map (pair p) (seq (2 * i) (2 * n)).
Proof.
  revert i; induction n as [|n IH]; intros i; [done|].
  cbn [seq map concat app]. rewrite IH.
  replace (2 * S n)%nat with (S (S (2 * n))) by lia. cbn [seq map].
  by replace (2 * S i)%nat with (S (S (2 * i))) by lia.
Qed.

Lemma NoDup_field_slots (p : path) i n : NoDup (map (pair p) (seq i n)).
Proof. apply NoDup_fmap_2; [by intros ? ? [= ->]|apply NoDup_seq]. Qed.

Lemma Forall_field_slots (p : path) l : Forall (fun s : slot => s.1 = p) (map (pair p) l).
Proof. by apply Forall_fmap, Forall_true. Qed.

(** Solve the goals that the classes below share. *)
Ltac slots_distinct :=
  repeat (apply NoDup_cons; split; [set_solver|]); try apply NoDup_nil_2.
Ltac class_owned ss :=
  apply (node_owned _ _ ss); [reflexivity| | | |].
Ltac sized :=
  intros ?m; split;
  [unfold object_bytes, object_at, stream_at; cbn [WriteObject SizeOfObject concat]
  |split; simpl; congruence].

Ltac forall_list tac := repeat (apply List.Forall_cons; [tac|]); apply List.Forall_nil.

(** ** Strings (minidump_string_writer.cc) *)

Module MinidumpStringWriter.

(** [string_], and the size of its elements: 1 for [MinidumpUTF8StringWriter], 2
    for [MinidumpUTF16StringWriter]. *)
Record t := Make { char_size : nat; string_ : list Z }.

(** [Freeze], [SizeOfObject] and [WriteObject]. *)
Definition Freeze (s : t) (p : path) : option Tree :=
  let string_bytes := u64 (Z.of_nat (length (string_ s)) * Z.of_nat (char_size s)) in
  match AssignIfInRange uint32_t string_bytes with
  | None => None
  | Some Length =>
      Some (Node (object_at p
        (4 + (Z.of_nat (length (string_ s)) + 1) * Z.of_nat (char_size s))
        (fun _ => WriteVectors [le_bytes 4 Length;
                                concat (map (le_bytes (char_size s)) (string_ s ++ [0]))])) [])
  end.

Lemma length_chars n (l : list Z) : length (concat (map (le_bytes n) l)) = (length l * n)%nat.
Proof. induction l; simpl; [done|]. rewrite length_app, length_le_bytes. lia. Qed.

Lemma string_freeze_owned s : freezes_owned (Freeze s).
Proof.
  intros p t. unfold Freeze. destruct (AssignIfInRange _ _); [|done]. intros <-%(inj Some).
  class_owned (@nil (list slot)); [|constructor|constructor|constructor].
  apply object_lawful. sized. rewrite app_nil_r, length_app, length_le_bytes, length_chars.
  rewrite length_app. simpl. lia.
Qed.

End MinidumpStringWriter.

(** [MinidumpUTF8StringWriter::SetUTF8] and [MinidumpUTF16StringWriter::SetUTF8];
    the conversion is [base::UTF8ToUTF16], with its result ignored. *)
Definition MinidumpUTF8StringWriter (s : bytes) : MinidumpStringWriter.t :=
  MinidumpStringWriter.Make 1 s.
Definition MinidumpUTF16StringWriter (UTF8ToUTF16 : bytes -> bool * list Z) (s : bytes)
    : MinidumpStringWriter.t :=
  MinidumpStringWriter.Make 2 (snd (UTF8ToUTF16 s)).

(** ** Lists of RVAs (minidump_rva_list_writer.cc) *)

Module MinidumpRVAListWriter.

(** [children_]; the RVA of the [i]-th child, [child_rvas_[i]], is at field [i]. *)
Definition t := list Freezable.

(** [AddChild]. *)
Definition AddChild (l : t) (child : Freezable) : t := l ++ [child].

(** [IsEmpty]. *)
Definition IsEmpty (l : t) : bool := match l with [] => true | _ => false end.

(** The bytes of [child_rvas_]. *)
Definition rva_bytes (m : fields_map) (p : path) (n : nat) : bytes :=
  concat (map (fun k => le_bytes 4 (field m (p, k))) (seq 0 n)).

(** [Freeze], [SizeOfObject], [Children] and [WriteObject]. *)
Definition Freeze (l : t) (p : path) : option Tree :=
  match freeze_children p 0 l with
  | None => None
  | Some ts =>
      match AssignIfInRange uint32_t (Z.of_nat (length l)) with
      | None => None
      | Some count =>
          Some (Node (object_at p (4 + Z.of_nat (length l) * 4)
            (fun m => WriteVectors (le_bytes 4 count ::
               if (length l =? 0)%nat then [] else [rva_bytes m p (length l)])))
            (register_each (fun k => RegisterRVA (p, k)) 0 ts))
      end
  end.

Lemma length_rva_bytes m p n : length (rva_bytes m p n) = (4 * n)%nat.
Proof.
  unfold rva_bytes. generalize (length_seq n 0). generalize (seq 0 n). intros l <-.
  induction l as [|k l IH]; [done|].
  cbn [map concat length]. rewrite length_app, IH, length_le_bytes. lia.
Qed.

Lemma rva_list_freeze_owned l : Forall freezes_owned l -> freezes_owned (Freeze l).
Proof.
  intros Hl p t. unfold Freeze. destruct (freeze_children p 0 l) as [ts|] eqn:Ec; [|done].
  destruct (AssignIfInRange _ _); [|done]. intros <-%(inj Some).
  destruct (freeze_children_adopted _ _ _ _ Hl Ec) as [Ha _].
  class_owned (map (fun k => [(p, k)]) (seq 0 (length l))).
  - apply object_lawful. sized.
    destruct (Nat.eqb_spec (length l) 0) as [->|]; cbn [concat];
      rewrite ?app_nil_r, ?length_app, length_le_bytes, ?length_rva_bytes; lia.
  - apply adopted_register; [|done]. intros i t0 t Hr. by apply registered_rva.
  - rewrite concat_rva_slots. apply NoDup_field_slots.
  - rewrite concat_rva_slots. apply Forall_field_slots.
Qed.

End MinidumpRVAListWriter.

(** [MinidumpStringListWriter::AddStringUTF8], [InitializeFromVector] and
    [IsUseful], for UTF-8 strings. *)
Module MinidumpUTF8StringListWriter.

Definition AddStringUTF8 (l : MinidumpRVAListWriter.t) (s : bytes) : MinidumpRVAListWriter.t :=
  MinidumpRVAListWriter.AddChild l (MinidumpStringWriter.Freeze (MinidumpUTF8StringWriter s)).

Definition InitializeFromVector (vector : list bytes) : MinidumpRVAListWriter.t :=
  fold_left AddStringUTF8 vector [].

Definition IsUseful (l : MinidumpRVAListWriter.t) : bool :=
  negb (MinidumpRVAListWriter.IsEmpty l).

Lemma string_list_initialize_map vector :
  InitializeFromVector vector =
  map (fun s => MinidumpStringWriter.Freeze (MinidumpUTF8StringWriter s)) vector.
Proof.
  unfold InitializeFromVector. change (map _ vector) with ([] ++ map (fun s =>
    MinidumpStringWriter.Freeze (MinidumpUTF8StringWriter s)) vector).
  generalize (@nil Freezable). induction vector as [|s v IH]; intros acc; simpl.
  { by rewrite app_nil_r. }
  rewrite IH. unfold AddStringUTF8, MinidumpRVAListWriter.AddChild. by rewrite <-app_assoc.
Qed.

Lemma string_list_freeze_owned vector :
  freezes_owned (MinidumpRVAListWriter.Freeze (InitializeFromVector vector)).
Proof.
  apply MinidumpRVAListWriter.rva_list_freeze_owned. rewrite string_list_initialize_map.
  apply Forall_fmap, Forall_true. intros s. apply MinidumpStringWriter.string_freeze_owned.
Qed.

End MinidumpUTF8StringListWriter.

(** ** Maps with string keys *)

(** [operator<] of [std::string]. *)
Fixpoint string_ltb (a b : bytes) : bool :=
  match a, b with
  | _, [] => false
  | [], _ :: _ => true
  | x :: a', y :: b' => if x <? y then true else if x =? y then string_ltb a' b' else false
  end.

(** [std::map<std::string, V>] as the list of its elements in key order. *)
Definition string_map (V : Type) : Type := list (bytes * V).

Fixpoint map_sorted {V} (m : string_map V) : Prop :=
  match m with
  | [] => True
  | (k, _) :: m' => (match m' with [] => True | (k', _) :: _ => string_ltb k k' = true end) /\
                    map_sorted m'
  end.

Fixpoint map_find {V} (k : bytes) (m : string_map V) : option V :=
  match m with
  | [] => None
  | (k', v) :: m' => if decide (k = k') then Some v else map_find k m'
  end.

(** Insertion, or assignment to an existing key. *)
Fixpoint map_insert {V} (k : bytes) (v : V) (m : string_map V) : string_map V :=
  match m with
  | [] => [(k, v)]
  | (k', v') :: m' =>
      if string_ltb k k' then (k, v) :: (k', v') :: m'
      else if decide (k = k') then (k, v) :: m'
      else (k', v') :: map_insert k v m'
  end.

(** [std::map::erase] of a key, and [std::map::insert], which keeps an element that is
    there. *)
Fixpoint map_erase {V} (k : bytes) (m : string_map V) : string_map V :=
  match m with
  | [] => []
  | (k', v) :: m' => if decide (k = k') then map_erase k m' else (k', v) :: map_erase k m'
  end.
Definition map_emplace {V} (k : bytes) (v : V) (m : string_map V) : string_map V :=
  match map_find k m with Some _ => m | None => map_insert k v m end.

Lemma map_find_insert {V} k (v : V) m k' :
  map_find k' (map_insert k v m) = if decide (k' = k) then Some v else map_find k' m.
Proof.
  induction m as [|[k1 v1] m IH]; [done|]. cbn [map_insert]. destruct (string_ltb k k1); [done|].
  destruct (decide (k = k1)) as [<-|Hk]; cbn [map_find]; [by destruct (decide (k' = k))|].
  destruct (decide (k' = k1)) as [->|]; [|done]. by rewrite decide_False by congruence.
Qed.
Lemma map_find_erase {V} k (m : string_map V) k' :
  map_find k' (map_erase k m) = if decide (k' = k) then None else map_find k' m.
Proof.
  induction m as [|[k1 v1] m IH]; cbn [map_erase map_find]; [by destruct (decide (k' = k))|].
  destruct (decide (k = k1)) as [<-|Hk]; cbn [map_find]; [rewrite IH; by destruct (decide (k' = k))|].
  destruct (decide (k' = k1)) as [->|]; [|done]. by rewrite decide_False by congruence.
Qed.
Lemma map_find_emplace {V} k (v : V) m k' :
  map_find k' (map_emplace k v m) =
    match map_find k' m with Some x => Some x | None => if decide (k' = k) then Some v else None end.
Proof.
  unfold map_emplace. destruct (map_find k m) as [x|] eqn:E.
  - destruct (map_find k' m) eqn:E'; [done|]. rewrite decide_False; [done|]. intros ->. congruence.
  - rewrite map_find_insert. destruct (decide (k' = k)) as [->|]; [by rewrite E|]. by destruct (map_find k' m).
Qed.
Lemma map_find_In {V} k (m : string_map V) : is_Some (map_find k m) <-> k ∈ map fst m.
Proof.
  induction m as [|[k1 v1] m IH]; cbn [map_find map fst].
  - split; [by intros []|by intros ?%elem_of_nil].
  - rewrite elem_of_cons, <-IH. destruct (decide (k = k1)); naive_solver.
Qed.

Lemma string_ltb_irrefl a : string_ltb a a = false.
Proof. induction a; simpl; [done|]. by rewrite Z.ltb_irrefl, Z.eqb_refl. Qed.

Lemma string_ltb_trans a b c :
  string_ltb a b = true -> string_ltb b c = true -> string_ltb a c = true.
Proof.
  revert b c; induction a as [|x a IH]; intros [|y b] [|z c]; simpl; try done.
  repeat (case_match; bool_to_prop); try done; try lia; intros; simplify_eq; eauto.
Qed.

Lemma string_ltb_total a b : string_ltb a b = false -> a <> b -> string_ltb b a = true.
Proof.
  revert b; induction a as [|x a IH]; intros [|y b]; simpl; try done.
  destruct (Z.ltb_spec x y); [done|]. destruct (Z.eqb_spec x y) as [->|].
  - intros E Hne. rewrite Z.ltb_irrefl, Z.eqb_refl. apply IH; [done|congruence].
  - intros _ _. destruct (Z.ltb_spec y x); [done|lia].
Qed.

Lemma map_sorted_head {V} k (v : V) m :
  map_sorted ((k, v) :: m) -> Forall (fun e => string_ltb k e.1 = true) m /\ map_sorted m.
Proof.
  revert k v; induction m as [|[k' v'] m IH]; intros k v; simpl; [done|].
  intros [Hlt Hm]. split; [|done]. constructor; [done|].
  destruct (IH k' v' Hm) as [Hall _]. eapply Forall_impl; [exact Hall|].
  simpl. intros e. by apply string_ltb_trans.
Qed.

(** Inserting the elements of a sorted map in order rebuilds it. *)
Lemma map_insert_last {V} k (v : V) (m : string_map V) :
  Forall (fun e => string_ltb e.1 k = true) m -> map_insert k v m = m ++ [(k, v)].
Proof.
  induction 1 as [|[k' v'] m Hk _ IH]; simpl in *; [done|]. rewrite IH.
  destruct (string_ltb k k') eqn:E.
  { pose proof (string_ltb_trans _ _ _ Hk E) as Hc. by rewrite string_ltb_irrefl in Hc. }
  rewrite decide_False; [done|]. intros ->. by rewrite string_ltb_irrefl in Hk.
Qed.

Lemma map_find_notin {V} k (m : string_map V) :
  Forall (fun e => string_ltb e.1 k = true) m -> map_find k m = None.
Proof.
  induction 1 as [|[k' v'] m Hk _ IH]; simpl in *; [done|]. rewrite decide_False; [done|].
  intros ->. by rewrite string_ltb_irrefl in Hk.
Qed.

(** ** Simple string dictionaries (minidump_simple_string_dictionary_writer.cc) *)

Module MinidumpSimpleStringDictionaryEntryWriter.

(** [key_] and [value_]; [entry_.key] is at field 0 and [entry_.value] at field 1. *)
Record t := Make { key_ : bytes; value_ : bytes }.

(** [SetKeyValue]. *)
Definition SetKeyValue (key value : bytes) : t := Make key value.

(** [GetMinidumpSimpleStringDictionaryEntry]: the bytes of [entry_]. *)
Definition entry_bytes (m : fields_map) (p : path) : bytes :=
  le_bytes 4 (field m (p, 0%nat)) ++ le_bytes 4 (field m (p, 1%nat)).

(** [Freeze], [SizeOfObject], [Children] and [WriteObject]. *)
Definition Freeze (e : t) (p : path) : option Tree :=
  match freeze_children p 0 [MinidumpStringWriter.Freeze (MinidumpUTF8StringWriter (key_ e));
                             MinidumpStringWriter.Freeze (MinidumpUTF8StringWriter (value_ e))] with
  | Some [key; value] =>
      Some (Node (object_at p 0 (fun _ => WriteNothing))
        [RegisterRVA (p, 0%nat) key; RegisterRVA (p, 1%nat) value])
  | _ => None
  end.

Lemma dictionary_entry_freeze_owned e : freezes_owned (Freeze e).
Proof.
  intros p t. unfold Freeze.
  destruct (freeze_children _ _ _) as [[|key [|value [|]]]|] eqn:Ec; try done.
  intros <-%(inj Some). apply freeze_children_adopted in Ec as [Ha _].
  2: { forall_list ltac:(apply MinidumpStringWriter.string_freeze_owned). }
  class_owned [[(p, 0%nat)]; [(p, 1%nat)]].
  - apply object_lawful. by sized.
  - inversion Ha as [|? ? ? ? ? ? O1 R1 Ha']; subst. inversion Ha' as [|? ? ? ? ? ? O2 R2 Ha2]; subst.
    eauto with cp.
  - simpl. slots_distinct.
  - repeat constructor.
Qed.

End MinidumpSimpleStringDictionaryEntryWriter.

Module MinidumpSimpleStringDictionaryWriter.
Import MinidumpSimpleStringDictionaryEntryWriter.

(** [entries_]. *)
Definition t := string_map MinidumpSimpleStringDictionaryEntryWriter.t.

(** [AddEntry]: an entry with the same key is replaced. *)
Definition AddEntry (entries_ : t) (entry : MinidumpSimpleStringDictionaryEntryWriter.t) : t :=
  map_insert (key_ entry) entry entries_.

(** [InitializeFromMap]. *)
Definition InitializeFromMap (map : string_map bytes) : t :=
  fold_left (fun d kv => AddEntry d (SetKeyValue (fst kv) (snd kv))) map [].

(** [IsUseful]. *)
Definition IsUseful (d : t) : bool := match d with [] => false | _ => true end.

(** The entries, as [WriteObject] writes them: child [i] is at [p ++ [i]]. *)
Definition entries_bytes (m : fields_map) (p : path) (n : nat) : list bytes :=
  map (fun i => entry_bytes m (p ++ [i])) (seq 0 n).

(** [Freeze], [SizeOfObject], [Children] and [WriteObject]. *)
Definition Freeze (d : t) (p : path) : option Tree :=
  match freeze_children p 0 (map (fun ke => Freeze (snd ke)) d) with
  | None => None
  | Some ts =>
      match AssignIfInRange uint32_t (Z.of_nat (length d)) with
      | None => None
      | Some count =>
          Some (Node (object_at p (4 + Z.of_nat (length d) * 8)
            (fun m => WriteVectors (le_bytes 4 count :: entries_bytes m p (length d)))) ts)
      end
  end.

Lemma initialize_sorted kvs :
  map_sorted kvs ->
  InitializeFromMap kvs = map (fun kv => (fst kv, SetKeyValue (fst kv) (snd kv))) kvs.
Proof.
  unfold InitializeFromMap. set (f := fun kv : bytes * bytes => _).
  change (map f kvs) with ([] ++ map f kvs).
  assert (forall acc : t, Forall (fun e => Forall (fun kv => string_ltb e.1 kv.1 = true) kvs) acc ->
    map_sorted kvs ->
    fold_left (fun d kv => AddEntry d (SetKeyValue (fst kv) (snd kv))) kvs acc =
    acc ++ map f kvs) as Hgen; [|by apply Hgen].
  induction kvs as [|[k v] kvs IH]; intros acc Ha Hs; simpl; [by rewrite app_nil_r|].
  destruct (map_sorted_head _ _ _ Hs) as [Hk Hs'].
  unfold AddEntry at 2. simpl. rewrite map_insert_last.
  2: { eapply Forall_impl; [exact Ha|]. simpl. by intros e [? _]%Forall_cons. }
  rewrite IH; [by rewrite <-app_assoc| |done].
  apply Forall_app_2; [|by repeat constructor].
  eapply Forall_impl; [exact Ha|]. simpl. by intros e [_ ?]%Forall_cons.
Qed.

Lemma length_entries m p l :
  length (concat (map (fun i => entry_bytes m (p ++ [i])) l)) = (8 * length l)%nat.
Proof.
  induction l as [|i l IH]; [done|]. cbn [map concat length]. rewrite length_app, IH.
  unfold entry_bytes. rewrite length_app, !length_le_bytes. lia.
Qed.

Lemma dictionary_freeze_owned d : freezes_owned (MinidumpSimpleStringDictionaryWriter.Freeze d).
Proof.
  intros p t. unfold MinidumpSimpleStringDictionaryWriter.Freeze.
  destruct (freeze_children _ _ _) as [ts|] eqn:Ec; [|done].
  destruct (AssignIfInRange _ _); [|done]. intros <-%(inj Some).
  apply freeze_children_adopted in Ec as [Ha _].
  2: { apply Forall_fmap, Forall_true. intros [k e]. apply dictionary_entry_freeze_owned. }
  class_owned (replicate (length d) (@nil slot)).
  - apply object_lawful. sized. unfold entries_bytes.
    rewrite length_app, length_le_bytes, length_entries, length_seq. lia.
  - by rewrite length_map in Ha.
  - rewrite concat_replicate_nil. constructor.
  - rewrite concat_replicate_nil. constructor.
Qed.

End MinidumpSimpleStringDictionaryWriter.

(** ** Byte arrays (minidump_byte_array_writer.cc) *)

Module MinidumpByteArrayWriter.

(** [data_]. *)
Definition t := bytes.

(** [set_data] and [data]. *)
Definition set_data (data : bytes) : t := data.

(** [Freeze], [SizeOfObject] and [WriteObject]. *)
Definition Freeze (data_ : t) (p : path) : option Tree :=
  match AssignIfInRange uint32_t (Z.of_nat (length data_)) with
  | None => None
  | Some length_ =>
      Some (Node (object_at p (4 + Z.of_nat (length data_))
        (fun _ => WriteVectors (le_bytes 4 length_ :: match data_ with [] => [] | _ => [data_] end)))
        [])
  end.

Lemma byte_array_freeze_owned d : freezes_owned (Freeze d).
Proof.
  intros p t. unfold Freeze. destruct (AssignIfInRange _ _); [|done]. intros <-%(inj Some).
  class_owned (@nil (list slot)); [|constructor|constructor|constructor].
  apply object_lawful. sized. destruct d; cbn [concat];
    rewrite ?app_nil_r, ?length_app, length_le_bytes; simpl; lia.
Qed.

End MinidumpByteArrayWriter.

(** ** Annotations (minidump_annotation_writer.cc) *)

(** [AnnotationSnapshot] (snapshot/annotation_snapshot.h). *)
Record AnnotationSnapshot := MkAnnotationSnapshot {
  annotation_name : bytes;
  annotation_type : Z;
  annotation_value : bytes
}.

Module MinidumpAnnotationWriter.

(** [name_], [annotation_.type] and [value_]; [annotation_.name] is at field 0 and
    [annotation_.value] at field 1. *)
Record t := Make { name_ : bytes; type : Z; value_ : bytes }.

(** [InitializeWithData]. *)
Definition InitializeWithData (name : bytes) (type : Z) (data : bytes) : t :=
  Make name (u16 type) (MinidumpByteArrayWriter.set_data data).

(** [InitializeFromSnapshot]. *)
Definition InitializeFromSnapshot (snapshot : AnnotationSnapshot) : t :=
  Make (annotation_name snapshot) (annotation_type snapshot)
    (MinidumpByteArrayWriter.set_data (annotation_value snapshot)).

(** [minidump_annotation]: the bytes of [annotation_], whose [reserved] is 0. *)
Definition annotation_bytes (a : t) (m : fields_map) (p : path) : bytes :=
  le_bytes 4 (field m (p, 0%nat)) ++ le_bytes 2 (type a) ++ le_bytes 2 0 ++
  le_bytes 4 (field m (p, 1%nat)).

(** [Freeze], [SizeOfObject], [Children] and [WriteObject]. *)
Definition Freeze (a : t) (p : path) : option Tree :=
  match freeze_children p 0 [MinidumpStringWriter.Freeze (MinidumpUTF8StringWriter (name_ a));
                             MinidumpByteArrayWriter.Freeze (value_ a)] with
  | Some [name; value] =>
      Some (Node (object_at p 0 (fun _ => WriteNothing))
        [RegisterRVA (p, 0%nat) name; RegisterRVA (p, 1%nat) value])
  | _ => None
  end.

Lemma annotation_freeze_owned a : freezes_owned (Freeze a).
Proof.
  intros p t. unfold Freeze.
  destruct (freeze_children _ _ _) as [[|name [|value [|]]]|] eqn:Ec; try done.
  intros <-%(inj Some). apply freeze_children_adopted in Ec as [Ha _].
  2: { forall_list ltac:(first [apply MinidumpStringWriter.string_freeze_owned
                               |apply MinidumpByteArrayWriter.byte_array_freeze_owned]). }
  class_owned [[(p, 0%nat)]; [(p, 1%nat)]].
  - apply object_lawful. by sized.
  - inversion Ha as [|? ? ? ? ? ? O1 R1 Ha']; subst. inversion Ha' as [|? ? ? ? ? ? O2 R2 Ha2]; subst.
    eauto with cp.
  - simpl. slots_distinct.
  - repeat constructor.
Qed.

End MinidumpAnnotationWriter.

Module MinidumpAnnotationListWriter.
Import MinidumpAnnotationWriter.

(** [objects_]. *)
Definition t := list MinidumpAnnotationWriter.t.

(** [AddObject]. *)
Definition AddObject (objects_ : t) (w : MinidumpAnnotationWriter.t) : t := objects_ ++ [w].

(** [InitializeFromList]. *)
Definition InitializeFromList (l : list AnnotationSnapshot) : t :=
  fold_left (fun d a => AddObject d (InitializeFromSnapshot a)) l [].

(** [IsUseful]. *)
Definition IsUseful (d : t) : bool := match d with [] => false | _ => true end.

(** The annotations, as [WriteObject] writes them: child [i] is at [p ++ [i]]. *)
Fixpoint annotations_bytes (m : fields_map) (p : path) (i : nat) (d : t) : list bytes :=
  match d with
  | [] => []
  | a :: d' => annotation_bytes a m (p ++ [i]) :: annotations_bytes m p (S i) d'
  end.

(** [Freeze], [SizeOfObject], [Children] and [WriteObject]. *)
Definition Freeze (d : t) (p : path) : option Tree :=
  match freeze_children p 0 (map Freeze d) with
  | None => None
  | Some ts =>
      match AssignIfInRange uint32_t (Z.of_nat (length d)) with
      | None => None
      | Some count =>
          Some (Node (object_at p (4 + 12 * Z.of_nat (length d))
            (fun m => WriteVectors (le_bytes 4 count :: annotations_bytes m p 0 d))) ts)
      end
  end.

Lemma annotation_list_initialize_map l : InitializeFromList l = map InitializeFromSnapshot l.
Proof.
  unfold InitializeFromList. change (map InitializeFromSnapshot l) with
    ([] ++ map InitializeFromSnapshot l). generalize (@nil MinidumpAnnotationWriter.t).
  induction l as [|a l IH]; intros acc; simpl; [by rewrite app_nil_r|].
  rewrite IH. unfold AddObject. by rewrite <-app_assoc.
Qed.

Lemma length_annotations m p i d :
  length (concat (annotations_bytes m p i d)) = (12 * length d)%nat.
Proof.
  revert i; induction d as [|a d IH]; intros i; [done|]. cbn [annotations_bytes concat length].
  rewrite length_app, IH. unfold annotation_bytes. rewrite !length_app, !length_le_bytes. lia.
Qed.

Lemma annotation_list_freeze_owned d : freezes_owned (MinidumpAnnotationListWriter.Freeze d).
Proof.
  intros p t. unfold MinidumpAnnotationListWriter.Freeze.
  destruct (freeze_children _ _ _) as [ts|] eqn:Ec; [|done].
  destruct (AssignIfInRange _ _); [|done]. intros <-%(inj Some).
  apply freeze_children_adopted in Ec as [Ha _].
  2: { apply Forall_fmap, Forall_true. intros e. apply annotation_freeze_owned. }
  class_owned (replicate (length d) (@nil slot)).
  - apply object_lawful. sized. rewrite length_app, length_le_bytes, length_annotations. lia.
  - by rewrite length_map in Ha.
  - rewrite concat_replicate_nil. constructor.
  - rewrite concat_replicate_nil. constructor.
Qed.

End MinidumpAnnotationListWriter.

(** ** Optional children with a location descriptor each *)

(** The bytes of a [MINIDUMP_LOCATION_DESCRIPTOR]. *)
Definition descriptor_bytes (m : fields_map) (s : slot) : bytes :=
  le_bytes 4 (field m (descriptor_size s)) ++ le_bytes 4 (field m (descriptor_rva s)).

Lemma length_descriptor_bytes m s : length (descriptor_bytes m s) = 8%nat.
Proof. unfold descriptor_bytes. by rewrite length_app, !length_le_bytes. Qed.

(** The children that are set, each with the field of its location descriptor. *)
Fixpoint present (l : list (option Freezable * nat)) : list (Freezable * nat) :=
  match l with
  | [] => []
  | (Some c, k) :: l' => (c, k) :: present l'
  | (None, _) :: l' => present l'
  end.

(** Registration of the descriptors at the fields [ks] with the children. *)
Fixpoint register_descriptors (p : path) (ks : list nat) (ts : list Tree) : list Tree :=
  match ks, ts with
  | k :: ks', t :: ts' => RegisterLocationDescriptor (p, k) t :: register_descriptors p ks' ts'
  | _, _ => []
  end.

Definition field_pairs (p : path) (ks : list nat) : list (list slot) :=
  map (fun k => [(p, k); (p, S k)]) ks.

Lemma adopted_register_descriptors p i ks ts :
  adopted p i (replicate (length ks) []) ts ->
  adopted p i (field_pairs p ks) (register_descriptors p ks ts).
Proof.
  revert i ts; induction ks as [|k ks IH]; intros i ts Ha; inversion Ha; subst; simpl.
  - constructor.
  - econstructor; [done|by apply (registered_descriptor [] (p, k))|by apply IH].
Qed.

Lemma freeze_present_adopted p i l ts :
  Forall (fun ck => forall c, fst ck = Some c -> freezes_owned c) l ->
  freeze_children p i (map fst (present l)) = Some ts ->
  adopted p i (field_pairs p (map snd (present l)))
    (register_descriptors p (map snd (present l)) ts).
Proof.
  intros Hl Ec. apply freeze_children_adopted in Ec as [Ha _].
  - apply adopted_register_descriptors. by rewrite !length_map in *.
  - clear Ec. apply Forall_fmap. induction Hl as [|[[c|] k] l Hc _ IH]; simpl; [done| |done].
    constructor; [by apply Hc|done].
Qed.

(** The fields of the descriptors are distinct when their numbers are at least
    two apart. *)
Lemma field_pairs_distinct p ks :
  NoDup (concat (map (fun k => [k; S k]) ks)) ->
  NoDup (concat (field_pairs p ks)) /\
  Forall (fun s : slot => s.1 = p) (concat (field_pairs p ks)).
Proof.
  intros Hn. assert (concat (field_pairs p ks) =
    map (pair p) (concat (map (fun k => [k; S k]) ks))) as ->.
  { unfold field_pairs. rewrite concat_map, map_map. done. }
  split; [|apply Forall_field_slots]. apply NoDup_fmap_2; [by intros ? ? [= ->]|done].
Qed.

(** ** Module information (minidump_module_crashpad_info_writer.cc) *)

(** [ModuleSnapshot::ModuleType]. *)
Inductive ModuleType :=
  | kModuleTypeUnknown | kModuleTypeExecutable | kModuleTypeSharedLibrary
  | kModuleTypeLoadableModule | kModuleTypeDynamicLoader.
#[export] Instance ModuleType_eq_dec : EqDecision ModuleType.
Proof. solve_decision. Defined.

(** [UserMinidumpStream]: its type, and its memory when it has some. *)
Record UserMinidumpStream := MkUserMinidumpStream {
  user_stream_type : Z;
  user_stream_memory : option MemorySnapshot
}.

(** [ModuleSnapshot] (snapshot/module_snapshot.h). *)
Record ModuleSnapshot := MkModuleSnapshot {
  mod_name : bytes;
  mod_address : Z;
  mod_size : Z;
  mod_timestamp : Z;
  mod_file_version : Z * Z * Z * Z;
  mod_source_version : Z * Z * Z * Z;
  mod_type : ModuleType;
  mod_uuid : UUID;
  mod_age : Z;
  mod_debug_file_name : bytes;
  mod_build_id : bytes;
  mod_annotations_vector : list bytes;
  mod_annotations_simple_map : string_map bytes;
  mod_annotation_objects : list AnnotationSnapshot;
  mod_custom_streams : list UserMinidumpStream
}.

Module MinidumpModuleCrashpadInfoWriter.

(** [list_annotations_], [simple_annotations_] and [annotation_objects_]; their
    location descriptors in [module_] are at the fields 0, 2 and 4. *)
Record t := Make {
  list_annotations_ : option MinidumpRVAListWriter.t;
  simple_annotations_ : option MinidumpSimpleStringDictionaryWriter.t;
  annotation_objects_ : option MinidumpAnnotationListWriter.t
}.

Definition kVersion : Z := 1.

Definition SetListAnnotations (x : t) l := Make (Some l) (simple_annotations_ x) (annotation_objects_ x).
Definition SetSimpleAnnotations (x : t) l := Make (list_annotations_ x) (Some l) (annotation_objects_ x).
Definition SetAnnotationObjects (x : t) l := Make (list_annotations_ x) (simple_annotations_ x) (Some l).

(** [InitializeFromSnapshot]: empty collections are not set. *)
Definition InitializeFromSnapshot (module_snapshot : ModuleSnapshot) : t :=
  let x := Make None None None in
  let list_annotations :=
    MinidumpUTF8StringListWriter.InitializeFromVector (mod_annotations_vector module_snapshot) in
  let x := if MinidumpUTF8StringListWriter.IsUseful list_annotations
           then SetListAnnotations x list_annotations else x in
  let simple_annotations :=
    MinidumpSimpleStringDictionaryWriter.InitializeFromMap
      (mod_annotations_simple_map module_snapshot) in
  let x := if MinidumpSimpleStringDictionaryWriter.IsUseful simple_annotations
           then SetSimpleAnnotations x simple_annotations else x in
  let annotation_objects :=
    MinidumpAnnotationListWriter.InitializeFromList (mod_annotation_objects module_snapshot) in
  if MinidumpAnnotationListWriter.IsUseful annotation_objects
  then SetAnnotationObjects x annotation_objects else x.

(** [IsUseful]. *)
Definition IsUseful (x : t) : bool :=
  match list_annotations_ x, simple_annotations_ x, annotation_objects_ x with
  | None, None, None => false
  | _, _, _ => true
  end.

(** [Children], with the fields of their descriptors. *)
Definition children (x : t) : list (option Freezable * nat) :=
  [(MinidumpRVAListWriter.Freeze <$> list_annotations_ x, 0%nat);
   (MinidumpSimpleStringDictionaryWriter.Freeze <$> simple_annotations_ x, 2%nat);
   (MinidumpAnnotationListWriter.Freeze <$> annotation_objects_ x, 4%nat)].

(** The bytes of [module_]. *)
Definition module_bytes (m : fields_map) (p : path) : bytes :=
  le_bytes 4 kVersion ++ descriptor_bytes m (p, 0%nat) ++ descriptor_bytes m (p, 2%nat) ++
  descriptor_bytes m (p, 4%nat).

(** [Freeze], [SizeOfObject] and [WriteObject]. *)
Definition Freeze (x : t) (p : path) : option Tree :=
  let cs := present (children x) in
  match freeze_children p 0 (map fst cs) with
  | None => None
  | Some ts =>
      Some (Node (object_at p 28 (fun m => WriteBuffer (module_bytes m p)))
        (register_descriptors p (map snd cs) ts))
  end.

(** The children of the lists are classes of this file. *)
Definition list_owned (x : t) : Prop :=
  forall l, list_annotations_ x = Some l -> Forall freezes_owned l.

Lemma module_info_freeze_owned x : list_owned x -> freezes_owned (Freeze x).
Proof.
  intros Hx p t. unfold Freeze. destruct (freeze_children _ _ _) as [ts|] eqn:Ec; [|done].
  intros <-%(inj Some). apply freeze_present_adopted in Ec.
  2: { unfold children. forall_list ltac:(simpl; intros c [? [E ->]]%fmap_Some;
         first [by apply MinidumpRVAListWriter.rva_list_freeze_owned, Hx
               |by apply MinidumpSimpleStringDictionaryWriter.dictionary_freeze_owned
               |by apply MinidumpAnnotationListWriter.annotation_list_freeze_owned]). }
  destruct (field_pairs_distinct p (map snd (present (children x)))) as [Hn Hf].
  { unfold children.
    destruct (list_annotations_ x), (simple_annotations_ x), (annotation_objects_ x); simpl;
      apply (bool_decide_unpack _); vm_compute; exact I. }
  class_owned (field_pairs p (map snd (present (children x)))); try done.
  apply object_lawful. sized. unfold module_bytes.
  by rewrite !length_app, !length_descriptor_bytes, length_le_bytes.
Qed.

Lemma module_info_initialize_list_owned s : list_owned (InitializeFromSnapshot s).
Proof.
  intros l. unfold InitializeFromSnapshot.
  assert (Forall freezes_owned
    (MinidumpUTF8StringListWriter.InitializeFromVector (mod_annotations_vector s))) as Hv.
  { rewrite MinidumpUTF8StringListWriter.string_list_initialize_map. apply Forall_fmap, Forall_true.
    intros v. apply MinidumpStringWriter.string_freeze_owned. }
  repeat case_match; simpl; by intros [= <-].
Qed.

End MinidumpModuleCrashpadInfoWriter.

Module MinidumpModuleCrashpadInfoListWriter.

(** [module_crashpad_infos_] paired with the [minidump_module_list_index] of the
    corresponding element of [module_crashpad_info_links_]; the location
    descriptor of the [i]-th link is at field [2 * i]. *)
Definition t := list (MinidumpModuleCrashpadInfoWriter.t * Z).

(** [AddModule]: an index that does not fit is reported and skipped. *)
Definition AddModule (l : t) (module_crashpad_info : MinidumpModuleCrashpadInfoWriter.t)
    (minidump_module_list_index : nat) : t :=
  match AssignIfInRange uint32_t (Z.of_nat minidump_module_list_index) with
  | None => l
  | Some index => l ++ [(module_crashpad_info, index)]
  end.

(** [InitializeFromSnapshot]: only useful modules are added. *)
Fixpoint add_useful (l : t) (index : nat) (module_snapshots : list ModuleSnapshot) : t :=
  match module_snapshots with
  | [] => l
  | s :: rest =>
      let module := MinidumpModuleCrashpadInfoWriter.InitializeFromSnapshot s in
      let l' := if MinidumpModuleCrashpadInfoWriter.IsUseful module
                then AddModule l module index else l in
      add_useful l' (S index) rest
  end.
Definition InitializeFromSnapshot (module_snapshots : list ModuleSnapshot) : t :=
  add_useful [] 0 module_snapshots.

(** [IsUseful]. *)
Definition IsUseful (l : t) : bool := match l with [] => false | _ => true end.

(** The bytes of [module_crashpad_info_links_]. *)
Fixpoint links_bytes (m : fields_map) (p : path) (i : nat) (l : t) : bytes :=
  match l with
  | [] => []
  | (_, index) :: l' =>
      le_bytes 4 index ++ descriptor_bytes m (p, (2 * i)%nat) ++ links_bytes m p (S i) l'
  end.

(** [Freeze], [SizeOfObject], [Children] and [WriteObject]. *)
Definition Freeze (l : t) (p : path) : option Tree :=
  match freeze_children p 0 (map (fun mi => MinidumpModuleCrashpadInfoWriter.Freeze (fst mi)) l) with
  | None => None
  | Some ts =>
      match AssignIfInRange uint32_t (Z.of_nat (length l)) with
      | None => None
      | Some count =>
          Some (Node (object_at p (4 + Z.of_nat (length l) * 12)
            (fun m => WriteVectors (le_bytes 4 count ::
               if (length l =? 0)%nat then [] else [links_bytes m p 0 l])))
            (register_each (fun i => RegisterLocationDescriptor (p, (2 * i)%nat)) 0 ts))
      end
  end.

Definition list_owned (l : t) : Prop :=
  Forall (fun mi => MinidumpModuleCrashpadInfoWriter.list_owned (fst mi)) l.

Lemma length_links m p i l : length (links_bytes m p i l) = (12 * length l)%nat.
Proof.
  revert i; induction l as [|[x index] l IH]; intros i; [done|]. cbn [links_bytes length].
  rewrite !length_app, IH, length_descriptor_bytes, length_le_bytes. lia.
Qed.

Lemma module_info_list_freeze_owned l : list_owned l -> freezes_owned (Freeze l).
Proof.
  intros Hl p t. unfold Freeze. destruct (freeze_children p 0 _) as [ts|] eqn:Ec; [|done].
  destruct (AssignIfInRange _ _); [|done]. intros <-%(inj Some).
  apply freeze_children_adopted in Ec as [Ha _].
  2: { apply Forall_fmap. eapply Forall_impl; [exact Hl|]. intros mi.
       apply MinidumpModuleCrashpadInfoWriter.module_info_freeze_owned. }
  rewrite length_map in Ha.
  class_owned (map (fun k => [(p, (2 * k)%nat); (p, S (2 * k)%nat)]) (seq 0 (length l))).
  - apply object_lawful. sized.
    destruct (Nat.eqb_spec (length l) 0) as [->|]; cbn [concat];
      rewrite ?app_nil_r, ?length_app, length_le_bytes, ?length_links; lia.
  - apply adopted_register; [|done]. intros i t0 t Hr. by apply registered_descriptor.
  - rewrite concat_descriptor_slots. apply NoDup_field_slots.
  - rewrite concat_descriptor_slots. apply Forall_field_slots.
Qed.

Lemma module_info_list_initialize_list_owned s : list_owned (InitializeFromSnapshot s).
Proof.
  unfold InitializeFromSnapshot, list_owned. generalize 0%nat.
  assert (list_owned []) as Hacc by constructor. revert Hacc. generalize (@nil
    (MinidumpModuleCrashpadInfoWriter.t * Z)). induction s as [|x s IH]; intros acc Hacc i; [done|].
  simpl. apply IH. unfold AddModule. repeat case_match; try done.
  apply Forall_app_2; [done|]. repeat constructor. simpl.
  apply MinidumpModuleCrashpadInfoWriter.module_info_initialize_list_owned.
Qed.

End MinidumpModuleCrashpadInfoListWriter.
