(* ===== verification/CrashpadTypes.v ===== *)
(** * Finding a client's annotations (snapshot/crashpad_types, client/crashpad_info)

    A client has a structure [CrashpadInfo] that points to its annotations
    (client/crashpad_info.cc).  The handler reads the structure and what it points to
    from the memory of the client: [CrashpadInfoReader] (crashpad_info_reader.cc),
    [ImageAnnotationReader] (image_annotation_reader.cc) and the functions of
    [ModuleSnapshotElf] that call them (snapshot/elf/module_snapshot_elf.cc).  Clients of
    32 and of 64 bits have pointers of different sizes ([Traits]), and clients of other
    versions have a structure of another size. *)

From S2P Require Import Prelude.
From S2P Require Import Numeric.
From S2P Require Import Structs.
From S2P Require Import MemoryRanges.
From S2P Require Import AnnotationList.
From S2P Require Import ClientContainers.
From S2P Require Import ProcessMemory.
From S2P Require Import MinidumpObjects.
#[local] Open Scope crashpad_scope.

(** [Traits::Address]. *)
Definition address_repr (is_64_bit : bool) : Repr Z := uint (if is_64_bit then 8 else 4).

(** ** The structure of the client *)

(** [TriState]. *)
Definition kUnset : Z := 0.
Definition kEnabled : Z := 1.
Definition kDisabled : Z := 2.

Definition kSignature : Z := 0x43506164.
Definition kCrashpadInfoVersion : Z := 1.

Module CrashpadInfo.

Record t := Make {
  signature : Z;
  size : Z;
  version : Z;
  indirectly_referenced_memory_cap : Z;
  padding_0 : Z;
  crashpad_handler_behavior : Z;
  system_crash_reporter_forwarding : Z;
  gather_indirectly_referenced_memory : Z;
  padding_1 : Z;
  extra_memory_ranges : Z;
  simple_annotations : Z;
  user_data_minidump_stream_head : Z;
  annotations_list : Z
}.

Definition repr (is_64_bit : bool) : Repr t :=
  struct (uint 4 ⊗ uint 4 ⊗ uint 4 ⊗ uint 4 ⊗ uint 4 ⊗ uint 1 ⊗ uint 1 ⊗ uint 1 ⊗ uint 1 ⊗
          address_repr is_64_bit ⊗ address_repr is_64_bit ⊗ address_repr is_64_bit ⊗ address_repr is_64_bit)
    (fun x => (signature x, size x, version x, indirectly_referenced_memory_cap x, padding_0 x, crashpad_handler_behavior x,
       system_crash_reporter_forwarding x, gather_indirectly_referenced_memory x, padding_1 x, extra_memory_ranges x,
       simple_annotations x, user_data_minidump_stream_head x, annotations_list x))
    (fun '(a, b, c, d, e, f, g, h, i, j, k, l, m) => Make a b c d e f g h i j k l m).
#[global] Instance repr_laws is_64_bit : ReprLaws (repr is_64_bit).
Proof. struct_laws. Qed.

(** The constructor and the setters. *)
Definition init (is_64_bit : bool) : t :=
  Make kSignature (Z.of_nat (sizeof (repr is_64_bit))) kCrashpadInfoVersion 0 0 kUnset kUnset kUnset 0 0 0 0 0.
Definition set_extra_memory_ranges (x : t) (p : Z) : t :=
  Make (signature x) (size x) (version x) (indirectly_referenced_memory_cap x) (padding_0 x) (crashpad_handler_behavior x)
    (system_crash_reporter_forwarding x) (gather_indirectly_referenced_memory x) (padding_1 x) p (simple_annotations x)
    (user_data_minidump_stream_head x) (annotations_list x).
Definition set_simple_annotations (x : t) (p : Z) : t :=
  Make (signature x) (size x) (version x) (indirectly_referenced_memory_cap x) (padding_0 x) (crashpad_handler_behavior x)
    (system_crash_reporter_forwarding x) (gather_indirectly_referenced_memory x) (padding_1 x) (extra_memory_ranges x) p
    (user_data_minidump_stream_head x) (annotations_list x).
Definition set_annotations_list (x : t) (p : Z) : t :=
  Make (signature x) (size x) (version x) (indirectly_referenced_memory_cap x) (padding_0 x) (crashpad_handler_behavior x)
    (system_crash_reporter_forwarding x) (gather_indirectly_referenced_memory x) (padding_1 x) (extra_memory_ranges x)
    (simple_annotations x) (user_data_minidump_stream_head x) p.
Definition set_options (x : t) (behavior forwarding gather cap : Z) : t :=
  Make (signature x) (size x) (version x) cap (padding_0 x) behavior forwarding gather (padding_1 x) (extra_memory_ranges x)
    (simple_annotations x) (user_data_minidump_stream_head x) (annotations_list x).
Definition set_crashpad_handler_behavior (x : t) (behavior : Z) : t :=
  set_options x behavior (system_crash_reporter_forwarding x) (gather_indirectly_referenced_memory x)
    (indirectly_referenced_memory_cap x).
Definition set_system_crash_reporter_forwarding (x : t) (forwarding : Z) : t :=
  set_options x (crashpad_handler_behavior x) forwarding (gather_indirectly_referenced_memory x)
    (indirectly_referenced_memory_cap x).
Definition set_gather_indirectly_referenced_memory (x : t) (gather limit : Z) : t :=
  set_options x (crashpad_handler_behavior x) (system_crash_reporter_forwarding x) gather limit.

End CrashpadInfo.

(** [UserDataMinidumpStreamListEntry]; four bytes of padding follow [stream_type]. *)
Module StreamListEntry.
Record t := Make { next : Z; base_address : Z; size : Z; stream_type : Z }.
Definition repr : Repr t :=
  struct (uint 8 ⊗ uint 8 ⊗ uint 8 ⊗ padded (uint 4) 4)
    (fun x => (next x, base_address x, size x, stream_type x)) (fun '(a, b, c, d) => Make a b c d).
#[global] Instance repr_laws : ReprLaws repr.
Proof. struct_laws. Qed.
End StreamListEntry.

(** [AddUserDataMinidumpStream]: the new entry, which is at the address [to_be_added],
    and the structure then. *)
Definition AddUserDataMinidumpStream (x : CrashpadInfo.t) (to_be_added stream_type data size : Z)
    : StreamListEntry.t * CrashpadInfo.t :=
  (StreamListEntry.Make (CrashpadInfo.user_data_minidump_stream_head x) data size stream_type,
   CrashpadInfo.Make (CrashpadInfo.signature x) (CrashpadInfo.size x) (CrashpadInfo.version x)
     (CrashpadInfo.indirectly_referenced_memory_cap x) (CrashpadInfo.padding_0 x) (CrashpadInfo.crashpad_handler_behavior x)
     (CrashpadInfo.system_crash_reporter_forwarding x) (CrashpadInfo.gather_indirectly_referenced_memory x)
     (CrashpadInfo.padding_1 x) (CrashpadInfo.extra_memory_ranges x) (CrashpadInfo.simple_annotations x) to_be_added
     (CrashpadInfo.annotations_list x)).

(** [process_types::Annotation] and [process_types::AnnotationList]. *)
Module ProcessAnnotation.
Record t := Make {
  link_node : Z; name : Z; value : Z; size : Z; type : Z; concurrent_access_guard_mode : Z; spin_guard_state : Z
}.
Definition repr (is_64_bit : bool) : Repr t :=
  struct (address_repr is_64_bit ⊗ address_repr is_64_bit ⊗ address_repr is_64_bit ⊗ uint 4 ⊗ uint 2 ⊗ uint 1 ⊗ uint 1)
    (fun x => (link_node x, name x, value x, size x, type x, concurrent_access_guard_mode x, spin_guard_state x))
    (fun '(a, b, c, d, e, f, g) => Make a b c d e f g).
#[global] Instance repr_laws is_64_bit : ReprLaws (repr is_64_bit).
Proof. struct_laws. Qed.
End ProcessAnnotation.
Module ProcessAnnotationList.
Record t := Make { tail_pointer : Z; head : ProcessAnnotation.t; tail : ProcessAnnotation.t }.
Definition repr (is_64_bit : bool) : Repr t :=
  struct (address_repr is_64_bit ⊗ ProcessAnnotation.repr is_64_bit ⊗ ProcessAnnotation.repr is_64_bit)
    (fun x => (tail_pointer x, head x, tail x)) (fun '(a, b, c) => Make a b c).
#[global] Instance repr_laws is_64_bit : ReprLaws (repr is_64_bit).
Proof. struct_laws. Qed.
End ProcessAnnotationList.

(** ** The readers *)

Section Readers.
  Context {M : Type} `{ProcessMemory M}.

(** [UnsetIfNotValidTriState]. *)
Definition UnsetIfNotValidTriState (value : Z) : Z :=
  if (value =? kUnset) || (value =? kEnabled) || (value =? kDisabled) then value else kUnset.

Definition check_options (x : CrashpadInfo.t) : CrashpadInfo.t :=
  CrashpadInfo.set_options x (UnsetIfNotValidTriState (CrashpadInfo.crashpad_handler_behavior x))
    (UnsetIfNotValidTriState (CrashpadInfo.system_crash_reporter_forwarding x))
    (UnsetIfNotValidTriState (CrashpadInfo.gather_indirectly_referenced_memory x))
    (CrashpadInfo.indirectly_referenced_memory_cap x).

(** [InfoContainerSpecific::Read], into a structure that is not initialized: its bytes
    are [uninitialized]. *)
Definition ReadInfo (uninitialized : bytes) (memory : ProcessMemoryRange M) (address : Z) : outcome CrashpadInfo.t :=
  let R := CrashpadInfo.repr (Is64Bit memory) in
  step! d := RangeRead memory address 8 in
  let info := overwrite 0 d uninitialized in
  if negb (CrashpadInfo.signature (of_bytes R info) =? kSignature) then Failed
  else
    step! d := RangeRead memory address (Z.min (CrashpadInfo.size (of_bytes R info)) (Z.of_nat (sizeof R))) in
    let info := overwrite 0 d info in
    if negb (CrashpadInfo.version (of_bytes R info) =? kCrashpadInfoVersion) then Failed
    else
      let size := CrashpadInfo.size (of_bytes R info) in
      let info :=
        if size <? Z.of_nat (sizeof R)
        then overwrite (Z.to_nat size) (replicate (sizeof R - Z.to_nat size) 0) info else info in
      Done (check_options (of_bytes R info)).

(** [SimpleStringDictionary]: the parameters of the template, and an entry. *)
Definition kKeySize : nat := 256.
Definition kValueSize : nat := 256.
Definition kNumEntries : nat := 64.
Definition entry_repr : Repr SimpleStringDictionary.Entry :=
  struct (array kKeySize (uint 1) ⊗ array kValueSize (uint 1))
    (fun e => (SimpleStringDictionary.key e, SimpleStringDictionary.value e)) (fun '(k, v) => SimpleStringDictionary.MkEntry k v).

(** [ImageAnnotationReader::SimpleMap]; [strnlen] of an array is the length of [c_str]. *)
Definition insert_entry (annotations : string_map bytes) (entry : SimpleStringDictionary.Entry) : string_map bytes :=
  let key := c_str (SimpleStringDictionary.key entry) in
  if (length key =? 0)%nat then annotations
  else map_emplace key (c_str (SimpleStringDictionary.value entry)) annotations.
Definition SimpleMap (memory : ProcessMemoryRange M) (address : Z) (annotations : string_map bytes)
    : outcome (string_map bytes) :=
  let R := array kNumEntries entry_repr in
  step! d := RangeRead memory address (Z.of_nat (sizeof R)) in
  Done (fold_left insert_entry (of_bytes R d) annotations).

Definition kMaxNumberOfAnnotations : nat := 200.

(** The loop of [ReadAnnotationList]; the number of rounds left is [n].  The result is
    what is returned, and the annotations then. *)
Fixpoint annotation_loop (n : nat) (memory : ProcessMemoryRange M) (tail_pointer : Z) (current : ProcessAnnotation.t)
    (annotations : list AnnotationSnapshot) : outcome (bool * list AnnotationSnapshot) :=
  match n with
  | O => Done (true, annotations)
  | S n' =>
      if ProcessAnnotation.link_node current =? tail_pointer then Done (true, annotations)
      else
        let R := ProcessAnnotation.repr (Is64Bit memory) in
        match RangeRead memory (ProcessAnnotation.link_node current) (Z.of_nat (sizeof R)) with
        | Undefined => Undefined
        | Failed => Done (false, annotations)
        | Done d =>
            let current := of_bytes R d in
            if ProcessAnnotation.size current =? 0 then annotation_loop n' memory tail_pointer current annotations
            else
              match RangeReadCStringSizeLimited memory (ProcessAnnotation.name current) (Z.of_nat kNameMaxLength) with
              | Undefined => Undefined
              | Failed => annotation_loop n' memory tail_pointer current annotations
              | Done name =>
                  let value_length := Z.min (ProcessAnnotation.size current) Annotation.kValueMaxSize in
                  match RangeRead memory (ProcessAnnotation.value current) value_length with
                  | Undefined => Undefined
                  | Failed => annotation_loop n' memory tail_pointer current annotations
                  | Done value =>
                      annotation_loop n' memory tail_pointer current
                        (annotations ++ [MkAnnotationSnapshot name (ProcessAnnotation.type current) value])
                  end
              end
        end
  end.
Definition AnnotationsList (memory : ProcessMemoryRange M) (address : Z) (annotations : list AnnotationSnapshot)
    : outcome (bool * list AnnotationSnapshot) :=
  let R := ProcessAnnotationList.repr (Is64Bit memory) in
  match RangeRead memory address (Z.of_nat (sizeof R)) with
  | Undefined => Undefined
  | Failed => Done (false, annotations)
  | Done d =>
      let annotation_list := of_bytes R d in
      annotation_loop kMaxNumberOfAnnotations memory (ProcessAnnotationList.tail_pointer annotation_list)
        (ProcessAnnotationList.head annotation_list) annotations
  end.
End Readers.

(** ** ModuleSnapshotElf *)

Section ModuleSnapshotElf.
  Context {M : Type} `{ProcessMemory M}.

(** [process_memory_range_], [process_memory_] and [crashpad_info_]. *)
Record ModuleSnapshotElf := MkModuleSnapshotElf {
  process_memory_range_ : ProcessMemoryRange M;
  process_memory_ : M;
  crashpad_info_ : option CrashpadInfo.t
}.

(** [CrashpadInfoClientOptions]: behavior, forwarding, gathering and its limit. *)
Definition GetCrashpadOptions (x : ModuleSnapshotElf) : option (Z * Z * Z * Z) :=
  info ← crashpad_info_ x;
  Some (CrashpadInfo.crashpad_handler_behavior info, CrashpadInfo.system_crash_reporter_forwarding info,
        CrashpadInfo.gather_indirectly_referenced_memory info, CrashpadInfo.indirectly_referenced_memory_cap info).

Definition AnnotationsSimpleMap (x : ModuleSnapshotElf) : outcome (string_map bytes) :=
  match crashpad_info_ x with
  | None => Done []
  | Some info =>
      if CrashpadInfo.simple_annotations info =? 0 then Done []
      else
        match SimpleMap (process_memory_range_ x) (CrashpadInfo.simple_annotations info) [] with
        | Failed => Done []
        | r => r
        end
  end.
Definition AnnotationObjects (x : ModuleSnapshotElf) : outcome (list AnnotationSnapshot) :=
  match crashpad_info_ x with
  | None => Done []
  | Some info =>
      if CrashpadInfo.annotations_list info =? 0 then Done []
      else
        step! r := AnnotationsList (process_memory_range_ x) (CrashpadInfo.annotations_list info) [] in
        Done r.2
  end.

(** The loop of [CustomMinidumpStreams], which has no bound; [None] is that the fuel is
    used up. *)
Fixpoint stream_loop (fuel : nat) (memory : M) (cur : Z) (result : list UserMinidumpStream)
    : option (outcome (list UserMinidumpStream)) :=
  match fuel with
  | O => None
  | S f =>
      if cur =? 0 then Some (Done result)
      else
        match Read memory cur (Z.of_nat (sizeof StreamListEntry.repr)) with
        | Undefined => Some Undefined
        | Failed => Some (Done result)
        | Done d =>
            let list_entry := of_bytes StreamListEntry.repr d in
            let result :=
              if StreamListEntry.size list_entry =? 0 then result
              else result ++ [MkUserMinidumpStream (StreamListEntry.stream_type list_entry)
                     (Some (MkMemorySnapshot (StreamListEntry.base_address list_entry) (StreamListEntry.size list_entry)))] in
            stream_loop f memory (StreamListEntry.next list_entry) result
        end
  end.
Definition CustomMinidumpStreams (fuel : nat) (x : ModuleSnapshotElf) : option (outcome (list UserMinidumpStream)) :=
  match crashpad_info_ x with
  | None => Some (Done [])
  | Some info => stream_loop fuel (process_memory_ x) (CrashpadInfo.user_data_minidump_stream_head info) []
  end.
End ModuleSnapshotElf.
Arguments ModuleSnapshotElf : clear implicits.

(** ** What the readers find *)

Section Correctness.
  Context {M : Type} `{ProcessMemoryLaws M} `{!ProcessMemoryProgress M}.

(** *** CrashpadInfo *)

Lemma info_head b l :
  let x := of_bytes (CrashpadInfo.repr b) l in
  CrashpadInfo.signature x = le_value (take 4 l) /\ CrashpadInfo.size x = le_value (take 4 (drop 4 l)) /\
  CrashpadInfo.version x = le_value (take 4 (drop 8 l)).
Proof. by destruct b. Qed.
(** Structures that begin alike. *)
Lemma info_head_eq b n l l' :
  (8 <= n)%nat -> take n l = take n l' ->
  CrashpadInfo.signature (of_bytes (CrashpadInfo.repr b) l) = CrashpadInfo.signature (of_bytes (CrashpadInfo.repr b) l') /\
  CrashpadInfo.size (of_bytes (CrashpadInfo.repr b) l) = CrashpadInfo.size (of_bytes (CrashpadInfo.repr b) l') /\
  ((12 <= n)%nat ->
   CrashpadInfo.version (of_bytes (CrashpadInfo.repr b) l) = CrashpadInfo.version (of_bytes (CrashpadInfo.repr b) l')).
Proof.
  intros Hn E. destruct (info_head b l) as (-> & -> & ->). destruct (info_head b l') as (-> & -> & ->).
  assert (forall k (x : bytes), (k + 4 <= n)%nat -> take 4 (drop k x) = take 4 (drop k (take n x))) as Ht.
  { intros k x Hk. rewrite !take_drop_commute, take_take. do 2 f_equal. lia. }
  split_and!.
  - rewrite <-(drop_0 l), <-(drop_0 l'). by rewrite (Ht 0%nat l), (Ht 0%nat l'), E by lia.
  - by rewrite (Ht 4%nat l), (Ht 4%nat l'), E by lia.
  - intros Hn'. by rewrite (Ht 8%nat l), (Ht 8%nat l'), E by lia.
Qed.
Lemma info_size b : (40 <= sizeof (CrashpadInfo.repr b))%nat.
Proof. destruct b; cbn; lia. Qed.

Lemma read_info_client (r : ProcessMemoryRange M) (a : Z) (client uninitialized : bytes) :
  let R := CrashpadInfo.repr (Is64Bit r) in
  let x := of_bytes R (take (sizeof R) (client ++ replicate (sizeof R) 0)) in
  located r a client -> length uninitialized = sizeof R -> (12 <= length client)%nat ->
  CrashpadInfo.size x = Z.of_nat (length client) ->
  ReadInfo uninitialized r a =
    if (CrashpadInfo.signature x =? kSignature) && (CrashpadInfo.version x =? kCrashpadInfoVersion)
    then Done (check_options x) else Failed.
Proof.
  intros R x Hl Hu Hc Hsize. pose proof (info_size (Is64Bit r)) as Hsz. fold R in Hsz. unfold ReadInfo. fold R.
  set (full := take (sizeof R) (client ++ replicate (sizeof R) 0)) in x.
  assert (forall n rest, (n <= length client)%nat -> (n <= sizeof R)%nat -> take n (take n client ++ rest) = take n full) as Htake.
  { intros n rest H1 H2. unfold full. rewrite take_take, take_app_le, Nat.min_l by len_lia.
    rewrite take_app_le, take_take, Nat.min_id by len_lia. done. }
  rewrite (located_read r a (take 8 client)) by (by apply located_take || len_lia). cbn [outcome_bind].
  set (info1 := overwrite 0 (take 8 client) uninitialized).
  destruct (info_head_eq (Is64Bit r) 8 info1 full) as (Es & Ez & _); [lia|apply Htake; lia|]. fold R x in Es, Ez.
  rewrite Es. destruct (CrashpadInfo.signature x =? kSignature); cbn [negb andb]; [|done].
  rewrite Ez, Hsize. set (k := Nat.min (length client) (sizeof R)).
  rewrite (located_read r a (take k client)) by (by apply located_take || len_lia). cbn [outcome_bind].
  set (info2 := overwrite 0 (take k client) info1).
  destruct (info_head_eq (Is64Bit r) k info2 full) as (_ & Ez2 & Ev); [lia|apply Htake; lia|]. fold R x in Ez2, Ev.
  rewrite Ev, Ez2, Hsize by lia. destruct (CrashpadInfo.version x =? kCrashpadInfoVersion); cbn [negb]; [|done].
  do 2 f_equal. assert (length info1 = sizeof R) as Hl1 by (unfold info1; rewrite length_overwrite; len_lia).
  destruct (Z.ltb_spec (Z.of_nat (length client)) (Z.of_nat (sizeof R))) as [Hlt|Hge].
  - unfold x. f_equal. unfold info2, overwrite, full. rewrite take_0, app_nil_l. replace k with (length client) by lia. rewrite Nat2Z.id, (take_ge client) by lia.
    rewrite take_app_length, length_replicate, drop_ge, app_nil_r by len_lia.
    rewrite take_app_ge by lia. by rewrite take_replicate, Nat.min_l by lia.
  - unfold x. f_equal. unfold info2, overwrite, full. rewrite take_0, app_nil_l. replace k with (sizeof R) by lia.
    rewrite drop_ge, app_nil_r by len_lia. by rewrite take_app_le by lia.
Qed.

(** C26.  The structure of a client of any version, of twelve bytes or more: it is
    accepted exactly if it has the signature and the version number, whatever was in the
    memory that it is read into; the fields that the client does not have are zero,
    fields that the handler does not know are ignored, and options that have no value of
    [TriState] are unset. *)
Theorem crashpad_info_any_version (r : ProcessMemoryRange M) (a : Z) (client uninitialized : bytes) :
  let R := CrashpadInfo.repr (Is64Bit r) in
  let x := of_bytes R (take (sizeof R) (client ++ replicate (sizeof R) 0)) in
  located r a client -> length uninitialized = sizeof R -> (12 <= length client)%nat ->
  CrashpadInfo.size x = Z.of_nat (length client) ->
  ReadInfo uninitialized r a =
    if (CrashpadInfo.signature x =? kSignature) && (CrashpadInfo.version x =? kCrashpadInfoVersion)
    then Done (check_options x) else Failed.
Proof. apply read_info_client. Qed.

(** *** The dictionary *)

#[export] Instance entry_repr_laws : ReprLaws entry_repr.
Proof. struct_laws. Qed.

Lemma insert_entries_find d m k :
  Forall (SimpleStringDictionary.entry_ok kKeySize kValueSize) d ->
  map_find k (fold_left insert_entry d m) =
    match map_find k m with Some v => Some v | None => SimpleStringDictionary.to_map d !! k end.
Proof.
  intros Hd. revert m. induction Hd as [|e d He _ IH]; intros m; cbn [fold_left].
  - unfold SimpleStringDictionary.to_map. cbn. rewrite lookup_empty. by destruct (map_find k m).
  - rewrite IH. unfold SimpleStringDictionary.to_map. rewrite SimpleStringDictionary.contents_cons, list_to_map_app.
    unfold insert_entry, SimpleStringDictionary.entry_contents. pose proof (SimpleStringDictionary.active_c_str _ _ e He) as Ha.
    destruct (SimpleStringDictionary.is_active e).
    + destruct (c_str (SimpleStringDictionary.key e)) as [|c key] eqn:Ek; [by destruct (proj1 Ha eq_refl)|]. cbn [length Nat.eqb].
      rewrite map_find_emplace. destruct (map_find k m); [done|]. cbn [list_to_map foldr fst snd].
      destruct (decide (k = c :: key)) as [->|Hne].
      * by rewrite lookup_union, lookup_insert_eq, union_Some_l.
      * by rewrite lookup_union, lookup_insert_ne, lookup_empty, (left_id_L None _) by done.
    + destruct (c_str (SimpleStringDictionary.key e)) as [|c key]; [|by discriminate (proj2 Ha)].
      cbn. by rewrite (left_id_L ∅ _).
Qed.

(** *** The list *)

Context (addr : nat -> Z) (tail_pointer : Z).
Definition pointer_address (p : Pointer) : Z := match p with to_tail => tail_pointer | to_annotation a => addr a end.

(** An annotation of the client in its memory: its node, its name and its value. *)
Record annotation_at (r : ProcessMemoryRange M) (p : Z) (link : Z) (c : AnnotationSnapshot) (x : ProcessAnnotation.t) : Prop := {
  at_valid : valid (ProcessAnnotation.repr (Is64Bit r)) x = true;
  at_node : located r p (to_bytes (ProcessAnnotation.repr (Is64Bit r)) x);
  at_link : ProcessAnnotation.link_node x = link;
  at_type : ProcessAnnotation.type x = annotation_type c;
  at_size : ProcessAnnotation.size x = Z.of_nat (length (annotation_value c));
  at_name : annotation_value c <> [] -> located r (ProcessAnnotation.name x) (annotation_name c ++ [0]);
  at_value : annotation_value c <> [] -> located r (ProcessAnnotation.value x) (annotation_value c)
}.

(** What [SetSize] and [Add] see to: a name and a value that are not too long. *)
Definition annotation_ok (c : AnnotationSnapshot) : Prop :=
  (0 ∉ annotation_name c) /\ (length (annotation_name c) < kNameMaxLength)%nat /\
  Z.of_nat (length (annotation_value c)) <= Annotation.kValueMaxSize.

Lemma located_c_string r a s n :
  located r a (s ++ [0]) -> 0 ∉ s -> Z.of_nat (length s) < n < 2 ^ 64 -> RangeReadCStringSizeLimited r a n = Done s.
Proof.
  intros (lo & hi & Hr & Ha & Hd & Hl) Hn Hlen. pose proof Hr as (_ & Hlo & Hhi). pose proof (pointer_width (Is64Bit r)).
  rewrite length_app in Hd, Hl. cbn [length] in Hd, Hl. apply (range_c_string_spec r lo hi); [done|lia|lia|].
  split; [done|]. split; [|lia]. split; [|done]. by rewrite Nat2Z.inj_add in Hl.
Qed.

(** The annotations that are set. *)
Definition set_annotations (l : list AnnotationSnapshot) : list AnnotationSnapshot :=
  filter (fun c => annotation_value c <> []) l.

Lemma annotation_loop_chain n r links p l current acc (contents : nat -> AnnotationSnapshot) :
  chain links p l -> ProcessAnnotation.link_node current = pointer_address p ->
  (forall a, a ∈ l -> addr a <> tail_pointer /\ annotation_ok (contents a) /\
    exists q x, links !! a = Some q /\ annotation_at r (addr a) (pointer_address q) (contents a) x) ->
  annotation_loop n r tail_pointer current acc = Done (true, acc ++ set_annotations (map contents (take n l))).
Proof.
  revert p l current acc. induction n as [|n IH]; intros p l current acc Hc Hl Hin; cbn [annotation_loop].
  { by rewrite take_0, app_nil_r. }
  rewrite Hl. destruct l as [|a l].
  { cbn in Hc. subst p. cbn [pointer_address]. by rewrite Z.eqb_refl, app_nil_r. }
  destruct Hc as (-> & q & Eq & Hc). cbn [pointer_address]. destruct (Hin a) as (Ht & (Hn0 & Hn & Hv) & q' & x & Eq' & Hat); [left|].
  simplify_eq. rewrite (proj2 (Z.eqb_neq _ _) Ht). destruct Hat as [Av An Alink Atype Asize Aname Avalue].
  rewrite (located_read r (addr a) _ _ An) by (by rewrite length_to_bytes). rewrite of_bytes_exact by (apply _ || done).
  assert (forall acc, annotation_loop n r tail_pointer x acc = Done (true, acc ++ set_annotations (map contents (take n l)))) as IH'.
  { intros acc'. apply (IH q); [done|done|]. intros b Hb. apply Hin. by right. }
  cbn [take map]. unfold set_annotations at 1. rewrite filter_cons. rewrite Asize.
  destruct (decide (annotation_value (contents a) <> [])) as [Hne|He].
  - assert (0 < length (annotation_value (contents a)))%nat by (destruct (annotation_value (contents a)); [done|cbn; lia]).
    rewrite (proj2 (Z.eqb_neq _ _)) by lia. rewrite (located_c_string r _ _ _ (Aname Hne) Hn0) by (unfold kNameMaxLength in *; lia).
    rewrite (located_read r _ _ _ (Avalue Hne)) by lia. rewrite IH', <-app_assoc. cbn [app]. do 4 f_equal.
    rewrite Atype. by destruct (contents a).
  - assert (annotation_value (contents a) = []) as -> by (destruct (annotation_value (contents a)); [done|by destruct He]).
    cbn. apply IH'.
Qed.

(** A client in its memory: the list with the annotations of a state [s] of
    AnnotationList.v, and the dictionary. *)
Record client_at (r : ProcessMemoryRange M) (info : CrashpadInfo.t) (s : State) (contents : nat -> AnnotationSnapshot)
    (d : list SimpleStringDictionary.Entry) (list_object : ProcessAnnotationList.t) : Prop := {
  cat_list : CrashpadInfo.annotations_list info <> 0 /\
    located r (CrashpadInfo.annotations_list info) (to_bytes (ProcessAnnotationList.repr (Is64Bit r)) list_object);
  cat_list_valid : valid (ProcessAnnotationList.repr (Is64Bit r)) list_object = true;
  cat_tail : ProcessAnnotationList.tail_pointer list_object = tail_pointer;
  cat_head : ProcessAnnotation.link_node (ProcessAnnotationList.head list_object) = pointer_address (head_link s);
  cat_nodes : forall a, a ∈ published_ s -> addr a <> tail_pointer /\ annotation_ok (contents a) /\
    exists q x, link_nodes s !! a = Some q /\ annotation_at r (addr a) (pointer_address q) (contents a) x;
  cat_dictionary : CrashpadInfo.simple_annotations info <> 0 /\
    located r (CrashpadInfo.simple_annotations info) (to_bytes (array kNumEntries entry_repr) d);
  cat_dictionary_ok : SimpleStringDictionary.dictionary_ok kKeySize kValueSize kNumEntries d;
  cat_dictionary_valid : valid (array kNumEntries entry_repr) d = true
}.

(** The annotations of a client that has stopped at any moment, whatever its threads
    were doing: the handler finds those of the list that have been published and are
    set, in the order of the list and at most 200, with their names, types and values,
    and the map that the dictionary stands for. *)
Theorem client_annotations_found name_ programs s contents d (x : ModuleSnapshotElf M) info list_object :
  reachable name_ programs s -> crashpad_info_ x = Some info ->
  client_at (process_memory_range_ x) info s contents d list_object ->
  AnnotationObjects x = Done (set_annotations (map contents (take kMaxNumberOfAnnotations (published_ s)))) /\
  exists m, AnnotationsSimpleMap x = Done m /\ forall k, map_find k m = SimpleStringDictionary.to_map d !! k.
Proof.
  intros Hs Hi [[Hl0 Hl] Hlv Ht Hh Hn [Hd0 Hd] Hdok Hdv]. set (r := process_memory_range_ x) in *. split.
  - unfold AnnotationObjects. rewrite Hi, (proj2 (Z.eqb_neq _ _) Hl0). unfold AnnotationsList. fold r.
    rewrite (located_read r _ _ _ Hl) by (by rewrite length_to_bytes). rewrite of_bytes_exact by (apply _ || done). rewrite Ht.
    rewrite (annotation_loop_chain _ r (link_nodes s) (head_link s) (published_ s) _ [] contents); [done| |done|done].
    apply (inv_chain programs), (reachable_invariant name_), Hs.
  - exists (fold_left insert_entry d []). unfold AnnotationsSimpleMap. rewrite Hi, (proj2 (Z.eqb_neq _ _) Hd0). unfold SimpleMap. fold r.
    rewrite (located_read r _ _ _ Hd) by (by rewrite length_to_bytes). cbn [outcome_bind].
    rewrite of_bytes_exact by (apply _ || done). split; [done|]. intros k.
    rewrite insert_entries_find by apply Hdok. done.
Qed.

(** *** The streams *)

(** The entries from an address on. *)
Fixpoint streams_at (m : M) (cur : Z) (l : list StreamListEntry.t) : Prop :=
  match l with
  | [] => cur = 0
  | e :: l' =>
      cur <> 0 /\ span cur (Z.of_nat (sizeof StreamListEntry.repr)) /\ valid StreamListEntry.repr e = true /\
      load m cur (Z.of_nat (sizeof StreamListEntry.repr)) = Some (to_bytes StreamListEntry.repr e) /\
      streams_at m (StreamListEntry.next e) l'
  end.
Definition stream_of (e : StreamListEntry.t) : UserMinidumpStream :=
  MkUserMinidumpStream (StreamListEntry.stream_type e)
    (Some (MkMemorySnapshot (StreamListEntry.base_address e) (StreamListEntry.size e))).

Lemma read_loads (m : M) a n d : span a n -> load m a n = Some d -> Read m a n = Done d.
Proof.
  intros Hsp Hl. unfold Read. assert (AssignIfInRange uint64_t n = Some n) as ->.
  { apply AssignIfInRange_Some; [done|]. split; [|done]. apply fits_spec. cbn. unfold span in Hsp. lia. }
  by rewrite (read_loop_complete _ _ _ _ _ d) by (done || lia).
Qed.

Lemma stream_loop_streams m cur l result fuel :
  streams_at m cur l -> (length l < fuel)%nat ->
  stream_loop fuel m cur result = Some (Done (result ++ map stream_of (filter (fun e => StreamListEntry.size e <> 0) l))).
Proof.
  revert cur result fuel. induction l as [|e l IH]; intros cur result fuel Hl Hf; (destruct fuel as [|f]; [cbn in Hf; lia|]); cbn [stream_loop].
  - cbn in Hl. subst cur. by rewrite app_nil_r.
  - destruct Hl as (Hc & Hsp & Hv & Hld & Hl). rewrite (proj2 (Z.eqb_neq _ _) Hc), (read_loads _ _ _ _ Hsp Hld).
    rewrite of_bytes_exact by (apply _ || done). rewrite (IH _ _ f Hl) by (cbn in Hf; lia). rewrite filter_cons.
    destruct (Z.eqb_spec (StreamListEntry.size e) 0) as [E|E]; [by rewrite decide_False by (by intros ?)|].
    rewrite decide_True by done. by rewrite <-app_assoc.
Qed.

(** The streams that a client has added with [AddUserDataMinidumpStream] are found,
    the latest first; those without data are left out.  A stream is added by writing its
    entry to memory that was not used before, so that the entries it is linked to stay. *)
Theorem custom_streams_found (x : ModuleSnapshotElf M) info to_be_added type data size l e info' :
  AddUserDataMinidumpStream info to_be_added type data size = (e, info') ->
  crashpad_info_ x = Some info' -> to_be_added <> 0 -> valid StreamListEntry.repr e = true ->
  span to_be_added (Z.of_nat (sizeof StreamListEntry.repr)) ->
  load (process_memory_ x) to_be_added (Z.of_nat (sizeof StreamListEntry.repr)) = Some (to_bytes StreamListEntry.repr e) ->
  streams_at (process_memory_ x) (CrashpadInfo.user_data_minidump_stream_head info) l ->
  streams_at (process_memory_ x) (CrashpadInfo.user_data_minidump_stream_head info') (e :: l) /\
  forall fuel, (S (length l) < fuel)%nat ->
    CustomMinidumpStreams fuel x = Some (Done (map stream_of (filter (fun e => StreamListEntry.size e <> 0)
      (StreamListEntry.Make (CrashpadInfo.user_data_minidump_stream_head info) data size type :: l)))).
Proof.
  unfold AddUserDataMinidumpStream. intros [= <- <-] Hi H0' Hv Hsp Hld Hl.
  assert (streams_at (process_memory_ x) to_be_added (StreamListEntry.Make (CrashpadInfo.user_data_minidump_stream_head info) data size type :: l))
    as Hs by done.
  split; [done|]. intros fuel Hf. unfold CustomMinidumpStreams. rewrite Hi. cbn [CrashpadInfo.user_data_minidump_stream_head].
  by rewrite (stream_loop_streams _ _ _ [] fuel Hs).
Qed.

(** An entry that is linked to itself is read over and over. *)
Lemma cyclic_streams_never_end m e result fuel :
  StreamListEntry.next e <> 0 -> span (StreamListEntry.next e) (Z.of_nat (sizeof StreamListEntry.repr)) ->
  valid StreamListEntry.repr e = true ->
  load m (StreamListEntry.next e) (Z.of_nat (sizeof StreamListEntry.repr)) = Some (to_bytes StreamListEntry.repr e) ->
  stream_loop fuel m (StreamListEntry.next e) result = None.
Proof.
  intros Hc Hsp Hv Hl. revert result. induction fuel as [|f IH]; intros result; cbn [stream_loop]; [done|].
  rewrite (proj2 (Z.eqb_neq _ _) Hc), (read_loads _ _ _ _ Hsp Hl), of_bytes_exact by (apply _ || done). apply IH.
Qed.
End Correctness.

(** ** Examples *)

(** A client whose threads are in the middle of adding annotations. *)
Definition example_moment : State := default (init []) (schedule (take 5 example_schedule) (init example_programs)).
Definition example_contents (a : nat) : AnnotationSnapshot := MkAnnotationSnapshot (str "name") 1 (str "value").
Definition example_addr (a : nat) : Z := 0x21000 + 32 * Z.of_nat a.
Definition example_tail : Z := 0x20028.
Definition example_node : ProcessAnnotation.t := ProcessAnnotation.Make example_tail 0x22000 0x23000 5 1 0 0.
Definition no_annotation : ProcessAnnotation.t := ProcessAnnotation.Make 0 0 0 0 0 0 0.
Definition example_list : ProcessAnnotationList.t :=
  ProcessAnnotationList.Make example_tail (ProcessAnnotation.Make (example_addr 2) 0 0 0 0 0 0) no_annotation.
Definition example_dictionary : list SimpleStringDictionary.Entry :=
  default [] (SimpleStringDictionary.SetKeyValue kKeySize kValueSize (SimpleStringDictionary.init kKeySize kValueSize kNumEntries)
    (str "key") (Some (str "value"))).
Definition example_info : CrashpadInfo.t :=
  CrashpadInfo.set_simple_annotations (CrashpadInfo.set_annotations_list (CrashpadInfo.init true) 0x20000) 0x10000.
Definition example_entry : StreamListEntry.t := StreamListEntry.Make 0 0x22000 5 7.
Definition example_client : Memory :=
  [(0x10000, to_bytes (array kNumEntries entry_repr) example_dictionary);
             (0x20000, to_bytes (ProcessAnnotationList.repr true) example_list);
             (example_addr 2, to_bytes (ProcessAnnotation.repr true) example_node);
             (0x22000, str "name" ++ [0]); (0x23000, str "value");
             (0x24000, take 24 (to_bytes (CrashpadInfo.repr true) (CrashpadInfo.Make kSignature 24 1 5 0 1 7 2 0 0 0 0 0)));
             (0x25000, to_bytes StreamListEntry.repr example_entry)].
Definition example_client_range : ProcessMemoryRange Memory :=
  MkMemoryRange example_client (CheckedAddressRange.SetRange true 0 (2 ^ 47)).
Definition example_module : ModuleSnapshotElf Memory := MkModuleSnapshotElf example_client_range example_client (Some example_info).

Lemma example_located i a d :
  example_client !! i = Some (a, d) -> region_ok example_client i a d && (a + Z.of_nat (length d) <=? 2 ^ 47) = true ->
  located example_client_range a d.
Proof.
  intros Hi [Hok Hle%Z.leb_le]%andb_true_iff. pose proof (region_load _ _ _ _ Hi Hok) as Hl.
  unfold region_ok in Hok. bool_to_prop. exists 0, (2 ^ 47). by split_and!.
Qed.

Lemma example_dictionary_ok : SimpleStringDictionary.dictionary_ok kKeySize kValueSize kNumEntries example_dictionary.
Proof.
  destruct (SimpleStringDictionary.init_ok kKeySize kValueSize kNumEntries) as [Hi _]; [vm_compute; lia|vm_compute; lia|].
  destruct (SimpleStringDictionary.set_refines kKeySize kValueSize kNumEntries ltac:(vm_compute; lia) ltac:(vm_compute; lia)
    _ (str "key") (str "value") Hi) as (d & E & Hd & _);
    [done|apply (bool_decide_unpack _); by vm_compute|vm_compute; lia|apply (bool_decide_unpack _); by vm_compute|].
  unfold example_dictionary. by rewrite E.
Qed.
Lemma example_client_at :
  client_at example_addr example_tail example_client_range example_info example_moment example_contents example_dictionary example_list.
Proof.
  split.
  - split; [done|]. apply (example_located 1); [reflexivity|vm_compute; reflexivity].
  - by vm_compute.
  - done.
  - by vm_compute.
  - assert (published_ example_moment = [2%nat]) as -> by (by vm_compute). intros a ->%list_elem_of_singleton.
    split; [done|]. split; [split_and!; [apply (bool_decide_unpack (0 ∉ str "name")); by vm_compute|cbn; unfold kNameMaxLength; lia|done]|].
    exists to_tail, example_node. split; [by vm_compute|].
    split; [by vm_compute|apply (example_located 2); [reflexivity|vm_compute; reflexivity]|done|done|done|..].
    + intros _. apply (example_located 3); [reflexivity|vm_compute; reflexivity].
    + intros _. apply (example_located 4); [reflexivity|vm_compute; reflexivity].
  - split; [done|]. apply (example_located 0); [reflexivity|vm_compute; reflexivity].
  - apply example_dictionary_ok.
  - by vm_compute.
Qed.

Lemma client_annotations_found_witness :
  AnnotationObjects example_module = Done [MkAnnotationSnapshot (str "name") 1 (str "value")] /\
  exists m, AnnotationsSimpleMap example_module = Done m /\ map_find (str "key") m = Some (str "value").
Proof.
  destruct (client_annotations_found example_addr example_tail example_name example_programs example_moment example_contents
    example_dictionary example_module example_info example_list) as (E & m & Em & Hm).
  - apply (schedule_steps (take 5 example_schedule)). by vm_compute.
  - reflexivity.
  - apply example_client_at.
  - split; [rewrite E; vm_compute; reflexivity|]. exists m. split; [exact Em|]. rewrite Hm. vm_compute. reflexivity.
Defined.

Lemma crashpad_info_any_version_witness :
  ReadInfo (replicate 56 77) example_client_range 0x24000 =
    Done (CrashpadInfo.Make kSignature 24 1 5 0 kEnabled kUnset kDisabled 0 0 0 0 0).
Proof.
  rewrite (crashpad_info_any_version example_client_range 0x24000
    (take 24 (to_bytes (CrashpadInfo.repr true) (CrashpadInfo.Make kSignature 24 1 5 0 1 7 2 0 0 0 0 0)))).
  - by vm_compute.
  - apply (example_located 5); [reflexivity|vm_compute; reflexivity].
  - by vm_compute.
  - vm_compute. lia.
  - by vm_compute.
Defined.

Lemma custom_streams_found_witness :
  let '(e, info) := AddUserDataMinidumpStream example_info 0x25000 7 0x22000 5 in
  CustomMinidumpStreams 3 (MkModuleSnapshotElf example_client_range example_client (Some info)) =
    Some (Done [MkUserMinidumpStream 7 (Some (MkMemorySnapshot 0x22000 5))]).
Proof.
  cbn [AddUserDataMinidumpStream]. set (x := MkModuleSnapshotElf _ _ _).
  destruct (custom_streams_found x example_info 0x25000 7 0x22000 5 [] example_entry _ eq_refl) as [_ E];
    [done|done|by vm_compute|unfold span; cbn; lia|by vm_compute|done|].
  rewrite E; [vm_compute; reflexivity|cbn; lia].
Defined.
