(* ===== verification/ModuleElf.v ===== *)
(** * The snapshot of an ELF module (snapshot/elf/module_snapshot_elf.cc)

    [ModuleSnapshotElf::Initialize] finds the [CrashpadInfo] of a module by a note of its
    ELF image, whose descriptor is the distance from the descriptor to the structure; the
    build ID is the descriptor of another note.  The readers of the image (ElfImage,
    ElfNotes) and of what the client keeps (CrashpadTypes) are put together here: what a
    client has in memory is found from its image. *)

From S2P Require Import Prelude.
From S2P Require Import Numeric.
From S2P Require Import Structs.
From S2P Require Import Uuid.
From S2P Require Import AnnotationList.
From S2P Require Import ClientContainers.
From S2P Require Import ProcessMemory.
From S2P Require Import ElfImage.
From S2P Require Import ElfNotes.
From S2P Require Import MinidumpObjects.
From S2P Require Import CrashpadTypes.
#[local] Open Scope crashpad_scope.

(** util/misc/elf_note_types.h. *)
Definition CRASHPAD_ELF_NOTE_NAME : bytes := str "Crashpad".
Definition CRASHPAD_ELF_NOTE_TYPE_CRASHPAD_INFO : Z := 0x4f464e49.
Definition kMaxNoteSize : Z := 256.
(** [ELF_NOTE_GNU] and [NT_GNU_BUILD_ID] of <elf.h>. *)
Definition ELF_NOTE_GNU : bytes := str "GNU".
Definition NT_GNU_BUILD_ID : Z := 3.

(** The type of the distance in the note. *)
Definition offset_repr (is_64_bit : bool) : Repr Z := if is_64_bit then sint 8 else sint 4.

Section ModuleElf.
  Context {M : Type} `{ProcessMemory M}.

(** The part of [Initialize] after a note has been found: the descriptor has to be as
    long as the distance that is read from it. *)
Definition read_info_of_note (uninitialized : bytes) (e : ElfImageReader M) (desc : bytes) (desc_address : Z)
    : outcome (option CrashpadInfo.t) :=
  let R := offset_repr (Is64Bit (elf_memory_ e)) in
  if (length desc <? sizeof R)%nat then Undefined
  else
    let info_address := u64 (desc_address + of_bytes R desc) in
    match InitializeCopy (elf_memory_ e) with
    | None => Done None
    | Some range =>
        match ReadInfo uninitialized range info_address with
        | Done info => Done (Some info)
        | Failed => Done None
        | Undefined => Undefined
        end
    end.
(** [Initialize], of a module with the given members; [None] is for fuel that does not suffice. *)
Definition InitializeModule (fuel : nat) (uninitialized : bytes) (elf_reader : option (ElfImageReader M))
    (process_memory_range : ProcessMemoryRange M) (process_memory : M) : option (outcome (ModuleSnapshotElf M)) :=
  let module info := MkModuleSnapshotElf process_memory_range process_memory info in
  match elf_reader with
  | None => Some Failed
  | Some e =>
      match NotesWithNameAndType CRASHPAD_ELF_NOTE_NAME CRASHPAD_ELF_NOTE_TYPE_CRASHPAD_INFO kMaxNoteSize with
      | Done notes =>
          match NextNote fuel e notes with
          | None => None
          | Some (Done (kSuccess _ _ desc desc_address, _)) =>
              Some (step! info := read_info_of_note uninitialized e desc desc_address in Done (module info))
          | Some (Done _) => Some (Done (module None))
          | Some Failed => Some Failed
          | Some Undefined => Some Undefined
          end
      | Failed => Some Failed
      | Undefined => Some Undefined
      end
  end.

(** [BuildID] and [UUIDAndAge]; [htobe32] is the same permutation of bytes as [ntohl]. *)
Definition BuildID (fuel : nat) (e : ElfImageReader M) : option (outcome bytes) :=
  match NotesWithNameAndType ELF_NOTE_GNU NT_GNU_BUILD_ID 64 with
  | Done notes =>
      match NextNote fuel e notes with
      | None => None
      | Some (Done (kSuccess _ _ desc _, _)) => Some (Done desc)
      | Some (Done _) => Some (Done [])
      | Some Failed => Some Failed
      | Some Undefined => Some Undefined
      end
  | Failed => Some Failed
  | Undefined => Some Undefined
  end.
Definition uuid_of_build_id (build_id : bytes) : UUID :=
  let build_id := build_id ++ replicate (16 - Nat.min (length build_id) 16) 0 in
  let uuid := InitializeFromBytes build_id in
  MkUUID (NetToHost 4 (data_1 uuid)) (NetToHost 2 (data_2 uuid)) (NetToHost 2 (data_3 uuid)) (data_4 uuid) (data_5 uuid).
Definition UUIDAndAge (fuel : nat) (e : ElfImageReader M) : option (outcome (UUID * Z)) :=
  match BuildID fuel e with
  | None => None
  | Some o => Some (step! build_id := o in Done (uuid_of_build_id build_id, 0))
  end.
End ModuleElf.

(** ** The build ID as a UUID *)

Lemma net_to_host_twice n z : 0 <= z < 256 ^ Z.of_nat n -> NetToHost n (NetToHost n z) = z.
Proof.
  intros Hz. unfold NetToHost. rewrite le_bytes_value, rev_involutive.
  - by apply le_value_bytes_small.
  - apply Forall_rev, le_bytes_bytes.
  - by rewrite length_rev, length_le_bytes.
Qed.
Lemma slice_value_bound i n l : Forall is_byte l -> (i + n <= length l)%nat -> 0 <= le_value (slice i n l) < 256 ^ Z.of_nat n.
Proof.
  intros Hl Hn. assert (length (slice i n l) = n) as E by (unfold slice; len_lia).
  pose proof (le_value_bound (slice i n l)) as Hb. rewrite E in Hb. apply Hb. unfold slice. by apply Forall_take, Forall_drop.
Qed.
Lemma uuid_bytes_of_bytes l : Forall is_byte l -> length l = 16%nat -> uuid_bytes (uuid_of_bytes l) = l.
Proof.
  intros Hl En. do 17 (destruct l as [|? l]; try done). repeat match goal with H : Forall is_byte (_ :: _) |- _ => apply Forall_cons in H as [? H] end.
  unfold uuid_bytes, uuid_of_bytes. cbn [data_1 data_2 data_3 data_4 data_5 nth slice take drop app].
  unfold slice. cbn [take drop].
  rewrite !le_bytes_value by (done || (repeat (apply Forall_cons_2; [assumption|]); constructor)).
  repeat match goal with |- context [le_bytes 1 ?z] => change (le_bytes 1 z) with [u8 z] end. unfold is_byte in *. rewrite !wrap_small by lia. done.
Qed.

(** The UUID of a module is in memory the first 16 bytes of the build ID, or the build ID
    and zeros after it. *)
Lemma uuid_of_build_id_bytes build_id :
  Forall is_byte build_id -> uuid_bytes (uuid_of_build_id build_id) = take 16 (build_id ++ replicate 16 0).
Proof.
  intros Hb. unfold uuid_of_build_id, InitializeFromBytes. cbn [data_1 data_2 data_3 data_4 data_5]. set (l := build_id ++ _).
  assert (Forall is_byte l) as Hl by (apply Forall_app; split; [done|by apply Forall_replicate]).
  assert (16 <= length l)%nat as Hlen by (unfold l; len_lia). unfold uuid_of_bytes. cbn [data_1 data_2 data_3 data_4 data_5].
  rewrite !net_to_host_twice by (apply slice_value_bound; (done || lia)). fold (uuid_of_bytes l).
  assert (uuid_of_bytes l = uuid_of_bytes (take 16 l)) as E.
  { do 16 (destruct l as [|? l]; [cbn in Hlen; lia|]). done. }
  change (uuid_bytes (uuid_of_bytes l) = take 16 (build_id ++ replicate 16 0)).
  rewrite E, uuid_bytes_of_bytes; [|by apply Forall_take|len_lia]. unfold l.
  destruct (Nat.le_gt_cases 16 (length build_id)).
  - by rewrite !take_app_le by lia.
  - rewrite !take_app_ge by lia. f_equal. rewrite !take_replicate. f_equal. lia.
Qed.

(** ** What is found from an image *)

Section Found.
  Context {M : Type} `{ProcessMemoryLaws M} `{!ProcessMemoryProgress M}.

(** The first note of a name and type, among the notes of an image with their addresses. *)
Definition find_note (name : bytes) (type max_size : Z) (notes : list (Z * Note)) : option (Z * Note) :=
  List.find (fun n => (body_size n.2 <=? max_size) && ((note_type n.2 =? type) && bool_decide (note_name n.2 = name))) notes.

Lemma next_note_named (e : ElfImageReader M) name type max_size notes fuel :
  max_size < kMaxMaxNoteSize -> segments_at e (program_headers_ e) notes -> (length notes + length (program_headers_ e) < fuel)%nat ->
  exists r, NotesWithNameAndType name type max_size = Done r /\
    match find_note name type max_size notes with
    | None => exists r', NextNote fuel e r = Some (Done (kNoMoreNotes, r'))
    | Some (a, x) => exists r', NextNote fuel e r = Some (Done (kSuccess (note_name x) (note_type x) (note_desc x) a, r'))
    end.
Proof.
  intros Hm Hs Hf. unfold NotesWithNameAndType, new_note_reader. rewrite (proj2 (Z.ltb_lt _ _) Hm). cbn [negb]. eexists. split; [reflexivity|].
  set (r := MkNoteReader _ _ _ _ _ _ _ _ _). assert (remaining e r notes) as Hr.
  { apply (new_reader_remaining e max_size name type true); [|done]. unfold new_note_reader. by rewrite (proj2 (Z.ltb_lt _ _) Hm). }
  assert (forall x, selected r x = (body_size x <=? max_size) && ((note_type x =? type) && bool_decide (note_name x = name))) as Hsel.
  { intros x. unfold selected, r. cbn [max_note_size_ use_filter_ type_filter_ name_filter_ negb orb]. by rewrite Z.min_r by lia. }
  unfold NextNote. rewrite (proj1 Hr). cbn [negb]. pose proof (next_note_spec e r notes fuel Hr Hf) as Hx. revert Hx. unfold find_note.
  generalize (next_note fuel e r) as o. intros o. clear Hr Hs Hf. induction notes as [|[a x] notes IH]; cbn [next_selected List.find snd]; [done|].
  rewrite Hsel. destruct (_ && _); [|done]. intros (r' & E & _). by exists r'.
Qed.

(** A client in an image: a note that leads to its [CrashpadInfo]. *)
Record client_image (e : ElfImageReader M) (notes : list (Z * Note)) (a : Z) (x : Note) (offset : Z) (client : bytes) (info : CrashpadInfo.t)
    : Prop := {
  ci_notes : segments_at e (program_headers_ e) notes;
  ci_note : find_note CRASHPAD_ELF_NOTE_NAME CRASHPAD_ELF_NOTE_TYPE_CRASHPAD_INFO kMaxNoteSize notes = Some (a, x);
  ci_offset : valid (offset_repr (Is64Bit (elf_memory_ e))) offset = true /\ note_desc x = to_bytes (offset_repr (Is64Bit (elf_memory_ e))) offset;
  ci_client : located (elf_memory_ e) (a + offset) client /\ (12 <= length client)%nat;
  ci_info :
    let R := CrashpadInfo.repr (Is64Bit (elf_memory_ e)) in
    info = of_bytes R (take (sizeof R) (client ++ replicate (sizeof R) 0)) /\ CrashpadInfo.size info = Z.of_nat (length client) /\
    CrashpadInfo.signature info = kSignature /\ CrashpadInfo.version info = kCrashpadInfoVersion
}.

#[local] Instance offset_laws b : ReprLaws (offset_repr b).
Proof. destruct b; apply _. Qed.

Lemma module_initialized (e : ElfImageReader M) notes a x offset client info uninitialized range memory fuel :
  client_image e notes a x offset client info -> length uninitialized = sizeof (CrashpadInfo.repr (Is64Bit (elf_memory_ e))) ->
  (length notes + length (program_headers_ e) < fuel)%nat ->
  InitializeModule fuel uninitialized (Some e) range memory = Some (Done (MkModuleSnapshotElf range memory (Some (check_options info)))).
Proof.
  intros [Hn Hx [Hov Hod] [Hl H12] (Ei & Hsz & Hsig & Hver)] Hu Hf. unfold InitializeModule.
  destruct (next_note_named e CRASHPAD_ELF_NOTE_NAME CRASHPAD_ELF_NOTE_TYPE_CRASHPAD_INFO kMaxNoteSize notes fuel) as (r & -> & Hnext); [done..|].
  rewrite Hx in Hnext. destruct Hnext as (r' & ->). unfold read_info_of_note.
  assert (length (note_desc x) = sizeof (offset_repr (Is64Bit (elf_memory_ e)))) as El by (rewrite Hod; by apply length_to_bytes).
  rewrite (proj2 (Nat.ltb_ge _ _)) by lia. rewrite Hod, of_bytes_exact by (apply _ || done).
  pose proof Hl as (lo & hi & Hc & Hlo & Hhi & _). rewrite (copy_of_range _ lo hi Hc).
  destruct Hc as (_ & H0' & Hw). pose proof (pointer_width (Is64Bit (elf_memory_ e))). rewrite wrap_small by lia.
  rewrite (read_info_client _ _ client uninitialized Hl Hu H12) by (by rewrite <-Ei). rewrite <-Ei, Hsig, Hver, !Z.eqb_refl. done.
Qed.

(** C22.  What a client keeps is found from its ELF image, for both pointer sizes: when
    the first Crashpad note of the note segments gives the distance to the client's
    [CrashpadInfo], [ModuleSnapshotElf::Initialize] reads that structure, and the snapshot
    of the module then has the annotations of the client, whatever its threads were doing
    when it stopped: those published on the list and set, in order and at most 200, and
    the map that its dictionary stands for. *)
Theorem client_found_in_image (e : ElfImageReader M) notes a x offset client info uninitialized range memory fuel
    addr tail_pointer name_ programs s contents d list_object :
  client_image e notes a x offset client info -> length uninitialized = sizeof (CrashpadInfo.repr (Is64Bit (elf_memory_ e))) ->
  (length notes + length (program_headers_ e) < fuel)%nat ->
  reachable name_ programs s -> client_at addr tail_pointer range (check_options info) s contents d list_object ->
  exists module, InitializeModule fuel uninitialized (Some e) range memory = Some (Done module) /\
    AnnotationObjects module = Done (set_annotations (map contents (take kMaxNumberOfAnnotations (published_ s)))) /\
    exists m, AnnotationsSimpleMap module = Done m /\ forall k, map_find k m = SimpleStringDictionary.to_map d !! k.
Proof.
  intros Hi Hu Hf Hs Hc. eexists. split; [by eapply module_initialized|].
  by apply (client_annotations_found addr tail_pointer name_ programs s contents d _ (check_options info) list_object).
Qed.
End Found.

(** ** An example *)

Definition example_crashpad_note : Note :=
  MkNote CRASHPAD_ELF_NOTE_NAME CRASHPAD_ELF_NOTE_TYPE_CRASHPAD_INFO (to_bytes (offset_repr true) 0xfe8).
Definition example_client_bytes : bytes := to_bytes (CrashpadInfo.repr true) example_info.
Definition example_module_memory : Memory := [(0x8000, notes_bytes [example_crashpad_note]); (0x9000, example_client_bytes)].
Definition example_module_image : ElfImageReader Memory :=
  MkElfImageReader (Elf_Ehdr.Make [] ET_DYN 0 1 0 0 0 0 64 56 1 0 0 0) 0x8000 0
    (MkMemoryRange example_module_memory (CheckedAddressRange.SetRange true 0x8000 0x2000)) [Elf_Phdr.Make PT_NOTE 4 0 0x8000 0 32 32 4]
    uninitialized uninitialized.

Lemma example_client_image :
  client_image example_module_image (placed_notes 0x8000 [example_crashpad_note] ++ []) 0x8018 example_crashpad_note 0xfe8 example_client_bytes
    example_info.
Proof.
  assert (forall i base d, example_module_memory !! i = Some (base, d) -> region_ok example_module_memory i base d = true ->
    0x8000 <= base -> base + Z.of_nat (length d) <= 0xa000 -> located (elf_memory_ example_module_image) base d) as Hl.
  { intros i base d Hi Hok Hlo Hhi. exists 0x8000, 0xa000. split; [split; [done|cbn; lia]|]. split_and!; [done|done|].
    by apply (region_load example_module_memory i). }
  split.
  - exists [example_crashpad_note], []. split; [|by split]. split; [done|]. split; [by repeat constructor|]. split; [done|].
    apply (Hl 0%nat); by vm_compute.
  - reflexivity.
  - split; reflexivity.
  - split; [apply (Hl 1%nat); by vm_compute|vm_compute; lia].
  - split; [by vm_compute|]. split; [by vm_compute|]. by split.
Qed.

Lemma client_found_in_image_witness :
  exists module, InitializeModule 10 (replicate 56 77) (Some example_module_image) example_client_range example_client = Some (Done module) /\
    AnnotationObjects module = Done [MkAnnotationSnapshot (str "name") 1 (str "value")].
Proof.
  destruct (client_found_in_image example_module_image _ _ _ _ _ _ (replicate 56 77) example_client_range example_client 10
    example_addr example_tail example_name example_programs example_moment example_contents example_dictionary example_list
    example_client_image) as (module & E & Ea & _).
  - reflexivity.
  - cbn. lia.
  - apply (schedule_steps (take 5 example_schedule)). by vm_compute.
  - apply example_client_at.
  - exists module. split; [exact E|]. rewrite Ea. vm_compute. reflexivity.
Defined.
