(* ===== verification/HttpMultipart.v ===== *)
(** * HTTP request bodies (util/net)

    The multipart message that uploads a crash report (http_multipart_builder.cc), the
    streams that it is read from (http_body.cc), and the functions of url.cc.  A reader
    of a multipart message ([parse_multipart], from RFC 2046 and RFC 7578) shows what a
    server finds in the message. *)

From S2P Require Import Prelude.
From S2P Require Import Strings.
From S2P Require Import FileIO.
From S2P Require Import MinidumpObjects.
#[local] Open Scope crashpad_scope.

(** ** URLs (url.cc) *)

(** [StringPrintf("%%%02x", c)], or with [X]. *)
Definition hex_digit (upper : bool) (d : Z) : Z := if d <? 10 then 48 + d else (if upper then 55 else 87) + d.
Definition percent (upper : bool) (c : Z) : bytes := [37; hex_digit upper (c / 16); hex_digit upper (c mod 16)].

Definition is_alnum (c : Z) : bool :=
  ((65 <=? c) && (c <=? 90)) || ((97 <=? c) && (c <=? 122)) || ((48 <=? c) && (c <=? 57)).

(** [strchr] finds the NUL that ends the string, too. *)
Definition strchr (s : bytes) (c : Z) : bool := bool_decide (c ∈ s ++ [0]).
Definition kSafeCharacters : bytes := str "-_.~".
Definition URLEncode (url : bytes) : bytes :=
  concat (map (fun c => if is_alnum c || strchr kSafeCharacters c then [c] else percent true c) url).

(** What comes after a prefix. *)
Fixpoint strip_prefix (p s : bytes) : option bytes :=
  match p, s with
  | [], _ => Some s
  | x :: p', y :: s' => if x =? y then strip_prefix p' s' else None
  | _, _ => None
  end.

(** What is before and after the first [p] in a string. *)
Fixpoint find_first (p s : bytes) : option (bytes * bytes) :=
  match strip_prefix p s with
  | Some r => Some ([], r)
  | None => match s with
            | [] => None
            | x :: s' => '(a, b) ← find_first p s'; Some (x :: a, b)
            end
  end.

(** [CrackURL]: scheme, host, port and rest; first what comes after the scheme. *)
Definition crack_after (scheme port after : bytes) : option (bytes * bytes * bytes * bytes) :=
  '(host_and_possible_port, resource) ← find_first [47] after;
  let rest := 47 :: resource in
  match find_first [58] host_and_possible_port with
  | None => Some (scheme, host_and_possible_port, port, rest)
  | Some (host, port) => Some (scheme, host, port, rest)
  end.
Definition CrackURL (url : bytes) : option (bytes * bytes * bytes * bytes) :=
  match strip_prefix (str "http://") url with
  | Some after => crack_after (str "http") (str "80") after
  | None => match strip_prefix (str "https://") url with
            | Some after => crack_after (str "https") (str "443") after
            | None => None
            end
  end.

(** ** Body streams (http_body.cc) *)

Section Streams.
  Context {R : Type} `{FileReaderInterface R}.

(** [StringHTTPBodyStream] and [FileReaderHTTPBodyStream]. *)
Inductive HTTPBodyStream :=
  | StringHTTPBodyStream (string_ : bytes) (bytes_read_ : nat)
  | FileReaderHTTPBodyStream (reader_ : R) (reached_eof_ : bool).

Definition max_result : Z := 2 ^ 63 - 1.

(** [GetBytesBuffer] of a buffer of [max_len] bytes: those that were read. *)
Definition part_bytes (x : HTTPBodyStream) (max_len : Z) : option (bytes * HTTPBodyStream) :=
  match x with
  | StringHTTPBodyStream s n =>
      let num_bytes_remaining := Z.of_nat (length s - n) in
      if num_bytes_remaining =? 0 then Some ([], x)
      else
        let num_bytes_returned := Z.to_nat (Z.min (Z.min num_bytes_remaining max_len) max_result) in
        Some (slice n num_bytes_returned s, StringHTTPBodyStream s (n + num_bytes_returned))
  | FileReaderHTTPBodyStream r reached_eof =>
      if reached_eof then Some ([], x)
      else
        '(d, r') ← Read r (Z.to_nat max_len);
        Some (d, FileReaderHTTPBodyStream r' (if decide (d = []) then true else reached_eof))
  end.

(** [CompositeHTTPBodyStream]: the parts from [current_part_] on. *)
Definition CompositeHTTPBodyStream : Type := list HTTPBodyStream.

(** The loop of its [GetBytesBuffer]; [None] is an error, or not enough fuel.  A round
    copies a byte or advances [current_part_]. *)
Fixpoint composite_loop (fuel : nat) (parts : CompositeHTTPBodyStream) (max_len : Z) (copied : bytes)
    : option (bytes * CompositeHTTPBodyStream) :=
  match fuel with
  | O => None
  | S f =>
      if Z.of_nat (length copied) <? max_len then
        match parts with
        | [] => Some (copied, [])
        | part :: rest =>
            '(d, part') ← part_bytes part (max_len - Z.of_nat (length copied));
            if decide (d = []) then composite_loop f rest max_len copied
            else composite_loop f (part' :: rest) max_len (copied ++ d)
        end
      else Some (copied, parts)
  end.
Definition GetBytesBuffer (parts : CompositeHTTPBodyStream) (buffer_len : Z)
    : option (bytes * CompositeHTTPBodyStream) :=
  let max_len := Z.min buffer_len max_result in
  composite_loop (S (Z.to_nat max_len + length parts)) parts max_len [].

(** A client that reads with buffers of these sizes, one after the other. *)
Fixpoint read_body (parts : CompositeHTTPBodyStream) (sizes : list Z) : option (list bytes) :=
  match sizes with
  | [] => Some []
  | n :: sizes' =>
      '(d, parts') ← GetBytesBuffer parts n;
      l ← read_body parts' sizes';
      Some (d :: l)
  end.
End Streams.
Arguments HTTPBodyStream : clear implicits.
Arguments CompositeHTTPBodyStream : clear implicits.

(** ** The multipart builder (http_multipart_builder.cc) *)

Definition kCRLF : bytes := [13; 10].
Definition kBoundaryCRLF : bytes := [13; 10; 13; 10].

(** [GenerateBoundaryString]; [rand] are the results of [base::RandInt]. *)
Definition kCharacters : bytes := str "0123456789ABCDEFGHIJKLMNOPQRSTUVWXYZabcdefghijklmnopqrstuvwxyz".
Definition GenerateBoundaryString (rand : nat -> nat) : bytes :=
  str "---MultipartBoundary-" ++ map (fun index => nth (rand index) kCharacters 0) (seq 0 32) ++ str "---".

Definition EncodeMIMEField (name : bytes) : bytes :=
  concat (map (fun c => if bool_decide (c ∈ [13; 10; 34; 37]) then percent false c else [c]) name).

Definition GetFormDataBoundary (boundary name : bytes) : bytes :=
  str "--" ++ c_str boundary ++ kCRLF ++ str "Content-Disposition: form-data; name=" ++ [34] ++
  c_str (EncodeMIMEField name) ++ [34].

(** [AssertSafeMIMEType]; its [CHECK] fails if this is [false]. *)
Definition safe_mime_type (s : bytes) : bool :=
  forallb (fun c => is_alnum c || bool_decide (c ∈ str "/._+-")) s.

Definition kContentType : bytes := str "Content-Type".
Definition kContentEncoding : bytes := str "Content-Encoding".
Definition kOctetStream : bytes := str "application/octet-stream".

Section Builder.
  Context {R : Type} `{FileReaderInterface R}.

Record FileAttachment := MkFileAttachment { filename : bytes; content_type : bytes; attachment_reader : R }.
Record HTTPMultipartBuilder := MkBuilder {
  boundary_ : bytes;
  form_data_ : string_map bytes;
  file_attachments_ : string_map FileAttachment;
  gzip_enabled_ : bool
}.

(** The constructor. *)
Definition new_builder (rand : nat -> nat) : HTTPMultipartBuilder :=
  MkBuilder (GenerateBoundaryString rand) [] [] false.
Definition SetGzipEnabled (b : HTTPMultipartBuilder) (gzip_enabled : bool) : HTTPMultipartBuilder :=
  MkBuilder (boundary_ b) (form_data_ b) (file_attachments_ b) gzip_enabled.

Definition EraseKey (b : HTTPMultipartBuilder) (key : bytes) : HTTPMultipartBuilder :=
  MkBuilder (boundary_ b) (map_erase key (form_data_ b)) (map_erase key (file_attachments_ b)) (gzip_enabled_ b).
Definition SetFormData (b : HTTPMultipartBuilder) (key value : bytes) : HTTPMultipartBuilder :=
  let b := EraseKey b key in
  MkBuilder (boundary_ b) (map_insert key value (form_data_ b)) (file_attachments_ b) (gzip_enabled_ b).
Definition SetFileAttachment (b : HTTPMultipartBuilder) (key upload_file_name : bytes) (reader : R) (content_type : bytes)
    : option HTTPMultipartBuilder :=
  let b := EraseKey b upload_file_name in
  content_type ← match content_type with
                 | [] => Some kOctetStream
                 | _ => if safe_mime_type content_type then Some content_type else None
                 end;
  Some (MkBuilder (boundary_ b) (form_data_ b)
          (map_insert key (MkFileAttachment (EncodeMIMEField upload_file_name) content_type reader) (file_attachments_ b))
          (gzip_enabled_ b)).

(** The text of the parts. *)
Definition form_field (boundary : bytes) (p : bytes * bytes) : bytes :=
  GetFormDataBoundary boundary p.1 ++ kBoundaryCRLF ++ p.2 ++ kCRLF.
Definition attachment_header (boundary : bytes) (p : bytes * FileAttachment) : bytes :=
  GetFormDataBoundary boundary p.1 ++
  str "; filename=" ++ [34] ++ c_str (filename p.2) ++ [34] ++ kCRLF ++
  str "Content-Type: " ++ c_str (content_type p.2) ++ kBoundaryCRLF.
Definition closing (boundary : bytes) : bytes := str "--" ++ boundary ++ str "--" ++ kCRLF.

(** [GetBodyStream], without the compression. *)
Definition GetBodyStream (b : HTTPMultipartBuilder) : CompositeHTTPBodyStream R :=
  map (fun p => StringHTTPBodyStream (form_field (boundary_ b) p) 0) (form_data_ b) ++
  concat (map (fun p => [StringHTTPBodyStream (attachment_header (boundary_ b) p) 0;
                         FileReaderHTTPBodyStream (attachment_reader p.2) false;
                         StringHTTPBodyStream kCRLF 0]) (file_attachments_ b)) ++
  [StringHTTPBodyStream (closing (boundary_ b)) 0].

Definition PopulateContentHeaders (b : HTTPMultipartBuilder) (http_headers : string_map bytes) : string_map bytes :=
  let h := map_insert kContentType (str "multipart/form-data; boundary=" ++ c_str (boundary_ b)) http_headers in
  if gzip_enabled_ b then map_insert kContentEncoding (str "gzip") h else h.
End Builder.
Arguments FileAttachment : clear implicits.
Arguments HTTPMultipartBuilder : clear implicits.

(** ** Reading a body *)

(** A string in pieces of these sizes. *)
Fixpoint cut (sizes : list Z) (s : bytes) : list bytes :=
  match sizes with
  | [] => []
  | n :: sizes' => take (Z.to_nat n) s :: cut sizes' (drop (Z.to_nat n) s)
  end.

Lemma concat_cut sizes s :
  Forall (fun n => 0 <= n) sizes -> concat (cut sizes s) = take (Z.to_nat (foldr Z.add 0 sizes)) s.
Proof.
  intros Hs. revert s. induction Hs as [|n sizes Hn Hs IH]; intros s; cbn [cut concat foldr]; [by rewrite take_0|].
  assert (0 <= foldr Z.add 0 sizes) by (clear IH; induction Hs; cbn; lia).
  rewrite IH, Z2Nat.inj_add by lia. apply take_take_drop.
Qed.

Section Reading.
  Context {R : Type} `{FileReaderLaws R}.

(** What a stream has left. *)
Definition part_left (x : HTTPBodyStream R) : bytes :=
  match x with
  | StringHTTPBodyStream s n => drop n s
  | FileReaderHTTPBodyStream r reached_eof => if reached_eof then [] else remaining r
  end.
Definition part_valid (x : HTTPBodyStream R) : Prop :=
  match x with StringHTTPBodyStream _ _ => True | FileReaderHTTPBodyStream r _ => reader_valid r end.
Definition body_left (parts : CompositeHTTPBodyStream R) : bytes := concat (map part_left parts).

Lemma part_bytes_spec x max_len :
  part_valid x -> 0 < max_len <= max_result ->
  exists d x', part_bytes x max_len = Some (d, x') /\ part_valid x' /\ part_left x = d ++ part_left x' /\
    Z.of_nat (length d) <= max_len /\ (d = [] -> part_left x = []).
Proof.
  intros Hx Hm. destruct x as [s n|r []]; cbn [part_bytes part_left part_valid] in *.
  - destruct (Z.eqb_spec (Z.of_nat (length s - n)) 0) as [E|E].
    { exists [], (StringHTTPBodyStream s n). split_and!; [done|done|done|cbn; lia|]. intros _. apply drop_ge. lia. }
    set (k := Z.to_nat _). assert ((1 <= k <= length s - n)%nat /\ Z.of_nat k <= max_len) as [Hk Hk'] by lia.
    eexists _, _. split; [done|]. cbn [part_left]. rewrite <-drop_drop.
    assert (length (slice n k s) = k) as Hl by (apply length_slice; lia).
    split_and!; [done|symmetry; apply take_drop|lia|]. intros E0. rewrite E0 in Hl. cbn in Hl. lia.
  - exists [], (FileReaderHTTPBodyStream r true). split_and!; [done|done|done|cbn; lia|done].
  - destruct (read_succeeds r (Z.to_nat max_len) Hx) as (d & r' & E). rewrite E. cbn [mbind option_bind].
    destruct (read_prefix r _ d r' Hx E) as (Hv & Hr & Hl). eexists _, _. split; [done|]. cbn [part_left part_valid].
    destruct (decide (d = [])) as [->|Hd].
    + pose proof (read_empty r _ r' Hx E ltac:(lia)) as Hr0. split_and!; [done|by rewrite Hr0|cbn; lia|done].
    + split_and!; [done|done|lia|done].
Qed.

Lemma composite_loop_spec fuel parts max_len copied :
  Forall part_valid parts -> Z.of_nat (length copied) <= max_len <= max_result ->
  (Z.to_nat max_len - length copied + length parts < fuel)%nat ->
  exists parts', composite_loop fuel parts max_len copied =
      Some (copied ++ take (Z.to_nat max_len - length copied) (body_left parts), parts') /\
    Forall part_valid parts' /\ body_left parts' = drop (Z.to_nat max_len - length copied) (body_left parts).
Proof.
  revert parts copied. induction fuel as [|f IH]; intros parts copied Hv Hm Hf; [lia|]. cbn [composite_loop].
  destruct (Z.ltb_spec (Z.of_nat (length copied)) max_len) as [Hlt|Hge].
  2: { exists parts. replace (Z.to_nat max_len - length copied)%nat with 0%nat by lia. by rewrite take_0, app_nil_r, drop_0. }
  destruct parts as [|part rest]; [exists []; cbn; by rewrite take_nil, drop_nil, app_nil_r|].
  apply Forall_cons in Hv as [Hp Hr]. destruct (part_bytes_spec part (max_len - Z.of_nat (length copied)) Hp) as
    (d & part' & -> & Hp' & El & Hd & He); [lia|]. cbn [mbind option_bind]. cbn [length] in Hf.
  change (body_left (part :: rest)) with (part_left part ++ body_left rest).
  destruct (decide (d = [])) as [Ed|Ed].
  - rewrite (He Ed). apply IH; [done|done|lia].
  - assert (1 <= length d)%nat by (destruct d; [done|cbn; lia]).
    destruct (IH (part' :: rest) (copied ++ d)) as (parts' & E & Hv' & El').
    + by constructor.
    + rewrite length_app. lia.
    + rewrite length_app. cbn [length]. lia.
    + exists parts'. rewrite E, El', El. change (body_left (part' :: rest)) with (part_left part' ++ body_left rest).
      rewrite length_app, <-!app_assoc. set (k := (Z.to_nat max_len - length copied)%nat).
      replace (Z.to_nat max_len - (length copied + length d))%nat with (k - length d)%nat by lia.
      split_and!; [|done|].
      * rewrite (take_app_ge d) by lia. done.
      * rewrite (drop_app_ge d) by lia. done.
Qed.

(** A call fills the buffer unless the body ends. *)
Lemma get_bytes_buffer_spec parts n :
  Forall part_valid parts -> 0 <= n <= max_result ->
  exists parts', GetBytesBuffer parts n = Some (take (Z.to_nat n) (body_left parts), parts') /\
    Forall part_valid parts' /\ body_left parts' = drop (Z.to_nat n) (body_left parts).
Proof.
  intros Hv Hn. unfold GetBytesBuffer. rewrite Z.min_l by lia.
  destruct (composite_loop_spec (S (Z.to_nat n + length parts)) parts n []) as (parts' & E & Hv' & El);
    [done|cbn; lia|cbn; lia|]. cbn [length app] in E, El. rewrite Nat.sub_0_r in E, El. eauto.
Qed.

Lemma read_body_cut parts sizes :
  Forall part_valid parts -> Forall (fun n => 0 <= n <= max_result) sizes ->
  read_body parts sizes = Some (cut sizes (body_left parts)).
Proof.
  intros Hv Hs. revert parts Hv. induction Hs as [|n sizes Hn _ IH]; intros parts Hv; [done|]. cbn [read_body cut].
  destruct (get_bytes_buffer_spec parts n Hv Hn) as (parts' & -> & Hv' & El). cbn [mbind option_bind].
  by rewrite (IH parts' Hv'), El.
Qed.
End Reading.

(** ** Occurrences *)

(** [p] is in [s]. *)
Definition occurs (p s : bytes) : Prop := exists a b, s = a ++ p ++ b.

Lemma strip_prefix_Some p s r : strip_prefix p s = Some r <-> s = p ++ r.
Proof.
  revert s. induction p as [|x p IH]; intros [|y s]; cbn [strip_prefix app]; [naive_solver..|].
  destruct (Z.eqb_spec x y) as [->|]; [rewrite IH|]; naive_solver.
Qed.
Lemma strip_prefix_app p s : strip_prefix p (p ++ s) = Some s.
Proof. by apply strip_prefix_Some. Qed.
Lemma strip_prefix_None p s : strip_prefix p s = None <-> forall r, s <> p ++ r.
Proof.
  destruct (strip_prefix p s) as [r|] eqn:E; [apply strip_prefix_Some in E; naive_solver|].
  split; [|done]. intros _ r Er. apply strip_prefix_Some in Er. congruence.
Qed.

Lemma occurs_cons p x s : occurs p (x :: s) <-> (exists r, x :: s = p ++ r) \/ occurs p s.
Proof.
  split.
  - intros ([|y a] & b & E); [left; by exists b|]. injection E as -> ->. right. by exists a, b.
  - intros [[r E]|(a & b & ->)]; [by exists [], r|by exists (x :: a), b].
Qed.
Lemma occurs_skip c p w s : c ∉ w -> occurs (c :: p) (w ++ s) <-> occurs (c :: p) s.
Proof.
  intros Hw. induction w as [|x w IH]; [done|]. apply not_elem_of_cons in Hw as [Hx Hw]. cbn [app].
  rewrite occurs_cons, (IH Hw). split; [|by right]. intros [[r E]|]; [|done]. by injection E.
Qed.
Lemma occurs_part p a b s : occurs (a ++ p ++ b) s -> occurs p s.
Proof. intros (c & d & ->). exists (c ++ a), (b ++ d). by rewrite <-!app_assoc. Qed.

Lemma find_first_None p s : p <> [] -> find_first p s = None <-> ~ occurs p s.
Proof.
  intros Hp. induction s as [|x s IH]; cbn [find_first].
  - destruct p as [|y p]; [done|]. cbn. split; [|done]. intros _ (a & b & E).
    by destruct a.
  - rewrite occurs_cons. destruct (strip_prefix p (x :: s)) as [r|] eqn:E.
    + split; [done|]. intros Hn. destruct Hn. left. exists r. by apply strip_prefix_Some.
    + rewrite strip_prefix_None in E. destruct (find_first p s) as [[a b]|]; cbn; naive_solver.
Qed.

(** A first occurrence is found if its first character is not in it again. *)
Lemma find_first_app c p a b : c ∉ p -> ~ occurs (c :: p) a -> find_first (c :: p) (a ++ (c :: p) ++ b) = Some (a, b).
Proof.
  intros Hc. induction a as [|x a IH]; intros Ha.
  - pose proof (strip_prefix_app (c :: p) b) as E. cbn [app find_first] in *. by rewrite E.
  - rewrite occurs_cons in Ha. cbn [app find_first]. destruct (strip_prefix (c :: p) (x :: a ++ c :: p ++ b)) as [r|] eqn:E.
    + exfalso. apply strip_prefix_Some in E. change (x :: a ++ c :: p ++ b) with ((x :: a) ++ c :: p ++ b) in E.
      destruct (decide (length (c :: p) <= length (x :: a))%nat) as [Hle|Hgt].
      * apply Ha. left. exists (drop (length (c :: p)) (x :: a)).
        rewrite <-(take_drop (length (c :: p)) (x :: a)) at 1. f_equal.
        apply (f_equal (take (length (c :: p)))) in E. by rewrite take_app_length, take_app_le in E.
      * apply (f_equal (take (length (c :: p)))) in E. rewrite take_app_length, take_app_ge in E by lia.
        cbn [app] in E. injection E as -> E. apply Hc. rewrite <-E.
        apply elem_of_app. right. cbn [length] in Hgt. destruct (length p - length a)%nat eqn:En; [lia|]. left.
    + change (a ++ c :: p ++ b) with (a ++ (c :: p) ++ b). rewrite IH by naive_solver. done.
Qed.

(** ** What a server reads *)

(** The characters of which a percent encoding stands for. *)
Fixpoint percent_decode (s : bytes) : bytes :=
  match s with
  | [] => []
  | c :: s1 =>
      if c =? 37 then
        match s1 with
        | a :: b :: s2 => 16 * default 0 (digit_value a) + default 0 (digit_value b) :: percent_decode s2
        | _ => c :: percent_decode s1
        end
      else c :: percent_decode s1
  end.

(** A part of a message: its name, the name and type of a file, and the contents. *)
Record FormPart := MkFormPart { fp_name : bytes; fp_file : option (bytes * bytes); fp_content : bytes }.

Definition read_quoted (s : bytes) : option (bytes * bytes) :=
  '(encoded, rest) ← find_first [34] s; Some (percent_decode encoded, rest).
Definition parse_part (s : bytes) : option FormPart :=
  s ← strip_prefix (kCRLF ++ str "Content-Disposition: form-data; name=" ++ [34]) s;
  '(name, s) ← read_quoted s;
  match strip_prefix kBoundaryCRLF s with
  | Some content => Some (MkFormPart name None content)
  | None =>
      s ← strip_prefix (str "; filename=" ++ [34]) s;
      '(file, s) ← read_quoted s;
      s ← strip_prefix (kCRLF ++ str "Content-Type: ") s;
      '(type, content) ← find_first kBoundaryCRLF s;
      Some (MkFormPart name (Some (file, type)) content)
  end.

(** The text between the delimiters. *)
Fixpoint split_parts (fuel : nat) (delimiter s : bytes) : list bytes :=
  match fuel with
  | O => [s]
  | S f => match find_first delimiter s with
           | None => [s]
           | Some (a, b) => a :: split_parts f delimiter b
           end
  end.
Definition parse_multipart (boundary body : bytes) : option (list FormPart) :=
  match split_parts (S (length body)) (kCRLF ++ str "--" ++ boundary) (kCRLF ++ body) with
  | [] :: chunks =>
      if bool_decide (last chunks = Some (str "--" ++ kCRLF)) then mapM parse_part (removelast chunks) else None
  | _ => None
  end.

(** *** Encodings *)

Lemma digit_value_hex upper d : 0 <= d < 16 -> digit_value (hex_digit upper d) = Some d.
Proof.
  intros Hd. assert (Forall (fun d => digit_value (hex_digit upper d) = Some d) (seqZ 0 16)) as Ha
    by (destruct upper; repeat constructor).
  rewrite Forall_forall in Ha. apply Ha, elem_of_seqZ. lia.
Qed.
Lemma percent_decode_percent upper c s : is_byte c -> percent_decode (percent upper c ++ s) = c :: percent_decode s.
Proof.
  unfold is_byte. intros Hc. cbn [percent app percent_decode]. change (37 =? 37) with true. cbn iota.
  rewrite !digit_value_hex by (pose proof (Z.div_lt_upper_bound c 16 16); pose proof (Z.div_pos c 16);
    pose proof (Z.mod_pos_bound c 16); lia). cbn [default id]. f_equal. symmetry. apply Z.div_mod. done.
Qed.
Lemma percent_decode_plain c s : c <> 37 -> percent_decode (c :: s) = c :: percent_decode s.
Proof. intros Hc. cbn [percent_decode]. by destruct (Z.eqb_spec c 37). Qed.

Lemma mime_field_decoded name : percent_decode (EncodeMIMEField name) = name.
Proof.
  induction name as [|c name IH]; [done|]. unfold EncodeMIMEField in *. cbn [map concat]. case_bool_decide as Hc.
  - rewrite percent_decode_percent, IH; [done|]. unfold is_byte. set_unfold. lia.
  - cbn [app]. rewrite percent_decode_plain, IH; [done|]. set_unfold. lia.
Qed.
Lemma mime_field_chars name c :
  c ∈ EncodeMIMEField name -> c <> 13 /\ c <> 10 /\ c <> 34 /\ (0 ∉ name -> c <> 0).
Proof.
  unfold EncodeMIMEField. rewrite elem_of_concat. intros (l & Hc & (x & -> & Hx)%list_elem_of_fmap).
  case_bool_decide as E.
  - cbn in E. set_unfold in E. destruct E as [->|[->|[->|[->|[]]]]]; vm_compute in Hc; set_unfold in Hc; lia.
  - apply list_elem_of_singleton in Hc as ->. set_unfold in E. split_and!; try lia. intros H0 ->. done.
Qed.
Lemma mime_field_c_str name : 0 ∉ name -> c_str (EncodeMIMEField name) = EncodeMIMEField name.
Proof. intros H0. apply c_str_whole, Forall_forall. intros c Hc. by apply (mime_field_chars name). Qed.

(** [URLEncode] has an inverse. *)
Lemma url_encode_decoded url : Forall is_byte url -> percent_decode (URLEncode url) = url.
Proof.
  induction 1 as [|c url Hc _ IH]; [done|]. unfold URLEncode in *. cbn [map concat].
  destruct (is_alnum c || strchr kSafeCharacters c) eqn:E; [|by rewrite percent_decode_percent, IH].
  cbn [app]. rewrite percent_decode_plain, IH; [done|]. intros ->. vm_compute in E. discriminate E.
Qed.

(** *** The message of a builder *)

Section Message.
  Context {R : Type} `{FileReaderLaws R}.

(** The parts that a builder has. *)
Definition form_part (p : bytes * bytes) : FormPart := MkFormPart p.1 None p.2.
Definition file_part (p : bytes * FileAttachment R) : FormPart :=
  MkFormPart p.1 (Some (percent_decode (filename p.2), content_type p.2)) (remaining (attachment_reader p.2)).
Definition builder_parts (b : HTTPMultipartBuilder R) : list FormPart :=
  map form_part (form_data_ b) ++ map file_part (file_attachments_ b).

(** Names without NUL characters, and contents in which the boundary does not occur. *)
Definition boundary_char (c : Z) : bool := is_alnum c || (c =? 45).
Record attachment_ok (boundary : bytes) (p : bytes * FileAttachment R) : Prop := {
  ao_key : 0 ∉ p.1;
  ao_filename : exists f, 0 ∉ f /\ filename p.2 = EncodeMIMEField f;
  ao_type : safe_mime_type (content_type p.2) = true;
  ao_reader : reader_valid (attachment_reader p.2);
  ao_content : ~ occurs boundary (remaining (attachment_reader p.2))
}.
Record builder_ok (b : HTTPMultipartBuilder R) : Prop := {
  bo_boundary : forallb boundary_char (boundary_ b) = true;
  bo_form : Forall (fun p => 0 ∉ p.1 /\ ~ occurs (boundary_ b) p.2) (form_data_ b);
  bo_files : Forall (attachment_ok (boundary_ b)) (file_attachments_ b)
}.

(** The text between the delimiters, for the parts and at the end. *)
Definition part_start (name : bytes) : bytes :=
  kCRLF ++ (str "Content-Disposition: form-data; name=" ++ [34]) ++ EncodeMIMEField name ++ [34].
Definition form_chunk (p : bytes * bytes) : bytes := part_start p.1 ++ kBoundaryCRLF ++ p.2.
Definition file_chunk (p : bytes * FileAttachment R) : bytes :=
  part_start p.1 ++ (str "; filename=" ++ [34]) ++ filename p.2 ++ [34] ++ (kCRLF ++ str "Content-Type: ") ++
  content_type p.2 ++ kBoundaryCRLF ++ remaining (attachment_reader p.2).
Definition delimiter (boundary : bytes) : bytes := kCRLF ++ str "--" ++ boundary.

Lemma safe_chars s : safe_mime_type s = true -> 13 ∉ s /\ c_str s = s.
Proof.
  unfold safe_mime_type. rewrite forallb_forall. intros Hs. split.
  - intros H13%list_elem_of_In%Hs. vm_compute in H13. discriminate H13.
  - apply c_str_whole, Forall_forall. intros c Hc%list_elem_of_In%Hs ->. vm_compute in Hc. discriminate Hc.
Qed.
Lemma boundary_chars s : forallb boundary_char s = true -> 13 ∉ s /\ c_str s = s.
Proof.
  rewrite forallb_forall. intros Hs. split.
  - intros H13%list_elem_of_In%Hs. vm_compute in H13. discriminate H13.
  - apply c_str_whole, Forall_forall. intros c Hc%list_elem_of_In%Hs ->. vm_compute in Hc. discriminate Hc.
Qed.

Lemma form_text boundary p :
  c_str boundary = boundary -> 0 ∉ p.1 -> kCRLF ++ form_field boundary p = (delimiter boundary ++ form_chunk p) ++ kCRLF.
Proof.
  intros Hb Hp. unfold form_field, GetFormDataBoundary, delimiter, form_chunk, part_start. rewrite Hb, mime_field_c_str by done.
  by rewrite <-!app_assoc.
Qed.
Lemma file_text boundary p :
  c_str boundary = boundary -> attachment_ok boundary p ->
  kCRLF ++ attachment_header boundary p ++ remaining (attachment_reader p.2) ++ kCRLF =
    (delimiter boundary ++ file_chunk p) ++ kCRLF.
Proof.
  intros Hb [Hk (f & Hf & Ef) Ht _ _]. unfold attachment_header, GetFormDataBoundary, delimiter, file_chunk, part_start.
  rewrite Hb, mime_field_c_str, Ef, mime_field_c_str, (proj2 (safe_chars _ Ht)) by done. by rewrite <-!app_assoc.
Qed.

(** Texts that follow one another and start with a line end. *)
Lemma join_texts {A} (text chunk : A -> bytes) (d rest : bytes) (l : list A) :
  Forall (fun x => kCRLF ++ text x = (d ++ chunk x) ++ kCRLF) l ->
  kCRLF ++ concat (map text l) ++ rest = concat (map (fun x => d ++ chunk x) l) ++ kCRLF ++ rest.
Proof.
  induction 1 as [|x l Hx _ IH]; [done|]. cbn [map concat]. rewrite <-app_assoc, app_assoc, Hx.
  rewrite <-!(app_assoc (d ++ chunk x)). f_equal. exact IH.
Qed.

Definition chunks (b : HTTPMultipartBuilder R) : list bytes :=
  map form_chunk (form_data_ b) ++ map file_chunk (file_attachments_ b) ++ [str "--" ++ kCRLF].

Lemma message_chunks b :
  builder_ok b ->
  Forall part_valid (GetBodyStream b) /\
  kCRLF ++ body_left (GetBodyStream b) = concat (map (app (delimiter (boundary_ b))) (chunks b)).
Proof.
  intros [Hb Hform Hfiles]. destruct (boundary_chars _ Hb) as [_ Hc]. split.
  - unfold GetBodyStream. rewrite !Forall_app. split_and!; [|clear Hform|by constructor].
    + apply Forall_forall. by intros x (p & -> & _)%list_elem_of_fmap.
    + induction Hfiles as [|p l Hp _ IH]; cbn [map concat]; [done|]. apply Forall_app. split; [|done].
      repeat constructor. apply Hp.
  - set (text := fun p : bytes * FileAttachment R => attachment_header (boundary_ b) p ++ remaining (attachment_reader p.2) ++ kCRLF).
    assert (body_left (GetBodyStream b) =
      concat (map (form_field (boundary_ b)) (form_data_ b)) ++ concat (map text (file_attachments_ b)) ++ closing (boundary_ b)) as ->.
    { unfold body_left, GetBodyStream. rewrite !map_app, !concat_app. f_equal; [by rewrite map_map|]. f_equal; [|cbn [map concat part_left]; by rewrite drop_0, app_nil_r].
      clear. induction (file_attachments_ b) as [|p l IH]; cbn [map concat]; [done|].
      rewrite map_app, concat_app, IH. cbn [map concat part_left]. by rewrite !drop_0, app_nil_r. }
    rewrite (join_texts _ form_chunk (delimiter (boundary_ b))).
    2: { eapply Forall_impl; [exact Hform|]. intros p [Hp _]. exact (form_text _ p Hc Hp). }
    rewrite (join_texts text file_chunk (delimiter (boundary_ b))).
    2: { eapply Forall_impl; [exact Hfiles|]. intros p Hp. exact (file_text _ p Hc Hp). }
    unfold chunks. rewrite !map_app, !concat_app, !map_map. cbn [map concat]. rewrite app_nil_r.
    by repeat f_equal.
Qed.

(** The delimiter is not in the text between delimiters. *)
Lemma delimiter_line boundary w s :
  13 ∉ w -> head w <> Some 45 -> w <> [] -> occurs (delimiter boundary) (kCRLF ++ w ++ s) -> occurs (delimiter boundary) s.
Proof.
  intros Hw Hh Hn. change (delimiter boundary) with (13 :: 10 :: 45 :: 45 :: boundary). cbn [kCRLF app].
  rewrite occurs_cons. intros [[r E]|Ho].
  - destruct w as [|c w]; [done|]. injection E as -> _. done.
  - by rewrite (occurs_skip 13 _ [10] (w ++ s)), (occurs_skip 13 _ w s) in Ho by set_solver.
Qed.
Lemma delimiter_content boundary v :
  occurs (delimiter boundary) (kBoundaryCRLF ++ v) -> occurs boundary v.
Proof.
  change (delimiter boundary) with (13 :: 10 :: 45 :: 45 :: boundary). cbn [kBoundaryCRLF app].
  rewrite occurs_cons. intros [[r E]|Ho]; [done|]. rewrite (occurs_skip 13 _ [10] (13 :: 10 :: v)) in Ho by set_solver.
  apply occurs_cons in Ho as [[r E]|Ho].
  - injection E as ->. by exists [45; 45], r.
  - rewrite (occurs_skip 13 _ [10] v) in Ho by set_solver. apply (occurs_part boundary [13; 10; 45; 45] []).
    by rewrite app_nil_r.
Qed.

Lemma mime_field_no_cr name : 13 ∉ EncodeMIMEField name.
Proof. intros Hc%mime_field_chars. by destruct Hc. Qed.

Definition start_line (name : bytes) : bytes :=
  (str "Content-Disposition: form-data; name=" ++ [34]) ++ EncodeMIMEField name ++ [34].
Lemma start_line_plain name : 13 ∉ start_line name.
Proof.
  unfold start_line. rewrite !not_elem_of_app. split_and!; try apply mime_field_no_cr; apply (bool_decide_unpack _); by vm_compute.
Qed.

Lemma form_chunk_clean boundary p : ~ occurs boundary p.2 -> ~ occurs (delimiter boundary) (form_chunk p).
Proof.
  intros Hp Ho. apply Hp, delimiter_content. apply (delimiter_line boundary (start_line p.1)).
  - apply start_line_plain.
  - discriminate.
  - discriminate.
  - unfold form_chunk, part_start in Ho. unfold start_line. rewrite <-!app_assoc in Ho. rewrite <-!app_assoc. exact Ho.
Qed.
Lemma file_chunk_clean boundary p : attachment_ok boundary p -> ~ occurs (delimiter boundary) (file_chunk p).
Proof.
  intros [_ (f & _ & Ef) Ht _ Hp] Ho. apply Hp, delimiter_content.
  apply (delimiter_line boundary (str "Content-Type: " ++ content_type p.2)).
  - rewrite not_elem_of_app. split; [apply (bool_decide_unpack _); by vm_compute|by apply safe_chars].
  - discriminate.
  - discriminate.
  - apply (delimiter_line boundary (start_line p.1 ++ (str "; filename=" ++ [34]) ++ filename p.2 ++ [34])).
    + rewrite !not_elem_of_app, Ef. split_and!; try apply start_line_plain; try apply mime_field_no_cr;
        apply (bool_decide_unpack _); by vm_compute.
    + discriminate.
    + discriminate.
    + unfold file_chunk, part_start in Ho. unfold start_line. rewrite <-!app_assoc in Ho. rewrite <-!app_assoc. exact Ho.
Qed.

(** The parts are read back from the text. *)
Lemma read_quoted_encoded name s : read_quoted (EncodeMIMEField name ++ 34 :: s) = Some (name, s).
Proof.
  pose proof (find_first_app 34 [] (EncodeMIMEField name) s (not_elem_of_nil _)) as E. cbn [app] in E.
  unfold read_quoted. rewrite E.
  - cbn [mbind option_bind]. by rewrite mime_field_decoded.
  - clear E. intros (a & b & E). destruct (mime_field_chars name 34) as (_ & _ & Hc & _); [|done]. rewrite E. set_solver.
Qed.
Lemma parse_start name s :
  parse_part (part_start name ++ s) =
    match strip_prefix kBoundaryCRLF s with
    | Some content => Some (MkFormPart name None content)
    | None =>
        s ← strip_prefix (str "; filename=" ++ [34]) s;
        '(file, s) ← read_quoted s;
        s ← strip_prefix (kCRLF ++ str "Content-Type: ") s;
        '(type, content) ← find_first kBoundaryCRLF s;
        Some (MkFormPart name (Some (file, type)) content)
    end.
Proof.
  set (start := kCRLF ++ str "Content-Disposition: form-data; name=" ++ [34]).
  replace (part_start name ++ s) with (start ++ EncodeMIMEField name ++ 34 :: s)
    by (unfold part_start, start; rewrite <-!app_assoc; reflexivity).
  unfold parse_part. fold start. rewrite strip_prefix_app. cbn [mbind option_bind]. by rewrite read_quoted_encoded.
Qed.
Lemma parse_form_chunk p : parse_part (form_chunk p) = Some (form_part p).
Proof. unfold form_chunk. by rewrite parse_start, strip_prefix_app. Qed.

(** The empty line that ends the header of a part. *)
Lemma find_empty_line w s : 13 ∉ w -> find_first kBoundaryCRLF (w ++ kBoundaryCRLF ++ s) = Some (w, s).
Proof.
  intros Hw. induction w as [|c w IH]; [done|]. apply not_elem_of_cons in Hw as [Hc Hw].
  cbn [app find_first]. replace (strip_prefix kBoundaryCRLF (c :: w ++ kBoundaryCRLF ++ s)) with (@None bytes).
  - by rewrite (IH Hw).
  - cbn [kBoundaryCRLF strip_prefix]. by destruct (Z.eqb_spec 13 c).
Qed.
Lemma parse_file_chunk boundary p : attachment_ok boundary p -> parse_part (file_chunk p) = Some (file_part p).
Proof.
  intros [_ (f & _ & Ef) Ht _ _]. unfold file_chunk, file_part. rewrite parse_start, Ef.
  replace (strip_prefix kBoundaryCRLF _) with (@None bytes) by done.
  rewrite strip_prefix_app. cbn [mbind option_bind]. change ([34] ++ ?x) with (34 :: x). rewrite read_quoted_encoded.
  cbn [mbind option_bind]. rewrite strip_prefix_app. cbn [mbind option_bind].
  rewrite find_empty_line by (by apply safe_chars). cbn [mbind option_bind]. by rewrite mime_field_decoded.
Qed.

Lemma split_joined boundary c0 cs fuel :
  13 ∉ boundary -> Forall (fun c => ~ occurs (delimiter boundary) c) (c0 :: cs) -> (length cs < fuel)%nat ->
  split_parts fuel (delimiter boundary) (c0 ++ concat (map (app (delimiter boundary)) cs)) = c0 :: cs.
Proof.
  intros Hb. revert c0 fuel. induction cs as [|c cs IH]; intros c0 [|fuel] [Hc0 Hcs]%Forall_cons Hf; cbn [length] in Hf; try lia.
  - cbn [map concat split_parts]. rewrite app_nil_r.
    by assert (find_first (delimiter boundary) c0 = None) as -> by (by apply find_first_None).
  - cbn [map concat split_parts]. rewrite <-app_assoc. change (delimiter boundary) with (13 :: 10 :: 45 :: 45 :: boundary) at 1 2.
    rewrite find_first_app by (done || set_solver). by rewrite IH by (done || lia).
Qed.

Lemma parse_message b :
  builder_ok b -> parse_multipart (boundary_ b) (body_left (GetBodyStream b)) = Some (builder_parts b).
Proof.
  intros Hok. destruct (message_chunks b Hok) as [_ E]. destruct Hok as [Hb Hform Hfiles].
  pose proof (boundary_chars _ Hb) as [H13 _]. unfold parse_multipart. fold (delimiter (boundary_ b)).
  pose proof (f_equal length E) as Hl. rewrite E.
  rewrite (split_joined (boundary_ b) [] (chunks b)); [|done| |].
  - unfold chunks. rewrite app_assoc, last_snoc, bool_decide_eq_true_2, removelast_last by done.
    unfold builder_parts. apply mapM_Some_2, Forall2_app; apply Forall2_fmap, Forall_Forall2_diag.
    + apply Forall_true. intros p. apply parse_form_chunk.
    + eapply Forall_impl; [exact Hfiles|]. intros p. apply parse_file_chunk.
  - constructor; [by intros (a & c & Ea); destruct a|]. unfold chunks. rewrite !Forall_app. split_and!.
    + apply Forall_fmap. eapply Forall_impl; [exact Hform|]. intros p [_ Hp]. by apply form_chunk_clean.
    + apply Forall_fmap. eapply Forall_impl; [exact Hfiles|]. intros p. apply file_chunk_clean.
    + apply Forall_singleton. intros (a & c & Ea). do 4 (destruct a as [|? a]; [discriminate Ea|injection Ea as _ Ea]).
      by destruct a.
  - rewrite length_app in Hl. assert (4 * length (chunks b) <= length (concat (map (app (delimiter (boundary_ b))) (chunks b))))%nat as Hc.
    { clear. induction (chunks b) as [|c l IH]; cbn [map concat length]; [lia|]. rewrite !length_app.
      change (length (delimiter (boundary_ b))) with (4 + length (boundary_ b))%nat. lia. }
    cbn [kCRLF length] in Hl. lia.
Qed.

(** *** Building a message *)

Lemma Forall_map_insert {V} (P : bytes * V -> Prop) k v m : Forall P m -> P (k, v) -> Forall P (map_insert k v m).
Proof.
  intros Hm Hk. induction Hm as [|[k' v'] m Hp Hm IH]; cbn [map_insert]; [by constructor|].
  destruct (string_ltb k k'); [by repeat constructor|]. destruct (decide (k = k')); by constructor.
Qed.
Lemma Forall_map_erase {V} (P : bytes * V -> Prop) k m : Forall P m -> Forall P (map_erase k m).
Proof. induction 1 as [|[k' v'] m Hp Hm IH]; cbn [map_erase]; [done|]. destruct (decide (k = k')); by try constructor. Qed.

(** The calls that give a builder its parts. *)
Inductive BuilderCall :=
  | set_form_data (key value : bytes)
  | set_file_attachment (key upload_file_name : bytes) (reader : R) (content_type : bytes).
Definition builder_call (b : HTTPMultipartBuilder R) (c : BuilderCall) : option (HTTPMultipartBuilder R) :=
  match c with
  | set_form_data key value => Some (SetFormData b key value)
  | set_file_attachment key name reader type => SetFileAttachment b key name reader type
  end.
Fixpoint builder_calls (b : HTTPMultipartBuilder R) (l : list BuilderCall) : option (HTTPMultipartBuilder R) :=
  match l with
  | [] => Some b
  | c :: l' => b' ← builder_call b c; builder_calls b' l'
  end.

Definition call_ok (boundary : bytes) (c : BuilderCall) : Prop :=
  match c with
  | set_form_data key value => 0 ∉ key /\ ~ occurs boundary value
  | set_file_attachment key name reader type =>
      0 ∉ key /\ 0 ∉ name /\ safe_mime_type type = true /\ reader_valid reader /\ ~ occurs boundary (remaining reader)
  end.

Lemma builder_call_ok b c :
  builder_ok b -> call_ok (boundary_ b) c ->
  exists b', builder_call b c = Some b' /\ builder_ok b' /\ boundary_ b' = boundary_ b.
Proof.
  intros [Hb Hform Hfiles] Hc. destruct c as [key value|key name reader type]; cbn [builder_call call_ok] in *.
  - eexists. split_and!; [done| |done]. split; cbn; [done| |by apply Forall_map_erase].
    by apply Forall_map_insert; [apply Forall_map_erase|].
  - destruct Hc as (Hk & Hn & Ht & Hr & Hc). unfold SetFileAttachment.
    set (type' := match type with [] => kOctetStream | _ => type end).
    assert (match type with [] => Some kOctetStream | _ => if safe_mime_type type then Some type else None end = Some type'
      /\ safe_mime_type type' = true) as [-> Ht'] by (destruct type; [done|by rewrite Ht]).
    cbn [mbind option_bind]. eexists. split_and!; [done| |done]. split; cbn; [done|by apply Forall_map_erase|].
    apply Forall_map_insert; [by apply Forall_map_erase|]. split; cbn; eauto.
Qed.
Lemma builder_calls_ok l b :
  builder_ok b -> Forall (call_ok (boundary_ b)) l ->
  exists b', builder_calls b l = Some b' /\ builder_ok b' /\ boundary_ b' = boundary_ b.
Proof.
  revert b. induction l as [|c l IH]; intros b Hb Hl; [by exists b|]. apply Forall_cons in Hl as [Hc Hl].
  destruct (builder_call_ok b c Hb Hc) as (b' & E & Hb' & Eb). cbn [builder_calls]. rewrite E. cbn [mbind option_bind].
  rewrite <-Eb in Hl |- *. by apply IH.
Qed.

Lemma generated_boundary rand :
  (forall i, rand i < length kCharacters)%nat -> forallb boundary_char (GenerateBoundaryString rand) = true.
Proof.
  intros Hr. unfold GenerateBoundaryString. rewrite !forallb_app. apply andb_true_iff. split; [done|].
  apply andb_true_iff. split; [|done]. apply forallb_forall. intros c (i & <- & _)%in_map_iff.
  assert (forallb boundary_char kCharacters = true) as Hk by done. rewrite forallb_forall in Hk. apply Hk, nth_In, Hr.
Qed.

(** *** What was set *)

(** The part that a call sets, under its key. *)
Definition call_key (c : BuilderCall) : bytes :=
  match c with set_form_data key _ => key | set_file_attachment key _ _ _ => key end.
Definition call_part (c : BuilderCall) : FormPart :=
  match c with
  | set_form_data key value => MkFormPart key None value
  | set_file_attachment key name reader type =>
      MkFormPart key (Some (name, match type with [] => kOctetStream | _ => type end)) (remaining reader)
  end.
(** The calls whose parts are not overwritten: no later call is for their key. *)
Fixpoint kept_calls (l : list BuilderCall) : list BuilderCall :=
  match l with
  | [] => []
  | c :: l' => if decide (call_key c ∈ map call_key l') then kept_calls l' else c :: kept_calls l'
  end.
(** Fields and files have different keys, and files are not named as the key of another part. *)
Definition keys_apart (c c' : BuilderCall) : Prop :=
  match c, c' with
  | set_file_attachment key name _ _, set_form_data key' _ => key' <> key /\ key' <> name
  | set_file_attachment key name _ _, set_file_attachment key' _ _ _ => key' = name -> key' = key
  | _, _ => True
  end.

Lemma kept_snoc l c : kept_calls (l ++ [c]) = filter (fun c' => call_key c' <> call_key c) (kept_calls l) ++ [c].
Proof.
  induction l as [|d l IH]; [by cbn; rewrite decide_False by apply not_elem_of_nil|].
  cbn [app kept_calls]. rewrite IH, map_app. cbn [map]. destruct (decide (call_key d ∈ map call_key l)) as [Hin|Hin].
  - by rewrite decide_True by (apply elem_of_app; by left).
  - rewrite filter_cons. destruct (decide (call_key d = call_key c)) as [E|E].
    + rewrite decide_True by (rewrite E; apply elem_of_app; right; left). by destruct (decide (call_key d <> call_key c)).
    + rewrite decide_False by (rewrite elem_of_app, list_elem_of_singleton; tauto). by rewrite decide_True.
Qed.
Lemma kept_elem l c : c ∈ kept_calls l -> c ∈ l.
Proof.
  induction l as [|d l IH]; cbn [kept_calls]; [done|]. destruct (decide _); rewrite ?elem_of_cons; naive_solver.
Qed.

(** Maps that are sorted stay so, and have one element for a key. *)
Definition key_lt {V} (a b : bytes * V) : Prop := string_ltb a.1 b.1 = true.
Lemma insert_sorted {V} k (v : V) m : StronglySorted key_lt m -> StronglySorted key_lt (map_insert k v m).
Proof.
  induction 1 as [|[k1 v1] m Hs IH Hm]; cbn [map_insert]; [repeat constructor|].
  destruct (string_ltb k k1) eqn:E; [|destruct (decide (k = k1)) as [<-|Hne]].
  - constructor; [by constructor|]. constructor; [done|]. eapply Forall_impl; [exact Hm|]. intros e He.
    by eapply string_ltb_trans.
  - by constructor.
  - constructor; [done|]. apply Forall_map_insert; [done|]. by apply string_ltb_total.
Qed.
Lemma erase_sorted {V} k (m : string_map V) : StronglySorted key_lt m -> StronglySorted key_lt (map_erase k m).
Proof.
  induction 1 as [|[k1 v1] m Hs IH Hm]; cbn [map_erase]; [constructor|]. destruct (decide (k = k1)); [done|].
  constructor; [done|]. by apply Forall_map_erase.
Qed.
Lemma erase_absent {V} k (m : string_map V) : k ∉ map fst m -> map_erase k m = m.
Proof.
  induction m as [|[k1 v1] m IH]; [done|]. cbn [map map_erase fst]. rewrite not_elem_of_cons. intros [Hk Hm].
  rewrite decide_False by done. by rewrite IH.
Qed.
Lemma erased {V} k (m : string_map V) : k ∉ map fst (map_erase k m).
Proof. rewrite <-map_find_In, map_find_erase, decide_True by done. by intros []. Qed.
Lemma above_absent {V} k (m : string_map V) : Forall (fun e => string_ltb k e.1 = true) m -> k ∉ map fst m.
Proof.
  intros Hm (e & -> & He)%list_elem_of_fmap. rewrite Forall_forall in Hm. specialize (Hm e He). by rewrite string_ltb_irrefl in Hm.
Qed.
Lemma insert_permutation {V} k (v : V) m : StronglySorted key_lt m -> map_insert k v m ≡ₚ (k, v) :: map_erase k m.
Proof.
  induction 1 as [|[k1 v1] m Hs IH Hm]; cbn [map_insert map_erase]; [done|].
  destruct (string_ltb k k1) eqn:E.
  - rewrite decide_False by (intros ->; by rewrite string_ltb_irrefl in E). rewrite erase_absent; [done|].
    apply above_absent. eapply Forall_impl; [exact Hm|]. intros e He. by eapply string_ltb_trans.
  - destruct (decide (k = k1)) as [<-|Hne]; [by rewrite erase_absent by (by apply above_absent)|].
    rewrite IH. apply Permutation_swap.
Qed.

Lemma erase_form_parts k m : map form_part (map_erase k m) = filter (fun p => fp_name p <> k) (map form_part m).
Proof.
  induction m as [|[k1 v1] m IH]; [done|]. cbn [map map_erase]. rewrite filter_cons. cbn [form_part fp_name fst].
  destruct (decide (k = k1)) as [<-|]; [by rewrite decide_False by auto|]. rewrite decide_True by done. by rewrite <-IH.
Qed.
Lemma erase_file_parts k m : map file_part (map_erase k m) = filter (fun p => fp_name p <> k) (map file_part m).
Proof.
  induction m as [|[k1 v1] m IH]; [done|]. cbn [map map_erase]. rewrite filter_cons. cbn [file_part fp_name fst].
  destruct (decide (k = k1)) as [<-|]; [by rewrite decide_False by auto|]. rewrite decide_True by done. by rewrite <-IH.
Qed.

(** The builder has the parts that these calls have set. *)
Record holds_calls (done : list BuilderCall) (b : HTTPMultipartBuilder R) : Prop := {
  hc_form : StronglySorted key_lt (form_data_ b);
  hc_files : StronglySorted key_lt (file_attachments_ b);
  hc_parts : builder_parts b ≡ₚ map call_part (kept_calls done)
}.

Lemma holds_form_key done b k :
  holds_calls done b -> k ∈ map fst (form_data_ b) -> exists v, set_form_data k v ∈ done.
Proof.
  intros [_ _ Hp] ([k1 v] & -> & Hin)%list_elem_of_fmap.
  assert (form_part (k1, v) ∈ map call_part (kept_calls done)) as ([|] & E & Hc)%list_elem_of_fmap; [|injection E as -> ->|done].
  - rewrite <-Hp. unfold builder_parts. apply elem_of_app. left. by apply list_elem_of_fmap_2.
  - exists value. by apply kept_elem.
Qed.
Lemma holds_file_key done b k :
  holds_calls done b -> k ∈ map fst (file_attachments_ b) -> exists n r t, set_file_attachment k n r t ∈ done.
Proof.
  intros [_ _ Hp] ([k1 a] & -> & Hin)%list_elem_of_fmap.
  assert (file_part (k1, a) ∈ map call_part (kept_calls done)) as ([|] & E & Hc)%list_elem_of_fmap; [|done|].
  - rewrite <-Hp. unfold builder_parts. apply elem_of_app. right. by apply list_elem_of_fmap_2.
  - injection E as -> _ _ _. do 3 eexists. by eapply kept_elem.
Qed.

Lemma holds_call done b c b' :
  holds_calls done b -> Forall (keys_apart c) done -> Forall (fun c' => keys_apart c' c) done ->
  builder_call b c = Some b' -> holds_calls (done ++ [c]) b'.
Proof.
  intros Hb Hc Hc' E. rewrite Forall_forall in Hc, Hc'. pose proof Hb as [Hf Ha Hp].
  assert (builder_parts b' ≡ₚ call_part c :: filter (fun p => fp_name p <> call_key c) (builder_parts b) /\
    StronglySorted key_lt (form_data_ b') /\ StronglySorted key_lt (file_attachments_ b')) as (Hparts & Hs1 & Hs2).
  - unfold builder_parts. rewrite filter_app, <-erase_form_parts, <-erase_file_parts.
    destruct c as [key value|key name reader type]; cbn [builder_call call_key call_part] in *.
    + injection E as <-. cbn. split_and!; [|by apply insert_sorted, erase_sorted|by apply erase_sorted].
      rewrite (insert_permutation key value) by (by apply erase_sorted). cbn. by rewrite (erase_absent key (map_erase key _)) by apply erased.
    + unfold SetFileAttachment in E. set (type' := match type with [] => kOctetStream | _ => type end).
      destruct (match type with [] => _ | _ => _ end) as [ty|] eqn:Ety; [|done]. injection E as <-. cbn.
      assert (ty = type') as -> by (unfold type'; destruct type; [congruence|]; destruct (safe_mime_type _); congruence).
      split_and!; [|by apply erase_sorted|by apply insert_sorted, erase_sorted].
      assert (forall k, k = key \/ k = name -> map_erase k (form_data_ b) = form_data_ b) as Hform.
      { intros k Hk. apply erase_absent. intros (v & Hin)%(holds_form_key _ _ _ Hb). specialize (Hc _ Hin). cbn in Hc. naive_solver. }
      rewrite !Hform by auto. rewrite insert_permutation by (by apply erase_sorted). cbn. unfold file_part at 1. cbn.
      rewrite mime_field_decoded.
      assert (map_erase key (map_erase name (file_attachments_ b)) = map_erase key (file_attachments_ b)) as ->.
      { destruct (decide (name = key)) as [->|Hne]; [by rewrite erase_absent by apply erased|].
        rewrite (erase_absent name); [done|]. intros (n & r & t & Hin)%(holds_file_key _ _ _ Hb). specialize (Hc _ Hin). cbn in Hc. naive_solver. }
      by rewrite <-Permutation_middle.
  - split; [done|done|]. rewrite Hparts, kept_snoc, map_app. cbn [map]. rewrite Permutation_app_comm. cbn. f_equiv.
    rewrite Hp. clear. induction (kept_calls done) as [|d l IH]; [done|]. cbn [map]. rewrite !filter_cons.
    assert (fp_name (call_part d) = call_key d) as -> by (by destruct d).
    destruct (decide (call_key d <> call_key c)); cbn [map]; by rewrite IH.
Qed.

Lemma holds_all done l b b' :
  holds_calls done b -> (forall c c', c ∈ done ++ l -> c' ∈ done ++ l -> keys_apart c c') ->
  builder_calls b l = Some b' -> holds_calls (done ++ l) b'.
Proof.
  revert done b. induction l as [|c l IH]; intros done b Hb Hk; cbn [builder_calls]; [intros [= <-]; by rewrite app_nil_r|].
  destruct (builder_call b c) as [b1|] eqn:E; [|done]. cbn. rewrite cons_middle, app_assoc. rewrite cons_middle, app_assoc in Hk.
  apply IH; [|done]. apply (holds_call _ b); [done| | |done]; apply Forall_forall; intros d Hd; apply Hk; set_solver.
Qed.

(** C18.  The message of a builder that was given fields and files by any sequence of
    calls, where names have no NUL characters, contents do not have the boundary in them,
    types are safe, no key is that of a field and of a file, and no file is named as the
    key of another part.  Read with buffers of any sizes the message comes out whole, and
    a server that reads it finds exactly the parts that were set last for their keys,
    each once, with the names, file names, types and contents of the calls. *)
Theorem multipart_round_trip (rand : nat -> nat) (calls : list BuilderCall) (sizes : list Z) :
  (forall i, rand i < length kCharacters)%nat -> Forall (call_ok (GenerateBoundaryString rand)) calls ->
  (forall c c', c ∈ calls -> c' ∈ calls -> keys_apart c c') ->
  Forall (fun n => 0 <= n <= max_result) sizes ->
  exists b, builder_calls (new_builder rand) calls = Some b /\
    exists l, read_body (GetBodyStream b) sizes = Some l /\
      (Z.of_nat (length (body_left (GetBodyStream b))) <= foldr Z.add 0 sizes ->
       exists parts, parse_multipart (boundary_ b) (concat l) = Some parts /\ parts ≡ₚ map call_part (kept_calls calls)).
Proof.
  intros Hr Hc Hk Hs. destruct (builder_calls_ok calls (new_builder rand)) as (b & E & Hb & _).
  { split; [by apply generated_boundary|constructor|constructor]. }
  { done. }
  exists b. split; [done|]. destruct (message_chunks b Hb) as [Hv _].
  exists (cut sizes (body_left (GetBodyStream b))). split; [by apply read_body_cut|]. intros Hl. exists (builder_parts b).
  rewrite concat_cut, take_ge by (lia || by eapply Forall_impl; [exact Hs|]; cbn; intros; lia). split; [by apply parse_message|].
  apply (hc_parts calls b). apply (holds_all [] calls (new_builder rand)); [split; [constructor|constructor|done]|done|done].
Qed.

(** The values of the fields, and the files, that are found after a call. *)
Lemma set_form_data_finds (b : HTTPMultipartBuilder R) key value k :
  map_find k (form_data_ (SetFormData b key value)) = (if decide (k = key) then Some value else map_find k (form_data_ b)) /\
  map_find k (file_attachments_ (SetFormData b key value)) =
    (if decide (k = key) then None else map_find k (file_attachments_ b)).
Proof.
  unfold SetFormData. cbn. rewrite map_find_insert, !map_find_erase. by destruct (decide (k = key)).
Qed.

(** A file that is attached under a key does not replace a field that has the key,
    unless the file is named so, too: the message then has two parts with the name. *)
Theorem attachment_keeps_field (b : HTTPMultipartBuilder R) key name reader type b' value :
  SetFileAttachment b key name reader type = Some b' -> key <> name -> map_find key (form_data_ b) = Some value ->
  map_find key (form_data_ b') = Some value /\ is_Some (map_find key (file_attachments_ b')) /\
  map_find name (form_data_ b') = None.
Proof.
  unfold SetFileAttachment. intros E Hne Hv. destruct (match type with [] => _ | _ => _ end) as [ty|]; [|done].
  injection E as <-. cbn. rewrite map_find_insert, !map_find_erase, decide_False, decide_True by done.
  split_and!; [done|by eexists|]. by rewrite decide_True.
Qed.
End Message.

(** ** URLs *)

Lemma find_first_char_None c s : find_first [c] s = None <-> c ∉ s.
Proof.
  rewrite find_first_None by done. split.
  - intros Hn Hc. apply list_elem_of_split in Hc as (a & b & ->). apply Hn. by exists a, b.
  - intros Hn (a & b & ->). apply Hn. set_solver.
Qed.
Lemma find_first_char c s a b : find_first [c] s = Some (a, b) <-> s = a ++ c :: b /\ c ∉ a.
Proof.
  split.
  - revert a. induction s as [|x s IH]; intros a; cbn [find_first strip_prefix]; [done|].
    destruct (Z.eqb_spec c x) as [->|Hx].
    + intros [= <- <-]. split; [done|apply not_elem_of_nil].
    + destruct (find_first [c] s) as [[a' b']|]; [|done]. cbn. intros [= <- <-]. destruct (IH a' eq_refl) as [-> Ha].
      split; [done|]. by apply not_elem_of_cons.
  - intros [-> Ha]. apply (find_first_app c [] a b); [apply not_elem_of_nil|].
    intros (x & y & ->). apply Ha. set_solver.
Qed.

(** A URL in its parts: the port is written in it, or it is that of the scheme. *)
Definition url_parts (url scheme host port rest : bytes) : Prop :=
  (scheme = str "http" \/ scheme = str "https") /\ 47 ∉ host /\ 58 ∉ host /\
  exists resource, rest = 47 :: resource /\
    ((url = scheme ++ str "://" ++ host ++ rest /\ port = (if decide (scheme = str "http") then str "80" else str "443")) \/
     (url = scheme ++ str "://" ++ host ++ 58 :: port ++ rest /\ 47 ∉ port)).

Lemma crack_spec s0 p0 after s h p r :
  crack_after s0 p0 after = Some (s, h, p, r) <->
  s = s0 /\ 47 ∉ h /\ 58 ∉ h /\
  exists resource, r = 47 :: resource /\
    ((after = h ++ r /\ p = p0) \/ (after = h ++ 58 :: p ++ r /\ 47 ∉ p)).
Proof.
  unfold crack_after. split.
  - destruct (find_first [47] after) as [[hp resource]|] eqn:E; [|done]. cbn [mbind option_bind].
    apply find_first_char in E as [-> Hhp]. destruct (find_first [58] hp) as [[host port]|] eqn:Ec; intros [= <- <- <- <-].
    + apply find_first_char in Ec as [-> Hh]. rewrite not_elem_of_app, not_elem_of_cons in Hhp. destruct Hhp as (H1 & _ & H2).
      split_and!; [done|done|done|]. exists resource. split; [done|]. right. by rewrite <-app_assoc.
    + apply find_first_char_None in Ec. split_and!; [done|done|done|]. exists resource. split; [done|]. by left.
  - intros (-> & Hh & Hc & resource & -> & [[-> ->]|[-> Hp]]).
    + rewrite (proj2 (find_first_char 47 _ h resource)) by done. cbn [mbind option_bind].
      by rewrite (proj2 (find_first_char_None 58 h)).
    + rewrite (proj2 (find_first_char 47 (h ++ 58 :: p ++ 47 :: resource) (h ++ 58 :: p) resource)).
      * cbn [mbind option_bind]. by rewrite (proj2 (find_first_char 58 (h ++ 58 :: p) h p)).
      * split; [by rewrite <-app_assoc|]. rewrite not_elem_of_app, not_elem_of_cons. done.
Qed.

(** [CrackURL] succeeds exactly for the URLs that are a scheme, which is [http] or
    [https], a host, possibly a port, and a resource, and returns these; the port of a
    URL without one is that of the scheme. *)
Theorem crack_url_iff url scheme host port rest :
  CrackURL url = Some (scheme, host, port, rest) <-> url_parts url scheme host port rest.
Proof.
  unfold CrackURL, url_parts. split.
  - destruct (strip_prefix (str "http://") url) as [after|] eqn:E1.
    + apply strip_prefix_Some in E1 as ->. rewrite crack_spec. intros (-> & Hh & Hc & resource & -> & Hr).
      split_and!; [by left|done|done|]. exists resource. split; [done|]. rewrite decide_True by done.
      destruct Hr as [[-> ->]|[-> Hp]]; [left|right]; (split; [|done]); reflexivity.
    + destruct (strip_prefix (str "https://") url) as [after|] eqn:E2; [|done].
      apply strip_prefix_Some in E2 as ->. rewrite crack_spec. intros (-> & Hh & Hc & resource & -> & Hr).
      split_and!; [by right|done|done|]. exists resource. split; [done|]. rewrite decide_False by done.
      destruct Hr as [[-> ->]|[-> Hp]]; [left|right]; (split; [|done]); reflexivity.
  - intros (Hs & Hh & Hc & resource & -> & Hr). destruct Hs as [->| ->].
    + assert (exists after, url = str "http://" ++ after /\ ((after = host ++ 47 :: resource /\ port = str "80") \/
        (after = host ++ 58 :: port ++ 47 :: resource /\ 47 ∉ port))) as (after & -> & Ha).
      { rewrite decide_True in Hr by done. destruct Hr as [[-> ->]|[-> Hp]]; eexists; (split; [reflexivity|]); auto. }
      rewrite strip_prefix_app. apply crack_spec. split_and!; eauto.
    + assert (exists after, url = str "https://" ++ after /\ ((after = host ++ 47 :: resource /\ port = str "443") \/
        (after = host ++ 58 :: port ++ 47 :: resource /\ 47 ∉ port))) as (after & -> & Ha).
      { rewrite decide_False in Hr by done. destruct Hr as [[-> ->]|[-> Hp]]; eexists; (split; [reflexivity|]); auto. }
      replace (strip_prefix (str "http://") _) with (@None bytes) by done.
      rewrite strip_prefix_app. apply crack_spec. split_and!; eauto.
Qed.

(** The characters that need no escape, and the one that starts an escape. *)
Definition url_char (c : Z) : Prop := is_alnum c = true \/ c ∈ kSafeCharacters ++ [37].

Lemma url_encode_char c :
  is_byte c -> Forall url_char (if is_alnum c || strchr kSafeCharacters c then [c] else percent true c) <-> c <> 0.
Proof.
  intros Hc. destruct (is_alnum c || strchr kSafeCharacters c) eqn:E.
  - rewrite Forall_singleton. split; [intros [Ha|Hs] ->|intros H0].
    + by vm_compute in Ha.
    + by apply (bool_decide_eq_true_2 (0 ∈ kSafeCharacters ++ [37])) in Hs; vm_compute in Hs.
    + apply orb_true_iff in E as [E|E]; [by left|right]. unfold strchr in E. apply bool_decide_eq_true in E. set_solver.
  - split; [intros _ ->; by vm_compute in E|]. intros _. unfold percent. unfold is_byte in Hc.
    assert (forall d, 0 <= d < 16 -> url_char (hex_digit true d)) as Hd.
    { intros d Hd. left. assert (Forall (fun d => is_alnum (hex_digit true d) = true) (seqZ 0 16)) as Ha by (repeat constructor).
      rewrite Forall_forall in Ha. apply Ha, elem_of_seqZ. lia. }
    apply Forall_cons; split; [right; set_solver|]. apply Forall_cons; split; [|apply Forall_singleton]; apply Hd.
    + pose proof (Z.div_lt_upper_bound c 16 16). pose proof (Z.div_pos c 16). lia.
    + pose proof (Z.mod_pos_bound c 16). lia.
Qed.

(** What [URLEncode] has encoded can be decoded, and it consists of unreserved
    characters and escapes, but for NUL characters: these are not escaped. *)
Theorem url_encode_correct url :
  Forall is_byte url -> percent_decode (URLEncode url) = url /\ (Forall url_char (URLEncode url) <-> 0 ∉ url).
Proof.
  intros Hu. split; [by apply url_encode_decoded|]. unfold URLEncode.
  induction Hu as [|c url Hc _ IH]; [split; [intros _; apply not_elem_of_nil|constructor]|].
  cbn [map concat]. rewrite Forall_app, IH, url_encode_char, not_elem_of_cons by done. naive_solver.
Qed.

(** ** Examples *)

Lemma url_encode_correct_witness :
  percent_decode (URLEncode (str "a b" ++ [0])) = str "a b" ++ [0] /\ ~ Forall url_char (URLEncode (str "a b" ++ [0])).
Proof.
  destruct (url_encode_correct (str "a b" ++ [0])) as [E Hn]; [apply (bool_decide_unpack _); by vm_compute|].
  split; [exact E|]. rewrite Hn. intros H0. apply H0. apply (bool_decide_unpack _). by vm_compute.
Defined.

Definition example_calls : list (BuilderCall (R := StringFile.t)) :=
  [set_form_data (str "ver") (str "0.9"); set_file_attachment (str "file") (str "a") (StringFile.Make (str "MDMP") 0) [];
   set_form_data (str "ver") (str "1.0")].

Lemma multipart_round_trip_witness :
  exists b, builder_calls (new_builder (fun _ => 0%nat)) example_calls = Some b /\
    exists l, read_body (GetBodyStream b) [7; 1000] = Some l /\
      exists parts, parse_multipart (boundary_ b) (concat l) = Some parts /\
        parts ≡ₚ [MkFormPart (str "file") (Some (str "a", kOctetStream)) (str "MDMP"); MkFormPart (str "ver") None (str "1.0")].
Proof.
  destruct (multipart_round_trip (fun _ => 0%nat) example_calls [7; 1000]) as (b & E & l & El & Hp).
  - intros i. vm_compute. lia.
  - repeat constructor; try (apply (bool_decide_unpack _); by vm_compute).
    all: rewrite <-find_first_None by done; by vm_compute.
  - unfold example_calls. intros c c' H1 H2. repeat (apply elem_of_cons in H1 as [->|H1]); try (by apply not_elem_of_nil in H1);
      repeat (apply elem_of_cons in H2 as [->|H2]); try (by apply not_elem_of_nil in H2); done.
  - repeat constructor; unfold max_result; lia.
  - exists b. split; [exact E|]. exists l. split; [exact El|].
    assert (b = default (new_builder (fun _ => 0%nat)) (builder_calls (new_builder (fun _ => 0%nat)) example_calls)) as Eb
      by (by rewrite E).
    apply Hp. rewrite Eb. vm_compute. congruence.
Defined.

Lemma attachment_keeps_field_witness :
  let b := SetFormData (new_builder (R := StringFile.t) (fun _ => 0%nat)) (str "k") (str "v") in
  exists b', SetFileAttachment b (str "k") (str "f") (StringFile.Make [] 0) [] = Some b' /\
    map_find (str "k") (form_data_ b') = Some (str "v") /\ is_Some (map_find (str "k") (file_attachments_ b')).
Proof.
  intros b. eexists. split; [reflexivity|].
  destruct (attachment_keeps_field b (str "k") (str "f") (StringFile.Make [] 0) [] _ (str "v") eq_refl) as (H1 & H2 & _);
    [discriminate|reflexivity|]. split; [exact H1|exact H2].
Defined.
