(* ===== verification/MinidumpStreams.v ===== *)
(** * Minidump streams (minidump/)

    The streams a minidump file consists of, each a class derived from
    [MinidumpStreamWriter], with the objects below it: memory regions and their
    list, threads, thread names, the exception, modules, unloaded modules,
    handles, memory information, user streams and the Crashpad information.  As
    in MinidumpObjects, [Freeze] builds the tree of frozen objects and is proved
    to build an [owned] one. *)

From S2P Require Import Prelude.
From S2P Require Import Numeric.
From S2P Require Import Structs.
From S2P Require Import CPUContext.
From S2P Require Import MinidumpContext.
From S2P Require Import FileIO.
From S2P Require Import Uuid.
From S2P Require Import MemoryRanges.
From S2P Require Import MinidumpWritable.
From S2P Require Import MinidumpObjects.

(** A stream as the file writer sees it: its type and its [Freeze]. *)
Record StreamWriter := MkStream { StreamType : Z; FreezeStream : Freezable }.

(** [MinidumpStreamType] (minidump_extensions.h). *)
Definition kMinidumpStreamTypeThreadList : Z := 3.
Definition kMinidumpStreamTypeModuleList : Z := 4.
Definition kMinidumpStreamTypeMemoryList : Z := 5.
Definition kMinidumpStreamTypeException : Z := 6.
Definition kMinidumpStreamTypeSystemInfo : Z := 7.
Definition kMinidumpStreamTypeHandleData : Z := 12.
Definition kMinidumpStreamTypeUnloadedModuleList : Z := 14.
Definition kMinidumpStreamTypeMiscInfo : Z := 15.
Definition kMinidumpStreamTypeMemoryInfoList : Z := 16.
Definition kMinidumpStreamTypeThreadNameList : Z := 24.
Definition kMinidumpStreamTypeCrashpadInfo : Z := 1129316353.

Lemma stream_slots_distinct p size write n :
  NoDup (writable_slots (stream_at p size write) ++ concat (replicate n (@nil slot))) /\
  Forall (fun s : slot => s.1 = p)
    (writable_slots (stream_at p size write) ++ concat (replicate n (@nil slot))).
Proof.
  rewrite concat_replicate_nil. simpl. split; [slots_distinct|repeat constructor].
Qed.

(** ** Crashpad information (minidump_crashpad_info_writer.cc) *)

Module MinidumpCrashpadInfoWriter.

(** [crashpad_info_] and its children; the directory entry is at field 0, and the
    location descriptors of [crashpad_info_] at the fields 2 and 4. *)
Record t := Make {
  report_id : UUID;
  client_id : UUID;
  address_mask : Z;
  simple_annotations_ : option MinidumpSimpleStringDictionaryWriter.t;
  module_list_ : option MinidumpModuleCrashpadInfoListWriter.t
}.

Definition kVersion : Z := 1.

Definition init : t := Make InitializeToZero InitializeToZero 0 None None.
Definition SetReportID (x : t) id :=
  Make id (client_id x) (address_mask x) (simple_annotations_ x) (module_list_ x).
Definition SetClientID (x : t) id :=
  Make (report_id x) id (address_mask x) (simple_annotations_ x) (module_list_ x).
Definition SetAddressMask (x : t) mask :=
  Make (report_id x) (client_id x) mask (simple_annotations_ x) (module_list_ x).
Definition SetSimpleAnnotations (x : t) d :=
  Make (report_id x) (client_id x) (address_mask x) (Some d) (module_list_ x).
Definition SetModuleList (x : t) l :=
  Make (report_id x) (client_id x) (address_mask x) (simple_annotations_ x) (Some l).

(** [InitializeFromSnapshot], of the parts of a process snapshot it reads. *)
Definition InitializeFromSnapshot (report client : UUID) (annotations : string_map bytes)
    (system_address_mask : option Z) (modules : list ModuleSnapshot) : t :=
  let x := SetClientID (SetReportID init report) client in
  let simple_annotations := MinidumpSimpleStringDictionaryWriter.InitializeFromMap annotations in
  let x := if MinidumpSimpleStringDictionaryWriter.IsUseful simple_annotations
           then SetSimpleAnnotations x simple_annotations else x in
  let x := match system_address_mask with Some mask => SetAddressMask x mask | None => x end in
  let modules := MinidumpModuleCrashpadInfoListWriter.InitializeFromSnapshot modules in
  if MinidumpModuleCrashpadInfoListWriter.IsUseful modules then SetModuleList x modules else x.

(** [IsUseful]. *)
Definition IsUseful (x : t) : bool :=
  negb (uuid_eqb (report_id x) InitializeToZero) || negb (uuid_eqb (client_id x) InitializeToZero) ||
  match simple_annotations_ x, module_list_ x with None, None => false | _, _ => true end.

(** [Children], with the fields of their descriptors. *)
Definition children (x : t) : list (option Freezable * nat) :=
  [(MinidumpSimpleStringDictionaryWriter.Freeze <$> simple_annotations_ x, 2%nat);
   (MinidumpModuleCrashpadInfoListWriter.Freeze <$> module_list_ x, 4%nat)].

(** The bytes of [crashpad_info_]. *)
Definition crashpad_info_bytes (x : t) (m : fields_map) (p : path) : bytes :=
  le_bytes 4 kVersion ++ uuid_bytes (report_id x) ++ uuid_bytes (client_id x) ++
  descriptor_bytes m (p, 2%nat) ++ descriptor_bytes m (p, 4%nat) ++ le_bytes 4 0 ++
  le_bytes 8 (address_mask x).

(** [Freeze], [SizeOfObject] and [WriteObject]. *)
Definition Freeze (x : t) (p : path) : option Tree :=
  let cs := present (children x) in
  match freeze_children p 0 (map fst cs) with
  | None => None
  | Some ts =>
      Some (Node (stream_at p 64 (fun m => WriteBuffer (crashpad_info_bytes x m p)))
        (register_descriptors p (map snd cs) ts))
  end.

Definition stream (x : t) : StreamWriter := MkStream kMinidumpStreamTypeCrashpadInfo (Freeze x).

Definition list_owned (x : t) : Prop :=
  forall l, module_list_ x = Some l -> MinidumpModuleCrashpadInfoListWriter.list_owned l.

Lemma crashpad_info_freeze_owned x : list_owned x -> freezes_owned (Freeze x).
Proof.
  intros Hx p t. unfold Freeze. destruct (freeze_children _ _ _) as [ts|] eqn:Ec; [|done].
  intros <-%(inj Some). apply freeze_present_adopted in Ec.
  2: { unfold children. forall_list ltac:(simpl; intros c [? [E ->]]%fmap_Some;
         first [by apply MinidumpSimpleStringDictionaryWriter.dictionary_freeze_owned
               |by apply MinidumpModuleCrashpadInfoListWriter.module_info_list_freeze_owned, Hx]). }
  destruct (field_pairs_distinct p (0%nat :: map snd (present (children x)))) as [Hn Hf].
  { unfold children. destruct (simple_annotations_ x), (module_list_ x); simpl;
      apply (bool_decide_unpack _); vm_compute; exact I. }
  class_owned (field_pairs p (map snd (present (children x)))); try done.
  apply stream_lawful. sized. unfold crashpad_info_bytes.
  by rewrite !length_app, !length_descriptor_bytes, !length_uuid_bytes, !length_le_bytes.
Qed.

Lemma crashpad_info_initialize_list_owned r c a s ms : list_owned (InitializeFromSnapshot r c a s ms).
Proof.
  intros l. unfold InitializeFromSnapshot.
  repeat case_match; simpl; intros [= <-];
    apply MinidumpModuleCrashpadInfoListWriter.module_info_list_initialize_list_owned.
Qed.

End MinidumpCrashpadInfoWriter.

(** ** Memory (minidump_memory_writer.cc) *)

(** Reading the memory of the process: [ProcessMemory::Read] of all the bytes, or
    failure. *)
Abbreviation process_memory := (Z -> Z -> option (list Z)) (only parsing).
Definition reads_exactly (memory : process_memory) : Prop :=
  forall a n d, memory a n = Some d -> Z.of_nat (length d) = n.

(** The bytes of a [MINIDUMP_MEMORY_DESCRIPTOR] whose fields start at [s]. *)
Definition memory_descriptor_bytes (m : fields_map) (s : slot) : bytes :=
  le_bytes 8 (field m s) ++ descriptor_bytes m (s.1, S s.2).

Lemma length_memory_descriptor_bytes m s : length (memory_descriptor_bytes m s) = 16%nat.
Proof.
  unfold memory_descriptor_bytes. by rewrite length_app, length_le_bytes, length_descriptor_bytes.
Qed.

Module SnapshotMinidumpMemoryWriter.

(** [RegisterMemoryDescriptor]: [WillWriteAtOffsetImpl] stores the address in the
    registered descriptor, the engine its location. *)
Definition RegisterMemoryDescriptor (snapshot : MemorySnapshot) (s : slot) (t : Tree) : Tree :=
  RegisterLocationDescriptor (s.1, S s.2)
    (with_root (fun w => MkWritable (address w) (SizeOfObject w) (Alignment w) (WritePhase w)
      (registered_rvas_ w) (registered_rva64s_ w) (registered_location_descriptors_ w)
      (registered_location_descriptor64s_ w)
      (fun o => match WillWriteAtOffsetImpl w o with
                | None => None
                | Some a =>
                    match AssignIfInRange uint64_t (mem_address snapshot) with
                    | None => None
                    | Some local_address => Some (a ++ [(s, local_address)])
                    end
                end) (WriteObject w)) t).

(** [Freeze], [Alignment], [SizeOfObject], [WritePhase] and [WriteObject]; the
    object's own [memory_descriptor_] is at field 0. *)
Definition Freeze (memory : process_memory) (snapshot : MemorySnapshot) (p : path) : option Tree :=
  Some (RegisterMemoryDescriptor snapshot (p, 0%nat)
    (Node (MkWritable p (mem_size snapshot) 16 kPhaseLate [] [] [] [] (fun _ => Some [])
      (fun _ => WriteMemory (memory (mem_address snapshot) (mem_size snapshot))
                  (Z.to_nat (mem_size snapshot)))) [])).

Lemma AssignIfInRange_address snapshot :
  snapshot_ok snapshot -> AssignIfInRange uint64_t (mem_address snapshot) = Some (mem_address snapshot).
Proof.
  intros (? & ? & ?). apply AssignIfInRange_Some; [done|]. split; [apply fits_spec; simpl; lia|done].
Qed.

(** The three fields of a memory descriptor. *)
Definition memory_descriptor_slots (s : slot) : list slot :=
  [s; (s.1, S s.2); (s.1, S (S s.2))].

Lemma registered_memory_descriptor snapshot S0 s t0 t :
  snapshot_ok snapshot -> lawful (root t0) -> registered S0 t0 t ->
  registered (memory_descriptor_slots s ++ S0) t0 (RegisterMemoryDescriptor snapshot s t).
Proof.
  intros Hs Hl0 [Hc Ha Hwr Hz Hl Hsl]. unfold RegisterMemoryDescriptor.
  destruct t as [w l], t0 as [w0 l0]. simpl in *.
  rewrite AssignIfInRange_address by done. pose proof (Hl Hl0) as (L1 & L2 & L3).
  assert (forall (i : list slot) a b c d, (i ++ [s]) ++ (a ++ descriptor_slots (b ++ [(s.1, S s.2)]))
    ++ c ++ d ≡ₚ memory_descriptor_slots s ++ i ++ (a ++ descriptor_slots b) ++ c ++ d) as Hperm.
  { intros. rewrite descriptor_slots_app. unfold memory_descriptor_slots. simpl.
    rewrite <-!app_assoc. simpl. by rewrite <-!Permutation_middle. }
  destruct L3 as [[a0 Ea0] L3].
  assert (impl_slots w = a0.*1) as Hi0 by (unfold impl_slots; by rewrite Ea0).
  split; simpl; [done..| |].
  - intros _. split_and!; [done|done|simpl; rewrite Ea0; by eauto|].
    intros o a. unfold impl_slots. simpl. rewrite Ea0. simpl.
    destruct (WillWriteAtOffsetImpl w o) as [a1|] eqn:E1; [|done]. intros [= <-].
    rewrite !fmap_app, (L3 _ _ E1), Hi0. done.
  - transitivity (memory_descriptor_slots s ++ writable_slots w); [|by rewrite Hsl].
    etrans; [|exact (Hperm (impl_slots w) _ _ _ _)].
    unfold writable_slots at 1. simpl. unfold impl_slots at 1. simpl. rewrite Ea0. simpl.
    rewrite fmap_app, Hi0. done.
Qed.

Lemma memory_freeze_owned memory snapshot :
  reads_exactly memory -> snapshot_ok snapshot -> freezes_owned (Freeze memory snapshot).
Proof.
  intros Hm Hs p t. unfold Freeze. set (w := MkWritable _ _ _ _ _ _ _ _ _ _).
  assert (lawful w) as Hw.
  { destruct Hs as (? & ? & ?). split_and!; simpl; [|split|eauto|by intros o a [= <-]].
    - split; simpl; unfold kMaximumAlignment; lia.
    - unfold object_bytes. simpl. destruct (memory _ _) as [d|] eqn:E; [by apply (Hm _ _ _ E)|].
      rewrite length_replicate. lia.
    - split; simpl; congruence. }
  intros <-%(inj Some).
  pose proof (registered_memory_descriptor snapshot [] (p, 0%nat) (Node w []) (Node w [])
    Hs Hw (registered_refl _)) as [Rc Ra _ _ Rl Rs].
  destruct (RegisterMemoryDescriptor _ _ _) as [w' l']. simpl in *. subst l'.
  apply (node_owned p w' []); [done|auto|constructor| |]; rewrite app_nil_r, Rs; simpl.
  - slots_distinct.
  - repeat constructor.
Qed.

End SnapshotMinidumpMemoryWriter.

Module MinidumpMemoryListWriter.

(** [non_owned_memory_writers_], with the address of each writer, and the
    snapshots of [children_]. *)
Record t := Make {
  non_owned_memory_writers_ : list (MemorySnapshot * path);
  children_ : list MemorySnapshot
}.

Definition init : t := Make [] [].

(** [AddMemory], [AddFromSnapshot] and [AddNonOwnedMemory]. *)
Definition AddMemory (x : t) (s : MemorySnapshot) : t :=
  Make (non_owned_memory_writers_ x) (children_ x ++ [s]).
Definition AddFromSnapshot (x : t) (memory_snapshots : list MemorySnapshot) : t :=
  fold_left AddMemory memory_snapshots x.
Definition AddNonOwnedMemory (x : t) (s : MemorySnapshot) (writer : path) : t :=
  Make (non_owned_memory_writers_ x ++ [(s, writer)]) (children_ x).

(** [all_memory_writers_]: the addresses of the writers in the list. *)
Definition all_memory_writers (x : t) (p : path) (n : nat) : list path :=
  map snd (non_owned_memory_writers_ x) ++ map (fun i => p ++ [i]) (seq 0 n).

(** [Freeze], [SizeOfObject], [Children] and [WriteObject]; a [Freeze] that runs
    into undefined behaviour has no result either. *)
Definition Freeze (memory : process_memory) (x : t) (p : path) : option Tree :=
  match CoalesceOwnedMemory (map fst (non_owned_memory_writers_ x)) (children_ x) with
  | None => None
  | Some children =>
      let all := all_memory_writers x p (length children) in
      match freeze_children p 0 (map (SnapshotMinidumpMemoryWriter.Freeze memory) children) with
      | None => None
      | Some ts =>
          match AssignIfInRange uint32_t (Z.of_nat (length all)) with
          | None => None
          | Some NumberOfMemoryRanges =>
              Some (Node (stream_at p (4 + Z.of_nat (length all) * 16)
                (fun m => WriteVectors (le_bytes 4 NumberOfMemoryRanges ::
                   map (fun q => memory_descriptor_bytes m (q, 0%nat)) all))) ts)
          end
      end
  end.

Definition stream (memory : process_memory) (x : t) : StreamWriter :=
  MkStream kMinidumpStreamTypeMemoryList (Freeze memory x).

Lemma length_memory_descriptors m (l : list path) :
  length (concat (map (fun q => memory_descriptor_bytes m (q, 0%nat)) l)) = (16 * length l)%nat.
Proof.
  induction l as [|q l IH]; [done|]. cbn [map concat length].
  rewrite length_app, IH, length_memory_descriptor_bytes. lia.
Qed.

Lemma memory_list_freeze_owned memory x :
  reads_exactly memory -> Forall snapshot_ok (children_ x) -> freezes_owned (Freeze memory x).
Proof.
  intros Hm Hx p t. unfold Freeze. destruct (CoalesceOwnedMemory _ _) as [cs|] eqn:Eco; [|done].
  apply coalesce_owned_ok in Eco; [|done].
  destruct (freeze_children p 0 _) as [ts|] eqn:Ec; [|done].
  destruct (AssignIfInRange _ _); [|done]. intros <-%(inj Some).
  apply freeze_children_adopted in Ec as [Ha _].
  2: { apply Forall_fmap. eapply Forall_impl; [exact Eco|]. intros s Hs.
       by apply SnapshotMinidumpMemoryWriter.memory_freeze_owned. }
  rewrite length_map in Ha.
  class_owned (replicate (length cs) (@nil slot)); try apply stream_slots_distinct; [|done].
  apply stream_lawful. sized. rewrite length_app, length_le_bytes, length_memory_descriptors. lia.
Qed.

End MinidumpMemoryListWriter.

(** ** Threads (minidump_thread_writer.cc, minidump_thread_id_map.cc) *)

(** The alignment of a context is one the layout supports. *)
Definition alignment_ok (w : MinidumpContextWriter) : Prop :=
  0 < context_alignment w <= kMaximumAlignment.

Lemma created_alignment c w : CreateFromSnapshot c = Some (Some w) -> alignment_ok w.
Proof.
  unfold alignment_ok, kMaximumAlignment, CreateFromSnapshot. destruct c; try discriminate.
  2: { destruct (MinidumpContextAMD64Writer.InitializeFromSnapshot c) as [x|]; [|discriminate].
       cbn [mbind option_bind]. destruct (MinidumpContextAMD64Writer.WriteObject x); [|discriminate].
       cbn [mbind option_bind]. intros [= <-]. cbn. lia. }
  all: intros <-%(inj Some)%(inj Some); cbn [context_alignment]; lia.
Qed.

(** [MinidumpContextWriter]: [Freeze], [SizeOfObject] and [WriteObject]. *)
Definition freeze_context (c : MinidumpContextWriter) (p : path) : option Tree :=
  Some (Node (MkWritable p (Z.of_nat (length (context_bytes c))) (context_alignment c) kPhaseEarly
    [] [] [] [] (fun _ => Some []) (fun _ => WriteBuffer (context_bytes c))) []).

Lemma freeze_context_owned c : alignment_ok c -> freezes_owned (freeze_context c).
Proof.
  intros Hc p t <-%(inj Some).
  class_owned (@nil (list slot)); [|constructor|constructor|constructor].
  split_and!; simpl; [|split; [done|split; simpl; congruence]|eauto|by intros o a [= <-]].
  split; simpl; [lia|done].
Qed.

(** [ThreadSnapshot] (snapshot/thread_snapshot.h). *)
Record ThreadSnapshot := MkThreadSnapshot {
  thr_context : CPUContext;
  thr_stack : option MemorySnapshot;
  thr_id : Z;
  thr_name : bytes;
  thr_suspend_count : Z;
  thr_priority : Z;
  thr_specific_data_address : Z;
  thr_extra_memory : list MemorySnapshot
}.

(** The first loop of [BuildMinidumpThreadIDMap]: [None] is a collision. *)
Fixpoint truncate_ids (ids : list Z) (map : gmap Z Z) (thread_ids_32 : gset Z) : option (gmap Z Z) :=
  match ids with
  | [] => Some map
  | thread_id_64 :: rest =>
      match map !! thread_id_64 with
      | Some _ => truncate_ids rest map thread_ids_32
      | None =>
          let thread_id_32 := u32 thread_id_64 in
          if decide (thread_id_32 ∈ thread_ids_32) then None
          else truncate_ids rest (<[thread_id_64 := thread_id_32]> map)
                 ({[thread_id_32]} ∪ thread_ids_32)
      end
  end.

(** The second loop; [None] is the failed [checked_cast] of the size of the map. *)
Fixpoint sequential_ids (ids : list Z) (map : gmap Z Z) : option (gmap Z Z) :=
  match ids with
  | [] => Some map
  | thread_id_64 :: rest =>
      match map !! thread_id_64 with
      | Some _ => sequential_ids rest map
      | None =>
          match AssignIfInRange uint32_t (Z.of_nat (size map)) with
          | None => None
          | Some thread_id_32 => sequential_ids rest (<[thread_id_64 := thread_id_32]> map)
          end
      end
  end.

(** [BuildMinidumpThreadIDMap], of the thread IDs of the snapshots. *)
Definition BuildMinidumpThreadIDMap (ids : list Z) : option (gmap Z Z) :=
  match truncate_ids ids ∅ ∅ with
  | Some map => Some map
  | None => sequential_ids ids ∅
  end.

Definition injective_map (m : gmap Z Z) : Prop :=
  forall a b v, m !! a = Some v -> m !! b = Some v -> a = b.

Lemma truncate_ids_spec ids map s m :
  (forall a v, map !! a = Some v -> v ∈ s /\ v = u32 a) -> injective_map map ->
  truncate_ids ids map s = Some m ->
  injective_map m /\ map ⊆ m /\ (forall a, a ∈ ids -> m !! a = Some (u32 a)).
Proof.
  revert map s. induction ids as [|a ids IH]; intros map s Hs Hi; simpl.
  { intros [= <-]. split_and!; [done|done|by intros a ?%not_elem_of_nil]. }
  destruct (map !! a) as [v|] eqn:Ea.
  - intros E. destruct (IH map s Hs Hi E) as (H1 & H2 & H3). split_and!; [done..|].
    intros b [->|Hb]%elem_of_cons; [|auto]. destruct (Hs _ _ Ea) as [_ ->].
    by eapply lookup_weaken.
  - case_decide as Hin; [done|]. intros E.
    apply IH in E as (H1 & H2 & H3).
    + split_and!; [done| |].
      * etrans; [|exact H2]. by apply insert_subseteq.
      * intros b [->|Hb]%elem_of_cons; [|auto]. eapply lookup_weaken; [|exact H2].
        apply lookup_insert_eq.
    + intros b v [[<- <-]|[_ Hb]]%lookup_insert_Some; [set_solver|].
      destruct (Hs _ _ Hb). set_solver.
    + intros b c v [[<- <-]|[_ Hb]]%lookup_insert_Some [[<- E']|[_ Hc]]%lookup_insert_Some.
      * done.
      * exfalso. apply Hin. by destruct (Hs _ _ Hc).
      * exfalso. apply Hin. rewrite E'. by destruct (Hs _ _ Hb).
      * by eapply Hi.
Qed.

Lemma sequential_ids_spec ids map m :
  (forall a v, map !! a = Some v -> 0 <= v < Z.of_nat (size map) /\ v < 2 ^ 32) ->
  injective_map map -> sequential_ids ids map = Some m ->
  injective_map m /\ map ⊆ m /\
  (forall a v, m !! a = Some v -> 0 <= v < Z.of_nat (size m) /\ v < 2 ^ 32) /\
  (forall a, a ∈ ids -> is_Some (m !! a)).
Proof.
  revert map. induction ids as [|a ids IH]; intros map Hs Hi; simpl.
  { intros [= <-]. split_and!; [done|done|done|by intros a ?%not_elem_of_nil]. }
  destruct (map !! a) as [v|] eqn:Ea.
  - intros E. destruct (IH map Hs Hi E) as (H1 & H2 & H3 & H4). split_and!; [done..|].
    intros b [->|Hb]%elem_of_cons; [|auto]. exists v. by eapply lookup_weaken.
  - destruct (AssignIfInRange _ _) as [id|] eqn:Eid; [|done].
    apply AssignIfInRange_Some in Eid as [Hfit ->]; [|done]. apply fits_spec in Hfit. simpl in Hfit.
    intros E. assert (size (<[a := Z.of_nat (size map)]> map) = S (size map)) as Hsz
      by (by apply map_size_insert_None).
    apply IH in E as (H1 & H2 & H3 & H4).
    + split_and!; [done| |done|].
      * etrans; [|exact H2]. by apply insert_subseteq.
      * intros b [->|Hb]%elem_of_cons; [|auto]. exists (Z.of_nat (size map)).
        eapply lookup_weaken; [|exact H2]. apply lookup_insert_eq.
    + rewrite Hsz. intros b v [[<- <-]|[_ Hb]]%lookup_insert_Some; [lia|].
      specialize (Hs _ _ Hb). lia.
    + intros b c v [[<- <-]|[_ Hb]]%lookup_insert_Some [[<- E']|[_ Hc]]%lookup_insert_Some.
      * done.
      * specialize (Hs _ _ Hc). lia.
      * specialize (Hs _ _ Hb). lia.
      * by eapply Hi.
Qed.

Lemma thread_id_map_spec (ids : list Z) (m : gmap Z Z) :
  BuildMinidumpThreadIDMap ids = Some m ->
  injective_map m /\ (forall a, a ∈ ids -> exists v, m !! a = Some v /\ 0 <= v < 2 ^ 32) /\
  (truncate_ids ids ∅ ∅ <> None -> forall a, a ∈ ids -> m !! a = Some (u32 a)).
Proof.
  unfold BuildMinidumpThreadIDMap. destruct (truncate_ids ids ∅ ∅) as [m'|] eqn:E.
  - intros [= <-]. apply truncate_ids_spec in E as (H1 & _ & H3); [|by intros ? ?|by intros ? ?].
    split_and!; [done| |auto]. intros a Ha. eexists. split; [by apply H3|]. by apply wrap_bound.
  - intros Es. apply sequential_ids_spec in Es as (H1 & _ & H3 & H4); [|by intros ? ?|by intros ? ?].
    split_and!; [done| |done]. intros a Ha. destruct (H4 a Ha) as [v Hv]. exists v.
    specialize (H3 _ _ Hv). split; [done|lia].
Qed.

Lemma sequential_ids_total ids map :
  Z.of_nat (size map + length ids) <= 2 ^ 32 -> is_Some (sequential_ids ids map).
Proof.
  revert map. induction ids as [|a ids IH]; intros map Hs; simpl; [eauto|]. simpl in Hs.
  destruct (map !! a) eqn:Ea; [apply IH; lia|].
  assert (AssignIfInRange uint32_t (Z.of_nat (size map)) = Some (Z.of_nat (size map))) as ->.
  { apply AssignIfInRange_Some; [done|]. split; [|done]. apply fits_spec. simpl. lia. }
  apply IH. rewrite map_size_insert_None by done. lia.
Qed.

(** The map of at most 2{^32} threads has all of them. *)
Lemma thread_id_map_total ids :
  Z.of_nat (length ids) <= 2 ^ 32 ->
  exists m, BuildMinidumpThreadIDMap ids = Some m /\ forall a, a ∈ ids -> is_Some (m !! a).
Proof.
  intros Hl. assert (is_Some (BuildMinidumpThreadIDMap ids)) as [m Em].
  { unfold BuildMinidumpThreadIDMap. destruct (truncate_ids ids ∅ ∅); [eauto|].
    apply sequential_ids_total. by rewrite map_size_empty. }
  exists m. split; [done|]. intros a Ha.
  destruct (thread_id_map_spec ids m Em) as (_ & H1 & _). destruct (H1 a Ha) as (v & Ev & _). eauto.
Qed.

(** [BuildMinidumpThreadIDMap] produces a map for up to 2{^32} threads:
    distinct 64-bit thread IDs have distinct 32-bit IDs, every thread of the
    process has one that fits, and IDs that are distinct after truncation are
    kept as they are. *)
Theorem thread_id_map_injective (ids : list Z) :
  Z.of_nat (length ids) <= 2 ^ 32 ->
  exists m, BuildMinidumpThreadIDMap ids = Some m /\
    injective_map m /\ (forall a, a ∈ ids -> exists v, m !! a = Some v /\ 0 <= v < 2 ^ 32) /\
    (truncate_ids ids ∅ ∅ <> None -> forall a, a ∈ ids -> m !! a = Some (u32 a)).
Proof.
  intros Hl. destruct (thread_id_map_total ids Hl) as (m & E & _). exists m.
  split; [done|]. by apply thread_id_map_spec.
Qed.

Lemma thread_id_map_injective_witness :
  exists m, BuildMinidumpThreadIDMap [4294967297; 1; 7; 1] = Some m /\ injective_map m /\
    m !! 4294967297 = Some 0 /\ m !! 1 = Some 1 /\ m !! 7 = Some 2.
Proof.
  destruct (thread_id_map_injective [4294967297; 1; 7; 1]) as (m & E & Hi & _);
    [vm_compute; congruence|].
  exists m. split; [exact E|]. split; [exact Hi|].
  assert (BuildMinidumpThreadIDMap [4294967297; 1; 7; 1] =
    Some (<[7 := 2]> (<[1 := 1]> (<[4294967297 := 0]> ∅)))) as E' by (vm_compute; reflexivity).
  rewrite E' in E. injection E as <-. split_and!; vm_compute; reflexivity.
Defined.

Module MinidumpThreadWriter.

(** [thread_], [stack_] and [context_]; [thread_.Stack] is at field 0 and
    [thread_.ThreadContext] at field 3. *)
Record t := Make {
  ThreadId : Z;
  SuspendCount : Z;
  PriorityClass : Z;
  Priority : Z;
  Teb : Z;
  stack_ : option MemorySnapshot;
  context_ : option MinidumpContextWriter
}.

(** [InitializeFromSnapshot]; [None] when the thread has no ID in the map or its
    context fails a DCHECK. *)
Definition InitializeFromSnapshot (s : ThreadSnapshot) (thread_id_map : gmap Z Z) : option t :=
  match thread_id_map !! thr_id s, CreateFromSnapshot (thr_context s) with
  | Some id, Some context =>
      Some (Make id (u32 (thr_suspend_count s)) 0 (u32 (thr_priority s))
              (thr_specific_data_address s)
              (match thr_stack s with
               | Some stack => if 0 <? mem_size stack then Some stack else None
               | None => None
               end)
              context)
  | _, _ => None
  end.

(** [MinidumpThread]: the bytes of [thread_]. *)
Definition thread_bytes (x : t) (m : fields_map) (p : path) : bytes :=
  le_bytes 4 (ThreadId x) ++ le_bytes 4 (SuspendCount x) ++ le_bytes 4 (PriorityClass x) ++
  le_bytes 4 (Priority x) ++ le_bytes 8 (Teb x) ++ memory_descriptor_bytes m (p, 0%nat) ++
  descriptor_bytes m (p, 3%nat).

(** [Freeze], [SizeOfObject], [Children] and [WriteObject]; a thread without a
    context fails the [CHECK]. *)
Definition Freeze (memory : process_memory) (x : t) (p : path) : option Tree :=
  match context_ x with
  | None => None
  | Some context =>
      let node := Node (object_at p 0 (fun _ => WriteNothing)) in
      match stack_ x with
      | None =>
          match freeze_children p 0 [freeze_context context] with
          | Some [c] => Some (node [RegisterLocationDescriptor (p, 3%nat) c])
          | _ => None
          end
      | Some stack =>
          match freeze_children p 0 [SnapshotMinidumpMemoryWriter.Freeze memory stack;
                                     freeze_context context] with
          | Some [s; c] =>
              Some (node [SnapshotMinidumpMemoryWriter.RegisterMemoryDescriptor stack (p, 0%nat) s;
                          RegisterLocationDescriptor (p, 3%nat) c])
          | _ => None
          end
      end
  end.

Definition thread_ok (x : t) : Prop :=
  (forall s, stack_ x = Some s -> snapshot_ok s) /\
  (forall c, context_ x = Some c -> alignment_ok c).

Lemma length_thread_bytes x m p : length (thread_bytes x m p) = 48%nat.
Proof.
  unfold thread_bytes. by rewrite !length_app, !length_le_bytes, length_descriptor_bytes,
    length_memory_descriptor_bytes.
Qed.

Lemma owned_root_lawful p t : owned p t -> lawful (root t).
Proof. intros []. destruct t. simpl in *. by apply Forall_cons in owned_lawful as [? _]. Qed.

Lemma thread_freeze_owned memory x :
  reads_exactly memory -> thread_ok x -> freezes_owned (Freeze memory x).
Proof.
  intros Hm [Hs Hc] p t. unfold Freeze. destruct (context_ x) as [c|]; [|done].
  specialize (Hc c eq_refl). destruct (stack_ x) as [s|].
  - specialize (Hs s eq_refl).
    destruct (freeze_children _ _ _) as [[|st [|co [|]]]|] eqn:Ec; try done.
    intros <-%(inj Some). apply freeze_children_adopted in Ec as [Ha _].
    2: { forall_list ltac:(first [by apply SnapshotMinidumpMemoryWriter.memory_freeze_owned
                                 |by apply freeze_context_owned]). }
    inversion Ha as [|? ? ? ? ? ? O1 R1 Ha']; subst.
    inversion Ha' as [|? ? ? ? ? ? O2 R2 Ha2]; subst.
    class_owned [SnapshotMinidumpMemoryWriter.memory_descriptor_slots (p, 0%nat) ++ [];
                 [(p, 3%nat); (p, 4%nat)]].
    + apply object_lawful. by sized.
    + econstructor; [exact O1| |].
      { apply SnapshotMinidumpMemoryWriter.registered_memory_descriptor; [done| |done].
        by eapply owned_root_lawful. }
      econstructor; [exact O2|by apply (registered_descriptor [] (p, 3%nat))|done].
    + simpl. slots_distinct.
    + repeat constructor.
  - destruct (freeze_children _ _ _) as [[|co [|]]|] eqn:Ec; try done.
    intros <-%(inj Some). apply freeze_children_adopted in Ec as [Ha _].
    2: { forall_list ltac:(by apply freeze_context_owned). }
    inversion Ha as [|? ? ? ? ? ? O2 R2 Ha2]; subst.
    class_owned [[(p, 3%nat); (p, 4%nat)]].
    + apply object_lawful. by sized.
    + econstructor; [exact O2|by apply (registered_descriptor [] (p, 3%nat))|done].
    + simpl. slots_distinct.
    + repeat constructor.
Qed.

End MinidumpThreadWriter.

(** Lists whose entries are written by the list and whose children, at
    [p ++ [i]], write nothing themselves. *)
Section Entries.
  Context {A : Type} (entry_bytes : A -> fields_map -> path -> bytes).

Fixpoint entries_bytes (m : fields_map) (p : path) (i : nat) (l : list A) : list bytes :=
  match l with
  | [] => []
  | x :: l' => entry_bytes x m (p ++ [i]) :: entries_bytes m p (S i) l'
  end.

Lemma length_entries_bytes k m p i l :
  (forall x m p, length (entry_bytes x m p) = k) ->
  length (concat (entries_bytes m p i l)) = (k * length l)%nat.
Proof.
  intros Hk. revert i; induction l as [|x l IH]; intros i; [simpl; lia|].
  cbn [entries_bytes concat length]. rewrite length_app, IH, Hk. lia.
Qed.

(** A list stream with a header and entries of [k] bytes. *)
Lemma entries_stream_owned (k : nat) (header : bytes) (freeze : A -> Freezable) p l ts :
  (forall x m p, length (entry_bytes x m p) = k) -> Forall (fun x => freezes_owned (freeze x)) l ->
  freeze_children p 0 (map freeze l) = Some ts ->
  owned p (Node (stream_at p (Z.of_nat (length header) + Z.of_nat (length l) * Z.of_nat k)
    (fun m => WriteVectors (header :: entries_bytes m p 0 l))) ts).
Proof.
  intros Hk Hl Ec. apply freeze_children_adopted in Ec as [Ha _]; [|by apply Forall_fmap].
  rewrite length_map in Ha.
  class_owned (replicate (length l) (@nil slot)); try apply stream_slots_distinct; [|done].
  apply stream_lawful. sized. rewrite length_app, (length_entries_bytes k) by done. lia.
Qed.

End Entries.

Module MinidumpThreadListWriter.

(** [threads_]. *)
Definition t := list MinidumpThreadWriter.t.

(** [AddThread], for the thread list at the address [this]: the stack is also
    added to the memory list, whose writer is the first child of the thread. *)
Definition AddThread (this : path) (threads_ : t) (memory_list : MinidumpMemoryListWriter.t)
    (thread : MinidumpThreadWriter.t) : t * MinidumpMemoryListWriter.t :=
  (threads_ ++ [thread],
   match MinidumpThreadWriter.stack_ thread with
   | None => memory_list
   | Some stack =>
       MinidumpMemoryListWriter.AddNonOwnedMemory memory_list stack
         (this ++ [length threads_; 0%nat])
   end).

(** The loop of [InitializeFromSnapshot] over the threads. *)
Fixpoint add_threads (this : path) (ids : gmap Z Z) (snapshots : list ThreadSnapshot)
    (acc : t * MinidumpMemoryListWriter.t) : option (t * MinidumpMemoryListWriter.t) :=
  match snapshots with
  | [] => Some acc
  | s :: rest =>
      match MinidumpThreadWriter.InitializeFromSnapshot s ids with
      | None => None
      | Some thread => add_threads this ids rest (AddThread this (fst acc) (snd acc) thread)
      end
  end.

(** [InitializeFromSnapshot], with [SetMemoryListWriter] called before. *)
Definition InitializeFromSnapshot (this : path) (snapshots : list ThreadSnapshot)
    (memory_list : MinidumpMemoryListWriter.t)
    : option (t * gmap Z Z * MinidumpMemoryListWriter.t) :=
  match BuildMinidumpThreadIDMap (map thr_id snapshots) with
  | None => None
  | Some ids =>
      match add_threads this ids snapshots ([], memory_list) with
      | None => None
      | Some (threads, memory_list) =>
          Some (threads, ids,
                fold_left (fun l s => MinidumpMemoryListWriter.AddFromSnapshot l (thr_extra_memory s))
                  snapshots memory_list)
      end
  end.

(** A thread whose stack and context can be written. *)
Definition snapshot_thread_ok (s : ThreadSnapshot) : Prop :=
  (forall m, thr_stack s = Some m -> snapshot_ok m) /\
  context_ok (thr_context s) = true /\ Forall snapshot_ok (thr_extra_memory s).

Lemma add_threads_total this ids snapshots acc :
  (forall s, s ∈ snapshots -> is_Some (ids !! thr_id s)) -> Forall snapshot_thread_ok snapshots ->
  Forall MinidumpThreadWriter.thread_ok (fst acc) ->
  exists acc', add_threads this ids snapshots acc = Some acc' /\
    Forall MinidumpThreadWriter.thread_ok (fst acc') /\
    MinidumpMemoryListWriter.children_ (snd acc') = MinidumpMemoryListWriter.children_ (snd acc).
Proof.
  revert acc. induction snapshots as [|s l IH]; intros acc Hs Hok Hacc; simpl; [eauto|].
  apply Forall_cons in Hok as [(Hst & Hco & _) Hok].
  unfold MinidumpThreadWriter.InitializeFromSnapshot. destruct (Hs s) as [id ->]; [left|].
  destruct (context_written _ Hco) as (w & Ew & _). rewrite Ew.
  set (th := MinidumpThreadWriter.Make _ _ _ _ _ _ _).
  destruct (IH (AddThread this (fst acc) (snd acc) th)) as (acc' & E & Hf & Hc); [|done| |].
  - intros s' Hs'. apply Hs. by right.
  - simpl. apply Forall_app_2; [done|]. constructor; [|constructor].
    split; simpl; [|by intros c <-%(inj Some); eapply created_alignment].
    intros m. destruct (thr_stack s) as [st|]; [|done].
    destruct (0 <? mem_size st); [|done]. intros [= <-]. by apply Hst.
  - exists acc'. split_and!; [done..|]. rewrite Hc. unfold AddThread. cbn [snd].
    by destruct (MinidumpThreadWriter.stack_ th).
Qed.

Lemma add_memory_children l x :
  MinidumpMemoryListWriter.children_ (MinidumpMemoryListWriter.AddFromSnapshot x l) =
  MinidumpMemoryListWriter.children_ x ++ l.
Proof.
  unfold MinidumpMemoryListWriter.AddFromSnapshot. revert x.
  induction l as [|s l IH]; intros x; simpl; [by rewrite app_nil_r|]. rewrite IH. simpl.
  by rewrite <-app_assoc.
Qed.

Lemma initialize_total this snapshots memory_list :
  Z.of_nat (length snapshots) <= 2 ^ 32 -> Forall snapshot_thread_ok snapshots ->
  Forall snapshot_ok (MinidumpMemoryListWriter.children_ memory_list) ->
  exists threads ids ml, InitializeFromSnapshot this snapshots memory_list = Some (threads, ids, ml) /\
    (forall s, s ∈ snapshots -> is_Some (ids !! thr_id s)) /\
    Forall MinidumpThreadWriter.thread_ok threads /\
    Forall snapshot_ok (MinidumpMemoryListWriter.children_ ml).
Proof.
  intros Hl Hok Hm. unfold InitializeFromSnapshot.
  destruct (thread_id_map_total (map thr_id snapshots)) as (ids & -> & Hids).
  { by rewrite length_map. }
  assert (forall s, s ∈ snapshots -> is_Some (ids !! thr_id s)) as Hs.
  { intros s Hs. apply Hids. by apply list_elem_of_fmap_2. }
  destruct (add_threads_total this ids snapshots ([], memory_list) Hs Hok)
    as ([threads ml] & -> & Hth & Hc); [constructor|].
  eexists _, _, _. split; [reflexivity|]. split; [done|]. split; [done|].
  simpl in Hc. rewrite <-Hc in Hm. clear Hc Hs Hids Hl Hth. revert ml Hm.
  induction Hok as [|s l (_ & _ & He) _ IH]; intros ml Hm; simpl; [done|].
  apply IH. rewrite add_memory_children. by apply Forall_app_2.
Qed.

(** [Freeze], [SizeOfObject], [Children] and [WriteObject]. *)
Definition Freeze (memory : process_memory) (x : t) (p : path) : option Tree :=
  match freeze_children p 0 (map (MinidumpThreadWriter.Freeze memory) x) with
  | None => None
  | Some ts =>
      match AssignIfInRange uint32_t (Z.of_nat (length x)) with
      | None => None
      | Some NumberOfThreads =>
          Some (Node (stream_at p (4 + Z.of_nat (length x) * 48)
            (fun m => WriteVectors (le_bytes 4 NumberOfThreads ::
               entries_bytes MinidumpThreadWriter.thread_bytes m p 0 x))) ts)
      end
  end.

Definition stream (memory : process_memory) (x : t) : StreamWriter :=
  MkStream kMinidumpStreamTypeThreadList (Freeze memory x).

Lemma thread_list_freeze_owned memory x :
  reads_exactly memory -> Forall MinidumpThreadWriter.thread_ok x ->
  freezes_owned (Freeze memory x).
Proof.
  intros Hm Hx p t. unfold Freeze. destruct (freeze_children _ _ _) as [ts|] eqn:Ec; [|done].
  destruct (AssignIfInRange _ _) as [n|]; [|done]. intros <-%(inj Some).
  apply (entries_stream_owned MinidumpThreadWriter.thread_bytes 48 (le_bytes 4 n)
    (MinidumpThreadWriter.Freeze memory)); [apply MinidumpThreadWriter.length_thread_bytes| |done].
  eapply Forall_impl; [exact Hx|]. intros y Hy. by apply MinidumpThreadWriter.thread_freeze_owned.
Qed.

End MinidumpThreadListWriter.

(** ** Thread names (minidump_thread_name_list_writer.cc) *)

Section ThreadNames.
  (** [base::UTF8ToUTF16]. *)
  Context (UTF8ToUTF16 : bytes -> bool * list Z).

(** [MinidumpThreadNameWriter]: [thread_id_] and [name_]; [rva_of_thread_name_]
    is the 64-bit field 0. *)
Record MinidumpThreadNameWriter := MkThreadName { tn_thread_id : Z; tn_name : bytes }.

(** [MinidumpThreadNameWriter::InitializeFromSnapshot]. *)
Definition thread_name_from_snapshot (s : ThreadSnapshot) (thread_id_map : gmap Z Z)
    : option MinidumpThreadNameWriter :=
  match thread_id_map !! thr_id s with
  | None => None
  | Some id => Some (MkThreadName id (thr_name s))
  end.

(** [MinidumpThreadNameWriter::Freeze], [SizeOfObject], [Children], [WriteObject]. *)
Definition freeze_thread_name (x : MinidumpThreadNameWriter) (p : path) : option Tree :=
  match freeze_children p 0
          [MinidumpStringWriter.Freeze (MinidumpUTF16StringWriter UTF8ToUTF16 (tn_name x))] with
  | Some [name] =>
      Some (Node (object_at p 0 (fun _ => WriteNothing)) [RegisterRVA64 (p, 0%nat) name])
  | _ => None
  end.

(** [MINIDUMP_THREAD_NAME]. *)
Definition thread_name_bytes (x : MinidumpThreadNameWriter) (m : fields_map) (p : path) : bytes :=
  le_bytes 4 (tn_thread_id x) ++ le_bytes 8 (field m (p, 0%nat)).

(** [MinidumpThreadNameListWriter::InitializeFromSnapshot]. *)
Fixpoint thread_names_from_snapshots (snapshots : list ThreadSnapshot) (thread_id_map : gmap Z Z)
    : option (list MinidumpThreadNameWriter) :=
  match snapshots with
  | [] => Some []
  | s :: rest =>
      match thread_name_from_snapshot s thread_id_map, thread_names_from_snapshots rest thread_id_map with
      | Some x, Some l => Some (x :: l)
      | _, _ => None
      end
  end.

Lemma thread_names_total snapshots ids :
  (forall s, s ∈ snapshots -> is_Some (ids !! thr_id s)) ->
  is_Some (thread_names_from_snapshots snapshots ids).
Proof.
  induction snapshots as [|s l IH]; intros Hs; simpl; [eauto|]. unfold thread_name_from_snapshot.
  destruct (Hs s) as [id ->]; [left|].
  destruct IH as [l' ->]; [intros s' Hs'; apply Hs; by right|eauto].
Qed.

(** [MinidumpThreadNameListWriter::Freeze], [SizeOfObject], [Children] and
    [WriteObject]. *)
Definition freeze_thread_names (l : list MinidumpThreadNameWriter) (p : path) : option Tree :=
  match freeze_children p 0 (map freeze_thread_name l) with
  | None => None
  | Some ts =>
      match AssignIfInRange uint32_t (Z.of_nat (length l)) with
      | None => None
      | Some NumberOfThreadNames =>
          Some (Node (stream_at p (4 + Z.of_nat (length l) * 12)
            (fun m => WriteVectors (le_bytes 4 NumberOfThreadNames ::
               entries_bytes thread_name_bytes m p 0 l))) ts)
      end
  end.

Definition thread_name_stream (l : list MinidumpThreadNameWriter) : StreamWriter :=
  MkStream kMinidumpStreamTypeThreadNameList (freeze_thread_names l).

Lemma freeze_thread_name_owned x : freezes_owned (freeze_thread_name x).
Proof.
  intros p t. unfold freeze_thread_name.
  destruct (freeze_children _ _ _) as [[|n [|]]|] eqn:Ec; try done.
  intros <-%(inj Some). apply freeze_children_adopted in Ec as [Ha _].
  2: { forall_list ltac:(apply MinidumpStringWriter.string_freeze_owned). }
  inversion Ha as [|? ? ? ? ? ? O2 R2 Ha2]; subst.
  class_owned [[(p, 0%nat)]].
  - apply object_lawful. by sized.
  - eauto with cp.
  - simpl. slots_distinct.
  - repeat constructor.
Qed.

Lemma freeze_thread_names_owned l : freezes_owned (freeze_thread_names l).
Proof.
  intros p t. unfold freeze_thread_names.
  destruct (freeze_children _ _ _) as [ts|] eqn:Ec; [|done].
  destruct (AssignIfInRange _ _) as [n|]; [|done]. intros <-%(inj Some).
  apply (entries_stream_owned thread_name_bytes 12 (le_bytes 4 n) freeze_thread_name); [| |done].
  - intros. unfold thread_name_bytes. by rewrite length_app, !length_le_bytes.
  - apply Forall_true. apply freeze_thread_name_owned.
Qed.

End ThreadNames.

(** ** The exception (minidump_exception_writer.cc) *)

(** [ExceptionSnapshot] (snapshot/exception_snapshot.h). *)
Record ExceptionSnapshot := MkExceptionSnapshot {
  exc_context : CPUContext;
  exc_thread_id : Z;
  exc_exception : Z;
  exc_exception_info : Z;
  exc_exception_address : Z;
  exc_codes : list Z;
  exc_extra_memory : list MemorySnapshot
}.

Module MinidumpExceptionWriter.

(** [exception_] and [context_]; the directory entry is at field 0 and
    [exception_.ThreadContext] at field 2. *)
Record t := Make {
  ThreadId : Z;
  ExceptionCode : Z;
  ExceptionFlags : Z;
  ExceptionRecord : Z;
  ExceptionAddress : Z;
  NumberParameters : Z;
  ExceptionInformation : list Z;
  context_ : option MinidumpContextWriter
}.

Definition EXCEPTION_MAXIMUM_PARAMETERS : nat := 15.

(** [SetExceptionInformation]: the number of parameters and the whole array; more
    than fit fail the [CHECK]. *)
Definition SetExceptionInformation (exception_information : list Z) : option (Z * list Z) :=
  let parameters := length exception_information in
  if (parameters <=? EXCEPTION_MAXIMUM_PARAMETERS)%nat
  then Some (Z.of_nat parameters,
             exception_information ++ replicate (EXCEPTION_MAXIMUM_PARAMETERS - parameters) 0)
  else None.

(** [InitializeFromSnapshot]. *)
Definition InitializeFromSnapshot (s : ExceptionSnapshot) (thread_id_map : gmap Z Z) : option t :=
  match thread_id_map !! exc_thread_id s, SetExceptionInformation (exc_codes s),
        CreateFromSnapshot (exc_context s) with
  | Some id, Some (n, info), Some context =>
      Some (Make id (exc_exception s) (exc_exception_info s) 0 (exc_exception_address s) n info
              context)
  | _, _, _ => None
  end.

(** The bytes of [exception_]. *)
Definition exception_bytes (x : t) (m : fields_map) (p : path) : bytes :=
  le_bytes 4 (ThreadId x) ++ le_bytes 4 0 ++ le_bytes 4 (ExceptionCode x) ++
  le_bytes 4 (ExceptionFlags x) ++ le_bytes 8 (ExceptionRecord x) ++
  le_bytes 8 (ExceptionAddress x) ++ le_bytes 4 (NumberParameters x) ++ le_bytes 4 0 ++
  concat (map (le_bytes 8) (ExceptionInformation x)) ++ descriptor_bytes m (p, 2%nat).

(** [Freeze], [SizeOfObject], [Children] and [WriteObject]. *)
Definition Freeze (x : t) (p : path) : option Tree :=
  match context_ x with
  | None => None
  | Some context =>
      match freeze_children p 0 [freeze_context context] with
      | Some [c] =>
          Some (Node (stream_at p 168 (fun m => WriteBuffer (exception_bytes x m p)))
                  [RegisterLocationDescriptor (p, 2%nat) c])
      | _ => None
      end
  end.

Definition stream (x : t) : StreamWriter := MkStream kMinidumpStreamTypeException (Freeze x).

Definition exception_ok (x : t) : Prop :=
  length (ExceptionInformation x) = EXCEPTION_MAXIMUM_PARAMETERS /\
  (forall c, context_ x = Some c -> alignment_ok c).

Lemma initialize_ok s ids x :
  InitializeFromSnapshot s ids = Some x -> exception_ok x.
Proof.
  unfold InitializeFromSnapshot, SetExceptionInformation.
  destruct (ids !! exc_thread_id s); [|done].
  destruct (Nat.leb_spec (length (exc_codes s)) EXCEPTION_MAXIMUM_PARAMETERS); [|done].
  destruct (CreateFromSnapshot (exc_context s)) as [w|] eqn:Ew; [|done].
  intros [= <-]. split; cbn [ExceptionInformation context_].
  - rewrite length_app, length_replicate. lia.
  - intros c ->. by eapply created_alignment.
Qed.

Lemma exception_freeze_owned x : exception_ok x -> freezes_owned (Freeze x).
Proof.
  intros [Hi Hc] p t. unfold Freeze. destruct (context_ x) as [c|]; [|done].
  destruct (freeze_children _ _ _) as [[|co [|]]|] eqn:Ec; try done.
  intros <-%(inj Some). apply freeze_children_adopted in Ec as [Ha _].
  2: { forall_list ltac:(by apply freeze_context_owned, Hc). }
  inversion Ha as [|? ? ? ? ? ? O2 R2 Ha2]; subst.
  class_owned [[(p, 2%nat); (p, 3%nat)]].
  - apply stream_lawful. sized. unfold exception_bytes.
    rewrite !length_app, !length_le_bytes, length_descriptor_bytes,
      MinidumpStringWriter.length_chars, Hi. done.
  - econstructor; [exact O2|by apply (registered_descriptor [] (p, 2%nat))|done].
  - simpl. slots_distinct.
  - repeat constructor.
Qed.

End MinidumpExceptionWriter.
