(* ===== verification/MinidumpModules.v ===== *)
(** * Minidump streams about modules, handles, memory and users' data (minidump/)

    The module list with the debug records of modules, the unloaded module list,
    the handle data, the memory information list and user streams, in the manner
    of MinidumpStreams. *)

From S2P Require Import Prelude.
From S2P Require Import Numeric.
From S2P Require Import FileIO.
From S2P Require Import Uuid.
From S2P Require Import MemoryRanges.
From S2P Require Import MinidumpWritable.
From S2P Require Import MinidumpObjects.
From S2P Require Import MinidumpStreams.

(** ** CodeView and miscellaneous debug records (minidump_module_writer.cc) *)

(** [MinidumpWriterUtil::AssignTimeT]. *)
Definition AssignTimeT (source : Z) : Z := u32 source.

(** The classes derived from [MinidumpModuleCodeViewRecordWriter], with the
    fields of their record. *)
Inductive CodeViewRecord :=
  | PDB20 (timestamp age : Z) (pdb_name : bytes)
  | PDB70 (uuid : UUID) (age : Z) (pdb_name : bytes)
  | BuildID (build_id : bytes).

Definition kSignaturePDB20 : Z := 808534606.
Definition kSignaturePDB70 : Z := 1396986706.
Definition kSignatureBuildID : Z := 1114654028.

(** [SetTimestampAndAge] of the PDB 2.0 record. *)
Definition pdb20_record (timestamp age : Z) (pdb_name : bytes) : CodeViewRecord :=
  PDB20 (AssignTimeT timestamp) age pdb_name.

(** [MinidumpModuleCodeViewRecordPDB70Writer::InitializeFromSnapshot]. *)
Definition pdb70_from_snapshot (s : ModuleSnapshot) : CodeViewRecord :=
  PDB70 (mod_uuid s) (mod_age s) (mod_debug_file_name s).

(** [WriteObject]: the record up to its variable part, and that part. *)
Definition codeview_vectors (r : CodeViewRecord) : list bytes :=
  match r with
  | PDB20 timestamp age pdb_name =>
      [le_bytes 4 kSignaturePDB20 ++ le_bytes 4 0 ++ le_bytes 4 timestamp ++ le_bytes 4 age;
       pdb_name ++ [0]]
  | PDB70 uuid age pdb_name =>
      [le_bytes 4 kSignaturePDB70 ++ uuid_bytes uuid ++ le_bytes 4 age; pdb_name ++ [0]]
  | BuildID build_id =>
      le_bytes 4 kSignatureBuildID :: match build_id with [] => [] | _ => [build_id] end
  end.

(** [SizeOfObject]. *)
Definition codeview_size (r : CodeViewRecord) : Z :=
  match r with
  | PDB20 _ _ pdb_name => 16 + (Z.of_nat (length pdb_name) + 1)
  | PDB70 _ _ pdb_name => 24 + (Z.of_nat (length pdb_name) + 1)
  | BuildID build_id => 4 + Z.of_nat (length build_id)
  end.

Definition freeze_codeview (r : CodeViewRecord) (p : path) : option Tree :=
  Some (Node (object_at p (codeview_size r) (fun _ => WriteVectors (codeview_vectors r))) []).

Lemma freeze_codeview_owned r : freezes_owned (freeze_codeview r).
Proof.
  intros p t <-%(inj Some).
  class_owned (@nil (list slot)); [|constructor|constructor|constructor].
  apply object_lawful. intros m. split; [|destruct r; split; simpl; congruence].
  unfold object_bytes, object_at. cbn [WriteObject SizeOfObject].
  destruct r as [ts age n|u age n|b]; cbn [codeview_vectors codeview_size concat].
  - rewrite !length_app, !length_le_bytes. simpl. lia.
  - rewrite !length_app, !length_le_bytes, length_uuid_bytes. simpl. lia.
  - destruct b; cbn [concat]; rewrite ?app_nil_r, ?length_app, !length_le_bytes; simpl; lia.
Qed.

(** [MinidumpModuleMiscDebugRecordWriter]: [DataType] and the data, as bytes or as
    UTF-16 ([image_debug_misc_.Unicode]). *)
Record MiscDebugRecord := MkMiscDebugRecord {
  mdr_data_type : Z;
  mdr_data : list Z;
  mdr_unicode : bool
}.

(** [SetData]. *)
Definition SetData (UTF8ToUTF16 : bytes -> bool * list Z) (data_type : Z) (data : bytes)
    (utf16 : bool) : MiscDebugRecord :=
  MkMiscDebugRecord data_type (if utf16 then snd (UTF8ToUTF16 data) else data) utf16.

Definition mdr_char_size (r : MiscDebugRecord) : nat := if mdr_unicode r then 2%nat else 1%nat.

(** [Freeze], [SizeOfObject] and [WriteObject]; a length that does not fit fails the
    [checked_cast]. *)
Definition freeze_misc_debug (r : MiscDebugRecord) (p : path) : option Tree :=
  let k := mdr_char_size r in
  match AssignIfInRange uint32_t (12 + (Z.of_nat (length (mdr_data r)) + 1) * Z.of_nat k) with
  | None => None
  | Some Length =>
      Some (Node (object_at p Length
        (fun _ => WriteVectors
          [le_bytes 4 (mdr_data_type r) ++ le_bytes 4 Length ++
           le_bytes 1 (if mdr_unicode r then 1 else 0) ++ replicate 3 0;
           take (Z.to_nat (Length - 12)) (concat (map (le_bytes k) (mdr_data r ++ [0])))])) [])
  end.

Lemma freeze_misc_debug_owned r : freezes_owned (freeze_misc_debug r).
Proof.
  intros p t. unfold freeze_misc_debug. destruct (AssignIfInRange _ _) as [n|] eqn:E; [|done].
  apply AssignIfInRange_Some in E as [_ ->]; [|done]. intros <-%(inj Some).
  class_owned (@nil (list slot)); [|constructor|constructor|constructor].
  apply object_lawful. sized.
  rewrite !length_app, !length_le_bytes, length_take, MinidumpStringWriter.length_chars.
  rewrite length_app, length_replicate. cbn [length]. lia.
Qed.

(** ** Modules *)

Section Modules.
  (** [base::UTF8ToUTF16]. *)
  Context (UTF8ToUTF16 : bytes -> bool * list Z).

Definition VS_FFI_SIGNATURE : Z := 4277077181.
Definition VS_FFI_STRUCVERSION : Z := 65536.
Definition VFT_UNKNOWN : Z := 0.
Definition VFT_APP : Z := 1.
Definition VFT_DLL : Z := 2.
Definition VFT2_UNKNOWN : Z := 0.

(** [MinidumpModuleWriter]: [module_] and the objects below it; [ModuleNameRva] is
    at field 0, [CvRecord] at field 1 and [MiscRecord] at field 3. *)
Record MinidumpModuleWriter := MkModule {
  mw_base_of_image : Z;
  mw_size_of_image : Z;
  mw_checksum : Z;
  mw_time_date_stamp : Z;
  mw_file_version : Z * Z;
  mw_product_version : Z * Z;
  mw_file_flags_and_mask : Z * Z;
  mw_file_os : Z;
  mw_file_type_and_subtype : Z * Z;
  mw_name : bytes;
  mw_codeview_record : option CodeViewRecord;
  mw_misc_debug_record : option MiscDebugRecord
}.

(** [SetFileVersion] and [SetProductVersion]: the most and least significant
    words. *)
Definition version_words (v : Z * Z * Z * Z) : Z * Z :=
  let '(v0, v1, v2, v3) := v in
  (Z.lor (u32 (Z.shiftl v0 16)) v1, Z.lor (u32 (Z.shiftl v2 16)) v3).

(** [InitializeFromSnapshot]. *)
Definition module_from_snapshot (s : ModuleSnapshot) : MinidumpModuleWriter :=
  MkModule (mod_address s)
    (InRangeCast uint32_t (mod_size s) (2 ^ 32 - 1))
    0
    (AssignTimeT (mod_timestamp s))
    (version_words (mod_file_version s))
    (version_words (mod_source_version s))
    (0, 0)
    0
    (match mod_type s with
     | kModuleTypeExecutable => VFT_APP
     | kModuleTypeSharedLibrary | kModuleTypeLoadableModule => VFT_DLL
     | _ => VFT_UNKNOWN
     end, VFT2_UNKNOWN)
    (mod_name s)
    (Some (match mod_build_id s with
           | [] => pdb70_from_snapshot s
           | build_id => BuildID build_id
           end))
    None.

(** [MinidumpModule]: the bytes of [module_]. *)
Definition module_entry_bytes (x : MinidumpModuleWriter) (m : fields_map) (p : path) : bytes :=
  le_bytes 8 (mw_base_of_image x) ++ le_bytes 4 (mw_size_of_image x) ++
  le_bytes 4 (mw_checksum x) ++ le_bytes 4 (mw_time_date_stamp x) ++
  le_bytes 4 (field m (p, 0%nat)) ++
  le_bytes 4 VS_FFI_SIGNATURE ++ le_bytes 4 VS_FFI_STRUCVERSION ++
  le_bytes 4 (fst (mw_file_version x)) ++ le_bytes 4 (snd (mw_file_version x)) ++
  le_bytes 4 (fst (mw_product_version x)) ++ le_bytes 4 (snd (mw_product_version x)) ++
  le_bytes 4 (snd (mw_file_flags_and_mask x)) ++ le_bytes 4 (fst (mw_file_flags_and_mask x)) ++
  le_bytes 4 (mw_file_os x) ++
  le_bytes 4 (fst (mw_file_type_and_subtype x)) ++ le_bytes 4 (snd (mw_file_type_and_subtype x)) ++
  le_bytes 8 0 ++
  descriptor_bytes m (p, 1%nat) ++ descriptor_bytes m (p, 3%nat) ++ le_bytes 16 0.

(** The optional [Children], with the fields of their descriptors. *)
Definition module_children (x : MinidumpModuleWriter) : list (option Freezable * nat) :=
  [(freeze_codeview <$> mw_codeview_record x, 1%nat);
   (freeze_misc_debug <$> mw_misc_debug_record x, 3%nat)].

(** [Freeze], [SizeOfObject], [Children] and [WriteObject]. *)
Definition freeze_module (x : MinidumpModuleWriter) (p : path) : option Tree :=
  let cs := present (module_children x) in
  match freeze_children p 0
          (MinidumpStringWriter.Freeze (MinidumpUTF16StringWriter UTF8ToUTF16 (mw_name x)) ::
           map fst cs) with
  | Some (name :: ts) =>
      Some (Node (object_at p 0 (fun _ => WriteNothing))
        (RegisterRVA (p, 0%nat) name :: register_descriptors p (map snd cs) ts))
  | _ => None
  end.

(** [MinidumpModuleListWriter]: [InitializeFromSnapshot]; [Freeze], [SizeOfObject],
    [Children] and [WriteObject]. *)
Definition modules_from_snapshots (l : list ModuleSnapshot) : list MinidumpModuleWriter :=
  map module_from_snapshot l.
Definition freeze_module_list (l : list MinidumpModuleWriter) (p : path) : option Tree :=
  match freeze_children p 0 (map freeze_module l) with
  | None => None
  | Some ts =>
      match AssignIfInRange uint32_t (Z.of_nat (length l)) with
      | None => None
      | Some NumberOfModules =>
          Some (Node (stream_at p (4 + Z.of_nat (length l) * 108)
            (fun m => WriteVectors (le_bytes 4 NumberOfModules ::
               entries_bytes module_entry_bytes m p 0 l))) ts)
      end
  end.
Definition module_list_stream (l : list MinidumpModuleWriter) : StreamWriter :=
  MkStream kMinidumpStreamTypeModuleList (freeze_module_list l).

Lemma freeze_module_owned x : freezes_owned (freeze_module x).
Proof.
  intros p t. unfold freeze_module. cbn [freeze_children].
  destruct (MinidumpStringWriter.Freeze _ _) as [name|] eqn:En; [|done].
  destruct (freeze_children p 1 _) as [ts|] eqn:Ec; [|done]. intros <-%(inj Some).
  apply MinidumpStringWriter.string_freeze_owned in En. apply freeze_present_adopted in Ec.
  2: { unfold module_children. forall_list ltac:(simpl; intros c [? [E ->]]%fmap_Some;
         first [by apply freeze_codeview_owned|by apply freeze_misc_debug_owned]). }
  set (ks := map snd (present (module_children x))) in *.
  assert (NoDup ((p, 0%nat) :: concat (field_pairs p ks)) /\
    Forall (fun s : slot => s.1 = p) ((p, 0%nat) :: concat (field_pairs p ks))) as [Hn Hf].
  { unfold ks, module_children. destruct (mw_codeview_record x), (mw_misc_debug_record x); simpl;
      (split; [slots_distinct|repeat constructor]). }
  class_owned ([(p, 0%nat)] :: field_pairs p ks); try done.
  - apply object_lawful. by sized.
  - econstructor; [exact En|apply registered_rva, registered_refl|done].
Qed.

Lemma freeze_module_list_owned l : freezes_owned (freeze_module_list l).
Proof.
  intros p t. unfold freeze_module_list.
  destruct (freeze_children _ _ _) as [ts|] eqn:Ec; [|done].
  destruct (AssignIfInRange _ _) as [n|]; [|done]. intros <-%(inj Some).
  apply (entries_stream_owned module_entry_bytes 108 (le_bytes 4 n) freeze_module); [| |done].
  - intros. unfold module_entry_bytes.
    by rewrite !length_app, !length_descriptor_bytes, !length_le_bytes.
  - apply Forall_true. apply freeze_module_owned.
Qed.

(** ** Unloaded modules (minidump_unloaded_module_writer.cc) *)

(** [UnloadedModuleSnapshot] (snapshot/unloaded_module_snapshot.h). *)
Record UnloadedModuleSnapshot := MkUnloadedModuleSnapshot {
  um_name : bytes;
  um_address : Z;
  um_size : Z;
  um_checksum : Z;
  um_timestamp : Z
}.

(** [MinidumpUnloadedModuleWriter]: [unloaded_module_] and [name_];
    [ModuleNameRva] is at field 0. *)
Record MinidumpUnloadedModuleWriter := MkUnloadedModule {
  umw_base_of_image : Z;
  umw_size_of_image : Z;
  umw_checksum : Z;
  umw_time_date_stamp : Z;
  umw_name : bytes
}.

(** [InitializeFromSnapshot]. *)
Definition unloaded_module_from_snapshot (s : UnloadedModuleSnapshot) : MinidumpUnloadedModuleWriter :=
  MkUnloadedModule (um_address s) (InRangeCast uint32_t (um_size s) (2 ^ 32 - 1)) (um_checksum s)
    (AssignTimeT (um_timestamp s)) (um_name s).

(** [MinidumpUnloadedModule]: the bytes of [unloaded_module_]. *)
Definition unloaded_module_bytes (x : MinidumpUnloadedModuleWriter) (m : fields_map) (p : path) : bytes :=
  le_bytes 8 (umw_base_of_image x) ++ le_bytes 4 (umw_size_of_image x) ++
  le_bytes 4 (umw_checksum x) ++ le_bytes 4 (umw_time_date_stamp x) ++
  le_bytes 4 (field m (p, 0%nat)).

(** [Freeze], [SizeOfObject], [Children] and [WriteObject]. *)
Definition freeze_unloaded_module (x : MinidumpUnloadedModuleWriter) (p : path) : option Tree :=
  match freeze_children p 0
          [MinidumpStringWriter.Freeze (MinidumpUTF16StringWriter UTF8ToUTF16 (umw_name x))] with
  | Some [name] =>
      Some (Node (object_at p 0 (fun _ => WriteNothing)) [RegisterRVA (p, 0%nat) name])
  | _ => None
  end.

(** [MinidumpUnloadedModuleListWriter]: [InitializeFromSnapshot]; [Freeze],
    [SizeOfObject], [Children] and [WriteObject]. *)
Definition unloaded_modules_from_snapshots (l : list UnloadedModuleSnapshot)
    : list MinidumpUnloadedModuleWriter := map unloaded_module_from_snapshot l.
Definition freeze_unloaded_module_list (l : list MinidumpUnloadedModuleWriter) (p : path)
    : option Tree :=
  match freeze_children p 0 (map freeze_unloaded_module l) with
  | None => None
  | Some ts =>
      match AssignIfInRange uint32_t (Z.of_nat (length l)) with
      | None => None
      | Some NumberOfEntries =>
          Some (Node (stream_at p (12 + Z.of_nat (length l) * 24)
            (fun m => WriteVectors
               ((le_bytes 4 12 ++ le_bytes 4 24 ++ le_bytes 4 NumberOfEntries) ::
                entries_bytes unloaded_module_bytes m p 0 l))) ts)
      end
  end.
Definition unloaded_module_stream (l : list MinidumpUnloadedModuleWriter) : StreamWriter :=
  MkStream kMinidumpStreamTypeUnloadedModuleList (freeze_unloaded_module_list l).

Lemma freeze_unloaded_module_owned x : freezes_owned (freeze_unloaded_module x).
Proof.
  intros p t. unfold freeze_unloaded_module.
  destruct (freeze_children _ _ _) as [[|n [|]]|] eqn:Ec; try done.
  intros <-%(inj Some). apply freeze_children_adopted in Ec as [Ha _].
  2: { forall_list ltac:(apply MinidumpStringWriter.string_freeze_owned). }
  inversion Ha as [|? ? ? ? ? ? O2 R2 Ha2]; subst.
  class_owned [[(p, 0%nat)]].
  - apply object_lawful. by sized.
  - eauto with cp.
  - simpl. slots_distinct.
  - repeat constructor.
Qed.

Lemma freeze_unloaded_module_list_owned l : freezes_owned (freeze_unloaded_module_list l).
Proof.
  intros p t. unfold freeze_unloaded_module_list.
  destruct (freeze_children _ _ _) as [ts|] eqn:Ec; [|done].
  destruct (AssignIfInRange _ _) as [n|]; [|done]. intros <-%(inj Some).
  apply (entries_stream_owned unloaded_module_bytes 24
    (le_bytes 4 12 ++ le_bytes 4 24 ++ le_bytes 4 n) freeze_unloaded_module); [| |done].
  - intros. unfold unloaded_module_bytes. by rewrite !length_app, !length_le_bytes.
  - apply Forall_true. apply freeze_unloaded_module_owned.
Qed.

End Modules.

(** ** Handles (minidump_handle_writer.cc) *)

(** [HandleSnapshot] (snapshot/handle_snapshot.h). *)
Record HandleSnapshot := MkHandleSnapshot {
  hs_type_name : bytes;
  hs_handle : Z;
  hs_attributes : Z;
  hs_granted_access : Z;
  hs_pointer_count : Z;
  hs_handle_count : Z
}.

Section Handles.
  (** [base::UTF8ToUTF16]. *)
  Context (UTF8ToUTF16 : bytes -> bool * list Z).

(** [MinidumpHandleDataWriter]: [handle_descriptors_], and [strings_] with, for
    each type name, the descriptors whose [TypeNameRva] is registered with its
    writer.  The directory entry is at field 0 and the [TypeNameRva] of the
    [i]-th descriptor at field [2 + i]. *)
Record MinidumpHandleDataWriter := MkHandleData {
  hd_descriptors : list HandleSnapshot;
  hd_strings : string_map (list nat)
}.

(** The loop of [InitializeFromSnapshot]: a string is shared by the handles of
    the same type, and an empty one has no string. *)
Fixpoint add_handles (strings_ : string_map (list nat)) (i : nat) (l : list HandleSnapshot)
    : string_map (list nat) :=
  match l with
  | [] => strings_
  | s :: rest =>
      let strings_ :=
        match hs_type_name s with
        | [] => strings_
        | name =>
            match map_find name strings_ with
            | Some registered => map_insert name (registered ++ [i]) strings_
            | None => map_insert name [i] strings_
            end
        end in
      add_handles strings_ (S i) rest
  end.

(** [InitializeFromSnapshot]. *)
Definition handles_from_snapshots (l : list HandleSnapshot) : MinidumpHandleDataWriter :=
  MkHandleData l (add_handles [] 0 l).

(** The bytes of the [i]-th descriptor; [TypeNameRva] is 0 unless registered, and
    [ObjectNameRva] is 0. *)
Fixpoint handle_descriptors_bytes (m : fields_map) (p : path) (i : nat) (l : list HandleSnapshot)
    : list bytes :=
  match l with
  | [] => []
  | s :: rest =>
      (le_bytes 8 (hs_handle s) ++ le_bytes 4 (field m (p, (2 + i)%nat)) ++ le_bytes 4 0 ++
       le_bytes 4 (hs_attributes s) ++ le_bytes 4 (hs_granted_access s) ++
       le_bytes 4 (hs_handle_count s) ++ le_bytes 4 (hs_pointer_count s)) ::
      handle_descriptors_bytes m p (S i) rest
  end.

(** Registration of the descriptors with the string of their type. *)
Definition register_rvas (p : path) (idxs : list nat) (t : Tree) : Tree :=
  fold_left (fun t i => RegisterRVA (p, (2 + i)%nat) t) idxs t.
Fixpoint register_strings (p : path) (strings_ : string_map (list nat)) (ts : list Tree) : list Tree :=
  match strings_, ts with
  | (_, idxs) :: strings', t :: ts' => register_rvas p idxs t :: register_strings p strings' ts'
  | _, _ => []
  end.

(** [Freeze], [SizeOfObject], [Children] and [WriteObject]. *)
Definition freeze_handles (x : MinidumpHandleDataWriter) (p : path) : option Tree :=
  match freeze_children p 0
          (map (fun ns => MinidumpStringWriter.Freeze
                            (MinidumpUTF16StringWriter UTF8ToUTF16 (fst ns))) (hd_strings x)) with
  | None => None
  | Some ts =>
      match AssignIfInRange uint32_t (Z.of_nat (length (hd_descriptors x))) with
      | None => None
      | Some NumberOfDescriptors =>
          Some (Node (stream_at p (16 + 32 * Z.of_nat (length (hd_descriptors x)))
            (fun m => WriteVectors
              ((le_bytes 4 16 ++ le_bytes 4 32 ++ le_bytes 4 NumberOfDescriptors ++ le_bytes 4 0) ::
               handle_descriptors_bytes m p 0 (hd_descriptors x))))
            (register_strings p (hd_strings x) ts))
      end
  end.
Definition handle_data_stream (x : MinidumpHandleDataWriter) : StreamWriter :=
  MkStream kMinidumpStreamTypeHandleData (freeze_handles x).

Lemma length_handle_descriptors m p i l :
  length (concat (handle_descriptors_bytes m p i l)) = (32 * length l)%nat.
Proof.
  revert i; induction l as [|s l IH]; intros i; [done|].
  cbn [handle_descriptors_bytes concat length]. rewrite length_app, IH, !length_app, !length_le_bytes.
  lia.
Qed.

Definition handle_slots (p : path) (idxs : list nat) : list slot :=
  rev (map (fun i => (p, (2 + i)%nat)) idxs).

Lemma registered_rvas p idxs S0 t0 t :
  registered S0 t0 t -> registered (handle_slots p idxs ++ S0) t0 (register_rvas p idxs t).
Proof.
  revert S0 t. induction idxs as [|i idxs IH]; intros S0 t Hr; simpl; [done|].
  unfold handle_slots in *. simpl. rewrite <-app_assoc. apply IH. by apply registered_rva.
Qed.

Lemma adopted_strings p i strings ts :
  adopted p i (replicate (length strings) []) ts ->
  adopted p i (map (fun ns => handle_slots p (snd ns) ++ []) strings) (register_strings p strings ts).
Proof.
  revert i ts; induction strings as [|[k idxs] l IH]; intros i ts Ha; inversion Ha; subst; simpl.
  - constructor.
  - econstructor; [done|by apply registered_rvas|by apply IH].
Qed.

(** Every descriptor is registered at most once. *)
Definition all_indices (strings_ : string_map (list nat)) : list nat := concat (map snd strings_).

Lemma map_find_insert_indices k (idxs new : list nat) (m : string_map (list nat)) :
  map_sorted m -> map_find k m = Some idxs ->
  all_indices (map_insert k (idxs ++ new) m) ≡ₚ new ++ all_indices m.
Proof.
  induction m as [|[k' v] m IH]; [done|]. intros Hs Hf. simpl in *.
  destruct (map_sorted_head k' v m Hs) as [Hlt Hs'].
  destruct (decide (k = k')) as [->|Hne].
  - injection Hf as ->. rewrite string_ltb_irrefl. unfold all_indices. simpl.
    rewrite (app_assoc new), (Permutation_app_comm new). done.
  - destruct (string_ltb k k') eqn:E.
    + exfalso. assert (map_find k m = None) as En; [|congruence].
      clear -Hlt E. induction Hlt as [|[k2 v2] m Hk _ IH]; simpl in *; [done|].
      rewrite decide_False; [done|]. intros ->.
      pose proof (string_ltb_trans _ _ _ Hk E) as Hc. by rewrite string_ltb_irrefl in Hc.
    + unfold all_indices in *. simpl. rewrite IH by done.
      rewrite !app_assoc. apply Permutation_app_tail, Permutation_app_comm.
Qed.

Lemma map_insert_new_indices k (new : list nat) (m : string_map (list nat)) :
  map_find k m = None -> all_indices (map_insert k new m) ≡ₚ new ++ all_indices m.
Proof.
  induction m as [|[k' v] m IH]; intros Hf; simpl in *; [done|].
  destruct (decide (k = k')) as [->|Hne]; [done|].
  destruct (string_ltb k k'); [done|]. unfold all_indices in *. simpl. rewrite IH by done.
  rewrite !app_assoc. apply Permutation_app_tail, Permutation_app_comm.
Qed.

Lemma map_insert_head {V} k (v : V) m k0 :
  string_ltb k0 k = true ->
  (match m with [] => True | (k', _) :: _ => string_ltb k0 k' = true end) ->
  match map_insert k v m with [] => True | (k', _) :: _ => string_ltb k0 k' = true end.
Proof.
  intros Hk Hm. destruct m as [|[k' v'] m]; simpl; [done|].
  destruct (string_ltb k k'); [done|]. by destruct (decide _).
Qed.

Lemma map_insert_sorted {V} k (v : V) m : map_sorted m -> map_sorted (map_insert k v m).
Proof.
  induction m as [|[k' v'] m IH]; intros Hs; [done|]. cbn [map_insert].
  destruct (string_ltb k k') eqn:E; [by split|].
  destruct (decide (k = k')) as [->|Hne]; [by destruct Hs|].
  destruct Hs as [Hh Hs]. split; [|by apply IH].
  apply map_insert_head; [by apply string_ltb_total|done].
Qed.

Lemma add_handles_distinct strings i l :
  map_sorted strings -> NoDup (all_indices strings) ->
  Forall (fun j => (j < i)%nat) (all_indices strings) ->
  NoDup (all_indices (add_handles strings i l)).
Proof.
  revert strings i. induction l as [|s l IH]; intros strings i Hs Hn Hf; simpl; [done|].
  assert (forall strings', map_sorted strings' -> all_indices strings' ≡ₚ [i] ++ all_indices strings ->
    NoDup (all_indices (add_handles strings' (S i) l))) as Hnew.
  { intros strings' Hs' Hp. apply IH; [done| |]; rewrite Hp; simpl.
    - constructor; [|done]. intros Hin. rewrite Forall_forall in Hf. specialize (Hf _ Hin).
      simpl in Hf. lia.
    - constructor; [lia|]. eapply Forall_impl; [exact Hf|]. simpl. lia. }
  destruct (hs_type_name s) as [|c name].
  { apply IH; [done..|]. eapply Forall_impl; [exact Hf|]. simpl. lia. }
  destruct (map_find (c :: name) strings) as [idxs|] eqn:E; apply Hnew;
    try by apply map_insert_sorted.
  - by apply map_find_insert_indices.
  - by apply map_insert_new_indices.
Qed.

Lemma freeze_handles_owned x :
  NoDup (all_indices (hd_strings x)) -> freezes_owned (freeze_handles x).
Proof.
  intros Hx p t. unfold freeze_handles.
  destruct (freeze_children _ _ _) as [ts|] eqn:Ec; [|done].
  destruct (AssignIfInRange _ _) as [n|]; [|done]. intros <-%(inj Some).
  apply freeze_children_adopted in Ec as [Ha _].
  2: { apply Forall_fmap, Forall_true. intros ns. apply MinidumpStringWriter.string_freeze_owned. }
  rewrite length_map in Ha.
  assert (concat (map (fun ns => handle_slots p (snd ns) ++ []) (hd_strings x)) ≡ₚ
    map (fun i => (p, (2 + i)%nat)) (all_indices (hd_strings x))) as Hp.
  { unfold all_indices. clear. induction (hd_strings x) as [|[k idxs] l IH]; simpl; [done|].
    rewrite map_app, IH, app_nil_r. apply Permutation_app_tail. symmetry. apply Permutation_rev. }
  class_owned (map (fun ns => handle_slots p (snd ns) ++ []) (hd_strings x)).
  - apply stream_lawful. sized.
    rewrite !length_app, !length_le_bytes, length_handle_descriptors. lia.
  - by apply adopted_strings.
  - rewrite Hp. simpl. constructor; [|constructor].
    + rewrite elem_of_cons. intros [[=]|[i [[=] _]]%list_elem_of_fmap].
    + intros [i [[=] _]]%list_elem_of_fmap.
    + apply NoDup_fmap_2; [by intros ? ? [= ->]|done].
  - rewrite Hp. repeat (constructor; [done|]). by apply Forall_fmap, Forall_true.
Qed.

Lemma handles_from_snapshots_owned l : freezes_owned (freeze_handles (handles_from_snapshots l)).
Proof. apply freeze_handles_owned, add_handles_distinct; constructor. Qed.

End Handles.

(** ** Memory information (minidump_memory_info_writer.cc) *)

(** [MINIDUMP_MEMORY_INFO], as [MemoryMapRegionSnapshot::AsMinidumpMemoryInfo]
    gives it. *)
Record MINIDUMP_MEMORY_INFO := MkMemoryInfo {
  mi_base_address : Z;
  mi_allocation_base : Z;
  mi_allocation_protect : Z;
  mi_region_size : Z;
  mi_state : Z;
  mi_protect : Z;
  mi_type : Z
}.

Definition memory_info_bytes (x : MINIDUMP_MEMORY_INFO) : bytes :=
  le_bytes 8 (mi_base_address x) ++ le_bytes 8 (mi_allocation_base x) ++
  le_bytes 4 (mi_allocation_protect x) ++ le_bytes 4 0 ++ le_bytes 8 (mi_region_size x) ++
  le_bytes 4 (mi_state x) ++ le_bytes 4 (mi_protect x) ++ le_bytes 4 (mi_type x) ++ le_bytes 4 0.

(** [MinidumpMemoryInfoListWriter]: [Freeze], [SizeOfObject] and [WriteObject]. *)
Definition freeze_memory_info (items_ : list MINIDUMP_MEMORY_INFO) (p : path) : option Tree :=
  Some (Node (stream_at p (16 + 48 * Z.of_nat (length items_))
    (fun _ => WriteVectors
      ((le_bytes 4 16 ++ le_bytes 4 48 ++ le_bytes 8 (Z.of_nat (length items_))) ::
       map memory_info_bytes items_))) []).
Definition memory_info_stream (items_ : list MINIDUMP_MEMORY_INFO) : StreamWriter :=
  MkStream kMinidumpStreamTypeMemoryInfoList (freeze_memory_info items_).

Lemma length_memory_infos l : length (concat (map memory_info_bytes l)) = (48 * length l)%nat.
Proof.
  induction l as [|x l IH]; [done|]. cbn [map concat length]. rewrite length_app, IH.
  unfold memory_info_bytes. rewrite !length_app, !length_le_bytes. lia.
Qed.

Lemma freeze_memory_info_owned l : freezes_owned (freeze_memory_info l).
Proof.
  intros p t <-%(inj Some). class_owned (@nil (list slot));
    [|constructor|apply (stream_slots_distinct _ _ _ 0)|apply (stream_slots_distinct _ _ _ 0)].
  apply stream_lawful. sized. rewrite !length_app, !length_le_bytes, length_memory_infos. lia.
Qed.

(** ** User streams (minidump_user_stream_writer.cc) *)

(** [MinidumpUserStreamWriter]: the type, and for a [SnapshotContentsWriter] the
    snapshot, for an [ExtensionStreamContentsWriter] the announced size and the
    data the source supplies ([None] when [ReadStreamData] fails). *)
Inductive ContentsWriter :=
  | SnapshotContentsWriter (snapshot_ : option MemorySnapshot)
  | ExtensionStreamContentsWriter (StreamDataSize : Z) (data : option bytes).
Record MinidumpUserStreamWriter := MkUserStream {
  us_stream_type : Z;
  us_contents_writer : ContentsWriter
}.

(** [InitializeFromSnapshot] and [InitializeFromUserExtensionStream]. *)
Definition user_stream_from_snapshot (s : UserMinidumpStream) : MinidumpUserStreamWriter :=
  MkUserStream (user_stream_type s) (SnapshotContentsWriter (user_stream_memory s)).
Definition user_stream_from_extension (stream_type size : Z) (data : option bytes)
    : MinidumpUserStreamWriter :=
  MkUserStream stream_type (ExtensionStreamContentsWriter size data).

(** [GetSize] and [WriteContents]. *)
Definition GetSize (c : ContentsWriter) : Z :=
  match c with
  | SnapshotContentsWriter None => 0
  | SnapshotContentsWriter (Some s) => mem_size s
  | ExtensionStreamContentsWriter size _ => size
  end.
Definition WriteContents (memory : process_memory) (c : ContentsWriter) : WriteAction :=
  match c with
  | SnapshotContentsWriter None => WriteNothing
  | SnapshotContentsWriter (Some s) =>
      match memory (mem_address s) (mem_size s) with
      | Some data => WriteBuffer data
      | None => WriteFailure
      end
  | ExtensionStreamContentsWriter _ (Some data) => WriteBuffer data
  | ExtensionStreamContentsWriter _ None => WriteFailure
  end.

(** [Freeze], [SizeOfObject] and [WriteObject]. *)
Definition freeze_user_stream (memory : process_memory) (x : MinidumpUserStreamWriter) (p : path)
    : option Tree :=
  Some (Node (stream_at p (GetSize (us_contents_writer x))
    (fun _ => WriteContents memory (us_contents_writer x))) []).
Definition user_stream (memory : process_memory) (x : MinidumpUserStreamWriter) : StreamWriter :=
  MkStream (us_stream_type x) (freeze_user_stream memory x).

(** The data can be read, and an extension supplies as much as it announced. *)
Definition user_stream_ok (memory : process_memory) (x : MinidumpUserStreamWriter) : Prop :=
  match us_contents_writer x with
  | SnapshotContentsWriter None => True
  | SnapshotContentsWriter (Some s) => is_Some (memory (mem_address s) (mem_size s))
  | ExtensionStreamContentsWriter size data =>
      exists d, data = Some d /\ Z.of_nat (length d) = size
  end.

Lemma freeze_user_stream_owned memory x :
  reads_exactly memory -> user_stream_ok memory x -> freezes_owned (freeze_user_stream memory x).
Proof.
  intros Hm Hx p t <-%(inj Some). class_owned (@nil (list slot));
    [|constructor|apply (stream_slots_distinct _ _ _ 0)|apply (stream_slots_distinct _ _ _ 0)].
  apply stream_lawful. intros m. unfold writes_its_size, proper_action, object_bytes, stream_at.
  cbn [WriteObject SizeOfObject]. unfold user_stream_ok in Hx.
  destruct (us_contents_writer x) as [[s|]|size data]; simpl.
  - destruct Hx as [d E]. rewrite E. split; [by apply (Hm _ _ _ E)|split; congruence].
  - split; [done|split; congruence].
  - destruct Hx as (d & -> & Hd). split; [done|split; congruence].
Qed.
