(* ===== verification/MinidumpSystem.v ===== *)
(** * The system and miscellaneous information streams (minidump/)

    [MinidumpSystemInfoWriter] and [MinidumpMiscInfoWriter]: what a minidump says
    of the CPU, the operating system and the process.  The two classes are filled
    in by setters that [InitializeFromSnapshot] calls; a setter whose CHECK or
    DCHECK fails, and the NOTREACHED of a value without a counterpart in the file
    format, have no result. *)

From S2P Require Import Prelude.
From S2P Require Import Numeric.
From S2P Require Import Structs.
From S2P Require Import CPUContext.
From S2P Require Import MinidumpContext.
From S2P Require Import MinidumpWritable.
From S2P Require Import MinidumpObjects.
From S2P Require Import MinidumpStreams.
From S2P Require Import MinidumpModules.

(** ** The snapshot of the system (snapshot/system_snapshot.h) *)

Inductive OperatingSystem :=
  | kOperatingSystemUnknown | kOperatingSystemMacOSX | kOperatingSystemWindows
  | kOperatingSystemLinux | kOperatingSystemAndroid | kOperatingSystemFuchsia
  | kOperatingSystemIOS.

(** [DaylightSavingTimeStatus], with the values of the enumeration. *)
Inductive DaylightSavingTimeStatus :=
  | kDoesNotObserveDaylightSavingTime | kObservingStandardTime | kObservingDaylightSavingTime.
Definition dst_value (d : DaylightSavingTimeStatus) : Z :=
  match d with
  | kDoesNotObserveDaylightSavingTime => 0
  | kObservingStandardTime => 1
  | kObservingDaylightSavingTime => 2
  end.

Record SystemSnapshot := MkSystemSnapshot {
  sys_architecture : CPUArchitecture;
  sys_cpu_revision : Z;
  sys_cpu_count : Z;
  sys_cpu_vendor : bytes;
  sys_current_hz : Z;
  sys_max_hz : Z;
  sys_x86_signature : Z;
  sys_x86_features : Z;
  sys_x86_extended_features : Z;
  sys_x86_leaf7_features : Z;
  sys_x86_supports_daz : bool;
  sys_operating_system : OperatingSystem;
  sys_os_server : bool;
  sys_os_version : Z * Z * Z;
  sys_os_build : bytes;
  sys_os_version_full : bytes;
  sys_machine_description : bytes;
  sys_nx_enabled : bool;
  sys_dst_status : DaylightSavingTimeStatus;
  sys_standard_offset_seconds : Z;
  sys_daylight_offset_seconds : Z;
  sys_standard_name : bytes;
  sys_daylight_name : bytes
}.

(** Two systems for the witnesses. *)
Definition example_system : SystemSnapshot :=
  MkSystemSnapshot kCPUArchitectureX86_64 0x123456 4 (str "GenuineIntel") 2000000000 2800000000 0
    0x17 0x8000000 1 true kOperatingSystemLinux false (6, 1, 7) (str "build") (str "Linux 6.1.7")
    (str "pc") true kObservingStandardTime 3600 7200 (str "CET") (str "CEST").
Definition example_hygon : SystemSnapshot :=
  MkSystemSnapshot kCPUArchitectureX86 0x123456 4 (str "HygonGenuine") 2000000000 2800000000 0
    0x17 0x8000000 1 true kOperatingSystemLinux false (6, 1, 7) (str "build") (str "Linux 6.1.7")
    (str "pc") true kObservingStandardTime 3600 7200 (str "CET") (str "CEST").

(** ** System information (minidump_system_info_writer.cc) *)

(** [MAP_FEATURE] and [ADD_FEATURE]. *)
Definition add_feature (minidump_features minidump_bit : Z) : Z :=
  Z.lor minidump_features (Z.shiftl 1 minidump_bit).
Definition map_feature (features : Z) (minidump_features : Z) (bits : Z * Z) : Z :=
  if Z.testbit features (fst bits) then add_feature minidump_features (snd bits)
  else minidump_features.

(** The bits of the features of cpuid and those of [PF_*] (compat/non_win/winnt.h)
    they are mapped to. *)
Definition cpuid_features : list (Z * Z) :=
  [(4, 8); (6, 9); (23, 3); (25, 6); (26, 10); (32, 13); (45, 14); (58, 17); (62, 28)].
Definition extended_features : list (Z * Z) := [(27, 32); (31, 7)].
Definition leaf7_features : list (Z * Z) := [(0, 22)].
Definition PF_COMPARE_EXCHANGE_DOUBLE : Z := 2.
Definition PF_SSE_DAZ_MODE_AVAILABLE : Z := 11.
Definition PF_NX_ENABLED : Z := 12.

Definition AMD64FeaturesFromSystemSnapshot (s : SystemSnapshot) : Z :=
  let f := add_feature 0 PF_COMPARE_EXCHANGE_DOUBLE in
  let f := fold_left (map_feature (sys_x86_features s)) cpuid_features f in
  let f := fold_left (map_feature (sys_x86_extended_features s)) extended_features f in
  let f := fold_left (map_feature (sys_x86_leaf7_features s)) leaf7_features f in
  let f := if sys_nx_enabled s then add_feature f PF_NX_ENABLED else f in
  if sys_x86_supports_daz s then add_feature f PF_SSE_DAZ_MODE_AVAILABLE else f.

(** [MinidumpCPUArchitecture], [MinidumpOS] and [MinidumpOSType]
    (minidump_extensions.h), as far as they are written. *)
Definition kMinidumpCPUArchitectureX86 : Z := 0.
Definition kMinidumpCPUArchitectureARM : Z := 5.
Definition kMinidumpCPUArchitectureAMD64 : Z := 9.
Definition kMinidumpCPUArchitectureX86Win64 : Z := 10.
Definition kMinidumpCPUArchitectureARM64 : Z := 12.
Definition kMinidumpCPUArchitectureUnknown : Z := 65535.
Definition kMinidumpOSWin32NT : Z := 2.
Definition kMinidumpOSMacOSX : Z := 0x8101.
Definition kMinidumpOSIOS : Z := 0x8102.
Definition kMinidumpOSLinux : Z := 0x8201.
Definition kMinidumpOSAndroid : Z := 0x8203.
Definition kMinidumpOSFuchsia : Z := 0x8206.
Definition kMinidumpOSTypeWorkstation : Z := 1.
Definition kMinidumpOSTypeServer : Z := 3.

(** The switches of [InitializeFromSnapshot]; the default is NOTREACHED. *)
Definition cpu_architecture (a : CPUArchitecture) : option Z :=
  match a with
  | kCPUArchitectureX86 => Some kMinidumpCPUArchitectureX86
  | kCPUArchitectureX86_64 => Some kMinidumpCPUArchitectureAMD64
  | kCPUArchitectureARM => Some kMinidumpCPUArchitectureARM
  | kCPUArchitectureARM64 => Some kMinidumpCPUArchitectureARM64
  | _ => None
  end.
Definition operating_system (o : OperatingSystem) : option Z :=
  match o with
  | kOperatingSystemMacOSX => Some kMinidumpOSMacOSX
  | kOperatingSystemWindows => Some kMinidumpOSWin32NT
  | kOperatingSystemLinux => Some kMinidumpOSLinux
  | kOperatingSystemAndroid => Some kMinidumpOSAndroid
  | kOperatingSystemFuchsia => Some kMinidumpOSFuchsia
  | kOperatingSystemIOS => Some kMinidumpOSIOS
  | kOperatingSystemUnknown => None
  end.

Module MinidumpSystemInfoWriter.

(** [system_info_] and [csd_version_].  The union [Cpu] is kept as its 24 bytes;
    [CSDVersionRva] is at field 2. *)
Record t := Make {
  ProcessorArchitecture : Z;
  ProcessorLevel : Z;
  ProcessorRevision : Z;
  NumberOfProcessors : Z;
  ProductType : Z;
  MajorVersion : Z;
  MinorVersion : Z;
  BuildNumber : Z;
  PlatformId : Z;
  SuiteMask : Z;
  Cpu : bytes;
  csd_version_ : option bytes
}.

Definition init : t :=
  Make kMinidumpCPUArchitectureUnknown 0 0 0 0 0 0 0 0 0 (replicate 24 0) None.

Definition SetCPUArchitecture (x : t) (v : Z) : t :=
  Make v (ProcessorLevel x) (ProcessorRevision x) (NumberOfProcessors x) (ProductType x)
    (MajorVersion x) (MinorVersion x) (BuildNumber x) (PlatformId x) (SuiteMask x) (Cpu x)
    (csd_version_ x).
Definition SetCPULevelAndRevision (x : t) (processor_level processor_revision : Z) : t :=
  Make (ProcessorArchitecture x) processor_level processor_revision (NumberOfProcessors x)
    (ProductType x) (MajorVersion x) (MinorVersion x) (BuildNumber x) (PlatformId x) (SuiteMask x)
    (Cpu x) (csd_version_ x).
Definition SetCPUCount (x : t) (number_of_processors : Z) : t :=
  Make (ProcessorArchitecture x) (ProcessorLevel x) (ProcessorRevision x) number_of_processors
    (ProductType x) (MajorVersion x) (MinorVersion x) (BuildNumber x) (PlatformId x) (SuiteMask x)
    (Cpu x) (csd_version_ x).
Definition SetOS (x : t) (platform_id : Z) : t :=
  Make (ProcessorArchitecture x) (ProcessorLevel x) (ProcessorRevision x) (NumberOfProcessors x)
    (ProductType x) (MajorVersion x) (MinorVersion x) (BuildNumber x) platform_id (SuiteMask x)
    (Cpu x) (csd_version_ x).
Definition SetOSType (x : t) (product_type : Z) : t :=
  Make (ProcessorArchitecture x) (ProcessorLevel x) (ProcessorRevision x) (NumberOfProcessors x)
    product_type (MajorVersion x) (MinorVersion x) (BuildNumber x) (PlatformId x) (SuiteMask x)
    (Cpu x) (csd_version_ x).
Definition SetOSVersion (x : t) (major_version minor_version build_number : Z) : t :=
  Make (ProcessorArchitecture x) (ProcessorLevel x) (ProcessorRevision x) (NumberOfProcessors x)
    (ProductType x) major_version minor_version build_number (PlatformId x) (SuiteMask x) (Cpu x)
    (csd_version_ x).
Definition SetSuiteMask (x : t) (suite_mask : Z) : t :=
  Make (ProcessorArchitecture x) (ProcessorLevel x) (ProcessorRevision x) (NumberOfProcessors x)
    (ProductType x) (MajorVersion x) (MinorVersion x) (BuildNumber x) (PlatformId x) suite_mask
    (Cpu x) (csd_version_ x).
Definition SetCSDVersion (x : t) (csd_version : bytes) : t :=
  Make (ProcessorArchitecture x) (ProcessorLevel x) (ProcessorRevision x) (NumberOfProcessors x)
    (ProductType x) (MajorVersion x) (MinorVersion x) (BuildNumber x) (PlatformId x) (SuiteMask x)
    (Cpu x) (Some csd_version).
Definition set_cpu (x : t) (off : nat) (d : bytes) : t :=
  Make (ProcessorArchitecture x) (ProcessorLevel x) (ProcessorRevision x) (NumberOfProcessors x)
    (ProductType x) (MajorVersion x) (MinorVersion x) (BuildNumber x) (PlatformId x) (SuiteMask x)
    (overwrite off d (Cpu x)) (csd_version_ x).

(** The DCHECK of the setters of [X86CpuInfo]. *)
Definition is_x86 (x : t) : bool :=
  (ProcessorArchitecture x =? kMinidumpCPUArchitectureX86) ||
  (ProcessorArchitecture x =? kMinidumpCPUArchitectureX86Win64).

(** [SetCPUX86Vendor] and [SetCPUX86VendorString]: [VendorId] is at offset 0 of
    the union, [VersionInformation] at 12, [FeatureInformation] at 16 and
    [AMDExtendedCpuFeatures] at 20. *)
Definition SetCPUX86Vendor (x : t) (ebx edx ecx : Z) : option t :=
  if is_x86 x then Some (set_cpu x 0 (le_bytes 4 ebx ++ le_bytes 4 edx ++ le_bytes 4 ecx)) else None.
Definition SetCPUX86VendorString (x : t) (vendor : bytes) : option t :=
  if (length vendor =? 12)%nat
  then SetCPUX86Vendor x (le_value (slice 0 4 vendor)) (le_value (slice 4 4 vendor))
         (le_value (slice 8 4 vendor))
  else None.
Definition SetCPUX86VersionAndFeatures (x : t) (version features : Z) : option t :=
  if is_x86 x then Some (set_cpu x 12 (le_bytes 4 version ++ le_bytes 4 features)) else None.

(** [SetCPUX86AMDExtendedFeatures]; the multicharacter constants of its DCHECK
    spell the bytes of the vendor string. *)
Definition SetCPUX86AMDExtendedFeatures (x : t) (extended_features : Z) : option t :=
  if is_x86 x && bool_decide (take 12 (Cpu x) = str "AuthenticAMD")
  then Some (set_cpu x 20 (le_bytes 4 extended_features)) else None.

(** [SetCPUOtherFeatures], of [OtherCpuInfo]. *)
Definition SetCPUOtherFeatures (x : t) (features_0 features_1 : Z) : option t :=
  if is_x86 x then None else Some (set_cpu x 0 (le_bytes 8 features_0 ++ le_bytes 8 features_1)).

(** The part of [InitializeFromSnapshot] that depends on the architecture. *)
Definition set_cpu_information (x : t) (architecture : Z) (s : SystemSnapshot) : option t :=
  if architecture =? kMinidumpCPUArchitectureX86 then
    x ← SetCPUX86VendorString x (sys_cpu_vendor s);
    x ← SetCPUX86VersionAndFeatures x (sys_x86_signature s) (Z.land (sys_x86_features s) 0xffffffff);
    if bool_decide (sys_cpu_vendor s = str "AuthenticAMD") ||
       bool_decide (sys_cpu_vendor s = str "HygonGenuine")
    then SetCPUX86AMDExtendedFeatures x (Z.land (sys_x86_extended_features s) 0xffffffff)
    else Some x
  else if architecture =? kMinidumpCPUArchitectureAMD64
  then SetCPUOtherFeatures x (AMD64FeaturesFromSystemSnapshot s) 0
  else Some x.

(** [InitializeFromSnapshot]; a signed version number is converted to 32 bits. *)
Definition InitializeFromSnapshot (s : SystemSnapshot) : option t :=
  architecture ← cpu_architecture (sys_architecture s);
  let x := SetCPUArchitecture init architecture in
  let x := SetCPULevelAndRevision x (Z.shiftr (Z.land (sys_cpu_revision s) 0xffff0000) 16)
             (Z.land (sys_cpu_revision s) 0x0000ffff) in
  let x := SetCPUCount x (sys_cpu_count s) in
  x ← set_cpu_information x architecture s;
  os ← operating_system (sys_operating_system s);
  let x := SetOS x os in
  let x := SetOSType x (if sys_os_server s then kMinidumpOSTypeServer
                        else kMinidumpOSTypeWorkstation) in
  let '(major, minor, bugfix) := sys_os_version s in
  let x := SetOSVersion x (u32 major) (u32 minor) (u32 bugfix) in
  Some (SetCSDVersion x (sys_os_build s)).

(** The bytes of [system_info_]. *)
Definition system_info_bytes (x : t) (m : fields_map) (p : path) : bytes :=
  le_bytes 2 (ProcessorArchitecture x) ++ le_bytes 2 (ProcessorLevel x) ++
  le_bytes 2 (ProcessorRevision x) ++ le_bytes 1 (NumberOfProcessors x) ++
  le_bytes 1 (ProductType x) ++ le_bytes 4 (MajorVersion x) ++ le_bytes 4 (MinorVersion x) ++
  le_bytes 4 (BuildNumber x) ++ le_bytes 4 (PlatformId x) ++ le_bytes 4 (field m (p, 2%nat)) ++
  le_bytes 2 (SuiteMask x) ++ le_bytes 2 0 ++ Cpu x.

Section Freeze.
  (** [base::UTF8ToUTF16]. *)
  Context (UTF8ToUTF16 : bytes -> bool * list Z).

(** [Freeze], [SizeOfObject], [Children] and [WriteObject]. *)
Definition Freeze (x : t) (p : path) : option Tree :=
  match csd_version_ x with
  | None => None
  | Some csd_version =>
      match freeze_children p 0
              [MinidumpStringWriter.Freeze (MinidumpUTF16StringWriter UTF8ToUTF16 csd_version)] with
      | Some [c] =>
          Some (Node (stream_at p 56 (fun m => WriteBuffer (system_info_bytes x m p)))
                  [RegisterRVA (p, 2%nat) c])
      | _ => None
      end
  end.

Definition stream (x : t) : StreamWriter := MkStream kMinidumpStreamTypeSystemInfo (Freeze x).

Lemma length_system_info_bytes x m p :
  length (Cpu x) = 24%nat -> length (system_info_bytes x m p) = 56%nat.
Proof. intros Hc. unfold system_info_bytes. by rewrite !length_app, !length_le_bytes, Hc. Qed.

Lemma system_info_freeze_owned x : length (Cpu x) = 24%nat -> freezes_owned (Freeze x).
Proof.
  intros Hc p t. unfold Freeze. destruct (csd_version_ x) as [v|]; [|done].
  destruct (freeze_children _ _ _) as [[|co [|]]|] eqn:Ec; try done.
  intros <-%(inj Some). apply freeze_children_adopted in Ec as [Ha _].
  2: { forall_list ltac:(apply MinidumpStringWriter.string_freeze_owned). }
  inversion Ha as [|? ? ? ? ? ? O2 R2 Ha2]; subst.
  class_owned [[(p, 2%nat)]].
  - apply stream_lawful. sized. by rewrite length_system_info_bytes.
  - eauto with cp.
  - simpl. slots_distinct.
  - repeat constructor.
Qed.

End Freeze.
(** ** What is written of the system *)

(** A system the file format has room for. *)
Definition system_ok (s : SystemSnapshot) : Prop :=
  is_Some (cpu_architecture (sys_architecture s)) /\
  is_Some (operating_system (sys_operating_system s)) /\
  (sys_architecture s = kCPUArchitectureX86 ->
    length (sys_cpu_vendor s) = 12%nat /\ Forall is_byte (sys_cpu_vendor s) /\
    sys_cpu_vendor s <> str "HygonGenuine").

(** The fields of the stream of a system. *)
Record describes (s : SystemSnapshot) (x : t) : Prop := {
  desc_architecture : cpu_architecture (sys_architecture s) = Some (ProcessorArchitecture x);
  desc_level : ProcessorLevel x = Z.shiftr (Z.land (sys_cpu_revision s) 0xffff0000) 16;
  desc_revision : ProcessorRevision x = Z.land (sys_cpu_revision s) 0x0000ffff;
  desc_count : NumberOfProcessors x = sys_cpu_count s;
  desc_os : operating_system (sys_operating_system s) = Some (PlatformId x);
  desc_type : ProductType x = if sys_os_server s then 3 else 1;
  desc_version : (MajorVersion x, MinorVersion x, BuildNumber x) =
    let '(major, minor, bugfix) := sys_os_version s in (u32 major, u32 minor, u32 bugfix);
  desc_build : csd_version_ x = Some (sys_os_build s);
  desc_cpu : length (Cpu x) = 24%nat;
  desc_vendor : sys_architecture s = kCPUArchitectureX86 -> take 12 (Cpu x) = sys_cpu_vendor s
}.

(** The twelve bytes of a vendor string, taken apart into registers and put
    together again. *)
Lemma vendor_registers (v : bytes) :
  length v = 12%nat -> Forall is_byte v ->
  le_bytes 4 (le_value (slice 0 4 v)) ++ le_bytes 4 (le_value (slice 4 4 v)) ++
  le_bytes 4 (le_value (slice 8 4 v)) = v.
Proof.
  intros Hl Hb.
  assert (forall off, (off + 4 <= 12)%nat -> le_bytes 4 (le_value (slice off 4 v)) = slice off 4 v) as Hs.
  { intros off Ho. apply le_bytes_value; [by apply Forall_take, Forall_drop|].
    apply length_slice. lia. }
  rewrite !Hs by lia. rewrite <-(slice_all v) at 4. rewrite Hl.
  by rewrite (slice_split 0 4 8), (slice_split (0 + 4) 4 4).
Qed.

Lemma set_vendor x v :
  is_x86 x = true -> length v = 12%nat -> Forall is_byte v ->
  SetCPUX86VendorString x v = Some (set_cpu x 0 v).
Proof.
  intros Hx Hl Hb. unfold SetCPUX86VendorString, SetCPUX86Vendor. rewrite Hl, Hx. cbn [Nat.eqb].
  by rewrite vendor_registers.
Qed.

(** The CPU information only touches the union, whose vendor is that of the
    system. *)
Lemma set_cpu_information_ok x a s :
  cpu_architecture (sys_architecture s) = Some a -> ProcessorArchitecture x = a ->
  length (Cpu x) = 24%nat -> system_ok s ->
  exists cpu, set_cpu_information x a s =
      Some (Make (ProcessorArchitecture x) (ProcessorLevel x) (ProcessorRevision x)
        (NumberOfProcessors x) (ProductType x) (MajorVersion x) (MinorVersion x) (BuildNumber x)
        (PlatformId x) (SuiteMask x) cpu (csd_version_ x)) /\
    length cpu = 24%nat /\ (sys_architecture s = kCPUArchitectureX86 -> take 12 cpu = sys_cpu_vendor s).
Proof.
  intros Ha Hx Hc (_ & _ & Hv). unfold set_cpu_information.
  destruct (sys_architecture s) eqn:Es; try done; injection Ha as <-; cbn -[le_bytes str slice];
    try (exists (Cpu x); split; [by destruct x|by split]).
  - destruct (Hv eq_refl) as (Hl & Hb & Hh).
    assert (is_x86 x = true) as E86 by (unfold is_x86; by rewrite Hx).
    rewrite set_vendor by done. cbn [mbind option_bind].
    unfold SetCPUX86VersionAndFeatures, SetCPUX86AMDExtendedFeatures.
    change (is_x86 (set_cpu x 0 (sys_cpu_vendor s))) with (is_x86 x). rewrite E86.
    cbn [mbind option_bind].
    set (x1 := set_cpu (set_cpu x 0 _) 12 _). change (is_x86 x1) with (is_x86 x). rewrite E86.
    assert (length (overwrite 0 (sys_cpu_vendor s) (Cpu x)) = 24%nat) as Hn.
    { rewrite length_overwrite; lia. }
    assert (length (Cpu x1) = 24%nat) as Hn1.
    { unfold x1, set_cpu. cbn [Cpu]. rewrite length_overwrite; [done|]. rewrite length_app, !length_le_bytes. lia. }
    assert (take 12 (Cpu x1) = sys_cpu_vendor s) as Hw1.
    { unfold x1, set_cpu. cbn [Cpu]. etrans; [apply (slice_overwrite_before 12 _ _ 0 12); lia|].
      rewrite <-Hl at 1. apply (slice_overwrite_eq 0). lia. }
    rewrite (bool_decide_eq_false_2 (sys_cpu_vendor s = str "HygonGenuine")) by done.
    rewrite orb_false_r, Hw1. cbn [andb].
    destruct (bool_decide_reflect (sys_cpu_vendor s = str "AuthenticAMD")) as [Ev|Ev].
    + eexists. split; [reflexivity|].
      split; [rewrite length_overwrite; [done|]; rewrite length_le_bytes; lia|].
      intros _. rewrite <-Hw1. apply (slice_overwrite_before 20 _ _ 0 12); lia.
    + eexists. split; [reflexivity|]. by split.
  - assert (is_x86 x = false) as E86 by (unfold is_x86; by rewrite Hx).
    unfold SetCPUOtherFeatures. rewrite E86. eexists. split; [reflexivity|]. split; [|done].
    rewrite length_overwrite; [done|]. rewrite length_app, !length_le_bytes. lia.
Qed.

(** [InitializeFromSnapshot] describes every system there is room for. *)
Lemma system_info_describes s :
  system_ok s -> exists x, InitializeFromSnapshot s = Some x /\ describes s x.
Proof.
  intros Hs. pose proof Hs as ([a Ha] & [o Ho] & _). unfold InitializeFromSnapshot.
  rewrite Ha. cbn [mbind option_bind].
  set (x := SetCPUCount _ _).
  destruct (set_cpu_information_ok x a s Ha eq_refl eq_refl Hs) as (cpu & -> & Hl & Hv).
  cbn [mbind option_bind]. rewrite Ho. cbn [mbind option_bind].
  destruct (sys_os_version s) as [[major minor] bugfix] eqn:Ev.
  eexists. split; [reflexivity|]. split; try done. by rewrite Ev.
Qed.

(** Of the x86 systems with a twelve-character vendor string and a known
    operating system, [InitializeFromSnapshot] accepts all but those with a Hygon
    CPU: its own test lets the vendor pass on to
    [SetCPUX86AMDExtendedFeatures], whose DCHECK accepts AMD only. *)
Theorem x86_system_accepted_unless_hygon s :
  sys_architecture s = kCPUArchitectureX86 ->
  is_Some (operating_system (sys_operating_system s)) ->
  length (sys_cpu_vendor s) = 12%nat -> Forall is_byte (sys_cpu_vendor s) ->
  is_Some (InitializeFromSnapshot s) <-> sys_cpu_vendor s <> str "HygonGenuine".
Proof.
  intros Ha Ho Hl Hb. split.
  - intros [x Hx] Hv. revert Hx. unfold InitializeFromSnapshot, set_cpu_information.
    by rewrite Ha, Hv.
  - intros Hv. destruct (system_info_describes s) as (x & Hx & _); [|by rewrite Hx].
    split_and!; [by rewrite Ha|done|done].
Qed.
Lemma x86_system_accepted_unless_hygon_witness : InitializeFromSnapshot example_hygon = None.
Proof.
  destruct (InitializeFromSnapshot example_hygon) eqn:E; [|reflexivity]. exfalso.
  refine (proj1 (x86_system_accepted_unless_hygon example_hygon eq_refl _ eq_refl _) _ eq_refl).
  - by eexists.
  - repeat constructor; vm_compute; congruence.
  - by eexists.
Defined.

End MinidumpSystemInfoWriter.

(** The bits of [AMD64FeaturesFromSystemSnapshot]. *)
Lemma add_feature_bit f d b :
  0 <= d -> Z.testbit (add_feature f d) b = Z.testbit f b || (d =? b).
Proof.
  intros Hd. unfold add_feature. rewrite Z.lor_spec. f_equal.
  rewrite Z.shiftl_1_l, Z.pow2_bits_eqb by done. done.
Qed.

Lemma map_features_bit features l f b :
  Forall (fun cd : Z * Z => 0 <= cd.2) l ->
  Z.testbit (fold_left (map_feature features) l f) b =
  Z.testbit f b || existsb (fun cd => Z.testbit features cd.1 && (cd.2 =? b)) l.
Proof.
  intros Hl. revert f. induction Hl as [|[c d] l Hd _ IH]; intros f; simpl; [by rewrite orb_false_r|].
  rewrite IH. unfold map_feature. simpl. destruct (Z.testbit features c); [|done].
  by rewrite add_feature_bit, orb_assoc.
Qed.

(** The CPU features of the snapshot that a bit of [ProcessorFeatures] stands for,
    as a table of the [PF_*] constants. *)
Definition processor_feature (s : SystemSnapshot) (pf : Z) : bool :=
  match pf with
  | 2 => true
  | 3 => Z.testbit (sys_x86_features s) 23
  | 6 => Z.testbit (sys_x86_features s) 25
  | 7 => Z.testbit (sys_x86_extended_features s) 31
  | 8 => Z.testbit (sys_x86_features s) 4
  | 9 => Z.testbit (sys_x86_features s) 6
  | 10 => Z.testbit (sys_x86_features s) 26
  | 11 => sys_x86_supports_daz s
  | 12 => sys_nx_enabled s
  | 13 => Z.testbit (sys_x86_features s) 32
  | 14 => Z.testbit (sys_x86_features s) 45
  | 17 => Z.testbit (sys_x86_features s) 58
  | 22 => Z.testbit (sys_x86_leaf7_features s) 0
  | 28 => Z.testbit (sys_x86_features s) 62
  | 32 => Z.testbit (sys_x86_extended_features s) 27
  | _ => false
  end.

(** The accumulation of [AMD64FeaturesFromSystemSnapshot] is the table: bit by
    bit, a processor feature is reported exactly when the cpuid bit it stands for
    is set, and no other bit of the 64-bit value is. *)
Theorem amd64_features_table s pf :
  Z.testbit (AMD64FeaturesFromSystemSnapshot s) pf = processor_feature s pf /\
  fits 64 (AMD64FeaturesFromSystemSnapshot s) = true.
Proof.
  assert (forall b, Z.testbit (AMD64FeaturesFromSystemSnapshot s) b = processor_feature s b) as Hb.
  { intros b. set (f := fold_left (map_feature (sys_x86_leaf7_features s)) leaf7_features
      (fold_left (map_feature (sys_x86_extended_features s)) extended_features
        (fold_left (map_feature (sys_x86_features s)) cpuid_features (add_feature 0 PF_COMPARE_EXCHANGE_DOUBLE)))).
    assert (Z.testbit f b =
      (2 =? b) || existsb (fun cd => Z.testbit (sys_x86_features s) cd.1 && (cd.2 =? b)) cpuid_features
      || existsb (fun cd => Z.testbit (sys_x86_extended_features s) cd.1 && (cd.2 =? b)) extended_features
      || existsb (fun cd => Z.testbit (sys_x86_leaf7_features s) cd.1 && (cd.2 =? b)) leaf7_features) as Hf.
    { subst f. rewrite !map_features_bit by (repeat constructor; simpl; lia).
      by rewrite add_feature_bit, Z.bits_0. }
    set (daz := sys_x86_supports_daz s). set (nx := sys_nx_enabled s).
    assert (Z.testbit (AMD64FeaturesFromSystemSnapshot s) b =
      Z.testbit f b || nx && (12 =? b) || daz && (11 =? b)) as ->.
    { unfold AMD64FeaturesFromSystemSnapshot. fold f daz nx.
      destruct daz, nx; rewrite ?add_feature_bit by done; by rewrite ?orb_false_r. }
    rewrite Hf. destruct (decide (b ∈ [2; 3; 6; 7; 8; 9; 10; 11; 12; 13; 14; 17; 22; 28; 32])) as [Hb|Hb].
    - rewrite !elem_of_cons, elem_of_nil in Hb. destruct_or! Hb; subst b;
        lazy -[Z.testbit sys_x86_features sys_x86_extended_features sys_x86_leaf7_features
               daz nx andb orb]; rewrite ?andb_false_r, ?andb_true_r, ?orb_false_r; done.
    - rewrite !not_elem_of_cons in Hb. destruct_and! Hb.
      cbn [existsb cpuid_features extended_features leaf7_features fst snd].
      repeat match goal with |- context [?k =? b] => rewrite (proj2 (Z.eqb_neq k b)) by done end.
      rewrite ?andb_false_r. unfold processor_feature. repeat case_match; done. }
  split; [done|]. apply fits_spec. apply bits_below; [done|]. intros b Hle. rewrite Hb.
  unfold processor_feature. repeat case_match; lia || done.
Qed.

(** ** Miscellaneous information (minidump_misc_info_writer.cc) *)

(** [timeval]. *)
Record timeval := MkTimeval { tv_sec : Z; tv_usec : Z }.

Definition TimevalToRoundedSeconds (tv : timeval) : Z :=
  let seconds := InRangeCast uint32_t (tv_sec tv) (2 ^ 32 - 1) in
  if (500000 <=? tv_usec tv) && negb (seconds =? 2 ^ 32 - 1) then seconds + 1 else seconds.

Definition BuildString (s : SystemSnapshot) : bytes :=
  match sys_os_version_full s, sys_machine_description s with
  | [], machine_description => machine_description
  | os_version_full, [] => os_version_full
  | os_version_full, machine_description =>
      os_version_full ++ str "; " ++ machine_description
  end.

(** [MinidumpMiscInfoDebugBuildString], on a platform that appends nothing to it;
    [kCPU] and [kOS] are chosen by the build. *)
Definition MinidumpMiscInfoDebugBuildString (kCPU kOS : bytes) : bytes :=
  str "crashpad." ++ kCPU ++ str "," ++ str "0.8.0" ++ str "," ++ kOS.

(** [c16lcpy] (util/stdlib/strlcpy.cc) of a source that holds no NUL to the whole
    of the destination. *)
Definition c16lcpy (destination source : list Z) : list Z :=
  if (length source <? length destination)%nat then overwrite 0 (source ++ [0]) destination
  else match destination with
       | [] => []
       | _ => overwrite 0 (take (length destination - 1) source ++ [0]) destination
       end.

(** [MinidumpWriterUtil::AssignUTF8ToUTF16]. *)
Definition AssignUTF8ToUTF16 (UTF8ToUTF16 : bytes -> bool * list Z) (destination : list Z)
    (source : bytes) : list Z :=
  let source_utf16 := snd (UTF8ToUTF16 source) in
  let n := (length destination - 1)%nat in
  c16lcpy destination (c_str (take n (source_utf16 ++ replicate n 0))).

(** [XSTATE_CONFIG_FEATURE_MSC_INFO] and the constants of winnt.h. *)
Record XSTATE_CONFIG_FEATURE_MSC_INFO := MkXState {
  xs_SizeOfInfo : Z;
  xs_ContextSize : Z;
  xs_EnabledFeatures : Z;
  xs_Features : list (Z * Z)
}.
Definition zero_xstate : XSTATE_CONFIG_FEATURE_MSC_INFO := MkXState 0 0 0 (replicate 64 (0, 0)).
Definition kXSaveAreaFirstOffset : Z := 0x240.
Definition sizeof_MinidumpAMD64XSaveFormatCetU : Z :=
  Z.of_nat (sizeof MinidumpAMD64XSaveFormatCetU.repr).

(** [MaybeSetXStateData]: the state to set, if any; no result when the context of the
    first thread fails a DCHECK. *)
Definition MaybeSetXStateData (threads : list ThreadSnapshot)
    : option (option XSTATE_CONFIG_FEATURE_MSC_INFO) :=
  match threads with
  | [] => Some None
  | thread :: _ =>
      match thr_context thread with
      | x86_64 c =>
          let enabled_features := CPUContextX86_64.enabled_features c in
          if enabled_features =? 0 then Some None
          else
            o ← CreateFromSnapshot (x86_64 c);
            context_writer ← o;
            let features := xs_Features zero_xstate in
            Some (Some (MkXState 528 (u32 (Z.of_nat (length (context_bytes context_writer))))
              (Z.lor enabled_features XSTATE_COMPACTION_ENABLE_MASK)
              (if negb (Z.land enabled_features XSTATE_MASK_CET_U =? 0)
               then <[XSTATE_CET_U := (kXSaveAreaFirstOffset, sizeof_MinidumpAMD64XSaveFormatCetU)]> features
               else features)))
      | _ => Some None
      end
  end.

Lemma length_assign_utf16 UTF8ToUTF16 (destination : list Z) source :
  (0 < length destination)%nat ->
  length (AssignUTF8ToUTF16 UTF8ToUTF16 destination source) = length destination.
Proof.
  intros Hd. unfold AssignUTF8ToUTF16, c16lcpy. set (s := c_str _).
  assert (length s < length destination)%nat as Hs.
  { pose proof (length_c_str (take (length destination - 1) (snd (UTF8ToUTF16 source) ++
      replicate (length destination - 1) 0))) as H. rewrite length_take in H. unfold s. lia. }
  apply Nat.ltb_lt in Hs as Hs'. rewrite Hs'. apply length_overwrite. len_lia.
Qed.

Lemma assign_utf16_array UTF8ToUTF16 n source :
  (0 < n)%nat ->
  let s := c_str (take (n - 1) (snd (UTF8ToUTF16 source))) in
  AssignUTF8ToUTF16 UTF8ToUTF16 (replicate n 0) source = s ++ 0 :: replicate (n - length s - 1) 0.
Proof.
  intros Hn s. unfold AssignUTF8ToUTF16, c16lcpy. rewrite length_replicate.
  assert (c_str (take (n - 1) (snd (UTF8ToUTF16 source) ++ replicate (n - 1) 0)) = s) as ->.
  { rewrite take_app, take_replicate. unfold s. apply c_str_pad. }
  assert (length s < n)%nat as Hs.
  { pose proof (length_c_str (take (n - 1) (snd (UTF8ToUTF16 source)))) as H.
    rewrite length_take in H. fold s in H. lia. }
  apply Nat.ltb_lt in Hs as Hs'. rewrite Hs'. unfold overwrite. rewrite take_0, drop_replicate.
  rewrite length_app. cbn [length app]. rewrite <-app_assoc. cbn [app]. do 3 f_equal. lia.
Qed.

Module MinidumpMiscInfoWriter.

(** [MINIDUMP_MISC_INFO] and what each of its extensions adds; [SizeOfInfo] is set
    by [Freeze]. *)
Record MISC_INFO := MkInfo {
  Flags1 : Z; ProcessId : Z; ProcessCreateTime : Z; ProcessUserTime : Z; ProcessKernelTime : Z
}.
Record MISC_INFO_2 := MkInfo2 {
  ProcessorMaxMhz : Z; ProcessorCurrentMhz : Z; ProcessorMhzLimit : Z;
  ProcessorMaxIdleState : Z; ProcessorCurrentIdleState : Z
}.
Record TIME_ZONE_INFORMATION := MkTimeZone {
  Bias : Z; StandardName : list Z; StandardDate : list Z; StandardBias : Z;
  DaylightName : list Z; DaylightDate : list Z; DaylightBias : Z
}.
Record MISC_INFO_3 := MkInfo3 {
  ProcessIntegrityLevel : Z; ProcessExecuteFlags : Z; ProtectedProcess : Z; TimeZoneId : Z;
  TimeZone : TIME_ZONE_INFORMATION
}.
Record MISC_INFO_4 := MkInfo4 { InfoBuildString : list Z; DbgBldStr : list Z }.
Record MISC_INFO_5 := MkInfo5 { XStateData : XSTATE_CONFIG_FEATURE_MSC_INFO; ProcessCookie : Z }.

Record t := Make {
  info : MISC_INFO; info_2 : MISC_INFO_2; info_3 : MISC_INFO_3; info_4 : MISC_INFO_4;
  info_5 : MISC_INFO_5; has_xstate_data_ : bool
}.

Definition init : t :=
  Make (MkInfo 0 0 0 0 0) (MkInfo2 0 0 0 0 0)
    (MkInfo3 0 0 0 0 (MkTimeZone 0 (replicate 32 0) (replicate 8 0) 0 (replicate 32 0)
       (replicate 8 0) 0))
    (MkInfo4 (replicate 260 0) (replicate 40 0)) (MkInfo5 zero_xstate 0) false.

(** The bits of [Flags1] (compat/non_win/dbghelp.h). *)
Definition MINIDUMP_MISC1_PROCESS_ID : Z := 0x1.
Definition MINIDUMP_MISC1_PROCESS_TIMES : Z := 0x2.
Definition MINIDUMP_MISC1_PROCESSOR_POWER_INFO : Z := 0x4.
Definition MINIDUMP_MISC3_PROCESS_INTEGRITY : Z := 0x10.
Definition MINIDUMP_MISC3_PROCESS_EXECUTE_FLAGS : Z := 0x20.
Definition MINIDUMP_MISC3_TIMEZONE : Z := 0x40.
Definition MINIDUMP_MISC3_PROTECTED_PROCESS : Z := 0x80.
Definition MINIDUMP_MISC4_BUILDSTRING : Z := 0x100.
Definition MINIDUMP_MISC5_PROCESS_COOKIE : Z := 0x200.

Definition add_flags (i : MISC_INFO) (flags : Z) : MISC_INFO :=
  MkInfo (Z.lor (Flags1 i) flags) (ProcessId i) (ProcessCreateTime i) (ProcessUserTime i)
    (ProcessKernelTime i).
Definition with_info (x : t) (i : MISC_INFO) : t :=
  Make i (info_2 x) (info_3 x) (info_4 x) (info_5 x) (has_xstate_data_ x).
Definition with_info_3 (x : t) (flags : Z) (i : MISC_INFO_3) : t :=
  Make (add_flags (info x) flags) (info_2 x) i (info_4 x) (info_5 x) (has_xstate_data_ x).

Definition SetProcessID (x : t) (process_id : Z) : t :=
  let i := info x in
  with_info x (add_flags (MkInfo (Flags1 i) process_id (ProcessCreateTime i) (ProcessUserTime i)
    (ProcessKernelTime i)) MINIDUMP_MISC1_PROCESS_ID).
Definition SetProcessTimes (x : t) (process_create_time process_user_time process_kernel_time : Z) : t :=
  let i := info x in
  with_info x (add_flags (MkInfo (Flags1 i) (ProcessId i) (AssignTimeT process_create_time)
    process_user_time process_kernel_time) MINIDUMP_MISC1_PROCESS_TIMES).
Definition SetProcessorPowerInfo (x : t) (processor_max_mhz processor_current_mhz processor_mhz_limit
    processor_max_idle_state processor_current_idle_state : Z) : t :=
  Make (add_flags (info x) MINIDUMP_MISC1_PROCESSOR_POWER_INFO)
    (MkInfo2 processor_max_mhz processor_current_mhz processor_mhz_limit processor_max_idle_state
       processor_current_idle_state) (info_3 x) (info_4 x) (info_5 x) (has_xstate_data_ x).
Definition SetProcessIntegrityLevel (x : t) (process_integrity_level : Z) : t :=
  let i := info_3 x in
  with_info_3 x MINIDUMP_MISC3_PROCESS_INTEGRITY (MkInfo3 process_integrity_level
    (ProcessExecuteFlags i) (ProtectedProcess i) (TimeZoneId i) (TimeZone i)).
Definition SetProcessExecuteFlags (x : t) (process_execute_flags : Z) : t :=
  let i := info_3 x in
  with_info_3 x MINIDUMP_MISC3_PROCESS_EXECUTE_FLAGS (MkInfo3 (ProcessIntegrityLevel i)
    process_execute_flags (ProtectedProcess i) (TimeZoneId i) (TimeZone i)).
Definition SetProtectedProcess (x : t) (protected_process : Z) : t :=
  let i := info_3 x in
  with_info_3 x MINIDUMP_MISC3_PROTECTED_PROCESS (MkInfo3 (ProcessIntegrityLevel i)
    (ProcessExecuteFlags i) protected_process (TimeZoneId i) (TimeZone i)).
Definition SetXStateData (x : t) (xstate_data : XSTATE_CONFIG_FEATURE_MSC_INFO) : t :=
  Make (info x) (info_2 x) (info_3 x) (info_4 x) (MkInfo5 xstate_data (ProcessCookie (info_5 x))) true.
Definition SetProcessCookie (x : t) (process_cookie : Z) : t :=
  Make (add_flags (info x) MINIDUMP_MISC5_PROCESS_COOKIE) (info_2 x) (info_3 x) (info_4 x)
    (MkInfo5 (XStateData (info_5 x)) process_cookie) (has_xstate_data_ x).
Definition HasXStateData (x : t) : bool := has_xstate_data_ x.

Section Strings.
  (** [base::UTF8ToUTF16], and the strings the build chooses. *)
  Context (UTF8ToUTF16 : bytes -> bool * list Z) (kCPU kOS : bytes).

Definition SetTimeZone (x : t) (time_zone_id bias : Z) (standard_name : bytes)
    (standard_date : list Z) (standard_bias : Z) (daylight_name : bytes) (daylight_date : list Z)
    (daylight_bias : Z) : t :=
  let i := info_3 x in
  with_info_3 x MINIDUMP_MISC3_TIMEZONE (MkInfo3 (ProcessIntegrityLevel i) (ProcessExecuteFlags i)
    (ProtectedProcess i) time_zone_id
    (MkTimeZone bias (AssignUTF8ToUTF16 UTF8ToUTF16 (StandardName (TimeZone i)) standard_name)
       standard_date standard_bias
       (AssignUTF8ToUTF16 UTF8ToUTF16 (DaylightName (TimeZone i)) daylight_name) daylight_date
       daylight_bias)).
Definition SetBuildString (x : t) (build_string debug_build_string : bytes) : t :=
  Make (add_flags (info x) MINIDUMP_MISC4_BUILDSTRING) (info_2 x) (info_3 x)
    (MkInfo4 (AssignUTF8ToUTF16 UTF8ToUTF16 (InfoBuildString (info_4 x)) build_string)
       (AssignUTF8ToUTF16 UTF8ToUTF16 (DbgBldStr (info_4 x)) debug_build_string))
    (info_5 x) (has_xstate_data_ x).

(** [InitializeFromSnapshot], of the parts of the process snapshot it uses.  The
    quotients of the time zone are those of [int], which rounds towards zero. *)
Definition InitializeFromSnapshot (process_id : Z) (start_time user_time system_time : timeval)
    (threads : list ThreadSnapshot) (s : SystemSnapshot) : option t :=
  let x := SetProcessID init (InRangeCast uint32_t process_id 0) in
  let x := SetProcessorPowerInfo x
             (InRangeCast uint32_t (sys_current_hz s / 1000000) (2 ^ 32 - 1))
             (InRangeCast uint32_t (sys_max_hz s / 1000000) (2 ^ 32 - 1)) 0 0 0 in
  let x := SetProcessTimes x (tv_sec start_time) (TimevalToRoundedSeconds user_time)
             (TimevalToRoundedSeconds system_time) in
  let x := SetTimeZone x (dst_value (sys_dst_status s))
             (Z.quot (sys_standard_offset_seconds s) (-60)) (sys_standard_name s) (replicate 8 0) 0
             (sys_daylight_name s) (replicate 8 0)
             (Z.quot (sys_standard_offset_seconds s - sys_daylight_offset_seconds s) 60) in
  let x := SetBuildString x (BuildString s) (MinidumpMiscInfoDebugBuildString kCPU kOS) in
  xstate ← MaybeSetXStateData threads;
  Some (match xstate with Some d => SetXStateData x d | None => x end).

End Strings.

(** [CalculateSizeOfObjectFromFlags]. *)
Definition has_flag (x : t) (flags : Z) : bool := negb (Z.land (Flags1 (info x)) flags =? 0).
Definition CalculateSizeOfObjectFromFlags (x : t) : Z :=
  if has_xstate_data_ x || has_flag x MINIDUMP_MISC5_PROCESS_COOKIE then 1364
  else if has_flag x MINIDUMP_MISC4_BUILDSTRING then 832
  else if has_flag x (Z.lor (Z.lor MINIDUMP_MISC3_PROCESS_INTEGRITY MINIDUMP_MISC3_PROCESS_EXECUTE_FLAGS)
                        (Z.lor MINIDUMP_MISC3_TIMEZONE MINIDUMP_MISC3_PROTECTED_PROCESS)) then 232
  else if has_flag x MINIDUMP_MISC1_PROCESSOR_POWER_INFO then 44
  else 24.

(** The bytes of [misc_info_], a [MINIDUMP_MISC_INFO_5]. *)
Definition chars (l : list Z) : bytes := concat (map (le_bytes 2) l).
Definition info_bytes (SizeOfInfo : Z) (i : MISC_INFO) : bytes :=
  le_bytes 4 SizeOfInfo ++ le_bytes 4 (Flags1 i) ++ le_bytes 4 (ProcessId i) ++
  le_bytes 4 (ProcessCreateTime i) ++ le_bytes 4 (ProcessUserTime i) ++
  le_bytes 4 (ProcessKernelTime i).
Definition info_2_bytes (i : MISC_INFO_2) : bytes :=
  le_bytes 4 (ProcessorMaxMhz i) ++ le_bytes 4 (ProcessorCurrentMhz i) ++
  le_bytes 4 (ProcessorMhzLimit i) ++ le_bytes 4 (ProcessorMaxIdleState i) ++
  le_bytes 4 (ProcessorCurrentIdleState i).
Definition time_zone_bytes (z : TIME_ZONE_INFORMATION) : bytes :=
  le_bytes 4 (Bias z) ++ chars (StandardName z) ++ chars (StandardDate z) ++
  le_bytes 4 (StandardBias z) ++ chars (DaylightName z) ++ chars (DaylightDate z) ++
  le_bytes 4 (DaylightBias z).
Definition info_3_bytes (i : MISC_INFO_3) : bytes :=
  le_bytes 4 (ProcessIntegrityLevel i) ++ le_bytes 4 (ProcessExecuteFlags i) ++
  le_bytes 4 (ProtectedProcess i) ++ le_bytes 4 (TimeZoneId i) ++ time_zone_bytes (TimeZone i).
Definition info_4_bytes (i : MISC_INFO_4) : bytes := chars (InfoBuildString i) ++ chars (DbgBldStr i).
Definition xstate_bytes (s : XSTATE_CONFIG_FEATURE_MSC_INFO) : bytes :=
  le_bytes 4 (xs_SizeOfInfo s) ++ le_bytes 4 (xs_ContextSize s) ++ le_bytes 8 (xs_EnabledFeatures s) ++
  concat (map (fun f : Z * Z => le_bytes 4 f.1 ++ le_bytes 4 f.2) (xs_Features s)).
Definition misc_info_bytes (SizeOfInfo : Z) (x : t) : bytes :=
  info_bytes SizeOfInfo (info x) ++ info_2_bytes (info_2 x) ++ info_3_bytes (info_3 x) ++
  info_4_bytes (info_4 x) ++ xstate_bytes (XStateData (info_5 x)) ++
  le_bytes 4 (ProcessCookie (info_5 x)).

(** [Freeze], [SizeOfObject] and [WriteObject]. *)
Definition Freeze (x : t) (p : path) : option Tree :=
  let size := CalculateSizeOfObjectFromFlags x in
  match AssignIfInRange uint32_t size with
  | None => None
  | Some SizeOfInfo =>
      Some (Node (stream_at p size
        (fun _ => WriteBuffer (take (Z.to_nat size) (misc_info_bytes SizeOfInfo x)))) [])
  end.

Definition stream (x : t) : StreamWriter := MkStream kMinidumpStreamTypeMiscInfo (Freeze x).
(** The arrays of the structure have their lengths. *)
Definition arrays_ok (x : t) : Prop :=
  length (StandardName (TimeZone (info_3 x))) = 32%nat /\
  length (StandardDate (TimeZone (info_3 x))) = 8%nat /\
  length (DaylightName (TimeZone (info_3 x))) = 32%nat /\
  length (DaylightDate (TimeZone (info_3 x))) = 8%nat /\
  length (InfoBuildString (info_4 x)) = 260%nat /\ length (DbgBldStr (info_4 x)) = 40%nat /\
  length (xs_Features (XStateData (info_5 x))) = 64%nat.

Lemma length_wide_chars l : length (chars l) = (2 * length l)%nat.
Proof. unfold chars. induction l as [|c l IH]; [done|]. cbn [map concat length]. rewrite length_app, IH, length_le_bytes. lia. Qed.

Lemma length_features l :
  length (concat (map (fun f : Z * Z => le_bytes 4 f.1 ++ le_bytes 4 f.2) l)) = (8 * length l)%nat.
Proof. induction l as [|f l IH]; [done|]. cbn [map concat length]. rewrite !length_app, IH, !length_le_bytes. lia. Qed.

Lemma length_misc_info_bytes n x : arrays_ok x -> length (misc_info_bytes n x) = 1364%nat.
Proof.
  intros (H1 & H2 & H3 & H4 & H5 & H6 & H7).
  unfold misc_info_bytes, info_bytes, info_2_bytes, info_3_bytes, time_zone_bytes, info_4_bytes, xstate_bytes.
  by rewrite !length_app, !length_le_bytes, !length_wide_chars, length_features, H1, H2, H3, H4, H5, H6, H7.
Qed.

Lemma size_from_flags x : CalculateSizeOfObjectFromFlags x ∈ [1364; 832; 232; 44; 24].
Proof.
  unfold CalculateSizeOfObjectFromFlags. repeat case_match; set_solver.
Qed.

Lemma size_from_flags_bound x : 0 <= CalculateSizeOfObjectFromFlags x <= 1364.
Proof.
  pose proof (size_from_flags x) as H. rewrite !elem_of_cons, elem_of_nil in H. lia.
Qed.

Lemma misc_info_freeze_owned x : arrays_ok x -> freezes_owned (Freeze x).
Proof.
  intros Hx p t. unfold Freeze. pose proof (size_from_flags_bound x).
  destruct (AssignIfInRange _ _) as [n|]; [|done]. intros <-%(inj Some).
  class_owned (@nil (list slot)); [| constructor | slots_distinct | repeat constructor].
  apply stream_lawful. sized. rewrite length_take, length_misc_info_bytes by done. lia.
Qed.

(** [InitializeFromSnapshot] keeps the arrays, and always sets the build string:
    the stream is a [MINIDUMP_MISC_INFO_4], or with the state of a context a
    [MINIDUMP_MISC_INFO_5]. *)
Lemma misc_info_initialize UTF8ToUTF16 kCPU kOS pid start user system threads s x :
  InitializeFromSnapshot UTF8ToUTF16 kCPU kOS pid start user system threads s = Some x ->
  arrays_ok x /\ CalculateSizeOfObjectFromFlags x = (if has_xstate_data_ x then 1364 else 832).
Proof.
  unfold InitializeFromSnapshot. destruct (MaybeSetXStateData threads) as [o|] eqn:Eo; [|done].
  cbn [mbind option_bind]. intros <-%(inj Some).
  assert (forall d, o = Some d -> length (xs_Features d) = 64%nat) as Hd.
  { intros d ->. unfold MaybeSetXStateData in Eo. destruct threads as [|th l]; [done|].
    destruct (thr_context th) as [| |c| | | |]; try done. case_match; [done|].
    destruct (CreateFromSnapshot (x86_64 c)) as [[w|]|]; [|done..]. cbn [mbind option_bind] in Eo.
    injection Eo as <-. cbn [xs_Features]. case_match; by rewrite ?length_insert. }
  split.
  - destruct o as [d|]; split_and!; simpl; rewrite ?length_assign_utf16 by (simpl; lia); try done.
    by apply Hd.
  - destruct o as [d|]; done.
Qed.

Lemma misc_info_initialize_total UTF8ToUTF16 kCPU kOS pid start user system threads s :
  (forall th, th ∈ threads -> context_ok (thr_context th) = true) ->
  is_Some (InitializeFromSnapshot UTF8ToUTF16 kCPU kOS pid start user system threads s).
Proof.
  intros Hth. unfold InitializeFromSnapshot, MaybeSetXStateData. destruct threads as [|th l]; [by eauto|].
  destruct (context_written _ (Hth th ltac:(left))) as (w & Ew & _).
  destruct (thr_context th); try (cbn [mbind option_bind]; by eauto).
  case_match; [cbn [mbind option_bind]; by eauto|]. rewrite Ew. cbn [mbind option_bind]. by eauto.
Qed.

(** [InitializeFromSnapshot] stores the current frequency of the processor in
    [ProcessorMaxMhz] and the maximum in [ProcessorCurrentMhz], each clamped to 32
    bits: it gives the setter its arguments in the other order. *)
Theorem processor_frequencies_exchanged UTF8ToUTF16 kCPU kOS pid start user system threads s x :
  InitializeFromSnapshot UTF8ToUTF16 kCPU kOS pid start user system threads s = Some x ->
  0 <= sys_current_hz s -> 0 <= sys_max_hz s ->
  ProcessorMaxMhz (info_2 x) = Z.min (sys_current_hz s / 1000000) (2 ^ 32 - 1) /\
  ProcessorCurrentMhz (info_2 x) = Z.min (sys_max_hz s / 1000000) (2 ^ 32 - 1).
Proof.
  unfold InitializeFromSnapshot. destruct (MaybeSetXStateData threads) as [o|]; [|done].
  cbn [mbind option_bind]. intros <-%(inj Some) Hc Hm.
  assert (forall hz, 0 <= hz ->
    InRangeCast uint32_t (hz / 1000000) (2 ^ 32 - 1) = Z.min (hz / 1000000) (2 ^ 32 - 1)) as Hr.
  { intros hz Hz. apply (in_range_cast_clamps 32); [done|apply Z.div_pos; lia]. }
  rewrite <-!Hr by done. by destruct o.
Qed.

Lemma processor_frequencies_exchanged_witness :
  exists x,
    InitializeFromSnapshot (fun s => (true, s)) [] [] 1 (MkTimeval 0 0) (MkTimeval 0 0) (MkTimeval 0 0)
      [] example_system = Some x /\
    ProcessorMaxMhz (info_2 x) = 2000 /\ ProcessorCurrentMhz (info_2 x) = 2800.
Proof.
  eexists. split; [reflexivity|].
  exact (processor_frequencies_exchanged (fun s => (true, s)) [] [] 1 (MkTimeval 0 0) (MkTimeval 0 0)
    (MkTimeval 0 0) [] example_system _ eq_refl ltac:(vm_compute; congruence)
    ltac:(vm_compute; congruence)).
Defined.

End MinidumpMiscInfoWriter.
