(* ===== verification/MinidumpFile.v ===== *)
(** * The minidump file (minidump/minidump_file_writer.cc)

    [MinidumpFileWriter]: the streams of a file and its header, their
    initialization from a snapshot of a process, and [WriteMinidump], which
    writes the header a second time, with its signature, once everything else is
    in the file. *)

From S2P Require Import Prelude.
From S2P Require Import Numeric.
From S2P Require Import Structs.
From S2P Require Import CPUContext.
From S2P Require Import MinidumpContext.
From S2P Require Import FileIO.
From S2P Require Import Uuid.
From S2P Require Import MemoryRanges.
From S2P Require Import MinidumpWritable.
From S2P Require Import MinidumpObjects.
From S2P Require Import MinidumpStreams.
From S2P Require Import MinidumpModules.
From S2P Require Import MinidumpSystem.

Definition MINIDUMP_SIGNATURE : Z := 1347241037.
Definition MINIDUMP_VERSION : Z := 42899.
Definition MiniDumpNormal : Z := 0.
Definition MiniDumpWithAvxXStateContext : Z := 2097152.

Module MinidumpFileWriter.

(** [header_.TimeDateStamp], [header_.Flags], [streams_] and [stream_types_];
    [header_.StreamDirectoryRva] is at field 0 of the root. *)
Record t := Make {
  TimeDateStamp : Z;
  Flags : Z;
  streams_ : list StreamWriter;
  stream_types_ : gset Z
}.

(** The constructor. *)
Definition init : t := Make 0 MiniDumpNormal [] ∅.

(** [SetTimestamp]. *)
Definition SetTimestamp (x : t) (timestamp : Z) : t :=
  Make (AssignTimeT timestamp) (Flags x) (streams_ x) (stream_types_ x).

(** [AddStream]: a second stream of the same type is discarded. *)
Definition AddStream (x : t) (stream : StreamWriter) : bool * t :=
  if decide (StreamType stream ∈ stream_types_ x) then (false, x)
  else (true, Make (TimeDateStamp x) (Flags x) (streams_ x ++ [stream])
                ({[StreamType stream]} ∪ stream_types_ x)).

(** [AddUserExtensionStream]. *)
Definition AddUserExtensionStream (memory : process_memory) (x : t) (stream_type size : Z)
    (data : option bytes) : bool * t :=
  AddStream x (user_stream memory (user_stream_from_extension stream_type size data)).

(** The bytes of [header_]. *)
Definition header_bytes (x : t) (signature : Z) (m : fields_map) : bytes :=
  le_bytes 4 signature ++ le_bytes 4 MINIDUMP_VERSION ++
  le_bytes 4 (Z.of_nat (length (streams_ x))) ++ le_bytes 4 (field m ([], 0%nat)) ++
  le_bytes 4 0 ++ le_bytes 4 (TimeDateStamp x) ++ le_bytes 8 (Flags x).

(** [DirectoryListEntry] of the [i]-th stream: the bytes of its
    [MINIDUMP_DIRECTORY]. *)
Definition directory_bytes (s : StreamWriter) (m : fields_map) (p : path) : bytes :=
  le_bytes 4 (StreamType s) ++ descriptor_bytes m (directory_entry p).

(** [WillWriteAtOffsetImpl]. *)
Definition will_write (x : t) (offset : Z) : option (list (slot * Z)) :=
  let directory_offset := match streams_ x with [] => 0 | _ => u64 (offset + 32) end in
  match AssignIfInRange uint32_t directory_offset with
  | None => None
  | Some rva => Some [(([], 0%nat), rva)]
  end.

(** The root object: [SizeOfObject], [WillWriteAtOffsetImpl] and [WriteObject]. *)
Definition root_object (x : t) (signature : Z) : Writable :=
  MkWritable [] (32 + Z.of_nat (length (streams_ x)) * 12) 4 kPhaseEarly [] [] [] []
    (will_write x)
    (fun m => WriteVectors (header_bytes x signature m ::
                entries_bytes directory_bytes m [] 0 (streams_ x))).

(** [Freeze] and [Children], when [header_.Signature] is [signature]. *)
Definition Freeze (x : t) (signature : Z) : option Tree :=
  match freeze_children [] 0 (map FreezeStream (streams_ x)) with
  | None => None
  | Some ts =>
      if negb (length (streams_ x) =? size (stream_types_ x))%nat then None
      else match AssignIfInRange uint32_t (Z.of_nat (length (streams_ x))) with
           | None => None
           | Some _ => Some (Node (root_object x signature) ts)
           end
  end.

(** ** Initialization from a snapshot *)

(** [ProcessSnapshot] (snapshot/process_snapshot.h). *)
Record ProcessSnapshot := MkProcessSnapshot {
  ps_process_id : Z;
  ps_snapshot_time : timeval;
  ps_start_time : timeval;
  ps_user_time : timeval;
  ps_system_time : timeval;
  ps_system : SystemSnapshot;
  ps_threads : list ThreadSnapshot;
  ps_exception : option ExceptionSnapshot;
  ps_modules : list ModuleSnapshot;
  ps_unloaded_modules : list UnloadedModuleSnapshot;
  ps_report_id : UUID;
  ps_client_id : UUID;
  ps_annotations : string_map bytes;
  ps_address_mask : option Z;
  ps_memory_map : list MINIDUMP_MEMORY_INFO;
  ps_handles : list HandleSnapshot;
  ps_extra_memory : list MemorySnapshot
}.

Section FromSnapshot.
  (** [base::UTF8ToUTF16], the strings chosen by the build, and the memory of the
      process. *)
  Context (UTF8ToUTF16 : bytes -> bool * list Z) (kCPU kOS : bytes) (memory : process_memory).

(** [AddStream] with the [DCHECK] of its result. *)
Definition add_checked (x : t) (s : StreamWriter) : option t :=
  match AddStream x s with (true, x') => Some x' | (false, _) => None end.

(** The streams that are added under a condition. *)
Definition non_empty {A} (l : list A) : bool := match l with [] => false | _ => true end.
Definition add_thread_names (x : t) (threads : list ThreadSnapshot) (thread_id_map : gmap Z Z)
    : option t :=
  if existsb (fun s => non_empty (thr_name s)) threads then
    names ← thread_names_from_snapshots threads thread_id_map;
    add_checked x (thread_name_stream UTF8ToUTF16 names)
  else Some x.
Definition add_exception (x : t) (e : option ExceptionSnapshot) (thread_id_map : gmap Z Z)
    : option t :=
  match e with
  | None => Some x
  | Some exception_snapshot =>
      exception ← MinidumpExceptionWriter.InitializeFromSnapshot exception_snapshot thread_id_map;
      add_checked x (MinidumpExceptionWriter.stream exception)
  end.
Definition add_if (b : bool) (x : t) (s : StreamWriter) : option t :=
  if b then add_checked x s else Some x.

(** The loops over the custom streams of the modules: one that would take the
    place of the memory list, or of a stream already added, is discarded. *)
Fixpoint add_user_streams (x : t) (l : list UserMinidumpStream) : t :=
  match l with
  | [] => x
  | s :: rest =>
      if user_stream_type s =? kMinidumpStreamTypeMemoryList then add_user_streams x rest
      else add_user_streams (snd (AddStream x (user_stream memory (user_stream_from_snapshot s)))) rest
  end.

(** The [Flags] of the header. *)
Definition set_flags (x : t) (flags : Z) : t :=
  Make (TimeDateStamp x) flags (streams_ x) (stream_types_ x).

(** [InitializeFromSnapshot]; [None] stands for a failed [CHECK] or [DCHECK]. *)
Definition InitializeFromSnapshot (process_snapshot : ProcessSnapshot) : option t :=
  let x := SetTimestamp init (tv_sec (ps_snapshot_time process_snapshot)) in
  system_info ← MinidumpSystemInfoWriter.InitializeFromSnapshot (ps_system process_snapshot);
  x ← add_checked x (MinidumpSystemInfoWriter.stream UTF8ToUTF16 system_info);
  misc_info ← MinidumpMiscInfoWriter.InitializeFromSnapshot UTF8ToUTF16 kCPU kOS
    (ps_process_id process_snapshot) (ps_start_time process_snapshot)
    (ps_user_time process_snapshot) (ps_system_time process_snapshot)
    (ps_threads process_snapshot) (ps_system process_snapshot);
  let x := if MinidumpMiscInfoWriter.HasXStateData misc_info
           then set_flags x (Z.lor (Flags x) MiniDumpWithAvxXStateContext) else x in
  x ← add_checked x (MinidumpMiscInfoWriter.stream misc_info);
  '(thread_list, thread_id_map, memory_list) ←
    MinidumpThreadListWriter.InitializeFromSnapshot [length (streams_ x)]
      (ps_threads process_snapshot) MinidumpMemoryListWriter.init;
  x ← add_checked x (MinidumpThreadListWriter.stream memory thread_list);
  x ← add_thread_names x (ps_threads process_snapshot) thread_id_map;
  x ← add_exception x (ps_exception process_snapshot) thread_id_map;
  x ← add_checked x
        (module_list_stream UTF8ToUTF16 (modules_from_snapshots (ps_modules process_snapshot)));
  x ← add_if (non_empty (ps_unloaded_modules process_snapshot)) x
        (unloaded_module_stream UTF8ToUTF16
           (unloaded_modules_from_snapshots (ps_unloaded_modules process_snapshot)));
  let crashpad_info := MinidumpCrashpadInfoWriter.InitializeFromSnapshot
    (ps_report_id process_snapshot) (ps_client_id process_snapshot)
    (ps_annotations process_snapshot) (ps_address_mask process_snapshot)
    (ps_modules process_snapshot) in
  x ← add_if (MinidumpCrashpadInfoWriter.IsUseful crashpad_info) x
        (MinidumpCrashpadInfoWriter.stream crashpad_info);
  x ← add_if (non_empty (ps_memory_map process_snapshot)) x
        (memory_info_stream (ps_memory_map process_snapshot));
  x ← add_if (non_empty (ps_handles process_snapshot)) x
        (handle_data_stream UTF8ToUTF16 (handles_from_snapshots (ps_handles process_snapshot)));
  let memory_list :=
    MinidumpMemoryListWriter.AddFromSnapshot memory_list (ps_extra_memory process_snapshot) in
  let memory_list := match ps_exception process_snapshot with
                     | None => memory_list
                     | Some e => MinidumpMemoryListWriter.AddFromSnapshot memory_list (exc_extra_memory e)
                     end in
  let x := add_user_streams x (concat (map mod_custom_streams (ps_modules process_snapshot))) in
  add_checked x (MinidumpMemoryListWriter.stream memory memory_list).

End FromSnapshot.

Section WriteMinidump.
  Context {F : Type} `{FileWriterInterface F}.

(** [MinidumpWritable::WriteEverything]: [Freeze] and the engine. *)
Definition write_everything (x : t) (signature : Z) (f : F) : result Heap * F :=
  match Freeze x signature with
  | None => (Error, f)
  | Some tree => MinidumpWritable.WriteEverything tree f
  end.

(** [WriteMinidump]. *)
Definition WriteMinidump (x : t) (allow_seek : bool) (f : F) : bool * F :=
  if allow_seek then
    let '(start_offset, f1) := Seek f 0 SEEK_CUR in
    if start_offset <? 0 then (false, f1)
    else match write_everything x 0 f1 with
         | (Ok h, f2) =>
             let '(end_offset, f3) := Seek f2 0 SEEK_CUR in
             if end_offset <? 0 then (false, f3)
             else
               let '(o, f4) := Seek f3 start_offset SEEK_SET in
               if o <? 0 then (false, f4)
               else match Write f4 (header_bytes x MINIDUMP_SIGNATURE (fields h)) with
                    | (false, f5) => (false, f5)
                    | (true, f5) =>
                        let '(e, f6) := Seek f5 end_offset SEEK_SET in (0 <=? e, f6)
                    end
         | (_, f2) => (false, f2)
         end
  else
    match write_everything x MINIDUMP_SIGNATURE f with
    | (Ok _, f') => (true, f')
    | (_, f') => (false, f')
    end.

(** [WriteEverything]. *)
Definition WriteEverything (x : t) (f : F) : bool * F := WriteMinidump x true f.

End WriteMinidump.

(** ** Streams are added once *)

(** The invariant of [AddStream]: the types of the streams are distinct and are
    those of [stream_types_]. *)
Definition types_ok (x : t) : Prop :=
  NoDup (map StreamType (streams_ x)) /\
  (forall ty, ty ∈ stream_types_ x <-> ty ∈ map StreamType (streams_ x)).

Lemma init_types_ok : types_ok init.
Proof. split; [constructor|]. intros ty. simpl. set_solver. Qed.

Lemma types_ok_size x : types_ok x -> length (streams_ x) = size (stream_types_ x).
Proof.
  intros [Hn Hs]. assert (stream_types_ x = list_to_set (map StreamType (streams_ x))) as ->.
  { apply set_eq. intros ty. by rewrite Hs, elem_of_list_to_set. }
  by rewrite size_list_to_set, length_map.
Qed.

Lemma add_stream_types_ok x s : types_ok x -> types_ok (snd (AddStream x s)).
Proof.
  intros [Hn Hs]. unfold AddStream. case_decide as Hin; [done|]. split; simpl.
  - rewrite map_app. simpl. apply NoDup_app. split_and!; [done| |by apply NoDup_singleton].
    intros ty H1 H2. apply Hin, Hs. set_solver.
  - intros ty. rewrite map_app. simpl. rewrite elem_of_union, Hs, elem_of_app. set_solver.
Qed.

(** [AddStream] keeps the first stream of each type: it refuses a stream
    exactly when one of its type is present, and the types of the directory stay
    distinct and in step with [stream_types_]. *)
Theorem add_stream_keeps_first (x : t) (s : StreamWriter) :
  types_ok x ->
  types_ok (snd (AddStream x s)) /\
  (fst (AddStream x s) = false <-> StreamType s ∈ map StreamType (streams_ x)) /\
  streams_ (snd (AddStream x s)) =
    streams_ x ++ (if fst (AddStream x s) then [s] else []).
Proof.
  intros Hx. split; [by apply add_stream_types_ok|]. destruct Hx as [_ Hs]. unfold AddStream.
  rewrite <-Hs. case_decide; simpl; [|done]. split; [done|by rewrite app_nil_r].
Qed.

Lemma add_stream_keeps_first_witness :
  let s := MkStream 7 (fun _ => None) in
  let x := snd (AddStream init s) in
  types_ok x /\ fst (AddStream x s) = false /\ streams_ (snd (AddStream x s)) = [s].
Proof.
  intros s x. destruct (add_stream_keeps_first init s init_types_ok) as [Hx _].
  destruct (add_stream_keeps_first x s Hx) as (_ & [_ Hf] & Hs).
  split; [exact Hx|]. assert (fst (AddStream x s) = false) as E by (apply Hf; vm_compute; left).
  split; [exact E|]. rewrite Hs, E. reflexivity.
Defined.

(** ** The streams of a snapshot *)

(** The classes of the streams build owned trees. *)
Definition streams_owned (x : t) : Prop :=
  Forall (fun s => freezes_owned (FreezeStream s)) (streams_ x).

(** A writer with given streams and a given timestamp, whose streams can be
    written. *)
Definition has_streams (x : t) (l : list StreamWriter) (y : Z) : Prop :=
  types_ok x /\ streams_ x = l /\ TimeDateStamp x = y /\ streams_owned x.

Lemma add_next x s l y :
  has_streams x l y -> StreamType s ∉ map StreamType l -> freezes_owned (FreezeStream s) ->
  exists x', add_checked x s = Some x' /\ has_streams x' (l ++ [s]) y.
Proof.
  intros (Hx & <- & <- & Ho) Hn Hf. unfold add_checked.
  pose proof (add_stream_types_ok x s Hx) as Hx'.
  unfold AddStream in *. destruct Hx as [_ Hs]. rewrite <-Hs in Hn.
  rewrite decide_False in Hx' |- * by done. eexists. split; [done|]. split; [exact Hx'|].
  split_and!; [done|done|]. apply Forall_app_2; [done|by apply Forall_singleton].
Qed.

Lemma add_if_next b x s l y :
  has_streams x l y -> StreamType s ∉ map StreamType l -> freezes_owned (FreezeStream s) ->
  exists x', add_if b x s = Some x' /\ has_streams x' (l ++ (if b then [s] else [])) y.
Proof.
  intros Hx Hn Hf. unfold add_if. destruct b; [by apply add_next|]. exists x. by rewrite app_nil_r.
Qed.

(** The user streams that are kept, given the types already there. *)
Fixpoint kept_user_streams (present : list Z) (l : list UserMinidumpStream)
    : list UserMinidumpStream :=
  match l with
  | [] => []
  | s :: rest =>
      let ty := user_stream_type s in
      if (ty =? kMinidumpStreamTypeMemoryList) || bool_decide (ty ∈ present)
      then kept_user_streams present rest
      else s :: kept_user_streams (present ++ [ty]) rest
  end.
Definition user_stream_writers (memory : process_memory) (l : list UserMinidumpStream)
    : list StreamWriter :=
  map (fun s => user_stream memory (user_stream_from_snapshot s)) l.

Lemma add_user_streams_next memory x l ss y :
  has_streams x ss y -> reads_exactly memory ->
  Forall (fun s => user_stream_ok memory (user_stream_from_snapshot s)) l ->
  has_streams (add_user_streams memory x l)
    (ss ++ user_stream_writers memory (kept_user_streams (map StreamType ss) l)) y.
Proof.
  intros Hx Hm Hl. revert x ss Hx.
  induction Hl as [|s l Hs _ IH]; intros x ss Hx; cbn [add_user_streams kept_user_streams].
  { by rewrite app_nil_r. }
  destruct (user_stream_type s =? kMinidumpStreamTypeMemoryList); cbn [orb]; [by apply IH|].
  set (w := user_stream memory (user_stream_from_snapshot s)).
  pose proof Hx as ([_ Hin] & Ets & _ & _). rewrite Ets in Hin.
  case_bool_decide as Hd.
  - unfold AddStream. rewrite decide_True; [by apply IH|]. by apply Hin.
  - destruct (add_next x w ss y Hx Hd) as (x' & E & Hx'); [by apply freeze_user_stream_owned|].
    unfold add_checked in E. destruct (AddStream x w) as [[] x'']; [|done]. injection E as ->.
    specialize (IH x' _ Hx'). rewrite <-app_assoc, map_app in IH. exact IH.
Qed.

Lemma kept_user_streams_fresh present l s :
  s ∈ kept_user_streams present l ->
  s ∈ l /\ user_stream_type s ∉ present /\ user_stream_type s <> kMinidumpStreamTypeMemoryList.
Proof.
  revert present. induction l as [|s' l IH]; intros present; [by intros ?%not_elem_of_nil|].
  assert (forall present', s ∈ kept_user_streams present' l -> (forall ty, ty ∈ present -> ty ∈ present') ->
    s ∈ s' :: l /\ user_stream_type s ∉ present /\
    user_stream_type s <> kMinidumpStreamTypeMemoryList) as IH'.
  { intros present' (? & Hp & ?)%IH Hsub. split_and!; [by right| |done]. intros ?. by apply Hp, Hsub. }
  cbn [kept_user_streams].
  destruct (Z.eqb_spec (user_stream_type s') kMinidumpStreamTypeMemoryList);
    cbn [orb]; [intros H; by eapply IH'|].
  case_bool_decide as Hin; [intros H; by eapply IH'|].
  intros [->|Hk]%elem_of_cons; [split_and!; [left|done|done]|].
  eapply IH'; [exact Hk|]. intros ty ?. apply elem_of_app. by left.
Qed.

(** No user stream takes the place of the memory list. *)
Lemma memory_list_fresh memory ss l :
  kMinidumpStreamTypeMemoryList ∉ map StreamType ss ->
  kMinidumpStreamTypeMemoryList ∉ map StreamType
    (ss ++ user_stream_writers memory (kept_user_streams (map StreamType ss) l)).
Proof.
  intros Hss. rewrite map_app. intros [Hin|Hin]%elem_of_app; [done|].
  unfold user_stream_writers in Hin. rewrite map_map in Hin.
  apply list_elem_of_fmap in Hin as (u & Eu & Hu). by apply kept_user_streams_fresh in Hu as (_ & _ & ?).
Qed.

(** The flags of the header have no influence on the streams. *)
Lemma add_flagged_next (b : bool) x z s l y :
  has_streams x l y -> StreamType s ∉ map StreamType l -> freezes_owned (FreezeStream s) ->
  exists x', add_checked (if b then set_flags x z else x) s = Some x' /\ has_streams x' (l ++ [s]) y.
Proof. intros. apply add_next; [|done..]. by destruct b. Qed.

(** A type that is none of those of a concatenation of conditional lists. *)
Ltac fresh_type :=
  repeat first
    [progress rewrite map_app
    |apply not_elem_of_app; split
    |apply not_elem_of_nil
    |match goal with |- _ ∉ map StreamType (if ?b then _ else _) => destruct b end
    |match goal with |- _ ∉ map StreamType (match ?b with _ => _ end) => destruct b end
    |progress cbn [map]
    |apply not_elem_of_cons; split; [let E := fresh in intros E; vm_compute in E; discriminate E|]].

Section FromSnapshotSpec.
  Context (UTF8ToUTF16 : bytes -> bool * list Z) (kCPU kOS : bytes) (memory : process_memory).

(** The writers [InitializeFromSnapshot] creates for the streams that hold one. *)
Record file_parts := MkFileParts {
  fp_system : MinidumpSystemInfoWriter.t;
  fp_misc : MinidumpMiscInfoWriter.t;
  fp_threads : MinidumpThreadListWriter.t;
  fp_ids : gmap Z Z;
  fp_names : list MinidumpThreadNameWriter;
  fp_exception : option MinidumpExceptionWriter.t;
  fp_memory : MinidumpMemoryListWriter.t
}.

Definition exception_part (e : option ExceptionSnapshot) (ids : gmap Z Z)
    : option (option MinidumpExceptionWriter.t) :=
  match e with
  | None => Some None
  | Some e => w ← MinidumpExceptionWriter.InitializeFromSnapshot e ids; Some (Some w)
  end.

(** The memory of the memory list: the stacks, and the memory the threads, the
    process and the exception add, in this order. *)
Definition memory_part (s : ProcessSnapshot) (ml : MinidumpMemoryListWriter.t)
    : MinidumpMemoryListWriter.t :=
  let ml := MinidumpMemoryListWriter.AddFromSnapshot ml (ps_extra_memory s) in
  match ps_exception s with
  | None => ml
  | Some e => MinidumpMemoryListWriter.AddFromSnapshot ml (exc_extra_memory e)
  end.

(** The thread list is the third stream, hence its address. *)
Definition parts_of (s : ProcessSnapshot) : option file_parts :=
  system ← MinidumpSystemInfoWriter.InitializeFromSnapshot (ps_system s);
  misc ← MinidumpMiscInfoWriter.InitializeFromSnapshot UTF8ToUTF16 kCPU kOS (ps_process_id s)
           (ps_start_time s) (ps_user_time s) (ps_system_time s) (ps_threads s) (ps_system s);
  '(threads, ids, ml) ← MinidumpThreadListWriter.InitializeFromSnapshot [2%nat] (ps_threads s)
                          MinidumpMemoryListWriter.init;
  names ← thread_names_from_snapshots (ps_threads s) ids;
  exception ← exception_part (ps_exception s) ids;
  Some (MkFileParts system misc threads ids names exception (memory_part s ml)).

Definition crashpad_info_writer (s : ProcessSnapshot) : MinidumpCrashpadInfoWriter.t :=
  MinidumpCrashpadInfoWriter.InitializeFromSnapshot (ps_report_id s) (ps_client_id s)
    (ps_annotations s) (ps_address_mask s) (ps_modules s).
Definition has_thread_name (s : ProcessSnapshot) : bool :=
  existsb (fun th => non_empty (thr_name th)) (ps_threads s).

(** The well-known streams, in the order of the file. *)
Definition well_known_streams (s : ProcessSnapshot) (f : file_parts) : list StreamWriter :=
  [MinidumpSystemInfoWriter.stream UTF8ToUTF16 (fp_system f);
   MinidumpMiscInfoWriter.stream (fp_misc f);
   MinidumpThreadListWriter.stream memory (fp_threads f)] ++
  (if has_thread_name s then [thread_name_stream UTF8ToUTF16 (fp_names f)] else []) ++
  (match fp_exception f with None => [] | Some w => [MinidumpExceptionWriter.stream w] end) ++
  [module_list_stream UTF8ToUTF16 (modules_from_snapshots (ps_modules s))] ++
  (if non_empty (ps_unloaded_modules s)
   then [unloaded_module_stream UTF8ToUTF16
           (unloaded_modules_from_snapshots (ps_unloaded_modules s))] else []) ++
  (if MinidumpCrashpadInfoWriter.IsUseful (crashpad_info_writer s)
   then [MinidumpCrashpadInfoWriter.stream (crashpad_info_writer s)] else []) ++
  (if non_empty (ps_memory_map s) then [memory_info_stream (ps_memory_map s)] else []) ++
  (if non_empty (ps_handles s)
   then [handle_data_stream UTF8ToUTF16 (handles_from_snapshots (ps_handles s))] else []).

(** All the streams: the user streams that take the place of no other, and the
    memory list at the end. *)
Definition process_streams (s : ProcessSnapshot) (f : file_parts) : list StreamWriter :=
  let well_known := well_known_streams s f in
  well_known ++
  user_stream_writers memory (kept_user_streams (map StreamType well_known)
                                (concat (map mod_custom_streams (ps_modules s)))) ++
  [MinidumpMemoryListWriter.stream memory (fp_memory f)].

Lemma add_thread_names_next x s ids names l y :
  has_streams x l y -> kMinidumpStreamTypeThreadNameList ∉ map StreamType l ->
  thread_names_from_snapshots (ps_threads s) ids = Some names ->
  exists x', add_thread_names UTF8ToUTF16 x (ps_threads s) ids = Some x' /\
    has_streams x' (l ++ (if has_thread_name s then [thread_name_stream UTF8ToUTF16 names] else [])) y.
Proof.
  intros Hx Hn En. unfold add_thread_names, has_thread_name. destruct (existsb _ _).
  - rewrite En. cbn [mbind option_bind].
    apply (add_next x (thread_name_stream UTF8ToUTF16 names)); [done..|].
    apply freeze_thread_names_owned.
  - exists x. by rewrite app_nil_r.
Qed.

(** An exception raised by a thread of the map, whose context can be written. *)
Definition exception_snapshot_ok (ids : list Z) (e : ExceptionSnapshot) : Prop :=
  exc_thread_id e ∈ ids /\
  (length (exc_codes e) <= MinidumpExceptionWriter.EXCEPTION_MAXIMUM_PARAMETERS)%nat /\
  context_ok (exc_context e) = true /\ Forall snapshot_ok (exc_extra_memory e).

Lemma exception_part_total e ids threads :
  (forall s, s ∈ threads -> is_Some (ids !! thr_id s)) ->
  (forall e', e = Some e' -> exception_snapshot_ok (map thr_id threads) e') ->
  is_Some (exception_part e ids).
Proof.
  intros Hids He. unfold exception_part. destruct e as [e|]; [|eauto].
  destruct (He e eq_refl) as (Hin & Hc & Hctx & _).
  destruct (context_written _ Hctx) as (w & Ew & _).
  apply list_elem_of_fmap in Hin as (th & Eth & Hin). destruct (Hids th Hin) as [id Eid].
  unfold MinidumpExceptionWriter.InitializeFromSnapshot,
    MinidumpExceptionWriter.SetExceptionInformation.
  apply Nat.leb_le in Hc. rewrite Eth, Eid, Hc, Ew. by eauto.
Qed.

Lemma add_exception_next x e ids o ids' l y :
  has_streams x l y -> kMinidumpStreamTypeException ∉ map StreamType l ->
  exception_part e ids = Some o -> (forall e', e = Some e' -> exception_snapshot_ok ids' e') ->
  exists x', add_exception x e ids = Some x' /\
    has_streams x' (l ++ (match o with None => [] | Some w => [MinidumpExceptionWriter.stream w] end)) y.
Proof.
  intros Hx Hn Eo He. unfold add_exception, exception_part in *.
  destruct e as [e|]; [|injection Eo as <-; exists x; by rewrite app_nil_r].
  destruct (MinidumpExceptionWriter.InitializeFromSnapshot e ids) as [w|] eqn:Ew; [|done].
  injection Eo as <-. pose proof (MinidumpExceptionWriter.initialize_ok e ids w Ew).
  cbn [mbind option_bind]. apply (add_next x (MinidumpExceptionWriter.stream w)); [done..|].
  by apply MinidumpExceptionWriter.exception_freeze_owned.
Qed.

(** What the writers need of a process: a known system, and memory and contexts that
    can be written. *)
Record process_ok (s : ProcessSnapshot) : Prop := {
  pok_memory : reads_exactly memory;
  pok_system : MinidumpSystemInfoWriter.system_ok (ps_system s);
  pok_threads : Z.of_nat (length (ps_threads s)) <= 2 ^ 32;
  pok_stacks : Forall MinidumpThreadListWriter.snapshot_thread_ok (ps_threads s);
  pok_exception : forall e, ps_exception s = Some e ->
    exception_snapshot_ok (map thr_id (ps_threads s)) e;
  pok_extra : Forall snapshot_ok (ps_extra_memory s);
  pok_user : Forall (fun u => user_stream_ok memory (user_stream_from_snapshot u))
               (concat (map mod_custom_streams (ps_modules s)))
}.

(** The writers exist, and those of the threads and of the memory can be written. *)
Lemma parts_total s :
  process_ok s ->
  exists f ml, parts_of s = Some f /\
    MinidumpSystemInfoWriter.InitializeFromSnapshot (ps_system s) = Some (fp_system f) /\
    MinidumpSystemInfoWriter.describes (ps_system s) (fp_system f) /\
    MinidumpMiscInfoWriter.InitializeFromSnapshot UTF8ToUTF16 kCPU kOS (ps_process_id s)
      (ps_start_time s) (ps_user_time s) (ps_system_time s) (ps_threads s) (ps_system s) =
      Some (fp_misc f) /\
    MinidumpThreadListWriter.InitializeFromSnapshot [2%nat] (ps_threads s)
      MinidumpMemoryListWriter.init = Some (fp_threads f, fp_ids f, ml) /\
    thread_names_from_snapshots (ps_threads s) (fp_ids f) = Some (fp_names f) /\
    exception_part (ps_exception s) (fp_ids f) = Some (fp_exception f) /\
    fp_memory f = memory_part s ml /\
    Forall MinidumpThreadWriter.thread_ok (fp_threads f) /\
    Forall snapshot_ok (MinidumpMemoryListWriter.children_ (fp_memory f)).
Proof.
  intros [Hmem Hsys Hth Hst Hexc Hextra Huser]. unfold parts_of.
  assert (forall th, th ∈ ps_threads s -> context_ok (thr_context th) = true) as Hctx.
  { rewrite Forall_forall in Hst. intros th Hin. by apply (Hst th Hin). }
  destruct (MinidumpSystemInfoWriter.system_info_describes _ Hsys) as (sys & -> & Hd).
  destruct (MinidumpMiscInfoWriter.misc_info_initialize_total UTF8ToUTF16 kCPU kOS (ps_process_id s)
    (ps_start_time s) (ps_user_time s) (ps_system_time s) (ps_threads s) (ps_system s) Hctx) as [misc ->].
  destruct (MinidumpThreadListWriter.initialize_total [2%nat] (ps_threads s)
    MinidumpMemoryListWriter.init Hth Hst) as (threads & ids & ml & -> & Hids & Hthreads & Hml);
    [constructor|].
  destruct (thread_names_total (ps_threads s) ids Hids) as [names En].
  destruct (exception_part_total (ps_exception s) ids (ps_threads s) Hids Hexc) as [o Eo].
  cbn [mbind option_bind]. rewrite En. cbn [mbind option_bind]. rewrite Eo.
  eexists _, ml. split; [reflexivity|]. cbn [fp_system fp_misc fp_threads fp_ids fp_names fp_exception fp_memory].
  split_and!; try done. unfold memory_part. destruct (ps_exception s) as [e|] eqn:Ee;
    rewrite ?MinidumpThreadListWriter.add_memory_children; repeat apply Forall_app_2; try done.
  by destruct (Hexc e eq_refl) as (_ & _ & _ & ?).
Qed.

Lemma initialize_from_snapshot_adds (s : ProcessSnapshot) :
  process_ok s ->
  exists x f, InitializeFromSnapshot UTF8ToUTF16 kCPU kOS memory s = Some x /\ parts_of s = Some f /\
    types_ok x /\ streams_owned x /\ TimeDateStamp x = u32 (tv_sec (ps_snapshot_time s)) /\
    streams_ x = process_streams s f.
Proof.
  intros Hs. destruct (parts_total s Hs)
    as (f & ml & Ef & Esys & Hd & Emisc & Eth & Enames & Eexc & Eml & Hthreads & Hchildren).
  pose proof Hs as [Hmem Hsys _ _ Hexc _ Huser].
  unfold InitializeFromSnapshot, process_streams, well_known_streams.
  set (y := wrap 32 (tv_sec (ps_snapshot_time s))). set (x0 := SetTimestamp init _).
  rewrite Esys. cbn [mbind option_bind].
  edestruct (add_next x0) as (x1 & -> & H1);
    [split_and!; [apply init_types_ok|reflexivity|reflexivity|constructor]|fresh_type
    |apply MinidumpSystemInfoWriter.system_info_freeze_owned, Hd|].
  cbn [mbind option_bind]. rewrite Emisc. cbn [mbind option_bind].
  destruct (MinidumpMiscInfoWriter.misc_info_initialize _ _ _ _ _ _ _ _ _ _ Emisc) as [Harr _].
  edestruct (add_flagged_next (MinidumpMiscInfoWriter.HasXStateData (fp_misc f)) x1)
    as (x2 & -> & H2); [exact H1|fresh_type|by apply MinidumpMiscInfoWriter.misc_info_freeze_owned|].
  cbn [mbind option_bind].
  assert (length (streams_ x2) = 2%nat) as -> by (destruct H2 as (_ & -> & _); done).
  rewrite Eth. cbn [mbind option_bind].
  edestruct (add_next x2 (MinidumpThreadListWriter.stream memory (fp_threads f))) as (x3 & -> & H3);
    [exact H2|fresh_type|by apply MinidumpThreadListWriter.thread_list_freeze_owned|].
  cbn [mbind option_bind].
  edestruct (add_thread_names_next x3 s) as (x4 & -> & H4); [exact H3|fresh_type|exact Enames|].
  cbn [mbind option_bind].
  edestruct (add_exception_next x4) as (x5 & -> & H5); [exact H4|fresh_type|exact Eexc|exact Hexc|].
  cbn [mbind option_bind].
  edestruct (add_next x5) as (x6 & -> & H6); [exact H5|fresh_type|apply freeze_module_list_owned|].
  cbn [mbind option_bind].
  edestruct add_if_next as (x7 & -> & H7);
    [exact H6|fresh_type|apply freeze_unloaded_module_list_owned|]. cbn [mbind option_bind].
  edestruct add_if_next as (x8 & -> & H8);
    [exact H7|fresh_type|apply MinidumpCrashpadInfoWriter.crashpad_info_freeze_owned,
       MinidumpCrashpadInfoWriter.crashpad_info_initialize_list_owned|]. cbn [mbind option_bind].
  edestruct add_if_next as (x9 & -> & H9);
    [exact H8|fresh_type|apply freeze_memory_info_owned|]. cbn [mbind option_bind].
  edestruct add_if_next as (x10 & -> & H10);
    [exact H9|fresh_type|apply handles_from_snapshots_owned|]. cbn [mbind option_bind].
  pose proof (add_user_streams_next memory x10 _ _ y H10 Hmem Huser) as H11.
  destruct (add_next _ (MinidumpMemoryListWriter.stream memory (fp_memory f)) _ _ H11)
    as (x12 & E12 & T12 & L12 & D12 & O12); [apply memory_list_fresh; fresh_type
    |by apply MinidumpMemoryListWriter.memory_list_freeze_owned|].
  rewrite Eml in E12. exists x12, f. split; [exact E12|]. split_and!; try done.
  rewrite L12, <-!app_assoc. reflexivity.
Qed.

(** C9.  [MinidumpFileWriter::InitializeFromSnapshot] passes all of its checks on
    a process whose system the file format can describe, whose threads have
    contexts and whose exception was raised by one of its threads and has at most
    15 codes.  The streams it adds are the well-known ones in a fixed order, each
    with the writer its part of the snapshot is given to, the user streams of
    other types in the order of their discovery, the first of each type only, and
    the memory list at the end; every stream builds objects that write what they
    announce into fields of their own. *)
Theorem initialize_from_snapshot_streams (s : ProcessSnapshot) :
  process_ok s ->
  exists x f, InitializeFromSnapshot UTF8ToUTF16 kCPU kOS memory s = Some x /\ parts_of s = Some f /\
    types_ok x /\ streams_owned x /\ TimeDateStamp x = u32 (tv_sec (ps_snapshot_time s)) /\
    streams_ x = process_streams s f.
Proof. apply initialize_from_snapshot_adds. Qed.

End FromSnapshotSpec.

(** ** The file that is written *)

Lemma length_header_bytes x sig m : length (header_bytes x sig m) = 32%nat.
Proof. unfold header_bytes. by rewrite !length_app, !length_le_bytes. Qed.

Lemma length_directory_bytes s m p : length (directory_bytes s m p) = 12%nat.
Proof.
  unfold directory_bytes. by rewrite length_app, length_le_bytes, length_descriptor_bytes.
Qed.

Lemma will_write_0 x :
  will_write x 0 = Some [(([], 0%nat), match streams_ x with [] => 0 | _ => 32 end)].
Proof. unfold will_write. by destruct (streams_ x). Qed.

Lemma root_lawful x sig : lawful (root_object x sig).
Proof.
  split_and!.
  - split; simpl; [lia|unfold kMaximumAlignment; lia].
  - intros m. split; [|split; simpl; congruence]. unfold object_bytes, root_object.
    cbn [WriteObject SizeOfObject concat].
    rewrite length_app, length_header_bytes, (length_entries_bytes _ 12);
      [lia|apply length_directory_bytes].
  - simpl. rewrite will_write_0. eauto.
  - intros o a. simpl. unfold impl_slots. simpl. rewrite will_write_0. unfold will_write.
    destruct (AssignIfInRange _ _); [|done]. by intros [= <-].
Qed.

Lemma freeze_tree x sig tree :
  Freeze x sig = Some tree -> exists ts, tree = Node (root_object x sig) ts /\
    freeze_children [] 0 (map FreezeStream (streams_ x)) = Some ts /\
    forall sig', Freeze x sig' = Some (Node (root_object x sig') ts).
Proof.
  unfold Freeze. destruct (freeze_children _ _ _) as [ts|]; [|done].
  destruct (negb _); [done|]. destruct (AssignIfInRange _ _); [|done].
  intros <-%(inj Some). eauto.
Qed.

Lemma file_freeze_owned x sig tree :
  streams_owned x -> Freeze x sig = Some tree -> owned [] tree.
Proof.
  intros Hs (ts & -> & Ec & _)%freeze_tree.
  apply freeze_children_adopted in Ec as [Ha _]; [|by apply Forall_fmap].
  rewrite length_map in Ha.
  assert (writable_slots (root_object x sig) = [([], 0%nat)]) as Hw.
  { unfold writable_slots, impl_slots. simpl. by rewrite will_write_0. }
  apply (node_owned [] _ (replicate (length (streams_ x)) [])); [done|apply root_lawful|done| |];
    rewrite Hw, concat_replicate_nil; repeat constructor. set_solver.
Qed.

Lemma root_first x sig ts :
  exists rest, file_order (Node (root_object x sig) ts) = root_object x sig :: rest /\
    forall sig', file_order (Node (root_object x sig') ts) = root_object x sig' :: rest.
Proof.
  exists (in_phase kPhaseEarly (concat (map flatten ts)) ++
          in_phase kPhaseLate (concat (map flatten ts))).
  assert (forall sig', file_order (Node (root_object x sig') ts) = root_object x sig' ::
    in_phase kPhaseEarly (concat (map flatten ts)) ++
          in_phase kPhaseLate (concat (map flatten ts))) as Hall; [|auto].
  intros sig'. unfold file_order. cbn [flatten]. reflexivity.
Qed.

(** The signature has no influence on the layout, and is in the first 32 bytes. *)
Lemma signature_independent x sig ts :
  let t0 := Node (root_object x 0) ts in
  let t1 := Node (root_object x sig) ts in
  layout_size t0 = layout_size t1 /\ final_fields t0 = final_fields t1 /\
  (assignable (layout t1) -> assignable (layout t0)) /\
  image (final_fields t1) 0 (file_order t1) =
    header_bytes x sig (final_fields t1) ++ drop 32 (image (final_fields t0) 0 (file_order t0)).
Proof.
  intros t0 t1. destruct (root_first x 0 ts) as (rest & E0 & E). specialize (E sig).
  assert (final_fields t0 = final_fields t1) as Hf.
  { unfold final_fields, layout, t0, t1. rewrite E0, E. reflexivity. }
  split_and!; [|done| |].
  - unfold layout_size, t0, t1. rewrite E0, E. reflexivity.
  - unfold layout, t0, t1. rewrite E0, E. cbn [place]. intros [Ha Hr]%Forall_cons.
    constructor; [exact Ha|exact Hr].
  - rewrite <-Hf. unfold t0, t1. rewrite E0, E. cbn [image].
    unfold object_bytes. cbn [WriteObject root_object concat padding SizeOfObject Alignment].
    rewrite <-!app_assoc. change (padding 0 (root_object x sig)) with (padding 0 (root_object x 0)).
    assert (padding 0 (root_object x 0) = 0) as ->.
    { unfold padding. simpl. destruct (0 <? _); reflexivity. }
    simpl replicate. cbn [app]. f_equal.
Qed.

Section Correct.
  Context {F : Type} `{FileWriterCapacity F}.

Lemma write_everything_ok x sig tree (f : F) :
  streams_owned x -> Freeze x sig = Some tree -> layout_size tree < 2 ^ 63 ->
  assignable (layout tree) -> writable_file f ->
  Z.of_nat (position f) + layout_size tree <= capacity ->
  exists h f', write_everything x sig f = (Ok h, f') /\ fields h = final_fields tree /\
    wrote f f' (image (final_fields tree) 0 (file_order tree)).
Proof.
  intros Hs Ef Hsz Ha Hf Hc. pose proof (file_freeze_owned _ _ _ Hs Ef) as Ho.
  unfold write_everything. rewrite Ef.
  destruct (write_everything_writes tree f) as (h & f' & E & Hh & _ & Hw); try done.
  - apply owned_tree_ok; [done|]. by destruct (freeze_tree _ _ _ Ef) as (ts & -> & _).
  - by eapply owned_writes_its_size.
  - eauto.
Qed.

Lemma seek_cur_total (f : F) :
  writable_file f -> Z.of_nat (position f) <= capacity ->
  exists f', Seek f 0 SEEK_CUR = (Z.of_nat (position f), f') /\ writer_valid f' /\
    contents f' = contents f /\ position f' = position f.
Proof.
  intros [Hv Hp] Hc. pose proof (seek_cur_accepts f Hv Hc) as Hs.
  destruct (Seek f 0 SEEK_CUR) as [r f'] eqn:E. simpl in Hs.
  destruct (seek_cur_ok f r f' Hv E Hs) as (V & -> & C & P). eauto.
Qed.

Lemma seek_set_total (f : F) o :
  writer_valid f -> 0 <= o <= capacity ->
  exists f', Seek f o SEEK_SET = (o, f') /\ writer_valid f' /\
    contents f' = contents f /\ position f' = Z.to_nat o.
Proof.
  intros Hv Hc. pose proof (seek_set_accepts f o Hv Hc) as Hs.
  destruct (Seek f o SEEK_SET) as [r f'] eqn:E. simpl in Hs.
  destruct (seek_set_ok f o r f' Hv E Hs) as (V & -> & C & P). eauto.
Qed.

(** A file that has been laid out has a header. *)
Lemma image_header x ts :
  (32 <= length (image (final_fields (Node (root_object x 0) ts)) 0 (file_order (Node (root_object x 0) ts))))%nat.
Proof.
  destruct (root_first x 0 ts) as (rest & E0 & _). rewrite E0. cbn [image].
  rewrite !length_app. unfold object_bytes. cbn [WriteObject root_object concat].
  rewrite length_app, length_header_bytes. lia.
Qed.

Lemma image_size x signature ts :
  streams_owned x -> Freeze x signature = Some (Node (root_object x signature) ts) ->
  let tree := Node (root_object x signature) ts in
  0 <= layout_size tree /\ Z.of_nat (length (image (final_fields tree) 0 (file_order tree))) = layout_size tree.
Proof.
  intros Hs Ef tree. pose proof (file_freeze_owned _ _ _ Hs Ef) as Ho.
  split.
  { apply (place_end_ge 0). eapply Forall_impl; [apply file_order_ok, (owned_lawful [] tree Ho)|].
    by intros w [? _]. }
  rewrite image_length; [unfold layout_size; lia| |].
  - eapply Forall_impl; [apply file_order_ok, (owned_lawful [] tree Ho)|]. by intros w [? _].
  - apply file_order_ok. by eapply owned_writes_its_size.
Qed.

Lemma write_minidump_writes (x : t) (tree : Tree) (allow_seek : bool) (f : F) :
  streams_owned x -> Freeze x MINIDUMP_SIGNATURE = Some tree ->
  layout_size tree < 2 ^ 63 -> assignable (layout tree) -> writable_file f ->
  Z.of_nat (position f) + layout_size tree <= capacity ->
  exists f', WriteMinidump x allow_seek f = (true, f') /\
    wrote f f' (image (final_fields tree) 0 (file_order tree)).
Proof.
  intros Hs Ef Hsz Ha Hf Hc. destruct allow_seek; simpl.
  2: { destruct (write_everything_ok x MINIDUMP_SIGNATURE tree f) as (h & f' & E & _ & Hw); try done.
       rewrite E. eauto. }
  destruct (freeze_tree _ _ _ Ef) as (ts & -> & _ & Ef0). specialize (Ef0 0).
  destruct (signature_independent x MINIDUMP_SIGNATURE ts) as (Es & Efl & Eas & Eim).
  set (t0 := Node (root_object x 0) ts) in *.
  set (t1 := Node (root_object x MINIDUMP_SIGNATURE) ts) in *.
  destruct (image_size x 0 ts Hs Ef0) as [Hpos Hlen]. fold t0 in Hpos, Hlen. rewrite Es in Hpos, Hlen.
  destruct (seek_cur_total f Hf ltac:(lia)) as (f1 & -> & V1 & C1 & P1).
  destruct (Z.ltb_spec (Z.of_nat (position f)) 0); [lia|].
  destruct (write_everything_ok x 0 t0 f1) as (h & f2 & -> & Hh & Hw);
    [done|done|by rewrite Es|by apply Eas|split; [done|rewrite C1, P1; apply Hf]|
     rewrite P1, Es; lia|].
  pose proof Hw as (V2 & C2 & P2 & B2). rewrite P1, C1 in *.
  set (im0 := image (final_fields t0) 0 (file_order t0)) in *.
  destruct (seek_cur_total f2) as (f3 & -> & V3 & C3 & P3); [by split|lia|].
  destruct (Z.ltb_spec (Z.of_nat (position f2)) 0); [lia|].
  destruct (seek_set_total f3 (Z.of_nat (position f)) V3) as (f4 & -> & V4 & C4 & P4); [lia|].
  destruct (Z.ltb_spec (Z.of_nat (position f)) 0); [lia|]. rewrite Nat2Z.id in P4.
  pose proof (length_header_bytes x MINIDUMP_SIGNATURE (fields h)) as Hhl.
  pose proof (image_header x ts) as H32. fold t0 im0 in H32.
  destruct (write_total f4 (header_bytes x MINIDUMP_SIGNATURE (fields h)) V4)
    as (f5 & -> & V5 & C5 & P5 & B5); [rewrite P4, Hhl; lia|].
  destruct (seek_set_total f5 (Z.of_nat (position f2)) V5) as (f6 & -> & V6 & C6 & P6); [lia|].
  rewrite Nat2Z.id in P6. exists f6.
  split; [destruct (Z.leb_spec 0 (Z.of_nat (position f2))); [done|lia]|].
  assert (contents f6 = write_at (position f) (image (final_fields t1) 0 (file_order t1)) (contents f))
    as Hfin.
  { rewrite C6, C5, C4, C3, C2, P4. rewrite write_at_overwrite; [|apply Hf|rewrite Hhl; done].
    by rewrite Hhl, Eim, Hh, Efl. }
  assert (length (image (final_fields t1) 0 (file_order t1)) = length im0) as Hl1.
  { rewrite Eim, length_app, length_header_bytes, length_drop. fold im0. lia. }
  split_and!; [done|done|rewrite P6, P2, Hl1; done|].
  rewrite Hfin, P6, P2, <-Hl1. apply write_at_bound.
Qed.

(** C8.  [WriteMinidump] succeeds on a file with enough room, and whether or not
    it may seek, the file receives the same bytes from its current position: the
    laid-out objects with a header that carries the signature; the position ends
    up after them. *)
Theorem write_minidump_correct (x : t) (tree : Tree) (allow_seek : bool) (f : F) :
  streams_owned x -> Freeze x MINIDUMP_SIGNATURE = Some tree ->
  layout_size tree < 2 ^ 63 -> assignable (layout tree) -> writable_file f ->
  Z.of_nat (position f) + layout_size tree <= capacity ->
  exists f', WriteMinidump x allow_seek f = (true, f') /\
    wrote f f' (image (final_fields tree) 0 (file_order tree)).
Proof. apply write_minidump_writes. Qed.

End Correct.

(** ** An example *)

(** A process with a thread that raised an exception, and a module with
    annotations and a user stream. *)
Definition example_memory : process_memory :=
  fun _ n => if n <? 0 then None else Some (replicate (Z.to_nat n) 7).
Definition example_stream (ty : Z) (d : bytes) : StreamWriter :=
  user_stream example_memory (user_stream_from_extension ty (Z.of_nat (length d)) (Some d)).
Definition example_module_with (streams : list UserMinidumpStream) : ModuleSnapshot :=
  MkModuleSnapshot (str "m") 4096 8192 1600000000 (1, 2, 3, 4) (5, 6, 7, 8) kModuleTypeExecutable
    (MkUUID 1122867 17493 26231 (136, 153) (170, 187, 204, 221, 238, 255)) 9 (str "m.pdb") []
    [str "one"; str "two"] [(str "k", str "v")] [MkAnnotationSnapshot (str "a") 1 [1; 2; 3]]
    streams.
Definition example_user_stream : UserMinidumpStream :=
  MkUserMinidumpStream 131072 (Some (MkMemorySnapshot 4096 3)).
Definition example_module : ModuleSnapshot :=
  example_module_with
    [example_user_stream; MkUserMinidumpStream kMinidumpStreamTypeMemoryList None].
Definition example_process_with (module : ModuleSnapshot) : ProcessSnapshot :=
  MkProcessSnapshot 77 (MkTimeval 1700000000 1) (MkTimeval 1600000000 600000) (MkTimeval 10 5)
    (MkTimeval 3 500000) example_system
    [MkThreadSnapshot (x86_64 example_amd64)
       (Some (MkMemorySnapshot 65536 4)) 5 (str "t") 0 0 0 [MkMemorySnapshot 65544 2]]
    (Some (MkExceptionSnapshot (x86_64 example_amd64) 5 11 0 65536 [1; 2] []))
    [module] [] InitializeToZero
    (MkUUID 1 2 3 (4, 5) (6, 7, 8, 9, 10, 11)) [(str "pa", str "pb")] None
    [MkMemoryInfo 4096 4096 4 8192 4096 4 131072] [] [MkMemorySnapshot 131072 5].
Definition example_process : ProcessSnapshot := example_process_with example_module.
Definition example_ascii (s : bytes) : bool * list Z := (true, s).

Lemma example_reads : reads_exactly example_memory.
Proof.
  intros a n d. unfold example_memory. destruct (Z.ltb_spec n 0); [done|]. intros [= <-].
  rewrite length_replicate. lia.
Qed.

Lemma example_stream_owned ty d : freezes_owned (FreezeStream (example_stream ty d)).
Proof. apply freeze_user_stream_owned; [apply example_reads|]. exists d. by split. Qed.

Lemma example_process_with_ok module :
  Forall (fun u => user_stream_ok example_memory (user_stream_from_snapshot u))
    (mod_custom_streams module) ->
  process_ok example_memory (example_process_with module).
Proof.
  intros Hu. split; cbn -[example_system].
  - apply example_reads.
  - split_and!; [eexists; reflexivity..|done].
  - lia.
  - apply Forall_singleton. split_and!.
    + intros m [= <-]. vm_compute. repeat split; congruence.
    + vm_compute. reflexivity.
    + apply Forall_singleton. vm_compute. repeat split; congruence.
  - intros e [= <-]. split_and!; [left|simpl; unfold MinidumpExceptionWriter.EXCEPTION_MAXIMUM_PARAMETERS;
      lia|vm_compute; reflexivity|constructor].
  - apply Forall_singleton. vm_compute. repeat split; congruence.
  - by rewrite app_nil_r.
Qed.

Lemma example_process_ok : process_ok example_memory example_process.
Proof.
  apply example_process_with_ok.
  repeat (apply List.Forall_cons; [vm_compute; eauto|]). apply List.Forall_nil.
Qed.

Lemma initialize_from_snapshot_streams_witness :
  exists x, InitializeFromSnapshot example_ascii (str "amd64") (str "linux") example_memory
      example_process = Some x /\
    map StreamType (streams_ x) = [7; 15; 3; 24; 6; 4; 1129316353; 16; 131072; 5].
Proof.
  destruct (initialize_from_snapshot_streams example_ascii (str "amd64") (str "linux") example_memory
    example_process example_process_ok) as (x & f & E & Ef & _ & _ & _ & Hx).
  exists x. split; [exact E|]. rewrite Hx. vm_compute in Ef. injection Ef as <-. vm_compute. reflexivity.
Defined.

Definition example_file : t :=
  default init (InitializeFromSnapshot example_ascii (str "amd64") (str "linux") example_memory
                  example_process).
Definition example_file_tree : Tree :=
  default (Node (root_object example_file 0) []) (Freeze example_file MINIDUMP_SIGNATURE).

Lemma write_minidump_correct_witness :
  exists f', WriteMinidump example_file true StringFile.empty = (true, f') /\
    length (StringFile.string_ f') = 5125%nat.
Proof.
  destruct (initialize_from_snapshot_adds example_ascii (str "amd64") (str "linux") example_memory
    example_process example_process_ok) as (x & f & E & _ & _ & Ho & _).
  assert (x = example_file) as -> by (unfold example_file; rewrite E; reflexivity).
  destruct (write_minidump_correct example_file example_file_tree true StringFile.empty)
    as (f' & E' & Hw).
  - exact Ho.
  - unfold example_file_tree. destruct (Freeze example_file MINIDUMP_SIGNATURE) as [t|] eqn:Et.
    + reflexivity.
    + exfalso.
      assert (match Freeze example_file MINIDUMP_SIGNATURE with Some _ => true | None => false end = true)
        as Eb by (vm_compute; reflexivity).
      rewrite Et in Eb. discriminate.
  - vm_compute. reflexivity.
  - apply (bool_decide_unpack _). vm_compute. exact I.
  - split; [vm_compute; congruence|vm_compute; lia].
  - vm_compute. congruence.
  - exists f'. split; [exact E'|]. destruct Hw as (_ & Hc & _).
    change (StringFile.string_ f') with (contents f'). rewrite Hc. vm_compute. reflexivity.
Defined.

End MinidumpFileWriter.
