(* ===== verification/Sanitized.v ===== *)
(** * Sanitized snapshots (snapshot/sanitized)

    [ProcessSnapshotSanitized] wraps a snapshot so that only what the client allows is
    seen of it: annotations with the names it lists, memory in the ranges it lists, and of
    the stacks only small words and words that point into modules or stacks
    (memory_snapshot_sanitized.cc, thread_snapshot_sanitized.cc,
    module_snapshot_sanitized.cc, process_snapshot_sanitized.cc).  What is allowed is
    read from the memory of the client (sanitization_information.cc).

    The sanitized threads share [address_ranges_], so that a stack that is read later is
    sanitized with all of the ranges.  Accesses outside of a buffer, the use of an
    iterator that has become invalid, null pointers and failed DCHECKs are [Undefined]. *)

From S2P Require Import Prelude.
From S2P Require Import Numeric.
From S2P Require Import Structs.
From S2P Require Import CPUContext.
From S2P Require Import Uuid.
From S2P Require Import MemoryRanges.
From S2P Require Import RangeSet.
From S2P Require Import AnnotationList.
From S2P Require Import MinidumpObjects.
From S2P Require Import MinidumpStreams.
From S2P Require Import MinidumpSystem.
From S2P Require Import MinidumpFile.
From S2P Require Import ProcessMemory.
From S2P Require Import CrashpadTypes.
#[local] Open Scope crashpad_scope.

(** ** Words *)

(** [sizeof(Pointer)]. *)
Definition pointer_size (is_64_bit : bool) : nat := if is_64_bit then 8 else 4.
(** [(z + sizeof(Pointer) - 1) & ~(sizeof(Pointer) - 1)], of 64 bits. *)
Definition align_up (is_64_bit : bool) (z : Z) : Z :=
  let n := Z.of_nat (pointer_size is_64_bit) in Z.land (u64 (z + n - 1)) (u64 (Z.lnot (n - 1))).
(** The [n] words at the start of a buffer. *)
Fixpoint words (is_64_bit : bool) (n : nat) (data : bytes) : list Z :=
  match n with
  | O => []
  | S n' => le_value (take (pointer_size is_64_bit) data) :: words is_64_bit n' (drop (pointer_size is_64_bit) data)
  end.

(** ** MemorySnapshotSanitized *)

Definition kDefaced : Z := 0x0defaced0defaced.
Definition kSmallWordMax : Z := 4096.

(** [MemorySanitizer::Sanitize]: the bytes before the first aligned word, the words, and
    the bytes after them. *)
Definition sanitize_word (is_64_bit : bool) (ranges : RangeSet) (word : Z) : Z :=
  if (kSmallWordMax <? word) && negb (Contains ranges word) then wrap (8 * Z.of_nat (pointer_size is_64_bit)) kDefaced else word.
Definition Sanitize (is_64_bit : bool) (ranges : RangeSet) (address : Z) (data : bytes) : outcome bytes :=
  let n := pointer_size is_64_bit in
  let defaced := le_bytes n (wrap (8 * Z.of_nat n) kDefaced) in
  let aligned_offset := Z.to_nat (u64 (align_up is_64_bit address - address)) in
  if (length data <? aligned_offset)%nat then Undefined
  else
    let word_count := ((length data - aligned_offset) / n)%nat in
    let sanitized_bytes := (aligned_offset + word_count * n)%nat in
    Done (take aligned_offset defaced ++
          concat (map (fun w => le_bytes n (sanitize_word is_64_bit ranges w)) (words is_64_bit word_count (drop aligned_offset data))) ++
          take (length data - sanitized_bytes) defaced).

Section Sanitized.
  Context {M : Type} `{ProcessMemory M}.

(** [MemorySnapshotGeneric::Read]. *)
Definition ReadSnapshot (memory : M) (s : MemorySnapshot) : outcome bytes :=
  if mem_size s =? 0 then Done [] else Read memory (mem_address s) (mem_size s).
Definition ReadSanitized (memory : M) (is_64_bit : bool) (ranges : RangeSet) (s : MemorySnapshot) : outcome bytes :=
  step! d := ReadSnapshot memory s in Sanitize is_64_bit ranges (mem_address s) d.

(** ** ThreadSnapshotSanitized *)

(** [snapshot_], and the arguments of [stack_]. *)
Record ThreadSnapshotSanitized := MkThreadSanitized {
  st_snapshot : ThreadSnapshot;
  st_stack : MemorySnapshot;
  st_is_64_bit : bool
}.
Definition new_thread_sanitized (t : ThreadSnapshot) (stack : MemorySnapshot) : outcome ThreadSnapshotSanitized :=
  match CPUContext_.Is64Bit (thr_context t) with
  | Some b => Done (MkThreadSanitized t stack b)
  | None => Undefined
  end.
Definition ThreadExtraMemory (t : ThreadSnapshotSanitized) : outcome (list MemorySnapshot) :=
  match thr_extra_memory (st_snapshot t) with [] => Done [] | _ => Undefined end.

(** ** ModuleSnapshotSanitized *)

Definition KeyIsAllowed (name : bytes) (allowed_keys : list bytes) : bool := existsb (fun key => bool_decide (name = key)) allowed_keys.

Record ModuleSnapshotSanitized := MkModuleSanitized { sm_snapshot : ModuleSnapshot; sm_allowed : option (list bytes) }.
Definition AnnotationsVector (x : ModuleSnapshotSanitized) : outcome (list bytes) :=
  match mod_annotations_vector (sm_snapshot x) with [] => Done [] | _ => Undefined end.
(** The loop erases the element that its iterator is at, and then advances it. *)
Definition SanitizedSimpleMap (x : ModuleSnapshotSanitized) : outcome (string_map bytes) :=
  let annotations := mod_annotations_simple_map (sm_snapshot x) in
  match sm_allowed x with
  | None => Done annotations
  | Some allowed => if forallb (fun kv => KeyIsAllowed kv.1 allowed) annotations then Done annotations else Undefined
  end.
Definition SanitizedObjects (x : ModuleSnapshotSanitized) : list AnnotationSnapshot :=
  let annotations := mod_annotation_objects (sm_snapshot x) in
  match sm_allowed x with
  | None => annotations
  | Some allowed => filter (fun anno => KeyIsAllowed (annotation_name anno) allowed = true) annotations
  end.

(** ** ProcessSnapshotSanitized *)

(** [StackReferencesAddressRange]. *)
Definition ScanStackForPointers (is_64_bit : bool) (stack_address stack_pointer low high : Z) (data : bytes) : outcome bool :=
  match AssignIfInRange uint64_t (u64 (stack_pointer - stack_address)) with
  | None => Done false
  | Some sp_offset =>
      let aligned_sp_offset := Z.to_nat (align_up is_64_bit sp_offset) in
      if (length data <? aligned_sp_offset)%nat then Undefined
      else
        let word_count := ((length data - aligned_sp_offset) / pointer_size is_64_bit)%nat in
        Done (existsb (fun w => (low <=? w) && (w <? high)) (words is_64_bit word_count (drop aligned_sp_offset data)))
  end.
Definition CheckStack (memory : M) (stack : MemorySnapshot) (stack_pointer low high : Z) (is_64_bit : bool) : outcome bool :=
  match ReadSnapshot memory stack with
  | Failed => Done false
  | Undefined => Undefined
  | Done data => ScanStackForPointers is_64_bit (mem_address stack) stack_pointer low high data
  end.

(** The part of [Initialize] for a target module: whether the snapshot is allowed. *)
Definition CheckTarget (snapshot : MinidumpFileWriter.ProcessSnapshot) (memory : M) (target_module_address : Z) : outcome bool :=
  match MinidumpFileWriter.ps_exception snapshot with
  | None => Done false
  | Some exception =>
      match List.find (fun t => thr_id t =? exc_thread_id exception) (MinidumpFileWriter.ps_threads snapshot) with
      | None => Done false
      | Some exc_thread =>
          match List.find (fun m => (mod_address m <=? target_module_address) &&
                                    (target_module_address <? u64 (mod_address m + mod_size m))) (MinidumpFileWriter.ps_modules snapshot) with
          | None => Done false
          | Some target_module =>
              let low := mod_address target_module in
              let high := u64 (low + mod_size target_module) in
              match CPUContext_.InstructionPointer (exc_context exception), CPUContext_.StackPointer (exc_context exception),
                    CPUContext_.Is64Bit (exc_context exception), thr_stack exc_thread with
              | Some pc, Some sp, Some is_64_bit, Some stack =>
                  if (pc <? low) || (high <=? pc) then CheckStack memory stack sp low high is_64_bit else Done true
              | Some pc, _, _, _ => if (pc <? low) || (high <=? pc) then Undefined else Done true
              | None, _, _, _ => Undefined
              end
          end
      end
  end.

Record ProcessSnapshotSanitized := MkProcessSanitized {
  snapshot_ : MinidumpFileWriter.ProcessSnapshot;
  allowed_annotations_ : option (list bytes);
  sanitize_stacks_ : bool;
  modules_ : list ModuleSnapshotSanitized;
  threads_ : list ThreadSnapshotSanitized;
  address_ranges_ : RangeSet;
  sanitized_process_memory_ : ProcessMemorySanitized M
}.

(** [AnnotationsSimpleMap]: all of them. *)
Definition ProcessAnnotationsSimpleMap (x : ProcessSnapshotSanitized) : string_map bytes := MinidumpFileWriter.ps_annotations (snapshot_ x).

(** The loop over the threads. *)
Fixpoint add_threads (l : list ThreadSnapshot) (ranges : RangeSet) (threads : list ThreadSnapshotSanitized)
    : outcome (RangeSet * list ThreadSnapshotSanitized) :=
  match l with
  | [] => Done (ranges, threads)
  | thread :: l' =>
      match thr_stack thread with
      | None => Undefined
      | Some stack =>
          step! t := new_thread_sanitized thread stack in
          add_threads l' (Insert ranges (mem_address stack) (mem_size stack)) (threads ++ [t])
      end
  end.
Definition InitializeSanitizedSnapshot (snapshot : MinidumpFileWriter.ProcessSnapshot) (memory : M) (allowed_annotations : option (list bytes))
    (allowed_memory_ranges : option (list (Z * Z))) (target_module_address : Z) (sanitize_stacks : bool)
    : outcome ProcessSnapshotSanitized :=
  step! target_ok := if target_module_address =? 0 then Done true else CheckTarget snapshot memory target_module_address in
  if negb target_ok then Failed
  else
    let modules :=
      match allowed_annotations with
      | Some _ => map (fun m => MkModuleSanitized m allowed_annotations) (MinidumpFileWriter.ps_modules snapshot)
      | None => []
      end in
    step! (ranges, threads) :=
      if sanitize_stacks
      then add_threads (MinidumpFileWriter.ps_threads snapshot) (fold_left (fun s m => Insert s (mod_address m) (mod_size m)) (MinidumpFileWriter.ps_modules snapshot) []) []
      else Done ([], []) in
    Done (MkProcessSanitized snapshot allowed_annotations sanitize_stacks modules threads ranges
            (InitializeSanitized memory allowed_memory_ranges)).

(** ** What is allowed (sanitization_information.cc) *)

(** [ReadAllowedAnnotations]: the addresses of the names, up to a null one; [None] is
    for fuel that does not suffice. *)
Fixpoint allowed_annotations_loop (fuel : nat) (memory : ProcessMemoryRange M) (list_address : Z) (allowed : list bytes)
    : option (outcome (list bytes)) :=
  match fuel with
  | O => None
  | S f =>
      let R := address_repr (Is64Bit memory) in
      match RangeRead memory list_address (Z.of_nat (sizeof R)) with
      | Undefined => Some Undefined
      | Failed => Some Failed
      | Done d =>
          let name_address := of_bytes R d in
          if name_address =? 0 then Some (Done allowed)
          else
            match RangeReadCStringSizeLimited memory name_address (Z.of_nat kNameMaxLength) with
            | Undefined => Some Undefined
            | Failed => Some Failed
            | Done name => allowed_annotations_loop f memory (u64 (list_address + Z.of_nat (sizeof R))) (allowed ++ [name])
            end
      end
  end.
Definition ReadAllowedAnnotations (fuel : nat) (memory : ProcessMemoryRange M) (list_address : Z) : option (outcome (list bytes)) :=
  if list_address =? 0 then Some (Done []) else allowed_annotations_loop fuel memory list_address [].

(** [ReadAllowedMemoryRanges]. *)
Definition kMaxListSize : Z := 256.
Definition range_list_repr : Repr (Z * Z) := uint 8 ⊗ uint 8.
Fixpoint check_ranges (vm_max : Z) (ranges : list (Z * Z)) : option (list (Z * Z)) :=
  match ranges with
  | [] => Some []
  | (base, length) :: ranges' =>
      if (vm_max <? base) || (u64 (vm_max - base) <? length) then None
      else l ← check_ranges vm_max ranges'; Some ((base, u64 (base + length)) :: l)
  end.
Definition ReadAllowedMemoryRanges (memory : ProcessMemoryRange M) (list_address : Z) : outcome (list (Z * Z)) :=
  if list_address =? 0 then Done []
  else
    step! d := RangeRead memory list_address (Z.of_nat (sizeof range_list_repr)) in
    let '(entries, size) := of_bytes range_list_repr d in
    if size =? 0 then Done []
    else if kMaxListSize <? size then Failed
    else
      let R := array (Z.to_nat size) range_list_repr in
      step! d := RangeRead memory entries (Z.of_nat (sizeof R)) in
      lift (check_ranges (if Is64Bit memory then 2 ^ 64 - 1 else 2 ^ 32 - 1) (of_bytes R d)).
End Sanitized.
Arguments ProcessSnapshotSanitized : clear implicits.

(** ** Alignment *)

Definition pointer_bits (is_64_bit : bool) : Z := if is_64_bit then 3 else 2.
Lemma pointer_size_pow b : Z.of_nat (pointer_size b) = 2 ^ pointer_bits b.
Proof. by destruct b. Qed.

Lemma pointer_size_pos b : (0 < pointer_size b)%nat.
Proof. destruct b; cbn; lia. Qed.

Lemma align_up_spec b z :
  0 <= z < 2 ^ 64 ->
  let n := Z.of_nat (pointer_size b) in
  let offset := u64 (align_up b z - z) in
  0 <= offset < n /\ (z + offset) mod n = 0 /\ (z + n <= 2 ^ 64 -> align_up b z = z + offset).
Proof.
  intros Hz n offset. unfold offset, align_up. fold n.
  assert (n = 2 ^ pointer_bits b) as En by apply pointer_size_pow.
  assert (0 <= pointer_bits b <= 64 /\ 0 < n <= 8 /\ 2 ^ 64 = n * (2 ^ 64 / n)) as (Hk & Hn & Hdiv) by (unfold n; destruct b; split_and!; first [reflexivity | vm_compute; congruence]).
  clear offset. clearbody n.
  assert (Z.land (u64 (z + n - 1)) (u64 (Z.lnot (n - 1))) = n * (u64 (z + n - 1) / n)) as ->.
  { rewrite En. apply land_aligned; [apply wrap_bound; lia|done]. }
  destruct (Z.le_gt_cases (z + n) (2 ^ 64)) as [Hle|Hgt].
  - rewrite (wrap_small 64 (z + n - 1)) by lia. pose proof (Z.div_mod (z + n - 1) n ltac:(lia)) as Hdm.
    pose proof (Z.mod_pos_bound (z + n - 1) n ltac:(lia)) as Hm. rewrite wrap_small by lia.
    split_and!; [lia|lia| |intros _; lia].
    replace (z + (n * ((z + n - 1) / n) - z)) with (((z + n - 1) / n) * n) by lia. by apply Z.mod_mul; lia.
  - assert (u64 (z + n - 1) = z + n - 1 - 2 ^ 64) as ->.
    { unfold wrap. symmetry. apply (Z.mod_unique _ _ 1); lia. }
    rewrite (Z.div_small (z + n - 1 - 2 ^ 64) n) by lia. rewrite Z.mul_0_r.
    assert (u64 (0 - z) = 2 ^ 64 - z) as ->. { unfold wrap. symmetry. apply (Z.mod_unique _ _ (-1)); lia. }
    split_and!; [lia|lia| |lia]. replace (z + (2 ^ 64 - z)) with ((2 ^ 64 / n) * n) by lia. by apply Z.mod_mul; lia.
Qed.

(** ** What is left of a stack *)

Lemma length_words b n d : length (words b n d) = n.
Proof. revert d. induction n as [|n IH]; intros d; cbn [words length]; [done|]. by rewrite IH. Qed.
Lemma words_lookup b n d i :
  (i < n)%nat -> words b n d !! i = Some (le_value (slice (i * pointer_size b) (pointer_size b) d)).
Proof.
  revert d i. induction n as [|n IH]; intros d i Hi; [lia|]. cbn [words]. destruct i as [|i]; [done|]. cbn.
  rewrite IH by lia. unfold slice. rewrite drop_drop. do 4 f_equal.
Qed.

(** The bytes at an address that are before the first aligned word, the aligned words, and
    where the last one ends. *)
Definition lead (b : bool) (address : Z) : nat := Z.to_nat (- address mod Z.of_nat (pointer_size b)).
Definition word_count (b : bool) (address : Z) (d : bytes) : nat := ((length d - lead b address) / pointer_size b)%nat.
Definition aligned_words (b : bool) (address : Z) (d : bytes) : list Z :=
  words b (word_count b address d) (drop (lead b address) d).
Definition words_end (b : bool) (address : Z) (d : bytes) : nat := (lead b address + word_count b address d * pointer_size b)%nat.

Lemma lead_align b address : 0 <= address < 2 ^ 64 -> Z.to_nat (u64 (align_up b address - address)) = lead b address.
Proof.
  intros Ha. destruct (align_up_spec b address Ha) as (Ho & Hm & _). unfold lead. f_equal.
  pose proof (pointer_size_pos b). revert Ho Hm. generalize (u64 (align_up b address - address)) as o. intros o Ho Hm.
  apply Z.mod_divide in Hm as [q Hq]; [|lia]. apply (Z.mod_unique _ _ (- q)); lia.
Qed.

Definition is_word (b : bool) (w : Z) : Prop := 0 <= w < 256 ^ Z.of_nat (pointer_size b).
Lemma words_are_words b n d : Forall is_byte d -> (n * pointer_size b <= length d)%nat -> Forall (is_word b) (words b n d).
Proof.
  revert d. induction n as [|n IH]; intros d Hd Hl; cbn [words]; constructor.
  - assert (length (take (pointer_size b) d) = pointer_size b) as E by len_lia.
    pose proof (le_value_bound (take (pointer_size b) d)) as Hb. rewrite E in Hb. by apply Hb, Forall_take.
  - apply IH; [by apply Forall_drop|len_lia].
Qed.
Lemma words_concat b l rest :
  Forall (is_word b) l -> words b (length l) (concat (map (le_bytes (pointer_size b)) l) ++ rest) = l.
Proof.
  intros Hl. induction Hl as [|w l Hw _ IH]; [done|]. cbn [map concat length words]. rewrite <-app_assoc.
  rewrite take_app_length', drop_app_length' by (by rewrite length_le_bytes).
  by rewrite le_value_bytes_small, IH.
Qed.
Lemma sanitize_word_is_word b ranges w : is_word b w -> is_word b (sanitize_word b ranges w).
Proof.
  intros Hw. unfold sanitize_word. destruct (_ && _); [|done]. unfold is_word.
  replace (256 ^ Z.of_nat (pointer_size b)) with (2 ^ (8 * Z.of_nat (pointer_size b))) by (by destruct b).
  apply wrap_bound. lia.
Qed.

(** The words that the code keeps: those that are small or point into a range. *)
Definition kept (ranges : RangeSet) (w : Z) : bool := (w <=? kSmallWordMax) || Contains ranges w.
Lemma sanitize_word_kept b ranges w :
  sanitize_word b ranges w = if kept ranges w then w else wrap (8 * Z.of_nat (pointer_size b)) kDefaced.
Proof.
  unfold sanitize_word, kept. rewrite Z.ltb_antisym. destruct (w <=? kSmallWordMax), (Contains ranges w); done.
Qed.

(** What can be seen of memory that is sanitized: its size, and the words that are kept. *)
Definition seen (b : bool) (ranges : RangeSet) (address : Z) (d : bytes) : nat * list (option Z) :=
  (length d, map (fun w => if kept ranges w then Some w else None) (aligned_words b address d)).

Lemma sanitize_sees b ranges address d1 d2 :
  0 <= address < 2 ^ 64 -> seen b ranges address d1 = seen b ranges address d2 -> Sanitize b ranges address d1 = Sanitize b ranges address d2.
Proof.
  intros Ha. unfold seen. intros [= El Ew]. unfold Sanitize. rewrite El, (lead_align b address Ha). destruct (_ <? _)%nat; [done|].
  unfold aligned_words, word_count in Ew. rewrite El in Ew. set (k := ((_ - _) / _)%nat) in *. do 3 f_equal.
  set (off := lead b address) in *. f_equal. revert Ew. generalize (words b k (drop off d2)) as w2. generalize (words b k (drop off d1)) as w1.
  induction w1 as [|x w1 IH]; intros [|y w2] Ew; cbn [map] in *; [done..|].
  pose proof (f_equal head Ew) as Exy. apply (f_equal tail) in Ew. cbn [head tail] in *.
  rewrite (IH w2 Ew), !sanitize_word_kept. by destruct (kept ranges x), (kept ranges y); simplify_eq.
Qed.

(** What is left of a word, of which it is known whether it points into a range: pointers
    and words below 4096 are kept, others above it are defaced. *)
Definition defaced (b : bool) : Z := wrap (8 * Z.of_nat (pointer_size b)) kDefaced.
Definition word_redacted (b : bool) (points : Z -> bool) (w w' : Z) : Prop :=
  (points w = true \/ w < kSmallWordMax -> w' = w) /\
  (points w = false -> kSmallWordMax < w -> w' = defaced b) /\
  (w' = w \/ w' = defaced b).
(** What is left of memory: its size, its words, and of the bytes before and after the
    words nothing. *)
Record redacted (b : bool) (points : Z -> bool) (address : Z) (d d' : bytes) : Prop := {
  red_size : length d' = length d;
  red_words : Forall2 (word_redacted b points) (aligned_words b address d) (aligned_words b address d');
  red_lead : take (lead b address) d' = take (lead b address) (le_bytes (pointer_size b) (defaced b));
  red_trail : drop (words_end b address d) d' =
    take (length d - words_end b address d) (le_bytes (pointer_size b) (defaced b))
}.

Lemma sanitize_word_redacted b ranges points w :
  (forall w, Contains ranges w = points w) -> word_redacted b points w (sanitize_word b ranges w).
Proof.
  intros Hp. unfold word_redacted. rewrite sanitize_word_kept. unfold kept. rewrite Hp. fold (defaced b).
  destruct (points w), (Z.leb_spec w kSmallWordMax); cbn [orb]; split_and!; try (by auto);
    try (intros [?|?]; done || lia); intros; done || lia.
Qed.

Section Buffer.
  Context (b : bool) (ranges : RangeSet) (points : Z -> bool) (address : Z) (d : bytes).
  Context (Hp : forall w, Contains ranges w = points w).
  Context (Ha : 0 <= address < 2 ^ 64) (Hd : Forall is_byte d) (Hl : (lead b address <= length d)%nat).

(** The words that remain are those of the memory, with the other ones defaced. *)
Lemma sanitize_redacted :
  exists d', Sanitize b ranges address d = Done d' /\ redacted b points address d d'.
Proof using Hp Ha Hd Hl.
  set (n := pointer_size b). pose proof (pointer_size_pos b) as Hn. fold n in Hn.
  assert (lead b address < n)%nat as Hoff by (unfold lead, n; pose proof (Z.mod_pos_bound (- address) (Z.of_nat (pointer_size b)) ltac:(lia)); lia).
  unfold Sanitize. rewrite (lead_align b address Ha). set (off := lead b address) in *. fold n. rewrite (proj2 (Nat.ltb_ge _ _) Hl).
  eexists. split; [reflexivity|]. set (k := ((length d - off) / n)%nat).
  pose proof (Nat.div_mod (length d - off) n ltac:(lia)) as Hdm. pose proof (Nat.mod_upper_bound (length d - off) n ltac:(lia)) as Hm.
  fold k in Hdm. set (ws := words b k (drop off d)).
  rewrite <-(map_map (sanitize_word b ranges) (le_bytes n) ws). set (ws' := map (sanitize_word b ranges) ws).
  assert (length (concat (map (le_bytes n) ws')) = (k * n)%nat) as Hc.
  { rewrite MinidumpStringWriter.length_chars. unfold ws', ws. by rewrite length_map, length_words. }
  change (wrap (8 * Z.of_nat n) kDefaced) with (defaced b). set (x := le_bytes n (defaced b)).
  assert (length (take off x) = off) as Ho by (unfold x; rewrite length_take, length_le_bytes; lia).
  assert (length (take (length d - (off + k * n)) x) = length d - (off + k * n))%nat as Ht by (unfold x; rewrite length_take, length_le_bytes; lia).
  set (d' := take off x ++ _). assert (length d' = length d) as Hd' by (unfold d'; rewrite !length_app, Hc, Ho, Ht; lia).
  split; [done| | |].
  - unfold aligned_words, word_count. rewrite Hd'. fold off n k ws.
    assert (drop off d' = concat (map (le_bytes n) ws') ++ take (length d - (off + k * n)) x) as -> by (by apply drop_app_length').
    assert (length ws' = k) as Ek by (unfold ws', ws; by rewrite length_map, length_words). rewrite <-Ek at 1.
    rewrite words_concat.
    + unfold ws'. apply Forall2_fmap_r, Forall_Forall2_diag, Forall_true. intros w. by apply sanitize_word_redacted.
    + unfold ws'. apply Forall_fmap. eapply Forall_impl; [apply (words_are_words b k (drop off d))|].
      * by apply Forall_drop.
      * rewrite length_drop. fold n. lia.
      * cbn. intros w. apply sanitize_word_is_word.
  - unfold d'. fold off n x. by apply take_app_length'.
  - unfold words_end, word_count. fold off n k x. unfold d'. rewrite app_assoc. apply drop_app_length'. rewrite length_app, Hc. lia.
Qed.
End Buffer.

(** C21.  What [MemorySanitizer] leaves of memory that reaches up to its first aligned
    word: as many bytes, of which the aligned words are kept if they are less than 4096 or
    point into a range, and defaced if they are more than 4096 and do not (4096 itself is
    one or the other), and the bytes before the first aligned word and after the last one
    are those of the value for defaced words.  No more can be told from it than the size
    and the words up to 4096 or that point into a range: memory in which these are the
    same gives the same bytes. *)
Theorem memory_redacted (b : bool) (ranges : RangeSet) (address : Z) (d : bytes) :
  0 <= address < 2 ^ 64 -> Forall is_byte d -> (lead b address <= length d)%nat ->
  exists d', Sanitize b ranges address d = Done d' /\ redacted b (Contains ranges) address d d' /\
    forall other, seen b ranges address other = seen b ranges address d -> Sanitize b ranges address other = Done d'.
Proof.
  intros Ha Hd Hl. destruct (sanitize_redacted b ranges (Contains ranges) address d (fun _ => eq_refl) Ha Hd Hl) as (d' & E & Hr).
  exists d'. split_and!; [done|done|]. intros other Ho. by rewrite (sanitize_sees _ _ _ _ _ Ha Ho).
Qed.

(** The word 4096 is kept, although the comment of [kSmallWordMax] is about smaller ones. *)
Lemma small_word_max_kept b ranges : sanitize_word b ranges kSmallWordMax = kSmallWordMax.
Proof. unfold sanitize_word. by rewrite Z.ltb_irrefl. Qed.

(** ** The process *)

Section Process.
  Context {M : Type} `{ProcessMemoryLaws M}.
  Context (snapshot : MinidumpFileWriter.ProcessSnapshot).

Definition in_space (address size : Z) : Prop := 0 <= address /\ 0 <= size /\ address + size < 2 ^ 64.
Definition stack_in_space (t : ThreadSnapshot) : Prop :=
  match thr_stack t with Some s => in_space (mem_address s) (mem_size s) | None => False end.
Definition regions_ok : Prop :=
  Forall (fun m => in_space (mod_address m) (mod_size m)) (MinidumpFileWriter.ps_modules snapshot) /\
  Forall stack_in_space (MinidumpFileWriter.ps_threads snapshot).

(** An address in a module or in a stack. *)
Definition in_stack (t : ThreadSnapshot) (w : Z) : bool :=
  match thr_stack t with Some s => (mem_address s <=? w) && (w <? mem_address s + mem_size s) | None => false end.
Definition points_into (w : Z) : bool :=
  existsb (fun m => (mod_address m <=? w) && (w <? mod_address m + mod_size m)) (MinidumpFileWriter.ps_modules snapshot) ||
  existsb (fun t => in_stack t w) (MinidumpFileWriter.ps_threads snapshot).

Lemma insert_contains ranges address size :
  range_set_ok ranges -> in_space address size ->
  range_set_ok (Insert ranges address size) /\
  forall w, Contains (Insert ranges address size) w = Contains ranges w || ((address <=? w) && (w <? address + size)).
Proof.
  intros Hok (Ha & Hs & He). destruct (insert_member ranges address size Hok Ha Hs) as [Hok' Hm]; [lia|]. split; [done|].
  intros w. apply eq_true_iff_eq. rewrite orb_true_iff, andb_true_iff, Z.leb_le, Z.ltb_lt.
  rewrite (contains_member _ w _ Hok'), (contains_member _ w _ Hok), Hm. done.
Qed.
Lemma insert_modules_contains l ranges :
  Forall (fun m => in_space (mod_address m) (mod_size m)) l -> range_set_ok ranges ->
  let ranges' := fold_left (fun s m => Insert s (mod_address m) (mod_size m)) l ranges in
  range_set_ok ranges' /\
  forall w, Contains ranges' w = Contains ranges w || existsb (fun m => (mod_address m <=? w) && (w <? mod_address m + mod_size m)) l.
Proof.
  intros Hl. revert ranges. induction Hl as [|m l Hm _ IH]; intros ranges Hok; cbn [fold_left existsb].
  - split; [done|]. intros w. by rewrite orb_false_r.
  - destruct (insert_contains ranges _ _ Hok Hm) as [Hok' E]. destruct (IH _ Hok') as [Hok2 E2]. split; [done|].
    intros w. rewrite E2, E. by rewrite orb_assoc.
Qed.

(** A sanitized thread of a thread. *)
Definition sanitizes (t : ThreadSnapshot) (x : ThreadSnapshotSanitized) : Prop :=
  st_snapshot x = t /\ thr_stack t = Some (st_stack x) /\ CPUContext_.Is64Bit (thr_context t) = Some (st_is_64_bit x).
Lemma add_threads_contains l ranges threads ranges' threads' :
  Forall stack_in_space l -> range_set_ok ranges -> add_threads l ranges threads = Done (ranges', threads') ->
  range_set_ok ranges' /\ (forall w, Contains ranges' w = Contains ranges w || existsb (fun t => in_stack t w) l) /\
  exists new, threads' = threads ++ new /\ Forall2 sanitizes l new.
Proof.
  intros Hl. revert ranges threads. induction Hl as [|t l Ht _ IH]; intros ranges threads Hok; cbn [add_threads existsb].
  - intros [= <- <-]. split_and!; [done|intros w; by rewrite orb_false_r|]. exists []. by rewrite app_nil_r.
  - unfold stack_in_space in Ht. destruct (thr_stack t) as [s|] eqn:Es; [|done]. unfold new_thread_sanitized.
    destruct (CPUContext_.Is64Bit (thr_context t)) as [b|] eqn:Eb; [|done]. cbn [outcome_bind]. intros E.
    destruct (insert_contains ranges _ _ Hok Ht) as [Hok' Ec]. destruct (IH _ _ Hok' E) as (Hok2 & Ec2 & new & -> & Hn).
    split_and!; [done| |].
    + intros w. rewrite Ec2, Ec, orb_assoc. unfold in_stack at 2. by rewrite Es.
    + exists (MkThreadSanitized t s b :: new). split; [by rewrite <-app_assoc|]. by constructor.
Qed.
Lemma add_threads_done l ranges threads :
  Forall stack_in_space l -> Forall (fun t => is_Some (CPUContext_.Is64Bit (thr_context t))) l ->
  exists r, add_threads l ranges threads = Done r.
Proof.
  intros Hl. revert ranges threads. induction Hl as [|t l Ht _ IH]; intros ranges threads Hb; cbn [add_threads]; [by eexists|].
  apply Forall_cons in Hb as [[b Eb] Hb]. unfold stack_in_space in Ht. destruct (thr_stack t); [|done].
  unfold new_thread_sanitized. rewrite Eb. cbn [outcome_bind]. by apply IH.
Qed.

(** The bytes of a stack. *)
Lemma read_snapshot_bytes (memory : M) s d :
  in_space (mem_address s) (mem_size s) -> ReadSnapshot memory s = Done d -> Forall is_byte d.
Proof.
  intros Hs. unfold ReadSnapshot. destruct (mem_size s =? 0); [intros [= <-]; constructor|]. unfold Read.
  destruct (AssignIfInRange uint64_t (mem_size s)) as [n|] eqn:En; [|done]. apply AssignIfInRange_Some in En as [_ ->]; [|done].
  intros (d' & -> & Hd)%read_loop_sound; [by eapply load_bytes|exact Hs].
Qed.

(** *** The target module *)

(** The words that are looked at, as they are in memory. *)
Definition scanned_word (memory : M) (stack : MemorySnapshot) (b : bool) (sp low high a : Z) : Prop :=
  let n := Z.of_nat (pointer_size b) in
  sp <= a /\ (a - mem_address stack) mod n = 0 /\ a + n <= mem_address stack + mem_size stack /\
  exists d, load memory a n = Some d /\ low <= le_value d < high.

Lemma read_snapshot_load (memory : M) s d :
  in_space (mem_address s) (mem_size s) -> ReadSnapshot memory s = Done d ->
  load memory (mem_address s) (mem_size s) = Some d /\ Z.of_nat (length d) = mem_size s.
Proof.
  intros Hs E. assert (load memory (mem_address s) (mem_size s) = Some d) as Hl.
  { unfold ReadSnapshot in E. destruct (Z.eqb_spec (mem_size s) 0) as [->|]; [by injection E as <-|]. unfold Read in E.
    destruct (AssignIfInRange uint64_t (mem_size s)) as [sz|] eqn:En; [|done]. apply AssignIfInRange_Some in En as [_ ->]; [|done].
    apply read_loop_sound in E as (d' & -> & Hd); [done|exact Hs]. }
  split; [done|]. apply load_length in Hl. destruct Hs as (_ & Hs & _). lia.
Qed.

(** A word of a buffer that was loaded. *)
Lemma words_load (memory : M) address d b off k i :
  load memory address (Z.of_nat (length d)) = Some d -> (i < k)%nat -> (off + k * pointer_size b <= length d)%nat ->
  exists w, load memory (address + Z.of_nat (off + i * pointer_size b)) (Z.of_nat (pointer_size b)) = Some w /\
    words b k (drop off d) !! i = Some (le_value w).
Proof.
  intros Hd Hi Hk. rewrite words_lookup by done. set (n := pointer_size b) in *. set (o := (off + i * n)%nat).
  assert (o + n <= length d)%nat as Ho by (unfold o; nia).
  unfold slice. rewrite drop_drop. fold o. exists (take n (drop o d)). split; [|done].
  rewrite <-(take_drop o d) in Hd at 2. rewrite <-(take_drop n (drop o d)) in Hd at 1.
  apply load_app in Hd as [_ Hd]; [|len_lia]. apply load_app in Hd as [Hd _]; [|len_lia].
  replace (length (take n (drop o d))) with n in Hd by len_lia. by replace (length (take o d)) with o in Hd by len_lia.
Qed.

(** The words that the scan of a stack looks at, for a stack pointer in the stack. *)
Lemma scan_words (memory : M) stack d b sp low high :
  in_space (mem_address stack) (mem_size stack) -> Z.of_nat (length d) = mem_size stack ->
  mem_address stack <= sp -> sp + Z.of_nat (pointer_size b) <= mem_address stack + mem_size stack ->
  exists o k, let n := pointer_size b in
    ScanStackForPointers b (mem_address stack) sp low high d =
      Done (existsb (fun w => (low <=? w) && (w <? high)) (words b k (drop o d))) /\
    Z.of_nat o mod Z.of_nat n = 0 /\ sp - mem_address stack <= Z.of_nat o < sp - mem_address stack + Z.of_nat n /\
    (o + k * n <= length d < o + k * n + n)%nat.
Proof.
  intros Hs Hlen Hsp Hsp'. unfold in_space in Hs. unfold ScanStackForPointers. pose proof (pointer_size_pos b) as Hn.
  rewrite (wrap_small 64 (sp - mem_address stack)) by lia. set (so := sp - mem_address stack).
  assert (AssignIfInRange uint64_t so = Some so) as ->.
  { apply AssignIfInRange_Some; [done|]. split; [|done]. apply fits_spec. cbn. lia. }
  destruct (align_up_spec b so) as (Hoff & Hmod & Hal); [lia|]. specialize (Hal ltac:(lia)).
  revert Hoff Hmod Hal. generalize (u64 (align_up b so - so)) as f. intros f Hoff Hmod ->.
  set (n := pointer_size b) in *. rewrite (proj2 (Nat.ltb_ge _ _)) by lia.
  exists (Z.to_nat (so + f)), ((length d - Z.to_nat (so + f)) / n)%nat.
  pose proof (Nat.div_mod (length d - Z.to_nat (so + f)) n ltac:(lia)).
  pose proof (Nat.mod_upper_bound (length d - Z.to_nat (so + f)) n ltac:(lia)).
  split; [reflexivity|]. rewrite Z2Nat.id by lia. split_and!; [done|lia..].
Qed.

Lemma scan_stack (memory : M) stack d b sp low high :
  in_space (mem_address stack) (mem_size stack) -> ReadSnapshot memory stack = Done d ->
  mem_address stack <= sp -> sp + Z.of_nat (pointer_size b) <= mem_address stack + mem_size stack ->
  exists r, ScanStackForPointers b (mem_address stack) sp low high d = Done r /\
    (r = true <-> exists a, scanned_word memory stack b sp low high a).
Proof.
  intros Hs Hr Hsp Hsp'. destruct (read_snapshot_load memory stack d Hs Hr) as [Hd Hlen].
  destruct (scan_words memory stack d b sp low high Hs Hlen Hsp Hsp') as (o & k & -> & Hmod & Ho & Hk).
  eexists. split; [reflexivity|]. rewrite <-Hlen in Hd. pose proof (pointer_size_pos b) as Hn. set (n := pointer_size b) in *.
  pose proof (fun i Hi => words_load memory (mem_address stack) d b o k i Hd Hi ltac:(fold n; lia)) as Hw. fold n in Hw.
  rewrite existsb_exists. unfold scanned_word. fold n. split.
  - intros (w & [i Hi]%list_elem_of_In%list_elem_of_lookup & [Hlo%Z.leb_le Hhi%Z.ltb_lt]%andb_true_iff).
    assert (i < k)%nat as Hik by (apply lookup_lt_Some in Hi; by rewrite length_words in Hi).
    destruct (Hw i Hik) as (d' & Hd' & E). rewrite E in Hi. injection Hi as <-.
    exists (mem_address stack + Z.of_nat (o + i * n)). split_and!; [lia| |nia|by exists d'].
    replace (_ - _) with (Z.of_nat o + Z.of_nat i * Z.of_nat n) by lia. by rewrite Z.mod_add by lia.
  - intros (a & Ha & Hm & He & d' & Hd' & Hlh). pose proof (Z.div_mod (a - mem_address stack) (Z.of_nat n) ltac:(lia)) as Ea.
    pose proof (Z.div_mod (Z.of_nat o) (Z.of_nat n) ltac:(lia)) as Eo. rewrite Hm in Ea. rewrite Hmod in Eo.
    set (qa := (a - mem_address stack) / Z.of_nat n) in *. set (qo := Z.of_nat o / Z.of_nat n) in *.
    assert (qo <= qa) as Hq by nia. assert (qa - qo < Z.of_nat k) as Hik by nia.
    destruct (Hw (Z.to_nat (qa - qo)) ltac:(lia)) as (d'' & Hd'' & E).
    replace (mem_address stack + _) with a in Hd'' by nia. rewrite Hd' in Hd''. injection Hd'' as <-.
    exists (le_value d'). split; [by eapply list_elem_of_In, list_elem_of_lookup_2|].
    by rewrite andb_true_iff, Z.leb_le, Z.ltb_lt.
Qed.
(** The modules of a sanitized snapshot show what is allowed of their annotations. *)
Definition module_redacted (allowed : list bytes) (m : ModuleSnapshot) (x : ModuleSnapshotSanitized) : Prop :=
  sm_snapshot x = m /\
  (forall a, a ∈ SanitizedObjects x <-> a ∈ mod_annotation_objects m /\ annotation_name a ∈ allowed) /\
  (forall l, SanitizedSimpleMap x = Done l -> l = mod_annotations_simple_map m /\ forall k v, (k, v) ∈ l -> k ∈ allowed).
Lemma key_is_allowed name allowed_keys : KeyIsAllowed name allowed_keys = true <-> name ∈ allowed_keys.
Proof.
  unfold KeyIsAllowed. rewrite existsb_exists. setoid_rewrite bool_decide_eq_true. rewrite list_elem_of_In.
  split; [by intros (k & Hk & ->)|]. intros Hk. by exists name.
Qed.
Lemma module_is_redacted allowed m : module_redacted allowed m (MkModuleSanitized m (Some allowed)).
Proof.
  unfold module_redacted, SanitizedObjects, SanitizedSimpleMap. cbn [sm_snapshot sm_allowed]. split_and!; [done| |].
  - intros a. rewrite list_elem_of_filter, key_is_allowed. tauto.
  - intros l. destruct (forallb _ _) eqn:E; [|done]. intros [= <-]. split; [done|]. intros k v Hin.
    rewrite forallb_forall in E. by apply list_elem_of_In, E, key_is_allowed in Hin.
Qed.

(** A stack that is read through its sanitized thread. *)
Definition stack_redacted (memory : M) (ranges : RangeSet) (x : ThreadSnapshotSanitized) : Prop :=
  let s := st_stack x in let b := st_is_64_bit x in
  forall d', ReadSanitized memory b ranges s = Done d' ->
    exists d, load memory (mem_address s) (mem_size s) = Some d /\ redacted b points_into (mem_address s) d d'.
Lemma stack_is_redacted (memory : M) ranges x :
  in_space (mem_address (st_stack x)) (mem_size (st_stack x)) -> (forall w, Contains ranges w = points_into w) ->
  stack_redacted memory ranges x.
Proof.
  intros Hs Hc d' E. unfold ReadSanitized in E. destruct (ReadSnapshot memory (st_stack x)) as [| d |] eqn:Er; [done| |done].
  cbn [outcome_bind] in E. destruct (read_snapshot_load memory _ _ Hs Er) as [Hl _]. exists d. split; [done|].
  pose proof (read_snapshot_bytes memory _ _ Hs Er) as Hd.
  assert (0 <= mem_address (st_stack x) < 2 ^ 64) as Ha by (unfold in_space in Hs; lia).
  destruct (sanitize_redacted (st_is_64_bit x) ranges points_into (mem_address (st_stack x)) d Hc Ha Hd) as (d2 & E2 & Hr).
  - unfold Sanitize in E. rewrite (lead_align _ _ Ha) in E. destruct (_ <? _)%nat eqn:Elt; [done|]. by apply Nat.ltb_ge.
  - rewrite E in E2. by injection E2 as <-.
Qed.

Lemma sanitize_process_shape (memory : M) allowed ranges target p :
  InitializeSanitizedSnapshot snapshot memory (Some allowed) ranges target true = Done p ->
  modules_ p = map (fun m => MkModuleSanitized m (Some allowed)) (MinidumpFileWriter.ps_modules snapshot) /\
  add_threads (MinidumpFileWriter.ps_threads snapshot)
    (fold_left (fun s m => Insert s (mod_address m) (mod_size m)) (MinidumpFileWriter.ps_modules snapshot) []) [] =
    Done (address_ranges_ p, threads_ p) /\
  sanitized_process_memory_ p = InitializeSanitized memory ranges.
Proof.
  unfold InitializeSanitizedSnapshot. destruct (if target =? 0 then _ else _) as [|ok|]; [done| |done]. cbn [outcome_bind].
  destruct ok; [|done]. cbn [negb]. destruct (add_threads _ _ _) as [|[r t]|]; [done| |done]. cbn [outcome_bind]. by intros [= <-].
Qed.

(** The annotations of the process itself are not restricted. *)
Lemma process_annotations_unrestricted (memory : M) allowed ranges target sanitize_stacks p :
  InitializeSanitizedSnapshot snapshot memory allowed ranges target sanitize_stacks = Done p ->
  ProcessAnnotationsSimpleMap p = MinidumpFileWriter.ps_annotations snapshot.
Proof.
  unfold InitializeSanitizedSnapshot. destruct (if target =? 0 then _ else _) as [|[]|]; try done. cbn [outcome_bind negb].
  destruct (if sanitize_stacks then _ else _) as [|[r t]|]; [done| |done]. cbn [outcome_bind]. by intros [= <-].
Qed.

(** C20.  What is left of a process in which the stacks are sanitized and the annotations
    of modules are restricted, for modules and stacks that lie in the address space: it
    has the threads and the modules of the process.  Of a stack that can be read, the size
    and the aligned words that are less than 4096 or point into some module or some stack
    are those of the memory, the other words above 4096 and the bytes before and after the
    words are defaced, for the stacks that come first as for the last one.  The annotation
    objects of a module are those whose names are allowed; its simple annotations can only
    be had if all of them are. *)
Theorem sanitized_process_redacted (memory : M) allowed ranges target p :
  regions_ok -> InitializeSanitizedSnapshot snapshot memory (Some allowed) ranges target true = Done p ->
  Forall2 sanitizes (MinidumpFileWriter.ps_threads snapshot) (threads_ p) /\
  Forall (stack_redacted memory (address_ranges_ p)) (threads_ p) /\
  Forall2 (module_redacted allowed) (MinidumpFileWriter.ps_modules snapshot) (modules_ p).
Proof.
  intros [Hm Ht] (Em & Et & _)%sanitize_process_shape.
  destruct (insert_modules_contains _ [] Hm) as [Hok Hc]; [done|].
  destruct (add_threads_contains _ _ _ _ _ Ht Hok Et) as (_ & Hc2 & new & En & Hn). cbn in En. subst new.
  split_and!; [done| |].
  - apply Forall_lookup. intros i x Hx. destruct (Forall2_lookup_r _ _ _ _ _ Hn Hx) as (t & Hi & _ & Es & _).
    pose proof (Forall_lookup_1 _ _ _ _ Ht Hi) as Hin. unfold stack_in_space in Hin. rewrite Es in Hin.
    apply stack_is_redacted; [done|]. intros w. rewrite Hc2, Hc. done.
  - rewrite Em. rewrite <-(map_id (MinidumpFileWriter.ps_modules snapshot)) at 1. apply Forall2_fmap, Forall_Forall2_diag, Forall_true.
    intros m. apply module_is_redacted.
Qed.
(** The module that the target address is in. *)
Definition in_module (m : ModuleSnapshot) (a : Z) : bool := (mod_address m <=? a) && (a <? mod_address m + mod_size m).
Lemma find_target target :
  Forall (fun m => in_space (mod_address m) (mod_size m)) (MinidumpFileWriter.ps_modules snapshot) ->
  List.find (fun m => (mod_address m <=? target) && (target <? u64 (mod_address m + mod_size m))) (MinidumpFileWriter.ps_modules snapshot) =
  List.find (fun m => in_module m target) (MinidumpFileWriter.ps_modules snapshot).
Proof.
  intros Hm. induction Hm as [|m l (Ha & Hs & He) _ IH]; [done|]. cbn [List.find]. rewrite wrap_small by lia. by rewrite IH.
Qed.

(** An exception of a thread, with a known context, whose stack can be read and has the
    word at the stack pointer. *)
Record crash_known (memory : M) (e : ExceptionSnapshot) (t : ThreadSnapshot) (stack : MemorySnapshot) (b : bool) (pc sp : Z) (d : bytes)
    : Prop := {
  crash_exception : MinidumpFileWriter.ps_exception snapshot = Some e;
  crash_thread : List.find (fun t => thr_id t =? exc_thread_id e) (MinidumpFileWriter.ps_threads snapshot) = Some t;
  crash_stack : thr_stack t = Some stack;
  crash_is_64_bit : CPUContext_.Is64Bit (exc_context e) = Some b;
  crash_pc : CPUContext_.InstructionPointer (exc_context e) = Some pc;
  crash_sp : CPUContext_.StackPointer (exc_context e) = Some sp;
  crash_read : ReadSnapshot memory stack = Done d;
  crash_sp_low : mem_address stack <= sp;
  crash_sp_high : sp + Z.of_nat (pointer_size b) <= mem_address stack + mem_size stack
}.
(** A crash that the code takes to be related to the module of an address. *)
Definition looks_related (memory : M) (target : Z) (stack : MemorySnapshot) (b : bool) (pc sp : Z) : Prop :=
  exists m, List.find (fun m => in_module m target) (MinidumpFileWriter.ps_modules snapshot) = Some m /\
    (in_module m pc = true \/
     exists a, scanned_word memory stack b sp (mod_address m) (mod_address m + mod_size m) a).

Lemma check_target_spec (memory : M) target e t stack b pc sp d :
  regions_ok -> crash_known memory e t stack b pc sp d ->
  exists r, CheckTarget snapshot memory target = Done r /\ (r = true <-> looks_related memory target stack b pc sp).
Proof.
  intros [Hm Ht] [He Hf Hs Eb Epc Esp Hd Hsp Hsp']. unfold CheckTarget, looks_related.
  rewrite He, Hf, (find_target target Hm), Eb, Epc, Esp, Hs.
  destruct (List.find (fun m => in_module m target) _) as [m|] eqn:Em.
  2: { exists false. split; [done|]. split; [done|by intros (? & ? & _)]. }
  assert (in_space (mod_address m) (mod_size m)) as (Hma & Hms & Hme).
  { apply find_some in Em as [Hin%list_elem_of_In _]. rewrite Forall_forall in Hm. by apply Hm. }
  assert (in_space (mem_address stack) (mem_size stack)) as Hst.
  { apply find_some in Hf as [Hin%list_elem_of_In _]. rewrite Forall_forall in Ht. apply Ht in Hin. unfold stack_in_space in Hin.
    by rewrite Hs in Hin. }
  rewrite wrap_small by lia.
  destruct (scan_stack memory stack d b sp (mod_address m) (mod_address m + mod_size m) Hst Hd Hsp Hsp') as (res & Eres & Hres).
  unfold CheckStack. rewrite Hd, Eres. exists (in_module m pc || res). split.
  - unfold in_module. destruct (Z.ltb_spec pc (mod_address m)), (Z.leb_spec (mod_address m + mod_size m) pc),
      (Z.leb_spec (mod_address m) pc), (Z.ltb_spec pc (mod_address m + mod_size m)); done || lia.
  - rewrite orb_true_iff, Hres. split; [intros Hx; by exists m|]. by intros (m' & [= <-] & Hx).
Qed.

(** The check of any such crash. *)
Lemma target_module_any (memory : M) allowed ranges target sanitize_stacks e t stack b pc sp d :
  regions_ok -> Forall (fun t => is_Some (CPUContext_.Is64Bit (thr_context t))) (MinidumpFileWriter.ps_threads snapshot) ->
  target <> 0 -> crash_known memory e t stack b pc sp d ->
  let o := InitializeSanitizedSnapshot snapshot memory allowed ranges target sanitize_stacks in
  (o = Failed \/ exists p, o = Done p) /\ ((exists p, o = Done p) <-> looks_related memory target stack b pc sp).
Proof.
  intros Hok Hb H0' Hc o. destruct (check_target_spec memory target e t stack b pc sp d Hok Hc) as (r & Er & <-).
  unfold o, InitializeSanitizedSnapshot. rewrite (proj2 (Z.eqb_neq _ _) H0'), Er. cbn [outcome_bind].
  destruct r; cbn [negb]; [|split; [by left|by split; [intros []|]]].
  set (rs := fold_left _ _ _). assert (exists x, (if sanitize_stacks then add_threads (MinidumpFileWriter.ps_threads snapshot) rs [] else Done ([], [])) = Done x) as [[rs' ts] ->].
  { destruct sanitize_stacks; [apply add_threads_done; [apply Hok|done]|by eexists]. }
  cbn [outcome_bind]. split; [by right; eexists|]. split; [done|by eexists].
Qed.

(** A word of memory in a range of addresses. *)
Definition word_points (memory : M) (b : bool) (low high a : Z) : Prop :=
  exists d, load memory a (Z.of_nat (pointer_size b)) = Some d /\ low <= le_value d < high.
(** The first pointer-aligned word of the stack that is looked at, and those after it. *)
Definition stack_word (memory : M) (stack : MemorySnapshot) (b : bool) (sp low high a : Z) : Prop :=
  let n := Z.of_nat (pointer_size b) in
  sp < a /\ a mod n = 0 /\ a + n <= mem_address stack + mem_size stack /\ word_points memory b low high a.
(** A crash that is related to the module of an address. *)
Definition related (memory : M) (target : Z) (stack : MemorySnapshot) (b : bool) (pc sp : Z) : Prop :=
  exists m, List.find (fun m => in_module m target) (MinidumpFileWriter.ps_modules snapshot) = Some m /\
    (in_module m pc = true \/
     exists a, stack_word memory stack b sp (mod_address m) (mod_address m + mod_size m) a).
(** The stack starts at an aligned address, and the word at the stack pointer does not
    point into the module of an address. *)
Definition plain_stack (memory : M) (target : Z) (stack : MemorySnapshot) (b : bool) (sp : Z) : Prop :=
  mem_address stack mod Z.of_nat (pointer_size b) = 0 /\
  forall m, List.find (fun m => in_module m target) (MinidumpFileWriter.ps_modules snapshot) = Some m ->
    ~ word_points memory b (mod_address m) (mod_address m + mod_size m) sp.

Lemma plain_stack_related (memory : M) target stack b pc sp :
  plain_stack memory target stack b sp -> looks_related memory target stack b pc sp <-> related memory target stack b pc sp.
Proof.
  intros [Hal Hsp]. unfold looks_related, related, stack_word, scanned_word. pose proof (pointer_size_pos b) as Hn.
  assert (forall a, (a - mem_address stack) mod Z.of_nat (pointer_size b) = 0 <-> a mod Z.of_nat (pointer_size b) = 0) as Hm.
  { intros a. by rewrite Zminus_mod, Hal, Z.sub_0_r, Z.mod_mod by lia. }
  split; intros (m & Em & [Hpc|(a & Ha & Hmod & He & Hw)]); exists m; (split; [done|]); [by left| |by left|]; right; exists a.
  - apply (proj1 (Hm a)) in Hmod. split_and!; [|done|done|done]. destruct (decide (a = sp)) as [->|]; [by destruct (Hsp m Em)|lia].
  - apply (proj2 (Hm a)) in Hmod. split_and!; [lia|done|done|done].
Qed.

(** C32.  A snapshot with a target module is only let through if the crash is related to
    it.  The modules and stacks of the snapshot lie in the address space, and its exception
    was raised by one of its threads, whose stack can be read, starts at an aligned address
    and has a word at the stack pointer, which does not point into the target module.  Then
    [Initialize] does not access memory outside of the stack, and it succeeds if and only
    if some module contains the target address, and the instruction pointer or one of the
    pointer-aligned words of the stack at addresses greater than the stack pointer points
    into the first such module. *)
Theorem target_module_checked (memory : M) allowed ranges target sanitize_stacks e t stack b pc sp d :
  regions_ok -> Forall (fun t => is_Some (CPUContext_.Is64Bit (thr_context t))) (MinidumpFileWriter.ps_threads snapshot) ->
  target <> 0 -> crash_known memory e t stack b pc sp d -> plain_stack memory target stack b sp ->
  let o := InitializeSanitizedSnapshot snapshot memory allowed ranges target sanitize_stacks in
  (o = Failed \/ exists p, o = Done p) /\ ((exists p, o = Done p) <-> related memory target stack b pc sp).
Proof.
  intros Hok Hb H0' Hc Hp o. destruct (target_module_any memory allowed ranges target sanitize_stacks e t stack b pc sp d Hok Hb H0' Hc) as [H1 H2].
  split; [exact H1|]. by rewrite <-(plain_stack_related memory target stack b pc sp Hp).
Qed.
End Process.

(** *** What the client allows *)

Section Information.
  Context {M : Type} `{ProcessMemoryLaws M} `{!ProcessMemoryProgress M}.
  Context (r : ProcessMemoryRange M) (lo hi : Z) (Hr : covers r lo hi).

(** A list of names in memory: pointers to strings, and a null pointer. *)
Fixpoint names_at (a : Z) (l : list bytes) : Prop :=
  let R := address_repr (Is64Bit r) in let n := Z.of_nat (sizeof R) in
  lo <= a /\ a + n <= hi /\
  exists d, load (memory_ r) a n = Some d /\
  match l with
  | [] => of_bytes R d = 0
  | name :: l' =>
      let p := of_bytes R d in
      p <> 0 /\ (lo <= p /\ c_string_at (memory_ r) p name /\ Z.of_nat (length name) < Z.of_nat kNameMaxLength /\
      p + Z.of_nat (length name) < hi) /\ names_at (a + n) l'
  end.

Lemma loaded_address a d :
  load (memory_ r) a (Z.of_nat (sizeof (address_repr (Is64Bit r)))) = Some d -> 0 <= of_bytes (address_repr (Is64Bit r)) d < 2 ^ 64.
Proof using H H0.
  intros Hl. pose proof (load_bytes _ _ _ _ Hl) as Hb. apply load_length in Hl. rewrite Nat2Z.id in Hl.
  pose proof (le_value_bound d Hb) as Hv. unfold address_repr in *. cbn [uint sizeof of_bytes] in *. rewrite take_ge by lia.
  rewrite Hl in Hv. destruct (Is64Bit r); [exact Hv|]. change (256 ^ Z.of_nat 4) with (2 ^ 32) in Hv. lia.
Qed.

Definition read_as (a : Z) (allowed : list bytes) (o : outcome (list bytes)) : Prop :=
  (o = Failed /\ forall l, ~ names_at a l) \/ (exists l, o = Done (allowed ++ l) /\ forall l', names_at a l' <-> l' = l).

(** The loop ends where the range ends at the latest, and gives the names of the list. *)
Lemma allowed_annotations_loop_spec fuel a allowed :
  0 <= a < 2 ^ 64 -> Z.max 0 (hi - a) < Z.of_nat fuel ->
  exists o, allowed_annotations_loop fuel r a allowed = Some o /\ read_as a allowed o.
Proof using Hr ProcessMemoryProgress0 H0.
  revert a allowed. induction fuel as [|f IH]; intros a allowed Ha Hf; [lia|]. cbn [allowed_annotations_loop].
  pose proof Hr as (_ & Hlo & Hhi). pose proof (pointer_width (Is64Bit r)) as Hw.
  set (R := address_repr (Is64Bit r)). set (n := Z.of_nat (sizeof R)).
  assert (0 < n <= 8) as Hn by (unfold n, R; destruct (Is64Bit r); cbn; lia).
  destruct (decide (lo <= a /\ a + n <= hi)) as [[Hla Hah]|Hout].
  2: { rewrite (range_read_checked r lo hi a n Hr), decide_False by (done || lia). eexists. split; [reflexivity|]. left.
       split; [done|]. intros [|? ?] (H1 & H2 & _); fold R n in H2; lia. }
  rewrite (range_read_loads r lo hi a n Hr) by lia. destruct (load (memory_ r) a n) as [d|] eqn:El; cbn [lift].
  2: { eexists. split; [reflexivity|]. left. split; [done|]. intros [|? ?] (_ & _ & d & Hd & _); fold R n in Hd; congruence. }
  assert (forall l, names_at a l -> match l with [] => of_bytes R d = 0 | name :: l' => of_bytes R d <> 0 /\
    RangeReadCStringSizeLimited r (of_bytes R d) (Z.of_nat kNameMaxLength) = Done name /\ names_at (a + n) l' end) as Hinv.
  { intros [|name l] (_ & _ & d' & Hd' & Hx); fold R n in Hd', Hx; rewrite El in Hd'; injection Hd' as <-; [done|].
    destruct Hx as (Hp & Hs & Hx). split_and!; [done| |done]. apply (range_c_string_spec r lo hi); [done| |unfold kNameMaxLength; lia|done].
    by apply (loaded_address a). }
  destruct (Z.eqb_spec (of_bytes R d) 0) as [E0|E0].
  { eexists. split; [reflexivity|]. right. exists []. rewrite app_nil_r. split; [done|]. intros l'. split.
    - intros Hl'. apply Hinv in Hl'. destruct l'; [done|]. by destruct Hl'.
    - intros ->. split_and!; [done..|]. by exists d. }
  pose proof (range_c_string_defined r (of_bytes R d) (Z.of_nat kNameMaxLength)) as Hdef.
  pose proof (range_c_string_spec r lo hi (of_bytes R d) (Z.of_nat kNameMaxLength)) as Hcs.
  destruct (RangeReadCStringSizeLimited r _ _) as [|name|] eqn:Ec; [| |done].
  { eexists. split; [reflexivity|]. left. split; [done|]. intros [|name l] Hl%Hinv; [done|]. by destruct Hl as (_ & ? & _). }
  rewrite wrap_small by lia. destruct (IH (a + n) (allowed ++ [name])) as (o & -> & Ho); [lia..|].
  eexists. split; [reflexivity|]. destruct Ho as [[-> Ho]|(l & -> & Ho)].
  - left. split; [done|]. intros [|name' l] Hl%Hinv; [done|]. destruct Hl as (_ & _ & Hl). by apply Ho in Hl.
  - right. exists (name :: l). rewrite <-app_assoc. split; [done|]. intros l'. split.
    + intros Hl'%Hinv. destruct l' as [|name' l']; [done|]. destruct Hl' as (_ & [= <-] & Hl'). f_equal. by apply Ho.
    + intros ->. split_and!; [done..|]. exists d. split; [done|]. fold R n. split; [done|]. split; [|by apply Ho].
      apply Hcs; [done| |unfold kNameMaxLength; lia|done]. by apply (loaded_address a).
Qed.

(** A list of memory ranges in memory. *)
Definition ranges_at (a entries : Z) (l : list (Z * Z)) : Prop :=
  let list_size := Z.of_nat (sizeof range_list_repr) in
  let entries_size := Z.of_nat (sizeof (array (length l) range_list_repr)) in
  (lo <= a /\ a + list_size <= hi) /\ valid range_list_repr (entries, Z.of_nat (length l)) = true /\
  load (memory_ r) a list_size = Some (to_bytes range_list_repr (entries, Z.of_nat (length l))) /\
  (l <> [] -> (lo <= entries /\ entries + entries_size <= hi) /\ valid (array (length l) range_list_repr) l = true /\
    load (memory_ r) entries entries_size = Some (to_bytes (array (length l) range_list_repr) l)).

Lemma check_ranges_spec vm_max l :
  0 <= vm_max < 2 ^ 64 -> Forall (fun x => 0 <= x.1 /\ 0 <= x.2) l ->
  check_ranges vm_max l = if forallb (fun x => x.1 + x.2 <=? vm_max) l then Some (map (fun x => (x.1, x.1 + x.2)) l) else None.
Proof.
  intros Hm Hl. induction Hl as [|[base size] l [Hb Hs] _ IH]; [done|]. cbn [check_ranges forallb map fst snd] in *. rewrite IH.
  destruct (Z.ltb_spec vm_max base); cbn [orb]; [by rewrite (proj2 (Z.leb_gt _ _)) by lia|]. rewrite wrap_small by lia.
  destruct (Z.ltb_spec (vm_max - base) size); [by rewrite (proj2 (Z.leb_gt _ _)) by lia|].
  rewrite (proj2 (Z.leb_le _ _)) by lia. cbn [andb]. destruct (forallb _ _); [|done]. cbn. by rewrite wrap_small by lia.
Qed.

Lemma read_allowed_memory_ranges_spec a entries l :
  a <> 0 -> ranges_at a entries l ->
  let vm_max := if Is64Bit r then 2 ^ 64 - 1 else 2 ^ 32 - 1 in
  ReadAllowedMemoryRanges r a =
    if (Z.of_nat (length l) <=? kMaxListSize) && forallb (fun x => x.1 + x.2 <=? vm_max) l
    then Done (map (fun x => (x.1, x.1 + x.2)) l) else Failed.
Proof using Hr ProcessMemoryProgress0 H0.
  intros H0' ([Hla Hah] & Hv & Hd & He) vm_max. unfold ReadAllowedMemoryRanges. rewrite (proj2 (Z.eqb_neq _ _) H0').
  rewrite (range_read_loads r lo hi a _ Hr), Hd by lia. cbn [lift outcome_bind]. rewrite of_bytes_exact by (apply _ || done).
  destruct l as [|x l']; [done|]. set (l := x :: l') in *. destruct (He ltac:(done)) as ([Hle Heh] & Hve & Hde).
  rewrite (proj2 (Z.eqb_neq _ _)) by (cbn; lia). rewrite Z.ltb_antisym. destruct (_ <=? kMaxListSize); [|done]. cbn [negb andb].
  rewrite Nat2Z.id, (range_read_loads r lo hi entries _ Hr), Hde by lia. cbn [lift outcome_bind].
  rewrite of_bytes_exact by (apply _ || done). fold vm_max. rewrite check_ranges_spec.
  - by destruct (forallb _ _).
  - unfold vm_max. destruct (Is64Bit r); lia.
  - cbn [valid array] in Hve. apply andb_true_iff in Hve as [_ Hve]. apply Forall_forall. intros [b n] Hin%list_elem_of_In.
    rewrite forallb_forall in Hve. apply Hve in Hin.
    apply andb_true_iff in Hin as [Hb Hn]. cbn [uint valid fst snd] in *. rewrite fits_spec in Hb, Hn. lia.
Qed.
End Information.

(** What the client allows is read from its memory as it has written it there: the
    reading of the names ends, with the names of the list if there is a list of names in
    the range, and fails otherwise; a list of memory ranges is read if it has at most 256
    entries and each of them ends in the address space, and is refused otherwise. *)
Theorem sanitization_information_read {M} `{ProcessMemoryLaws M} `{!ProcessMemoryProgress M}
    (r : ProcessMemoryRange M) lo hi a fuel :
  covers r lo hi -> 0 < a < 2 ^ 64 -> Z.max 0 (hi - a) < Z.of_nat fuel ->
  (exists o, ReadAllowedAnnotations fuel r a = Some o /\
    ((o = Failed /\ forall l, ~ names_at r lo hi a l) \/ (exists l, o = Done l /\ forall l', names_at r lo hi a l' <-> l' = l))) /\
  (forall entries l, ranges_at r lo hi a entries l ->
    ReadAllowedMemoryRanges r a =
      if (Z.of_nat (length l) <=? kMaxListSize) && forallb (fun x => x.1 + x.2 <=? if Is64Bit r then 2 ^ 64 - 1 else 2 ^ 32 - 1) l
      then Done (map (fun x => (x.1, x.1 + x.2)) l) else Failed).
Proof.
  intros Hr Ha Hf. split.
  - unfold ReadAllowedAnnotations. rewrite (proj2 (Z.eqb_neq _ _)) by lia.
    destruct (allowed_annotations_loop_spec r lo hi Hr fuel a [] ltac:(lia) Hf) as (o & Eo & Ho). by exists o.
  - intros entries l Hl. apply (read_allowed_memory_ranges_spec r lo hi Hr a entries l); [lia|done].
Qed.

(** ** Examples *)

(** A stack with a small word, a word that points into the module and another one. *)
Definition example_stack_words : bytes := le_bytes 8 1 ++ le_bytes 8 4100 ++ le_bytes 8 0x123456789.
Definition example_stack_memory : Memory := [(65536, example_stack_words)].
Definition example_crash_context : CPUContext :=
  arm64 (CPUContextARM64.Make (replicate 31 0) 65540 5 0 (replicate 32 (zero_of Uint128.repr)) 0 0).
Definition example_stack : MemorySnapshot := MkMemorySnapshot 65536 24.
Definition example_crashed_thread : ThreadSnapshot :=
  MkThreadSnapshot example_crash_context (Some example_stack) 5 (str "t") 0 0 0 [].
Definition example_exception : ExceptionSnapshot := MkExceptionSnapshot example_crash_context 5 11 0 65536 [] [].
Definition example_crashed_process : MinidumpFileWriter.ProcessSnapshot :=
  MinidumpFileWriter.MkProcessSnapshot 77 (MkTimeval 1 1) (MkTimeval 1 1) (MkTimeval 1 5) (MkTimeval 3 5) example_system
    [example_crashed_thread] (Some example_exception) [MinidumpFileWriter.example_module] [] InitializeToZero InitializeToZero [] None [] [] [].

Lemma memory_redacted_witness :
  exists d', Sanitize true [(12287, 4096)] 65531 ([7; 7; 7; 7; 7] ++ example_stack_words ++ [9]) = Done d' /\
    redacted true (Contains [(12287, 4096)]) 65531 ([7; 7; 7; 7; 7] ++ example_stack_words ++ [9]) d'.
Proof.
  destruct (memory_redacted true [(12287, 4096)] 65531 ([7; 7; 7; 7; 7] ++ example_stack_words ++ [9])) as (d' & E & Hr & _).
  - lia.
  - apply (bool_decide_unpack _). by vm_compute.
  - vm_compute. lia.
  - exists d'. split; [exact E|exact Hr].
Defined.

Lemma example_regions_ok : regions_ok example_crashed_process.
Proof. split; repeat constructor; cbn; lia. Qed.

Lemma sanitized_process_redacted_witness :
  exists p, InitializeSanitizedSnapshot example_crashed_process example_stack_memory (Some [str "b"]) None 0 true = Done p /\
    Forall (stack_redacted example_crashed_process example_stack_memory (address_ranges_ p)) (threads_ p) /\
    Forall2 (module_redacted [str "b"]) [MinidumpFileWriter.example_module] (modules_ p).
Proof.
  eexists. split; [vm_compute; reflexivity|].
  destruct (sanitized_process_redacted example_crashed_process example_stack_memory [str "b"] None 0 _ example_regions_ok eq_refl)
    as (_ & H2 & H3).
  split; [exact H2|exact H3].
Defined.

Lemma target_module_checked_witness :
  exists p, InitializeSanitizedSnapshot example_crashed_process example_stack_memory None None 4096 true = Done p.
Proof.
  destruct (target_module_checked example_crashed_process example_stack_memory None None 4096 true example_exception
    example_crashed_thread example_stack true 5 65540 example_stack_words) as [_ [_ H]].
  - exact example_regions_ok.
  - repeat constructor. by eexists.
  - done.
  - split; try reflexivity; cbn; lia.
  - split; [reflexivity|]. intros m [= <-] (d & Hd & Hlow). vm_compute in Hd. injection Hd as <-. vm_compute in Hlow. by destruct Hlow.
  - apply H. exists MinidumpFileWriter.example_module. split; [reflexivity|]. right. exists 65544.
    split; [lia|]. split; [reflexivity|]. split; [cbn; lia|]. exists (le_bytes 8 4100). split; [reflexivity|]. vm_compute. split; congruence.
Defined.

(** A list of a name, and a list of a range. *)
Definition example_allowed : Memory :=
  [(8192, le_bytes 8 8208 ++ le_bytes 8 0 ++ str "ab" ++ [0]); (8256, le_bytes 8 8272 ++ le_bytes 8 1 ++ le_bytes 8 4096 ++ le_bytes 8 16)].
Definition example_allowed_range : ProcessMemoryRange Memory :=
  MkMemoryRange example_allowed (CheckedAddressRange.SetRange true 8192 96).
Lemma sanitization_information_read_witness :
  (exists o, ReadAllowedAnnotations 200 example_allowed_range 8192 = Some o /\ o = Done [str "ab"]) /\
  ReadAllowedMemoryRanges example_allowed_range 8256 = Done [(4096, 4112)].
Proof.
  assert (covers example_allowed_range 8192 8288) as Hc by (split; [done|]; cbn; lia). split.
  - destruct (sanitization_information_read example_allowed_range 8192 8288 8192 200 Hc) as [(o & E & _) _]; [lia..|].
    exists o. split; [exact E|]. vm_compute in E. injection E as <-. reflexivity.
  - destruct (sanitization_information_read example_allowed_range 8192 8288 8256 200 Hc) as [_ H]; [lia..|].
    rewrite (H 8272 [(4096, 16)]); [reflexivity|]. split; [cbn; lia|]. split; [reflexivity|]. split; [by vm_compute|].
    intros _. split; [cbn; lia|]. split; by vm_compute.
Defined.
