(* ===== verification/MinidumpReaders.v ===== *)
(** * Reading minidump files (snapshot/minidump/)

    [ReadMinidumpString], [ReadMinidumpStringList],
    [ReadMinidumpSimpleStringDictionary], [ReadMinidumpByteArray],
    [ReadMinidumpAnnotationList] and the beginning of
    [ProcessSnapshotMinidump::Initialize], over a reader that can seek, and the
    proofs that they recover what the classes of MinidumpObjects and
    [MinidumpFileWriter] have written. *)

From S2P Require Import Prelude.
From S2P Require Import Numeric.
From S2P Require Import FileIO.
From S2P Require Import Uuid.
From S2P Require Import MemoryRanges.
From S2P Require Import MinidumpWritable.
From S2P Require Import MinidumpObjects.
From S2P Require Import MinidumpStreams.
From S2P Require Import MinidumpModules.
From S2P Require Import MinidumpFile.

(** ** Readers that can seek *)

(** [FileReaderInterface::SeekSet]; [None] is [false]. *)
Class FileSeekReader (R : Type) `{FileReaderInterface R} := {
  SeekSet : R -> Z -> option R;
  SeekGet : R -> Z
}.

(** What such a reader promises: it is on a fixed sequence of bytes. *)
Class FileSeekReaderLaws (R : Type) `{FileReaderLaws R} `{!FileSeekReader R} := {
  whole : R -> bytes;
  read_whole r n d r' : reader_valid r -> Read r n = Some (d, r') -> whole r' = whole r;
  seek_set_reads r o :
    reader_valid r -> 0 <= o < 2 ^ 63 ->
    exists r', SeekSet r o = Some r' /\ reader_valid r' /\ whole r' = whole r /\
      remaining r' = drop (Z.to_nat o) (whole r) /\ SeekGet r' = o;
  read_advances r n d r' :
    reader_valid r -> Read r n = Some (d, r') -> SeekGet r' = SeekGet r + Z.of_nat (length d)
}.

#[global] Instance StringFile_seek_reader : FileSeekReader StringFile.t := {
  SeekSet f o := match StringFile.Seek f o SEEK_SET with
                 | (r, f') => if r <? 0 then None else Some f'
                 end;
  SeekGet f := fst (StringFile.Seek f 0 SEEK_CUR)
}.

#[global] Program Instance StringFile_seek_reader_laws : FileSeekReaderLaws StringFile.t := {
  whole := StringFile.string_
}.
Next Obligation.
  intros f n d f' _ E. simpl in E. unfold StringFile.Read in E. repeat case_match; by simplify_eq.
Qed.
Next Obligation.
  intros f o [Hw Hl] Ho. simpl. rewrite (string_file_seek_to _ _ _ 0); [|by left|lia|lia].
  destruct (Z.ltb_spec (0 + o) 0); [lia|]. eexists. split; [done|]. simpl.
  split_and!; [unfold StringFile.wf; simpl; lia|done|done|done|].
  rewrite (string_file_seek_to _ _ _ o); [simpl; lia|by right|lia|lia].
Qed.
Next Obligation.
  intros f n d f' [Hw Hl] E. simpl in *. unfold StringFile.wf, StringFile.Read in *.
  destruct (Nat.leb_spec (length (StringFile.string_ f)) (Z.to_nat (StringFile.offset_ f))).
  { injection E as <- <-. simpl. lia. }
  destruct (negb _); [done|]. injection E as <- <-.
  rewrite length_slice by lia.
  rewrite (string_file_seek_to f 0 SEEK_CUR (StringFile.offset_ f)); [|by right|lia|lia].
  erewrite string_file_seek_to; [|right; by split|simpl; lia|simpl; lia]. simpl. lia.
Qed.

Section Readers.
  Context {R : Type} `{FileSeekReader R}.

(** [FileReaderInterface::ReadExactly]; [None] is [false]. *)
Definition read_exactly (r : R) (size : Z) : option (bytes * R) :=
  match ReadExactly r (Z.to_nat size) with
  | Some (Some x) => Some x
  | _ => None
  end.

(** [n] objects of [k] bytes each. *)
Fixpoint chunks (k n : nat) (d : bytes) : list bytes :=
  match n with
  | O => []
  | S n' => take k d :: chunks k n' (drop k d)
  end.

(** [ReadMinidumpString], for characters of [k] bytes. *)
Definition ReadMinidumpString (k : nat) (r : R) (rva : Z) : option (list Z * R) :=
  if rva =? 0 then Some ([], r)
  else
    r1 ← SeekSet r rva;
    '(sz, r2) ← read_exactly r1 4;
    let string_size := le_value sz in
    '(d, r3) ← read_exactly r2 string_size;
    Some (map le_value (chunks k (Z.to_nat (string_size / Z.of_nat k)) d), r3).
Definition ReadMinidumpUTF8String (r : R) (rva : Z) : option (bytes * R) :=
  ReadMinidumpString 1 r rva.

(** [ReadMinidumpUTF16String] into a UTF-8 string; the result of
    [base::UTF16ToUTF8] is ignored. *)
Definition ReadMinidumpUTF16String (UTF16ToUTF8 : list Z -> bool * bytes) (r : R) (rva : Z)
    : option (bytes * R) :=
  '(s, r') ← ReadMinidumpString 2 r rva;
  Some (snd (UTF16ToUTF8 s), r').

(** The loop of [ReadMinidumpStringList] over the RVAs. *)
Fixpoint read_strings (r : R) (rvas : list Z) : option (list bytes * R) :=
  match rvas with
  | [] => Some ([], r)
  | rva :: rest =>
      '(element, r1) ← ReadMinidumpUTF8String r rva;
      '(l, r2) ← read_strings r1 rest;
      Some (element :: l, r2)
  end.

(** The size checks, the count and the entries of a list at a location: [base]
    bytes of header that are the count, entries of [k] bytes. *)
Definition read_counted (base k : Z) (r : R) (DataSize Rva : Z) : option (list bytes * R) :=
  if DataSize <? base then None
  else
    r1 ← SeekSet r Rva;
    '(c, r2) ← read_exactly r1 4;
    let count := le_value c in
    if negb (DataSize =? base + count * k) then None
    else
      '(d, r3) ← read_exactly r2 (count * k);
      Some (chunks (Z.to_nat k) (Z.to_nat count) d, r3).

(** [ReadMinidumpStringList]. *)
Definition ReadMinidumpStringList (r : R) (DataSize Rva : Z) : option (list bytes * R) :=
  if Rva =? 0 then Some ([], r)
  else
    '(rvas, r1) ← read_counted 4 4 r DataSize Rva;
    read_strings r1 (map le_value rvas).

(** The loop of [ReadMinidumpSimpleStringDictionary] over the entries; a
    duplicate key is an error. *)
Fixpoint read_entries (r : R) (entries : list bytes) (local_dictionary : string_map bytes)
    : option (string_map bytes * R) :=
  match entries with
  | [] => Some (local_dictionary, r)
  | entry :: rest =>
      '(key, r1) ← ReadMinidumpUTF8String r (le_value (slice 0 4 entry));
      '(value, r2) ← ReadMinidumpUTF8String r1 (le_value (slice 4 4 entry));
      match map_find key local_dictionary with
      | Some _ => None
      | None => read_entries r2 rest (map_insert key value local_dictionary)
      end
  end.

(** [ReadMinidumpSimpleStringDictionary]. *)
Definition ReadMinidumpSimpleStringDictionary (r : R) (DataSize Rva : Z)
    : option (string_map bytes * R) :=
  if Rva =? 0 then Some ([], r)
  else
    '(entries, r1) ← read_counted 4 8 r DataSize Rva;
    read_entries r1 entries [].

(** [ReadMinidumpByteArray]. *)
Definition ReadMinidumpByteArray (r : R) (rva : Z) : option (bytes * R) :=
  if rva =? 0 then Some ([], r)
  else
    r1 ← SeekSet r rva;
    '(len, r2) ← read_exactly r1 4;
    read_exactly r2 (le_value len).

(** The loop of [ReadMinidumpAnnotationList] over the annotations. *)
Fixpoint read_annotations (r : R) (annotations : list bytes) : option (list AnnotationSnapshot * R) :=
  match annotations with
  | [] => Some ([], r)
  | a :: rest =>
      '(name, r1) ← ReadMinidumpUTF8String r (le_value (slice 0 4 a));
      '(value, r2) ← ReadMinidumpByteArray r1 (le_value (slice 8 4 a));
      '(l, r3) ← read_annotations r2 rest;
      Some (MkAnnotationSnapshot name (u16 (le_value (slice 4 2 a))) value :: l, r3)
  end.

(** [ReadMinidumpAnnotationList]. *)
Definition ReadMinidumpAnnotationList (r : R) (DataSize Rva : Z)
    : option (list AnnotationSnapshot * R) :=
  if Rva =? 0 then Some ([], r)
  else
    '(annotations, r1) ← read_counted 4 12 r DataSize Rva;
    read_annotations r1 annotations.

(** [ModuleSnapshotMinidump::InitializeModuleCrashpadInfo], at a location; the
    annotations it reads. *)
Definition InitializeModuleCrashpadInfo (r : R) (location : option (Z * Z))
    : option (list bytes * string_map bytes * list AnnotationSnapshot * R) :=
  match location with
  | None => Some ([], [], [], r)
  | Some (DataSize, Rva) =>
      if Rva =? 0 then Some ([], [], [], r)
      else if DataSize <? 28 then None
      else
        r1 ← SeekSet r Rva;
        '(info, r2) ← read_exactly r1 28;
        let word i := le_value (slice (4 * i) 4 info) in
        if negb (word 0%nat =? MinidumpModuleCrashpadInfoWriter.kVersion) then None
        else
          '(annotations_vector, r3) ← ReadMinidumpStringList r2 (word 1%nat) (word 2%nat);
          '(annotations_simple_map, r4) ←
             ReadMinidumpSimpleStringDictionary r3 (word 3%nat) (word 4%nat);
          '(annotation_objects, r5) ← ReadMinidumpAnnotationList r4 (word 5%nat) (word 6%nat);
          Some (annotations_vector, annotations_simple_map, annotation_objects, r5)
  end.

End Readers.

(** ** What is stored in a file *)

(** The file has the bytes [d] at the offset [o], which is not zero. *)
Definition holds (file : bytes) (o : Z) (d : bytes) : Prop :=
  0 < o /\ o + Z.of_nat (length d) <= Z.of_nat (length file) /\
  slice (Z.to_nat o) (length d) file = d.

(** The file has every object of the tree, at the offset that the fields
    registered with it hold; 32-bit fields can represent their value. *)
Definition stored_object (file : bytes) (m : fields_map) (w : Writable) (o : Z) : Prop :=
  holds file o (object_bytes m w) /\ points_to m w o /\
  (registered_rvas_ w <> [] -> o < 2 ^ 32) /\
  (registered_location_descriptors_ w <> [] -> o < 2 ^ 32 /\ SizeOfObject w < 2 ^ 32).
Definition stored (file : bytes) (m : fields_map) (t : Tree) : Prop :=
  forall w, w ∈ flatten t -> exists o, stored_object file m w o.

Lemma stored_child file m w ts t : stored file m (Node w ts) -> t ∈ ts -> stored file m t.
Proof.
  intros Hs Ht v Hv. apply Hs. simpl. right. apply elem_of_concat. exists (flatten t).
  split; [done|]. by apply list_elem_of_fmap_2.
Qed.

Lemma stored_root file m t : stored file m t -> exists o, stored_object file m (root t) o.
Proof. intros Hs. apply Hs. destruct t. left. Qed.

Lemma holds_app file o a b :
  holds file o (a ++ b) -> holds file o a /\ (0 < o + Z.of_nat (length a)) /\
  (b <> [] \/ True -> slice (Z.to_nat (o + Z.of_nat (length a))) (length b) file = b /\
   o + Z.of_nat (length a) + Z.of_nat (length b) <= Z.of_nat (length file)).
Proof.
  intros (H0 & Hl & Hs). rewrite length_app in *. rewrite slice_split in Hs.
  assert (length (slice (Z.to_nat o) (length a) file) = length a) as La
    by (apply length_slice; lia).
  apply app_inj_1 in Hs as [Ha Hb]; [|done]. split; [split_and!; [done|lia|done]|].
  split; [lia|]. intros _. rewrite Z2Nat.inj_add, Nat2Z.id by lia. split; [done|lia].
Qed.

Lemma holds_rest file o a b : holds file o (a ++ b) -> holds file (o + Z.of_nat (length a)) b.
Proof. intros (_ & H0 & Hb)%holds_app. destruct Hb; [by right|]. by split_and!. Qed.

Lemma holds_head file o a b : holds file o (a ++ b) -> holds file o a.
Proof. by intros [? _]%holds_app. Qed.

Lemma length_chunks k n d : length (chunks k n d) = n.
Proof. revert d; induction n; intros; simpl; auto. Qed.

Lemma chunks_concat k bs :
  Forall (fun b => length b = k) bs -> chunks k (length bs) (concat bs) = bs.
Proof.
  induction 1 as [|b bs Hb _ IH]; simpl; [done|].
  rewrite take_app_length' by done. by rewrite drop_app_length', IH.
Qed.

(** The object a registered field points to. *)
Lemma rva_target file m s t :
  stored file m (RegisterRVA s t) ->
  exists o, field m s = o /\ 0 < o < 2 ^ 32 /\ holds file o (object_bytes m (root t)) /\
    Forall (stored file m) (Children t).
Proof.
  intros Hs. pose proof (stored_root _ _ _ Hs) as (o & Hh & Hp & Hr & _).
  destruct t as [w l]. simpl in *. exists o.
  assert (m !! s = Some o) as E by (apply Hp; simpl; set_solver).
  split_and!.
  - unfold field. by rewrite E.
  - apply Hh.
  - apply Hr. by destruct (registered_rvas_ w).
  - done.
  - apply Forall_forall. intros t Ht. by eapply stored_child.
Qed.

Lemma descriptor_target file m s t :
  stored file m (RegisterLocationDescriptor s t) -> 0 <= SizeOfObject (root t) ->
  exists o, field m (descriptor_size s) = SizeOfObject (root t) /\ field m (descriptor_rva s) = o /\
    0 < o < 2 ^ 32 /\ 0 <= SizeOfObject (root t) < 2 ^ 32 /\
    holds file o (object_bytes m (root t)) /\ Forall (stored file m) (Children t).
Proof.
  intros Hs Hsz. pose proof (stored_root _ _ _ Hs) as (o & Hh & Hp & _ & Hr).
  destruct t as [w l]. simpl in *. exists o.
  destruct Hp as (_ & Hp & _). simpl in Hp. destruct (Hp s) as [E1 E2]; [set_solver|].
  destruct Hr as [Hr1 Hr2]; [by destruct (registered_location_descriptors_ w)|].
  split_and!; try done; try lia.
  - unfold field. by rewrite E1.
  - unfold field. by rewrite E2.
  - apply Hh.
  - apply Forall_forall. intros t Ht. by eapply stored_child.
Qed.

Lemma le_value_field m s : 0 <= field m s < 2 ^ 32 -> le_value (le_bytes 4 (field m s)) = field m s.
Proof. intros. by apply le_value_bytes_small. Qed.

(** ** Fields that nothing assigns *)

(** Every field assigned at or below [p] is one of the tree [t]. *)
Definition only (p : path) (t : Tree) (m : fields_map) : Prop :=
  forall s : slot, p `prefix_of` s.1 -> is_Some (m !! s) -> s ∈ tree_slots t.

Lemma adopted_lookup p i ss ts j t :
  adopted p i ss ts -> ts !! j = Some t ->
  exists s t0, s ∈ ss /\ owned (p ++ [(i + j)%nat]) t0 /\ registered s t0 t.
Proof.
  intros Ha. revert j. induction Ha as [|i s t0 t' ss ts Ho Hr _ IH]; intros j Et; [done|].
  destruct j as [|j]; simpl in Et.
  - injection Et as <-. exists s, t0. rewrite Nat.add_0_r. split; [left|done].
  - destruct (IH _ Et) as (s' & t0' & Hs & Ho' & Hr'). exists s', t0'.
    rewrite Nat.add_succ_r. split; [by right|done].
Qed.

Lemma sibling_prefix p j k (q : path) :
  (p ++ [j]) `prefix_of` q -> (p ++ [k]) `prefix_of` q -> j = k.
Proof.
  intros [a ->] [b E]. rewrite <-!app_assoc in E. apply (app_inv_head p) in E. by injection E.
Qed.
Lemma child_not_self (p : path) j : ~ (p ++ [j]) `prefix_of` p.
Proof. intros Hp%prefix_length. rewrite length_app in Hp. simpl in Hp. lia. Qed.

(** The slots below the children of a node. *)
Lemma adopted_slot p ss ts s :
  adopted p 0 ss ts -> Forall (fun s : slot => s.1 = p) (concat ss) ->
  s ∈ concat (map tree_slots ts) ->
  exists j t, ts !! j = Some t /\ s ∈ tree_slots t /\
    (s ∈ concat ss \/ (p ++ [j]) `prefix_of` s.1).
Proof.
  intros Ha Hss Hs. apply elem_of_concat in Hs as (l & Hl & Hin).
  apply list_elem_of_fmap in Hin as (t & -> & Ht).
  apply list_elem_of_lookup in Ht as (j & Ej). exists j, t. split_and!; [done|done|].
  destruct (adopted_lookup _ _ _ _ _ _ Ha Ej) as (s' & t0 & Hs' & Ho & Hr).
  rewrite (registered_tree_slots _ _ _ Hr) in Hl. apply elem_of_app in Hl as [Hl|Hl].
  - left. apply elem_of_concat. eauto.
  - right. pose proof (owned_slots_below _ _ Ho) as Hb. rewrite Forall_forall in Hb. by apply Hb.
Qed.

Lemma only_child p w ss ts m j t :
  only p (Node w ts) m -> adopted p 0 ss ts ->
  Forall (fun s : slot => s.1 = p) (writable_slots w ++ concat ss) ->
  ts !! j = Some t -> only (p ++ [j]) t m.
Proof.
  intros Hon Ha [Hw Hss]%Forall_app Et s Hp Hm.
  assert (s ∈ tree_slots (Node w ts)) as Hs.
  { apply Hon; [|done]. etrans; [|exact Hp]. by apply prefix_app_r. }
  rewrite tree_slots_node in Hs. apply elem_of_app in Hs as [Hs|Hs].
  - rewrite Forall_forall in Hw. rewrite (Hw _ Hs) in Hp. by apply child_not_self in Hp.
  - destruct (adopted_slot _ _ _ _ Ha Hss Hs) as (k & t' & Et' & Hin & [Hc|Hk]).
    + rewrite Forall_forall in Hss. rewrite (Hss _ Hc) in Hp. by apply child_not_self in Hp.
    + rewrite (sibling_prefix _ _ _ _ Hp Hk) in Et. by simplify_eq.
Qed.

Lemma only_unregister p S t0 t m :
  registered S t0 t -> Forall (fun s : slot => ~ p `prefix_of` s.1) S -> only p t m -> only p t0 m.
Proof.
  intros Hr HS Hon s Hp Hm. pose proof (Hon s Hp Hm) as Hs.
  rewrite (registered_tree_slots _ _ _ Hr) in Hs. apply elem_of_app in Hs as [Hs|]; [|done].
  rewrite Forall_forall in HS. by destruct (HS _ Hs).
Qed.

Lemma only_absent p w ss ts m k :
  only p (Node w ts) m -> adopted p 0 ss ts ->
  Forall (fun s : slot => s.1 = p) (writable_slots w ++ concat ss) ->
  (p, k) ∉ writable_slots w ++ concat ss -> field m (p, k) = 0.
Proof.
  intros Hon Ha [Hw Hss]%Forall_app Hn. unfold field.
  destruct (m !! (p, k)) as [v|] eqn:E; [|done]. destruct Hn.
  assert ((p, k) ∈ tree_slots (Node w ts)) as Hs by (apply Hon; [done|by rewrite E]).
  rewrite tree_slots_node in Hs. apply elem_of_app. apply elem_of_app in Hs as [Hs|Hs]; [by left|].
  destruct (adopted_slot _ _ _ _ Ha Hss Hs) as (j & t' & _ & _ & [Hc|Hk]); [by right|].
  by apply child_not_self in Hk.
Qed.

(** An optional child: its descriptor points to it, or is zero. *)
Definition optional_child (file : bytes) (m : fields_map) (p : path) (oc : option Freezable) (k : nat)
    : Prop :=
  match oc with
  | None => field m (p, k) = 0 /\ field m (p, S k) = 0
  | Some c => exists j t, c (p ++ [j]) = Some t /\
                stored file m (RegisterLocationDescriptor (p, k) t)
  end.

Lemma present_stored file m p i l ts c k :
  freeze_children p i (map fst (present l)) = Some ts ->
  Forall (stored file m) (register_descriptors p (map snd (present l)) ts) ->
  (Some c, k) ∈ l -> exists j t, (register_descriptors p (map snd (present l)) ts) !! j =
      Some (RegisterLocationDescriptor (p, k) t) /\ c (p ++ [(i + j)%nat]) = Some t /\
    stored file m (RegisterLocationDescriptor (p, k) t).
Proof.
  revert i ts. induction l as [|[[c'|] k'] l IH]; intros i ts Ec Hst Hin; [by apply elem_of_nil in Hin| |].
  - cbn [present map fst snd freeze_children] in Ec.
    destruct (c' (p ++ [i])) as [t|] eqn:Et; [|done].
    destruct (freeze_children p (S i) _) as [ts'|] eqn:Ets; [|done]. apply (inj Some) in Ec as <-.
    cbn [present map snd register_descriptors] in *. apply Forall_cons in Hst as [Ht Hst].
    apply elem_of_cons in Hin as [[= -> ->]|Hin].
    + exists 0%nat, t. by rewrite Nat.add_0_r.
    + destruct (IH _ _ Ets Hst Hin) as (j & t' & E & Ec & Hs). exists (S j), t'.
      by rewrite Nat.add_succ_r.
  - apply elem_of_cons in Hin as [[=]|Hin]. by apply IH.
Qed.

(** The numbers of the fields of the descriptors. *)
Definition descriptor_fields (ks : list nat) : list nat := concat (map (fun k => [k; S k]) ks).

Lemma present_fields l k :
  k ∈ descriptor_fields (map snd (present l)) -> k ∈ descriptor_fields (map snd l).
Proof.
  unfold descriptor_fields. induction l as [|[[c|] k'] l IH]; simpl; [done|set_solver|].
  intros Hk%IH. set_solver.
Qed.

Lemma descriptor_field_in (l : list (option Freezable * nat)) oc k :
  (oc, k) ∈ l -> k ∈ descriptor_fields (map snd l) /\ S k ∈ descriptor_fields (map snd l).
Proof.
  intros Hin. unfold descriptor_fields.
  split; apply elem_of_concat; exists [k; S k]; (split; [set_solver|]); rewrite map_map;
    change [k; S k] with ((fun x : option Freezable * nat => [snd x; S (snd x)]) (oc, k));
    by apply list_elem_of_fmap_2.
Qed.

Lemma absent_fields l k :
  NoDup (descriptor_fields (map snd l)) -> (None, k) ∈ l ->
  k ∉ descriptor_fields (map snd (present l)) /\ S k ∉ descriptor_fields (map snd (present l)).
Proof.
  induction l as [|[oc k'] l IH]; [by intros _ ?%elem_of_nil|].
  unfold descriptor_fields. cbn [map snd concat app]. rewrite !NoDup_cons.
  intros (N1 & N2 & Hn) [E|Hin]%elem_of_cons.
  - injection E as <- <-. cbn [present]. split; intros Hk%present_fields; apply not_elem_of_cons in N1;
      unfold descriptor_fields in Hk; set_solver.
  - destruct (descriptor_field_in l None k Hin) as [K1 K2].
    unfold descriptor_fields in *. destruct (IH Hn Hin) as [H1 H2].
    destruct oc; cbn [present map snd concat app]; [|by split].
    apply not_elem_of_cons in N1 as [_ N1]. split; rewrite !not_elem_of_cons; split_and!; try done;
      intros E; simplify_eq; contradiction.
Qed.

Lemma field_pairs_slots p ks : concat (field_pairs p ks) = map (pair p) (descriptor_fields ks).
Proof. unfold field_pairs, descriptor_fields. by rewrite concat_map, map_map. Qed.

(** The optional children of a node. *)
Lemma optional_children file m p w l ts oc k :
  Forall (fun ck => forall c, fst ck = Some c -> freezes_owned c) l ->
  freeze_children p 0 (map fst (present l)) = Some ts ->
  let cs := register_descriptors p (map snd (present l)) ts in
  only p (Node w cs) m -> Forall (stored file m) cs ->
  Forall (fun s : slot => s.1 = p) (writable_slots w) ->
  Forall (fun s : slot => s.2 ∉ descriptor_fields (map snd l)) (writable_slots w) ->
  NoDup (descriptor_fields (map snd l)) -> (oc, k) ∈ l ->
  optional_child file m p oc k /\
  (forall c, oc = Some c -> exists j t, c (p ++ [j]) = Some t /\ only (p ++ [j]) t m /\
     stored file m (RegisterLocationDescriptor (p, k) t)).
Proof.
  intros Ho Ec cs Hon Hst Hw Hwk Hn Hin.
  pose proof (freeze_present_adopted _ _ _ _ Ho Ec) as Ha.
  assert (Forall (fun s : slot => s.1 = p)
    (writable_slots w ++ concat (field_pairs p (map snd (present l))))) as Hf.
  { apply Forall_app_2; [done|]. rewrite field_pairs_slots. by apply Forall_fmap, Forall_true. }
  assert (forall c, oc = Some c -> exists j t, c (p ++ [j]) = Some t /\ only (p ++ [j]) t m /\
     stored file m (RegisterLocationDescriptor (p, k) t)) as Hsome.
  { intros c ->. destruct (present_stored file m p 0 l ts c k Ec Hst Hin) as (j & t & Ej & Et & Hs).
    exists j, t. split_and!; [done| |done].
    eapply only_unregister; [apply (registered_descriptor [] (p, k)), registered_refl| |].
    - repeat constructor; apply child_not_self.
    - by eapply only_child. }
  split; [|done]. destruct oc as [c|].
  - destruct (Hsome c eq_refl) as (j & t & Et & _ & Hs). by exists j, t.
  - destruct (absent_fields l k Hn Hin) as [K1 K2].
    split; (eapply only_absent; [exact Hon|exact Ha|exact Hf|]); intros Hp;
      apply elem_of_app in Hp as [Hp|Hp].
    + rewrite Forall_forall in Hwk. apply (Hwk _ Hp). by apply (descriptor_field_in l None k).
    + rewrite field_pairs_slots in Hp. apply list_elem_of_fmap in Hp as (? & [= <-] & ?). done.
    + rewrite Forall_forall in Hwk. apply (Hwk _ Hp). by apply (descriptor_field_in l None k).
    + rewrite field_pairs_slots in Hp. apply list_elem_of_fmap in Hp as (? & [= <-] & ?). done.
Qed.

Section ReaderProofs.
  Context {R : Type} `{FileSeekReaderLaws R}.

(** A reader of the file. *)
Definition on (file : bytes) (r : R) : Prop := reader_valid r /\ whole r = file.

Lemma ReadExactly_loop_whole fuel (r : R) want buffer b r' :
  reader_valid r -> ReadExactly_loop fuel r want buffer = Some (Some (b, r')) -> whole r' = whole r.
Proof.
  revert r want buffer. induction fuel as [|f IH]; intros r want buffer Hv; simpl; [done|].
  destruct (want =? 0)%nat; [by intros [= _ ->]|].
  destruct (Read r want) as [[d r1]|] eqn:E; [|done].
  pose proof (read_whole _ _ _ _ Hv E) as Hw. destruct (read_prefix _ _ _ _ Hv E) as [Hv1 _].
  destruct d as [|c d]; [by intros [= _ <-]|]. intros Hl. by rewrite (IH _ _ _ Hv1 Hl).
Qed.

Lemma ReadExactly_loop_advances fuel (r : R) want buffer b r' :
  reader_valid r -> ReadExactly_loop fuel r want buffer = Some (Some (b, r')) ->
  SeekGet r' = SeekGet r + (Z.of_nat (length b) - Z.of_nat (length buffer)).
Proof.
  revert r want buffer. induction fuel as [|f IH]; intros r want buffer Hv; simpl; [done|].
  destruct (want =? 0)%nat; [intros [= <- <-]; lia|].
  destruct (Read r want) as [[d r1]|] eqn:E; [|done].
  pose proof (read_advances _ _ _ _ Hv E) as Hg. destruct (read_prefix _ _ _ _ Hv E) as [Hv1 _].
  destruct d as [|c d]; [intros [= <- <-]; simpl in Hg; lia|].
  intros Hl. rewrite (IH _ _ _ Hv1 Hl), length_app. lia.
Qed.

(** The position after a read. *)
Lemma read_exactly_advances (r : R) n d r' :
  reader_valid r -> read_exactly r n = Some (d, r') -> SeekGet r' = SeekGet r + Z.of_nat (length d).
Proof.
  intros Hv. unfold read_exactly, ReadExactly.
  destruct (ReadExactly_loop _ _ _ _) as [[[b r2]|]|] eqn:E; [|done..].
  destruct (_ =? _)%nat; [|done]. intros [= <- <-].
  rewrite (ReadExactly_loop_advances _ _ _ _ _ _ Hv E). simpl. lia.
Qed.

Lemma read_exactly_on file r o n :
  on file r -> remaining r = drop (Z.to_nat o) file -> 0 <= o -> 0 <= n ->
  o + n <= Z.of_nat (length file) ->
  exists r', read_exactly r n = Some (slice (Z.to_nat o) (Z.to_nat n) file, r') /\ on file r' /\
    remaining r' = drop (Z.to_nat (o + n)) file.
Proof.
  intros [Hv Hw] Hr Ho Hn Hl.
  destruct (read_exactly_spec r (Z.to_nat n) Hv) as [Hs _].
  destruct Hs as (r' & E & Hv' & Hr'). { rewrite Hr, length_drop. lia. }
  assert (whole r' = whole r) as Hw'.
  { unfold ReadExactly in E. destruct (ReadExactly_loop _ _ _ _) as [[[b r2]|]|] eqn:El; [|done..].
    destruct (_ =? _)%nat; [|done]. injection E as _ ->. by eapply ReadExactly_loop_whole. }
  exists r'. unfold read_exactly. rewrite E. split_and!.
  - by rewrite Hr.
  - split; [done|congruence].
  - rewrite Hr', Hr, drop_drop. f_equal. lia.
Qed.

Lemma seek_on file r o :
  on file r -> 0 <= o < 2 ^ 63 ->
  exists r', SeekSet r o = Some r' /\ on file r' /\ remaining r' = drop (Z.to_nat o) file.
Proof.
  intros [Hv Hw] Ho. destruct (seek_set_reads r o Hv Ho) as (r' & E & Hv' & Hw' & Hr' & _).
  exists r'. split_and!; [done|split; [done|congruence]|congruence].
Qed.

(** Reading the bytes a file holds at the current position. *)
Lemma read_held file r o d :
  on file r -> remaining r = drop (Z.to_nat o) file -> holds file o d ->
  exists r', read_exactly r (Z.of_nat (length d)) = Some (d, r') /\ on file r' /\
    remaining r' = drop (Z.to_nat (o + Z.of_nat (length d))) file.
Proof.
  intros Hon Hr (Hpos & Hl & Hs).
  destruct (read_exactly_on file r o (Z.of_nat (length d))) as (r' & E & ?); [done..|lia|lia|lia|].
  exists r'. rewrite Nat2Z.id, Hs in E. done.
Qed.

Lemma read_held_at file r o d :
  on file r -> holds file o d -> o < 2 ^ 32 ->
  exists r1, SeekSet r o = Some r1 /\ on file r1 /\
  exists r2, read_exactly r1 (Z.of_nat (length d)) = Some (d, r2) /\ on file r2 /\
    remaining r2 = drop (Z.to_nat (o + Z.of_nat (length d))) file.
Proof.
  intros Hon Hh Ho. pose proof Hh as (Hpos & _).
  destruct (seek_on file r o Hon ltac:(lia)) as (r1 & E1 & On1 & R1).
  exists r1. split_and!; [done..|]. by apply read_held.
Qed.

(** A length or count in front of a payload. *)
Lemma read_counted_word file r o (n : Z) payload :
  on file r -> holds file o (le_bytes 4 n ++ payload) -> o < 2 ^ 32 -> 0 <= n < 2 ^ 32 ->
  exists r1, SeekSet r o = Some r1 /\
  exists r2, read_exactly r1 4 = Some (le_bytes 4 n, r2) /\ le_value (le_bytes 4 n) = n /\
    on file r2 /\ remaining r2 = drop (Z.to_nat (o + 4)) file /\ holds file (o + 4) payload.
Proof.
  intros Hon Hh Ho Hn. pose proof (holds_rest _ _ _ _ Hh) as Ht.
  apply holds_head in Hh. rewrite length_le_bytes in Ht. change (Z.of_nat 4) with 4 in Ht.
  destruct (read_held_at file r o (le_bytes 4 n) Hon Hh Ho) as (r1 & E1 & On1 & r2 & E2 & On2 & R2).
  rewrite length_le_bytes in *. exists r1. split; [done|]. exists r2. split_and!; try done.
  by apply le_value_bytes_small.
Qed.

(** *** Strings and byte arrays *)

Lemma map_le_value_bytes k (l : list Z) :
  Forall (fun z => 0 <= z < 256 ^ Z.of_nat k) l -> map le_value (map (le_bytes k) l) = l.
Proof.
  induction 1 as [|z l Hz _ IH]; simpl; [done|]. by rewrite IH, le_value_bytes_small.
Qed.

(** The payload of a string, read in characters of a size that may be another than
    that of its own. *)
Lemma string_payload_read k k' s p t m file r o :
  MinidumpStringWriter.Freeze (MinidumpStringWriter.Make k s) p = Some t ->
  Z.of_nat (length s) * Z.of_nat k < 2 ^ 64 ->
  holds file o (object_bytes m (root t)) -> o < 2 ^ 32 -> on file r ->
  exists r', ReadMinidumpString k' r o =
    Some (map le_value (chunks k' (Z.to_nat (Z.of_nat (length s) * Z.of_nat k / Z.of_nat k'))
                          (concat (map (le_bytes k) s))), r') /\ on file r'.
Proof.
  intros Ef Hlen Hh Ho Hon. unfold MinidumpStringWriter.Freeze in Ef. simpl in Ef.
  rewrite wrap_small in Ef by lia.
  destruct (AssignIfInRange _ _) as [n|] eqn:En; [|done].
  apply AssignIfInRange_Some in En as [Hr ->]; [|done]. apply fits_spec in Hr. simpl in Hr.
  apply (inj Some) in Ef as <-. simpl root in Hh. unfold object_bytes in Hh. cbn [WriteObject object_at concat] in Hh.
  rewrite app_nil_r, map_app, concat_app in Hh. pose proof Hh as (Hpos & _).
  unfold ReadMinidumpString. destruct (Z.eqb_spec o 0); [lia|].
  destruct (read_counted_word file r o _ _ Hon Hh Ho Hr)
    as (r1 & -> & r2 & E2 & Ev & On2 & R2 & Hp).
  cbn [mbind option_bind]. rewrite E2. cbn [mbind option_bind]. rewrite Ev.
  apply holds_head in Hp.
  assert (Z.of_nat (length (concat (map (le_bytes k) s))) = Z.of_nat (length s) * Z.of_nat k) as Hl.
  { rewrite MinidumpStringWriter.length_chars. lia. }
  destruct (read_held file r2 _ _ On2 R2 Hp) as (r3 & E3 & On3 & _). rewrite Hl in E3. rewrite E3.
  cbn [mbind option_bind]. eauto.
Qed.

Lemma string_read k s p t m file r o :
  (0 < k)%nat -> Forall (fun z => 0 <= z < 256 ^ Z.of_nat k) s ->
  MinidumpStringWriter.Freeze (MinidumpStringWriter.Make k s) p = Some t ->
  Z.of_nat (length s) * Z.of_nat k < 2 ^ 64 ->
  holds file o (object_bytes m (root t)) -> o < 2 ^ 32 -> on file r ->
  exists r', ReadMinidumpString k r o = Some (s, r') /\ on file r'.
Proof.
  intros Hk Hs Ef Hlen Hh Ho Hon.
  destruct (string_payload_read k k s p t m file r o Ef Hlen Hh Ho Hon) as (r' & -> & On').
  exists r'. split; [|done]. rewrite Z.div_mul, Nat2Z.id by lia.
  rewrite <-(length_map (le_bytes k)). rewrite chunks_concat.
  - by rewrite map_le_value_bytes.
  - apply Forall_fmap, Forall_true. intros z. apply length_le_bytes.
Qed.

Lemma chunks_1 d : map le_value (chunks 1 (length d) d) = d.
Proof.
  induction d as [|c d IH]; [done|]. cbn [length chunks map take drop]. rewrite drop_0, IH.
  f_equal. simpl. lia.
Qed.

(** A UTF-16 string read as one of UTF-8 is the sequence of its bytes. *)
Lemma utf16_read_as_utf8 UTF8ToUTF16 s p t m file r o :
  MinidumpStringWriter.Freeze (MinidumpUTF16StringWriter UTF8ToUTF16 s) p = Some t ->
  Z.of_nat (length (snd (UTF8ToUTF16 s))) * 2 < 2 ^ 64 ->
  holds file o (object_bytes m (root t)) -> o < 2 ^ 32 -> on file r ->
  exists r', ReadMinidumpUTF8String r o =
    Some (concat (map (le_bytes 2) (snd (UTF8ToUTF16 s))), r') /\ on file r'.
Proof.
  intros Ef Hl Hh Ho Hr.
  destruct (string_payload_read 2 1 _ p t m file r o Ef Hl Hh Ho Hr) as (r' & E & Hr').
  exists r'. split; [|done]. unfold ReadMinidumpUTF8String. rewrite E, Z.div_1_r. do 2 f_equal.
  set (d := concat _). replace (Z.to_nat _) with (length d); [apply chunks_1|].
  unfold d. rewrite MinidumpStringWriter.length_chars. lia.
Qed.

Lemma utf8_string_read s p t m file r o :
  Forall is_byte s ->
  MinidumpStringWriter.Freeze (MinidumpUTF8StringWriter s) p = Some t ->
  Z.of_nat (length s) < 2 ^ 64 ->
  holds file o (object_bytes m (root t)) -> o < 2 ^ 32 -> on file r ->
  exists r', ReadMinidumpUTF8String r o = Some (s, r') /\ on file r'.
Proof.
  intros Hs Ef Hl Hh Ho Hon. apply (string_read 1 s p t m file r o); try done; lia.
Qed.

Lemma byte_array_read d p t m file r o :
  MinidumpByteArrayWriter.Freeze d p = Some t ->
  holds file o (object_bytes m (root t)) -> o < 2 ^ 32 -> on file r ->
  exists r', ReadMinidumpByteArray r o = Some (d, r') /\ on file r'.
Proof.
  unfold MinidumpByteArrayWriter.Freeze. intros Ef Hh Ho Hon.
  destruct (AssignIfInRange _ _) as [n|] eqn:En; [|done].
  apply AssignIfInRange_Some in En as [Hr ->]; [|done]. apply fits_spec in Hr. simpl in Hr.
  apply (inj Some) in Ef as <-. simpl root in Hh. unfold object_bytes in Hh.
  cbn [WriteObject object_at concat] in Hh.
  assert (concat (match d with [] => [] | _ => [d] end) = d) as Ed.
  { destruct d; [done|]. cbn [concat]. by rewrite app_nil_r. }
  rewrite Ed in Hh. pose proof Hh as (Hpos & _).
  unfold ReadMinidumpByteArray. destruct (Z.eqb_spec o 0); [lia|].
  destruct (read_counted_word file r o _ _ Hon Hh Ho Hr) as (r1 & -> & r2 & E2 & Ev & On2 & R2 & Hp).
  cbn [mbind option_bind]. rewrite E2. cbn [mbind option_bind]. rewrite Ev.
  destruct (read_held file r2 _ _ On2 R2 Hp) as (r3 & E3 & On3 & _). eauto.
Qed.

(** *** Lists *)

(** The header and the entries of a counted list. *)
Lemma read_counted_held file r o k (entries : list bytes) :
  on file r -> o < 2 ^ 32 -> Z.of_nat (length entries) < 2 ^ 32 ->
  Forall (fun b => length b = k) entries ->
  holds file o (le_bytes 4 (Z.of_nat (length entries)) ++ concat entries) ->
  exists r', read_counted 4 (Z.of_nat k) r (4 + Z.of_nat (length entries) * Z.of_nat k) o =
    Some (entries, r') /\ on file r'.
Proof.
  intros Hon Ho Hn Hk Hh. unfold read_counted.
  destruct (Z.ltb_spec (4 + Z.of_nat (length entries) * Z.of_nat k) 4); [lia|].
  destruct (read_counted_word file r o _ _ Hon Hh Ho ltac:(lia))
    as (r1 & -> & r2 & E2 & Ev & On2 & R2 & Hp).
  cbn [mbind option_bind]. rewrite E2. cbn [mbind option_bind]. rewrite Ev, Z.eqb_refl. cbn [negb].
  assert (Z.of_nat (length (concat entries)) = Z.of_nat (length entries) * Z.of_nat k) as Hl.
  { clear -Hk. induction Hk as [|b l Hb _ IH]; [done|]. cbn [concat]. rewrite length_app, length_cons.
    lia. }
  destruct (read_held file r2 _ _ On2 R2 Hp) as (r3 & E3 & On3 & _). rewrite Hl in E3.
  rewrite E3. cbn [mbind option_bind]. rewrite !Nat2Z.id, chunks_concat by done. eauto.
Qed.

Lemma read_strings_held p i v ts m file r :
  Forall (fun s => Forall is_byte s /\ Z.of_nat (length s) < 2 ^ 64) v ->
  freeze_children p i
    (map (fun s => MinidumpStringWriter.Freeze (MinidumpUTF8StringWriter s)) v) = Some ts ->
  Forall (stored file m) (register_each (fun k => RegisterRVA (p, k)) i ts) -> on file r ->
  exists r', read_strings r (map le_value (map (fun k => le_bytes 4 (field m (p, k)))
    (seq i (length v)))) = Some (v, r') /\ on file r'.
Proof.
  intros Hv. revert i ts r. induction Hv as [|s v [Hs Hl] _ IH]; intros i ts r Ec Hst Hon.
  { simpl. eauto. }
  cbn [map freeze_children] in Ec. destruct (MinidumpStringWriter.Freeze _ _) as [t|] eqn:Et; [|done].
  destruct (freeze_children p (S i) _) as [ts'|] eqn:Ets; [|done]. apply (inj Some) in Ec as <-.
  cbn [register_each] in Hst. apply Forall_cons in Hst as [Ht Hst].
  destruct (rva_target _ _ _ _ Ht) as (o & Eo & Ho & Hh & _).
  cbn [length seq map read_strings]. rewrite le_value_field, Eo by lia.
  destruct (utf8_string_read s (p ++ [i]) t m file r o) as (r1 & -> & On1); try done; [lia|].
  cbn [mbind option_bind]. destruct (IH _ _ r1 Ets Hst On1) as (r2 & -> & On2).
  cbn [mbind option_bind]. eauto.
Qed.

Lemma string_list_read v p t m file r o :
  Forall (fun s => Forall is_byte s /\ Z.of_nat (length s) < 2 ^ 64) v ->
  MinidumpRVAListWriter.Freeze (MinidumpUTF8StringListWriter.InitializeFromVector v) p = Some t ->
  holds file o (object_bytes m (root t)) -> o < 2 ^ 32 ->
  Forall (stored file m) (Children t) -> on file r ->
  exists r', ReadMinidumpStringList r (SizeOfObject (root t)) o = Some (v, r') /\ on file r'.
Proof.
  intros Hv. rewrite MinidumpUTF8StringListWriter.string_list_initialize_map.
  unfold MinidumpRVAListWriter.Freeze. rewrite length_map. intros Ef Hh Ho Hst Hon.
  destruct (freeze_children _ _ _) as [ts|] eqn:Ec; [|done].
  destruct (AssignIfInRange _ _) as [n|] eqn:En; [|done].
  apply AssignIfInRange_Some in En as [Hr ->]; [|done]. apply fits_spec in Hr. simpl in Hr.
  apply (inj Some) in Ef as <-. cbn [root Children] in *. pose proof Hh as (Hpos & _).
  unfold ReadMinidumpStringList. destruct (Z.eqb_spec o 0); [lia|].
  set (rvas := map (fun k => le_bytes 4 (field m (p, k))) (seq 0 (length v))).
  assert (length rvas = length v) as Hlr by (unfold rvas; by rewrite length_map, length_seq).
  destruct (read_counted_held file r o 4 rvas Hon Ho) as (r1 & E1 & On1).
  - lia.
  - apply Forall_fmap, Forall_true. intros k. apply length_le_bytes.
  - rewrite Hlr. unfold object_bytes in Hh. cbn [WriteObject object_at concat] in Hh.
    destruct (Nat.eqb_spec (length v) 0) as [E0|]; cbn [concat] in Hh.
    + destruct rvas; [done|simpl in Hlr; lia].
    + by rewrite app_nil_r in Hh.
  - rewrite Hlr in E1. cbn [SizeOfObject object_at]. change (Z.of_nat 4) with 4 in E1. rewrite E1.
    cbn [mbind option_bind]. by apply (read_strings_held p 0 v ts m file r1).
Qed.

(** *** Dictionaries *)

Definition string_ok (s : bytes) : Prop := Forall is_byte s /\ Z.of_nat (length s) < 2 ^ 64.

Lemma slice_4_4 (a b : bytes) : length a = 4%nat -> length b = 4%nat -> slice 4 4 (a ++ b) = b.
Proof.
  intros Ha Hb. unfold slice. rewrite drop_app_length' by done. by rewrite take_ge by lia.
Qed.
Lemma slice_0_4 (a b : bytes) : length a = 4%nat -> slice 0 4 (a ++ b) = a.
Proof. intros Ha. unfold slice. rewrite drop_0. by rewrite take_app_length'. Qed.

Lemma entry_key m q :
  slice 0 4 (MinidumpSimpleStringDictionaryEntryWriter.entry_bytes m q) =
  le_bytes 4 (field m (q, 0%nat)).
Proof. apply slice_0_4, length_le_bytes. Qed.
Lemma entry_value m q :
  slice 4 4 (MinidumpSimpleStringDictionaryEntryWriter.entry_bytes m q) =
  le_bytes 4 (field m (q, 1%nat)).
Proof. apply slice_4_4; apply length_le_bytes. Qed.

Lemma read_entries_held p i kvs ts m file r acc :
  Forall (fun kv => string_ok kv.1 /\ string_ok kv.2) kvs -> map_sorted kvs ->
  Forall (fun e : bytes * bytes => Forall (fun kv => string_ltb e.1 kv.1 = true) kvs) acc ->
  freeze_children p i (map (fun kv => MinidumpSimpleStringDictionaryEntryWriter.Freeze
    (MinidumpSimpleStringDictionaryEntryWriter.SetKeyValue kv.1 kv.2)) kvs) = Some ts ->
  Forall (stored file m) ts -> on file r ->
  exists r', read_entries r
    (map (fun j => MinidumpSimpleStringDictionaryEntryWriter.entry_bytes m (p ++ [j]))
      (seq i (length kvs))) acc = Some (acc ++ kvs, r') /\ on file r'.
Proof.
  intros Hok. revert i ts r acc. induction Hok as [|[k v] kvs [[Hkb Hkl] [Hvb Hvl]] _ IH];
    intros i ts r acc Hs Hacc Ec Hst Hon.
  { simpl. rewrite app_nil_r. eauto. }
  simpl in Hkb, Hkl, Hvb, Hvl. destruct (map_sorted_head _ _ _ Hs) as [Hlt Hs'].
  cbn [map freeze_children] in Ec.
  destruct (MinidumpSimpleStringDictionaryEntryWriter.Freeze _ _) as [t|] eqn:Et; [|done].
  destruct (freeze_children p (S i) _) as [ts'|] eqn:Ets; [|done]. apply (inj Some) in Ec as <-.
  apply Forall_cons in Hst as [Ht Hst].
  unfold MinidumpSimpleStringDictionaryEntryWriter.Freeze in Et. cbn [freeze_children] in Et.
  simpl MinidumpSimpleStringDictionaryEntryWriter.key_ in Et.
  simpl MinidumpSimpleStringDictionaryEntryWriter.value_ in Et. set (q := p ++ [i]) in *.
  destruct (MinidumpStringWriter.Freeze (MinidumpUTF8StringWriter k) _) as [tk|] eqn:Ek; [|done].
  destruct (MinidumpStringWriter.Freeze (MinidumpUTF8StringWriter v) _) as [tv|] eqn:Ev; [|done].
  apply (inj Some) in Et as <-.
  destruct (rva_target file m (q, 0%nat) tk) as (ok & Eok & Hok & Hhk & _).
  { eapply stored_child; [exact Ht|]. left. }
  destruct (rva_target file m (q, 1%nat) tv) as (ov & Eov & Hov & Hhv & _).
  { eapply stored_child; [exact Ht|]. right. left. }
  cbn [length seq map read_entries].
  fold q. rewrite entry_key, entry_value, !le_value_field, Eok, Eov by lia.
  destruct (utf8_string_read k (q ++ [0%nat]) tk m file r ok) as (r1 & -> & On1); try done; [lia|].
  cbn [mbind option_bind].
  destruct (utf8_string_read v (q ++ [1%nat]) tv m file r1 ov) as (r2 & -> & On2); try done; [lia|].
  cbn [mbind option_bind].
  assert (Forall (fun e : bytes * bytes => string_ltb e.1 k = true) acc) as Hk.
  { eapply Forall_impl; [exact Hacc|]. simpl. by intros e [? _]%Forall_cons. }
  rewrite map_find_notin, map_insert_last by done.
  destruct (IH (S i) ts' r2 (acc ++ [(k, v)])) as (r3 & E3 & On3); try done.
  { apply Forall_app_2; [|by repeat constructor].
    eapply Forall_impl; [exact Hacc|]. simpl. by intros e [_ ?]%Forall_cons. }
  rewrite E3, <-app_assoc. eauto.
Qed.

Lemma dictionary_read kvs p t m file r o :
  Forall (fun kv => string_ok kv.1 /\ string_ok kv.2) kvs -> map_sorted kvs ->
  MinidumpSimpleStringDictionaryWriter.Freeze
    (MinidumpSimpleStringDictionaryWriter.InitializeFromMap kvs) p = Some t ->
  holds file o (object_bytes m (root t)) -> o < 2 ^ 32 ->
  Forall (stored file m) (Children t) -> on file r ->
  exists r', ReadMinidumpSimpleStringDictionary r (SizeOfObject (root t)) o = Some (kvs, r') /\
    on file r'.
Proof.
  intros Hok Hs. rewrite MinidumpSimpleStringDictionaryWriter.initialize_sorted by done.
  unfold MinidumpSimpleStringDictionaryWriter.Freeze. rewrite length_map, map_map.
  intros Ef Hh Ho Hst Hon.
  destruct (freeze_children _ _ _) as [ts|] eqn:Ec; [|done].
  destruct (AssignIfInRange _ _) as [n|] eqn:En; [|done].
  apply AssignIfInRange_Some in En as [Hr ->]; [|done]. apply fits_spec in Hr. simpl in Hr.
  apply (inj Some) in Ef as <-. cbn [root Children] in *. pose proof Hh as (Hpos & _).
  unfold ReadMinidumpSimpleStringDictionary. destruct (Z.eqb_spec o 0); [lia|].
  unfold object_bytes in Hh. cbn [WriteObject object_at concat] in Hh.
  set (entries := MinidumpSimpleStringDictionaryWriter.entries_bytes m p (length kvs)) in *.
  assert (length entries = length kvs) as Hlr.
  { unfold entries, MinidumpSimpleStringDictionaryWriter.entries_bytes.
    by rewrite length_map, length_seq. }
  destruct (read_counted_held file r o 8 entries Hon Ho) as (r1 & E1 & On1).
  - lia.
  - apply Forall_fmap, Forall_true. intros k.
    unfold compose, MinidumpSimpleStringDictionaryEntryWriter.entry_bytes.
    by rewrite length_app, !length_le_bytes.
  - by rewrite Hlr.
  - rewrite Hlr in E1. cbn [SizeOfObject object_at]. change (Z.of_nat 8) with 8 in E1. rewrite E1.
    cbn [mbind option_bind]. by apply (read_entries_held p 0 kvs ts m file r1 []).
Qed.

(** *** Annotations *)

Definition annotation_ok (a : AnnotationSnapshot) : Prop :=
  string_ok (annotation_name a) /\ 0 <= annotation_type a < 2 ^ 16.

Lemma annotation_words a m q :
  let b := MinidumpAnnotationWriter.annotation_bytes a m q in
  slice 0 4 b = le_bytes 4 (field m (q, 0%nat)) /\
  slice 4 2 b = le_bytes 2 (MinidumpAnnotationWriter.type a) /\
  slice 8 4 b = le_bytes 4 (field m (q, 1%nat)).
Proof.
  intros b. unfold b, MinidumpAnnotationWriter.annotation_bytes, slice.
  pose proof (length_le_bytes 4 (field m (q, 0%nat))) as L0.
  pose proof (length_le_bytes 2 (MinidumpAnnotationWriter.type a)) as L1.
  pose proof (length_le_bytes 4 (field m (q, 1%nat))) as L2.
  generalize dependent (le_bytes 4 (field m (q, 0%nat))). intros x0 L0.
  generalize dependent (le_bytes 2 (MinidumpAnnotationWriter.type a)). intros x1 L1.
  generalize dependent (le_bytes 4 (field m (q, 1%nat))). intros x2 L2.
  do 5 (destruct x0 as [|? x0]; try done). do 3 (destruct x1 as [|? x1]; try done).
  do 5 (destruct x2 as [|? x2]; try done).
Qed.

Lemma annotations_bytes_shape m p i d :
  length (MinidumpAnnotationListWriter.annotations_bytes m p i d) = length d /\
  Forall (fun b => length b = 12%nat) (MinidumpAnnotationListWriter.annotations_bytes m p i d).
Proof.
  revert i; induction d as [|a d IH]; intros i; [done|].
  cbn [MinidumpAnnotationListWriter.annotations_bytes length]. destruct (IH (S i)) as [E Hf].
  split; [by rewrite E|]. constructor; [|done].
  unfold MinidumpAnnotationWriter.annotation_bytes. by rewrite !length_app, !length_le_bytes.
Qed.

Lemma read_annotations_held p i l ts m file r :
  Forall annotation_ok l ->
  freeze_children p i (map MinidumpAnnotationWriter.Freeze
    (map MinidumpAnnotationWriter.InitializeFromSnapshot l)) = Some ts ->
  Forall (stored file m) ts -> on file r ->
  exists r', read_annotations r (MinidumpAnnotationListWriter.annotations_bytes m p i
    (map MinidumpAnnotationWriter.InitializeFromSnapshot l)) = Some (l, r') /\ on file r'.
Proof.
  intros Hok. revert i ts r. induction Hok as [|a l [[Hb Hl] Hty] _ IH]; intros i ts r Ec Hst Hon.
  { simpl. eauto. }
  cbn [map freeze_children] in Ec.
  destruct (MinidumpAnnotationWriter.Freeze _ _) as [t|] eqn:Et; [|done].
  destruct (freeze_children p (S i) _) as [ts'|] eqn:Ets; [|done]. apply (inj Some) in Ec as <-.
  apply Forall_cons in Hst as [Ht Hst]. set (q := p ++ [i]) in *.
  unfold MinidumpAnnotationWriter.Freeze, MinidumpAnnotationWriter.InitializeFromSnapshot in Et.
  cbn [freeze_children MinidumpAnnotationWriter.name_ MinidumpAnnotationWriter.value_] in Et.
  destruct (MinidumpStringWriter.Freeze _ _) as [tn|] eqn:En; [|done].
  destruct (MinidumpByteArrayWriter.Freeze _ _) as [tv|] eqn:Ev; [|done].
  apply (inj Some) in Et as <-.
  destruct (rva_target file m (q, 0%nat) tn) as (on_ & Eon & Hon_ & Hhn & _).
  { eapply stored_child; [exact Ht|]. left. }
  destruct (rva_target file m (q, 1%nat) tv) as (ov & Eov & Hov & Hhv & _).
  { eapply stored_child; [exact Ht|]. right. left. }
  cbn [map MinidumpAnnotationListWriter.annotations_bytes read_annotations]. fold q.
  destruct (annotation_words (MinidumpAnnotationWriter.InitializeFromSnapshot a) m q)
    as (-> & -> & ->).
  rewrite !le_value_field, Eon, Eov by lia.
  destruct (utf8_string_read (annotation_name a) (q ++ [0%nat]) tn m file r on_)
    as (r1 & -> & On1); try done; [lia|]. cbn [mbind option_bind].
  destruct (byte_array_read (annotation_value a) (q ++ [1%nat]) tv m file r1 ov)
    as (r2 & -> & On2); try done; [lia|]. cbn [mbind option_bind].
  destruct (IH (S i) ts' r2 Ets Hst On2) as (r3 & -> & On3). cbn [mbind option_bind].
  exists r3. split; [|done]. destruct a as [nm ty v]. cbn [annotation_name annotation_type annotation_value] in *.
  cbn [MinidumpAnnotationWriter.type MinidumpAnnotationWriter.InitializeFromSnapshot annotation_type].
  rewrite le_value_bytes_small by done. by rewrite wrap_small.
Qed.

Lemma annotation_list_read l p t m file r o :
  Forall annotation_ok l ->
  MinidumpAnnotationListWriter.Freeze (MinidumpAnnotationListWriter.InitializeFromList l) p = Some t ->
  holds file o (object_bytes m (root t)) -> o < 2 ^ 32 ->
  Forall (stored file m) (Children t) -> on file r ->
  exists r', ReadMinidumpAnnotationList r (SizeOfObject (root t)) o = Some (l, r') /\ on file r'.
Proof.
  intros Hok. rewrite MinidumpAnnotationListWriter.annotation_list_initialize_map.
  unfold MinidumpAnnotationListWriter.Freeze. rewrite length_map.
  intros Ef Hh Ho Hst Hon.
  destruct (freeze_children _ _ _) as [ts|] eqn:Ec; [|done].
  destruct (AssignIfInRange _ _) as [n|] eqn:En; [|done].
  apply AssignIfInRange_Some in En as [Hr ->]; [|done]. apply fits_spec in Hr. simpl in Hr.
  apply (inj Some) in Ef as <-. cbn [root Children] in *. pose proof Hh as (Hpos & _).
  unfold ReadMinidumpAnnotationList. destruct (Z.eqb_spec o 0); [lia|].
  unfold object_bytes in Hh. cbn [WriteObject object_at concat] in Hh.
  set (entries := MinidumpAnnotationListWriter.annotations_bytes m p 0 _) in *.
  destruct (annotations_bytes_shape m p 0 (map MinidumpAnnotationWriter.InitializeFromSnapshot l))
    as [Hlr Hle]. fold entries in Hlr, Hle. rewrite length_map in Hlr.
  destruct (read_counted_held file r o 12 entries Hon Ho) as (r1 & E1 & On1);
    [lia|done|by rewrite Hlr|].
  rewrite Hlr in E1. cbn [SizeOfObject object_at]. change (Z.of_nat 12) with 12 in E1.
  rewrite (Z.mul_comm 12), E1. cbn [mbind option_bind].
  by apply (read_annotations_held p 0 l ts m file r1).
Qed.

(** *** Module information *)

Lemma slice_word (ws : list bytes) i w :
  Forall (fun b => length b = 4%nat) ws -> ws !! i = Some w -> slice (4 * i) 4 (concat ws) = w.
Proof.
  intros Hws. revert i. induction Hws as [|b ws Hb _ IH]; intros i Ei; [done|].
  destruct i as [|i]; simpl in Ei.
  - injection Ei as ->. by apply slice_0_4.
  - rewrite <-(IH i Ei). unfold slice. cbn [concat].
    by rewrite drop_app_ge, Hb by lia; replace (4 * S i - 4)%nat with (4 * i)%nat by lia.
Qed.

Definition module_info_ok (s : ModuleSnapshot) : Prop :=
  Forall string_ok (mod_annotations_vector s) /\
  Forall (fun kv => string_ok kv.1 /\ string_ok kv.2) (mod_annotations_simple_map s) /\
  map_sorted (mod_annotations_simple_map s) /\
  Forall annotation_ok (mod_annotation_objects s).

(** What [InitializeFromSnapshot] sets. *)
Definition vector_child (v : list bytes) : option Freezable :=
  match v with
  | [] => None
  | _ => Some (MinidumpRVAListWriter.Freeze (MinidumpUTF8StringListWriter.InitializeFromVector v))
  end.
Definition map_child (d : string_map bytes) : option Freezable :=
  match MinidumpSimpleStringDictionaryWriter.InitializeFromMap d with
  | [] => None
  | d' => Some (MinidumpSimpleStringDictionaryWriter.Freeze d')
  end.
Definition objects_child (l : list AnnotationSnapshot) : option Freezable :=
  match l with
  | [] => None
  | _ => Some (MinidumpAnnotationListWriter.Freeze
                 (MinidumpAnnotationListWriter.InitializeFromList l))
  end.

Lemma module_info_children s :
  MinidumpModuleCrashpadInfoWriter.children
    (MinidumpModuleCrashpadInfoWriter.InitializeFromSnapshot s) =
  [(vector_child (mod_annotations_vector s), 0%nat);
   (map_child (mod_annotations_simple_map s), 2%nat);
   (objects_child (mod_annotation_objects s), 4%nat)].
Proof.
  unfold MinidumpModuleCrashpadInfoWriter.InitializeFromSnapshot, vector_child, map_child,
    objects_child.
  rewrite MinidumpUTF8StringListWriter.string_list_initialize_map, MinidumpAnnotationListWriter.annotation_list_initialize_map.
  destruct (mod_annotations_vector s) as [|v0 v], (mod_annotation_objects s) as [|a0 l],
    (MinidumpSimpleStringDictionaryWriter.InitializeFromMap (mod_annotations_simple_map s));
    cbn [map]; reflexivity.
Qed.

(** A collection that is optional in the file: the reader of the collection gets
    what was written, and nothing where nothing was. *)
Section OptionalRead.
  Context {A : Type} (read : R -> Z -> Z -> option (list A * R)) (data : list A).
  Context (oc : option Freezable).

Lemma optional_read file m p k r :
  (forall r, read r 0 0 = Some ([], r)) -> (oc = None -> data = []) ->
  (forall c q t o r, oc = Some c -> c q = Some t -> holds file o (object_bytes m (root t)) ->
     o < 2 ^ 32 -> Forall (stored file m) (Children t) -> on file r ->
     0 <= SizeOfObject (root t) /\
     exists r', read r (SizeOfObject (root t)) o = Some (data, r') /\ on file r') ->
  optional_child file m p oc k -> on file r ->
  exists r', read r (le_value (le_bytes 4 (field m (p, k))))
    (le_value (le_bytes 4 (field m (p, S k)))) = Some (data, r') /\ on file r'.
Proof.
  intros Hz Hnone Hsome Hc Hon. unfold optional_child in Hc. destruct oc as [c|].
  - destruct Hc as (j & t & Et & Hs).
    assert (0 <= SizeOfObject (root t)) as Hsz.
    { destruct (stored_root _ _ _ Hs) as (o & Ho & _). destruct t as [w l].
      destruct (Z.le_gt_cases 0 (SizeOfObject w)) as [|Hneg]; [done|].
      destruct (stored_root _ _ _ Hs) as (o' & Hh' & _ & _ & Hd). simpl in *.
      destruct Hd as [Ho' _]; [by destruct (registered_location_descriptors_ w)|].
      destruct (Hsome c (p ++ [j]) (Node w l) o' r) as [? _]; try done.
      apply Forall_forall. intros t Ht. by eapply stored_child. }
    destruct (descriptor_target _ _ _ _ Hs Hsz) as (o & E1 & E2 & Ho & Hsz' & Hh & Hch).
    unfold descriptor_size, descriptor_rva in E1, E2. simpl in E1, E2.
    rewrite !le_value_field, E1, E2 by lia.
    by eapply Hsome; [..|exact Hh|lia|exact Hch|exact Hon].
  - destruct Hc as [-> ->]. rewrite Hnone by done. exists r. by rewrite !le_value_bytes_small.
Qed.
End OptionalRead.

Lemma frozen_size c p t : freezes_owned c -> c p = Some t -> 0 <= SizeOfObject (root t).
Proof.
  intros Hc Et. pose proof (owned_lawful _ _ (Hc _ _ Et)) as Hl. destruct t.
  apply Forall_cons in Hl as [[[? _] _] _]. done.
Qed.

Lemma strings_owned v :
  Forall freezes_owned (MinidumpUTF8StringListWriter.InitializeFromVector v).
Proof.
  rewrite MinidumpUTF8StringListWriter.string_list_initialize_map. apply Forall_fmap, Forall_true.
  intros s. apply MinidumpStringWriter.string_freeze_owned.
Qed.

Lemma length_module_bytes m p : length (MinidumpModuleCrashpadInfoWriter.module_bytes m p) = 28%nat.
Proof.
  unfold MinidumpModuleCrashpadInfoWriter.module_bytes.
  by rewrite !length_app, !length_descriptor_bytes, length_le_bytes.
Qed.

Lemma module_info_words m p i w :
  [le_bytes 4 MinidumpModuleCrashpadInfoWriter.kVersion;
   le_bytes 4 (field m (p, 0%nat)); le_bytes 4 (field m (p, 1%nat));
   le_bytes 4 (field m (p, 2%nat)); le_bytes 4 (field m (p, 3%nat));
   le_bytes 4 (field m (p, 4%nat)); le_bytes 4 (field m (p, 5%nat))] !! i = Some w ->
  slice (4 * i) 4 (MinidumpModuleCrashpadInfoWriter.module_bytes m p) = w.
Proof.
  intros Ei. etrans; [|eapply slice_word; [|exact Ei]].
  2: { repeat (apply Forall_cons; split; [apply length_le_bytes|]). by apply Forall_nil. }
  by f_equal.
Qed.

Lemma vector_child_read v file m p k r :
  Forall string_ok v -> optional_child file m p (vector_child v) k -> on file r ->
  exists r', ReadMinidumpStringList r (le_value (le_bytes 4 (field m (p, k))))
    (le_value (le_bytes 4 (field m (p, S k)))) = Some (v, r') /\ on file r'.
Proof.
  intros Hv Hc Hon. eapply optional_read; [done| | |exact Hc|done].
  { by destruct v. }
  intros c q t o r' E Et Hh Ho Hch Hr. destruct v as [|v0 v]; [done|]. injection E as <-. split.
  - eapply frozen_size; [|exact Et]. apply MinidumpRVAListWriter.rva_list_freeze_owned, strings_owned.
  - by eapply string_list_read.
Qed.

Lemma map_child_read d file m p k r :
  Forall (fun kv => string_ok kv.1 /\ string_ok kv.2) d -> map_sorted d ->
  optional_child file m p (map_child d) k -> on file r ->
  exists r', ReadMinidumpSimpleStringDictionary r (le_value (le_bytes 4 (field m (p, k))))
    (le_value (le_bytes 4 (field m (p, S k)))) = Some (d, r') /\ on file r'.
Proof.
  intros Hd Hs Hc Hon. eapply optional_read; [done| | |exact Hc|done]; unfold map_child;
    pose proof (MinidumpSimpleStringDictionaryWriter.initialize_sorted d Hs) as Ei.
  { rewrite Ei. by destruct d. }
  intros c q t o r' E Et Hh Ho Hch Hr.
  destruct (MinidumpSimpleStringDictionaryWriter.InitializeFromMap d) as [|d0 d'] eqn:Ed; [done|].
  injection E as <-. rewrite <-Ed in Et. split.
  - eapply frozen_size; [|exact Et]. apply MinidumpSimpleStringDictionaryWriter.dictionary_freeze_owned.
  - by eapply dictionary_read.
Qed.

Lemma objects_child_read l file m p k r :
  Forall annotation_ok l -> optional_child file m p (objects_child l) k -> on file r ->
  exists r', ReadMinidumpAnnotationList r (le_value (le_bytes 4 (field m (p, k))))
    (le_value (le_bytes 4 (field m (p, S k)))) = Some (l, r') /\ on file r'.
Proof.
  intros Hv Hc Hon. eapply optional_read; [done| | |exact Hc|done].
  { by destruct l. }
  intros c q t o r' E Et Hh Ho Hch Hr. destruct l as [|a l]; [done|]. injection E as <-. split.
  - eapply frozen_size; [|exact Et]. apply MinidumpAnnotationListWriter.annotation_list_freeze_owned.
  - by eapply annotation_list_read.
Qed.

Lemma module_info_children_owned s :
  Forall (fun ck => forall c, fst ck = Some c -> freezes_owned c)
    [(vector_child (mod_annotations_vector s), 0%nat);
     (map_child (mod_annotations_simple_map s), 2%nat);
     (objects_child (mod_annotation_objects s), 4%nat)].
Proof.
  repeat (apply Forall_cons; split); simpl; [| | |by apply Forall_nil].
  - intros c. destruct (mod_annotations_vector s); [done|]. intros [= <-].
    apply MinidumpRVAListWriter.rva_list_freeze_owned, strings_owned.
  - intros c. unfold map_child.
    destruct (MinidumpSimpleStringDictionaryWriter.InitializeFromMap _); [done|]. intros [= <-].
    apply MinidumpSimpleStringDictionaryWriter.dictionary_freeze_owned.
  - intros c. destruct (mod_annotation_objects s); [done|]. intros [= <-].
    apply MinidumpAnnotationListWriter.annotation_list_freeze_owned.
Qed.

(** A module's annotations are read back as they were in its snapshot. *)
Lemma module_info_read s p t m file r o :
  module_info_ok s ->
  MinidumpModuleCrashpadInfoWriter.Freeze
    (MinidumpModuleCrashpadInfoWriter.InitializeFromSnapshot s) p = Some t ->
  only p t m -> holds file o (object_bytes m (root t)) -> o < 2 ^ 32 ->
  Forall (stored file m) (Children t) -> on file r ->
  exists r', InitializeModuleCrashpadInfo r (Some (SizeOfObject (root t), o)) =
    Some (mod_annotations_vector s, mod_annotations_simple_map s, mod_annotation_objects s, r') /\
    on file r'.
Proof.
  intros (Hv & Hd & Hds & Ha) Ef Hm Hh Ho Hst Hon.
  unfold MinidumpModuleCrashpadInfoWriter.Freeze in Ef. rewrite module_info_children in Ef.
  destruct (freeze_children p 0 _) as [ts|] eqn:Ec; [|done]. apply (inj Some) in Ef as <-.
  cbn [root Children] in *. unfold object_bytes in Hh. cbn [WriteObject object_at] in Hh.
  pose proof (fun oc k => optional_children file m p _ _ ts oc k (module_info_children_owned s) Ec Hm
    Hst ltac:(by constructor) ltac:(by constructor) ltac:(by apply (bool_decide_unpack _))) as Hoc.
  unfold InitializeModuleCrashpadInfo. pose proof Hh as (Hpos & _).
  destruct (Z.eqb_spec o 0); [lia|]. cbn [SizeOfObject object_at]. destruct (Z.ltb_spec 28 28); [lia|].
  destruct (read_held_at file r o _ Hon Hh Ho) as (r1 & -> & On1 & r2 & E2 & On2 & _).
  rewrite length_module_bytes in E2. change (Z.of_nat 28) with 28 in E2. cbn [mbind option_bind].
  rewrite E2. cbn [mbind option_bind]. 
  rewrite (module_info_words m p 0 _ eq_refl), (module_info_words m p 1 _ eq_refl),
    (module_info_words m p 2 _ eq_refl), (module_info_words m p 3 _ eq_refl),
    (module_info_words m p 4 _ eq_refl), (module_info_words m p 5 _ eq_refl),
    (module_info_words m p 6 _ eq_refl).
  rewrite le_value_bytes_small, Z.eqb_refl by done. cbn [negb].
  destruct (vector_child_read _ file m p 0 r2 Hv) as (r3 & -> & On3); [apply Hoc; left|done|].
  cbn [mbind option_bind].
  destruct (map_child_read _ file m p 2 r3 Hd Hds) as (r4 & -> & On4); [apply Hoc; right; left|done|].
  cbn [mbind option_bind].
  destruct (objects_child_read _ file m p 4 r4 Ha) as (r5 & -> & On5);
    [apply Hoc; right; right; left|done|]. eauto.
Qed.

End ReaderProofs.
