(* ===== verification/IntermediateDump.v ===== *)
(** * Intermediate dumps (util/ios)

    On iOS a crashed process writes what it finds to an intermediate dump, from which a
    minidump is made when the program is started again.  The file is a tree of maps, lists
    and properties, written as a sequence of commands through a buffer
    (ios_intermediate_dump_writer.cc), and read into objects
    (ios_intermediate_dump_reader.cc, ios_intermediate_dump_map.cc and its relatives).

    The writer may not live to the end: what is read from a file that ends anywhere is
    shown to be a part of what was being written. *)

From S2P Require Import Prelude.
From S2P Require Import Numeric.
From S2P Require Import Structs.
From S2P Require Import FileIO.
From S2P Require Import ProcessMemory.
From S2P Require Import MinidumpReaders.
#[local] Open Scope crashpad_scope.

(** ** The format *)

(** [IOSIntermediateDumpWriter::CommandType], and [IntermediateDumpKey], of 16 bits. *)
Definition kMapStart : Z := 1.
Definition kMapEnd : Z := 2.
Definition kArrayStart : Z := 3.
Definition kArrayEnd : Z := 4.
Definition kProperty : Z := 5.
Definition kRootMapStart : Z := 6.
Definition kRootMapEnd : Z := 7.
Definition kInvalid : Z := 0.

(** ** IOSIntermediateDumpWriter *)

Module IOSIntermediateDumpWriter.
Section Writer.
  Context {F : Type}.
  (** The [write] system call: [None] is an error, otherwise the number of bytes taken. *)
  Context (write : F -> bytes -> option (nat * F)).

Definition kBufferSize : nat := 4096.

(** [buffer_], up to [buffer_occupied_], and [fd_]. *)
Record t := Make { buffer_ : bytes; fd_ : F }.

(** [RawLoggingWriteFile]; the fuel suffices as each call takes a byte. *)
Fixpoint raw_write (fuel : nat) (fd : F) (data : bytes) : bool * F :=
  match fuel with
  | O => (false, fd)
  | S f =>
      match data with
      | [] => (true, fd)
      | _ =>
          match write fd data with
          | None => (false, fd)
          | Some (O, fd') => (false, fd')
          | Some (k, fd') => raw_write f fd' (drop k data)
          end
      end
  end.
Definition RawLoggingWriteFile (fd : F) (data : bytes) : bool * F := raw_write (S (length data)) fd data.

Definition FlushWriteBuffer (w : t) : bool * t :=
  let '(ok, fd) := RawLoggingWriteFile (fd_ w) (buffer_ w) in (ok, Make [] fd).

(** [BufferedWrite]; [None] is a failed DCHECK. *)
Definition fill_buffer (w : t) (data : bytes) : bool * t * bytes :=
  match buffer_ w with
  | [] => (true, w, data)
  | _ =>
      let n := Nat.min (kBufferSize - length (buffer_ w)) (length data) in
      let w := Make (buffer_ w ++ take n data) (fd_ w) in
      let data := drop n data in
      if (length (buffer_ w) =? kBufferSize)%nat then let '(ok, w) := FlushWriteBuffer w in (ok, w, data) else (true, w, data)
  end.
Definition write_blocks (w : t) (data : bytes) : bool * t * bytes :=
  if (kBufferSize <=? length data)%nat then
    let n := (length data - length data mod kBufferSize)%nat in
    let '(ok, fd) := RawLoggingWriteFile (fd_ w) (take n data) in (ok, Make (buffer_ w) fd, drop n data)
  else (true, w, data).
Definition BufferedWrite (w : t) (data : bytes) : option (bool * t) :=
  let '(ok, w, data) := fill_buffer w data in
  if negb ok then Some (false, w)
  else if negb ((length (buffer_ w) =? 0)%nat || (length data =? 0)%nat) then None
  else
    let '(ok, w, data) := write_blocks w data in
    if negb ok then Some (false, w)
    else
      match data with
      | [] => Some (true, w)
      | _ => if negb (length (buffer_ w) =? 0)%nat then None else Some (true, Make data (fd_ w))
      end.

(** [a && b] of calls of [BufferedWrite]. *)
Fixpoint write_each (w : t) (l : list bytes) : option (bool * t) :=
  match l with
  | [] => Some (true, w)
  | d :: l' =>
      match BufferedWrite w d with
      | None => None
      | Some (false, w') => Some (false, w')
      | Some (true, w') => write_each w' l'
      end
  end.
Definition command_bytes (command_type : Z) : bytes := le_bytes 1 command_type.
Definition key_bytes (key : Z) : bytes := le_bytes 2 key.
Definition ArrayMapStart (w : t) := write_each w [command_bytes kMapStart].
Definition MapStart (w : t) (key : Z) := write_each w [command_bytes kMapStart; key_bytes key].
Definition ArrayStart (w : t) (key : Z) := write_each w [command_bytes kArrayStart; key_bytes key].
Definition MapEnd (w : t) := write_each w [command_bytes kMapEnd].
Definition ArrayEnd (w : t) := write_each w [command_bytes kArrayEnd].
Definition RootMapStart (w : t) := write_each w [command_bytes kRootMapStart].
Definition RootMapEnd (w : t) := write_each w [command_bytes kRootMapEnd].
Definition Property (w : t) (key : Z) (value : bytes) :=
  write_each w [command_bytes kProperty; key_bytes key; le_bytes 8 (Z.of_nat (length value)); value].

(** [Close], of a writer that may be closed already ([inr]); [close] is the system call. *)
Definition Close (close : F -> bool) (s : t + F) : bool * (t + F) :=
  match s with
  | inr fd => (true, inr fd)
  | inl w => let '(ok, w) := FlushWriteBuffer w in if ok then (close (fd_ w), inr (fd_ w)) else (false, inl w)
  end.

(** Memory of the crashed process itself, read a page at a time as it may not be mapped:
    [vm_read_overwrite] is what it gives of the bytes that are asked for. *)
Section Memory.
  Context (getpagesize : Z) (vm_read_overwrite : Z -> Z -> option bytes).

Definition trunc_page (address : Z) : Z := Z.land address (Z.lnot (getpagesize - 1)).
(** [ReadCStringInternal]: the string, without its NUL; the fuel suffices as each turn
    reads a byte. *)
Fixpoint read_c_string (fuel : nat) (value : Z) (max_length : Z) (buffer : bytes) : option bytes :=
  match fuel with
  | O => None
  | S f =>
      let len := Z.of_nat (length buffer) in
      if max_length <=? len then None
      else
        let data_address := value + len in
        let data_to_end_of_page := getpagesize - (data_address - trunc_page data_address) in
        match vm_read_overwrite data_address (Z.min data_to_end_of_page (max_length - len)) with
        | None | Some [] => None
        | Some d =>
            match before_nul d with
            | Some s => Some (buffer ++ s)
            | None => read_c_string f value max_length (buffer ++ d)
            end
        end
  end.
Definition ReadCStringInternal (value max_length : Z) : option bytes := read_c_string (S (Z.to_nat max_length)) value max_length [].
Definition kMaxStringBytes : Z := 1024.
Definition AddPropertyCString (w : t) (key max_length value : Z) : option (bool * t) :=
  if kMaxStringBytes <? max_length then Some (false, w)
  else
    match ReadCStringInternal value max_length with
    | Some s => Property w key s
    | None => Some (false, w)
    end.
(** [AddPropertyInternal]; [Read] is the constructor of [ScopedVMRead]. *)
Definition AddPropertyInternal (vmread : Z -> nat -> option bytes) (w : t) (key value : Z) (value_length : nat) : option (bool * t) :=
  match vmread value value_length with
  | None => Some (false, w)
  | Some d => Property w key d
  end.
End Memory.
End Writer.
Arguments t : clear implicits.
End IOSIntermediateDumpWriter.

(** ** Objects *)

(** [IOSIntermediateDumpData], [IOSIntermediateDumpList] and [IOSIntermediateDumpMap]; a
    map is a list sorted by its keys. *)
Inductive object :=
  | Data (data : bytes)
  | List (list_ : list object)
  | Map (map_ : list (Z * object)).

Fixpoint find_key (key : Z) (m : list (Z * object)) : option object :=
  match m with
  | [] => None
  | (k, o) :: m' => if key =? k then Some o else find_key key m'
  end.
(** [map_[key] = o]. *)
Fixpoint put (key : Z) (o : object) (m : list (Z * object)) : list (Z * object) :=
  match m with
  | [] => [(key, o)]
  | (k, o') :: m' => if key =? k then (key, o) :: m' else if key <? k then (key, o) :: (k, o') :: m' else (k, o') :: put key o m'
  end.
Definition GetAsData (m : list (Z * object)) (key : Z) : option bytes :=
  match find_key key m with Some (Data d) => Some d | _ => None end.
Definition GetAsList (m : list (Z * object)) (key : Z) : option (list object) :=
  match find_key key m with Some (List l) => Some l | _ => None end.
Definition GetAsMap (m : list (Z * object)) (key : Z) : option (list (Z * object)) :=
  match find_key key m with Some (Map m') => Some m' | _ => None end.
Definition GetValueInternal (data : bytes) (value_size : nat) : option bytes :=
  if (value_size =? length data)%nat then Some data else None.

(** ** IOSIntermediateDumpReader *)

(** The stack of pointers into the tree: the map or list at each depth, with its key in
    the map that it is in, and the entries it has so far.  The tree is what the frames
    make up ([plug]). *)
Record frame := MkFrame { key_ : option Z; content : object }.
Definition attach (f parent : frame) : frame :=
  MkFrame (key_ parent)
    match content parent, key_ f with
    | Map m, Some key => Map (put key (content f) m)
    | List l, _ => List (l ++ [content f])
    | o, _ => o
    end.
Fixpoint plug (f : frame) (below : list frame) : object :=
  match below with
  | [] => content f
  | parent :: below' => plug (attach f parent) below'
  end.
Definition root_frame : frame := MkFrame None (Map []).

Definition kMaxStackDepth : nat := 10.
Definition kMaximumPropertyLength : Z := 64 * 1024 * 1024.

Section Reader.
  Context {R : Type} `{FileSeekReader R}.

(** A key other than [kInvalid]. *)
Definition read_key (r : R) : option (Z * R) :=
  match read_exactly r 2 with
  | None => None
  | Some (d, r') => if le_value d =? kInvalid then None else Some (le_value d, r')
  end.
Definition read_property (r : R) : option (Z * bytes * R) :=
  match read_key r with
  | None => None
  | Some (key, r1) =>
      match read_exactly r1 8 with
      | None => None
      | Some (d, r2) =>
          let value_length := le_value d in
          if kMaximumPropertyLength <? value_length then None
          else
            match read_exactly r2 value_length with
            | None => None
            | Some (data, r3) => Some (key, data, r3)
            end
      end
  end.

(** The loop of [Parse]: whether it succeeds, and the stack; [None] is for fuel that does
    not suffice. *)
Fixpoint parse_loop (fuel : nat) (r : R) (file_size : Z) (parent : frame) (below : list frame) : option (bool * object) :=
  match fuel with
  | O => None
  | S f =>
      let fail := Some (false, plug parent below) in
      match read_exactly r 1 with
      | None => fail
      | Some (d, r) =>
          if (kMaxStackDepth <? S (length below))%nat then fail
          else
            let command := le_value d in
            if command =? kMapStart then
              match content parent with
              | Map _ =>
                  match read_key r with
                  | None => fail
                  | Some (key, r) => parse_loop f r file_size (MkFrame (Some key) (Map [])) (parent :: below)
                  end
              | List _ => parse_loop f r file_size (MkFrame None (Map [])) (parent :: below)
              | Data _ => fail
              end
            else if command =? kArrayStart then
              match content parent with
              | Map _ =>
                  match read_key r with
                  | None => fail
                  | Some (key, r) => parse_loop f r file_size (MkFrame (Some key) (List [])) (parent :: below)
                  end
              | _ => fail
              end
            else if command =? kMapEnd then
              match below, content parent with
              | p :: below', Map _ => parse_loop f r file_size (attach parent p) below'
              | _, _ => fail
              end
            else if command =? kArrayEnd then
              match below, content parent with
              | p :: below', List _ => parse_loop f r file_size (attach parent p) below'
              | _, _ => fail
              end
            else if command =? kProperty then
              match content parent with
              | Map m =>
                  match read_property r with
                  | None => fail
                  | Some (key, data, r) => parse_loop f r file_size (MkFrame (key_ parent) (Map (put key (Data data) m))) below
                  end
              | _ => fail
              end
            else if command =? kRootMapEnd then
              match below with
              | [] => if SeekGet r =? file_size then Some (true, plug parent below) else fail
              | _ => fail
              end
            else fail
      end
  end.
Definition Parse (fuel : nat) (r : R) (file_size : Z) : option (bool * object) :=
  match read_exactly r 1 with
  | None => Some (false, content root_frame)
  | Some (d, r) => if le_value d =? kRootMapStart then parse_loop fuel r file_size root_frame [] else Some (false, content root_frame)
  end.

Inductive InitializeResult := kSuccess | kIncomplete | kFailure.
(** [Initialize], for a file of the given size: the result, and the root map. *)
Definition Initialize (fuel : nat) (r : R) (size : Z) : option (InitializeResult * object) :=
  if size =? 0 then Some (kFailure, content root_frame)
  else
    match Parse fuel r size with
    | None => None
    | Some (ok, root) => Some (if ok then kSuccess else kIncomplete, root)
    end.
End Reader.

(** ** What is written and read *)

(** The commands inside of the root map. *)
Inductive command :=
  | CMapStart (key : Z)
  | CArrayMapStart
  | CArrayStart (key : Z)
  | CMapEnd
  | CArrayEnd
  | CProperty (key : Z) (value : bytes).
Definition encode (c : command) : bytes :=
  match c with
  | CMapStart key => kMapStart :: le_bytes 2 key
  | CArrayMapStart => [kMapStart]
  | CArrayStart key => kArrayStart :: le_bytes 2 key
  | CMapEnd => [kMapEnd]
  | CArrayEnd => [kArrayEnd]
  | CProperty key value => kProperty :: le_bytes 2 key ++ le_bytes 8 (Z.of_nat (length value)) ++ value
  end.
Definition encode_all (l : list command) : bytes := concat (map encode l).

(** The commands that write what is in an object. *)
Fixpoint inside (o : object) : list command :=
  match o with
  | Data _ => []
  | List l => concat (map (fun o => CArrayMapStart :: inside o ++ [CMapEnd]) l)
  | Map m =>
      concat (map (fun '(key, o) =>
        match o with
        | Data d => [CProperty key d]
        | List _ => CArrayStart key :: inside o ++ [CArrayEnd]
        | Map _ => CMapStart key :: inside o ++ [CMapEnd]
        end) m)
  end.
(** The file of a tree. *)
Definition file_of (tree : list (Z * object)) : bytes :=
  kRootMapStart :: encode_all (inside (Map tree)) ++ [kRootMapEnd].

(** Trees that can be written: the depth is that of the reader's stack, the keys of a map
    are distinct, in any order, properties have a length that the reader takes, and lists
    hold maps. *)
Definition key_ok (key : Z) : Prop := 0 < key < 2 ^ 16.
Fixpoint tree_ok (depth : nat) (o : object) : Prop :=
  match depth with
  | O => False
  | S depth' =>
      match o with
      | Data _ => False
      | List l => Forall (fun o => match o with Map _ => tree_ok depth' o | _ => False end) l
      | Map m =>
          NoDup (map fst m) /\
          Forall (fun '(key, o) => key_ok key /\
            match o with
            | Data d => Z.of_nat (length d) <= kMaximumPropertyLength
            | _ => tree_ok depth' o
            end) m
      end
  end.

(** A tree with the entries of each map in the order of their keys. *)
Definition by_key (a b : Z * object) : Prop := a.1 <= b.1.
#[export] Instance by_key_dec a b : Decision (by_key a b).
Proof. unfold by_key. apply _. Defined.
#[export] Instance by_key_total : Total by_key.
Proof. intros a b. unfold by_key. lia. Qed.
#[export] Instance by_key_trans : Transitive by_key.
Proof. intros a b c. unfold by_key. lia. Qed.
Fixpoint in_order (o : object) : object :=
  match o with
  | Data d => Data d
  | List l => List (map in_order l)
  | Map m => Map (merge_sort by_key (map (fun '(key, o) => (key, in_order o)) m))
  end.


(** ** The reader on commands *)

(** What a command that is well placed does to the stack. *)
Definition fresh (key : Z) (m : list (Z * object)) : Prop := key_ok key /\ find_key key m = None.
Inductive exec : frame * list frame -> command -> frame * list frame -> Prop :=
  | exec_map_start k m below key : fresh key m ->
      exec (MkFrame k (Map m), below) (CMapStart key) (MkFrame (Some key) (Map []), MkFrame k (Map m) :: below)
  | exec_array_map_start k l below :
      exec (MkFrame k (List l), below) CArrayMapStart (MkFrame None (Map []), MkFrame k (List l) :: below)
  | exec_array_start k m below key : fresh key m ->
      exec (MkFrame k (Map m), below) (CArrayStart key) (MkFrame (Some key) (List []), MkFrame k (Map m) :: below)
  | exec_map_end k m p below : exec (MkFrame k (Map m), p :: below) CMapEnd (attach (MkFrame k (Map m)) p, below)
  | exec_array_end k l p below : exec (MkFrame k (List l), p :: below) CArrayEnd (attach (MkFrame k (List l)) p, below)
  | exec_property k m below key d : fresh key m -> Z.of_nat (length d) <= kMaximumPropertyLength ->
      exec (MkFrame k (Map m), below) (CProperty key d) (MkFrame k (Map (put key (Data d) m)), below).
(** Commands in turn, each read with at most [kMaxStackDepth] objects on the stack. *)
Inductive execs : frame * list frame -> list command -> frame * list frame -> Prop :=
  | execs_nil s : execs s [] s
  | execs_cons s c s' l s'' : (length s.2 < kMaxStackDepth)%nat -> exec s c s' -> execs s' l s'' -> execs s (c :: l) s''.

Lemma execs_app s l1 s' l2 s'' : execs s l1 s' -> execs s' l2 s'' -> execs s (l1 ++ l2) s''.
Proof. induction 1; intros; cbn [app]; eauto using execs. Qed.

(** *** Writing a tree *)

Definition empty_of (o : object) : object := match o with List _ => List [] | _ => Map [] end.

Lemma find_key_None key m : find_key key m = None <-> key ∉ map fst m.
Proof.
  induction m as [|[k o] m IH]; cbn [find_key map fst]; [split; [by intros _ ?%not_elem_of_nil|done]|].
  rewrite not_elem_of_cons, <-IH. destruct (Z.eqb_spec key k); naive_solver.
Qed.
Lemma find_key_Some key o m : NoDup (map fst m) -> find_key key m = Some o <-> (key, o) ∈ m.
Proof.
  induction m as [|[k o'] m IH]; cbn [find_key map fst]; intros Hn; [split; [done|by intros ?%not_elem_of_nil]|].
  apply NoDup_cons in Hn as [Hk Hn]. rewrite elem_of_cons. destruct (Z.eqb_spec key k) as [->|Hne].
  - split; [intros [= ->]; by left|]. intros [[= ->]|Hin]; [done|]. destruct Hk. by apply (list_elem_of_fmap_2 fst _ (k, o)).
  - rewrite (IH Hn). naive_solver.
Qed.
Lemma keys_in_order (m : list (Z * object)) : map fst (map (fun '(key, o) => (key, in_order o)) m) = map fst m.
Proof. rewrite map_map. apply map_ext. by intros []. Qed.
Lemma sorted_keys (m : list (Z * object)) : map fst (merge_sort by_key m) ≡ₚ map fst m.
Proof. apply (Permutation_map fst), merge_sort_Permutation. Qed.

(** Entries put into a map one after the other are sorted. *)
Lemma put_fresh key o m : key ∉ map fst m -> put key o m ≡ₚ (key, o) :: m.
Proof.
  induction m as [|[k o'] m IH]; cbn [put map fst]; [done|]. rewrite not_elem_of_cons. intros [Hne Hn].
  destruct (Z.eqb_spec key k); [done|]. destruct (key <? k); [done|]. rewrite (IH Hn). apply Permutation_swap.
Qed.
Lemma put_sorted key o m : StronglySorted by_key m -> StronglySorted by_key (put key o m).
Proof.
  induction 1 as [|[k o'] m Hs IH Hf]; cbn [put]; [repeat constructor|].
  destruct (Z.eqb_spec key k) as [->|]; [by constructor|]. destruct (Z.ltb_spec key k).
  - constructor; [by constructor|]. constructor; [unfold by_key; cbn; lia|]. eapply Forall_impl; [exact Hf|].
    unfold by_key. cbn. lia.
  - constructor; [done|]. clear IH Hs. induction Hf as [|[k1 o1] m Hx Hf IHf]; cbn [put]; [repeat constructor; unfold by_key; cbn; lia|].
    destruct (key =? k1); [|destruct (key <? k1)]; repeat constructor; try done; unfold by_key; cbn; lia.
Qed.
Lemma sort_put key o m :
  NoDup (map fst (m ++ [(key, o)])) -> merge_sort by_key (m ++ [(key, o)]) = put key o (merge_sort by_key m).
Proof.
  intros Hn. pose proof Hn as Hn'. rewrite map_app in Hn'. cbn [map fst] in Hn'.
  apply NoDup_app in Hn' as (_ & Hk & _).
  assert (key ∉ map fst m) as Hfresh by (intros Hin; apply (Hk key Hin); left).
  assert (put key o (merge_sort by_key m) ≡ₚ m ++ [(key, o)]) as Hp.
  { rewrite put_fresh by (by rewrite sorted_keys). rewrite merge_sort_Permutation. by rewrite Permutation_app_comm. }
  apply (StronglySorted_unique_strong by_key).
  - intros [k1 o1] [k2 o2] H1 H2 Ha Hb. rewrite merge_sort_Permutation in H1. rewrite Hp in H2. unfold by_key in *. cbn in *.
    assert (k1 = k2) as <- by lia. apply (find_key_Some _ _ _ Hn) in H1, H2. congruence.
  - exact (StronglySorted_merge_sort by_key _).
  - apply put_sorted. exact (StronglySorted_merge_sort by_key _).
  - by rewrite Hp, merge_sort_Permutation.
Qed.

Lemma execs_inside n o key below :
  tree_ok n o -> (length below + n <= kMaxStackDepth)%nat ->
  execs (MkFrame key (empty_of o), below) (inside o) (MkFrame key (in_order o), below).
Proof.
  revert o key below. induction n as [|n IH]; intros o key below; [done|]. destruct o as [d|l|m]; [done| |]; intros Hok Hd; cbn [tree_ok empty_of inside in_order] in *.
  - rewrite <-(app_nil_l (map in_order l)). generalize (@nil object). induction Hok as [|o l Ho _ IHl]; intros l1; cbn [map concat].
    { rewrite app_nil_r. constructor. }
    destruct o as [|?|m]; [done..|]. rewrite (cons_middle (in_order (Map m))), (app_assoc l1).
    eapply execs_app; [|apply IHl]. econstructor; [cbn; lia|constructor|].
    eapply execs_app; [apply (IH (Map m)); [done|cbn; lia]|].
    assert (0 < n)%nat by (destruct n; [done|lia]).
    econstructor; [cbn; lia|constructor|]. constructor.
  - destruct Hok as [Hs Hf]. rewrite <-keys_in_order in Hs. rewrite <-(app_nil_l (map (fun '(key, o) => (key, in_order o)) m)) in Hs |- *.
    change (Map []) with (Map (merge_sort by_key [])). revert Hs. generalize (@nil (Z * object)).
    induction Hf as [|[k o] m [Hk Ho] _ IHm]; intros m1 Hs; cbn [map concat] in *.
    { rewrite app_nil_r. constructor. }
    rewrite (cons_middle (k, in_order o)), (app_assoc m1) in Hs |- *.
    eapply execs_app; [|by apply IHm]. rewrite map_app in Hs. apply NoDup_app in Hs as (Hs & _).
    assert (find_key k (merge_sort by_key m1) = None) as Ef.
    { apply find_key_None. rewrite sorted_keys. intros Hin. rewrite map_app in Hs. cbn [map fst] in Hs.
      apply NoDup_app in Hs as (_ & Hs & _). apply (Hs k Hin). left. }
    rewrite sort_put by done. destruct o as [d|l|m'].
    + econstructor; [cbn; lia|by constructor|constructor].
    + assert (0 < n)%nat by (destruct n; [done|lia]).
      econstructor; [cbn; lia|by constructor|].
      eapply execs_app; [apply (IH (List l)); [done|cbn; lia]|]. econstructor; [cbn; lia|constructor|constructor].
    + assert (0 < n)%nat by (destruct n; [done|lia]).
      econstructor; [cbn; lia|by constructor|].
      eapply execs_app; [apply (IH (Map m')); [done|cbn; lia]|]. econstructor; [cbn; lia|constructor|constructor].
Qed.


(** *** Parts of a tree *)


(** *** Reading commands *)

Lemma encode_length c : (1 <= length (encode c))%nat.
Proof. destruct c; cbn; lia. Qed.

Section ReaderProofs.
  Context {R : Type} `{FileSeekReaderLaws R}.

(** A reader with these bytes to come. *)
Definition reads (r : R) (d : bytes) : Prop := reader_valid r /\ remaining r = d.

Lemma read_next r d rest n :
  reads r (d ++ rest) -> Z.to_nat n = length d ->
  exists r', read_exactly r n = Some (d, r') /\ reads r' rest /\ SeekGet r' = SeekGet r + Z.of_nat (length d).
Proof.
  intros [Hv Hr] Hn. destruct (read_exactly_spec r (Z.to_nat n) Hv) as [(r' & E & Hv' & Hr') _]; [rewrite Hr, length_app; lia|].
  assert (read_exactly r n = Some (d, r')) as E'.
  { unfold read_exactly. rewrite E, Hr, Hn, take_app_length. done. }
  exists r'. split_and!; [done| |by apply (read_exactly_advances r n)].
  split; [done|]. by rewrite Hr', Hr, Hn, drop_app_length.
Qed.

Lemma key_value key : key_ok key -> le_value (le_bytes 2 key) = key.
Proof. intros []. apply le_value_bytes_small. change (256 ^ Z.of_nat 2) with (2 ^ 16). lia. Qed.
Lemma read_key_next r key rest :
  key_ok key -> reads r (le_bytes 2 key ++ rest) ->
  exists r', read_key r = Some (key, r') /\ reads r' rest /\ SeekGet r' = SeekGet r + 2.
Proof.
  intros Hk Hr. destruct (read_next r (le_bytes 2 key) rest 2 Hr) as (r' & E & Hr' & Hs); [by rewrite length_le_bytes|].
  rewrite length_le_bytes in Hs. exists r'. unfold read_key. rewrite E, key_value by done.
  unfold key_ok, kInvalid in *. destruct (Z.eqb_spec key 0); [lia|]. done.
Qed.

Lemma read_property_next r key d rest :
  key_ok key -> Z.of_nat (length d) <= kMaximumPropertyLength ->
  reads r ((le_bytes 2 key ++ le_bytes 8 (Z.of_nat (length d)) ++ d) ++ rest) ->
  exists r', read_property r = Some (key, d, r') /\ reads r' rest /\ SeekGet r' = SeekGet r + 10 + Z.of_nat (length d).
Proof.
  intros Hk Hd. rewrite <-!app_assoc. intros Hr. destruct (read_key_next r key _ Hk Hr) as (r1 & E1 & Hr1 & S1).
  destruct (read_next r1 _ _ 8 Hr1) as (r2 & E2 & Hr2 & S2); [by rewrite length_le_bytes|]. rewrite length_le_bytes in S2.
  destruct (read_next r2 _ _ (Z.of_nat (length d)) Hr2) as (r3 & E3 & Hr3 & S3); [lia|].
  exists r3. unfold read_property. rewrite E1, E2, le_value_bytes_small by (unfold kMaximumPropertyLength in Hd; lia).
  destruct (Z.ltb_spec kMaximumPropertyLength (Z.of_nat (length d))); [lia|]. rewrite E3. split_and!; [done..|lia].
Qed.
(** The writer has no limit for the length of a property, but the reader has one. *)
Lemma read_property_too_long r key d rest :
  key_ok key -> kMaximumPropertyLength < Z.of_nat (length d) < 2 ^ 64 ->
  reads r ((le_bytes 2 key ++ le_bytes 8 (Z.of_nat (length d)) ++ d) ++ rest) -> read_property r = None.
Proof.
  intros Hk Hd. rewrite <-!app_assoc. intros Hr. destruct (read_key_next r key _ Hk Hr) as (r1 & E1 & Hr1 & S1).
  destruct (read_next r1 _ _ 8 Hr1) as (r2 & E2 & Hr2 & S2); [by rewrite length_le_bytes|].
  unfold read_property. rewrite E1, E2, le_value_bytes_small by (change (256 ^ Z.of_nat 8) with (2 ^ 64); lia).
  destruct (Z.ltb_spec kMaximumPropertyLength (Z.of_nat (length d))); [done|lia].
Qed.

(** The byte of a command. *)
Lemma read_command r b rest below :
  reads r (b :: rest) -> (length below < kMaxStackDepth)%nat -> 0 <= b < 256 ->
  exists r', (forall f fs parent,
    parse_loop (S f) r fs parent below =
    let fail := Some (false, plug parent below) in
    if b =? kMapStart then
      match content parent with
      | Map _ => match read_key r' with
                 | None => fail
                 | Some (key, r2) => parse_loop f r2 fs (MkFrame (Some key) (Map [])) (parent :: below)
                 end
      | List _ => parse_loop f r' fs (MkFrame None (Map [])) (parent :: below)
      | Data _ => fail
      end
    else if b =? kArrayStart then
      match content parent with
      | Map _ => match read_key r' with
                 | None => fail
                 | Some (key, r2) => parse_loop f r2 fs (MkFrame (Some key) (List [])) (parent :: below)
                 end
      | _ => fail
      end
    else if b =? kMapEnd then
      match below, content parent with p :: below', Map _ => parse_loop f r' fs (attach parent p) below' | _, _ => fail end
    else if b =? kArrayEnd then
      match below, content parent with p :: below', List _ => parse_loop f r' fs (attach parent p) below' | _, _ => fail end
    else if b =? kProperty then
      match content parent with
      | Map m => match read_property r' with
                 | None => fail
                 | Some (key, data, r2) => parse_loop f r2 fs (MkFrame (key_ parent) (Map (put key (Data data) m))) below
                 end
      | _ => fail
      end
    else if b =? kRootMapEnd then
      match below with [] => if SeekGet r' =? fs then Some (true, plug parent below) else fail | _ => fail end
    else fail) /\ reads r' rest /\ SeekGet r' = SeekGet r + 1.
Proof.
  intros Hr Hd Hb. destruct (read_next r [b] rest 1 Hr eq_refl) as (r' & E & Hr' & Hs). exists r'. split_and!; [|done..].
  intros f fs parent. cbn [parse_loop]. rewrite E. destruct (Nat.ltb_spec kMaxStackDepth (S (length below))); [lia|].
  replace (le_value [b]) with b by (cbn; lia). done.
Qed.

Lemma parse_step s c s' r rest f fs :
  exec s c s' -> (length s.2 < kMaxStackDepth)%nat -> reads r (encode c ++ rest) ->
  exists r', parse_loop (S f) r fs s.1 s.2 = parse_loop f r' fs s'.1 s'.2 /\ reads r' rest /\
    SeekGet r' = SeekGet r + Z.of_nat (length (encode c)).
Proof.
  intros He Hd Hr. destruct He as [? ? ? ? [Hk _]| |? ? ? ? [Hk _]| | |? ? ? ? ? [Hk _] Hl]; cbn [encode app fst snd] in *;
    (destruct (read_command r _ _ _ Hr Hd ltac:(done)) as (r1 & E1 & Hr1 & S1)); rewrite E1; clear E1; cbn [Z.eqb content kMapStart kArrayStart kMapEnd kArrayEnd kProperty Pos.eqb].
  - destruct (read_key_next r1 _ _ Hk Hr1) as (r2 & -> & Hr2 & S2). exists r2. split_and!; [done..|]. cbn [length]. rewrite length_le_bytes. lia.
  - by exists r1.
  - destruct (read_key_next r1 _ _ Hk Hr1) as (r2 & -> & Hr2 & S2). exists r2. split_and!; [done..|]. cbn [length]. rewrite length_le_bytes. lia.
  - by exists r1.
  - by exists r1.
  - destruct (read_property_next r1 _ _ _ Hk Hl Hr1) as (r2 & -> & Hr2 & S2). exists r2. split_and!; [done..|]. cbn [length]. rewrite !length_app, !length_le_bytes. lia.
Qed.


Lemma parse_all s l s' r f fs :
  execs s l s' -> reads r (encode_all l ++ [kRootMapEnd]) -> (length l < f)%nat -> s'.2 = [] ->
  fs = SeekGet r + Z.of_nat (length (encode_all l)) + 1 ->
  parse_loop f r fs s.1 s.2 = Some (true, plug s'.1 s'.2).
Proof.
  intros He. revert r f. induction He as [s|s c s1 l s' Hd Hc _ IH]; intros r f Hr Hf Hb ->; (destruct f as [|f]; [cbn in Hf; lia|]).
  - cbn in Hr. rewrite Hb in *. destruct (read_command r _ _ [] Hr ltac:(cbn; unfold kMaxStackDepth; lia) ltac:(done)) as (r1 & -> & Hr1 & S1).
    cbn [Z.eqb kMapStart kArrayStart kMapEnd kArrayEnd kProperty kRootMapEnd Pos.eqb].
    destruct (Z.eqb_spec (SeekGet r1) (SeekGet r + Z.of_nat (length (encode_all [])) + 1)) as [|Hn]; [done|]. cbn [encode_all map concat length] in Hn. lia.
  - unfold encode_all in *. cbn [map concat length] in *. rewrite <-app_assoc in Hr.
    destruct (parse_step _ _ _ _ _ f (SeekGet r + Z.of_nat (length (encode c ++ concat (map encode l))) + 1) Hc Hd Hr) as (r1 & E & Hr1 & S1).
    rewrite E. apply IH; [done|lia|done|]. rewrite S1, length_app. lia.
Qed.


(** Whatever the bytes are, the reader comes to an end. *)
Lemma read_some r d n x r' :
  reads r d -> read_exactly r n = Some (x, r') -> exists d', reads r' d' /\ (length d' + Z.to_nat n = length d)%nat.
Proof.
  intros [Hv Hr] E. destruct (read_exactly_spec r (Z.to_nat n) Hv) as [Hs1 Hs2]. unfold read_exactly in E. rewrite Hr in *.
  destruct (decide (length d < Z.to_nat n)%nat) as [Hs|Hs]; [by rewrite (Hs2 Hs) in E|].
  destruct (Hs1 ltac:(lia)) as (r2 & E2 & Hv2 & Hr2). rewrite E2 in E. injection E as _ <-.
  exists (drop (Z.to_nat n) d). split; [by split|]. rewrite length_drop. lia.
Qed.
Lemma read_key_some r d key r' : reads r d -> read_key r = Some (key, r') -> exists d', reads r' d' /\ (length d' <= length d)%nat.
Proof.
  intros Hr. unfold read_key. destruct (read_exactly r 2) as [[x r1]|] eqn:E; [|done]. destruct (_ =? _); [done|]. intros [= _ <-].
  destruct (read_some _ _ _ _ _ Hr E) as (d' & ? & ?). exists d'. split; [done|lia].
Qed.
Lemma read_property_some r d key v r' : reads r d -> read_property r = Some (key, v, r') -> exists d', reads r' d' /\ (length d' <= length d)%nat.
Proof.
  intros Hr. unfold read_property. destruct (read_key r) as [[k r1]|] eqn:E1; [|done]. destruct (read_key_some _ _ _ _ Hr E1) as (d1 & Hr1 & L1).
  destruct (read_exactly r1 8) as [[x r2]|] eqn:E2; [|done]. destruct (read_some _ _ _ _ _ Hr1 E2) as (d2 & Hr2 & L2).
  destruct (_ <? _); [done|]. destruct (read_exactly r2 _) as [[y r3]|] eqn:E3; [|done]. destruct (read_some _ _ _ _ _ Hr2 E3) as (d3 & Hr3 & L3).
  intros [= _ _ <-]. exists d3. split; [done|lia].
Qed.
Lemma parse_total f r d fs parent below :
  reads r d -> (length d < f)%nat -> exists x, parse_loop f r fs parent below = Some x.
Proof.
  revert r d parent below. induction f as [|f IH]; intros r d parent below Hr Hf; [lia|]. cbn [parse_loop].
  destruct (read_exactly r 1) as [[x r1]|] eqn:E; [|eauto]. destruct (read_some _ _ _ _ _ Hr E) as (d1 & Hr1 & L1).
  assert (forall r2 p b, (exists d2, reads r2 d2 /\ length d2 <= length d1)%nat -> exists x, parse_loop f r2 fs p b = Some x) as Hgo.
  { intros r2 p b (d2 & Hr2 & ?). apply (IH r2 d2); [done|]. change (Z.to_nat 1) with 1%nat in L1. lia. }
  repeat (case_match; simplify_eq; eauto using read_key_some, read_property_some).
Qed.

Lemma parse_always_ends r d f size :
  reads r d -> (length d <= f)%nat -> exists x, Initialize f r size = Some x.
Proof.
  intros Hr Hf. unfold Initialize, Parse. destruct (size =? 0); [eauto|].
  destruct (read_exactly r 1) as [[x r1]|] eqn:E; [|eauto]. destruct (_ =? _); [|eauto].
  destruct (read_some _ _ _ _ _ Hr E) as (d1 & Hr1 & L1). change (Z.to_nat 1) with 1%nat in L1.
  destruct (parse_total f r1 d1 size root_frame [] Hr1 ltac:(lia)) as ([ok root] & ->). eauto.
Qed.

(** *** Whole files, and those that end early *)

Lemma encode_all_length l : (length l <= length (encode_all l))%nat.
Proof.
  unfold encode_all. induction l as [|c l IH]; cbn [map concat length]; [lia|]. pose proof (encode_length c). rewrite length_app. lia.
Qed.
Lemma root_execs tree : tree_ok kMaxStackDepth (Map tree) -> execs (root_frame, []) (inside (Map tree)) (MkFrame None (in_order (Map tree)), []).
Proof. intros Hok. apply (execs_inside kMaxStackDepth (Map tree)); [done|cbn; lia]. Qed.


Lemma initialize_whole tree r f :
  tree_ok kMaxStackDepth (Map tree) -> reads r (file_of tree) -> SeekGet r = 0 -> (length (file_of tree) <= f)%nat ->
  Initialize f r (Z.of_nat (length (file_of tree))) = Some (kSuccess, in_order (Map tree)).
Proof.
  intros Hok Hr Hpos Hf. pose proof (encode_all_length (inside (Map tree))) as Hl.
  assert (length (file_of tree) = S (S (length (encode_all (inside (Map tree))))))%nat as Hlen.
  { unfold file_of. cbn [length]. rewrite length_app. cbn. lia. }
  unfold Initialize, Parse. destruct (Z.eqb_spec (Z.of_nat (length (file_of tree))) 0); [lia|].
  destruct (read_next r [kRootMapStart] _ 1 Hr eq_refl) as (r1 & -> & Hr1 & S1).
  rewrite (parse_all (root_frame, []) _ _ r1 f _ (root_execs tree Hok) Hr1); [done|lia|done|]. cbn [length] in S1. lia.
Qed.


End ReaderProofs.

(** ** The writer on commands *)

Module W := IOSIntermediateDumpWriter.

(** The calls that write a tree. *)
Inductive operation := ORootMapStart | OCommand (c : command) | ORootMapEnd.
Definition encode_operation (o : operation) : bytes :=
  match o with
  | ORootMapStart => [kRootMapStart]
  | OCommand c => encode c
  | ORootMapEnd => [kRootMapEnd]
  end.
Definition operations (tree : list (Z * object)) : list operation :=
  ORootMapStart :: map OCommand (inside (Map tree)) ++ [ORootMapEnd].
Lemma operations_file tree : concat (map encode_operation (operations tree)) = file_of tree.
Proof.
  unfold operations, file_of, encode_all. cbn [map concat encode_operation app]. by rewrite map_app, concat_app, map_map.
Qed.

Section WriterProofs.
  Context {F : Type} (write : F -> bytes -> option (nat * F)) (contents : F -> bytes).

Definition perform (w : W.t F) (o : operation) : option (bool * W.t F) :=
  match o with
  | ORootMapStart => W.RootMapStart write w
  | ORootMapEnd => W.RootMapEnd write w
  | OCommand (CMapStart key) => W.MapStart write w key
  | OCommand CArrayMapStart => W.ArrayMapStart write w
  | OCommand (CArrayStart key) => W.ArrayStart write w key
  | OCommand CMapEnd => W.MapEnd write w
  | OCommand CArrayEnd => W.ArrayEnd write w
  | OCommand (CProperty key value) => W.Property write w key value
  end.
(** Calls in turn, up to the first that fails. *)
Fixpoint run (w : W.t F) (l : list operation) : option (bool * W.t F) :=
  match l with
  | [] => Some (true, w)
  | o :: l' =>
      match perform w o with
      | Some (true, w') => run w' l'
      | x => x
      end
  end.

(** What the [write] system call does. *)
Definition write_law : Prop :=
  forall fd d k fd', write fd d = Some (k, fd') -> (k <= length d)%nat /\ contents fd' = contents fd ++ take k d.
(** It never fails. *)
Definition write_succeeds : Prop := forall fd d, d <> [] -> exists k fd', write fd d = Some (S k, fd').
  Context (Hwrite : write_law).

Lemma raw_write_spec n fd d :
  (length d < n)%nat ->
  exists ok fd' k, W.raw_write write n fd d = (ok, fd') /\ contents fd' = contents fd ++ take k d /\ (ok = true -> k = length d) /\
    (write_succeeds -> ok = true).
Proof.
  revert fd d. induction n as [|n IH]; intros fd d Hn; [lia|]. cbn [W.raw_write]. destruct d as [|b d].
  { exists true, fd, 0%nat. cbn. by rewrite app_nil_r. }
  destruct (write fd (b :: d)) as [[[|k] fd1]|] eqn:E.
  - destruct (Hwrite _ _ _ _ E) as [_ Hc]. exists false, fd1, 0%nat. split_and!; [done..|].
    intros Hs. destruct (Hs fd (b :: d) ltac:(done)) as (? & ? & ?). congruence.
  - destruct (Hwrite _ _ _ _ E) as [Hk Hc]. destruct (IH fd1 (drop (S k) (b :: d))) as (ok & fd2 & k2 & E2 & Hc2 & Hok & Hs).
    { rewrite length_drop. lia. }
    exists ok, fd2, (S k + k2)%nat. split_and!; [done| | |done].
    + rewrite Hc2, Hc, <-app_assoc. f_equal. rewrite <-(take_drop (S k) (b :: d)) at 3.
      rewrite take_app_ge by (rewrite length_take; lia). f_equal. f_equal. rewrite length_take. lia.
    + intros Ho. rewrite (Hok Ho), length_drop. lia.
  - exists false, fd, 0%nat. split_and!; [done|by rewrite app_nil_r|done|].
    intros Hs. destruct (Hs fd (b :: d) ltac:(done)) as (? & ? & ?). congruence.
Qed.

(** The bytes of a writer: those in the file and those in the buffer. *)
Definition written (w : W.t F) : bytes := contents (W.fd_ w) ++ W.buffer_ w.
Definition writer_ok (w : W.t F) : Prop := (length (W.buffer_ w) < W.kBufferSize)%nat.
(** A call that is to add bytes adds them, or fails with the file ending somewhere in them. *)
Definition adds (w : W.t F) (d : bytes) (res : option (bool * W.t F)) : Prop :=
  exists ok w', res = Some (ok, w') /\ writer_ok w' /\ (ok = true -> written w' = written w ++ d) /\
    contents (W.fd_ w') `prefix_of` written w ++ d /\ (write_succeeds -> ok = true).

Lemma raw_logging_spec fd d :
  exists ok fd', W.RawLoggingWriteFile write fd d = (ok, fd') /\ (ok = true -> contents fd' = contents fd ++ d) /\
    contents fd' `prefix_of` contents fd ++ d /\ (write_succeeds -> ok = true).
Proof.
  unfold W.RawLoggingWriteFile. destruct (raw_write_spec (S (length d)) fd d) as (ok & fd' & k & E & Hc & Hok & Hs); [lia|].
  exists ok, fd'. split_and!; [done| | |done].
  - intros Ho. by rewrite Hc, (Hok Ho), firstn_all.
  - rewrite Hc. apply prefix_app. exists (drop k d). by rewrite take_drop.
Qed.

Lemma fill_buffer_spec w d :
  writer_ok w ->
  exists ok w' d', W.fill_buffer write w d = (ok, w', d') /\ writer_ok w' /\
    (ok = true -> written w' ++ d' = written w ++ d /\ (W.buffer_ w' = [] \/ d' = [])) /\
    contents (W.fd_ w') `prefix_of` written w ++ d /\ (write_succeeds -> ok = true).
Proof.
  intros Hw. unfold W.fill_buffer, written. destruct (W.buffer_ w) as [|b0 buf] eqn:Eb.
  { exists true, w, d. split_and!; [done|done|rewrite Eb; auto|by rewrite app_nil_r; apply prefix_app_r|done]. }
  set (buffer := b0 :: buf) in *. unfold writer_ok in Hw. rewrite Eb in Hw.
  set (n := Nat.min (W.kBufferSize - length buffer) (length d)). cbn [W.buffer_ W.fd_].
  assert (buffer ++ d = (buffer ++ take n d) ++ drop n d) as Ed by (by rewrite <-app_assoc, take_drop).
  destruct (Nat.eqb_spec (length (buffer ++ take n d)) W.kBufferSize) as [He|He].
  - unfold W.FlushWriteBuffer. cbn [W.buffer_ W.fd_].
    destruct (raw_logging_spec (W.fd_ w) (buffer ++ take n d)) as (ok & fd' & -> & Hc & Hp & Hs).
    exists ok, (W.Make [] fd'), (drop n d). split_and!; [done|unfold writer_ok; cbn; unfold W.kBufferSize; lia| | |done]; cbn [W.buffer_ W.fd_].
    + intros Ho. rewrite (Hc Ho), app_nil_r. split; [by rewrite <-!app_assoc, take_drop|by left].
    + rewrite <-app_assoc, Ed, (app_assoc (contents _)). by apply prefix_app_r.
  - exists true, (W.Make (buffer ++ take n d) (W.fd_ w)), (drop n d).
    rewrite length_app, length_take in He. split_and!; [done| | | |done]; cbn [W.buffer_ W.fd_].
    + unfold writer_ok. cbn [W.buffer_]. rewrite length_app, length_take. lia.
    + intros _. split; [by rewrite <-!app_assoc, take_drop|]. right. apply drop_ge. lia.
    + rewrite <-app_assoc. by apply prefix_app_r.
Qed.

Lemma write_blocks_spec w d :
  W.buffer_ w = [] \/ d = [] ->
  exists ok w' d', W.write_blocks write w d = (ok, w', d') /\ W.buffer_ w' = W.buffer_ w /\ (length d' <= length d)%nat /\
    (ok = true -> written w' ++ d' = written w ++ d /\ (length d' < W.kBufferSize)%nat) /\
    contents (W.fd_ w') `prefix_of` written w ++ d /\ (write_succeeds -> ok = true).
Proof.
  intros Hb. unfold W.write_blocks, written. destruct (Nat.leb_spec W.kBufferSize (length d)) as [Hl|Hl].
  - destruct Hb as [Hb | ->]; [|cbn in Hl; unfold W.kBufferSize in Hl; lia]. rewrite Hb, app_nil_r.
    assert (0 < W.kBufferSize)%nat as Hk by (unfold W.kBufferSize; lia).
    pose proof (Nat.mod_upper_bound (length d) W.kBufferSize ltac:(lia)) as Hm. pose proof (Nat.Div0.mod_le (length d) W.kBufferSize) as Hm2.
    set (n := (length d - length d mod W.kBufferSize)%nat).
    destruct (raw_logging_spec (W.fd_ w) (take n d)) as (ok & fd' & -> & Hc & Hp & Hs).
    exists ok, (W.Make [] fd'), (drop n d). rewrite length_drop. cbn [W.buffer_ W.fd_]. split_and!; [done|done|lia| | |done].
    + intros Ho. rewrite (Hc Ho), app_nil_r, <-app_assoc, take_drop. split; [done|lia].
    + rewrite <-(take_drop n d), app_assoc. by apply prefix_app_r.
  - exists true, w, d. split_and!; [done|done|done|done| |done]. rewrite <-app_assoc. by apply prefix_app_r.
Qed.

Lemma buffered_write_adds w d : writer_ok w -> adds w d (W.BufferedWrite write w d).
Proof.
  intros Hw. unfold W.BufferedWrite, adds.
  destruct (fill_buffer_spec w d Hw) as (ok & w1 & d1 & -> & Hw1 & Hok1 & Hp1 & Hs1). destruct ok; cbn [negb]; [|by exists false, w1].
  destruct (Hok1 eq_refl) as [E1 Hb1]. replace (_ || _) with true; [cbn [negb]|].
  2: { destruct Hb1 as [-> | ->]; cbn; [done|by rewrite orb_true_r]. }
  destruct (write_blocks_spec w1 d1 Hb1) as (ok & w2 & d2 & -> & Hb2 & Hl2 & Hok2 & Hp2 & Hs2). rewrite E1 in Hp2, Hok2.
  destruct ok; cbn [negb].
  2: { exists false, w2. split_and!; [done|unfold writer_ok in *; by rewrite Hb2|done|done|done]. }
  destruct (Hok2 eq_refl) as [E2 Hl3]. destruct d2 as [|b d2].
  { rewrite app_nil_r in E2. exists true, w2. split_and!; [done|unfold writer_ok in *; by rewrite Hb2|done|done|done]. }
  assert (W.buffer_ w2 = []) as Hb3. { rewrite Hb2. destruct Hb1 as [|Hd1]; [done|]. rewrite Hd1 in Hl2. cbn in Hl2. lia. }
  rewrite Hb3. cbn [length Nat.eqb negb]. exists true, (W.Make (b :: d2) (W.fd_ w2)).
  split_and!; [done|exact Hl3| |done|done]. intros _. unfold written in *. rewrite Hb3, app_nil_r in E2. done.
Qed.

Lemma write_each_adds w l : writer_ok w -> adds w (concat l) (W.write_each write w l).
Proof.
  revert w. induction l as [|d l IH]; intros w Hw; cbn [W.write_each concat].
  { exists true, w. rewrite !app_nil_r. split_and!; [done|done|done|by apply prefix_app_r|done]. }
  destruct (buffered_write_adds w d Hw) as (ok & w1 & -> & Hw1 & Hok1 & Hp1 & Hs1).
  destruct ok; [|exists false, w1; split_and!; [done|done|done|rewrite app_assoc; by apply prefix_app_r|done]].
  destruct (IH w1 Hw1) as (ok & w2 & -> & Hw2 & Hok2 & Hp2 & Hs2). rewrite (Hok1 eq_refl), <-app_assoc in Hok2, Hp2. by exists ok, w2.
Qed.
Lemma perform_adds w o : writer_ok w -> adds w (encode_operation o) (perform w o).
Proof.
  intros Hw. destruct o as [|[]|]; cbn [perform encode_operation encode]; refine (eq_rect _ (fun d => adds w d _) (write_each_adds w _ Hw) _ _); cbn; by rewrite ?app_nil_r.
Qed.
Lemma run_adds w l : writer_ok w -> adds w (concat (map encode_operation l)) (run w l).
Proof.
  revert w. induction l as [|o l IH]; intros w Hw; cbn [run map concat].
  { exists true, w. rewrite !app_nil_r. split_and!; [done|done|done|by apply prefix_app_r|done]. }
  destruct (perform_adds w o Hw) as (ok & w1 & -> & Hw1 & Hok1 & Hp1 & Hs1).
  destruct ok; [|exists false, w1; split_and!; [done|done|done|rewrite app_assoc; by apply prefix_app_r|done]].
  destruct (IH w1 Hw1) as (ok & w2 & -> & Hw2 & Hok2 & Hp2 & Hs2). rewrite (Hok1 eq_refl), <-app_assoc in Hok2, Hp2. by exists ok, w2.
Qed.
End WriterProofs.

(** Strings are read whole, in pieces that do not cross pages, up to their NUL. *)
Section CStrings.
  Context (k : Z) (vm_read : Z -> Z -> option bytes) (value : Z) (memory : bytes).
  Context (Hk : 0 <= k).
  Context (Hread : forall i n, 0 <= i -> 0 < n -> i + n <= Z.of_nat (length memory) ->
    vm_read (value + i) n = Some (slice (Z.to_nat i) (Z.to_nat n) memory)).

Lemma trunc_page_bounds a : 0 <= a - W.trunc_page (2 ^ k) a < 2 ^ k.
Proof.
  unfold W.trunc_page. replace (2 ^ k - 1) with (Z.ones k) by (by rewrite Z.ones_equiv, Z.sub_1_r).
  rewrite <-Z.ldiff_land, Z.ldiff_ones_r, Z.shiftr_div_pow2, Z.shiftl_mul_pow2 by lia.
  pose proof (Z.mod_pos_bound a (2 ^ k) ltac:(lia)). pose proof (Z.div_mod a (2 ^ k) ltac:(lia)). lia.
Qed.

Lemma read_c_string_found fuel s t n :
  memory = s ++ 0 :: t -> 0 ∉ s -> (n <= length s)%nat -> (length memory - n < fuel)%nat ->
  W.read_c_string (2 ^ k) vm_read fuel value (Z.of_nat (length memory)) (take n s) = Some s.
Proof.
  intros Em Hs. revert n. induction fuel as [|f IH]; intros n Hn Hf; [lia|]. cbn [W.read_c_string].
  rewrite length_take, Nat.min_l by done. assert (length memory = length s + S (length t))%nat as Hm by (by rewrite Em, length_app).
  destruct (Z.leb_spec (Z.of_nat (length memory)) (Z.of_nat n)); [lia|].
  pose proof (trunc_page_bounds (value + Z.of_nat n)) as Hb.
  set (c := Z.min _ _). assert (0 < c <= Z.of_nat (length memory) - Z.of_nat n) as Hc by lia.
  rewrite (Hread (Z.of_nat n) c) by lia. rewrite Nat2Z.id. clearbody c.
  assert (slice n (Z.to_nat c) memory = take (Z.to_nat c) (drop n s ++ 0 :: t)) as ->.
  { unfold slice. rewrite Em, drop_app_le by done. done. }
  destruct (decide (Z.to_nat c <= length s - n)%nat) as [Hle|Hgt].
  - rewrite take_app_le by (rewrite length_drop; lia).
    assert (take (Z.to_nat c) (drop n s) <> []) as Hne.
    { intros E. apply (f_equal length) in E. rewrite length_take, length_drop in E. cbn in E. lia. }
    rewrite (proj2 (before_nul_None _)).
    2: { intros Hin. apply Hs. rewrite <-(take_drop n s). apply elem_of_app. right. rewrite <-(take_drop (Z.to_nat c) (drop n s)). apply elem_of_app. by left. }
    rewrite <-(IH (n + Z.to_nat c)%nat) by lia. rewrite <-take_take_drop. by destruct (take _ (drop n s)).
  - assert (exists u, take (Z.to_nat c) (drop n s ++ 0 :: t) = drop n s ++ 0 :: u) as (u & ->).
    { rewrite take_app_ge by (rewrite length_drop; lia). destruct (Z.to_nat c - length (drop n s))%nat eqn:E; [rewrite length_drop in E; lia|]. by eexists. }
    rewrite (proj2 (before_nul_Some _ (drop n s))).
    2: { exists u. split; [done|]. intros Hin. apply Hs. rewrite <-(take_drop n s). apply elem_of_app. by right. }
    rewrite take_drop. by destruct (drop n s).
Qed.
Lemma property_string_found s t : memory = s ++ 0 :: t -> 0 ∉ s ->
  W.ReadCStringInternal (2 ^ k) vm_read value (Z.of_nat (length memory)) = Some s.
Proof. intros Em Hs. apply (read_c_string_found _ s t 0); [done..|lia|lia]. Qed.
End CStrings.

(** ** Files that are written and read *)

(** C16.  A tree that is written comes back: for every tree of maps, lists and properties
    that is not deeper than the reader's stack, with distinct keys in each map, which may
    be written in any order, and properties of at most 64 MB, and every file that takes
    the bytes, in pieces of any length, the calls that write it succeed, and so do the
    flush and the close; a reader of the file reports success and gives the tree, with the
    entries of each map in the order of their keys. *)
Theorem intermediate_dump_round_trip {F R : Type} `{FileSeekReaderLaws R} (write : F -> bytes -> option (nat * F)) contents close
    (fd : F) tree (r : R) fuel :
  write_law write contents -> write_succeeds write -> contents fd = [] -> tree_ok kMaxStackDepth (Map tree) ->
  exists w fd', run write (W.Make [] fd) (operations tree) = Some (true, w) /\
    W.Close write close (inl w) = (close fd', inr fd') /\
    (reads r (contents fd') -> SeekGet r = 0 -> (length (contents fd') <= fuel)%nat ->
     Initialize fuel r (Z.of_nat (length (contents fd'))) = Some (kSuccess, in_order (Map tree))).
Proof.
  intros Hw Hs Hfd Hok.
  destruct (run_adds write contents Hw (W.Make [] fd) (operations tree)) as (ok & w & E & Hwo & Ha & _ & Hso).
  { unfold writer_ok, W.kBufferSize. cbn. lia. }
  rewrite (Hso Hs) in *. specialize (Ha eq_refl). unfold written in Ha. cbn [W.fd_ W.buffer_] in Ha. rewrite Hfd, operations_file in Ha.
  destruct (raw_logging_spec write contents Hw (W.fd_ w) (W.buffer_ w)) as (ok' & fd' & E' & Hc & _ & Hs').
  rewrite (Hs' Hs) in *. exists w, fd'. split; [done|]. split; [unfold W.Close, W.FlushWriteBuffer; by rewrite E'|].
  rewrite (Hc eq_refl), Ha. by apply initialize_whole.
Qed.

(** A reader of a string. *)
Lemma string_file_reads d : (Z.of_nat (length d) <? 2 ^ 63) = true -> reads (StringFile.SetString d) d.
Proof. intros Hd%Z.ltb_lt. by split; [split|]. Qed.
(** A file that takes at most 100 bytes at a time. *)
Definition example_write (fd d : bytes) : option (nat * bytes) := Some (Nat.min 100 (length d), fd ++ take 100 d).
Lemma example_write_law : write_law example_write id.
Proof.
  intros fd d k fd' E. apply (inj Some), pair_equal_spec in E as [<- <-]. split; [lia|]. unfold id. f_equal. destruct (decide (length d <= 100)%nat).
  - by rewrite Nat.min_r, firstn_all, take_ge by lia.
  - by rewrite Nat.min_l by lia.
Qed.
Lemma example_write_succeeds : write_succeeds example_write.
Proof. intros fd [|b d]; [done|]. intros _. by do 2 eexists. Qed.
Definition example_tree (d : bytes) : list (Z * object) :=
  [(4, List [Map [(2, Data [])]; Map [(8, Data [6]); (7, Map [(9, Data [5])])]]); (1, Data [1; 2; 3]); (1000, Data d)].
Lemma example_tree_ok d : (Z.of_nat (length d) <=? kMaximumPropertyLength) = true -> tree_ok kMaxStackDepth (Map (example_tree d)).
Proof.
  intros Hd%Z.leb_le. unfold example_tree, kMaxStackDepth. cbn [tree_ok map fst].
  repeat match goal with
  | |- _ /\ _ => split
  | |- Forall _ _ => constructor
  | |- NoDup _ => apply (bool_decide_unpack _); by vm_compute
  | |- _ => assumption
  | |- _ => lia
  | |- _ <= kMaximumPropertyLength => unfold kMaximumPropertyLength; cbn [length]
  | |- key_ok _ => unfold key_ok
  | |- _ => progress cbn [tree_ok map fst]
  end.
Qed.

Lemma intermediate_dump_round_trip_witness :
  let tree := example_tree [8] in
  exists w fd', run example_write (W.Make [] []) (operations tree) = Some (true, w) /\
    W.Close example_write (fun _ => true) (inl w) = (true, inr fd') /\
    Initialize 100 (StringFile.SetString fd') (Z.of_nat (length fd')) =
      Some (kSuccess, Map [(1, Data [1; 2; 3]); (4, List [Map [(2, Data [])]; Map [(7, Map [(9, Data [5])]); (8, Data [6])]]); (1000, Data [8])]).
Proof.
  intros tree.
  destruct (intermediate_dump_round_trip example_write id (fun _ => true) [] tree (StringFile.SetString (file_of tree)) 100
    example_write_law example_write_succeeds eq_refl (example_tree_ok [8] eq_refl)) as (w & fd' & E & Ec & Hi).
  exists w, fd'. split; [exact E|]. split; [exact Ec|].
  assert (fd' = file_of tree) as ->.
  { revert Ec. vm_compute in E. injection E as <-. intros Ec. vm_compute in Ec. injection Ec as <-. by vm_compute. }
  apply Hi; [apply string_file_reads; by vm_compute|by vm_compute|apply Nat.leb_le; by vm_compute].
Defined.


