(* ===== verification/ProcessSnapshot.v ===== *)
(** * Snapshots read from minidump files (snapshot/minidump/)

    [ProcessSnapshotMinidump::Initialize] and the classes it fills in:
    [ModuleSnapshotMinidump], [ThreadSnapshotMinidump],
    [MemorySnapshotMinidump], [SystemSnapshotMinidump] and
    [ExceptionSnapshotMinidump].  Every step is a function from the state of the
    snapshot and the reader to the state after it; [None] stands for [false]
    and [Undefined] for an access outside of an object. *)

From S2P Require Import Prelude.
From S2P Require Import Numeric.
From S2P Require Import Structs.
From S2P Require Import CPUContext.
From S2P Require Import MinidumpContext.
From S2P Require Import FileIO.
From S2P Require Import Uuid.
From S2P Require Import MemoryRanges.
From S2P Require Import MinidumpWritable.
From S2P Require Import MinidumpObjects.
From S2P Require Import MinidumpStreams.
From S2P Require Import MinidumpModules.
From S2P Require Import MinidumpSystem.
From S2P Require Import MinidumpFile.
From S2P Require Import MinidumpReaders.

(** The little-endian field of [n] bytes at an offset of a structure. *)
Definition word (n off : nat) (d : bytes) : Z := le_value (slice off n d).
(** A [MINIDUMP_LOCATION_DESCRIPTOR] of a structure: [DataSize] and [Rva]. *)
Definition location (off : nat) (d : bytes) : Z * Z := (word 4 off d, word 4 (off + 4) d).

(** [MinidumpCrashpadInfo], as far as it is read. *)
Record MinidumpCrashpadInfo := MkCrashpadInfo {
  ci_version : Z;
  ci_report_id : UUID;
  ci_client_id : UUID;
  ci_simple_annotations : Z * Z;
  ci_module_list : Z * Z;
  ci_reserved : Z;
  ci_address_mask : Z
}.
Definition zero_crashpad_info : MinidumpCrashpadInfo :=
  MkCrashpadInfo 0 InitializeToZero InitializeToZero (0, 0) (0, 0) 0 0.

(** [MemorySnapshotMinidump]: [address_] and [data_]. *)
Record MemorySnapshotMinidump := MkMemoryMinidump { mm_address : Z; mm_data : bytes }.

(** [ModuleSnapshotMinidump]; [minidump_module_] is kept as its 108 bytes. *)
Record ModuleSnapshotMinidump := MkModuleMinidump {
  minidump_module_ : bytes;
  mmod_annotations_vector : list bytes;
  mmod_annotations_simple_map : string_map bytes;
  mmod_annotation_objects : list AnnotationSnapshot;
  mmod_uuid : UUID;
  mmod_build_id : bytes;
  mmod_name : bytes;
  mmod_debug_file_name : bytes;
  mmod_age : Z
}.

Module ModuleSnapshotMinidump.

(** [Address], [Size], [Timestamp], [FileVersion], [SourceVersion] and
    [GetModuleType]. *)
Definition Address (x : ModuleSnapshotMinidump) : Z := word 8 0 (minidump_module_ x).
Definition Size (x : ModuleSnapshotMinidump) : Z := word 4 8 (minidump_module_ x).
Definition Timestamp (x : ModuleSnapshotMinidump) : Z := word 4 16 (minidump_module_ x).
Definition split_version (version_01 version_23 : Z) : Z * Z * Z * Z :=
  (u16 (Z.shiftr version_01 16), u16 (Z.land version_01 65535),
   u16 (Z.shiftr version_23 16), u16 (Z.land version_23 65535)).
Definition FileVersion (x : ModuleSnapshotMinidump) : Z * Z * Z * Z :=
  split_version (word 4 32 (minidump_module_ x)) (word 4 36 (minidump_module_ x)).
Definition SourceVersion (x : ModuleSnapshotMinidump) : Z * Z * Z * Z :=
  split_version (word 4 40 (minidump_module_ x)) (word 4 44 (minidump_module_ x)).
Definition GetModuleType (x : ModuleSnapshotMinidump) : ModuleType :=
  let dwFileType := word 4 60 (minidump_module_ x) in
  if dwFileType =? VFT_APP then kModuleTypeExecutable
  else if dwFileType =? VFT_DLL then kModuleTypeSharedLibrary
  else kModuleTypeUnknown.

Section Initialize.
  Context {R : Type} `{FileSeekReader R}.
  Context (UTF16ToUTF8 : list Z -> bool * bytes).

(** [InitializeModuleCodeView], of the record at [CvRecord]. *)
Definition InitializeModuleCodeView (r : R) (x : ModuleSnapshotMinidump)
    : option (ModuleSnapshotMinidump * R) :=
  let '(DataSize, Rva) := location 76 (minidump_module_ x) in
  if DataSize <? 4 then None
  else
    r1 ← SeekSet r Rva;
    '(cv_record, r2) ← read_exactly r1 DataSize;
    let signature := word 4 0 cv_record in
    if signature =? kSignaturePDB70 then
      if DataSize <? 24 + 1 then None
      else if negb (default 0 (last cv_record) =? 0) then None
      else
        Some (MkModuleMinidump (minidump_module_ x) (mmod_annotations_vector x)
                (mmod_annotations_simple_map x) (mmod_annotation_objects x)
                (uuid_of_bytes (slice 4 16 cv_record)) (mmod_build_id x) (mmod_name x)
                (mmod_debug_file_name x ++ slice 24 (Z.to_nat DataSize - 25) cv_record)
                (word 4 20 cv_record), r2)
    else if signature =? kSignatureBuildID then
      Some (MkModuleMinidump (minidump_module_ x) (mmod_annotations_vector x)
              (mmod_annotations_simple_map x) (mmod_annotation_objects x)
              (mmod_uuid x) (mmod_build_id x ++ drop 4 cv_record) (mmod_name x)
              (mmod_debug_file_name x) (mmod_age x), r2)
    else None.

(** [Initialize].  That the name could not be read is ignored; everything read
    after it starts with a [SeekSet]. *)
Definition Initialize (r : R) (minidump_module_rva : Z) (info : option (Z * Z))
    : option (ModuleSnapshotMinidump * R) :=
  r1 ← SeekSet r minidump_module_rva;
  '(module, r2) ← read_exactly r1 108;
  '(vector, simple_map, objects, r3) ← InitializeModuleCrashpadInfo r2 info;
  let '(name, r4) :=
    match ReadMinidumpUTF16String UTF16ToUTF8 r3 (word 4 20 module) with
    | Some (name, r') => (name, r')
    | None => ([], r3)
    end in
  let x := MkModuleMinidump module vector simple_map objects InitializeToZero [] name [] 0 in
  if (word 4 80 module =? 0) then Some (x, r4) else InitializeModuleCodeView r4 x.

End Initialize.

End ModuleSnapshotMinidump.

(** [MemorySnapshotMinidump::Initialize], of a [MINIDUMP_MEMORY_DESCRIPTOR]. *)
Definition InitializeMemory {R : Type} `{FileSeekReader R} (r : R) (rva : Z)
    : option (MemorySnapshotMinidump * R) :=
  r1 ← SeekSet r rva;
  '(descriptor, r2) ← read_exactly r1 16;
  let '(DataSize, Rva) := location 8 descriptor in
  r3 ← SeekSet r2 Rva;
  '(data, r4) ← read_exactly r3 DataSize;
  Some (MkMemoryMinidump (word 8 0 descriptor) data, r4).

(** [MemorySnapshotMinidump::MergeWithOtherSnapshot], when the snapshot starts at
    or before the other one, and its recursive call otherwise. *)
Definition memory_range (x : MemorySnapshotMinidump) : MemorySnapshot :=
  MkMemorySnapshot (mm_address x) (Z.of_nat (length (mm_data x))).
Definition merge_ordered (x other : MemorySnapshotMinidump) : option MemorySnapshotMinidump :=
  match DetermineMergedRange (memory_range x) (memory_range other) with
  | None => None
  | Some merged =>
      if Z.of_nat (length (mm_data x)) =? CheckedRange.size merged
      then Some (MkMemoryMinidump (CheckedRange.base merged) (mm_data x))
      else
        let n := Z.to_nat (mm_address other - mm_address x) in
        Some (MkMemoryMinidump (CheckedRange.base merged)
                (take n (mm_data x ++ replicate (n - length (mm_data x)) 0) ++ mm_data other))
  end.
Definition MergeMemory (x other : MemorySnapshotMinidump) : option MemorySnapshotMinidump :=
  if mm_address other <? mm_address x then merge_ordered other x else merge_ordered x other.

(** [SystemSnapshotMinidump]; [minidump_system_info_] is kept as its 56 bytes. *)
Record SystemSnapshotMinidump := MkSystemMinidump {
  minidump_system_info_ : bytes;
  minidump_build_name_ : bytes;
  sys_full_version : bytes
}.

Module SystemSnapshotMinidump.

(** [Initialize]. *)
Definition Initialize {R : Type} `{FileSeekReader R} (r : R) (rva : Z) (version : bytes)
    : option (SystemSnapshotMinidump * R) :=
  r1 ← SeekSet r rva;
  '(info, r2) ← read_exactly r1 56;
  '(build_name, r3) ← ReadMinidumpUTF8String r2 (word 4 24 info);
  Some (MkSystemMinidump info build_name version, r3).

(** [GetCPUArchitecture]: the values of [MinidumpCPUArchitecture]. *)
Definition GetCPUArchitecture (x : SystemSnapshotMinidump) : CPUArchitecture :=
  let architecture := word 2 0 (minidump_system_info_ x) in
  if architecture =? 9 then kCPUArchitectureX86_64
  else if (architecture =? 0) || (architecture =? 10) then kCPUArchitectureX86
  else if (architecture =? 5) || (architecture =? 13) then kCPUArchitectureARM
  else if (architecture =? 12) || (architecture =? 32771) then kCPUArchitectureARM64
  else if architecture =? 1 then kCPUArchitectureMIPSEL
  else kCPUArchitectureUnknown.

(** [CPURevision], [CPUCount], [CPUVendor], [GetOperatingSystem], [OSServer],
    [OSVersion] and [OSVersionFull]; the other functions of the interface are
    not implemented. *)
Definition CPURevision (x : SystemSnapshotMinidump) : Z := word 2 4 (minidump_system_info_ x).
Definition CPUCount (x : SystemSnapshotMinidump) : Z := word 1 6 (minidump_system_info_ x).
Definition CPUVendor (x : SystemSnapshotMinidump) : bytes :=
  if decide (GetCPUArchitecture x = kCPUArchitectureX86)
  then slice 32 12 (minidump_system_info_ x) else [].
Definition GetOperatingSystem (x : SystemSnapshotMinidump) : OperatingSystem :=
  let PlatformId := word 4 20 (minidump_system_info_ x) in
  if PlatformId =? kMinidumpOSMacOSX then kOperatingSystemMacOSX
  else if (PlatformId =? 0) || (PlatformId =? 1) || (PlatformId =? kMinidumpOSWin32NT)
  then kOperatingSystemWindows
  else if PlatformId =? kMinidumpOSLinux then kOperatingSystemLinux
  else if PlatformId =? kMinidumpOSAndroid then kOperatingSystemAndroid
  else if PlatformId =? kMinidumpOSFuchsia then kOperatingSystemFuchsia
  else kOperatingSystemUnknown.
Definition OSServer (x : SystemSnapshotMinidump) : bool :=
  word 1 7 (minidump_system_info_ x) =? kMinidumpOSTypeServer.
Definition OSVersion (x : SystemSnapshotMinidump) : Z * Z * Z * bytes :=
  (wrap_signed 32 (word 4 8 (minidump_system_info_ x)),
   wrap_signed 32 (word 4 12 (minidump_system_info_ x)),
   wrap_signed 32 (word 4 16 (minidump_system_info_ x)), minidump_build_name_ x).
Definition OSVersionFull (x : SystemSnapshotMinidump) : bytes := sys_full_version x.

End SystemSnapshotMinidump.

Section ProcessSnapshot.
  Context {R : Type} `{FileSeekReader R}.
  Context (UTF16ToUTF8 : list Z -> bool * bytes).

(** [ThreadSnapshotMinidump]; [minidump_thread_] is kept as its 48 bytes. *)
Record ThreadSnapshotMinidump := MkThreadMinidump {
  minidump_thread_ : bytes;
  mthread_name : bytes;
  mthread_context : CPUContext;
  mthread_stack : MemorySnapshotMinidump
}.

(** [ThreadSnapshotMinidump::Initialize]. *)
Definition InitializeThread (r : R) (rva : Z) (arch : CPUArchitecture) (thread_names : gmap Z bytes)
    : option (ThreadSnapshotMinidump * R) :=
  r1 ← SeekSet r rva;
  '(thread, r2) ← read_exactly r1 48;
  let '(DataSize, Rva) := location 40 thread in
  r3 ← SeekSet r2 Rva;
  '(minidump_context, r4) ← read_exactly r3 DataSize;
  context ← MinidumpContextConverter.Initialize arch minidump_context;
  '(stack, r5) ← InitializeMemory r4 (u32 (rva + 24));
  Some (MkThreadMinidump thread (default [] (thread_names !! word 4 0 thread)) context stack, r5).

(** [ExceptionSnapshotMinidump]; [minidump_exception_stream_] is kept as its 168
    bytes. *)
Record ExceptionSnapshotMinidump := MkExceptionMinidump {
  minidump_exception_stream_ : bytes;
  mexc_context : CPUContext;
  exception_information_ : list Z
}.

(** [ExceptionSnapshotMinidump::Initialize].  The parameters are read from an
    array of 15 elements, with no check of their number. *)
Definition InitializeException (r : R) (arch : CPUArchitecture) (rva : Z)
    : outcome (ExceptionSnapshotMinidump * R) :=
  step! r1 := lift (SeekSet r rva) in
  step! (stream, r2) := lift (read_exactly r1 168) in
  let num_parameters := word 4 32 stream in
  if Z.of_nat MinidumpExceptionWriter.EXCEPTION_MAXIMUM_PARAMETERS <? num_parameters then Undefined
  else
    let information := map (fun i => word 8 (40 + 8 * i) stream) (seq 0 (Z.to_nat num_parameters)) in
    let '(DataSize, Rva) := location 160 stream in
    step! r3 := lift (SeekSet r2 Rva) in
    step! (minidump_context, r4) := lift (read_exactly r3 DataSize) in
    step! context := lift (MinidumpContextConverter.Initialize arch minidump_context) in
    Done (MkExceptionMinidump stream context information, r4).

(** [ProcessSnapshotMinidump]. *)
Record ProcessSnapshotMinidump := MkProcessMinidump {
  header_time_date_stamp : Z;
  stream_directory_ : list (Z * (Z * Z));
  stream_map_ : gmap Z (Z * Z);
  modules_ : list ModuleSnapshotMinidump;
  threads_ : list ThreadSnapshotMinidump;
  thread_names_ : gmap Z bytes;
  mem_regions_ : list MINIDUMP_MEMORY_INFO;
  extra_memory_ : list MemorySnapshotMinidump;
  custom_streams_ : list (Z * bytes);
  crashpad_info_ : MinidumpCrashpadInfo;
  system_snapshot_ : option SystemSnapshotMinidump;
  exception_snapshot_ : option ExceptionSnapshotMinidump;
  arch_ : CPUArchitecture;
  annotations_simple_map_ : string_map bytes;
  full_version_ : bytes;
  process_id_ : Z;
  create_time_ : Z;
  user_time_ : Z;
  kernel_time_ : Z
}.

(** The header and the directory: [header_.TimeDateStamp] and
    [stream_directory_]. *)
Definition parse_directory (d : bytes) : Z * (Z * Z) := (word 4 0 d, location 4 d).
Definition InitializeDirectory (r : R) : option (Z * list (Z * (Z * Z)) * R) :=
  r1 ← SeekSet r 0;
  '(header, r2) ← read_exactly r1 32;
  if negb (word 4 0 header =? MINIDUMP_SIGNATURE) then None
  else if negb (word 4 4 header =? MINIDUMP_VERSION) then None
  else
    r3 ← SeekSet r2 (word 4 12 header);
    let NumberOfStreams := word 4 8 header in
    if NumberOfStreams =? 0 then Some (word 4 20 header, [], r3)
    else
      '(d, r4) ← read_exactly r3 (NumberOfStreams * 12);
      Some (word 4 20 header, map parse_directory (chunks 12 (Z.to_nat NumberOfStreams) d), r4).

(** The loop that fills in [stream_map_], and that of
    [InitializeModulesCrashpadInfo]: a second entry for a key is an error. *)
Fixpoint insert_unique (m : gmap Z (Z * Z)) (entries : list (Z * (Z * Z)))
    : option (gmap Z (Z * Z)) :=
  match entries with
  | [] => Some m
  | (key, location) :: rest =>
      match m !! key with
      | Some _ => None
      | None => insert_unique (<[key := location]> m) rest
      end
  end.

(** [InitializeCrashpadInfo]: [crashpad_info_] and [annotations_simple_map_]; the
    fields after [module_list] are read when the stream has them. *)
Definition InitializeCrashpadInfo (stream_map : gmap Z (Z * Z)) (r : R)
    : option (MinidumpCrashpadInfo * string_map bytes * R) :=
  match stream_map !! kMinidumpStreamTypeCrashpadInfo with
  | None => Some (zero_crashpad_info, [], r)
  | Some (DataSize, Rva) =>
      if DataSize <? 52 then None
      else
        r1 ← SeekSet r Rva;
        '(d, r2) ← read_exactly r1 52;
        let remaining := DataSize - 52 in
        '(reserved, remaining, r3) ←
          (if 4 <=? remaining
           then '(v, r') ← read_exactly r2 4; Some (le_value v, remaining - 4, r')
           else Some (0, remaining, r2));
        '(address_mask, r4) ←
          (if 8 <=? remaining
           then '(v, r') ← read_exactly r3 8; Some (le_value v, r')
           else Some (0, r3));
        let info := MkCrashpadInfo (word 4 0 d) (uuid_of_bytes (slice 4 16 d))
                      (uuid_of_bytes (slice 20 16 d)) (location 36 d) (location 44 d)
                      reserved address_mask in
        if negb (ci_version info =? MinidumpCrashpadInfoWriter.kVersion) then None
        else
          '(annotations, r5) ← ReadMinidumpSimpleStringDictionary r4
             (fst (ci_simple_annotations info)) (snd (ci_simple_annotations info));
          Some (info, annotations, r5)
  end.

(** The UTF-16 units before the first zero, in the [bytes] that were read: the
    string at a [char16_t] array, or nothing when no zero ends it there. *)
Fixpoint c_string16 (units : list Z) : option (list Z) :=
  match units with
  | [] => None
  | u :: rest => if u =? 0 then Some [] else s ← c_string16 rest; Some (u :: s)
  end.
Fixpoint before_semicolon (s : bytes) : bytes :=
  match s with
  | [] => []
  | c :: rest => if c =? 59 then [] else c :: before_semicolon rest
  end.

(** [InitializeMiscInfo]: [full_version_], [process_id_], [create_time_],
    [user_time_] and [kernel_time_].  [BuildString] is at offset 232 of the larger
    structures; what follows the bytes that were read is not initialized. *)
Definition misc_info_sizes : list Z := [1364; 832; 232; 44; 24].
Definition InitializeMiscInfo (stream_map : gmap Z (Z * Z)) (r : R)
    : outcome (bytes * Z * Z * Z * Z * R) :=
  match stream_map !! kMinidumpStreamTypeMiscInfo with
  | None => Done ([], -1, 0, 0, 0, r)
  | Some (size, Rva) =>
      step! r1 := lift (SeekSet r Rva) in
      if negb (bool_decide (size ∈ misc_info_sizes)) then Failed
      else
        step! (info, r2) := lift (read_exactly r1 size) in
        step! full_version :=
          (if (size =? 1364) || (size =? 832) then
             match c_string16 (map le_value (chunks 2 (Z.to_nat ((size - 232) / 2)) (drop 232 info))) with
             | None => Undefined
             | Some build_string => Done (before_semicolon (snd (UTF16ToUTF8 build_string)))
             end
           else Done []) in
        Done (full_version, wrap_signed 32 (word 4 8 info), word 4 12 info, word 4 16 info,
              word 4 20 info, r2)
  end.

(** [InitializeModulesCrashpadInfo]: [module_crashpad_info_links]. *)
Definition parse_link (d : bytes) : Z * (Z * Z) := (word 4 0 d, location 4 d).
Definition InitializeModulesCrashpadInfo (info : MinidumpCrashpadInfo) (r : R)
    : option (gmap Z (Z * Z) * R) :=
  if negb (ci_version info =? MinidumpCrashpadInfoWriter.kVersion) then None
  else
    let '(DataSize, Rva) := ci_module_list info in
    if Rva =? 0 then Some (∅, r)
    else
      '(links, r1) ← read_counted 4 12 r DataSize Rva;
      module_crashpad_info_links ← insert_unique ∅ (map parse_link links);
      Some (module_crashpad_info_links, r1).

(** The loop of [InitializeModules]. *)
Fixpoint read_modules (r : R) (Rva : Z) (links : gmap Z (Z * Z)) (module_index n : nat)
    : option (list ModuleSnapshotMinidump * R) :=
  match n with
  | O => Some ([], r)
  | S n' =>
      let module_rva := u32 (Rva + 4 + Z.of_nat module_index * 108) in
      '(module, r1) ← ModuleSnapshotMinidump.Initialize UTF16ToUTF8 r module_rva
                        (links !! Z.of_nat module_index);
      '(rest, r2) ← read_modules r1 Rva links (S module_index) n';
      Some (module :: rest, r2)
  end.

(** [InitializeModules]. *)
Definition InitializeModules (stream_map : gmap Z (Z * Z)) (info : MinidumpCrashpadInfo) (r : R)
    : option (list ModuleSnapshotMinidump * R) :=
  match stream_map !! kMinidumpStreamTypeModuleList with
  | None => Some ([], r)
  | Some (DataSize, Rva) =>
      '(links, r1) ← InitializeModulesCrashpadInfo info r;
      if DataSize <? 4 then None
      else
        r2 ← SeekSet r1 Rva;
        '(c, r3) ← read_exactly r2 4;
        let module_count := le_value c in
        if negb (4 + module_count * 108 =? DataSize) then None
        else read_modules r3 Rva links 0 (Z.to_nat module_count)
  end.

(** [InitializeSystemSnapshot]: [system_snapshot_] and [arch_]. *)
Definition InitializeSystemSnapshot (stream_map : gmap Z (Z * Z)) (full_version : bytes) (r : R)
    : option (option SystemSnapshotMinidump * CPUArchitecture * R) :=
  match stream_map !! kMinidumpStreamTypeSystemInfo with
  | None => Some (None, kCPUArchitectureUnknown, r)
  | Some (DataSize, Rva) =>
      if DataSize <? 56 then None
      else
        '(x, r1) ← SystemSnapshotMinidump.Initialize r Rva full_version;
        Some (Some x, SystemSnapshotMinidump.GetCPUArchitecture x, r1)
  end.

(** The loop of [InitializeMemoryInfo].  An [i] of 32 bits never reaches a larger
    [NumberOfEntries], whose entries no file could hold. *)
Definition parse_memory_info (d : bytes) : MINIDUMP_MEMORY_INFO :=
  MkMemoryInfo (word 8 0 d) (word 8 8 d) (word 4 16 d) (word 8 24 d) (word 4 32 d) (word 4 36 d)
    (word 4 40 d).
Fixpoint read_memory_infos (r : R) (n : nat) : option (list MINIDUMP_MEMORY_INFO * R) :=
  match n with
  | O => Some ([], r)
  | S n' =>
      '(info, r1) ← read_exactly r 48;
      '(rest, r2) ← read_memory_infos r1 n';
      Some (parse_memory_info info :: rest, r2)
  end.

(** [InitializeMemoryInfo]; the product of the sizes is one of 64 bits. *)
Definition InitializeMemoryInfo (stream_map : gmap Z (Z * Z)) (r : R)
    : option (list MINIDUMP_MEMORY_INFO * R) :=
  match stream_map !! kMinidumpStreamTypeMemoryInfoList with
  | None => Some ([], r)
  | Some (DataSize, Rva) =>
      if DataSize <? 16 then None
      else
        r1 ← SeekSet r Rva;
        '(list, r2) ← read_exactly r1 16;
        let NumberOfEntries := word 8 8 list in
        if negb (word 4 0 list =? 16) then None
        else if negb (word 4 4 list =? 48) then None
        else if negb (u64 (16 + u64 (NumberOfEntries * 48)) =? DataSize) then None
        else read_memory_infos r2 (Z.to_nat NumberOfEntries)
  end.

(** The loop of [InitializeExtraMemory]. *)
Fixpoint read_memories (r : R) (location : Z) (n : nat) : option (list MemorySnapshotMinidump * R) :=
  match n with
  | O => Some ([], r)
  | S n' =>
      '(memory, r1) ← InitializeMemory r (u32 location);
      '(rest, r2) ← read_memories r1 (location + 16) n';
      Some (memory :: rest, r2)
  end.

(** [InitializeExtraMemory]. *)
Definition InitializeExtraMemory (stream_map : gmap Z (Z * Z)) (r : R)
    : option (list MemorySnapshotMinidump * R) :=
  match stream_map !! kMinidumpStreamTypeMemoryList with
  | None => Some ([], r)
  | Some (DataSize, Rva) =>
      if DataSize <? 4 then None
      else
        r1 ← SeekSet r Rva;
        '(num_ranges, r2) ← read_exactly r1 4;
        read_memories r2 (SeekGet r2) (Z.to_nat (le_value num_ranges))
  end.

(** The loop of [InitializeThreadNames]: a name is kept when its thread has none
    yet.  The RVA of 64 bits is converted to a [FileOffset]. *)
Fixpoint read_thread_names (r : R) (Rva : Z) (index n : nat) (names : gmap Z bytes)
    : option (gmap Z bytes * R) :=
  match n with
  | O => Some (names, r)
  | S n' =>
      r1 ← SeekSet r (u32 (Rva + 4 + Z.of_nat index * 12));
      '(minidump_thread_name, r2) ← read_exactly r1 12;
      '(name, r3) ← ReadMinidumpUTF16String UTF16ToUTF8 r2
                      (wrap_signed 64 (word 8 4 minidump_thread_name));
      let thread_id := word 4 0 minidump_thread_name in
      let names' := match names !! thread_id with
                    | Some _ => names
                    | None => <[thread_id := name]> names
                    end in
      read_thread_names r3 Rva (S index) n' names'
  end.

(** [InitializeThreadNames]. *)
Definition InitializeThreadNames (stream_map : gmap Z (Z * Z)) (r : R) : option (gmap Z bytes * R) :=
  match stream_map !! kMinidumpStreamTypeThreadNameList with
  | None => Some (∅, r)
  | Some (DataSize, Rva) =>
      if DataSize <? 4 then None
      else
        r1 ← SeekSet r Rva;
        '(c, r2) ← read_exactly r1 4;
        let thread_name_count := le_value c in
        if negb (4 + thread_name_count * 12 =? DataSize) then None
        else read_thread_names r2 Rva 0 (Z.to_nat thread_name_count) ∅
  end.

(** The loop of [InitializeThreads]. *)
Fixpoint read_threads (r : R) (Rva : Z) (arch : CPUArchitecture) (names : gmap Z bytes)
    (index n : nat) : option (list ThreadSnapshotMinidump * R) :=
  match n with
  | O => Some ([], r)
  | S n' =>
      '(thread, r1) ← InitializeThread r (u32 (Rva + 4 + Z.of_nat index * 48)) arch names;
      '(rest, r2) ← read_threads r1 Rva arch names (S index) n';
      Some (thread :: rest, r2)
  end.

(** [InitializeThreads]: [thread_names_] and [threads_]. *)
Definition InitializeThreads (stream_map : gmap Z (Z * Z)) (arch : CPUArchitecture) (r : R)
    : option (gmap Z bytes * list ThreadSnapshotMinidump * R) :=
  match stream_map !! kMinidumpStreamTypeThreadList with
  | None => Some (∅, [], r)
  | Some (DataSize, Rva) =>
      if DataSize <? 4 then None
      else
        r1 ← SeekSet r Rva;
        '(c, r2) ← read_exactly r1 4;
        let thread_count := le_value c in
        if negb (4 + thread_count * 48 =? DataSize) then None
        else
          '(names, r3) ← InitializeThreadNames stream_map r2;
          '(threads, r4) ← read_threads r3 Rva arch names 0 (Z.to_nat thread_count);
          Some (names, threads, r4)
  end.

(** [InitializeCustomMinidumpStreams]: the streams outside of the reserved ranges. *)
Definition reserved_stream (stream_type : Z) : bool :=
  (stream_type <=? 65535) ||
  ((kMinidumpStreamTypeCrashpadInfo <=? stream_type) && (stream_type <=? 1129381887)).
Fixpoint InitializeCustomMinidumpStreams (directory : list (Z * (Z * Z))) (r : R)
    : option (list (Z * bytes) * R) :=
  match directory with
  | [] => Some ([], r)
  | (stream_type, (DataSize, Rva)) :: rest =>
      if reserved_stream stream_type then InitializeCustomMinidumpStreams rest r
      else
        r1 ← SeekSet r Rva;
        '(data, r2) ← read_exactly r1 DataSize;
        '(l, r3) ← InitializeCustomMinidumpStreams rest r2;
        Some ((stream_type, data) :: l, r3)
  end.

(** [InitializeExceptionSnapshot]. *)
Definition InitializeExceptionSnapshot (stream_map : gmap Z (Z * Z)) (arch : CPUArchitecture) (r : R)
    : outcome (option ExceptionSnapshotMinidump * R) :=
  match stream_map !! kMinidumpStreamTypeException with
  | None => Done (None, r)
  | Some (DataSize, Rva) =>
      if DataSize <? 168 then Failed
      else
        step! (x, r1) := InitializeException r arch Rva in
        Done (Some x, r1)
  end.

(** [ProcessSnapshotMinidump::Initialize]. *)
Definition Initialize (r : R) : outcome (ProcessSnapshotMinidump * R) :=
  step! (timestamp, directory, r1) := lift (InitializeDirectory r) in
  step! stream_map := lift (insert_unique ∅ directory) in
  step! (info, annotations, r2) := lift (InitializeCrashpadInfo stream_map r1) in
  step! (full_version, process_id, create_time, user_time, kernel_time, r3) :=
    InitializeMiscInfo stream_map r2 in
  step! (modules, r4) := lift (InitializeModules stream_map info r3) in
  step! (system, arch, r5) := lift (InitializeSystemSnapshot stream_map full_version r4) in
  step! (regions, r6) := lift (InitializeMemoryInfo stream_map r5) in
  step! (extra, r7) := lift (InitializeExtraMemory stream_map r6) in
  step! (names, threads, r8) := lift (InitializeThreads stream_map arch r7) in
  step! (custom, r9) := lift (InitializeCustomMinidumpStreams directory r8) in
  step! (exception, r10) := InitializeExceptionSnapshot stream_map arch r9 in
  Done (MkProcessMinidump timestamp directory stream_map modules threads names regions extra custom
          info system exception arch annotations full_version process_id create_time user_time
          kernel_time, r10).

End ProcessSnapshot.

Module ThreadSnapshotMinidump.
Section Accessors.
  Implicit Type x : ThreadSnapshotMinidump.

(** [ThreadID], [ThreadName], [SuspendCount], [ThreadSpecificDataAddress],
    [Priority], [Context] and [Stack]. *)
Definition ThreadID x : Z := word 4 0 (minidump_thread_ x).
Definition ThreadName x : bytes := mthread_name x.
Definition SuspendCount x : Z := wrap_signed 32 (word 4 4 (minidump_thread_ x)).
Definition ThreadSpecificDataAddress x : Z := word 8 16 (minidump_thread_ x).
Definition Priority x : Z := wrap_signed 32 (word 4 12 (minidump_thread_ x)).
Definition Context_ x : CPUContext := mthread_context x.
Definition Stack x : MemorySnapshotMinidump := mthread_stack x.

End Accessors.
End ThreadSnapshotMinidump.

Module ExceptionSnapshotMinidump.
Section Accessors.
  Implicit Type x : ExceptionSnapshotMinidump.

(** [Context], [ThreadID], [Exception], [ExceptionInfo], [ExceptionAddress] and
    [Codes]. *)
Definition Context_ x : CPUContext := mexc_context x.
Definition ThreadID x : Z := word 4 0 (minidump_exception_stream_ x).
Definition Exception_ x : Z := word 4 8 (minidump_exception_stream_ x).
Definition ExceptionInfo x : Z := word 4 12 (minidump_exception_stream_ x).
Definition ExceptionAddress x : Z := word 8 24 (minidump_exception_stream_ x).
Definition Codes x : list Z := exception_information_ x.

End Accessors.
End ExceptionSnapshotMinidump.

(** [SnapshotTime], [ProcessStartTime] and [ProcessCPUTimes]. *)
Section ProcessAccessors.
  Implicit Type x : ProcessSnapshotMinidump.

Definition SnapshotTime x : timeval := MkTimeval (header_time_date_stamp x) 0.
Definition ProcessStartTime x : timeval := MkTimeval (create_time_ x) 0.
Definition ProcessCPUTimes x : timeval * timeval :=
  (MkTimeval (user_time_ x) 0, MkTimeval (kernel_time_ x) 0).

End ProcessAccessors.

(** ** Merged memory *)

(** The byte of a snapshot at an address. *)
Definition byte_at (x : MemorySnapshotMinidump) (a : Z) : option Z :=
  if a <? mm_address x then None else mm_data x !! Z.to_nat (a - mm_address x).

(** Snapshots that agree where both have a byte. *)
Definition consistent (x y : MemorySnapshotMinidump) : Prop :=
  forall a b c, byte_at x a = Some b -> byte_at y a = Some c -> b = c.
Definition byte_of_either (x y : MemorySnapshotMinidump) (a : Z) : option Z :=
  match byte_at x a with Some b => Some b | None => byte_at y a end.

Lemma byte_of_either_sym x y a :
  consistent x y -> byte_of_either x y a = byte_of_either y x a.
Proof.
  intros Hc. unfold byte_of_either. specialize (Hc a).
  destruct (byte_at x a) as [b|], (byte_at y a) as [c|]; try done. f_equal. by apply Hc.
Qed.

Lemma byte_at_None x a :
  byte_at x a = None <-> a < mm_address x \/ mm_address x + Z.of_nat (length (mm_data x)) <= a.
Proof.
  unfold byte_at. destruct (Z.ltb_spec a (mm_address x)); [split; [lia|done]|].
  rewrite lookup_ge_None. lia.
Qed.

Lemma merge_ordered_bytes x y :
  snapshot_ok (memory_range x) -> snapshot_ok (memory_range y) ->
  touching (memory_range x) (memory_range y) -> consistent x y -> mm_address x <= mm_address y ->
  exists z, merge_ordered x y = Some z /\ mm_address z = mm_address x /\
    forall a, byte_at z a = byte_of_either x y a.
Proof.
  intros Hx Hy Ht Hc Hle. unfold merge_ordered.
  destruct (merged_spec _ _ Hx Hy) as [(_ & m & -> & Eb & Es)|[Hn _]]; [|done].
  unfold memory_range, touching in *. simpl in *. rewrite Z.min_l in Eb by lia. rewrite Eb in *.
  destruct (Z.eqb_spec (Z.of_nat (length (mm_data x))) (CheckedRange.size m)) as [Ez|Ez].
  - eexists. split; [done|]. split; [done|]. intros a. unfold byte_of_either.
    change (byte_at (MkMemoryMinidump (mm_address x) (mm_data x)) a) with (byte_at x a).
    destruct (byte_at x a) as [b|] eqn:Ex; [done|]. symmetry. apply byte_at_None.
    apply byte_at_None in Ex. lia.
  - eexists. split; [done|]. split; [done|]. intros a.
    set (n := Z.to_nat (mm_address y - mm_address x)).
    assert (n <= length (mm_data x))%nat as Hn by lia.
    rewrite take_app_le by done. unfold byte_at at 1. cbn [mm_address mm_data].
    destruct (Z.ltb_spec a (mm_address x)) as [Ha|Ha].
    + symmetry. unfold byte_of_either.
      assert (byte_at x a = None) as -> by (apply byte_at_None; lia). apply byte_at_None. lia.
    + destruct (Z.ltb_spec a (mm_address y)) as [Hay|Hay].
      * rewrite lookup_app_l by (rewrite length_take; lia). rewrite lookup_take_lt by lia.
        unfold byte_of_either, byte_at at 1. destruct (Z.ltb_spec a (mm_address x)); [lia|].
        destruct (mm_data x !! Z.to_nat (a - mm_address x)) eqn:El; [done|].
        apply lookup_ge_None in El. lia.
      * rewrite lookup_app_r by (rewrite length_take; lia). rewrite length_take.
        rewrite byte_of_either_sym by done. unfold byte_of_either, byte_at at 1.
        destruct (Z.ltb_spec a (mm_address y)); [lia|].
        replace (Z.to_nat (a - mm_address x) - n `min` length (mm_data x))%nat
          with (Z.to_nat (a - mm_address y)) by lia.
        destruct (mm_data y !! Z.to_nat (a - mm_address y)) eqn:El; [done|].
        symmetry. apply byte_at_None. apply lookup_ge_None in El. lia.
Qed.

(** [MemorySnapshotMinidump::MergeWithOtherSnapshot]: two snapshots that
    overlap or abut, in either order, merge into one that has at every address the
    byte that the one or the other has there. *)
Theorem merge_memory_bytes (x y : MemorySnapshotMinidump) :
  snapshot_ok (memory_range x) -> snapshot_ok (memory_range y) ->
  touching (memory_range x) (memory_range y) -> consistent x y ->
  exists z, MergeMemory x y = Some z /\ forall a, byte_at z a = byte_of_either x y a.
Proof.
  intros Hx Hy Ht Hc. unfold MergeMemory. destruct (Z.ltb_spec (mm_address y) (mm_address x)).
  - destruct (merge_ordered_bytes y x) as (z & E & _ & Hz); [done|done| | |lia|].
    + unfold touching in *. tauto.
    + intros a b c Eb Ec. symmetry. by apply (Hc a).
    + exists z. split; [done|]. intros a. rewrite Hz. symmetry. by apply byte_of_either_sym.
  - destruct (merge_ordered_bytes x y) as (z & E & _ & Hz); [done..|lia|]. eauto.
Qed.

Lemma merge_memory_bytes_witness :
  exists z, MergeMemory (MkMemoryMinidump 12 [3; 4; 5]) (MkMemoryMinidump 10 [1; 2; 3]) = Some z /\
    byte_at z 10 = Some 1 /\ byte_at z 14 = Some 5 /\ byte_at z 15 = None.
Proof.
  destruct (merge_memory_bytes (MkMemoryMinidump 12 [3; 4; 5]) (MkMemoryMinidump 10 [1; 2; 3]))
    as (z & E & Hz).
  - vm_compute. repeat split; congruence.
  - vm_compute. repeat split; congruence.
  - vm_compute. repeat split; congruence.
  - intros a b c Eb Ec. assert (a = 12) as ->.
    { unfold byte_at in Eb, Ec. simpl in Eb, Ec.
      destruct (Z.ltb_spec a 12); [discriminate|]. destruct (Z.ltb_spec a 10); [discriminate|].
      apply lookup_lt_Some in Ec. simpl in Ec. lia. }
    vm_compute in Eb, Ec. congruence.
  - exists z. split; [exact E|]. rewrite !Hz. vm_compute. repeat split; reflexivity.
Defined.
