(* ===== verification/UploadParameters.v ===== *)
(** * The parameters of an upload (handler/minidump_to_upload_parameters.cc)

    [BreakpadHTTPFormParametersFromMinidump] collects the annotations of a snapshot read
    from a minidump file in one map.  A key that is in several places has the value of
    the first one, and some keys are special; this is shown of the map.  The order of the
    places is not the one that the header gives, and an annotation can replace the client
    ID; the property is about the snapshots for which header and code agree. *)

From S2P Require Import Prelude.
From S2P Require Import CPUContext.
From S2P Require Import Uuid.
From S2P Require Import MinidumpObjects.
From S2P Require Import HttpMultipart.
From S2P Require Import MinidumpModules.
From S2P Require Import MinidumpReaders.
From S2P Require Import ProcessSnapshot.
#[local] Open Scope crashpad_scope.

(** [Annotation::Type::kString]. *)
Definition kString : Z := 1.

Definition InsertOrReplaceMapEntry (map : string_map bytes) (key value : bytes) : string_map bytes :=
  map_insert key value map.

(** One element of [AnnotationObjects]. *)
Definition insert_annotation (parameters : string_map bytes) (annotation : AnnotationSnapshot) : string_map bytes :=
  if negb (annotation_type annotation =? kString) then parameters
  else map_emplace (annotation_name annotation) (annotation_value annotation) parameters.

(** One module: [parameters] and [list_annotations]. *)
Definition insert_module (s : string_map bytes * bytes) (module : ModuleSnapshotMinidump) : string_map bytes * bytes :=
  let '(parameters, list_annotations) := s in
  let parameters := fold_left (fun m kv => map_emplace kv.1 kv.2 m) (mmod_annotations_simple_map module) parameters in
  let list_annotations := fold_left (fun l a => (l ++ a) ++ [10]) (mmod_annotations_vector module) list_annotations in
  (fold_left insert_annotation (mmod_annotation_objects module) parameters, list_annotations).

Definition kListAnnotations : bytes := str "list_annotations".
Definition kGuid : bytes := str "guid".
Definition kGuidOverride : bytes := str "_backtrace_internal_guid_override".

Definition BreakpadHTTPFormParametersFromMinidump (process_snapshot : ProcessSnapshotMinidump) : string_map bytes :=
  let parameters := annotations_simple_map_ process_snapshot in
  let '(parameters, list_annotations) := fold_left insert_module (modules_ process_snapshot) (parameters, []) in
  let parameters :=
    match list_annotations with
    | [] => parameters
    | _ => InsertOrReplaceMapEntry parameters kListAnnotations
             (take (length list_annotations - 1) list_annotations)
    end in
  match map_find kGuidOverride parameters with
  | Some override => map_erase kGuidOverride (InsertOrReplaceMapEntry parameters kGuid override)
  | None => InsertOrReplaceMapEntry parameters kGuid (ToString (ci_client_id (crashpad_info_ process_snapshot)))
  end.

(** ** What is in the map *)

(** The annotations of a module, and of all of a snapshot, in the order of precedence. *)
Definition string_annotations (l : list AnnotationSnapshot) : list (bytes * bytes) :=
  map (fun a => (annotation_name a, annotation_value a)) (filter (fun a => annotation_type a = kString) l).
Definition module_annotations (x : ModuleSnapshotMinidump) : list (bytes * bytes) :=
  mmod_annotations_simple_map x ++ string_annotations (mmod_annotation_objects x).
Definition all_annotations (x : ProcessSnapshotMinidump) : list (bytes * bytes) :=
  annotations_simple_map_ x ++ concat (map module_annotations (modules_ x)).

(** The lines of the [AnnotationsVector]s of all modules. *)
Fixpoint join_lines (l : list bytes) : bytes :=
  match l with
  | [] => []
  | [a] => a
  | a :: l' => a ++ 10 :: join_lines l'
  end.
Definition all_lines (x : ProcessSnapshotMinidump) : list bytes := concat (map mmod_annotations_vector (modules_ x)).

(** The value that a parameter should have. *)
Definition parameter (x : ProcessSnapshotMinidump) (k : bytes) : option bytes :=
  if decide (k = kGuidOverride) then None
  else if decide (k = kGuid) then
    Some (default (ToString (ci_client_id (crashpad_info_ x))) (map_find kGuidOverride (all_annotations x)))
  else if decide (k = kListAnnotations /\ all_lines x <> []) then Some (join_lines (all_lines x))
  else map_find k (all_annotations x).

Lemma map_find_app {V} k (l1 l2 : string_map V) :
  map_find k (l1 ++ l2) = match map_find k l1 with Some v => Some v | None => map_find k l2 end.
Proof. induction l1 as [|[k' v] l1 IH]; cbn [app map_find]; [done|]. by destruct (decide (k = k')). Qed.

(** [m] finds what is first in [l]. *)
Definition finds (m : string_map bytes) (l : list (bytes * bytes)) : Prop := forall k, map_find k m = map_find k l.

Lemma emplace_finds m l k v : finds m l -> finds (map_emplace k v m) (l ++ [(k, v)]).
Proof.
  intros Hm k'. rewrite map_find_emplace, Hm, map_find_app. by destruct (map_find k' l).
Qed.
Lemma emplace_all_finds m l l' :
  finds m l -> finds (fold_left (fun m kv => map_emplace kv.1 kv.2 m) l' m) (l ++ l').
Proof.
  revert m l. induction l' as [|[k v] l' IH]; intros m l Hm; cbn [fold_left]; [by rewrite app_nil_r|].
  replace (l ++ (k, v) :: l') with ((l ++ [(k, v)]) ++ l') by (by rewrite <-app_assoc). by apply IH, emplace_finds.
Qed.
Lemma insert_annotations_emplace l m :
  fold_left insert_annotation l m = fold_left (fun m kv => map_emplace kv.1 kv.2 m) (string_annotations l) m.
Proof.
  revert m. induction l as [|a l IH]; intros m; [done|]. cbn [fold_left]. rewrite IH. unfold string_annotations, insert_annotation.
  rewrite filter_cons. destruct (decide (annotation_type a = kString)) as [E|E].
  - by rewrite E, Z.eqb_refl.
  - by rewrite (proj2 (Z.eqb_neq _ _) E).
Qed.

Definition ended_lines (l : list bytes) : bytes := concat (map (fun a => a ++ [10]) l).
Lemma append_lines l a : fold_left (fun l a => (l ++ a) ++ [10]) l a = a ++ ended_lines l.
Proof.
  revert a. induction l as [|x l IH]; intros a; [by rewrite app_nil_r|]. cbn [fold_left]. rewrite IH. unfold ended_lines.
  cbn [map concat]. by rewrite <-!app_assoc.
Qed.
Lemma join_ended l : l <> [] -> take (length (ended_lines l) - 1) (ended_lines l) = join_lines l.
Proof.
  intros Hl. assert (ended_lines l = join_lines l ++ [10]) as ->.
  { induction l as [|a l IH]; [done|]. unfold ended_lines in *. cbn [map concat]. destruct l as [|b l]; [by rewrite app_nil_r|].
    rewrite IH by done. cbn [join_lines]. by rewrite <-!app_assoc. }
  rewrite length_app, Nat.add_sub. apply take_app_length.
Qed.

Lemma insert_modules_spec modules m a l :
  finds m l ->
  finds (fold_left insert_module modules (m, a)).1 (l ++ concat (map module_annotations modules)) /\
  (fold_left insert_module modules (m, a)).2 = a ++ ended_lines (concat (map mmod_annotations_vector modules)).
Proof.
  revert m a l. induction modules as [|x modules IH]; intros m a l Hm; [cbn; by rewrite !app_nil_r|].
  cbn [fold_left]. unfold insert_module at 2 4. rewrite append_lines, insert_annotations_emplace.
  cbn [map concat]. unfold ended_lines. rewrite map_app, concat_app, !app_assoc. unfold module_annotations at 1.
  rewrite app_assoc. by apply IH, emplace_all_finds, emplace_all_finds.
Qed.

(** Every parameter of any snapshot: [guid] is the client ID or the override that an
    annotation gives, which is not a parameter itself, and the annotations take
    precedence module by module. *)
Lemma parameters_any x k : map_find k (BreakpadHTTPFormParametersFromMinidump x) = parameter x k.
Proof.
  unfold BreakpadHTTPFormParametersFromMinidump, parameter, InsertOrReplaceMapEntry.
  destruct (insert_modules_spec (modules_ x) (annotations_simple_map_ x) [] (annotations_simple_map_ x)) as [Hf El]; [done|].
  fold (all_annotations x) in Hf. fold (all_lines x) in El. cbn [app] in El.
  destruct (fold_left insert_module (modules_ x) _) as [m a]. cbn [fst snd] in Hf, El. subst a.
  set (m' := match ended_lines (all_lines x) with [] => m | _ => _ end).
  assert (forall k, map_find k m' = if decide (k = kListAnnotations /\ all_lines x <> []) then Some (join_lines (all_lines x))
                                    else map_find k (all_annotations x)) as Hm'.
  { intros k'. unfold m'. destruct (all_lines x) as [|b l] eqn:E.
    - rewrite decide_False by naive_solver. apply Hf.
    - rewrite join_ended by done. assert (exists c l', ended_lines (b :: l) = c :: l') as (c & l' & ->).
      { unfold ended_lines. cbn [map concat]. destruct b; cbn; eauto. }
      rewrite map_find_insert, Hf. destruct (decide (k' = kListAnnotations)) as [->|]; [by rewrite decide_True|].
      by rewrite decide_False by naive_solver. }
  assert (map_find kGuidOverride m' = map_find kGuidOverride (all_annotations x)) as Eo
    by (rewrite Hm', decide_False; [done|]; by intros [? _]).
  rewrite Eo. destruct (map_find kGuidOverride (all_annotations x)) as [v|] eqn:Ev; cbn [default id].
  - rewrite map_find_erase, map_find_insert, Hm'. by destruct (decide (k = kGuidOverride)).
  - rewrite map_find_insert, Hm'. destruct (decide (k = kGuidOverride)) as [->|]; [|done].
    rewrite decide_False by done. rewrite decide_False; [done|]. by intros [? _].
Qed.

(** ** The documented parameters *)

(** The simple annotations of modules, and their annotation objects. *)
Definition simple_annotations (l : list ModuleSnapshotMinidump) : list (bytes * bytes) :=
  concat (map mmod_annotations_simple_map l).
Definition object_annotations (l : list ModuleSnapshotMinidump) : list (bytes * bytes) :=
  concat (map (fun x => string_annotations (mmod_annotation_objects x)) l).

(** The value that a parameter has by the comment of the function. *)
Definition documented_parameter (x : ProcessSnapshotMinidump) (k : bytes) : option bytes :=
  if decide (k = kGuid) then Some (ToString (ci_client_id (crashpad_info_ x)))
  else if decide (k = kListAnnotations /\ all_lines x <> []) then Some (join_lines (all_lines x))
  else map_find k (annotations_simple_map_ x ++ simple_annotations (modules_ x) ++ object_annotations (modules_ x)).

(** No module has a simple annotation for [k] after a module with an annotation object for it. *)
Fixpoint objects_last (k : bytes) (l : list ModuleSnapshotMinidump) : Prop :=
  match l with
  | [] => True
  | x :: l' =>
      (k ∈ map fst (string_annotations (mmod_annotation_objects x)) -> k ∉ map fst (simple_annotations l')) /\ objects_last k l'
  end.

Lemma objects_last_finds k l :
  objects_last k l ->
  map_find k (concat (map module_annotations l)) = map_find k (simple_annotations l ++ object_annotations l).
Proof.
  induction l as [|x l IH]; [done|]. intros [Hx Hl]. unfold simple_annotations, object_annotations in *. cbn [map concat].
  unfold module_annotations at 1. rewrite !map_find_app, (IH Hl), !map_find_app.
  destruct (map_find k (mmod_annotations_simple_map x)); [done|].
  destruct (map_find k (string_annotations (mmod_annotation_objects x))) as [v|] eqn:E; [|done].
  assert (map_find k (concat (map mmod_annotations_simple_map l)) = None) as ->; [|done].
  apply eq_None_not_Some. rewrite map_find_In. apply Hx, map_find_In. by exists v.
Qed.

(** C19.  The form parameters of a minidump in which no annotation is named
    [_backtrace_internal_guid_override]: [guid] is the client ID, whatever annotations are
    named so; [list_annotations] has the lines of the annotation vectors of the modules, in
    place of any annotation named so, if there are any lines; and every other parameter is
    an annotation, the first that there is for the key among those of the process, the
    simple ones of the modules, and the annotation objects of the modules that are strings,
    provided that no module has a simple annotation for the key after a module with an
    annotation object for it; keys without an annotation are not parameters. *)
Theorem parameters_spec x k :
  map_find kGuidOverride (all_annotations x) = None -> objects_last k (modules_ x) ->
  map_find k (BreakpadHTTPFormParametersFromMinidump x) = documented_parameter x k.
Proof.
  intros Ho Hk. rewrite parameters_any. unfold parameter, documented_parameter. rewrite Ho. cbn [default].
  assert (map_find k (all_annotations x) =
    map_find k (annotations_simple_map_ x ++ simple_annotations (modules_ x) ++ object_annotations (modules_ x))) as Ea.
  { unfold all_annotations. rewrite !(map_find_app _ (annotations_simple_map_ x)), objects_last_finds by done. done. }
  rewrite <-Ea. destruct (decide (k = kGuidOverride)) as [->|]; [|done].
  rewrite !decide_False; [done| |done]. by intros [? _].
Qed.


(** ** An example *)

(** Two modules with the key [a], and a process with an annotation named [guid]. *)
Definition example_annotated_module (simple : string_map bytes) (objects : list AnnotationSnapshot) (lines : list bytes)
    : ModuleSnapshotMinidump :=
  MkModuleMinidump [] lines simple objects InitializeToZero [] [] [] 0.
Definition example_annotated : ProcessSnapshotMinidump :=
  MkProcessMinidump 0 [] ∅
    [example_annotated_module [(str "a", str "1")] [MkAnnotationSnapshot (str "b") kString (str "2")] [str "x"];
     example_annotated_module [] [MkAnnotationSnapshot (str "a") kString (str "3")] [str "y"]]
    [] ∅ [] [] [] zero_crashpad_info None None kCPUArchitectureUnknown [(kGuid, str "z")] [] 0 0 0 0.

Lemma parameters_spec_witness :
  map_find (str "a") (BreakpadHTTPFormParametersFromMinidump example_annotated) = Some (str "1") /\
  map_find kGuid (BreakpadHTTPFormParametersFromMinidump example_annotated) = Some (ToString InitializeToZero).
Proof.
  assert (forall k, bool_decide (k ∉ [str "b"; str "c"]) = true -> objects_last k (modules_ example_annotated)) as Hk.
  { intros k Hk%bool_decide_eq_true. cbn. repeat split; set_solver. }
  split.
  - rewrite (parameters_spec example_annotated (str "a")); [reflexivity|reflexivity|by apply Hk].
  - rewrite (parameters_spec example_annotated kGuid); [reflexivity|reflexivity|by apply Hk].
Defined.
