(* ===== verification/UploadThread.v ===== *)
(** * Uploading crash reports (handler/crash_report_upload_thread.cc)

    The functions of [CrashReportUploadThread], for systems other than iOS, on the
    database of CrashReportDatabase.v.  What is sent is recorded: a [Thread] has the
    [Request]s that the transport was given.  Whether the transport can be created and
    what it answers, whether the thread is to stop, the random numbers of the boundaries
    and the compression of request bodies are parameters.

    A report file is read as a whole where the code reads it through its [FileReader]:
    once for the snapshot and once for the body of the request.  The work is done by a
    [WorkerThread], which calls [ProcessPendingReports] from time to time. *)

From S2P Require Import Prelude.
From S2P Require Import Structs.
From S2P Require Import FileIO.
From S2P Require Import Uuid.
From S2P Require Import MinidumpObjects.
From S2P Require Import HttpMultipart.
From S2P Require Import MinidumpReaders.
From S2P Require Import ProcessSnapshot.
From S2P Require Import UploadParameters.
From S2P Require Import FileSystem.
From S2P Require Import Settings.
From S2P Require Import CrashReportDatabase.
From S2P Require Import DatabaseLogic.
From S2P Require Import DatabaseConcurrency.
From S2P Require Import DatabaseRefinement.
#[local] Open Scope crashpad_scope.

Module CrashReportUploadThread.

(** ** Data *)

Record Options := MkOptions {
  identify_client_via_url : bool;
  rate_limit : bool;
  upload_gzip : bool;
  watch_pending_reports : bool
}.
Inductive UploadResult := kSuccess | kPermanentFailure | kRetry.

(** What [HTTPTransport] is given. *)
Record Request := MkRequest {
  req_method : bytes;
  req_url : bytes;
  req_headers : string_map bytes;
  req_timeout : Z;
  req_body : bytes
}.

(** A [CrashReportUploadThread]; [requests] are those executed so far, and [asked] is
    how often [is_running] has been called. *)
Record Thread := MkThread {
  options_ : Options;
  url_ : bytes;
  known_pending_report_uuids_ : list UUID;
  thread_database : Database;
  requests : list Request;
  asked : nat
}.
Definition with_database (t : Thread) (db : Database) : Thread :=
  MkThread (options_ t) (url_ t) (known_pending_report_uuids_ t) db (requests t) (asked t).
Definition with_request (t : Thread) (r : Request) : Thread :=
  MkThread (options_ t) (url_ t) (known_pending_report_uuids_ t) (thread_database t) (requests t ++ [r]) (asked t).
Definition with_known (t : Thread) (l : list UUID) : Thread :=
  MkThread (options_ t) (url_ t) l (thread_database t) (requests t) (asked t).
Definition with_asked (t : Thread) : Thread :=
  MkThread (options_ t) (url_ t) (known_pending_report_uuids_ t) (thread_database t) (requests t) (S (asked t)).

Definition kMinidumpKey : bytes := str "upload_file_minidump".
Definition kUploadReportTimeoutSeconds : Z := 60.
Definition kUploadAttemptIntervalSeconds : Z := 60 * 60.
Definition kBackwardsClockTolerance : Z := 60 * 60 * 24.

(** [ReportPending], without the signal to the worker thread. *)
Definition ReportPending (t : Thread) (report_uuid : UUID) : Thread :=
  with_known t (known_pending_report_uuids_ t ++ [report_uuid]).

Section Operations.
  Context `{FilePath}.
  Context (UTF16ToUTF8 : list Z -> bool * bytes).
  (** [GzipHTTPBodyStream], [base::RandInt], [HTTPTransport] and [thread_.is_running()]. *)
  Context (gzip : bytes -> bytes).
  Context (rand : nat -> nat -> nat).
  Context (available : bool).
  Context (transport : list Request -> Request -> option bytes).
  Context (running : nat -> bool).

(** ** The request *)

(** [kURLParameterMappings]. *)
Definition kURLParameterMappings : list (bytes * bytes) :=
  [(str "prod", str "product"); (str "ver", str "version"); (str "guid", str "guid")].
Definition append_parameter (parameters : string_map bytes) (url : bytes) (mapping : bytes * bytes) : bytes :=
  match map_find mapping.1 parameters with
  | None => url
  | Some value =>
      url ++ (if bool_decide (63 ∈ url) then [38] else [63]) ++ mapping.2 ++ [61] ++ c_str (URLEncode value)
  end.
Definition request_url (t : Thread) (parameters : string_map bytes) : bytes :=
  if identify_client_via_url (options_ t)
  then fold_left (append_parameter parameters) kURLParameterMappings (url_ t) else url_ t.

(** The parameters as form data. *)
Definition set_parameters (parameters : string_map bytes) (b : HTTPMultipartBuilder nat) : HTTPMultipartBuilder nat :=
  fold_left (fun b kv => if decide (kv.1 = kMinidumpKey) then b else SetFormData b kv.1 kv.2) parameters b.

(** [GetAttachments]. *)
Definition GetAttachments (upload : UploadReport) : string_map nat :=
  fold_left (fun m a => map_insert a.1 a.2 m) (attachment_readers_ upload) [].
Fixpoint set_attachments (l : string_map nat) (b : HTTPMultipartBuilder nat) : option (HTTPMultipartBuilder nat) :=
  match l with
  | [] => Some b
  | (name, fd) :: l' => b' ← SetFileAttachment b name name fd kOctetStream; set_attachments l' b'
  end.

Definition multipart_builder (t : Thread) (upload : UploadReport) (fd : nat) (parameters : string_map bytes)
    : option (HTTPMultipartBuilder nat) :=
  let b := SetGzipEnabled (new_builder (rand (length (requests t)))) (upload_gzip (options_ t)) in
  b' ← set_attachments (GetAttachments upload) (set_parameters parameters b);
  SetFileAttachment b' kMinidumpKey (ToString (uuid (up_report upload)) ++ str ".dmp") fd kOctetStream.

(** The files are read when the request is executed. *)
Fixpoint load_attachments (l : string_map (FileAttachment nat)) : Prog (option (string_map (FileAttachment StringFile.t))) :=
  match l with
  | [] => Return (Some [])
  | (key, a) :: l' =>
      let* d := LoggingReadToEOF (attachment_reader a) in
      match d with
      | None => Return None
      | Some d =>
          let* r := load_attachments l' in
          Return (r' ← r; Some ((key, MkFileAttachment (filename a) (content_type a) (StringFile.SetString d)) :: r'))
      end
  end.

Definition request_of (t : Thread) (parameters : string_map bytes) (b : HTTPMultipartBuilder StringFile.t) : Request :=
  let body := body_left (GetBodyStream b) in
  MkRequest (str "POST") (request_url t parameters)
    (fold_left (fun h kv => map_insert kv.1 kv.2 h) (PopulateContentHeaders b []) [])
    kUploadReportTimeoutSeconds (if gzip_enabled_ b then gzip body else body).

(** [UploadReport]: the result, the response body, and the thread then. *)
Definition snapshot_parameters (d : option bytes) : Prog (string_map bytes) :=
  match d with
  | None => Return []
  | Some d => match ProcessSnapshot.Initialize UTF16ToUTF8 (StringFile.SetString d) with
              | Done (minidump_process_snapshot, _) =>
                  Return (BreakpadHTTPFormParametersFromMinidump minidump_process_snapshot)
              | Failed => Return []
              | Undefined => Stop
              end
  end.
Definition execute (t : Thread) (parameters : string_map bytes) (b : HTTPMultipartBuilder nat)
    : Prog (UploadResult * bytes * Thread) :=
  let* loaded := load_attachments (file_attachments_ b) in
  match loaded with
  | None => Return (kRetry, [], t)
  | Some files =>
      let request := request_of t parameters (MkBuilder (boundary_ b) (form_data_ b) files (gzip_enabled_ b)) in
      match transport (requests t) request with
      | None => Return (kRetry, [], with_request t request)
      | Some response_body => Return (kSuccess, response_body, with_request t request)
      end
  end.
Definition UploadReport (t : Thread) (report : UploadReport) : Prog (UploadResult * bytes * Thread) :=
  match reader_ report with
  | None => Stop
  | Some reader =>
      let* start_offset := call (sys_lseek_cur reader) in
      match start_offset with
      | None => Return (kPermanentFailure, [], t)
      | Some start_offset =>
          let* d := LoggingReadToEOF reader in
          let* parameters := snapshot_parameters d in
          let* ok := call (sys_lseek_set reader (Z.to_nat start_offset)) in
          if negb ok then Return (kPermanentFailure, [], t)
          else
            match multipart_builder t report reader parameters with
            | None => Stop
            | Some b => if negb available then Return (kPermanentFailure, [], t) else execute t parameters b
            end
      end
  end.

(** ** Processing reports *)

(** The database object, and [GetSettings]. *)
Definition GetSettings (t : Thread) : Prog Thread :=
  let* db := SettingsInternal (thread_database t) in Return (with_database t db).

Definition ShouldRateLimitUpload (t : Thread) (report : Report) : Prog (bool * Thread) :=
  if upload_explicitly_requested report || negb (rate_limit (options_ t)) then Return (false, t)
  else
    let* t := GetSettings t in
    let* last := Settings.GetLastUploadAttemptTime (settings_ (thread_database t)) in
    match last with
    | None => Return (false, t)
    | Some last_upload_attempt_time =>
        let* now := call sys_time in
        let throttle :=
          if last_upload_attempt_time <=? now
          then now - last_upload_attempt_time <? kUploadAttemptIntervalSeconds
          else last_upload_attempt_time - now <? kBackwardsClockTolerance in
        if throttle then
          let* _ := SkipReportUpload (thread_database t) (uuid report) in Return (true, t)
        else Return (false, t)
    end.

(** Whether the settings do not allow an upload. *)
Definition uploads_disabled (t : Thread) (report : Report) : Prog bool :=
  if upload_explicitly_requested report then Return false
  else
    let* uploads_enabled := Settings.GetUploadsEnabled (settings_ (thread_database t)) in
    Return (match uploads_enabled with Some b => negb b | None => true end).

(** What is done after the report has been checked out. *)
Definition finish_upload (t : Thread) (report : Report) (upload : CrashReportDatabase.UploadReport) : Prog Thread :=
  let* '(result, response_body, t) := UploadReport t upload in
  match result with
  | kSuccess =>
      let* r := RecordUploadComplete (thread_database t) upload response_body in Return (with_database t r.2)
  | kPermanentFailure | kRetry =>
      let* db := DestroyUploadReport (thread_database t) upload in
      let t := with_database t db in
      let* _ := SkipReportUpload (thread_database t) (uuid report) in Return t
  end.

Definition ProcessPendingReport (t : Thread) (report : Report) : Prog Thread :=
  let* t := GetSettings t in
  let* disabled := uploads_disabled t report in
  if (disabled : bool) then
    let* _ := SkipReportUpload (thread_database t) (uuid report) in Return t
  else
    let* '(limited, t) := ShouldRateLimitUpload t report in
    if (limited : bool) then Return t
    else
      let* '(status, db) := GetReportForUploading (thread_database t) (uuid report) in
      let t := with_database t db in
      match status with
      | inr upload => finish_upload t report upload
      | inl kNoError | inl kCannotRequestUpload => Stop
      | inl kBusyError | inl kReportNotFound => Return t
      | inl kFileSystemError | inl kDatabaseError =>
          let* _ := SkipReportUpload (thread_database t) (uuid report) in Return t
      end.

(** The loops of [ProcessPendingReports]; [false] if the thread has been stopped. *)
Fixpoint process_known (t : Thread) (l : list UUID) : Prog (bool * Thread) :=
  match l with
  | [] => Return (true, t)
  | report_uuid :: l' =>
      let* r := LookUpCrashReport (thread_database t) report_uuid new_report in
      match r with
      | inl _ => process_known t l'
      | inr report =>
          let* t := ProcessPendingReport t report in
          if running (asked t) then process_known (with_asked t) l' else Return (false, with_asked t)
      end
  end.
Fixpoint process_pending (t : Thread) (known_report_uuids : list UUID) (reports : list Report) : Prog Thread :=
  match reports with
  | [] => Return t
  | report :: reports' =>
      if bool_decide (uuid report ∈ known_report_uuids) then process_pending t known_report_uuids reports'
      else
        let* t := ProcessPendingReport t report in
        if running (asked t) then process_pending (with_asked t) known_report_uuids reports'
        else Return (with_asked t)
  end.

Definition ProcessPendingReports (t : Thread) : Prog Thread :=
  let known_report_uuids := known_pending_report_uuids_ t in
  let* '(go_on, t) := process_known (with_known t []) known_report_uuids in
  if negb go_on then Return t
  else if negb (watch_pending_reports (options_ t)) then Return t
  else
    let* reports := GetPendingReports (thread_database t) in
    match reports with
    | inl _ => Return t
    | inr reports => process_pending t known_report_uuids reports
    end.
End Operations.

(** ** The multipart message *)

Lemma attach_octet_stream (b : HTTPMultipartBuilder nat) key name fd :
  exists b', SetFileAttachment b key name fd kOctetStream = Some b' /\
    boundary_ b' = boundary_ b /\ gzip_enabled_ b' = gzip_enabled_ b /\
    (forall k, map_find k (form_data_ b') = if decide (k = name) then None else map_find k (form_data_ b)) /\
    (forall k, map_find k (file_attachments_ b') =
       if decide (k = key) then Some (MkFileAttachment (EncodeMIMEField name) kOctetStream fd)
       else if decide (k = name) then None else map_find k (file_attachments_ b)) /\
    forall P : bytes * FileAttachment nat -> Prop, Forall P (file_attachments_ b) ->
      P (key, MkFileAttachment (EncodeMIMEField name) kOctetStream fd) -> Forall P (file_attachments_ b').
Proof.
  eexists. split; [reflexivity|]. cbn [boundary_ gzip_enabled_ form_data_ file_attachments_ EraseKey]. split_and!; [done|done|..].
  - intros k. apply map_find_erase.
  - intros k. by rewrite map_find_insert, map_find_erase.
  - intros P HP Hn. by apply Forall_map_insert; [apply Forall_map_erase|].
Qed.

Lemma set_parameters_finds parameters b :
  file_attachments_ b = [] ->
  let b' := set_parameters parameters b in
  boundary_ b' = boundary_ b /\ gzip_enabled_ b' = gzip_enabled_ b /\ file_attachments_ b' = [] /\
  forall k, k <> kMinidumpKey ->
    map_find k (form_data_ b') = match map_find k (reverse parameters) with Some v => Some v | None => map_find k (form_data_ b) end.
Proof.
  unfold set_parameters. revert b. induction parameters as [|[key v] l IH]; intros b Hb; [done|]. cbn [fold_left].
  set (b1 := if decide _ then b else _).
  assert (boundary_ b1 = boundary_ b /\ gzip_enabled_ b1 = gzip_enabled_ b /\ file_attachments_ b1 = [] /\
    forall k, k <> kMinidumpKey ->
      map_find k (form_data_ b1) = if decide (k = key) then Some v else map_find k (form_data_ b)) as (E1 & E2 & E3 & E4).
  { unfold b1. cbn [fst snd]. destruct (decide (key = kMinidumpKey)) as [->|].
    - split_and!; [done..|]. intros k Hk. by rewrite decide_False.
    - split_and!; [done|done|cbn; by rewrite Hb|]. intros k _. by apply set_form_data_finds. }
  destruct (IH b1 E3) as (F1 & F2 & F3 & F4). split_and!; [congruence|congruence|done|]. intros k Hk.
  rewrite F4, E4, reverse_cons, map_find_app by done. cbn [map_find]. by destruct (map_find k (reverse l)), (decide (k = key)).
Qed.

Lemma set_attachments_finds l b :
  exists b', set_attachments l b = Some b' /\ boundary_ b' = boundary_ b /\ gzip_enabled_ b' = gzip_enabled_ b /\
    (forall k, is_Some (map_find k (file_attachments_ b)) -> is_Some (map_find k (file_attachments_ b'))) /\
    (forall k, map_find k (file_attachments_ b') = None -> map_find k (form_data_ b') = map_find k (form_data_ b)) /\
    forall P : nat -> Prop, Forall (fun p => P (attachment_reader p.2)) (file_attachments_ b) ->
      Forall (fun p => P p.2) l -> Forall (fun p => P (attachment_reader p.2)) (file_attachments_ b').
Proof.
  revert b. induction l as [|[name fd] l IH]; intros b; [by exists b|]. cbn [set_attachments].
  destruct (attach_octet_stream b name name fd) as (b1 & -> & E1 & E2 & E3 & E4 & E5). cbn [mbind option_bind].
  destruct (IH b1) as (b2 & -> & F1 & F2 & F3 & F4 & F5). exists b2. split_and!; [done|congruence|congruence|..].
  - intros k Hk. apply F3. rewrite E4. by destruct (decide (k = name)).
  - intros k Hk. rewrite F4, E3 by done. destruct (decide (k = name)) as [->|]; [|done].
    exfalso. destruct (F3 name) as [a Ha]; [rewrite E4, decide_True by done; by eexists|]. congruence.
  - intros P Hb [Hp Hl]%Forall_cons. apply F5; [|done]. by apply E5.
Qed.

(** The message has the report, the parameters, and the attachments. *)
Record message_of (rand : nat -> nat -> nat) {R : Type} (options : Options) (n : nat) (u : UUID) (parameters : string_map bytes)
    (reader : R) (b : HTTPMultipartBuilder R) : Prop := {
  mo_boundary : boundary_ b = GenerateBoundaryString (rand n);
  mo_gzip : gzip_enabled_ b = upload_gzip options;
  mo_minidump : map_find kMinidumpKey (file_attachments_ b) =
    Some (MkFileAttachment (EncodeMIMEField (ToString u ++ str ".dmp")) kOctetStream reader);
  mo_parameters : forall k, map_find k (file_attachments_ b) = None -> k <> ToString u ++ str ".dmp" ->
    map_find k (form_data_ b) = map_find k (reverse parameters)
}.

Lemma attachments_are l P : Forall (fun a => P a.2) (attachment_readers_ l) -> Forall (fun p => P p.2) (GetAttachments l).
Proof.
  unfold GetAttachments. intros Ha. assert (Forall (fun p : bytes * nat => P p.2) (@nil (bytes * nat))) as Hn by constructor.
  revert Hn. generalize (@nil (bytes * nat)). induction Ha as [|a l' Hp _ IH]; intros m Hm; cbn [fold_left]; [done|].
  apply IH. by apply Forall_map_insert.
Qed.

Lemma multipart_builder_ok rand t upload fd parameters u :
  uuid (up_report upload) = u -> Forall (fun a => a.2 <> fd) (attachment_readers_ upload) ->
  exists b, multipart_builder rand t upload fd parameters = Some b /\
    message_of rand (options_ t) (length (requests t)) u parameters fd b /\
    Forall (fun p => p.1 = kMinidumpKey \/ attachment_reader p.2 <> fd) (file_attachments_ b) /\
    Forall (fun p => attachment_reader p.2 = fd \/ attachment_reader p.2 ∈ (attachment_readers_ upload).*2) (file_attachments_ b).
Proof.
  intros <- Hfd. unfold multipart_builder. set (b0 := SetGzipEnabled _ _).
  destruct (set_parameters_finds parameters b0) as (P1 & P2 & P3 & P4); [done|].
  destruct (set_attachments_finds (GetAttachments upload) (set_parameters parameters b0)) as (b1 & -> & A1 & A2 & _ & A4 & A5).
  cbn [mbind option_bind]. destruct (attach_octet_stream b1 kMinidumpKey (ToString (uuid (up_report upload)) ++ str ".dmp") fd)
    as (b2 & -> & B1 & B2 & B3 & B4 & B5).
  exists b2. split; [done|]. split_and!.
  - split; [by rewrite B1, A1, P1|by rewrite B2, A2, P2|by rewrite B4, decide_True|]. intros k Hk Hne. rewrite B4 in Hk.
    destruct (decide (k = kMinidumpKey)) as [|Hkey]; [done|]. rewrite decide_False in Hk by done.
    rewrite B3, decide_False, A4, P4 by done. by destruct (map_find k (reverse parameters)).
  - apply B5; [|by left]. eapply Forall_impl; [apply (A5 (fun r => r <> fd)); [by rewrite P3|]|].
    + by apply (attachments_are upload (fun r => r <> fd)).
    + intros p Hp. by right.
  - apply B5; [|by left]. eapply Forall_impl; [apply (A5 (fun r => r ∈ (attachment_readers_ upload).*2)); [by rewrite P3|]|].
    + apply (attachments_are upload (fun r => r ∈ (attachment_readers_ upload).*2)). apply Forall_forall. intros x Hx. by apply list_elem_of_fmap_2.
    + intros p Hp. by right.
Qed.

(** ** What an upload does *)

(** The parameters in the contents of a report; nothing is known of what the reader does
    with contents for which it is undefined. *)
Definition parameters_of (UTF16ToUTF8 : list Z -> bool * bytes) (contents : bytes) : string_map bytes :=
  match ProcessSnapshot.Initialize UTF16ToUTF8 (StringFile.SetString contents) with
  | Done (x, _) => BreakpadHTTPFormParametersFromMinidump x
  | Failed | Undefined => []
  end.
Definition readable (UTF16ToUTF8 : list Z -> bool * bytes) (x : Stored) : Prop :=
  ProcessSnapshot.Initialize UTF16ToUTF8 (StringFile.SetString (s_contents x)) <> Undefined.

Section Correctness.
  Context `{FilePathLaws}.
  (** What is known of the clock, and the attachments. *)
  Context {clk : Clock} {att : Attached}.
  Context (UTF16ToUTF8 : list Z -> bool * bytes).
  Context (gzip : bytes -> bytes).
  Context (rand : nat -> nat -> nat).
  Context (available : bool).
  Context (transport : list Request -> Request -> option bytes).
  Context (running : nat -> bool).
  Variable base : bytes.
  Hypothesis base_ok : is_directory_path base.

(** The request uploads the report [u], which is [x]. *)
Definition carries (t : Thread) (u : UUID) (x : Stored) (request : Request) : Prop :=
  exists b, message_of rand (options_ t) (length (requests t)) u (parameters_of UTF16ToUTF8 (s_contents x))
      (StringFile.SetString (s_contents x)) b /\
    request = request_of gzip t (parameters_of UTF16ToUTF8 (s_contents x)) b.

Section Reading.
  Context {sr : option Settings.settings_record}.
  Variables (F : gmap Loc (list Z)) (u : UUID) (d : bytes) (fd : nat).
  Hypothesis Hd : F !! LFile Dmp (false, ToString u) = Some d.

(** The loaded files have the keys they had. *)
Definition same_keys {V W} (l : string_map V) (r : option (string_map W)) : Prop :=
  match r with Some l' => map fst l' = map fst l | None => True end.

Lemma opened_readable w p pos :
  holds base sr F w -> opened w fd p pos -> FileSystem.readable w fd.
Proof.
  intros (m & [Hw _] & _) (i & Hf & Hp). destruct (wok_inodes w Hw p i Hp) as [n Hn]. unfold FileSystem.readable, handle_file.
  rewrite Hf. cbn. rewrite Hn. by eexists.
Qed.

(** The files are loaded, if they can be read. *)
Definition all_readable {V : Type} (l : string_map (FileAttachment nat)) (w : World) (r : option V) : Prop :=
  Forall (FileSystem.readable w) (map (fun p => attachment_reader p.2) l) -> r <> None.

Lemma wp_load_rest l w (Q : option (string_map (FileAttachment StringFile.t)) -> World -> Prop) :
  holds base sr F w -> (forall r w', holds base sr F w' -> same_keys l r -> all_readable l w r -> Q r w') -> wp works (load_attachments l) Q w.
Proof.
  revert w Q. induction l as [|[key a] l IH]; intros w Q Hw HQ; cbn [load_attachments]; [by apply HQ|].
  destruct Hw as (m & Hfs & Hm). apply wp_bind. destruct (decide (is_Some (handle_file w (attachment_reader a)))) as [Hr|Hr].
  - eapply wp_read_readable; [exact Hfs|exact Hr|]. intros d' w1 Hfs1 _ _ Hkeep. apply wp_bind, IH; [by exists m|].
    intros r w2 Hw2 Hk Hall.
    assert (all_readable ((key, a) :: l) w r) as Hall' by (intros [_ Hl]%Forall_cons; apply Hall; eapply Forall_impl; [exact Hl|exact Hkeep]).
    destruct r as [l'|]; cbn [wp]; apply HQ; try done. cbn in Hk |- *. by rewrite Hk.
  - eapply wp_read_any; [exact Hfs|]. assert (forall {V} (r : option V), all_readable ((key, a) :: l) w r) as Hno by (by intros V r [? _]%Forall_cons).
    intros [d'|] w1 Hfs1 _ _; [|cbn [wp]; apply HQ; [by exists m|done|apply Hno]].
    apply wp_bind, IH; [by exists m|]. intros [l'|] w2 Hw2 Hk Hall; cbn [wp]; apply HQ; try done; try apply Hno. cbn in Hk |- *. by rewrite Hk.
Qed.

(** The report is read from its handle, whatever the other files are. *)
Lemma wp_load l a w (Q : option (string_map (FileAttachment StringFile.t)) -> World -> Prop) :
  holds base sr F w -> opened w fd (path_loc base (LFile Dmp (false, ToString u))) 0 ->
  map_find kMinidumpKey l = Some a -> attachment_reader a = fd ->
  Forall (fun p => p.1 = kMinidumpKey \/ attachment_reader p.2 <> fd) l ->
  (forall r w', holds base sr F w' -> same_keys l r -> all_readable l w r ->
     (forall l', r = Some l' ->
        map_find kMinidumpKey l' = Some (MkFileAttachment (filename a) (content_type a) (StringFile.SetString d))) -> Q r w') ->
  wp works (load_attachments l) Q w.
Proof.
  revert w Q. induction l as [|[key b] l IH]; intros w Q Hw Ho Ha Hr Hl HQ; [done|]. apply Forall_cons in Hl as [Hb Hl].
  cbn [load_attachments map_find fst snd] in *. apply wp_bind. destruct (decide (kMinidumpKey = key)) as [<-|Hne].
  - injection Ha as ->. rewrite Hr.
    apply (wp_frame works (fun w' => Forall (FileSystem.readable w) (map (fun p => attachment_reader p.2) l) ->
      Forall (FileSystem.readable w') (map (fun p => attachment_reader p.2) l))).
    { destruct (decide (Forall (fun x => is_Some (handle_file w x)) (map (fun p => attachment_reader p.2) l))) as [Hall|Hall].
      - eapply wp_mono; [by apply readable_read|]. by intros ? ? ?.
      - destruct Hw as (m & Hfs & _). eapply wp_read_any; [exact Hfs|]. by intros ? ? _ _ _ ?. }
    eapply (wp_loc_read base F w (LFile Dmp (false, ToString u)) Hw (to_string_key false u)); [exact Ho|exact Hd|].
    cbn zeta. intros w1 Hw1 _ Hkeep. rewrite drop_0. apply wp_bind. eapply wp_load_rest; [exact Hw1|].
    intros r w2 Hw2 Hk Hall.
    assert (all_readable ((kMinidumpKey, a) :: l) w r) as Hall' by (intros [_ Hl']%Forall_cons; apply Hall; by apply Hkeep).
    destruct r as [l'|]; cbn [wp]; apply HQ; try done; [cbn in Hk |- *; by rewrite Hk|].
    intros l'' [= <-]. cbn [map_find]. by rewrite decide_True.
  - destruct Hb as [->|Hb]; [done|]. destruct Hw as (m & Hfs & Hm).
    destruct (decide (is_Some (handle_file w (attachment_reader b)))) as [Hrd|Hrd].
    + eapply wp_read_readable; [exact Hfs|exact Hrd|]. intros d' w1 Hfs1 En Eo Hkeep.
      apply wp_bind, IH; [by exists m| |done|done|done|].
      * eapply opened_frame; [exact En| |exact Ho]. apply Eo. by intros ->.
      * intros r w2 Hw2 Hk Hall Hf.
        assert (all_readable ((key, b) :: l) w r) as Hall' by (intros [_ Hl']%Forall_cons; apply Hall; eapply Forall_impl; [exact Hl'|exact Hkeep]).
        destruct r as [l'|]; cbn [wp]; apply HQ; try done; [cbn in Hk |- *; by rewrite Hk|].
        intros l'' [= <-]. cbn [map_find]. rewrite decide_False by done. by apply Hf.
    + eapply wp_read_any; [exact Hfs|]. assert (forall {V} (r : option V), all_readable ((key, b) :: l) w r) as Hno by (by intros V r [? _]%Forall_cons).
      intros [d'|] w1 Hfs1 En Eo; [|cbn [wp]; apply HQ; [by exists m|done|apply Hno|done]].
      apply wp_bind, IH; [by exists m| |done|done|done|].
      * eapply opened_frame; [exact En| |exact Ho]. apply Eo. by intros ->.
      * intros [l'|] w2 Hw2 Hk _ Hf; cbn [wp]; apply HQ; try done; try apply Hno; [cbn in Hk |- *; by rewrite Hk|].
        intros l'' [= <-]. cbn [map_find]. rewrite decide_False by done. by apply Hf.
Qed.

(** Nothing can be sent: there is no transport, or an attachment cannot be read. *)
Definition cannot_send : Prop := available = false \/ ~ plain_attachments base u.
(** What has been sent when an upload returns. *)
Definition upload_outcome (t : Thread) (x : Stored) (r : UploadResult * bytes * Thread) : Prop :=
  match r.1.1 with
  | kSuccess => exists request, carries t u x request /\ transport (requests t) request = Some r.1.2 /\ r.2 = with_request t request
  | _ => cannot_send /\ r.2 = t \/
         exists request, carries t u x request /\ transport (requests t) request = None /\ r.2 = with_request t request
  end.

Lemma loaded_message options n parameters b files :
  message_of rand options n u parameters fd b -> same_keys (file_attachments_ b) (Some files) ->
  map_find kMinidumpKey files =
    Some (MkFileAttachment (EncodeMIMEField (ToString u ++ str ".dmp")) kOctetStream (StringFile.SetString d)) ->
  message_of rand options n u parameters (StringFile.SetString d) (MkBuilder (boundary_ b) (form_data_ b) files (gzip_enabled_ b)).
Proof.
  intros [Hb Hg _ Hp] Hk Hm. split; [done|done|done|]. intros k Hn Hne. cbn in Hn |- *. apply Hp; [|done]. apply eq_None_not_Some.
  rewrite map_find_In. intros Hin. cbn in Hk. rewrite <-Hk in Hin. apply map_find_In in Hin as [a Ha]. congruence.
Qed.

Lemma wp_upload_report t x upload w (Q : UploadResult * bytes * Thread -> World -> Prop) :
  s_contents x = d -> readable UTF16ToUTF8 x -> uuid (up_report upload) = u -> reader_ upload = Some fd ->
  opened w fd (path_loc base (LFile Dmp (false, ToString u))) 0 -> Forall (fun a => a.2 <> fd) (attachment_readers_ upload) ->
  (plain_attachments base u -> Forall (FileSystem.readable w) (attachment_readers_ upload).*2) ->
  holds base sr F w ->
  (forall r w', upload_outcome t x r -> options_ r.2 = options_ t -> holds base sr F w' -> Q r w') ->
  wp works (UploadReport UTF16ToUTF8 gzip rand available transport t upload) Q w.
Proof.
  intros Ex Hr Hu Hfd Ho Hne Hread Hw HQ. unfold UploadReport. rewrite Hfd. pose proof Hw as (m & Hfs & Hm).
  apply wp_bind. eapply wp_lseek_cur; [exact Hfs|exact Ho|]. apply wp_bind.
  set (others := (attachment_readers_ upload).*2) in *.
  apply (wp_frame works (fun w' => plain_attachments base u -> Forall (FileSystem.readable w') others)).
  { destruct (decide (Forall (fun x => is_Some (handle_file w x)) others)) as [Hall|Hall].
    - eapply wp_mono; [by apply readable_read|]. by intros ? ? ? _.
    - eapply wp_read_any; [exact Hfs|]. intros ? ? _ _ _ Hp. by destruct (Hall (Hread Hp)). }
  eapply (wp_loc_read base F w (LFile Dmp (false, ToString u)) Hw (to_string_key false u)); [exact Ho|exact Hd|].
  cbn zeta. intros w1 Hw1 Ho1 Hread1. rewrite drop_0 in *. apply wp_bind.
  assert (snapshot_parameters UTF16ToUTF8 (Some d) = Return (parameters_of UTF16ToUTF8 d)) as ->.
  { unfold snapshot_parameters, parameters_of. unfold readable in Hr. rewrite Ex in Hr. by destruct (ProcessSnapshot.Initialize _ _) as [|[]|]. }
  cbn [wp]. destruct Hw1 as (m1 & Hfs1 & Hm1). apply wp_bind.
  apply (wp_frame works (fun w' => plain_attachments base u -> Forall (FileSystem.readable w') others)).
  { destruct (decide (Forall (fun x => is_Some (handle_file w1 x)) others)) as [Hall|Hall].
    - eapply wp_mono; [by apply readable_lseek|]. by intros ? ? ? _.
    - eapply wp_lseek_set; [exact Hfs1|exact Ho1|]. intros ? _ _ Hp. by destruct (Hall (Hread1 Hp)). }
  eapply wp_lseek_set; [exact Hfs1|exact Ho1|]. intros w2 Hfs2 Ho2 Hread2. cbn [negb].
  change (Z.to_nat (Z.of_nat 0)) with 0%nat in Ho2. assert (holds base sr F w2) as Hw2 by (by exists m1).
  destruct (multipart_builder_ok rand t upload fd (parameters_of UTF16ToUTF8 d) u Hu Hne) as (b & -> & Hmsg & Hfiles & Hreaders).
  destruct available eqn:Eav; cbn [negb]; [|cbn [wp]; apply HQ; [left; split; [by left|done]|done|done]].
  unfold execute. apply wp_bind. eapply wp_load; [exact Hw2|exact Ho2|apply Hmsg|done|exact Hfiles|].
  intros [files|] w3 Hw3 Hk Hall Hf.
  2: { cbn [wp]. apply HQ; [left; split; [right|done]|done|done]. intros Hp. apply Hall; [|done]. apply Forall_map.
       specialize (Hread2 Hp). rewrite Forall_forall in Hread2. eapply Forall_impl; [exact Hreaders|].
       intros y [->|Hy]; [by eapply opened_readable|by apply Hread2]. }
  specialize (Hf files eq_refl). cbn [filename content_type] in Hf.
  pose proof (loaded_message _ _ _ b files Hmsg Hk Hf) as Hcar. set (request := request_of _ _ _ _).
  assert (carries t u x request) as Hc by (unfold carries; rewrite Ex; eauto).
  destruct (transport (requests t) request) as [response|] eqn:Et; cbn [wp]; apply HQ; cbn; try done; [|right]; eauto.
Qed.
End Reading.

(** ** What processing a report does *)

(** What there is: the settings and the reports of the database, and the requests that
    have been sent. *)
Record Status := MkStatus {
  st_settings : Settings.settings_record;
  st_reports : gmap UUID Stored;
  st_requests : list Request
}.

(** What has been done with a report; an attempt has the time at which it was checked
    that the last one is not too recent, if it was, and the time that was noted for it. *)
Inductive Event := Untouched | Skipped | Attempted (checked : option Z) (noted_at : Z).

(** The settings allow the upload of a report, or it has been requested. *)
Definition consented (r : Settings.settings_record) (x : Stored) : bool := s_requested x || Settings.rec_uploads_enabled r.
(** The last attempt was too recent, at the time [now]. *)
Definition too_recent (last now : Z) : bool :=
  if last <=? now then now - last <? kUploadAttemptIntervalSeconds else last - now <? kBackwardsClockTolerance.
(** There is no limit for requested reports, and not without the option. *)
Definition unlimited (options : Options) (x : Stored) : bool := s_requested x || negb (rate_limit options).
(** By a time that the clock shows, the upload has to wait, or may be attempted. *)
Definition must_wait (options : Options) (r : Settings.settings_record) (x : Stored) : Prop :=
  unlimited options x = false /\ exists now, clock now /\ too_recent (Settings.rec_last_upload r) now = true.
Definition may_attempt (options : Options) (r : Settings.settings_record) (x : Stored) (checked : option Z) : Prop :=
  match checked with
  | None => unlimited options x = true
  | Some now => unlimited options x = false /\ clock now /\ too_recent (Settings.rec_last_upload r) now = false
  end.
Definition note (time : Z) (r : Settings.settings_record) : Settings.settings_record :=
  Settings.MkSettings (Settings.rec_client_id r) (Settings.rec_uploads_enabled r) time.

Definition with_requests (t : Thread) (l : list Request) : Thread :=
  MkThread (options_ t) (url_ t) (known_pending_report_uuids_ t) (thread_database t) l (asked t).

Inductive report_step (t : Thread) : Status -> UUID -> Event -> Status -> Prop :=
  | step_untouched s u :
      (forall x, st_reports s !! u = Some x -> s_completed x = true) -> report_step t s u Untouched s
  | step_skipped s u x :
      st_reports s !! u = Some x -> s_completed x = false ->
      consented (st_settings s) x = false \/ must_wait (options_ t) (st_settings s) x ->
      report_step t s u Skipped
        (MkStatus (st_settings s) (<[u := completed_as x false]> (st_reports s)) (st_requests s))
  | step_uploaded s u x checked time request id :
      st_reports s !! u = Some x -> s_completed x = false ->
      consented (st_settings s) x = true -> may_attempt (options_ t) (st_settings s) x checked -> clock time ->
      carries (with_requests t (st_requests s)) u x request -> transport (st_requests s) request = Some id ->
      report_step t s u (Attempted checked time)
        (MkStatus (note time (st_settings s)) (<[u := attempted x true id time]> (st_reports s)) (st_requests s ++ [request]))
  | step_failed s u x checked time l :
      st_reports s !! u = Some x -> s_completed x = false ->
      consented (st_settings s) x = true -> may_attempt (options_ t) (st_settings s) x checked -> clock time ->
      cannot_send u /\ l = [] \/
        (exists request, carries (with_requests t (st_requests s)) u x request /\
           transport (st_requests s) request = None /\ l = [request]) ->
      report_step t s u (Attempted checked time)
        (MkStatus (note time (st_settings s)) (<[u := completed_as (attempted x false [] time) false]> (st_reports s))
           (st_requests s ++ l)).

(** A thread with the options and the URL of [t0], and this status. *)
Record thread_state (t0 t : Thread) (s : Status) (w : World) : Prop := {
  ts_options : options_ t = options_ t0;
  ts_url : url_ t = url_ t0;
  ts_database : db_ready base (thread_database t);
  ts_requests : requests t = st_requests s;
  ts_state : state base (Some (st_settings s)) (st_reports s) w
}.

(** The reports that may be uploaded can be read, and can be counted. *)
Definition pending_ok (s : Status) : Prop :=
  forall u x, st_reports s !! u = Some x -> s_completed x = false ->
    s_upload_attempts x < 2 ^ 31 - 1 /\ readable UTF16ToUTF8 x.

Definition processed (t0 t : Thread) (s : Status) (u : UUID) (t' : Thread) (w' : World) : Prop :=
  exists e s', report_step t0 s u e s' /\ thread_state t0 t' s' w' /\ asked t' = asked t.

Lemma carries_requests t0 t u x request :
  options_ t = options_ t0 -> url_ t = url_ t0 -> carries t u x request -> carries (with_requests t0 (requests t)) u x request.
Proof.
  intros Eo Eu (b & Hb & ->). exists b. cbn. rewrite <-Eo. split; [done|]. unfold request_of, request_url. cbn. by rewrite Eo, Eu.
Qed.

Lemma wp_get_settings t0 t s w (Q : Thread -> World -> Prop) :
  thread_state t0 t s w ->
  (forall t' w', thread_state t0 t' s w' -> settings_init_ (thread_database t') = true -> asked t' = asked t -> Q t' w') ->
  wp works (GetSettings t) Q w.
Proof.
  intros [Eo Eu Hdb Er (F & Hw & HF)] HQ. unfold GetSettings. apply wp_bind.
  eapply wp_settings_internal; [exact base_ok|exact Hdb|exact Hw|]. intros db' w' Hdb' Hi Hw'. cbn [wp].
  apply HQ; [split; try done; by exists F|done|done].
Qed.

(** Skipping a report that is pending, or is not. *)
Lemma wp_skip_pending t0 t s u w (Q : OperationStatus -> World -> Prop) :
  thread_state t0 t s w -> uuid_wf u ->
  (forall os w', thread_state t0 t
     (match st_reports s !! u with
      | Some x => if s_completed x then s
                  else MkStatus (st_settings s) (<[u := completed_as x false]> (st_reports s)) (st_requests s)
      | None => s
      end) w' -> Q os w') ->
  wp works (SkipReportUpload (thread_database t) u) Q w.
Proof.
  intros [Eo Eu Hdb Er Hs] Hu HQ. eapply wp_skip; [exact base_ok|apply Hdb|exact Hs|done|].
  destruct (st_reports s !! u) as [x|]; [destruct (s_completed x)|]; intros w' Hs'; apply HQ; by split.
Qed.

Section Report.
  Variables (t0 : Thread) (s : Status) (u : UUID) (x : Stored) (report : Report).
  Hypothesis Hu : uuid_wf u.
  Hypothesis Ex : st_reports s !! u = Some x.
  Hypothesis Hr : describes base u x report.
  Hypothesis Hok : pending_ok s.

Lemma report_fields : uuid report = u /\ upload_explicitly_requested report = s_requested x.
Proof. by destruct Hr as (size & _ & ->). Qed.

(** A report that is not pending is left alone. *)
Lemma wp_skip_report t w (Q : OperationStatus -> World -> Prop) :
  thread_state t0 t s w ->
  consented (st_settings s) x = false \/ must_wait (options_ t0) (st_settings s) x ->
  (forall os w', processed t0 t s u t w' -> Q os w') ->
  wp works (SkipReportUpload (thread_database t) (uuid report)) Q w.
Proof.
  intros Ht Hwhy HQ. rewrite (proj1 report_fields). eapply wp_skip_pending; [exact Ht|done|]. rewrite Ex. intros os w' Ht'.
  apply HQ. destruct (s_completed x) eqn:Ec.
  - exists Untouched, s. split_and!; [|done|done]. constructor. intros y Hy. congruence.
  - exists Skipped. eexists. split_and!; [by eapply step_skipped|done|done].
Qed.

Lemma wp_uploads_disabled t w (Q : bool -> World -> Prop) :
  thread_state t0 t s w -> settings_init_ (thread_database t) = true ->
  (forall w', thread_state t0 t s w' -> Q (negb (consented (st_settings s) x)) w') ->
  wp works (uploads_disabled t report) Q w.
Proof.
  intros [Eo Eu Hdb Er (F & Hw & HF)] Hi HQ. unfold uploads_disabled, consented in *. rewrite (proj2 report_fields).
  destruct (s_requested x); cbn [orb] in *; [cbn [wp]; apply HQ; split; try done; by exists F|].
  apply wp_bind. eapply wp_uploads_enabled; [exact Hdb|done|exact Hw|]. intros w' Hw'. cbn [wp]. apply HQ. split; try done. by exists F.
Qed.

Lemma wp_rate_limit t w (Q : bool * Thread -> World -> Prop) :
  thread_state t0 t s w ->
  (forall (b : bool) t' w', asked t' = asked t ->
     (if b then processed t0 t s u t' w'
      else thread_state t0 t' s w' /\ exists checked, may_attempt (options_ t0) (st_settings s) x checked) ->
     Q (b, t') w') ->
  wp works (ShouldRateLimitUpload t report) Q w.
Proof.
  intros Ht HQ. unfold ShouldRateLimitUpload. rewrite (proj2 report_fields), (ts_options _ _ _ _ Ht).
  fold (unlimited (options_ t0) x). destruct (unlimited (options_ t0) x) eqn:El.
  { cbn [wp]. apply (HQ false); [done|]. split; [done|]. by exists None. }
  apply wp_bind. eapply wp_get_settings; [exact Ht|].
  intros t1 w1 Ht1 Hi Ha. apply wp_bind. destruct Ht1 as [Eo Eu Hdb Er (F & Hw & HF)].
  eapply wp_last_upload; [exact Hdb|done|exact Hw|]. intros w2 Hw2. apply wp_bind, wp_clock. intros now _ Hnow.
  assert (thread_state t0 t1 s w2) as Ht2 by (split; try done; by exists F).
  fold (too_recent (Settings.rec_last_upload (st_settings s)) now).
  destruct (too_recent (Settings.rec_last_upload (st_settings s)) now) eqn:Elim.
  - apply wp_bind. eapply wp_skip_report; [exact Ht2|right; split; [done|by exists now]|]. intros os w3 Hp. cbn [wp].
    apply (HQ true); [done|]. destruct Hp as (e & s' & H1 & H2 & H3). exists e, s'. by rewrite <-Ha.
  - cbn [wp]. apply (HQ false); [done|]. split; [done|]. by exists (Some now).
Qed.

(** The report has been checked out. *)
Section CheckedOut.
  Variables (F : gmap Loc (list Z)) (upload : CrashReportDatabase.UploadReport) (d : bytes) (checked : option Z).
  Hypothesis pending : s_completed x = false.
  Hypothesis consent : consented (st_settings s) x = true.
  Hypothesis allowed : may_attempt (options_ t0) (st_settings s) x checked.
  Hypothesis HF : represents (st_reports s) F.
  Hypothesis Hup : uploads base u x upload.

(** An upload that has failed. *)
Lemma wp_abandon t l w (Q : Thread -> World -> Prop) :
  options_ t = options_ t0 -> url_ t = url_ t0 -> db_ready base (thread_database t) -> requests t = st_requests s ++ l ->
  cannot_send u /\ l = [] \/
    (exists request, carries (with_requests t0 (st_requests s)) u x request /\
       transport (st_requests s) request = None /\ l = [request]) ->
  holds base (Some (st_settings s)) (<[LFile Lock (false, ToString u) := d]> F) w ->
  (forall t' w', processed t0 t s u t' w' -> Q t' w') ->
  wp works (let* db := DestroyUploadReport (thread_database t) upload in
            let t := with_database t db in
            let* _ := SkipReportUpload (thread_database t) u in Return t) Q w.
Proof.
  intros Eo Eu Hdb Er Hl Hw HQ. destruct (Hok u x Ex pending) as [Hatt Hread]. apply wp_bind.
  eapply (wp_destroy_upload base base_ok _ _ F u x upload d); try done. intros time db' w2 _ Hclock Hdb' Hs2. cbn zeta. apply wp_bind.
  set (s1 := MkStatus (note time (st_settings s)) (<[u := attempted x false [] time]> (st_reports s)) (st_requests s ++ l)).
  assert (thread_state t0 (with_database t db') s1 w2) as Ht1 by (by split).
  eapply wp_skip_pending; [exact Ht1|done|]. cbn [s1 st_reports]. rewrite lookup_insert_eq. cbn [attempted s_completed].
  intros os w3 Ht3. rewrite insert_insert_eq in Ht3. cbn [wp]. apply HQ. eexists _, _.
  split_and!; [by eapply (step_failed t0 s u x checked time l)|exact Ht3|done].
Qed.

Lemma wp_finish_upload t w (Q : Thread -> World -> Prop) :
  options_ t = options_ t0 -> url_ t = url_ t0 -> db_ready base (thread_database t) -> requests t = st_requests s ->
  reader_ready base u upload w ->
  holds base (Some (st_settings s)) (<[LFile Lock (false, ToString u) := d]> F) w ->
  (forall t' w', processed t0 t s u t' w' -> Q t' w') ->
  wp works (finish_upload UTF16ToUTF8 gzip rand available transport t report upload) Q w.
Proof.
  intros Eo Eu Hdb Er (fd & Hfd & Ho & Hne & Hread) Hw HQ. destruct (Hok u x Ex pending) as [Hatt Hcontents].
  destruct (found_files _ F u x HF Ex) as (E1 & _). rewrite pending in E1.
  unfold finish_upload. rewrite (proj1 report_fields). apply wp_bind.
  eapply (wp_upload_report (<[LFile Lock (false, ToString u) := d]> F) u (s_contents x) fd); try done.
  { by rewrite lookup_insert_ne. }
  { destruct Hup as [(size & _ & ->) _ _]. done. }
  intros [[result response] t1] w1 Hout Eo1 Hw1. unfold upload_outcome in Hout. cbn [fst snd] in *.
  assert (forall t1, cannot_send u /\ t1 = t \/ (exists request, carries t u x request /\ transport (requests t) request = None /\
    t1 = with_request t request) -> forall Q', (forall t' w', processed t0 t s u t' w' -> Q' t' w') ->
    wp works (let* db := DestroyUploadReport (thread_database t1) upload in
      let t := with_database t1 db in let* _ := SkipReportUpload (thread_database t) u in Return t) Q' w1) as Hfail.
  { intros t2 [[Hno ->]|(request & Hc & Ht & ->)] Q' HQ'.
    - eapply (wp_abandon t []); try done; [by rewrite app_nil_r|by left].
    - eapply (wp_abandon _ [request]); try done; [cbn; by rewrite Er|]. right. exists request. rewrite <-Er.
      split_and!; [by apply carries_requests|done|done]. }
  destruct result; [|by apply Hfail|by apply Hfail]. destruct Hout as (request & Hc & Ht & ->). apply wp_bind.
  eapply (wp_record_complete base base_ok _ _ F u x upload d); try done. intros time db' w2 _ Hclock Hdb' Hs2. cbn [wp snd].
  apply HQ. eexists _, _. split_and!; [eapply (step_uploaded t0 s u x checked time request response)| |done]; try done.
  - rewrite <-Er. by apply carries_requests.
  - by rewrite <-Er.
  - split; try done. cbn. by rewrite Er.
Qed.
End CheckedOut.

Lemma wp_process_report t w (Q : Thread -> World -> Prop) :
  thread_state t0 t s w -> (forall t' w', processed t0 t s u t' w' -> Q t' w') ->
  wp works (ProcessPendingReport UTF16ToUTF8 gzip rand available transport t report) Q w.
Proof.
  intros Ht HQ. unfold ProcessPendingReport. apply wp_bind. eapply wp_get_settings; [exact Ht|]. intros t1 w1 Ht1 Hi Ea. apply wp_bind.
  assert (forall t' w', processed t0 t1 s u t' w' -> Q t' w') as HQ1.
  { intros t' w' (e & s' & H1 & H2 & H3). apply HQ. exists e, s'. by rewrite <-Ea. }
  eapply wp_uploads_disabled; [exact Ht1|done|]. intros w2 Ht2. destruct (consented (st_settings s) x) eqn:Econ; cbn [negb].
  2: { apply wp_bind. eapply wp_skip_report; [exact Ht2|by left|]. intros os w3 Hp. cbn [wp]. by apply HQ1. }
  apply wp_bind. eapply wp_rate_limit; [exact Ht2|]. intros limited t3 w3 Ea3 H3.
  destruct limited; [cbn [wp]; by apply HQ1|]. destruct H3 as [H3 [checked Hchecked]].
  assert (forall t' w', processed t0 t3 s u t' w' -> Q t' w') as HQ3.
  { intros t' w' (e & s' & H1 & H2 & H4). apply HQ1. exists e, s'. by rewrite <-Ea3. }
  rewrite (proj1 report_fields). apply wp_bind. destruct H3 as [Eo Eu Hdb Er (F & Hw & HF)].
  eapply (wp_get_for_uploading base base_ok); [apply Hdb|exact HF|exact Hw|done|]. rewrite Ex.
  destruct (s_completed x) eqn:Ec.
  - intros w4 Hw4. cbn [wp]. apply HQ3. exists Untouched, s. split_and!; [constructor; intros y Hy; congruence| |done].
    split; try done. by exists F.
  - intros upload d w4 Hup Hrd Hw4. by eapply (wp_finish_upload F upload d checked).
Qed.
End Report.

(** ** A pass over the reports *)

(** The steps for some reports, one after the other. *)
Inductive pass (t : Thread) : Status -> list (UUID * Event) -> Status -> Prop :=
  | pass_nil s : pass t s [] s
  | pass_cons s u e s1 l s2 : report_step t s u e s1 -> pass t s1 l s2 -> pass t s ((u, e) :: l) s2.

Definition not_pending (s : Status) (u : UUID) : Prop := forall x, st_reports s !! u = Some x -> s_completed x = true.

(** The reports other than [u] are as before, and [u] is not pending any more. *)
Lemma step_reports t s u e s' :
  report_step t s u e s' ->
  not_pending s' u /\ forall v x, st_reports s' !! v = Some x -> s_completed x = false -> st_reports s !! v = Some x.
Proof.
  intros Hstep. destruct Hstep as [s u Hn|s u x Hx Hp _|s u x checked time request id Hx Hp _ _ _ _ _|s u x checked time l Hx Hp _ _ _ _].
  - done.
  - split.
    + intros y. cbn. rewrite lookup_insert_eq. by intros [= <-].
    + intros v y. cbn. rewrite lookup_insert_Some. intros [[<- <-]|[_ ?]]; done.
  - split.
    + intros y. cbn. rewrite lookup_insert_eq. by intros [= <-].
    + intros v y. cbn. rewrite lookup_insert_Some. intros [[<- <-]|[_ ?]]; done.
  - split.
    + intros y. cbn. rewrite lookup_insert_eq. by intros [= <-].
    + intros v y. cbn. rewrite lookup_insert_Some. intros [[<- <-]|[_ ?]]; done.
Qed.
Lemma step_other t s u e s' v : report_step t s u e s' -> v <> u -> st_reports s' !! v = st_reports s !! v.
Proof. intros Hstep Hv. destruct Hstep; cbn; try done; by rewrite lookup_insert_ne. Qed.

Lemma pass_app t s l s1 l' s2 : pass t s l s1 -> pass t s1 l' s2 -> pass t s (l ++ l') s2.
Proof. induction 1 as [|s u e s1 l s2' Hs Hl IH]; intros Hp; [done|]. cbn [app]. econstructor; [done|by apply IH]. Qed.
Lemma pass_pending t s l s' v x :
  pass t s l s' -> st_reports s' !! v = Some x -> s_completed x = false -> st_reports s !! v = Some x.
Proof. induction 1 as [|s u e s1 l s2 Hs Hl IH]; intros Hx Hp; [done|]. apply (proj2 (step_reports _ _ _ _ _ Hs)); [by apply IH|done]. Qed.
Lemma not_pending_pass t s l s' v : pass t s l s' -> not_pending s v -> not_pending s' v.
Proof.
  intros Hp Hn x Hx. destruct (s_completed x) eqn:E; [done|]. pose proof (pass_pending _ _ _ _ _ _ Hp Hx E) as Hx'.
  rewrite (Hn x Hx') in E. done.
Qed.
Lemma pending_ok_step t s u e s' : report_step t s u e s' -> pending_ok s -> pending_ok s'.
Proof. intros Hs Hok v x Hx Hp. apply (Hok v x); [|done]. by apply (proj2 (step_reports _ _ _ _ _ Hs)). Qed.

Definition never_stops : Prop := forall i, running i = true.

Lemma wp_process_known t0 l t s w (Q : bool * Thread -> World -> Prop) :
  thread_state t0 t s w -> pending_ok s -> Forall uuid_wf l ->
  (forall (r : bool * Thread) w' es s', pass t0 s es s' -> pending_ok s' -> thread_state t0 r.2 s' w' ->
     (if r.1 then Forall (not_pending s') l else ~ never_stops) -> Q r w') ->
  wp works (process_known UTF16ToUTF8 gzip rand available transport running t l) Q w.
Proof.
  revert t s w Q. induction l as [|u l IH]; intros t s w Q Ht Hok Hl HQ; cbn [process_known].
  { cbn [wp]. eapply HQ; [apply pass_nil|done|done|constructor]. }
  apply Forall_cons in Hl as [Hu Hl]. apply wp_bind. pose proof Ht as [Eo Eu Hdb Er Hs].
  eapply (wp_look_up base base_ok); [apply Hdb|exact Hs|done|]. intros a w1 Ha Hs1.
  assert (thread_state t0 t s w1) as Ht1 by (by split). destruct (st_reports s !! u) as [x|] eqn:Ex.
  - destruct Ha as (report & -> & Hr). apply wp_bind. eapply (wp_process_report t0 s u x report); [done|done|done|done|exact Ht1|].
    intros t2 w2 (e & s2 & Hstep & Ht2 & Ea). pose proof (proj1 (step_reports _ _ _ _ _ Hstep)) as Hn.
    assert (thread_state t0 (with_asked t2) s2 w2) as Ht2' by (by destruct Ht2; split).
    destruct (running (asked t2)) eqn:Erun.
    + eapply (IH (with_asked t2)); [exact Ht2'|by eapply pending_ok_step|done|]. intros r w3 es s3 Hp Hok3 Ht3 Hr3.
      eapply (HQ r w3 ((u, e) :: es)); [by econstructor|done|exact Ht3|]. destruct r.1; [|done]. constructor; [|done].
      by eapply not_pending_pass.
    + cbn [wp]. eapply (HQ _ _ [(u, e)]); [econstructor; [done|constructor]|by eapply pending_ok_step|exact Ht2'|].
      intros Hrun. rewrite Hrun in Erun. done.
  - rewrite Ha. eapply IH; [exact Ht1|done|done|]. intros r w3 es s3 Hp Hok3 Ht3 Hr3. eapply (HQ r w3 es); [done|done|done|].
    destruct r.1; [|done]. constructor; [|done]. eapply not_pending_pass; [exact Hp|]. intros y Hy. congruence.
Qed.

Lemma wp_process_pending t0 known reports t s w (Q : Thread -> World -> Prop) :
  thread_state t0 t s w -> pending_ok s -> NoDup (map uuid reports) ->
  (forall r, r ∈ reports -> uuid_wf (uuid r) /\ exists x, st_reports s !! uuid r = Some x /\ describes base (uuid r) x r) ->
  (forall t' w' es s', pass t0 s es s' -> thread_state t0 t' s' w' ->
     (never_stops -> forall r, r ∈ reports -> uuid r ∉ known -> not_pending s' (uuid r)) -> Q t' w') ->
  wp works (process_pending UTF16ToUTF8 gzip rand available transport running t known reports) Q w.
Proof.
  revert t s w Q. induction reports as [|report reports IH]; intros t s w Q Ht Hok Hnd Hrep HQ; cbn [process_pending].
  { cbn [wp]. eapply HQ; [apply pass_nil|done|]. by intros _ r ?%elem_of_nil. }
  cbn [map] in Hnd. apply NoDup_cons in Hnd as [Hnew Hnd]. case_bool_decide as Hk.
  { eapply IH; [exact Ht|done|done|intros r Hr; apply Hrep; by right|]. intros t' w' es s' Hp Ht' Hdone. eapply HQ; [exact Hp|done|].
    intros Hrun r [->|Hr]%elem_of_cons Hkn; [done|by apply Hdone]. }
  destruct (Hrep report) as (Hu & x & Ex & Hr); [left|]. apply wp_bind.
  eapply (wp_process_report t0 s _ x report); [done|done|done|done|exact Ht|]. intros t2 w2 (e & s2 & Hstep & Ht2 & Ea).
  pose proof (proj1 (step_reports _ _ _ _ _ Hstep)) as Hn. pose proof (pending_ok_step _ _ _ _ _ Hstep Hok) as Hok2.
  assert (thread_state t0 (with_asked t2) s2 w2) as Ht2' by (by destruct Ht2; split). destruct (running (asked t2)) eqn:Erun.
  - eapply (IH (with_asked t2)); [exact Ht2'|done|done| |].
    + intros r Hin. destruct (Hrep r) as (Hur & y & Ey & Hy); [by right|]. split; [done|]. exists y. split; [|done].
      rewrite (step_other _ _ _ _ _ _ Hstep); [done|]. intros E. apply Hnew. rewrite <-E. apply list_elem_of_fmap. by exists r.
    + intros t' w' es s' Hp Ht' Hdone. eapply (HQ t' w' ((uuid report, e) :: es)); [by econstructor|done|].
      intros Hrun r [->|Hin]%elem_of_cons Hkn; [by eapply not_pending_pass|by apply Hdone].
  - cbn [wp]. eapply (HQ _ _ [(uuid report, e)]); [econstructor; [done|constructor]|exact Ht2'|].
    intros Hrun. rewrite Hrun in Erun. done.
Qed.

Definition pass_done (t : Thread) (s : Status) (t' : Thread) (w' : World) : Prop :=
  exists es s', pass t s es s' /\ thread_state t t' s' w' /\
    (never_stops -> (forall u, u ∈ known_pending_report_uuids_ t -> not_pending s' u) /\
       (watch_pending_reports (options_ t) = true -> forall u, not_pending s' u)).

Lemma wp_process_pending_reports t s w :
  thread_state t t s w -> pending_ok s -> Forall uuid_wf (known_pending_report_uuids_ t) ->
  wp works (ProcessPendingReports UTF16ToUTF8 gzip rand available transport running t) (pass_done t s) w.
Proof.
  intros Ht Hok Hk. unfold ProcessPendingReports. apply wp_bind.
  assert (thread_state t (with_known t []) s w) as Ht0 by (by destruct Ht; split).
  eapply wp_process_known; [exact Ht0|done|done|]. intros [go_on t1] w1 es s1 Hp1 Hok1 Ht1 H1. cbn [fst snd] in *.
  destruct go_on; cbn [negb].
  2: { cbn [wp]. exists es, s1. split_and!; [done|done|]. by intros ?%H1. }
  rewrite (ts_options _ _ _ _ Ht1). rewrite Forall_forall in H1.
  destruct (watch_pending_reports (options_ t)) eqn:Ew; cbn [negb].
  2: { cbn [wp]. exists es, s1. split_and!; [done|done|]. intros _. split; [exact H1|congruence]. }
  apply wp_bind. pose proof Ht1 as [Eo Eu Hdb Er Hs]. change (GetPendingReports (thread_database t1)) with (ReportsInState (thread_database t1) (state_of false)).
  eapply (wp_reports_in_state base base_ok); [apply Hdb|exact Hs|]. intros reports w2 (Hnd & Hrep & Hall) Hs2.
  eapply wp_process_pending; [by split|exact Hok1|exact Hnd| |].
  - intros r Hr. destruct (Hrep r Hr) as (x & Hx & _ & Hd). split; [|eauto]. destruct Hs2 as (F & _ & HF). by apply (rp_ok _ F HF _ x).
  - intros t' w' es' s' Hp' Ht' Hdone. exists (es ++ es'), s'. split_and!; [by eapply pass_app|done|]. intros Hrun. split.
    + intros u Hu. eapply not_pending_pass; [exact Hp'|]. by apply H1.
    + intros _ u x Hx. destruct (s_completed x) eqn:Ec; [done|]. exfalso.
      pose proof (pass_pending _ _ _ _ _ _ Hp' Hx Ec) as Hx1. destruct (Hall u x Hx1 Ec) as (r & Hr & <-).
      destruct (decide (uuid r ∈ known_pending_report_uuids_ t)) as [Hin|Hin].
      * pose proof (H1 _ Hin x Hx1). congruence.
      * pose proof (Hdone Hrun r Hr Hin x Hx). congruence.
Qed.

(** ** What a pass sends *)

(** The uploads that were attempted: when it was checked that the last one is not too
    recent, if it was, and the time noted for it. *)
Definition attempt_of (e : UUID * Event) : option (option Z * Z) :=
  match e.2 with Attempted checked noted_at => Some (checked, noted_at) | _ => None end.
Fixpoint spaced (last : Z) (l : list (option Z * Z)) : Prop :=
  match l with
  | [] => True
  | (checked, noted_at) :: l' =>
      match checked with Some now => clock now /\ too_recent last now = false | None => True end /\ clock noted_at /\ spaced noted_at l'
  end.

Lemma pass_spaced t s es s' : pass t s es s' -> spaced (Settings.rec_last_upload (st_settings s)) (omap attempt_of es).
Proof.
  intros Hp. induction Hp as [|s u e s1 l s2 Hs Hl IH]; [done|]. cbn [omap list_omap].
  destruct Hs as [s u Hn|s u x Hx Hp' _|s u x checked time request id Hx Hp' _ Hlim Ht _ _|s u x checked time r Hx Hp' _ Hlim Ht _];
    cbn [attempt_of snd]; try done; (split; [|done]); destruct checked as [now|]; try done; by destruct Hlim as (_ & ? & ?).
Qed.

(** When the clock shows times less than an hour apart, only the first attempt can be one
    that had to be checked, and not even this one if the last attempt was as recent. *)
Lemma spaced_hour last l :
  (forall a b, clock a -> clock b -> a - b < kUploadAttemptIntervalSeconds) -> spaced last l ->
  Forall (fun e => e.1 = None) (tail l) /\ (clock last -> Forall (fun e => e.1 = None) l).
Proof.
  intros Hc. assert (forall a b, clock a -> clock b -> too_recent a b = true) as Hr.
  { intros a b Ha Hb. pose proof (Hc a b Ha Hb). pose proof (Hc b a Hb Ha). unfold too_recent, kUploadAttemptIntervalSeconds, kBackwardsClockTolerance in *.
    destruct (Z.leb_spec a b); apply Z.ltb_lt; lia. }
  assert (forall l last, clock last -> spaced last l -> Forall (fun e => e.1 = None) l) as Hall.
  { clear l. intros l0. induction l0 as [|[checked noted] l0 IH]; intros last0 Hlast; [constructor|]. intros (Hch & Hn & Hl). constructor; [|by eapply IH].
    destruct checked as [now|]; [|done]. destruct Hch as [Hnow E]. by rewrite Hr in E. }
  intros Hs. split; [|intros Hlast; by eapply Hall]. destruct l as [|[checked noted] l]; [constructor|]. destruct Hs as (_ & Hn & Hl). by eapply Hall.
Qed.

(** The attempts, each with its report. *)
Definition tried (s : Status) (options : Options) (e : UUID * Event) : Prop :=
  forall checked noted_at, e.2 = Attempted checked noted_at ->
    exists x, st_reports s !! e.1 = Some x /\ s_completed x = false /\ consented (st_settings s) x = true /\
      (checked = None <-> unlimited options x = true).
Lemma pass_tried t s es s' : pass t s es s' -> Forall (tried s (options_ t)) es.
Proof.
  induction 1 as [|s u e s1 l s2 Hs Hl IH]; constructor.
  - intros checked noted_at He. cbn [fst snd] in *. subst e. inversion Hs; subst;
      (eexists; split_and!; [eassumption|done|done|]); by destruct checked as [now|];
      match goal with Hm : may_attempt _ _ _ _ |- _ => unfold may_attempt in Hm; destruct_and?; split; congruence end.
  - eapply Forall_impl; [exact IH|]. intros [v e'] Hv checked noted_at He. destruct (Hv checked noted_at He) as (x & Hx & Hp & Hc & Hu).
    exists x. split_and!; [by apply (proj2 (step_reports _ _ _ _ _ Hs))|done| |done].
    unfold consented in *. rewrite <-Hc. f_equal. symmetry. destruct Hs; done.
Qed.

(** A report that was pending at the start, may be uploaded, and is in the request. *)
Definition sent_ok (t : Thread) (s : Status) (m : UUID * Stored * Request) : Prop :=
  let '(u, x, request) := m in
  st_reports s !! u = Some x /\ s_completed x = false /\ consented (st_settings s) x = true /\
  exists l, carries (with_requests t l) u x request.

Lemma step_enabled t s u e s' :
  report_step t s u e s' ->
  Settings.rec_uploads_enabled (st_settings s') = Settings.rec_uploads_enabled (st_settings s).
Proof. by intros []. Qed.

Lemma pass_sent t s es s' :
  pass t s es s' ->
  exists sent, st_requests s' = st_requests s ++ map snd sent /\ Forall (sent_ok t s) sent /\ NoDup (map (fun m => m.1.1) sent) /\
    (length sent <= length (omap attempt_of es))%nat.
Proof.
  induction 1 as [s|s u e s1 l s2 Hs Hl IH]; [exists []; rewrite app_nil_r; split_and!; [done|constructor|constructor|done]|].
  destruct IH as (sent & E & Hsent & Hnd & Hlen).
  assert (Forall (sent_ok t s) sent) as Hsent'.
  { eapply Forall_impl; [exact Hsent|]. intros [[v x] request] (Hx & Hp & Hc & Hr). pose proof (proj2 (step_reports _ _ _ _ _ Hs) v x Hx Hp) as Hx'.
    split_and!; [done|done| |done]. unfold consented in *. by rewrite <-(step_enabled _ _ _ _ _ Hs). }
  assert (u ∉ map (fun m => m.1.1) sent) as Hu.
  { intros ([[v x] request] & -> & Hin)%list_elem_of_fmap. rewrite Forall_forall in Hsent. destruct (Hsent _ Hin) as (Hx & Hp & _).
    pose proof (proj1 (step_reports _ _ _ _ _ Hs) x Hx). congruence. }
  assert (exists here, st_requests s1 = st_requests s ++ map snd here /\ Forall (sent_ok t s) here /\
    (here = [] \/ exists x request, here = [(u, x, request)] /\ is_Some (attempt_of (u, e)))) as (here & E1 & Hhere & Hone).
  { destruct Hs as [s u Hn|s u x Hx Hp _|s u x checked time request id Hx Hp Hc _ _ Hcar _|s u x checked time r Hx Hp Hc _ _ [[_ ->]|(request & Hcar & _ & ->)]].
    - exists []. by rewrite app_nil_r; auto.
    - exists []. by rewrite app_nil_r; auto.
    - exists [(u, x, request)]. split; [done|]. split; [|right; exists x, request; split; [done|by eexists]].
      apply Forall_singleton. by split_and!; [..|eexists].
    - exists []. auto.
    - exists [(u, x, request)]. split; [done|]. split; [|right; exists x, request; split; [done|by eexists]].
      apply Forall_singleton. by split_and!; [..|eexists]. }
  exists (here ++ sent). split_and!.
  - by rewrite E, E1, map_app, <-app_assoc.
  - by apply Forall_app.
  - rewrite map_app. destruct Hone as [->|(x & request & -> & _)]; [done|]. cbn [map app fst]. by apply NoDup_cons.
  - cbn [omap list_omap]. destruct Hone as [->|(x & request & -> & [a Ha])]; [destruct (attempt_of (u, e)); cbn; lia|].
    rewrite Ha. cbn. lia.
Qed.

(** C4.  A pass of the upload thread, when no other process uses the database, the system
    calls work and the clock shows times of [clk]: [ProcessPendingReports] ends.  It has
    processed reports one after the other, each as the settings, the rate limit and the
    transport's answer say ([report_step]).  A report that may not be uploaded, or has to
    wait at a time of the clock, is completed as it is.  For every other pending report
    one request that carries it is sent, unless there is no transport or one of the
    attachments is a directory, and the upload is recorded at a time of the clock: with
    the server's ID if the transport has answered, as a failed attempt if not.  A
    completed report is left alone.  If the thread is not told to stop, the reports it
    was told of are not pending afterwards, and if it watches the database, no report is. *)
Theorem upload_pass_correct t s os w :
  thread_state t t s w -> pending_ok s -> Forall uuid_wf (known_pending_report_uuids_ t) -> (forall i, works (os i)) ->
  exists t' w' j, run (ProcessPendingReports UTF16ToUTF8 gzip rand available transport running t) os 0 w = Some (t', w', j) /\
    pass_done t s t' w'.
Proof. intros Ht Hok Hk Hos. apply (wp_run works); [by apply wp_process_pending_reports|done]. Qed.

(** C5.  What a pass sends, when no other process uses the database, the system calls work
    and the clock shows times of [clk].  Each request uploads another report, which was
    pending, with its contents and the parameters that they give; each attempt is for a
    pending report, and uploads are enabled in the settings or the user has requested
    this one.  Exactly the attempts for requested reports, and all of them without a rate
    limit, are made without looking at the clock; for each of the others the clock was
    an hour or more after the last attempt, by the time noted for it, or a day or more
    before it.  So if all the times of [clk] lie within an hour, only the first attempt
    of the pass can be one for a report that is not requested, and none is if the last
    attempt before the pass was at such a time. *)
Theorem uploads_respect_settings t s os w :
  thread_state t t s w -> pending_ok s -> Forall uuid_wf (known_pending_report_uuids_ t) -> (forall i, works (os i)) ->
  exists t' w' j es s' sent,
    run (ProcessPendingReports UTF16ToUTF8 gzip rand available transport running t) os 0 w = Some (t', w', j) /\
    pass t s es s' /\ thread_state t t' s' w' /\
    requests t' = requests t ++ map snd sent /\ Forall (sent_ok t s) sent /\ NoDup (map (fun m => m.1.1) sent) /\
    (length sent <= length (omap attempt_of es))%nat /\
    Forall (tried s (options_ t)) es /\ spaced (Settings.rec_last_upload (st_settings s)) (omap attempt_of es) /\
    ((forall a b, clock a -> clock b -> a - b < kUploadAttemptIntervalSeconds) ->
       Forall (fun a => a.1 = None) (tail (omap attempt_of es)) /\
       (clock (Settings.rec_last_upload (st_settings s)) -> Forall (fun a => a.1 = None) (omap attempt_of es))).
Proof.
  intros Ht Hok Hk Hos. destruct (wp_run works _ _ w os 0 (wp_process_pending_reports t s w Ht Hok Hk) Hos)
    as (t' & w' & j & E & es & s' & Hp & Ht' & _).
  destruct (pass_sent t s es s' Hp) as (sent & Es & Hsent & Hnd & Hlen). pose proof (pass_spaced t s es s' Hp) as Hsp.
  exists t', w', j, es, s', sent.
  split_and!; [done|done|done| |done|done|done|by eapply pass_tried|done|intros Hc; by apply spaced_hour].
  by rewrite (ts_requests _ _ _ _ Ht'), (ts_requests _ _ _ _ Ht).
Qed.
End Correctness.

(** ** An example *)

(** A database with a pending report, and settings that allow uploads. *)
Definition example_settings_data : Settings.Data :=
  Settings.set_options (Settings.set_client_id Settings.new_data example_uuid) Settings.kUploadsEnabled.
Definition example_settings : Settings.settings_record := Settings.record_of example_settings_data.
Definition example_upload_world : World :=
  build_world [example_base; example_base ++ str "/new"; example_base ++ str "/pending";
               example_base ++ str "/completed"; example_base ++ str "/attachments"]
    [(path_of example_base Dmp (false, ToString example_uuid), str "MDMP");
     (path_of example_base Meta (false, ToString example_uuid),
      to_bytes ReportMetadata.repr (metadata_of new_report));
     (settings_path example_base, to_bytes Settings.Data_repr example_settings_data)].
Definition example_thread : Thread :=
  MkThread (MkOptions true true false true) (str "https://h/r") [example_uuid] example_db [] 0.
Definition example_status : Status := MkStatus example_settings example_reports [].
Definition example_utf8 (s : list Z) : bool * bytes := (true, s).
Definition example_transport (l : list Request) (r : Request) : option bytes := Some (str "id").
Definition example_pass : Prog Thread :=
  ProcessPendingReports example_utf8 (fun s => s) (fun _ _ => 0%nat) true example_transport (fun _ => true) example_thread.

Lemma example_upload_state : state example_base (Some example_settings) example_reports example_upload_world.
Proof.
  exists example_files. split; [|apply example_represents].
  exists (view example_upload_world). split; [split; [by apply check_world_ok; vm_compute|done]|]. split.
  - split; [by vm_compute|by vm_compute|by vm_compute|intros []; by vm_compute|split; [right; by vm_compute|]| |done].
    { assert (view example_upload_world !! settings_path example_base =
        Some (EFile (to_bytes Settings.Data_repr example_settings_data))) as -> by (by vm_compute).
      apply (bool_decide_unpack _). by vm_compute. }
    exists example_settings_data. split_and!; [by vm_compute|split_and!; by vm_compute|done].
  - intros l Hl. apply check_files_ok; [by vm_compute|done].
Qed.

Lemma example_pending_ok : pending_ok example_utf8 example_status.
Proof.
  intros u x. cbn [example_status st_reports]. unfold example_reports. rewrite lookup_singleton_Some. intros [<- <-] _.
  split; [by vm_compute|]. unfold readable. by vm_compute.
Qed.

(** A clock that shows one time, and the attachments there are. *)
Definition example_clock : Clock := eq 1000000000.
Definition example_attached : Attached := Some (view example_upload_world).

Lemma example_thread_state :
  thread_state (att := example_attached) example_base example_thread example_thread example_status example_upload_world.
Proof. split; [done|done|by split|done|]. apply state_view, example_upload_state. Qed.

Lemma upload_pass_correct_witness :
  exists t' w' j, run example_pass (steady 1000000000) 0 example_upload_world = Some (t', w', j) /\ length (requests t') = 1%nat /\
    pass_done (clk := example_clock) (att := example_attached) example_utf8 (fun s => s) (fun _ _ => 0%nat) true example_transport
      (fun _ => true) example_base example_thread example_status t' w'.
Proof.
  destruct (upload_pass_correct (clk := example_clock) (att := example_attached) example_utf8 (fun s => s) (fun _ _ => 0%nat) true
    example_transport (fun _ => true) example_base example_base_ok example_thread example_status (steady 1000000000) example_upload_world)
    as (t' & w' & j & E & Hd).
  - apply example_thread_state.
  - apply example_pending_ok.
  - apply Forall_singleton, example_uuid_wf.
  - by apply steady_works_at.
  - exists t', w', j. split; [exact E|]. split; [|exact Hd].
    assert ((fun r => length (requests r.1.1)) <$> run example_pass (steady 1000000000) 0 example_upload_world = Some 1%nat) as En
      by (by vm_compute).
    unfold example_pass in En. rewrite E in En. cbn in En. congruence.
Defined.

Lemma uploads_respect_settings_witness :
  exists t' w' j es sent, run example_pass (steady 1000000000) 0 example_upload_world = Some (t', w', j) /\
    requests t' = map snd sent /\
    Forall (sent_ok example_utf8 (fun s => s) (fun _ _ => 0%nat) example_thread example_status) sent /\
    spaced (clk := example_clock) 0 (omap attempt_of es) /\ Forall (fun a => a.1 = None) (tail (omap attempt_of es)).
Proof.
  destruct (uploads_respect_settings (clk := example_clock) (att := example_attached) example_utf8 (fun s => s) (fun _ _ => 0%nat) true
    example_transport (fun _ => true) example_base example_base_ok example_thread example_status (steady 1000000000) example_upload_world)
    as (t' & w' & j & es & s' & sent & E & _ & _ & Er & Hs & _ & _ & _ & Hsp & Hhour).
  - apply example_thread_state.
  - apply example_pending_ok.
  - apply Forall_singleton, example_uuid_wf.
  - by apply steady_works_at.
  - exists t', w', j, es, sent. split_and!; [exact E|exact Er|exact Hs|exact Hsp|].
    apply Hhour. intros a b <- <-. unfold kUploadAttemptIntervalSeconds. lia.
Defined.
End CrashReportUploadThread.
