(* ===== verification/RoundTrip.v ===== *)
(** * Minidump files read back

    A file written by [MinidumpFileWriter] is read by the steps of
    [ProcessSnapshotMinidump::Initialize]: the header and the directory are those
    of the writer, every stream is where its entry says, and the Crashpad
    information, the modules with their annotations, the memory map and the user
    streams are recovered from it. *)

From S2P Require Import Prelude.
From S2P Require Import Numeric.
From S2P Require Import Structs.
From S2P Require Import CPUContext.
From S2P Require Import MinidumpContext.
From S2P Require Import FileIO.
From S2P Require Import Uuid.
From S2P Require Import MemoryRanges.
From S2P Require Import MinidumpWritable.
From S2P Require Import MinidumpObjects.
From S2P Require Import MinidumpStreams.
From S2P Require Import MinidumpModules.
From S2P Require Import MinidumpFile.
From S2P Require Import MinidumpReaders.
From S2P Require Import ProcessSnapshot.

(** ** Fields of structures *)

Lemma slice_skip off n off' k (a b : bytes) :
  length a = k -> off = (k + off')%nat -> slice off n (a ++ b) = slice off' n b.
Proof.
  intros <- ->. unfold slice. rewrite drop_app_ge by lia. do 2 f_equal. lia.
Qed.
Lemma slice_here n (a b : bytes) : length a = n -> slice 0 n (a ++ b) = a.
Proof. intros <-. unfold slice. by rewrite drop_0, take_app_length. Qed.
Lemma slice_full n (a : bytes) : length a = n -> slice 0 n a = a.
Proof. intros <-. unfold slice. by rewrite drop_0, firstn_all. Qed.

Lemma le_value_4 z : 0 <= z < 2 ^ 32 -> le_value (le_bytes 4 z) = z.
Proof. intros. by apply le_value_bytes_small. Qed.
Lemma le_value_8 z : 0 <= z < 2 ^ 64 -> le_value (le_bytes 8 z) = z.
Proof. intros. by apply le_value_bytes_small. Qed.

#[export] Hint Rewrite length_le_bytes length_uuid_bytes : struct_length.

(** The length of a field of a structure. *)
Ltac field_length a :=
  lazymatch a with
  | le_bytes ?k _ => constr:(k)
  | uuid_bytes _ => constr:(16%nat)
  end.

(** Compute the slices of a structure given as the sequence of its fields. *)
Ltac struct_fields :=
  unfold location, word, descriptor_bytes, descriptor_size, descriptor_rva; cbn [fst snd];
  rewrite <-?app_assoc;
  repeat match goal with
  | |- context [slice O ?n (?a ++ ?b)] =>
      rewrite (slice_here n a b) by (autorewrite with struct_length; reflexivity)
  | |- context [slice ?off ?n (?a ++ ?b)] =>
      let k := field_length a in
      let off' := eval vm_compute in (off - k)%nat in
      rewrite (slice_skip off n off' k a b)
        by (first [reflexivity|autorewrite with struct_length; reflexivity])
  | |- context [slice O ?n ?a] =>
      rewrite (slice_full n a) by (autorewrite with struct_length; reflexivity)
  end.

(** ** Files that were written *)

(** A stream whose objects are owned and whose directory entry is registered with
    it. *)
Definition stream_ok (s : StreamWriter) : Prop :=
  0 <= StreamType s < 2 ^ 32 /\ freezes_owned (FreezeStream s) /\
  forall p t, FreezeStream s p = Some t ->
    directory_entry p ∈ registered_location_descriptors_ (root t).

(** [file] is what [WriteMinidump] writes for [x], frozen as [tree]. *)
Record written (x : MinidumpFileWriter.t) (tree : Tree) (file : bytes) : Prop := {
  written_streams : Forall stream_ok (MinidumpFileWriter.streams_ x);
  written_types : MinidumpFileWriter.types_ok x;
  written_timestamp : 0 <= MinidumpFileWriter.TimeDateStamp x < 2 ^ 32;
  written_tree : MinidumpFileWriter.Freeze x MINIDUMP_SIGNATURE = Some tree;
  written_assignable : assignable (layout tree);
  written_file : file = image (final_fields tree) 0 (file_order tree)
}.

Lemma populate_bounds rvas descs o size a :
  populate uint32_t rvas descs o size = Some a ->
  (rvas <> [] -> o < 2 ^ 32) /\ (descs <> [] -> o < 2 ^ 32 /\ size < 2 ^ 32).
Proof.
  unfold populate. intros E.
  destruct (AssignIfInRange uint32_t o) as [rva|] eqn:Eo; [|by destruct rvas, descs].
  apply AssignIfInRange_Some in Eo as [Ho _]; [|done]. apply fits_spec in Ho. simpl in Ho.
  split; [lia|]. intros Hd. split; [lia|]. destruct descs as [|d descs]; [done|].
  destruct (AssignIfInRange uint32_t size) as [sz|] eqn:Es; [|by destruct rvas].
  apply AssignIfInRange_Some in Es as [Hs _]; [|done]. apply fits_spec in Hs. simpl in Hs. lia.
Qed.

Lemma assignments_bounds w o a :
  assignments w o = Some a ->
  (registered_rvas_ w <> [] -> o < 2 ^ 32) /\
  (registered_location_descriptors_ w <> [] -> o < 2 ^ 32 /\ SizeOfObject w < 2 ^ 32).
Proof.
  unfold assignments. destruct (WillWriteAtOffsetImpl w o) as [own|]; [|done].
  destruct (populate uint32_t _ _ _ _) as [a32|] eqn:E32; [|done]. intros _.
  by apply populate_bounds in E32.
Qed.

Lemma placed_end off ws w o :
  Forall writable_ok ws -> (w, o) ∈ place off ws -> o + SizeOfObject w <= place_end off ws.
Proof.
  intros Hok. revert off. induction Hok as [|v ws Hv Hok IH]; intros off; simpl.
  { by intros ?%not_elem_of_nil. }
  intros [[= -> ->]|Hin]%elem_of_cons; [by apply place_end_ge|by apply IH].
Qed.

Lemma freeze_children_lookup p i l ts j c :
  freeze_children p i l = Some ts -> l !! j = Some c ->
  exists t, ts !! j = Some t /\ c (p ++ [(i + j)%nat]) = Some t.
Proof.
  revert i ts j. induction l as [|c' l IH]; intros i ts j Ec Ej; [done|].
  cbn [freeze_children] in Ec. destruct (c' (p ++ [i])) as [t|] eqn:Et; [|done].
  destruct (freeze_children p (S i) l) as [ts'|] eqn:Ets; [|done]. apply (inj Some) in Ec as <-.
  destruct j as [|j]; simpl in Ej.
  - injection Ej as ->. exists t. by rewrite Nat.add_0_r.
  - destruct (IH _ _ _ Ets Ej) as (t' & ? & ?). exists t'. by rewrite Nat.add_succ_r.
Qed.

Section Written.
  Context (x : MinidumpFileWriter.t) (tree : Tree) (file : bytes).
  Context (Hx : written x tree file).

Abbreviation m := (final_fields tree).

Lemma written_streams_owned : MinidumpFileWriter.streams_owned x.
Proof. eapply Forall_impl; [apply (written_streams _ _ _ Hx)|]. by intros s (_ & ? & _). Qed.

Lemma written_owned : owned [] tree.
Proof.
  eapply MinidumpFileWriter.file_freeze_owned; [apply written_streams_owned|apply (written_tree _ _ _ Hx)].
Qed.

(** The objects of a placed sequence are at their offsets. *)
Lemma placed_stored rest w o :
  file_order tree = root tree :: rest -> SizeOfObject (root tree) > 0 ->
  (w, o) ∈ place (SizeOfObject (root tree)) rest -> stored_object file m w o.
Proof.
  intros Efo Hroot Hin. pose proof written_owned as Ho.
  pose proof (written_assignable _ _ _ Hx) as Has.
  assert (tree_ok tree) as Hok.
  { apply owned_tree_ok; [done|].
    by destruct (MinidumpFileWriter.freeze_tree _ _ _ (written_tree _ _ _ Hx)) as (ts & -> & _). }
  assert ((w, o) ∈ layout tree) as Hl.
  { unfold layout. rewrite Efo. cbn [place]. right.
    assert (padding 0 (root tree) = 0) as ->.
    { unfold padding. destruct (0 <? SizeOfObject (root tree)); [|done].
      rewrite Z.mod_0_l, Z.sub_0_r, Z.mod_same; [done|..];
        destruct Hok as (Hok & _); destruct tree; apply Forall_cons in Hok as [[_ ?] _];
        simpl; lia. }
    done. }
  pose proof (owned_writes_its_size _ _ m Ho) as Hw.
  destruct (layout_object_at tree w o Hok Has Hw (owned_assignments_distinct _ _ Ho Has) Hl)
    as (_ & _ & Hs & Hp).
  pose proof (file_order_ok _ _ (proj1 Hok)) as Hok'. pose proof (file_order_ok _ _ Hw) as Hw'.
  assert (w ∈ file_order tree) as Hwin.
  { rewrite <-(place_fst 0 (file_order tree)). apply (list_elem_of_fmap_2 fst _ _ Hl). }
  assert (Z.of_nat (length (object_bytes m w)) = SizeOfObject w) as Hlen.
  { rewrite Forall_forall in Hw'. by destruct (Hw' w Hwin). }
  rewrite Efo in Hok', Hw'. apply Forall_cons in Hok' as [_ Hok']. apply Forall_cons in Hw' as [_ Hw'].
  destruct (image_slice m _ rest w o Hok' Hw' Hin) as [Hge _].
  split_and!.
  - split_and!; [lia| |].
    + rewrite (written_file _ _ _ Hx), image_length, Z.sub_0_r, Hlen; [|apply file_order_ok..].
      * apply placed_end; [|done]. by apply file_order_ok, Hok.
      * by apply (proj1 Hok).
      * done.
    + rewrite <-Hlen, Nat2Z.id in Hs. by rewrite (written_file _ _ _ Hx).
  - done.
  - unfold assignable in Has. rewrite Forall_forall in Has. destruct (Has _ Hl) as [a Ea].
    by destruct (assignments_bounds _ _ _ Ea).
  - unfold assignable in Has. rewrite Forall_forall in Has. destruct (Has _ Hl) as [a Ea].
    by destruct (assignments_bounds _ _ _ Ea).
Qed.

Lemma written_root :
  exists ts, tree = Node (MinidumpFileWriter.root_object x MINIDUMP_SIGNATURE) ts /\
    freeze_children [] 0 (map FreezeStream (MinidumpFileWriter.streams_ x)) = Some ts.
Proof.
  destruct (MinidumpFileWriter.freeze_tree _ _ _ (written_tree _ _ _ Hx)) as (ts & -> & Ec & _).
  eauto.
Qed.

(** Every object below the root is stored. *)
Lemma written_stored : Forall (stored file m) (Children tree).
Proof.
  apply Forall_forall. intros t Ht w Hw. destruct written_root as (ts & Et & _).
  destruct (MinidumpFileWriter.root_first x MINIDUMP_SIGNATURE ts) as (rest & Efo & _).
  assert (w ∈ rest) as Hin.
  { assert (w ∈ file_order tree) as Hin.
    { apply file_order_elem. rewrite flatten_Children. right. apply elem_of_concat.
      exists (flatten t). split; [done|by apply list_elem_of_fmap_2]. }
    rewrite Et, Efo in Hin. apply elem_of_cons in Hin as [->|]; [|done]. exfalso.
    pose proof (owned_distinct _ _ written_owned) as Hd. rewrite flatten_Children in Hd.
    simpl in Hd. apply NoDup_cons in Hd as [Hd _]. apply Hd. rewrite Et.
    change (address (root _)) with (address (MinidumpFileWriter.root_object x MINIDUMP_SIGNATURE)).
    apply list_elem_of_fmap_2, elem_of_concat. exists (flatten t). split; [done|].
    apply list_elem_of_fmap_2. by rewrite Et in Ht. }
  rewrite <-(place_fst (SizeOfObject (root tree)) rest) in Hin.
  apply list_elem_of_fmap in Hin as ([w' o] & -> & Hin). exists o.
  eapply placed_stored; [rewrite Et; exact Efo| |exact Hin]. rewrite Et. simpl. lia.
Qed.

(** Only the objects of the file assign fields. *)
Lemma written_only : only [] tree m.
Proof.
  intros s _ [v Hs]. pose proof written_owned as Ho. destruct (decide (s ∈ tree_slots tree)); [done|].
  unfold final_fields in Hs. rewrite assign_lookup_notin in Hs; [by rewrite lookup_empty in Hs|].
  unfold layout. rewrite all_assignments_fst; [|apply file_order_ok, Ho|apply Hx].
  by rewrite file_order_perm.
Qed.

Lemma written_child i s :
  MinidumpFileWriter.streams_ x !! i = Some s ->
  exists t, Children tree !! i = Some t /\ FreezeStream s [i] = Some t /\
    only [i] t m /\ stored file m t.
Proof.
  intros Ei. pose proof written_only as Hon. pose proof written_stored as Hst.
  destruct written_root as (ts & Et & Ec).
  assert (exists t, ts !! i = Some t /\ FreezeStream s [i] = Some t) as (t & Eti & Ft).
  { change [i] with ([] ++ [(0 + i)%nat]). eapply freeze_children_lookup; [exact Ec|].
    by rewrite list_lookup_fmap, Ei. }
  rewrite Et in Hst |- *. cbn [Children] in *. exists t. split_and!; [done|done| |].
  - apply freeze_children_adopted in Ec as [Ha _].
    2: { apply Forall_fmap. apply written_streams_owned. }
    rewrite length_map in Ha. rewrite Et in Hon. change [i] with ([] ++ [i]).
    eapply only_child; [exact Hon|exact Ha| |exact Eti]. rewrite concat_replicate_nil, app_nil_r.
    unfold writable_slots, impl_slots. simpl. rewrite MinidumpFileWriter.will_write_0. simpl.
    by repeat constructor.
  - rewrite Forall_forall in Hst. apply Hst. by eapply list_elem_of_lookup_2.
Qed.

(** The beginning of the file. *)
Lemma written_front :
  exists tail, file = MinidumpFileWriter.header_bytes x MINIDUMP_SIGNATURE m ++
    concat (entries_bytes MinidumpFileWriter.directory_bytes m [] 0
      (MinidumpFileWriter.streams_ x)) ++ tail.
Proof.
  rewrite (written_file _ _ _ Hx). destruct written_root as (ts & Et & _).
  destruct (MinidumpFileWriter.root_first x MINIDUMP_SIGNATURE ts) as (rest & Efo & _).
  generalize (final_fields tree). intros fs. rewrite Et, Efo. cbn [image].
  assert (padding 0 (MinidumpFileWriter.root_object x MINIDUMP_SIGNATURE) = 0) as ->.
  { unfold padding. simpl. destruct (0 <? _); reflexivity. }
  change (Z.to_nat 0) with 0%nat. cbn [replicate app]. unfold object_bytes.
  cbn [WriteObject MinidumpFileWriter.root_object concat]. rewrite <-app_assoc. eauto.
Qed.

(** The object of a stream is where its entry of the directory says. *)
Lemma written_stream i s :
  MinidumpFileWriter.streams_ x !! i = Some s ->
  exists t o, FreezeStream s [i] = Some t /\ only [i] t m /\
    field m ([i], 0%nat) = SizeOfObject (root t) /\ field m ([i], 1%nat) = o /\
    0 < o < 2 ^ 32 /\ 0 <= SizeOfObject (root t) < 2 ^ 32 /\
    holds file o (object_bytes m (root t)) /\ Forall (stored file m) (Children t).
Proof.
  intros Ei. destruct (written_child i s Ei) as (t & _ & Ft & Hon & Hst).
  destruct (stored_root _ _ _ Hst) as (o & Hh & (_ & Hp & _) & _ & Hb).
  pose proof (written_streams _ _ _ Hx) as Hs. rewrite Forall_forall in Hs.
  destruct (Hs s) as (_ & Ho & Hd); [by eapply list_elem_of_lookup_2|].
  specialize (Hd _ _ Ft). destruct (Hp (directory_entry [i])) as [E1 E2]; [set_solver|].
  destruct Hb as [Hb1 Hb2]; [by destruct (registered_location_descriptors_ (root t)); [set_solver|]|].
  exists t, o. pose proof (frozen_size _ _ _ Ho Ft).
  split_and!; try done; try lia; try apply Hh.
  - unfold field. unfold descriptor_size, directory_entry in E1. by rewrite E1.
  - unfold field. unfold descriptor_rva, directory_entry in E2. simpl in E2. by rewrite E2.
  - apply Forall_forall. intros c Hc. destruct t. by eapply stored_child.
Qed.

(** The directory of the file, from the [i]-th stream on. *)
Fixpoint directory_from (i : nat) (l : list StreamWriter) : list (Z * (Z * Z)) :=
  match l with
  | [] => []
  | s :: l' => (StreamType s, (field m ([i], 0%nat), field m ([i], 1%nat))) :: directory_from (S i) l'
  end.
Definition written_directory : list (Z * (Z * Z)) :=
  directory_from 0 (MinidumpFileWriter.streams_ x).

Lemma directory_parsed i l :
  (forall j s, l !! j = Some s -> MinidumpFileWriter.streams_ x !! (i + j)%nat = Some s) ->
  map parse_directory (entries_bytes MinidumpFileWriter.directory_bytes m [] i l) =
  directory_from i l.
Proof.
  revert i. induction l as [|s l IH]; intros i Hl; [done|].
  cbn [entries_bytes map directory_from]. f_equal.
  - unfold parse_directory, MinidumpFileWriter.directory_bytes. struct_fields.
    unfold directory_entry. cbn [app fst snd].
    destruct (written_stream i s) as (t & o & _ & _ & -> & -> & Ho & Hsz & _).
    { specialize (Hl 0%nat s eq_refl). by rewrite Nat.add_0_r in Hl. }
    pose proof (written_streams _ _ _ Hx) as Hs. rewrite Forall_forall in Hs.
    destruct (Hs s) as (Hty & _).
    { specialize (Hl 0%nat s eq_refl). by eapply list_elem_of_lookup_2. }
    by rewrite !le_value_4 by lia.
  - apply IH. intros j s' Ej. specialize (Hl (S j) s' Ej). by rewrite Nat.add_succ_r in Hl.
Qed.

Lemma length_directory_from i l : length (directory_from i l) = length l.
Proof. revert i; induction l; intros i; simpl; auto. Qed.

Lemma directory_from_lookup i l j s :
  l !! j = Some s -> directory_from i l !! j =
    Some (StreamType s, (field m ([(i + j)%nat], 0%nat), field m ([(i + j)%nat], 1%nat))).
Proof.
  revert i j; induction l as [|s' l IH]; intros i j Ej; [done|]. destruct j as [|j]; simpl in *.
  - injection Ej as ->. by rewrite Nat.add_0_r.
  - rewrite (IH _ _ Ej). by rewrite Nat.add_succ_r.
Qed.

Lemma directory_types i l : map fst (directory_from i l) = map StreamType l.
Proof. revert i; induction l as [|s l IH]; intros i; simpl; [done|]. by rewrite IH. Qed.

(** [StreamDirectoryRva]. *)
Lemma written_directory_rva :
  field m ([], 0%nat) = match MinidumpFileWriter.streams_ x with [] => 0 | _ => 32 end.
Proof.
  pose proof written_owned as Ho. pose proof (written_assignable _ _ _ Hx) as Has.
  destruct written_root as (ts & Et & _).
  destruct (MinidumpFileWriter.root_first x MINIDUMP_SIGNATURE ts) as (rest & Efo & _).
  assert (padding 0 (MinidumpFileWriter.root_object x MINIDUMP_SIGNATURE) = 0) as Ep.
  { unfold padding. simpl. destruct (0 <? _); reflexivity. }
  destruct (final_fields_lookup tree (MinidumpFileWriter.root_object x MINIDUMP_SIGNATURE) 0)
    as (_ & _ & Hp); [by eapply owned_assignments_distinct|done| |].
  { unfold layout. rewrite Et, Efo. cbn [place]. rewrite Ep. left. }
  unfold field. erewrite Hp; [done|exact (MinidumpFileWriter.will_write_0 x)|left].
Qed.

End Written.

(** ** The directory is read back *)

Lemma insert_unique_spec (m0 : gmap Z (Z * Z)) l :
  NoDup (map fst l) -> Forall (fun e => m0 !! fst e = None) l ->
  exists m1, insert_unique m0 l = Some m1 /\
    (forall k v, (k, v) ∈ l -> m1 !! k = Some v) /\
    (forall k, k ∉ map fst l -> m1 !! k = m0 !! k).
Proof.
  revert m0. induction l as [|[k v] l IH]; intros m0 Hn Hf.
  { exists m0. split_and!; [done|by intros ? ? ?%not_elem_of_nil|done]. }
  simpl in *. apply NoDup_cons in Hn as [Hk Hn]. apply Forall_cons in Hf as [Hk0 Hf]. simpl in Hk0.
  rewrite Hk0. destruct (IH (<[k := v]> m0)) as (m1 & E & Hin & Hout); [done| |].
  { rewrite Forall_forall in Hf |- *. intros e He. rewrite lookup_insert_ne; [by apply Hf|].
    intros ->. apply Hk. by apply list_elem_of_fmap_2. }
  exists m1. split_and!; [done| |].
  - intros k' v' [[= -> ->]|Hl]%elem_of_cons; [|by apply Hin].
    rewrite Hout by done. apply lookup_insert_eq.
  - intros k' [Hne Hl]%not_elem_of_cons. rewrite Hout by done. by rewrite lookup_insert_ne.
Qed.

Lemma length_directory_entries {A} (e : A -> fields_map -> path -> bytes) m p i l :
  length (entries_bytes e m p i l) = length l.
Proof. revert i; induction l; intros i; simpl; auto. Qed.
Lemma entries_Forall {A} (e : A -> fields_map -> path -> bytes) k m p i l :
  (forall y m p, length (e y m p) = k) -> Forall (fun b => length b = k) (entries_bytes e m p i l).
Proof. intros Hk. revert i; induction l; intros i; simpl; auto. Qed.

Section ReadBack.
  Context {R : Type} `{FileSeekReaderLaws R}.

(** The bytes at the beginning of a file. *)
Lemma read_header file (r : R) o a b tail :
  on file r -> 0 <= o < 2 ^ 63 -> file = a ++ b ++ tail -> o = Z.of_nat (length a) ->
  exists r1, SeekSet r o = Some r1 /\
  exists r2, read_exactly r1 (Z.of_nat (length b)) = Some (b, r2) /\ on file r2.
Proof.
  intros Hon Ho Ef Ea. destruct (seek_on file r o Hon Ho) as (r1 & E1 & On1 & R1).
  exists r1. split; [done|].
  destruct (read_exactly_on file r1 o (Z.of_nat (length b)) On1 R1) as (r2 & E2 & On2 & _);
    [lia|lia|rewrite Ef, !length_app; lia|].
  exists r2. split; [|done]. rewrite E2. repeat f_equal. rewrite Ef, Ea, !Nat2Z.id.
  unfold slice. by rewrite drop_app_length, take_app_length.
Qed.

Lemma directory_read x tree file (r : R) :
  written x tree file -> on file r ->
  exists r', InitializeDirectory r =
    Some (MinidumpFileWriter.TimeDateStamp x, written_directory x tree, r') /\ on file r'.
Proof.
  intros Hx Hon. destruct (written_front x tree file Hx) as (tail & Ef).
  pose proof (written_timestamp _ _ _ Hx) as Hts.
  pose proof (written_directory_rva x tree file Hx) as Hrva.
  set (hd := MinidumpFileWriter.header_bytes x MINIDUMP_SIGNATURE _) in Ef.
  set (es := entries_bytes _ _ _ _ _) in Ef.
  assert (length hd = 32%nat) as Hlh by apply MinidumpFileWriter.length_header_bytes.
  assert (0 <= Z.of_nat (length (MinidumpFileWriter.streams_ x)) < 2 ^ 32) as Hns.
  { pose proof (written_tree _ _ _ Hx) as Eft. unfold MinidumpFileWriter.Freeze in Eft.
    destruct (freeze_children _ _ _); [|done]. destruct (negb _); [done|].
    destruct (AssignIfInRange _ _) eqn:Ea; [|done].
    apply AssignIfInRange_Some in Ea as [Hr _]; [|done]. apply fits_spec in Hr. simpl in Hr. lia. }
  destruct (read_header file r 0 [] hd (concat es ++ tail) Hon ltac:(lia) Ef eq_refl)
    as (r1 & E1 & r2 & E2 & On2).
  unfold InitializeDirectory. rewrite E1. cbn [mbind option_bind].
  rewrite Hlh in E2. change (Z.of_nat 32) with 32 in E2. rewrite E2. cbn [mbind option_bind].
  assert (word 4 0 hd = MINIDUMP_SIGNATURE /\ word 4 4 hd = MINIDUMP_VERSION /\
    word 4 8 hd = Z.of_nat (length (MinidumpFileWriter.streams_ x)) /\
    word 4 12 hd = field (final_fields tree) ([], 0%nat) /\
    word 4 20 hd = MinidumpFileWriter.TimeDateStamp x) as (-> & -> & -> & -> & ->).
  { unfold hd, MinidumpFileWriter.header_bytes. struct_fields.
    rewrite !le_value_4; try done. rewrite Hrva. by destruct (MinidumpFileWriter.streams_ x). }
  rewrite !Z.eqb_refl. cbn [negb]. rewrite Hrva.
  destruct (MinidumpFileWriter.streams_ x) as [|s0 l] eqn:Es.
  { destruct (seek_on file r2 0 On2) as (r3 & -> & On3 & _); [lia|]. cbn [mbind option_bind].
    exists r3. split; [|done]. unfold written_directory. by rewrite Es. }
  destruct (Z.eqb_spec (Z.of_nat (length (s0 :: l))) 0) as [E0|_]; [simpl in E0; lia|].
  destruct (read_header file r2 32 hd (concat es) tail On2 ltac:(lia) Ef) as (r3 & -> & r4 & E4 & On4);
    [by rewrite Hlh|].
  assert (length (concat es) = (12 * length (s0 :: l))%nat) as Hle.
  { unfold es. apply length_entries_bytes, MinidumpFileWriter.length_directory_bytes. }
  cbn [mbind option_bind]. rewrite Hle in E4.
  replace (Z.of_nat (12 * length (s0 :: l))) with (Z.of_nat (length (s0 :: l)) * 12) in E4 by lia.
  rewrite E4. cbn [mbind option_bind]. exists r4. split; [|done]. do 3 f_equal.
  assert (length es = length (s0 :: l)) as Hles by apply length_directory_entries.
  rewrite Nat2Z.id, <-Hles, chunks_concat.
  - unfold es. rewrite (directory_parsed x tree file Hx) by (by rewrite Es).
    unfold written_directory. by rewrite Es.
  - apply entries_Forall, MinidumpFileWriter.length_directory_bytes.
Qed.

(** ** Crashpad information *)

(** The parts of a process snapshot that are in the Crashpad information. *)
Record crashpad_info_ok (report client : UUID) (annotations : string_map bytes) (mask : option Z)
    (modules : list ModuleSnapshot) : Prop := {
  ok_report : uuid_wf report;
  ok_client : uuid_wf client;
  ok_annotations : Forall (fun kv => string_ok kv.1 /\ string_ok kv.2) annotations;
  ok_annotations_sorted : map_sorted annotations;
  ok_mask : forall z, mask = Some z -> 0 <= z < 2 ^ 64;
  ok_modules : Forall module_info_ok modules
}.

Definition modules_child (l : list ModuleSnapshot) : option Freezable :=
  match MinidumpModuleCrashpadInfoListWriter.InitializeFromSnapshot l with
  | [] => None
  | l' => Some (MinidumpModuleCrashpadInfoListWriter.Freeze l')
  end.

Lemma crashpad_info_children report client annotations mask modules :
  let w := MinidumpCrashpadInfoWriter.InitializeFromSnapshot report client annotations mask modules in
  MinidumpCrashpadInfoWriter.children w =
    [(map_child annotations, 2%nat); (modules_child modules, 4%nat)] /\
  MinidumpCrashpadInfoWriter.report_id w = report /\ MinidumpCrashpadInfoWriter.client_id w = client /\
  MinidumpCrashpadInfoWriter.address_mask w = default 0 mask.
Proof.
  intros w. unfold w, MinidumpCrashpadInfoWriter.InitializeFromSnapshot, map_child, modules_child.
  destruct (MinidumpSimpleStringDictionaryWriter.InitializeFromMap annotations), mask,
    (MinidumpModuleCrashpadInfoListWriter.InitializeFromSnapshot modules); by split_and!.
Qed.

Lemma crashpad_info_children_owned annotations modules :
  Forall (fun ck => forall c, fst ck = Some c -> freezes_owned c)
    [(map_child annotations, 2%nat); (modules_child modules, 4%nat)].
Proof.
  repeat (apply Forall_cons; split); simpl; [| |by apply Forall_nil].
  - intros c. unfold map_child.
    destruct (MinidumpSimpleStringDictionaryWriter.InitializeFromMap _); [done|]. intros [= <-].
    apply MinidumpSimpleStringDictionaryWriter.dictionary_freeze_owned.
  - intros c. unfold modules_child.
    pose proof (MinidumpModuleCrashpadInfoListWriter.module_info_list_initialize_list_owned modules) as Ho.
    destruct (MinidumpModuleCrashpadInfoListWriter.InitializeFromSnapshot modules); [done|].
    intros [= <-]. by apply MinidumpModuleCrashpadInfoListWriter.module_info_list_freeze_owned.
Qed.

(** What is read from the stream. *)
Definition info_location (m : fields_map) (p : path) (k : nat) : Z * Z :=
  (le_value (le_bytes 4 (field m (p, k))), le_value (le_bytes 4 (field m (p, S k)))).

(** The part of the structure that is read at once, and its fields. *)
Definition info_front (report client : UUID) (m : fields_map) (p : path) : bytes :=
  le_bytes 4 MinidumpCrashpadInfoWriter.kVersion ++ uuid_bytes report ++
    uuid_bytes client ++ descriptor_bytes m (p, 2%nat) ++ descriptor_bytes m (p, 4%nat).

Lemma info_front_fields report client m p :
  let front := info_front report client m p in
  length front = 52%nat /\
  word 4 0 front = 1 /\ slice 4 16 front = uuid_bytes report /\
  slice 20 16 front = uuid_bytes client /\ location 36 front = info_location m p 2 /\
  location 44 front = info_location m p 4.
Proof.
  intros front. split.
  - unfold front, info_front. by rewrite !length_app, !length_descriptor_bytes, !length_uuid_bytes,
      length_le_bytes.
  - unfold front, info_front. cbn [Nat.add]. struct_fields. unfold info_location. by rewrite le_value_4.
Qed.

Lemma crashpad_info_read report client annotations mask modules sm p t m file (r : R) o :
  crashpad_info_ok report client annotations mask modules ->
  MinidumpCrashpadInfoWriter.Freeze
    (MinidumpCrashpadInfoWriter.InitializeFromSnapshot report client annotations mask modules) p =
    Some t ->
  only p t m -> holds file o (object_bytes m (root t)) -> 0 < o < 2 ^ 32 ->
  Forall (stored file m) (Children t) -> on file r ->
  sm !! kMinidumpStreamTypeCrashpadInfo = Some (SizeOfObject (root t), o) ->
  (forall c, modules_child modules = Some c -> exists j t', c (p ++ [j]) = Some t' /\
     only (p ++ [j]) t' m /\ stored file m (RegisterLocationDescriptor (p, 4%nat) t')) /\
  optional_child file m p (modules_child modules) 4 /\
  exists r', InitializeCrashpadInfo sm r =
    Some (MkCrashpadInfo 1 report client (info_location m p 2) (info_location m p 4) 0
            (default 0 mask), annotations, r') /\ on file r'.
Proof.
  intros Hok Ef Hon Hh Ho Hst Hr Hsm.
  destruct (crashpad_info_children report client annotations mask modules) as (Ech & Er & Ecl & Em).
  unfold MinidumpCrashpadInfoWriter.Freeze in Ef. rewrite Ech in Ef.
  destruct (freeze_children p 0 _) as [ts|] eqn:Ec; [|done]. apply (inj Some) in Ef as <-.
  cbn [root Children] in *.
  pose proof (fun oc k => optional_children file m p _ _ ts oc k
    (crashpad_info_children_owned annotations modules) Ec Hon Hst
    ltac:(by repeat constructor) ltac:(repeat constructor; simpl; set_solver)
    ltac:(by apply (bool_decide_unpack _))) as Hoc.
  split; [apply (Hoc (modules_child modules) 4%nat); right; left|].
  split; [apply (Hoc (modules_child modules) 4%nat); right; left|].
  unfold object_bytes in Hh. cbn [WriteObject stream_at] in Hh.
  unfold InitializeCrashpadInfo. rewrite Hsm. cbn [SizeOfObject stream_at].
  destruct (Z.ltb_spec 64 52); [lia|].
  unfold MinidumpCrashpadInfoWriter.crashpad_info_bytes in Hh.
  rewrite Er, Ecl, Em in Hh. clear Er Ecl Em Ech.
  destruct (info_front_fields report client m p) as (Hlf & Hfields).
  assert (holds file o (info_front report client m p ++ le_bytes 4 0 ++ le_bytes 8 (default 0 mask)))
    as Hh'.
  { unfold info_front. by rewrite <-!app_assoc. }
  set (front := info_front report client m p) in *.
  destruct (read_held_at file r o front Hr (holds_head _ _ _ _ Hh') ltac:(lia))
    as (r1 & -> & On1 & r2 & E2 & On2 & R2).
  rewrite Hlf in E2, R2. change (Z.of_nat 52) with 52 in E2, R2. cbn [mbind option_bind].
  rewrite E2. cbn [mbind option_bind]. clear E2.
  apply holds_rest in Hh'. rewrite Hlf in Hh'. change (Z.of_nat 52) with 52 in Hh'.
  destruct (read_held file r2 _ _ On2 R2 (holds_head _ _ _ _ Hh')) as (r3 & E3 & On3 & R3).
  rewrite length_le_bytes in E3, R3. change (Z.of_nat 4) with 4 in E3, R3.
  change (4 <=? 64 - 52) with true. cbn iota. rewrite E3. cbn [mbind option_bind].
  apply holds_rest in Hh'. rewrite length_le_bytes in Hh'. change (Z.of_nat 4) with 4 in Hh'.
  destruct (read_held file r3 _ _ On3 R3 Hh') as (r4 & E4 & On4 & R4).
  rewrite length_le_bytes in E4. change (Z.of_nat 8) with 8 in E4.
  change (8 <=? 64 - 52 - 4) with true. cbn iota. rewrite E4. cbn [mbind option_bind].
  assert (0 <= default 0 mask < 2 ^ 64) as Hmask.
  { destruct mask as [z|]; simpl; [by apply (ok_mask _ _ _ _ _ Hok)|lia]. }
  rewrite !le_value_bytes_small by done.
  destruct Hfields as (-> & -> & -> & -> & ->).
  rewrite !uuid_representation by apply Hok. cbn [ci_version].
  change (1 =? MinidumpCrashpadInfoWriter.kVersion) with true. cbn [negb ci_simple_annotations].
  destruct (map_child_read annotations file m p 2 r4) as (r5 & E5 & On5); try apply Hok; [|done|].
  { apply (Hoc (map_child annotations) 2%nat). left. }
  change (ReadMinidumpSimpleStringDictionary r4 (info_location m p 2).1 (info_location m p 2).2 =
    Some (annotations, r5)) in E5. rewrite E5. cbn [mbind option_bind]. eauto.
Qed.

(** ** Modules *)

(** What the CodeView record gives to a module that was read. *)
Definition codeview_recovered (c : CodeViewRecord) (x : ModuleSnapshotMinidump) : Prop :=
  match c with
  | PDB20 _ _ _ => False
  | PDB70 uuid age pdb_name =>
      mmod_uuid x = uuid /\ mmod_age x = age /\ mmod_debug_file_name x = pdb_name /\
      mmod_build_id x = []
  | BuildID build_id =>
      mmod_uuid x = InitializeToZero /\ mmod_age x = 0 /\ mmod_debug_file_name x = [] /\
      mmod_build_id x = build_id
  end.
Definition codeview_ok (c : CodeViewRecord) : Prop :=
  match c with
  | PDB20 _ _ _ => False
  | PDB70 uuid age _ => uuid_wf uuid /\ 0 <= age < 2 ^ 32
  | BuildID _ => True
  end.

Lemma codeview_read c file (r : R) o module vector simple_map objects name :
  codeview_ok c -> holds file o (concat (codeview_vectors c)) -> 0 < o < 2 ^ 32 -> on file r ->
  location 76 module = (codeview_size c, o) ->
  exists x r', ModuleSnapshotMinidump.InitializeModuleCodeView r
      (MkModuleMinidump module vector simple_map objects InitializeToZero [] name [] 0) =
      Some (x, r') /\ on file r' /\ codeview_recovered c x /\
    minidump_module_ x = module /\ mmod_name x = name /\ mmod_annotations_vector x = vector /\
    mmod_annotations_simple_map x = simple_map /\ mmod_annotation_objects x = objects.
Proof.
  intros Hok Hh Ho Hon Hloc. unfold ModuleSnapshotMinidump.InitializeModuleCodeView.
  cbn [minidump_module_]. rewrite Hloc.
  assert (Z.of_nat (length (concat (codeview_vectors c))) = codeview_size c) as Hlen.
  { destruct c as [| uuid age n | b]; [done| |]; cbn [codeview_vectors codeview_size concat].
    - rewrite !length_app, !length_le_bytes, length_uuid_bytes. simpl. lia.
    - destruct b; cbn [concat]; rewrite ?app_nil_r, ?length_app, !length_le_bytes; simpl; lia. }
  destruct (read_held_at file r o _ Hon Hh ltac:(lia)) as (r1 & -> & On1 & r2 & E2 & On2 & _).
  rewrite Hlen in E2. cbn [mbind option_bind]. rewrite E2. cbn [mbind option_bind]. clear E2 Hlen.
  destruct c as [| uuid age n | b]; [done| |]; cbn [codeview_vectors codeview_size concat] in *.
  - destruct (Z.ltb_spec (24 + (Z.of_nat (length n) + 1)) 4); [lia|].
    destruct (Z.ltb_spec (24 + (Z.of_nat (length n) + 1)) (24 + 1)); [lia|].
    set (d := (_ ++ _) ++ _ ++ _).
    assert (word 4 0 d = kSignaturePDB70 /\ slice 4 16 d = uuid_bytes uuid /\ word 4 20 d = age)
      as (-> & -> & ->).
    { unfold d. struct_fields. destruct Hok. by rewrite !le_value_4. }
    assert (default 0 (last d) = 0) as ->.
    { unfold d. by rewrite app_nil_r, app_assoc, last_snoc. }
    assert (slice 24 (Z.to_nat (24 + (Z.of_nat (length n) + 1)) - 25) d = n) as ->.
    { unfold d. rewrite app_nil_r. erewrite (slice_skip _ _ 0 24);
        [|by rewrite !length_app, !length_le_bytes, length_uuid_bytes|done].
      apply slice_here. lia. }
    rewrite uuid_representation by apply Hok. rewrite Z.eqb_refl. cbn [negb].
    eexists _, r2. split; [done|]. by split_and!.
  - destruct (Z.ltb_spec (4 + Z.of_nat (length b)) 4); [lia|].
    assert (concat (match b with [] => [] | _ => [b] end) = b) as ->.
    { destruct b; cbn [concat]; by rewrite ?app_nil_r. }
    assert (word 4 0 (le_bytes 4 kSignatureBuildID ++ b) = kSignatureBuildID) as ->.
    { struct_fields. by rewrite le_value_4. }
    rewrite drop_app_length' by (by rewrite length_le_bytes).
    change (kSignatureBuildID =? kSignaturePDB70) with false.
    rewrite Z.eqb_refl. eexists _, r2. split; [done|]. by split_and!.
Qed.

(** A version is split into two words and put together again. *)
Definition version_ok (v : Z * Z * Z * Z) : Prop :=
  let '(v0, v1, v2, v3) := v in Forall (fun z => 0 <= z < 2 ^ 16) [v0; v1; v2; v3].

Lemma word_pair a b :
  0 <= a < 2 ^ 16 -> 0 <= b < 2 ^ 16 ->
  Z.lor (wrap 32 (Z.shiftl a 16)) b = b + a * 2 ^ 16.
Proof.
  intros Ha Hb. rewrite wrap_small by (rewrite Z.shiftl_mul_pow2; lia).
  rewrite Z.lor_comm. apply lor_shiftl_add; lia.
Qed.

Lemma split_pair a b :
  0 <= a < 2 ^ 16 -> 0 <= b < 2 ^ 16 ->
  wrap 16 (Z.shiftr (b + a * 2 ^ 16) 16) = a /\ wrap 16 (Z.land (b + a * 2 ^ 16) 65535) = b.
Proof.
  intros Ha Hb. split.
  - rewrite Z.shiftr_div_pow2, Z.div_add, Z.div_small by lia. by apply wrap_small.
  - change 65535 with (Z.ones 16). rewrite Z.land_ones, Z.mod_add, Z.mod_small by lia.
    by apply wrap_small.
Qed.

Lemma version_round_trip v :
  version_ok v ->
  0 <= fst (version_words v) < 2 ^ 32 /\ 0 <= snd (version_words v) < 2 ^ 32 /\
  ModuleSnapshotMinidump.split_version (fst (version_words v)) (snd (version_words v)) = v.
Proof.
  destruct v as [[[v0 v1] v2] v3]. unfold version_ok. rewrite !Forall_cons.
  intros (V0 & V1 & V2 & V3 & _). unfold version_words, ModuleSnapshotMinidump.split_version.
  cbn [fst snd]. rewrite !word_pair by done. split; [lia|]. split; [lia|].
  destruct (split_pair v0 v1) as [-> ->]; [done..|].
  by destruct (split_pair v2 v3) as [-> ->].
Qed.

(** What can be recovered of a module. *)
Record module_ok (UTF8ToUTF16 : bytes -> bool * list Z) (UTF16ToUTF8 : list Z -> bool * bytes)
    (s : ModuleSnapshot) : Prop := {
  mok_address : 0 <= mod_address s < 2 ^ 64;
  mok_file_version : version_ok (mod_file_version s);
  mok_source_version : version_ok (mod_source_version s);
  mok_uuid : uuid_wf (mod_uuid s);
  mok_age : 0 <= mod_age s < 2 ^ 32;
  mok_info : module_info_ok s;
  mok_units : Forall (fun u => 0 <= u < 2 ^ 16) (snd (UTF8ToUTF16 (mod_name s)));
  mok_name_length : Z.of_nat (length (snd (UTF8ToUTF16 (mod_name s)))) * 2 < 2 ^ 64;
  mok_name : snd (UTF16ToUTF8 (snd (UTF8ToUTF16 (mod_name s)))) = mod_name s
}.

(** The module that was read is the one of the snapshot, up to what the format
    cannot express: a size or a time of more than 32 bits, the kind of a library,
    and the debug information of a module with a build ID. *)
Record module_recovered (s : ModuleSnapshot) (x : ModuleSnapshotMinidump) : Prop := {
  mrec_address : ModuleSnapshotMinidump.Address x = mod_address s;
  mrec_size : ModuleSnapshotMinidump.Size x = InRangeCast uint32_t (mod_size s) (2 ^ 32 - 1);
  mrec_timestamp : ModuleSnapshotMinidump.Timestamp x = u32 (mod_timestamp s);
  mrec_file_version : ModuleSnapshotMinidump.FileVersion x = mod_file_version s;
  mrec_source_version : ModuleSnapshotMinidump.SourceVersion x = mod_source_version s;
  mrec_type : ModuleSnapshotMinidump.GetModuleType x =
    match mod_type s with
    | kModuleTypeExecutable => kModuleTypeExecutable
    | kModuleTypeSharedLibrary | kModuleTypeLoadableModule => kModuleTypeSharedLibrary
    | _ => kModuleTypeUnknown
    end;
  mrec_name : mmod_name x = mod_name s;
  mrec_debug :
    match mod_build_id s with
    | [] => mmod_uuid x = mod_uuid s /\ mmod_age x = mod_age s /\
            mmod_debug_file_name x = mod_debug_file_name s /\ mmod_build_id x = []
    | b => mmod_build_id x = b
    end;
  mrec_vector : mmod_annotations_vector x = mod_annotations_vector s;
  mrec_simple_map : mmod_annotations_simple_map x = mod_annotations_simple_map s;
  mrec_objects : mmod_annotation_objects x = mod_annotation_objects s
}.

Lemma in_range_cast_u32 z d : 0 <= d < 2 ^ 32 -> 0 <= InRangeCast uint32_t z d < 2 ^ 32.
Proof.
  intros Hd. unfold InRangeCast. destruct (in_range uint32_t z) eqn:E.
  - rewrite cast_in_range by done. by apply fits_spec in E.
  - rewrite cast_in_range; [done|done|]. by apply fits_spec.
Qed.

Lemma module_entry_fields s m p :
  version_ok (mod_file_version s) -> version_ok (mod_source_version s) ->
  0 <= mod_address s < 2 ^ 64 ->
  let d := module_entry_bytes (module_from_snapshot s) m p in
  word 8 0 d = mod_address s /\ word 4 8 d = InRangeCast uint32_t (mod_size s) (2 ^ 32 - 1) /\
  word 4 16 d = u32 (mod_timestamp s) /\ word 4 20 d = le_value (le_bytes 4 (field m (p, 0%nat))) /\
  ModuleSnapshotMinidump.split_version (word 4 32 d) (word 4 36 d) = mod_file_version s /\
  ModuleSnapshotMinidump.split_version (word 4 40 d) (word 4 44 d) = mod_source_version s /\
  word 4 60 d = fst (mw_file_type_and_subtype (module_from_snapshot s)) /\
  location 76 d = info_location m p 1.
Proof.
  intros Hf Hs Ha d.
  destruct (version_round_trip _ Hf) as (F1 & F2 & F). destruct (version_round_trip _ Hs) as (S1 & S2 & Sv).
  unfold d, module_entry_bytes, module_from_snapshot.
  cbn [mw_base_of_image mw_size_of_image mw_checksum mw_time_date_stamp mw_file_version
       mw_product_version mw_file_flags_and_mask mw_file_os mw_file_type_and_subtype fst snd].
  cbn [Nat.add]. struct_fields. rewrite le_value_8 by done.
  rewrite (le_value_4 (InRangeCast _ _ _)) by (by apply in_range_cast_u32).
  rewrite (le_value_4 (AssignTimeT _)) by (by apply wrap_bound).
  rewrite (le_value_4 (fst (version_words (mod_file_version s)))),
    (le_value_4 (snd (version_words (mod_file_version s)))),
    (le_value_4 (fst (version_words (mod_source_version s)))),
    (le_value_4 (snd (version_words (mod_source_version s)))) by done.
  rewrite (le_value_4 (match mod_type s with kModuleTypeExecutable => _ | _ => _ end))
    by (by destruct (mod_type s)).
  by split_and!.
Qed.

Definition module_codeview (s : ModuleSnapshot) : CodeViewRecord :=
  match mod_build_id s with [] => pdb70_from_snapshot s | build_id => BuildID build_id end.

(** The objects below a module. *)
Lemma module_tree UTF8ToUTF16 s q t m file :
  freeze_module UTF8ToUTF16 (module_from_snapshot s) q = Some t ->
  Forall (stored file m) (Children t) ->
  exists name ocv, field m (q, 0%nat) = name /\ 0 < name < 2 ^ 32 /\
    (exists tn, MinidumpStringWriter.Freeze (MinidumpUTF16StringWriter UTF8ToUTF16 (mod_name s))
        (q ++ [0%nat]) = Some tn /\ holds file name (object_bytes m (root tn))) /\
    info_location m q 1 = (codeview_size (module_codeview s), ocv) /\ 0 < ocv < 2 ^ 32 /\
    holds file ocv (concat (codeview_vectors (module_codeview s))).
Proof.
  unfold freeze_module. cbn [freeze_children]. intros Ef Hst.
  destruct (MinidumpStringWriter.Freeze _ _) as [tn|] eqn:En; [|done].
  unfold module_children, module_from_snapshot in Ef.
  cbn [mw_codeview_record mw_misc_debug_record] in Ef. fold (module_codeview s) in Ef.
  cbn [fmap option_fmap option_map present map fst snd freeze_children freeze_codeview] in Ef.
  apply (inj Some) in Ef as <-. cbn [Children register_descriptors] in Hst.
  apply Forall_cons in Hst as [Hn Hst]. apply Forall_cons in Hst as [Hc _].
  destruct (rva_target _ _ _ _ Hn) as (name & E1 & Hname & Hhn & _).
  destruct (descriptor_target _ _ _ _ Hc) as (ocv & E2 & E3 & Hcv & Hsz & Hhc & _).
  { cbn [root SizeOfObject object_at]. unfold codeview_size. destruct (module_codeview s); lia. }
  exists name, ocv. split_and!; try done; try lia.
  - by exists tn.
  - unfold info_location. unfold descriptor_size, descriptor_rva in E2, E3. simpl fst in E3.
    simpl snd in E3. rewrite E2, E3, !le_value_4 by lia. done.
Qed.

Lemma module_read UTF8ToUTF16 UTF16ToUTF8 s q t m file (r : R) rva info :
  module_ok UTF8ToUTF16 UTF16ToUTF8 s ->
  freeze_module UTF8ToUTF16 (module_from_snapshot s) q = Some t ->
  Forall (stored file m) (Children t) ->
  holds file rva (module_entry_bytes (module_from_snapshot s) m q) -> rva < 2 ^ 32 -> on file r ->
  (forall r : R, on file r -> exists r', InitializeModuleCrashpadInfo r info =
     Some (mod_annotations_vector s, mod_annotations_simple_map s, mod_annotation_objects s, r') /\
     on file r') ->
  exists x r', ModuleSnapshotMinidump.Initialize UTF16ToUTF8 r rva info = Some (x, r') /\ on file r' /\
    module_recovered s x.
Proof.
  intros Hok Ef Hst Hh Hrva Hon Hinfo.
  destruct (module_tree _ _ _ _ _ _ Ef Hst)
    as (name & ocv & E1 & Hname & (tn & En & Hhn) & Eloc & Hcv & Hhc).
  destruct (module_entry_fields s m q) as (W0 & W8 & W16 & W20 & Vf & Vs & W60 & L76); try apply Hok.
  set (d := module_entry_bytes _ _ _) in *.
  assert (length d = 108%nat) as Hl.
  { unfold d, module_entry_bytes. by rewrite !length_app, !length_descriptor_bytes, !length_le_bytes. }
  unfold ModuleSnapshotMinidump.Initialize.
  destruct (read_held_at file r rva d Hon Hh ltac:(lia)) as (r1 & -> & On1 & r2 & E2 & On2 & _).
  rewrite Hl in E2. change (Z.of_nat 108) with 108 in E2. cbn [mbind option_bind].
  rewrite E2. cbn [mbind option_bind].
  destruct (Hinfo r2 On2) as (r3 & -> & On3). cbn [mbind option_bind].
  rewrite W20, E1, le_value_4 by lia. unfold ReadMinidumpUTF16String.
  destruct (string_read 2 (snd (UTF8ToUTF16 (mod_name s))) _ tn m file r3 name ltac:(lia)
    (mok_units _ _ _ Hok) En (mok_name_length _ _ _ Hok) Hhn ltac:(lia) On3) as (r4 & -> & On4).
  cbn [mbind option_bind]. rewrite (mok_name _ _ _ Hok).
  assert (word 4 80 d = ocv) as ->.
  { rewrite Eloc in L76. unfold location in L76. by injection L76. }
  destruct (Z.eqb_spec ocv 0); [lia|].
  destruct (codeview_read (module_codeview s) file r4 ocv d (mod_annotations_vector s)
    (mod_annotations_simple_map s) (mod_annotation_objects s) (mod_name s))
    as (x & r5 & -> & On5 & Hcvr & Emod & Enm & Ev & Em & Eo); try done.
  { unfold module_codeview. destruct (mod_build_id s); [|done]. split; apply Hok. }
  exists x, r5. split; [done|]. split; [done|].
  unfold ModuleSnapshotMinidump.Initialize in *. split; try done;
    unfold ModuleSnapshotMinidump.Address, ModuleSnapshotMinidump.Size,
      ModuleSnapshotMinidump.Timestamp, ModuleSnapshotMinidump.FileVersion,
      ModuleSnapshotMinidump.SourceVersion, ModuleSnapshotMinidump.GetModuleType;
    rewrite ?Emod; try done.
  - rewrite W60. unfold module_from_snapshot. cbn [mw_file_type_and_subtype fst].
    by destruct (mod_type s).
  - unfold module_codeview in Hcvr. destruct (mod_build_id s); [done|]. apply Hcvr.
Qed.

(** ** Links to the information of the modules *)

Definition info_writer (s : ModuleSnapshot) : MinidumpModuleCrashpadInfoWriter.t :=
  MinidumpModuleCrashpadInfoWriter.InitializeFromSnapshot s.

(** The modules that have information, with their indices. *)
Fixpoint useful_from (i : nat) (l : list ModuleSnapshot) : list (ModuleSnapshot * nat) :=
  match l with
  | [] => []
  | s :: l' => (if MinidumpModuleCrashpadInfoWriter.IsUseful (info_writer s) then [(s, i)] else []) ++
               useful_from (S i) l'
  end.

Lemma add_useful_spec acc i l :
  Z.of_nat (i + length l) <= 2 ^ 32 ->
  MinidumpModuleCrashpadInfoListWriter.add_useful acc i l =
  acc ++ map (fun sj => (info_writer (fst sj), Z.of_nat (snd sj))) (useful_from i l).
Proof.
  revert acc i. induction l as [|s l IH]; intros acc i Hl; simpl; [by rewrite app_nil_r|].
  simpl in Hl. rewrite IH by lia. fold (info_writer s).
  destruct (MinidumpModuleCrashpadInfoWriter.IsUseful (info_writer s)); [|done].
  unfold MinidumpModuleCrashpadInfoListWriter.AddModule.
  assert (AssignIfInRange uint32_t (Z.of_nat i) = Some (Z.of_nat i)) as ->.
  { apply AssignIfInRange_Some; [done|]. split; [|done]. apply fits_spec. simpl. lia. }
  by rewrite <-app_assoc.
Qed.

Lemma useful_from_ge i l s j : (s, j) ∈ useful_from i l -> (i <= j < i + length l)%nat.
Proof.
  revert i. induction l as [|s' l IH]; intros i; simpl; [by intros ?%not_elem_of_nil|].
  intros [Hin|Hin]%elem_of_app; [|apply IH in Hin; lia].
  destruct (MinidumpModuleCrashpadInfoWriter.IsUseful _); [|by apply not_elem_of_nil in Hin].
  apply list_elem_of_singleton in Hin as [= -> ->]. lia.
Qed.

Lemma useful_from_NoDup i l : NoDup (map snd (useful_from i l)).
Proof.
  revert i. induction l as [|s l IH]; intros i; simpl; [constructor|].
  destruct (MinidumpModuleCrashpadInfoWriter.IsUseful _); [|apply IH]. simpl.
  apply NoDup_cons. split; [|apply IH]. intros Hin. apply list_elem_of_fmap in Hin as ([s' j] & -> & Hin).
  apply useful_from_ge in Hin. simpl in Hin. lia.
Qed.

Lemma useful_from_in i l j s :
  l !! j = Some s ->
  (if MinidumpModuleCrashpadInfoWriter.IsUseful (info_writer s)
   then (s, (i + j)%nat) ∈ useful_from i l else (i + j)%nat ∉ map snd (useful_from i l)).
Proof.
  revert i j. induction l as [|s' l IH]; intros i j Ej; [done|]. destruct j as [|j]; simpl in *.
  - injection Ej as ->. rewrite Nat.add_0_r.
    destruct (MinidumpModuleCrashpadInfoWriter.IsUseful (info_writer s)); simpl; [left|].
    intros Hin. apply list_elem_of_fmap in Hin as ([s'' k] & -> & Hin).
    apply useful_from_ge in Hin. simpl in Hin. lia.
  - specialize (IH (S i) j Ej). rewrite Nat.add_succ_r.
    destruct (MinidumpModuleCrashpadInfoWriter.IsUseful (info_writer s)).
    + apply elem_of_app. by right.
    + rewrite map_app. intros [Hin|Hin]%elem_of_app; [|done].
      destruct (MinidumpModuleCrashpadInfoWriter.IsUseful (info_writer s')); simpl in Hin;
        [|by apply not_elem_of_nil in Hin].
      apply list_elem_of_singleton in Hin. lia.
Qed.

(** A module without information has no annotations. *)
Lemma not_useful_empty s :
  module_info_ok s -> MinidumpModuleCrashpadInfoWriter.IsUseful (info_writer s) = false ->
  mod_annotations_vector s = [] /\ mod_annotations_simple_map s = [] /\ mod_annotation_objects s = [].
Proof.
  intros (_ & _ & Hs & _) Hu. unfold info_writer in Hu.
  pose proof (module_info_children s) as Hc.
  unfold MinidumpModuleCrashpadInfoWriter.IsUseful, MinidumpModuleCrashpadInfoWriter.children in *.
  set (x := MinidumpModuleCrashpadInfoWriter.InitializeFromSnapshot s) in *.
  destruct (MinidumpModuleCrashpadInfoWriter.list_annotations_ x); [done|].
  destruct (MinidumpModuleCrashpadInfoWriter.simple_annotations_ x); [done|].
  destruct (MinidumpModuleCrashpadInfoWriter.annotation_objects_ x); [done|].
  simpl in Hc. injection Hc as Hv Hm Ho. unfold map_child in Hm.
  rewrite (MinidumpSimpleStringDictionaryWriter.initialize_sorted _ Hs) in Hm.
  split_and!.
  - by destruct (mod_annotations_vector s).
  - by destruct (mod_annotations_simple_map s).
  - by destruct (mod_annotation_objects s).
Qed.

(** The links, one structure each. *)
Fixpoint links_entries (m : fields_map) (p : path) (i : nat)
    (l : MinidumpModuleCrashpadInfoListWriter.t) : list bytes :=
  match l with
  | [] => []
  | (_, index) :: l' =>
      (le_bytes 4 index ++ descriptor_bytes m (p, (2 * i)%nat)) :: links_entries m p (S i) l'
  end.

Lemma links_entries_concat m p i l :
  MinidumpModuleCrashpadInfoListWriter.links_bytes m p i l = concat (links_entries m p i l).
Proof.
  revert i; induction l as [|[y index] l IH]; intros i; [done|].
  cbn [MinidumpModuleCrashpadInfoListWriter.links_bytes links_entries concat].
  by rewrite IH, <-app_assoc.
Qed.
Lemma length_links_entries m p i l : length (links_entries m p i l) = length l.
Proof. revert i; induction l as [|[y index] l IH]; intros i; simpl; auto. Qed.
Lemma links_entries_Forall m p i l : Forall (fun b => length b = 12%nat) (links_entries m p i l).
Proof.
  revert i; induction l as [|[y index] l IH]; intros i; constructor; [|apply IH].
  by rewrite length_app, length_le_bytes, length_descriptor_bytes.
Qed.

Definition parsed_links (m : fields_map) (p : path) (i : nat) (l : list (ModuleSnapshot * nat))
    : list (Z * (Z * Z)) :=
  imap (fun k sj => (Z.of_nat (snd sj), info_location m p (2 * (i + k))%nat)) l.

Lemma links_parsed m p i (l : list (ModuleSnapshot * nat)) :
  Forall (fun sj => Z.of_nat (snd sj) < 2 ^ 32) l ->
  map parse_link (links_entries m p i
    (map (fun sj => (info_writer (fst sj), Z.of_nat (snd sj))) l)) = parsed_links m p i l.
Proof.
  intros Hl. revert i. induction Hl as [|[s j] l Hj _ IH]; intros i; [done|].
  unfold parsed_links in *. cbn [map links_entries imap]. f_equal.
  - unfold parse_link. rewrite Nat.add_0_r. cbn [Nat.add]. struct_fields. unfold info_location.
    simpl in Hj. by rewrite (le_value_4 (Z.of_nat _)) by (simpl; lia).
  - rewrite IH. apply imap_ext. intros k sj _. unfold compose. do 3 f_equal. lia.
Qed.

Lemma parsed_links_keys m p i l : map fst (parsed_links m p i l) = map Z.of_nat (map snd l).
Proof.
  unfold parsed_links. revert i. induction l as [|sj l IH]; intros i; [done|].
  cbn [imap map fst]. f_equal. etrans; [|apply (IH (S i))]. f_equal.
  apply imap_ext. intros k y _. unfold compose. do 3 f_equal. lia.
Qed.

Lemma register_each_lookup reg i ts k t :
  ts !! k = Some t -> register_each reg i ts !! k = Some (reg (i + k)%nat t).
Proof.
  revert i k; induction ts as [|t' ts IH]; intros i k Ek; [done|]. destruct k as [|k]; simpl in *.
  - injection Ek as ->. by rewrite Nat.add_0_r.
  - rewrite (IH _ _ Ek). by rewrite Nat.add_succ_r.
Qed.

(** The information of the [k]-th linked module. *)
Lemma linked_info (ws : list (MinidumpModuleCrashpadInfoWriter.t * Z)) p w ts m file k y idx :
  MinidumpModuleCrashpadInfoListWriter.list_owned ws ->
  freeze_children p 0
    (map (fun mi => MinidumpModuleCrashpadInfoWriter.Freeze (fst mi)) ws) = Some ts ->
  let cs := register_each (fun i => RegisterLocationDescriptor (p, (2 * i)%nat)) 0 ts in
  only p (Node w cs) m -> writable_slots w = [] -> Forall (stored file m) cs ->
  ws !! k = Some (y, idx) ->
  exists t, MinidumpModuleCrashpadInfoWriter.Freeze y (p ++ [k]) = Some t /\ only (p ++ [k]) t m /\
    stored file m (RegisterLocationDescriptor (p, (2 * k)%nat) t).
Proof.
  intros Ho Ec cs Hon Hw Hst Ek.
  destruct (freeze_children_lookup p 0 _ ts k (MinidumpModuleCrashpadInfoWriter.Freeze y) Ec)
    as (t & Et & Ft).
  { by rewrite list_lookup_fmap, Ek. }
  pose proof (register_each_lookup (fun i => RegisterLocationDescriptor (p, (2 * i)%nat)) 0 ts k t Et)
    as Ecs. fold cs in Ecs. rewrite Nat.add_0_l in Ft, Ecs.
  apply freeze_children_adopted in Ec as [Ha _].
  2: { apply Forall_fmap. eapply Forall_impl; [exact Ho|]. intros mi.
       apply MinidumpModuleCrashpadInfoWriter.module_info_freeze_owned. }
  exists t. split_and!; [done| |].
  - eapply only_unregister; [apply (registered_descriptor [] (p, (2 * k)%nat)), registered_refl| |].
    { repeat constructor; apply child_not_self. }
    eapply (only_child p w); [exact Hon| | |exact Ecs].
    + apply (adopted_register p (fun i => RegisterLocationDescriptor (p, (2 * i)%nat))
        (fun i => [(p, (2 * i)%nat); (p, S (2 * i))])); [|exact Ha].
      intros i t0 t1 Hr. by apply registered_descriptor.
    + rewrite Hw. simpl. rewrite concat_descriptor_slots. apply Forall_field_slots.
  - rewrite Forall_forall in Hst. apply Hst. by eapply list_elem_of_lookup_2.
Qed.

(** A module's information is read through the descriptor of its link. *)
Lemma described_module_read s p k tk m file (r : R) :
  module_info_ok s -> MinidumpModuleCrashpadInfoWriter.Freeze (info_writer s) (p ++ [k]) = Some tk ->
  only (p ++ [k]) tk m -> stored file m (RegisterLocationDescriptor (p, (2 * k)%nat) tk) -> on file r ->
  exists r', InitializeModuleCrashpadInfo r (Some (info_location m p (2 * k))) =
    Some (mod_annotations_vector s, mod_annotations_simple_map s, mod_annotation_objects s, r') /\
    on file r'.
Proof.
  intros Hs Ft Hok' Hsk Hr.
  assert (0 <= SizeOfObject (root tk)) as Hsz.
  { eapply frozen_size; [|exact Ft]. apply MinidumpModuleCrashpadInfoWriter.module_info_freeze_owned,
      MinidumpModuleCrashpadInfoWriter.module_info_initialize_list_owned. }
  destruct (descriptor_target _ _ _ _ Hsk Hsz) as (ok & D1 & D2 & Hok2 & Hszb & Hhk & Hck).
  unfold descriptor_size, descriptor_rva in D1, D2. cbn [fst snd] in D2.
  unfold info_location. rewrite D1, D2, !le_value_4 by lia.
  by apply (module_info_read s (p ++ [k]) tk m file r ok); try done; lia.
Qed.

(** The links are read, and each module's information with them. *)
Lemma module_links_read modules p t m file (r : R) o info :
  Forall module_info_ok modules -> Z.of_nat (length modules) <= 2 ^ 32 ->
  MinidumpModuleCrashpadInfoListWriter.Freeze
    (MinidumpModuleCrashpadInfoListWriter.InitializeFromSnapshot modules) p = Some t ->
  only p t m -> holds file o (object_bytes m (root t)) -> o < 2 ^ 32 ->
  Forall (stored file m) (Children t) -> on file r ->
  ci_version info = 1 -> ci_module_list info = (SizeOfObject (root t), o) ->
  exists links r', InitializeModulesCrashpadInfo info r = Some (links, r') /\ on file r' /\
    forall j s (r : R), modules !! j = Some s -> on file r ->
      exists r', InitializeModuleCrashpadInfo r (links !! Z.of_nat j) =
        Some (mod_annotations_vector s, mod_annotations_simple_map s, mod_annotation_objects s, r') /\
        on file r'.
Proof.
  intros Hok Hlen Ef Hon Hh Ho Hst Hr Hver Hml.
  unfold MinidumpModuleCrashpadInfoListWriter.InitializeFromSnapshot in Ef.
  rewrite add_useful_spec in Ef by (simpl; lia). rewrite app_nil_l in Ef.
  set (us := useful_from 0 modules) in *.
  set (ws := map (fun sj => (info_writer (fst sj), Z.of_nat (snd sj))) us) in *.
  assert (Forall (fun sj => Z.of_nat (snd sj) < 2 ^ 32) us) as Hus.
  { apply Forall_forall. intros [s j] Hj%useful_from_ge. simpl. lia. }
  unfold MinidumpModuleCrashpadInfoListWriter.Freeze in Ef.
  destruct (freeze_children p 0 _) as [ts|] eqn:Ec; [|done].
  destruct (AssignIfInRange _ _) as [n|] eqn:En; [|done].
  apply AssignIfInRange_Some in En as [Hn ->]; [|done]. apply fits_spec in Hn. simpl in Hn.
  apply (inj Some) in Ef as <-. cbn [root Children SizeOfObject object_at] in *.
  assert (MinidumpModuleCrashpadInfoListWriter.list_owned ws) as Hwo.
  { unfold ws. apply Forall_fmap, Forall_true. intros sj.
    apply MinidumpModuleCrashpadInfoWriter.module_info_initialize_list_owned. }
  assert (length ws = length us) as Hlw by (unfold ws; by rewrite length_map).
  destruct (read_counted_held file r o 12 (links_entries m p 0 ws) Hr Ho) as (r1 & E1 & On1).
  - rewrite length_links_entries. lia.
  - apply links_entries_Forall.
  - rewrite length_links_entries. unfold object_bytes in Hh. cbn [WriteObject object_at concat] in Hh.
    rewrite links_entries_concat in Hh.
    destruct (Nat.eqb_spec (length ws) 0) as [E0|]; cbn [concat] in Hh.
    + destruct ws; [done|simpl in E0; lia].
    + by rewrite app_nil_r in Hh.
  - unfold InitializeModulesCrashpadInfo. rewrite Hver, Hml, Z.eqb_refl. cbn [negb].
    pose proof Hh as (Hpos & _). destruct (Z.eqb_spec o 0); [lia|].
    rewrite length_links_entries in E1. change (Z.of_nat 12) with 12 in E1. rewrite E1.
    cbn [mbind option_bind]. unfold ws at 1. rewrite links_parsed by done.
    destruct (insert_unique_spec ∅ (parsed_links m p 0 us)) as (links & -> & Hin & Hout).
    { rewrite parsed_links_keys. apply NoDup_fmap_2; [apply _|]. apply useful_from_NoDup. }
    { apply Forall_true. intros e. apply lookup_empty. }
    cbn [mbind option_bind]. exists links, r1. split; [done|]. split; [done|].
    intros j s r' Ej Hr'. pose proof (useful_from_in 0 modules j s Ej) as Hj. fold us in Hj.
    assert (module_info_ok s) as Hs.
    { rewrite Forall_forall in Hok. apply Hok. by eapply list_elem_of_lookup_2. }
    destruct (MinidumpModuleCrashpadInfoWriter.IsUseful (info_writer s)) eqn:Eu.
    + apply list_elem_of_lookup in Hj as (k & Ek).
      rewrite (Hin (Z.of_nat j) (info_location m p (2 * k))).
      2: { apply (list_elem_of_lookup_2 _ k). unfold parsed_links. by rewrite list_lookup_imap, Ek. }
      destruct (linked_info ws p _ ts m file k (info_writer s) (Z.of_nat (0 + j)) Hwo Ec Hon
        ltac:(done) Hst) as (tk & Ft & Hok' & Hsk); [by unfold ws; rewrite list_lookup_fmap, Ek|].
      by eapply described_module_read.
    + rewrite Hout.
      2: { rewrite parsed_links_keys. intros Hk. apply list_elem_of_fmap in Hk as (j' & E & Hk).
           apply Nat2Z.inj in E. subst j'. by apply Hj. }
      rewrite lookup_empty. destruct (not_useful_empty s Hs Eu) as (-> & -> & ->).
      exists r'. done.
Qed.

(** ** The module list *)

Lemma entry_held {A} (e : A -> fields_map -> path -> bytes) k file o m p i l j y :
  (forall y m p, length (e y m p) = k) -> holds file o (concat (entries_bytes e m p i l)) ->
  l !! j = Some y -> holds file (o + Z.of_nat (j * k)) (e y m (p ++ [(i + j)%nat])).
Proof.
  intros Hk. revert i j o. induction l as [|y' l IH]; intros i j o Hh Ej; [done|].
  cbn [entries_bytes concat] in Hh. destruct j as [|j]; simpl in Ej.
  - injection Ej as ->. rewrite Nat.add_0_r, Z.add_0_r. by apply holds_head in Hh.
  - apply holds_rest in Hh. rewrite Hk in Hh. specialize (IH _ _ _ Hh Ej).
    rewrite Nat.add_succ_r. cbn [Nat.add] in IH.
    replace (o + Z.of_nat (S j * k)) with (o + Z.of_nat k + Z.of_nat (j * k)) by lia. done.
Qed.

Section ModuleList.
  Context (UTF8ToUTF16 : bytes -> bool * list Z) (UTF16ToUTF8 : list Z -> bool * bytes).
  Context (modules : list ModuleSnapshot) (p : path) (ts : list Tree) (m : fields_map).
  Context (file : bytes) (o : Z) (links : gmap Z (Z * Z)).
  Context (Hok : Forall (module_ok UTF8ToUTF16 UTF16ToUTF8) modules).
  Context (Hts : freeze_children p 0
    (map (freeze_module UTF8ToUTF16) (modules_from_snapshots modules)) = Some ts).
  Context (Hst : Forall (stored file m) ts).
  Context (Hentries : holds file (o + 4)
    (concat (entries_bytes module_entry_bytes m p 0 (modules_from_snapshots modules)))).
  Context (Hsmall : Z.of_nat (length file) < 2 ^ 32).
  Context (Ho : 0 < o).
  Context (Hlinks : forall j s (r : R), modules !! j = Some s -> on file r ->
    exists r', InitializeModuleCrashpadInfo r (links !! Z.of_nat j) =
      Some (mod_annotations_vector s, mod_annotations_simple_map s, mod_annotation_objects s, r') /\
      on file r').

Lemma read_modules_recovers j n (r : R) :
  (j + n = length modules)%nat -> on file r ->
  exists xs r', read_modules UTF16ToUTF8 r o links j n = Some (xs, r') /\ on file r' /\
    Forall2 module_recovered (drop j modules) xs.
Proof using All.
  revert j r. induction n as [|n IH]; intros j r Hj Hon.
  { exists [], r. split_and!; [done|done|]. rewrite drop_ge by lia. constructor. }
  destruct (lookup_lt_is_Some_2 modules j) as [s Es]; [lia|].
  assert (modules_from_snapshots modules !! j = Some (module_from_snapshot s)) as Esj.
  { unfold modules_from_snapshots. by rewrite list_lookup_fmap, Es. }
  assert (forall y m p, length (module_entry_bytes y m p) = 108%nat) as Hl.
  { intros. unfold module_entry_bytes.
    by rewrite !length_app, !length_descriptor_bytes, !length_le_bytes. }
  pose proof (entry_held module_entry_bytes 108 file (o + 4) m p 0 _ j _ Hl Hentries Esj) as Hh.
  rewrite Nat.add_0_l in Hh. pose proof Hh as (_ & Hend & _). rewrite Hl in Hend.
  destruct (freeze_children_lookup p 0 _ ts j (freeze_module UTF8ToUTF16 (module_from_snapshot s)) Hts)
    as (t & Et & Ft).
  { by rewrite list_lookup_fmap, Esj. }
  assert (Forall (stored file m) (Children t)) as Hct.
  { rewrite Forall_forall in Hst. pose proof (Hst t ltac:(by eapply list_elem_of_lookup_2)) as Hs.
    apply Forall_forall. intros c Hc. destruct t. by eapply stored_child. }
  cbn [read_modules].
  replace (wrap 32 (o + 4 + Z.of_nat j * 108)) with (o + 4 + Z.of_nat (j * 108))
    by (rewrite wrap_small; lia).
  destruct (module_read UTF8ToUTF16 UTF16ToUTF8 s (p ++ [j]) t m file r (o + 4 + Z.of_nat (j * 108))
    (links !! Z.of_nat j)) as (x & r1 & -> & On1 & Hrec); try done; [|lia|by intros; apply Hlinks|].
  { rewrite Forall_forall in Hok. apply Hok. by eapply list_elem_of_lookup_2. }
  cbn [mbind option_bind]. destruct (IH (S j) r1) as (xs & r2 & -> & On2 & Hrecs); [lia|done|].
  cbn [mbind option_bind]. exists (x :: xs), r2. split_and!; [done|done|].
  rewrite (drop_S _ _ _ Es). by constructor.
Qed.

End ModuleList.

Lemma modules_read UTF8ToUTF16 UTF16ToUTF8 modules p t m file (r r1 : R) o sm info links :
  Forall (module_ok UTF8ToUTF16 UTF16ToUTF8) modules ->
  freeze_module_list UTF8ToUTF16 (modules_from_snapshots modules) p = Some t ->
  holds file o (object_bytes m (root t)) -> 0 < o < 2 ^ 32 -> Z.of_nat (length file) < 2 ^ 32 ->
  Forall (stored file m) (Children t) ->
  sm !! kMinidumpStreamTypeModuleList = Some (SizeOfObject (root t), o) ->
  InitializeModulesCrashpadInfo info r = Some (links, r1) -> on file r1 ->
  (forall j s (r : R), modules !! j = Some s -> on file r ->
    exists r', InitializeModuleCrashpadInfo r (links !! Z.of_nat j) =
      Some (mod_annotations_vector s, mod_annotations_simple_map s, mod_annotation_objects s, r') /\
      on file r') ->
  exists xs r', InitializeModules UTF16ToUTF8 sm info r = Some (xs, r') /\ on file r' /\
    Forall2 module_recovered modules xs.
Proof.
  intros Hok Ef Hh Ho Hsmall Hst Hsm Hl On1 Hlinks. unfold freeze_module_list in Ef.
  destruct (freeze_children _ _ _) as [ts|] eqn:Ec; [|done].
  destruct (AssignIfInRange _ _) as [n|] eqn:En; [|done].
  apply AssignIfInRange_Some in En as [Hn ->]; [|done]. apply fits_spec in Hn. simpl in Hn.
  apply (inj Some) in Ef as <-. cbn [root Children SizeOfObject stream_at] in *.
  assert (length (modules_from_snapshots modules) = length modules) as Hlm by apply length_map.
  unfold object_bytes in Hh. cbn [WriteObject stream_at concat] in Hh. rewrite Hlm in Hn, Hh, Hsm.
  unfold InitializeModules. rewrite Hsm, Hl. cbn [mbind option_bind].
  destruct (Z.ltb_spec (4 + Z.of_nat (length modules) * 108) 4); [lia|].
  destruct (read_counted_word file r1 o _ _ On1 Hh ltac:(lia) ltac:(lia))
    as (r2 & -> & r3 & E3 & Ev & On3 & _ & Hp).
  cbn [mbind option_bind]. rewrite E3. cbn [mbind option_bind].
  rewrite Ev, Z.eqb_refl, Nat2Z.id. cbn [negb].
  destruct (read_modules_recovers UTF8ToUTF16 UTF16ToUTF8 modules p ts m file o links Hok Ec Hst Hp
    Hsmall ltac:(lia) Hlinks 0 (length modules) r3 eq_refl On3) as (xs & r4 & E4 & On4 & Hrec).
  rewrite drop_0 in Hrec. eauto.
Qed.

(** ** The memory map *)

Definition memory_info_ok (x : MINIDUMP_MEMORY_INFO) : Prop :=
  0 <= mi_base_address x < 2 ^ 64 /\ 0 <= mi_allocation_base x < 2 ^ 64 /\
  0 <= mi_allocation_protect x < 2 ^ 32 /\ 0 <= mi_region_size x < 2 ^ 64 /\
  0 <= mi_state x < 2 ^ 32 /\ 0 <= mi_protect x < 2 ^ 32 /\ 0 <= mi_type x < 2 ^ 32.

Lemma memory_info_parsed x : memory_info_ok x -> parse_memory_info (memory_info_bytes x) = x.
Proof.
  intros (H2 & H3 & H4 & H5 & H6 & H7 & H8). unfold parse_memory_info, memory_info_bytes.
  struct_fields. rewrite !le_value_8, !le_value_4 by done. by destruct x.
Qed.

Lemma length_memory_info_bytes x : length (memory_info_bytes x) = 48%nat.
Proof. unfold memory_info_bytes. by rewrite !length_app, !length_le_bytes. Qed.

Lemma read_memory_infos_held l file (r : R) o :
  Forall memory_info_ok l -> on file r -> remaining r = drop (Z.to_nat o) file ->
  holds file o (concat (map memory_info_bytes l)) ->
  exists r', read_memory_infos r (length l) = Some (l, r') /\ on file r'.
Proof.
  intros Hok. revert r o. induction Hok as [|x l Hx _ IH]; intros r o Hon Hr Hh.
  { exists r. done. }
  cbn [map concat] in Hh. cbn [length read_memory_infos].
  destruct (read_held file r o _ Hon Hr (holds_head _ _ _ _ Hh)) as (r1 & E1 & On1 & R1).
  rewrite length_memory_info_bytes in E1, R1. change (Z.of_nat 48) with 48 in E1. rewrite E1.
  cbn [mbind option_bind]. apply holds_rest in Hh. rewrite length_memory_info_bytes in Hh.
  destruct (IH r1 _ On1 R1 Hh) as (r2 & -> & On2). cbn [mbind option_bind].
  rewrite memory_info_parsed by done. eauto.
Qed.

Lemma memory_info_read l p t m file (r : R) o sm :
  Forall memory_info_ok l -> freeze_memory_info l p = Some t ->
  holds file o (object_bytes m (root t)) -> 0 < o < 2 ^ 32 -> SizeOfObject (root t) < 2 ^ 32 ->
  sm !! kMinidumpStreamTypeMemoryInfoList = Some (SizeOfObject (root t), o) -> on file r ->
  exists r', InitializeMemoryInfo sm r = Some (l, r') /\ on file r'.
Proof.
  intros Hok <-%(inj Some) Hh Ho Hsz Hsm Hon. cbn [root SizeOfObject stream_at] in *.
  unfold object_bytes in Hh. cbn [WriteObject stream_at concat] in Hh.
  unfold InitializeMemoryInfo. rewrite Hsm.
  destruct (Z.ltb_spec (16 + 48 * Z.of_nat (length l)) 16); [lia|].
  set (hd := le_bytes 4 16 ++ le_bytes 4 48 ++ le_bytes 8 (Z.of_nat (length l))) in *.
  assert (length hd = 16%nat) as Hlh by (unfold hd; by rewrite !length_app, !length_le_bytes).
  destruct (read_held_at file r o _ Hon (holds_head _ _ _ _ Hh) ltac:(lia))
    as (r1 & -> & On1 & r2 & E2 & On2 & R2).
  rewrite Hlh in E2, R2. change (Z.of_nat 16) with 16 in E2. cbn [mbind option_bind].
  rewrite E2. cbn [mbind option_bind].
  assert (word 4 0 hd = 16 /\ word 4 4 hd = 48 /\ word 8 8 hd = Z.of_nat (length l)) as (-> & -> & ->).
  { unfold hd. struct_fields. by rewrite !le_value_4, le_value_8 by lia. }
  rewrite !Z.eqb_refl. cbn [negb].
  rewrite !wrap_small; [|lia|rewrite wrap_small; lia].
  replace (16 + Z.of_nat (length l) * 48) with (16 + 48 * Z.of_nat (length l)) by lia.
  rewrite Z.eqb_refl, Nat2Z.id. cbn [negb]. apply holds_rest in Hh. rewrite Hlh in Hh.
  by apply (read_memory_infos_held l file r2 (o + Z.of_nat 16)).
Qed.

(** ** User streams *)

(** The bytes of the [i]-th stream, and the streams outside of the reserved types
    from the [i]-th one on. *)
Definition stream_bytes (tree : Tree) (i : nat) (s : StreamWriter) : bytes :=
  match FreezeStream s [i] with
  | Some t => object_bytes (final_fields tree) (root t)
  | None => []
  end.
Fixpoint custom_from (tree : Tree) (i : nat) (l : list StreamWriter) : list (Z * bytes) :=
  match l with
  | [] => []
  | s :: l' =>
      if reserved_stream (StreamType s) then custom_from tree (S i) l'
      else (StreamType s, stream_bytes tree i s) :: custom_from tree (S i) l'
  end.

Lemma custom_streams_read x tree file i l (r : R) :
  written x tree file ->
  (forall j s, l !! j = Some s -> MinidumpFileWriter.streams_ x !! (i + j)%nat = Some s) ->
  on file r ->
  exists r', InitializeCustomMinidumpStreams (directory_from tree i l) r =
    Some (custom_from tree i l, r') /\ on file r'.
Proof.
  intros Hx. revert i r. induction l as [|s l IH]; intros i r Hl Hon.
  { exists r. by split. }
  assert (forall j s', l !! j = Some s' ->
    MinidumpFileWriter.streams_ x !! (S i + j)%nat = Some s') as Hl'.
  { intros j s' Ej. specialize (Hl (S j) s' Ej). by rewrite Nat.add_succ_r in Hl. }
  cbn [directory_from InitializeCustomMinidumpStreams custom_from].
  destruct (reserved_stream (StreamType s)) eqn:Er; [by apply IH|].
  destruct (written_stream x tree file Hx i s) as (t & o & Ft & _ & -> & -> & Ho & Hsz & Hh & _).
  { specialize (Hl 0%nat s eq_refl). by rewrite Nat.add_0_r in Hl. }
  assert (Z.of_nat (length (object_bytes (final_fields tree) (root t))) = SizeOfObject (root t)) as Hlen.
  { pose proof (written_streams _ _ _ Hx) as Hs. rewrite Forall_forall in Hs.
    specialize (Hl 0%nat s eq_refl). apply list_elem_of_lookup_2 in Hl.
    destruct (Hs s Hl) as (_ & Hso & _). pose proof (owned_lawful _ _ (Hso _ _ Ft)) as Hla.
    destruct t. apply Forall_cons in Hla as [(_ & Hw & _) _]. apply Hw. }
  destruct (read_held_at file r o _ Hon Hh ltac:(lia)) as (r1 & -> & On1 & r2 & E2 & On2 & _).
  rewrite Hlen in E2. cbn [mbind option_bind]. rewrite E2. cbn [mbind option_bind].
  destruct (IH (S i) r2 Hl' On2) as (r' & -> & On'). cbn [mbind option_bind].
  exists r'. split; [|done]. unfold stream_bytes. by rewrite Ft.
Qed.

(** ** The whole file *)

Lemma written_stream_map x tree file :
  written x tree file ->
  exists sm, insert_unique ∅ (written_directory x tree) = Some sm /\
    (forall i s, MinidumpFileWriter.streams_ x !! i = Some s -> sm !! StreamType s =
       Some (field (final_fields tree) ([i], 0%nat), field (final_fields tree) ([i], 1%nat))) /\
    (forall ty, ty ∉ map StreamType (MinidumpFileWriter.streams_ x) -> sm !! ty = None).
Proof.
  intros Hx. destruct (written_types _ _ _ Hx) as [Hn _].
  destruct (insert_unique_spec ∅ (written_directory x tree)) as (sm & E & Hin & Hout).
  { unfold written_directory. by rewrite directory_types. }
  { apply Forall_true. intros e. apply lookup_empty. }
  exists sm. split_and!; [done| |].
  - intros i s Ei. apply Hin. eapply list_elem_of_lookup_2.
    unfold written_directory. by rewrite (directory_from_lookup _ 0 _ i s Ei).
  - intros ty Hty. unfold written_directory in Hout. rewrite directory_types in Hout.
    rewrite Hout by done. apply lookup_empty.
Qed.

Lemma directory_recovered_lemma x tree file (r : R) :
  written x tree file -> on file r ->
  exists directory sm r', InitializeDirectory r =
      Some (MinidumpFileWriter.TimeDateStamp x, directory, r') /\ on file r' /\
    directory = written_directory x tree /\
    insert_unique ∅ directory = Some sm /\
    (forall ty, ty ∉ map StreamType (MinidumpFileWriter.streams_ x) -> sm !! ty = None) /\
    forall i s, MinidumpFileWriter.streams_ x !! i = Some s ->
      exists t o, FreezeStream s [i] = Some t /\ only [i] t (final_fields tree) /\
        sm !! StreamType s = Some (SizeOfObject (root t), o) /\ 0 < o < 2 ^ 32 /\
        SizeOfObject (root t) < 2 ^ 32 /\ holds file o (object_bytes (final_fields tree) (root t)) /\
        Forall (stored file (final_fields tree)) (Children t).
Proof.
  intros Hx Hon. destruct (directory_read x tree file r Hx Hon) as (r' & E & On').
  destruct (written_stream_map x tree file Hx) as (sm & Esm & Hin & Hout).
  exists (written_directory x tree), sm, r'. split_and!; [done..|].
  intros i s Ei. rewrite (Hin i s Ei).
  destruct (written_stream x tree file Hx i s Ei) as (t & o & Ft & Hon' & -> & -> & Ho & Hsz & Hh & Hc).
  exists t, o. split_and!; try done; lia.
Qed.

(** C10.  The directory of a written file is read back: the header is accepted, the
    timestamp is that of the writer, no type is reported twice, a type the writer
    did not add is absent, and the entry of every stream has its size and an
    offset at which the file has the bytes of the stream. *)
Theorem directory_recovered (x : MinidumpFileWriter.t) (tree : Tree) (file : bytes) (r : R) :
  written x tree file -> on file r ->
  exists directory sm r', InitializeDirectory r =
      Some (MinidumpFileWriter.TimeDateStamp x, directory, r') /\
    insert_unique ∅ directory = Some sm /\
    (forall ty, ty ∉ map StreamType (MinidumpFileWriter.streams_ x) -> sm !! ty = None) /\
    forall i s, MinidumpFileWriter.streams_ x !! i = Some s ->
      exists t o, FreezeStream s [i] = Some t /\
        sm !! StreamType s = Some (SizeOfObject (root t), o) /\
        holds file o (object_bytes (final_fields tree) (root t)).
Proof.
  intros Hx Hon. destruct (directory_recovered_lemma x tree file r Hx Hon)
    as (directory & sm & r' & E & _ & _ & Esm & Hout & Hin).
  exists directory, sm, r'. split_and!; [done..|]. intros i s Ei.
  destruct (Hin i s Ei) as (t & o & Ft & _ & Hsm & _ & _ & Hh & _). eauto 6.
Qed.

(** The modules and the links to their information, from the Crashpad information
    that was read. *)
Lemma links_recovered modules m p file info (r : R) :
  Forall module_info_ok modules -> Z.of_nat (length modules) <= 2 ^ 32 ->
  (forall c, modules_child modules = Some c -> exists j t', c (p ++ [j]) = Some t' /\
     only (p ++ [j]) t' m /\ stored file m (RegisterLocationDescriptor (p, 4%nat) t')) ->
  optional_child file m p (modules_child modules) 4 ->
  ci_version info = 1 -> ci_module_list info = info_location m p 4 -> on file r ->
  exists links r', InitializeModulesCrashpadInfo info r = Some (links, r') /\ on file r' /\
    forall j s (r : R), modules !! j = Some s -> on file r ->
      exists r', InitializeModuleCrashpadInfo r (links !! Z.of_nat j) =
        Some (mod_annotations_vector s, mod_annotations_simple_map s, mod_annotation_objects s, r') /\
        on file r'.
Proof.
  intros Hok Hlen Hsome Hoc Hver Hml Hr. unfold modules_child in *.
  destruct (MinidumpModuleCrashpadInfoListWriter.InitializeFromSnapshot modules) as [|w ws] eqn:Ei.
  - destruct Hoc as [H4 H5]. exists ∅, r. unfold InitializeModulesCrashpadInfo. rewrite Hver, Hml.
    unfold info_location. rewrite H4, H5. split; [done|]. split; [done|]. intros j s r' Ej Hr'.
    rewrite lookup_empty. exists r'.
    unfold MinidumpModuleCrashpadInfoListWriter.InitializeFromSnapshot in Ei.
    rewrite add_useful_spec, app_nil_l in Ei by (simpl; lia). apply map_eq_nil in Ei.
    pose proof (useful_from_in 0 modules j s Ej) as Hj. rewrite Ei in Hj.
    destruct (MinidumpModuleCrashpadInfoWriter.IsUseful (info_writer s)) eqn:Eu;
      [by apply not_elem_of_nil in Hj|].
    rewrite Forall_forall in Hok.
    destruct (not_useful_empty s) as (-> & -> & ->); [|done|done].
    apply Hok. by eapply list_elem_of_lookup_2.
  - destruct (Hsome _ eq_refl) as (j & t' & Ft & Hon & Hst). rewrite <-Ei in Ft.
    assert (0 <= SizeOfObject (root t')) as Hsz.
    { eapply frozen_size; [|exact Ft]. apply MinidumpModuleCrashpadInfoListWriter.module_info_list_freeze_owned,
        MinidumpModuleCrashpadInfoListWriter.module_info_list_initialize_list_owned. }
    destruct (descriptor_target _ _ _ _ Hst Hsz) as (o & D1 & D2 & Ho & Hszb & Hh & Hc).
    unfold descriptor_size, descriptor_rva in D1, D2. cbn [fst snd] in D2.
    apply (module_links_read modules (p ++ [j]) t' m file r o info); try done; [lia|].
    rewrite Hml. unfold info_location. by rewrite D1, D2, !le_value_4 by lia.
Qed.

(** The writer of a file that can be laid out in 4 GiB. *)
Record file_ok (x : MinidumpFileWriter.t) (tree : Tree) : Prop := {
  fok_streams : Forall stream_ok (MinidumpFileWriter.streams_ x);
  fok_types : MinidumpFileWriter.types_ok x;
  fok_timestamp : 0 <= MinidumpFileWriter.TimeDateStamp x < 2 ^ 32;
  fok_tree : MinidumpFileWriter.Freeze x MINIDUMP_SIGNATURE = Some tree;
  fok_assignable : assignable (layout tree);
  fok_size : layout_size tree < 2 ^ 32
}.

Lemma write_minidump_written {F : Type} `{FileWriterCapacity F} x tree allow_seek (f : F) :
  file_ok x tree -> writer_valid f -> contents f = [] -> position f = 0%nat ->
  layout_size tree <= capacity ->
  exists f', MinidumpFileWriter.WriteMinidump x allow_seek f = (true, f') /\
    written x tree (contents f') /\ Z.of_nat (length (contents f')) = layout_size tree.
Proof.
  intros [Hs Ht Hts Hf Ha Hsz] Hv Hc Hp Hcap.
  assert (MinidumpFileWriter.streams_owned x) as Hso.
  { eapply Forall_impl; [exact Hs|]. by intros s (_ & ? & _). }
  destruct (MinidumpFileWriter.write_minidump_writes x tree allow_seek f)
    as (f' & E & _ & Hc' & _ & _); try done; [lia| |rewrite Hp; lia|].
  { split; [done|]. rewrite Hc, Hp. simpl. lia. }
  exists f'. split; [done|]. rewrite Hc, Hp in Hc'.
  assert (contents f' = image (final_fields tree) 0 (file_order tree)) as Ec.
  { rewrite Hc'. unfold write_at. simpl. by rewrite drop_nil, app_nil_r. }
  split; [by split|]. rewrite Ec.
  pose proof (MinidumpFileWriter.file_freeze_owned _ _ _ Hso Hf) as Ho.
  rewrite image_length; [unfold layout_size; lia| |].
  - apply file_order_ok. eapply Forall_impl; [apply (owned_lawful _ _ Ho)|]. by intros w [? _].
  - apply file_order_ok. by eapply owned_writes_its_size.
Qed.

Section WholeFile.
  Context (UTF16ToUTF8 : list Z -> bool * bytes).

(** A file with a module list but no Crashpad information is rejected by the
    reader, although [MinidumpFileWriter] leaves the latter out when it has
    nothing to say: [InitializeModulesCrashpadInfo] refuses the version number 0
    of the structure that was never read. *)
Theorem modules_without_info_rejected (x : MinidumpFileWriter.t) (tree : Tree) (file : bytes) (r : R) :
  written x tree file -> on file r ->
  kMinidumpStreamTypeModuleList ∈ map StreamType (MinidumpFileWriter.streams_ x) ->
  kMinidumpStreamTypeCrashpadInfo ∉ map StreamType (MinidumpFileWriter.streams_ x) ->
  kMinidumpStreamTypeMiscInfo ∉ map StreamType (MinidumpFileWriter.streams_ x) ->
  Initialize UTF16ToUTF8 r = Failed.
Proof.
  intros Hx Hon Hml Hci Hmi.
  destruct (directory_recovered_lemma x tree file r Hx Hon)
    as (directory & sm & r1 & E1 & _ & _ & Esm & Hout & Hin).
  apply list_elem_of_fmap in Hml as (y & Ey & Hy). apply list_elem_of_lookup in Hy as (i & Ei).
  destruct (Hin i y Ei) as (t & o & _ & _ & Hsm & _). rewrite <-Ey in Hsm.
  unfold Initialize. rewrite E1. cbn [lift outcome_bind]. rewrite Esm. cbn [lift outcome_bind].
  unfold InitializeCrashpadInfo. rewrite (Hout _ Hci). cbn [lift outcome_bind].
  unfold InitializeMiscInfo. rewrite (Hout _ Hmi). cbn [outcome_bind].
  unfold InitializeModules. by rewrite Hsm.
Qed.

(** The number of parameters of an exception is not checked: for any file
    whose exception stream announces more than the 15 that its structure has,
    [ExceptionSnapshotMinidump::Initialize] reads past the array. *)
Theorem exception_parameters_unchecked (sm : gmap Z (Z * Z)) (arch : CPUArchitecture)
    (file stream : bytes) (size o : Z) (r : R) :
  on file r -> holds file o stream -> length stream = 168%nat -> o < 2 ^ 32 ->
  sm !! kMinidumpStreamTypeException = Some (size, o) -> 168 <= size ->
  15 < word 4 32 stream ->
  InitializeExceptionSnapshot sm arch r = Undefined.
Proof.
  intros Hon Hh Hl Ho Hsm Hsz Hn. unfold InitializeExceptionSnapshot. rewrite Hsm.
  destruct (Z.ltb_spec size 168); [lia|]. unfold InitializeException.
  destruct (read_held_at file r o stream Hon Hh Ho) as (r1 & -> & On1 & r2 & E2 & _).
  cbn [lift outcome_bind]. rewrite Hl in E2. change (Z.of_nat 168) with 168 in E2. rewrite E2.
  cbn [lift outcome_bind].
  destruct (Z.ltb_spec (Z.of_nat MinidumpExceptionWriter.EXCEPTION_MAXIMUM_PARAMETERS)
    (word 4 32 stream)) as [|Hle]; [done|].
  unfold MinidumpExceptionWriter.EXCEPTION_MAXIMUM_PARAMETERS in Hle. lia.
Qed.

End WholeFile.

End ReadBack.

(** ** An example *)

Lemma stream_ok_info report client annotations mask modules :
  stream_ok (MinidumpCrashpadInfoWriter.stream
    (MinidumpCrashpadInfoWriter.InitializeFromSnapshot report client annotations mask modules)).
Proof.
  split_and!; [done|done| |].
  - apply MinidumpCrashpadInfoWriter.crashpad_info_freeze_owned,
      MinidumpCrashpadInfoWriter.crashpad_info_initialize_list_owned.
  - intros p t. simpl. unfold MinidumpCrashpadInfoWriter.Freeze.
    destruct (freeze_children _ _ _); [|done]. intros <-%(inj Some). simpl. left.
Qed.

Lemma stream_ok_modules u l : stream_ok (module_list_stream u (modules_from_snapshots l)).
Proof.
  split_and!; [done|done|apply freeze_module_list_owned|].
  intros p t. simpl. unfold freeze_module_list. destruct (freeze_children _ _ _); [|done].
  destruct (AssignIfInRange _ _); [|done]. intros <-%(inj Some). simpl. left.
Qed.

Lemma stream_ok_memory_info l : stream_ok (memory_info_stream l).
Proof.
  split_and!; [done|done|apply freeze_memory_info_owned|].
  intros p t. simpl. intros <-%(inj Some). simpl. left.
Qed.

Lemma stream_ok_example ty d :
  0 <= ty < 2 ^ 32 -> stream_ok (MinidumpFileWriter.example_stream ty d).
Proof.
  intros Hty. split_and!; [apply Hty|apply Hty|apply MinidumpFileWriter.example_stream_owned|].
  intros p t. simpl. intros <-%(inj Some). simpl. left.
Qed.

Definition example_writer (streams : list StreamWriter) : MinidumpFileWriter.t :=
  MinidumpFileWriter.SetTimestamp
    (fold_left (fun x s => snd (MinidumpFileWriter.AddStream x s)) streams MinidumpFileWriter.init)
    1700000000.
Definition example_tree_of (x : MinidumpFileWriter.t) : Tree :=
  default (Node (MinidumpFileWriter.root_object x 0) []) (MinidumpFileWriter.Freeze x MINIDUMP_SIGNATURE).

Lemma example_writer_types streams : MinidumpFileWriter.types_ok (example_writer streams).
Proof.
  unfold example_writer. cut (MinidumpFileWriter.types_ok
    (fold_left (fun x s => snd (MinidumpFileWriter.AddStream x s)) streams MinidumpFileWriter.init)).
  { by intros [? ?]. }
  pose proof MinidumpFileWriter.init_types_ok as Hi. revert Hi. generalize MinidumpFileWriter.init.
  induction streams as [|s l IH]; intros x Hx; simpl; [done|].
  by apply IH, MinidumpFileWriter.add_stream_types_ok.
Qed.

Lemma example_frozen x :
  match MinidumpFileWriter.Freeze x MINIDUMP_SIGNATURE with Some _ => true | None => false end = true ->
  MinidumpFileWriter.Freeze x MINIDUMP_SIGNATURE = Some (example_tree_of x).
Proof. unfold example_tree_of. by destruct (MinidumpFileWriter.Freeze x MINIDUMP_SIGNATURE). Qed.

(** Decide a closed proposition by evaluation. *)
Ltac decided := apply (bool_decide_unpack _); vm_compute; exact I.

#[export] Instance string_ok_dec s : Decision (string_ok s).
Proof. unfold string_ok. apply _. Defined.
#[export] Instance annotation_ok_dec a : Decision (annotation_ok a).
Proof. unfold annotation_ok. apply _. Defined.
#[export] Instance uuid_wf_dec u : Decision (uuid_wf u).
Proof. unfold uuid_wf. destruct (data_4 u), (data_5 u) as [[[[[]]]]]. apply _. Defined.
#[export] Instance version_ok_dec v : Decision (version_ok v).
Proof. destruct v as [[[]]]. unfold version_ok. apply _. Defined.
#[export] Instance memory_info_ok_dec x : Decision (memory_info_ok x).
Proof. unfold memory_info_ok. apply _. Defined.

Lemma example_info_ok streams : module_info_ok (MinidumpFileWriter.example_module_with streams).
Proof. split_and!; [decided|decided|by split|decided]. Qed.

Lemma example_module_ok streams :
  module_ok MinidumpFileWriter.example_ascii MinidumpFileWriter.example_ascii
    (MinidumpFileWriter.example_module_with streams).
Proof.
  split; [decided|decided|decided|decided|decided|apply example_info_ok|decided|decided|reflexivity].
Qed.

(** A file of the example process with a stream of its own. *)
Definition example_streams : list StreamWriter :=
  [module_list_stream MinidumpFileWriter.example_ascii
     (modules_from_snapshots [MinidumpFileWriter.example_module]);
   MinidumpCrashpadInfoWriter.stream (MinidumpCrashpadInfoWriter.InitializeFromSnapshot
     (MkUUID 1 2 3 (4, 5) (6, 7, 8, 9, 10, 11)) InitializeToZero [(str "pa", str "pb")]
     (Some 281474976710655) [MinidumpFileWriter.example_module]);
   memory_info_stream [MkMemoryInfo 4096 4096 4 8192 4096 4 131072];
   MinidumpFileWriter.example_stream 131072 [7; 8; 9]].

Lemma example_file_ok :
  file_ok (example_writer example_streams) (example_tree_of (example_writer example_streams)).
Proof.
  split.
  - change (MinidumpFileWriter.streams_ (example_writer example_streams)) with example_streams.
    repeat (apply List.Forall_cons;
      [first [apply stream_ok_modules|apply stream_ok_info|apply stream_ok_memory_info
             |by apply stream_ok_example]|]). apply List.Forall_nil.
  - apply example_writer_types.
  - decided.
  - apply example_frozen. vm_compute. reflexivity.
  - decided.
  - decided.
Qed.

(** A reader at the beginning of the contents of a file. *)
Definition example_reader (f : StringFile.t) : StringFile.t := StringFile.Make (StringFile.string_ f) 0.

Lemma example_written streams tree :
  file_ok (example_writer streams) tree ->
  written (example_writer streams) tree (image (final_fields tree) 0 (file_order tree)).
Proof. intros []. by split. Qed.

Lemma directory_recovered_witness :
  let x := example_writer example_streams in
  let tree := example_tree_of x in
  exists directory sm r',
    InitializeDirectory (StringFile.Make (image (final_fields tree) 0 (file_order tree)) 0) =
      Some (1700000000, directory, r') /\
    insert_unique ∅ directory = Some sm /\ sm !! kMinidumpStreamTypeThreadList = None.
Proof.
  intros x tree.
  destruct (directory_recovered x tree _
    (StringFile.Make (image (final_fields tree) 0 (file_order tree)) 0)
    (example_written _ _ example_file_ok)) as (directory & sm & r' & E & Es & Hn & _).
  { split; [|reflexivity]. split; [vm_compute; congruence|vm_compute; reflexivity]. }
  exists directory, sm, r'. split; [exact E|]. split; [exact Es|]. apply Hn. decided.
Defined.

(** The modules alone. *)
Definition example_no_info : list StreamWriter :=
  [module_list_stream MinidumpFileWriter.example_ascii
     (modules_from_snapshots [MinidumpFileWriter.example_module])].

Lemma example_no_info_ok :
  file_ok (example_writer example_no_info) (example_tree_of (example_writer example_no_info)).
Proof.
  split.
  - apply Forall_singleton, stream_ok_modules.
  - apply example_writer_types.
  - decided.
  - apply example_frozen. vm_compute. reflexivity.
  - decided.
  - decided.
Qed.

Lemma modules_without_info_rejected_witness :
  let tree := example_tree_of (example_writer example_no_info) in
  Initialize MinidumpFileWriter.example_ascii
    (StringFile.Make (image (final_fields tree) 0 (file_order tree)) 0) = Failed.
Proof.
  intros tree. apply (modules_without_info_rejected MinidumpFileWriter.example_ascii
    (example_writer example_no_info) tree _ _
    (example_written _ _ example_no_info_ok)).
  - split; [|reflexivity]. split; [vm_compute; congruence|vm_compute; reflexivity].
  - decided.
  - decided.
  - decided.
Defined.

(** A stream that announces 16 parameters, after the first byte of a file. *)
Definition example_exception : bytes := replicate 32 0 ++ le_bytes 4 16 ++ replicate 132 0.

Lemma exception_parameters_unchecked_witness :
  InitializeExceptionSnapshot {[kMinidumpStreamTypeException := (168, 1)]}
    kCPUArchitectureX86_64 (StringFile.Make (0 :: example_exception) 0) = Undefined.
Proof.
  apply (exception_parameters_unchecked {[kMinidumpStreamTypeException := (168, 1)]}
    kCPUArchitectureX86_64 (0 :: example_exception) example_exception 168 1).
  - split; [|reflexivity]. split; [vm_compute; congruence|vm_compute; reflexivity].
  - split_and!; [lia|vm_compute; congruence|reflexivity].
  - reflexivity.
  - lia.
  - apply lookup_singleton_eq.
  - lia.
  - vm_compute. reflexivity.
Defined.
