(* ===== verification/StreamReadBack.v ===== *)
(** * Threads, memory, the exception and the system read back

    What [ProcessSnapshotMinidump::Initialize] finds in the streams that
    [MinidumpFileWriter::InitializeFromSnapshot] always writes: the memory list,
    the threads with their stacks and their contexts, the names of the threads,
    the exception, the system information and the miscellaneous information. *)

From S2P Require Import Prelude.
From S2P Require Import Numeric.
From S2P Require Import Structs.
From S2P Require Import CPUContext.
From S2P Require Import MinidumpContext.
From S2P Require Import FileIO.
From S2P Require Import MemoryRanges.
From S2P Require Import MinidumpWritable.
From S2P Require Import MinidumpObjects.
From S2P Require Import MinidumpStreams.
From S2P Require Import MinidumpModules.
From S2P Require Import MinidumpSystem.
From S2P Require Import MinidumpFile.
From S2P Require Import MinidumpReaders.
From S2P Require Import ProcessSnapshot.
From S2P Require Import RoundTrip.

Section StreamReadBack.
  Context {R : Type} `{FileSeekReaderLaws R}.
  Context (memory : process_memory) (Hmemory : reads_exactly memory).
  Context (file : bytes) (m : fields_map).

(** ** Memory *)

(** The bytes the file has for a range of memory: the memory, or a filler when it
    could not be read. *)
Definition memory_bytes (s : MemorySnapshot) : bytes :=
  match memory (mem_address s) (mem_size s) with
  | Some d => d
  | None => replicate (Z.to_nat (mem_size s)) 254
  end.
Definition memory_recovered (s : MemorySnapshot) : MemorySnapshotMinidump :=
  MkMemoryMinidump (mem_address s) (memory_bytes s).

Lemma length_memory_bytes s : snapshot_ok s -> Z.of_nat (length (memory_bytes s)) = mem_size s.
Proof.
  intros (_ & ? & _). unfold memory_bytes. destruct (memory _ _) as [d|] eqn:E.
  - by apply Hmemory in E.
  - rewrite length_replicate. lia.
Qed.

(** The memory descriptor at [s] is that of a range whose bytes the file has. *)
Record described (x : MemorySnapshot) (s : slot) : Prop := {
  des_ok : snapshot_ok x;
  des_address : field m s = mem_address x;
  des_size : field m (s.1, S s.2) = mem_size x;
  des_small : mem_size x < 2 ^ 32;
  des_rva : 0 < field m (s.1, S (S s.2)) < 2 ^ 32;
  des_holds : holds file (field m (s.1, S (S s.2))) (memory_bytes x)
}.

Lemma stored_described x w o s own :
  snapshot_ok x -> stored_object file m w o -> object_bytes m w = memory_bytes x ->
  SizeOfObject w = mem_size x -> (s.1, S s.2) ∈ registered_location_descriptors_ w ->
  WillWriteAtOffsetImpl w o = Some own -> (s, mem_address x) ∈ own -> described x s.
Proof.
  intros Hx (Hh & (_ & Hd & Hown) & _ & Hb) Eb Es Hin Ew Hs.
  destruct (Hd (s.1, S s.2)) as [E1 E2]; [by apply elem_of_app; left|].
  destruct Hb as [Ho Hsz]; [intros E; rewrite E in Hin; by apply not_elem_of_nil in Hin|].
  unfold descriptor_size, descriptor_rva in E1, E2. cbn [fst snd] in E2.
  rewrite Eb in Hh. pose proof Hh as (Hpos & _). rewrite Es in *.
  split; unfold field; rewrite ?E1, ?E2, ?(Hown _ _ _ Ew Hs); done.
Qed.

(** The writer of a range in the memory list, and that of a stack, whose
    descriptor is also in the thread. *)
Lemma memory_described x q t :
  snapshot_ok x -> SnapshotMinidumpMemoryWriter.Freeze memory x q = Some t -> stored file m t ->
  described x (q, 0%nat).
Proof.
  intros Hx <-%(inj Some) Hst. destruct (stored_root _ _ _ Hst) as (o & Ho).
  eapply stored_described; [done|exact Ho|..]; simpl; rewrite ?SnapshotMinidumpMemoryWriter.AssignIfInRange_address by done;
    [|done|left|done|left].
  unfold object_bytes. simpl. unfold memory_bytes. by destruct (memory _ _).
Qed.

Lemma stack_described x p q t :
  snapshot_ok x -> SnapshotMinidumpMemoryWriter.Freeze memory x q = Some t ->
  stored file m (SnapshotMinidumpMemoryWriter.RegisterMemoryDescriptor x (p, 0%nat) t) ->
  described x (p, 0%nat) /\ described x (q, 0%nat).
Proof.
  intros Hx <-%(inj Some) Hst. destruct (stored_root _ _ _ Hst) as (o & Ho).
  split; (eapply stored_described; [done|exact Ho|..]); simpl;
    rewrite ?SnapshotMinidumpMemoryWriter.AssignIfInRange_address by done;
    try reflexivity; try set_solver;
    unfold object_bytes; simpl; unfold memory_bytes; by destruct (memory _ _).
Qed.

(** [MemorySnapshotMinidump::Initialize] of a descriptor, and of an empty one. *)
Lemma memory_read x s (r : R) rva :
  described x s -> holds file rva (memory_descriptor_bytes m s) -> rva < 2 ^ 32 -> on file r ->
  exists r', InitializeMemory r rva = Some (memory_recovered x, r') /\ on file r'.
Proof.
  intros [Hok Ha Hs Hsm Ho Hh] Hd Hrva Hon. unfold InitializeMemory.
  destruct (read_held_at file r rva _ Hon Hd Hrva) as (r1 & -> & On1 & r2 & E2 & On2 & _).
  rewrite length_memory_descriptor_bytes in E2. cbn [mbind option_bind].
  change (Z.of_nat 16) with 16 in E2. rewrite E2. cbn [mbind option_bind].
  pose proof Hok as (? & ? & ?).
  unfold memory_descriptor_bytes. struct_fields. rewrite Ha, Hs, le_value_8, !le_value_4 by lia.
  destruct (read_held_at file r2 _ _ On2 Hh ltac:(lia)) as (r3 & -> & On3 & r4 & E4 & On4 & _).
  rewrite length_memory_bytes in E4 by done. cbn [mbind option_bind]. rewrite E4.
  cbn [mbind option_bind]. exists r4. by split.
Qed.

Lemma empty_memory_read s (r : R) rva :
  field m s = 0 -> field m (s.1, S s.2) = 0 -> field m (s.1, S (S s.2)) = 0 ->
  holds file rva (memory_descriptor_bytes m s) -> rva < 2 ^ 32 -> on file r ->
  exists r', InitializeMemory r rva = Some (MkMemoryMinidump 0 [], r') /\ on file r'.
Proof.
  intros Ha Hs Ho Hd Hrva Hon. unfold InitializeMemory.
  destruct (read_held_at file r rva _ Hon Hd Hrva) as (r1 & -> & On1 & r2 & E2 & On2 & _).
  rewrite length_memory_descriptor_bytes in E2. cbn [mbind option_bind].
  change (Z.of_nat 16) with 16 in E2. rewrite E2. cbn [mbind option_bind].
  unfold memory_descriptor_bytes. struct_fields. rewrite Ha, Hs, Ho, le_value_8, !le_value_4 by lia.
  destruct (seek_on file r2 0 On2 ltac:(lia)) as (r3 & -> & On3 & R3). cbn [mbind option_bind].
  destruct (read_exactly_on file r3 0 0 On3 R3) as (r4 & -> & On4 & _); [lia..|].
  exists r4. by split.
Qed.

(** The descriptors of the memory list. *)
Lemma memories_read xs qs (r : R) o :
  Forall2 (fun x q => described x (q, 0%nat)) xs qs ->
  holds file o (concat (map (fun q => memory_descriptor_bytes m (q, 0%nat)) qs)) ->
  o + 16 * Z.of_nat (length qs) <= 2 ^ 32 -> on file r ->
  exists r', read_memories r o (length qs) = Some (map memory_recovered xs, r') /\ on file r'.
Proof.
  intros Hd. revert r o. induction Hd as [|x q xs qs Hx _ IH]; intros r o Hh Hb Hon.
  { exists r. by split. }
  cbn [map concat length read_memories] in *. pose proof Hh as (Hpos & _).
  rewrite wrap_small by lia.
  destruct (memory_read x (q, 0%nat) r o Hx (holds_head _ _ _ _ Hh) ltac:(lia) Hon)
    as (r1 & -> & On1). cbn [mbind option_bind].
  apply holds_rest in Hh. rewrite length_memory_descriptor_bytes in Hh.
  destruct (IH r1 (o + 16) Hh ltac:(lia) On1) as (r2 & -> & On2). cbn [mbind option_bind]. eauto.
Qed.

Lemma children_described cs p i ts :
  Forall snapshot_ok cs ->
  freeze_children p i (map (SnapshotMinidumpMemoryWriter.Freeze memory) cs) = Some ts ->
  Forall (stored file m) ts ->
  Forall2 (fun x q => described x (q, 0%nat)) cs (map (fun k => p ++ [k]) (seq i (length cs))).
Proof.
  intros Hcs. revert i ts. induction Hcs as [|c cs Hc _ IH]; intros i ts Ec Hst; [constructor|].
  cbn [map freeze_children] in Ec.
  destruct (SnapshotMinidumpMemoryWriter.Freeze memory c (p ++ [i])) as [t|] eqn:Et; [|done].
  destruct (freeze_children p (S i) _) as [ts'|] eqn:Ets; [|done]. apply (inj Some) in Ec as <-.
  apply Forall_cons in Hst as [Ht Hst]. cbn [length seq map]. constructor.
  - by eapply memory_described.
  - by apply (IH (S i) ts').
Qed.

(** [InitializeExtraMemory]: the stacks, and the other ranges as they were
    coalesced. *)
Lemma extra_memory_read x p t (r : R) o sm :
  Forall snapshot_ok (MinidumpMemoryListWriter.children_ x) ->
  Forall (fun sq => described (fst sq) (snd sq, 0%nat))
    (MinidumpMemoryListWriter.non_owned_memory_writers_ x) ->
  MinidumpMemoryListWriter.Freeze memory x p = Some t ->
  holds file o (object_bytes m (root t)) -> Z.of_nat (length file) < 2 ^ 32 ->
  Forall (stored file m) (Children t) ->
  sm !! kMinidumpStreamTypeMemoryList = Some (SizeOfObject (root t), o) -> on file r ->
  exists cs r',
    CoalesceOwnedMemory (map fst (MinidumpMemoryListWriter.non_owned_memory_writers_ x))
      (MinidumpMemoryListWriter.children_ x) = Some cs /\
    InitializeExtraMemory sm r = Some (map memory_recovered
      (map fst (MinidumpMemoryListWriter.non_owned_memory_writers_ x) ++ cs), r') /\ on file r'.
Proof.
  intros Hch Hno Ef Hh Hsmall Hst Hsm Hon. unfold MinidumpMemoryListWriter.Freeze in Ef.
  destruct (CoalesceOwnedMemory _ _) as [cs|] eqn:Eco; [|done].
  set (all := MinidumpMemoryListWriter.all_memory_writers x p (length cs)) in *.
  destruct (freeze_children p 0 _) as [ts|] eqn:Ec; [|done].
  destruct (AssignIfInRange _ _) as [n|] eqn:En; [|done].
  apply AssignIfInRange_Some in En as [Hn ->]; [|done]. apply fits_spec in Hn. simpl in Hn.
  apply (inj Some) in Ef as <-. cbn [root Children SizeOfObject stream_at] in *.
  unfold object_bytes in Hh. cbn [WriteObject stream_at concat] in Hh.
  assert (Forall2 (fun x q => described x (q, 0%nat))
    (map fst (MinidumpMemoryListWriter.non_owned_memory_writers_ x) ++ cs) all) as Hall.
  { apply Forall2_app.
    - clear -Hno. induction Hno as [|[s q] l Hs _ IH]; simpl; by constructor.
    - eapply children_described; [by eapply coalesce_owned_ok|exact Ec|exact Hst]. }
  unfold InitializeExtraMemory. rewrite Hsm.
  destruct (Z.ltb_spec (4 + Z.of_nat (length all) * 16) 4); [lia|].
  pose proof Hh as (Hpos & Hend & _). rewrite length_app, length_le_bytes,
    MinidumpMemoryListWriter.length_memory_descriptors in Hend.
  pose proof (holds_rest _ _ _ _ Hh) as Ht. rewrite length_le_bytes in Ht.
  destruct Hon as [Hv Hw]. destruct (seek_set_reads r o Hv ltac:(lia)) as (r1 & -> & V1 & W1 & R1 & G1).
  cbn [mbind option_bind].
  destruct (read_held file r1 o _ (conj V1 (eq_trans W1 Hw)) ltac:(congruence) (holds_head _ _ _ _ Hh))
    as (r2 & E2 & On2 & _).
  pose proof (read_exactly_advances _ _ _ _ V1 E2) as G2. rewrite length_le_bytes in E2, G2.
  change (Z.of_nat 4) with 4 in *. rewrite E2. cbn [mbind option_bind].
  rewrite le_value_4, Nat2Z.id, G2, G1 by lia.
  destruct (memories_read _ all r2 (o + 4) Hall Ht ltac:(lia) On2) as (r3 & E3 & On3). eauto.
Qed.

(** The objects of the entries of a list. *)
Lemma entry_tree {A} (freeze : A -> Freezable) p size write (l : list A) ts j y :
  Forall (fun x => freezes_owned (freeze x)) l -> freeze_children p 0 (map freeze l) = Some ts ->
  only p (Node (stream_at p size write) ts) m -> Forall (stored file m) ts -> l !! j = Some y ->
  exists t, freeze y (p ++ [j]) = Some t /\ only (p ++ [j]) t m /\ Forall (stored file m) (Children t).
Proof.
  intros Hl Ec Hon Hst Ej.
  destruct (freeze_children_lookup p 0 _ ts j (freeze y) Ec) as (t & Et & Ft).
  { by rewrite list_lookup_fmap, Ej. }
  exists t. split_and!; [done| |].
  - apply freeze_children_adopted in Ec as [Ha _]; [|by apply Forall_fmap].
    rewrite length_map in Ha. eapply only_child; [exact Hon|exact Ha| |exact Et].
    apply stream_slots_distinct.
  - rewrite Forall_forall in Hst. pose proof (Hst t ltac:(by eapply list_elem_of_lookup_2)) as Hs.
    apply Forall_forall. intros c Hc. destruct t. by eapply stored_child.
Qed.

(** ** Threads *)

Section Threads.

(** The stack and the context of a thread. *)
Lemma thread_tree x p t :
  MinidumpThreadWriter.thread_ok x -> MinidumpThreadWriter.Freeze memory x p = Some t ->
  only p t m -> Forall (stored file m) (Children t) ->
  exists c o, MinidumpThreadWriter.context_ x = Some c /\
    info_location m p 3 = (Z.of_nat (length (context_bytes c)), o) /\ 0 < o < 2 ^ 32 /\
    holds file o (context_bytes c) /\
    match MinidumpThreadWriter.stack_ x with
    | Some s => described s (p, 0%nat) /\ described s (p ++ [0%nat], 0%nat)
    | None => field m (p, 0%nat) = 0 /\ field m (p, 1%nat) = 0 /\ field m (p, 2%nat) = 0
    end.
Proof.
  intros [Hstk Hctx] Ef Hon Hst. unfold MinidumpThreadWriter.Freeze in Ef.
  destruct (MinidumpThreadWriter.context_ x) as [c|]; [|done]. specialize (Hctx c eq_refl).
  assert (forall tc q, freeze_context c q = Some tc ->
    stored file m (RegisterLocationDescriptor (p, 3%nat) tc) -> exists o,
      info_location m p 3 = (Z.of_nat (length (context_bytes c)), o) /\ 0 < o < 2 ^ 32 /\
      holds file o (context_bytes c)) as Hc.
  { intros tc q <-%(inj Some) Hs. destruct (descriptor_target _ _ _ _ Hs) as (o & E1 & E2 & ? & ? & Hh & _).
    { simpl. lia. }
    exists o. unfold info_location. unfold descriptor_size, descriptor_rva in E1, E2.
    cbn [fst snd] in E2. rewrite E1, E2, !le_value_4 by (simpl in *; lia). done. }
  destruct (MinidumpThreadWriter.stack_ x) as [s|].
  - cbn [freeze_children] in Ef.
    destruct (SnapshotMinidumpMemoryWriter.Freeze memory s (p ++ [0%nat])) as [ts|] eqn:Es; [|done].
    destruct (freeze_context c (p ++ [1%nat])) as [tc|] eqn:Ec; [|done]. apply (inj Some) in Ef as <-.
    cbn [Children] in Hst. apply Forall_cons in Hst as [Hs Hst]. apply Forall_cons in Hst as [Hcs _].
    destruct (Hc tc _ Ec Hcs) as (o & ? & ? & ?). exists c, o. do 4 (split; [done|]).
    by apply (stack_described s p (p ++ [0%nat]) ts (Hstk s eq_refl) Es Hs).
  - destruct (freeze_children p 0 _) as [[|tc [|]]|] eqn:Ec; try done. apply (inj Some) in Ef as <-.
    pose proof Ec as Ec'. cbn [freeze_children] in Ec'.
    destruct (freeze_context c (p ++ [0%nat])) as [tc'|] eqn:Ec0; [|done]. injection Ec' as ->.
    cbn [Children] in Hst. apply Forall_cons in Hst as [Hcs _].
    destruct (Hc tc _ Ec0 Hcs) as (o & ? & ? & ?). exists c, o. do 4 (split; [done|]).
    apply freeze_children_adopted in Ec as [Ha _]; [|by apply Forall_singleton, freeze_context_owned].
    inversion Ha as [|? ? ? ? ? ? O1 R1 Ha']; subst.
    assert (adopted p 0 [[(p, 3%nat); (p, 4%nat)]] [RegisterLocationDescriptor (p, 3%nat) tc]) as Had.
    { econstructor; [exact O1|by apply (registered_descriptor [] (p, 3%nat))|done]. }
    assert (forall k, k <> 3%nat -> k <> 4%nat -> field m (p, k) = 0) as Hk; [|by auto].
    intros k K3 K4. eapply only_absent; [exact Hon|exact Had|simpl; by repeat constructor|].
    simpl. rewrite !not_elem_of_cons. split_and!; [congruence|congruence|apply not_elem_of_nil].
Qed.

(** A thread that was read is that of the snapshot, with the 32-bit ID it was
    given; a thread without a stack has an empty one. *)
Record thread_recovered (names : gmap Z bytes) (ids : gmap Z Z)
    (s : ThreadSnapshot) (x : ThreadSnapshotMinidump) : Prop := {
  trec_id : ids !! thr_id s = Some (ThreadSnapshotMinidump.ThreadID x);
  trec_name : ThreadSnapshotMinidump.ThreadName x =
    default [] (names !! ThreadSnapshotMinidump.ThreadID x);
  trec_suspend_count : ThreadSnapshotMinidump.SuspendCount x = thr_suspend_count s;
  trec_priority : ThreadSnapshotMinidump.Priority x = thr_priority s;
  trec_data : ThreadSnapshotMinidump.ThreadSpecificDataAddress x = thr_specific_data_address s;
  trec_context : ThreadSnapshotMinidump.Context_ x = recorded (thr_context s);
  trec_stack : ThreadSnapshotMinidump.Stack x =
    match thr_stack s with
    | Some stack => if 0 <? mem_size stack then memory_recovered stack else MkMemoryMinidump 0 []
    | None => MkMemoryMinidump 0 []
    end
}.

(** The fields of a thread the format has room for, and a context of the
    architecture of the system. *)
Record thread_read_ok (arch : CPUArchitecture) (s : ThreadSnapshot) : Prop := {
  tro_suspend_count : - 2 ^ 31 <= thr_suspend_count s < 2 ^ 31;
  tro_priority : - 2 ^ 31 <= thr_priority s < 2 ^ 31;
  tro_data : 0 <= thr_specific_data_address s < 2 ^ 64;
  tro_context : CPUContext_.architecture (thr_context s) = arch
}.


(** The fields of a thread. *)
Lemma thread_fields x p :
  0 <= MinidumpThreadWriter.ThreadId x < 2 ^ 32 -> 0 <= MinidumpThreadWriter.SuspendCount x < 2 ^ 32 ->
  0 <= MinidumpThreadWriter.Priority x < 2 ^ 32 -> 0 <= MinidumpThreadWriter.Teb x < 2 ^ 64 ->
  let d := MinidumpThreadWriter.thread_bytes x m p in
  word 4 0 d = MinidumpThreadWriter.ThreadId x /\ word 4 4 d = MinidumpThreadWriter.SuspendCount x /\
  word 4 12 d = MinidumpThreadWriter.Priority x /\ word 8 16 d = MinidumpThreadWriter.Teb x /\
  location 40 d = info_location m p 3.
Proof.
  intros ? ? ? ? d. unfold d, MinidumpThreadWriter.thread_bytes, memory_descriptor_bytes.
  cbn [fst snd]. struct_fields. by rewrite !le_value_4, !le_value_8 by done.
Qed.

(** The stack a thread is written with. *)
Definition kept_stack (s : ThreadSnapshot) : option MemorySnapshot :=
  match thr_stack s with
  | Some stack => if 0 <? mem_size stack then Some stack else None
  | None => None
  end.

Lemma thread_initialized ids s x :
  MinidumpThreadWriter.InitializeFromSnapshot s ids = Some x ->
  ids !! thr_id s = Some (MinidumpThreadWriter.ThreadId x) /\
  MinidumpThreadWriter.SuspendCount x = u32 (thr_suspend_count s) /\
  MinidumpThreadWriter.Priority x = u32 (thr_priority s) /\
  MinidumpThreadWriter.Teb x = thr_specific_data_address s /\
  MinidumpThreadWriter.stack_ x = kept_stack s /\ 
  CreateFromSnapshot (thr_context s) = Some (MinidumpThreadWriter.context_ x) /\
  (MinidumpThreadListWriter.snapshot_thread_ok s -> MinidumpThreadWriter.thread_ok x).
Proof.
  unfold MinidumpThreadWriter.InitializeFromSnapshot, kept_stack.
  destruct (ids !! thr_id s) as [id|]; [|done].
  destruct (CreateFromSnapshot (thr_context s)) as [w|] eqn:Ew; [|done].
  intros <-%(inj Some). split_and!; try done.
  intros (Hstk & _ & _). split; simpl; [|by intros c ->; eapply created_alignment]. intros st.
  destruct (thr_stack s) as [st'|]; [|done]. destruct (0 <? mem_size st'); [|done].
  intros [= <-]. by apply Hstk.
Qed.

(** The stack of a thread at [rva]. *)
Lemma thread_stack_read x p (r : R) rva :
  match MinidumpThreadWriter.stack_ x with
  | Some s => described s (p, 0%nat) /\ described s (p ++ [0%nat], 0%nat)
  | None => field m (p, 0%nat) = 0 /\ field m (p, 1%nat) = 0 /\ field m (p, 2%nat) = 0
  end ->
  holds file rva (MinidumpThreadWriter.thread_bytes x m p) -> rva + 48 <= 2 ^ 32 -> on file r ->
  exists r', InitializeMemory r (u32 (rva + 24)) =
    Some (from_option memory_recovered (MkMemoryMinidump 0 []) (MinidumpThreadWriter.stack_ x), r') /\
    on file r'.
Proof.
  intros Hstack Hh Hrva Hr. pose proof Hh as (Hpos & _). rewrite wrap_small by lia.
  assert (holds file (rva + 24) (memory_descriptor_bytes m (p, 0%nat))) as Hhs.
  { unfold MinidumpThreadWriter.thread_bytes in Hh. do 5 apply holds_rest in Hh.
    rewrite !length_le_bytes in Hh. apply holds_head in Hh.
    replace (rva + 24) with (rva + Z.of_nat 4 + Z.of_nat 4 + Z.of_nat 4 + Z.of_nat 4 + Z.of_nat 8) by lia.
    done. }
  destruct (MinidumpThreadWriter.stack_ x) as [st|].
  - apply (memory_read st (p, 0%nat)); [by apply Hstack|done|lia|done].
  - destruct Hstack as (F0 & F1 & F2). apply (empty_memory_read (p, 0%nat)); try done; lia.
Qed.

Lemma thread_read ids s x p t (r : R) rva arch names :
  thread_read_ok arch s -> MinidumpThreadListWriter.snapshot_thread_ok s ->
  MinidumpThreadWriter.InitializeFromSnapshot s ids = Some x ->
  0 <= MinidumpThreadWriter.ThreadId x < 2 ^ 32 ->
  MinidumpThreadWriter.Freeze memory x p = Some t -> only p t m ->
  Forall (stored file m) (Children t) ->
  holds file rva (MinidumpThreadWriter.thread_bytes x m p) -> rva + 48 <= 2 ^ 32 -> on file r ->
  exists y r', InitializeThread r rva arch names = Some (y, r') /\ on file r' /\
    thread_recovered names ids s y.
Proof.
  intros [Hsus Hpri Hdat Hconv] Hok (Eid & Es & Ep & Et & Estk & Ec & Hx)%thread_initialized Hid Ef
    Hon Hst Hh Hrva Hr.
  destruct (thread_tree x p t (Hx Hok) Ef Hon Hst) as (c & o & Ec' & El & Ho & Hhc & Hstack).
  destruct (context_written (thr_context s)) as (w & Ew & Ectx & _); [apply Hok|].
  replace w with c in * by congruence. rewrite Hconv in Ectx.
  destruct (thread_fields x p) as (W0 & W4 & W12 & W16 & W40);
    [done|rewrite Es; by apply wrap_bound|rewrite Ep; by apply wrap_bound|by rewrite Et|].
  assert (forall r : R, on file r -> exists r', InitializeMemory r (u32 (rva + 24)) =
    Some (from_option memory_recovered (MkMemoryMinidump 0 []) (MinidumpThreadWriter.stack_ x), r') /\
    on file r') as Hread by (intros; by apply (thread_stack_read x p)).
  pose proof (MinidumpThreadWriter.length_thread_bytes x m p) as Hld.
  set (d := MinidumpThreadWriter.thread_bytes _ _ _) in *. unfold InitializeThread.
  destruct (read_held_at file r rva d Hr Hh ltac:(lia)) as (r1 & -> & On1 & r2 & E2 & On2 & _).
  rewrite Hld in E2. change (Z.of_nat 48) with 48 in E2. cbn [mbind option_bind]. rewrite E2.
  cbn [mbind option_bind]. rewrite W40, El.
  destruct (read_held_at file r2 o _ On2 Hhc ltac:(lia)) as (r3 & -> & On3 & r4 & E4 & On4 & _).
  cbn [mbind option_bind]. rewrite E4. cbn [mbind option_bind]. rewrite Ectx. cbn [mbind option_bind].
  destruct (Hread r4 On4) as (r5 & -> & On5). cbn [mbind option_bind].
  eexists _, r5. split; [done|]. split; [done|].
  split; unfold ThreadSnapshotMinidump.ThreadID, ThreadSnapshotMinidump.ThreadName,
    ThreadSnapshotMinidump.SuspendCount, ThreadSnapshotMinidump.Priority,
    ThreadSnapshotMinidump.ThreadSpecificDataAddress, ThreadSnapshotMinidump.Stack; simpl.
  - by rewrite W0.
  - done.
  - rewrite W4, Es. by apply wrap_signed_wrap.
  - rewrite W12, Ep. by apply wrap_signed_wrap.
  - by rewrite W16.
  - done.
  - rewrite Estk. unfold kept_stack. destruct (thr_stack s) as [st|]; [|done]. by destruct (0 <? mem_size st).
Qed.

(** The threads of the list. *)
Definition ids_ok (ids : gmap Z Z) : Prop := forall a v, ids !! a = Some v -> 0 <= v < 2 ^ 32.

Lemma threads_owned ids snapshots threads :
  Forall MinidumpThreadListWriter.snapshot_thread_ok snapshots ->
  Forall2 (fun s x => MinidumpThreadWriter.InitializeFromSnapshot s ids = Some x) snapshots threads ->
  Forall (fun x => freezes_owned (MinidumpThreadWriter.Freeze memory x)) threads.
Proof.
  intros Hok Hinit. induction Hinit as [|s x l l' Ex _ IH]; [constructor|].
  apply Forall_cons in Hok as [Hs Hl]. constructor; [|by apply IH].
  apply MinidumpThreadWriter.thread_freeze_owned; [done|].
  by apply (thread_initialized _ _ _ Ex).
Qed.

Section ThreadList.
  Context (ids : gmap Z Z) (snapshots : list ThreadSnapshot) (threads : list MinidumpThreadWriter.t).
  Context (p : path) (ts : list Tree) (size : Z) (write : fields_map -> WriteAction).
  Context (o : Z) (arch : CPUArchitecture) (names : gmap Z bytes).
  Context (Hids : ids_ok ids).
  Context (Hok : Forall MinidumpThreadListWriter.snapshot_thread_ok snapshots).
  Context (Hread : Forall (thread_read_ok arch) snapshots).
  Context (Hinit : Forall2 (fun s x => MinidumpThreadWriter.InitializeFromSnapshot s ids = Some x)
                     snapshots threads).
  Context (Hts : freeze_children p 0 (map (MinidumpThreadWriter.Freeze memory) threads) = Some ts).
  Context (Hon : only p (Node (stream_at p size write) ts) m).
  Context (Hst : Forall (stored file m) ts).
  Context (Hentries : holds file (o + 4)
    (concat (entries_bytes MinidumpThreadWriter.thread_bytes m p 0 threads))).
  Context (Hsmall : Z.of_nat (length file) < 2 ^ 32) (Ho : 0 < o).

Lemma read_threads_recovers j n (r : R) :
  (j + n = length snapshots)%nat -> on file r ->
  exists xs r', read_threads r o arch names j n = Some (xs, r') /\ on file r' /\
    Forall2 (thread_recovered names ids) (drop j snapshots) xs.
Proof using All.
  revert j r. induction n as [|n IH]; intros j r Hj Hr.
  { exists [], r. split_and!; [done|done|]. rewrite drop_ge by lia. constructor. }
  destruct (lookup_lt_is_Some_2 snapshots j) as [s Es]; [lia|].
  destruct (Forall2_lookup_l _ _ _ _ _ Hinit Es) as (x & Ex & Ei).
  pose proof (entry_held MinidumpThreadWriter.thread_bytes 48 file (o + 4) m p 0 _ j _
    MinidumpThreadWriter.length_thread_bytes Hentries Ex) as Hh.
  rewrite Nat.add_0_l in Hh. pose proof Hh as (_ & Hend & _).
  rewrite MinidumpThreadWriter.length_thread_bytes in Hend.
  destruct (entry_tree _ p size write threads ts j x (threads_owned _ _ _ Hok Hinit) Hts Hon Hst Ex) as (t & Ft & Ont & Hct).
  cbn [read_threads].
  replace (wrap 32 (o + 4 + Z.of_nat j * 48)) with (o + 4 + Z.of_nat (j * 48))
    by (rewrite wrap_small; lia).
  destruct (thread_read ids s x (p ++ [j]) t r (o + 4 + Z.of_nat (j * 48)) arch names)
    as (y & r1 & -> & On1 & Hrec); try done; [| | |lia|].
  - rewrite Forall_forall in Hread. apply Hread. by eapply list_elem_of_lookup_2.
  - rewrite Forall_forall in Hok. apply Hok. by eapply list_elem_of_lookup_2.
  - eapply Hids. by destruct (thread_initialized _ _ _ Ei).
  - cbn [mbind option_bind]. destruct (IH (S j) r1) as (xs & r2 & -> & On2 & Hrecs); [lia|done|].
    cbn [mbind option_bind]. exists (y :: xs), r2. split_and!; [done|done|].
    rewrite (drop_S _ _ _ Es). by constructor.
Qed.

End ThreadList.

(** ** Names of threads *)

Section ThreadNames.
  Context (UTF8ToUTF16 : bytes -> bool * list Z) (UTF16ToUTF8 : list Z -> bool * bytes).

(** A name that survives the conversion to UTF-16 and back. *)
Definition utf16_ok (s : bytes) : Prop :=
  Forall (fun u => 0 <= u < 2 ^ 16) (snd (UTF8ToUTF16 s)) /\
  Z.of_nat (length (snd (UTF8ToUTF16 s))) * 2 < 2 ^ 64 /\
  snd (UTF16ToUTF8 (snd (UTF8ToUTF16 s))) = s.

(** The UTF-16 string a field of 32 or 64 bits refers to. *)
Lemma utf16_string_read s q t (r : R) o :
  utf16_ok s -> MinidumpStringWriter.Freeze (MinidumpUTF16StringWriter UTF8ToUTF16 s) q = Some t ->
  holds file o (object_bytes m (root t)) -> o < 2 ^ 32 -> on file r ->
  exists r', ReadMinidumpUTF16String UTF16ToUTF8 r o = Some (s, r') /\ on file r'.
Proof.
  intros (Hu & Hl & Hs) Ef Hh Ho Hr. unfold ReadMinidumpUTF16String.
  destruct (string_read 2 (snd (UTF8ToUTF16 s)) q t m file r o ltac:(lia) Hu Ef Hl Hh Ho Hr)
    as (r' & -> & Hr'). cbn [mbind option_bind]. rewrite Hs. eauto.
Qed.

(** The loop: the first name of each thread. *)
Fixpoint add_names (l : list MinidumpThreadNameWriter) (names : gmap Z bytes) : gmap Z bytes :=
  match l with
  | [] => names
  | x :: rest =>
      add_names rest (match names !! tn_thread_id x with
                      | Some _ => names
                      | None => <[tn_thread_id x := tn_name x]> names
                      end)
  end.

Lemma add_names_absent l names k :
  (forall x, x ∈ l -> tn_thread_id x <> k) -> add_names l names !! k = names !! k.
Proof.
  revert names. induction l as [|x l IH]; intros names Hl; [done|]. cbn [add_names].
  rewrite IH by (intros y Hy; apply Hl; by right).
  destruct (names !! tn_thread_id x); [done|]. rewrite lookup_insert_ne; [done|]. apply Hl. left.
Qed.

Lemma add_names_lookup l names x :
  NoDup (map tn_thread_id l) -> x ∈ l -> names !! tn_thread_id x = None ->
  add_names l names !! tn_thread_id x = Some (tn_name x).
Proof.
  revert names. induction l as [|y l IH]; intros names Hn Hx Ex; [by apply not_elem_of_nil in Hx|].
  cbn [map] in Hn. apply NoDup_cons in Hn as [Hy Hn]. cbn [add_names].
  apply elem_of_cons in Hx as [->|Hx].
  - rewrite Ex, add_names_absent; [apply lookup_insert_eq|].
    intros z Hz E. apply Hy. rewrite <-E. by apply list_elem_of_fmap_2.
  - apply IH; [done|done|]. destruct (names !! tn_thread_id y); [done|].
    rewrite lookup_insert_ne; [done|]. intros E. apply Hy. rewrite E. by apply list_elem_of_fmap_2.
Qed.

(** The name a 64-bit field refers to. *)
Lemma rva64_target s t :
  stored file m (RegisterRVA64 s t) ->
  0 < field m s <= Z.of_nat (length file) /\ holds file (field m s) (object_bytes m (root t)).
Proof.
  clear Hmemory memory. intros Hs. destruct (stored_root _ _ _ Hs) as (o & Hh & (Hp & _) & _).
  destruct t as [w l]. simpl in *. unfold field. rewrite (Hp s) by set_solver. cbn [from_option id].
  change (object_bytes m _) with (object_bytes m w) in Hh. split; [|done].
  destruct Hh as (? & ? & _). lia.
Qed.

Lemma thread_name_target x p t :
  freeze_thread_name UTF8ToUTF16 x p = Some t -> Forall (stored file m) (Children t) ->
  exists q tn, MinidumpStringWriter.Freeze (MinidumpUTF16StringWriter UTF8ToUTF16 (tn_name x)) q =
      Some tn /\ 0 < field m (p, 0%nat) <= Z.of_nat (length file) /\
    holds file (field m (p, 0%nat)) (object_bytes m (root tn)).
Proof.
  unfold freeze_thread_name. cbn [freeze_children].
  destruct (MinidumpStringWriter.Freeze _ _) as [tn|] eqn:En; [|done].
  intros <-%(inj Some) [Hs _]%Forall_cons. cbn [Children] in Hs.
  exists (p ++ [0%nat]), tn. split; [done|]. by apply rva64_target.
Qed.

Lemma length_thread_name_bytes x m' p : length (thread_name_bytes x m' p) = 12%nat.
Proof. unfold thread_name_bytes. by rewrite length_app, !length_le_bytes. Qed.

Section NameList.
  Context (l : list MinidumpThreadNameWriter) (p : path) (ts : list Tree).
  Context (size : Z) (write : fields_map -> WriteAction) (o : Z).
  Context (Hok : Forall (fun x => 0 <= tn_thread_id x < 2 ^ 32 /\ utf16_ok (tn_name x)) l).
  Context (Hts : freeze_children p 0 (map (freeze_thread_name UTF8ToUTF16) l) = Some ts).
  Context (Hon : only p (Node (stream_at p size write) ts) m).
  Context (Hst : Forall (stored file m) ts).
  Context (Hentries : holds file (o + 4) (concat (entries_bytes thread_name_bytes m p 0 l))).
  Context (Hsmall : Z.of_nat (length file) < 2 ^ 32) (Ho : 0 < o).

Lemma read_thread_names_recovers j n (r : R) names :
  (j + n = length l)%nat -> on file r ->
  exists r', read_thread_names UTF16ToUTF8 r o j n names = Some (add_names (drop j l) names, r') /\
    on file r'.
Proof using Hok Hts Hon Hst Hentries Hsmall Ho.
  clear Hmemory memory. revert j r names. induction n as [|n IH]; intros j r names Hj Hr.
  { exists r. split; [|done]. by rewrite drop_ge by lia. }
  destruct (lookup_lt_is_Some_2 l j) as [x Ex]; [lia|].
  pose proof (entry_held thread_name_bytes 12 file (o + 4) m p 0 _ j _
    length_thread_name_bytes Hentries Ex) as Hh.
  rewrite Nat.add_0_l in Hh. pose proof Hh as (_ & Hend & _). rewrite length_thread_name_bytes in Hend.
  destruct (entry_tree _ p size write l ts j x
    (Forall_true _ _ (freeze_thread_name_owned UTF8ToUTF16)) Hts Hon Hst Ex) as (t & Ft & _ & Hct).
  destruct (thread_name_target x (p ++ [j]) t Ft Hct) as (q & tn & Fn & Hb & Hhn).
  rewrite Forall_forall in Hok. destruct (Hok x) as [Hid Hu]; [by eapply list_elem_of_lookup_2|].
  cbn [read_thread_names].
  replace (wrap 32 (o + 4 + Z.of_nat j * 12)) with (o + 4 + Z.of_nat (j * 12))
    by (rewrite wrap_small; lia).
  destruct (read_held_at file r _ _ Hr Hh ltac:(lia)) as (r1 & -> & On1 & r2 & E2 & On2 & _).
  rewrite length_thread_name_bytes in E2. change (Z.of_nat 12) with 12 in E2.
  cbn [mbind option_bind]. rewrite E2. cbn [mbind option_bind].
  unfold thread_name_bytes at 1 2 3. struct_fields. rewrite le_value_4, le_value_8 by lia.
  assert (wrap_signed 64 (field m (p ++ [j], 0%nat)) = field m (p ++ [j], 0%nat)) as ->.
  { unfold wrap_signed. rewrite Z.mod_small; lia. }
  destruct (utf16_string_read (tn_name x) q tn r2 _ Hu Fn Hhn ltac:(lia) On2) as (r3 & -> & On3).
  cbn [mbind option_bind].
  destruct (IH (S j) r3 (match names !! tn_thread_id x with
    | Some _ => names | None => <[tn_thread_id x := tn_name x]> names end)) as (r4 & E4 & On4);
    [lia|done|].
  exists r4. split; [|done]. rewrite (drop_S _ _ _ Ex). cbn [add_names]. exact E4.
Qed.

End NameList.

(** [InitializeThreadNames] of the stream of names. *)
Lemma thread_names_read l p t (r : R) o sm :
  Forall (fun x => 0 <= tn_thread_id x < 2 ^ 32 /\ utf16_ok (tn_name x)) l ->
  freeze_thread_names UTF8ToUTF16 l p = Some t -> only p t m ->
  holds file o (object_bytes m (root t)) -> 0 < o -> Z.of_nat (length file) < 2 ^ 32 ->
  Forall (stored file m) (Children t) ->
  sm !! kMinidumpStreamTypeThreadNameList = Some (SizeOfObject (root t), o) -> on file r ->
  exists r', InitializeThreadNames UTF16ToUTF8 sm r = Some (add_names l ∅, r') /\ on file r'.
Proof.
  intros Hok Ef Hon Hh Ho Hsmall Hst Hsm Hr. unfold freeze_thread_names in Ef.
  destruct (freeze_children _ _ _) as [ts|] eqn:Ec; [|done].
  destruct (AssignIfInRange _ _) as [n|] eqn:En; [|done].
  apply AssignIfInRange_Some in En as [Hn ->]; [|done]. apply fits_spec in Hn. simpl in Hn.
  apply (inj Some) in Ef as <-. cbn [root Children SizeOfObject stream_at] in *.
  unfold object_bytes in Hh. cbn [WriteObject stream_at concat] in Hh.
  unfold InitializeThreadNames. rewrite Hsm.
  destruct (Z.ltb_spec (4 + Z.of_nat (length l) * 12) 4); [lia|]. pose proof Hh as (_ & Hend & _).
  destruct (read_counted_word file r o _ _ Hr Hh ltac:(lia) ltac:(lia))
    as (r2 & -> & r3 & E3 & Ev & On3 & _ & Hp).
  cbn [mbind option_bind]. rewrite E3. cbn [mbind option_bind].
  rewrite Ev, Z.eqb_refl, Nat2Z.id. cbn [negb].
  destruct (read_thread_names_recovers l p ts _ _ o Hok Ec Hon Hst Hp Hsmall Ho 0 (length l) r3 ∅
    eq_refl On3) as (r4 & E4 & On4). rewrite drop_0 in E4. eauto.
Qed.

(** [InitializeThreads], once the names can be read. *)
Lemma threads_stream_read ids snapshots threads p t (r : R) o sm arch names :
  ids_ok ids -> Forall MinidumpThreadListWriter.snapshot_thread_ok snapshots ->
  Forall (thread_read_ok arch) snapshots ->
  Forall2 (fun s x => MinidumpThreadWriter.InitializeFromSnapshot s ids = Some x) snapshots threads ->
  MinidumpThreadListWriter.Freeze memory threads p = Some t -> only p t m ->
  holds file o (object_bytes m (root t)) -> 0 < o -> Z.of_nat (length file) < 2 ^ 32 ->
  Forall (stored file m) (Children t) ->
  sm !! kMinidumpStreamTypeThreadList = Some (SizeOfObject (root t), o) ->
  (forall r : R, on file r -> exists r', InitializeThreadNames UTF16ToUTF8 sm r = Some (names, r') /\
     on file r') -> on file r ->
  exists xs r', InitializeThreads UTF16ToUTF8 sm arch r = Some (names, xs, r') /\
    on file r' /\ Forall2 (thread_recovered names ids) snapshots xs.
Proof.
  intros Hids Hok Hread Hinit Ef Hon Hh Ho Hsmall Hst Hsm Hnames Hr.
  unfold MinidumpThreadListWriter.Freeze in Ef.
  destruct (freeze_children _ _ _) as [ts|] eqn:Ec; [|done].
  destruct (AssignIfInRange _ _) as [n|] eqn:En; [|done].
  apply AssignIfInRange_Some in En as [Hn ->]; [|done]. apply fits_spec in Hn. simpl in Hn.
  apply (inj Some) in Ef as <-. cbn [root Children SizeOfObject stream_at] in *.
  unfold object_bytes in Hh. cbn [WriteObject stream_at concat] in Hh.
  unfold InitializeThreads. rewrite Hsm.
  destruct (Z.ltb_spec (4 + Z.of_nat (length threads) * 48) 4); [lia|]. pose proof Hh as (_ & Hend & _).
  destruct (read_counted_word file r o _ _ Hr Hh ltac:(lia) ltac:(lia))
    as (r2 & -> & r3 & E3 & Ev & On3 & _ & Hp).
  cbn [mbind option_bind]. rewrite E3. cbn [mbind option_bind].
  rewrite Ev, Z.eqb_refl, Nat2Z.id. cbn [negb].
  destruct (Hnames r3 On3) as (r4 & -> & On4). cbn [mbind option_bind].
  pose proof (Forall2_length _ _ _ Hinit) as Hlen.
  destruct (read_threads_recovers ids snapshots threads p ts _ _ o arch names Hids Hok Hread Hinit Ec
    Hon Hst Hp Hsmall Ho 0 (length threads) r4 (eq_sym Hlen) On4) as (xs & r5 & -> & On5 & Hrec).
  cbn [mbind option_bind]. rewrite drop_0 in Hrec. eauto.
Qed.

End ThreadNames.

(** ** The exception *)

Record exception_read_ok (arch : CPUArchitecture) (e : ExceptionSnapshot) : Prop := {
  ero_exception : 0 <= exc_exception e < 2 ^ 32;
  ero_info : 0 <= exc_exception_info e < 2 ^ 32;
  ero_address : 0 <= exc_exception_address e < 2 ^ 64;
  ero_codes : Forall (fun c => 0 <= c < 2 ^ 64) (exc_codes e);
  ero_context : CPUContext_.architecture (exc_context e) = arch
}.

Record exception_recovered (ids : gmap Z Z) (e : ExceptionSnapshot)
    (x : ExceptionSnapshotMinidump) : Prop := {
  erec_thread : ids !! exc_thread_id e = Some (ExceptionSnapshotMinidump.ThreadID x);
  erec_exception : ExceptionSnapshotMinidump.Exception_ x = exc_exception e;
  erec_info : ExceptionSnapshotMinidump.ExceptionInfo x = exc_exception_info e;
  erec_address : ExceptionSnapshotMinidump.ExceptionAddress x = exc_exception_address e;
  erec_codes : ExceptionSnapshotMinidump.Codes x = exc_codes e;
  erec_context : ExceptionSnapshotMinidump.Context_ x = recorded (exc_context e)
}.

Lemma location_after k (pre d : bytes) : length pre = k -> location k (pre ++ d) = location 0 d.
Proof.
  intros Hk. unfold location, word.
  rewrite (slice_skip k 4 0 k pre d Hk), (slice_skip (k + 4) 4 4 k pre d Hk) by lia. done.
Qed.

(** The parameters in their array of 15. *)
Lemma parameters_read (codes : list Z) pre post rest :
  length pre = 40%nat -> Forall (fun c => 0 <= c < 2 ^ 64) codes ->
  map (fun i => word 8 (40 + 8 * i) (pre ++ concat (map (le_bytes 8) (codes ++ post)) ++ rest))
    (seq 0 (length codes)) = codes.
Proof.
  intros Hpre Hc. apply list_eq. intros i. rewrite list_lookup_fmap.
  destruct (decide (i < length codes)%nat) as [Hi|Hi].
  2: { rewrite (lookup_ge_None_2 codes i), lookup_ge_None_2 by (rewrite ?length_seq; lia). done. }
  rewrite lookup_seq_lt by done. cbn [fmap option_fmap option_map Nat.add].
  destruct (lookup_lt_is_Some_2 codes i Hi) as [c Ec]. rewrite Ec. f_equal.
  rewrite <-(take_drop_middle _ _ _ Ec), <-app_assoc, map_app, concat_app. cbn [app map concat].
  unfold word. rewrite <-!app_assoc, (slice_skip (40 + 8 * i) 8 (8 * i) 40) by lia.
  rewrite (slice_skip (8 * i) 8 0 (8 * i)).
  - rewrite slice_here by apply length_le_bytes. apply le_value_8.
    rewrite Forall_forall in Hc. apply Hc. by eapply list_elem_of_lookup_2.
  - rewrite MinidumpStringWriter.length_chars, length_take. lia.
  - lia.
Qed.

Lemma exception_tree x p t :
  MinidumpExceptionWriter.Freeze x p = Some t -> Forall (stored file m) (Children t) ->
  exists c o, MinidumpExceptionWriter.context_ x = Some c /\
    root t = stream_at p 168 (fun m => WriteBuffer (MinidumpExceptionWriter.exception_bytes x m p)) /\
    info_location m p 2 = (Z.of_nat (length (context_bytes c)), o) /\ 0 < o < 2 ^ 32 /\
    holds file o (context_bytes c).
Proof.
  unfold MinidumpExceptionWriter.Freeze. intros Ef Hst.
  destruct (MinidumpExceptionWriter.context_ x) as [c|]; [|done].
  cbn [freeze_children freeze_context] in Ef. apply (inj Some) in Ef as <-. cbn [Children] in Hst.
  apply Forall_cons in Hst as [Hs _].
  destruct (descriptor_target _ _ _ _ Hs) as (o & E1 & E2 & ? & ? & Hh & _); [simpl; lia|].
  exists c, o. unfold info_location. unfold descriptor_size, descriptor_rva in E1, E2.
  cbn [fst snd] in E2. rewrite E1, E2, !le_value_4 by (simpl in *; lia). done.
Qed.

(** The fields of the exception. *)
Lemma exception_fields x p codes post :
  0 <= MinidumpExceptionWriter.ThreadId x < 2 ^ 32 ->
  0 <= MinidumpExceptionWriter.ExceptionCode x < 2 ^ 32 ->
  0 <= MinidumpExceptionWriter.ExceptionFlags x < 2 ^ 32 ->
  0 <= MinidumpExceptionWriter.ExceptionAddress x < 2 ^ 64 ->
  MinidumpExceptionWriter.NumberParameters x = Z.of_nat (length codes) ->
  MinidumpExceptionWriter.ExceptionInformation x = codes ++ post ->
  length (codes ++ post) = 15%nat -> Forall (fun c => 0 <= c < 2 ^ 64) codes ->
  let d := MinidumpExceptionWriter.exception_bytes x m p in
  word 4 0 d = MinidumpExceptionWriter.ThreadId x /\
  word 4 8 d = MinidumpExceptionWriter.ExceptionCode x /\
  word 4 12 d = MinidumpExceptionWriter.ExceptionFlags x /\
  word 8 24 d = MinidumpExceptionWriter.ExceptionAddress x /\
  word 4 32 d = Z.of_nat (length codes) /\
  map (fun i => word 8 (40 + 8 * i) d) (seq 0 (length codes)) = codes /\
  location 160 d = info_location m p 2 /\ length d = 168%nat.
Proof.
  intros ? ? ? ? En Ei Hl Hc d. rewrite length_app in Hl.
  assert (map (fun i => word 8 (40 + 8 * i) d) (seq 0 (length codes)) = codes) as Hcodes.
  { unfold d, MinidumpExceptionWriter.exception_bytes. rewrite !app_assoc, <-(app_assoc _ _ (descriptor_bytes _ _)).
    rewrite Ei. apply parameters_read; [|done]. by rewrite !length_app, !length_le_bytes. }
  assert (location 160 d = info_location m p 2) as Hloc.
  { unfold d, MinidumpExceptionWriter.exception_bytes. rewrite !app_assoc, location_after.
    - struct_fields. done.
    - rewrite !length_app, !length_le_bytes, MinidumpStringWriter.length_chars, Ei, length_app. lia. }
  split_and!; [| | | | |done|done|].
  1-5: unfold d, MinidumpExceptionWriter.exception_bytes; struct_fields;
    rewrite ?En; first [apply le_value_4|apply le_value_8]; lia.
  unfold d, MinidumpExceptionWriter.exception_bytes.
  rewrite !length_app, !length_le_bytes, MinidumpStringWriter.length_chars, length_descriptor_bytes, Ei,
    length_app. lia.
Qed.

(** The exception of a snapshot. *)
Lemma exception_initialized ids e x :
  MinidumpExceptionWriter.InitializeFromSnapshot e ids = Some x ->
  ids !! exc_thread_id e = Some (MinidumpExceptionWriter.ThreadId x) /\
  MinidumpExceptionWriter.ExceptionCode x = exc_exception e /\
  MinidumpExceptionWriter.ExceptionFlags x = exc_exception_info e /\
  MinidumpExceptionWriter.ExceptionAddress x = exc_exception_address e /\
  MinidumpExceptionWriter.NumberParameters x = Z.of_nat (length (exc_codes e)) /\
  CreateFromSnapshot (exc_context e) = Some (MinidumpExceptionWriter.context_ x) /\
  exists post, MinidumpExceptionWriter.ExceptionInformation x = exc_codes e ++ post /\
    length (exc_codes e ++ post) = 15%nat.
Proof.
  unfold MinidumpExceptionWriter.InitializeFromSnapshot, MinidumpExceptionWriter.SetExceptionInformation,
    MinidumpExceptionWriter.EXCEPTION_MAXIMUM_PARAMETERS.
  destruct (ids !! exc_thread_id e) as [id|]; [|done].
  destruct (Nat.leb_spec (length (exc_codes e)) 15); [|done].
  destruct (CreateFromSnapshot (exc_context e)) as [w|]; [|done]. intros <-%(inj Some).
  split_and!; try done. eexists. split; [reflexivity|]. rewrite length_app, length_replicate. lia.
Qed.

(** [InitializeExceptionSnapshot]. *)
Lemma exception_read ids e x p t (r : R) o sm arch :
  ids_ok ids -> exception_read_ok arch e -> context_ok (exc_context e) = true ->
  MinidumpExceptionWriter.InitializeFromSnapshot e ids = Some x ->
  MinidumpExceptionWriter.Freeze x p = Some t -> Forall (stored file m) (Children t) ->
  holds file o (object_bytes m (root t)) -> o < 2 ^ 32 ->
  sm !! kMinidumpStreamTypeException = Some (SizeOfObject (root t), o) -> on file r ->
  exists y r', InitializeExceptionSnapshot sm arch r = Done (Some y, r') /\ on file r' /\
    exception_recovered ids e y.
Proof.
  intros Hids [Hex Hin Had Hco Hct] Hcok (Eid & E8 & E12 & E24 & E32 & Ectx & post & Epost & Hpost)%exception_initialized
    Ef Hst Hh Ho Hsm Hr.
  destruct (exception_tree x p t Ef Hst) as (c & oc & Ec & Er & El & Hoc & Hhc).
  destruct (context_written (exc_context e) Hcok) as (w & Ew & Ectx' & _).
  replace w with c in * by congruence. rewrite Hct in Ectx'.
  rewrite Er in Hh, Hsm. cbn [SizeOfObject stream_at] in Hsm.
  unfold object_bytes in Hh. cbn [WriteObject stream_at] in Hh.
  destruct (exception_fields x p (exc_codes e) post) as (W0 & W8 & W12 & W24 & W32 & Wc & L & Hl);
    rewrite ?E8, ?E12, ?E24; try done; [by eapply Hids|].
  rewrite E8 in W8. rewrite E12 in W12. rewrite E24 in W24.
  set (d := MinidumpExceptionWriter.exception_bytes _ _ _) in *.
  assert (length (exc_codes e) <= 15)%nat as Hn by (rewrite length_app in Hpost; lia).
  unfold InitializeExceptionSnapshot. rewrite Hsm. change (168 <? 168) with false. cbn iota.
  unfold InitializeException.
  destruct (read_held_at file r o d Hr Hh Ho) as (r1 & -> & On1 & r2 & E2 & On2 & _).
  rewrite Hl in E2. change (Z.of_nat 168) with 168 in E2. cbn [lift outcome_bind]. rewrite E2.
  cbn [lift outcome_bind]. rewrite W32, Nat2Z.id, Wc, L, El.
  destruct (Z.ltb_spec (Z.of_nat MinidumpExceptionWriter.EXCEPTION_MAXIMUM_PARAMETERS)
    (Z.of_nat (length (exc_codes e)))) as [Hlt|_].
  { unfold MinidumpExceptionWriter.EXCEPTION_MAXIMUM_PARAMETERS in Hlt. lia. }
  destruct (read_held_at file r2 oc _ On2 Hhc ltac:(lia)) as (r3 & -> & On3 & r4 & E4 & On4 & _).
  cbn [lift outcome_bind]. rewrite E4. cbn [lift outcome_bind]. rewrite Ectx'. cbn [lift outcome_bind].
  eexists _, r4. split; [done|]. split; [done|].
  split; unfold ExceptionSnapshotMinidump.ThreadID; simpl; rewrite ?W0; done.
Qed.

End Threads.

(** ** The system *)

(** All that is read of a system.  This is less than [SystemSnapshot] promises: of the
    revision of the CPU only 16 bits are left, its vendor is empty for x86_64, iOS is
    unknown to the reader, and the name of the build is the bytes of its UTF-16 string. *)
Record system_as_read (UTF8ToUTF16 : bytes -> bool * list Z) (s : SystemSnapshot)
    (x : SystemSnapshotMinidump) : Prop := {
  sar_architecture : SystemSnapshotMinidump.GetCPUArchitecture x = sys_architecture s;
  sar_revision : SystemSnapshotMinidump.CPURevision x = Z.land (sys_cpu_revision s) 0xffff;
  sar_count : SystemSnapshotMinidump.CPUCount x = sys_cpu_count s;
  sar_vendor : SystemSnapshotMinidump.CPUVendor x =
    if decide (sys_architecture s = kCPUArchitectureX86) then sys_cpu_vendor s else [];
  sar_os : SystemSnapshotMinidump.GetOperatingSystem x =
    match sys_operating_system s with kOperatingSystemIOS => kOperatingSystemUnknown | os => os end;
  sar_server : SystemSnapshotMinidump.OSServer x = sys_os_server s;
  sar_version : SystemSnapshotMinidump.OSVersion x =
    (sys_os_version s, concat (map (le_bytes 2) (snd (UTF8ToUTF16 (sys_os_build s)))))
}.

(** The parts of a system that are recovered as [SystemSnapshot] describes them: where the
    reader gives something else, nothing is said. *)
Record system_recovered (s : SystemSnapshot) (x : SystemSnapshotMinidump) : Prop := {
  srec_architecture : SystemSnapshotMinidump.GetCPUArchitecture x = sys_architecture s;
  srec_revision : 0 <= sys_cpu_revision s < 2 ^ 16 -> SystemSnapshotMinidump.CPURevision x = sys_cpu_revision s;
  srec_count : SystemSnapshotMinidump.CPUCount x = sys_cpu_count s;
  srec_vendor : sys_architecture s = kCPUArchitectureX86 -> SystemSnapshotMinidump.CPUVendor x = sys_cpu_vendor s;
  srec_os : sys_operating_system s <> kOperatingSystemIOS ->
    SystemSnapshotMinidump.GetOperatingSystem x = sys_operating_system s;
  srec_server : SystemSnapshotMinidump.OSServer x = sys_os_server s;
  srec_version : fst (SystemSnapshotMinidump.OSVersion x) = sys_os_version s;
  srec_version_full : sys_os_version_full s <> [] -> 59 ∉ sys_os_version_full s ->
    SystemSnapshotMinidump.OSVersionFull x = sys_os_version_full s
}.

Lemma before_semicolon_app a b : 59 ∉ a -> before_semicolon (a ++ 59 :: b) = a /\ before_semicolon a = a.
Proof.
  induction a as [|c a IH]; intros Hn; [done|]. apply not_elem_of_cons in Hn as [Hc Hn]. cbn.
  destruct (Z.eqb_spec c 59) as [->|_]; [done|]. destruct (IH Hn) as [-> ->]. done.
Qed.

(** What is read has these parts. *)
Lemma system_as_read_recovered UTF8ToUTF16 s x :
  system_as_read UTF8ToUTF16 s x -> SystemSnapshotMinidump.OSVersionFull x = before_semicolon (BuildString s) ->
  system_recovered s x.
Proof.
  intros [Ha Hr Hc Hv Ho Hs Hn] Hf. split; try done.
  - intros Hrev. rewrite Hr. change 0xffff with (Z.ones 16). rewrite Z.land_ones by lia. apply Z.mod_small. lia.
  - intros E. by rewrite Hv, decide_True.
  - intros Hi. rewrite Ho. by destruct (sys_operating_system s).
  - by rewrite Hn.
  - intros Hne Hsemi. rewrite Hf. unfold BuildString. destruct (sys_os_version_full s) as [|c v]; [done|].
    destruct (sys_machine_description s) as [|d e]; [by apply (before_semicolon_app _ [])|].
    by apply (before_semicolon_app (c :: v) (32 :: d :: e)).
Qed.

Record system_read_ok (UTF8ToUTF16 : bytes -> bool * list Z) (s : SystemSnapshot) : Prop := {
  sro_count : 0 <= sys_cpu_count s < 256;
  sro_version : let '(major, minor, bugfix) := sys_os_version s in
    - 2 ^ 31 <= major < 2 ^ 31 /\ - 2 ^ 31 <= minor < 2 ^ 31 /\ - 2 ^ 31 <= bugfix < 2 ^ 31;
  sro_build : Z.of_nat (length (snd (UTF8ToUTF16 (sys_os_build s)))) * 2 < 2 ^ 64
}.

Lemma le_value_small k z : 0 <= z < 256 ^ Z.of_nat k -> le_value (le_bytes k z) = z.
Proof. apply le_value_bytes_small. Qed.

Lemma system_fields s x p :
  MinidumpSystemInfoWriter.describes s x ->
  let d := MinidumpSystemInfoWriter.system_info_bytes x m p in
  word 2 0 d = le_value (le_bytes 2 (MinidumpSystemInfoWriter.ProcessorArchitecture x)) /\
  word 2 4 d = le_value (le_bytes 2 (MinidumpSystemInfoWriter.ProcessorRevision x)) /\
  word 1 6 d = le_value (le_bytes 1 (MinidumpSystemInfoWriter.NumberOfProcessors x)) /\
  word 1 7 d = le_value (le_bytes 1 (MinidumpSystemInfoWriter.ProductType x)) /\
  word 4 8 d = le_value (le_bytes 4 (MinidumpSystemInfoWriter.MajorVersion x)) /\
  word 4 12 d = le_value (le_bytes 4 (MinidumpSystemInfoWriter.MinorVersion x)) /\
  word 4 16 d = le_value (le_bytes 4 (MinidumpSystemInfoWriter.BuildNumber x)) /\
  word 4 20 d = le_value (le_bytes 4 (MinidumpSystemInfoWriter.PlatformId x)) /\
  word 4 24 d = le_value (le_bytes 4 (field m (p, 2%nat))) /\
  slice 32 12 d = take 12 (MinidumpSystemInfoWriter.Cpu x).
Proof.
  intros Hd d. unfold d, MinidumpSystemInfoWriter.system_info_bytes. struct_fields.
  by split_and!.
Qed.

Lemma system_initialized UTF8ToUTF16 s x info build version :
  MinidumpSystemInfoWriter.describes s x -> system_read_ok UTF8ToUTF16 s ->
  info = MinidumpSystemInfoWriter.system_info_bytes x m build ->
  system_as_read UTF8ToUTF16 s (MkSystemMinidump info
    (concat (map (le_bytes 2) (snd (UTF8ToUTF16 (sys_os_build s))))) version).
Proof.
  intros Hd [Hc Hv _] ->. destruct (system_fields s x build Hd) as (W0 & W4 & W6 & W7 & W8 & W12 & W16 & W20 & _ & Wv).
  set (d := MinidumpSystemInfoWriter.system_info_bytes _ _ _) in *. destruct Hd as [Da _ Dr Dc Do Dt Dv _ _ Dn].
  assert (word 2 0 d = MinidumpSystemInfoWriter.ProcessorArchitecture x) as Wa.
  { rewrite W0. apply le_value_small. destruct (sys_architecture s); try done; injection Da as <-; done. }
  assert (SystemSnapshotMinidump.GetCPUArchitecture (MkSystemMinidump d
    (concat (map (le_bytes 2) (snd (UTF8ToUTF16 (sys_os_build s))))) version) = sys_architecture s) as Ha.
  { unfold SystemSnapshotMinidump.GetCPUArchitecture. simpl. rewrite Wa.
    destruct (sys_architecture s); try done; injection Da as <-; done. }
  split; [exact Ha| | | | | |].
  - unfold SystemSnapshotMinidump.CPURevision. simpl. rewrite W4, Dr. apply le_value_small.
    change 0x0000ffff with (Z.ones 16). rewrite Z.land_ones by lia. by apply Z.mod_pos_bound.
  - unfold SystemSnapshotMinidump.CPUCount. simpl. rewrite W6, Dc. by apply le_value_small.
  - unfold SystemSnapshotMinidump.CPUVendor. rewrite Ha. simpl. rewrite Wv.
    case_decide as E; [by apply Dn|done].
  - unfold SystemSnapshotMinidump.GetOperatingSystem. simpl. rewrite W20.
    destruct (sys_operating_system s); try done; injection Do as <-; rewrite le_value_4 by done; done.
  - unfold SystemSnapshotMinidump.OSServer. simpl. rewrite W7, Dt, le_value_small by (by destruct (sys_os_server s)).
    by destruct (sys_os_server s).
  - unfold SystemSnapshotMinidump.OSVersion. simpl. rewrite W8, W12, W16.
    destruct (sys_os_version s) as [[major minor] bugfix]. injection Dv as -> -> ->.
    destruct Hv as (? & ? & ?). rewrite !le_value_4 by (by apply wrap_bound).
    by rewrite !wrap_signed_wrap by done.
Qed.

(** [InitializeSystemSnapshot]. *)
Lemma system_read UTF8ToUTF16 s x p t (r : R) o sm version :
  MinidumpSystemInfoWriter.describes s x -> system_read_ok UTF8ToUTF16 s ->
  MinidumpSystemInfoWriter.Freeze UTF8ToUTF16 x p = Some t -> Forall (stored file m) (Children t) ->
  holds file o (object_bytes m (root t)) -> o < 2 ^ 32 ->
  sm !! kMinidumpStreamTypeSystemInfo = Some (SizeOfObject (root t), o) -> on file r ->
  exists y r', InitializeSystemSnapshot sm version r = Some (Some y, sys_architecture s, r') /\
    on file r' /\ system_as_read UTF8ToUTF16 s y /\ SystemSnapshotMinidump.OSVersionFull y = version.
Proof.
  intros Hd Hok Ef Hst Hh Ho Hsm Hr. pose proof Hd as [_ _ _ _ _ _ _ Db Dl _].
  unfold MinidumpSystemInfoWriter.Freeze in Ef. rewrite Db in Ef. cbn [freeze_children] in Ef.
  destruct (MinidumpStringWriter.Freeze _ _) as [tn|] eqn:En; [|done].
  apply (inj Some) in Ef as <-. cbn [Children root SizeOfObject stream_at] in *.
  apply Forall_cons in Hst as [Hn _]. destruct (rva_target _ _ _ _ Hn) as (on_ & Eon & Hon_ & Hhn & _).
  unfold object_bytes in Hh. cbn [WriteObject stream_at] in Hh.
  destruct (system_fields s x p Hd) as (_ & _ & _ & _ & _ & _ & _ & _ & W24 & _).
  pose proof (system_initialized UTF8ToUTF16 s x _ p version Hd Hok eq_refl) as Hrec.
  pose proof (MinidumpSystemInfoWriter.length_system_info_bytes x m p Dl) as Hld.
  set (d := MinidumpSystemInfoWriter.system_info_bytes _ _ _) in *.
  unfold InitializeSystemSnapshot. rewrite Hsm. change (56 <? 56) with false. cbn iota.
  unfold SystemSnapshotMinidump.Initialize.
  destruct (read_held_at file r o d Hr Hh Ho) as (r1 & -> & On1 & r2 & E2 & On2 & _).
  rewrite Hld in E2. change (Z.of_nat 56) with 56 in E2. cbn [mbind option_bind]. rewrite E2.
  cbn [mbind option_bind]. rewrite W24, Eon, le_value_4 by lia.
  destruct (utf16_read_as_utf8 _ _ _ _ m file r2 on_ En (sro_build _ _ Hok) Hhn ltac:(lia) On2)
    as (r3 & -> & On3). cbn [mbind option_bind].
  eexists _, r3. rewrite (sar_architecture _ _ _ Hrec). by split_and!.
Qed.

(** ** Miscellaneous information *)

Lemma c_string16_app s l : Forall (fun c => c <> 0) s -> c_string16 (s ++ 0 :: l) = Some s.
Proof.
  induction 1 as [|c s Hc _ IH]; simpl; [done|]. destruct (Z.eqb_spec c 0); [done|]. by rewrite IH.
Qed.

Lemma chunks_app k n n' (a b : bytes) :
  length a = (n * k)%nat -> chunks k (n + n') (a ++ b) = chunks k n a ++ chunks k n' b.
Proof.
  revert a. induction n as [|n IH]; intros a Ha; simpl in *.
  - by destruct a.
  - rewrite take_app_le by lia. rewrite drop_app_le by lia. rewrite IH; [done|]. rewrite length_drop. lia.
Qed.

Lemma chunks_chars (l : list Z) rest n :
  Forall (fun u => 0 <= u < 2 ^ 16) l ->
  map le_value (chunks 2 (length l + n) (MinidumpMiscInfoWriter.chars l ++ rest)) =
  l ++ map le_value (chunks 2 n rest).
Proof.
  intros Hl. rewrite chunks_app by (rewrite MinidumpMiscInfoWriter.length_wide_chars; lia).
  rewrite map_app. f_equal. unfold MinidumpMiscInfoWriter.chars.
  rewrite <-(length_map (le_bytes 2)), chunks_concat, map_le_value_bytes; [done|done|].
  apply Forall_fmap, Forall_true. intros z. apply length_le_bytes.
Qed.

Section MiscInfo.
  Context (UTF8ToUTF16 : bytes -> bool * list Z) (UTF16ToUTF8 : list Z -> bool * bytes).
  Context (kCPU kOS : bytes).

(** A build string that the array of the structure has room for. *)
Definition build_string_ok (s : SystemSnapshot) : Prop :=
  utf16_ok UTF8ToUTF16 UTF16ToUTF8 (BuildString s) /\
  Forall (fun u => u <> 0) (snd (UTF8ToUTF16 (BuildString s))) /\
  (length (snd (UTF8ToUTF16 (BuildString s))) <= 259)%nat.

(** The build string is at offset 232 of the structure. *)
Lemma misc_info_split n x :
  MinidumpMiscInfoWriter.arrays_ok x ->
  exists pre post, MinidumpMiscInfoWriter.misc_info_bytes n x = pre ++ MinidumpMiscInfoWriter.chars
    (MinidumpMiscInfoWriter.InfoBuildString (MinidumpMiscInfoWriter.info_4 x)) ++ post /\
    length pre = 232%nat.
Proof.
  intros (A1 & A2 & A3 & A4 & _). unfold MinidumpMiscInfoWriter.misc_info_bytes,
    MinidumpMiscInfoWriter.info_4_bytes.
  exists (MinidumpMiscInfoWriter.info_bytes n (MinidumpMiscInfoWriter.info x) ++
    MinidumpMiscInfoWriter.info_2_bytes (MinidumpMiscInfoWriter.info_2 x) ++
    MinidumpMiscInfoWriter.info_3_bytes (MinidumpMiscInfoWriter.info_3 x)).
  eexists. split; [rewrite <-!app_assoc; reflexivity|].
  unfold MinidumpMiscInfoWriter.info_bytes, MinidumpMiscInfoWriter.info_2_bytes,
    MinidumpMiscInfoWriter.info_3_bytes, MinidumpMiscInfoWriter.time_zone_bytes.
  by rewrite !length_app, !length_le_bytes, !MinidumpMiscInfoWriter.length_wide_chars, A1, A2, A3, A4.
Qed.

Lemma build_string_read s n size x :
  build_string_ok s -> MinidumpMiscInfoWriter.arrays_ok x -> size ∈ [832; 1364] ->
  MinidumpMiscInfoWriter.InfoBuildString (MinidumpMiscInfoWriter.info_4 x) =
    AssignUTF8ToUTF16 UTF8ToUTF16 (replicate 260 0) (BuildString s) ->
  c_string16 (map le_value (chunks 2 (Z.to_nat ((size - 232) / 2))
    (drop 232 (take (Z.to_nat size) (MinidumpMiscInfoWriter.misc_info_bytes n x))))) =
  Some (snd (UTF8ToUTF16 (BuildString s))).
Proof.
  intros ((Hu & _ & _) & Hz & Hlen) Hx Hsize Eb.
  rewrite assign_utf16_array in Eb by lia. cbv zeta in Eb.
  rewrite take_ge, c_str_whole in Eb by (done || lia).
  set (units := snd (UTF8ToUTF16 (BuildString s))) in *.
  set (l := MinidumpMiscInfoWriter.InfoBuildString _) in *.
  assert (length l = 260%nat) as Hl by apply Hx.
  assert (Forall (fun u => 0 <= u < 2 ^ 16) l) as Hul.
  { rewrite Eb. apply Forall_app_2; [done|]. constructor; [done|]. by apply Forall_replicate. }
  destruct (misc_info_split n x Hx) as (pre & post & -> & Hpre). fold l.
  assert (length (MinidumpMiscInfoWriter.chars l) = 520%nat) as Hlc
    by (rewrite MinidumpMiscInfoWriter.length_wide_chars; lia).
  assert (832 <= size) as Hsz by (rewrite !elem_of_cons, elem_of_nil in Hsize; lia).
  rewrite skipn_firstn_comm, drop_app_length', take_app_ge by (done || lia).
  replace (Z.to_nat ((size - 232) / 2)) with (length l + (Z.to_nat ((size - 232) / 2) - 260))%nat.
  - rewrite chunks_chars, Eb, <-app_assoc by done. by apply c_string16_app.
  - rewrite Hl. rewrite !elem_of_cons, elem_of_nil in Hsize. destruct Hsize as [->|[->|[]]]; done.
Qed.

Lemma misc_info_initialized pid start user system threads s x :
  MinidumpMiscInfoWriter.InitializeFromSnapshot UTF8ToUTF16 kCPU kOS pid start user system threads s =
    Some x ->
  let i := MinidumpMiscInfoWriter.info x in
  MinidumpMiscInfoWriter.ProcessId i = InRangeCast uint32_t pid 0 /\
  MinidumpMiscInfoWriter.ProcessCreateTime i = u32 (tv_sec start) /\
  MinidumpMiscInfoWriter.ProcessUserTime i = TimevalToRoundedSeconds user /\
  MinidumpMiscInfoWriter.ProcessKernelTime i = TimevalToRoundedSeconds system /\
  MinidumpMiscInfoWriter.InfoBuildString (MinidumpMiscInfoWriter.info_4 x) =
    AssignUTF8ToUTF16 UTF8ToUTF16 (replicate 260 0) (BuildString s).
Proof.
  unfold MinidumpMiscInfoWriter.InitializeFromSnapshot.
  destruct (MaybeSetXStateData threads) as [[d|]|]; [..|done]; cbn [mbind option_bind];
    intros <-%(inj Some); done.
Qed.

Lemma rounded_seconds_bound tv : 0 <= TimevalToRoundedSeconds tv < 2 ^ 32.
Proof.
  unfold TimevalToRoundedSeconds.
  pose proof (in_range_cast_u32 (tv_sec tv) (2 ^ 32 - 1) ltac:(lia)) as Hb.
  destruct (_ && _) eqn:E; [|done]. apply andb_true_iff in E as [_ E]. apply negb_true_iff in E.
  apply Z.eqb_neq in E. lia.
Qed.

Lemma word_take_app k off n (a b : bytes) :
  (off + k <= length a)%nat -> (off + k <= n)%nat -> word k off (take n (a ++ b)) = word k off a.
Proof.
  intros Ha Hn. unfold word, slice. f_equal.
  rewrite skipn_firstn_comm, take_take, drop_app_le, take_app_le by (rewrite ?length_drop; lia).
  f_equal. lia.
Qed.

(** [InitializeMiscInfo]: the version of the operating system is the part of the
    build string before the machine description. *)
Lemma misc_info_read pid start user system threads s x p t (r : R) o sm :
  build_string_ok s -> 0 <= pid < 2 ^ 31 ->
  MinidumpMiscInfoWriter.InitializeFromSnapshot UTF8ToUTF16 kCPU kOS pid start user system threads s =
    Some x ->
  MinidumpMiscInfoWriter.Freeze x p = Some t -> holds file o (object_bytes m (root t)) -> o < 2 ^ 32 ->
  sm !! kMinidumpStreamTypeMiscInfo = Some (SizeOfObject (root t), o) -> on file r ->
  exists r', InitializeMiscInfo UTF16ToUTF8 sm r =
    Done (before_semicolon (BuildString s), pid, u32 (tv_sec start), TimevalToRoundedSeconds user,
          TimevalToRoundedSeconds system, r') /\ on file r'.
Proof.
  clear Hmemory memory. intros Hb Hpid Ei Ef Hh Ho Hsm Hr.
  destruct (MinidumpMiscInfoWriter.misc_info_initialize _ _ _ _ _ _ _ _ _ _ Ei) as [Hx Hsize].
  destruct (misc_info_initialized _ _ _ _ _ _ _ Ei) as (Ep & Ec & Eu & Ek & Eb).
  unfold MinidumpMiscInfoWriter.Freeze in Ef. set (size := MinidumpMiscInfoWriter.CalculateSizeOfObjectFromFlags x) in *.
  assert (size ∈ [832; 1364]) as Hin by (rewrite Hsize; case_match; set_solver).
  destruct (AssignIfInRange _ _) as [n|] eqn:En; [|done]. apply (inj Some) in Ef as <-.
  cbn [root SizeOfObject stream_at] in *. unfold object_bytes in Hh. cbn [WriteObject stream_at] in Hh.
  assert (length (take (Z.to_nat size) (MinidumpMiscInfoWriter.misc_info_bytes n x)) = Z.to_nat size) as Hl.
  { rewrite length_take, MinidumpMiscInfoWriter.length_misc_info_bytes by done.
    rewrite !elem_of_cons, elem_of_nil in Hin. lia. }
  unfold InitializeMiscInfo. rewrite Hsm.
  destruct (read_held_at file r o _ Hr Hh Ho) as (r1 & -> & On1 & r2 & E2 & On2 & _).
  rewrite Hl, Z2Nat.id in E2 by (rewrite !elem_of_cons, elem_of_nil in Hin; lia).
  cbn [lift outcome_bind].
  rewrite bool_decide_true by (unfold misc_info_sizes; set_solver). cbn [negb]. rewrite E2.
  cbn [lift outcome_bind]. rewrite (build_string_read s n size x Hb Hx Hin Eb).
  assert (((size =? 1364) || (size =? 832)) = true) as ->.
  { rewrite !elem_of_cons, elem_of_nil in Hin. destruct Hin as [->|[->|[]]]; done. }
  cbn [outcome_bind]. destruct Hb as ((_ & _ & ->) & _).
  exists r2. split; [|done].
  assert (forall k off, (off + k <= 24)%nat -> word k off (take (Z.to_nat size)
    (MinidumpMiscInfoWriter.misc_info_bytes n x)) = word k off (MinidumpMiscInfoWriter.info_bytes n
      (MinidumpMiscInfoWriter.info x))) as Hw.
  { intros k off Hk. unfold MinidumpMiscInfoWriter.misc_info_bytes. apply word_take_app.
    - unfold MinidumpMiscInfoWriter.info_bytes. rewrite !length_app, !length_le_bytes. lia.
    - rewrite !elem_of_cons, elem_of_nil in Hin. lia. }
  rewrite !Hw by lia. unfold MinidumpMiscInfoWriter.info_bytes. struct_fields.
  rewrite Ep, Ec, Eu, Ek.
  pose proof (rounded_seconds_bound user). pose proof (rounded_seconds_bound system).
  rewrite !le_value_4 by (first [done|by apply wrap_bound|by apply in_range_cast_u32]).
  assert (InRangeCast uint32_t pid 0 = pid) as ->.
  { unfold InRangeCast. assert (in_range uint32_t pid = true) as E by (apply fits_spec; simpl; lia).
    rewrite E. by apply cast_in_range. }
  assert (wrap_signed 32 pid = pid) as -> by (unfold wrap_signed; rewrite Z.mod_small; lia). done.
Qed.

End MiscInfo.
End StreamReadBack.
