(* ===== verification/ProcessRoundTrip.v ===== *)
(** * A process written to a minidump and read back

    [MinidumpFileWriter::InitializeFromSnapshot], [WriteMinidump] and
    [ProcessSnapshotMinidump::Initialize] composed: the snapshot that is read from
    the file a process was written to has the parts of the process. *)

From S2P Require Import Prelude.
From S2P Require Import Numeric.
From S2P Require Import Structs.
From S2P Require Import CPUContext.
From S2P Require Import MinidumpContext.
From S2P Require Import FileIO.
From S2P Require Import Uuid.
From S2P Require Import MemoryRanges.
From S2P Require Import MinidumpWritable.
From S2P Require Import MinidumpObjects.
From S2P Require Import MinidumpStreams.
From S2P Require Import MinidumpModules.
From S2P Require Import MinidumpSystem.
From S2P Require Import MinidumpFile.
From S2P Require Import MinidumpReaders.
From S2P Require Import ProcessSnapshot.
From S2P Require Import RoundTrip.
From S2P Require Import StreamReadBack.

(** ** The threads of a snapshot *)

(** The stacks the thread list at [this] shares with the memory list, from the
    [k]-th thread on. *)
Fixpoint stacks_from (this : path) (k : nat) (threads : list MinidumpThreadWriter.t)
    : list (MemorySnapshot * path) :=
  match threads with
  | [] => []
  | th :: rest =>
      (match MinidumpThreadWriter.stack_ th with
       | Some s => [(s, this ++ [k; 0%nat])]
       | None => []
       end) ++ stacks_from this (S k) rest
  end.

Lemma add_threads_spec this ids snapshots acc acc' :
  MinidumpThreadListWriter.add_threads this ids snapshots acc = Some acc' ->
  exists ths, fst acc' = fst acc ++ ths /\
    Forall2 (fun s x => MinidumpThreadWriter.InitializeFromSnapshot s ids = Some x) snapshots ths /\
    MinidumpMemoryListWriter.non_owned_memory_writers_ (snd acc') =
      MinidumpMemoryListWriter.non_owned_memory_writers_ (snd acc) ++
      stacks_from this (length (fst acc)) ths /\
    MinidumpMemoryListWriter.children_ (snd acc') = MinidumpMemoryListWriter.children_ (snd acc).
Proof.
  revert acc. induction snapshots as [|s l IH]; intros acc; simpl.
  { intros <-%(inj Some). exists []. rewrite !app_nil_r. split_and!; [done|constructor|done|done]. }
  destruct (MinidumpThreadWriter.InitializeFromSnapshot s ids) as [th|] eqn:Eth; [|done].
  intros (ths & E1 & Hf & E2 & E3)%IH. exists (th :: ths).
  unfold MinidumpThreadListWriter.AddThread in *. cbn [fst snd] in *.
  rewrite length_app, Nat.add_1_r in E2. split_and!.
  - by rewrite E1, <-app_assoc.
  - by constructor.
  - rewrite E2. cbn [stacks_from]. destruct (MinidumpThreadWriter.stack_ th); simpl; by rewrite <-?app_assoc.
  - rewrite E3. by destruct (MinidumpThreadWriter.stack_ th).
Qed.

Lemma add_memory_non_owned l x :
  MinidumpMemoryListWriter.non_owned_memory_writers_ (MinidumpMemoryListWriter.AddFromSnapshot x l) =
  MinidumpMemoryListWriter.non_owned_memory_writers_ x.
Proof.
  unfold MinidumpMemoryListWriter.AddFromSnapshot. revert x.
  induction l as [|s l IH]; intros x; simpl; [done|]. by rewrite IH.
Qed.

Lemma add_extra_memory snapshots x :
  let ml := fold_left (fun l s => MinidumpMemoryListWriter.AddFromSnapshot l (thr_extra_memory s))
              snapshots x in
  MinidumpMemoryListWriter.non_owned_memory_writers_ ml =
    MinidumpMemoryListWriter.non_owned_memory_writers_ x /\
  MinidumpMemoryListWriter.children_ ml =
    MinidumpMemoryListWriter.children_ x ++ concat (map thr_extra_memory snapshots).
Proof.
  revert x. induction snapshots as [|s l IH]; intros x; simpl; [by rewrite app_nil_r|].
  destruct (IH (MinidumpMemoryListWriter.AddFromSnapshot x (thr_extra_memory s))) as [-> ->].
  rewrite add_memory_non_owned, MinidumpThreadListWriter.add_memory_children. by rewrite <-app_assoc.
Qed.

(** Every ID of the map fits in 32 bits. *)
Lemma truncate_ids_values ids map s m :
  truncate_ids ids map s = Some m -> ids_ok map -> ids_ok m.
Proof.
  revert map s. induction ids as [|a ids IH]; intros map s; simpl; [by intros <-%(inj Some)|].
  destruct (map !! a); [by apply IH|]. case_decide; [done|]. intros E Hm. eapply IH; [exact E|].
  intros b v [[_ <-]|[_ Hb]]%lookup_insert_Some; [by apply wrap_bound|by eapply Hm].
Qed.

Lemma thread_id_map_values ids m : BuildMinidumpThreadIDMap ids = Some m -> ids_ok m.
Proof.
  unfold BuildMinidumpThreadIDMap. destruct (truncate_ids ids ∅ ∅) as [m'|] eqn:E.
  - intros <-%(inj Some). by eapply truncate_ids_values; [exact E|].
  - intros Es. apply sequential_ids_spec in Es as (_ & _ & Hv & _); [|by intros ? ?|by intros ? ?].
    intros a v Ev. specialize (Hv a v Ev). lia.
Qed.

(** What the thread list and the memory list of a process are made of. *)
Definition process_stacks (s : MinidumpFileWriter.ProcessSnapshot) : list MemorySnapshot :=
  omap kept_stack (MinidumpFileWriter.ps_threads s).
Definition process_extra_memory (s : MinidumpFileWriter.ProcessSnapshot) : list MemorySnapshot :=
  concat (map thr_extra_memory (MinidumpFileWriter.ps_threads s)) ++
  MinidumpFileWriter.ps_extra_memory s ++
  match MinidumpFileWriter.ps_exception s with Some e => exc_extra_memory e | None => [] end.

Lemma stacks_from_fst this k ids snapshots ths :
  Forall2 (fun s x => MinidumpThreadWriter.InitializeFromSnapshot s ids = Some x) snapshots ths ->
  map fst (stacks_from this k ths) = omap kept_stack snapshots.
Proof.
  intros Hf. revert k. induction Hf as [|s x l l' Ex _ IH]; intros k; [done|]. simpl.
  rewrite map_app, IH. destruct (thread_initialized _ _ _ Ex) as (_ & _ & _ & _ & -> & _).
  by destruct (kept_stack s).
Qed.

Lemma stacks_from_elem this k threads s q :
  (s, q) ∈ stacks_from this k threads ->
  exists j th, threads !! j = Some th /\ MinidumpThreadWriter.stack_ th = Some s /\
    q = this ++ [(k + j)%nat; 0%nat].
Proof.
  revert k. induction threads as [|th l IH]; intros k; simpl; [by intros ?%not_elem_of_nil|].
  intros [Hin|Hin]%elem_of_app.
  - destruct (MinidumpThreadWriter.stack_ th) as [s'|] eqn:Es; [|by apply not_elem_of_nil in Hin].
    apply list_elem_of_singleton in Hin as [= -> ->]. exists 0%nat, th. by rewrite Nat.add_0_r.
  - destruct (IH _ Hin) as (j & th' & Ej & Es & ->). exists (S j), th'.
    by rewrite Nat.add_succ_r.
Qed.

(** ** The streams of a process *)

(** A frozen stream registers its directory entry. *)
Ltac registers_entry :=
  intros p t; simpl; repeat (case_match; try done); intros <-%(inj Some); simpl; left.

Section Process.
  Context (UTF8ToUTF16 : bytes -> bool * list Z) (UTF16ToUTF8 : list Z -> bool * bytes).
  Context (kCPU kOS : bytes) (memory : process_memory).

Lemma stream_ok_system s x :
  MinidumpSystemInfoWriter.describes s x -> stream_ok (MinidumpSystemInfoWriter.stream UTF8ToUTF16 x).
Proof.
  intros Hd. split_and!; [done|done|by apply MinidumpSystemInfoWriter.system_info_freeze_owned, Hd|].
  unfold MinidumpSystemInfoWriter.stream, MinidumpSystemInfoWriter.Freeze. registers_entry.
Qed.

Lemma stream_ok_misc x :
  MinidumpMiscInfoWriter.arrays_ok x -> stream_ok (MinidumpMiscInfoWriter.stream x).
Proof.
  intros Hx. split_and!; [done|done|by apply MinidumpMiscInfoWriter.misc_info_freeze_owned|].
  unfold MinidumpMiscInfoWriter.stream, MinidumpMiscInfoWriter.Freeze. registers_entry.
Qed.

Lemma stream_ok_threads l :
  reads_exactly memory -> Forall MinidumpThreadWriter.thread_ok l ->
  stream_ok (MinidumpThreadListWriter.stream memory l).
Proof.
  intros Hm Hl. split_and!; [done|done|by apply MinidumpThreadListWriter.thread_list_freeze_owned|].
  unfold MinidumpThreadListWriter.stream, MinidumpThreadListWriter.Freeze. registers_entry.
Qed.

Lemma stream_ok_names l : stream_ok (thread_name_stream UTF8ToUTF16 l).
Proof.
  split_and!; [done|done|apply freeze_thread_names_owned|].
  unfold thread_name_stream, freeze_thread_names. registers_entry.
Qed.

Lemma stream_ok_exception x :
  MinidumpExceptionWriter.exception_ok x -> stream_ok (MinidumpExceptionWriter.stream x).
Proof.
  intros Hx. split_and!; [done|done|by apply MinidumpExceptionWriter.exception_freeze_owned|].
  unfold MinidumpExceptionWriter.stream, MinidumpExceptionWriter.Freeze. registers_entry.
Qed.

Lemma stream_ok_unloaded l :
  stream_ok (unloaded_module_stream UTF8ToUTF16 (unloaded_modules_from_snapshots l)).
Proof.
  split_and!; [done|done|apply freeze_unloaded_module_list_owned|].
  unfold unloaded_module_stream, freeze_unloaded_module_list. registers_entry.
Qed.

Lemma stream_ok_handles l : stream_ok (handle_data_stream UTF8ToUTF16 (handles_from_snapshots l)).
Proof.
  split_and!; [done|done|apply handles_from_snapshots_owned|].
  unfold handle_data_stream, freeze_handles. registers_entry.
Qed.

Lemma stream_ok_memory x :
  reads_exactly memory -> Forall snapshot_ok (MinidumpMemoryListWriter.children_ x) ->
  stream_ok (MinidumpMemoryListWriter.stream memory x).
Proof.
  intros Hm Hx. split_and!; [done|done|by apply MinidumpMemoryListWriter.memory_list_freeze_owned|].
  unfold MinidumpMemoryListWriter.stream, MinidumpMemoryListWriter.Freeze. registers_entry.
Qed.

Lemma stream_ok_user x :
  reads_exactly memory -> user_stream_ok memory x -> 0 <= us_stream_type x < 2 ^ 32 ->
  stream_ok (user_stream memory x).
Proof.
  intros Hm Hx Hty. split_and!; [apply Hty|apply Hty|by apply freeze_user_stream_owned|].
  intros p t. simpl. intros <-%(inj Some). simpl. left.
Qed.

(** ** Processes that the format can describe *)

Section ReadBack.

(** What a process needs so that its minidump has all of it: values in the ranges
    of the fields, strings that survive their conversion, contexts that can be
    converted back, distinct thread IDs, user streams of types that are not
    reserved, and Crashpad information for the module list to be accepted. *)
Record process_read_ok (s : MinidumpFileWriter.ProcessSnapshot) : Prop := {
  pro_pid : 0 <= MinidumpFileWriter.ps_process_id s < 2 ^ 31;
  pro_system : system_read_ok UTF8ToUTF16 (MinidumpFileWriter.ps_system s);
  pro_build : build_string_ok UTF8ToUTF16 UTF16ToUTF8 (MinidumpFileWriter.ps_system s);
  pro_threads : Forall (thread_read_ok
      (sys_architecture (MinidumpFileWriter.ps_system s))) (MinidumpFileWriter.ps_threads s);
  pro_ids : NoDup (map thr_id (MinidumpFileWriter.ps_threads s));
  pro_names : Forall (fun th => utf16_ok UTF8ToUTF16 UTF16ToUTF8 (thr_name th))
      (MinidumpFileWriter.ps_threads s);
  pro_exception : forall e, MinidumpFileWriter.ps_exception s = Some e ->
      exception_read_ok (sys_architecture (MinidumpFileWriter.ps_system s)) e;
  pro_info : crashpad_info_ok (MinidumpFileWriter.ps_report_id s) (MinidumpFileWriter.ps_client_id s)
      (MinidumpFileWriter.ps_annotations s) (MinidumpFileWriter.ps_address_mask s)
      (MinidumpFileWriter.ps_modules s);
  pro_useful : MinidumpCrashpadInfoWriter.IsUseful (MinidumpFileWriter.crashpad_info_writer s) = true;
  pro_modules : Forall (module_ok UTF8ToUTF16 UTF16ToUTF8) (MinidumpFileWriter.ps_modules s);
  pro_module_count : Z.of_nat (length (MinidumpFileWriter.ps_modules s)) <= 2 ^ 32;
  pro_regions : Forall memory_info_ok (MinidumpFileWriter.ps_memory_map s);
  pro_user : Forall (fun u => 0 <= user_stream_type u < 2 ^ 32 /\
      reserved_stream (user_stream_type u) = false)
      (concat (map mod_custom_streams (MinidumpFileWriter.ps_modules s)))
}.

(** The user streams of a process that the file keeps, with their data. *)
Definition user_stream_bytes (u : UserMinidumpStream) : bytes :=
  match user_stream_memory u with Some x => memory_bytes memory x | None => [] end.
Definition process_user_streams (s : MinidumpFileWriter.ProcessSnapshot) : list UserMinidumpStream :=
  MinidumpFileWriter.kept_user_streams [] (concat (map mod_custom_streams (MinidumpFileWriter.ps_modules s))).

(** A snapshot that was read has the parts of the process. *)
Record process_recovered (s : MinidumpFileWriter.ProcessSnapshot)
    (x : ProcessSnapshotMinidump) : Prop := {
  prec_time : SnapshotTime x = MkTimeval (u32 (tv_sec (MinidumpFileWriter.ps_snapshot_time s))) 0;
  prec_start : ProcessStartTime x = MkTimeval (u32 (tv_sec (MinidumpFileWriter.ps_start_time s))) 0;
  prec_cpu_times : ProcessCPUTimes x =
    (MkTimeval (TimevalToRoundedSeconds (MinidumpFileWriter.ps_user_time s)) 0,
     MkTimeval (TimevalToRoundedSeconds (MinidumpFileWriter.ps_system_time s)) 0);
  prec_pid : process_id_ x = MinidumpFileWriter.ps_process_id s;
  prec_report : ci_report_id (crashpad_info_ x) = MinidumpFileWriter.ps_report_id s;
  prec_client : ci_client_id (crashpad_info_ x) = MinidumpFileWriter.ps_client_id s;
  prec_mask : ci_address_mask (crashpad_info_ x) = default 0 (MinidumpFileWriter.ps_address_mask s);
  prec_annotations : annotations_simple_map_ x = MinidumpFileWriter.ps_annotations s;
  prec_modules : Forall2 module_recovered (MinidumpFileWriter.ps_modules s) (modules_ x);
  prec_system : exists y, system_snapshot_ x = Some y /\
    system_recovered (MinidumpFileWriter.ps_system s) y;
  prec_regions : mem_regions_ x = MinidumpFileWriter.ps_memory_map s;
  prec_threads : exists ids names,
    BuildMinidumpThreadIDMap (map thr_id (MinidumpFileWriter.ps_threads s)) = Some ids /\
    Forall2 (fun th y => thread_recovered memory names ids th y /\
        ThreadSnapshotMinidump.ThreadName y = thr_name th)
      (MinidumpFileWriter.ps_threads s) (threads_ x) /\
    match MinidumpFileWriter.ps_exception s, exception_snapshot_ x with
    | None, None => True
    | Some e, Some y => exception_recovered ids e y
    | _, _ => False
    end;
  prec_memory : exists cs,
    CoalesceOwnedMemory (process_stacks s) (process_extra_memory s) = Some cs /\
    extra_memory_ x = map (memory_recovered memory) (process_stacks s ++ cs);
  prec_custom : custom_streams_ x =
    map (fun u => (user_stream_type u, user_stream_bytes u)) (process_user_streams s)
}.

(** ** The file of a process *)

(** A stream that is one of a concatenation of lists. *)
Ltac in_streams :=
  cbn [MinidumpFileWriter.non_empty]; rewrite <-?app_assoc;
  repeat (apply elem_of_app; first [left; solve [repeat constructor]|right]); repeat constructor.

(** The user streams are those of a process without others. *)
Lemma kept_user_streams_ext present present' l :
  (forall u, u ∈ l -> user_stream_type u ∈ present <-> user_stream_type u ∈ present') ->
  MinidumpFileWriter.kept_user_streams present l = MinidumpFileWriter.kept_user_streams present' l.
Proof.
  revert present present'. induction l as [|u l IH]; intros present present' Hp; [done|].
  cbn [MinidumpFileWriter.kept_user_streams].
  assert (forall v, v ∈ l -> user_stream_type v ∈ present <-> user_stream_type v ∈ present') as Hl.
  { intros v Hv. apply Hp. by right. }
  destruct (user_stream_type u =? kMinidumpStreamTypeMemoryList); cbn [orb]; [by apply IH|].
  rewrite (bool_decide_ext (user_stream_type u ∈ present) (user_stream_type u ∈ present'))
    by (apply Hp; left). case_bool_decide; [by apply IH|].
  f_equal. apply IH. intros v Hv. rewrite !elem_of_app. by rewrite Hl.
Qed.

Lemma well_known_reserved s f :
  Forall (fun y => reserved_stream (StreamType y) = true)
    (MinidumpFileWriter.well_known_streams UTF8ToUTF16 memory s f).
Proof.
  unfold MinidumpFileWriter.well_known_streams.
  repeat first [apply Forall_app_2|apply List.Forall_cons; [reflexivity|]|apply List.Forall_nil
               |case_match].
Qed.

(** The names of the threads, by their IDs. *)
Lemma thread_names_spec snapshots ids l :
  thread_names_from_snapshots snapshots ids = Some l ->
  Forall2 (fun th y => ids !! thr_id th = Some (tn_thread_id y) /\ tn_name y = thr_name th) snapshots l.
Proof.
  revert l. induction snapshots as [|th snapshots IH]; intros l; simpl; [intros <-%(inj Some); constructor|].
  unfold thread_name_from_snapshot. destruct (ids !! thr_id th) as [id|] eqn:Eid; [|done].
  destruct (thread_names_from_snapshots snapshots ids) as [l'|]; [|done]. intros <-%(inj Some).
  constructor; [done|]. by apply IH.
Qed.

Lemma thread_names_distinct snapshots ids l :
  injective_map ids -> NoDup (map thr_id snapshots) ->
  Forall2 (fun th y => ids !! thr_id th = Some (tn_thread_id y) /\ tn_name y = thr_name th) snapshots l ->
  NoDup (map tn_thread_id l).
Proof.
  intros Hi Hn Hf. induction Hf as [|th y snapshots l [Ey _] Hf IH]; cbn [map] in *; [constructor|].
  apply NoDup_cons in Hn as [Hth Hn]. constructor; [|by apply IH].
  intros Hin. apply list_elem_of_fmap in Hin as (y' & E & Hy'). apply list_elem_of_lookup in Hy' as (j & Ej).
  destruct (Forall2_lookup_r _ _ _ _ _ Hf Ej) as (th' & Eth' & Ey' & _).
  apply Hth. rewrite <-E in Ey'. rewrite (Hi _ _ _ Ey Ey'). apply list_elem_of_fmap_2.
  by eapply list_elem_of_lookup_2.
Qed.

(** The parts that depend on the threads. *)
Lemma thread_parts s f :
  MinidumpFileWriter.process_ok memory s ->
  MinidumpFileWriter.parts_of UTF8ToUTF16 kCPU kOS s = Some f ->
  BuildMinidumpThreadIDMap (map thr_id (MinidumpFileWriter.ps_threads s)) =
    Some (MinidumpFileWriter.fp_ids f) /\
  Forall2 (fun th y => MinidumpThreadWriter.InitializeFromSnapshot th (MinidumpFileWriter.fp_ids f) = Some y)
    (MinidumpFileWriter.ps_threads s) (MinidumpFileWriter.fp_threads f) /\
  MinidumpMemoryListWriter.non_owned_memory_writers_ (MinidumpFileWriter.fp_memory f) =
    stacks_from [2%nat] 0 (MinidumpFileWriter.fp_threads f) /\
  MinidumpMemoryListWriter.children_ (MinidumpFileWriter.fp_memory f) = process_extra_memory s.
Proof.
  intros Hs Hf. destruct (MinidumpFileWriter.parts_total UTF8ToUTF16 kCPU kOS memory s Hs)
    as (f' & ml & Ef & _ & _ & _ & Eth & _ & _ & Eml & _). rewrite Hf in Ef. apply (inj Some) in Ef as <-.
  unfold MinidumpThreadListWriter.InitializeFromSnapshot in Eth.
  destruct (BuildMinidumpThreadIDMap _) as [ids|]; [|done].
  destruct (MinidumpThreadListWriter.add_threads _ _ _ _) as [[threads ml']|] eqn:Ea; [|done].
  injection Eth as -> -> <-. apply add_threads_spec in Ea as (ths & Et & Hinit & En & Ec).
  cbn [fst snd app length] in Et, En, Ec. subst ths.
  destruct (add_extra_memory (MinidumpFileWriter.ps_threads s) ml') as [En' Ec'].
  split; [done|]. split; [done|]. rewrite Eml. unfold MinidumpFileWriter.memory_part, process_extra_memory.
  destruct (MinidumpFileWriter.ps_exception s) as [e|];
    rewrite ?add_memory_non_owned, ?MinidumpThreadListWriter.add_memory_children, En', Ec', En, Ec;
    simpl; rewrite ?app_nil_r, <-?app_assoc; done.
Qed.

(** The user streams of a file. *)
Lemma custom_from_app tree i l l' :
  custom_from tree i (l ++ l') = custom_from tree i l ++ custom_from tree (i + length l) l'.
Proof.
  revert i. induction l as [|y l IH]; intros i; simpl; [by rewrite Nat.add_0_r|].
  rewrite IH, Nat.add_succ_comm. by destruct (reserved_stream (StreamType y)).
Qed.

Lemma custom_from_reserved tree i l :
  Forall (fun y => reserved_stream (StreamType y) = true) l -> custom_from tree i l = [].
Proof. intros Hl. revert i. induction Hl as [|y l Hy _ IH]; intros i; simpl; [done|]. by rewrite Hy, IH. Qed.

Lemma custom_from_users tree i l :
  Forall (fun u => reserved_stream (user_stream_type u) = false /\
                   user_stream_ok memory (user_stream_from_snapshot u)) l ->
  custom_from tree i (MinidumpFileWriter.user_stream_writers memory l) =
  map (fun u => (user_stream_type u, user_stream_bytes u)) l.
Proof.
  intros Hl. revert i. induction Hl as [|u l [Hu Hok] _ IH]; intros i; [done|].
  cbn [MinidumpFileWriter.user_stream_writers map custom_from].
  change (StreamType (user_stream memory (user_stream_from_snapshot u))) with (user_stream_type u).
  rewrite Hu. f_equal; [|apply IH]. f_equal. unfold stream_bytes, user_stream_bytes, memory_bytes. simpl.
  unfold object_bytes. simpl. unfold user_stream_ok in Hok. simpl in Hok.
  destruct (user_stream_memory u) as [ms|]; simpl; [|done].
  destruct Hok as [d Ed]. by rewrite Ed.
Qed.

Section File.
  Context {R : Type} `{FileSeekReaderLaws R}.
  Context (s : MinidumpFileWriter.ProcessSnapshot) (f : MinidumpFileWriter.file_parts).
  Context (x : MinidumpFileWriter.t) (tree : Tree) (file : bytes).
  Context (Hs : MinidumpFileWriter.process_ok memory s) (Hread : process_read_ok s).
  Context (Hf : MinidumpFileWriter.parts_of UTF8ToUTF16 kCPU kOS s = Some f).
  Context (Hstreams : MinidumpFileWriter.streams_ x =
    MinidumpFileWriter.process_streams UTF8ToUTF16 memory s f).
  Context (Hx : written x tree file) (Hsmall : Z.of_nat (length file) < 2 ^ 32).
  Context (sm : gmap Z (Z * Z)).
  Context (Hout : forall ty, ty ∉ map StreamType (MinidumpFileWriter.streams_ x) -> sm !! ty = None).

Abbreviation m := (final_fields tree).
Abbreviation arch := (sys_architecture (MinidumpFileWriter.ps_system s)).

(** What the directory says of the [i]-th stream. *)
Definition located (i : nat) (y : StreamWriter) (t : Tree) (o : Z) : Prop :=
  FreezeStream y [i] = Some t /\ only [i] t m /\
  sm !! StreamType y = Some (SizeOfObject (root t), o) /\ 0 < o < 2 ^ 32 /\
  SizeOfObject (root t) < 2 ^ 32 /\ holds file o (object_bytes m (root t)) /\
  Forall (stored file m) (Children t).

Context (Hin : forall i y, MinidumpFileWriter.streams_ x !! i = Some y -> exists t o, located i y t o).

Lemma found y :
  y ∈ MinidumpFileWriter.process_streams UTF8ToUTF16 memory s f -> exists i t o, located i y t o.
Proof.
  rewrite <-Hstreams. intros Hy. apply list_elem_of_lookup in Hy as (i & Ei). exists i. by apply Hin.
Qed.

Lemma absent ty :
  reserved_stream ty = true -> ty <> kMinidumpStreamTypeMemoryList ->
  ty ∉ map StreamType (MinidumpFileWriter.well_known_streams UTF8ToUTF16 memory s f) -> sm !! ty = None.
Proof.
  intros Hr Hm Hw. apply Hout. rewrite Hstreams. unfold MinidumpFileWriter.process_streams.
  rewrite !map_app, !elem_of_app. intros [?|[Hin'|Hin']]; [done| |].
  - unfold MinidumpFileWriter.user_stream_writers in Hin'. rewrite map_map in Hin'.
    apply list_elem_of_fmap in Hin' as (u & -> & Hu).
    apply MinidumpFileWriter.kept_user_streams_fresh in Hu as (Hu & _).
    pose proof (pro_user _ Hread) as Huser. rewrite Forall_forall in Huser.
    destruct (Huser u Hu) as [_ Hn]. simpl in Hr. congruence.
  - by apply list_elem_of_singleton in Hin'.
Qed.

(** [InitializeMiscInfo] and [InitializeSystemSnapshot]. *)
Lemma process_misc_info (r : R) :
  on file r -> exists r', InitializeMiscInfo UTF16ToUTF8 sm r =
    Done (before_semicolon (BuildString (MinidumpFileWriter.ps_system s)),
          MinidumpFileWriter.ps_process_id s, u32 (tv_sec (MinidumpFileWriter.ps_start_time s)),
          TimevalToRoundedSeconds (MinidumpFileWriter.ps_user_time s),
          TimevalToRoundedSeconds (MinidumpFileWriter.ps_system_time s), r') /\ on file r'.
Proof.
  intros Hr. destruct (found (MinidumpMiscInfoWriter.stream (MinidumpFileWriter.fp_misc f)))
    as (i & t & o & Ft & _ & Hsm & Ho & _ & Hh & _); [right; left|].
  destruct (MinidumpFileWriter.parts_total UTF8ToUTF16 kCPU kOS memory s Hs)
    as (f' & ml & Ef & _ & _ & Emisc & _). rewrite Hf in Ef. apply (inj Some) in Ef as <-.
  eapply misc_info_read; [exact (pro_build _ Hread)|exact (pro_pid _ Hread)|exact Emisc|exact Ft|exact Hh|lia|exact Hsm|exact Hr].
Qed.

Lemma process_system version (r : R) :
  on file r -> exists y r', InitializeSystemSnapshot sm version r = Some (Some y, arch, r') /\
    on file r' /\ system_as_read UTF8ToUTF16 (MinidumpFileWriter.ps_system s) y /\
    SystemSnapshotMinidump.OSVersionFull y = version.
Proof.
  intros Hr. destruct (found (MinidumpSystemInfoWriter.stream UTF8ToUTF16 (MinidumpFileWriter.fp_system f)))
    as (i & t & o & Ft & _ & Hsm & Ho & _ & Hh & Hst); [left|].
  destruct (MinidumpFileWriter.parts_total UTF8ToUTF16 kCPU kOS memory s Hs)
    as (f' & ml & Ef & _ & Hd & _). rewrite Hf in Ef. apply (inj Some) in Ef as <-.
  eapply system_read; [exact Hd|exact (pro_system _ Hread)|exact Ft|exact Hst|exact Hh|lia|exact Hsm|exact Hr].
Qed.

(** [InitializeMemoryInfo]. *)
Lemma process_memory_info (r : R) :
  on file r -> exists r', InitializeMemoryInfo sm r = Some (MinidumpFileWriter.ps_memory_map s, r') /\
    on file r'.
Proof.
  intros Hr. destruct (MinidumpFileWriter.ps_memory_map s) as [|mi l] eqn:El.
  - exists r. split; [|done]. unfold InitializeMemoryInfo. rewrite absent; [done|done|done|].
    unfold MinidumpFileWriter.well_known_streams. rewrite El. cbn [MinidumpFileWriter.non_empty].
    MinidumpFileWriter.fresh_type.
  - destruct (found (memory_info_stream (mi :: l))) as (i & t & o & Ft & _ & Hsm & Ho & Hsz & Hh & _).
    { unfold MinidumpFileWriter.process_streams, MinidumpFileWriter.well_known_streams. rewrite El. in_streams. }
    eapply memory_info_read; [rewrite <-El; exact (pro_regions _ Hread)|exact Ft|exact Hh|exact Ho|exact Hsz|exact Hsm|exact Hr].
Qed.

(** [InitializeThreadNames]: every thread has its name. *)
Lemma process_thread_names :
  exists names, (forall r : R, on file r -> exists r',
      InitializeThreadNames UTF16ToUTF8 sm r = Some (names, r') /\ on file r') /\
    (forall th id, th ∈ MinidumpFileWriter.ps_threads s ->
       MinidumpFileWriter.fp_ids f !! thr_id th = Some id -> default [] (names !! id) = thr_name th).
Proof.
  destruct (MinidumpFileWriter.has_thread_name s) eqn:Eh.
  2: { exists ∅. split.
       - intros r Hr. exists r. split; [|done]. unfold InitializeThreadNames.
         rewrite absent; [done|done|done|].
         unfold MinidumpFileWriter.well_known_streams. rewrite Eh. MinidumpFileWriter.fresh_type.
       - intros th id Hth _. rewrite lookup_empty. simpl. destruct (thr_name th) as [|c n] eqn:En; [done|].
         assert (MinidumpFileWriter.has_thread_name s = true) as Et; [|congruence].
         apply existsb_exists. exists th. split; [by apply list_elem_of_In|by rewrite En]. }
  destruct (thread_parts s f Hs Hf) as (Eids & _ & _).
  destruct (MinidumpFileWriter.parts_total UTF8ToUTF16 kCPU kOS memory s Hs)
    as (f' & ml & Ef & _ & _ & _ & _ & En & _). rewrite Hf in Ef. apply (inj Some) in Ef as <-.
  apply thread_names_spec in En.
  destruct (found (thread_name_stream UTF8ToUTF16 (MinidumpFileWriter.fp_names f)))
    as (i & t & o & Ft & Hon & Hsm & Ho & _ & Hh & Hst).
  { unfold MinidumpFileWriter.process_streams, MinidumpFileWriter.well_known_streams. rewrite Eh. in_streams. }
  pose proof (thread_id_map_values _ _ Eids) as Hids.
  exists (add_names (MinidumpFileWriter.fp_names f) ∅). split.
  - intros r Hr. eapply thread_names_read; [|exact Ft|exact Hon|exact Hh|lia|exact Hsmall|exact Hst|exact Hsm|exact Hr].
    apply Forall_forall. intros y Hy. apply list_elem_of_lookup in Hy as (j & Ej).
    destruct (Forall2_lookup_r _ _ _ _ _ En Ej) as (th & Eth & Ey & Enm).
    split; [by eapply Hids|]. rewrite Enm. pose proof (pro_names _ Hread) as Hnames.
    rewrite Forall_forall in Hnames. apply Hnames. by eapply list_elem_of_lookup_2.
  - intros th id Hth Eid. apply list_elem_of_lookup in Hth as (j & Ej).
    destruct (Forall2_lookup_l _ _ _ _ _ En Ej) as (y & Ey & Ey1 & Ey2).
    rewrite Eid in Ey1. injection Ey1 as ->. rewrite add_names_lookup; [done| |by eapply list_elem_of_lookup_2|done].
    destruct (thread_id_map_spec _ _ Eids) as (Hi & _).
    by eapply thread_names_distinct; [exact Hi|exact (pro_ids _ Hread)|exact En].
Qed.

(** [InitializeThreads]. *)
Lemma process_threads (r : R) :
  on file r -> exists names xs r',
    InitializeThreads UTF16ToUTF8 sm arch r = Some (names, xs, r') /\ on file r' /\
    Forall2 (fun th y =>
      thread_recovered memory names (MinidumpFileWriter.fp_ids f) th y /\
      ThreadSnapshotMinidump.ThreadName y = thr_name th) (MinidumpFileWriter.ps_threads s) xs.
Proof.
  intros Hr. destruct process_thread_names as (names & Hnames & Hname).
  destruct (thread_parts s f Hs Hf) as (Eids & Hinit & _).
  destruct (found (MinidumpThreadListWriter.stream memory (MinidumpFileWriter.fp_threads f)))
    as (i & t & o & Ft & Hon & Hsm & Ho & _ & Hh & Hst); [right; right; left|].
  edestruct (threads_stream_read memory (MinidumpFileWriter.pok_memory _ _ Hs) file m
    UTF16ToUTF8) as (xs & r' & E & Hr' & Hrec);
    [by eapply thread_id_map_values|exact (MinidumpFileWriter.pok_stacks _ _ Hs)|exact (pro_threads _ Hread)
    |exact Hinit|exact Ft|exact Hon|exact Hh|lia|exact Hsmall|exact Hst|exact Hsm|exact Hnames|exact Hr|].
  exists names, xs, r'. split_and!; [exact E|done|]. apply Forall2_same_length_lookup.
  split; [by eapply Forall2_length|]. intros j th y Eth Ey.
  pose proof (Forall2_lookup_lr _ _ _ _ _ _ Hrec Eth Ey) as Hy. split; [done|].
  rewrite (trec_name _ _ _ _ _ Hy). eapply Hname; [by eapply list_elem_of_lookup_2|].
  exact (trec_id _ _ _ _ _ Hy).
Qed.

(** [InitializeExceptionSnapshot]. *)
Lemma process_exception (r : R) :
  on file r -> exists o r', InitializeExceptionSnapshot sm arch r = Done (o, r') /\
    on file r' /\
    match MinidumpFileWriter.ps_exception s, o with
    | None, None => True
    | Some e, Some y => exception_recovered (MinidumpFileWriter.fp_ids f) e y
    | _, _ => False
    end.
Proof.
  intros Hr. destruct (thread_parts s f Hs Hf) as (Eids & _).
  destruct (MinidumpFileWriter.parts_total UTF8ToUTF16 kCPU kOS memory s Hs)
    as (f' & ml & Ef & _ & _ & _ & _ & _ & Eexc & _). rewrite Hf in Ef. apply (inj Some) in Ef as <-.
  unfold MinidumpFileWriter.exception_part in Eexc.
  destruct (MinidumpFileWriter.ps_exception s) as [e|] eqn:Ee.
  - destruct (MinidumpExceptionWriter.InitializeFromSnapshot e _) as [w|] eqn:Ew; [|done].
    injection Eexc as Efp.
    destruct (found (MinidumpExceptionWriter.stream w)) as (i & t & o & Ft & _ & Hsm & Ho & _ & Hh & Hst).
    { unfold MinidumpFileWriter.process_streams, MinidumpFileWriter.well_known_streams.
      rewrite <-Efp. destruct (MinidumpFileWriter.has_thread_name s); in_streams. }
    edestruct exception_read as (y & r' & E & Hr' & Hy);
      [by eapply thread_id_map_values|exact (pro_exception _ Hread e Ee)|apply (MinidumpFileWriter.pok_exception _ _ Hs e Ee)|exact Ew|exact Ft|exact Hst|exact Hh
      |lia|exact Hsm|exact Hr|]. by exists (Some y), r'.
  - injection Eexc as Efp. exists None, r. split; [|done]. unfold InitializeExceptionSnapshot.
    rewrite absent; [done|done|done|]. unfold MinidumpFileWriter.well_known_streams. rewrite <-Efp.
    MinidumpFileWriter.fresh_type.
Qed.

(** The descriptors of the stacks in the memory list. *)
Lemma stacks_described :
  Forall (fun sq => described memory file m (fst sq) (snd sq, 0%nat))
    (stacks_from [2%nat] 0 (MinidumpFileWriter.fp_threads f)).
Proof.
  destruct (thread_parts s f Hs Hf) as (_ & Hinit & _).
  destruct (Hin 2%nat (MinidumpThreadListWriter.stream memory (MinidumpFileWriter.fp_threads f)))
    as (t & o & Ft & Hon & _ & _ & _ & _ & Hst); [by rewrite Hstreams|].
  simpl in Ft. unfold MinidumpThreadListWriter.Freeze in Ft.
  destruct (freeze_children _ _ _) as [ts|] eqn:Ec; [|done].
  destruct (AssignIfInRange _ _); [|done]. apply (inj Some) in Ft as <-. cbn [Children] in Hst.
  pose proof (threads_owned memory (MinidumpFileWriter.pok_memory _ _ Hs) _ _ _
    (MinidumpFileWriter.pok_stacks _ _ Hs) Hinit) as Hown.
  apply Forall_forall. intros [st q] Hq. apply stacks_from_elem in Hq as (j & th & Ej & Es & ->).
  destruct (entry_tree file m _ _ _ _ _ ts j th Hown Ec Hon Hst Ej) as (tj & Fj & Onj & Cj).
  destruct (Forall2_lookup_r _ _ _ _ _ Hinit Ej) as (sn & Esn & Ei).
  destruct (thread_tree memory (MinidumpFileWriter.pok_memory _ _ Hs) file m th ([2%nat] ++ [j]) tj) as (c & oc & _ & _ & _ & _ & Hd); try done.
  { apply (thread_initialized _ _ _ Ei). pose proof (MinidumpFileWriter.pok_stacks _ _ Hs) as Hok.
    rewrite Forall_forall in Hok. apply Hok. by eapply list_elem_of_lookup_2. }
  rewrite Es in Hd. by destruct Hd as [_ Hd].
Qed.

(** [InitializeExtraMemory]. *)
Lemma process_memory_list (r : R) :
  on file r -> exists cs r',
    CoalesceOwnedMemory (process_stacks s) (process_extra_memory s) = Some cs /\
    InitializeExtraMemory sm r = Some (map (memory_recovered memory) (process_stacks s ++ cs), r') /\
    on file r'.
Proof.
  intros Hr. destruct (thread_parts s f Hs Hf) as (_ & Hinit & En & Ec).
  destruct (found (MinidumpMemoryListWriter.stream memory (MinidumpFileWriter.fp_memory f)))
    as (i & t & o & Ft & _ & Hsm & Ho & _ & Hh & Hst).
  { unfold MinidumpFileWriter.process_streams. rewrite !elem_of_app. right. right. left. }
  destruct (extra_memory_read memory (MinidumpFileWriter.pok_memory _ _ Hs) file m
    (MinidumpFileWriter.fp_memory f) [i] t r o sm) as (cs & r' & Eco & E & Hr'); try done.
  - destruct (MinidumpFileWriter.parts_total UTF8ToUTF16 kCPU kOS memory s Hs)
      as (f' & ml & Ef & _ & _ & _ & _ & _ & _ & _ & _ & Hch). rewrite Hf in Ef. by apply (inj Some) in Ef as <-.
  - rewrite En. apply stacks_described.
  - rewrite En, (stacks_from_fst _ _ _ _ _ Hinit), Ec in *. eauto.
Qed.

(** [InitializeCrashpadInfo] and [InitializeModules]. *)
Lemma process_info (r : R) :
  on file r -> exists info r', InitializeCrashpadInfo sm r =
      Some (info, MinidumpFileWriter.ps_annotations s, r') /\ on file r' /\
    ci_report_id info = MinidumpFileWriter.ps_report_id s /\
    ci_client_id info = MinidumpFileWriter.ps_client_id s /\
    ci_address_mask info = default 0 (MinidumpFileWriter.ps_address_mask s) /\
    forall r : R, on file r -> exists xs r', InitializeModules UTF16ToUTF8 sm info r = Some (xs, r') /\
      on file r' /\ Forall2 module_recovered (MinidumpFileWriter.ps_modules s) xs.
Proof.
  intros Hr. pose proof (pro_useful _ Hread) as Hu.
  destruct (found (MinidumpCrashpadInfoWriter.stream (MinidumpFileWriter.crashpad_info_writer s)))
    as (i & t & o & Ft & Hon & Hsm & Ho & _ & Hh & Hst).
  { unfold MinidumpFileWriter.process_streams, MinidumpFileWriter.well_known_streams. rewrite Hu. in_streams. }
  destruct (found (module_list_stream UTF8ToUTF16 (modules_from_snapshots (MinidumpFileWriter.ps_modules s))))
    as (j & tj & oj & Fj & _ & Sj & Bj & _ & Hhj & Cj).
  { unfold MinidumpFileWriter.process_streams, MinidumpFileWriter.well_known_streams. in_streams. }
  destruct (crashpad_info_read _ _ _ _ _ sm [i] t _ file r o (pro_info _ Hread) Ft Hon Hh Ho Hst Hr Hsm)
    as (Hsome & Hoc & r2 & E2 & On2).
  eexists _, r2. split; [exact E2|]. split_and!; try done. intros r' Hr'.
  set (info := MkCrashpadInfo _ _ _ _ _ _ _).
  destruct (links_recovered (MinidumpFileWriter.ps_modules s) m [i] file info r')
    as (links & r3 & E3 & On3 & Hlinks); try done.
  - exact (ok_modules _ _ _ _ _ (pro_info _ Hread)).
  - exact (pro_module_count _ Hread).
  - eapply (modules_read UTF8ToUTF16 UTF16ToUTF8); [exact (pro_modules _ Hread)|exact Fj|exact Hhj|exact Bj
      |exact Hsmall|exact Cj|exact Sj|exact E3|exact On3|exact Hlinks].
Qed.

(** [InitializeCustomMinidumpStreams]. *)
Lemma process_custom (r : R) :
  on file r -> exists r', InitializeCustomMinidumpStreams (written_directory x tree) r =
    Some (map (fun u => (user_stream_type u, user_stream_bytes u)) (process_user_streams s), r') /\
    on file r'.
Proof.
  intros Hr. destruct (custom_streams_read x tree file 0 (MinidumpFileWriter.streams_ x) r Hx)
    as (r' & E & Hr'); [done|done|]. exists r'. split; [|done]. unfold written_directory. rewrite E.
  do 2 f_equal. rewrite Hstreams. unfold MinidumpFileWriter.process_streams.
  rewrite !custom_from_app, custom_from_reserved by apply well_known_reserved. cbn [app].
  rewrite (custom_from_reserved _ _ [_]) by (by apply Forall_singleton). rewrite app_nil_r.
  pose proof (pro_user _ Hread) as Huser. rewrite Forall_forall in Huser.
  rewrite custom_from_users.
  - unfold process_user_streams. f_equal. apply kept_user_streams_ext. intros u Hu.
    split; [|by intros ?%not_elem_of_nil]. intros Hty. exfalso.
    apply list_elem_of_fmap in Hty as (y & Ey & Hy).
    pose proof (well_known_reserved s f) as Hw. rewrite Forall_forall in Hw. specialize (Hw y Hy).
    rewrite <-Ey in Hw. destruct (Huser u Hu) as [_ Hn]. congruence.
  - apply Forall_forall. intros u (Hu & _)%MinidumpFileWriter.kept_user_streams_fresh.
    split; [by apply Huser|]. pose proof (MinidumpFileWriter.pok_user _ _ Hs) as Hok.
    rewrite Forall_forall in Hok. by apply Hok.
Qed.

End File.

(** [ProcessSnapshotMinidump::Initialize] of the file. *)
Lemma process_read {R : Type} `{FileSeekReaderLaws R} s f x tree file (r : R) :
  MinidumpFileWriter.process_ok memory s -> process_read_ok s ->
  MinidumpFileWriter.parts_of UTF8ToUTF16 kCPU kOS s = Some f ->
  MinidumpFileWriter.streams_ x = MinidumpFileWriter.process_streams UTF8ToUTF16 memory s f ->
  MinidumpFileWriter.TimeDateStamp x = u32 (tv_sec (MinidumpFileWriter.ps_snapshot_time s)) ->
  written x tree file -> Z.of_nat (length file) < 2 ^ 32 -> on file r ->
  exists ps r', Initialize UTF16ToUTF8 r = Done (ps, r') /\ process_recovered s ps.
Proof.
  intros Hs Hread Hf Hstreams Hts Hx Hsmall Hr.
  destruct (directory_recovered_lemma x tree file r Hx Hr)
    as (directory & sm & r1 & E1 & On1 & -> & Esm & Hout & Hin).
  destruct (process_info s f x tree file Hread Hstreams Hsmall sm Hin r1 On1)
    as (info & r2 & E2 & On2 & Erep & Ecli & Emask & Hmod).
  destruct (process_misc_info s f x tree file Hs Hread Hf Hstreams sm Hin r2 On2) as (r3 & E3 & On3).
  destruct (Hmod r3 On3) as (mods & r4 & E4 & On4 & Hmods).
  destruct (process_system s f x tree file Hs Hread Hf Hstreams sm Hin
    (before_semicolon (BuildString (MinidumpFileWriter.ps_system s))) r4 On4)
    as (sys & r5 & E5 & On5 & Hsys & Hver).
  destruct (process_memory_info s f x tree file Hread Hstreams sm Hout Hin r5 On5) as (r6 & E6 & On6).
  destruct (process_memory_list s f x tree file Hs Hf Hstreams Hsmall sm Hin r6 On6)
    as (cs & r7 & Eco & E7 & On7).
  destruct (process_threads s f x tree file Hs Hread Hf Hstreams Hsmall sm Hout Hin r7 On7)
    as (names & ths & r8 & E8 & On8 & Hths).
  destruct (process_custom s f x tree file Hs Hread Hstreams Hx r8 On8) as (r9 & E9 & On9).
  destruct (process_exception s f x tree file Hs Hread Hf Hstreams sm Hout Hin r9 On9)
    as (exc & r10 & E10 & On10 & Hexc).
  unfold Initialize. rewrite E1. cbn [lift outcome_bind]. rewrite Esm. cbn [lift outcome_bind].
  rewrite E2. cbn [lift outcome_bind]. rewrite E3. cbn [lift outcome_bind].
  rewrite E4. cbn [lift outcome_bind]. rewrite E5. cbn [lift outcome_bind].
  rewrite E6. cbn [lift outcome_bind]. rewrite E7. cbn [lift outcome_bind].
  rewrite E8. cbn [lift outcome_bind]. rewrite E9. cbn [lift outcome_bind].
  rewrite E10. cbn [outcome_bind]. eexists _, r10. split; [reflexivity|].
  split; unfold SnapshotTime; simpl; try done; [by rewrite Hts|by eauto using system_as_read_recovered| |by eauto].
  exists (MinidumpFileWriter.fp_ids f), names. split_and!; try done.
  by destruct (thread_parts s f Hs Hf).
Qed.

(** The streams of a process can all be written. *)
Lemma process_streams_ok s f :
  MinidumpFileWriter.process_ok memory s -> process_read_ok s ->
  MinidumpFileWriter.parts_of UTF8ToUTF16 kCPU kOS s = Some f ->
  Forall stream_ok (MinidumpFileWriter.process_streams UTF8ToUTF16 memory s f).
Proof.
  intros Hs Hread Hf. destruct (MinidumpFileWriter.parts_total UTF8ToUTF16 kCPU kOS memory s Hs)
    as (f' & ml & Ef & _ & Hd & Emisc & _ & _ & Eexc & _ & Hth & Hch).
  rewrite Hf in Ef. apply (inj Some) in Ef as <-. pose proof (MinidumpFileWriter.pok_memory _ _ Hs) as Hm.
  unfold MinidumpFileWriter.process_streams, MinidumpFileWriter.well_known_streams.
  repeat apply Forall_app_2.
  - apply List.Forall_cons; [by eapply stream_ok_system|]. apply List.Forall_cons.
    { apply stream_ok_misc. by apply MinidumpMiscInfoWriter.misc_info_initialize in Emisc as [? _]. }
    by apply Forall_singleton, stream_ok_threads.
  - case_match; [|constructor]. apply Forall_singleton, stream_ok_names.
  - destruct (MinidumpFileWriter.fp_exception f) as [w|] eqn:Ew; [|constructor].
    apply Forall_singleton, stream_ok_exception.
    unfold MinidumpFileWriter.exception_part in Eexc.
    destruct (MinidumpFileWriter.ps_exception s) as [e|] eqn:Ee; [|done].
    destruct (MinidumpExceptionWriter.InitializeFromSnapshot e _) as [w'|] eqn:Ew'; [|done].
    injection Eexc as <-. by eapply MinidumpExceptionWriter.initialize_ok.
  - apply Forall_singleton, stream_ok_modules.
  - case_match; [|constructor]. apply Forall_singleton, stream_ok_unloaded.
  - case_match; [|constructor]. apply Forall_singleton, stream_ok_info.
  - case_match; [|constructor]. apply Forall_singleton, stream_ok_memory_info.
  - case_match; [|constructor]. apply Forall_singleton, stream_ok_handles.
  - apply Forall_fmap, Forall_forall. intros u (Hu & _)%MinidumpFileWriter.kept_user_streams_fresh.
    pose proof (pro_user _ Hread) as Huser. pose proof (MinidumpFileWriter.pok_user _ _ Hs) as Hok.
    rewrite Forall_forall in Huser, Hok. apply stream_ok_user; [done|by apply Hok|by apply Huser].
  - by apply Forall_singleton, stream_ok_memory.
Qed.

(** C1.  A process written to a minidump is read back from it.  For every process
    that the format can describe ([process_read_ok]: a process ID below 2^31, distinct
    thread IDs, strings that survive their conversion to UTF-16 and back, values in the
    ranges of their fields, some Crashpad information, and user streams of types that
    the reader does not reserve), [MinidumpFileWriter::InitializeFromSnapshot]
    passes its checks; if the file it lays out fits into 4 GiB, [WriteMinidump]
    succeeds on an empty file of any kind that has room, whether or not it may
    seek; and on any reader of the bytes it has written,
    [ProcessSnapshotMinidump::Initialize] succeeds and finds the process: its
    times in whole seconds, of 32 bits, and its IDs, its annotations, every thread with its name, its
    context and its stack, the exception, every module with its annotations, the
    memory map, the memory as it was coalesced, and the user streams; and of its system
    the architecture, the number of CPUs, the version numbers of the operating system
    and whether it is a server, the vendor of an x86 CPU, a CPU revision of 16 bits, the
    operating system unless it is iOS, and a full version without semicolons. *)
Theorem minidump_round_trip {F : Type} `{FileWriterCapacity F} {R : Type} `{FileSeekReaderLaws R}
    (s : MinidumpFileWriter.ProcessSnapshot) (allow_seek : bool) (f : F) :
  MinidumpFileWriter.process_ok memory s -> process_read_ok s ->
  writer_valid f -> contents f = [] -> position f = 0%nat ->
  exists x, MinidumpFileWriter.InitializeFromSnapshot UTF8ToUTF16 kCPU kOS memory s = Some x /\
    forall tree, MinidumpFileWriter.Freeze x MINIDUMP_SIGNATURE = Some tree ->
      assignable (layout tree) -> layout_size tree < 2 ^ 32 -> layout_size tree <= capacity ->
      exists f', MinidumpFileWriter.WriteMinidump x allow_seek f = (true, f') /\
        forall r : R, on (contents f') r ->
          exists ps r', Initialize UTF16ToUTF8 r = Done (ps, r') /\ process_recovered s ps.
Proof.
  intros Hs Hread Hv Hc Hp.
  destruct (MinidumpFileWriter.initialize_from_snapshot_adds UTF8ToUTF16 kCPU kOS memory s Hs)
    as (x & parts & Ex & Ef & Htypes & _ & Hts & Hstreams).
  exists x. split; [exact Ex|]. intros tree Et Ha Hsz Hcap.
  destruct (write_minidump_written x tree allow_seek f) as (f' & E & Hw & Hlen); try done.
  { split; try done; [rewrite Hstreams; by apply process_streams_ok|rewrite Hts; by apply wrap_bound]. }
  exists f'. split; [exact E|]. intros r Hr. eapply process_read; try done. by rewrite Hlen.
Qed.

End ReadBack.
End Process.

(** ** An example *)

(** The example process, with user streams of its own types only. *)
Definition example_read_process : MinidumpFileWriter.ProcessSnapshot :=
  MinidumpFileWriter.example_process_with
    (MinidumpFileWriter.example_module_with [MinidumpFileWriter.example_user_stream]).

Lemma example_read_process_ok :
  MinidumpFileWriter.process_ok MinidumpFileWriter.example_memory example_read_process.
Proof. apply MinidumpFileWriter.example_process_with_ok, Forall_singleton. vm_compute. eauto. Qed.

Lemma example_utf16_ok s :
  bool_decide (Forall is_byte s) && (Z.of_nat (length s) <? 1000) = true ->
  utf16_ok MinidumpFileWriter.example_ascii MinidumpFileWriter.example_ascii s.
Proof.
  intros [Hb%bool_decide_eq_true Hl%Z.ltb_lt]%andb_true_iff. split_and!; simpl; [|lia|done].
  eapply Forall_impl; [exact Hb|]. unfold is_byte. intros c Hc. lia.
Qed.

Lemma example_process_read_ok :
  process_read_ok MinidumpFileWriter.example_ascii MinidumpFileWriter.example_ascii
    example_read_process.
Proof.
  split.
  - decided.
  - split; [decided|decided|decided].
  - split; [by apply example_utf16_ok|split; decided].
  - apply Forall_singleton. split; [decided|decided|decided|reflexivity].
  - decided.
  - apply Forall_singleton. by apply example_utf16_ok.
  - intros e [= <-]. split; [decided|decided|decided|decided|reflexivity].
  - split; [decided|decided|decided|by split|intros z; done|]. apply Forall_singleton, example_info_ok.
  - reflexivity.
  - apply Forall_singleton, example_module_ok.
  - decided.
  - decided.
  - decided.
Qed.

Definition example_read_file : MinidumpFileWriter.t :=
  default MinidumpFileWriter.init (MinidumpFileWriter.InitializeFromSnapshot
    MinidumpFileWriter.example_ascii (str "amd64") (str "linux") MinidumpFileWriter.example_memory
    example_read_process).

Lemma minidump_round_trip_witness :
  exists f' ps r', MinidumpFileWriter.WriteMinidump example_read_file true StringFile.empty = (true, f') /\
    Initialize MinidumpFileWriter.example_ascii (example_reader f') = Done (ps, r') /\
    process_id_ ps = 77 /\ annotations_simple_map_ ps = [(str "pa", str "pb")] /\
    custom_streams_ ps = [(131072, [7; 7; 7])] /\ length (threads_ ps) = 1%nat.
Proof.
  destruct (minidump_round_trip (R := StringFile.t) MinidumpFileWriter.example_ascii
    MinidumpFileWriter.example_ascii (str "amd64") (str "linux") MinidumpFileWriter.example_memory
    example_read_process true StringFile.empty example_read_process_ok
    example_process_read_ok) as (x & Ex & Hx); [vm_compute; congruence|reflexivity|reflexivity|].
  assert (x = example_read_file) as -> by (unfold example_read_file; rewrite Ex; reflexivity).
  destruct (Hx (example_tree_of example_read_file)) as (f' & E & Hr);
    [apply example_frozen; vm_compute; reflexivity|decided|decided|vm_compute; congruence|].
  destruct (Hr (example_reader f')) as (ps & r' & Ei & Hrec).
  { change f' with (snd (true, f')). rewrite <-E.
    split; [|reflexivity]. split; [vm_compute; congruence|vm_compute; reflexivity]. }
  exists f', ps, r'. split; [exact E|]. split; [exact Ei|]. destruct Hrec as [_ _ _ Hpid _ _ _ Hann _ _ _ Hth _ Hcu].
  split_and!; [exact Hpid|exact Hann|exact Hcu|].
  destruct Hth as (ids & names & _ & Hth & _). by rewrite <-(Forall2_length _ _ _ Hth).
Defined.
